(* ===== verification/_CoqProject ===== *)
-Q . S2P
Prelude.v
Words.v
Bytes.v
Probe.v
ProbeFacts.v
Os.v
Vmallocator.v
Hashtable.v
HashtableFacts.v
HashtableMap.v
ProbeMap.v
Thashtable.v
ThashtableMap.v
Lhashtable.v
LhashtableFacts.v
LhashtableAlloc.v
LhashtableMap.v
LhashtableRun.v
Heap.v
HeapFacts.v
HashtableVect.v
Bitvect.v
Search.v
Dlist.v
TimeoutHandler.v
FileWriter.v
Ringbuf.v
FileMapper.v
Ringfile.v
RingfileFacts.v
Mempool.v
CtxPool.v
Memalloc.v
MemallocFacts.v
Vmbuf.v
VmbufFacts.v
ObjectPool.v
Vmfile.v
VmfileFacts.v
Ds.v
DsVarFacts.v
Uri.v
Base64.v
Cstring.v
Disk.v
FileUtils.v
FileUtilsFacts.v
FileUtilsRemove.v
StringTable.v
Cookies.v
UriQuery.v
HttpHeaders.v
HttpVhost.v
MimeTypes.v
Calendar.v
HttpText.v
Connection.v
HttpServer.v
HttpServerFacts.v
HttpFiberFacts.v
HttpServerRun.v
HttpServerRequests.v
HttpFileServer.v
HttpFileServerFacts.v
HttpFileServerRun.v
HttpFileServerMore.v
HttpClient.v
HttpClientFacts.v
HttpClientBody.v
HttpClientRun.v
ClientPool.v
HttpExchange.v
ClientPoolFacts.v
ClientPoolRun.v
Json.v
JsonDom.v
JsonForest.v
JsonDomFacts.v
JsonDomParse.v
JsonDomRead.v
