(* ===== verification/Prelude.v ===== *)
(** * ribs2: a verified model of the library

    ribs2 (Robust Infrastructure for Backend Systems) is a C library for servers: memory-mapped
    containers and buffers, and on top of them an event-driven HTTP server and client whose
    connections are fibers.  This development translates the library's own logic into functions
    and proves what its callers rely on.  File names below without a directory are files of this
    development; [src/] and [include/] are those of the repository.

    ** How the code is modelled

    - A w-bit integer is a [Z]; where C wraps, [u8], [u16], [u32] or [u64] is written out
      ([Prelude.v], [Words.v]).
    - Memory is explicit.  An access outside of an allocation, a mapping or a file makes the
      operation return [None] ([crash]); a theorem that an operation returns [Some] is therefore
      also a theorem of memory safety.  Error codes are ordinary results.
    - Functions that mutate are functions from the state to the result and the new state, in the
      state monad [ST] where many calls are threaded, and in the fiber monad [FB]
      ([Connection.v]) where a connection may also end.
    - The operating system is a parameter: [os] ([Os.v]) says which calls succeed, and a theorem
      holds for every [os], or names what it needs of it ([can_grow_to], [can_truncate_to]).
      What a socket delivers, in which pieces, and how much it accepts per call, are lists in the
      state of a fiber; the theorems quantify over them.
    - Loops that are not structural take fuel.  Each use site computes enough of it from the state
      (the number of buckets for a probe, the bytes that can still arrive for a connection, 64 for
      a size that doubles), and the theorems prove that the result is [Some], so no run is cut
      short by it.

    ** Files, bottom up

    - [Prelude.v], [Words.v], [Bytes.v]: integers, [include/ilog2.h], [include/hash_funcs.h], byte
      sequences and little-endian words.
    - [Probe.v], [ProbeFacts.v], [ProbeMap.v]: the open addressing that the hash
      tables share: probing, moving the buckets when a table doubles, closing the gap of a removal.
      [Buckets] and [BucketLaws] are the interface the tables implement.
    - [Vmallocator.v]: [src/vmallocator.c], [src/_vmallocator.c].
    - [Hashtable.v], [HashtableFacts.v], [HashtableMap.v]: [src/hashtable.c].  [Thashtable.v],
      [ThashtableMap.v]: [src/thashtable.c].  [HashtableVect.v]:
      [src/hashtable_vect.c].
    - [Lhashtable.v], [LhashtableFacts.v], [LhashtableAlloc.v], [LhashtableMap.v],
      [LhashtableRun.v]: the persistent table of [src/lhashtable.c].
    - [Heap.v], [HeapFacts.v]: [src/heap.c].  [Bitvect.v]: [include/bitvect.h].  [Search.v]:
      [src/search.c], [include/binary_search.h].  [Dlist.v]: [include/list.h].
    - [TimeoutHandler.v]: [src/timeout_handler.c] over [Dlist.v], as a transition system.
    - [Ringbuf.v], [Ringfile.v], [RingfileFacts.v]: [src/ringbuf.c], [src/ringfile.c].
    - [Mempool.v], [Memalloc.v], [MemallocFacts.v]: [src/mempool.c], [src/memalloc.c], and the
      allocators of the fibers, [src/_malloc.c].
    - [Vmbuf.v], [VmbufFacts.v]: [src/vmbuf.c], [src/_vmbuf.c].  [Growable] is what a kind of
      memory promises to the buffer.  [Vmfile.v], [VmfileFacts.v]: [src/_vmfile.c],
      [src/_vmbuf_impl.c].  [ObjectPool.v]: [include/object_pool.h], over blocks and a buffer of
      pointers.
    - [Os.v]: system calls and files.  [FileWriter.v]:
      [src/_file_writer.c], writing through a window of the file that is mapped.  [FileMapper.v]:
      [src/file_mapper.c].  [Ds.v], [DsVarFacts.v]: columns in files,
      [include/ds_field.h], [src/ds_var_field.c].
    - [CtxPool.v]: [src/ctx_pool.c], the stacks of the fibers.
    - [Uri.v], [Base64.v], [Json.v]: encoders, decoders and the event-driven parser.
    - [JsonDom.v]: [src/json_dom.c].  [JsonForest.v]: the list of children per node that the
      pointers of a tree stand for.  [JsonDomFacts.v]: parsing keeps it.
      [JsonDomParse.v], [JsonDomRead.v]: JSON values, their text, and reading them back.
    - [Disk.v]: directories, symbolic links, [realpath] and [stat] over the files of [Os.v].
      [FileUtils.v], [FileUtilsFacts.v], [FileUtilsRemove.v]: [src/file_utils.c].
      [Calendar.v]: what is used of <time.h>.
    - [Cstring.v]: what the parsers use of <string.h> and <stdlib.h>.  [StringTable.v]: the
      interface of a table from strings to strings, implemented by [Hashtable.v].  Against it:
      [Cookies.v] ([src/http_cookies.c]), [UriQuery.v] (query parameters of [src/_uri_decode.c]),
      [HttpHeaders.v] ([src/http_headers.c]), [HttpVhost.v]
      ([src/http_vhost.c]).  [MimeTypes.v]: [src/mime_types.c].
    - [HttpText.v], [Connection.v]: protocol strings, lines and
      numbers in them, fibers with buffers, reads in pieces.
    - [HttpServer.v] ([src/http_server.c]) with [HttpServerFacts.v],
      [HttpFiberFacts.v], [HttpServerRun.v], [HttpServerRequests.v].
    - [HttpFileServer.v] ([src/http_file_server.c], and [http_server_sendfile] and the lists of
      directories of [src/http_server.c]) with [HttpFileServerFacts.v], [HttpFileServerRun.v],
      [HttpFileServerMore.v].
    - [HttpClient.v] ([src/http_client_pool.c], [src/_http_client_pool.c]) with
      [HttpClientFacts.v], [HttpClientBody.v], [HttpClientRun.v].
    - [HttpExchange.v]: client and server together.
    - [ClientPool.v]: the pool of client connections of [src/http_client_pool.c], over
      [Hashtable.v], [Dlist.v], [CtxPool.v] and [TimeoutHandler.v].
      [ClientPoolFacts.v], [ClientPoolRun.v]: runs of the pool, as a transition system.

    ** What is proved

    - The three hash tables refine finite maps: any sequence of insertions, replacements, lookups
      and removals answers like [gmap], while the tables grow, and for [lhashtable] also across
      closing and opening; records stay inside of the allocated memory and apart.
    - The containers behave like their specifications: sorting, FIFO order, sets of bits, sorted
      search, lists, pool chunks that do not overlap, strings and buffers as byte lists.
    - Round trips: bit vectors and indexes, percent-encoding, base64, JSON escapes, cookies, query
      parameters, ring files and mapped files across closing and opening,
      files written by [file_writer], columns, and JSON values through [json_dom].
    - Idle connections are closed after the timeout, and only those ([TimeoutHandler.v]).
    - The fibers of server and client end on every input without an access outside of their
      buffers; well-formed requests and responses, however fragmented, are taken apart correctly;
      and a request and its answer pass through both ends unchanged.
    - The file server sends exactly the bytes of the file the path leads to, through links and
      dots, also in compressed copies that it makes and keeps; it opens nothing whose name does not
      start with that of its directory, and answers 304 exactly for the tag the file has.
    - [mkdir_recursive] creates exactly what is missing, where no file or link is in the way;
      [rmdir_recursive] ends and removes exactly what is below the directory.
    - [json_dom_parse] builds a well-formed forest of nodes from every text; the stacks of
      [ctx_pool], each a slice of a mapping of the pool, and the objects of [object_pool] never overlap; virtual hosts and file types are chosen as the tables say.
    - A connection of the client pool has one client at a time, for the server it is connected to,
      and is reused for the same server.
    - Errors, some of them by example: keys lost by [hashtable_vect_grow], the element removed by
      [heap_remove], a negative content length, a size line split between two reads, columns of the wrong type or not
      closed, a write that never ends after [file_writer_lseek], files of a sibling directory whose
      name starts with that of the server's, incomplete compressed copies that are served later,
      directories emptied through a link, an entry overwritten after [hashtable_vect_open], a
      product that wraps in [ribs_calloc].

    ** Not modelled

    - Scheduling: [context.c], [context_asm.S], [epoll_worker.c], [timer.c], [timer_worker.c],
      [sleep.c] switch stacks and wait for the kernel; the fibers are run by the theorems instead.
    - Wrappers of other systems: MySQL ([mysql_*.c]), TLS ([ribs_ssl.c]), zlib ([ribs_zlib.c]), mail
      ([sendemail.c]), [ribify.c], [daemonize.c], [logger.c].
    - Floating point ([kmeans.c]).  Code generators ([src/code_gen/], [code_gen_ds_loader.c]), whose
      output is C text.  Examples and tests.
    - The index of paths of [json_dom.c], and its floating-point values.
    - Failing allocations of [thashtable], [heap] and the JSON parsers, whose nesting level is an
      unbounded integer; the difference between the clocks of [gettimeofday] and of timers.
    - Of the HTTP parts: accepting connections, TLS, downloads into a file.

    ** What could follow

    The index of paths of [json_dom.c] over [Hashtable.v]; downloads into a file of
    [http_client_pool.c]; the event loop of [epoll_worker.c] as a transition system over the fibers. *)

From stdpp Require Import base numbers list gmap.
From Stdlib Require Import ZArith Lia Permutation.

#[global] Open Scope Z_scope.

(** ** Machine integers

    A w-bit unsigned integer is a [Z] in [0, 2^w); every C operation that can
    wrap is followed by the corresponding [uN]. *)

Definition u8 (z : Z) : Z := z mod 2 ^ 8.
Definition u16 (z : Z) : Z := z mod 2 ^ 16.
Definition u32 (z : Z) : Z := z mod 2 ^ 32.
Definition u64 (z : Z) : Z := z mod 2 ^ 64.

Create HintDb ribs.

(** Case analysis on the boolean comparisons of [Z] the code is written with. *)
Ltac zcase :=
  match goal with
  | |- context [?a =? ?b] => destruct (Z.eqb_spec a b)
  | |- context [?a <? ?b] => destruct (Z.ltb_spec a b)
  | |- context [?a <=? ?b] => destruct (Z.leb_spec a b)
  | |- context [?a >? ?b] => rewrite (Z.gtb_ltb a b); destruct (Z.ltb_spec b a)
  | |- context [?a >=? ?b] => rewrite (Z.geb_leb a b); destruct (Z.leb_spec b a)
  end.

Ltac zcases := repeat (zcase; try lia).

Ltac zcase_in H :=
  match type of H with
  | context [?a =? ?b] => destruct (Z.eqb_spec a b)
  | context [?a <? ?b] => destruct (Z.ltb_spec a b)
  | context [?a <=? ?b] => destruct (Z.leb_spec a b)
  | context [?a >? ?b] => rewrite (Z.gtb_ltb a b) in H; destruct (Z.ltb_spec b a)
  | context [?a >=? ?b] => rewrite (Z.geb_leb a b) in H; destruct (Z.leb_spec b a)
  end.

Lemma u8_small z : 0 <= z < 2 ^ 8 -> u8 z = z.
Proof. apply Z.mod_small. Qed.
Lemma u16_small z : 0 <= z < 2 ^ 16 -> u16 z = z.
Proof. apply Z.mod_small. Qed.
Lemma u32_small z : 0 <= z < 2 ^ 32 -> u32 z = z.
Proof. apply Z.mod_small. Qed.
Lemma u64_small z : 0 <= z < 2 ^ 64 -> u64 z = z.
Proof. apply Z.mod_small. Qed.

Lemma u8_range z : 0 <= u8 z < 2 ^ 8.
Proof. apply Z.mod_pos_bound; lia. Qed.
Lemma u32_range z : 0 <= u32 z < 2 ^ 32.
Proof. apply Z.mod_pos_bound; lia. Qed.
Lemma u64_range z : 0 <= u64 z < 2 ^ 64.
Proof. apply Z.mod_pos_bound; lia. Qed.

#[export] Hint Resolve u8_range u32_range u64_range : ribs.

(** ** Bit operations as arithmetic *)

Lemma land_ones_mod x n : 0 <= n -> Z.land x (2 ^ n - 1) = x mod 2 ^ n.
Proof. intros. rewrite <- Z.land_ones by lia. f_equal. rewrite Z.ones_equiv. lia. Qed.

(** Rounding up to a power of two by mask, [(x + a - 1) & ~(a - 1)]. *)
Lemma round_up_mask x n :
  0 <= n -> Z.land (x + (2 ^ n - 1)) (Z.lnot (2 ^ n - 1)) = (x + (2 ^ n - 1)) / 2 ^ n * 2 ^ n.
Proof.
  intros Hn.
  replace (2 ^ n - 1) with (Z.ones n) by (rewrite Z.ones_equiv; lia).
  rewrite <- Z.ldiff_land, Z.ldiff_ones_r by lia.
  rewrite Z.shiftl_mul_pow2, Z.shiftr_div_pow2 by lia. reflexivity.
Qed.

Lemma round_up_mask_bounds x n :
  0 <= n -> 0 <= x ->
  let r := Z.land (x + (2 ^ n - 1)) (Z.lnot (2 ^ n - 1)) in
  x <= r < x + 2 ^ n /\ r mod 2 ^ n = 0.
Proof.
  intros Hn Hx. cbv zeta. rewrite round_up_mask by lia.
  assert (0 < 2 ^ n) by (apply Z.pow_pos_nonneg; lia).
  split; [|apply Z.mod_mul; lia].
  pose proof (Z.div_mod (x + (2 ^ n - 1)) (2 ^ n) ltac:(lia)).
  pose proof (Z.mod_pos_bound (x + (2 ^ n - 1)) (2 ^ n) ltac:(lia)). lia.
Qed.

(** ** Lists *)

Lemma filter_ext_in {A} (P Q : A -> Prop) `{!forall x, Decision (P x), !forall x, Decision (Q x)} (l : list A) :
  (forall x, x ∈ l -> P x <-> Q x) -> filter P l = filter Q l.
Proof.
  induction l as [|x l IH]; intros Hl; [done|]. rewrite !filter_cons.
  rewrite IH by (intros; apply Hl; by right). pose proof (Hl x ltac:(by left)).
  destruct (decide (P x)), (decide (Q x)); tauto.
Qed.

Lemma filter_map {A B} (f : A -> B) (P : B -> Prop) `{!forall x, Decision (P x)} (l : list A) :
  filter P (f <$> l) = f <$> filter (fun x => P (f x)) l.
Proof.
  induction l as [|x l IH]; [done|]. cbn [fmap list_fmap]. rewrite !filter_cons.
  change (list_fmap _ _ f l) with (f <$> l). rewrite IH. by destruct (decide (P (f x))).
Qed.

Lemma filter_none {A} (P : A -> Prop) `{!forall x, Decision (P x)} (l : list A) :
  (forall x, x ∈ l -> ~ P x) -> filter P l = [].
Proof.
  induction l as [|x l IH]; intros Hl; [done|]. rewrite filter_cons, decide_False by (apply Hl; by left).
  apply IH. intros y Hy. apply Hl. by right.
Qed.

Lemma filter_all {A} (P : A -> Prop) `{!forall x, Decision (P x)} (l : list A) : (forall x, x ∈ l -> P x) -> filter P l = l.
Proof. induction l as [|x l IH]; intros Hall; [done|]. rewrite filter_cons, decide_True by (apply Hall; by left). f_equal. apply IH. intros y Hy. apply Hall. by right. Qed.

(** ** A state monad with crashes

    [None] is an access the C program must not make, or fuel that ran out. *)
Definition ST (S A : Type) : Type := S -> option (A * S).
#[export] Instance ST_ret {S} : MRet (ST S) := fun A x s => Some (x, s).
#[export] Instance ST_bind {S} : MBind (ST S) := fun A B k m s => match m s with Some (x, s) => k x s | None => None end.
Definition crash {S A} : ST S A := fun _ => None.

Lemma bind_eval {S A B} (m : ST S A) (k : A -> ST S B) s x s' : m s = Some (x, s') -> (m ≫= k) s = k x s'.
Proof. intros E. unfold mbind, ST_bind. by rewrite E. Qed.
