(* ===== verification/Words.v ===== *)
(** * Words: [include/ilog2.h] and [include/hash_funcs.h]

    The bit-scan helpers that size every growing buffer of the library, and the
    hash functions of the hash tables. *)

From stdpp Require Import base numbers list.
From Stdlib Require Import ZArith Lia.
From S2P Require Import Prelude.

(** ** [include/ilog2.h] *)

(** [ilog2]: the index of the highest set bit.  Both the [bsr] and the [clz]
    variant return it for a non-zero argument; at zero [bsr] leaves its result
    undefined and the portable branch returns 0, which is what is modelled. *)
Definition ilog2 (x : Z) : Z := if x =? 0 then 0 else Z.log2 x.

(** [2U << ilog2(x-1)], with [x-1] and the shift taken modulo 2^32. *)
Definition next_p2 (x : Z) : Z := u32 (Z.shiftl 2 (ilog2 (u32 (x - 1)))).

Definition ilog2_64 (x : Z) : Z := if x =? 0 then 0 else Z.log2 x.

Definition next_p2_64 (x : Z) : Z := u64 (Z.shiftl 2 (ilog2_64 (u64 (x - 1)))).

Lemma log2_pred_bounds x : 2 <= x -> x <= 2 ^ (Z.log2 (x - 1) + 1) < 2 * x.
Proof.
  intros Hx. pose proof (Z.log2_nonneg (x - 1)) as Hn.
  pose proof (Z.log2_spec (x - 1) ltac:(lia)) as [Hlo Hhi].
  rewrite Z.pow_add_r in * by lia. change (2 ^ 1) with 2.
  unfold Z.succ in Hhi. rewrite Z.pow_add_r in Hhi by lia. change (2 ^ 1) with 2 in Hhi.
  destruct (Z.eq_dec (2 ^ Z.log2 (x - 1)) x); lia.
Qed.

Lemma shiftl_two k : 0 <= k -> Z.shiftl 2 k = 2 ^ (k + 1).
Proof. intros. rewrite Z.shiftl_mul_pow2, Z.pow_add_r by lia. lia. Qed.

(** Powers of two below [2^(n+1)] are at most [2^n]. *)
Lemma pow2_le_of_lt a n : 0 <= a -> 0 <= n -> 2 ^ a < 2 ^ (n + 1) -> 2 ^ a <= 2 ^ n.
Proof.
  intros Ha Hn H. apply Z.pow_le_mono_r; [lia|].
  apply Z.pow_lt_mono_r_iff in H; lia.
Qed.

Lemma next_p2_64_eq x : 2 <= x <= 2 ^ 63 -> next_p2_64 x = 2 ^ (Z.log2 (x - 1) + 1).
Proof.
  intros Hx. unfold next_p2_64, ilog2_64. rewrite (u64_small (x - 1)) by lia.
  zcases. pose proof (Z.log2_nonneg (x - 1)). rewrite shiftl_two by lia.
  pose proof (log2_pred_bounds x ltac:(lia)) as [_ Hhi].
  apply u64_small. split; [apply Z.pow_nonneg; lia|].
  assert (2 ^ (Z.log2 (x - 1) + 1) <= 2 ^ 63); [|lia].
  apply pow2_le_of_lt; lia.
Qed.

Lemma next_p2_eq x : 2 <= x <= 2 ^ 31 -> next_p2 x = 2 ^ (Z.log2 (x - 1) + 1).
Proof.
  intros Hx. unfold next_p2, ilog2. rewrite (u32_small (x - 1)) by lia.
  zcases. pose proof (Z.log2_nonneg (x - 1)). rewrite shiftl_two by lia.
  pose proof (log2_pred_bounds x ltac:(lia)) as [_ Hhi].
  apply u32_small. split; [apply Z.pow_nonneg; lia|].
  assert (2 ^ (Z.log2 (x - 1) + 1) <= 2 ^ 31); [|lia].
  apply pow2_le_of_lt; lia.
Qed.

(** ** [include/hash_funcs.h]

    A key is the list of its bytes, each in [0, 256). *)

Definition hashcode2 (key : list Z) : Z :=
  foldl (fun h p => Z.lxor (u32 (u32 (Z.shiftl h 5) + h)) p) 5381 key.

Definition hashcode_djb_64 (key : list Z) : Z :=
  foldl (fun h p => u64 (u64 (u64 (Z.shiftl h 5) + h) + p)) 5381 key.

Definition hashcode (key : list Z) : Z :=
  foldl (fun h p => u32 (Z.lxor h p * 0x811C9DC5)) 0 key.

Lemma hashcode_range key : 0 <= hashcode key < 2 ^ 32.
Proof.
  unfold hashcode. assert (forall h, 0 <= h < 2 ^ 32 ->
    0 <= foldl (fun h p => u32 (Z.lxor h p * 0x811C9DC5)) h key < 2 ^ 32) as H.
  { induction key as [|p key IH]; cbn; [auto|]. intros. apply IH, u32_range. }
  apply H. lia.
Qed.
#[export] Hint Resolve hashcode_range : ribs.

(** *** MurmurHash2, 64 bit *)

Definition murmur_m : Z := 0xc6a4a7935bd1e995.

(** [*data++] on a little-endian machine: eight bytes, least significant first. *)
Definition le64 (bs : list Z) : Z := foldr (fun b acc => b + Z.shiftl acc 8) 0 bs.

Definition murmur_mix (k : Z) : Z :=
  let k := u64 (k * murmur_m) in
  let k := Z.lxor k (Z.shiftr k 47) in
  u64 (k * murmur_m).

(** The body of [while(data != end)]: one 8-byte block. *)
Definition murmur_block (h : Z) (bs : list Z) : Z :=
  u64 (Z.lxor h (murmur_mix (le64 bs)) * murmur_m).

Fixpoint murmur_blocks (n : nat) (h : Z) (data : list Z) : Z * list Z :=
  match n with
  | O => (h, data)
  | S n' => murmur_blocks n' (murmur_block h (take 8 data)) (drop 8 data)
  end.

(** The fall-through [switch(len & 7)]: the remaining [len & 7] bytes are xored in from
    the highest, then one multiplication; nothing happens in the missing case 0. *)
Definition murmur_tail (h : Z) (data2 : list Z) (r : nat) : Z :=
  match r with
  | O => h
  | _ => u64 (foldr (fun i h => Z.lxor h (Z.shiftl (nth i data2 0) (8 * Z.of_nat i))) h
                    (seq 0 r) * murmur_m)
  end.

(** [len] is the length of the key and [seed ^ len] is taken in 32 bits ([unsigned int]
    xor [int]) before it is widened. *)
Definition hash_murmur2_64_universal (key : list Z) (seed : Z) : Z :=
  let len := Z.of_nat (length key) in
  let h := u32 (Z.lxor seed len) in
  let '(h, data2) := murmur_blocks (Z.to_nat (len / 8)) h key in
  let h := murmur_tail h data2 (Z.to_nat (Z.land len 7)) in
  let h := Z.lxor h (Z.shiftr h 47) in
  let h := u64 (h * murmur_m) in
  Z.lxor h (Z.shiftr h 47).
