(* ===== verification/Bytes.v ===== *)
(** * Bytes: words and ranges in a list of bytes

    The contents of a mapped file is a list of bytes; a [size_t] field of a header is eight of
    them, least significant first. *)

From stdpp Require Import base numbers list.
From Stdlib Require Import ZArith Lia.
From S2P Require Import Prelude Words.

(** The [n] bytes from [x] on, and the bytes with [l] written at [x]. *)
Definition subrange (f : list Z) (x n : Z) : list Z := take (Z.to_nat n) (drop (Z.to_nat x) f).
Definition splice (f : list Z) (x : Z) (l : list Z) : list Z := take (Z.to_nat x) f ++ l ++ drop (Z.to_nat x + length l) f.

Definition bytes64 (v : Z) : list Z := (fun i => Z.shiftr v (8 * i) mod 2 ^ 8) <$> seqZ 0 8.
Definition get64 (f : list Z) (x : Z) : Z := le64 (subrange f x 8).
Definition put64 (f : list Z) (x v : Z) : list Z := splice f x (bytes64 v).

(** [ftruncate]: cut off or filled with zeros. *)
Definition truncate (f : list Z) (n : Z) : list Z := take (Z.to_nat n) f ++ replicate (Z.to_nat n - length f) 0.

Lemma length_splice f x l : 0 <= x -> x + Z.of_nat (length l) <= Z.of_nat (length f) -> length (splice f x l) = length f.
Proof. intros Hx Hl. unfold splice. rewrite !length_app, length_take, length_drop. lia. Qed.

Lemma lookup_splice f x l (i : nat) : 0 <= x -> x + Z.of_nat (length l) <= Z.of_nat (length f) ->
  splice f x l !! i = if (decide (Z.to_nat x <= i < Z.to_nat x + length l)%nat) then l !! (i - Z.to_nat x)%nat else f !! i.
Proof.
  intros Hx Hl. unfold splice. destruct (decide _) as [Hi|Hi].
  - rewrite lookup_app_r by (rewrite length_take; lia). rewrite length_take, Nat.min_l by lia. by rewrite lookup_app_l by lia.
  - destruct (decide (i < Z.to_nat x)%nat).
    + rewrite lookup_app_l by (rewrite length_take; lia). by rewrite lookup_take_lt by lia.
    + rewrite lookup_app_r by (rewrite length_take; lia). rewrite lookup_app_r by (rewrite length_take; lia).
      rewrite length_take, Nat.min_l, lookup_drop by lia. f_equal. lia.
Qed.

Lemma lookup_subrange f x n (i : nat) : (i < Z.to_nat n)%nat -> subrange f x n !! i = f !! (Z.to_nat x + i)%nat.
Proof. intros Hi. unfold subrange. by rewrite lookup_take_lt, lookup_drop. Qed.

Lemma length_subrange f x n : 0 <= x -> 0 <= n -> x + n <= Z.of_nat (length f) -> length (subrange f x n) = Z.to_nat n.
Proof. intros. unfold subrange. rewrite length_take, length_drop. lia. Qed.

Lemma subrange_splice_same f x l :
  0 <= x -> x + Z.of_nat (length l) <= Z.of_nat (length f) -> subrange (splice f x l) x (Z.of_nat (length l)) = l.
Proof.
  intros Hx Hl. unfold subrange, splice. rewrite drop_app_length' by (rewrite length_take; lia).
  by rewrite take_app_length' by lia.
Qed.

Lemma subrange_splice_disjoint f x l y n :
  0 <= x -> x + Z.of_nat (length l) <= Z.of_nat (length f) -> 0 <= y -> y + n <= x \/ x + Z.of_nat (length l) <= y ->
  subrange (splice f x l) y n = subrange f y n.
Proof.
  intros Hx Hl Hy Hd. apply list_eq. intros i. destruct (decide (i < Z.to_nat n)%nat) as [Hi|Hi].
  - rewrite !lookup_subrange by done. rewrite lookup_splice by done. by rewrite decide_False by lia.
  - unfold subrange. by rewrite !lookup_take_ge by lia.
Qed.

(** A write inside the range that is read. *)
Lemma subrange_splice_inside f x l y n :
  0 <= y <= x -> x + Z.of_nat (length l) <= y + n -> y + n <= Z.of_nat (length f) ->
  subrange (splice f x l) y n = splice (subrange f y n) (x - y) l.
Proof.
  intros Hx Hl Hn. apply list_eq. intros i. assert (length (subrange f y n) = Z.to_nat n) by (apply length_subrange; lia).
  destruct (decide (i < Z.to_nat n)%nat) as [Hi|Hi].
  - rewrite lookup_subrange by done. rewrite !lookup_splice by lia. rewrite lookup_subrange by done.
    destruct (decide (Z.to_nat x <= Z.to_nat y + i < Z.to_nat x + length l)%nat).
    + rewrite decide_True by lia. f_equal. lia.
    + by rewrite decide_False by lia.
  - rewrite (lookup_ge_None_2 (splice (subrange f y n) _ _)) by (rewrite length_splice; lia).
    unfold subrange. by rewrite lookup_take_ge by lia.
Qed.

Lemma subrange_app (a b c : list Z) x n : x = Z.of_nat (length a) -> n = Z.of_nat (length b) -> subrange (a ++ b ++ c) x n = b.
Proof. intros -> ->. unfold subrange. rewrite !Nat2Z.id, drop_app_length. apply take_app_length. Qed.

Lemma subrange_all f : subrange f 0 (Z.of_nat (length f)) = f.
Proof. unfold subrange. rewrite Nat2Z.id. apply take_ge. done. Qed.

(** Eight bytes and the number they stand for. *)
Lemma le64_bytes64 v : 0 <= v < 2 ^ 64 -> le64 (bytes64 v) = v.
Proof.
  intros Hv. unfold bytes64, le64. change (seqZ 0 8) with [0; 1; 2; 3; 4; 5; 6; 7]. cbn [fmap list_fmap foldr].
  rewrite !Z.shiftl_mul_pow2, !Z.shiftr_div_pow2 by lia.
  replace (2 ^ (8 * 0)) with 1 by lia. rewrite Z.div_1_r.
  assert (Hstep : forall i, 0 <= i -> v / 2 ^ (8 * i) = (v / 2 ^ (8 * i)) mod 2 ^ 8 + v / 2 ^ (8 * (i + 1)) * 2 ^ 8).
  { intros i Hi. rewrite (Z.div_mod (v / 2 ^ (8 * i)) (2 ^ 8)) at 1 by lia. rewrite Z.div_div by lia.
    rewrite <- Z.pow_add_r by lia. replace (8 * i + 8) with (8 * (i + 1)) by lia. lia. }
  pose proof (Hstep 0 ltac:(lia)) as H0. pose proof (Hstep 1 ltac:(lia)) as H1. pose proof (Hstep 2 ltac:(lia)) as H2.
  pose proof (Hstep 3 ltac:(lia)) as H3. pose proof (Hstep 4 ltac:(lia)) as H4. pose proof (Hstep 5 ltac:(lia)) as H5.
  pose proof (Hstep 6 ltac:(lia)) as H6. pose proof (Hstep 7 ltac:(lia)) as H7.
  replace (2 ^ (8 * 0)) with 1 in H0 by lia. rewrite Z.div_1_r in H0. cbn [Z.add Pos.add Pos.succ] in *.
  assert (v / 2 ^ (8 * 8) = 0) as H8 by (apply Z.div_small; lia).
  change (0 + 1) with 1 in *. change (1 + 1) with 2 in *. change (2 + 1) with 3 in *. change (3 + 1) with 4 in *.
  change (4 + 1) with 5 in *. change (5 + 1) with 6 in *. change (6 + 1) with 7 in *. change (7 + 1) with 8 in *. lia.
Qed.

Lemma length_bytes64 v : length (bytes64 v) = 8%nat.
Proof. reflexivity. Qed.

Lemma length_put64 f x v : 0 <= x -> x + 8 <= Z.of_nat (length f) -> length (put64 f x v) = length f.
Proof. intros. by apply length_splice. Qed.

Lemma get64_put64 f x v : 0 <= x -> x + 8 <= Z.of_nat (length f) -> 0 <= v < 2 ^ 64 -> get64 (put64 f x v) x = v.
Proof.
  intros Hx Hl Hv. unfold get64, put64. change 8 with (Z.of_nat (length (bytes64 v))).
  rewrite subrange_splice_same by done. by apply le64_bytes64.
Qed.

Lemma subrange_put64 f x v y n : 0 <= x -> x + 8 <= Z.of_nat (length f) -> 0 <= y -> y + n <= x \/ x + 8 <= y ->
  subrange (put64 f x v) y n = subrange f y n.
Proof. intros. by apply subrange_splice_disjoint. Qed.

Lemma get64_put64_ne f x v y : 0 <= x -> x + 8 <= Z.of_nat (length f) -> 0 <= y -> y + 8 <= x \/ x + 8 <= y ->
  get64 (put64 f x v) y = get64 f y.
Proof. intros. unfold get64. by rewrite subrange_put64. Qed.

Lemma get64_splice_ne f x l y : 0 <= x -> x + Z.of_nat (length l) <= Z.of_nat (length f) -> 0 <= y -> y + 8 <= x \/ x + Z.of_nat (length l) <= y ->
  get64 (splice f x l) y = get64 f y.
Proof. intros. unfold get64. by rewrite subrange_splice_disjoint. Qed.

Lemma length_truncate f n : length (truncate f n) = Z.to_nat n.
Proof. unfold truncate. rewrite length_app, length_take, length_replicate. lia. Qed.

Lemma truncate_same f n : Z.of_nat (length f) = n -> truncate f n = f.
Proof. intros <-. unfold truncate. rewrite Nat2Z.id, Nat.sub_diag, take_ge by lia. apply app_nil_r. Qed.
