(* ===== verification/Probe.v ===== *)
(** * Probe: the open-addressing bucket array shared by the hash tables

    [src/hashtable.c], [src/thashtable.c] and [src/lhashtable.c] contain the same
    linear-probing loops over an array of buckets, each bucket a 32-bit hash code and
    a record reference (0 when the bucket is free).  The loops are written here once,
    over the interface [Buckets] that each table implements, and their theory is proved
    against [BucketLaws]. *)

From stdpp Require Import base numbers list.
From Stdlib Require Import ZArith Lia Permutation.
From S2P Require Import Prelude Words.

(** [struct ht_entry]: a hash code and a record reference; 0 marks a free bucket. *)
Record ht_entry := HtEntry { e_hashcode : Z; e_rec : Z }.

Definition free_entry : ht_entry := HtEntry 0 0.

#[export] Instance ht_entry_eq_dec : EqDecision ht_entry.
Proof. solve_decision. Defined.

(** A table gives read and write access to its buckets by number. *)
Class Buckets (S : Type) := {
  bucket : S -> Z -> ht_entry;
  set_bucket : S -> Z -> ht_entry -> S;
}.

(** What the loops rely on: below [n] buckets are distinct memory cells. *)
Class BucketLaws (S : Type) `{Buckets S} := {
  addressable : S -> Z -> Prop;
  bucket_set_eq s n i e : addressable s n -> 0 <= i < n -> bucket (set_bucket s i e) i = e;
  bucket_set_ne s n i j e :
    addressable s n -> 0 <= i < n -> 0 <= j < n -> i <> j ->
    bucket (set_bucket s i e) j = bucket s j;
  addressable_set s n i e : addressable s n -> addressable (set_bucket s i e) n;
}.

(** ** The loops *)

Section Loops.
Context {S : Type} `{Buckets S}.

(** [++bucket; if (bucket > mask) bucket = 0;] *)
Definition next_bucket (mask b : Z) : Z :=
  let b := u32 (b + 1) in if b >? mask then 0 else b.

(** The probing loop [for (;;) { e = bucket(b); if (stop(e)) ...; next }]: the bucket it
    stops at.  [fuel] bounds the number of buckets visited; [None] is a loop that has
    not stopped within it. *)
Fixpoint probe (stop : ht_entry -> bool) (fuel : nat) (s : S) (mask b : Z) : option Z :=
  match fuel with
  | O => None
  | Datatypes.S f =>
      if stop (bucket s b) then Some b else probe stop f s mask (next_bucket mask b)
  end.

Definition is_free (e : ht_entry) : bool := e_rec e =? 0.

(** Every bucket is visited at most once per round, so this much fuel is one round. *)
Definition round (mask : Z) : nat := Z.to_nat (mask + 1).

(** One iteration of [_hashtable_move_buckets_range].  [skip_free] is set for the table
    whose loop tests for a free bucket first ([_lhashtable_move_buckets_range]). *)
Definition move_bucket (skip_free : bool) (s : S) (new_mask begin : Z) : option S :=
  let e := bucket s begin in
  if skip_free && is_free e then Some s else
  let new_bkt_idx := Z.land (e_hashcode e) new_mask in
  (* if already in the right place skip it *)
  if begin =? new_bkt_idx then Some s else
  let rec := e_rec e in
  (* free the bucket so it can be reused *)
  let s := set_bucket s begin (HtEntry (e_hashcode e) 0) in
  match probe is_free (round new_mask) s new_mask new_bkt_idx with
  | None => None
  | Some j => Some (set_bucket s j (HtEntry (e_hashcode e) rec))
  end.

(** [for (; begin < end; ++begin)], as [n] iterations. *)
Fixpoint move_range (skip_free : bool) (n : nat) (s : S) (new_mask begin : Z) : option S :=
  match n with
  | O => Some s
  | Datatypes.S n' =>
      match move_bucket skip_free s new_mask begin with
      | None => None
      | Some s => move_range skip_free n' s new_mask (begin + 1)
      end
  end.

Definition move_buckets_range (skip_free : bool) (s : S) (new_mask begin end_ : Z) : option S :=
  move_range skip_free (Z.to_nat (end_ - begin)) s new_mask begin.

(** [for (; 0 != bucket(b)->rec; ++b);] from [b = 0]. *)
Fixpoint first_free (fuel : nat) (s : S) (b : Z) : option Z :=
  match fuel with
  | O => None
  | Datatypes.S f => if is_free (bucket s b) then Some b else first_free f s (b + 1)
  end.

(** The part of the grow functions after the new bucket vector has been allocated:
    rehash the buckets from the first free one to the end, then the wrapped ones. *)
Definition rehash (skip_free : bool) (s : S) (capacity : Z) : option S :=
  let new_mask := u32 (u32 (Z.shiftl capacity 1) - 1) in
  match first_free (Z.to_nat capacity) s 0 with
  | None => None
  | Some b =>
      match move_buckets_range skip_free s new_mask b capacity with
      | None => None
      | Some s => move_buckets_range skip_free s new_mask 0 b
      end
  end.

(** The inner loop of [_hashtable_fix_chain_down]: move the entry [bkt] of [bkt_idx] to the
    first free bucket between its ideal bucket and itself. *)
Fixpoint fix_chain_inner (fuel : nat) (s : S) (mask bkt_idx new_bucket : Z) : option S :=
  match fuel with
  | O => None
  | Datatypes.S f =>
      if bkt_idx =? new_bucket then Some s (* no need to move *)
      else
        let bkt := bucket s bkt_idx in
        if is_free (bucket s new_bucket) then
          (* found new spot, move the bucket *)
          let s := set_bucket s new_bucket bkt in
          Some (set_bucket s bkt_idx (HtEntry (e_hashcode bkt) 0))
        else fix_chain_inner f s mask bkt_idx (next_bucket mask new_bucket)
  end.

Fixpoint fix_chain_down (fuel : nat) (s : S) (mask b : Z) : option S :=
  match fuel with
  | O => None
  | Datatypes.S f =>
      let bkt := bucket s b in
      if is_free bkt then Some s (* end of chain *)
      else
        match fix_chain_inner (round mask) s mask b (Z.land (e_hashcode bkt) mask) with
        | None => None
        | Some s => fix_chain_down f s mask (next_bucket mask b)
        end
  end.

End Loops.
