(* ===== verification/ProbeFacts.v ===== *)
(** * ProbeFacts: the theory of the shared probing loops

    Buckets are arranged on a circle.  [dist cap a b] is the number of probing steps from
    [a] to [b]; [reach] is the open-addressing invariant: from the ideal bucket of an
    entry to the bucket that holds it there is no free bucket.  The theorems of this file
    say what each loop of [Probe] does to [reach] and to the multiset of entries. *)

From stdpp Require Import base numbers list.
From Stdlib Require Import ZArith Lia Permutation.
From S2P Require Import Prelude Words Probe.

(** ** Distances on the circle of [cap] buckets *)

Definition dist (cap a b : Z) : Z := if a <=? b then b - a else b - a + cap.

Lemma dist_cases cap a b :
  (a <= b /\ dist cap a b = b - a) \/ (b < a /\ dist cap a b = b - a + cap).
Proof. unfold dist. zcase; [left|right]; lia. Qed.

(** Turns every distance into the two linear cases that define it. *)
Ltac dist_facts :=
  repeat match goal with
  | H : context [dist ?c ?a ?b] |- _ =>
      lazymatch goal with
      | _ : (a <= b /\ dist c a b = _) \/ _ |- _ => fail
      | _ => pose proof (dist_cases c a b)
      end
  | |- context [dist ?c ?a ?b] =>
      lazymatch goal with
      | _ : (a <= b /\ dist c a b = _) \/ _ |- _ => fail
      | _ => pose proof (dist_cases c a b)
      end
  end.
Ltac dlia := dist_facts; lia.

Lemma dist_range cap a b : 0 <= a < cap -> 0 <= b < cap -> 0 <= dist cap a b < cap.
Proof. intros. dlia. Qed.

Lemma dist_same cap a : dist cap a a = 0.
Proof. dlia. Qed.

Lemma dist_inj cap z a b :
  0 <= z < cap -> 0 <= a < cap -> 0 <= b < cap -> dist cap z a = dist cap z b -> a = b.
Proof. intros. dlia. Qed.

(** Seen from [z], the path from [a] to [b] is an interval unless it crosses [z]. *)
Lemma dist_between cap z a b q :
  0 <= z < cap -> 0 <= a < cap -> 0 <= b < cap -> 0 <= q < cap ->
  dist cap z a <= dist cap z b ->
  (dist cap a q <= dist cap a b <-> dist cap z a <= dist cap z q <= dist cap z b).
Proof. intros. dlia. Qed.

Lemma next_bucket_eq cap b :
  0 <= b < cap -> cap <= 2 ^ 32 -> next_bucket (cap - 1) b = if b =? cap - 1 then 0 else b + 1.
Proof.
  intros Hb Hc. unfold next_bucket. destruct (Z.eqb_spec b (cap - 1)) as [->|].
  - replace (cap - 1 + 1) with cap by lia. destruct (Z.eq_dec cap (2 ^ 32)) as [->|].
    + reflexivity.
    + rewrite u32_small by lia. zcases; lia.
  - rewrite u32_small by lia. zcases; lia.
Qed.

Lemma next_bucket_range cap b :
  0 <= b < cap -> cap <= 2 ^ 32 -> 0 <= next_bucket (cap - 1) b < cap.
Proof. intros. rewrite next_bucket_eq by lia. zcases. Qed.

Lemma dist_next cap b p :
  0 <= b < cap -> 0 <= p < cap -> cap <= 2 ^ 32 -> p <> b ->
  dist cap (next_bucket (cap - 1) b) p = dist cap b p - 1.
Proof. intros. rewrite next_bucket_eq by lia. zcases; dlia. Qed.

(** ** Capacities are powers of two *)

Definition is_cap (cap : Z) : Prop := exists k, 0 <= k /\ cap = 2 ^ k /\ cap <= 2 ^ 32.

Definition home (cap : Z) (e : ht_entry) : Z := Z.land (e_hashcode e) (cap - 1).

Lemma home_mod cap e : is_cap cap -> home cap e = e_hashcode e mod cap.
Proof. intros (k & Hk & -> & _). apply land_ones_mod; lia. Qed.

Lemma is_cap_pos cap : is_cap cap -> 0 < cap <= 2 ^ 32.
Proof. intros (k & Hk & -> & Hle). split; [apply Z.pow_pos_nonneg; lia|auto]. Qed.

Lemma home_range cap e : is_cap cap -> 0 <= home cap e < cap.
Proof.
  intros Hc. rewrite home_mod by auto. apply Z.mod_pos_bound. apply is_cap_pos in Hc. lia.
Qed.

(** When the table doubles, an entry keeps its ideal bucket or gets its upper image. *)
Lemma home_double cap e :
  is_cap cap -> is_cap (2 * cap) ->
  home (2 * cap) e = home cap e \/ home (2 * cap) e = home cap e + cap.
Proof.
  intros Hc Hc2. pose proof (is_cap_pos _ Hc). rewrite !home_mod by auto.
  rewrite (Z.mul_comm 2 cap), Z.rem_mul_r by lia.
  pose proof (Z.mod_pos_bound (e_hashcode e / cap) 2 ltac:(lia)).
  assert ((e_hashcode e / cap) mod 2 = 0 \/ (e_hashcode e / cap) mod 2 = 1) as [-> | ->]
    by lia; lia.
Qed.

(** ** Lists with one cell changed *)

Lemma filter_insert {A} (P : A -> Prop) `{!forall x, Decision (P x)} (l : list A) i x y :
  l !! i = Some x ->
  filter P (<[i:=y]> l) = filter P (take i l) ++ filter P [y] ++ filter P (drop (S i) l)
  /\ filter P l = filter P (take i l) ++ filter P [x] ++ filter P (drop (S i) l).
Proof.
  intros Hx. assert (Hi : (i < length l)%nat) by (eapply lookup_lt_Some; eauto).
  split.
  - rewrite insert_take_drop by auto. rewrite filter_app.
    change (y :: drop (S i) l) with ([y] ++ drop (S i) l). by rewrite filter_app.
  - rewrite <- (take_drop_middle l i x) at 1 by auto.
    rewrite filter_app. change (x :: drop (S i) l) with ([x] ++ drop (S i) l).
    by rewrite filter_app.
Qed.

(** ** The table as a whole *)

Section Facts.
Context {St : Type} `{BucketLaws St}.

Definition occ (s : St) (i : Z) : Prop := e_rec (bucket s i) <> 0.

#[export] Instance occ_dec s i : Decision (occ s i).
Proof. unfold occ. apply _. Defined.

(** The open-addressing invariant. *)
Definition reach (s : St) (cap : Z) : Prop :=
  forall i j, 0 <= i < cap -> 0 <= j < cap -> occ s i ->
  dist cap (home cap (bucket s i)) j <= dist cap (home cap (bucket s i)) i -> occ s j.

Definition used (e : ht_entry) : Prop := e_rec e <> 0.

#[export] Instance used_dec e : Decision (used e).
Proof. unfold used. apply _. Defined.

Definition cells (s : St) (cap : Z) : list ht_entry := bucket s <$> seqZ 0 cap.

(** The entries of the table, in bucket order. *)
Definition entries (s : St) (cap : Z) : list ht_entry := filter used (cells s cap).

Lemma is_free_true e : is_free e = true <-> e_rec e = 0.
Proof. unfold is_free. apply Z.eqb_eq. Qed.
Lemma is_free_false e : is_free e = false <-> e_rec e <> 0.
Proof. unfold is_free. apply Z.eqb_neq. Qed.

Lemma cells_lookup s cap i : 0 <= i < cap -> cells s cap !! Z.to_nat i = Some (bucket s i).
Proof.
  intros Hi. unfold cells. rewrite list_lookup_fmap, lookup_seqZ_lt by lia. cbn.
  f_equal. f_equal. lia.
Qed.

Lemma cells_length s cap : length (cells s cap) = Z.to_nat cap.
Proof. unfold cells. by rewrite length_fmap, length_seqZ. Qed.

Lemma cells_set s cap i e :
  addressable s cap -> 0 <= i < cap ->
  cells (set_bucket s i e) cap = <[Z.to_nat i := e]> (cells s cap).
Proof.
  intros Ha Hi. apply list_eq. intros k.
  destruct (decide (k < Z.to_nat cap)%nat) as [Hk|Hk].
  - replace k with (Z.to_nat (Z.of_nat k)) by lia.
    rewrite cells_lookup by lia. destruct (decide (i = Z.of_nat k)) as [->|Hne].
    + rewrite list_lookup_insert_eq by (rewrite cells_length; lia).
      by rewrite (bucket_set_eq _ cap) by (auto; lia).
    + rewrite list_lookup_insert_ne by lia. rewrite cells_lookup by lia.
      by rewrite (bucket_set_ne _ cap) by (auto; lia).
  - rewrite !lookup_ge_None_2; rewrite ?length_insert, ?cells_length; auto; lia.
Qed.

Lemma entries_set s cap i e :
  addressable s cap -> 0 <= i < cap ->
  exists l1 l2, entries (set_bucket s i e) cap = l1 ++ filter used [e] ++ l2
             /\ entries s cap = l1 ++ filter used [bucket s i] ++ l2.
Proof.
  intros Ha Hi. unfold entries. rewrite cells_set by auto.
  destruct (filter_insert used (cells s cap) (Z.to_nat i) (bucket s i) e) as [-> ->];
    [by apply cells_lookup|eauto].
Qed.

Lemma filter_used_1 e : used e -> filter used [e] = [e].
Proof. intros. by rewrite filter_cons_True. Qed.
Lemma filter_used_0 e : ~ used e -> filter used [e] = [].
Proof. intros. by rewrite filter_cons_False. Qed.

Lemma entries_fill s cap i e :
  addressable s cap -> 0 <= i < cap -> ~ occ s i -> used e ->
  entries (set_bucket s i e) cap ≡ₚ e :: entries s cap.
Proof.
  intros Ha Hi Ho He. destruct (entries_set s cap i e) as (l1 & l2 & -> & ->); auto.
  rewrite (filter_used_1 e), (filter_used_0 (bucket s i)) by auto.
  cbn. symmetry. apply Permutation_middle.
Qed.

Lemma entries_clear s cap i e :
  addressable s cap -> 0 <= i < cap -> occ s i -> ~ used e ->
  entries s cap ≡ₚ bucket s i :: entries (set_bucket s i e) cap.
Proof.
  intros Ha Hi Ho He. destruct (entries_set s cap i e) as (l1 & l2 & -> & ->); auto.
  rewrite (filter_used_1 (bucket s i)), (filter_used_0 e) by auto.
  cbn. symmetry. apply Permutation_middle.
Qed.

Lemma entries_keep_free s cap i e :
  addressable s cap -> 0 <= i < cap -> ~ occ s i -> ~ used e ->
  entries (set_bucket s i e) cap = entries s cap.
Proof.
  intros Ha Hi Ho He. destruct (entries_set s cap i e) as (l1 & l2 & -> & ->); auto.
  by rewrite (filter_used_0 (bucket s i)), (filter_used_0 e) by auto.
Qed.

Lemma elem_of_entries s cap e :
  e ∈ entries s cap <-> exists i, 0 <= i < cap /\ occ s i /\ bucket s i = e.
Proof.
  unfold entries, cells. rewrite list_elem_of_filter, list_elem_of_fmap. split.
  - intros (Hu & i & -> & Hi). apply elem_of_seqZ in Hi. exists i. split; [lia|auto].
  - intros (i & Hi & Ho & <-). split; [exact Ho|]. exists i. split; [auto|].
    apply elem_of_seqZ. lia.
Qed.

(** A table with fewer entries than buckets has a free bucket. *)
Lemma free_bucket_exists s cap :
  0 <= cap -> Z.of_nat (length (entries s cap)) < cap ->
  exists z, 0 <= z < cap /\ ~ occ s z.
Proof.
  intros Hc Hlt.
  destruct (decide (Forall used (cells s cap))) as [Hall|Hn].
  - exfalso. unfold entries in Hlt. rewrite filter_all in Hlt by (by apply Forall_forall).
    rewrite cells_length in Hlt. lia.
  - apply not_Forall_Exists in Hn; [|apply _]. apply Exists_exists in Hn as (e & Hin & He).
    unfold cells in Hin. apply list_elem_of_fmap in Hin as (i & -> & Hi).
    apply elem_of_seqZ in Hi. exists i. split; [lia|exact He].
Qed.

Lemma occ_set_ne s cap i j e :
  addressable s cap -> 0 <= i < cap -> 0 <= j < cap -> i <> j ->
  (occ (set_bucket s i e) j <-> occ s j).
Proof. intros. unfold occ. by rewrite (bucket_set_ne s cap) by auto. Qed.

Lemma occ_set_eq s cap i e :
  addressable s cap -> 0 <= i < cap -> (occ (set_bucket s i e) i <-> used e).
Proof. intros. unfold occ. by rewrite (bucket_set_eq s cap) by auto. Qed.

(** ** The probing loop

    From [b], with some bucket [z] at which the loop stops: it stops at the first such
    bucket on the way, within one round. *)
Lemma probe_fuel s cap stop z n b :
  cap <= 2 ^ 32 -> 0 <= z < cap -> stop (bucket s z) = true ->
  0 <= b < cap -> dist cap b z < Z.of_nat n ->
  exists j, probe stop n s (cap - 1) b = Some j /\ 0 <= j < cap
    /\ dist cap b j <= dist cap b z /\ stop (bucket s j) = true
    /\ forall p, 0 <= p < cap -> dist cap b p < dist cap b j -> stop (bucket s p) = false.
Proof.
  intros Hc Hz Hsz. revert b. induction n as [|n IH]; intros b Hb Hd; [dlia|].
  cbn [probe]. destruct (stop (bucket s b)) eqn:Hsb.
  - exists b. rewrite dist_same. repeat split; auto; try lia.
    + pose proof (dist_range cap b z). lia.
    + intros p Hp Hlt. pose proof (dist_range cap b p). lia.
  - assert (z <> b) by congruence.
    pose proof (dist_next cap b z Hb Hz Hc ltac:(auto)) as Hn.
    destruct (IH (next_bucket (cap - 1) b)) as (j & Hj & Hjr & Hjz & Hsj & Hbefore).
    { by apply next_bucket_range. }
    { lia. }
    assert (j <> b) by congruence. rewrite (dist_next cap b j) in Hjz by auto.
    exists j. repeat split; auto; try lia.
    intros p Hp Hlt. destruct (Z.eq_dec p b) as [->|]; [auto|].
    apply Hbefore; [auto|]. rewrite !dist_next by auto. lia.
Qed.

Lemma probe_spec s cap stop z b :
  cap <= 2 ^ 32 -> 0 <= z < cap -> stop (bucket s z) = true -> 0 <= b < cap ->
  exists j, probe stop (round (cap - 1)) s (cap - 1) b = Some j /\ 0 <= j < cap
    /\ dist cap b j <= dist cap b z /\ stop (bucket s j) = true
    /\ forall p, 0 <= p < cap -> dist cap b p < dist cap b j -> stop (bucket s p) = false.
Proof.
  intros. apply probe_fuel; auto.
  unfold round. pose proof (dist_range cap b z). lia.
Qed.

(** ** Insertion into a free bucket found by probing *)

Definition first_hole (s : St) (cap b j : Z) : Prop :=
  0 <= j < cap /\ ~ occ s j
  /\ forall p, 0 <= p < cap -> dist cap b p < dist cap b j -> occ s p.

Lemma reach_fill s cap j e :
  is_cap cap -> addressable s cap -> reach s cap -> used e ->
  first_hole s cap (home cap e) j -> reach (set_bucket s j e) cap.
Proof.
  intros Hc Ha Hr He (Hj & Hfree & Hpath) i p Hi Hp Hoi Hd.
  pose proof (home_range cap e Hc) as Hh.
  destruct (Z.eq_dec p j) as [->|Hpj]; [by apply (occ_set_eq s cap)|].
  rewrite (occ_set_ne s cap) by auto.
  destruct (Z.eq_dec i j) as [->|Hij].
  - rewrite (bucket_set_eq s cap) in Hd by auto.
    apply Hpath; [auto|]. pose proof (dist_inj cap (home cap e) p j). lia.
  - rewrite (bucket_set_ne s cap) in Hd by auto. rewrite (occ_set_ne s cap) in Hoi by auto.
    by apply (Hr i p).
Qed.

(** An entry that satisfies [stop] can be found from its ideal bucket. *)
Lemma probe_finds s cap stop i :
  is_cap cap -> reach s cap -> 0 <= i < cap -> occ s i ->
  (forall p, 0 <= p < cap -> ~ occ s p -> stop (bucket s p) = true) ->
  stop (bucket s i) = true ->
  exists j, probe stop (round (cap - 1)) s (cap - 1) (home cap (bucket s i)) = Some j
    /\ 0 <= j < cap /\ occ s j /\ stop (bucket s j) = true.
Proof.
  intros Hc Hr Hi Ho Hst Hsi. pose proof (is_cap_pos _ Hc).
  destruct (probe_spec s cap stop i (home cap (bucket s i))) as (j & Hj & Hjr & Hd & Hsj & _);
    auto; try lia; [by apply home_range|].
  exists j. repeat split; auto; try lia. by apply (Hr i j).
Qed.

(** ** Closing the gap left by a removed entry *)

(** Loop invariant of [fix_chain_down] at distance [c] after the free bucket [z]: entries
    before [c] are reachable; on the path of a later entry only buckets at distances
    [d, c) may be free. *)
Definition mending (s : St) (cap z d c : Z) : Prop :=
  ~ occ s z
  /\ forall i, 0 <= i < cap -> occ s i ->
     dist cap z (home cap (bucket s i)) <= dist cap z i
     /\ forall p, 0 <= p < cap ->
        dist cap z (home cap (bucket s i)) <= dist cap z p <= dist cap z i ->
        occ s p \/ (d <= dist cap z p < c /\ c <= dist cap z i).

(** The hole the inner loop fills: the first one on the path from [b] to [i]. *)
Lemma fix_chain_inner_spec s cap i n b :
  cap <= 2 ^ 32 -> 0 <= i < cap -> 0 <= b < cap -> dist cap b i < Z.of_nat n ->
  (fix_chain_inner n s (cap - 1) i b = Some s
   /\ (forall p, 0 <= p < cap -> dist cap b p < dist cap b i -> occ s p))
  \/ exists j, 0 <= j < cap /\ j <> i /\ ~ occ s j /\ dist cap b j < dist cap b i
     /\ (forall p, 0 <= p < cap -> dist cap b p < dist cap b j -> occ s p)
     /\ fix_chain_inner n s (cap - 1) i b =
        Some (set_bucket (set_bucket s j (bucket s i)) i (HtEntry (e_hashcode (bucket s i)) 0)).
Proof.
  intros Hc Hi. revert b. induction n as [|n IH]; intros b Hb Hd; [dlia|].
  cbn [fix_chain_inner]. destruct (Z.eqb_spec i b) as [<-|Hne].
  { left. split; [done|]. intros p Hp Hlt. exfalso.
    pose proof (dist_range cap i p). rewrite dist_same in Hlt. lia. }
  destruct (is_free (bucket s b)) eqn:Hf.
  { right. apply is_free_true in Hf. exists b.
    assert (0 < dist cap b i) by
      (pose proof (dist_range cap b i); pose proof (dist_inj cap b i b);
       pose proof (dist_same cap b); lia).
    repeat split; auto; try lia; try (unfold occ; lia).
    - rewrite dist_same. lia.
    - intros p Hp Hlt. pose proof (dist_range cap b p). rewrite dist_same in Hlt. lia. }
  apply is_free_false in Hf.
  pose proof (next_bucket_range cap b Hb Hc) as Hnr.
  pose proof (dist_next cap b i Hb Hi Hc Hne) as Hni.
  assert (forall p, 0 <= p < cap -> p <> b ->
    dist cap (next_bucket (cap - 1) b) p = dist cap b p - 1) as Hnp
    by (intros; apply dist_next; auto).
  destruct (IH (next_bucket (cap - 1) b) Hnr ltac:(lia)) as [[-> Hall]|(j & Hj & Hji & Hoj & Hdj & Hall & ->)].
  - left. split; [done|]. intros p Hp Hlt. destruct (Z.eq_dec p b) as [->|]; [done|].
    apply Hall; [auto|]. rewrite Hnp by auto. lia.
  - right. exists j. assert (j <> b) by (intros ->; done).
    rewrite Hnp in Hdj by auto.
    repeat split; auto; try lia.
    intros p Hp Hlt. destruct (Z.eq_dec p b) as [->|]; [done|].
    apply Hall; [auto|]. rewrite !Hnp by auto. lia.
Qed.

(** Moving the entry at distance [c] into a hole before it advances the invariant. *)
Lemma mending_move s cap z d i j :
  is_cap cap -> addressable s cap -> 0 <= z < cap -> 0 <= i < cap -> 0 <= j < cap ->
  0 < d -> d <= dist cap z i ->
  mending s cap z d (dist cap z i) -> occ s i -> j <> i -> ~ occ s j ->
  dist cap (home cap (bucket s i)) j < dist cap (home cap (bucket s i)) i ->
  (forall p, 0 <= p < cap ->
     dist cap (home cap (bucket s i)) p < dist cap (home cap (bucket s i)) j -> occ s p) ->
  mending (set_bucket (set_bucket s j (bucket s i)) i (HtEntry (e_hashcode (bucket s i)) 0))
          cap z d (dist cap z i + 1).
Proof.
  intros Hc Ha Hz Hi Hj Hd Hdi [Hfz Hm] Hoi Hji Hoj Hdj Hpath.
  set (s1 := set_bucket s j (bucket s i)).
  set (s2 := set_bucket s1 i _).
  assert (Ha1 : addressable s1 cap) by (by apply addressable_set).
  destruct (Hm i Hi Hoi) as [Hhi Hholes].
  pose proof (home_range cap (bucket s i) Hc) as Hh.
  apply (dist_between cap z _ i j) in Hhi as Hb; auto.
  assert (Hlj : dist cap z (home cap (bucket s i)) <= dist cap z j <= dist cap z i) by (apply Hb; lia).
  pose proof (dist_inj cap z j i Hz Hj Hi) as Hinj.
  assert (Hjz : j <> z).
  { intros ->. destruct (Hholes z Hz Hlj) as [|[]]; [done|].
    rewrite dist_same in *. lia. }
  assert (Hiz : i <> z) by (intros ->; done).
  assert (Hocc : forall p, 0 <= p < cap -> p <> i -> p <> j -> (occ s2 p <-> occ s p)).
  { intros p Hp H1 H2. unfold s2, s1. by rewrite !(occ_set_ne _ cap) by auto. }
  assert (Hoj2 : occ s2 j).
  { unfold s2. rewrite (occ_set_ne _ cap) by auto. by apply (occ_set_eq s cap). }
  assert (Hoi2 : ~ occ s2 i).
  { unfold s2. rewrite (occ_set_eq _ cap) by auto. unfold used. cbn. lia. }
  assert (Hbj : bucket s2 j = bucket s i).
  { unfold s2, s1. by rewrite (bucket_set_ne _ cap), (bucket_set_eq _ cap) by auto. }
  assert (Hbp : forall p, 0 <= p < cap -> p <> i -> p <> j -> bucket s2 p = bucket s p).
  { intros. unfold s2, s1. by rewrite !(bucket_set_ne _ cap) by auto. }
  split; [by rewrite Hocc by auto|].
  intros k Hk Hok. destruct (Z.eq_dec k i) as [->|Hki]; [done|].
  destruct (Z.eq_dec k j) as [->|Hkj].
  - rewrite Hbj. split; [lia|]. intros p Hp Hbetw. left.
    destruct (Z.eq_dec p j) as [->|]; [done|]. destruct (Z.eq_dec p i) as [->|]; [lia|].
    apply Hocc; auto. apply Hpath; auto.
    apply (dist_between cap z _ j p) in Hbetw; auto; try lia.
    pose proof (dist_inj cap (home cap (bucket s i)) p j). lia.
  - rewrite Hbp by auto. rewrite Hocc in Hok by auto.
    destruct (Hm k Hk Hok) as [Hhk Hk2]. split; [done|].
    intros p Hp Hbetw. pose proof (dist_inj cap z k i Hz Hk Hi) as Hki2.
    destruct (Z.eq_dec p j) as [->|]; [by left|].
    destruct (Z.eq_dec p i) as [->|].
    + right. lia.
    + rewrite Hocc by auto. destruct (Hk2 p Hp Hbetw) as [|[? ?]]; [by left|right; lia].
Qed.

Lemma mending_keep s cap z d i :
  is_cap cap -> 0 <= z < cap -> 0 <= i < cap ->
  mending s cap z d (dist cap z i) -> occ s i ->
  (forall p, 0 <= p < cap ->
     dist cap (home cap (bucket s i)) p < dist cap (home cap (bucket s i)) i -> occ s p) ->
  mending s cap z d (dist cap z i + 1).
Proof.
  intros Hc Hz Hi [Hfz Hm] Hoi Hpath. split; [done|]. intros k Hk Hok.
  destruct (Hm k Hk Hok) as [Hhk Hk2]. split; [done|]. intros p Hp Hbetw.
  pose proof (home_range cap (bucket s i) Hc) as Hh.
  destruct (Z.eq_dec k i) as [->|Hne].
  - left. destruct (Z.eq_dec p i) as [->|]; [done|]. apply Hpath; auto.
    apply (dist_between cap z _ i p) in Hbetw; auto; try lia.
    pose proof (dist_inj cap (home cap (bucket s i)) p i). lia.
  - pose proof (dist_inj cap z k i Hz Hk Hi).
    destruct (Hk2 p Hp Hbetw) as [|[? ?]]; [by left|]. right. lia.
Qed.

(** ** Frames: a loop only ever writes buckets below [n] *)

Inductive updates (n : Z) : St -> St -> Prop :=
| updates_refl s : updates n s s
| updates_step s i e s' : 0 <= i < n -> updates n (set_bucket s i e) s' -> updates n s s'.

Lemma updates_trans n s1 s2 s3 : updates n s1 s2 -> updates n s2 s3 -> updates n s1 s3.
Proof. induction 1; [done|]. intros. eapply updates_step; eauto. Qed.

Lemma updates_addressable n m s s' : updates n s s' -> addressable s m -> addressable s' m.
Proof. induction 1; auto. intros. apply IHupdates. by apply addressable_set. Qed.

(** What a bucket write leaves alone, a whole loop leaves alone. *)
Lemma updates_frame {A} n (f : St -> A) s s' :
  (forall s i e, 0 <= i < n -> f (set_bucket s i e) = f s) -> updates n s s' -> f s' = f s.
Proof. intros Hf. induction 1; [done|]. rewrite IHupdates. auto. Qed.

Lemma updates_1 n s i e : 0 <= i < n -> updates n s (set_bucket s i e).
Proof. intros. eapply updates_step; [done|constructor]. Qed.

(** Exchanging an entry with a free bucket keeps the multiset of entries. *)
Lemma entries_move s cap i j e0 :
  addressable s cap -> 0 <= i < cap -> 0 <= j < cap -> i <> j ->
  occ s i -> ~ occ s j -> ~ used e0 ->
  entries (set_bucket (set_bucket s j (bucket s i)) i e0) cap ≡ₚ entries s cap.
Proof.
  intros Ha Hi Hj Hij Hoi Hoj He0.
  pose proof (entries_fill s cap j (bucket s i) Ha Hj Hoj Hoi) as H1.
  assert (Ha1 : addressable (set_bucket s j (bucket s i)) cap) by (by apply addressable_set).
  pose proof (entries_clear (set_bucket s j (bucket s i)) cap i e0 Ha1 Hi) as H2.
  rewrite (bucket_set_ne s cap) in H2 by auto.
  rewrite H1 in H2. symmetry.
  eapply Permutation_cons_inv. apply H2; [|done]. by rewrite (occ_set_ne s cap) by auto.
Qed.

Lemma mending_done s cap z d c i :
  is_cap cap -> 0 <= z < cap -> 0 <= i < cap -> (i = z /\ c = cap) \/ (i <> z /\ c = dist cap z i) ->
  0 < d -> mending s cap z d c -> ~ occ s i -> reach s cap.
Proof.
  intros Hc Hz Hi Hcase Hd [Hfz Hm] Hfi k p Hk Hp Hok Hdist.
  destruct (Hm k Hk Hok) as [Hhk Hk2].
  pose proof (home_range cap (bucket s k) Hc) as Hh.
  apply (dist_between cap z _ k p) in Hhk as Hb; auto. apply Hb in Hdist.
  destruct (Hk2 p Hp Hdist) as [|[Hp2 Hc2]]; [done|]. exfalso.
  destruct Hcase as [[-> ->]|[Hiz ->]]; [pose proof (dist_range cap z k); lia|].
  destruct (Hk2 i Hi ltac:(lia)) as [|[? ?]]; [done|lia].
Qed.

Lemma fix_chain_down_fuel cap z d n : is_cap cap -> 0 <= z < cap -> 0 < d -> forall s i c,
  addressable s cap -> 0 <= i < cap ->
  (i = z /\ c = cap) \/ (i <> z /\ c = dist cap z i) -> d <= c ->
  cap - c < Z.of_nat n -> mending s cap z d c ->
  exists s', fix_chain_down n s (cap - 1) i = Some s'
    /\ updates cap s s' /\ reach s' cap /\ entries s' cap ≡ₚ entries s cap.
Proof.
  intros Hc Hz Hd. pose proof (is_cap_pos _ Hc) as Hcp.
  induction n as [|n IH]; intros s i c Ha Hi Hcase Hdc Hn Hm.
  { exfalso. pose proof (dist_range cap z i Hz Hi). lia. }
  cbn [fix_chain_down]. destruct (is_free (bucket s i)) eqn:Hf.
  { apply is_free_true in Hf. exists s. split; [done|]. split; [constructor|]. split; [|done].
    apply (mending_done s cap z d c i); auto. }
  apply is_free_false in Hf. change (occ s i) in Hf.
  assert (Hiz : i <> z) by (intros ->; by destruct Hm).
  destruct Hcase as [[? ?]|[_ ->]]; [done|].
  set (h := Z.land (e_hashcode (bucket s i)) (cap - 1)).
  assert (Hh : 0 <= h < cap) by (apply (home_range cap (bucket s i)); auto).
  assert (Hfuel : dist cap h i < Z.of_nat (round (cap - 1))).
  { unfold round. pose proof (dist_range cap h i). lia. }
  assert (Hnext : forall s1, addressable s1 cap -> mending s1 cap z d (dist cap z i + 1) ->
    exists s', fix_chain_down n s1 (cap - 1) (next_bucket (cap - 1) i) = Some s'
    /\ updates cap s1 s' /\ reach s' cap /\ entries s' cap ≡ₚ entries s1 cap).
  { intros s1 Ha1 Hm1. apply (IH s1 _ (dist cap z i + 1)); auto; try lia.
    - apply next_bucket_range; lia.
    - rewrite next_bucket_eq by lia. destruct (Z.eqb_spec i (cap - 1)).
      + destruct (Z.eq_dec 0 z); [left|right]; split; auto; dlia.
      + destruct (Z.eq_dec (i + 1) z); [left|right]; split; auto; dlia. }
  destruct (fix_chain_inner_spec s cap i (round (cap - 1)) h ltac:(lia) Hi Hh Hfuel)
    as [[-> Hall]|(j & Hj & Hji & Hoj & Hdj & Hall & ->)].
  - apply Hnext; [done|]. apply mending_keep; auto.
  - set (s1 := set_bucket s j (bucket s i)).
    destruct (Hnext (set_bucket s1 i (HtEntry (e_hashcode (bucket s i)) 0)))
      as (s' & Hs' & Hu & Hr & Hp).
    + by repeat apply addressable_set.
    + apply mending_move; auto.
    + exists s'. split; [done|]. split; [|split; [done|]].
      * eapply updates_step; [exact Hj|]. eapply updates_step; [exact Hi|]. done.
      * rewrite Hp. apply entries_move; auto.
Qed.

(** Removing the entry of bucket [d] and running [fix_chain_down] from the next bucket
    restores the invariant and removes exactly that entry. *)
Lemma remove_spec s cap d :
  is_cap cap -> addressable s cap -> reach s cap -> 0 <= d < cap -> occ s d ->
  (exists z, 0 <= z < cap /\ ~ occ s z) ->
  let s0 := set_bucket s d (HtEntry (e_hashcode (bucket s d)) 0) in
  exists s', fix_chain_down (round (cap - 1)) s0 (cap - 1) (next_bucket (cap - 1) d) = Some s'
    /\ updates cap s s' /\ reach s' cap /\ entries s cap ≡ₚ bucket s d :: entries s' cap.
Proof.
  intros Hc Ha Hr Hd Hod (z & Hz & Hfz) s0. pose proof (is_cap_pos _ Hc) as Hcp.
  assert (Hdz : d <> z) by (intros ->; done).
  assert (Hocc : forall p, 0 <= p < cap -> p <> d -> (occ s0 p <-> occ s p)).
  { intros. unfold s0. by rewrite (occ_set_ne s cap) by auto. }
  assert (Hfd : ~ occ s0 d).
  { unfold s0. rewrite (occ_set_eq s cap) by auto. unfold used. cbn. lia. }
  assert (Hm : mending s0 cap z (dist cap z d) (dist cap z d + 1)).
  { split; [by rewrite Hocc by auto|]. intros i Hi Hoi.
    destruct (Z.eq_dec i d) as [->|Hid]; [done|].
    unfold s0. rewrite (bucket_set_ne s cap) by auto. rewrite Hocc in Hoi by auto.
    pose proof (home_range cap (bucket s i) Hc) as Hh.
    assert (Hlin : dist cap z (home cap (bucket s i)) <= dist cap z i).
    { destruct (Z.le_gt_cases (dist cap z (home cap (bucket s i))) (dist cap z i)); [done|].
      exfalso. apply Hfz. apply (Hr i z); auto. pose proof (dist_same cap z). dlia. }
    split; [done|]. intros p Hp Hbetw.
    apply (dist_between cap z _ i p) in Hbetw as Hq; auto.
    destruct (Z.eq_dec p d) as [->|Hpd].
    - right. pose proof (dist_inj cap z i d Hz Hi Hd). lia.
    - left. fold s0. rewrite Hocc by auto. by apply (Hr i p). }
  pose proof (dist_range cap z d Hz Hd).
  assert (0 < dist cap z d) by
    (pose proof (dist_inj cap z d z Hz Hd Hz); pose proof (dist_same cap z); lia).
  assert (Ha0 : addressable s0 cap) by (by apply addressable_set).
  destruct (fix_chain_down_fuel cap z (dist cap z d) (round (cap - 1)) Hc Hz ltac:(lia)
              s0 (next_bucket (cap - 1) d) (dist cap z d + 1))
    as (s' & Hs' & Hu & Hr' & Hp'); auto; try lia.
  - apply next_bucket_range; lia.
  - rewrite next_bucket_eq by lia. destruct (Z.eqb_spec d (cap - 1)).
    + destruct (Z.eq_dec 0 z); [left|right]; split; auto; dlia.
    + destruct (Z.eq_dec (d + 1) z); [left|right]; split; auto; dlia.
  - unfold round. lia.
  - exists s'. split; [done|]. split; [|split; [done|]].
    + eapply updates_step; [exact Hd|exact Hu].
    + rewrite Hp'. apply entries_clear; auto.
Qed.

(** ** Doubling the table

    The old table has [cap] buckets and its first free bucket is [b]; the new one has
    [2 * cap], all of the upper half free.  Distances from [cap + b] order the new table
    so that both images [i] and [i + cap] of an old bucket have the same [lane], the
    distance of [i] from [b] in the old table, which is also the order in which the
    buckets are moved. *)

Definition lane (cap b p : Z) : Z :=
  let t := dist (2 * cap) (cap + b) p in if t <? cap then t else t - cap.

Lemma lane_cases cap b p :
  (dist (2 * cap) (cap + b) p < cap /\ lane cap b p = dist (2 * cap) (cap + b) p)
  \/ (cap <= dist (2 * cap) (cap + b) p /\ lane cap b p = dist (2 * cap) (cap + b) p - cap).
Proof. unfold lane. zcase; [left|right]; lia. Qed.

Lemma lane_images cap b i :
  0 <= b < cap -> 0 <= i < cap ->
  lane cap b i = dist cap b i /\ lane cap b (i + cap) = dist cap b i.
Proof.
  intros. pose proof (lane_cases cap b i). pose proof (lane_cases cap b (i + cap)). dlia.
Qed.

(** The two images of an old bucket are one old table apart. *)
Lemma image_positions cap b i :
  0 <= b < cap -> 0 <= i < cap ->
  let t := dist (2 * cap) (cap + b) in
  (t i = dist cap b i /\ t (i + cap) = dist cap b i + cap)
  \/ (t i = dist cap b i + cap /\ t (i + cap) = dist cap b i).
Proof. intros Hb Hi t. subst t. dlia. Qed.

(** Loop invariant of the rehash when the old buckets of lane below [k] have been moved:
    moved entries are reachable through moved entries only, the others are still where
    the old table had them. *)
Definition rehashing (s : St) (cap b k : Z) : Prop :=
  forall p, 0 <= p < 2 * cap -> occ s p ->
  let t := dist (2 * cap) (cap + b) in
  let y := home (2 * cap) (bucket s p) in
  (lane cap b p < k /\ t y <= t p
   /\ forall q, 0 <= q < 2 * cap -> t y <= t q <= t p -> occ s q /\ lane cap b q < k)
  \/ (k <= lane cap b p /\ p < cap /\ dist cap b (home cap (bucket s p)) <= dist cap b p).

Lemma rehashing_ext s s' cap b k :
  (forall p, 0 <= p < 2 * cap -> (occ s' p <-> occ s p) /\ (occ s p -> bucket s' p = bucket s p)) ->
  rehashing s cap b k -> rehashing s' cap b k.
Proof.
  intros Hext Hr p Hp Ho. destruct (Hext p Hp) as [H1 H2].
  rewrite H2 by (by apply H1). destruct (Hr p Hp) as [(? & ? & Hq)|]; [by apply H1| |by right].
  left. split; [done|]. split; [done|]. intros q Hqr Hqt. destruct (Hext q Hqr) as [-> _]. auto.
Qed.

(** At lane [k] only the bucket being moved can be occupied. *)
Lemma rehashing_lane s cap b k i p :
  0 <= b < cap -> 0 <= i < cap -> dist cap b i = k -> rehashing s cap b k ->
  0 <= p < 2 * cap -> occ s p -> lane cap b p = k -> p = i.
Proof.
  intros Hb Hi Hk Hr Hp Ho Hl. destruct (Hr p Hp Ho) as [(? & _)|(_ & Hlt & _)]; [lia|].
  destruct (lane_images cap b p) as [Hlp _]; [lia..|]. apply (dist_inj cap b); lia.
Qed.

(** Lanes advance over a bucket that is free, or already in its ideal place. *)
Lemma rehashing_advance s cap b k i :
  is_cap (2 * cap) -> 0 <= b < cap -> 0 <= i < cap -> dist cap b i = k -> rehashing s cap b k ->
  (occ s i -> home (2 * cap) (bucket s i) = i) -> rehashing s cap b (k + 1).
Proof.
  intros Hc Hb Hi Hk Hr Hhome p Hp Ho.
  destruct (Z.eq_dec (lane cap b p) k) as [Hl|Hl].
  - assert (p = i) as -> by (by apply (rehashing_lane s cap b k i p)).
    left. rewrite Hhome by done. split; [lia|]. split; [lia|]. intros q Hq Hqt.
    assert (q = i) as ->.
    { apply (dist_inj (2 * cap) (cap + b)); lia. }
    split; [done|lia].
  - destruct (Hr p Hp Ho) as [(? & ? & Hq)|(? & ? & ?)].
    + left. split; [lia|]. split; [done|]. intros q Hqr Hqt.
      destruct (Hq q Hqr Hqt). split; [done|lia].
    + right. split; [lia|]. done.
Qed.

(** The bucket found for a moved entry: between its new ideal bucket and the image of its
    old bucket, in lanes that have been moved already. *)
Lemma landing s cap b k i e :
  is_cap cap -> is_cap (2 * cap) -> addressable s (2 * cap) ->
  0 <= b < cap -> 0 <= i < cap -> dist cap b i = k -> rehashing s cap b k ->
  occ s i -> ~ used e ->
  let s1 := set_bucket s i e in
  let y := home (2 * cap) (bucket s i) in
  let t := dist (2 * cap) (cap + b) in
  exists j, probe is_free (round (2 * cap - 1)) s1 (2 * cap - 1) y = Some j
    /\ 0 <= j < 2 * cap /\ ~ occ s1 j /\ t y <= t j
    /\ (forall q, 0 <= q < 2 * cap -> t y <= t q <= t j -> lane cap b q <= k)
    /\ (forall q, 0 <= q < 2 * cap -> t y <= t q < t j -> occ s1 q).
Proof.
  intros Hc Hc2 Ha Hb Hi Hk Hr Hoi He s1 y t.
  pose proof (is_cap_pos _ Hc2) as Hcp.
  destruct (lane_images cap b i Hb Hi) as [Hl1 Hl2].
  assert (Hx : dist cap b (home cap (bucket s i)) <= k).
  { destruct (Hr i ltac:(lia) Hoi) as [(? & _)|(_ & _ & ?)]; lia. }
  set (x := home cap (bucket s i)) in *.
  assert (Hxr : 0 <= x < cap) by (apply home_range; auto).
  assert (Hyx : y = x \/ y = x + cap) by (apply home_double; auto).
  assert (Hyr : 0 <= y < 2 * cap) by lia.
  pose proof (image_positions cap b x Hb Hxr) as Htx.
  pose proof (image_positions cap b i Hb Hi) as Hti. cbv zeta in Htx, Hti. fold t in Htx, Hti.
  assert (exists q0, (q0 = i \/ q0 = i + cap) /\ t q0 = t y - dist cap b x + k) as (q0 & Hq0 & Htq0).
  { destruct Hyx as [-> | ->]; destruct Htx as [[? ?]|[? ?]]; destruct Hti as [[? ?]|[? ?]];
      (exists i; split; [by left|lia]) || (exists (i + cap); split; [by right|lia]). }
  assert (Hfree : ~ occ s1 q0).
  { unfold s1. destruct (Z.eq_dec q0 i) as [->|Hne].
    - by rewrite (occ_set_eq s (2 * cap)) by (auto; lia).
    - rewrite (occ_set_ne s (2 * cap)) by (auto; lia). intros Ho.
      apply Hne. apply (rehashing_lane s cap b k i); auto; [lia|]. destruct Hq0; subst q0; lia. }
  destruct (probe_spec s1 (2 * cap) is_free q0 y) as (j & Hj & Hjr & Hdj & Hfj & Hbefore);
    [lia|lia| |lia|].
  { apply is_free_true. destruct (decide (e_rec (bucket s1 q0) = 0)); [done|by destruct Hfree]. }
  rewrite (dist_between (2 * cap) (cap + b) y q0 j) in Hdj by (fold t; lia). fold t in Hdj.
  exists j. split; [done|]. split; [lia|]. split; [apply is_free_true in Hfj; unfold occ; lia|].
  split; [lia|]. split.
  - intros q Hq Hqt. pose proof (lane_cases cap b q) as Hlq. fold t in Hlq.
    pose proof (dist_range cap b i Hb Hi). pose proof (dist_range cap b x Hb Hxr).
    destruct Hyx as [Hy|Hy]; rewrite Hy in *; destruct Htx as [[? ?]|[? ?]]; lia.
  - intros q Hq Hqt. apply is_free_false. apply Hbefore; [lia|].
    assert (dist (2 * cap) y q <= dist (2 * cap) y j) as Hle.
    { apply (dist_between (2 * cap) (cap + b) y j q); fold t; lia. }
    pose proof (dist_inj (2 * cap) y q j ltac:(lia) Hq ltac:(lia)) as Hinj.
    destruct (Z.eq_dec (dist (2 * cap) y q) (dist (2 * cap) y j)) as [E|]; [|lia].
    rewrite (Hinj E) in Hqt. lia.
Qed.

Lemma rehashing_land s cap b k i j e :
  is_cap cap -> is_cap (2 * cap) -> addressable s (2 * cap) ->
  0 <= b < cap -> 0 <= i < cap -> dist cap b i = k -> rehashing s cap b k ->
  occ s i -> ~ used e ->
  let s1 := set_bucket s i e in
  let y := home (2 * cap) (bucket s i) in
  let t := dist (2 * cap) (cap + b) in
  0 <= j < 2 * cap -> ~ occ s1 j -> t y <= t j ->
  (forall q, 0 <= q < 2 * cap -> t y <= t q <= t j -> lane cap b q <= k) ->
  (forall q, 0 <= q < 2 * cap -> t y <= t q < t j -> occ s1 q) ->
  rehashing (set_bucket s1 j (bucket s i)) cap b (k + 1).
Proof.
  intros Hc Hc2 Ha Hb Hi Hk Hr Hoi He s1 y t Hj Hfj Hyj Hlanes Hpath p Hp Ho.
  pose proof (is_cap_pos _ Hc2) as Hcp.
  assert (Ha1 : addressable s1 (2 * cap)) by (by apply addressable_set).
  destruct (lane_images cap b i Hb Hi) as [Hli _].
  assert (Hocc2 : forall q, 0 <= q < 2 * cap -> q <> j ->
    (occ (set_bucket s1 j (bucket s i)) q <-> occ s1 q)).
  { intros. by rewrite (occ_set_ne s1 (2 * cap)) by auto. }
  assert (Hoj : occ (set_bucket s1 j (bucket s i)) j)
    by (apply (occ_set_eq s1 (2 * cap)); auto).
  fold t. destruct (Z.eq_dec p j) as [->|Hpj].
  - left. rewrite (bucket_set_eq s1 (2 * cap)) by auto. fold y.
    split; [pose proof (Hlanes j Hj ltac:(lia)); lia|]. split; [done|]. intros q Hq Hqt.
    split; [|pose proof (Hlanes q Hq Hqt); lia].
    destruct (Z.eq_dec q j) as [->|Hqj]; [done|]. apply Hocc2; auto. apply Hpath; auto.
    pose proof (dist_inj (2 * cap) (cap + b) q j ltac:(lia) Hq Hj) as Hinj. fold t in Hinj. lia.
  - rewrite (bucket_set_ne s1 (2 * cap)) by auto. rewrite Hocc2 in Ho by auto.
    destruct (Z.eq_dec p i) as [->|Hpi].
    { exfalso. unfold s1 in Ho. rewrite (occ_set_eq s (2 * cap)) in Ho by (auto; lia). done. }
    unfold s1 in Ho |- *. rewrite (bucket_set_ne s (2 * cap)) by (auto; lia).
    rewrite (occ_set_ne s (2 * cap)) in Ho by (auto; lia).
    destruct (Hr p Hp Ho) as [(Hlp & Hle & Hq)|(Hlp & Hlt & Hd)].
    + left. split; [lia|]. split; [done|]. intros q Hqr Hqt.
      destruct (Hq q Hqr Hqt) as [Hoq Hlq]. split; [|lia].
      destruct (Z.eq_dec q j) as [->|Hqj]; [done|]. fold s1. apply Hocc2; auto.
      unfold s1. rewrite (occ_set_ne s (2 * cap)); auto; [lia|]. intros <-. lia.
    + right. split; [|done]. destruct (Z.eq_dec (lane cap b p) k) as [Hl|]; [|lia].
      exfalso. apply Hpi. by apply (rehashing_lane s cap b k i p).
Qed.

(** One iteration of the move loop. *)
Lemma move_bucket_spec skip s cap b k i :
  is_cap cap -> is_cap (2 * cap) -> addressable s (2 * cap) ->
  0 <= b < cap -> 0 <= i < cap -> dist cap b i = k -> rehashing s cap b k ->
  exists s', move_bucket skip s (2 * cap - 1) i = Some s'
    /\ updates (2 * cap) s s' /\ rehashing s' cap b (k + 1)
    /\ entries s' (2 * cap) ≡ₚ entries s (2 * cap).
Proof.
  intros Hc Hc2 Ha Hb Hi Hk Hr. pose proof (is_cap_pos _ Hc2) as Hcp.
  assert (Hstay : (occ s i -> home (2 * cap) (bucket s i) = i) ->
    exists s', Some s = Some s' /\ updates (2 * cap) s s' /\ rehashing s' cap b (k + 1)
      /\ entries s' (2 * cap) ≡ₚ entries s (2 * cap)).
  { intros Hh. exists s. split; [done|]. split; [constructor|]. split; [|done].
    eapply rehashing_advance; eauto. }
  unfold move_bucket. destruct (is_free (bucket s i)) eqn:Hf.
  - apply is_free_true in Hf. rewrite andb_true_r. destruct skip; [apply Hstay; done|].
    change (Z.land (e_hashcode (bucket s i)) (2 * cap - 1)) with (home (2 * cap) (bucket s i)).
    pose proof (home_range (2 * cap) (bucket s i) Hc2) as Hy. zcase; [apply Hstay; done|].
    rewrite Hf. set (e0 := HtEntry (e_hashcode (bucket s i)) 0).
    set (s1 := set_bucket s i e0). assert (Ha1 : addressable s1 (2 * cap)) by (by apply addressable_set).
    assert (Hu0 : ~ used e0) by (unfold used; cbn; lia).
    assert (Hfi : ~ occ s1 i) by (unfold s1; rewrite (occ_set_eq s (2 * cap)) by (auto; lia); done).
    destruct (probe_spec s1 (2 * cap) is_free i (home (2 * cap) (bucket s i)))
      as (j & -> & Hj & _ & Hfj & _); try lia.
    { apply is_free_true. destruct (decide (e_rec (bucket s1 i) = 0)); [done|by destruct Hfi]. }
    apply is_free_true in Hfj. assert (Hoj : ~ occ s1 j) by (unfold occ; lia).
    exists (set_bucket s1 j e0). split; [done|]. split.
    { eapply updates_step with (i := i); [lia|]. by apply updates_1. }
    split.
    + eapply rehashing_advance; eauto.
      * eapply rehashing_ext; [|exact Hr]. intros p Hp.
        assert (Hsame : forall s0 q e', addressable s0 (2 * cap) -> 0 <= q < 2 * cap ->
          ~ occ s0 q -> ~ used e' ->
          (occ (set_bucket s0 q e') p <-> occ s0 p)
          /\ (occ s0 p -> bucket (set_bucket s0 q e') p = bucket s0 p)).
        { intros s0 q e' Ha0 Hq Hoq Hue. destruct (Z.eq_dec p q) as [->|Hne].
          - rewrite (occ_set_eq s0 (2 * cap)) by auto. split; [|done]. split; done.
          - by rewrite (occ_set_ne s0 (2 * cap)), (bucket_set_ne s0 (2 * cap)) by auto. }
        assert (Hnoi : ~ occ s i) by (unfold occ; lia).
        destruct (Hsame s1 j e0 Ha1 Hj Hoj Hu0) as [E1 E2].
        destruct (Hsame s i e0 Ha ltac:(lia) Hnoi Hu0) as [E3 E4]. fold s1 in E3, E4.
        rewrite E1, E3. split; [done|]. intros Hop. rewrite E2 by (by apply E3). by apply E4.
      * intros Hop. exfalso. revert Hop. destruct (Z.eq_dec i j) as [->|Hne].
        -- by rewrite (occ_set_eq s1 (2 * cap)) by auto.
        -- by rewrite (occ_set_ne s1 (2 * cap)) by (auto; lia).
    + rewrite entries_keep_free by auto. unfold s1. by rewrite entries_keep_free by (auto; try lia; unfold occ; lia).
  - apply is_free_false in Hf. change (occ s i) in Hf. rewrite andb_false_r.
    change (Z.land (e_hashcode (bucket s i)) (2 * cap - 1)) with (home (2 * cap) (bucket s i)).
    zcase; [by apply Hstay|].
    set (e0 := HtEntry (e_hashcode (bucket s i)) 0).
    assert (Hu0 : ~ used e0) by (unfold used; cbn; lia).
    destruct (landing s cap b k i e0 Hc Hc2 Ha Hb Hi Hk Hr Hf Hu0)
      as (j & -> & Hj & Hoj & Hyj & Hlanes & Hpath).
    replace (HtEntry (e_hashcode (bucket s i)) (e_rec (bucket s i))) with (bucket s i)
      by (by destruct (bucket s i)).
    eexists. split; [done|]. split.
    { eapply updates_step with (i := i); [lia|]. by apply updates_1. }
    split; [by apply rehashing_land|].
    rewrite entries_fill by (auto; by apply addressable_set).
    symmetry. apply entries_clear; auto. lia.
Qed.

Lemma move_range_spec skip cap b c n : forall s i,
  is_cap cap -> is_cap (2 * cap) -> addressable s (2 * cap) -> 0 <= b < cap ->
  0 <= i -> i + Z.of_nat n <= cap ->
  (forall p, i <= p < i + Z.of_nat n -> dist cap b p = p + c) ->
  rehashing s cap b (i + c) ->
  exists s', move_range skip n s (2 * cap - 1) i = Some s'
    /\ updates (2 * cap) s s' /\ rehashing s' cap b (i + Z.of_nat n + c)
    /\ entries s' (2 * cap) ≡ₚ entries s (2 * cap).
Proof.
  induction n as [|n IH]; intros s i Hc Hc2 Ha Hb Hi Hin Hdist Hr; cbn [move_range].
  - exists s. split; [done|]. split; [constructor|]. split; [|done].
    by replace (i + Z.of_nat 0 + c) with (i + c) by lia.
  - destruct (move_bucket_spec skip s cap b (i + c) i) as (s1 & -> & Hu1 & Hr1 & Hp1);
      auto; try lia.
    { apply Hdist. lia. }
    destruct (IH s1 (i + 1)) as (s2 & -> & Hu2 & Hr2 & Hp2); auto; try lia.
    + eapply updates_addressable; eauto.
    + intros. apply Hdist. lia.
    + by replace (i + 1 + c) with (i + c + 1) by lia.
    + exists s2. split; [done|]. split; [by eapply updates_trans|]. split.
      * by replace (i + Z.of_nat (S n) + c) with (i + 1 + Z.of_nat n + c) by lia.
      * by rewrite Hp2.
Qed.

Lemma first_free_spec s cap n : forall b,
  0 <= b -> (exists z, b <= z < cap /\ ~ occ s z) -> cap - b <= Z.of_nat n ->
  exists j, first_free n s b = Some j /\ b <= j < cap /\ ~ occ s j.
Proof.
  induction n as [|n IH]; intros b Hb (z & Hz & Hfz) Hn; [lia|].
  cbn [first_free]. destruct (is_free (bucket s b)) eqn:Hf.
  - apply is_free_true in Hf. exists b. split; [done|]. split; [lia|]. unfold occ. lia.
  - apply is_free_false in Hf.
    assert (z <> b) by (intros ->; done).
    destruct (IH (b + 1)) as (j & -> & Hj & Hfj); [lia| |lia|].
    { exists z. split; [lia|done]. }
    exists j. split; [done|]. split; [lia|done].
Qed.

(** A table with a free bucket, doubled into buckets that are all free: the rehash
    terminates, keeps every entry and re-establishes the invariant at the new size. *)
Lemma rehash_spec skip s cap :
  is_cap cap -> is_cap (2 * cap) -> addressable s (2 * cap) -> reach s cap ->
  (exists z, 0 <= z < cap /\ ~ occ s z) ->
  (forall p, cap <= p < 2 * cap -> ~ occ s p) ->
  exists s', rehash skip s cap = Some s' /\ updates (2 * cap) s s' /\ reach s' (2 * cap)
    /\ entries s' (2 * cap) ≡ₚ entries s (2 * cap).
Proof.
  intros Hc Hc2 Ha Hr Hz Hupper. pose proof (is_cap_pos _ Hc) as Hp1.
  pose proof (is_cap_pos _ Hc2) as Hp2.
  unfold rehash. rewrite Z.shiftl_mul_pow2 by lia. change (2 ^ 1) with 2.
  assert (u32 (u32 (cap * 2) - 1) = 2 * cap - 1) as ->.
  { unfold u32. rewrite Zminus_mod_idemp_l. rewrite Z.mod_small by lia. lia. }
  destruct (first_free_spec s cap (Z.to_nat cap) 0) as (b & -> & Hb & Hfb); auto; try lia.
  assert (Hr0 : rehashing s cap b 0).
  { intros p Hp Ho. right. pose proof (lane_cases cap b p).
    pose proof (dist_range (2 * cap) (cap + b) p ltac:(lia) Hp).
    destruct (Z.le_gt_cases cap p); [exfalso; apply (Hupper p); [lia|done]|].
    split; [lia|]. split; [lia|].
    pose proof (home_range cap (bucket s p) Hc) as Hh.
    destruct (Z.le_gt_cases (dist cap b (home cap (bucket s p))) (dist cap b p)); [done|].
    exfalso. apply Hfb. apply (Hr p b); auto; try lia. pose proof (dist_same cap b). dlia. }
  unfold move_buckets_range.
  destruct (move_range_spec skip cap b (- b) (Z.to_nat (cap - b)) s b)
    as (s1 & -> & Hu1 & Hr1 & He1); auto; try lia.
  { intros. dlia. }
  { by replace (b + - b) with 0 by lia. }
  replace (b + Z.of_nat (Z.to_nat (cap - b)) + - b) with (0 + (cap - b)) in Hr1 by lia.
  destruct (move_range_spec skip cap b (cap - b) (Z.to_nat (b - 0)) s1 0)
    as (s2 & -> & Hu2 & Hr2 & He2); auto; try lia.
  { eapply updates_addressable; eauto. }
  { intros. dlia. }
  exists s2. split; [done|]. split; [by eapply updates_trans|]. split; [|by rewrite He2].
  intros p q Hp Hq Ho Hd.
  pose proof (lane_cases cap b p). pose proof (dist_range (2 * cap) (cap + b) p ltac:(lia) Hp).
  pose proof (home_range (2 * cap) (bucket s2 p) Hc2) as Hh.
  destruct (Hr2 p Hp Ho) as [(_ & Hle & Hpath)|(? & _)]; [|lia].
  apply (dist_between (2 * cap) (cap + b) _ p q) in Hd; auto; try lia.
  by apply (Hpath q).
Qed.

(** Only the lower half holds entries before the rehash. *)
Lemma entries_upper_free s cap :
  0 <= cap -> (forall p, cap <= p < 2 * cap -> ~ occ s p) ->
  entries s (2 * cap) = entries s cap.
Proof.
  intros Hc Hfree. unfold entries, cells.
  replace (2 * cap) with (cap + cap) by lia. rewrite seqZ_app by lia.
  rewrite fmap_app, filter_app. rewrite <- (app_nil_r (filter used (bucket s <$> seqZ 0 cap))) at 2.
  f_equal.
  assert (Forall (fun p => ~ occ s p) (seqZ (0 + cap) cap)) as Hf.
  { apply Forall_forall. intros p Hp. apply elem_of_seqZ in Hp. apply Hfree. lia. }
  induction Hf as [|p l Hp _ IH]; [done|]. cbn [fmap list_fmap].
  rewrite filter_cons_False by exact Hp. done.
Qed.

End Facts.

(** Two states with the same buckets below [cap]. *)
Section Ext.
Context {St : Type} `{BucketLaws St}.

Lemma cells_ext (s s' : St) cap :
  (forall i, 0 <= i < cap -> bucket s' i = bucket s i) -> cells s' cap = cells s cap.
Proof.
  intros He. unfold cells. apply list_fmap_ext. intros k i Hi.
  apply lookup_seqZ in Hi. apply He. lia.
Qed.

Lemma entries_ext (s s' : St) cap :
  (forall i, 0 <= i < cap -> bucket s' i = bucket s i) -> entries s' cap = entries s cap.
Proof. intros He. unfold entries. by rewrite (cells_ext s s'). Qed.

Lemma reach_ext (s s' : St) cap :
  (forall i, 0 <= i < cap -> bucket s' i = bucket s i) -> reach s cap -> reach s' cap.
Proof.
  intros He Hr i j Hi Hj Ho Hd. unfold occ in *. rewrite He in * by auto.
  by apply (Hr i j).
Qed.
End Ext.

(** * Bucket arrays that grow by doubling

    [thashtable] and [lhashtable] keep their buckets in vectors: vector 0 holds the first
    [2^bits] buckets, and each further vector as many as all those before it, so that doubling the
    table never moves a bucket.  [place bits b] is the vector of bucket [b] and its index
    there; the theory of growing is proved once for any [bits]. *)

(** The memory cell of a place. *)
Definition vector_get (l : list (list ht_entry)) (p : Z * Z) : option ht_entry :=
  l !! Z.to_nat (fst p) ≫= fun v => v !! Z.to_nat (snd p).
Definition vector_set (l : list (list ht_entry)) (p : Z * Z) (e : ht_entry) : list (list ht_entry) :=
  alter (fun v => <[Z.to_nat (snd p) := e]> v) (Z.to_nat (fst p)) l.

Definition place (bits b : Z) : Z * Z :=
  if b <? 2 ^ bits then (0, b) else let il2 := ilog2 b in (il2 - bits + 1, b - Z.shiftl 1 il2).

Lemma vector_get_set_eq l p e : is_Some (vector_get l p) -> vector_get (vector_set l p e) p = Some e.
Proof.
  unfold vector_get, vector_set. intros [x Hx]. apply bind_Some in Hx as (v & Hv & Hi).
  rewrite list_lookup_alter_eq, Hv. cbn. apply list_lookup_insert_eq. by apply lookup_lt_Some in Hi.
Qed.

Lemma vector_get_set_ne l p q e :
  Z.to_nat (fst p) <> Z.to_nat (fst q) \/ Z.to_nat (snd p) <> Z.to_nat (snd q) ->
  vector_get (vector_set l p e) q = vector_get l q.
Proof.
  unfold vector_get, vector_set. intros Hne.
  destruct (decide (Z.to_nat (fst p) = Z.to_nat (fst q))) as [E|E].
  - rewrite E, list_lookup_alter_eq. destruct (l !! _) as [v|]; cbn; [|done].
    destruct Hne as [?|Hne]; [done|]. by apply list_lookup_insert_ne.
  - by rewrite list_lookup_alter_ne.
Qed.

Lemma vector_get_set_some l p q e : is_Some (vector_get l q) -> is_Some (vector_get (vector_set l p e) q).
Proof.
  intros Hq. destruct (decide (Z.to_nat (fst p) = Z.to_nat (fst q))) as [E1|E1];
    [destruct (decide (Z.to_nat (snd p) = Z.to_nat (snd q))) as [E2|E2]|].
  - unfold vector_get, vector_set in *. rewrite E1, list_lookup_alter_eq, E2.
    destruct (l !! _) as [v|]; cbn in *; [|by destruct Hq]. destruct Hq as [x Hx].
    rewrite list_lookup_insert_eq by (by apply lookup_lt_Some in Hx). eauto.
  - rewrite vector_get_set_ne; auto.
  - rewrite vector_get_set_ne; auto.
Qed.

Lemma vector_set_lengths l p e v : length <$> vector_set l p e !! v = length <$> l !! v.
Proof.
  unfold vector_set. destruct (decide (v = Z.to_nat (fst p))) as [->|Hne].
  - rewrite list_lookup_alter_eq. destruct (l !! _); [|done]. cbn. by rewrite length_insert.
  - by rewrite list_lookup_alter_ne.
Qed.

Section Place.
Context (bits : Z) (Hbits : 0 <= bits).

Lemma place_log b : 2 ^ bits <= b -> bits <= ilog2 b /\ Z.shiftl 1 (ilog2 b) <= b.
Proof using Hbits.
  intros Hb. assert (0 < 2 ^ bits) by (apply Z.pow_pos_nonneg; lia). unfold ilog2. zcase; [lia|].
  rewrite Z.shiftl_1_l. split; [apply Z.log2_le_pow2; lia|]. apply Z.log2_spec. lia.
Qed.

Lemma place_nonneg b : 0 <= b -> 0 <= fst (place bits b) /\ 0 <= snd (place bits b).
Proof using Hbits.
  intros Hb. unfold place. destruct (Z.ltb_spec b (2 ^ bits)); cbn; [lia|].
  pose proof (place_log b ltac:(lia)). lia.
Qed.

Lemma place_inj a b : 0 <= a -> 0 <= b -> place bits a = place bits b -> a = b.
Proof using Hbits.
  intros Ha Hb. unfold place.
  destruct (Z.ltb_spec a (2 ^ bits)), (Z.ltb_spec b (2 ^ bits)); intros [E1 E2]%pair_equal_spec;
    try (pose proof (place_log a ltac:(lia))); try (pose proof (place_log b ltac:(lia))); try lia.
  assert (ilog2 a = ilog2 b) as El by lia. rewrite El in E2. lia.
Qed.

Lemma place_ne a b :
  0 <= a -> 0 <= b -> a <> b ->
  Z.to_nat (fst (place bits a)) <> Z.to_nat (fst (place bits b))
  \/ Z.to_nat (snd (place bits a)) <> Z.to_nat (snd (place bits b)).
Proof using Hbits.
  intros Ha Hb Hne. pose proof (place_nonneg a Ha). pose proof (place_nonneg b Hb).
  destruct (decide (fst (place bits a) = fst (place bits b))); [|lia].
  destruct (decide (snd (place bits a) = snd (place bits b))); [|lia].
  exfalso. apply Hne, place_inj; try lia. destruct (place bits a), (place bits b). cbn in *. congruence.
Qed.

(** Vector [k - bits + 1] of [2^k] free buckets doubles an array of [2^k]. *)
Section Doubling.
Context (l : list (list ht_entry)) (k : Z) (Hk : bits <= k).

Definition doubled : list (list ht_entry) := <[Z.to_nat (k - bits + 1) := replicate (Z.to_nat (2 ^ k)) free_entry]> l.

Lemma doubled_old b : 0 <= b < 2 ^ k -> vector_get doubled (place bits b) = vector_get l (place bits b).
Proof using Hk Hbits.
  intros Hb. unfold vector_get, doubled. cbn. rewrite list_lookup_insert_ne; [done|].
  unfold place. destruct (Z.ltb_spec b (2 ^ bits)); cbn; [lia|].
  pose proof (place_log b ltac:(lia)) as [Hl _]. unfold ilog2 in *.
  assert (0 < 2 ^ bits) by (apply Z.pow_pos_nonneg; lia). destruct (Z.eqb_spec b 0); [lia|].
  assert (Z.log2 b < k) by (apply Z.log2_lt_pow2; lia). lia.
Qed.

Lemma doubled_new b :
  k - bits + 1 < Z.of_nat (length l) -> 2 ^ k <= b < 2 * 2 ^ k -> vector_get doubled (place bits b) = Some free_entry.
Proof using Hk Hbits.
  intros Hlen Hb. assert (2 ^ bits <= 2 ^ k) by (apply Z.pow_le_mono_r; lia).
  unfold vector_get, doubled, place. destruct (Z.ltb_spec b (2 ^ bits)); [lia|].
  assert (0 < 2 ^ bits) by (apply Z.pow_pos_nonneg; lia).
  assert (ilog2 b = k) as ->.
  { unfold ilog2. zcase; [lia|]. apply Z.log2_unique; [lia|]. rewrite Z.pow_succ_r by lia. lia. }
  cbn. rewrite list_lookup_insert_eq by lia. cbn.
  rewrite Z.shiftl_1_l. apply lookup_replicate. split; [done|lia].
Qed.

End Doubling.
End Place.
