(* ===== verification/Os.v ===== *)
(** * Os: the operating-system calls the library makes, and its files *)

From stdpp Require Import base numbers list gmap.
From Stdlib Require Import ZArith Lia.
From S2P Require Import Prelude Bytes.

(** The name of a file. *)
Abbreviation path := (list Z) (only parsing).

(** Each call is a function of its size-relevant arguments; [true] is success. *)
Record os := {
  sys_mmap : Z -> bool;                  (* mmap of the given length *)
  sys_mremap : Z -> Z -> bool;           (* mremap from an old to a new length *)
  sys_munmap : Z -> bool;                (* munmap of the given length *)
  sys_ftruncate : Z -> Z -> bool;        (* ftruncate(fd, length) *)
  sys_open : list Z -> Z -> Z;           (* open(filename, flags): fd or negative *)
  sys_fstat : Z -> option Z;             (* fstat(fd): st_size, None on failure *)
  sys_close : Z -> bool;                 (* close(fd) *)
  sys_temp_file : Z;                     (* ribs_create_temp_file: fd or negative *)
}.

(** A system on which every call succeeds, used in examples. *)
Definition os_all_ok : os := {|
  sys_mmap := fun _ => true;
  sys_mremap := fun _ _ => true;
  sys_munmap := fun _ => true;
  sys_ftruncate := fun _ _ => true;
  sys_open := fun _ _ => 3;
  sys_fstat := fun _ => Some 0;
  sys_close := fun _ => true;
  sys_temp_file := 4;
|}.

(** A system on which no mapping can be created or grown. *)
Definition os_no_memory : os := {|
  sys_mmap := fun _ => false;
  sys_mremap := fun _ _ => false;
  sys_munmap := fun _ => true;
  sys_ftruncate := fun _ _ => false;
  sys_open := fun _ _ => -1;
  sys_fstat := fun _ => None;
  sys_close := fun _ => true;
  sys_temp_file := -1;
|}.

(** Growing a mapping to at most [limit] bytes succeeds. *)
Definition can_grow_to (o : os) (limit : Z) : Prop :=
  forall old_size new_size, new_size <= limit -> sys_mremap o old_size new_size = true.

Definition can_truncate_to (o : os) (limit : Z) : Prop :=
  forall fd size, size <= limit -> sys_ftruncate o fd size = true.

(** * The part of the file system the library uses

    Files by name and by inode, open descriptors, and the system calls on them.  A call is a
    function of the file system and of something else, [X], that it leaves alone. *)

(** Directory, contents of the files by inode, open descriptors, next inode. *)
Record fsys := Fsys {
  fs_dir : gmap path Z;
  fs_data : gmap Z (list Z);
  fs_fds : gmap Z Z;
  fs_next : Z;
}.

(** ** System calls *)
Section Calls.
Context (o : os) {X : Type}.

(** [unlink] then [open(filename, O_CREAT | O_RDWR)]: a new empty file. *)
Definition sys_create (filename : path) : ST (fsys * X) Z := fun '(fs, v) =>
  let fd := sys_open o filename 0x42 in
  let dir := delete filename (fs_dir fs) in
  if fd <? 0 then Some (fd, (Fsys dir (fs_data fs) (fs_fds fs) (fs_next fs), v))
  else Some (fd, (Fsys (<[filename := fs_next fs]> dir) (<[fs_next fs := []]> (fs_data fs))
                       (<[fd := fs_next fs]> (fs_fds fs)) (fs_next fs + 1), v)).

Definition unlink (filename : path) : ST (fsys * X) unit := fun '(fs, v) => Some (tt, (Fsys (delete filename (fs_dir fs)) (fs_data fs) (fs_fds fs) (fs_next fs), v)).

(** The inode a descriptor refers to, if it is open. *)
Definition file_of (fd : Z) : ST (fsys * X) (option Z) := fun s => Some (fs_fds (fst s) !! fd, s).

Definition ftruncate (fd size : Z) : ST (fsys * X) Z := fun '(fs, v) =>
  match fs_fds fs !! fd with
  | Some ino =>
      if sys_ftruncate o fd size
      then Some (0, (Fsys (fs_dir fs) (alter (fun f => truncate f size) ino (fs_data fs)) (fs_fds fs) (fs_next fs), v))
      else Some (-1, (fs, v))
  | None => Some (-1, (fs, v))
  end.

Definition close_fd (fd : Z) : ST (fsys * X) Z := fun '(fs, v) =>
  match fs_fds fs !! fd with
  | Some _ => Some (if sys_close o fd then 0 else -1, (Fsys (fs_dir fs) (fs_data fs) (delete fd (fs_fds fs)) (fs_next fs), v))
  | None => Some (-1, (fs, v))
  end.

(** [open] of a file that exists. *)
Definition sys_open_file (filename : path) (flags : Z) : ST (fsys * X) Z := fun '(fs, v) =>
  let fd := sys_open o filename flags in
  match fs_dir fs !! filename with
  | Some ino => if fd <? 0 then Some (fd, (fs, v)) else Some (fd, (Fsys (fs_dir fs) (fs_data fs) (<[fd := ino]> (fs_fds fs)) (fs_next fs), v))
  | None => Some (-1, (fs, v))
  end.

(** [fstat]: the size; [None] if the call fails. *)
Definition fstat (fd : Z) : ST (fsys * X) (option Z) := fun '(fs, v) =>
  Some (match sys_fstat o fd, ino ← fs_fds fs !! fd; fs_data fs !! ino with Some _, Some f => Some (Z.of_nat (length f)) | _, _ => None end, (fs, v)).
End Calls.

(** A computation on a part of what the file system is paired with. *)
Definition on_part {X Y A} (get : X -> Y) (set : X -> Y -> X) (m : ST (fsys * Y) A) : ST (fsys * X) A := fun '(fs, x) =>
  match m (fs, get x) with Some (a, (fs, y)) => Some (a, (fs, set x y)) | None => None end.

Lemma on_part_eval {X Y A} (get : X -> Y) set (m : ST (fsys * Y) A) fs x a fs' y :
  m (fs, get x) = Some (a, (fs', y)) -> on_part get set m (fs, x) = Some (a, (fs', set x y)).
Proof. intros E. unfold on_part. by rewrite E. Qed.
