(* ===== verification/Vmallocator.v ===== *)
(** * Vmallocator: the growable bump allocator
    ([include/vmallocator.h], [src/_vmallocator.c], [src/vmallocator.c])

    A [vmallocator] is a mapping of [capacity] bytes of which the first [wlocpos] are
    allocated; it grows by remapping, so clients keep offsets and not pointers.  Only the
    bookkeeping is modelled here: what is stored at an offset belongs to the client. *)

From stdpp Require Import base numbers list.
From Stdlib Require Import ZArith Lia.
From S2P Require Import Prelude Words Os.

Definition VM_ALLOC_MIN_SIZE : Z := 4096.
Definition VM_OFS_ALIGN_BYTES : Z := 8.

(** [VM_ALLOC_ALIGN(x,s)] in [size_t] arithmetic. *)
Definition VM_ALLOC_ALIGN (x s : Z) : Z := Z.land (u64 (x + s - 1)) (u64 (Z.lnot (s - 1))).

(** The two values of the function pointer [resize_func]. *)
Inductive resize_func := resize_buf | resize_file.

Record vmallocator := Vmallocator {
  v_mapped : bool;   (* mem != NULL *)
  wlocpos : Z;
  capacity : Z;
  v_resize : option resize_func;
  v_fd : Z;
}.

Definition VMALLOCATOR_INITIALIZER : vmallocator := Vmallocator false 0 0 None (-1).

Definition set_wlocpos (v : vmallocator) (w : Z) : vmallocator :=
  Vmallocator (v_mapped v) w (capacity v) (v_resize v) (v_fd v).

Definition set_capacity (v : vmallocator) (c : Z) : vmallocator :=
  Vmallocator (v_mapped v) (wlocpos v) c (v_resize v) (v_fd v).

Section Ops.
Variable o : os.

Definition _resize_buf (v : vmallocator) (new_size : Z) : vmallocator * Z :=
  if sys_mremap o (capacity v) new_size then (set_capacity v new_size, 0) else (v, -1).

Definition _resize_file (v : vmallocator) (new_size : Z) : vmallocator * Z :=
  if sys_ftruncate o (v_fd v) new_size then _resize_buf v new_size else (v, -1).

(** The call [v->resize_func(v, new_capacity)]; the pointer is set by init and open, a
    call through NULL is not modelled and fails. *)
Definition call_resize (v : vmallocator) (new_size : Z) : vmallocator * Z :=
  match v_resize v with
  | Some resize_buf => _resize_buf v new_size
  | Some resize_file => _resize_file v new_size
  | None => (v, -1)
  end.

Definition vmallocator_reset (v : vmallocator) : vmallocator := set_wlocpos v 0.

Definition vmallocator_wlocpos (v : vmallocator) : Z := wlocpos v.

Definition vmallocator_wlocset (v : vmallocator) (ofs : Z) : vmallocator := set_wlocpos v ofs.

Definition vmallocator_avail (v : vmallocator) : Z := u64 (capacity v - wlocpos v).

Definition vmallocator_check_resize (v : vmallocator) (s : Z) : vmallocator * Z :=
  let wavail := vmallocator_avail v in
  if wavail <? s then
    let new_capacity := capacity v in
    if new_capacity =? 0 then (v, -1)
    else call_resize v (next_p2_64 (u64 (new_capacity + s - wavail)))
  else (v, 0).

(** The failure value is [(size_t)-1]. *)
Definition vmallocator_alloc (v : vmallocator) (s : Z) : vmallocator * Z :=
  let (v, res) := vmallocator_check_resize v s in
  if res <? 0 then (v, u64 (-1))
  else (set_wlocpos v (u64 (wlocpos v + s)), wlocpos v).

Definition vmallocator_alloc_aligned (v : vmallocator) (s : Z) : vmallocator * Z :=
  let v := set_wlocpos v (VM_ALLOC_ALIGN (wlocpos v) VM_OFS_ALIGN_BYTES) in
  let (v, res) := vmallocator_check_resize v s in
  if res <? 0 then (v, u64 (-1))
  else (set_wlocpos v (u64 (wlocpos v + s)), wlocpos v).

Definition vmallocator_free (v : vmallocator) : vmallocator :=
  if v_mapped v then Vmallocator false 0 0 (v_resize v) (if 0 <=? v_fd v then -1 else v_fd v)
  else v.

Definition O_WRONLY : Z := 1.
Definition O_RDWR : Z := 2.
Definition O_CREAT : Z := 64.
Definition O_TRUNC : Z := 512.

(** [vmallocator_open]: the allocator after the call and its result. *)
Definition vmallocator_open (v : vmallocator) (filename : list Z) (flags : Z) : vmallocator * Z :=
  let v := if v_mapped v then vmallocator_free v else v in
  let fd := sys_open o filename flags in
  if fd <? 0 then (v, -1) else
  match sys_fstat o fd with
  | None => (v, -1)
  | Some st_size =>
      let v := Vmallocator (v_mapped v) st_size st_size (v_resize v) (v_fd v) in
      let writable := negb (Z.land O_RDWR flags =? 0) || negb (Z.land O_WRONLY flags =? 0) in
      let v :=
        if writable then
          let v := if negb (Z.land flags O_TRUNC =? 0)
                   then Vmallocator (v_mapped v) 0 0 (v_resize v) (v_fd v) else v in
          set_capacity v (if VM_ALLOC_MIN_SIZE >? capacity v then VM_ALLOC_MIN_SIZE
                          else VM_ALLOC_ALIGN (capacity v) VM_ALLOC_MIN_SIZE)
        else v in
      if writable && negb (sys_ftruncate o fd (capacity v)) then (v, -1) else
      if capacity v =? 0 then
        (* empty file *)
        (Vmallocator false (wlocpos v) (capacity v) (Some resize_file) fd, 0)
      else if sys_mmap o (capacity v) then
        (Vmallocator true (wlocpos v) (capacity v) (Some resize_file) fd, 0)
      else (v, -1)
  end.

Definition vmallocator_close (v : vmallocator) : vmallocator * Z :=
  let res :=
    if (0 <=? v_fd v) && negb (capacity v =? wlocpos v) then
      if sys_ftruncate o (v_fd v) (wlocpos v) then 0 else -1
    else 0 in
  (vmallocator_free v, res).

Definition vmallocator_init (v : vmallocator) : vmallocator * Z :=
  if v_mapped v then (vmallocator_reset v, 0)
  else
    let v := Vmallocator (v_mapped v) (wlocpos v) VM_ALLOC_MIN_SIZE (v_resize v) (-1) in
    if sys_mmap o (capacity v) then (Vmallocator true 0 (capacity v) (Some resize_buf) (v_fd v), 0)
    else (v, -1).

End Ops.

(** ** Well-formedness

    The allocated part lies inside the mapping; the capacity is a multiple of the
    alignment, which is what keeps [alloc_aligned] from stepping past the end. *)
Record vm_wf (v : vmallocator) : Prop := {
  vm_mapped : v_mapped v = true;
  vm_resize : v_resize v <> None;
  vm_wloc : 0 <= wlocpos v <= capacity v;
  vm_cap_min : 8 <= capacity v;
  vm_cap_align : capacity v mod 8 = 0;
  vm_cap_max : capacity v < 2 ^ 62;
}.

Lemma VM_ALLOC_ALIGN_8 x :
  0 <= x < 2 ^ 63 -> VM_ALLOC_ALIGN x 8 = (x + 7) / 8 * 8.
Proof.
  intros Hx. unfold VM_ALLOC_ALIGN. rewrite u64_small by lia.
  replace (x + 8 - 1) with (x + (2 ^ 3 - 1)) by lia.
  assert (u64 (Z.lnot (8 - 1)) = Z.land (Z.lnot (2 ^ 3 - 1)) (Z.ones 64)) as -> by reflexivity.
  rewrite Z.land_assoc, round_up_mask by lia.
  rewrite Z.land_ones by lia. change (2 ^ 3 - 1) with 7. change (2 ^ 3) with 8.
  apply Z.mod_small. pose proof (Z.div_mod (x + 7) 8 ltac:(lia)).
  pose proof (Z.mod_pos_bound (x + 7) 8 ltac:(lia)). lia.
Qed.

Lemma align_8_bounds x : (x + 7) / 8 * 8 mod 8 = 0 /\ x <= (x + 7) / 8 * 8 < x + 8.
Proof.
  pose proof (Z.div_mod (x + 7) 8 ltac:(lia)). pose proof (Z.mod_pos_bound (x + 7) 8 ltac:(lia)).
  split; [apply Z.mod_mul; lia|lia].
Qed.

(** A capacity chosen by [next_p2_64] for more than 8 bytes is a multiple of 8. *)
Lemma pow2_mod_8 k : 8 <= 2 ^ k -> 2 ^ k mod 8 = 0.
Proof.
  intros H. destruct (Z.le_gt_cases 3 k) as [Hk|Hk].
  - replace k with (3 + (k - 3)) by lia. rewrite Z.pow_add_r by lia.
    change (2 ^ 3) with 8. rewrite Z.mul_comm. apply Z.mod_mul. lia.
  - exfalso. assert (2 ^ k <= 2 ^ 2); [|lia].
    destruct (Z.le_gt_cases 0 k); [apply Z.pow_le_mono_r; lia|rewrite Z.pow_neg_r; lia].
Qed.

Section Facts.
Variable o : os.

Lemma call_resize_ok v n limit :
  v_resize v <> None -> can_grow_to o limit -> can_truncate_to o limit -> n <= limit ->
  call_resize o v n = (set_capacity v n, 0).
Proof.
  intros Hr Hg Ht Hn. revert Hr. unfold call_resize, _resize_file, _resize_buf.
  destruct (v_resize v) as [[]|]; intros Hr; [..|done]; by rewrite ?Ht, ?Hg by lia.
Qed.

(** [check_resize] makes room for [s] more bytes without moving [wlocpos]. *)
Lemma check_resize_ok v s limit :
  vm_wf v -> 0 <= s -> wlocpos v + s <= limit -> limit <= 2 ^ 60 ->
  can_grow_to o (2 * limit) -> can_truncate_to o (2 * limit) ->
  exists v', vmallocator_check_resize o v s = (v', 0) /\ vm_wf v'
    /\ wlocpos v' = wlocpos v /\ wlocpos v + s <= capacity v'
    /\ capacity v <= capacity v'.
Proof.
  intros Hwf Hs Hlim Hl Hg Ht. pose proof Hwf as [Hm Hr Hw Hc Ha Hx].
  unfold vmallocator_check_resize, vmallocator_avail. rewrite u64_small by lia.
  destruct (Z.ltb_spec (capacity v - wlocpos v) s); [|exists v; split; [done|]; split; [done|]; lia].
  zcase; [lia|]. replace (capacity v + s - (capacity v - wlocpos v)) with (wlocpos v + s) by lia.
  rewrite u64_small, next_p2_64_eq by lia.
  pose proof (log2_pred_bounds (wlocpos v + s) ltac:(lia)) as Hp.
  erewrite call_resize_ok; [|done|exact Hg|exact Ht|lia].
  eexists. split; [done|]. cbn. split; [|lia].
  split; cbn; auto; try lia. apply pow2_mod_8. lia.
Qed.

Lemma alloc_ok v s limit :
  vm_wf v -> 0 <= s -> wlocpos v + s <= limit -> limit <= 2 ^ 60 ->
  can_grow_to o (2 * limit) -> can_truncate_to o (2 * limit) ->
  exists v', vmallocator_alloc o v s = (v', wlocpos v) /\ vm_wf v'
    /\ wlocpos v' = wlocpos v + s /\ capacity v <= capacity v'.
Proof.
  intros Hwf Hs Hlim Hl Hg Ht. pose proof (vm_wloc _ Hwf).
  destruct (check_resize_ok v s limit) as (v' & E & Hwf' & Hw & Hc & Hcc); auto.
  unfold vmallocator_alloc. rewrite E. cbn. rewrite Hw.
  pose proof (vm_cap_max _ Hwf').
  eexists. split; [done|]. cbn. rewrite u64_small by lia. split; [|lia].
  destruct Hwf'. split; cbn; auto. lia.
Qed.

Lemma alloc_aligned_ok v s limit :
  vm_wf v -> 0 <= s -> wlocpos v + 8 + s <= limit -> limit <= 2 ^ 60 ->
  can_grow_to o (2 * limit) -> can_truncate_to o (2 * limit) ->
  exists v' ofs, vmallocator_alloc_aligned o v s = (v', ofs) /\ vm_wf v'
    /\ wlocpos v <= ofs < wlocpos v + 8 /\ ofs mod 8 = 0
    /\ wlocpos v' = ofs + s /\ capacity v <= capacity v'.
Proof.
  intros Hwf Hs Hlim Hl Hg Ht. pose proof Hwf as [Hm Hr Hw Hc Ha Hx].
  unfold vmallocator_alloc_aligned.
  change VM_OFS_ALIGN_BYTES with 8. rewrite VM_ALLOC_ALIGN_8 by lia.
  set (w := (wlocpos v + 7) / 8 * 8).
  destruct (align_8_bounds (wlocpos v)) as [Hmod Hb]. fold w in Hmod, Hb.
  assert (w <= capacity v).
  { pose proof (Z.div_mod (capacity v) 8 ltac:(lia)). subst w. rewrite Ha in *.
    assert ((wlocpos v + 7) / 8 <= capacity v / 8); [|lia].
    apply Z.lt_succ_r, Z.div_lt_upper_bound; lia. }
  assert (Hwf0 : vm_wf (set_wlocpos v w)) by (split; cbn; auto; lia).
  destruct (check_resize_ok (set_wlocpos v w) s limit) as (v' & E & Hwf' & Hw' & Hc' & Hcc);
    auto; cbn in *; try lia.
  rewrite E. cbn. rewrite Hw'. pose proof (vm_cap_max _ Hwf').
  eexists _, w. split; [done|]. cbn. rewrite u64_small by lia.
  split; [destruct Hwf'; split; cbn; auto; lia|]. repeat split; lia.
Qed.

(** Failure leaves the allocator as it was, at offset [(size_t)-1]. *)
Lemma alloc_fail v s :
  vm_wf v -> 0 <= s -> capacity v < wlocpos v + s < 2 ^ 62 ->
  (forall old n, sys_mremap o old n = false) ->
  vmallocator_alloc o v s = (v, 2 ^ 64 - 1).
Proof.
  intros [Hm Hr Hw Hc Ha Hx] Hs Hlim Hno.
  unfold vmallocator_alloc, vmallocator_check_resize, vmallocator_avail.
  rewrite u64_small by lia. zcase; [lia|]. zcase; [|lia].
  unfold call_resize, _resize_file, _resize_buf. rewrite Hno.
  destruct (v_resize v) as [[]|]; [done| |done]. by destruct (sys_ftruncate o _ _).
Qed.

Lemma init_wf v v' :
  v_mapped v = false -> vmallocator_init o v = (v', 0) -> vm_wf v' /\ wlocpos v' = 0.
Proof.
  intros Hm. unfold vmallocator_init. rewrite Hm. cbn.
  destruct (sys_mmap o VM_ALLOC_MIN_SIZE); intros [= <-]. split; [|done].
  split; cbn; try done; unfold VM_ALLOC_MIN_SIZE; lia.
Qed.

End Facts.
