(* ===== verification/Hashtable.v ===== *)
(** * Hashtable: the offset-based hash table
    ([include/hashtable.h], [src/hashtable.c], [src/_hashtable.c])

    The table lives in one [vmallocator]: a header at offset 0, bucket vectors whose offsets
    are in [header.slots], and records.  The memory is modelled as a typed store: the header
    as fields, the 8-byte bucket cells and the records each as a map from their byte offset
    (that the regions they occupy never overlap is part of the invariant proved in
    [HashtableFacts]).  A result [None] is a loop that does not stop or an access through an
    offset that a failed allocation returned. *)

From stdpp Require Import base numbers list gmap.
From Stdlib Require Import ZArith Lia.
From S2P Require Import Prelude Words Os Vmallocator Probe.

Definition HASHTABLE_INITIAL_SIZE_BITS : Z := 5.
Definition HASHTABLE_INITIAL_SIZE : Z := 32.
(** [sizeof(struct hashtable_header)], [sizeof(struct ht_entry)] and
    [_HASHTABLE_REC_SIZE]. *)
Definition HEADER_SIZE : Z := 140.
Definition ENTRY_SIZE : Z := 8.
Definition REC_SIZE : Z := 8.

(** [union hashtable_internal_rec]: two 32-bit words, [key_size] and [val_size] of a live
    record overlaid by [next] and [size] of a free one, then the bytes of key and value. *)
Record internal_rec := InternalRec { r_word0 : Z; r_word1 : Z; r_data : list Z }.

Definition rec_key_size := r_word0.
Definition rec_val_size := r_word1.
Definition free_rec_next := r_word0.
Definition free_rec_size := r_word1.

Record hashtable := Hashtable {
  ht_data : vmallocator;
  (* struct hashtable_header *)
  ht_mask : Z;
  ht_size : Z;
  ht_free_list : Z;
  ht_slots : list Z;
  (* the rest of the memory, by byte offset *)
  ht_ents : gmap Z ht_entry;
  ht_recs : gmap Z internal_rec;
}.

Definition HASHTABLE_INITIALIZER : hashtable :=
  Hashtable VMALLOCATOR_INITIALIZER 0 0 0 (replicate 32 0) ∅ ∅.

(** *** Field updates *)

Definition with_data ht d := Hashtable d (ht_mask ht) (ht_size ht) (ht_free_list ht) (ht_slots ht) (ht_ents ht) (ht_recs ht).
Definition with_mask ht m := Hashtable (ht_data ht) m (ht_size ht) (ht_free_list ht) (ht_slots ht) (ht_ents ht) (ht_recs ht).
Definition with_size ht n := Hashtable (ht_data ht) (ht_mask ht) n (ht_free_list ht) (ht_slots ht) (ht_ents ht) (ht_recs ht).
Definition with_free_list ht f := Hashtable (ht_data ht) (ht_mask ht) (ht_size ht) f (ht_slots ht) (ht_ents ht) (ht_recs ht).
Definition with_slots ht l := Hashtable (ht_data ht) (ht_mask ht) (ht_size ht) (ht_free_list ht) l (ht_ents ht) (ht_recs ht).
Definition with_ents ht m := Hashtable (ht_data ht) (ht_mask ht) (ht_size ht) (ht_free_list ht) (ht_slots ht) m (ht_recs ht).
Definition with_recs ht m := Hashtable (ht_data ht) (ht_mask ht) (ht_size ht) (ht_free_list ht) (ht_slots ht) (ht_ents ht) m.

(** ** Buckets *)

Definition slot (ht : hashtable) (i : Z) : Z := default 0 (ht_slots ht !! Z.to_nat i).

(** The byte offset [_hashtable_bucket] computes. *)
Definition _hashtable_bucket (ht : hashtable) (bucket : Z) : Z :=
  if bucket <? HASHTABLE_INITIAL_SIZE then slot ht 0 + ENTRY_SIZE * bucket
  else
    let il2 := ilog2 bucket in
    let bucket := bucket - Z.shiftl 1 il2 in (* offset within the vector *)
    slot ht (il2 - HASHTABLE_INITIAL_SIZE_BITS + 1) + ENTRY_SIZE * bucket.

#[export] Instance hashtable_buckets : Buckets hashtable := {
  bucket ht b := default free_entry (ht_ents ht !! _hashtable_bucket ht b);
  set_bucket ht b e := with_ents ht (<[_hashtable_bucket ht b := e]> (ht_ents ht));
}.

(** [memset] of [n] bucket cells starting at [ofs]. *)
Definition zero_cells (ofs : Z) (n : Z) (m : gmap Z ht_entry) : gmap Z ht_entry :=
  foldr (fun i m => <[ofs + ENTRY_SIZE * i := free_entry]> m) m (seqZ 0 n).

Section Ops.
Variable o : os.

(** [vmallocator_alloczero_aligned(&ht->data, n * sizeof(struct ht_entry))]: a zeroed bucket
    vector of [n] cells and its offset as a [uint32_t]. *)
Definition alloc_vector (ht : hashtable) (n : Z) : option (hashtable * Z) :=
  let (d, ofs) := vmallocator_alloc_aligned o (ht_data ht) (n * ENTRY_SIZE) in
  if ofs =? u64 (-1) then None
  else Some (with_ents (with_data ht d) (zero_cells ofs n (ht_ents ht)), u32 ofs).

(** The loop of [_hashtable_init] that allocates slots [s .. s + n - 1]. *)
Fixpoint init_slots (n : nat) (ht : hashtable) (s cap : Z) : option hashtable :=
  match n with
  | O => Some ht
  | S n' =>
      match alloc_vector ht cap with
      | None => None
      | Some (ht, ofs) =>
          init_slots n' (with_slots ht (<[Z.to_nat s := ofs]> (ht_slots ht)))
                     (s + 1) (u32 (Z.shiftl cap 1))
      end
  end.

Definition _hashtable_init (ht : hashtable) (initial_size : Z) : option (hashtable * Z) :=
  let size := HEADER_SIZE + HASHTABLE_INITIAL_SIZE * ENTRY_SIZE in
  (* allocate buckets in the first slot *)
  let (d, ofs) := vmallocator_alloc o (ht_data ht) size in
  if ofs =? u64 (-1) then None else
  (* memset of header and first vector; the header is the allocation at offset 0 *)
  let ht := with_data ht d in
  let ht := if ofs =? 0 then with_slots (with_free_list (with_size (with_mask ht 0) 0) 0) (replicate 32 0)
            else ht in
  let ht := with_ents ht (zero_cells (ofs + HEADER_SIZE) HASHTABLE_INITIAL_SIZE (ht_ents ht)) in
  let ht := with_slots ht (<[O := HEADER_SIZE]> (ht_slots ht)) in
  let ht := with_mask (with_size ht 0) (HASHTABLE_INITIAL_SIZE - 1) in
  if initial_size >? HASHTABLE_INITIAL_SIZE then
    let initial_size := u32 (Z.shiftl (next_p2 initial_size) 1) in
    let ht := with_mask ht (u32 (initial_size - 1)) in
    let num_slots := u32 (ilog2 initial_size - HASHTABLE_INITIAL_SIZE_BITS + 1) in
    match init_slots (Z.to_nat (num_slots - 1)) ht 1 HASHTABLE_INITIAL_SIZE with
    | None => None
    | Some ht => Some (ht, 0)
    end
  else Some (ht, 0).

Definition hashtable_init (ht : hashtable) (initial_size : Z) : option (hashtable * Z) :=
  let (d, res) := vmallocator_init o (ht_data ht) in
  if res <? 0 then Some (with_data ht d, -1)
  else _hashtable_init (with_data ht d) initial_size.

(** [hashtable_open]: [file] is what the file holds, read as a table (all zero for an empty
    file).  Reading the header of an empty file opened without write access is an access
    through a null mapping. *)
Definition hashtable_open (ht file : hashtable) (initial_size : Z) (filename : list Z) (flags : Z)
  : option (hashtable * Z) :=
  let (d, res) := vmallocator_open o (ht_data ht) filename flags in
  if res <? 0 then Some (with_data ht d, -1)
  else
    let contents := if Z.land flags O_TRUNC =? 0 then file else HASHTABLE_INITIALIZER in
    let ht := with_data contents d in
    if negb (v_mapped d) then None
    else if ht_mask ht =? 0 then _hashtable_init ht initial_size
    else Some (ht, 0).

Definition hashtable_create (ht file : hashtable) (initial_size : Z) (filename : list Z) : option (hashtable * Z) :=
  hashtable_open ht file initial_size filename (Z.lor (Z.lor O_CREAT O_RDWR) O_TRUNC).

Definition hashtable_close (ht : hashtable) : hashtable * Z :=
  let (d, res) := vmallocator_close o (ht_data ht) in (with_data ht d, res).

Definition _hashtable_grow (ht : hashtable) : option hashtable :=
  let capacity := u32 (ht_mask ht + 1) in
  match alloc_vector ht capacity with
  | None => None
  | Some (ht, ofs) =>
      let il2 := ilog2 capacity in
      let ht := with_slots ht (<[Z.to_nat (il2 - HASHTABLE_INITIAL_SIZE_BITS + 1) := ofs]> (ht_slots ht)) in
      let new_mask := u32 (u32 (Z.shiftl capacity 1) - 1) in
      match rehash false ht capacity with
      | None => None
      | Some ht => Some (with_mask ht new_mask)
      end
  end.

Definition _hashtable_check_resize (ht : hashtable) : option hashtable :=
  if ht_size ht >? Z.shiftr (ht_mask ht) 1 then _hashtable_grow ht else Some ht.

(** ** Records *)

(** [*prev_ofs = next] where [prev_ofs] points to the list head or into a free record. *)
Definition set_next (ht : hashtable) (prev : option Z) (next : Z) : hashtable :=
  match prev with
  | None => with_free_list ht next
  | Some p =>
      match ht_recs ht !! p with
      | Some r => with_recs ht (<[p := InternalRec next (r_word1 r) (r_data r)]> (ht_recs ht))
      | None => ht
      end
  end.

(** The loop of [_hashtable_alloc_from_freelist], at record [rec_ofs] with predecessor
    [prev]; the result is the offset, 0 when no free record has the size. *)
Fixpoint freelist_search (fuel : nat) (ht : hashtable) (size : Z) (prev : option Z) (rec_ofs : Z)
  : option (hashtable * Z) :=
  match fuel with
  | O => None
  | S f =>
      if rec_ofs =? 0 then Some (ht, 0)
      else
        match ht_recs ht !! rec_ofs with
        | None => None
        | Some r =>
            if free_rec_size r =? size then Some (set_next ht prev (free_rec_next r), rec_ofs)
            else freelist_search f ht size (Some rec_ofs) (free_rec_next r)
        end
  end.

Definition _hashtable_alloc_from_freelist (ht : hashtable) (key_size val_size : Z)
  : option (hashtable * Z) :=
  let sz := u32 (key_size + val_size) in
  freelist_search (S (size (ht_recs ht))) ht sz None (ht_free_list ht).

(** Allocates the record of bucket [b] and links it; [key_len + val_len] bytes of data. *)
Definition _hashtable_alloc_rec (ht : hashtable) (b key_len val_len : Z) : option (hashtable * Z) :=
  match _hashtable_alloc_from_freelist ht (u32 key_len) (u32 val_len) with
  | None => None
  | Some (ht, ofs) =>
      if ofs =? 0 then
        let ofs := u32 (vmallocator_wlocpos (ht_data ht)) in
        let ht := set_bucket ht b (HtEntry (e_hashcode (bucket ht b)) ofs) in
        let (d, res) := vmallocator_alloc o (ht_data ht) (REC_SIZE + key_len + val_len) in
        if res =? u64 (-1) then None else Some (with_data ht d, u32 res)
      else Some (set_bucket ht b (HtEntry (e_hashcode (bucket ht b)) ofs), ofs)
  end.

(** The common tail of the insert functions at the free bucket [b]: link a record of
    [key] and [val] and count it. *)
Definition insert_at (ht : hashtable) (b hc : Z) (key val : list Z) : option (hashtable * Z) :=
  let key_len := Z.of_nat (length key) in
  let val_len := Z.of_nat (length val) in
  let ht := set_bucket ht b (HtEntry hc (e_rec (bucket ht b))) in
  match _hashtable_alloc_rec ht b key_len val_len with
  | None => None
  | Some (ht, ofs) =>
      let ht := with_recs ht (<[ofs := InternalRec (u32 key_len) (u32 val_len) (key ++ val)]> (ht_recs ht)) in
      Some (with_size ht (u32 (ht_size ht + 1)), ofs)
  end.

Definition hashtable_insert (ht : hashtable) (key val : list Z) : option (hashtable * Z) :=
  match _hashtable_check_resize ht with
  | None => None
  | Some ht =>
      let mask := ht_mask ht in
      let hc := hashcode key in
      match probe is_free (round mask) ht mask (Z.land hc mask) with
      | None => None
      | Some b => insert_at ht b hc key val
      end
  end.

(** [hashtable_insert_alloc] leaves the value to the caller: [junk] are the [val_len] bytes
    that happen to be in the record. *)
Definition hashtable_insert_alloc (ht : hashtable) (key junk : list Z) : option (hashtable * Z) :=
  match _hashtable_check_resize ht with
  | None => None
  | Some ht =>
      let mask := ht_mask ht in
      let hc := hashcode key in
      match probe is_free (round mask) ht mask (Z.land hc mask) with
      | None => None
      | Some b => insert_at ht b hc key junk
      end
  end.

(** [hc == e->hashcode && rec->rec.key_size == key_len && 0 == memcmp(key, rec->rec.data,
    key_len)]; a bucket whose record is not in memory does not match. *)
Definition key_matches (ht : hashtable) (hc : Z) (key : list Z) (e : ht_entry) : bool :=
  (hc =? e_hashcode e) &&
  match ht_recs ht !! e_rec e with
  | None => false
  | Some r =>
      (rec_key_size r =? Z.of_nat (length key))
      && bool_decide (take (length key) (r_data r) = key)
  end.

Definition stop_at_key (ht : hashtable) (hc : Z) (key : list Z) (e : ht_entry) : bool :=
  is_free e || key_matches ht hc key e.

Definition hashtable_lookup (ht : hashtable) (key : list Z) : option Z :=
  let hc := hashcode key in
  let mask := ht_mask ht in
  match probe (stop_at_key ht hc key) (round mask) ht mask (Z.land hc mask) with
  | None => None
  | Some b => Some (e_rec (bucket ht b))
  end.

(** [hashtable_lookup_insert]: on a free bucket of a table that is too full the loop grows
    the table and starts again; [restart] bounds the number of restarts. *)
Fixpoint lookup_insert_loop (restart : nat) (ht : hashtable) (hc : Z) (key val : list Z)
  : option (hashtable * Z) :=
  let mask := ht_mask ht in
  match probe (stop_at_key ht hc key) (round mask) ht mask (Z.land hc mask) with
  | None => None
  | Some b =>
      if is_free (bucket ht b) then
        if ht_size ht >? Z.shiftr mask 1 then
          match restart with
          | O => None
          | S r =>
              match _hashtable_grow ht with
              | None => None
              | Some ht => lookup_insert_loop r ht hc key val
              end
          end
        else insert_at ht b hc key val
      else Some (ht, e_rec (bucket ht b))
  end.

Definition hashtable_lookup_insert (ht : hashtable) (key val : list Z) : option (hashtable * Z) :=
  lookup_insert_loop 1 ht (hashcode key) key val.

Definition hashtable_remove (ht : hashtable) (key : list Z) : option (hashtable * Z) :=
  let hc := hashcode key in
  let mask := ht_mask ht in
  match probe (stop_at_key ht hc key) (round mask) ht mask (Z.land hc mask) with
  | None => None
  | Some b =>
      let e := bucket ht b in
      let ofs := e_rec e in
      if ofs =? 0 then Some (ht, 0)
      else
        match ht_recs ht !! ofs with
        | None => None
        | Some r =>
            let r := InternalRec (r_word0 r) (u32 (rec_key_size r + rec_val_size r)) (r_data r) in
            let r := InternalRec (ht_free_list ht) (r_word1 r) (r_data r) in
            let ht := with_recs ht (<[ofs := r]> (ht_recs ht)) in
            let ht := with_free_list ht ofs in
            let ht := set_bucket ht b (HtEntry (e_hashcode e) 0) in (* mark as deleted *)
            let ht := with_size ht (u32 (ht_size ht - 1)) in
            match fix_chain_down (round mask) ht mask (next_bucket mask b) with
            | None => None
            | Some ht => Some (ht, ofs)
            end
        end
  end.

End Ops.

(** ** Iteration *)

(** The inner loop over one bucket vector: [func] on every record, stopping at the first
    negative result.  The result is the records visited and the return code so far. *)
Fixpoint foreach_vector (n : nat) (ht : hashtable) (ofs : Z) (func : Z -> Z) : list Z * Z :=
  match n with
  | O => ([], 0)
  | S n' =>
      let rec := e_rec (default free_entry (ht_ents ht !! ofs)) in
      if 0 <? rec then
        if func rec <? 0 then ([rec], -1)
        else let (l, r) := foreach_vector n' ht (ofs + ENTRY_SIZE) func in (rec :: l, r)
      else foreach_vector n' ht (ofs + ENTRY_SIZE) func
  end.

Fixpoint foreach_slots (n : nat) (ht : hashtable) (s vect_size : Z) (func : Z -> Z) : list Z * Z :=
  match n with
  | O => ([], 0)
  | S n' =>
      let (l, r) := foreach_vector (Z.to_nat vect_size) ht (slot ht s) func in
      if r <? 0 then (l, r)
      else
        let (l', r') := foreach_slots n' ht (s + 1)
          (if s =? 0 then vect_size else u32 (Z.shiftl vect_size 1)) func in
        (l ++ l', r')
  end.

(** [hashtable_foreach]: the records [func] was called on, in order, and the result. *)
Definition hashtable_foreach (ht : hashtable) (func : Z -> Z) : list Z * Z :=
  let capacity := u32 (ht_mask ht + 1) in
  let num_slots := u32 (ilog2 capacity - HASHTABLE_INITIAL_SIZE_BITS + 1) in
  foreach_slots (Z.to_nat num_slots) ht 0 HASHTABLE_INITIAL_SIZE func.

(** ** Accessors ([src/_hashtable.c]) *)

Definition rec_at (ht : hashtable) (rec_ofs : Z) : internal_rec :=
  default (InternalRec 0 0 []) (ht_recs ht !! rec_ofs).

Definition hashtable_get_key_size (ht : hashtable) (rec_ofs : Z) : Z := rec_key_size (rec_at ht rec_ofs).
Definition hashtable_get_val_size (ht : hashtable) (rec_ofs : Z) : Z := rec_val_size (rec_at ht rec_ofs).

(** The bytes the returned pointers give access to, for the sizes stored in the record. *)
Definition hashtable_get_key (ht : hashtable) (rec_ofs : Z) : list Z :=
  take (Z.to_nat (hashtable_get_key_size ht rec_ofs)) (r_data (rec_at ht rec_ofs)).
Definition hashtable_get_val (ht : hashtable) (rec_ofs : Z) : list Z :=
  take (Z.to_nat (hashtable_get_val_size ht rec_ofs))
    (drop (Z.to_nat (hashtable_get_key_size ht rec_ofs)) (r_data (rec_at ht rec_ofs))).

Definition hashtable_get_rec (ht : hashtable) (rec_ofs : Z) : Z * list Z * Z * list Z :=
  (hashtable_get_key_size ht rec_ofs, hashtable_get_key ht rec_ofs,
   hashtable_get_val_size ht rec_ofs, hashtable_get_val ht rec_ofs).

Definition hashtable_is_initialized (ht : hashtable) : bool := vmallocator_wlocpos (ht_data ht) >? 0.

Definition hashtable_get_size (ht : hashtable) : Z :=
  if hashtable_is_initialized ht then ht_size ht else 0.

(** The value of a key, or the default; keys and values are the bytes without the NUL. *)
Definition hashtable_lookup_str (ht : hashtable) (key default_val : list Z) : option (list Z) :=
  match hashtable_lookup ht key with
  | None => None
  | Some ofs => Some (if ofs =? 0 then default_val else hashtable_get_val ht ofs)
  end.

Definition hashtable_free (ht : hashtable) : hashtable := with_data ht (vmallocator_free (ht_data ht)).

Definition hashtable_get_size_bytes (ht : hashtable) : Z := vmallocator_wlocpos (ht_data ht).
