(* ===== verification/HashtableFacts.v ===== *)
(** * HashtableFacts: the hash table implements a finite map

    [ht_rep ht F m] relates a table to the map [m] from key bytes to value bytes it stores
    and to the list [F] of its free records.  It contains the probing invariant, the load
    bound and the layout: header, bucket cells, live and free records are pairwise
    disjoint regions below the allocator's write position. *)

From stdpp Require Import base numbers list gmap.
From Stdlib Require Import ZArith Lia.
From S2P Require Import Prelude Words Os Vmallocator Probe ProbeFacts Hashtable.

(** ** Regions of memory *)

Notation region := (Z * Z)%type (only parsing).

Definition disj (r1 r2 : region) : Prop := r1.1 + r1.2 <= r2.1 \/ r2.1 + r2.2 <= r1.1.

Fixpoint pairwise_disj (l : list region) : Prop :=
  match l with
  | [] => True
  | r :: l => Forall (disj r) l /\ pairwise_disj l
  end.

#[export] Instance pairwise_disj_proper : Proper ((≡ₚ) ==> iff) pairwise_disj.
Proof.
  assert (forall l1 l2, l1 ≡ₚ l2 -> pairwise_disj l1 -> pairwise_disj l2) as H.
  { induction 1 as [|r l1 l2 Hp IH|r1 r2 l|l1 l2 l3 _ IH1 _ IH2]; cbn; auto.
    - intros [Hf Hd]. split; [by rewrite <- Hp|auto].
    - rewrite !Forall_cons. intros [[H1 H2] [H3 H4]]. repeat split; auto.
      unfold disj in *. lia. }
  intros l1 l2 Hp. split; apply H; [done|by symmetry].
Qed.

Lemma pairwise_disj_app l1 l2 :
  pairwise_disj (l1 ++ l2) <->
  pairwise_disj l1 /\ pairwise_disj l2 /\ forall r1 r2, r1 ∈ l1 -> r2 ∈ l2 -> disj r1 r2.
Proof.
  induction l1 as [|r l1 IH]; cbn.
  - split; [intros H; repeat split; auto; set_solver|tauto].
  - rewrite IH, Forall_app, !Forall_forall. setoid_rewrite elem_of_cons. naive_solver.
Qed.

Definition within (lo hi : Z) (r : region) : Prop := lo <= r.1 /\ 0 < r.2 /\ r.1 + r.2 <= hi.

(** ** Bucket addresses *)

Definition distinct_buckets (ht : hashtable) (n : Z) : Prop :=
  forall i j, 0 <= i < n -> 0 <= j < n -> _hashtable_bucket ht i = _hashtable_bucket ht j -> i = j.

#[export] Instance hashtable_bucket_laws : BucketLaws hashtable.
Proof.
  refine {| addressable := distinct_buckets |}.
  - intros s n i e _ _. unfold bucket, set_bucket; cbn.
    change (_hashtable_bucket (with_ents _ _) i) with (_hashtable_bucket s i).
    by rewrite lookup_insert_eq.
  - intros s n i j e Ha Hi Hj Hne. unfold bucket, set_bucket; cbn.
    change (_hashtable_bucket (with_ents _ _) j) with (_hashtable_bucket s j).
    rewrite lookup_insert_ne; [done|]. intros E. apply Hne. by apply Ha.
  - intros s n i e Ha. exact Ha.
Defined.

(** Buckets below [2^k] only use the first [k - 4] slots. *)
Lemma bucket_ofs_slots ht l b k :
  5 <= k -> 0 <= b < 2 ^ k ->
  (forall i, 0 <= i < k - 4 -> default 0 (l !! Z.to_nat i) = slot ht i) ->
  _hashtable_bucket (with_slots ht l) b = _hashtable_bucket ht b.
Proof.
  intros Hk Hb Hl. unfold _hashtable_bucket, HASHTABLE_INITIAL_SIZE, HASHTABLE_INITIAL_SIZE_BITS.
  destruct (Z.ltb_spec b 32) as [Hlt|Hge].
  - f_equal. apply (Hl 0). lia.
  - f_equal. unfold ilog2. zcase; [lia|].
    assert (5 <= Z.log2 b < k).
    { split; [apply Z.log2_le_pow2; lia|]. apply Z.log2_lt_pow2; lia. }
    apply Hl. lia.
Qed.

(** The upper half of a doubled table is the vector of the new slot. *)
Lemma bucket_ofs_upper ht b k :
  5 <= k -> 2 ^ k <= b < 2 * 2 ^ k ->
  _hashtable_bucket ht b = slot ht (k - 4) + ENTRY_SIZE * (b - 2 ^ k).
Proof.
  intros Hk Hb. unfold _hashtable_bucket, HASHTABLE_INITIAL_SIZE, HASHTABLE_INITIAL_SIZE_BITS.
  assert (2 ^ 5 <= 2 ^ k) by (apply Z.pow_le_mono_r; lia). change (2 ^ 5) with 32 in *.
  destruct (Z.ltb_spec b 32) as [Hlt|Hge]; [lia|].
  assert (ilog2 b = k) as ->.
  { unfold ilog2. zcase; [lia|]. apply Z.log2_unique; [lia|].
    rewrite Z.pow_succ_r by lia. lia. }
  rewrite Z.shiftl_1_l. repeat f_equal; lia.
Qed.

Lemma zero_cells_lookup ofs n m a :
  zero_cells ofs n m !! a =
  if bool_decide (a ∈ (fun i => ofs + ENTRY_SIZE * i) <$> seqZ 0 n) then Some free_entry else m !! a.
Proof.
  unfold zero_cells. induction (seqZ 0 n) as [|i l IH]; cbn.
  - rewrite bool_decide_eq_false_2; [done|]. apply not_elem_of_nil.
  - destruct (decide (a = ofs + ENTRY_SIZE * i)) as [->|Hne].
    + rewrite lookup_insert_eq, bool_decide_eq_true_2 by set_solver. done.
    + rewrite lookup_insert_ne by done. rewrite IH.
      erewrite bool_decide_ext; [done|]. rewrite elem_of_cons. naive_solver.
Qed.

Lemma zero_cells_in ofs n m i :
  0 <= i < n -> zero_cells ofs n m !! (ofs + ENTRY_SIZE * i) = Some free_entry.
Proof.
  intros Hi. rewrite zero_cells_lookup, bool_decide_eq_true_2; [done|].
  apply list_elem_of_fmap. exists i. split; [done|]. apply elem_of_seqZ. lia.
Qed.

Lemma zero_cells_below ofs n m a : a < ofs -> zero_cells ofs n m !! a = m !! a.
Proof.
  intros Ha. rewrite zero_cells_lookup, bool_decide_eq_false_2; [done|].
  rewrite list_elem_of_fmap. intros (i & -> & Hi). apply elem_of_seqZ in Hi.
  unfold ENTRY_SIZE in Ha. lia.
Qed.

(** ** The representation relation *)

Definition cap_of (ht : hashtable) : Z := ht_mask ht + 1.

Definition holds (ht : hashtable) (ofs : Z) (k v : list Z) : Prop :=
  ht_recs ht !! ofs = Some (InternalRec (Z.of_nat (length k)) (Z.of_nat (length v)) (k ++ v)).

Fixpoint free_chain (ht : hashtable) (head : Z) (F : list Z) : Prop :=
  match F with
  | [] => head = 0
  | f :: F' => head = f /\ f <> 0
      /\ exists r, ht_recs ht !! f = Some r /\ free_chain ht (free_rec_next r) F'
  end.

Definition cell_regions (ht : hashtable) (n : Z) : list region :=
  (fun b => (_hashtable_bucket ht b, ENTRY_SIZE)) <$> seqZ 0 n.

Definition live_region (ht : hashtable) (e : ht_entry) : region :=
  (e_rec e, REC_SIZE + rec_key_size (rec_at ht (e_rec e)) + rec_val_size (rec_at ht (e_rec e))).

Definition free_region (ht : hashtable) (f : Z) : region :=
  (f, REC_SIZE + free_rec_size (rec_at ht f)).

Definition regions (ht : hashtable) (F : list Z) : list region :=
  cell_regions ht (cap_of ht) ++ (live_region ht <$> entries ht (cap_of ht)) ++ (free_region ht <$> F).

Record ht_rep (ht : hashtable) (F : list Z) (m : gmap (list Z) (list Z)) : Prop := {
  rep_vm : vm_wf (ht_data ht);
  rep_wloc : wlocpos (ht_data ht) < 2 ^ 32;
  rep_slots : length (ht_slots ht) = 32%nat;
  rep_cap : exists k, 5 <= k <= 30 /\ cap_of ht = 2 ^ k;
  rep_reach : reach ht (cap_of ht);
  rep_size : ht_size ht = Z.of_nat (length (entries ht (cap_of ht)));
  rep_load : 2 * ht_size ht <= cap_of ht;
  rep_disj : pairwise_disj (regions ht F);
  rep_within : Forall (within HEADER_SIZE (wlocpos (ht_data ht))) (regions ht F);
  rep_chain : free_chain ht (ht_free_list ht) F;
  rep_live : forall e, e ∈ entries ht (cap_of ht) ->
    exists k v, holds ht (e_rec e) k v /\ e_hashcode e = hashcode k /\ m !! k = Some v;
  rep_map : forall k v, m !! k = Some v -> exists e, e ∈ entries ht (cap_of ht) /\ holds ht (e_rec e) k v;
  rep_keys : forall e1 e2 k v1 v2, e1 ∈ entries ht (cap_of ht) -> e2 ∈ entries ht (cap_of ht) ->
    holds ht (e_rec e1) k v1 -> holds ht (e_rec e2) k v2 -> e1 = e2;
}.

(** *** Consequences of the layout *)

(** Disjoint cells have distinct addresses. *)
Lemma cells_disj_ne (l : Z -> Z) n i j :
  pairwise_disj ((fun b => (l b, ENTRY_SIZE)) <$> seqZ 0 n) -> 0 <= i < j -> j < n -> l i <> l j.
Proof.
  intros Hd Hi Hj E.
  replace n with (j + (n - j)) in Hd by lia. rewrite seqZ_app, fmap_app in Hd by lia.
  apply pairwise_disj_app in Hd as (_ & _ & Hd).
  assert (disj (l i, ENTRY_SIZE) (l j, ENTRY_SIZE)) as [H|H].
  { apply Hd; apply list_elem_of_fmap; [exists i|exists j]; (split; [done|]);
      apply elem_of_seqZ; lia. }
  all: cbn in H; unfold ENTRY_SIZE in H; lia.
Qed.

Lemma cells_disj_inj (l : Z -> Z) n i j :
  pairwise_disj ((fun b => (l b, ENTRY_SIZE)) <$> seqZ 0 n) ->
  0 <= i < n -> 0 <= j < n -> l i = l j -> i = j.
Proof.
  intros Hd Hi Hj E. destruct (Z.lt_total i j) as [H|[H|H]]; [|done|]; exfalso.
  - by apply (cells_disj_ne l n i j); [|lia..|].
  - by apply (cells_disj_ne l n j i); [|lia..|].
Qed.

Section Rep.
Variables (ht : hashtable) (F : list Z) (m : gmap (list Z) (list Z)).
Hypothesis Hrep : ht_rep ht F m.

Lemma rep_is_cap : is_cap (cap_of ht) /\ is_cap (2 * cap_of ht) /\ 32 <= cap_of ht <= 2 ^ 30.
Proof.
  destruct (rep_cap _ _ _ Hrep) as (k & Hk & E).
  assert (2 ^ 5 <= 2 ^ k <= 2 ^ 30) by (split; apply Z.pow_le_mono_r; lia).
  split; [|split; [|rewrite E; lia]].
  - exists k. split; [lia|]. split; [done|]. rewrite E. lia.
  - exists (k + 1). split; [lia|]. rewrite E, Z.pow_add_r by lia. lia.
Qed.

Lemma cell_in_regions b : 0 <= b < cap_of ht -> (_hashtable_bucket ht b, ENTRY_SIZE) ∈ regions ht F.
Proof.
  intros Hb. unfold regions, cell_regions. apply elem_of_app. left.
  apply list_elem_of_fmap. exists b. split; [done|]. apply elem_of_seqZ. lia.
Qed.

Lemma region_bounds r : r ∈ regions ht F -> within HEADER_SIZE (wlocpos (ht_data ht)) r.
Proof. pose proof (rep_within _ _ _ Hrep) as H. rewrite Forall_forall in H. apply H. Qed.

Lemma rep_addressable : addressable ht (cap_of ht).
Proof.
  pose proof (rep_disj _ _ _ Hrep) as Hd. apply pairwise_disj_app in Hd as (Hd & _ & _).
  intros i j. apply (cells_disj_inj (_hashtable_bucket ht)). exact Hd.
Qed.

Lemma rep_free_bucket : exists z, 0 <= z < cap_of ht /\ ~ occ ht z.
Proof.
  destruct rep_is_cap as (_ & _ & Hc). apply free_bucket_exists; [lia|].
  rewrite <- (rep_size _ _ _ Hrep). pose proof (rep_load _ _ _ Hrep). lia.
Qed.

Lemma live_bounds e : e ∈ entries ht (cap_of ht) -> HEADER_SIZE <= e_rec e < wlocpos (ht_data ht).
Proof.
  intros He. assert (live_region ht e ∈ regions ht F) as Hin.
  { unfold regions. apply elem_of_app. right. apply elem_of_app. left. by apply list_elem_of_fmap_2. }
  destruct (region_bounds _ Hin) as (H1 & H2 & H3). cbn in *.
  destruct (rep_live _ _ _ Hrep e He) as (k & v & Hh & _). unfold rec_at in H2, H3.
  rewrite Hh in H2, H3. cbn in *. unfold REC_SIZE in *. lia.
Qed.

Lemma live_free_ne e f : e ∈ entries ht (cap_of ht) -> f ∈ F -> e_rec e <> f.
Proof.
  intros He Hf E. pose proof (rep_disj _ _ _ Hrep) as Hd.
  apply pairwise_disj_app in Hd as (_ & Hd & _). apply pairwise_disj_app in Hd as (_ & _ & Hd).
  assert (disj (live_region ht e) (free_region ht f)) as Hdisj.
  { apply Hd; by apply list_elem_of_fmap_2. }
  assert (free_region ht f ∈ regions ht F) as Hin.
  { unfold regions. rewrite !elem_of_app. right. right. by apply list_elem_of_fmap_2. }
  destruct (region_bounds _ Hin) as (_ & H2 & _). cbn in H2.
  destruct (rep_live _ _ _ Hrep e He) as (k & v & Hh & _).
  unfold disj, live_region, free_region in Hdisj. cbn in Hdisj. subst f. unfold rec_at in *.
  rewrite Hh in *. cbn in *. unfold REC_SIZE in *. lia.
Qed.

Lemma live_rec_inj e1 e2 :
  e1 ∈ entries ht (cap_of ht) -> e2 ∈ entries ht (cap_of ht) -> e_rec e1 = e_rec e2 -> e1 = e2.
Proof.
  intros H1 H2 E. destruct (rep_live _ _ _ Hrep e1 H1) as (k & v & Hh & _).
  eapply (rep_keys _ _ _ Hrep); eauto. by rewrite <- E.
Qed.

End Rep.

(** ** Looking up a key *)

Lemma holds_inj ht ofs k1 v1 k2 v2 : holds ht ofs k1 v1 -> holds ht ofs k2 v2 -> k1 = k2 /\ v1 = v2.
Proof.
  unfold holds. intros -> [= E1 E2 E3]. assert (length k1 = length k2) as E by lia.
  by apply app_inj_1 in E3.
Qed.

Lemma key_matches_holds ht hc k e v : holds ht (e_rec e) k v -> key_matches ht hc k e = (hc =? e_hashcode e).
Proof.
  intros Hh. unfold key_matches. rewrite Hh. cbn. rewrite Z.eqb_refl.
  rewrite take_app_length, bool_decide_eq_true_2 by done. by rewrite andb_true_r.
Qed.

Lemma key_matches_true ht F m k e :
  ht_rep ht F m -> e ∈ entries ht (cap_of ht) -> key_matches ht (hashcode k) k e = true ->
  exists v, holds ht (e_rec e) k v /\ m !! k = Some v.
Proof.
  intros Hrep He Hm. destruct (rep_live _ _ _ Hrep e He) as (k' & v & Hh & _ & Hmk).
  unfold key_matches in Hm. apply andb_true_iff in Hm as [_ Hm]. rewrite Hh in Hm. cbn in Hm.
  apply andb_true_iff in Hm as [Hl Ht]. apply Z.eqb_eq in Hl. apply bool_decide_eq_true_1 in Ht.
  assert (length k = length k') as E by lia. rewrite E, take_app_length in Ht. subst k'. eauto.
Qed.

(** Where the search for [k] stops: at the record of [k], or, when there is none, at the
    first free bucket after the ideal bucket of [k]. *)
Lemma find_key ht F m k :
  ht_rep ht F m ->
  exists b, probe (stop_at_key ht (hashcode k) k) (round (ht_mask ht)) ht (ht_mask ht)
              (Z.land (hashcode k) (ht_mask ht)) = Some b
    /\ 0 <= b < cap_of ht
    /\ ((occ ht b /\ exists v, holds ht (e_rec (bucket ht b)) k v /\ m !! k = Some v)
        \/ (m !! k = None /\ first_hole ht (cap_of ht) (Z.land (hashcode k) (ht_mask ht)) b)).
Proof.
  intros Hrep. destruct (rep_is_cap ht F m Hrep) as (Hc & _ & Hcb).
  assert (Hmask : ht_mask ht = cap_of ht - 1) by (unfold cap_of; lia). rewrite Hmask.
  set (hb := Z.land (hashcode k) (cap_of ht - 1)).
  assert (Hhb : 0 <= hb < cap_of ht) by (apply (home_range _ (HtEntry (hashcode k) 0) Hc)).
  destruct (rep_free_bucket ht F m Hrep) as (z & Hz & Hfz).
  assert (Hstop : forall p, ~ occ ht p -> stop_at_key ht (hashcode k) k (bucket ht p) = true).
  { intros p Hp. unfold stop_at_key. apply orb_true_iff. left. apply is_free_true.
    destruct (decide (e_rec (bucket ht p) = 0)); [done|by destruct Hp]. }
  destruct (probe_spec ht (cap_of ht) (stop_at_key ht (hashcode k) k) z hb)
    as (b & Hb & Hbr & _ & Hsb & Hbefore); auto; try lia.
  exists b. split; [done|]. split; [done|].
  destruct (decide (occ ht b)) as [Ho|Hfree].
  - left. split; [done|]. unfold stop_at_key in Hsb. apply orb_true_iff in Hsb as [Hf|Hm].
    + apply is_free_true in Hf. done.
    + eapply key_matches_true; eauto. apply elem_of_entries. eauto.
  - right. split.
    + destruct (m !! k) as [v|] eqn:Hmk; [|done]. exfalso.
      destruct (rep_map _ _ _ Hrep k v Hmk) as (e & He & Hh).
      pose proof (rep_live _ _ _ Hrep e He) as (k' & v' & Hh' & Hhc & _).
      destruct (holds_inj _ _ _ _ _ _ Hh Hh') as [<- <-].
      apply elem_of_entries in He as (i & Hi & Hoi & <-).
      destruct (probe_finds ht (cap_of ht) (stop_at_key ht (hashcode k) k) i) as (j & Hj & _ & Hoj & _);
        auto.
      * apply (rep_reach _ _ _ Hrep).
      * unfold stop_at_key. rewrite (key_matches_holds _ _ _ _ v) by done.
        rewrite Hhc, Z.eqb_refl. apply orb_true_r.
      * unfold home in Hj. rewrite Hhc in Hj. fold hb in Hj. rewrite Hb in Hj. injection Hj as ->. done.
    + split; [done|]. split; [done|]. intros p Hp Hd. specialize (Hbefore p Hp Hd).
      unfold stop_at_key in Hbefore. apply orb_false_iff in Hbefore as [Hf _].
      by apply is_free_false in Hf.
Qed.

Lemma holds_get_val ht ofs k v : holds ht ofs k v -> hashtable_get_val ht ofs = v.
Proof.
  intros Hh. unfold hashtable_get_val, hashtable_get_val_size, hashtable_get_key_size, rec_at.
  rewrite Hh. cbn. rewrite !Nat2Z.id. rewrite drop_app_length. apply take_ge. lia.
Qed.

Lemma holds_get_key ht ofs k v : holds ht ofs k v -> hashtable_get_key ht ofs = k.
Proof.
  intros Hh. unfold hashtable_get_key, hashtable_get_key_size, rec_at.
  rewrite Hh. cbn. rewrite Nat2Z.id. apply take_app_length.
Qed.

Lemma lookup_rep ht F m k :
  ht_rep ht F m ->
  exists ofs, hashtable_lookup ht k = Some ofs
    /\ match m !! k with
       | Some v => ofs <> 0 /\ hashtable_get_key ht ofs = k /\ hashtable_get_val ht ofs = v
       | None => ofs = 0
       end.
Proof.
  intros Hrep. destruct (find_key ht F m k Hrep) as (b & Hb & Hbr & Hcase).
  unfold hashtable_lookup. rewrite Hb. eexists. split; [done|].
  destruct Hcase as [(Ho & v & Hh & ->)|(-> & _ & Hfree & _)].
  - split; [exact Ho|]. split; [by eapply holds_get_key|by eapply holds_get_val].
  - destruct (decide (e_rec (bucket ht b) = 0)); [done|by destruct Hfree].
Qed.

(** ** Growing *)

Definition roomy (o : os) : Prop := can_grow_to o (2 ^ 33) /\ can_truncate_to o (2 ^ 33).

Lemma can_grow_mono o a b : a <= b -> can_grow_to o b -> can_grow_to o a.
Proof. intros Hab H old new Hn. apply H. lia. Qed.
Lemma can_truncate_mono o a b : a <= b -> can_truncate_to o b -> can_truncate_to o a.
Proof. intros Hab H fd n Hn. apply H. lia. Qed.

Lemma alloc_vector_ok o ht n :
  roomy o -> vm_wf (ht_data ht) -> 0 <= n -> wlocpos (ht_data ht) + 8 + ENTRY_SIZE * n < 2 ^ 32 ->
  exists d ofs,
    alloc_vector o ht n = Some (with_ents (with_data ht d) (zero_cells ofs n (ht_ents ht)), ofs)
    /\ vm_wf d /\ wlocpos (ht_data ht) <= ofs < wlocpos (ht_data ht) + 8
    /\ wlocpos d = ofs + ENTRY_SIZE * n.
Proof.
  intros [Hg Ht] Hwf Hn Hroom. unfold ENTRY_SIZE in *. pose proof (vm_wloc _ Hwf).
  destruct (alloc_aligned_ok o (ht_data ht) (n * 8) (2 ^ 32)) as (d & ofs & E & Hd & Hofs & _ & Hw & _);
    auto; try lia.
  unfold alloc_vector, ENTRY_SIZE. rewrite E.
  destruct (Z.eqb_spec ofs (u64 (-1))) as [E1|_]; [change (u64 (-1)) with (2 ^ 64 - 1) in E1; lia|].
  exists d, ofs. rewrite u32_small by lia. split; [done|]. split; [done|]. lia.
Qed.

Lemma with_mask_bucket ht mk b : bucket (with_mask ht mk) b = bucket ht b.
Proof. reflexivity. Qed.

(** What the probing loops leave alone in a hash table. *)
Lemma updates_fields n ht ht' :
  updates n ht ht' ->
  ht_data ht' = ht_data ht /\ ht_mask ht' = ht_mask ht /\ ht_size ht' = ht_size ht
  /\ ht_free_list ht' = ht_free_list ht /\ ht_slots ht' = ht_slots ht /\ ht_recs ht' = ht_recs ht.
Proof. induction 1 as [|s i e s' _ _ IH]; [done|]. cbn in IH. exact IH. Qed.

Lemma bucket_ofs_eq_slots ht ht' b :
  ht_slots ht' = ht_slots ht -> _hashtable_bucket ht' b = _hashtable_bucket ht b.
Proof. intros E. unfold _hashtable_bucket, slot. by rewrite E. Qed.

Lemma free_chain_recs ht ht' F : forall head,
  (forall f, f ∈ F -> ht_recs ht' !! f = ht_recs ht !! f) -> free_chain ht head F -> free_chain ht' head F.
Proof.
  induction F as [|f F IH]; intros head Hf; cbn; [done|].
  intros (-> & Hne & r & Hr & Hc). split; [done|]. split; [done|]. exists r.
  rewrite Hf by set_solver. split; [done|]. apply IH; [|done]. intros g Hg. apply Hf. set_solver.
Qed.

(** The table between the allocation of the new vector and the rehash. *)
Section Grow.
Variables (ht : hashtable) (F : list Z) (m : gmap (list Z) (list Z)) (d : vmallocator) (ofs k : Z).
Hypothesis Hrep : ht_rep ht F m.
Hypothesis Hk : 5 <= k <= 29.
Hypothesis Hcap : cap_of ht = 2 ^ k.
Hypothesis Hofs : wlocpos (ht_data ht) <= ofs.

Definition grown : hashtable :=
  with_slots (with_ents (with_data ht d) (zero_cells ofs (2 ^ k) (ht_ents ht)))
             (<[Z.to_nat (k - 4) := ofs]> (ht_slots ht)).

Lemma grown_cell b : 0 <= b < 2 ^ k -> _hashtable_bucket grown b = _hashtable_bucket ht b.
Proof.
  intros Hb. unfold grown.
  rewrite (bucket_ofs_slots _ _ b k) by
    (auto; try lia; intros i Hi; rewrite list_lookup_insert_ne by lia; done).
  by apply bucket_ofs_eq_slots.
Qed.

Lemma grown_upper_cell b : 2 ^ k <= b < 2 * 2 ^ k ->
  _hashtable_bucket grown b = ofs + ENTRY_SIZE * (b - 2 ^ k).
Proof.
  intros Hb. rewrite (bucket_ofs_upper _ b k) by lia. f_equal. unfold slot, grown. cbn.
  rewrite list_lookup_insert_eq; [done|]. rewrite (rep_slots _ _ _ Hrep). lia.
Qed.

Lemma cell_bounds b : 0 <= b < 2 ^ k -> HEADER_SIZE <= _hashtable_bucket ht b /\ _hashtable_bucket ht b + ENTRY_SIZE <= wlocpos (ht_data ht).
Proof.
  intros Hb. rewrite <- Hcap in Hb. pose proof (cell_in_regions ht F b Hb) as Hin.
  destruct (region_bounds ht F m Hrep _ Hin) as (? & _ & ?). cbn in *. lia.
Qed.

Lemma grown_bucket b : 0 <= b < 2 ^ k -> bucket grown b = bucket ht b.
Proof.
  intros Hb. unfold bucket. cbn. rewrite grown_cell by done.
  pose proof (cell_bounds b Hb). unfold ENTRY_SIZE in *. by rewrite zero_cells_below by lia.
Qed.

Lemma grown_upper b : 2 ^ k <= b < 2 * 2 ^ k -> ~ occ grown b.
Proof.
  intros Hb. unfold occ, bucket. cbn. rewrite grown_upper_cell by done.
  rewrite zero_cells_in by lia. cbn. lia.
Qed.

Definition new_cells : list (Z * Z) := (fun b => (ofs + ENTRY_SIZE * b, ENTRY_SIZE)) <$> seqZ 0 (2 ^ k).

Lemma grown_cell_regions :
  cell_regions grown (2 * 2 ^ k) = cell_regions ht (2 ^ k) ++ new_cells.
Proof.
  assert (0 < 2 ^ k) by (apply Z.pow_pos_nonneg; lia).
  unfold cell_regions. replace (2 * 2 ^ k) with (2 ^ k + 2 ^ k) by lia.
  rewrite seqZ_app, fmap_app by lia. f_equal.
  - apply list_fmap_ext. intros i b Hb. apply lookup_seqZ in Hb. rewrite grown_cell by lia. done.
  - unfold new_cells. rewrite Z.add_comm, <- (fmap_add_seqZ (2 ^ k) 0), <- list_fmap_compose. apply list_fmap_ext. intros i b Hb. apply lookup_seqZ in Hb.
    cbn. rewrite grown_upper_cell by lia. f_equal. f_equal. f_equal. lia.
Qed.

Lemma new_cells_within r :
  r ∈ new_cells -> ofs <= r.1 /\ r.2 = ENTRY_SIZE /\ r.1 + r.2 <= ofs + ENTRY_SIZE * 2 ^ k.
Proof.
  unfold new_cells. intros Hr. apply list_elem_of_fmap in Hr as (b & -> & Hb).
  apply elem_of_seqZ in Hb. unfold ENTRY_SIZE. cbn. lia.
Qed.

Lemma new_cells_disj : pairwise_disj new_cells.
Proof.
  unfold new_cells. generalize (2 ^ k) as n. intros n. destruct (Z.le_gt_cases 0 n) as [Hn|Hn].
  2:{ rewrite seqZ_nil by lia. done. }
  pattern n. apply natlike_ind; [done| |done]. intros x Hx IH. unfold Z.succ.
  rewrite seqZ_app, fmap_app by lia. apply pairwise_disj_app. split; [done|].
  rewrite (seqZ_cons (0 + x) 1), seqZ_nil by lia. cbn. split; [done|].
  intros r1 r2 H1 H2. apply list_elem_of_fmap in H1 as (b & -> & Hb). apply elem_of_seqZ in Hb.
  apply list_elem_of_singleton in H2 as ->. left. cbn. unfold ENTRY_SIZE. lia.
Qed.

Lemma grown_addressable : addressable grown (2 * 2 ^ k).
Proof.
  intros i j. apply (cells_disj_inj (_hashtable_bucket grown)).
  change (pairwise_disj (cell_regions grown (2 * 2 ^ k))). rewrite grown_cell_regions.
  pose proof (rep_disj _ _ _ Hrep) as Hd. apply pairwise_disj_app in Hd as (Hd & _ & _).
  rewrite Hcap in Hd. apply pairwise_disj_app. split; [done|]. split; [apply new_cells_disj|].
  intros r1 r2 H1 H2. left. apply new_cells_within in H2 as (? & _).
  assert (r1 ∈ regions ht F) as Hin by (unfold regions; rewrite Hcap; set_solver).
  destruct (region_bounds ht F m Hrep r1 Hin) as (_ & _ & ?). lia.
Qed.

End Grow.

Lemma live_region_recs ht ht' e : ht_recs ht' = ht_recs ht -> live_region ht' e = live_region ht e.
Proof. intros E. unfold live_region, rec_at. by rewrite E. Qed.
Lemma free_region_recs ht ht' f : ht_recs ht' = ht_recs ht -> free_region ht' f = free_region ht f.
Proof. intros E. unfold free_region, rec_at. by rewrite E. Qed.

(** A table with more bucket cells and the same records represents the same map. *)
Lemma rep_more_cells ht ht' F m new k :
  ht_rep ht F m ->
  vm_wf (ht_data ht') -> wlocpos (ht_data ht) <= wlocpos (ht_data ht') < 2 ^ 32 ->
  length (ht_slots ht') = 32%nat -> 5 <= k <= 30 -> cap_of ht' = 2 ^ k -> cap_of ht <= cap_of ht' ->
  reach ht' (cap_of ht') -> entries ht' (cap_of ht') ≡ₚ entries ht (cap_of ht) ->
  ht_size ht' = ht_size ht -> ht_free_list ht' = ht_free_list ht -> ht_recs ht' = ht_recs ht ->
  cell_regions ht' (cap_of ht') = cell_regions ht (cap_of ht) ++ new -> pairwise_disj new ->
  (forall r, r ∈ new -> wlocpos (ht_data ht) <= r.1 /\ 0 < r.2 /\ r.1 + r.2 <= wlocpos (ht_data ht')) ->
  ht_rep ht' F m.
Proof.
  intros Hrep Hvm Hw Hsl Hk Hcap Hle Hreach He Hsz Hfl Hrecs Hcells Hdn Hnew.
  assert (regions ht' F ≡ₚ new ++ regions ht F) as Hregs.
  { unfold regions. rewrite Hcells, He.
    rewrite (list_fmap_ext (live_region ht') (live_region ht)) by (intros; by apply live_region_recs).
    rewrite (list_fmap_ext (free_region ht') (free_region ht)) by (intros; by apply free_region_recs).
    rewrite <- (assoc_L (++)). apply Permutation_app_swap_app. }
  pose proof (rep_within _ _ _ Hrep) as Hin. rewrite Forall_forall in Hin.
  pose proof (rep_wloc _ _ _ Hrep). pose proof (rep_load _ _ _ Hrep).
  assert (HEADER_SIZE <= wlocpos (ht_data ht)).
  { destruct (Hin _ (cell_in_regions ht F 0 ltac:(destruct (rep_is_cap _ _ _ Hrep); lia))) as (? & _ & ?).
    cbn in *. unfold ENTRY_SIZE in *. lia. }
  split; auto; try lia.
  - eauto.
  - rewrite Hsz, (rep_size _ _ _ Hrep), He. done.
  - rewrite Hregs. apply pairwise_disj_app. split; [done|]. split; [apply (rep_disj _ _ _ Hrep)|].
    intros r1 r2 Hr1 Hr2. right. destruct (Hnew r1 Hr1). destruct (Hin r2 Hr2). lia.
  - rewrite Hregs. apply Forall_forall. intros r [Hr|Hr]%elem_of_app.
    + destruct (Hnew r Hr). unfold within. lia.
    + destruct (Hin r Hr). unfold within. lia.
  - rewrite Hfl. eapply free_chain_recs; [|apply (rep_chain _ _ _ Hrep)]. by rewrite Hrecs.
  - intros e. rewrite He. unfold holds. rewrite Hrecs. apply (rep_live _ _ _ Hrep).
  - intros q v. unfold holds. rewrite Hrecs. setoid_rewrite He. apply (rep_map _ _ _ Hrep).
  - intros e1 e2 q v1 v2. rewrite !He. unfold holds. rewrite Hrecs. apply (rep_keys _ _ _ Hrep).
Qed.

Lemma grow_rep o ht F m :
  roomy o -> ht_rep ht F m -> wlocpos (ht_data ht) + 8 + ENTRY_SIZE * cap_of ht < 2 ^ 32 ->
  exists ht', _hashtable_grow o ht = Some ht' /\ ht_rep ht' F m /\ cap_of ht' = 2 * cap_of ht
    /\ ht_size ht' = ht_size ht
    /\ wlocpos (ht_data ht') < wlocpos (ht_data ht) + 8 + ENTRY_SIZE * cap_of ht.
Proof.
  intros Ho Hrep Hroom. destruct (rep_cap _ _ _ Hrep) as (k & Hk & Hcap).
  destruct (rep_is_cap _ _ _ Hrep) as (Hc & Hc2 & Hcb). pose proof (vm_wloc _ (rep_vm _ _ _ Hrep)).
  assert (Hk' : k <= 28).
  { destruct (Z.le_gt_cases k 28); [done|]. assert (2 ^ 29 <= 2 ^ k) by (apply Z.pow_le_mono_r; lia).
    unfold ENTRY_SIZE in *. lia. }
  destruct (alloc_vector_ok o ht (cap_of ht)) as (d & ofs & Ea & Hd & Hofs & Hw); auto;
    [apply Hrep|lia|].
  unfold _hashtable_grow. rewrite (u32_small (ht_mask ht + 1)) by (unfold cap_of in *; lia).
  fold (cap_of ht). cbv zeta. rewrite Ea.
  assert (ilog2 (cap_of ht) = k) as ->.
  { unfold ilog2. zcase; [lia|]. rewrite Hcap. apply Z.log2_pow2. lia. }
  replace (k - HASHTABLE_INITIAL_SIZE_BITS + 1) with (k - 4) by (unfold HASHTABLE_INITIAL_SIZE_BITS; lia).
  assert (with_slots (with_ents (with_data ht d) (zero_cells ofs (cap_of ht) (ht_ents ht)))
            (<[Z.to_nat (k - 4) := ofs]> (ht_slots ht)) = grown ht d ofs k) as Eg
    by (unfold grown; by rewrite Hcap).
  cbn [ht_slots with_ents with_data] in *. rewrite Eg.
  assert (Hupper : forall p, cap_of ht <= p < 2 * cap_of ht -> ~ occ (grown ht d ofs k) p).
  { rewrite Hcap. intros p. eapply grown_upper; eauto; lia. }
  assert (Hold : forall p, 0 <= p < cap_of ht -> bucket (grown ht d ofs k) p = bucket ht p).
  { rewrite Hcap. intros p. eapply grown_bucket; eauto; lia. }
  destruct (rehash_spec false (grown ht d ofs k) (cap_of ht)) as (s & -> & Hu & Hreach & Hent); auto.
  { rewrite Hcap. eapply grown_addressable; eauto; lia. }
  { eapply reach_ext; [|apply (rep_reach _ _ _ Hrep)]. auto. }
  { destruct (rep_free_bucket _ _ _ Hrep) as (z & Hz & Hf). exists z. split; [done|].
    unfold occ in *. by rewrite Hold. }
  eexists. split; [done|]. destruct (updates_fields _ _ _ Hu) as (E1 & E2 & E3 & E4 & E5 & E6).
  rewrite Z.shiftl_mul_pow2, (u32_small (cap_of ht * 2 ^ 1)), (u32_small (_ - 1)) by lia.
  set (ht' := with_mask s (cap_of ht * 2 ^ 1 - 1)).
  assert (Hcap' : cap_of ht' = 2 * cap_of ht) by (unfold cap_of at 1; cbn; lia).
  assert (Hwd : wlocpos (ht_data ht') = ofs + ENTRY_SIZE * cap_of ht) by (cbn; rewrite E1; exact Hw).
  rewrite (entries_upper_free (grown ht d ofs k)), (entries_ext ht (grown ht d ofs k)) in Hent
    by (auto; lia).
  unfold ENTRY_SIZE in Hwd, Hroom.
  split; [|split; [done|split; [exact E3|rewrite Hwd; unfold ENTRY_SIZE; lia]]].
  apply (rep_more_cells ht ht' F m (new_cells ofs k) (k + 1)); rewrite ?Hcap'; auto; try lia.
  - cbn. rewrite E1. exact Hd.
  - cbn. rewrite E5. cbn. rewrite length_insert. apply Hrep.
  - rewrite Hcap, Z.pow_add_r by lia. lia.
  - rewrite Hcap. rewrite <- (grown_cell_regions ht F m d ofs k) by (auto; lia).
    apply list_fmap_ext. intros i b _. f_equal. by apply bucket_ofs_eq_slots.
  - apply new_cells_disj. lia.
  - intros r Hr. apply new_cells_within in Hr; [|lia]. unfold ENTRY_SIZE in *. rewrite Hwd, Hcap. lia.
Qed.

(** ** The free list *)

Lemma set_next_fields ht prev next :
  let ht' := set_next ht prev next in
  ht_data ht' = ht_data ht /\ ht_mask ht' = ht_mask ht /\ ht_size ht' = ht_size ht
  /\ ht_slots ht' = ht_slots ht /\ ht_ents ht' = ht_ents ht.
Proof. destruct prev as [p|]; cbn; [|done]. by destruct (ht_recs ht !! p). Qed.

Lemma set_next_recs_ne ht prev next a : prev <> Some a -> ht_recs (set_next ht prev next) !! a = ht_recs ht !! a.
Proof.
  intros Hne. destruct prev as [p|]; cbn; [|done].
  destruct (ht_recs ht !! p); cbn; [|done]. rewrite lookup_insert_ne; congruence.
Qed.

Lemma set_next_free_region ht prev next f : free_region (set_next ht prev next) f = free_region ht f.
Proof.
  destruct (decide (prev = Some f)) as [->|Hne].
  - unfold free_region, rec_at. cbn. destruct (ht_recs ht !! f) as [r|] eqn:E; cbn; [|by rewrite E].
    by rewrite lookup_insert_eq.
  - unfold free_region, rec_at. by rewrite set_next_recs_ne.
Qed.

Definition prev_of (prev : option Z) (F1 : list Z) : option Z :=
  match last F1 with Some p => Some p | None => prev end.

Lemma prev_of_cons prev f F1 : prev_of prev (f :: F1) = prev_of (Some f) F1.
Proof. unfold prev_of. rewrite last_cons. by destruct (last F1). Qed.

Lemma freelist_search_spec ht size F : forall fuel prev head,
  free_chain ht head F -> (length F < fuel)%nat ->
  (freelist_search fuel ht size prev head = Some (ht, 0)
   \/ exists F1 f F2, F = F1 ++ f :: F2 /\ f <> 0 /\ free_rec_size (rec_at ht f) = size
        /\ freelist_search fuel ht size prev head
           = Some (set_next ht (prev_of prev F1) (free_rec_next (rec_at ht f)), f)).
Proof.
  induction F as [|f F IH]; intros [|fuel] prev head Hc Hlen; cbn in *; try lia.
  - subst. by left.
  - destruct Hc as (-> & Hne & r & Hr & Hc). destruct (Z.eqb_spec f 0); [done|]. rewrite Hr.
    destruct (Z.eqb_spec (free_rec_size r) size) as [E|E].
    + right. exists [], f, F. unfold rec_at. rewrite Hr. done.
    + destruct (IH fuel (Some f) _ Hc ltac:(lia)) as [->|(F1 & g & F2 & -> & Hg & Hs & ->)]; [by left|].
      right. exists (f :: F1), g, F2. split; [done|]. split; [done|]. split; [done|].
      by rewrite prev_of_cons.
Qed.

(** Unlinking [f] from behind the non-empty prefix [F1 ++ [p]]. *)
Lemma unlink_chain ht F1 p f F2 rp : forall head,
  NoDup (F1 ++ p :: f :: F2) -> ht_recs ht !! p = Some rp ->
  free_chain ht head (F1 ++ p :: f :: F2) ->
  free_chain (set_next ht (Some p) (free_rec_next (rec_at ht f))) head (F1 ++ p :: F2).
Proof.
  intros head Hnd Hp. revert head. induction F1 as [|g F1 IH]; intros head Hc.
  - cbn in Hc. destruct Hc as (-> & Hne & r & Hr & Hrf & Hf & r' & Hr' & Hc).
    cbn [app free_chain]. split; [done|]. split; [done|].
    exists (InternalRec (free_rec_next (rec_at ht f)) (r_word1 rp) (r_data rp)).
    split; [cbn; by rewrite Hp; cbn; rewrite lookup_insert_eq|].
    cbn [free_rec_next r_word0]. unfold rec_at. rewrite Hr'. cbn [default].
    eapply free_chain_recs; [|exact Hc]. intros x Hx. apply set_next_recs_ne.
    cbn in Hnd. apply NoDup_cons in Hnd as [Hnd _]. intros [= <-]. set_solver.
  - cbn [app] in Hnd. apply NoDup_cons in Hnd as [Hg Hnd].
    cbn [app free_chain] in Hc |- *. destruct Hc as (-> & Hne & r & Hr & Hc).
    split; [done|]. split; [done|]. exists r. split; [|by apply IH].
    rewrite set_next_recs_ne; [done|]. intros [= <-]. set_solver.
Qed.

Lemma free_chain_in ht F : forall head f, free_chain ht head F -> f ∈ F -> f <> 0 /\ is_Some (ht_recs ht !! f).
Proof.
  induction F as [|g F IH]; intros head f Hc Hf; [set_solver|].
  cbn in Hc. destruct Hc as (-> & Hne & r & Hr & Hc). apply elem_of_cons in Hf as [->|Hf]; [eauto|].
  by eapply IH.
Qed.

Lemma unlink ht F1 f F2 :
  NoDup (F1 ++ f :: F2) -> free_chain ht (ht_free_list ht) (F1 ++ f :: F2) ->
  let ht' := set_next ht (prev_of None F1) (free_rec_next (rec_at ht f)) in
  free_chain ht' (ht_free_list ht') (F1 ++ F2).
Proof.
  intros Hnd Hc. destruct F1 as [|p F1 _] using rev_ind.
  - cbn in *. destruct Hc as (_ & _ & r & Hr & Hc). unfold rec_at. rewrite Hr. cbn.
    by eapply free_chain_recs; [|exact Hc].
  - unfold prev_of. rewrite last_snoc. rewrite <- !(assoc_L (++)) in *. cbn [app] in *.
    destruct (free_chain_in _ _ _ p Hc ltac:(set_solver)) as (_ & rp & Hp).
    replace (ht_free_list (set_next ht (Some p) (free_rec_next (rec_at ht f)))) with (ht_free_list ht)
      by (cbn; by rewrite Hp).
    by eapply unlink_chain.
Qed.

Lemma length_le_recs (recs : gmap Z internal_rec) (F : list Z) :
  NoDup F -> (forall f, f ∈ F -> is_Some (recs !! f)) -> (length F <= size recs)%nat.
Proof.
  intros Hnd Hin. rewrite <- size_dom. rewrite <- (size_list_to_set (C := gset Z) F) by done.
  apply subseteq_size. intros f Hf. apply elem_of_dom, Hin. set_solver.
Qed.

(** ** Inserting a key *)

Lemma disj_nodup (l : list (Z * Z)) : pairwise_disj l -> Forall (fun r => 0 < r.2) l -> NoDup l.*1.
Proof.
  induction l as [|r l IH]; cbn; [constructor|].
  intros [Hd Hl] [Hr Hp]%Forall_cons. constructor; [|auto].
  rewrite list_elem_of_fmap. intros (r' & E & Hr'). rewrite !Forall_forall in *.
  specialize (Hd r' Hr'). specialize (Hp r' Hr'). unfold disj in Hd. lia.
Qed.

Lemma free_nodup ht F m : ht_rep ht F m -> NoDup F.
Proof.
  intros Hrep. pose proof (rep_disj _ _ _ Hrep) as Hd. pose proof (rep_within _ _ _ Hrep) as Hw.
  unfold regions in *. rewrite !pairwise_disj_app in Hd. destruct Hd as (_ & (_ & Hd & _) & _).
  rewrite !Forall_app in Hw. destruct Hw as (_ & _ & Hw).
  apply disj_nodup in Hd; [|eapply Forall_impl; [exact Hw|]; intros r (_ & ? & _); done].
  rewrite <- list_fmap_compose in Hd. erewrite list_fmap_ext in Hd; [by rewrite list_fmap_id in Hd|].
  by intros.
Qed.

(** Allocating a record for a free bucket gives a region apart from all others, taken from
    the free list or from the end of the allocated memory. *)
Record allocated (ht : hashtable) (b hc kl vl : Z) (ht' : hashtable) (ofs : Z) (F' : list Z) : Prop := {
  al_mask : ht_mask ht' = ht_mask ht;
  al_size : ht_size ht' = ht_size ht;
  al_slots : ht_slots ht' = ht_slots ht;
  al_ents : ht_ents ht' = <[_hashtable_bucket ht b := HtEntry hc ofs]> (ht_ents ht);
  al_vm : vm_wf (ht_data ht');
  al_wloc : wlocpos (ht_data ht) <= wlocpos (ht_data ht') <= wlocpos (ht_data ht) + REC_SIZE + kl + vl;
  al_chain : free_chain ht' (ht_free_list ht') F';
  al_live : forall e, e ∈ entries ht (cap_of ht) -> ht_recs ht' !! e_rec e = ht_recs ht !! e_rec e;
  al_disj : pairwise_disj ((ofs, REC_SIZE + kl + vl) :: cell_regions ht (cap_of ht)
              ++ (live_region ht <$> entries ht (cap_of ht)) ++ (free_region ht' <$> F'));
  al_within : Forall (within HEADER_SIZE (wlocpos (ht_data ht')))
              ((ofs, REC_SIZE + kl + vl) :: cell_regions ht (cap_of ht)
              ++ (live_region ht <$> entries ht (cap_of ht)) ++ (free_region ht' <$> F'));
}.

Lemma within_mono lo hi hi' r : hi <= hi' -> within lo hi r -> within lo hi' r.
Proof. unfold within. lia. Qed.

Lemma header_le_wloc ht F m : ht_rep ht F m -> HEADER_SIZE <= wlocpos (ht_data ht).
Proof.
  intros Hrep. destruct (rep_is_cap _ _ _ Hrep) as (_ & _ & Hc).
  destruct (region_bounds _ _ _ Hrep _ (cell_in_regions ht F 0 ltac:(lia))) as (? & ? & ?). lia.
Qed.

Lemma free_bucket_rec ht b : ~ occ ht b -> e_rec (bucket ht b) = 0.
Proof. intros H. destruct (decide (e_rec (bucket ht b) = 0)); [done|by destruct H]. Qed.

Section Alloc.
Variables (ht : hashtable) (F : list Z) (m : gmap (list Z) (list Z)) (b hc kl vl : Z).
Hypothesis Hrep : ht_rep ht F m.
Hypothesis Hb : 0 <= b < cap_of ht.
Hypothesis Hkl : 0 <= kl.
Hypothesis Hvl : 0 <= vl.

(** The table after the hash code was written to bucket [b]. *)
Definition marked : hashtable := set_bucket ht b (HtEntry hc (e_rec (bucket ht b))).

Lemma marked_link ht' ofs :
  ht_slots ht' = ht_slots ht -> ht_ents ht' = ht_ents marked ->
  ht_ents (set_bucket ht' b (HtEntry (e_hashcode (bucket ht' b)) ofs))
  = <[_hashtable_bucket ht b := HtEntry hc ofs]> (ht_ents ht).
Proof.
  intros Hs He. unfold bucket, set_bucket. cbn. rewrite (bucket_ofs_eq_slots ht ht') by done.
  rewrite He. cbn. rewrite lookup_insert_eq. cbn. apply insert_insert_eq.
Qed.

Lemma allocated_fresh ht' :
  vm_wf (ht_data ht') -> wlocpos (ht_data ht') = wlocpos (ht_data ht) + REC_SIZE + kl + vl ->
  ht_mask ht' = ht_mask ht -> ht_size ht' = ht_size ht -> ht_slots ht' = ht_slots ht ->
  ht_free_list ht' = ht_free_list ht -> ht_recs ht' = ht_recs ht ->
  ht_ents ht' = <[_hashtable_bucket ht b := HtEntry hc (wlocpos (ht_data ht))]> (ht_ents ht) ->
  allocated ht b hc kl vl ht' (wlocpos (ht_data ht)) F.
Proof.
  intros Hvm Hw Em Es Esl Ef Er Ee. pose proof (header_le_wloc _ _ _ Hrep) as Hhw.
  pose proof (rep_within _ _ _ Hrep) as Hin. unfold REC_SIZE in Hw.
  assert (free_region ht' <$> F = free_region ht <$> F) as HF
    by (apply list_fmap_ext; intros; by apply free_region_recs).
  split; rewrite ?HF; fold (regions ht F); auto; unfold REC_SIZE; try lia.
  - rewrite Ef. eapply free_chain_recs; [|apply Hrep]. by rewrite Er.
  - by rewrite Er.
  - split; [|apply Hrep]. eapply Forall_impl; [exact Hin|]. intros r (_ & _ & ?). right. cbn. lia.
  - apply Forall_cons. split; [unfold within; cbn; lia|].
    eapply Forall_impl; [exact Hin|]. intros r. apply within_mono. lia.
Qed.

Lemma allocated_reused ht' F1 f F2 :
  F = F1 ++ f :: F2 -> free_rec_size (rec_at ht f) = kl + vl ->
  let ht1 := set_next marked (prev_of None F1) (free_rec_next (rec_at marked f)) in
  ht' = set_bucket ht1 b (HtEntry (e_hashcode (bucket ht1 b)) f) ->
  allocated ht b hc kl vl ht' f (F1 ++ F2).
Proof.
  intros HF Hsz ht1 ->.
  destruct (set_next_fields marked (prev_of None F1) (free_rec_next (rec_at marked f)))
    as (E1 & E2 & E3 & E4 & E5). fold ht1 in E1, E2, E3, E4, E5.
  assert (Hfr : forall g, free_region ht1 g = free_region ht g).
  { intros g. unfold ht1. by rewrite set_next_free_region. }
  assert (regions ht F ≡ₚ (f, REC_SIZE + kl + vl) :: cell_regions ht (cap_of ht)
     ++ (live_region ht <$> entries ht (cap_of ht)) ++ (free_region ht1 <$> F1 ++ F2)) as Hregs.
  { rewrite (list_fmap_ext _ (free_region ht)) by (intros; apply Hfr).
    replace (f, REC_SIZE + kl + vl) with (free_region ht f) by (unfold free_region; f_equal; lia).
    unfold regions. rewrite HF, !fmap_app. cbn [fmap list_fmap]. rewrite !(assoc_L (++)).
    symmetry. apply Permutation_middle. }
  pose proof (rep_disj _ _ _ Hrep) as Hd. pose proof (rep_within _ _ _ Hrep) as Hin.
  rewrite Hregs in Hd, Hin.
  split; cbn; auto.
  - by apply marked_link.
  - rewrite E1. apply Hrep.
  - rewrite E1. unfold marked, REC_SIZE. cbn. lia.
  - eapply free_chain_recs; [|apply (unlink marked F1 f F2)].
    + done.
    + rewrite <- HF. eapply free_nodup; eauto.
    + rewrite <- HF. eapply free_chain_recs; [|apply Hrep]. done.
  - intros e He. unfold ht1. rewrite set_next_recs_ne; [done|]. unfold prev_of.
    destruct (last F1) as [p|] eqn:Hl; [|done]. intros [= E].
    apply last_Some_elem_of in Hl. eapply (live_free_ne ht F m Hrep e p); auto.
    rewrite HF. set_solver.
  - by rewrite E1.
Qed.

Lemma alloc_rec_ok o :
  roomy o -> wlocpos (ht_data ht) + REC_SIZE + kl + vl < 2 ^ 32 ->
  exists ht' ofs F',
    _hashtable_alloc_rec o marked b kl vl = Some (ht', ofs) /\ allocated ht b hc kl vl ht' ofs F'.
Proof.
  intros [Hg Ht] Hroom. pose proof (header_le_wloc _ _ _ Hrep) as Hhw.
  pose proof (vm_wloc _ (rep_vm _ _ _ Hrep)) as Hwl. unfold REC_SIZE, HEADER_SIZE in Hroom, Hhw.
  unfold _hashtable_alloc_rec, _hashtable_alloc_from_freelist.
  rewrite (u32_small kl), (u32_small vl), (u32_small (kl + vl)) by lia.
  destruct (freelist_search_spec marked (kl + vl) F (S (size (ht_recs marked))) None (ht_free_list marked))
    as [->|(F1 & f & F2 & HF & Hf & Hsz & ->)].
  { eapply free_chain_recs; [|apply Hrep]; done. }
  { apply Nat.lt_succ_r. apply length_le_recs; [eapply free_nodup; eauto|]. intros f Hf.
    by apply (free_chain_in _ _ _ f (rep_chain _ _ _ Hrep)). }
  - rewrite Z.eqb_refl. cbv zeta.
    destruct (alloc_ok o (ht_data ht) (8 + kl + vl) (2 ^ 32)) as (d & E & Hd & Hw & _);
      auto; unfold REC_SIZE; try lia; [apply Hrep|].
    unfold vmallocator_wlocpos. change (ht_data marked) with (ht_data ht).
    change (ht_data (set_bucket _ _ _)) with (ht_data ht). rewrite E.
    destruct (Z.eqb_spec (wlocpos (ht_data ht)) (u64 (-1))) as [E1|_];
      [change (u64 (-1)) with (2 ^ 64 - 1) in E1; lia|].
    rewrite u32_small by lia. eexists _, _, F. split; [done|].
    apply allocated_fresh; auto; [cbn; unfold REC_SIZE; lia|].
    by rewrite <- (marked_link marked).
  - destruct (Z.eqb_spec f 0) as [?|_]; [done|]. eexists _, f, (F1 ++ F2). split; [done|].
    by eapply allocated_reused.
Qed.

End Alloc.

(** The new record is none of the records in use and none of the free ones. *)
Lemma allocated_apart ht b hc kl vl ht' ofs F' :
  allocated ht b hc kl vl ht' ofs F' ->
  HEADER_SIZE <= ofs /\ (forall e, e ∈ entries ht (cap_of ht) -> e_rec e <> ofs) /\ ofs ∉ F'.
Proof.
  intros Hal. pose proof (al_disj _ _ _ _ _ _ _ _ Hal) as Hd. pose proof (al_within _ _ _ _ _ _ _ _ Hal) as Hw.
  apply disj_nodup in Hd; [|eapply Forall_impl; [exact Hw|]; intros r (_ & ? & _); done].
  cbn in Hd. apply NoDup_cons in Hd as [Hd _]. apply Forall_cons in Hw as [(Hw & _) _].
  split; [done|]. rewrite !fmap_app, !elem_of_app in Hd.
  split.
  - intros e He E. apply Hd. right. left. apply list_elem_of_fmap. exists (live_region ht e).
    split; [done|]. by apply list_elem_of_fmap_2.
  - intros Hf. apply Hd. right. right. apply list_elem_of_fmap. exists (free_region ht' ofs).
    split; [done|]. by apply list_elem_of_fmap_2.
Qed.

(** Writing key and value into the allocated record of bucket [b]. *)
Section Fill.
Variables (ht : hashtable) (F : list Z) (m : gmap (list Z) (list Z)) (b : Z) (key val : list Z).
Variables (ht1 : hashtable) (ofs : Z) (F' : list Z).
Notation kl := (Z.of_nat (length key)).
Notation vl := (Z.of_nat (length val)).
Hypothesis Hrep : ht_rep ht F m.
Hypothesis Hnew : m !! key = None.
Hypothesis Hhole : first_hole ht (cap_of ht) (Z.land (hashcode key) (ht_mask ht)) b.
Hypothesis Hload : 2 * ht_size ht < cap_of ht.
Hypothesis Hal : allocated ht b (hashcode key) kl vl ht1 ofs F'.
Hypothesis Hroom : wlocpos (ht_data ht) + REC_SIZE + kl + vl < 2 ^ 32.

Definition filled : hashtable :=
  with_size (with_recs ht1 (<[ofs := InternalRec kl vl (key ++ val)]> (ht_recs ht1))) (ht_size ht + 1).

Lemma filled_cap : cap_of filled = cap_of ht.
Proof. unfold cap_of. cbn. by rewrite (al_mask _ _ _ _ _ _ _ _ Hal). Qed.

Lemma filled_bucket i : bucket filled i = bucket (set_bucket ht b (HtEntry (hashcode key) ofs)) i.
Proof.
  unfold bucket. cbn. rewrite (al_ents _ _ _ _ _ _ _ _ Hal).
  by rewrite !(bucket_ofs_eq_slots ht) by (first [done | apply (al_slots _ _ _ _ _ _ _ _ Hal)]).
Qed.

Lemma filled_new_used : used (HtEntry (hashcode key) ofs).
Proof. destruct (allocated_apart _ _ _ _ _ _ _ _ Hal) as (H & _). unfold used, HEADER_SIZE in *. cbn. lia. Qed.

Lemma filled_entries : entries filled (cap_of ht) ≡ₚ HtEntry (hashcode key) ofs :: entries ht (cap_of ht).
Proof.
  destruct Hhole as (Hb & Hfree & _).
  rewrite (entries_ext _ filled) by (intros; apply filled_bucket).
  apply entries_fill; auto; [by eapply rep_addressable|apply filled_new_used].
Qed.

Lemma filled_recs e : e ∈ entries ht (cap_of ht) -> ht_recs filled !! e_rec e = ht_recs ht !! e_rec e.
Proof.
  intros He. destruct (allocated_apart _ _ _ _ _ _ _ _ Hal) as (_ & Hne & _). cbn.
  rewrite lookup_insert_ne by (intros E; by apply (Hne e He)). by apply (al_live _ _ _ _ _ _ _ _ Hal).
Qed.

Lemma filled_holds : holds filled ofs key val.
Proof. unfold holds. cbn. by rewrite lookup_insert_eq. Qed.

Lemma filled_regions : regions filled F' ≡ₚ (ofs, REC_SIZE + kl + vl) :: cell_regions ht (cap_of ht)
  ++ (live_region ht <$> entries ht (cap_of ht)) ++ (free_region ht1 <$> F').
Proof.
  destruct (allocated_apart _ _ _ _ _ _ _ _ Hal) as (_ & _ & Hf).
  unfold regions. rewrite filled_cap, filled_entries.
  assert (cell_regions filled (cap_of ht) = cell_regions ht (cap_of ht)) as ->.
  { apply list_fmap_ext. intros. f_equal. apply bucket_ofs_eq_slots, (al_slots _ _ _ _ _ _ _ _ Hal). }
  assert (live_region filled <$> entries ht (cap_of ht) = live_region ht <$> entries ht (cap_of ht)) as E.
  { apply list_fmap_ext. intros i e He. apply list_elem_of_lookup_2 in He.
    unfold live_region, rec_at. by rewrite filled_recs. }
  assert (free_region filled <$> F' = free_region ht1 <$> F') as ->.
  { apply list_fmap_ext. intros i f Hfi. apply list_elem_of_lookup_2 in Hfi.
    unfold free_region, rec_at. cbn. rewrite lookup_insert_ne; [done|]. set_solver. }
  cbn [fmap list_fmap]. change (list_fmap _ _ ?f ?l) with (f <$> l). rewrite E.
  assert (live_region filled (HtEntry (hashcode key) ofs) = (ofs, REC_SIZE + kl + vl)) as ->.
  { unfold live_region, rec_at. cbn. rewrite lookup_insert_eq. done. }
  symmetry. apply (Permutation_middle (cell_regions ht (cap_of ht))).
Qed.

Lemma filled_reach : reach filled (cap_of ht).
Proof.
  destruct (rep_is_cap _ _ _ Hrep) as (Hc & _ & _).
  eapply reach_ext; [intros; apply filled_bucket|].
  apply reach_fill; auto; [by eapply rep_addressable|apply Hrep|apply filled_new_used|].
  unfold home. cbn. replace (cap_of ht - 1) with (ht_mask ht) by (unfold cap_of; lia). exact Hhole.
Qed.

Lemma filled_live e : e ∈ entries ht (cap_of ht) ->
  exists k v, holds filled (e_rec e) k v /\ e_hashcode e = hashcode k /\ m !! k = Some v /\ k <> key.
Proof.
  intros He. destruct (rep_live _ _ _ Hrep e He) as (k & v & Hh & Hhc & Hm). exists k, v.
  unfold holds. rewrite filled_recs by done. repeat split; auto. intros ->. congruence.
Qed.

Lemma filled_rep : ht_rep filled F' (<[key := val]> m).
Proof.
  pose proof (al_wloc _ _ _ _ _ _ _ _ Hal) as Hw. pose proof (allocated_apart _ _ _ _ _ _ _ _ Hal) as (_ & _ & Hf).
  split; rewrite ?filled_cap; unfold holds; try setoid_rewrite filled_entries.
  - apply (al_vm _ _ _ _ _ _ _ _ Hal).
  - cbn. lia.
  - cbn. rewrite (al_slots _ _ _ _ _ _ _ _ Hal). apply Hrep.
  - apply Hrep.
  - apply filled_reach.
  - cbn. rewrite (rep_size _ _ _ Hrep). lia.
  - cbn. pose proof (rep_cap _ _ _ Hrep) as (k & Hk & Hcap). rewrite Hcap in *.
    replace k with (1 + (k - 1)) in * by lia. rewrite Z.pow_add_r in * by lia. lia.
  - rewrite filled_regions. apply (al_disj _ _ _ _ _ _ _ _ Hal).
  - rewrite filled_regions. apply (al_within _ _ _ _ _ _ _ _ Hal).
  - cbn. eapply free_chain_recs; [|apply (al_chain _ _ _ _ _ _ _ _ Hal)].
    intros f Hfi. cbn. rewrite lookup_insert_ne; [done|]. set_solver.
  - intros e [->|He]%elem_of_cons.
    + exists key, val. split; [apply filled_holds|]. split; [done|]. by rewrite lookup_insert_eq.
    + destruct (filled_live e He) as (k & v & Hh & Hhc & Hm & Hne). exists k, v.
      by rewrite lookup_insert_ne by congruence.
  - intros k v Hkv. destruct (decide (k = key)) as [->|Hne].
    + rewrite lookup_insert_eq in Hkv. injection Hkv as <-. eexists. split; [by left|]. apply filled_holds.
    + rewrite lookup_insert_ne in Hkv by congruence. destruct (rep_map _ _ _ Hrep k v Hkv) as (e & He & Hh).
      exists e. split; [by right|]. by rewrite filled_recs.
  - intros e1 e2 k v1 v2 [->|H1]%elem_of_cons [->|H2]%elem_of_cons; [done| | |].
    + intros Ha Hb. destruct (filled_live e2 H2) as (k' & v' & Hh & _ & _ & Hne).
      destruct (holds_inj _ _ _ _ _ _ Ha filled_holds). destruct (holds_inj _ _ _ _ _ _ Hb Hh). congruence.
    + intros Ha Hb. destruct (filled_live e1 H1) as (k' & v' & Hh & _ & _ & Hne).
      destruct (holds_inj _ _ _ _ _ _ Hb filled_holds). destruct (holds_inj _ _ _ _ _ _ Ha Hh). congruence.
    + rewrite !filled_recs by done. by apply (rep_keys _ _ _ Hrep).
Qed.

End Fill.

Definition insert_room (ht : hashtable) (key val : list Z) : Prop :=
  wlocpos (ht_data ht) + 8 + ENTRY_SIZE * cap_of ht
  + REC_SIZE + Z.of_nat (length key) + Z.of_nat (length val) < 2 ^ 32.

Lemma insert_at_rep o ht F m b key val :
  roomy o -> ht_rep ht F m -> m !! key = None ->
  first_hole ht (cap_of ht) (Z.land (hashcode key) (ht_mask ht)) b -> 2 * ht_size ht < cap_of ht ->
  wlocpos (ht_data ht) + REC_SIZE + Z.of_nat (length key) + Z.of_nat (length val) < 2 ^ 32 ->
  exists ht' ofs F', insert_at o ht b (hashcode key) key val = Some (ht', ofs)
    /\ ht_rep ht' F' (<[key := val]> m) /\ holds ht' ofs key val /\ ofs <> 0
    /\ cap_of ht' = cap_of ht /\ ht_size ht' = ht_size ht + 1
    /\ wlocpos (ht_data ht') <= wlocpos (ht_data ht) + REC_SIZE
         + Z.of_nat (length key) + Z.of_nat (length val)
    /\ HtEntry (hashcode key) ofs ∈ entries ht' (cap_of ht').
Proof.
  intros Ho Hrep Hnew Hhole Hload Hroom. pose proof (vm_wloc _ (rep_vm _ _ _ Hrep)).
  destruct (rep_is_cap _ _ _ Hrep) as (_ & _ & Hcb). unfold insert_at. cbv zeta.
  destruct (alloc_rec_ok ht F m b (hashcode key) _ _ Hrep (proj1 Hhole) (Nat2Z.is_nonneg (length key))
    (Nat2Z.is_nonneg (length val)) o Ho Hroom) as (ht1 & ofs & F' & E & Hal).
  unfold marked in E. rewrite E.
  eexists _, ofs, F'. split; [done|].
  unfold REC_SIZE in Hroom. rewrite !u32_small by (rewrite ?(rep_size _ _ _ Hrep) in *; lia).
  cbn [ht_size with_recs]. rewrite (al_size _ _ _ _ _ _ _ _ Hal), u32_small
    by (rewrite ?(rep_size _ _ _ Hrep) in *; lia).
  fold (filled ht key val ht1 ofs). split; [by eapply filled_rep|].
  split; [apply filled_holds|]. split; [apply (filled_new_used _ _ _ _ _ _ _ Hal)|].
  split; [by eapply filled_cap|]. split; [done|]. split; [apply (al_wloc _ _ _ _ _ _ _ _ Hal)|].
  erewrite filled_cap by eauto. erewrite filled_entries by eauto. by left.
Qed.

Lemma find_hole ht F m hc :
  ht_rep ht F m ->
  exists b, probe is_free (round (ht_mask ht)) ht (ht_mask ht) (Z.land hc (ht_mask ht)) = Some b
    /\ first_hole ht (cap_of ht) (Z.land hc (ht_mask ht)) b.
Proof.
  intros Hrep. destruct (rep_is_cap ht F m Hrep) as (Hc & _ & Hcb).
  assert (Hmask : ht_mask ht = cap_of ht - 1) by (unfold cap_of; lia). rewrite Hmask.
  assert (Hhb : 0 <= Z.land hc (cap_of ht - 1) < cap_of ht) by (apply (home_range _ (HtEntry hc 0) Hc)).
  destruct (rep_free_bucket ht F m Hrep) as (z & Hz & Hfz).
  destruct (probe_spec ht (cap_of ht) is_free z (Z.land hc (cap_of ht - 1)))
    as (b & Hb & Hbr & _ & Hsb & Hbefore); auto; try lia.
  { apply is_free_true. by apply free_bucket_rec. }
  exists b. split; [done|]. split; [done|]. apply is_free_true in Hsb. split; [unfold occ; rewrite Hsb; tauto|].
  intros p Hp Hd. specialize (Hbefore p Hp Hd). by apply is_free_false in Hbefore.
Qed.

(** [size > mask / 2] holds exactly when the table is half full. *)
Lemma half_full ht F m : ht_rep ht F m -> (ht_size ht >? Z.shiftr (ht_mask ht) 1) = (cap_of ht <=? 2 * ht_size ht).
Proof.
  intros Hrep. destruct (rep_cap _ _ _ Hrep) as (k & Hk & Hcap).
  assert (Hm : Z.shiftr (ht_mask ht) 1 = 2 ^ (k - 1) - 1).
  { rewrite Z.shiftr_div_pow2 by lia. replace (ht_mask ht) with (2 ^ k - 1) by (unfold cap_of in Hcap; lia).
    replace k with ((k - 1) + 1) at 1 by lia. rewrite Z.pow_add_r by lia.
    change (2 ^ 1) with 2. symmetry. apply (Z.div_unique _ _ _ 1); lia. }
  assert (cap_of ht = 2 * 2 ^ (k - 1)).
  { rewrite Hcap. replace k with (1 + (k - 1)) at 1 by lia. rewrite Z.pow_add_r by lia. lia. }
  rewrite Hm, Z.gtb_ltb. destruct (Z.leb_spec (cap_of ht) (2 * ht_size ht)), (Z.ltb_spec (2 ^ (k - 1) - 1) (ht_size ht)); lia.
Qed.

Lemma check_resize_rep o ht F m :
  roomy o -> ht_rep ht F m -> wlocpos (ht_data ht) + 8 + ENTRY_SIZE * cap_of ht < 2 ^ 32 ->
  exists ht', _hashtable_check_resize o ht = Some ht' /\ ht_rep ht' F m /\ 2 * ht_size ht' < cap_of ht'
    /\ wlocpos (ht_data ht') < wlocpos (ht_data ht) + 8 + ENTRY_SIZE * cap_of ht
    /\ (cap_of ht' = cap_of ht \/ cap_of ht' = 2 * cap_of ht /\ cap_of ht <= 2 * ht_size ht)
    /\ ht_size ht' = ht_size ht
    /\ wlocpos (ht_data ht') <= wlocpos (ht_data ht) + 16 * (cap_of ht' - cap_of ht).
Proof.
  intros Ho Hrep Hroom. unfold _hashtable_check_resize. rewrite (half_full ht F m) by done.
  destruct (rep_is_cap _ _ _ Hrep) as (_ & _ & Hcb).
  destruct (Z.leb_spec (cap_of ht) (2 * ht_size ht)) as [Hfull|Hok].
  - destruct (grow_rep o ht F m) as (ht' & E & Hrep' & Hc & Hs & Hw); auto.
    exists ht'. split; [done|]. split; [done|]. pose proof (rep_load _ _ _ Hrep). unfold ENTRY_SIZE in *. lia.
  - exists ht. unfold ENTRY_SIZE in *. split; [done|]. split; [done|]. lia.
Qed.

(** What a call may take: one record, and a vector as long as the table when the table was
    half full. *)
Definition growth (ht ht' : hashtable) (bytes : Z) : Prop :=
  (cap_of ht' = cap_of ht \/ cap_of ht' = 2 * cap_of ht /\ cap_of ht <= 2 * ht_size ht)
  /\ ht_size ht' <= ht_size ht + 1
  /\ wlocpos (ht_data ht') <= wlocpos (ht_data ht) + 16 * (cap_of ht' - cap_of ht) + bytes.

Lemma insert_rep o ht F m key val :
  roomy o -> ht_rep ht F m -> m !! key = None -> insert_room ht key val ->
  exists ht' ofs F', hashtable_insert o ht key val = Some (ht', ofs)
    /\ ht_rep ht' F' (<[key := val]> m) /\ holds ht' ofs key val /\ ofs <> 0
    /\ growth ht ht' (REC_SIZE + Z.of_nat (length key) + Z.of_nat (length val))
    /\ HtEntry (hashcode key) ofs ∈ entries ht' (cap_of ht').
Proof.
  intros Ho Hrep Hnew Hroom. unfold insert_room, ENTRY_SIZE, REC_SIZE in Hroom.
  destruct (check_resize_rep o ht F m) as (ht1 & E & Hrep1 & Hload & Hw & Hgc & Hgs & Hgw); auto;
    unfold ENTRY_SIZE in *; try lia.
  unfold hashtable_insert. rewrite E. cbv zeta.
  destruct (find_hole ht1 F m (hashcode key) Hrep1) as (b & -> & Hhole).
  destruct (insert_at_rep o ht1 F m b key val) as (ht' & ofs & F' & -> & H1 & H2 & H3 & H4 & H5 & H6 & H7); auto;
    unfold REC_SIZE in *; try lia. exists ht', ofs, F'. do 4 (split; [done|]). split; [unfold growth; lia|done].
Qed.

(** What a call that finds or inserts [key] returns. *)
Definition found_or_inserted (ht : hashtable) (m : gmap (list Z) (list Z)) (key val : list Z)
    (res : option (hashtable * Z)) : Prop :=
  exists ht' ofs F', res = Some (ht', ofs) /\ ofs <> 0
    /\ growth ht ht' (REC_SIZE + Z.of_nat (length key) + Z.of_nat (length val))
    /\ match m !! key with
       | Some v => ht_rep ht' F' m /\ holds ht' ofs key v
       | None => ht_rep ht' F' (<[key := val]> m) /\ holds ht' ofs key val
       end.

Lemma lookup_insert_loop_rep o n ht F m key val :
  roomy o -> ht_rep ht F m -> 2 * ht_size ht < cap_of ht ->
  wlocpos (ht_data ht) + REC_SIZE + Z.of_nat (length key) + Z.of_nat (length val) < 2 ^ 32 ->
  found_or_inserted ht m key val (lookup_insert_loop o n ht (hashcode key) key val).
Proof.
  intros Ho Hrep Hload Hroom. unfold found_or_inserted, lookup_insert_loop, growth, REC_SIZE in *.
  destruct (find_key ht F m key Hrep) as (b & Hb & Hbr & [(Hocc & v & Hh & Hmk)|(Hmk & Hhole)]);
    destruct n; rewrite Hb, Hmk.
  1,2: rewrite (proj2 (is_free_false _) Hocc); exists ht, (e_rec (bucket ht b)), F;
    split; [done|]; split; [done|]; split; [lia|done].
  all: pose proof Hhole as (_ & Hfree & _); apply free_bucket_rec in Hfree.
  all: rewrite (proj2 (is_free_true _) Hfree), (half_full ht F m) by done.
  all: destruct (Z.leb_spec (cap_of ht) (2 * ht_size ht)) as [Hfull|_]; [lia|].
  all: destruct (insert_at_rep o ht F m b key val) as (ht' & ofs & F' & -> & H1 & H2 & H3 & H4 & H5 & H6);
    auto; exists ht', ofs, F'; split; [done|]; split; [done|]; unfold REC_SIZE in *; split; [lia|done].
Qed.

Lemma lookup_insert_rep o ht F m key val :
  roomy o -> ht_rep ht F m -> insert_room ht key val ->
  found_or_inserted ht m key val (hashtable_lookup_insert o ht key val).
Proof.
  intros Ho Hrep Hroom. pose proof (rep_is_cap _ _ _ Hrep) as (_ & _ & Hcb).
  unfold insert_room, ENTRY_SIZE, REC_SIZE in Hroom. unfold hashtable_lookup_insert.
  destruct (Z.le_gt_cases (cap_of ht) (2 * ht_size ht)) as [Hfull|Hok].
  2:{ apply lookup_insert_loop_rep with (F := F); auto. unfold REC_SIZE. lia. }
  cbn [lookup_insert_loop].
  destruct (find_key ht F m key Hrep) as (b & -> & Hbr & [(Hocc & v & Hh & Hmk)|(Hmk & Hhole)]).
  - unfold found_or_inserted. rewrite (proj2 (is_free_false _) Hocc), Hmk.
    exists ht, (e_rec (bucket ht b)), F. split; [done|]. split; [done|].
    split; [unfold growth, REC_SIZE; lia|done].
  - pose proof Hhole as (_ & Hfree & _). apply free_bucket_rec in Hfree.
    rewrite (proj2 (is_free_true _) Hfree), (half_full ht F m) by done.
    rewrite (proj2 (Z.leb_le _ _) Hfull).
    destruct (grow_rep o ht F m) as (ht1 & -> & Hrep1 & Hc & Hs & Hw); auto; unfold ENTRY_SIZE in *; [lia|].
    pose proof (rep_load _ _ _ Hrep).
    destruct (lookup_insert_loop_rep o 0 ht1 F m key val) as (ht' & ofs & F' & E & H1 & H2 & H3); auto;
      unfold REC_SIZE; try lia.
    exists ht', ofs, F'. split; [exact E|]. split; [done|]. split; [|done].
    unfold growth, REC_SIZE in *. lia.
Qed.

(** ** Removing a key *)

Section Remove.
Variables (ht : hashtable) (F : list Z) (m : gmap (list Z) (list Z)) (b : Z) (key val : list Z).
Variable ht' : hashtable.
Hypothesis Hrep : ht_rep ht F m.
Notation e0 := (bucket ht b).
Notation f := (e_rec (bucket ht b)).
Notation fr := (InternalRec (ht_free_list ht) (Z.of_nat (length key) + Z.of_nat (length val)) (key ++ val)).
Hypothesis Hb : 0 <= b < cap_of ht.
Hypothesis Hocc : occ ht b.
Hypothesis Hholds : holds ht f key val.
Hypothesis Hkey : m !! key = Some val.
Hypothesis Hslots : ht_slots ht' = ht_slots ht.
Hypothesis Hdata : ht_data ht' = ht_data ht.
Hypothesis Hmask : ht_mask ht' = ht_mask ht.
Hypothesis Hsize : ht_size ht' = ht_size ht - 1.
Hypothesis Hfl : ht_free_list ht' = f.
Hypothesis Hrecs : ht_recs ht' = <[f := fr]> (ht_recs ht).
Hypothesis Hreach : reach ht' (cap_of ht).
Hypothesis Hents : entries ht (cap_of ht) ≡ₚ e0 :: entries ht' (cap_of ht).

Lemma removed_in : e0 ∈ entries ht (cap_of ht).
Proof. apply elem_of_entries. eauto. Qed.

Lemma removed_ne e : e ∈ entries ht' (cap_of ht) -> e ∈ entries ht (cap_of ht) /\ e_rec e <> f.
Proof.
  intros He. assert (e ∈ entries ht (cap_of ht)) as Hin by (rewrite Hents; by right).
  split; [done|]. intros E.
  pose proof (rep_disj _ _ _ Hrep) as Hd. unfold regions in Hd. rewrite Hents in Hd.
  rewrite !pairwise_disj_app in Hd. destruct Hd as (_ & ((Hd & _) & _) & _).
  rewrite Forall_forall in Hd. specialize (Hd _ (list_elem_of_fmap_2 _ _ _ He)).
  unfold live_region, disj, rec_at in Hd. rewrite E, Hholds in Hd. cbn -[bucket] in Hd.
  unfold REC_SIZE in Hd. lia.
Qed.

Lemma removed_recs e : e ∈ entries ht' (cap_of ht) -> ht_recs ht' !! e_rec e = ht_recs ht !! e_rec e.
Proof. intros He. rewrite Hrecs, lookup_insert_ne; [done|]. intros E. by apply (removed_ne e He). Qed.

Lemma removed_free g : g ∈ F -> ht_recs ht' !! g = ht_recs ht !! g.
Proof.
  intros Hg. rewrite Hrecs, lookup_insert_ne; [done|]. intros E.
  by apply (live_free_ne ht F m Hrep e0 g removed_in Hg).
Qed.

Lemma removed_regions : regions ht' (f :: F) ≡ₚ regions ht F.
Proof.
  unfold regions. replace (cap_of ht') with (cap_of ht) by (unfold cap_of; lia). rewrite Hents.
  assert (cell_regions ht' (cap_of ht) = cell_regions ht (cap_of ht)) as ->.
  { apply list_fmap_ext. intros. f_equal. by apply bucket_ofs_eq_slots. }
  apply Permutation_app_head. rewrite !fmap_cons.
  assert (live_region ht' <$> entries ht' (cap_of ht) = live_region ht <$> entries ht' (cap_of ht)) as ->.
  { apply list_fmap_ext. intros i e He. apply list_elem_of_lookup_2 in He.
    unfold live_region, rec_at. by rewrite removed_recs. }
  assert (free_region ht' <$> F = free_region ht <$> F) as ->.
  { apply list_fmap_ext. intros i g Hg. apply list_elem_of_lookup_2 in Hg.
    unfold free_region, rec_at. by rewrite removed_free. }
  assert (free_region ht' f = live_region ht e0) as ->.
  { unfold free_region, live_region, rec_at. rewrite Hrecs, lookup_insert_eq, Hholds. cbn. f_equal. lia. }
  symmetry. apply (Permutation_middle (live_region ht <$> entries ht' (cap_of ht))).
Qed.

Lemma removed_live e : e ∈ entries ht' (cap_of ht) ->
  exists k v, holds ht' (e_rec e) k v /\ e_hashcode e = hashcode k /\ delete key m !! k = Some v.
Proof.
  intros He. destruct (removed_ne e He) as [Hin Hne].
  destruct (rep_live _ _ _ Hrep e Hin) as (k & v & Hh & Hhc & Hm). exists k, v.
  unfold holds. rewrite removed_recs by done. split; [done|]. split; [done|].
  rewrite lookup_delete_ne; [done|]. intros <-. apply Hne. f_equal.
  eapply (rep_keys _ _ _ Hrep); eauto. apply removed_in.
Qed.

Lemma removed_rep : ht_rep ht' (f :: F) (delete key m).
Proof.
  assert (Hcap : cap_of ht' = cap_of ht) by (unfold cap_of; lia).
  split; rewrite ?Hcap, ?Hdata, ?Hslots; try apply Hrep; auto.
  - rewrite Hsize, (rep_size _ _ _ Hrep), Hents. cbn. lia.
  - pose proof (rep_load _ _ _ Hrep). lia.
  - rewrite removed_regions. apply Hrep.
  - rewrite removed_regions. apply Hrep.
  - rewrite Hfl. split; [done|]. split; [exact Hocc|]. exists fr. rewrite Hrecs, lookup_insert_eq.
    split; [done|]. eapply free_chain_recs; [|apply Hrep]. intros g Hg. by apply removed_free.
  - apply removed_live.
  - intros k v Hm. apply lookup_delete_Some in Hm as [Hne Hm].
    destruct (rep_map _ _ _ Hrep k v Hm) as (e & He & Hh). rewrite Hents in He.
    apply elem_of_cons in He as [->|He].
    + destruct (holds_inj _ _ _ _ _ _ Hh Hholds). congruence.
    + exists e. split; [done|]. unfold holds. by rewrite removed_recs.
  - intros e1 e2 k v1 v2 H1 H2. unfold holds. rewrite !removed_recs by done.
    apply (rep_keys _ _ _ Hrep); rewrite Hents; by right.
Qed.

End Remove.

Lemma remove_rep ht F m key :
  ht_rep ht F m ->
  exists ht' ofs F', hashtable_remove ht key = Some (ht', ofs)
    /\ match m !! key with
       | Some v => ofs <> 0 /\ holds ht ofs key v
       | None => ofs = 0
       end /\ ht_rep ht' F' (delete key m) /\ growth ht ht' 0.
Proof.
  intros Hrep. unfold hashtable_remove. cbv zeta.
  destruct (find_key ht F m key Hrep) as (b & -> & Hb & [(Hocc & v & Hh & Hmk)|(Hmk & Hhole)]).
  2:{ destruct Hhole as (_ & Hfree & _). apply free_bucket_rec in Hfree. rewrite Hfree, Hmk.
      exists ht, 0, F. rewrite delete_id by done. split; [done|]. split; [done|].
      split; [done|]. unfold growth. lia. }
  destruct (Z.eqb_spec (e_rec (bucket ht b)) 0) as [?|_]; [done|]. rewrite Hh, Hmk.
  cbn [r_word0 r_word1 r_data rec_key_size rec_val_size].
  assert (Hlen : Z.of_nat (length key) + Z.of_nat (length v) < 2 ^ 32).
  { assert (live_region ht (bucket ht b) ∈ regions ht F) as Hin.
    { unfold regions. rewrite !elem_of_app. right. left. apply list_elem_of_fmap_2, elem_of_entries. eauto. }
    destruct (region_bounds ht F m Hrep _ Hin) as (H1 & _ & H2). unfold live_region, rec_at in H1, H2.
    rewrite Hh in H2. cbn -[bucket] in H1, H2. pose proof (rep_wloc _ _ _ Hrep). unfold REC_SIZE, HEADER_SIZE in *. lia. }
  rewrite u32_small by lia. set (fr := InternalRec _ _ _).
  assert (Hsz : u32 (ht_size ht - 1) = ht_size ht - 1).
  { assert (bucket ht b ∈ entries ht (cap_of ht)) as Hin by (apply elem_of_entries; eauto).
    pose proof (rep_load _ _ _ Hrep). pose proof (rep_is_cap _ _ _ Hrep) as (_ & _ & ?).
    rewrite (rep_size _ _ _ Hrep) in *.
    destruct (entries ht (cap_of ht)); [set_solver|]. cbn in *. apply u32_small. lia. }
  cbn [ht_size set_bucket hashtable_buckets with_ents with_free_list with_recs]. rewrite Hsz.
  set (s := with_size (with_free_list (with_recs ht (<[e_rec (bucket ht b) := fr]> (ht_recs ht)))
                         (e_rec (bucket ht b))) (ht_size ht - 1)).
  change (with_size _ _) with (set_bucket s b (HtEntry (e_hashcode (bucket s b)) 0)).
  destruct (rep_is_cap _ _ _ Hrep) as (Hc & _ & _).
  replace (ht_mask ht) with (cap_of ht - 1) by (unfold cap_of; lia).
  destruct (remove_spec s (cap_of ht) b) as (ht' & -> & Hu & Hreach & Hents); auto.
  { exact (rep_addressable _ _ _ Hrep). }
  { exact (rep_reach _ _ _ Hrep). }
  { exact (rep_free_bucket _ _ _ Hrep). }
  destruct (updates_fields _ _ _ Hu) as (E1 & E2 & E3 & E4 & E5 & E6).
  exists ht', (e_rec (bucket ht b)), (e_rec (bucket ht b) :: F).
  split; [done|]. split; [by split|].
  split; [by eapply (removed_rep ht F m b key v ht' Hrep)|].
  unfold growth, cap_of. rewrite E1, E2, E3. cbn. lia.
Qed.

(** ** Initialisation *)

Lemma no_entries (s : hashtable) cap : (forall i, 0 <= i < cap -> ~ occ s i) -> entries s cap = [].
Proof.
  intros H. destruct (entries s cap) as [|e l] eqn:E; [done|]. exfalso.
  assert (e ∈ entries s cap) as He by (rewrite E; by left).
  apply elem_of_entries in He as (i & Hi & Ho & _). by apply (H i).
Qed.

Lemma no_entries_reach (s : hashtable) cap : (forall i, 0 <= i < cap -> ~ occ s i) -> reach s cap.
Proof. intros H i j Hi _ Ho _. by destruct (H i Hi). Qed.

(** A table of free buckets. *)
Record blank (ht : hashtable) (k : Z) : Prop := {
  blank_rep : ht_rep (with_mask ht (2 ^ k - 1)) [] ∅;
  blank_free : forall i, 0 <= i < 2 ^ k -> ~ occ ht i;
}.

Lemma init_slot_blank o ht k :
  roomy o -> blank ht k -> 5 <= k <= 28 -> wlocpos (ht_data ht) + 8 + ENTRY_SIZE * 2 ^ k < 2 ^ 32 ->
  exists ht' ofs, alloc_vector o ht (2 ^ k) = Some (ht', ofs)
    /\ let ht2 := with_slots ht' (<[Z.to_nat (k - 4) := ofs]> (ht_slots ht')) in
       blank ht2 (k + 1) /\ ht_mask ht2 = ht_mask ht
       /\ wlocpos (ht_data ht2) < wlocpos (ht_data ht) + 8 + ENTRY_SIZE * 2 ^ k.
Proof.
  intros Ho [Hrep Hfree] Hk Hroom. set (h := with_mask ht (2 ^ k - 1)).
  assert (0 < 2 ^ k) by (apply Z.pow_pos_nonneg; lia).
  assert (Hcap : cap_of h = 2 ^ k) by (unfold cap_of, h; cbn; lia).
  destruct (alloc_vector_ok o ht (2 ^ k)) as (d & ofs & -> & Hd & Hofs & Hw); auto; try lia; [apply Hrep|].
  eexists _, ofs. split; [done|]. cbv zeta. unfold ENTRY_SIZE in *.
  assert (Hfree2 : forall i, 0 <= i < 2 ^ (k + 1) -> ~ occ (grown h d ofs k) i).
  { rewrite Z.pow_add_r by lia. intros i Hi. destruct (Z.lt_ge_cases i (2 ^ k)).
    - unfold occ. erewrite grown_bucket; eauto; cbn; try lia. apply (Hfree i). lia.
    - eapply grown_upper; eauto; cbn; lia. }
  split; [|split; [done|cbn; lia]].
  split; [|exact Hfree2].
  apply (rep_more_cells h _ [] ∅ (new_cells ofs k) (k + 1)); cbn; auto; try lia.
  - rewrite length_insert. apply Hrep.
  - unfold cap_of. cbn. lia.
  - unfold cap_of. cbn. rewrite Z.pow_add_r by lia. lia.
  - apply no_entries_reach. unfold cap_of. cbn. rewrite Z.sub_add. exact Hfree2.
  - rewrite !no_entries; [done|rewrite Hcap; exact Hfree|]. unfold cap_of. cbn. rewrite Z.sub_add. exact Hfree2.
  - rewrite Hcap. replace (cap_of _) with (2 * 2 ^ k) by (unfold cap_of; cbn; rewrite Z.pow_add_r; lia).
    rewrite <- (grown_cell_regions h [] ∅ d ofs k) by (auto; cbn; lia). done.
  - apply new_cells_disj. lia.
  - intros r Hr. apply new_cells_within in Hr; [|lia]. unfold ENTRY_SIZE in *. lia.
Qed.

Lemma init_slots_blank o n : forall ht k,
  roomy o -> blank ht k -> 5 <= k -> k + Z.of_nat n <= 29 ->
  wlocpos (ht_data ht) + 8 * Z.of_nat n + ENTRY_SIZE * (2 ^ (k + Z.of_nat n) - 2 ^ k) < 2 ^ 32 ->
  exists ht', init_slots o n ht (k - 4) (2 ^ k) = Some ht'
    /\ blank ht' (k + Z.of_nat n) /\ ht_mask ht' = ht_mask ht
    /\ wlocpos (ht_data ht') <= wlocpos (ht_data ht) + 16 * (2 ^ (k + Z.of_nat n) - 2 ^ k).
Proof.
  induction n as [|n IH]; intros ht k Ho Hbl Hk Hn Hroom; cbn [init_slots].
  - exists ht. replace (k + Z.of_nat 0) with k by lia. split; [done|]. split; [done|]. split; [done|lia].
  - assert (2 ^ (k + 1) <= 2 ^ (k + Z.of_nat (S n))) by (apply Z.pow_le_mono_r; lia).
    assert (2 ^ (k + 1) <= 2 ^ 29) by (apply Z.pow_le_mono_r; lia).
    assert (2 ^ (k + 1) = 2 * 2 ^ k) as E by (rewrite Z.pow_add_r by lia; lia).
    unfold ENTRY_SIZE in *.
    destruct (init_slot_blank o ht k) as (ht1 & ofs & -> & Hbl1 & Hm1 & Hw1); auto; unfold ENTRY_SIZE in *; try lia.
    rewrite Z.shiftl_mul_pow2, u32_small by lia.
    replace (k - 4 + 1) with (k + 1 - 4) by lia. replace (2 ^ k * 2 ^ 1) with (2 ^ (k + 1)) by lia.
    assert (2 ^ 5 <= 2 ^ k) by (apply Z.pow_le_mono_r; lia).
    destruct (IH _ (k + 1) Ho Hbl1) as (ht' & -> & Hbl' & Hm' & Hw'); try lia.
    { replace (k + 1 + Z.of_nat n) with (k + Z.of_nat (S n)) by lia. lia. }
    replace (k + 1 + Z.of_nat n) with (k + Z.of_nat (S n)) in * by lia.
    exists ht'. split; [done|]. split; [done|]. split; [congruence|lia].
Qed.

(** The table [_hashtable_init] sets up before it allocates further slots. *)
Definition first_table (d : vmallocator) : hashtable :=
  Hashtable d 31 0 0 (<[O := HEADER_SIZE]> (replicate 32 0)) (zero_cells HEADER_SIZE 32 ∅) ∅.

Lemma first_table_blank d : vm_wf d -> wlocpos d = HEADER_SIZE + 32 * ENTRY_SIZE -> blank (first_table d) 5.
Proof.
  intros Hd Hw. set (ht := first_table d).
  assert (Hcell : forall i, 0 <= i < 32 -> _hashtable_bucket ht i = HEADER_SIZE + ENTRY_SIZE * i).
  { intros i Hi. unfold _hashtable_bucket. zcase; [done|]. unfold HASHTABLE_INITIAL_SIZE in *. lia. }
  assert (Hfree : forall i, 0 <= i < 32 -> ~ occ ht i).
  { intros i Hi. unfold occ, bucket. cbn [hashtable_buckets]. rewrite Hcell by done.
    cbn [ht_ents ht first_table]. rewrite zero_cells_in by done. cbn. tauto. }
  split; [|exact Hfree]. change (2 ^ 5 - 1) with 31. change (with_mask ht 31) with ht.
  assert (Hcells : cell_regions ht 32 = new_cells HEADER_SIZE 5).
  { apply list_fmap_ext. intros j i Hi. apply lookup_seqZ in Hi. by rewrite Hcell by lia. }
  assert (Hregs : regions ht [] = new_cells HEADER_SIZE 5).
  { unfold regions. change (cap_of ht) with 32. rewrite Hcells, no_entries by done. by rewrite app_nil_r. }
  pose proof (no_entries ht 32 Hfree) as Hents.
  split; change (cap_of ht) with 32; rewrite ?Hregs, ?Hents.
  - exact Hd.
  - change (wlocpos d < 2 ^ 32). rewrite Hw. reflexivity.
  - reflexivity.
  - exists 5. split; [lia|reflexivity].
  - by apply no_entries_reach.
  - reflexivity.
  - change (ht_size ht) with 0. lia.
  - apply new_cells_disj. lia.
  - apply Forall_forall. intros r Hr. apply new_cells_within in Hr; [|lia].
    unfold within. change (wlocpos (ht_data ht)) with (wlocpos d). rewrite Hw. unfold ENTRY_SIZE in *. lia.
  - reflexivity.
  - intros e He. by apply elem_of_nil in He.
  - intros k v H. by rewrite lookup_empty in H.
  - intros e1 e2 k v1 v2 He. by apply elem_of_nil in He.
Qed.

Lemma with_mask_self ht m : ht_mask ht = m -> with_mask ht m = ht.
Proof. intros <-. by destruct ht. Qed.

(** The slots [_hashtable_init] adds when more than 32 buckets are asked for. *)
Lemma init_more o ht n :
  roomy o -> blank ht 5 -> wlocpos (ht_data ht) = HEADER_SIZE + 32 * ENTRY_SIZE -> 32 < n <= 2 ^ 27 ->
  let size := u32 (Z.shiftl (next_p2 n) 1) in
  exists ht', init_slots o (Z.to_nat (u32 (ilog2 size - HASHTABLE_INITIAL_SIZE_BITS + 1) - 1))
                (with_mask ht (u32 (size - 1))) 1 HASHTABLE_INITIAL_SIZE = Some ht'
    /\ ht_rep ht' [] ∅ /\ n <= cap_of ht' <= 4 * n
    /\ wlocpos (ht_data ht') <= wlocpos (ht_data ht) + 16 * (cap_of ht' - 32).
Proof.
  intros Ho Hbl Hw Hn. pose proof (log2_pred_bounds n ltac:(lia)) as [Hlo Hhi]. rewrite next_p2_eq by lia.
  set (j := Z.log2 (n - 1) + 1) in *.
  assert (5 <= j <= 27) as Hj.
  { assert (5 <= Z.log2 (n - 1)) by (apply Z.log2_le_pow2; lia).
    assert (Z.log2 (n - 1) < 27) by (apply Z.log2_lt_pow2; lia). lia. }
  assert (2 ^ j <= 2 ^ 27) by (apply Z.pow_le_mono_r; lia).
  assert (2 ^ (j + 1) = 2 * 2 ^ j) as Ej by (rewrite Z.pow_add_r by lia; lia).
  rewrite Z.shiftl_mul_pow2, <- Z.pow_add_r, (u32_small (2 ^ (j + 1))) by lia. cbv zeta.
  assert (ilog2 (2 ^ (j + 1)) = j + 1) as ->.
  { unfold ilog2. zcase; [lia|]. apply Z.log2_pow2. lia. }
  unfold HASHTABLE_INITIAL_SIZE_BITS. rewrite (u32_small (2 ^ (j + 1) - 1)), u32_small by lia.
  replace (Z.to_nat (j + 1 - 5 + 1 - 1)) with (Z.to_nat (j - 4)) by lia.
  set (ht1 := with_mask ht (2 ^ (j + 1) - 1)).
  destruct (init_slots_blank o (Z.to_nat (j - 4)) ht1 5) as (ht' & E1 & Hbl1 & Hm1 & Hw1); auto; try lia.
  { destruct Hbl as [Hb1 Hb2]. by split. }
  { rewrite Z2Nat.id by lia. replace (5 + (j - 4)) with (j + 1) by lia. change (ht_data ht1) with (ht_data ht).
    rewrite Hw. change (2 ^ 5) with 32. unfold HEADER_SIZE, ENTRY_SIZE. lia. }
  change (5 - 4) with 1 in E1. change (2 ^ 5) with 32 in *. unfold HASHTABLE_INITIAL_SIZE. rewrite E1.
  exists ht'. split; [done|]. rewrite Z2Nat.id in Hbl1, Hw1 by lia.
  replace (5 + (j - 4)) with (j + 1) in Hbl1, Hw1 by lia.
  change (ht_mask ht1) with (2 ^ (j + 1) - 1) in Hm1.
  assert (cap_of ht' = 2 ^ (j + 1)) as -> by (unfold cap_of; lia).
  split; [|split; [lia|exact Hw1]]. destruct Hbl1 as [Hbl1 _]. by rewrite with_mask_self in Hbl1.
Qed.

Lemma init_rep o n :
  roomy o -> sys_mmap o VM_ALLOC_MIN_SIZE = true -> 0 <= n <= 2 ^ 27 ->
  exists ht, hashtable_init o HASHTABLE_INITIALIZER n = Some (ht, 0) /\ ht_rep ht [] ∅
    /\ Z.max 32 n <= cap_of ht <= Z.max 32 (4 * n)
    /\ wlocpos (ht_data ht) <= HEADER_SIZE + 32 * ENTRY_SIZE + 16 * (cap_of ht - 32).
Proof.
  intros Ho Hmm Hn. pose proof Ho as [Hg Ht]. unfold hashtable_init.
  destruct (vmallocator_init o (ht_data HASHTABLE_INITIALIZER)) as [v r] eqn:Ei.
  assert (r = 0) as -> by (unfold vmallocator_init in Ei; cbn in Ei; rewrite Hmm in Ei; by injection Ei).
  destruct (init_wf o (ht_data HASHTABLE_INITIALIZER) v eq_refl Ei) as (Hv & Hw0).
  cbn [Z.ltb Z.compare]. unfold _hashtable_init.
  destruct (alloc_ok o v (HEADER_SIZE + HASHTABLE_INITIAL_SIZE * ENTRY_SIZE) (2 ^ 32)) as (d & E & Hd & Hw & _);
    auto; try (rewrite ?Hw0; done).
  cbn [ht_data with_data]. rewrite E, Hw0. cbn [Z.eqb Z.add].
  change (0 =? u64 (-1)) with false. cbv iota beta zeta.
  set (ht0 := with_mask (with_size (with_slots _ _) 0) _).
  assert (wlocpos d = HEADER_SIZE + 32 * ENTRY_SIZE) as Hwd by (rewrite Hw, Hw0; done).
  assert (blank ht0 5) as Hbl by (by apply (first_table_blank d)).
  rewrite Z.gtb_ltb. destruct (Z.ltb_spec HASHTABLE_INITIAL_SIZE n) as [Hbig|Hsmall].
  - unfold HASHTABLE_INITIAL_SIZE in Hbig. destruct (init_more o ht0 n) as (ht & -> & Hrep & Hcap & Hwl); auto; try lia.
    exists ht. split; [done|]. split; [done|]. split; [lia|].
    change (wlocpos (ht_data ht0)) with (wlocpos d) in Hwl. rewrite Hwd in Hwl. exact Hwl.
  - unfold HASHTABLE_INITIAL_SIZE in Hsmall.
    exists ht0. split; [done|]. change (cap_of ht0) with 32. split; [|split; [lia|]].
    + destruct Hbl as [Hbl _]. by rewrite with_mask_self in Hbl.
    + change (wlocpos (ht_data ht0)) with (wlocpos d). lia.
Qed.

(** ** Iteration *)

Lemma foreach_vector_spec ht func n : forall ofs,
  (forall r, 0 <= func r) ->
  (forall i, 0 <= i < Z.of_nat n -> 0 <= e_rec (default free_entry (ht_ents ht !! (ofs + ENTRY_SIZE * i)))) ->
  foreach_vector n ht ofs func
  = (e_rec <$> filter used ((fun i => default free_entry (ht_ents ht !! (ofs + ENTRY_SIZE * i)))
                            <$> seqZ 0 (Z.of_nat n)), 0).
Proof.
  induction n as [|n IH]; intros ofs Hf Hpos; [done|]. cbn [foreach_vector].
  rewrite seqZ_cons by lia. cbn [fmap list_fmap].
  rewrite (IH (ofs + ENTRY_SIZE)) by (auto; intros i Hi; specialize (Hpos (i + 1) ltac:(lia));
    unfold ENTRY_SIZE in *; by replace (ofs + 8 + 8 * i) with (ofs + 8 * (i + 1)) by lia).
  assert (forall (g : Z -> ht_entry), g <$> seqZ (Z.succ 0) (Z.pred (Z.of_nat (S n)))
            = (fun i => g (1 + i)) <$> seqZ 0 (Z.of_nat n)) as Hshift.
  { intros g. replace (Z.pred (Z.of_nat (S n))) with (Z.of_nat n) by lia.
    change (Z.succ 0) with (1 + 0). rewrite <- fmap_add_seqZ, <- list_fmap_compose. done. }
  change (list_fmap ?A ?B ?f ?l) with (f <$> l). rewrite Hshift.
  rewrite (list_fmap_ext (fun i => default free_entry (ht_ents ht !! (ofs + ENTRY_SIZE * (1 + i))))
            (fun i => default free_entry (ht_ents ht !! (ofs + ENTRY_SIZE + ENTRY_SIZE * i))))
    by (intros; do 2 f_equal; lia).
  replace (ofs + ENTRY_SIZE * 0) with ofs by lia. specialize (Hpos 0 ltac:(lia)).
  replace (ofs + ENTRY_SIZE * 0) with ofs in Hpos by lia. set (e := default _ (ht_ents ht !! ofs)) in *.
  rewrite filter_cons. destruct (Z.ltb_spec 0 (e_rec e)) as [Hlt|Hge].
  - rewrite decide_True by (unfold used; lia). destruct (Z.ltb_spec (func (e_rec e)) 0) as [Hn|_]; [|done].
    pose proof (Hf (e_rec e)). lia.
  - rewrite decide_False by (unfold used; lia). done.
Qed.

Section Foreach.
Variables (ht : hashtable) (func : Z -> Z) (K : Z).
Hypothesis Hfunc : forall r, 0 <= func r.
Hypothesis HK : 5 <= K <= 30.
Hypothesis Hpos : forall b, 0 <= b < 2 ^ K -> 0 <= e_rec (bucket ht b).

Lemma foreach_vector_buckets b0 n base :
  0 <= n -> 0 <= b0 -> b0 + n <= 2 ^ K ->
  (forall i, 0 <= i < n -> _hashtable_bucket ht (b0 + i) = base + ENTRY_SIZE * i) ->
  foreach_vector (Z.to_nat n) ht base func = (e_rec <$> filter used (bucket ht <$> seqZ b0 n), 0).
Proof.
  intros Hn Hb0 Hle Hcell. rewrite foreach_vector_spec; auto.
  - rewrite Z2Nat.id by done. do 3 f_equal. replace b0 with (b0 + 0) at 1 by lia.
    rewrite <- fmap_add_seqZ, <- list_fmap_compose. apply list_fmap_ext.
    intros j i Hi. apply lookup_seqZ in Hi. unfold bucket. cbn. by rewrite Hcell by lia.
  - intros i Hi. rewrite <- Hcell by lia. apply (Hpos (b0 + i)). lia.
Qed.

Lemma foreach_slots_buckets n : forall k, 5 <= k -> k + Z.of_nat n <= K ->
  foreach_slots n ht (k - 4) (2 ^ k) func
  = (e_rec <$> filter used (bucket ht <$> seqZ (2 ^ k) (2 ^ (k + Z.of_nat n) - 2 ^ k)), 0).
Proof.
  induction n as [|n IH]; intros k Hk Hle; cbn [foreach_slots].
  - replace (k + Z.of_nat 0) with k by lia. by rewrite Z.sub_diag.
  - assert (2 ^ (k + 1) = 2 * 2 ^ k) as E by (rewrite Z.pow_add_r by lia; lia).
    assert (2 ^ (k + 1) <= 2 ^ K) by (apply Z.pow_le_mono_r; lia).
    assert (2 ^ K <= 2 ^ 30) by (apply Z.pow_le_mono_r; lia).
    assert (2 ^ (k + 1) <= 2 ^ (k + Z.of_nat (S n))) by (apply Z.pow_le_mono_r; lia).
    assert (0 < 2 ^ k) by (apply Z.pow_pos_nonneg; lia).
    rewrite (foreach_vector_buckets (2 ^ k)); auto; try lia.
    2:{ intros i Hi. rewrite (bucket_ofs_upper _ _ k) by lia. f_equal. lia. }
    cbn [Z.ltb Z.compare]. destruct (Z.eqb_spec (k - 4) 0) as [?|_]; [lia|].
    rewrite Z.shiftl_mul_pow2, u32_small by lia. replace (2 ^ k * 2 ^ 1) with (2 ^ (k + 1)) by lia.
    replace (k - 4 + 1) with (k + 1 - 4) by lia. rewrite IH by lia.
    rewrite <- fmap_app, <- filter_app, <- fmap_app. do 4 f_equal.
    replace (2 ^ (k + Z.of_nat (S n)) - 2 ^ k) with (2 ^ k + (2 ^ (k + Z.of_nat (S n)) - 2 ^ (k + 1))) by lia.
    rewrite seqZ_app by lia. f_equal. f_equal; [lia|]. do 2 f_equal. lia.
Qed.

Lemma foreach_entries : cap_of ht = 2 ^ K ->
  hashtable_foreach ht func = (e_rec <$> entries ht (cap_of ht), 0).
Proof.
  intros Hcap. assert (2 ^ 5 <= 2 ^ K <= 2 ^ 30) by (split; apply Z.pow_le_mono_r; lia).
  unfold hashtable_foreach. rewrite (u32_small (ht_mask ht + 1)) by (unfold cap_of in Hcap; lia).
  fold (cap_of ht). rewrite Hcap.
  assert (ilog2 (2 ^ K) = K) as ->.
  { unfold ilog2. zcase; [lia|]. apply Z.log2_pow2. lia. }
  unfold HASHTABLE_INITIAL_SIZE_BITS. rewrite u32_small by lia.
  replace (Z.to_nat (K - 5 + 1)) with (S (Z.to_nat (K - 5))) by lia. cbn [foreach_slots].
  rewrite (foreach_vector_buckets 0 HASHTABLE_INITIAL_SIZE); unfold HASHTABLE_INITIAL_SIZE; auto; try lia.
  2:{ intros i Hi. unfold _hashtable_bucket, HASHTABLE_INITIAL_SIZE. cbn [Z.add].
      destruct (Z.ltb_spec (0 + i) 32); [|lia]. done. }
  cbn [Z.ltb Z.compare Z.eqb]. change (0 + 1) with (5 - 4). change 32 with (2 ^ 5) at 2.
  rewrite foreach_slots_buckets by lia. rewrite Z2Nat.id by lia. replace (5 + (K - 5)) with K by lia.
  rewrite <- fmap_app, <- filter_app, <- fmap_app. unfold entries, cells. do 4 f_equal.
  replace (2 ^ K) with (32 + (2 ^ K - 32)) at 2 by lia. rewrite seqZ_app by lia. done.
Qed.

End Foreach.

Lemma entries_nodup ht F m : ht_rep ht F m -> NoDup (entries ht (cap_of ht)).
Proof.
  intros Hrep. pose proof (rep_disj _ _ _ Hrep) as Hd. pose proof (rep_within _ _ _ Hrep) as Hw.
  unfold regions in *. rewrite !pairwise_disj_app in Hd. destruct Hd as (_ & (Hd & _ & _) & _).
  rewrite !Forall_app in Hw. destruct Hw as (_ & Hw & _).
  apply disj_nodup in Hd; [|eapply Forall_impl; [exact Hw|]; intros r (_ & ? & _); done].
  rewrite <- list_fmap_compose in Hd. by apply NoDup_fmap_1 in Hd.
Qed.

(** The keys and values of the records [hashtable_foreach] visits. *)
Lemma foreach_rep ht F m func :
  ht_rep ht F m -> (forall r, 0 <= func r) ->
  exists l, hashtable_foreach ht func = (l, 0)
    /\ (fun ofs => (hashtable_get_key ht ofs, hashtable_get_val ht ofs)) <$> l ≡ₚ map_to_list m.
Proof.
  intros Hrep Hf. destruct (rep_cap _ _ _ Hrep) as (K & HK & Hcap).
  assert (Hpos : forall b, 0 <= b < 2 ^ K -> 0 <= e_rec (bucket ht b)).
  { intros b Hb. destruct (decide (occ ht b)) as [Ho|Hn]; [|rewrite (free_bucket_rec ht b Hn); lia].
    assert (bucket ht b ∈ entries ht (cap_of ht)) as He by (apply elem_of_entries; rewrite Hcap; eauto).
    pose proof (live_bounds _ _ _ Hrep _ He). unfold HEADER_SIZE in *. lia. }
  eexists. split; [by apply (foreach_entries ht func K)|]. rewrite <- list_fmap_compose.
  apply NoDup_Permutation; [|apply NoDup_map_to_list|].
  - apply NoDup_fmap_2_strong; [|by eapply entries_nodup].
    intros e1 e2 H1 H2 [= Ek _].
    destruct (rep_live _ _ _ Hrep e1 H1) as (k1 & v1 & Hh1 & _), (rep_live _ _ _ Hrep e2 H2) as (k2 & v2 & Hh2 & _).
    rewrite (holds_get_key _ _ _ _ Hh1), (holds_get_key _ _ _ _ Hh2) in Ek. subst k2.
    by eapply (rep_keys _ _ _ Hrep).
  - intros [k v]. rewrite elem_of_map_to_list, list_elem_of_fmap. cbn. split.
    + intros (e & [= -> ->] & He). destruct (rep_live _ _ _ Hrep e He) as (k & v & Hh & _ & Hm).
      by rewrite (holds_get_key _ _ _ _ Hh), (holds_get_val _ _ _ _ Hh).
    + intros Hm. destruct (rep_map _ _ _ Hrep k v Hm) as (e & He & Hh). exists e. split; [|done].
      by rewrite (holds_get_key _ _ _ _ Hh), (holds_get_val _ _ _ _ Hh).
Qed.
