(* ===== verification/HashtableMap.v ===== *)
(** * HashtableMap: the hash table as a finite map

    The contract of [include/hashtable.h] stated over a map from key bytes to value bytes
    ([gmap]), for single operations and for whole sequences of them. *)

From stdpp Require Import base numbers list gmap.
From Stdlib Require Import ZArith Lia.
From S2P Require Import Prelude Words Os Vmallocator Probe ProbeFacts Hashtable HashtableFacts.

(** ** Sequences of operations *)

Inductive op :=
| OpLookup (key : list Z)
| OpLookupInsert (key val : list Z)
| OpRemove (key : list Z).

Inductive output :=
| Value (v : option (list Z))     (* the bytes of the value at the returned offset *)
| Removed (found : bool).

Definition value_at (ht : hashtable) (ofs : Z) : option (list Z) :=
  if ofs =? 0 then None else Some (hashtable_get_val ht ofs).

Definition run_op (o : os) (ht : hashtable) (x : op) : option (hashtable * output) :=
  match x with
  | OpLookup key =>
      match hashtable_lookup ht key with
      | Some ofs => Some (ht, Value (value_at ht ofs))
      | None => None
      end
  | OpLookupInsert key val =>
      match hashtable_lookup_insert o ht key val with
      | Some (ht, ofs) => Some (ht, Value (value_at ht ofs))
      | None => None
      end
  | OpRemove key =>
      match hashtable_remove ht key with
      | Some (ht, ofs) => Some (ht, Removed (negb (ofs =? 0)))
      | None => None
      end
  end.

Fixpoint run_ops (o : os) (ht : hashtable) (l : list op) : option (hashtable * list output) :=
  match l with
  | [] => Some (ht, [])
  | x :: l =>
      match run_op o ht x with
      | None => None
      | Some (ht, y) =>
          match run_ops o ht l with
          | None => None
          | Some (ht, ys) => Some (ht, y :: ys)
          end
      end
  end.

(** The same operations on the map. *)
Definition spec_op (m : gmap (list Z) (list Z)) (x : op) : gmap (list Z) (list Z) * output :=
  match x with
  | OpLookup key => (m, Value (m !! key))
  | OpLookupInsert key val =>
      match m !! key with
      | Some v => (m, Value (Some v))
      | None => (<[key := val]> m, Value (Some val))
      end
  | OpRemove key => (delete key m, Removed (bool_decide (is_Some (m !! key))))
  end.

Fixpoint spec_ops (m : gmap (list Z) (list Z)) (l : list op) : gmap (list Z) (list Z) * list output :=
  match l with
  | [] => (m, [])
  | x :: l => let (m, y) := spec_op m x in let (m, ys) := spec_ops m l in (m, y :: ys)
  end.

Definition op_bytes (x : op) : Z :=
  match x with
  | OpLookupInsert key val => Z.of_nat (length key) + Z.of_nat (length val)
  | _ => 0
  end.

(** ** How much memory a sequence can use *)

(** After [n] operations on a table of [c0] buckets using [w0] bytes, with records of at most
    [L] bytes of data. *)
Record budget (c0 w0 n L : Z) (ht : hashtable) : Prop := {
  bud_cap : c0 <= cap_of ht <= Z.max c0 (4 * n);
  bud_size : ht_size ht <= n;
  bud_wloc : wlocpos (ht_data ht) <= w0 + 16 * (cap_of ht - c0) + n * (REC_SIZE + L);
}.

Lemma budget_growth c0 w0 n L bytes ht ht' :
  0 <= n -> 0 < c0 -> bytes <= REC_SIZE + L -> growth ht ht' bytes -> budget c0 w0 n L ht -> budget c0 w0 (n + 1) L ht'.
Proof. intros Hn H0 Hb (Hc & Hs & Hw) [B1 B2 B3]. split; unfold REC_SIZE in *; lia. Qed.

Lemma value_at_holds ht ofs k v : ofs <> 0 -> holds ht ofs k v -> value_at ht ofs = Some v.
Proof.
  intros Hne Hh. unfold value_at. destruct (Z.eqb_spec ofs 0); [done|]. by rewrite (holds_get_val _ _ _ _ Hh).
Qed.

(** One operation simulates the operation on the map. *)
Lemma run_op_sim o ht F m x :
  roomy o -> ht_rep ht F m -> (forall key val, x = OpLookupInsert key val -> insert_room ht key val) ->
  exists ht' F', run_op o ht x = Some (ht', snd (spec_op m x)) /\ ht_rep ht' F' (fst (spec_op m x))
    /\ growth ht ht' (REC_SIZE + op_bytes x).
Proof.
  intros Ho Hrep Hroom. destruct x as [key|key val|key]; cbn [run_op spec_op op_bytes fst snd].
  - destruct (lookup_rep ht F m key Hrep) as (ofs & -> & Hofs). exists ht, F.
    split; [|split; [done|unfold growth, REC_SIZE; lia]]. do 3 f_equal. unfold value_at.
    destruct (m !! key) as [v|]; [destruct Hofs as (? & _ & ->)|subst; done].
    by destruct (Z.eqb_spec ofs 0).
  - destruct (lookup_insert_rep o ht F m key val Ho Hrep (Hroom _ _ eq_refl))
      as (ht' & ofs & F' & -> & Hne & Hgr & Hm). exists ht', F'.
    destruct (m !! key) as [v|]; destruct Hm as [Hr Hh]; cbn [fst snd];
      rewrite (value_at_holds _ _ _ _ Hne Hh); (split; [done|]); (split; [done|]);
      by rewrite Z.add_assoc.
  - destruct (remove_rep ht F m key Hrep) as (ht' & ofs & F' & -> & Hofs & Hr & Hgr). exists ht', F'.
    split; [|split; [done|unfold growth, REC_SIZE in *; lia]]. do 3 f_equal.
    destruct (m !! key) as [v|] eqn:E.
    + rewrite bool_decide_eq_true_2 by eauto. by destruct (Z.eqb_spec ofs 0); [destruct Hofs|].
    + rewrite bool_decide_eq_false_2 by (intros [? ?]; congruence). by subst ofs.
Qed.

Lemma run_ops_sim o c0 w0 L N l : forall ht F m n,
  roomy o -> ht_rep ht F m -> 0 <= n -> 32 <= c0 -> 0 <= L -> budget c0 w0 n L ht ->
  Forall (fun x => op_bytes x <= L) l -> n + Z.of_nat (length l) <= N ->
  w0 + 40 * Z.max c0 (4 * N) + (N + 1) * (REC_SIZE + L) < 2 ^ 31 ->
  exists ht' F', run_ops o ht l = Some (ht', snd (spec_ops m l)) /\ ht_rep ht' F' (fst (spec_ops m l)).
Proof.
  induction l as [|x l IH]; intros ht F m n Ho Hrep Hn Hc0 HL Hbud Hlen HN Hmax; [by exists ht, F|].
  apply Forall_cons in Hlen as [Hx Hl]. cbn [length] in HN. cbn [run_ops spec_ops].
  destruct (run_op_sim o ht F m x Ho Hrep) as (ht1 & F1 & -> & Hrep1 & Hgr).
  { intros key val ->. cbn in Hx. destruct Hbud as [B1 B2 B3].
    unfold insert_room, ENTRY_SIZE, REC_SIZE in *.
    assert (Z.max c0 (4 * n) <= Z.max c0 (4 * N)) by lia.
    assert (n * (8 + L) <= N * (8 + L)) by (apply Z.mul_le_mono_nonneg_r; lia). lia. }
  destruct (spec_op m x) as [m1 y]. cbn [fst snd] in Hrep1.
  destruct (IH ht1 F1 m1 (n + 1)) as (ht' & F' & -> & Hrep'); auto; try lia.
  { eapply (budget_growth c0 w0 n L (REC_SIZE + op_bytes x)); eauto; lia. }
  destruct (spec_ops m1 l) as [m2 ys]. cbn in *. eauto.
Qed.

(** ** The contract *)

Lemma roomy_all_ok : roomy os_all_ok.
Proof. split; intros ? ? _; reflexivity. Qed.

(** The start of a sequence: an initialised table is within its budget. *)
Lemma init_budget o n l L N :
  roomy o -> sys_mmap o VM_ALLOC_MIN_SIZE = true -> 0 <= n <= 2 ^ 20 ->
  Z.of_nat (length l) <= N -> N <= 2 ^ 20 -> 0 <= L <= 1024 -> Forall (fun x => op_bytes x <= L) l ->
  exists ht0 ht' F, hashtable_init o HASHTABLE_INITIALIZER n = Some (ht0, 0)
    /\ run_ops o ht0 l = Some (ht', snd (spec_ops ∅ l)) /\ ht_rep ht' F (fst (spec_ops ∅ l)).
Proof.
  intros Ho Hmm Hn Hlen HN HL Hb. destruct (init_rep o n Ho Hmm ltac:(lia)) as (ht0 & Hi & Hrep & Hc & Hw).
  unfold HEADER_SIZE, ENTRY_SIZE in Hw.
  destruct (run_ops_sim o (cap_of ht0) (wlocpos (ht_data ht0)) L N l ht0 [] ∅ 0) as (ht' & F & Hr & Hrep');
    auto; try lia; [| |eauto 8].
  - split; [lia| |unfold REC_SIZE; lia]. rewrite (rep_size _ _ _ Hrep).
    destruct (entries ht0 (cap_of ht0)) as [|e es] eqn:E; [done|]. exfalso.
    destruct (rep_live _ _ _ Hrep e) as (k & v & _ & _ & Hm); [rewrite E; by left|].
    by rewrite lookup_empty in Hm.
  - unfold REC_SIZE. assert ((N + 1) * (8 + L) <= (2 ^ 20 + 1) * (8 + 1024)) by (apply Z.mul_le_mono_nonneg; lia).
    lia.
Qed.

(** C1: starting from [hashtable_init], any sequence of up to 2^20 calls of
    [hashtable_lookup], [hashtable_lookup_insert] and [hashtable_remove] on keys and values
    of at most 1024 bytes together, with an initial size of at most 2^20, on a system that can grow its mappings, runs to its end and
    returns exactly what the same operations on a finite map from keys to values return. *)
Theorem hashtable_refines_map (o : os) (n : Z) (l : list op)
  (Hos : roomy o) (Hmap : sys_mmap o VM_ALLOC_MIN_SIZE = true) (Hn : 0 <= n <= 2 ^ 20)
  (Hlen : Z.of_nat (length l) <= 2 ^ 20) (Hbytes : Forall (fun x => op_bytes x <= 1024) l) :
  exists ht0 ht', hashtable_init o HASHTABLE_INITIALIZER n = Some (ht0, 0)
    /\ run_ops o ht0 l = Some (ht', snd (spec_ops ∅ l)).
Proof.
  destruct (init_budget o n l 1024 (2 ^ 20)) as (ht0 & ht' & F & H1 & H2 & _); auto; try lia. eauto.
Qed.

Definition demo_ops : list op :=
  [OpLookupInsert [97] [1; 2]; OpLookupInsert [98] [3]; OpLookup [97]; OpLookupInsert [97] [9];
   OpRemove [97]; OpLookup [97]; OpRemove [97]; OpLookup [98]].

Definition demo_outputs : list output :=
  [Value (Some [1; 2]); Value (Some [3]); Value (Some [1; 2]); Value (Some [1; 2]);
   Removed true; Value None; Removed false; Value (Some [3])].

Lemma demo_ops_small L : 1024 <= L -> Forall (fun x => op_bytes x <= L) demo_ops.
Proof. intros HL. repeat (apply Forall_cons; split; [cbn; lia|]). by apply Forall_nil. Qed.

Lemma hashtable_refines_map_witness :
  exists ht0 ht', hashtable_init os_all_ok HASHTABLE_INITIALIZER 0 = Some (ht0, 0)
    /\ run_ops os_all_ok ht0 demo_ops = Some (ht', demo_outputs).
Proof.
  apply (hashtable_refines_map os_all_ok 0 demo_ops roomy_all_ok eq_refl ltac:(lia) ltac:(cbn; lia)
           (demo_ops_small 1024 ltac:(lia))).
Defined.

(** C2: after any such sequence the bucket cells, the live records and the free records of
    the table are pairwise disjoint, lie behind the header and below the allocator's write
    position, and that position is within the mapped memory: no write through the table's
    offsets can damage another of its objects or leave the mapping. *)
Theorem hashtable_layout_safe (o : os) (n : Z) (l : list op) (ht0 ht' : hashtable) (outs : list output)
  (Hos : roomy o) (Hmap : sys_mmap o VM_ALLOC_MIN_SIZE = true) (Hn : 0 <= n <= 2 ^ 20)
  (Hlen : Z.of_nat (length l) <= 2 ^ 20) (Hbytes : Forall (fun x => op_bytes x <= 1024) l)
  (Hinit : hashtable_init o HASHTABLE_INITIALIZER n = Some (ht0, 0))
  (Hrun : run_ops o ht0 l = Some (ht', outs)) :
  exists F, free_chain ht' (ht_free_list ht') F /\ pairwise_disj (regions ht' F)
    /\ Forall (within HEADER_SIZE (wlocpos (ht_data ht'))) (regions ht' F)
    /\ wlocpos (ht_data ht') <= capacity (ht_data ht').
Proof.
  destruct (init_budget o n l 1024 (2 ^ 20)) as (h0 & h' & F & H1 & H2 & Hrep); auto; try lia.
  rewrite H1 in Hinit. injection Hinit as ->. rewrite H2 in Hrun. injection Hrun as -> _.
  exists F. split; [apply Hrep|]. split; [apply Hrep|]. split; [apply Hrep|].
  apply (vm_wloc _ (rep_vm _ _ _ Hrep)).
Qed.

Definition demo_init : hashtable :=
  match hashtable_init os_all_ok HASHTABLE_INITIALIZER 0 with Some (ht, _) => ht | None => HASHTABLE_INITIALIZER end.
Definition demo_final : hashtable :=
  match run_ops os_all_ok demo_init demo_ops with Some (ht, _) => ht | None => demo_init end.

Lemma hashtable_layout_safe_witness :
  exists F, free_chain demo_final (ht_free_list demo_final) F /\ pairwise_disj (regions demo_final F)
    /\ Forall (within HEADER_SIZE (wlocpos (ht_data demo_final))) (regions demo_final F)
    /\ wlocpos (ht_data demo_final) <= capacity (ht_data demo_final).
Proof.
  apply (hashtable_layout_safe os_all_ok 0 demo_ops demo_init demo_final demo_outputs roomy_all_ok eq_refl
    ltac:(lia) ltac:(cbn; lia) (demo_ops_small 1024 ltac:(lia))); vm_compute; reflexivity.
Defined.

(** [hashtable_insert] of a key that is not in the table, growing the table when it is
    half full, adds exactly that key: the returned offset holds key and value, and the
    table then represents the map with the key added. *)
Theorem hashtable_insert_adds (o : os) (ht : hashtable) (F : list Z) (m : gmap (list Z) (list Z))
  (key val : list Z) (Hos : roomy o) (Hrep : ht_rep ht F m) (Hnew : m !! key = None)
  (Hroom : insert_room ht key val) :
  exists ht' ofs F', hashtable_insert o ht key val = Some (ht', ofs) /\ ofs <> 0
    /\ hashtable_get_key ht' ofs = key /\ hashtable_get_val ht' ofs = val
    /\ ht_rep ht' F' (<[key := val]> m).
Proof.
  destruct (insert_rep o ht F m key val Hos Hrep Hnew Hroom) as (ht' & ofs & F' & E & Hr & Hh & Hne & _).
  exists ht', ofs, F'. split; [done|]. split; [done|].
  split; [by eapply holds_get_key|]. split; [by eapply holds_get_val|done].
Qed.

Lemma demo_init_rep : hashtable_init os_all_ok HASHTABLE_INITIALIZER 0 = Some (demo_init, 0) /\ ht_rep demo_init [] ∅.
Proof.
  destruct (init_rep os_all_ok 0 roomy_all_ok eq_refl ltac:(lia)) as (ht & E & Hrep & _).
  unfold demo_init. rewrite E. done.
Qed.

Lemma hashtable_insert_adds_witness :
  exists ht' ofs F', hashtable_insert os_all_ok demo_init [1; 2; 3] [4] = Some (ht', ofs) /\ ofs <> 0
    /\ hashtable_get_key ht' ofs = [1; 2; 3] /\ hashtable_get_val ht' ofs = [4]
    /\ ht_rep ht' F' (<[[1; 2; 3] := [4]]> ∅).
Proof.
  apply (hashtable_insert_adds os_all_ok demo_init [] ∅ [1; 2; 3] [4] roomy_all_ok (proj2 demo_init_rep));
    vm_compute; reflexivity.
Defined.

(** doubling the table with [_hashtable_grow] keeps the map it represents, the free
    list and the number of elements, and every key is still found by [hashtable_lookup]. *)
Theorem hashtable_grow_keeps_map (o : os) (ht : hashtable) (F : list Z) (m : gmap (list Z) (list Z))
  (Hos : roomy o) (Hrep : ht_rep ht F m)
  (Hroom : wlocpos (ht_data ht) + 8 + ENTRY_SIZE * cap_of ht < 2 ^ 32) :
  exists ht', _hashtable_grow o ht = Some ht' /\ ht_rep ht' F m /\ cap_of ht' = 2 * cap_of ht
    /\ ht_size ht' = ht_size ht
    /\ forall key, exists ofs, hashtable_lookup ht' key = Some ofs
         /\ (m !! key = None <-> ofs = 0)
         /\ (forall v, m !! key = Some v -> hashtable_get_val ht' ofs = v).
Proof.
  destruct (grow_rep o ht F m Hos Hrep Hroom) as (ht' & E & Hrep' & Hc & Hs & _).
  exists ht'. split; [done|]. split; [done|]. split; [done|]. split; [done|]. intros key.
  destruct (lookup_rep ht' F m key Hrep') as (ofs & Hl & Hm). exists ofs. split; [done|].
  destruct (m !! key) as [v|]; naive_solver.
Qed.

Lemma hashtable_grow_keeps_map_witness :
  exists ht', _hashtable_grow os_all_ok demo_init = Some ht' /\ ht_rep ht' [] ∅
    /\ cap_of ht' = 2 * cap_of demo_init.
Proof.
  destruct (hashtable_grow_keeps_map os_all_ok demo_init [] ∅ roomy_all_ok (proj2 demo_init_rep))
    as (ht' & H1 & H2 & H3 & _); [vm_compute; reflexivity|]. eauto.
Defined.

(** [hashtable_foreach] with a callback that never fails calls it on the record of each
    key of the table exactly once, and returns 0. *)
Theorem hashtable_foreach_visits_all (ht : hashtable) (F : list Z) (m : gmap (list Z) (list Z)) (func : Z -> Z)
  (Hrep : ht_rep ht F m) (Hfunc : forall r, 0 <= func r) :
  exists l, hashtable_foreach ht func = (l, 0)
    /\ (fun ofs => (hashtable_get_key ht ofs, hashtable_get_val ht ofs)) <$> l ≡ₚ map_to_list m.
Proof. exact (foreach_rep ht F m func Hrep Hfunc). Qed.

Lemma demo_final_rep : exists F, ht_rep demo_final F (fst (spec_ops ∅ demo_ops)).
Proof.
  destruct (init_budget os_all_ok 0 demo_ops 1024 (2 ^ 20)) as (ht0 & ht' & F & E1 & E2 & Hrep);
    auto using roomy_all_ok, demo_ops_small with lia; [cbn; lia|].
  exists F. unfold demo_final, demo_init. rewrite E1, E2. done.
Qed.

Lemma hashtable_foreach_visits_all_witness :
  exists l, hashtable_foreach demo_final (fun _ => 0) = (l, 0)
    /\ (fun ofs => (hashtable_get_key demo_final ofs, hashtable_get_val demo_final ofs)) <$> l
       ≡ₚ [([98], [3])].
Proof.
  destruct demo_final_rep as [F Hrep].
  apply (hashtable_foreach_visits_all demo_final F _ (fun _ => 0) Hrep). intros; lia.
Defined.
