(* ===== verification/ProbeMap.v ===== *)
(** * ProbeMap: keyed records in an open-addressing bucket array

    What [thashtable] and [lhashtable] share above the probing loops: each used bucket refers
    to a record whose contents [kv] are a key and a value.  [keyed s cap kv m] says that the
    buckets of [s] represent the map [m]. *)

From stdpp Require Import base numbers list gmap.
From Stdlib Require Import ZArith Lia.
From S2P Require Import Prelude Words Probe ProbeFacts.

Notation kvmap := (gmap (list Z) (list Z)) (only parsing).
Notation contents := (Z -> option (list Z * list Z)) (only parsing).

Section Keyed.
Context {St : Type} `{BucketLaws St}.

Record keyed (s : St) (cap : Z) (kv : contents) (m : kvmap) : Prop := {
  keyed_reach : reach s cap;
  keyed_nodup : NoDup (e_rec <$> entries s cap);
  keyed_live : forall e, e ∈ entries s cap ->
    exists k v, kv (e_rec e) = Some (k, v) /\ e_hashcode e = hashcode k /\ m !! k = Some v;
  keyed_map : forall k v, m !! k = Some v -> exists e, e ∈ entries s cap /\ kv (e_rec e) = Some (k, v);
  keyed_uniq : forall e1 e2 k v1 v2, e1 ∈ entries s cap -> e2 ∈ entries s cap ->
    kv (e_rec e1) = Some (k, v1) -> kv (e_rec e2) = Some (k, v2) -> e1 = e2;
}.

(** The comparison the search loops make at a used bucket. *)
Definition matches (kv : contents) (key : list Z) (e : ht_entry) : bool :=
  (hashcode key =? e_hashcode e) &&
  match kv (e_rec e) with
  | Some (k, _) => bool_decide (k = key)
  | None => false
  end.

Lemma matches_key kv key e v : kv (e_rec e) = Some (key, v) -> e_hashcode e = hashcode key -> matches kv key e = true.
Proof. intros E Eh. unfold matches. rewrite E, Eh, Z.eqb_refl. by rewrite bool_decide_eq_true_2. Qed.

Lemma keyed_find s cap kv m key stop :
  is_cap cap -> keyed s cap kv m -> (exists z, 0 <= z < cap /\ ~ occ s z) ->
  (forall b, 0 <= b < cap -> stop (bucket s b) = is_free (bucket s b) || matches kv key (bucket s b)) ->
  let hb := Z.land (hashcode key) (cap - 1) in
  exists b, probe stop (round (cap - 1)) s (cap - 1) hb = Some b /\ 0 <= b < cap
    /\ ((occ s b /\ exists v, kv (e_rec (bucket s b)) = Some (key, v) /\ m !! key = Some v)
        \/ (m !! key = None /\ first_hole s cap hb b)).
Proof.
  intros Hc Hk (z & Hz & Hfz) Hstop hb. pose proof (is_cap_pos _ Hc) as Hcp.
  assert (Hhb : 0 <= hb < cap) by (apply (home_range _ (HtEntry (hashcode key) 0) Hc)).
  assert (Hfree : forall p, ~ occ s p -> is_free (bucket s p) = true).
  { intros p Hp. apply is_free_true. destruct (decide (e_rec (bucket s p) = 0)); [done|by destruct Hp]. }
  destruct (probe_spec s cap stop z hb) as (b & Hb & Hbr & _ & Hsb & Hbefore); auto; try lia.
  { by rewrite Hstop, Hfree. }
  exists b. split; [done|]. split; [done|]. rewrite Hstop in Hsb by done.
  destruct (decide (occ s b)) as [Ho|Hf].
  - left. split; [done|]. rewrite (proj2 (is_free_false _) Ho) in Hsb. cbn in Hsb.
    destruct (keyed_live _ _ _ _ Hk (bucket s b)) as (k & v & E & _ & Hm); [apply elem_of_entries; eauto|].
    unfold matches in Hsb. rewrite E in Hsb. apply andb_true_iff in Hsb as [_ Hsb].
    apply bool_decide_eq_true_1 in Hsb. subst k. eauto.
  - right. split.
    + destruct (m !! key) as [v|] eqn:Em; [|done]. exfalso.
      destruct (keyed_map _ _ _ _ Hk key v Em) as (e & He & E).
      destruct (keyed_live _ _ _ _ Hk e He) as (k' & v' & E' & Hhc & _). rewrite E in E'. injection E' as <- <-.
      apply elem_of_entries in He as (i & Hi & Hoi & <-).
      destruct (probe_finds s cap stop i) as (j & Hj & _ & Hoj & _); auto; [apply Hk| | |].
      * intros p Hp Hn. by rewrite Hstop, Hfree.
      * rewrite Hstop by done. by rewrite (matches_key kv key _ v), orb_true_r.
      * unfold home in Hj. rewrite Hhc in Hj. fold hb in Hj. rewrite Hb in Hj. injection Hj as ->. done.
    + split; [done|]. split; [done|]. intros p Hp Hd. specialize (Hbefore p Hp Hd). rewrite Hstop in Hbefore by done.
      apply orb_false_iff in Hbefore as [Hx _]. by apply is_free_false in Hx.
Qed.

(** The same map in another state with the same used buckets. *)
Lemma keyed_perm (s s' : St) cap cap' kv m :
  keyed s cap kv m -> reach s' cap' -> entries s' cap' ≡ₚ entries s cap -> keyed s' cap' kv m.
Proof.
  intros [H1 H2 H3 H4 H5] Hr Hp. split; [done|..]; [by rewrite Hp|..]; repeat setoid_rewrite Hp; auto.
Qed.

Lemma keyed_ext (s s' : St) cap kv kv' m :
  (forall b, 0 <= b < cap -> bucket s' b = bucket s b) ->
  (forall e, e ∈ entries s cap -> kv' (e_rec e) = kv (e_rec e)) -> keyed s cap kv m -> keyed s' cap kv' m.
Proof.
  intros Hb Hkv [H1 H2 H3 H4 H5]. assert (He : entries s' cap = entries s cap) by (by apply entries_ext).
  split; rewrite ?He; auto.
  - by eapply reach_ext.
  - intros e Hin. rewrite Hkv by done. auto.
  - intros k v Hm. destruct (H4 k v Hm) as (e & Hin & E). exists e. by rewrite Hkv.
  - intros e1 e2 k v1 v2 Hi1 Hi2. rewrite !Hkv by done. by apply H5.
Qed.

(** Two cells do not refer to the same record. *)
Lemma keyed_cell_inj s cap kv m i j :
  keyed s cap kv m -> 0 <= i < cap -> 0 <= j < cap -> occ s i -> e_rec (bucket s i) = e_rec (bucket s j) -> i = j.
Proof.
  intros [_ Hn _ _ _] Hi Hj Ho E. assert (occ s j) as Hoj by (unfold occ in *; congruence).
  revert Hn. unfold entries, cells. rewrite filter_map, <- list_fmap_compose. set (l := filter _ _). intros Hnd.
  assert (Hil : forall x, 0 <= x < cap -> occ s x -> exists p, l !! p = Some x).
  { intros x Hx Hox. apply list_elem_of_lookup, list_elem_of_filter. split; [exact Hox|]. apply elem_of_seqZ. lia. }
  destruct (Hil i Hi Ho) as [p Hp], (Hil j Hj Hoj) as [q Hq].
  assert (p = q) as ->; [|congruence]. eapply (NoDup_lookup _ _ _ (e_rec (bucket s i)) Hnd).
  - rewrite list_lookup_fmap, Hp. done.
  - rewrite list_lookup_fmap, Hq, E. done.
Qed.

Lemma keyed_rehash skip s cap kv m :
  is_cap cap -> is_cap (2 * cap) -> addressable s (2 * cap) -> keyed s cap kv m ->
  (exists z, 0 <= z < cap /\ ~ occ s z) -> (forall p, cap <= p < 2 * cap -> ~ occ s p) ->
  exists s', rehash skip s cap = Some s' /\ updates (2 * cap) s s' /\ keyed s' (2 * cap) kv m
    /\ entries s' (2 * cap) ≡ₚ entries s cap.
Proof.
  intros Hc Hc2 Ha Hk Hz Hu. pose proof (is_cap_pos _ Hc).
  destruct (rehash_spec skip s cap Hc Hc2 Ha (keyed_reach _ _ _ _ Hk) Hz Hu) as (s' & -> & Hup & Hr & Hp).
  rewrite (entries_upper_free s) in Hp by (auto; lia). exists s'. split; [done|]. split; [done|]. split; [|done]. by apply (keyed_perm s s' cap).
Qed.

(** A new record in the first free bucket. *)
Lemma keyed_fill s cap kv kv' m key val b rec :
  is_cap cap -> addressable s cap -> keyed s cap kv m -> m !! key = None ->
  first_hole s cap (Z.land (hashcode key) (cap - 1)) b -> rec <> 0 ->
  (forall e, e ∈ entries s cap -> e_rec e <> rec) ->
  (forall e, e ∈ entries s cap -> kv' (e_rec e) = kv (e_rec e)) -> kv' rec = Some (key, val) ->
  let s' := set_bucket s b (HtEntry (hashcode key) rec) in
  keyed s' cap kv' (<[key := val]> m) /\ entries s' cap ≡ₚ HtEntry (hashcode key) rec :: entries s cap.
Proof.
  intros Hc Ha [H1 H2 H3 H4 H5] Hm Hh Hr Hne Hkv Hnew s'. pose proof Hh as (Hb & Hf & _).
  assert (He : entries s' cap ≡ₚ HtEntry (hashcode key) rec :: entries s cap) by (by apply entries_fill).
  assert (Hk' : forall e k v, e ∈ entries s cap -> kv' (e_rec e) = Some (k, v) -> k <> key).
  { intros e k v Hin E ->. rewrite Hkv in E by done. destruct (H3 e Hin) as (k' & v' & E' & _ & ?). congruence. }
  split; [|done]. split.
  - by apply reach_fill.
  - rewrite He. cbn. apply NoDup_cons. split; [|done]. rewrite list_elem_of_fmap. intros (e & E & Hin).
    by apply (Hne e Hin).
  - intros e. rewrite He. intros [->|Hin]%elem_of_cons.
    + exists key, val. by rewrite lookup_insert_eq.
    + destruct (H3 e Hin) as (k & v & E & Hhc & Hmk). exists k, v. rewrite Hkv by done.
      rewrite lookup_insert_ne; [done|]. intros <-. congruence.
  - intros k v. destruct (decide (k = key)) as [->|Hn].
    + rewrite lookup_insert_eq. intros [= <-]. exists (HtEntry (hashcode key) rec). rewrite He. split; [by left|done].
    + rewrite lookup_insert_ne by congruence. intros Hmk. destruct (H4 k v Hmk) as (e & Hin & E).
      exists e. rewrite He, Hkv by done. split; [by right|done].
  - intros e1 e2 k v1 v2. rewrite !He. intros [->|Hi1]%elem_of_cons [->|Hi2]%elem_of_cons; [done| | |].
    + cbn. rewrite Hnew. intros [= <- _] E. by destruct (Hk' e2 key v2 Hi2 E).
    + cbn. rewrite Hnew. intros E [= <- _]. by destruct (Hk' e1 key v1 Hi1 E).
    + rewrite !Hkv by done. by apply H5.
Qed.

(** Removing the record of bucket [b]. *)
Lemma keyed_remove s cap kv m key val b :
  is_cap cap -> addressable s cap -> keyed s cap kv m -> 0 <= b < cap -> occ s b ->
  kv (e_rec (bucket s b)) = Some (key, val) -> (exists z, 0 <= z < cap /\ ~ occ s z) ->
  let s0 := set_bucket s b (HtEntry (e_hashcode (bucket s b)) 0) in
  exists s', fix_chain_down (round (cap - 1)) s0 (cap - 1) (next_bucket (cap - 1) b) = Some s'
    /\ updates cap s s' /\ keyed s' cap kv (delete key m)
    /\ entries s cap ≡ₚ bucket s b :: entries s' cap.
Proof.
  intros Hc Ha [H1 H2 H3 H4 H5] Hb Ho Hkv Hz s0.
  destruct (remove_spec s cap b Hc Ha H1 Hb Ho Hz) as (s' & E & Hu & Hr & He).
  exists s'. split; [done|]. split; [done|]. split; [|done].
  assert (Hsub : forall e, e ∈ entries s' cap -> e ∈ entries s cap) by (intros e Hin; rewrite He; by right).
  rewrite He in H2. cbn in H2. apply NoDup_cons in H2 as [Hni Hnd].
  split; [done|done|..].
  - intros e Hin. destruct (H3 e (Hsub e Hin)) as (k & v & Ek & Hhc & Hmk). exists k, v.
    rewrite lookup_delete_ne; [done|]. intros <-. apply Hni, list_elem_of_fmap. exists e.
    split; [|done]. f_equal. eapply (H5 _ _ key val v); eauto. apply elem_of_entries. eauto.
  - intros k v [Hn Hmk]%lookup_delete_Some. destruct (H4 k v Hmk) as (e & Hin & Ek). rewrite He in Hin.
    apply elem_of_cons in Hin as [->|Hin]; [congruence|eauto].
  - intros e1 e2 k v1 v2 Hi1 Hi2. by apply H5; apply Hsub.
Qed.

(** Giving bucket [b] a new record for the same key. *)
Lemma keyed_replace s cap kv kv' m key old val b rec :
  addressable s cap -> keyed s cap kv m -> 0 <= b < cap -> occ s b -> is_cap cap ->
  kv (e_rec (bucket s b)) = Some (key, old) -> rec <> 0 ->
  (forall e, e ∈ entries s cap -> e <> bucket s b -> e_rec e <> rec /\ kv' (e_rec e) = kv (e_rec e)) ->
  kv' rec = Some (key, val) ->
  let e' := HtEntry (e_hashcode (bucket s b)) rec in
  keyed (set_bucket s b e') cap kv' (<[key := val]> m)
  /\ length (entries (set_bucket s b e') cap) = length (entries s cap).
Proof.
  intros Ha [H1 H2 H3 H4 H5] Hb Ho Hc Hkv Hr Hne Hnew e'.
  assert (Hbin : bucket s b ∈ entries s cap) by (apply elem_of_entries; eauto).
  destruct (entries_set s cap b e' Ha Hb) as (l1 & l2 & E1 & E2).
  rewrite (filter_used_1 e') in E1 by done. rewrite (filter_used_1 (bucket s b)) in E2 by done.
  set (s' := set_bucket s b e') in *. cbn [app] in E1, E2.
  assert (Hothers : forall e, e ∈ l1 ++ l2 -> e ∈ entries s cap /\ e <> bucket s b).
  { intros e Hin. split; [rewrite E2; set_solver|]. intros ->.
    rewrite E2, fmap_app, fmap_cons in H2. rewrite <- Permutation_middle in H2. apply NoDup_cons in H2 as [H2 _].
    apply H2. rewrite <- fmap_app. by apply list_elem_of_fmap_2. }
  assert (Hin' : forall e, e ∈ entries s' cap <-> e = e' \/ e ∈ l1 ++ l2) by (intros e; rewrite E1; set_solver).
  assert (Hin : forall e, e ∈ entries s cap <-> e = bucket s b \/ e ∈ l1 ++ l2) by (intros e; rewrite E2; set_solver).
  assert (Hk' : forall e k v, e ∈ l1 ++ l2 -> kv' (e_rec e) = Some (k, v) -> k <> key /\ kv (e_rec e) = Some (k, v)).
  { intros e k v He E. destruct (Hothers e He) as [Hi Hn]. rewrite (proj2 (Hne e Hi Hn)) in E.
    split; [|done]. intros ->. apply Hn. by eapply H5. }
  split; [|by rewrite E1, E2, !length_app]. split.
  - intros i j Hi Hj Hoi Hd. destruct (Z.eq_dec j b) as [->|Hjb]; [by apply (occ_set_eq s cap)|].
    apply (occ_set_ne s cap); auto. unfold s' in *. destruct (Z.eq_dec i b) as [->|Hib].
    + rewrite (bucket_set_eq s cap) in Hd by auto. by apply (H1 b j).
    + rewrite (bucket_set_ne s cap) in Hd by auto. apply (occ_set_ne s cap) in Hoi; auto. by apply (H1 i j).
  - rewrite E1. rewrite E2 in H2. rewrite !fmap_app, !fmap_cons in *. rewrite <- Permutation_middle in *.
    apply NoDup_cons in H2 as [_ H2]. apply NoDup_cons. split; [|done]. cbn. rewrite <- fmap_app, list_elem_of_fmap.
    intros (e & E & He). destruct (Hothers e He) as [Hi Hn]. by apply (Hne e Hi Hn).
  - intros e. rewrite Hin'. intros [->|He].
    + exists key, val. cbn. rewrite lookup_insert_eq. split; [done|]. split; [|done].
      destruct (H3 _ Hbin) as (k & v & E & Hhc & _). rewrite Hkv in E. injection E as <- <-. done.
    + destruct (Hothers e He) as [Hi Hn]. destruct (H3 e Hi) as (k & v & E & Hhc & Hm). exists k, v.
      rewrite (proj2 (Hne e Hi Hn)). rewrite lookup_insert_ne; [done|]. intros <-. apply Hn. by eapply H5.
  - intros k v. destruct (decide (k = key)) as [->|Hn].
    + rewrite lookup_insert_eq. intros [= <-]. exists e'. rewrite Hin'. split; [by left|done].
    + rewrite lookup_insert_ne by congruence. intros Hm. destruct (H4 k v Hm) as (e & He & E).
      apply Hin in He as [->|He]; [congruence|]. exists e. rewrite Hin'. split; [by right|].
      destruct (Hothers e He) as [Hi Hb']. by rewrite (proj2 (Hne e Hi Hb')).
  - intros e1 e2 k v1 v2. rewrite !Hin'. intros [->|He1] [->|He2]; [done| | |].
    + cbn. rewrite Hnew. intros [= <- _] E. by destruct (Hk' _ _ _ He2 E).
    + cbn. rewrite Hnew. intros E [= <- _]. by destruct (Hk' _ _ _ He1 E).
    + intros Ea Eb. destruct (Hk' _ _ _ He1 Ea) as [_ Ea'], (Hk' _ _ _ He2 Eb) as [_ Eb'].
      eapply H5; eauto; by apply Hothers.
Qed.

End Keyed.
