(* ===== verification/Thashtable.v ===== *)
(** * Thashtable: the transient hash table
    ([include/thashtable.h], [src/thashtable.c], [src/_thashtable.c])

    Bucket vectors and records are separate allocations of [ribs_malloc]/[ribs_calloc], which
    never hand out the same address twice while an allocation is in use.  A record pointer
    is modelled as the number of its allocation (0 is NULL) and [th_recs] gives the records by
    pointer.  Allocations succeed.  The probing loops are those of [Probe]. *)

From stdpp Require Import base numbers list gmap.
From Stdlib Require Import ZArith Lia.
From S2P Require Import Prelude Words Probe ProbeFacts.

Definition THASHTABLE_INITIAL_SIZE_BITS : Z := 5.
Definition THASHTABLE_INITIAL_SIZE : Z := 32.

Record thashtable_internal_rec := ThRec { th_key_size : Z; th_val_size : Z; th_data : list Z }.

Record thashtable := Thashtable {
  th_mask : Z;
  th_size : Z;
  th_buckets : list (list ht_entry);                (* struct tht_entry *buckets[32] *)
  th_recs : gmap Z thashtable_internal_rec;         (* the allocated records *)
  th_next : Z;                                      (* the next allocation *)
}.

Definition th_with_mask t m := Thashtable m (th_size t) (th_buckets t) (th_recs t) (th_next t).
Definition th_with_size t n := Thashtable (th_mask t) n (th_buckets t) (th_recs t) (th_next t).
Definition th_with_buckets t b := Thashtable (th_mask t) (th_size t) b (th_recs t) (th_next t).
Definition th_with_recs t r n := Thashtable (th_mask t) (th_size t) (th_buckets t) r n.

(** [ribs_calloc(n, sizeof(struct tht_entry))] *)
Definition calloc_entries (n : Z) : list ht_entry := replicate (Z.to_nat n) free_entry.

(** [buckets[i] = v]; the array has 32 elements, the ones never set are empty. *)
Definition th_set_vector (t : thashtable) (i : Z) (v : list ht_entry) : thashtable :=
  th_with_buckets t (<[Z.to_nat i := v]> (th_buckets t)).

Definition thashtable_create : thashtable :=
  Thashtable (THASHTABLE_INITIAL_SIZE - 1) 0
    (<[O := calloc_entries THASHTABLE_INITIAL_SIZE]> (replicate 32 [])) ∅ 1.

(** Vector number and index in it of a bucket. *)
Definition _thashtable_bucket (b : Z) : Z * Z :=
  if b <? THASHTABLE_INITIAL_SIZE then (0, b)
  else
    let il2 := ilog2 b in
    (il2 - THASHTABLE_INITIAL_SIZE_BITS + 1, b - Z.shiftl 1 il2). (* offset within the vector *)

#[export] Instance thashtable_buckets : Buckets thashtable := {
  bucket t b := default free_entry (vector_get (th_buckets t) (_thashtable_bucket b));
  set_bucket t b e := th_with_buckets t (vector_set (th_buckets t) (_thashtable_bucket b) e);
}.

Definition _thashtable_grow (t : thashtable) : option thashtable :=
  let capacity := u32 (th_mask t + 1) in
  let il2 := ilog2 capacity in
  let t := th_set_vector t (il2 - THASHTABLE_INITIAL_SIZE_BITS + 1) (calloc_entries capacity) in
  let new_mask := u32 (u32 (Z.shiftl capacity 1) - 1) in
  match rehash false t capacity with
  | None => None
  | Some t => Some (th_with_mask t new_mask)
  end.

Definition _thashtable_check_resize (t : thashtable) : option thashtable :=
  if th_size t >? Z.shiftr (th_mask t) 1 then _thashtable_grow t else Some t.

(** A new record of [data] for bucket [b]: allocation, link, sizes and bytes. *)
Definition _thashtable_new_rec (t : thashtable) (b : Z) (key val : list Z) : thashtable * Z :=
  let rec := th_next t in
  let t := set_bucket t b (HtEntry (e_hashcode (bucket t b)) rec) in
  let r := ThRec (u32 (Z.of_nat (length key))) (u32 (Z.of_nat (length val))) (key ++ val) in
  (th_with_recs t (<[rec := r]> (th_recs t)) (rec + 1), rec).

Definition th_key_matches (t : thashtable) (hc : Z) (key : list Z) (e : ht_entry) : bool :=
  (hc =? e_hashcode e) &&
  match th_recs t !! e_rec e with
  | None => false
  | Some r =>
      (th_key_size r =? Z.of_nat (length key))
      && bool_decide (take (length key) (th_data r) = key)
  end.

Definition th_stop (t : thashtable) (hc : Z) (key : list Z) (e : ht_entry) : bool :=
  is_free e || th_key_matches t hc key e.

(** The search loop of all operations. *)
Definition th_find (t : thashtable) (hc : Z) (key : list Z) : option Z :=
  probe (th_stop t hc key) (round (th_mask t)) t (th_mask t) (Z.land hc (th_mask t)).

(** Insert into the free bucket [b]. *)
Definition th_insert_new (t : thashtable) (b hc : Z) (key val : list Z) : thashtable * Z :=
  let t := set_bucket t b (HtEntry hc (e_rec (bucket t b))) in
  let t := th_with_size t (u32 (th_size t + 1)) in
  _thashtable_new_rec t b key val.

(** The result is the table, the record and the flag [*inserted]. *)
Definition thashtable_insert (t : thashtable) (key val : list Z) : option (thashtable * Z * bool) :=
  match _thashtable_check_resize t with
  | None => None
  | Some t =>
      let hc := hashcode key in
      match th_find t hc key with
      | None => None
      | Some b =>
          if is_free (bucket t b) then Some (th_insert_new t b hc key val, true)
          else Some (t, e_rec (bucket t b), false) (* existing record *)
      end
  end.

Definition thashtable_put (t : thashtable) (key val : list Z) : option (thashtable * Z) :=
  match _thashtable_check_resize t with
  | None => None
  | Some t =>
      let hc := hashcode key in
      match th_find t hc key with
      | None => None
      | Some b =>
          if is_free (bucket t b) then Some (th_insert_new t b hc key val)
          else Some (_thashtable_new_rec t b key val) (* replace with new *)
      end
  end.

(** [thashtable_insert_alloc]: the value bytes are not written, [junk] is what the allocated
    memory holds; for an existing key the record is returned only if its value has that size. *)
Definition thashtable_insert_alloc (t : thashtable) (key junk : list Z) : option (thashtable * Z) :=
  match _thashtable_check_resize t with
  | None => None
  | Some t =>
      let hc := hashcode key in
      match th_find t hc key with
      | None => None
      | Some b =>
          if is_free (bucket t b) then Some (th_insert_new t b hc key junk)
          else
            match th_recs t !! e_rec (bucket t b) with
            | None => None
            | Some r => Some (t, if th_val_size r =? Z.of_nat (length junk) then e_rec (bucket t b) else 0)
            end
      end
  end.

Definition thashtable_lookup (t : thashtable) (key : list Z) : option Z :=
  match th_find t (hashcode key) key with
  | None => None
  | Some b => Some (e_rec (bucket t b))
  end.

Definition thashtable_remove (t : thashtable) (key : list Z) : option (thashtable * Z) :=
  match th_find t (hashcode key) key with
  | None => None
  | Some b =>
      let e := bucket t b in
      if is_free e then Some (t, 0)
      else
        let t := set_bucket t b (HtEntry (e_hashcode e) 0) in (* mark as deleted *)
        let t := th_with_size t (u32 (th_size t - 1)) in
        match fix_chain_down (round (th_mask t)) t (th_mask t) (next_bucket (th_mask t) b) with
        | None => None
        | Some t => Some (t, e_rec e)
        end
  end.

(** ** Iteration *)

(** The records of one vector passed to [func], and whether it returned a negative value. *)
Fixpoint th_foreach_vector (func : Z -> Z) (v : list ht_entry) : list Z * bool :=
  match v with
  | [] => ([], false)
  | e :: v =>
      if is_free e then th_foreach_vector func v
      else if func (e_rec e) <? 0 then ([e_rec e], true)
      else let (l, stop) := th_foreach_vector func v in (e_rec e :: l, stop)
  end.

Fixpoint th_foreach_vectors (func : Z -> Z) (l : list (list ht_entry)) : list Z * Z :=
  match l with
  | [] => ([], 0)
  | v :: l =>
      let (r, stop) := th_foreach_vector func v in
      if stop then (r, -1) else let (r', res) := th_foreach_vectors func l in (r ++ r', res)
  end.

(** Vector [b] has 32 entries for [b <= 1] and twice as many as its predecessor after that,
    so the loop visits each allocated vector to its end. *)
Definition thashtable_foreach (t : thashtable) (func : Z -> Z) : list Z * Z :=
  let capacity := u32 (th_mask t + 1) in
  let num_buckets := u32 (ilog2 capacity - THASHTABLE_INITIAL_SIZE_BITS + 1) in
  th_foreach_vectors func (take (Z.to_nat num_buckets) (th_buckets t)).

(** ** Accessors ([src/_thashtable.c]) *)

Definition th_rec_at (t : thashtable) (rec : Z) : thashtable_internal_rec :=
  default (ThRec 0 0 []) (th_recs t !! rec).
Definition thashtable_get_key_size (t : thashtable) (rec : Z) : Z := th_key_size (th_rec_at t rec).
Definition thashtable_get_val_size (t : thashtable) (rec : Z) : Z := th_val_size (th_rec_at t rec).
Definition thashtable_get_key (t : thashtable) (rec : Z) : list Z :=
  take (Z.to_nat (thashtable_get_key_size t rec)) (th_data (th_rec_at t rec)).
Definition thashtable_get_val (t : thashtable) (rec : Z) : list Z :=
  take (Z.to_nat (thashtable_get_val_size t rec))
    (drop (Z.to_nat (thashtable_get_key_size t rec)) (th_data (th_rec_at t rec))).
Definition thashtable_get_size (t : thashtable) : Z := th_size t.
Definition thashtable_lookup_str (t : thashtable) (key default_val : list Z) : option (list Z) :=
  match thashtable_lookup t key with
  | None => None
  | Some rec => Some (if rec =? 0 then default_val else thashtable_get_val t rec)
  end.
