(* ===== verification/ThashtableMap.v ===== *)
(** * ThashtableMap: the transient hash table implements a finite map *)

From stdpp Require Import base numbers list gmap.
From Stdlib Require Import ZArith Lia.
From S2P Require Import Prelude Words Probe ProbeFacts ProbeMap Thashtable.

(** ** Bucket vectors *)

Definition th_addressable (t : thashtable) (n : Z) : Prop :=
  forall b, 0 <= b < n -> is_Some (vector_get (th_buckets t) (_thashtable_bucket b)).

Lemma _thashtable_bucket_place b : _thashtable_bucket b = place 5 b.
Proof. reflexivity. Qed.

#[export] Instance thashtable_bucket_laws : BucketLaws thashtable.
Proof.
  refine {| addressable := th_addressable |}.
  - intros t n i e Ha Hi. unfold bucket, set_bucket. cbn. by rewrite vector_get_set_eq by auto.
  - intros t n i j e Ha Hi Hj Hne. unfold bucket, set_bucket. cbn. rewrite vector_get_set_ne; [done|].
    apply (place_ne 5); lia.
  - intros t n i e Ha b Hb. cbn. by apply vector_get_set_some, Ha.
Defined.

(** ** The representation relation *)

Definition th_cap (t : thashtable) : Z := th_mask t + 1.

(** Key and value of a record. *)
Definition th_kv (t : thashtable) (rec : Z) : option (list Z * list Z) :=
  match th_recs t !! rec with
  | Some r => Some (take (Z.to_nat (th_key_size r)) (th_data r),
                    take (Z.to_nat (th_val_size r)) (drop (Z.to_nat (th_key_size r)) (th_data r)))
  | None => None
  end.

Record th_rep (t : thashtable) (m : kvmap) : Prop := {
  th_rep_cap : exists k, 5 <= k <= 30 /\ th_cap t = 2 ^ k;
  th_rep_len : length (th_buckets t) = 32%nat;
  th_rep_addr : addressable t (th_cap t);
  th_rep_keyed : keyed t (th_cap t) (th_kv t) m;
  th_rep_size : th_size t = Z.of_nat (length (entries t (th_cap t)));
  th_rep_load : 2 * th_size t <= th_cap t;
  th_rep_sizes : forall rec r, th_recs t !! rec = Some r ->
    0 < rec < th_next t /\ 0 <= th_key_size r /\ 0 <= th_val_size r
    /\ Z.of_nat (length (th_data r)) = th_key_size r + th_val_size r;
  th_rep_next : 0 < th_next t;
}.

Lemma th_is_cap t m : th_rep t m -> is_cap (th_cap t) /\ is_cap (2 * th_cap t) /\ 32 <= th_cap t <= 2 ^ 30.
Proof.
  intros Hrep. destruct (th_rep_cap _ _ Hrep) as (k & Hk & E).
  assert (2 ^ 5 <= 2 ^ k <= 2 ^ 30) by (split; apply Z.pow_le_mono_r; lia).
  split; [|split; [|rewrite E; lia]].
  - exists k. split; [lia|]. split; [done|]. rewrite E. lia.
  - exists (k + 1). split; [lia|]. rewrite E, Z.pow_add_r by lia. lia.
Qed.

Lemma th_free_bucket t m : th_rep t m -> exists z, 0 <= z < th_cap t /\ ~ occ t z.
Proof.
  intros Hrep. destruct (th_is_cap _ _ Hrep) as (_ & _ & Hc). apply free_bucket_exists; [lia|].
  rewrite <- (th_rep_size _ _ Hrep). pose proof (th_rep_load _ _ Hrep). lia.
Qed.

Lemma th_stop_matches t m key b :
  th_rep t m -> th_stop t (hashcode key) key (bucket t b)
  = is_free (bucket t b) || matches (th_kv t) key (bucket t b).
Proof.
  intros Hrep. unfold th_stop, th_key_matches, matches, th_kv. f_equal. f_equal.
  destruct (th_recs t !! e_rec (bucket t b)) as [r|] eqn:E; [|done].
  destruct (th_rep_sizes _ _ Hrep _ _ E) as (_ & Hk & Hv & Hl).
  destruct (Z.eqb_spec (th_key_size r) (Z.of_nat (length key))) as [Es|Es]; cbn.
  - by rewrite Es, Nat2Z.id.
  - symmetry. apply bool_decide_eq_false_2. intros Et. apply Es. rewrite <- Et, length_take. lia.
Qed.

Lemma th_find_spec t m key :
  th_rep t m ->
  exists b, th_find t (hashcode key) key = Some b /\ 0 <= b < th_cap t
    /\ ((occ t b /\ exists v, th_kv t (e_rec (bucket t b)) = Some (key, v) /\ m !! key = Some v)
        \/ (m !! key = None /\ first_hole t (th_cap t) (Z.land (hashcode key) (th_cap t - 1)) b)).
Proof.
  intros Hrep. destruct (th_is_cap _ _ Hrep) as (Hc & _ & _). unfold th_find.
  replace (th_mask t) with (th_cap t - 1) by (unfold th_cap; lia).
  apply (keyed_find t (th_cap t) (th_kv t) m); auto; [apply Hrep|by eapply th_free_bucket|].
  intros b _. by eapply th_stop_matches.
Qed.

Lemma th_kv_get t rec key val :
  th_kv t rec = Some (key, val) -> thashtable_get_key t rec = key /\ thashtable_get_val t rec = val.
Proof.
  unfold th_kv, thashtable_get_key, thashtable_get_val, thashtable_get_key_size, thashtable_get_val_size, th_rec_at.
  destruct (th_recs t !! rec); [|done]. by intros [= <- <-].
Qed.

Lemma th_lookup_rep t m key :
  th_rep t m ->
  exists rec, thashtable_lookup t key = Some rec
    /\ match m !! key with
       | Some v => rec <> 0 /\ thashtable_get_key t rec = key /\ thashtable_get_val t rec = v
       | None => rec = 0
       end.
Proof.
  intros Hrep. destruct (th_find_spec t m key Hrep) as (b & Hb & _ & Hcase).
  unfold thashtable_lookup. rewrite Hb. eexists. split; [done|].
  destruct Hcase as [(Ho & v & Hkv & ->)|(-> & _ & Hf & _)].
  - split; [exact Ho|]. by apply th_kv_get.
  - destruct (decide (e_rec (bucket t b) = 0)); [done|by destruct Hf].
Qed.

(** ** Growing *)

Lemma th_updates_fields n t t' :
  updates n t t' -> th_mask t' = th_mask t /\ th_size t' = th_size t /\ th_recs t' = th_recs t
    /\ th_next t' = th_next t /\ length (th_buckets t') = length (th_buckets t).
Proof.
  induction 1 as [|s i e s' _ _ IH]; [done|]. cbn in IH. unfold vector_set in IH. by rewrite length_alter in IH.
Qed.

Section Grow.
Variables (t : thashtable) (m : kvmap) (k : Z).
Hypothesis Hrep : th_rep t m.
Hypothesis Hk : 5 <= k <= 29.
Hypothesis Hcap : th_cap t = 2 ^ k.

Definition th_grown : thashtable := th_set_vector t (k - 4) (calloc_entries (2 ^ k)).

Lemma th_grown_buckets : th_buckets th_grown = doubled 5 (th_buckets t) k.
Proof. unfold th_grown, doubled. cbn. by replace (k - 5 + 1) with (k - 4) by lia. Qed.

Lemma th_grown_old b : 0 <= b < 2 ^ k ->
  vector_get (th_buckets th_grown) (_thashtable_bucket b) = vector_get (th_buckets t) (_thashtable_bucket b).
Proof. intros Hb. rewrite th_grown_buckets. apply (doubled_old 5); lia. Qed.

Lemma th_grown_new b : 2 ^ k <= b < 2 * 2 ^ k ->
  vector_get (th_buckets th_grown) (_thashtable_bucket b) = Some free_entry.
Proof. intros Hb. rewrite th_grown_buckets. apply (doubled_new 5); try lia. rewrite (th_rep_len _ _ Hrep). lia. Qed.

Lemma th_grown_addr : addressable th_grown (2 * 2 ^ k).
Proof.
  intros b Hb. destruct (Z.lt_ge_cases b (2 ^ k)).
  - rewrite th_grown_old by lia. apply (th_rep_addr _ _ Hrep). lia.
  - rewrite th_grown_new by lia. eauto.
Qed.

Lemma th_grown_bucket b : 0 <= b < 2 ^ k -> bucket th_grown b = bucket t b.
Proof. intros Hb. unfold bucket. cbn [thashtable_buckets]. by rewrite th_grown_old. Qed.

Lemma th_grown_upper b : 2 ^ k <= b < 2 * 2 ^ k -> ~ occ th_grown b.
Proof. intros Hb. unfold occ, bucket. cbn [thashtable_buckets]. rewrite th_grown_new by done. cbn. tauto. Qed.

Lemma th_grown_keyed : keyed th_grown (2 ^ k) (th_kv t) m.
Proof.
  apply (keyed_perm t th_grown (2 ^ k)).
  - rewrite <- Hcap. apply Hrep.
  - eapply reach_ext; [intros; by apply th_grown_bucket|]. rewrite <- Hcap. apply Hrep.
  - rewrite (entries_ext t th_grown) by (intros; by apply th_grown_bucket). done.
Qed.

End Grow.

Lemma th_grow_rep t m :
  th_rep t m -> th_cap t <= 2 ^ 29 ->
  exists t', _thashtable_grow t = Some t' /\ th_rep t' m /\ th_cap t' = 2 * th_cap t
    /\ th_size t' = th_size t /\ th_recs t' = th_recs t.
Proof.
  intros Hrep Hmax. destruct (th_rep_cap _ _ Hrep) as (k & Hk & Hcap).
  destruct (th_is_cap _ _ Hrep) as (Hc & Hc2 & Hcb).
  assert (Hk' : k <= 29).
  { destruct (Z.le_gt_cases k 29); [done|]. assert (2 ^ 30 <= 2 ^ k) by (apply Z.pow_le_mono_r; lia). lia. }
  unfold _thashtable_grow. rewrite (u32_small (th_mask t + 1)) by (unfold th_cap in *; lia).
  fold (th_cap t). cbv zeta. rewrite Hcap in Hc, Hc2, Hcb, Hmax |- *.
  assert (ilog2 (2 ^ k) = k) as -> by (unfold ilog2; zcase; [lia|]; apply Z.log2_pow2; lia).
  replace (k - THASHTABLE_INITIAL_SIZE_BITS + 1) with (k - 4) by (unfold THASHTABLE_INITIAL_SIZE_BITS; lia).
  fold (th_grown t k).
  destruct (keyed_rehash false (th_grown t k) (2 ^ k) (th_kv t) m) as (t' & -> & Hu & Hkeyed & Hent); auto.
  { eapply th_grown_addr; eauto; lia. }
  { apply th_grown_keyed; auto; lia. }
  { destruct (th_free_bucket _ _ Hrep) as (z & Hz & Hf). rewrite Hcap in Hz. exists z. split; [done|].
    unfold occ in *. rewrite th_grown_bucket; auto; lia. }
  { intros p. eapply th_grown_upper; eauto; lia. }
  destruct (th_updates_fields _ _ _ Hu) as (E1 & E2 & E3 & E4 & E5).
  rewrite Z.shiftl_mul_pow2, (u32_small (2 ^ k * 2 ^ 1)), (u32_small (_ - 1)) by lia.
  set (t2 := th_with_mask t' _).
  assert (Hcap2 : th_cap t2 = 2 * 2 ^ k) by (unfold th_cap; cbn; lia).
  assert (Hkv2 : th_kv t2 = th_kv t) by (unfold th_kv; cbn; by rewrite E3).
  rewrite (entries_ext t (th_grown t k)) in Hent by (intros; apply th_grown_bucket; lia).
  exists t2. split; [done|]. split; [|split; [done|split; [exact E2|exact E3]]]. split.
  - exists (k + 1). rewrite Hcap2, Z.pow_add_r by lia. lia.
  - cbn. rewrite E5. cbn. rewrite length_insert. apply Hrep.
  - rewrite Hcap2. change (addressable t' (2 * 2 ^ k)). eapply (updates_addressable _ _ _ _ Hu). eapply th_grown_addr; eauto; lia.
  - rewrite Hkv2, Hcap2. apply (keyed_perm t' t2 (2 * 2 ^ k)); [done|exact (keyed_reach _ _ _ _ Hkeyed)|done].
  - rewrite Hcap2. cbn. rewrite E2. cbn. rewrite (th_rep_size _ _ Hrep), Hcap.
    change (entries t2 (2 * 2 ^ k)) with (entries t' (2 * 2 ^ k)). by rewrite Hent.
  - rewrite Hcap2. pose proof (th_rep_load _ _ Hrep) as Hl. rewrite Hcap in Hl. cbn. rewrite E2. cbn. lia.
  - cbn. rewrite E3, E4. apply Hrep.
  - cbn. rewrite E4. apply Hrep.
Qed.

(** ** Inserting and replacing *)

Definition bytes_fit (key val : list Z) : Prop :=
  Z.of_nat (length key) < 2 ^ 32 /\ Z.of_nat (length val) < 2 ^ 32.

(** A state in which bucket [b] refers to a new record of [key] and [val]. *)
Section Linked.
Variables (t : thashtable) (m : kvmap) (b hc : Z) (key val : list Z) (t' : thashtable).
Hypothesis Hrep : th_rep t m.
Hypothesis Hb : 0 <= b < th_cap t.
Hypothesis Hfit : bytes_fit key val.
Hypothesis Hmask : th_mask t' = th_mask t.
Hypothesis Hnext : th_next t' = th_next t + 1.
Hypothesis Hrecs : th_recs t' = <[th_next t := ThRec (Z.of_nat (length key)) (Z.of_nat (length val)) (key ++ val)]> (th_recs t).
Hypothesis Hbuckets : forall i, 0 <= i < th_cap t -> bucket t' i = bucket (set_bucket t b (HtEntry hc (th_next t))) i.
Hypothesis Haddr : addressable t' (th_cap t).
Hypothesis Hlen : length (th_buckets t') = 32%nat.

Lemma th_linked_kv_new : th_kv t' (th_next t) = Some (key, val).
Proof using Hrecs.
  unfold th_kv. rewrite Hrecs, lookup_insert_eq. cbn. rewrite !Nat2Z.id, take_app_length, drop_app_length.
  by rewrite take_ge by apply Nat.le_refl.
Qed.

Lemma th_linked_kv_old e : e ∈ entries t (th_cap t) -> e_rec e <> th_next t /\ th_kv t' (e_rec e) = th_kv t (e_rec e).
Proof using Hrep Hrecs.
  intros He. destruct (keyed_live _ _ _ _ (th_rep_keyed _ _ Hrep) e He) as (k & v & E & _).
  assert (e_rec e <> th_next t) as Hne.
  { unfold th_kv in E. destruct (th_recs t !! e_rec e) as [r|] eqn:Er; [|done].
    pose proof (th_rep_sizes _ _ Hrep _ _ Er) as Hs. clear - Hs. lia. }
  split; [done|]. unfold th_kv. rewrite Hrecs, lookup_insert_ne; congruence.
Qed.

Lemma th_linked_rep m' :
  keyed (set_bucket t b (HtEntry hc (th_next t))) (th_cap t) (th_kv t') m' ->
  th_size t' = Z.of_nat (length (entries (set_bucket t b (HtEntry hc (th_next t))) (th_cap t))) ->
  2 * th_size t' <= th_cap t -> th_rep t' m'.
Proof.
  intros Hk Hs Hl. assert (th_cap t' = th_cap t) as Hc by (unfold th_cap; lia).
  assert (entries t' (th_cap t) = entries (set_bucket t b (HtEntry hc (th_next t))) (th_cap t)) as He
    by (by apply entries_ext).
  pose proof (th_rep_next _ _ Hrep) as Hn.
  split; rewrite ?Hc; auto.
  - apply Hrep.
  - eapply keyed_perm; [exact Hk| |by rewrite He]. eapply reach_ext; [exact Hbuckets|]. apply Hk.
  - by rewrite He.
  - rewrite Hnext, Hrecs. intros rec r [[<- <-]|[Hne Hr]]%lookup_insert_Some.
    + cbn. rewrite length_app. lia.
    + pose proof (th_rep_sizes _ _ Hrep _ _ Hr). lia.
  - lia.
Qed.

End Linked.

Lemma th_double_set t b e1 e2 i :
  addressable t (th_cap t) -> 0 <= b < th_cap t -> 0 <= i < th_cap t ->
  bucket (set_bucket (set_bucket t b e1) b e2) i = bucket (set_bucket t b e2) i.
Proof.
  intros Ha Hb Hi. assert (Ha1 : addressable (set_bucket t b e1) (th_cap t)) by (by apply addressable_set).
  destruct (Z.eq_dec i b) as [->|Hne].
  - by rewrite !(bucket_set_eq _ (th_cap t)) by auto.
  - by rewrite !(bucket_set_ne _ (th_cap t)) by auto.
Qed.

Lemma th_insert_new_rep t m b key val :
  th_rep t m -> bytes_fit key val -> m !! key = None -> 2 * th_size t < th_cap t ->
  first_hole t (th_cap t) (Z.land (hashcode key) (th_cap t - 1)) b ->
  exists t' rec, th_insert_new t b (hashcode key) key val = (t', rec) /\ rec <> 0
    /\ th_kv t' rec = Some (key, val) /\ th_rep t' (<[key := val]> m) /\ th_cap t' = th_cap t
    /\ th_size t' = th_size t + 1.
Proof.
  intros Hrep Hfit Hm Hload Hh. pose proof Hh as (Hb & Hf & _). destruct (th_is_cap _ _ Hrep) as (Hc & _ & Hcb).
  pose proof (th_rep_addr _ _ Hrep) as Ha. pose proof (th_rep_next _ _ Hrep) as Hn.
  pose proof (th_rep_size _ _ Hrep) as Hsz. destruct Hfit as [Hf1 Hf2].
  unfold th_insert_new, _thashtable_new_rec. cbv zeta.
  set (t0 := set_bucket t b (HtEntry (hashcode key) (e_rec (bucket t b)))).
  change (bucket (th_with_size t0 _) b) with (bucket t0 b).
  assert (bucket t0 b = HtEntry (hashcode key) (e_rec (bucket t b))) as -> by (by apply (bucket_set_eq t (th_cap t))).
  cbn [e_hashcode]. change (th_size t0) with (th_size t). rewrite !u32_small by lia. eexists _, (th_next t). split; [done|].
  set (t' := th_with_recs _ _ _). split; [lia|].
  assert (Hbk : forall i, 0 <= i < th_cap t -> bucket t' i = bucket (set_bucket t b (HtEntry (hashcode key) (th_next t))) i).
  { intros i Hi. apply (th_double_set t b (HtEntry (hashcode key) (e_rec (bucket t b)))); auto. }
  assert (Hkv : th_kv t' (th_next t) = Some (key, val)) by (apply (th_linked_kv_new t key val t'); reflexivity).
  destruct (keyed_fill t (th_cap t) (th_kv t) (th_kv t') m key val b (th_next t)) as [Hk He]; auto; try lia.
  { apply Hrep. }
  { intros e He. by eapply (th_linked_kv_old t m key val t' Hrep). }
  { intros e He. by eapply (th_linked_kv_old t m key val t' Hrep). }
  split; [done|]. split; [|done].
  apply (th_linked_rep t m b (hashcode key) key val t'); auto.
  - change (addressable (set_bucket t0 b (HtEntry (hashcode key) (th_next t))) (th_cap t)).
    unfold t0. by repeat apply addressable_set.
  - cbn. unfold vector_set. rewrite !length_alter. apply Hrep.
  - rewrite He. cbn. lia.
  - cbn. destruct (th_rep_cap _ _ Hrep) as (k & Hk' & Hcap). rewrite Hcap in *.
    replace k with (1 + (k - 1)) in * by lia. rewrite Z.pow_add_r in * by lia. lia.
Qed.

Lemma th_replace_rep t m b key old val :
  th_rep t m -> bytes_fit key val -> 0 <= b < th_cap t -> occ t b ->
  th_kv t (e_rec (bucket t b)) = Some (key, old) ->
  exists t' rec, _thashtable_new_rec t b key val = (t', rec) /\ rec <> 0
    /\ th_kv t' rec = Some (key, val) /\ th_rep t' (<[key := val]> m) /\ th_cap t' = th_cap t
    /\ th_size t' = th_size t.
Proof.
  intros Hrep [Hf1 Hf2] Hb Ho Hold. destruct (th_is_cap _ _ Hrep) as (Hc & _ & Hcb).
  pose proof (th_rep_addr _ _ Hrep) as Ha. pose proof (th_rep_next _ _ Hrep) as Hn.
  unfold _thashtable_new_rec. cbv zeta. rewrite !u32_small by lia.
  eexists _, (th_next t). split; [done|]. set (t' := th_with_recs _ _ _). split; [lia|].
  assert (Hkv : th_kv t' (th_next t) = Some (key, val)) by (apply (th_linked_kv_new t key val t'); reflexivity).
  destruct (keyed_replace t (th_cap t) (th_kv t) (th_kv t') m key old val b (th_next t)) as [Hk He]; auto; try lia.
  { apply Hrep. }
  { intros e He _. by eapply (th_linked_kv_old t m key val t' Hrep). }
  split; [done|]. split; [|done].
  apply (th_linked_rep t m b (e_hashcode (bucket t b)) key val t'); auto.
  - change (addressable (set_bucket t b (HtEntry (e_hashcode (bucket t b)) (th_next t))) (th_cap t)).
    by apply addressable_set.
  - cbn. unfold vector_set. rewrite !length_alter. apply Hrep.
  - rewrite He. apply Hrep.
  - apply Hrep.
Qed.

Lemma th_half_full t m : th_rep t m -> (th_size t >? Z.shiftr (th_mask t) 1) = (th_cap t <=? 2 * th_size t).
Proof.
  intros Hrep. destruct (th_rep_cap _ _ Hrep) as (k & Hk & Hcap).
  assert (Hm : Z.shiftr (th_mask t) 1 = 2 ^ (k - 1) - 1).
  { rewrite Z.shiftr_div_pow2 by lia. replace (th_mask t) with (2 ^ k - 1) by (unfold th_cap in Hcap; lia).
    replace k with ((k - 1) + 1) at 1 by lia. rewrite Z.pow_add_r by lia.
    change (2 ^ 1) with 2. symmetry. apply (Z.div_unique _ _ _ 1); lia. }
  assert (th_cap t = 2 * 2 ^ (k - 1)).
  { rewrite Hcap. replace k with (1 + (k - 1)) at 1 by lia. rewrite Z.pow_add_r by lia. lia. }
  rewrite Hm, Z.gtb_ltb. destruct (Z.leb_spec (th_cap t) (2 * th_size t)), (Z.ltb_spec (2 ^ (k - 1) - 1) (th_size t)); lia.
Qed.

Lemma th_check_resize_rep t m :
  th_rep t m -> th_size t < 2 ^ 28 ->
  exists t', _thashtable_check_resize t = Some t' /\ th_rep t' m /\ 2 * th_size t' < th_cap t'
    /\ th_size t' = th_size t /\ th_recs t' = th_recs t.
Proof.
  intros Hrep Hmax. unfold _thashtable_check_resize. rewrite (th_half_full t m) by done.
  destruct (Z.leb_spec (th_cap t) (2 * th_size t)) as [Hfull|Hok]; [|eauto 10].
  destruct (th_grow_rep t m Hrep ltac:(lia)) as (t' & E & Hrep' & Hc & Hs & Hr).
  pose proof (th_rep_load _ _ Hrep). destruct (th_is_cap _ _ Hrep) as (_ & _ & ?).
  exists t'. split; [done|]. split; [done|]. split; [lia|]. done.
Qed.

Lemma th_insert_rep t m key val :
  th_rep t m -> th_size t < 2 ^ 28 -> bytes_fit key val ->
  exists t' rec, thashtable_insert t key val
      = Some (t', rec, match m !! key with Some _ => false | None => true end)
    /\ rec <> 0 /\ th_size t' <= th_size t + 1
    /\ match m !! key with
       | Some v => th_kv t' rec = Some (key, v) /\ th_rep t' m
       | None => th_kv t' rec = Some (key, val) /\ th_rep t' (<[key := val]> m)
       end.
Proof.
  intros Hrep Hmax Hfit. destruct (th_check_resize_rep t m Hrep Hmax) as (t1 & E & Hrep1 & Hload & Hs & _).
  unfold thashtable_insert. rewrite E. cbv zeta.
  destruct (th_find_spec t1 m key Hrep1) as (b & -> & Hb & [(Ho & v & Hkv & Hm)|(Hm & Hh)]).
  - rewrite (proj2 (is_free_false _) Ho), Hm. eexists t1, _. split; [done|]. split; [exact Ho|]. split; [lia|done].
  - pose proof Hh as (_ & Hf & _). assert (is_free (bucket t1 b) = true) as ->.
    { apply is_free_true. destruct (decide (e_rec (bucket t1 b) = 0)); [done|by destruct Hf]. }
    destruct (th_insert_new_rep t1 m b key val) as (t' & rec & -> & Hne & Hkv & Hrep' & _ & Hs'); auto.
    rewrite Hm. exists t', rec. split; [done|]. split; [done|]. split; [lia|done].
Qed.

Lemma th_put_rep t m key val :
  th_rep t m -> th_size t < 2 ^ 28 -> bytes_fit key val ->
  exists t' rec, thashtable_put t key val = Some (t', rec) /\ rec <> 0 /\ th_size t' <= th_size t + 1
    /\ th_kv t' rec = Some (key, val) /\ th_rep t' (<[key := val]> m).
Proof.
  intros Hrep Hmax Hfit. destruct (th_check_resize_rep t m Hrep Hmax) as (t1 & E & Hrep1 & Hload & Hs & _).
  unfold thashtable_put. rewrite E. cbv zeta.
  destruct (th_find_spec t1 m key Hrep1) as (b & -> & Hb & [(Ho & v & Hkv & Hm)|(Hm & Hh)]).
  - rewrite (proj2 (is_free_false _) Ho).
    destruct (th_replace_rep t1 m b key v val) as (t' & rec & -> & Hne & Hkv' & Hrep' & _ & Hs'); auto.
    exists t', rec. split; [done|]. split; [done|]. split; [lia|done].
  - pose proof Hh as (_ & Hf & _). assert (is_free (bucket t1 b) = true) as ->.
    { apply is_free_true. destruct (decide (e_rec (bucket t1 b) = 0)); [done|by destruct Hf]. }
    destruct (th_insert_new_rep t1 m b key val) as (t' & rec & -> & Hne & Hkv & Hrep' & _ & Hs'); auto.
    exists t', rec. split; [done|]. split; [done|]. split; [lia|done].
Qed.

(** ** Removing *)

Lemma th_remove_rep t m key :
  th_rep t m ->
  exists t' rec, thashtable_remove t key = Some (t', rec) /\ th_rep t' (delete key m)
    /\ th_size t' <= th_size t
    /\ match m !! key with Some v => rec <> 0 /\ th_kv t rec = Some (key, v) | None => rec = 0 end.
Proof.
  intros Hrep. unfold thashtable_remove. destruct (th_is_cap _ _ Hrep) as (Hc & _ & Hcb).
  destruct (th_find_spec t m key Hrep) as (b & -> & Hb & [(Ho & v & Hkv & Hm)|(Hm & Hh)]).
  2:{ pose proof Hh as (_ & Hf & _). assert (is_free (bucket t b) = true) as ->.
      { apply is_free_true. destruct (decide (e_rec (bucket t b) = 0)); [done|by destruct Hf]. }
      exists t, 0. rewrite Hm, delete_id by done. split; [done|]. split; [done|]. split; [lia|done]. }
  rewrite (proj2 (is_free_false _) Ho), Hm. cbv zeta.
  set (s := th_with_size t (u32 (th_size t - 1))).
  change (th_with_size (set_bucket t b _) _) with (set_bucket s b (HtEntry (e_hashcode (bucket s b)) 0)).
  change (th_mask (set_bucket s b _)) with (th_mask t).
  replace (th_mask t) with (th_cap t - 1) by (unfold th_cap; lia).
  destruct (keyed_remove s (th_cap t) (th_kv t) m key v b) as (t' & -> & Hu & Hk & He); auto.
  { exact (th_rep_addr _ _ Hrep). }
  { apply (keyed_perm t s (th_cap t)); [apply Hrep|exact (keyed_reach _ _ _ _ (th_rep_keyed _ _ Hrep))|done]. }
  { exact (th_free_bucket _ _ Hrep). }
  destruct (th_updates_fields _ _ _ Hu) as (E1 & E2 & E3 & E4 & E5).
  change (entries s (th_cap t)) with (entries t (th_cap t)) in He.
  pose proof (th_rep_size _ _ Hrep) as Hsz. rewrite He in Hsz. cbn in Hsz. pose proof (th_rep_load _ _ Hrep) as Hl.
  assert (th_size t' = th_size t - 1) as Hs' by (rewrite E2; cbn; apply u32_small; lia).
  assert (th_cap t' = th_cap t) as Hc' by (unfold th_cap; rewrite E1; done).
  exists t', (e_rec (bucket t b)). split; [done|]. split; [|split; [lia|by split]].
  split; rewrite ?Hc'; auto; try (rewrite ?E3, ?E4, ?E5; apply Hrep); try lia.
  - apply (updates_addressable _ _ _ _ Hu). exact (th_rep_addr _ _ Hrep).
  - replace (th_kv t') with (th_kv t); [done|]. unfold th_kv. rewrite E3. done.
Qed.

(** ** Creation *)

Lemma th_create_rep : th_rep thashtable_create ∅.
Proof.
  assert (Hv : forall b, 0 <= b < 32 -> vector_get (th_buckets thashtable_create) (_thashtable_bucket b) = Some free_entry).
  { intros b Hb. unfold _thashtable_bucket, THASHTABLE_INITIAL_SIZE. destruct (Z.ltb_spec b 32); [|lia].
    unfold vector_get. cbn [fst snd]. change (th_buckets thashtable_create !! Z.to_nat 0) with (Some (calloc_entries 32)).
    cbn [mbind option_bind]. unfold calloc_entries. apply lookup_replicate. split; [done|lia]. }
  assert (Hfree : forall i, 0 <= i < 32 -> ~ occ thashtable_create i).
  { intros i Hi. unfold occ, bucket. cbn [thashtable_buckets]. rewrite Hv by done. cbn. tauto. }
  assert (Hents : entries thashtable_create 32 = []).
  { destruct (entries thashtable_create 32) as [|e l] eqn:E; [done|]. exfalso.
    assert (e ∈ entries thashtable_create 32) as He by (rewrite E; by left).
    apply elem_of_entries in He as (i & Hi & Ho & _). by apply (Hfree i). }
  split; change (th_cap thashtable_create) with 32; rewrite ?Hents.
  - exists 5. split; [lia|done].
  - done.
  - intros b Hb. rewrite Hv by done. eauto.
  - split; rewrite ?Hents; try (intros; by set_solver).
    + intros i j Hi _ Ho _. by destruct (Hfree i Hi).
    + constructor.
  - done.
  - done.
  - intros rec r Hr. change (th_recs thashtable_create) with (∅ : gmap Z thashtable_internal_rec) in Hr.
    by rewrite lookup_empty in Hr.
  - done.
Qed.

(** ** Sequences of operations *)

Inductive th_op :=
| ThLookup (key : list Z)
| ThInsert (key val : list Z)
| ThPut (key val : list Z)
| ThRemove (key : list Z).

(** The value of the returned record, and for [thashtable_insert] its flag. *)
Inductive th_output :=
| ThValue (v : option (list Z))
| ThInserted (v : option (list Z)) (inserted : bool)
| ThRemoved (found : bool).

Definition th_value_at (t : thashtable) (rec : Z) : option (list Z) :=
  if rec =? 0 then None else Some (thashtable_get_val t rec).

Definition th_run_op (t : thashtable) (x : th_op) : option (thashtable * th_output) :=
  match x with
  | ThLookup key =>
      rec ← thashtable_lookup t key; Some (t, ThValue (th_value_at t rec))
  | ThInsert key val =>
      '(t, rec, ins) ← thashtable_insert t key val; Some (t, ThInserted (th_value_at t rec) ins)
  | ThPut key val =>
      '(t, rec) ← thashtable_put t key val; Some (t, ThValue (th_value_at t rec))
  | ThRemove key =>
      '(t, rec) ← thashtable_remove t key; Some (t, ThRemoved (negb (rec =? 0)))
  end.

Fixpoint th_run (t : thashtable) (l : list th_op) : option (thashtable * list th_output) :=
  match l with
  | [] => Some (t, [])
  | x :: l => '(t, y) ← th_run_op t x; '(t, ys) ← th_run t l; Some (t, y :: ys)
  end.

Definition th_spec_op (m : kvmap) (x : th_op) : kvmap * th_output :=
  match x with
  | ThLookup key => (m, ThValue (m !! key))
  | ThInsert key val =>
      match m !! key with
      | Some v => (m, ThInserted (Some v) false)
      | None => (<[key := val]> m, ThInserted (Some val) true)
      end
  | ThPut key val => (<[key := val]> m, ThValue (Some val))
  | ThRemove key => (delete key m, ThRemoved (bool_decide (is_Some (m !! key))))
  end.

Fixpoint th_spec (m : kvmap) (l : list th_op) : kvmap * list th_output :=
  match l with
  | [] => (m, [])
  | x :: l => let (m, y) := th_spec_op m x in let (m, ys) := th_spec m l in (m, y :: ys)
  end.

Definition th_op_fits (x : th_op) : Prop :=
  match x with
  | ThInsert key val | ThPut key val => bytes_fit key val
  | _ => True
  end.

#[export] Instance th_op_fits_dec x : Decision (th_op_fits x).
Proof. destruct x; cbn; unfold bytes_fit; apply _. Defined.

Lemma th_value_at_kv t rec key val : rec <> 0 -> th_kv t rec = Some (key, val) -> th_value_at t rec = Some val.
Proof.
  intros Hne Hkv. unfold th_value_at. destruct (Z.eqb_spec rec 0); [done|].
  by destruct (th_kv_get _ _ _ _ Hkv) as [_ ->].
Qed.

Lemma th_run_op_sim t m x :
  th_rep t m -> th_size t < 2 ^ 28 -> th_op_fits x ->
  exists t', th_run_op t x = Some (t', snd (th_spec_op m x)) /\ th_rep t' (fst (th_spec_op m x))
    /\ th_size t' <= th_size t + 1.
Proof.
  intros Hrep Hmax Hfit. destruct x as [key|key val|key val|key]; cbn [th_run_op th_spec_op fst snd].
  - destruct (th_lookup_rep t m key Hrep) as (rec & -> & Hr). exists t. split; [|split; [done|lia]].
    cbn. unfold th_value_at. destruct (m !! key); [destruct Hr as (? & _ & ->)|subst; done].
    by destruct (Z.eqb_spec rec 0).
  - destruct (th_insert_rep t m key val Hrep Hmax Hfit) as (t' & rec & -> & Hne & Hs & Hcase). exists t'.
    destruct (m !! key); destruct Hcase as [Hkv Hrep']; cbn; by rewrite (th_value_at_kv _ _ _ _ Hne Hkv).
  - destruct (th_put_rep t m key val Hrep Hmax Hfit) as (t' & rec & -> & Hne & Hs & Hkv & Hrep'). exists t'.
    cbn. by rewrite (th_value_at_kv _ _ _ _ Hne Hkv).
  - destruct (th_remove_rep t m key Hrep) as (t' & rec & -> & Hrep' & Hs & Hcase). exists t'. cbn.
    split; [|split; [done|lia]]. do 3 f_equal. destruct (m !! key) as [v|].
    + rewrite bool_decide_eq_true_2 by eauto. by destruct (Z.eqb_spec rec 0); [destruct Hcase|].
    + rewrite bool_decide_eq_false_2 by (intros [? ?]; congruence). by subst rec.
Qed.

Lemma th_run_sim l : forall t m,
  th_rep t m -> th_size t + Z.of_nat (length l) <= 2 ^ 28 -> Forall th_op_fits l ->
  exists t', th_run t l = Some (t', snd (th_spec m l)) /\ th_rep t' (fst (th_spec m l)).
Proof.
  induction l as [|x l IH]; intros t m Hrep Hlen Hfit; [by exists t|].
  apply Forall_cons in Hfit as [Hx Hl]. cbn [length] in Hlen. cbn [th_run th_spec].
  destruct (th_run_op_sim t m x Hrep ltac:(lia) Hx) as (t1 & -> & Hrep1 & Hs).
  destruct (th_spec_op m x) as [m1 y]. cbn [fst snd] in Hrep1. cbn [mbind option_bind].
  destruct (IH t1 m1 Hrep1 ltac:(lia) Hl) as (t' & -> & Hrep'). destruct (th_spec m1 l) as [m2 ys]. cbn. eauto.
Qed.

(** C3: any sequence of up to 2^28 calls of [thashtable_lookup], [thashtable_insert],
    [thashtable_put] and [thashtable_remove] on a table made by [thashtable_create], with
    keys and values shorter than 2^32 bytes, runs to its end and returns exactly what the same operations on a finite map return. *)
Theorem thashtable_refines_map (l : list th_op)
  (Hlen : Z.of_nat (length l) <= 2 ^ 28) (Hfit : Forall th_op_fits l) :
  exists t', th_run thashtable_create l = Some (t', snd (th_spec ∅ l)) /\ th_rep t' (fst (th_spec ∅ l)).
Proof. apply th_run_sim; [apply th_create_rep|exact Hlen|exact Hfit]. Qed.

Definition th_demo : list th_op :=
  [ThInsert [97] [1]; ThInsert [97] [2]; ThPut [97] [3; 4]; ThLookup [97]; ThRemove [97]; ThLookup [97]].

Lemma thashtable_refines_map_witness :
  exists t', th_run thashtable_create th_demo
    = Some (t', [ThInserted (Some [1]) true; ThInserted (Some [1]) false; ThValue (Some [3; 4]);
                 ThValue (Some [3; 4]); ThRemoved true; ThValue None]).
Proof.
  destruct (thashtable_refines_map th_demo) as (t' & Hrun & _); [cbn; lia| |exists t'; exact Hrun].
  repeat (apply Forall_cons; split; [cbn; unfold bytes_fit; cbn; auto; lia|]). apply Forall_nil. exact I.
Defined.
