(* ===== verification/Lhashtable.v ===== *)
(** * Lhashtable: the persistent hash table in a file
    ([include/lhashtable.h], [src/lhashtable.c], [src/_lhashtable.c])

    The file holds a header, 256 sub-tables chosen by the hash code, the bucket vectors of the
    sub-tables and blocks of one megabyte for records; all of them are allocated one behind
    the other at [write_loc].  A bucket refers to its record by a 32-bit word, 15 bits of block
    number and 17 bits of offset in the block in units of eight bytes.  Freed records are on
    free lists by size.  The mapping of the file is a typed store: header, sub-tables with
    their bucket vectors, and the records by absolute offset.  [None] is an access outside of
    the allocated memory, which is also where an unchecked failure to allocate leads. *)

From stdpp Require Import base numbers list gmap.
From Stdlib Require Import ZArith Lia.
From S2P Require Import Prelude Words Os Probe ProbeFacts.

Definition LHT_FLAG_FIN : Z := 0x01.
Definition LHT_NUM_SUB_TABLES : Z := 256.
Definition LHT_FREELIST_COUNT : Z := 8192.
Definition LHT_BLOCK_SIZE_BITS : Z := 20.
Definition LHT_BLOCK_SIZE : Z := 2 ^ 20.
Definition LHT_ALLOC_ALIGN_BITS : Z := 3.
Definition LHT_ALLOC_ALIGN : Z := 8.
Definition LHT_SUB_TABLE_MIN_BITS : Z := 3.
Definition LHT_SUB_TABLE_INITIAL_SIZE : Z := 8.
Definition LHT_SUB_TABLE_HASH (h : Z) : Z := Z.land (Z.lxor h (Z.shiftr h 8)) (LHT_NUM_SUB_TABLES - 1).
Definition LHT_VERSION : Z := 1.
Definition LHT_SIGNATURE : list Z := [82; 73; 66; 83; 95; 76; 72; 0].   (* "RIBS_LH" *)

(** [_LHT_ALIGN_P2] on a [size_t]. *)
Definition _LHT_ALIGN_P2 (x b : Z) : Z := Z.land (u64 (x + b - 1)) (u64 (Z.lnot (b - 1))).
Definition LHT_X_ALIGN (x : Z) : Z := _LHT_ALIGN_P2 x LHT_ALLOC_ALIGN.

(** Sizes of the structures. *)
Definition sizeof_lht_header : Z := 2088.
Definition sizeof_lht_table : Z := 33016.
Definition sizeof_lht_record : Z := 4.
Definition sizeof_lht_bucket : Z := 8.

(** ** Data *)

(** [union lhashtable_data_ofs]: the word, and its two bit fields. *)
Definition data_ofs_make (ofs block : Z) : Z := Z.land ofs (2 ^ 17 - 1) + Z.shiftl (Z.land block (2 ^ 15 - 1)) 17.
Definition data_ofs_ofs (u : Z) : Z := Z.land u (2 ^ 17 - 1).
Definition data_ofs_block (u : Z) : Z := Z.land (Z.shiftr u 17) (2 ^ 15 - 1).

(** A record: the word of its two lengths, which in a free record is the next free one, and
    the bytes behind it. *)
Record lhashtable_record := LRec { lr_word : Z; lr_data : list Z }.
Definition lr_key_len (r : lhashtable_record) : Z := Z.land (lr_word r) (2 ^ 16 - 1).
Definition lr_val_len (r : lhashtable_record) : Z := Z.shiftr (lr_word r) 16.
Definition lens_word (key_len val_len : Z) : Z := u16 key_len + Z.shiftl (u16 val_len) 16.

Record lhashtable_table := LTable {
  lt_vectors : list (list ht_entry);        (* the memory at buckets_offsets *)
  lt_buckets_offsets : list Z;
  lt_mask : Z;
  lt_size : Z;
  lt_next_alloc : Z;
  lt_current_block : Z;
  lt_freelist : gmap Z Z;                   (* entries that are not there are 0 *)
  lt_data_start_ofs : gmap Z Z;
}.

Record lht_mem := LMem {
  lm_flags : Z;
  lm_write_loc : Z;
  lm_capacity : Z;
  lm_tables_offsets : list Z;
  lm_num_data_blocks : Z;
  lm_size : Z;
  lm_tables : list lhashtable_table;
  lm_recs : gmap Z lhashtable_record;
}.

(** [mem] is NULL, MAP_FAILED (or unmapped), or the shared mapping of a file. *)
Inductive lht_ptr := LNull | LBad | LMap (name : path).
Record lhashtable := Lhashtable { lh_mem : lht_ptr; lh_fd : Z }.
Definition LHASHTABLE_INITIALIZER : lhashtable := Lhashtable LNull (-1).

(** *** Field updates *)
Definition lm_with_tables m t := LMem (lm_flags m) (lm_write_loc m) (lm_capacity m) (lm_tables_offsets m) (lm_num_data_blocks m) (lm_size m) t (lm_recs m).
Definition lm_with_recs m r := LMem (lm_flags m) (lm_write_loc m) (lm_capacity m) (lm_tables_offsets m) (lm_num_data_blocks m) (lm_size m) (lm_tables m) r.
Definition lm_with_size m n := LMem (lm_flags m) (lm_write_loc m) (lm_capacity m) (lm_tables_offsets m) (lm_num_data_blocks m) n (lm_tables m) (lm_recs m).
Definition lm_with_loc m w c := LMem (lm_flags m) w c (lm_tables_offsets m) (lm_num_data_blocks m) (lm_size m) (lm_tables m) (lm_recs m).
Definition lm_with_flags m f := LMem f (lm_write_loc m) (lm_capacity m) (lm_tables_offsets m) (lm_num_data_blocks m) (lm_size m) (lm_tables m) (lm_recs m).
Definition lm_with_offsets m l := LMem (lm_flags m) (lm_write_loc m) (lm_capacity m) l (lm_num_data_blocks m) (lm_size m) (lm_tables m) (lm_recs m).

Definition lt_with_vectors t v o := LTable v o (lt_mask t) (lt_size t) (lt_next_alloc t) (lt_current_block t) (lt_freelist t) (lt_data_start_ofs t).
Definition lt_with_mask t m := LTable (lt_vectors t) (lt_buckets_offsets t) m (lt_size t) (lt_next_alloc t) (lt_current_block t) (lt_freelist t) (lt_data_start_ofs t).
Definition lt_with_size t n := LTable (lt_vectors t) (lt_buckets_offsets t) (lt_mask t) n (lt_next_alloc t) (lt_current_block t) (lt_freelist t) (lt_data_start_ofs t).
Definition lt_with_alloc t a c d := LTable (lt_vectors t) (lt_buckets_offsets t) (lt_mask t) (lt_size t) a c (lt_freelist t) d.
Definition lt_with_freelist t f := LTable (lt_vectors t) (lt_buckets_offsets t) (lt_mask t) (lt_size t) (lt_next_alloc t) (lt_current_block t) f (lt_data_start_ofs t).

(** The sub-table [i] ([LHT_GET_SUB_TABLE]) and its update. *)
Definition sub_table (m : lht_mem) (i : Z) : option lhashtable_table := lm_tables m !! Z.to_nat i.
Definition set_sub_table (m : lht_mem) (i : Z) (t : lhashtable_table) : lht_mem := lm_with_tables m (<[Z.to_nat i := t]> (lm_tables m)).

(** ** Buckets *)

(** [_lhashtable_get_bucket_ofs]: the vector and the place in it; the offset is that of the
    vector plus eight times the place. *)
Definition lht_bucket_place (bucket : Z) : Z * Z :=
  if bucket <? LHT_SUB_TABLE_INITIAL_SIZE then (0, bucket)
  else let il2 := ilog2 bucket in (il2 - LHT_SUB_TABLE_MIN_BITS + 1, bucket - Z.shiftl 1 il2).

Definition _lhashtable_get_bucket_ofs (t : lhashtable_table) (bucket : Z) : Z :=
  let (v, i) := lht_bucket_place bucket in default 0 (lt_buckets_offsets t !! Z.to_nat v) + sizeof_lht_bucket * i.

#[export] Instance lhashtable_buckets : Buckets lhashtable_table := {
  bucket t b := default free_entry (vector_get (lt_vectors t) (lht_bucket_place b));
  set_bucket t b e := lt_with_vectors t (vector_set (lt_vectors t) (lht_bucket_place b) e) (lt_buckets_offsets t);
}.

(** ** Memory *)
Section Ops.
Context (o : os) (fd : Z).

Definition _lhashtable_resize_to (m : lht_mem) (new_capacity : Z) : lht_mem * Z :=
  let new_capacity := _LHT_ALIGN_P2 new_capacity LHT_BLOCK_SIZE in
  if negb (sys_ftruncate o fd new_capacity) then (m, -1) else
  if negb (sys_mremap o (lm_capacity m) new_capacity) then (m, -1) else
  (lm_with_loc m (lm_write_loc m) new_capacity, 0).

Definition _lhashtable_resize_check (m : lht_mem) (n : Z) : lht_mem * Z :=
  let ofs := lm_write_loc m in
  if u64 (lm_capacity m - ofs) <? n then _lhashtable_resize_to m (u64 (ofs + n)) else (m, 0).

(** [None] is the result -1. *)
Definition _lhashtable_alloc_ofs (m : lht_mem) (n : Z) : option (lht_mem * Z) :=
  let n := LHT_X_ALIGN n in
  let ofs := lm_write_loc m in
  let (m, r) := _lhashtable_resize_check m n in
  if r <? 0 then None else Some (lm_with_loc m (u64 (lm_write_loc m + n)) (lm_capacity m), ofs).

Definition _lhashtable_data_ofs_to_abs_ofs (t : lhashtable_table) (data_ofs : Z) : Z :=
  u64 (default 0 (lt_data_start_ofs t !! data_ofs_block data_ofs) + Z.shiftl (data_ofs_ofs data_ofs) LHT_ALLOC_ALIGN_BITS).

(** The index of the free list for [n] bytes; the array has [LHT_FREELIST_COUNT] elements. *)
Definition freelist_index (n : Z) : option Z :=
  let i := Z.shiftr (LHT_X_ALIGN n) LHT_ALLOC_ALIGN_BITS in if i <? LHT_FREELIST_COUNT then Some i else None.

Definition freelist_head (t : lhashtable_table) (i : Z) : Z := default 0 (lt_freelist t !! i).

(** The result is 0 and the word, or -1 (the inner [None]). *)
Definition _lhashtable_alloc_from_freelist (m : lht_mem) (i n : Z) : option (lht_mem * option Z) :=
  t ← sub_table m i;
  c ← freelist_index n;
  let d := freelist_head t c in
  if 0 =? d then Some (m, None) else
  r ← lm_recs m !! _lhashtable_data_ofs_to_abs_ofs t d;
  Some (set_sub_table m i (lt_with_freelist t (<[c := lr_word r]> (lt_freelist t))), Some d).

Definition _lhashtable_sub_alloc (m : lht_mem) (i n : Z) : option (lht_mem * Z) :=
  '(m, r) ← _lhashtable_alloc_from_freelist m i n;
  match r with
  | Some d => Some (m, d)
  | None =>
      let n := LHT_X_ALIGN n in
      t ← sub_table m i;
      m ← (if u32 (LHT_BLOCK_SIZE - lt_next_alloc t) <? n then
             '(m, ofs) ← _lhashtable_alloc_ofs m LHT_BLOCK_SIZE;
             let block := u16 (lt_current_block t + 1) in
             if block <=? lm_num_data_blocks m
             then Some (set_sub_table m i (lt_with_alloc t 0 block (<[block := ofs]> (lt_data_start_ofs t))))
             else None (* behind the array *)
           else Some m);
      t ← sub_table m i;
      let d := data_ofs_make (Z.shiftr (lt_next_alloc t) LHT_ALLOC_ALIGN_BITS) (lt_current_block t) in
      Some (set_sub_table m i (lt_with_alloc t (u32 (lt_next_alloc t + n)) (lt_current_block t) (lt_data_start_ofs t)), d)
  end.

Definition _lhashtable_add_to_freelist (m : lht_mem) (i rec_ofs data_ofs n : Z) : option lht_mem :=
  t ← sub_table m i;
  c ← freelist_index n;
  r ← lm_recs m !! rec_ofs;
  let m := lm_with_recs m (<[rec_ofs := LRec (freelist_head t c) (lr_data r)]> (lm_recs m)) in
  Some (set_sub_table m i (lt_with_freelist t (<[c := data_ofs]> (lt_freelist t)))).

(** A new vector of [capacity] buckets doubles the table; the memory at the end of the file is
    zero. *)
Definition _lhashtable_resize_table_if_needed (m : lht_mem) (i : Z) : option lht_mem :=
  t ← sub_table m i;
  let capacity := u32 (lt_mask t + 1) in
  if lt_size t <? Z.shiftr capacity 1 then Some m else
  '(m, new_vect_ofs) ← _lhashtable_alloc_ofs m (sizeof_lht_bucket * capacity);
  let v := Z.to_nat (ilog2 capacity - LHT_SUB_TABLE_MIN_BITS + 1) in
  let t := lt_with_vectors t (<[v := replicate (Z.to_nat capacity) free_entry]> (lt_vectors t)) (<[v := new_vect_ofs]> (lt_buckets_offsets t)) in
  let new_mask := u32 (u32 (Z.shiftl capacity 1) - 1) in
  t ← rehash true t capacity;
  Some (set_sub_table m i (lt_with_mask t new_mask)).

(** ** Operations *)

Definition lht_key_matches (m : lht_mem) (t : lhashtable_table) (h : Z) (key : list Z) (e : ht_entry) : bool :=
  (h =? e_hashcode e) &&
  match lm_recs m !! _lhashtable_data_ofs_to_abs_ofs t (e_rec e) with
  | None => false
  | Some r => (Z.of_nat (length key) =? lr_key_len r) && bool_decide (take (length key) (lr_data r) = key)
  end.

Definition lht_stop (m : lht_mem) (t : lhashtable_table) (h : Z) (key : list Z) (e : ht_entry) : bool :=
  is_free e || lht_key_matches m t h key e.

(** The search loop of all operations. *)
Definition lht_find (m : lht_mem) (t : lhashtable_table) (h : Z) (key : list Z) : option Z :=
  probe (lht_stop m t h key) (round (lt_mask t)) t (lt_mask t) (Z.land h (lt_mask t)).

(** A new key: record of [data] bytes with lengths for key and value, link, counts. *)
Definition lht_insert_new (m : lht_mem) (i b h : Z) (key : list Z) (val_len : Z) (val : list Z) : option (lht_mem * Z) :=
  let key_len := Z.of_nat (length key) in
  '(m, data_ofs) ← _lhashtable_sub_alloc m i (u64 (sizeof_lht_record + key_len + val_len));
  t ← sub_table m i;
  let t := set_bucket t b (HtEntry h data_ofs) in
  let rec_ofs := _lhashtable_data_ofs_to_abs_ofs t data_ofs in
  let t := lt_with_size t (u32 (lt_size t + 1)) in
  let m := lm_with_recs m (<[rec_ofs := LRec (lens_word key_len val_len) (key ++ val)]> (lm_recs m)) in
  Some (lm_with_size (set_sub_table m i t) (u32 (lm_size m + 1)), rec_ofs).

Definition rec_size (key_len val_len : Z) : Z := LHT_X_ALIGN (u64 (sizeof_lht_record + key_len + val_len)).

Definition lhashtable_put (m : lht_mem) (key val : list Z) : option (lht_mem * Z) :=
  let key_len := Z.of_nat (length key) in
  let val_len := Z.of_nat (length val) in
  let h := hashcode key in
  let i := LHT_SUB_TABLE_HASH h in
  m ← _lhashtable_resize_table_if_needed m i;
  t ← sub_table m i;
  b ← lht_find m t h key;
  let bkt := bucket t b in
  if is_free bkt then lht_insert_new m i b h key val_len val
  else
    let rec_ofs := _lhashtable_data_ofs_to_abs_ofs t (e_rec bkt) in
    r ← lm_recs m !! rec_ofs;
    let n := rec_size key_len val_len in
    let oldn := rec_size (lr_key_len r) (lr_val_len r) in
    if negb (n =? oldn) then
      '(m, data_ofs) ← _lhashtable_sub_alloc m i n;
      m ← _lhashtable_add_to_freelist m i rec_ofs (e_rec bkt) oldn;
      t ← sub_table m i;
      let t := set_bucket t b (HtEntry (e_hashcode bkt) data_ofs) in
      let rec_ofs := _lhashtable_data_ofs_to_abs_ofs t data_ofs in
      let m := lm_with_recs m (<[rec_ofs := LRec (lens_word key_len val_len) (key ++ val)]> (lm_recs m)) in
      Some (set_sub_table m i t, rec_ofs)
    else
      let data := take (length key) (lr_data r) ++ val ++ drop (length key + length val) (lr_data r) in
      Some (lm_with_recs m (<[rec_ofs := LRec (lens_word (lr_key_len r) val_len) data]> (lm_recs m)), rec_ofs).

(** The value is left to the caller: [junk] are the bytes that happen to be in the memory of a
    new record.  The flag is [*is_inserted]. *)
Definition lhashtable_put_key (m : lht_mem) (key : list Z) (val_len : Z) (junk : list Z) : option (lht_mem * Z * bool) :=
  let key_len := Z.of_nat (length key) in
  let h := hashcode key in
  let i := LHT_SUB_TABLE_HASH h in
  m ← _lhashtable_resize_table_if_needed m i;
  t ← sub_table m i;
  b ← lht_find m t h key;
  let bkt := bucket t b in
  if is_free bkt then
    '(m, rec_ofs) ← lht_insert_new m i b h key val_len junk; Some (m, rec_ofs, true)
  else
    let old_rec_ofs := _lhashtable_data_ofs_to_abs_ofs t (e_rec bkt) in
    r ← lm_recs m !! old_rec_ofs;
    let n := rec_size key_len val_len in
    let oldn := rec_size (lr_key_len r) (lr_val_len r) in
    if negb (n =? oldn) then
      '(m, data_ofs) ← _lhashtable_sub_alloc m i n;
      t ← sub_table m i;
      let rec_ofs := _lhashtable_data_ofs_to_abs_ofs t data_ofs in
      let kept := Z.min val_len (lr_val_len r) in
      let val := take (Z.to_nat kept) (drop (length key) (lr_data r)) ++ drop (Z.to_nat kept) junk in
      let m := lm_with_recs m (<[rec_ofs := LRec (lens_word key_len val_len) (key ++ val)]> (lm_recs m)) in
      m ← _lhashtable_add_to_freelist m i old_rec_ofs (e_rec bkt) oldn;
      t ← sub_table m i;
      let t := set_bucket t b (HtEntry (e_hashcode bkt) data_ofs) in
      Some (set_sub_table m i t, rec_ofs, false)
    else
      let data := lr_data r ++ drop (length (lr_data r) - length key) junk in
      Some (lm_with_recs m (<[old_rec_ofs := LRec (lens_word (lr_key_len r) val_len) data]> (lm_recs m)), old_rec_ofs, false).

Definition lhashtable_get (m : lht_mem) (key : list Z) : option Z :=
  let h := hashcode key in
  t ← sub_table m (LHT_SUB_TABLE_HASH h);
  b ← lht_find m t h key;
  let bkt := bucket t b in
  Some (if is_free bkt then 0 else _lhashtable_data_ofs_to_abs_ofs t (e_rec bkt)).

Definition lhashtable_del (m : lht_mem) (key : list Z) : option (lht_mem * Z) :=
  let h := hashcode key in
  let i := LHT_SUB_TABLE_HASH h in
  t ← sub_table m i;
  b ← lht_find m t h key;
  let bkt := bucket t b in
  if is_free bkt then Some (m, -1)
  else
    let rec_ofs := _lhashtable_data_ofs_to_abs_ofs t (e_rec bkt) in
    r ← lm_recs m !! rec_ofs;
    m ← _lhashtable_add_to_freelist m i rec_ofs (e_rec bkt) (u64 (sizeof_lht_record + Z.of_nat (length key) + lr_val_len r));
    t ← sub_table m i;
    let mask := lt_mask t in
    let t := set_bucket t b (HtEntry (e_hashcode bkt) 0) in
    let t := lt_with_size t (u32 (lt_size t - 1)) in
    t ← fix_chain_down (round mask) t mask (next_bucket mask b);
    Some (lm_with_size (set_sub_table m i t) (u32 (lm_size m - 1)), 0).

Definition lhashtable_size (m : lht_mem) : Z := lm_size m.
Definition lhashtable_writeloc (m : lht_mem) : Z := lm_write_loc m.

(** *** Records by absolute offset *)
Definition lht_rec_at (m : lht_mem) (rec_ofs : Z) : lhashtable_record := default (LRec 0 []) (lm_recs m !! rec_ofs).
Definition lhashtable_get_key_len (m : lht_mem) (rec_ofs : Z) : Z := lr_key_len (lht_rec_at m rec_ofs).
Definition lhashtable_get_val_len (m : lht_mem) (rec_ofs : Z) : Z := lr_val_len (lht_rec_at m rec_ofs).
(** The bytes behind the returned pointers, for the lengths of the record. *)
Definition lhashtable_get_key (m : lht_mem) (rec_ofs : Z) : list Z :=
  take (Z.to_nat (lhashtable_get_key_len m rec_ofs)) (lr_data (lht_rec_at m rec_ofs)).
Definition lhashtable_get_val (m : lht_mem) (rec_ofs : Z) : list Z :=
  take (Z.to_nat (lhashtable_get_val_len m rec_ofs)) (drop (Z.to_nat (lhashtable_get_key_len m rec_ofs)) (lr_data (lht_rec_at m rec_ofs))).

(** Strings are stored with the terminator of the value. *)
Definition lhashtable_put_str (m : lht_mem) (key val : list Z) : option (lht_mem * Z) := lhashtable_put m key (val ++ [0]).
Definition lhashtable_get_str (m : lht_mem) (key : list Z) : option (option (list Z)) :=
  rec_ofs ← lhashtable_get m key; Some (if 0 =? rec_ofs then None else Some (lhashtable_get_val m rec_ofs)).
Definition lhashtable_del_str (m : lht_mem) (key : list Z) : option (lht_mem * Z) := lhashtable_del m key.

(** *** Traversal: the records passed to the callback, and the result *)
Fixpoint foreach_cells (callback : Z -> Z) (t : lhashtable_table) (cells : list ht_entry) : list Z * Z :=
  match cells with
  | [] => ([], 0)
  | e :: cells =>
      if 0 <? e_rec e then
        let ofs := _lhashtable_data_ofs_to_abs_ofs t (e_rec e) in
        let res := callback ofs in
        if res <? 0 then ([ofs], res) else let (l, r) := foreach_cells callback t cells in (ofs :: l, r)
      else foreach_cells callback t cells
  end.

Fixpoint foreach_vectors (callback : Z -> Z) (t : lhashtable_table) (vs : list (list ht_entry)) : list Z * Z :=
  match vs with
  | [] => ([], 0)
  | v :: vs =>
      let (l, r) := foreach_cells callback t v in
      if r <? 0 then (l, r) else let (l', r) := foreach_vectors callback t vs in (l ++ l', r)
  end.

Definition _lhashtable_subtable_foreach (callback : Z -> Z) (t : lhashtable_table) : list Z * Z :=
  let num_slots := ilog2 (u32 (lt_mask t + 1)) - LHT_SUB_TABLE_MIN_BITS + 1 in
  foreach_vectors callback t (take (Z.to_nat num_slots) (lt_vectors t)).

Fixpoint foreach_tables (callback : Z -> Z) (ts : list lhashtable_table) : list Z * Z :=
  match ts with
  | [] => ([], 0)
  | t :: ts =>
      let (l, r) := _lhashtable_subtable_foreach callback t in
      if r <? 0 then (l, r) else let (l', r) := foreach_tables callback ts in (l ++ l', r)
  end.

Definition lhashtable_foreach (m : lht_mem) (callback : Z -> Z) : list Z * Z := foreach_tables callback (lm_tables m).
End Ops.

(** ** Files

    A file is one this library wrote, or other bytes. *)
Inductive lht_file := LhtFile (m : lht_mem) | RawFile (bytes : list Z).
Abbreviation lht_files := (gmap path lht_file).

Definition lht_file_size (f : lht_file) : Z := match f with LhtFile m => lm_capacity m | RawFile l => Z.of_nat (length l) end.

Section Open.
Context (o : os).

(** One round of the loop over the sub-tables. *)
Definition lht_init_table (fd : Z) (m : lht_mem) : option lht_mem :=
  '(m, sub_table_ofs) ← _lhashtable_alloc_ofs o fd m (sizeof_lht_table + 8 * (lm_num_data_blocks m + 1));
  let m := lm_with_offsets m (lm_tables_offsets m ++ [sub_table_ofs]) in
  '(m, vect) ← _lhashtable_alloc_ofs o fd m (sizeof_lht_bucket * LHT_SUB_TABLE_INITIAL_SIZE);
  let t := LTable (<[O := replicate (Z.to_nat LHT_SUB_TABLE_INITIAL_SIZE) free_entry]> (replicate 29 []))
                  (<[O := vect]> (replicate 29 0)) (LHT_SUB_TABLE_INITIAL_SIZE - 1) 0 LHT_BLOCK_SIZE 0 ∅ ∅ in
  Some (lm_with_tables m (lm_tables m ++ [t])).

Fixpoint lht_init_tables (n : nat) (fd : Z) (m : lht_mem) : option lht_mem :=
  match n with
  | O => Some m
  | S n => m ← lht_init_table fd m; lht_init_tables n fd m
  end.

(** The part of [lhashtable_init] after the new file is mapped. *)
Definition lht_new (fd size : Z) : option lht_mem :=
  let m := LMem 0 0 size [] 4096 0 [] ∅ in
  '(m, _) ← _lhashtable_alloc_ofs o fd m sizeof_lht_header;
  lht_init_tables (Z.to_nat LHT_NUM_SUB_TABLES) fd m.

(** The file is marked as cleanly closed. *)
Definition lhashtable_close (fs : lht_files) (lht : lhashtable) : option (lht_files * lhashtable * Z) :=
  if lh_fd lht <? 0 then Some (fs, lht, 0) else
  match lh_mem lht with
  | LMap name =>
      match fs !! name with
      | Some (LhtFile m) => Some (<[name := LhtFile (lm_with_flags m (Z.lor (lm_flags m) LHT_FLAG_FIN))]> fs, Lhashtable LNull (-1), 0)
      | _ => None
      end
  | _ => None
  end.

Definition lhashtable_init (fs : lht_files) (filename : path) (lht : lhashtable) : option (lht_files * lhashtable * Z) :=
  '(fs, lht, _) ← lhashtable_close fs lht;
  match fs !! filename with
  | Some f =>
      if lht_file_size f <? sizeof_lht_header then Some (fs, lht, -1) else
      let fd := sys_open o filename 2 in
      if fd <? 0 then Some (fs, Lhashtable (lh_mem lht) fd, -1) else
      if negb (sys_mmap o (lht_file_size f)) then Some (fs, Lhashtable LBad (-1), -1) else
      match f with
      | LhtFile m => Some (<[filename := LhtFile (lm_with_flags m (Z.land (lm_flags m) (Z.lnot LHT_FLAG_FIN)))]> fs, Lhashtable (LMap filename) fd, 0)
      | RawFile l => if bool_decide (take 8 l = LHT_SIGNATURE) then None else Some (fs, Lhashtable LBad (-1), -1)
      end
  | None =>
      let fd := sys_open o filename 0x242 in
      if fd <? 0 then Some (fs, Lhashtable (lh_mem lht) fd, -1) else
      let size := _LHT_ALIGN_P2 sizeof_lht_header LHT_BLOCK_SIZE in
      if negb (sys_ftruncate o fd size) then Some (<[filename := RawFile []]> fs, Lhashtable (lh_mem lht) fd, -1) else
      if negb (sys_mmap o size) then Some (<[filename := RawFile (replicate (Z.to_nat size) 0)]> fs, Lhashtable LBad (-1), -1) else
      m ← lht_new fd size;
      Some (<[filename := LhtFile m]> fs, Lhashtable (LMap filename) fd, 0)
  end.
End Open.
