(* ===== verification/LhashtableFacts.v ===== *)
(** * LhashtableFacts: words, allocation and layout of the persistent hash table

    The invariant of a sub-table and of the whole file, and what the allocators of
    [src/_lhashtable.c] do to it. *)

From stdpp Require Import base numbers functions list gmap.
From Stdlib Require Import ZArith Lia.
From S2P Require Import Prelude Words Os Probe ProbeFacts ProbeMap Lhashtable.

(** ** Words *)

(** Records are allocated in units of eight bytes. *)
Definition units (n : Z) : Z := (n + 7) / 8.

Lemma units_bounds n : 8 * units n - 7 <= n <= 8 * units n.
Proof. unfold units. pose proof (Z.div_mod (n + 7) 8 ltac:(lia)). pose proof (Z.mod_pos_bound (n + 7) 8 ltac:(lia)). lia. Qed.

Lemma LHT_ALIGN_eq x k : 0 <= k < 63 -> 0 <= x < 2 ^ 62 -> _LHT_ALIGN_P2 x (2 ^ k) = (x + (2 ^ k - 1)) / 2 ^ k * 2 ^ k.
Proof.
  intros Hk Hx. unfold _LHT_ALIGN_P2. assert (0 < 2 ^ k) by (apply Z.pow_pos_nonneg; lia).
  assert (2 ^ k <= 2 ^ 62) by (apply Z.pow_le_mono_r; lia).
  rewrite (u64_small (x + 2 ^ k - 1)) by lia. unfold u64. rewrite <- Z.land_ones by lia.
  rewrite Z.land_assoc, (Z.land_ones _ 64), <- round_up_mask by lia.
  replace (x + 2 ^ k - 1) with (x + (2 ^ k - 1)) by lia. apply Z.mod_small.
  pose proof (round_up_mask_bounds x k ltac:(lia) ltac:(lia)). cbv zeta in *. lia.
Qed.

Lemma LHT_X_ALIGN_units n : 0 <= n < 2 ^ 62 -> LHT_X_ALIGN n = 8 * units n.
Proof. intros Hn. unfold LHT_X_ALIGN, LHT_ALLOC_ALIGN. change 8 with (2 ^ 3) at 1. rewrite LHT_ALIGN_eq by lia.
  change (2 ^ 3) with 8. unfold units. replace (n + (8 - 1)) with (n + 7) by lia. lia. Qed.

Lemma units_idem n : units (8 * units n) = units n.
Proof. pose proof (units_bounds (8 * units n)). lia. Qed.

Lemma freelist_index_units n : 0 <= n <= 65528 -> freelist_index n = Some (units n) /\ units n < 8192.
Proof.
  intros Hn. unfold freelist_index. rewrite LHT_X_ALIGN_units by lia. pose proof (units_bounds n).
  rewrite Z.shiftr_div_pow2 by done. change (2 ^ LHT_ALLOC_ALIGN_BITS) with 8.
  rewrite Z.mul_comm, Z.div_mul by lia. unfold LHT_FREELIST_COUNT. destruct (Z.ltb_spec (units n) 8192); [done|lia].
Qed.

Lemma data_ofs_make_fields ofs block :
  0 <= ofs < 2 ^ 17 -> 0 <= block < 2 ^ 15 ->
  data_ofs_ofs (data_ofs_make ofs block) = ofs /\ data_ofs_block (data_ofs_make ofs block) = block.
Proof.
  intros Ho Hb. unfold data_ofs_make, data_ofs_ofs, data_ofs_block.
  rewrite !land_ones_mod, Z.shiftl_mul_pow2, Z.shiftr_div_pow2, (Z.mod_small ofs), (Z.mod_small block) by lia.
  rewrite Z.mod_add, Z.div_add, (Z.div_small ofs), (Z.mod_small ofs) by lia. rewrite Z.mod_small; lia.
Qed.

Lemma data_ofs_ofs_range d : 0 <= data_ofs_ofs d < 2 ^ 17.
Proof. unfold data_ofs_ofs. rewrite land_ones_mod by lia. apply Z.mod_pos_bound. lia. Qed.

Lemma data_ofs_block_0 : data_ofs_block 0 = 0.
Proof. reflexivity. Qed.

Lemma lens_word_fields r key_len val_len :
  lr_word r = lens_word key_len val_len -> 0 <= key_len < 2 ^ 16 -> 0 <= val_len < 2 ^ 16 ->
  lr_key_len r = key_len /\ lr_val_len r = val_len.
Proof.
  intros Er Hk Hv. unfold lr_key_len, lr_val_len. rewrite Er. unfold lens_word. rewrite !u16_small by lia.
  rewrite land_ones_mod, Z.shiftl_mul_pow2, Z.shiftr_div_pow2 by lia.
  rewrite Z.mod_add, Z.mod_small, Z.div_add, Z.div_small by lia. lia.
Qed.

(** ** Buckets *)

Definition lt_addressable (t : lhashtable_table) (n : Z) : Prop :=
  forall b, 0 <= b < n -> is_Some (vector_get (lt_vectors t) (lht_bucket_place b)).

#[export] Instance lhashtable_bucket_laws : BucketLaws lhashtable_table.
Proof.
  refine {| addressable := lt_addressable |}.
  - intros t n i e Ha Hi. unfold bucket, set_bucket. cbn. by rewrite vector_get_set_eq by auto.
  - intros t n i j e Ha Hi Hj Hne. unfold bucket, set_bucket. cbn. rewrite vector_get_set_ne; [done|].
    apply (place_ne 3); lia.
  - intros t n i e Ha b Hb. cbn. by apply vector_get_set_some, Ha.
Defined.

Lemma bucket_vectors (t u : lhashtable_table) b : lt_vectors u = lt_vectors t -> bucket u b = bucket t b.
Proof. intros E. unfold bucket. cbn. by rewrite E. Qed.

Lemma entries_vectors (t u : lhashtable_table) cap : lt_vectors u = lt_vectors t -> entries u cap = entries t cap.
Proof. intros E. apply entries_ext. intros. by apply bucket_vectors. Qed.

(** ** The invariant of a sub-table *)

Definition lt_cap (t : lhashtable_table) : Z := lt_mask t + 1.

(** How far the blocks have been used. *)
Definition lt_pos (t : lhashtable_table) : Z := (lt_current_block t - 1) * 2 ^ 20 + lt_next_alloc t.

Abbreviation abs_ofs := _lhashtable_data_ofs_to_abs_ofs.
Abbreviation lht_recs := (gmap Z lhashtable_record).

Definition lht_kv (recs : lht_recs) (t : lhashtable_table) (d : Z) : option (list Z * list Z) :=
  match recs !! abs_ofs t d with
  | Some r => Some (take (Z.to_nat (lr_key_len r)) (lr_data r),
                    take (Z.to_nat (lr_val_len r)) (drop (Z.to_nat (lr_key_len r)) (lr_data r)))
  | None => None
  end.

(** The allocations in the blocks of a sub-table: words, and their sizes in units. *)
Abbreviation allocs := (gmap Z Z).

Record lt_layout (t : lhashtable_table) (a : allocs) : Prop := {
  ly_block : 0 <= lt_current_block t <= 4096;
  ly_next : 0 <= lt_next_alloc t <= 2 ^ 20 /\ lt_next_alloc t mod 8 = 0;
  ly_none : lt_current_block t = 0 -> lt_next_alloc t = 2 ^ 20;
  ly_starts : forall b, 1 <= b <= lt_current_block t -> is_Some (lt_data_start_ofs t !! b);
  ly_in : forall d n, a !! d = Some n ->
    1 <= data_ofs_block d <= lt_current_block t /\ 0 < n < 8192
    /\ 8 * (data_ofs_ofs d + n) <= (if data_ofs_block d =? lt_current_block t then lt_next_alloc t else 2 ^ 20);
  ly_disj : forall d1 d2 n1 n2, a !! d1 = Some n1 -> a !! d2 = Some n2 -> d1 <> d2 ->
    data_ofs_block d1 = data_ofs_block d2 ->
    data_ofs_ofs d1 + n1 <= data_ofs_ofs d2 \/ data_ofs_ofs d2 + n2 <= data_ofs_ofs d1;
}.

(** The free list of one size. *)
Fixpoint lht_chain (recs : lht_recs) (t : lhashtable_table) (head : Z) (l : list Z) : Prop :=
  match l with
  | [] => head = 0
  | d :: l => head = d /\ d <> 0 /\ exists r, recs !! abs_ofs t d = Some r /\ lht_chain recs t (lr_word r) l
  end.

Definition rec_ok (r : lhashtable_record) : Prop :=
  0 <= lr_key_len r < 2 ^ 16 /\ 0 <= lr_val_len r < 2 ^ 16
  /\ 4 + lr_key_len r + lr_val_len r <= 65528
  /\ lr_key_len r + lr_val_len r <= Z.of_nat (length (lr_data r)).

Definition rec_units (r : lhashtable_record) : Z := units (4 + lr_key_len r + lr_val_len r).

Record free_ok (recs : lht_recs) (t : lhashtable_table) (a : allocs) (f : Z -> list Z) : Prop := {
  fr_chain : forall c, lht_chain recs t (freelist_head t c) (f c);
  fr_nodup : forall c, NoDup (f c);
  fr_class : forall c d, d ∈ f c -> a !! d = Some c;
}.

Record sub_rep (recs : lht_recs) (t : lhashtable_table) (a : allocs) (f : Z -> list Z) (m : kvmap) : Prop := {
  sr_cap : exists k, 3 <= k <= 30 /\ lt_cap t = 2 ^ k;
  sr_len : length (lt_vectors t) = 29%nat /\ length (lt_buckets_offsets t) = 29%nat;
  sr_addr : addressable t (lt_cap t);
  sr_keyed : keyed t (lt_cap t) (lht_kv recs t) m;
  sr_size : lt_size t = Z.of_nat (length (entries t (lt_cap t)));
  sr_load : 2 * lt_size t <= lt_cap t;
  sr_layout : lt_layout t a;
  sr_live : forall e, e ∈ entries t (lt_cap t) ->
    exists r, recs !! abs_ofs t (e_rec e) = Some r /\ rec_ok r /\ a !! e_rec e = Some (rec_units r);
  sr_free : free_ok recs t a f;
  sr_sep : forall e c, e ∈ entries t (lt_cap t) -> e_rec e ∉ f c;
}.

(** ** The invariant of the file *)

(** What [_lhashtable_alloc_ofs] has handed out. *)
Inductive lht_region := RTable (i : nat) | RVector (i v : nat) | RBlock (i : nat) (b : Z).

#[export] Instance lht_region_eq_dec : EqDecision lht_region.
Proof. solve_decision. Defined.

Definition lht_span (m : lht_mem) (r : lht_region) : option (Z * Z) :=
  match r with
  | RTable i => ofs ← lm_tables_offsets m !! i; Some (ofs, sizeof_lht_table + 8 * 4097)
  | RVector i v =>
      t ← lm_tables m !! i; n ← length <$> lt_vectors t !! v; ofs ← lt_buckets_offsets t !! v;
      if (0 <? n)%nat then Some (ofs, sizeof_lht_bucket * Z.of_nat n) else None
  | RBlock i b => t ← lm_tables m !! i; ofs ← lt_data_start_ofs t !! b; Some (ofs, LHT_BLOCK_SIZE)
  end.

Definition lht_apart (p q : Z * Z) : Prop := fst p + snd p <= fst q \/ fst q + snd q <= fst p.

Record regions_ok (m : lht_mem) : Prop := {
  rg_in : forall r s l, lht_span m r = Some (s, l) -> sizeof_lht_header <= s /\ 0 < l /\ s + l <= lm_write_loc m;
  rg_apart : forall r1 r2 p1 p2, lht_span m r1 = Some p1 -> lht_span m r2 = Some p2 -> r1 <> r2 -> lht_apart p1 p2;
}.

Definition in_sub (i : nat) (kv : list Z * list Z) : Prop := LHT_SUB_TABLE_HASH (hashcode (fst kv)) = Z.of_nat i.
#[export] Instance in_sub_dec i kv : Decision (in_sub i kv).
Proof. unfold in_sub. apply _. Defined.

Record lht_rep (m : lht_mem) (M : kvmap) (A : nat -> allocs) (F : nat -> Z -> list Z) : Prop := {
  lr_len : length (lm_tables m) = 256%nat;
  lr_sub : forall i t, lm_tables m !! i = Some t -> sub_rep (lm_recs m) t (A i) (F i) (filter (in_sub i) M);
  lr_regions : regions_ok m;
  lr_room : sizeof_lht_header <= lm_write_loc m <= lm_capacity m /\ lm_capacity m <= 2 ^ 61;
  lr_blocks : lm_num_data_blocks m = 4096;
  lr_size : lm_size m = Z.of_nat (size M);
}.

(** ** Where allocations are *)

Lemma abs_ofs_region m M A F i t d n :
  lht_rep m M A F -> lm_tables m !! i = Some t -> A i !! d = Some n ->
  exists s, lht_span m (RBlock i (data_ofs_block d)) = Some (s, LHT_BLOCK_SIZE)
    /\ abs_ofs t d = s + 8 * data_ofs_ofs d /\ 0 < n /\ 8 * (data_ofs_ofs d + n) <= LHT_BLOCK_SIZE.
Proof.
  intros Hrep Ht Hd. pose proof (sr_layout _ _ _ _ _ (lr_sub _ _ _ _ Hrep _ _ Ht)) as Hl.
  destruct (ly_in _ _ Hl d n Hd) as (Hb & Hn & Ho). destruct (ly_starts _ _ Hl _ Hb) as [s Hs].
  assert (Hr : lht_span m (RBlock i (data_ofs_block d)) = Some (s, LHT_BLOCK_SIZE)) by (cbn; rewrite Ht; cbn; by rewrite Hs).
  exists s. split; [done|]. destruct (rg_in _ (lr_regions _ _ _ _ Hrep) _ _ _ Hr) as (Hs0 & _ & Hs1).
  pose proof (data_ofs_ofs_range d). pose proof (lr_room _ _ _ _ Hrep). pose proof (proj1 (ly_next _ _ Hl)).
  unfold abs_ofs, LHT_BLOCK_SIZE, sizeof_lht_header in *. rewrite Hs. cbn [default from_option].
  change (Z.shiftl (data_ofs_ofs d) LHT_ALLOC_ALIGN_BITS) with (Z.shiftl (data_ofs_ofs d) 3).
  rewrite Z.shiftl_mul_pow2 by lia. rewrite u64_small by (cbv [id]; lia). unfold id.
  destruct (_ =? _); lia.
Qed.

Lemma allocs_apart m M A F i j t u d d' n n' :
  lht_rep m M A F -> lm_tables m !! i = Some t -> lm_tables m !! j = Some u ->
  A i !! d = Some n -> A j !! d' = Some n' -> (i, d) <> (j, d') ->
  lht_apart (abs_ofs t d, 8 * n) (abs_ofs u d', 8 * n').
Proof.
  intros Hrep Ht Hu Hd Hd' Hne.
  destruct (abs_ofs_region _ _ _ _ i t d n Hrep Ht Hd) as (s & Hs & -> & Hn & Ho).
  destruct (abs_ofs_region _ _ _ _ j u d' n' Hrep Hu Hd') as (s' & Hs' & -> & Hn' & Ho').
  pose proof (data_ofs_ofs_range d). pose proof (data_ofs_ofs_range d'). unfold lht_apart. cbn [fst snd].
  destruct (decide (RBlock i (data_ofs_block d) = RBlock j (data_ofs_block d'))) as [[= <- Eb]|Hnb].
  - rewrite Hu in Ht. injection Ht as ->. rewrite <- Eb, Hs in Hs'. injection Hs' as <-.
    assert (d <> d') by congruence.
    pose proof (ly_disj _ _ (sr_layout _ _ _ _ _ (lr_sub _ _ _ _ Hrep _ _ Hu)) d d' n n' Hd Hd' ltac:(done) Eb). lia.
  - pose proof (rg_apart _ (lr_regions _ _ _ _ Hrep) _ _ _ _ Hs Hs' Hnb) as Ha. unfold lht_apart in Ha. cbn [fst snd] in Ha. lia.
Qed.

Lemma abs_ofs_ne m M A F i j t u d d' :
  lht_rep m M A F -> lm_tables m !! i = Some t -> lm_tables m !! j = Some u ->
  is_Some (A i !! d) -> is_Some (A j !! d') -> (i, d) <> (j, d') -> abs_ofs t d <> abs_ofs u d'.
Proof.
  intros Hrep Ht Hu [n Hd] [n' Hd'] Hne E.
  pose proof (allocs_apart _ _ _ _ _ _ _ _ _ _ _ _ Hrep Ht Hu Hd Hd' Hne) as Ha.
  destruct (abs_ofs_region _ _ _ _ i t d n Hrep Ht Hd) as (_ & _ & _ & ? & _).
  destruct (abs_ofs_region _ _ _ _ j u d' n' Hrep Hu Hd') as (_ & _ & _ & ? & _).
  unfold lht_apart in Ha. cbn [fst snd] in Ha. lia.
Qed.

Lemma abs_ofs_pos m M A F i t d : lht_rep m M A F -> lm_tables m !! i = Some t -> is_Some (A i !! d) -> 0 < abs_ofs t d.
Proof.
  intros Hrep Ht [n Hd]. destruct (abs_ofs_region _ _ _ _ i t d n Hrep Ht Hd) as (s & Hs & -> & _).
  pose proof (rg_in _ (lr_regions _ _ _ _ Hrep) _ _ _ Hs). pose proof (data_ofs_ofs_range d).
  unfold sizeof_lht_header in *. lia.
Qed.

Lemma alloc_nonzero recs t a f m d : sub_rep recs t a f m -> is_Some (a !! d) -> d <> 0.
Proof. intros Hs [n Hd] ->. destruct (ly_in _ _ (sr_layout _ _ _ _ _ Hs) 0 n Hd) as [Hb _]. rewrite data_ofs_block_0 in Hb. lia. Qed.

(** ** Frames *)

(** A table with the same blocks at the same places. *)
Lemma abs_ofs_ext t u d : lt_data_start_ofs u !! data_ofs_block d = lt_data_start_ofs t !! data_ofs_block d -> abs_ofs u d = abs_ofs t d.
Proof. intros E. unfold abs_ofs. by rewrite E. Qed.

Lemma chain_frame recs recs' t u l : forall head,
  (forall d, d ∈ l -> recs' !! abs_ofs u d = recs !! abs_ofs t d) -> lht_chain recs t head l -> lht_chain recs' u head l.
Proof.
  induction l as [|d l IH]; intros head Hd; [done|]. cbn. intros (-> & Hne & r & Hr & Hc).
  split; [done|]. split; [done|]. exists r. rewrite Hd by (by left). split; [done|]. apply IH; [|done].
  intros x Hx. apply Hd. by right.
Qed.

Lemma free_ok_frame recs recs' t u a a' f :
  (forall d n, a !! d = Some n -> recs' !! abs_ofs u d = recs !! abs_ofs t d /\ a' !! d = Some n) ->
  lt_freelist u = lt_freelist t -> free_ok recs t a f -> free_ok recs' u a' f.
Proof.
  intros Ha Ef [H1 H2 H3]. split; [|done|].
  - intros c. unfold freelist_head. rewrite Ef. eapply chain_frame; [|apply H1].
    intros d Hd. by destruct (Ha d c (H3 c d Hd)).
  - intros c d Hd. by apply (Ha d c), H3.
Qed.

(** Records change only where the sub-table has no allocation. *)
Lemma sub_rep_frame recs recs' t a f m :
  (forall d, is_Some (a !! d) -> recs' !! abs_ofs t d = recs !! abs_ofs t d) ->
  sub_rep recs t a f m -> sub_rep recs' t a f m.
Proof.
  intros Hr [H1 H2 H3 H4 H5 H6 H7 H8 H9 H10].
  assert (Hlive : forall e, e ∈ entries t (lt_cap t) -> recs' !! abs_ofs t (e_rec e) = recs !! abs_ofs t (e_rec e)).
  { intros e He. apply Hr. destruct (H8 e He) as (r & _ & _ & E). eauto. }
  split; auto.
  - eapply keyed_ext; [done| |exact H4]. intros e He. unfold lht_kv. by rewrite Hlive.
  - intros e He. rewrite Hlive by done. auto.
  - eapply free_ok_frame; [|done|exact H9]. intros d n Hd. split; [|done]. apply Hr. eauto.
Qed.

(** One sub-table and the records at its allocations change. *)
Lemma lht_rep_update m m' M M' A F i t' a' f' :
  lht_rep m M A F -> (i < 256)%nat ->
  lm_tables m' = <[i := t']> (lm_tables m) ->
  (forall j u d, j <> i -> lm_tables m !! j = Some u -> is_Some (A j !! d) -> lm_recs m' !! abs_ofs u d = lm_recs m !! abs_ofs u d) ->
  (forall j, j <> i -> filter (in_sub j) M' = filter (in_sub j) M) ->
  sub_rep (lm_recs m') t' a' f' (filter (in_sub i) M') ->
  regions_ok m' -> sizeof_lht_header <= lm_write_loc m' <= lm_capacity m' /\ lm_capacity m' <= 2 ^ 61 ->
  lm_num_data_blocks m' = 4096 -> lm_size m' = Z.of_nat (size M') ->
  lht_rep m' M' (<[i := a']> A) (<[i := f']> F).
Proof.
  intros Hrep Hi Et Hrec HM Hsub Hreg Hroom Hblk Hsize. split; auto.
  - rewrite Et, length_insert. apply Hrep.
  - intros j u. rewrite Et. destruct (decide (j = i)) as [->|Hne].
    + rewrite list_lookup_insert_eq by (rewrite (lr_len _ _ _ _ Hrep); done). intros [= <-].
      by rewrite !fn_lookup_insert.
    + rewrite list_lookup_insert_ne by done. intros Hu. rewrite !fn_lookup_insert_ne by done. rewrite HM by done.
      eapply sub_rep_frame; [|by apply Hrep]. intros d Hd. by apply (Hrec j).
Qed.

(** A new region at the end. *)
Lemma regions_add m m' r0 n :
  regions_ok m -> sizeof_lht_header <= lm_write_loc m -> 0 < n -> lm_write_loc m + n <= lm_write_loc m' ->
  lht_span m' r0 = Some (lm_write_loc m, n) -> (forall r, r <> r0 -> lht_span m' r = lht_span m r) -> regions_ok m'.
Proof.
  intros [Hin Hap] Hw Hn Hw' Hr0 Hr. split.
  - intros r s l. destruct (decide (r = r0)) as [->|Hne].
    + rewrite Hr0. intros [= <- <-]. lia.
    + rewrite Hr by done. intros E. pose proof (Hin r s l E). lia.
  - assert (Hnew : forall r p, r <> r0 -> lht_span m' r = Some p -> fst p + snd p <= lm_write_loc m).
    { intros r [s l] Hne E. rewrite Hr in E by done. cbn. by apply (Hin r s l). }
    intros r1 r2 p1 p2 E1 E2 Hne. destruct (decide (r1 = r0)) as [->|H1], (decide (r2 = r0)) as [->|H2]; [done| | |].
    + rewrite Hr0 in E1. injection E1 as <-. right. by apply (Hnew r2).
    + rewrite Hr0 in E2. injection E2 as <-. left. by apply (Hnew r1).
    + rewrite Hr in E1, E2 by done. by apply (Hap r1 r2).
Qed.

Lemma regions_same m m' :
  regions_ok m -> lm_write_loc m' = lm_write_loc m -> (forall r, lht_span m' r = lht_span m r) -> regions_ok m'.
Proof.
  intros [Hin Hap] Hw Hr. split.
  - intros r s l. rewrite Hr, Hw. apply Hin.
  - intros r1 r2 p1 p2. rewrite !Hr. apply Hap.
Qed.

(** The regions of a file in which sub-table [i] is another. *)
Lemma region_set_table m m' i t t' :
  lm_tables m !! i = Some t -> lm_tables m' = <[i := t']> (lm_tables m) -> lm_tables_offsets m' = lm_tables_offsets m ->
  (forall v, length <$> lt_vectors t' !! v = length <$> lt_vectors t !! v) ->
  lt_buckets_offsets t' = lt_buckets_offsets t -> lt_data_start_ofs t' = lt_data_start_ofs t ->
  forall r, lht_span m' r = lht_span m r.
Proof.
  intros Ht Et Eo Hv Hb Hd r. pose proof (lookup_lt_Some _ _ _ Ht) as Hi.
  destruct r as [j|j v|j b]; cbn; rewrite ?Et, ?Eo; [done| |];
    (destruct (decide (j = i)) as [->|Hne];
     [rewrite list_lookup_insert_eq, Ht by done; cbn; by rewrite ?Hv, ?Hb, ?Hd|by rewrite list_lookup_insert_ne by done]).
Qed.
