(* ===== verification/LhashtableAlloc.v ===== *)
(** * LhashtableAlloc: the allocators of the persistent hash table keep its invariant *)

From stdpp Require Import base numbers functions list gmap.
From Stdlib Require Import ZArith Lia.
From S2P Require Import Prelude Words Os Probe ProbeFacts ProbeMap Lhashtable LhashtableFacts.

(** Another allocation state for the same buckets and records. *)
Lemma sub_rep_realloc recs t u a a' f m :
  lt_vectors u = lt_vectors t -> lt_buckets_offsets u = lt_buckets_offsets t -> lt_mask u = lt_mask t ->
  lt_size u = lt_size t -> lt_freelist u = lt_freelist t ->
  (forall d n, a !! d = Some n -> abs_ofs u d = abs_ofs t d /\ a' !! d = Some n) -> lt_layout u a' ->
  sub_rep recs t a f m -> sub_rep recs u a' f m.
Proof.
  intros Ev Eb Em Es Ef Ha Hl [H1 H2 H3 H4 H5 H6 H7 H8 H9 H10].
  assert (Ec : lt_cap u = lt_cap t) by (unfold lt_cap; by rewrite Em).
  assert (Ee : entries u (lt_cap t) = entries t (lt_cap t)) by (by apply entries_vectors).
  assert (Hlive : forall e, e ∈ entries t (lt_cap t) -> abs_ofs u (e_rec e) = abs_ofs t (e_rec e) /\ a' !! e_rec e = a !! e_rec e).
  { intros e He. destruct (H8 e He) as (r & _ & _ & E). destruct (Ha _ _ E) as [-> ->]. by rewrite E. }
  split; rewrite ?Ec, ?Ee, ?Ev, ?Eb, ?Es; auto.
  - unfold addressable in *. cbn in *. unfold lt_addressable in *. by rewrite Ev.
  - eapply keyed_ext; [intros; by apply bucket_vectors| |exact H4]. intros e He. unfold lht_kv. by rewrite (proj1 (Hlive e He)).
  - intros e He. destruct (Hlive e He) as [-> ->]. auto.
  - eapply free_ok_frame; [|done|exact H9]. intros d n Hd. by destruct (Ha d n Hd) as [-> ?].
Qed.

Definition next_word (t : lhashtable_table) : Z := data_ofs_make (Z.shiftr (lt_next_alloc t) LHT_ALLOC_ALIGN_BITS) (lt_current_block t).

(** Taking [u] units off the current block. *)
Lemma layout_bump t a u :
  lt_layout t a -> 0 < u < 8192 -> lt_next_alloc t + 8 * u <= 2 ^ 20 ->
  let d := next_word t in
  let t' := lt_with_alloc t (lt_next_alloc t + 8 * u) (lt_current_block t) (lt_data_start_ofs t) in
  a !! d = None /\ lt_layout t' (<[d := u]> a).
Proof.
  intros [Hb [Hn Hm] H0 Hs Hi Hd] Hu Hroom d t'.
  assert (Hcb : 1 <= lt_current_block t) by (destruct (Z.eq_dec (lt_current_block t) 0); lia).
  set (q := lt_next_alloc t / 8). assert (Hq : lt_next_alloc t = 8 * q) by (unfold q; pose proof (Z.div_mod (lt_next_alloc t) 8); lia).
  assert (data_ofs_ofs d = q /\ data_ofs_block d = lt_current_block t) as [Edo Edb].
  { unfold d, next_word. rewrite Z.shiftr_div_pow2 by done. apply data_ofs_make_fields; [|lia].
    change (2 ^ LHT_ALLOC_ALIGN_BITS) with 8. fold q. lia. }
  assert (Hold : forall x n, a !! x = Some n -> data_ofs_block x = lt_current_block t -> data_ofs_ofs x + n <= q).
  { intros x n Hx E. destruct (Hi x n Hx) as (_ & _ & Ho). rewrite E, Z.eqb_refl in Ho. lia. }
  split.
  { destruct (a !! d) as [n|] eqn:E; [|done]. destruct (Hi d n E) as (_ & Hn' & _).
    pose proof (Hold d n E Edb). lia. }
  split; cbn; auto.
  - split; [lia|]. rewrite Hq, <- Z.mul_add_distr_l, Z.mul_comm. apply Z.mod_mul. lia.
  - lia.
  - intros x n [[<- <-]|[Hne Hx]]%lookup_insert_Some.
    + rewrite Edb, Edo, Z.eqb_refl. lia.
    + destruct (Hi x n Hx) as (H1 & H2 & H3). split; [done|]. split; [done|]. destruct (_ =? _); lia.
  - intros d1 d2 n1 n2 [[<- <-]|[Hn1 E1]]%lookup_insert_Some [[<- <-]|[Hn2 E2]]%lookup_insert_Some Hne Eb; [done| | |by eapply Hd].
    + right. rewrite Edo. apply Hold; congruence.
    + left. rewrite Edo. apply Hold; congruence.
Qed.

(** Opening a new block. *)
Lemma layout_new_block t a ofs :
  lt_layout t a -> lt_current_block t + 1 <= 4096 ->
  lt_layout (lt_with_alloc t 0 (lt_current_block t + 1) (<[lt_current_block t + 1 := ofs]> (lt_data_start_ofs t))) a.
Proof.
  intros [Hb [Hn Hm] H0 Hs Hi Hd] Hmax. split; cbn [lt_with_alloc lt_current_block lt_next_alloc lt_data_start_ofs]; auto; try lia.
  - split; [lia|reflexivity].
  - intros b Hbb. destruct (Z.eq_dec b (lt_current_block t + 1)) as [->|Hne].
    + rewrite lookup_insert_eq. eauto.
    + rewrite lookup_insert_ne by congruence. apply Hs. lia.
  - intros d n E. destruct (Hi d n E) as (H1 & H2 & H3). split; [lia|]. split; [done|].
    destruct (Z.eqb_spec (data_ofs_block d) (lt_current_block t + 1)); [lia|]. destruct (_ =? _); lia.
Qed.

Section Alloc.
Context (o : os) (fd : Z).
Context (Hgrow : can_grow_to o (2 ^ 61)) (Htrunc : can_truncate_to o (2 ^ 61)).

Lemma alloc_ofs_spec m n :
  0 <= lm_write_loc m <= lm_capacity m -> lm_capacity m <= 2 ^ 61 -> 0 <= n -> lm_write_loc m + n <= 2 ^ 60 ->
  exists c, _lhashtable_alloc_ofs o fd m n = Some (lm_with_loc m (lm_write_loc m + 8 * units n) c, lm_write_loc m)
    /\ lm_write_loc m + 8 * units n <= c <= 2 ^ 61.
Proof using Hgrow Htrunc.
  intros Hw Hc Hn Hmax. pose proof (units_bounds n) as Hu. unfold _lhashtable_alloc_ofs, _lhashtable_resize_check.
  rewrite LHT_X_ALIGN_units by lia. rewrite (u64_small (lm_capacity m - _)) by lia.
  destruct (Z.ltb_spec (lm_capacity m - lm_write_loc m) (8 * units n)) as [Hlt|Hge].
  - unfold _lhashtable_resize_to. rewrite (u64_small (lm_write_loc m + 8 * units n)) by lia.
    set (w := lm_write_loc m + 8 * units n) in *.
    set (c := _LHT_ALIGN_P2 w LHT_BLOCK_SIZE).
    assert (Hcw : w <= c <= 2 ^ 61).
    { unfold c, LHT_BLOCK_SIZE. rewrite LHT_ALIGN_eq, <- round_up_mask by lia.
      pose proof (round_up_mask_bounds w 20 ltac:(lia) ltac:(lia)). cbv zeta in *. lia. }
    rewrite Htrunc, Hgrow by lia. cbn. exists c. rewrite u64_small by lia. done.
  - cbn. rewrite u64_small by lia. exists (lm_capacity m). split; [done|lia].
Qed.

Record sub_allocated (m : lht_mem) (M : kvmap) A F (i : nat) (t : lhashtable_table) (n : Z)
    (m' : lht_mem) (t' : lhashtable_table) (d : Z) (a' : allocs) (f' : Z -> list Z) : Prop := {
  sa_rep : lht_rep m' M (<[i := a']> A) (<[i := f']> F);
  sa_tables : lm_tables m' = <[i := t']> (lm_tables m);
  sa_new : a' !! d = Some (units n);
  sa_live : forall e, e ∈ entries t (lt_cap t) -> e_rec e <> d;
  sa_free : forall c, d ∉ f' c;
  sa_recs : lm_recs m' = lm_recs m;
  sa_same : lt_vectors t' = lt_vectors t /\ lt_mask t' = lt_mask t /\ lt_size t' = lt_size t;
  sa_old : forall x k, A i !! x = Some k -> abs_ofs t' x = abs_ofs t x /\ a' !! x = Some k;
  sa_loc : lm_write_loc m' <= lm_write_loc m + 2 ^ 20;
  sa_pos : lt_pos t' <= lt_pos t + 16 * units n;
  sa_size : lm_size m' = lm_size m;
}.

Lemma sub_table_insert m i t (t' : lhashtable_table) :
  lm_tables m !! i = Some t -> <[i := t']> (lm_tables m) !! i = Some t'.
Proof. intros Ht. apply list_lookup_insert_eq. by apply lookup_lt_Some in Ht. Qed.

(** A freed allocation of the size is reused. *)
Lemma alloc_from_freelist_rep m M A F i t n d l :
  lht_rep m M A F -> lm_tables m !! i = Some t -> 0 < n <= 65528 -> F i (units n) = d :: l ->
  exists m' t' f', _lhashtable_alloc_from_freelist m (Z.of_nat i) n = Some (m', Some d)
    /\ sub_allocated m M A F i t n m' t' d (A i) f'.
Proof.
  intros Hrep Ht Hn HF. pose proof (lr_sub _ _ _ _ Hrep _ _ Ht) as Hs. pose proof (sr_free _ _ _ _ _ Hs) as [Hch Hnd Hcl].
  destruct (freelist_index_units n ltac:(lia)) as [Hidx _]. pose proof (units_bounds n) as Hun. set (c := units n) in *.
  pose proof (Hch c) as Hc. rewrite HF in Hc. destruct Hc as (Hh & Hd0 & r & Hr & Hc).
  assert (Hdc : A i !! d = Some c) by (apply Hcl; rewrite HF; by left).
  unfold _lhashtable_alloc_from_freelist, sub_table. rewrite Nat2Z.id, Ht. cbn [mbind option_bind]. rewrite Hidx.
  cbn [mbind option_bind]. rewrite Hh. destruct (Z.eqb_spec 0 d); [lia|]. rewrite Hr. cbn [mbind option_bind].
  set (t' := lt_with_freelist t (<[c := lr_word r]> (lt_freelist t))).
  set (m' := set_sub_table m (Z.of_nat i) t').
  exists m', t', (<[c := l]> (F i)). split; [done|].
  assert (Et : lm_tables m' = <[i := t']> (lm_tables m)) by (cbn; by rewrite Nat2Z.id).
  pose proof (Hnd c) as Hnc. rewrite HF in Hnc. apply NoDup_cons in Hnc as [Hdl Hnl].
  assert (Hf' : forall c' x, x ∈ (<[c := l]> (F i)) c' -> x ∈ F i c' /\ x <> d).
  { intros c' x. destruct (decide (c' = c)) as [->|Hne].
    - rewrite fn_lookup_insert, HF. intros Hx. split; [by right|]. by intros ->.
    - rewrite fn_lookup_insert_ne by done. intros Hx. split; [done|]. intros ->.
      specialize (Hcl c' d Hx). congruence. }
  split; try done.
  - apply (lht_rep_update m m' M M A F i t' (A i)); try done; try (by apply Hrep).
    + apply lookup_lt_Some in Ht. by rewrite (lr_len _ _ _ _ Hrep) in Ht.
    + destruct Hs as [H1 H2 H3 H4 H5 H6 H7 H8 H9 H10]. split; auto.
      * eapply keyed_ext; [| |exact H4]; intros; reflexivity.
      * by destruct H7; split.
      * split; [| |intros; apply Hcl; by apply Hf'].
        -- intros c'. unfold freelist_head, t'. cbn [lt_freelist lt_with_freelist]. destruct (decide (c' = c)) as [->|Hne].
           ++ rewrite lookup_insert_eq, fn_lookup_insert. eapply chain_frame; [|exact Hc]. done.
           ++ rewrite lookup_insert_ne, fn_lookup_insert_ne by done. eapply chain_frame; [|apply Hch]. done.
        -- intros c'. destruct (decide (c' = c)) as [->|Hne]; [by rewrite fn_lookup_insert|by rewrite fn_lookup_insert_ne].
      * intros e c' He Hin. apply Hf' in Hin as [Hin _]. by eapply H10.
    + eapply regions_same; [apply Hrep|done|]. by eapply (region_set_table m m' i t t').
  - intros e He E. apply (sr_sep _ _ _ _ _ Hs e c He). rewrite HF, E. by left.
  - intros c' Hin. by apply Hf' in Hin as [_ ?].
  - cbn. lia.
  - unfold lt_pos. cbn. lia.
Qed.

Lemma lht_rep_ext m M A A' F F' :
  (forall j, A' j = A j) -> (forall j, F' j = F j) -> lht_rep m M A F -> lht_rep m M A' F'.
Proof. intros HA HF [H1 H2 H3 H4 H5 H6]. split; auto. intros i t Ht. rewrite HA, HF. auto. Qed.

Lemma fn_insert_same {B} (A : nat -> B) i : forall j, A j = (<[i := A i]> A) j.
Proof. intros j. destruct (decide (j = i)) as [->|Hne]; [by rewrite fn_lookup_insert|by rewrite fn_lookup_insert_ne]. Qed.

Lemma fn_insert_twice {B} (A : nat -> B) i x y : forall j, (<[i := y]> A) j = (<[i := y]> (<[i := x]> A)) j.
Proof.
  intros j. destruct (decide (j = i)) as [->|Hne]; [by rewrite !fn_lookup_insert|by rewrite !fn_lookup_insert_ne].
Qed.

(** The next units of the current block. *)
Lemma bump_rep m M A F i t n :
  lht_rep m M A F -> lm_tables m !! i = Some t -> 0 < n <= 65528 -> lt_next_alloc t + 8 * units n <= 2 ^ 20 ->
  let t' := lt_with_alloc t (u32 (lt_next_alloc t + 8 * units n)) (lt_current_block t) (lt_data_start_ofs t) in
  let m' := set_sub_table m (Z.of_nat i) t' in
  sub_allocated m M A F i t n m' t' (next_word t) (<[next_word t := units n]> (A i)) (F i).
Proof.
  intros Hrep Ht Hn Hroom t' m'. pose proof (lr_sub _ _ _ _ Hrep _ _ Ht) as Hs. pose proof (sr_layout _ _ _ _ _ Hs) as Hl.
  destruct (freelist_index_units n ltac:(lia)) as [_ Hun]. pose proof (units_bounds n) as Hub.
  destruct (layout_bump t (A i) (units n) Hl ltac:(lia) Hroom) as [Hfresh Hl'].
  pose proof (proj1 (ly_next _ _ Hl)) as Hnx.
  assert (Et' : u32 (lt_next_alloc t + 8 * units n) = lt_next_alloc t + 8 * units n) by (apply u32_small; lia).
  assert (Et : lm_tables m' = <[i := t']> (lm_tables m)) by (cbn; by rewrite Nat2Z.id).
  assert (Hold : forall x k, A i !! x = Some k -> abs_ofs t' x = abs_ofs t x /\ <[next_word t := units n]> (A i) !! x = Some k).
  { intros x k Hx. split; [done|]. rewrite lookup_insert_ne; [done|]. intros <-. congruence. }
  split; try done.
  - apply (lht_rep_update m m' M M A F i t'); try done; try (by apply Hrep).
    + apply lookup_lt_Some in Ht. by rewrite (lr_len _ _ _ _ Hrep) in Ht.
    + eapply (sub_rep_realloc _ t); try done. unfold t'. by rewrite Et'.
    + eapply regions_same; [apply Hrep|done|]. by eapply (region_set_table m m' i t t').
  - apply lookup_insert_eq.
  - intros e He E. destruct (sr_live _ _ _ _ _ Hs e He) as (r & _ & _ & Ha). congruence.
  - intros c Hin. pose proof (fr_class _ _ _ _ (sr_free _ _ _ _ _ Hs) c _ Hin). congruence.
  - cbn. lia.
  - unfold lt_pos, t'. cbn [lt_with_alloc lt_current_block lt_next_alloc]. rewrite Et'. lia.
Qed.

(** A new block for sub-table [i]. *)
Lemma new_block_rep m M A F i t :
  lht_rep m M A F -> lm_tables m !! i = Some t -> lt_current_block t + 1 <= 4096 -> lm_write_loc m <= 2 ^ 59 ->
  exists m1 t', _lhashtable_alloc_ofs o fd m LHT_BLOCK_SIZE = Some (m1, lm_write_loc m)
    /\ t' = lt_with_alloc t 0 (lt_current_block t + 1) (<[lt_current_block t + 1 := lm_write_loc m]> (lt_data_start_ofs t))
    /\ lht_rep (set_sub_table m1 (Z.of_nat i) t') M A F
    /\ lm_tables (set_sub_table m1 (Z.of_nat i) t') = <[i := t']> (lm_tables m)
    /\ lm_recs m1 = lm_recs m /\ lm_write_loc m1 = lm_write_loc m + 2 ^ 20 /\ lm_size m1 = lm_size m
    /\ lm_num_data_blocks m1 = 4096
    /\ (forall x k, A i !! x = Some k -> abs_ofs t' x = abs_ofs t x).
Proof using Hgrow Htrunc.
  intros Hrep Ht Hb Hw. pose proof (lr_room _ _ _ _ Hrep) as [Hroom Hcap]. unfold sizeof_lht_header in Hroom.
  destruct (alloc_ofs_spec m LHT_BLOCK_SIZE ltac:(lia) Hcap ltac:(done) ltac:(unfold LHT_BLOCK_SIZE; lia)) as (c & -> & Hc).
  change (8 * units LHT_BLOCK_SIZE) with (2 ^ 20) in *. eexists _, _. split; [done|]. split; [done|].
  set (t' := lt_with_alloc _ _ _ _). set (m1 := lm_with_loc _ _ _). set (m' := set_sub_table m1 _ t').
  pose proof (lr_sub _ _ _ _ Hrep _ _ Ht) as Hs.
  assert (Et : lm_tables m' = <[i := t']> (lm_tables m)) by (cbn; by rewrite Nat2Z.id).
  assert (Habs : forall x k, A i !! x = Some k -> abs_ofs t' x = abs_ofs t x).
  { intros x k Hx. apply abs_ofs_ext. cbn. apply lookup_insert_ne.
    pose proof (ly_in _ _ (sr_layout _ _ _ _ _ Hs) x k Hx). lia. }
  split; [|repeat (split; [done|]); split; [apply Hrep|exact Habs]].
  eapply lht_rep_ext; [apply fn_insert_same|apply fn_insert_same|].
  apply (lht_rep_update m m' M M A F i t'); try done; try (by apply Hrep).
  - apply lookup_lt_Some in Ht. by rewrite (lr_len _ _ _ _ Hrep) in Ht.
  - eapply (sub_rep_realloc _ t _ (A i)); try done.
    + intros d n Hd. split; [by eapply Habs|done].
    + apply layout_new_block; [apply Hs|done].
  - apply (regions_add m m' (RBlock i (lt_current_block t + 1)) LHT_BLOCK_SIZE); try apply Hrep; try (unfold LHT_BLOCK_SIZE; cbn; lia).
    + cbn. rewrite Nat2Z.id, (sub_table_insert _ _ t) by done. cbn. by rewrite lookup_insert_eq.
    + intros r Hne. pose proof (lookup_lt_Some _ _ _ Ht) as Hi. destruct r as [j|j v|j b]; cbn; rewrite ?Nat2Z.id; [done| |];
        (destruct (decide (j = i)) as [->|Hj]; [rewrite list_lookup_insert_eq, Ht by done; cbn|by rewrite list_lookup_insert_ne by done]); [done|].
      rewrite lookup_insert_ne; [done|]. intros E. apply Hne. by rewrite E.
  - unfold sizeof_lht_header. cbn. lia.
Qed.

Lemma sub_alloc_rep m M A F i t n :
  lht_rep m M A F -> lm_tables m !! i = Some t -> 0 < n <= 65528 ->
  lt_pos t + 16 * units n <= 2 ^ 32 -> lm_write_loc m <= 2 ^ 59 ->
  exists m' t' d a' f', _lhashtable_sub_alloc o fd m (Z.of_nat i) n = Some (m', d)
    /\ sub_allocated m M A F i t n m' t' d a' f'.
Proof using Hgrow Htrunc.
  intros Hrep Ht Hn Hpos Hw. pose proof (lr_sub _ _ _ _ Hrep _ _ Ht) as Hs. pose proof (sr_layout _ _ _ _ _ Hs) as Hl.
  destruct (freelist_index_units n ltac:(lia)) as [Hidx Hun]. pose proof (units_bounds n) as Hub.
  unfold _lhashtable_sub_alloc. destruct (F i (units n)) as [|d l] eqn:HF.
  2: { destruct (alloc_from_freelist_rep m M A F i t n d l Hrep Ht Hn HF) as (m' & t' & f' & -> & Hsa). cbn [mbind option_bind]. eauto 10. }
  assert (_lhashtable_alloc_from_freelist m (Z.of_nat i) n = Some (m, None)) as ->.
  { pose proof (fr_chain _ _ _ _ (sr_free _ _ _ _ _ Hs) (units n)) as Hc. rewrite HF in Hc. cbn in Hc.
    unfold _lhashtable_alloc_from_freelist, sub_table. rewrite Nat2Z.id, Ht. cbn [mbind option_bind]. rewrite Hidx.
    cbn [mbind option_bind]. by rewrite Hc. }
  cbn [mbind option_bind]. unfold sub_table. rewrite !Nat2Z.id, Ht. cbn [mbind option_bind].
  rewrite LHT_X_ALIGN_units by lia. pose proof (ly_block _ _ Hl) as Hb. pose proof (proj1 (ly_next _ _ Hl)) as Hnx.
  unfold LHT_BLOCK_SIZE at 1. rewrite (u32_small (_ - _)) by lia.
  destruct (Z.ltb_spec (2 ^ 20 - lt_next_alloc t) (8 * units n)) as [Hlt|Hge].
  - unfold lt_pos in Hpos.
    assert (lt_current_block t + 1 <= 4096) as Hmax by nia.
    destruct (new_block_rep m M A F i t Hrep Ht Hmax Hw) as (m1 & t1 & -> & -> & Hrep1 & Et1 & Er1 & Ew1 & Es1 & En1 & Habs).
    cbn [mbind option_bind]. rewrite En1, (u16_small (_ + 1)) by lia.
    destruct (Z.leb_spec (lt_current_block t + 1) 4096); [|lia]. cbn [mbind option_bind].
    set (t1 := lt_with_alloc _ _ _ _) in *. set (m2 := set_sub_table m1 _ t1) in *.
    assert (Ht1 : lm_tables m2 !! i = Some t1) by (rewrite Et1; by apply (sub_table_insert _ _ t)).
    rewrite Ht1. cbn [mbind option_bind]. fold (next_word t1).
    pose proof (bump_rep m2 M A F i t1 n Hrep1 Ht1 Hn ltac:(change (lt_next_alloc t1) with 0; lia)) as [H1 H2 H3 H4 H5 H6 H7 H8 H9 H10 H11].
    cbv zeta in *. eexists _, _, _, _, _. split; [done|]. split; try done.
    + rewrite H2, Et1. by rewrite list_insert_insert_eq.
    + intros x k Hx. destruct (H8 x k Hx) as [-> ?]. split; [by eapply Habs|done].
    + cbn. lia.
    + clear H10. unfold lt_pos in *. cbn [lt_with_alloc lt_current_block lt_next_alloc t1] in *. rewrite (u32_small (0 + _)) by lia. lia.
  - cbn [mbind option_bind]. rewrite ?Nat2Z.id, Ht. cbn [mbind option_bind]. fold (next_word t). eexists _, _, _, _, _. split; [done|].
    apply bump_rep; auto. lia.
Qed.

End Alloc.
