(* ===== verification/LhashtableMap.v ===== *)
(** * LhashtableMap: the persistent hash table implements a finite map *)

From stdpp Require Import base numbers functions list gmap.
From Stdlib Require Import ZArith Lia.
From S2P Require Import Prelude Words Os Probe ProbeFacts ProbeMap Lhashtable LhashtableFacts LhashtableAlloc.

(** ** Sub-tables *)

Definition sub_of (key : list Z) : nat := Z.to_nat (LHT_SUB_TABLE_HASH (hashcode key)).

Lemma LHT_SUB_TABLE_HASH_range h : 0 <= h -> 0 <= LHT_SUB_TABLE_HASH h < 256.
Proof.
  intros Hh. unfold LHT_SUB_TABLE_HASH. change (LHT_NUM_SUB_TABLES - 1) with (2 ^ 8 - 1).
  rewrite land_ones_mod by lia. apply Z.mod_pos_bound. lia.
Qed.

Lemma sub_of_spec key : LHT_SUB_TABLE_HASH (hashcode key) = Z.of_nat (sub_of key) /\ (sub_of key < 256)%nat.
Proof. pose proof (LHT_SUB_TABLE_HASH_range (hashcode key) (proj1 (hashcode_range key))). unfold sub_of. lia. Qed.

Lemma in_sub_of key v : in_sub (sub_of key) (key, v).
Proof. unfold in_sub. apply sub_of_spec. Qed.

Lemma not_in_sub j key v : j <> sub_of key -> ~ in_sub j (key, v).
Proof. unfold in_sub. cbn [fst]. rewrite (proj1 (sub_of_spec key)). lia. Qed.

Lemma sub_lookup (M : kvmap) key : filter (in_sub (sub_of key)) M !! key = M !! key.
Proof.
  apply option_eq. intros v. rewrite map_lookup_filter_Some. split; [tauto|]. intros E. split; [done|]. apply in_sub_of.
Qed.

Lemma sub_insert (M : kvmap) key v : filter (in_sub (sub_of key)) (<[key := v]> M) = <[key := v]> (filter (in_sub (sub_of key)) M).
Proof. apply map_filter_insert_True, in_sub_of. Qed.

Lemma sub_insert_other (j : nat) (M : kvmap) key v : j <> sub_of key -> filter (in_sub j) (<[key := v]> M) = filter (in_sub j) M.
Proof.
  intros Hj. rewrite map_filter_insert_False by (by apply not_in_sub). apply map_filter_delete_not.
  intros w _. by apply not_in_sub.
Qed.

Lemma sub_delete (M : kvmap) (j : nat) key : filter (in_sub j) (delete key M) = delete key (filter (in_sub j) M).
Proof. apply map_filter_delete. Qed.

Lemma sub_delete_other (j : nat) (M : kvmap) key : j <> sub_of key -> filter (in_sub j) (delete key M) = filter (in_sub j) M.
Proof. intros Hj. apply map_filter_delete_not. intros w _. by apply not_in_sub. Qed.

Lemma rep_table m M A F key : lht_rep m M A F -> exists t, lm_tables m !! sub_of key = Some t.
Proof. intros Hrep. apply lookup_lt_is_Some. rewrite (lr_len _ _ _ _ Hrep). apply sub_of_spec. Qed.

(** ** Searching *)

Lemma sr_is_cap recs t a f m : sub_rep recs t a f m -> is_cap (lt_cap t) /\ is_cap (2 * lt_cap t) /\ 8 <= lt_cap t <= 2 ^ 30.
Proof.
  intros Hrep. destruct (sr_cap _ _ _ _ _ Hrep) as (k & Hk & E).
  assert (2 ^ 3 <= 2 ^ k <= 2 ^ 30) by (split; apply Z.pow_le_mono_r; lia).
  split; [|split; [|rewrite E; lia]].
  - exists k. split; [lia|]. split; [done|]. rewrite E. lia.
  - exists (k + 1). split; [lia|]. rewrite E, Z.pow_add_r by lia. lia.
Qed.

Lemma sr_free_bucket recs t a f m : sub_rep recs t a f m -> exists z, 0 <= z < lt_cap t /\ ~ occ t z.
Proof.
  intros Hrep. destruct (sr_is_cap _ _ _ _ _ Hrep) as (_ & _ & Hc). apply free_bucket_exists; [lia|].
  rewrite <- (sr_size _ _ _ _ _ Hrep). pose proof (sr_load _ _ _ _ _ Hrep). lia.
Qed.

Lemma lht_stop_matches m t a f M key b :
  sub_rep (lm_recs m) t a f M -> 0 <= b < lt_cap t ->
  lht_stop m t (hashcode key) key (bucket t b) = is_free (bucket t b) || matches (lht_kv (lm_recs m) t) key (bucket t b).
Proof.
  intros Hrep Hb. unfold lht_stop. destruct (is_free (bucket t b)) eqn:Ef; [done|]. apply is_free_false in Ef. cbn [orb].
  unfold lht_key_matches, matches, lht_kv. f_equal.
  destruct (sr_live _ _ _ _ _ Hrep (bucket t b)) as (r & -> & (Hk & Hv & _ & Hl) & _); [apply elem_of_entries; eauto|].
  destruct (Z.eqb_spec (Z.of_nat (length key)) (lr_key_len r)) as [Es|Es]; cbn [andb].
  - by rewrite <- Es, Nat2Z.id.
  - symmetry. apply bool_decide_eq_false_2. intros Et. apply Es. rewrite <- Et, length_take. lia.
Qed.

Lemma lht_find_spec m t a f M key :
  sub_rep (lm_recs m) t a f M ->
  exists b, lht_find m t (hashcode key) key = Some b /\ 0 <= b < lt_cap t
    /\ ((occ t b /\ exists v, lht_kv (lm_recs m) t (e_rec (bucket t b)) = Some (key, v) /\ M !! key = Some v)
        \/ (M !! key = None /\ first_hole t (lt_cap t) (Z.land (hashcode key) (lt_cap t - 1)) b)).
Proof.
  intros Hrep. destruct (sr_is_cap _ _ _ _ _ Hrep) as (Hc & _ & _). unfold lht_find.
  replace (lt_mask t) with (lt_cap t - 1) by (unfold lt_cap; lia).
  apply (keyed_find t (lt_cap t) (lht_kv (lm_recs m) t) M); auto; [apply Hrep|by eapply sr_free_bucket|].
  intros b Hb. by eapply lht_stop_matches.
Qed.

Lemma lht_kv_get m t d key val :
  lht_kv (lm_recs m) t d = Some (key, val) ->
  lhashtable_get_key m (abs_ofs t d) = key /\ lhashtable_get_val m (abs_ofs t d) = val.
Proof.
  unfold lht_kv, lhashtable_get_key, lhashtable_get_val, lhashtable_get_key_len, lhashtable_get_val_len, lht_rec_at.
  destruct (lm_recs m !! abs_ofs t d); [|done]. by intros [= <- <-].
Qed.

(** What an offset returned by an operation refers to. *)
Definition lht_refers (m : lht_mem) (ofs : Z) (key val : list Z) : Prop :=
  ofs <> 0 /\ lhashtable_get_key m ofs = key /\ lhashtable_get_val m ofs = val.

Lemma hole_free t b cap h : first_hole t cap h b -> is_free (bucket (t : lhashtable_table) b) = true.
Proof. intros (_ & Hf & _). apply is_free_true. destruct (decide (e_rec (bucket t b) = 0)); [done|by destruct Hf]. Qed.

Lemma lht_get_rep m M A F key :
  lht_rep m M A F ->
  exists ofs, lhashtable_get m key = Some ofs
    /\ match M !! key with Some v => lht_refers m ofs key v | None => ofs = 0 end.
Proof.
  intros Hrep. destruct (rep_table _ _ _ _ key Hrep) as [t Ht]. pose proof (lr_sub _ _ _ _ Hrep _ _ Ht) as Hs.
  unfold lhashtable_get, sub_table. fold (sub_of key). rewrite Ht. cbn [mbind option_bind].
  destruct (lht_find_spec m t _ _ _ key Hs) as (b & -> & Hb & Hcase). rewrite sub_lookup in Hcase.
  cbn [mbind option_bind]. destruct Hcase as [(Ho & v & Hkv & Hm)|(Hm & Hh)]; rewrite Hm.
  - rewrite (proj2 (is_free_false _) Ho). eexists. split; [done|]. split; [|by apply lht_kv_get].
    destruct (sr_live _ _ _ _ _ Hs (bucket t b)) as (r & _ & _ & Ha); [apply elem_of_entries; eauto|].
    pose proof (abs_ofs_pos _ _ _ _ _ _ (e_rec (bucket t b)) Hrep Ht ltac:(eauto)). lia.
  - rewrite (hole_free _ _ _ _ Hh). eauto.
Qed.

(** ** Growing a sub-table *)

(** Bucket writes change nothing but cells. *)
Definition same_but_cells (t t' : lhashtable_table) : Prop :=
  t' = lt_with_vectors t (lt_vectors t') (lt_buckets_offsets t)
  /\ forall v, length <$> lt_vectors t' !! v = length <$> lt_vectors t !! v.

Lemma lt_updates_same n t t' : updates n t t' -> same_but_cells t t'.
Proof.
  induction 1 as [t|t i e t' _ _ [IH1 IH2]]; [by destruct t|]. split; [exact IH1|]. intros v. rewrite IH2.
  cbn. apply vector_set_lengths.
Qed.

Lemma same_lengths {B} (l l' : list (list B)) : (forall v, length <$> l' !! v = length <$> l !! v) -> length l' = length l.
Proof.
  intros H. assert (forall v, is_Some (l' !! v) <-> is_Some (l !! v)) as Hs.
  { intros v. specialize (H v). destruct (l' !! v), (l !! v); cbn in H; try discriminate; split; intros []; eauto; done. }
  pose proof (fun v => iff_trans (iff_sym (lookup_lt_is_Some l' v)) (iff_trans (Hs v) (lookup_lt_is_Some l v))) as Hlt.
  pose proof (Hlt (length l)). pose proof (Hlt (length l')). lia.
Qed.

Section Grow.
Variables (t : lhashtable_table) (k ofs : Z).
Hypothesis Hk : 3 <= k <= 29.
Hypothesis Hlen : length (lt_vectors t) = 29%nat.

Definition lt_grown : lhashtable_table :=
  lt_with_vectors t (doubled 3 (lt_vectors t) k) (<[Z.to_nat (k - 3 + 1) := ofs]> (lt_buckets_offsets t)).

Lemma lt_grown_bucket b : 0 <= b < 2 ^ k -> bucket lt_grown b = bucket t b.
Proof using Hk Hlen. intros Hb. unfold bucket. cbn. f_equal. apply (doubled_old 3); lia. Qed.

Lemma lt_grown_upper b : 2 ^ k <= b < 2 * 2 ^ k -> ~ occ lt_grown b.
Proof using Hk Hlen.
  intros Hb. unfold occ, bucket. cbn [lhashtable_buckets lt_grown lt_with_vectors lt_vectors].
  change (lht_bucket_place b) with (place 3 b). rewrite doubled_new by lia. cbn. tauto.
Qed.

Lemma lt_grown_addr : addressable t (2 ^ k) -> addressable lt_grown (2 * 2 ^ k).
Proof using Hk Hlen.
  intros Ha b Hb. cbn [lt_grown lt_with_vectors lt_vectors]. change (lht_bucket_place b) with (place 3 b).
  destruct (Z.lt_ge_cases b (2 ^ k)).
  - rewrite doubled_old by lia. apply Ha. lia.
  - rewrite doubled_new by lia. eauto.
Qed.

Lemma lt_grown_rehash kv m :
  is_cap (2 ^ k) -> is_cap (2 * 2 ^ k) -> addressable t (2 ^ k) -> keyed t (2 ^ k) kv m ->
  (exists z, 0 <= z < 2 ^ k /\ ~ occ t z) ->
  exists t', rehash true lt_grown (2 ^ k) = Some t' /\ same_but_cells lt_grown t'
    /\ addressable t' (2 * 2 ^ k) /\ keyed t' (2 * 2 ^ k) kv m /\ entries t' (2 * 2 ^ k) ≡ₚ entries t (2 ^ k).
Proof using Hk Hlen.
  intros Hc Hc2 Ha Hkeyed (z & Hz & Hf).
  destruct (keyed_rehash true lt_grown (2 ^ k) kv m) as (t' & E & Hu & Hkeyed' & Hent); auto.
  - by apply lt_grown_addr.
  - eapply keyed_ext; [|done|exact Hkeyed]. intros. by apply lt_grown_bucket.
  - exists z. split; [done|]. unfold occ in *. by rewrite lt_grown_bucket.
  - apply lt_grown_upper.
  - exists t'. split; [done|]. split; [by eapply lt_updates_same|]. split.
    + eapply updates_addressable; [exact Hu|]. by apply lt_grown_addr.
    + split; [done|]. rewrite Hent, (entries_ext t lt_grown); [done|]. intros. by apply lt_grown_bucket.
Qed.

End Grow.

Section Ops.
Context (o : os) (fd : Z).
Context (Hgrow : can_grow_to o (2 ^ 61)) (Htrunc : can_truncate_to o (2 ^ 61)).

(** Allocation [d] gets a record [r], and the buckets may refer to it. *)
Lemma sub_rep_link recs recs' t u a f m m' d r :
  lt_data_start_ofs u = lt_data_start_ofs t -> lt_freelist u = lt_freelist t ->
  lt_next_alloc u = lt_next_alloc t -> lt_current_block u = lt_current_block t ->
  sub_rep recs t a f m ->
  recs' !! abs_ofs t d = Some r -> (forall x, is_Some (a !! x) -> x <> d -> recs' !! abs_ofs t x = recs !! abs_ofs t x) ->
  a !! d = Some (rec_units r) -> rec_ok r -> (forall c, d ∉ f c) ->
  (exists k, 3 <= k <= 30 /\ lt_cap u = 2 ^ k) -> length (lt_vectors u) = 29%nat -> length (lt_buckets_offsets u) = 29%nat ->
  addressable u (lt_cap u) -> keyed u (lt_cap u) (lht_kv recs' u) m' ->
  lt_size u = Z.of_nat (length (entries u (lt_cap u))) -> 2 * lt_size u <= lt_cap u ->
  (forall e, e ∈ entries u (lt_cap u) -> e_rec e = d \/ (e ∈ entries t (lt_cap t) /\ e_rec e <> d)) ->
  sub_rep recs' u a f m'.
Proof.
  intros Ed Ef En Ec [H1 H2 H3 H4 H5 H6 H7 H8 H9 H10] Hd Hx Hda Hok Hdf C1 C2 C2' C3 C4 C5 C6 Hsub.
  assert (Habs : forall x, abs_ofs u x = abs_ofs t x) by (intros; apply abs_ofs_ext; by rewrite Ed).
  split; auto.
  - destruct H7. split; rewrite ?Ed, ?En, ?Ec; auto.
  - intros e He. rewrite Habs. destruct (Hsub e He) as [->|[Hin Hne]]; [eauto|].
    destruct (H8 e Hin) as (r' & E & Hr' & Ha'). exists r'. rewrite Hx by eauto. done.
  - destruct H9 as [F1 F2 F3]. split; [|done|done]. intros c. unfold freelist_head. rewrite Ef.
    eapply chain_frame; [|apply F1]. intros x Hin. rewrite Habs. apply Hx; [rewrite (F3 c x Hin); eauto|].
    intros ->. by apply (Hdf c).
  - intros e c He Hin. destruct (Hsub e He) as [E|[Hin' _]]; [rewrite E in Hin; by apply (Hdf c)|by apply (H10 e c)].
Qed.

(** Allocation [d], which no bucket refers to, becomes the head of its free list. *)
Lemma sub_rep_free recs recs' t a f m d c data :
  sub_rep recs t a f m -> a !! d = Some c -> (forall e, e ∈ entries t (lt_cap t) -> e_rec e <> d) -> (forall c, d ∉ f c) ->
  recs' !! abs_ofs t d = Some (LRec (freelist_head t c) data) ->
  (forall x, is_Some (a !! x) -> x <> d -> recs' !! abs_ofs t x = recs !! abs_ofs t x) ->
  sub_rep recs' (lt_with_freelist t (<[c := d]> (lt_freelist t))) a (<[c := d :: f c]> f) m.
Proof.
  intros Hs Hd Hlive Hdf Hrd Hx. pose proof (alloc_nonzero _ _ _ _ _ d Hs ltac:(eauto)) as Hd0.
  destruct Hs as [H1 H2 H3 H4 H5 H6 H7 H8 [F1 F2 F3] H10]. set (u := lt_with_freelist _ _).
  assert (Hin : forall x c', x ∈ (<[c := d :: f c]> f) c' -> (x = d /\ c' = c) \/ (x ∈ f c' /\ x <> d)).
  { intros x c'. destruct (decide (c' = c)) as [->|Hne].
    - rewrite fn_lookup_insert. intros [->|Hf]%elem_of_cons; [by left|]. right. split; [done|]. intros ->. by apply (Hdf c).
    - rewrite fn_lookup_insert_ne by done. right. split; [done|]. intros ->. by apply (Hdf c'). }
  assert (Hch : forall c', lht_chain recs' t (freelist_head t c') (f c')).
  { intros c'. eapply chain_frame; [|apply F1]. intros x Hf. apply Hx; [rewrite (F3 c' x Hf); eauto|].
    intros ->. by apply (Hdf c'). }
  split; auto.
  - eapply (keyed_ext t u); [intros; reflexivity| |exact H4]. intros e He. unfold lht_kv. change (abs_ofs u) with (abs_ofs t).
    rewrite Hx; [done| |by apply Hlive]. destruct (H8 e He) as (r & _ & _ & E). eauto.
  - by destruct H7; split.
  - intros e He. change (abs_ofs u) with (abs_ofs t). rewrite Hx; [by apply H8| |by apply Hlive].
    destruct (H8 e He) as (r & _ & _ & E). eauto.
  - split.
    + intros c'. unfold freelist_head. cbn [u lt_with_freelist lt_freelist]. destruct (decide (c' = c)) as [->|Hne].
      * rewrite lookup_insert_eq, fn_lookup_insert. split; [done|]. split; [done|]. eexists. split; [exact Hrd|].
        eapply chain_frame; [|apply Hch]. done.
      * rewrite lookup_insert_ne, fn_lookup_insert_ne by done. eapply chain_frame; [|apply Hch]. done.
    + intros c'. destruct (decide (c' = c)) as [->|Hne]; [|by rewrite fn_lookup_insert_ne].
      rewrite fn_lookup_insert. apply NoDup_cons. split; [apply Hdf|apply F2].
    + intros c' x Hf. apply Hin in Hf as [[-> ->]|[Hf _]]; [done|by apply F3].
  - intros e c' He Hf. apply Hin in Hf as [[E _]|[Hf _]]; [by apply (Hlive e He)|by apply (H10 e c')].
Qed.

(** Another bucket state for the same records and allocations. *)
Lemma sub_rep_rebucket recs t u a f m m' :
  lt_data_start_ofs u = lt_data_start_ofs t -> lt_freelist u = lt_freelist t ->
  lt_next_alloc u = lt_next_alloc t -> lt_current_block u = lt_current_block t ->
  sub_rep recs t a f m ->
  (exists k, 3 <= k <= 30 /\ lt_cap u = 2 ^ k) -> length (lt_vectors u) = 29%nat -> length (lt_buckets_offsets u) = 29%nat ->
  addressable u (lt_cap u) -> keyed u (lt_cap u) (lht_kv recs u) m' ->
  lt_size u = Z.of_nat (length (entries u (lt_cap u))) -> 2 * lt_size u <= lt_cap u ->
  (forall e, e ∈ entries u (lt_cap u) -> e ∈ entries t (lt_cap t)) ->
  sub_rep recs u a f m'.
Proof.
  intros Ed Ef En Ec [H1 H2 H3 H4 H5 H6 H7 H8 H9 H10] C1 C2 C2' C3 C4 C5 C6 Hsub.
  assert (Habs : forall d, abs_ofs u d = abs_ofs t d) by (intros; apply abs_ofs_ext; by rewrite Ed).
  split; auto.
  - destruct H7. split; rewrite ?Ed, ?En, ?Ec; auto.
  - intros e He. rewrite Habs. auto.
  - eapply free_ok_frame; [|done|exact H9]. intros d n Hd. by rewrite Habs.
Qed.

(** A record that was just written. *)
Definition fits (key val : list Z) : Prop := 4 + Z.of_nat (length key) + Z.of_nat (length val) <= 65528.

Definition written (r : lhashtable_record) (key val : list Z) : Prop :=
  lr_word r = lens_word (Z.of_nat (length key)) (Z.of_nat (length val)) /\ exists rest, lr_data r = key ++ val ++ rest.

Lemma written_ok r key val :
  written r key val -> fits key val ->
  rec_ok r /\ rec_units r = units (4 + Z.of_nat (length key) + Z.of_nat (length val))
  /\ forall recs t d, recs !! abs_ofs t d = Some r -> lht_kv recs t d = Some (key, val).
Proof.
  intros [Hw (rest & Hd)] Hf. unfold fits in Hf.
  destruct (lens_word_fields r _ _ Hw) as [Ek Ev]; [lia|lia|]. unfold rec_ok, rec_units, lht_kv. rewrite Ek, Ev, Hd.
  split; [rewrite !length_app; lia|]. split; [done|]. intros recs t d ->.
  by rewrite Ek, Ev, Hd, !Nat2Z.id, take_app_length, drop_app_length, take_app_length.
Qed.

Lemma lt_half_full (t : lhashtable_table) k : 3 <= k -> lt_cap t = 2 ^ k -> Z.shiftr (lt_cap t) 1 * 2 = lt_cap t.
Proof.
  intros Hk ->. rewrite Z.shiftr_div_pow2 by lia. replace k with ((k - 1) + 1) by lia. rewrite Z.pow_add_r by lia.
  rewrite Z.div_mul by lia. lia.
Qed.

Lemma resize_rep m M A F i t :
  lht_rep m M A F -> lm_tables m !! i = Some t -> lt_size t < 2 ^ 28 -> lm_write_loc m <= 2 ^ 59 ->
  exists m' t', _lhashtable_resize_table_if_needed o fd m (Z.of_nat i) = Some m' /\ lht_rep m' M A F
    /\ lm_tables m' = <[i := t']> (lm_tables m) /\ lm_recs m' = lm_recs m /\ lm_size m' = lm_size m
    /\ 2 * lt_size t' < lt_cap t' /\ lt_size t' = lt_size t /\ lt_pos t' = lt_pos t
    /\ lm_write_loc m' <= lm_write_loc m + 2 ^ 32.
Proof using Hgrow Htrunc.
  intros Hrep Ht Hmax Hw. pose proof (lr_sub _ _ _ _ Hrep _ _ Ht) as Hs.
  destruct (sr_cap _ _ _ _ _ Hs) as (k & Hk & Hcap). destruct (sr_is_cap _ _ _ _ _ Hs) as (Hc & Hc2 & Hcb).
  pose proof (sr_load _ _ _ _ _ Hs) as Hload. pose proof (lt_half_full t k ltac:(lia) Hcap) as Hhalf.
  unfold _lhashtable_resize_table_if_needed, sub_table. rewrite Nat2Z.id, Ht. cbn [mbind option_bind].
  rewrite (u32_small (lt_mask t + 1)) by (unfold lt_cap in *; lia). fold (lt_cap t).
  destruct (Z.ltb_spec (lt_size t) (Z.shiftr (lt_cap t) 1)) as [Hlt|Hge].
  { exists m, t. rewrite list_insert_id by done. repeat (split; [first [done|lia]|]). lia. }
  assert (Hk' : k <= 29).
  { destruct (Z.le_gt_cases k 29); [done|]. assert (2 ^ 30 <= 2 ^ k) by (apply Z.pow_le_mono_r; lia). lia. }
  pose proof (lr_room _ _ _ _ Hrep) as [Hroom Hcapm]. unfold sizeof_lht_header in Hroom. unfold sizeof_lht_bucket.
  destruct (alloc_ofs_spec o fd Hgrow Htrunc m (8 * lt_cap t)) as (c & -> & Hc'); try lia.
  assert (Eu : 8 * units (8 * lt_cap t) = 8 * lt_cap t).
  { pose proof (units_bounds (8 * lt_cap t)). lia. }
  rewrite Eu in *. cbn [mbind option_bind]. rewrite Hcap in *.
  assert (ilog2 (2 ^ k) = k) as -> by (unfold ilog2; zcase; [lia|apply Z.log2_pow2; lia]).
  change LHT_SUB_TABLE_MIN_BITS with 3. change (lt_with_vectors t _ _) with (lt_grown t k (lm_write_loc m)).
  destruct (sr_len _ _ _ _ _ Hs) as [Hlv Hlo]. pose proof (sr_addr _ _ _ _ _ Hs) as Ha. pose proof (sr_keyed _ _ _ _ _ Hs) as Hkd.
  pose proof (sr_size _ _ _ _ _ Hs) as Hsz. destruct (sr_free_bucket _ _ _ _ _ Hs) as (z & Hz & Hfz). rewrite Hcap in *.
  destruct (lt_grown_rehash t k (lm_write_loc m) ltac:(lia) Hlv (lht_kv (lm_recs m) t) (filter (in_sub i) M))
    as (t' & -> & [Et' Hvl] & Ha' & Hkd' & Hent); eauto.
  cbn [mbind option_bind]. rewrite Z.shiftl_mul_pow2, (u32_small (2 ^ k * 2 ^ 1)), (u32_small (_ - 1)) by lia.
  set (t2 := lt_with_mask t' _). set (m' := set_sub_table _ _ t2).
  assert (Hc2' : lt_cap t2 = 2 * 2 ^ k) by (unfold lt_cap, t2; cbn [lt_with_mask lt_mask]; lia).
  assert (Esz : lt_size t2 = lt_size t) by (unfold t2; by rewrite Et').
  assert (Etab : lm_tables m' = <[i := t2]> (lm_tables m)) by (cbn; by rewrite Nat2Z.id).
  exists m', t2. split; [done|]. split.
  2: { split; [done|]. do 2 (split; [done|]). rewrite Hc2', Esz. split; [lia|]. split; [done|].
       split; [unfold lt_pos, t2; by rewrite Et'|]. cbn. lia. }
  eapply lht_rep_ext; [apply fn_insert_same|apply fn_insert_same|].
  apply (lht_rep_update m m' M M A F i t2); try done; try (by apply Hrep).
  - apply lookup_lt_Some in Ht. by rewrite (lr_len _ _ _ _ Hrep) in Ht.
  - apply (sub_rep_rebucket _ t t2 _ _ (filter (in_sub i) M)); rewrite ?Hc2', ?Esz, ?Hcap; try (unfold t2; by rewrite Et'); auto; try lia.
    + exists (k + 1). rewrite Z.pow_add_r by lia. lia.
    + change (lt_vectors t2) with (lt_vectors t'). rewrite (same_lengths _ _ Hvl). cbn. unfold doubled. by rewrite length_insert.
    + unfold t2. rewrite Et'. cbn. by rewrite length_insert.
    + eapply keyed_ext; [| |exact Hkd']; [done|]. intros e _. unfold lht_kv. do 2 f_equal. unfold t2. by rewrite Et'.
    + change (entries t2 (2 * 2 ^ k)) with (entries t' (2 * 2 ^ k)). by rewrite Hent.
    + intros e. change (entries t2 (2 * 2 ^ k)) with (entries t' (2 * 2 ^ k)). by rewrite Hent.
  - apply (regions_add m m' (RVector i (Z.to_nat (k - 3 + 1))) (8 * 2 ^ k)); try (by apply Hrep); try (cbn; lia).
    + cbn [lht_span]. rewrite Etab, (sub_table_insert _ _ t) by done. cbn [mbind option_bind].
      change (lt_vectors t2) with (lt_vectors t'). rewrite Hvl. cbn [lt_grown lt_with_vectors lt_vectors]. unfold doubled.
      rewrite list_lookup_insert_eq by lia. cbn [fmap option_fmap option_map]. rewrite length_replicate.
      cbn [mbind option_bind]. unfold t2. rewrite Et'. cbn [lt_with_mask lt_with_vectors lt_buckets_offsets lt_grown].
      rewrite list_lookup_insert_eq by lia. cbn [mbind option_bind]. destruct (Nat.ltb_spec 0 (Z.to_nat (2 ^ k))); [|lia].
      unfold sizeof_lht_bucket. by rewrite Z2Nat.id by lia.
    + intros r Hne. pose proof (lookup_lt_Some _ _ _ Ht) as Hi. destruct r as [j|j v|j b]; cbn [lht_span]; rewrite ?Etab; [done| |];
        (destruct (decide (j = i)) as [->|Hj]; [rewrite list_lookup_insert_eq, Ht by done|by rewrite list_lookup_insert_ne by done]);
        cbn [mbind option_bind]; [|unfold t2; by rewrite Et'].
      change (lt_vectors t2) with (lt_vectors t'). rewrite Hvl. unfold t2. rewrite Et'.
      cbn [lt_grown lt_with_mask lt_with_vectors lt_vectors lt_buckets_offsets]. unfold doubled.
      assert (Z.to_nat (k - 3 + 1) <> v) by congruence. by rewrite !list_lookup_insert_ne.
  - unfold sizeof_lht_header. cbn. lia.
Qed.
(** *** Writing a record *)

Lemma rep_lt m M A F i t : lht_rep m M A F -> lm_tables m !! i = Some t -> (i < 256)%nat.
Proof. intros Hrep Ht. apply lookup_lt_Some in Ht. by rewrite (lr_len _ _ _ _ Hrep) in Ht. Qed.

(** The record of allocation [d] of sub-table [i] is written; the buckets of the table become
    those of [u]. *)
Lemma write_rep m m' M M' A F i t u d r :
  lht_rep m M A F -> lm_tables m !! i = Some t -> A i !! d = Some (rec_units r) -> rec_ok r -> (forall c, d ∉ F i c) ->
  lm_tables m' = <[i := u]> (lm_tables m) -> lm_recs m' = <[abs_ofs t d := r]> (lm_recs m) ->
  lm_write_loc m' = lm_write_loc m -> lm_capacity m' = lm_capacity m -> lm_tables_offsets m' = lm_tables_offsets m ->
  lm_num_data_blocks m' = lm_num_data_blocks m -> lm_size m' = Z.of_nat (size M') ->
  (forall j, j <> i -> filter (in_sub j) M' = filter (in_sub j) M) ->
  u = lt_with_size (lt_with_vectors t (lt_vectors u) (lt_buckets_offsets t)) (lt_size u) ->
  (forall v, length <$> lt_vectors u !! v = length <$> lt_vectors t !! v) ->
  addressable u (lt_cap t) -> keyed u (lt_cap t) (lht_kv (lm_recs m') t) (filter (in_sub i) M') ->
  lt_size u = Z.of_nat (length (entries u (lt_cap t))) -> 2 * lt_size u <= lt_cap t ->
  (forall e, e ∈ entries u (lt_cap t) -> e_rec e = d \/ (e ∈ entries t (lt_cap t) /\ e_rec e <> d)) ->
  lht_rep m' M' (<[i := A i]> A) (<[i := F i]> F).
Proof.
  intros Hrep Ht Hd Hok Hdf Et Er Ew Ec Eo En Es HM Eu Hvl Ha Hk Hsz Hl Hsub.
  pose proof (lr_sub _ _ _ _ Hrep _ _ Ht) as Hs.
  apply (lht_rep_update m m' M M' A F i u); auto; [by eapply rep_lt| | | | |].
  - intros j v x Hj Hv Hx. rewrite Er, lookup_insert_ne; [done|].
    apply (abs_ofs_ne m M A F i j t v); eauto; congruence.
  - assert (Ecap : lt_cap u = lt_cap t) by (by rewrite Eu). destruct (sr_len _ _ _ _ _ Hs) as [Hl1 Hl2].
    apply (sub_rep_link (lm_recs m) _ t u _ _ (filter (in_sub i) M) _ d r); rewrite ?Ecap; auto; try (by rewrite Eu).
    + by rewrite Er, lookup_insert_eq.
    + intros x Hx Hne. rewrite Er, lookup_insert_ne; [done|].
      apply (abs_ofs_ne m M A F i i t t); eauto; congruence.
    + apply Hs.
    + by rewrite (same_lengths _ _ Hvl).
    + eapply keyed_ext; [| |exact Hk]; [done|]. intros e _. unfold lht_kv. do 2 f_equal. by rewrite Eu.
  - eapply regions_same; [apply Hrep|done|]. apply (region_set_table m m' i t u); auto; by rewrite Eu.
  - rewrite Ew, Ec. apply Hrep.
  - rewrite En. apply Hrep.
Qed.

Lemma lht_kv_other m M A F i t d x r :
  lht_rep m M A F -> lm_tables m !! i = Some t -> is_Some (A i !! d) -> is_Some (A i !! x) -> x <> d ->
  lht_kv (<[abs_ofs t d := r]> (lm_recs m)) t x = lht_kv (lm_recs m) t x.
Proof.
  intros Hrep Ht Hd Hx Hne. unfold lht_kv. rewrite lookup_insert_ne; [done|].
  apply (abs_ofs_ne m M A F i i t t); auto. congruence.
Qed.

(** The growth of one operation. *)
Definition lht_small (m : lht_mem) (B n : Z) : Prop :=
  (forall i t, lm_tables m !! i = Some t -> lt_pos t <= B /\ lt_size t <= n) /\ lm_write_loc m <= 2 ^ 25 + n * 2 ^ 33
  /\ lm_size m <= n.

Lemma lht_small_step m m' B n c i t t' :
  lht_small m B n -> lm_tables m !! i = Some t -> lm_tables m' = <[i := t']> (lm_tables m) -> 0 <= c ->
  lt_pos t' <= lt_pos t + c -> lt_size t' <= lt_size t + 1 -> lm_write_loc m' <= lm_write_loc m + 2 ^ 33 ->
  lm_size m' <= lm_size m + 1 -> lht_small m' (B + c) (n + 1).
Proof.
  intros [Ht Hw] Hti Et Hc Hp Hs Hw' Hsz. split; [|lia]. intros j u. rewrite Et.
  destruct (decide (j = i)) as [->|Hne].
  - rewrite list_lookup_insert_eq by (by apply lookup_lt_Some in Hti). intros [= <-]. destruct (Ht i t Hti). lia.
  - rewrite list_lookup_insert_ne by done. intros Hu. destruct (Ht j u Hu). lia.
Qed.

Definition rec_bytes (key val : list Z) : Z := 4 + Z.of_nat (length key) + Z.of_nat (length val).

Lemma u64_rec_bytes key val : fits key val -> u64 (sizeof_lht_record + Z.of_nat (length key) + Z.of_nat (length val)) = rec_bytes key val.
Proof. intros Hf. unfold fits in Hf. unfold rec_bytes, sizeof_lht_record. apply u64_small. lia. Qed.

Lemma insert_new_rep m M A F key val t b :
  lht_rep m M A F -> lm_tables m !! sub_of key = Some t -> M !! key = None ->
  first_hole t (lt_cap t) (Z.land (hashcode key) (lt_cap t - 1)) b -> 2 * lt_size t < lt_cap t -> Z.of_nat (size M) < 2 ^ 31 ->
  fits key val -> lt_pos t + 16 * units (rec_bytes key val) <= 2 ^ 32 -> lm_write_loc m <= 2 ^ 59 ->
  exists m' ofs t' A' F',
    lht_insert_new o fd m (Z.of_nat (sub_of key)) b (hashcode key) key (Z.of_nat (length val)) val = Some (m', ofs)
    /\ lht_rep m' (<[key := val]> M) A' F' /\ lht_refers m' ofs key val
    /\ lm_tables m' = <[sub_of key := t']> (lm_tables m)
    /\ lt_pos t' <= lt_pos t + 16 * units (rec_bytes key val) /\ lt_size t' = lt_size t + 1
    /\ lm_write_loc m' <= lm_write_loc m + 2 ^ 20 /\ lm_size m' = lm_size m + 1.
Proof using Hgrow Htrunc.
  intros Hrep Ht Hm Hh Hload Hsz Hfit Hpos Hw. set (i := sub_of key) in *.
  assert (Hn : 0 < rec_bytes key val <= 65528) by (unfold fits in Hfit; unfold rec_bytes; lia).
  unfold lht_insert_new. rewrite u64_rec_bytes by done.
  destruct (sub_alloc_rep o fd Hgrow Htrunc m M A F i t _ Hrep Ht Hn Hpos Hw) as (m1 & t1 & d & a' & f' & -> & Hsa).
  destruct Hsa as [Hrep1 Et1 Hd Hlive Hdf Er1 (Ev1 & Em1 & Es1) Hold Hw1 Hp1 Esz1].
  assert (Ht1 : lm_tables m1 !! i = Some t1) by (rewrite Et1; by apply (sub_table_insert _ _ t)).
  cbn [mbind option_bind]. unfold sub_table. rewrite Nat2Z.id, Ht1. cbn [mbind option_bind].
  set (r := LRec _ _). set (e := HtEntry (hashcode key) d).
  assert (Ecap : lt_cap t1 = lt_cap t) by (unfold lt_cap; by rewrite Em1).
  pose proof (lr_sub _ _ _ _ Hrep1 _ _ Ht1) as Hs1. rewrite !fn_lookup_insert in Hs1.
  destruct (sr_is_cap _ _ _ _ _ Hs1) as (Hc & _ & Hcb). rewrite Ecap in *.
  pose proof Hh as (Hb & _). pose proof (sr_addr _ _ _ _ _ Hs1) as Ha1. pose proof (sr_size _ _ _ _ _ Hs1) as Hsize1. rewrite Ecap in *.
  assert (Ee : entries t1 (lt_cap t) = entries t (lt_cap t)) by (by apply entries_vectors).
  rewrite (u32_small (lt_size _ + 1)) by (cbn; lia). rewrite (u32_small (lm_size _ + 1)) by (cbn; rewrite Esz1, (lr_size _ _ _ _ Hrep); lia).
  destruct (written_ok r key val) as (Hrok & Hru & Hrkv); [split; [done|]; exists []; by rewrite app_nil_r|done|].
  change (abs_ofs (set_bucket t1 b e) d) with (abs_ofs t1 d).
  set (t' := lt_with_size _ _). set (m' := lm_with_size _ _). exists m', (abs_ofs t1 d), t', (<[i := a']> (<[i := a']> A)), (<[i := f']> (<[i := f']> F)).
  assert (Hold1 : forall x, x ∈ entries t1 (lt_cap t) -> is_Some (a' !! e_rec x) /\ e_rec x <> d).
  { intros x Hx. split; [|apply Hlive; by rewrite <- Ee].
    destruct (sr_live _ _ _ _ _ Hs1 x) as (rx & _ & _ & E); [by rewrite Ecap|eauto]. }
  assert (Hd1 : (<[i := a']> A) i !! d = Some (rec_units r)) by (rewrite fn_lookup_insert, Hru; exact Hd).
  assert (Er' : lm_recs m' = <[abs_ofs t1 d := r]> (lm_recs m1)) by done.
  destruct (keyed_fill t1 (lt_cap t) (lht_kv (lm_recs m1) t1) (lht_kv (lm_recs m') t1) (filter (in_sub i) M) key val b d) as [Hk He]; auto.
  { rewrite <- Ecap. apply Hs1. }
  { by rewrite sub_lookup. }
  { destruct Hh as (H1 & H2 & H3). unfold first_hole, occ in *. setoid_rewrite (bucket_vectors t t1); auto. }
  { eapply alloc_nonzero; eauto. }
  { intros x Hx. by apply Hold1. }
  { intros x Hx. rewrite Er'. destruct (Hold1 x Hx) as [Hx1 Hx2].
    apply (lht_kv_other m1 M (<[i := a']> A) (<[i := f']> F) i); auto; rewrite fn_lookup_insert; eauto. }
  { apply Hrkv. rewrite Er'. apply lookup_insert_eq. }
  fold e in Hk, He. split; [done|]. split; [|split; [|split; [|split; [exact Hp1|split; [cbn; lia|split; cbn; lia]]]]].
  - assert (Et' : lm_tables m' = <[i := t']> (lm_tables m1)) by (cbn; by rewrite Nat2Z.id).
    assert (Erep : lht_rep m' (<[key := val]> M) (<[i := (<[i := a']> A) i]> (<[i := a']> A)) (<[i := (<[i := f']> F) i]> (<[i := f']> F))).
    { apply (write_rep m1 m' M _ _ _ i t1 t' d r); rewrite ?Ecap; auto.
      - rewrite fn_lookup_insert. exact Hdf.
      - cbn. rewrite Esz1, (lr_size _ _ _ _ Hrep), map_size_insert_None by done. lia.
      - intros j Hj. by apply sub_insert_other.
      - intros v. exact (vector_set_lengths (lt_vectors t1) (lht_bucket_place b) e v).
      - change (addressable (set_bucket t1 b e) (lt_cap t)). by apply addressable_set.
      - unfold i. rewrite sub_insert. eapply keyed_ext; [| |exact Hk]; intros; reflexivity.
      - change (entries t' (lt_cap t)) with (entries (set_bucket t1 b e) (lt_cap t)). rewrite He. cbn. lia.
      - destruct (sr_cap _ _ _ _ _ Hs1) as (k & Hk' & Hcap). rewrite Ecap in Hcap.
        pose proof (lt_half_full t k ltac:(lia) Hcap). cbn. lia.
      - intros x. change (entries t' (lt_cap t)) with (entries (set_bucket t1 b e) (lt_cap t)). rewrite He.
        intros [->|Hx]%elem_of_cons; [by left|]. right. split; [done|]. by apply Hold1. }
    rewrite !fn_lookup_insert in Erep. exact Erep.
  - split; [|apply lht_kv_get, Hrkv; apply lookup_insert_eq].
    pose proof (abs_ofs_pos m1 _ _ _ i t1 d Hrep1 Ht1 ltac:(eauto)). lia.
  - cbn. rewrite Nat2Z.id, Et1. by rewrite list_insert_insert_eq.
Qed.
(** *** Freeing and replacing *)

(** What all operations leave of the header. *)
Definition same_header (m m' : lht_mem) : Prop :=
  lm_write_loc m' = lm_write_loc m /\ lm_capacity m' = lm_capacity m /\ lm_tables_offsets m' = lm_tables_offsets m
  /\ lm_num_data_blocks m' = lm_num_data_blocks m.

Lemma free_rep m m' M A F i t d c data :
  lht_rep m M A F -> lm_tables m !! i = Some t -> A i !! d = Some c ->
  (forall e, e ∈ entries t (lt_cap t) -> e_rec e <> d) -> (forall c, d ∉ F i c) ->
  lm_tables m' = <[i := lt_with_freelist t (<[c := d]> (lt_freelist t))]> (lm_tables m) ->
  lm_recs m' = <[abs_ofs t d := LRec (freelist_head t c) data]> (lm_recs m) -> same_header m m' -> lm_size m' = lm_size m ->
  lht_rep m' M (<[i := A i]> A) (<[i := <[c := d :: F i c]> (F i)]> F).
Proof.
  intros Hrep Ht Hd Hlive Hdf Et Er (Ew & Ec & Eo & En) Es.
  eapply (lht_rep_update m m' M M A F i); [done|by eapply rep_lt|exact Et| |done| | | | |].
  - intros j v x Hj Hv Hx. rewrite Er, lookup_insert_ne; [done|].
    apply (abs_ofs_ne m M A F i j t v); eauto; congruence.
  - apply (sub_rep_free (lm_recs m) _ t _ _ _ d c data); auto.
    + by apply Hrep.
    + by rewrite Er, lookup_insert_eq.
    + intros x Hx Hne. rewrite Er, lookup_insert_ne; [done|]. apply (abs_ofs_ne m M A F i i t t); eauto; congruence.
  - eapply regions_same; [apply Hrep|done|]. by eapply region_set_table.
  - rewrite Ew, Ec. apply Hrep.
  - rewrite En. apply Hrep.
  - rewrite Es. apply Hrep.
Qed.

(** A record of another size replaces that of bucket [b]. *)
Lemma replace_rep m M A F key old val t b m1 t1 d a' f' r rold m' :
  let i := sub_of key in
  let d0 := e_rec (bucket t b) in
  let c := rec_units rold in
  lht_rep m M A F -> lm_tables m !! i = Some t -> 0 <= b < lt_cap t -> occ t b ->
  lht_kv (lm_recs m) t d0 = Some (key, old) -> lm_recs m !! abs_ofs t d0 = Some rold -> M !! key = Some old ->
  sub_allocated m M A F i t (rec_bytes key val) m1 t1 d a' f' -> written r key val -> fits key val ->
  lm_tables m' = <[i := set_bucket (lt_with_freelist t1 (<[c := d0]> (lt_freelist t1))) b (HtEntry (e_hashcode (bucket t b)) d)]> (lm_tables m1) ->
  lm_recs m' = <[abs_ofs t1 d := r]> (<[abs_ofs t1 d0 := LRec (freelist_head t1 c) (lr_data rold)]> (lm_recs m1)) ->
  same_header m1 m' -> lm_size m' = lm_size m1 ->
  exists A' F', lht_rep m' (<[key := val]> M) A' F' /\ lht_refers m' (abs_ofs t1 d) key val.
Proof.
  intros i d0 c Hrep Ht Hb Ho Hkv Hrold Hm [Hrep1 Et1 Hd Hlive Hdf Er1 (Ev1 & Em1 & Es1) Hold _ _ Esz1] Hwr Hfit Et' Er' Hhd Esz'.
  assert (Ht1 : lm_tables m1 !! i = Some t1) by (rewrite Et1; by apply (sub_table_insert _ _ t)).
  assert (Ecap : lt_cap t1 = lt_cap t) by (unfold lt_cap; by rewrite Em1).
  set (A1 := <[i := a']> A) in *. set (F1 := <[i := f']> F) in *.
  assert (EA1 : A1 i = a') by apply fn_lookup_insert. assert (EF1 : F1 i = f') by apply fn_lookup_insert.
  pose proof (lr_sub _ _ _ _ Hrep _ _ Ht) as Hs. pose proof (lr_sub _ _ _ _ Hrep1 _ _ Ht1) as Hs1. rewrite EA1, EF1 in Hs1.
  assert (Ebk : forall x, bucket t1 x = bucket t x) by (intros; by apply bucket_vectors).
  assert (Ee : entries t1 (lt_cap t) = entries t (lt_cap t)) by (by apply entries_vectors).
  assert (Hbin : bucket t b ∈ entries t (lt_cap t)) by (apply elem_of_entries; eauto).
  destruct (sr_live _ _ _ _ _ Hs _ Hbin) as (r0 & Er0 & _ & Ha0). fold d0 in Er0, Ha0.
  rewrite Hrold in Er0. injection Er0 as <-. destruct (Hold d0 _ Ha0) as [Eabs0 Ha0']. fold c in Ha0'.
  assert (Hdne : d0 <> d) by (by apply Hlive).
  destruct (written_ok r key val Hwr Hfit) as (Hrok & Hru & Hrkv).
  assert (Hd1 : A1 i !! d = Some (rec_units r)) by (rewrite EA1, Hru; exact Hd).
  set (e' := HtEntry (e_hashcode (bucket t b)) d) in *.
  set (t2 := set_bucket t1 b e').
  set (m2 := LMem (lm_flags m1) (lm_write_loc m1) (lm_capacity m1) (lm_tables_offsets m1) (lm_num_data_blocks m1) (lm_size m1)
               (<[i := t2]> (lm_tables m1)) (<[abs_ofs t1 d := r]> (lm_recs m1))).
  pose proof (sr_addr _ _ _ _ _ Hs1) as Ha1. rewrite Ecap in Ha1.
  destruct (sr_is_cap _ _ _ _ _ Hs) as (Hc & _ & _).
  destruct (keyed_replace t1 (lt_cap t) (lht_kv (lm_recs m1) t1) (lht_kv (lm_recs m2) t1) (filter (in_sub i) M) key old val b d) as [Hk Hlen]; auto.
  { rewrite <- Ecap. apply Hs1. }
  { unfold occ. by rewrite Ebk. }
  { rewrite Ebk. fold d0. unfold lht_kv. rewrite Er1, Eabs0. exact Hkv. }
  { eapply alloc_nonzero; eauto. }
  { intros e He Hne. assert (e_rec e <> d) by (apply Hlive; by rewrite <- Ee). split; [done|].
    destruct (sr_live _ _ _ _ _ Hs1 e) as (rx & _ & _ & E); [by rewrite Ecap|].
    apply (lht_kv_other m1 M A1 F1 i); auto; rewrite EA1; eauto. }
  { apply Hrkv. apply lookup_insert_eq. }
  rewrite Ebk in Hk, Hlen. fold e' t2 in Hk, Hlen.
  assert (Hsub : forall e, e ∈ entries t2 (lt_cap t) -> e_rec e = d \/ (e ∈ entries t1 (lt_cap t) /\ e_rec e <> d /\ e_rec e <> d0)).
  { intros e (x & Hx & Hox & <-)%elem_of_entries. destruct (Z.eq_dec x b) as [->|Hxb].
    - left. unfold t2. by rewrite (bucket_set_eq t1 (lt_cap t)) by auto.
    - right. unfold t2, occ in *. rewrite (bucket_set_ne t1 (lt_cap t)) in * by auto.
      assert (Hin : bucket t1 x ∈ entries t1 (lt_cap t)) by (apply elem_of_entries; eauto). split; [done|].
      split; [apply Hlive; by rewrite <- Ee|]. intros E. apply Hxb.
      apply (keyed_cell_inj t1 (lt_cap t) (lht_kv (lm_recs m1) t1) (filter (in_sub i) M)); auto; [rewrite <- Ecap; apply Hs1|].
      rewrite (Ebk b). exact E. }
  assert (Hrep2 : lht_rep m2 (<[key := val]> M) (<[i := A1 i]> A1) (<[i := F1 i]> F1)).
  { apply (write_rep m1 m2 M _ _ _ i t1 t2 d r); rewrite ?Ecap; auto.
    - by rewrite EF1.
    - cbn. rewrite Esz1, (lr_size _ _ _ _ Hrep), map_size_insert_Some by eauto. done.
    - intros j Hj. by apply sub_insert_other.
    - intros v. exact (vector_set_lengths (lt_vectors t1) (lht_bucket_place b) e' v).
    - by apply addressable_set.
    - unfold i. by rewrite sub_insert.
    - rewrite Hlen. pose proof (sr_size _ _ _ _ _ Hs1) as E. by rewrite Ecap in E.
    - pose proof (sr_load _ _ _ _ _ Hs1) as E. by rewrite Ecap in E.
    - intros e He. destruct (Hsub e He) as [?|(? & ? & _)]; auto. }
  assert (Ht2 : lm_tables m2 !! i = Some t2) by (by apply (sub_table_insert m1 _ t1)).
  eexists _, _. split.
  - apply (free_rep m2 m' _ _ _ i t2 d0 c (lr_data rold) Hrep2 Ht2); auto.
    + by rewrite fn_lookup_insert, EA1.
    + intros e He. change (lt_cap t2) with (lt_cap t1) in He. rewrite Ecap in He. destruct (Hsub e He) as [->|(_ & _ & ?)]; auto.
    + intros c'. rewrite fn_lookup_insert, EF1. intros Hin. apply (sr_sep _ _ _ _ _ Hs1 (bucket t b) c').
      * by rewrite Ecap, Ee.
      * exact Hin.
    + rewrite Et'. cbn. by rewrite list_insert_insert_eq.
    + rewrite Er'. change (abs_ofs t2 d0) with (abs_ofs t1 d0). change (lm_recs m2) with (<[abs_ofs t1 d := r]> (lm_recs m1)).
      apply insert_insert_ne. apply (abs_ofs_ne m1 M A1 F1 i i t1 t1); auto; rewrite ?EA1; eauto; congruence.
  - split; [|apply lht_kv_get, Hrkv; rewrite Er'; apply lookup_insert_eq].
    pose proof (abs_ofs_pos m1 _ _ _ i t1 d Hrep1 Ht1 ltac:(rewrite EA1; eauto)). lia.
Qed.
(** A record of the same size is overwritten. *)
Lemma inplace_rep m m' M A F key old val t b r rold :
  let i := sub_of key in
  let d := e_rec (bucket t b) in
  lht_rep m M A F -> lm_tables m !! i = Some t -> 0 <= b < lt_cap t -> occ t b ->
  lht_kv (lm_recs m) t d = Some (key, old) -> lm_recs m !! abs_ofs t d = Some rold -> M !! key = Some old ->
  written r key val -> fits key val -> rec_units r = rec_units rold ->
  m' = lm_with_recs m (<[abs_ofs t d := r]> (lm_recs m)) ->
  exists A' F', lht_rep m' (<[key := val]> M) A' F' /\ lht_refers m' (abs_ofs t d) key val.
Proof.
  intros i d Hrep Ht Hb Ho Hkv Hrold Hm Hwr Hfit Hru' ->. set (m' := lm_with_recs _ _).
  pose proof (lr_sub _ _ _ _ Hrep _ _ Ht) as Hs. assert (Hbin : bucket t b ∈ entries t (lt_cap t)) by (apply elem_of_entries; eauto).
  destruct (sr_live _ _ _ _ _ Hs _ Hbin) as (r0 & Er0 & _ & Ha0). fold d in Er0, Ha0. rewrite Hrold in Er0. injection Er0 as <-.
  destruct (written_ok r key val Hwr Hfit) as (Hrok & Hru & Hrkv).
  destruct (sr_is_cap _ _ _ _ _ Hs) as (Hc & _ & _). pose proof (sr_addr _ _ _ _ _ Hs) as Ha.
  pose proof (sr_keyed _ _ _ _ _ Hs) as Hkd.
  assert (Hne : forall e, e ∈ entries t (lt_cap t) -> e <> bucket t b -> e_rec e <> d).
  { intros e (x & Hx & Hox & <-)%elem_of_entries Hne E. apply Hne. f_equal. by eapply (keyed_cell_inj t (lt_cap t)). }
  destruct (keyed_replace t (lt_cap t) (lht_kv (lm_recs m) t) (lht_kv (lm_recs m') t) (filter (in_sub i) M) key old val b d) as [Hk Hlen]; auto.
  { intros e He Hn. split; [by apply Hne|]. destruct (sr_live _ _ _ _ _ Hs e He) as (rx & _ & _ & E).
    apply (lht_kv_other m M A F i); eauto. }
  { apply Hrkv. apply lookup_insert_eq. }
  assert (Hid : forall x, 0 <= x < lt_cap t -> bucket t x = bucket (set_bucket t b (HtEntry (e_hashcode (bucket t b)) d)) x).
  { intros x Hx. destruct (Z.eq_dec x b) as [->|Hxb].
    - rewrite (bucket_set_eq t (lt_cap t)) by auto. unfold d. by destruct (bucket t b).
    - by rewrite (bucket_set_ne t (lt_cap t)) by auto. }
  eexists _, _. split.
  - apply (write_rep m m' M _ A F i t t d r); auto; try (by apply Hs).
    + rewrite Hru'. exact Ha0.
    + intros c. apply (sr_sep _ _ _ _ _ Hs _ c Hbin).
    + cbn. by rewrite list_insert_id.
    + cbn. rewrite (lr_size _ _ _ _ Hrep), map_size_insert_Some by eauto. done.
    + intros j Hj. by apply sub_insert_other.
    + by destruct t.
    + unfold i. rewrite sub_insert. eapply keyed_ext; [exact Hid|done|exact Hk].
    + intros e He. destruct (decide (e_rec e = d)); auto.
  - split; [|apply lht_kv_get, Hrkv; apply lookup_insert_eq].
    pose proof (abs_ofs_pos m _ _ _ i t d Hrep Ht ltac:(eauto)). lia.
Qed.

Lemma rec_size_units r : rec_ok r -> rec_size (lr_key_len r) (lr_val_len r) = 8 * rec_units r.
Proof.
  intros (Hk & Hv & Hs & _). unfold rec_size, rec_units, sizeof_lht_record. rewrite u64_small by lia.
  apply LHT_X_ALIGN_units. lia.
Qed.

Lemma rec_size_bytes key val :
  fits key val -> rec_size (Z.of_nat (length key)) (Z.of_nat (length val)) = 8 * units (rec_bytes key val).
Proof. intros Hf. unfold rec_size. rewrite u64_rec_bytes by done. apply LHT_X_ALIGN_units. unfold fits in Hf. unfold rec_bytes. lia. Qed.

Lemma add_to_freelist_eq m i t rec_ofs d n r :
  lm_tables m !! i = Some t -> lm_recs m !! rec_ofs = Some r -> 0 <= n <= 65528 ->
  _lhashtable_add_to_freelist m (Z.of_nat i) rec_ofs d n
  = Some (set_sub_table (lm_with_recs m (<[rec_ofs := LRec (freelist_head t (units n)) (lr_data r)]> (lm_recs m))) (Z.of_nat i)
            (lt_with_freelist t (<[units n := d]> (lt_freelist t)))).
Proof.
  intros Ht Hr Hn. unfold _lhashtable_add_to_freelist, sub_table. rewrite Nat2Z.id, Ht. cbn [mbind option_bind].
  rewrite (proj1 (freelist_index_units n Hn)). cbn [mbind option_bind]. rewrite Hr. done.
Qed.

(** The record found by the search. *)
Lemma found_rec m M A F i t b key v :
  lht_rep m M A F -> lm_tables m !! i = Some t -> 0 <= b < lt_cap t -> occ t b ->
  lht_kv (lm_recs m) t (e_rec (bucket t b)) = Some (key, v) ->
  exists r, lm_recs m !! abs_ofs t (e_rec (bucket t b)) = Some r /\ rec_ok r /\ A i !! e_rec (bucket t b) = Some (rec_units r)
    /\ lr_key_len r = Z.of_nat (length key) /\ lr_val_len r = Z.of_nat (length v)
    /\ exists rest, lr_data r = key ++ v ++ rest.
Proof.
  intros Hrep Ht Hb Ho Hkv. destruct (sr_live _ _ _ _ _ (lr_sub _ _ _ _ Hrep _ _ Ht) (bucket t b)) as (r & Er & Hok & Ha);
    [apply elem_of_entries; eauto|]. exists r. split; [done|]. split; [done|]. split; [done|].
  unfold lht_kv in Hkv. rewrite Er in Hkv. injection Hkv as <- <-. destruct Hok as (Hk & Hv & _ & Hl).
  rewrite !length_take, length_drop. split; [lia|]. split; [lia|].
  exists (drop (Z.to_nat (lr_val_len r)) (drop (Z.to_nat (lr_key_len r)) (lr_data r))). by rewrite !take_drop.
Qed.
(** ** The operations *)

Section Put.
Variables (m : lht_mem) (M : kvmap) (A : nat -> allocs) (F : nat -> Z -> list Z) (B n : Z) (key val : list Z).
Hypothesis Hrep : lht_rep m M A F.
Hypothesis Hsmall : lht_small m B n.
Hypothesis Hn : n < 2 ^ 25.
Hypothesis Hfit : fits key val.
Let cost : Z := 16 * units (rec_bytes key val).
Hypothesis HB : B + cost <= 2 ^ 32.

(** What both put operations establish. *)
Definition put_result (m' : lht_mem) (ofs : Z) (v : list Z) : Prop :=
  (exists A' F', lht_rep m' (<[key := v]> M) A' F') /\ lht_refers m' ofs key v /\ lht_small m' (B + cost) (n + 1).

Lemma rec_bytes_range : 0 < rec_bytes key val <= 65528.
Proof using Hfit. unfold fits in Hfit. unfold rec_bytes. lia. Qed.

(** The table after the growth, and what the search finds. *)
Lemma put_search :
  exists m1 t0 t b, _lhashtable_resize_table_if_needed o fd m (Z.of_nat (sub_of key)) = Some m1 /\ lht_rep m1 M A F
    /\ lm_tables m !! sub_of key = Some t0 /\ lm_tables m1 = <[sub_of key := t]> (lm_tables m) /\ lm_tables m1 !! sub_of key = Some t
    /\ lt_pos t = lt_pos t0 /\ lt_size t = lt_size t0 /\ 2 * lt_size t < lt_cap t
    /\ lm_write_loc m1 <= lm_write_loc m + 2 ^ 32 /\ lm_size m1 = lm_size m
    /\ lht_find m1 t (hashcode key) key = Some b /\ 0 <= b < lt_cap t
    /\ ((occ t b /\ exists v, lht_kv (lm_recs m1) t (e_rec (bucket t b)) = Some (key, v) /\ M !! key = Some v)
        \/ (M !! key = None /\ first_hole t (lt_cap t) (Z.land (hashcode key) (lt_cap t - 1)) b)).
Proof using Hgrow Htrunc Hrep Hsmall Hn HB.
  destruct (rep_table _ _ _ _ key Hrep) as [t0 Ht0]. destruct Hsmall as (Hts & Hws & Hss). destruct (Hts _ _ Ht0) as [Hp Hsz].
  destruct (resize_rep m M A F _ t0 Hrep Ht0 ltac:(lia) ltac:(lia)) as (m1 & t & E1 & Hrep1 & Et & Er & Es & Hload & Esz & Ep & Hw1).
  assert (Ht : lm_tables m1 !! sub_of key = Some t) by (rewrite Et; by apply (sub_table_insert _ _ t0)).
  destruct (lht_find_spec m1 t _ _ _ key (lr_sub _ _ _ _ Hrep1 _ _ Ht)) as (b & Hf & Hb & Hcase). rewrite sub_lookup in Hcase.
  exists m1, t0, t, b. repeat (split; [done|]). done.
Qed.

Lemma lht_put_rep : exists m' ofs, lhashtable_put o fd m key val = Some (m', ofs) /\ put_result m' ofs val.
Proof using Hgrow Htrunc Hrep Hsmall Hn Hfit HB.
  destruct put_search as (m1 & t0 & t & b & E1 & Hrep1 & Ht0 & Et & Ht & Ep & Esz & Hload & Hw & Es & Hf & Hb & Hcase).
  destruct Hsmall as (Hts & Hws & Hss). destruct (Hts _ _ Ht0) as [Hp Hsz]. pose proof rec_bytes_range as Hrb.
  pose proof (units_bounds (rec_bytes key val)) as Hub. fold cost in Hub.
  unfold lhashtable_put. rewrite (proj1 (sub_of_spec key)), E1. cbn [mbind option_bind]. unfold sub_table.
  rewrite !(Nat2Z.id (sub_of key)), Ht. cbn [mbind option_bind]. rewrite Hf. cbn [mbind option_bind].
  destruct Hcase as [(Ho & v & Hkv & Hm)|(Hm & Hh)].
  2: { rewrite (hole_free _ _ _ _ Hh).
       destruct (insert_new_rep m1 M A F key val t b Hrep1 Ht Hm Hh Hload) as (m' & ofs & t' & A' & F' & -> & Hrep' & Href & Et' & Hp' & Hs' & Hw' & Esz'); auto; try lia.
       { rewrite <- (lr_size _ _ _ _ Hrep). lia. }
       exists m', ofs. split; [done|]. split; [eauto|]. split; [done|].
       rewrite Et, list_insert_insert_eq in Et'. eapply (lht_small_step m m' B n cost _ t0 t'); eauto; lia. }
  rewrite (proj2 (is_free_false _) Ho). cbn [mbind option_bind].
  destruct (found_rec m1 M A F _ t b key v Hrep1 Ht Hb Ho Hkv) as (r & Er & Hok & Ha & Ek & Ev & rest & Hdata).
  rewrite Er. cbn [mbind option_bind]. rewrite (rec_size_bytes key val Hfit), (rec_size_units r Hok).
  destruct (Z.eqb_spec (8 * units (rec_bytes key val)) (8 * rec_units r)) as [Eu|Nu]; cbn [negb].
  - (* the record is overwritten *)
    set (m' := lm_with_recs _ _). eexists m', _. split; [done|].
    set (r' := LRec _ _) in m'. assert (Hwr : written r' key val).
    { split; [cbn; by rewrite Ek|]. eexists. cbn. by rewrite Hdata, take_app_length. }
    destruct (inplace_rep m1 m' M A F key v val t b r' r) as (A' & F' & Hrep' & Href); auto.
    { rewrite (proj1 (proj2 (written_ok r' key val Hwr Hfit))). unfold rec_bytes in Eu. lia. }
    split; [eauto|]. split; [done|]. eapply (lht_small_step m m' B n cost _ t0 t); eauto; cbn; lia.
  - (* another record *)
    assert (Hal : units (8 * units (rec_bytes key val)) = units (rec_bytes key val)) by apply units_idem.
    destruct (sub_alloc_rep o fd Hgrow Htrunc m1 M A F (sub_of key) t (8 * units (rec_bytes key val)) Hrep1 Ht) as (m2 & t2 & d & a' & f' & -> & Hsa);
      try lia.
    assert (Hsa' : sub_allocated m1 M A F (sub_of key) t (rec_bytes key val) m2 t2 d a' f').
    { destruct Hsa as [X1 X2 X3 X4 X5 X6 X7 X8 X9 X10 X11]. rewrite Hal in *. by split. }
    pose proof Hsa' as [_ Et2 _ _ _ Er2 _ Hold Hw2 Hp2 Es2]. cbn [mbind option_bind].
    destruct (Hold _ _ Ha) as [Eabs _]. rewrite <- Eabs.
    assert (Ht2 : lm_tables m2 !! sub_of key = Some t2) by (rewrite Et2; by apply (sub_table_insert _ _ t)).
    assert (Hru8 : 0 <= 8 * rec_units r <= 65528).
    { unfold rec_units. pose proof (units_bounds (4 + lr_key_len r + lr_val_len r)). destruct Hok as (? & ? & ? & _). lia. }
    rewrite (add_to_freelist_eq m2 (sub_of key) t2 _ _ _ r Ht2) by (rewrite ?Er2, ?Eabs; auto). cbn [mbind option_bind].
    assert (units (8 * rec_units r) = rec_units r) as -> by apply units_idem.
    unfold sub_table. cbn [set_sub_table lm_with_tables lm_tables lm_with_recs]. rewrite !Nat2Z.id, (sub_table_insert _ _ t2) by done.
    cbn [mbind option_bind]. change (abs_ofs (set_bucket _ b _) d) with (abs_ofs t2 d). eexists _, _. split; [done|].
    set (m' := set_sub_table _ _ _).
    assert (Et' : lm_tables m' = <[sub_of key := set_bucket (lt_with_freelist t2 (<[rec_units r := e_rec (bucket t b)]> (lt_freelist t2))) b
      (HtEntry (e_hashcode (bucket t b)) d)]> (lm_tables m2)) by (cbn; by rewrite Nat2Z.id, list_insert_insert_eq).
    destruct (replace_rep m1 M A F key v val t b m2 t2 d a' f' (LRec (lens_word (Z.of_nat (length key)) (Z.of_nat (length val))) (key ++ val)) r m')
      as (A' & F' & Hrep' & Href); auto.
    { split; [done|]. exists []. by rewrite app_nil_r. }
    { unfold same_header. done. }
    rewrite Et2, Et, !list_insert_insert_eq in Et'.
    split; [eauto|]. split; [done|]. eapply (lht_small_step m m' B n cost _ t0); eauto; try lia;
      cbn; destruct Hsa' as [_ _ _ _ _ _ (_ & _ & ?) _ _ ? _]; unfold lt_pos in *; cbn; lia.
Qed.
(** [val] are the bytes that happen to be in the memory of a new record: the value keeps the
    old bytes as far as both lengths go. *)
Lemma lht_put_key_rep :
  exists m' ofs v, lhashtable_put_key o fd m key (Z.of_nat (length val)) val = Some (m', ofs, bool_decide (M !! key = None))
    /\ put_result m' ofs v /\ length v = length val
    /\ match M !! key with
       | None => v = val
       | Some old => forall k, (k <= length old)%nat -> (k <= length val)%nat -> take k v = take k old
       end.
Proof using Hgrow Htrunc Hrep Hsmall Hn Hfit HB.
  destruct put_search as (m1 & t0 & t & b & E1 & Hrep1 & Ht0 & Et & Ht & Ep & Esz & Hload & Hw & Es & Hf & Hb & Hcase).
  destruct Hsmall as (Hts & Hws & Hss). destruct (Hts _ _ Ht0) as [Hp Hsz]. pose proof rec_bytes_range as Hrb.
  pose proof (units_bounds (rec_bytes key val)) as Hub. fold cost in Hub.
  unfold lhashtable_put_key. rewrite (proj1 (sub_of_spec key)), E1. cbn [mbind option_bind]. unfold sub_table.
  rewrite !(Nat2Z.id (sub_of key)), Ht. cbn [mbind option_bind]. rewrite Hf. cbn [mbind option_bind].
  destruct Hcase as [(Ho & vo & Hkv & Hm)|(Hm & Hh)]; rewrite Hm.
  2: { rewrite (hole_free _ _ _ _ Hh).
       destruct (insert_new_rep m1 M A F key val t b Hrep1 Ht Hm Hh Hload) as (m' & ofs & t' & A' & F' & -> & Hrep' & Href & Et' & Hp' & Hs' & Hw' & Esz'); auto; try lia.
       { rewrite <- (lr_size _ _ _ _ Hrep). lia. }
       exists m', ofs, val. split; [done|]. split; [|done]. split; [eauto|]. split; [done|].
       rewrite Et, list_insert_insert_eq in Et'. eapply (lht_small_step m m' B n cost _ t0 t'); eauto; lia. }
  rewrite (proj2 (is_free_false _) Ho). cbn [mbind option_bind].
  destruct (found_rec m1 M A F _ t b key vo Hrep1 Ht Hb Ho Hkv) as (r & Er & Hok & Ha & Ek & Ev & rest & Hdata).
  rewrite Er. cbn [mbind option_bind]. rewrite (rec_size_bytes key val Hfit), (rec_size_units r Hok).
  destruct (Z.eqb_spec (8 * units (rec_bytes key val)) (8 * rec_units r)) as [Eu|Nu]; cbn [negb].
  - (* the record keeps its place *)
    set (m' := lm_with_recs _ _). set (r' := LRec _ _) in m'.
    set (tail := (vo ++ rest) ++ drop (length (vo ++ rest)) val).
    assert (Htail : lr_data r' = key ++ tail).
    { cbn. rewrite Hdata, length_app. replace (length key + length (vo ++ rest) - length key)%nat with (length (vo ++ rest)) by lia.
      by rewrite <- app_assoc. }
    assert (Hlt : (length val <= length tail)%nat) by (unfold tail; rewrite length_app, length_drop; lia).
    set (v := take (length val) tail). assert (Hlv : length v = length val) by (unfold v; rewrite length_take; lia).
    assert (Hwr : written r' key v).
    { split; [cbn; by rewrite Ek, Hlv|]. exists (drop (length val) tail). rewrite Htail. unfold v. by rewrite take_drop. }
    assert (Hfv : fits key v) by (unfold fits; rewrite Hlv; exact Hfit).
    destruct (inplace_rep m1 m' M A F key vo v t b r' r) as (A' & F' & Hrep' & Href); auto.
    { rewrite (proj1 (proj2 (written_ok r' key v Hwr Hfv))), Hlv. unfold rec_bytes in Eu. lia. }
    eexists m', _, v. split; [done|]. split; [split; [eauto|]; split; [done|]|].
    + eapply (lht_small_step m m' B n cost _ t0 t); eauto; cbn; lia.
    + split; [done|]. intros k Hko Hkv'. unfold v, tail. rewrite take_take, Nat.min_l by lia.
      rewrite <- app_assoc. rewrite take_app_le by lia. done.
  - (* another record *)
    assert (Hal : units (8 * units (rec_bytes key val)) = units (rec_bytes key val)) by apply units_idem.
    destruct (sub_alloc_rep o fd Hgrow Htrunc m1 M A F (sub_of key) t (8 * units (rec_bytes key val)) Hrep1 Ht) as (m2 & t2 & d & a' & f' & -> & Hsa);
      try lia.
    set (kept := Z.to_nat (Z.min (Z.of_nat (length val)) (lr_val_len r))).
    set (v := take kept (drop (length key) (lr_data r)) ++ drop kept val).
    assert (Hv : v = take kept vo ++ drop kept val).
    { unfold v. rewrite Hdata, drop_app_length, take_app_le by lia. done. }
    assert (Hlv : length v = length val) by (rewrite Hv, length_app, length_take, length_drop; lia).
    assert (Hsa' : sub_allocated m1 M A F (sub_of key) t (rec_bytes key v) m2 t2 d a' f').
    { unfold rec_bytes in *. rewrite Hlv. destruct Hsa as [X1 X2 X3 X4 X5 X6 X7 X8 X9 X10 X11]. rewrite Hal in *. by split. }
    pose proof Hsa' as [Hrep2 Et2 Hd2 Hlive2 _ Er2 _ Hold Hw2 Hp2 Es2]. cbn [mbind option_bind].
    destruct (Hold _ _ Ha) as [Eabs Ha2]. rewrite <- Eabs.
    assert (Ht2 : lm_tables m2 !! sub_of key = Some t2) by (rewrite Et2; by apply (sub_table_insert _ _ t)).
    rewrite Ht2. cbn [mbind option_bind].
    assert (Hru8 : 0 <= 8 * rec_units r <= 65528).
    { unfold rec_units. pose proof (units_bounds (4 + lr_key_len r + lr_val_len r)). destruct Hok as (? & ? & ? & _). lia. }
    assert (Hne : abs_ofs t2 d <> abs_ofs t2 (e_rec (bucket t b))).
    { apply (abs_ofs_ne m2 M _ _ (sub_of key) (sub_of key) t2 t2 _ _ Hrep2); rewrite ?fn_lookup_insert; eauto.
      assert (e_rec (bucket t b) <> d) by (apply Hlive2; apply elem_of_entries; eauto). congruence. }
    erewrite (add_to_freelist_eq _ (sub_of key) t2 _ _ _ r); [|exact Ht2|cbn [lm_recs lm_with_recs]; rewrite lookup_insert_ne, Er2, Eabs by done; exact Er|done].
    cbn [mbind option_bind].
    assert (units (8 * rec_units r) = rec_units r) as -> by apply units_idem.
    cbn [set_sub_table lm_with_tables lm_tables lm_with_recs lm_recs]. rewrite !Nat2Z.id, (sub_table_insert _ _ t2) by done.
    cbn [mbind option_bind]. eexists _, _, v. split; [done|]. set (m' := set_sub_table _ _ _).
    assert (Et' : lm_tables m' = <[sub_of key := set_bucket (lt_with_freelist t2 (<[rec_units r := e_rec (bucket t b)]> (lt_freelist t2))) b
      (HtEntry (e_hashcode (bucket t b)) d)]> (lm_tables m2)) by (cbn; by rewrite Nat2Z.id, list_insert_insert_eq).
    destruct (replace_rep m1 M A F key vo v t b m2 t2 d a' f' (LRec (lens_word (Z.of_nat (length key)) (Z.of_nat (length val))) (key ++ v)) r m')
      as (A' & F' & Hrep' & Href); auto.
    { split; [cbn; by rewrite Hlv|]. exists []. by rewrite app_nil_r. }
    { unfold fits. rewrite Hlv. exact Hfit. }
    { by apply insert_insert_ne. }
    { unfold same_header. done. }
    rewrite Et2, Et, !list_insert_insert_eq in Et'. split; [split; [eauto|]; split; [done|]|split; [done|]].
    + unfold rec_bytes in Hp2. rewrite Hlv in Hp2. eapply (lht_small_step m m' B n cost _ t0); eauto; try lia;
        cbn; destruct Hsa' as [_ _ _ _ _ _ (_ & _ & ?) _ _ ? _]; unfold lt_pos, rec_bytes in *; cbn; lia.
    + intros k Hko Hkv'. rewrite Hv, take_app_le by (rewrite length_take; lia). rewrite take_take. f_equal. lia.
Qed.
End Put.
(** *** Deleting *)

(** The bucket [b] is emptied and its record is the head of a free list. *)
Lemma unlink_rep recs recs' t u a f M key v b r :
  sub_rep recs t a f M -> 0 <= b < lt_cap t -> occ t b -> lht_kv recs t (e_rec (bucket t b)) = Some (key, v) ->
  let d := e_rec (bucket t b) in
  recs !! abs_ofs t d = Some r -> a !! d = Some (rec_units r) ->
  recs' !! abs_ofs t d = Some (LRec (freelist_head t (rec_units r)) (lr_data r)) ->
  (forall x, is_Some (a !! x) -> x <> d -> recs' !! abs_ofs t x = recs !! abs_ofs t x) ->
  u = lt_with_size (lt_with_freelist t (<[rec_units r := d]> (lt_freelist t))) (lt_size t - 1) ->
  exists u', fix_chain_down (round (lt_mask t)) (lt_with_size (set_bucket (lt_with_freelist t (<[rec_units r := d]> (lt_freelist t))) b
        (HtEntry (e_hashcode (bucket t b)) 0)) (lt_size t - 1)) (lt_mask t) (next_bucket (lt_mask t) b) = Some u'
    /\ same_but_cells u u' /\ sub_rep recs' u' a (<[rec_units r := d :: f (rec_units r)]> f) (delete key M).
Proof.
  intros Hs Hb Ho Hkv d Hr Hd Hrd Hx Eu. set (c := rec_units r) in *.
  destruct (sr_is_cap _ _ _ _ _ Hs) as (Hc & _ & _). pose proof (sr_addr _ _ _ _ _ Hs) as Ha.
  pose proof (sr_keyed _ _ _ _ _ Hs) as Hkd.
  assert (Hku : keyed u (lt_cap t) (lht_kv recs t) M) by (subst u; eapply (keyed_ext t); [intros; reflexivity|done|exact Hkd]).
  destruct (keyed_remove u (lt_cap t) (lht_kv recs t) M key v b) as (u' & E & Hup & Hk' & Hent); auto; try (subst u; done).
  { subst u. exact (sr_free_bucket _ _ _ _ _ Hs). }
  replace (lt_mask t) with (lt_cap t - 1) by (unfold lt_cap; lia). exists u'. split; [subst u; exact E|].
  destruct (lt_updates_same _ _ _ Hup) as [Eu' Hvl]. split; [by split|].
  set (t0 := lt_with_freelist u' (lt_freelist t)).
  assert (Et0 : t0 = lt_with_size (lt_with_vectors t (lt_vectors u') (lt_buckets_offsets t)) (lt_size t - 1))
    by (unfold t0; rewrite Eu', Eu; reflexivity).
  assert (Ee : forall cap, entries t0 cap = entries u' cap) by done.
  assert (Heu : entries u (lt_cap t) = entries t (lt_cap t)) by (by subst u). rewrite Heu in Hent.
  assert (Ecap : lt_cap t0 = lt_cap t) by (by rewrite Et0).
  assert (Hs0 : sub_rep recs t0 a f (delete key M)).
  { destruct (sr_len _ _ _ _ _ Hs) as [Hl1 Hl2].
    apply (sub_rep_rebucket recs t t0 a f M); rewrite ?Ecap; auto; try (by rewrite Et0).
    - apply Hs.
    - change (lt_vectors t0) with (lt_vectors u'). rewrite (same_lengths _ _ Hvl). by subst u.
    - change (addressable u' (lt_cap t)). eapply updates_addressable; [exact Hup|]. by subst u.
    - eapply (keyed_ext u'); [intros; reflexivity| |exact Hk']. intros e _. unfold lht_kv. do 2 f_equal. by rewrite Et0.
    - rewrite Ee. pose proof (sr_size _ _ _ _ _ Hs) as E1. rewrite Hent in E1. cbn [length] in E1. rewrite Et0. cbn [lt_with_size lt_size]. lia.
    - rewrite Et0. cbn [lt_with_size lt_size]. pose proof (sr_load _ _ _ _ _ Hs). lia.
    - intros e. rewrite Ee, Hent. intros He. by right. }
  assert (Eend : u' = lt_with_freelist t0 (<[c := d]> (lt_freelist t0))) by (unfold t0; rewrite Eu', Eu; reflexivity).
  assert (Habs : forall x, abs_ofs t0 x = abs_ofs t x) by (intros; by rewrite Et0).
  rewrite Eend. apply (sub_rep_free recs recs' t0 a f _ d c (lr_data r)); auto.
  - rewrite Ecap. intros e He E1. pose proof (keyed_nodup _ _ _ _ Hkd) as Hnd. rewrite Hent in Hnd. cbn in Hnd.
    apply NoDup_cons in Hnd as [Hni _]. apply Hni. apply list_elem_of_fmap. exists e.
    split; [subst u; exact (eq_sym E1)|done].
  - intros c'. apply (sr_sep _ _ _ _ _ Hs (bucket t b) c'). apply elem_of_entries. eauto.
  - rewrite Habs, Hrd. by rewrite Et0.
  - intros x Hx1 Hx2. rewrite !Habs. by apply Hx.
Qed.

Lemma lht_del_rep m M A F B n key :
  lht_rep m M A F -> lht_small m B n -> n < 2 ^ 31 ->
  exists m', lhashtable_del m key = Some (m', match M !! key with Some _ => 0 | None => -1 end)
    /\ (exists A' F', lht_rep m' (delete key M) A' F') /\ lht_small m' B (n + 1).
Proof.
  intros Hrep Hsmall Hn. destruct (rep_table _ _ _ _ key Hrep) as [t Ht]. pose proof (lr_sub _ _ _ _ Hrep _ _ Ht) as Hs.
  unfold lhashtable_del. rewrite (proj1 (sub_of_spec key)). unfold sub_table. rewrite !(Nat2Z.id (sub_of key)), Ht. cbn [mbind option_bind].
  destruct (lht_find_spec m t _ _ _ key Hs) as (b & -> & Hb & Hcase). rewrite sub_lookup in Hcase. cbn [mbind option_bind].
  destruct Hcase as [(Ho & v & Hkv & Hm)|(Hm & Hh)]; rewrite Hm.
  2: { rewrite (hole_free _ _ _ _ Hh), delete_id by done. exists m. split; [done|]. split; [eauto|].
       destruct Hsmall as (H1 & H2 & H3). split; [|lia]. intros i u Hu. destruct (H1 i u Hu). lia. }
  rewrite (proj2 (is_free_false _) Ho).
  destruct (found_rec m M A F _ t b key v Hrep Ht Hb Ho Hkv) as (r & Er & Hok & Ha & Ek & Ev & _). rewrite Er. cbn [mbind option_bind].
  pose proof Hok as (Hk1 & Hk2 & Hk3 & _). rewrite <- Ek. unfold sizeof_lht_record. rewrite (u64_small (4 + _ + _)) by lia.
  rewrite (add_to_freelist_eq m (sub_of key) t _ _ _ r Ht Er) by lia. cbn [mbind option_bind]. fold (rec_units r).
  cbn [set_sub_table lm_with_tables lm_tables lm_with_recs]. rewrite !(Nat2Z.id (sub_of key)), (sub_table_insert _ _ t) by done.
  cbn [mbind option_bind].
  assert (Hsz : lm_size m = Z.of_nat (size M) /\ (0 < size M)%nat).
  { split; [apply Hrep|]. destruct (decide (size M = 0%nat)) as [E|E]; [|lia].
    apply map_size_empty_inv in E. subst M. by rewrite lookup_empty in Hm. }
  assert (Hsz1 : 0 < lt_size t <= n).
  { destruct Hsmall as (H1 & _). pose proof (proj2 (H1 _ _ Ht)). pose proof (sr_size _ _ _ _ _ Hs) as E1.
    assert (bucket t b ∈ entries t (lt_cap t)) as Hin by (apply elem_of_entries; eauto).
    destruct (entries t (lt_cap t)); [by apply not_elem_of_nil in Hin|]. cbn [length] in E1. lia. }
  set (u := lt_with_size (lt_with_freelist t (<[rec_units r := e_rec (bucket t b)]> (lt_freelist t))) (lt_size t - 1)).
  set (recs' := <[abs_ofs t (e_rec (bucket t b)) := _]> (lm_recs m)).
  destruct (unlink_rep (lm_recs m) recs' t u (A (sub_of key)) (F (sub_of key)) (filter (in_sub (sub_of key)) M) key v b r) as (u' & E & [Eu' Hvl] & Hs'); auto.
  { apply lookup_insert_eq. }
  { intros x Hx1 Hx2. unfold recs'. rewrite lookup_insert_ne; [done|]. apply (abs_ofs_ne m M A F (sub_of key) (sub_of key) t t); eauto; congruence. }
  change (lt_mask (lt_with_freelist t _)) with (lt_mask t). change (lt_size (set_bucket _ b _)) with (lt_size t).
  rewrite (u32_small (lt_size t - 1)) by lia. rewrite E. cbn [mbind option_bind].
  pose proof (proj2 (proj2 Hsmall)) as Hszm. rewrite (u32_small (lm_size _ - 1)) by (cbn; lia). eexists. split; [done|]. set (m' := lm_with_size _ _).
  assert (Et' : lm_tables m' = <[sub_of key := u']> (lm_tables m)) by (cbn; by rewrite Nat2Z.id, list_insert_insert_eq).
  split.
  - eexists _, _. apply (lht_rep_update m m' M (delete key M) A F (sub_of key) u'); auto; try (by apply Hrep).
    + apply sub_of_spec.
    + intros j w x Hj Hw Hx1. cbn [m' lm_recs lm_with_size lm_with_tables lm_with_recs set_sub_table]. unfold recs'. rewrite lookup_insert_ne; [done|].
      apply (abs_ofs_ne m M A F (sub_of key) j t w); eauto; congruence.
    + intros j Hj. by apply sub_delete_other.
    + rewrite sub_delete. exact Hs'.
    + eapply regions_same; [apply Hrep|done|]. apply (region_set_table m m' (sub_of key) t u'); auto; by rewrite Eu'.
    + cbn. rewrite map_size_delete_Some by eauto. lia.
  - replace B with (B + 0) by lia. eapply (lht_small_step m m' B n 0 _ t u'); eauto; try lia.
    + rewrite Eu'. unfold lt_pos. cbn. lia.
    + rewrite Eu'. cbn. lia.
    + cbn. lia.
    + cbn. lia.
Qed.
End Ops.
