(* ===== verification/LhashtableRun.v ===== *)
(** * LhashtableRun: files of the persistent hash table, and sequences of operations *)

From stdpp Require Import base numbers functions list gmap.
From Stdlib Require Import ZArith Lia.
From S2P Require Import Prelude Words Os Probe ProbeFacts ProbeMap Lhashtable LhashtableFacts LhashtableAlloc LhashtableMap.

(** ** A new file *)

(** A sub-table as [lhashtable_init] leaves it. *)
Definition fresh_table (vect : Z) : lhashtable_table :=
  LTable (<[O := replicate (Z.to_nat LHT_SUB_TABLE_INITIAL_SIZE) free_entry]> (replicate 29 []))
         (<[O := vect]> (replicate 29 0)) (LHT_SUB_TABLE_INITIAL_SIZE - 1) 0 LHT_BLOCK_SIZE 0 ∅ ∅.

Lemma fresh_table_bucket vect b : 0 <= b < 8 -> vector_get (lt_vectors (fresh_table vect)) (lht_bucket_place b) = Some free_entry.
Proof.
  intros Hb. unfold lht_bucket_place, LHT_SUB_TABLE_INITIAL_SIZE. destruct (Z.ltb_spec b 8); [|lia].
  unfold vector_get. cbn [fresh_table lt_vectors fst snd]. rewrite list_lookup_insert_eq by (cbn; lia).
  cbn [mbind option_bind]. apply lookup_replicate. split; [done|]. unfold LHT_SUB_TABLE_INITIAL_SIZE. lia.
Qed.

Lemma fresh_table_entries vect : entries (fresh_table vect) 8 = [].
Proof.
  destruct (entries (fresh_table vect) 8) as [|e l] eqn:E; [done|]. exfalso.
  assert (e ∈ entries (fresh_table vect) 8) as (i & Hi & Ho & _)%elem_of_entries by (rewrite E; by left).
  apply Ho. unfold bucket. cbn [lhashtable_buckets]. by rewrite fresh_table_bucket.
Qed.

Lemma fresh_table_rep vect : sub_rep ∅ (fresh_table vect) ∅ (fun _ => []) ∅.
Proof.
  change (lt_cap (fresh_table vect)) with 8.
  split; change (lt_cap (fresh_table vect)) with 8; rewrite ?fresh_table_entries; try done.
  - exists 3. split; [lia|done].
  - intros b Hb. rewrite fresh_table_bucket by done. eauto.
  - split; rewrite ?fresh_table_entries; try done; [|constructor|..]; try (intros; set_solver).
    intros i j Hi Hj Ho. exfalso. apply Ho. unfold bucket. cbn [lhashtable_buckets]. by rewrite fresh_table_bucket.
  - split; cbn [fresh_table lt_current_block lt_next_alloc lt_data_start_ofs]; try done; try lia.
  - intros e He. by apply not_elem_of_nil in He.
  - split; [done|intros c; constructor|]. intros c d Hd. by apply not_elem_of_nil in Hd.
  - intros e c He. by apply not_elem_of_nil in He.
Qed.

Record init_ok (k : nat) (m : lht_mem) : Prop := {
  io_tables : forall i t, lm_tables m !! i = Some t -> exists vect, t = fresh_table vect;
  io_len : length (lm_tables m) = k /\ length (lm_tables_offsets m) = k;
  io_fields : lm_num_data_blocks m = 4096 /\ lm_size m = 0 /\ lm_recs m = ∅;
  io_loc : lm_write_loc m = 2088 + 65856 * Z.of_nat k;
  io_cap : lm_write_loc m <= lm_capacity m <= 2 ^ 61;
  io_regions : regions_ok m;
}.

Section Init.
Context (o : os) (fd : Z).
Context (Hgrow : can_grow_to o (2 ^ 61)) (Htrunc : can_truncate_to o (2 ^ 61)).

Lemma init_table_ok k m :
  init_ok k m -> (k < 256)%nat -> exists m', lht_init_table o fd m = Some m' /\ init_ok (S k) m'.
Proof using Hgrow Htrunc.
  intros [Ht [Hl Hlo] (En & Es & Er) Hw Hc Hr] Hk. unfold lht_init_table. rewrite En. change (sizeof_lht_table + 8 * (4096 + 1)) with 65792.
  destruct (alloc_ofs_spec o fd Hgrow Htrunc m 65792) as (c1 & -> & Hc1); try lia. change (8 * units 65792) with 65792 in *.
  cbn [mbind option_bind]. set (w := lm_write_loc m) in *.
  set (m1 := lm_with_offsets _ _). change (sizeof_lht_bucket * LHT_SUB_TABLE_INITIAL_SIZE) with 64.
  destruct (alloc_ofs_spec o fd Hgrow Htrunc m1 64) as (c2 & -> & Hc2); try (cbn; lia). change (8 * units 64) with 64 in *.
  cbn [mbind option_bind]. eexists. split; [done|]. change (lm_write_loc m1) with (w + 65792) in *.
  fold (fresh_table (w + 65792)). set (m' := lm_with_tables _ _).
  assert (Hr1 : regions_ok m1).
  { apply (regions_add m m1 (RTable k) 65792); auto; try (unfold sizeof_lht_header; cbn; lia).
    - cbn. by rewrite <- Hlo, lookup_app_r, Nat.sub_diag by lia.
    - intros [j|j v|j b] Hne; cbn; [|done|done]. destruct (decide (j < length (lm_tables_offsets m))%nat).
      + by rewrite lookup_app_l.
      + assert (j <> k) by congruence. rewrite lookup_app_r by lia. rewrite !lookup_ge_None_2; [done|lia|cbn; lia]. }
  split.
  - intros i t. cbn. intros [Hi|[_ Hi]]%lookup_app_Some; [eauto|].
    destruct (i - length (lm_tables m))%nat; [injection Hi as <-; eauto|done].
  - cbn. rewrite !length_app. cbn. lia.
  - done.
  - cbn. lia.
  - cbn. lia.
  - apply (regions_add m1 m' (RVector k 0) 64); auto; try (unfold sizeof_lht_header; cbn; lia).
    + cbn [lht_span m' lm_tables lm_with_tables]. change (lm_tables (lm_with_loc m1 _ _)) with (lm_tables m).
      rewrite <- Hl, lookup_app_r, Nat.sub_diag by lia. done.
    + intros [j|j v|j b] Hne; cbn [lht_span]; [done| |];
        change (lm_tables m') with (lm_tables m ++ [fresh_table (w + 65792)]); change (lm_tables m1) with (lm_tables m);
        (destruct (decide (j < length (lm_tables m))%nat) as [Hj|Hj]; [by rewrite lookup_app_l|]);
        rewrite lookup_app_r by lia; rewrite (lookup_ge_None_2 (lm_tables m)) by lia;
        (destruct (j - length (lm_tables m))%nat as [|x] eqn:E; [|done]); cbn [lookup list_lookup mbind option_bind]; [|done].
      assert (v <> 0%nat) by (intros ->; apply Hne; f_equal; lia).
      cbn [fresh_table lt_vectors lt_buckets_offsets]. rewrite !list_lookup_insert_ne by done.
      destruct (replicate 29 [] !! v) as [l|] eqn:E2; [|done]. apply lookup_replicate in E2 as [-> _]. cbn [fmap option_fmap option_map length mbind option_bind].
      destruct (replicate 29 0 !! v); done.
Qed.

Lemma init_tables_ok n : forall k m,
  init_ok k m -> (k + n <= 256)%nat -> exists m', lht_init_tables o n fd m = Some m' /\ init_ok (k + n) m'.
Proof using Hgrow Htrunc.
  induction n as [|n IH]; intros k m Hm Hk.
  - exists m. by rewrite Nat.add_0_r.
  - destruct (init_table_ok k m Hm ltac:(lia)) as (m1 & E & Hm1). cbn. rewrite E. cbn [mbind option_bind].
    destruct (IH (S k) m1 Hm1 ltac:(lia)) as (m' & -> & Hm'). exists m'. split; [done|]. by replace (k + S n)%nat with (S k + n)%nat by lia.
Qed.

Lemma lht_new_rep :
  exists m, lht_new o fd (_LHT_ALIGN_P2 sizeof_lht_header LHT_BLOCK_SIZE) = Some m
    /\ lht_rep m ∅ (fun _ => ∅) (fun _ _ => []) /\ lht_small m 0 0.
Proof using Hgrow Htrunc.
  unfold lht_new. change (_LHT_ALIGN_P2 sizeof_lht_header LHT_BLOCK_SIZE) with (2 ^ 20).
  set (m0 := LMem 0 0 _ _ _ _ _ _).
  destruct (alloc_ofs_spec o fd Hgrow Htrunc m0 sizeof_lht_header) as (c & -> & Hc); try (unfold sizeof_lht_header; cbn; lia).
  change (8 * units sizeof_lht_header) with 2088 in *. cbn [mbind option_bind].
  change (Z.to_nat LHT_NUM_SUB_TABLES) with 256%nat.
  destruct (init_tables_ok 256 0 (lm_with_loc m0 (lm_write_loc m0 + 2088) c)) as (m & -> & [Ht [Hl _] (En & Es & Er) Hw Hcm Hr]); [|lia|].
  { split; try done.
    split; [intros [j|j v|j b] s l; cbn; done|intros [j|j v|j b] r2 p1 p2; cbn; done]. }
  exists m. split; [done|]. split.
  - split; auto.
    + intros i t Hi. destruct (Ht i t Hi) as (vect & ->). rewrite Er, map_filter_empty. apply fresh_table_rep.
    + unfold sizeof_lht_header. lia.
  - split; [|split; [rewrite Hw; lia|lia]]. intros i t Hi. destruct (Ht i t Hi) as (vect & ->). done.
Qed.
End Init.

(** ** Sequences of operations on a file *)

Inductive lht_op := LPut (key val : list Z) | LGet (key : list Z) | LDel (key : list Z) | LSize | LReopen.
#[export] Instance lht_op_eq_dec : EqDecision lht_op.
Proof. solve_decision. Defined.

Inductive lht_result := RValue (v : option (list Z)) | RCode (z : Z).

(** The value behind an offset that an operation returned; offset 0 is "not found". *)
Definition lht_value (m : lht_mem) (ofs : Z) : option (list Z) := if 0 =? ofs then None else Some (lhashtable_get_val m ofs).

Definition lht_mem_op (o : os) (fd : Z) (m : lht_mem) (x : lht_op) : option (lht_mem * lht_result) :=
  match x with
  | LPut k v => '(m, ofs) ← lhashtable_put o fd m k v; Some (m, RValue (lht_value m ofs))
  | LGet k => ofs ← lhashtable_get m k; Some (m, RValue (lht_value m ofs))
  | LDel k => '(m, z) ← lhashtable_del m k; Some (m, RCode z)
  | LSize => Some (m, RCode (lhashtable_size m))
  | LReopen => Some (m, RCode 0)
  end.

(** The operations work on the mapping of the file; [LReopen] closes the table and opens the file
    again. *)
Definition lht_file_op (o : os) (fs : lht_files) (lht : lhashtable) (x : lht_op) : option (lht_files * lhashtable * lht_result) :=
  match x, lh_mem lht with
  | LReopen, LMap name =>
      '(fs, lht, _) ← lhashtable_close fs lht;
      '(fs, lht, z) ← lhashtable_init o fs name lht; Some (fs, lht, RCode z)
  | _, LMap name =>
      match fs !! name with
      | Some (LhtFile m) => '(m, y) ← lht_mem_op o (lh_fd lht) m x; Some (<[name := LhtFile m]> fs, lht, y)
      | _ => None
      end
  | _, _ => None
  end.

Fixpoint lht_run (o : os) (fs : lht_files) (lht : lhashtable) (l : list lht_op) : option (lht_files * lhashtable * list lht_result) :=
  match l with
  | [] => Some (fs, lht, [])
  | x :: l => '(fs, lht, y) ← lht_file_op o fs lht x; '(fs, lht, ys) ← lht_run o fs lht l; Some (fs, lht, y :: ys)
  end.

(** The same on a finite map. *)
Definition lht_spec_op (M : kvmap) (x : lht_op) : kvmap * lht_result :=
  match x with
  | LPut k v => (<[k := v]> M, RValue (Some v))
  | LGet k => (M, RValue (M !! k))
  | LDel k => (delete k M, RCode (match M !! k with Some _ => 0 | None => -1 end))
  | LSize => (M, RCode (Z.of_nat (size M)))
  | LReopen => (M, RCode 0)
  end.

Fixpoint lht_spec (M : kvmap) (l : list lht_op) : kvmap * list lht_result :=
  match l with
  | [] => (M, [])
  | x :: l => let (M, y) := lht_spec_op M x in let (M, ys) := lht_spec M l in (M, y :: ys)
  end.

Definition lht_op_fits (x : lht_op) : Prop := match x with LPut k v => fits k v | _ => True end.
Definition lht_op_cost (x : lht_op) : Z := match x with LPut k v => 16 * units (rec_bytes k v) | _ => 0 end.
Definition lht_cost (l : list lht_op) : Z := foldr (fun x c => lht_op_cost x + c) 0 l.

Lemma lht_cost_nonneg l : 0 <= lht_cost l.
Proof.
  induction l as [|x l IH]; [done|]. change (lht_cost (x :: l)) with (lht_op_cost x + lht_cost l).
  destruct x as [key val| | | |]; cbn [lht_op_cost]; try lia. pose proof (units_bounds (rec_bytes key val)). unfold rec_bytes in *. lia.
Qed.

Record lht_os_ok (o : os) : Prop := {
  lo_grow : can_grow_to o (2 ^ 61);
  lo_trunc : can_truncate_to o (2 ^ 61);
  lo_map : forall n, n <= 2 ^ 61 -> sys_mmap o n = true;
  lo_open : forall name flags, 0 <= sys_open o name flags;
}.

(** The table open in [lht] is in the file [name] and represents [M]. *)
Definition lht_open_rep (fs : lht_files) (lht : lhashtable) (name : path) (M : kvmap) (B n : Z) : Prop :=
  lh_mem lht = LMap name /\ 0 <= lh_fd lht
  /\ exists m, fs !! name = Some (LhtFile m) /\ (exists A F, lht_rep m M A F) /\ lht_small m B n.

Section Run.
Context (o : os) (Hos : lht_os_ok o).

Lemma lht_small_mono m B n B' n' : lht_small m B n -> B <= B' -> n <= n' -> lht_small m B' n'.
Proof. intros (H1 & H2 & H3) HB Hn. split; [|lia]. intros i t Ht. destruct (H1 i t Ht). lia. Qed.

Lemma lht_flags_rep m M A F f : lht_rep m M A F -> lht_rep (lm_with_flags m f) M A F.
Proof. intros [H1 H2 H3 H4 H5 H6]. split; auto. eapply regions_same; [exact H3|done|]. by intros []. Qed.

Lemma lht_value_refers m ofs key v : lht_refers m ofs key v -> lht_value m ofs = Some v.
Proof. intros (Hne & _ & <-). unfold lht_value. by destruct (Z.eqb_spec 0 ofs). Qed.

Lemma lht_mem_op_sim fd m M A F B n x :
  lht_rep m M A F -> lht_small m B n -> n < 2 ^ 25 -> B + lht_op_cost x <= 2 ^ 32 -> lht_op_fits x ->
  exists m', lht_mem_op o fd m x = Some (m', snd (lht_spec_op M x))
    /\ (exists A' F', lht_rep m' (fst (lht_spec_op M x)) A' F') /\ lht_small m' (B + lht_op_cost x) (n + 1).
Proof using Hos.
  intros Hrep Hsmall Hn HB Hfit. destruct x as [key val|key|key| |]; cbn [lht_mem_op lht_spec_op lht_op_cost lht_op_fits fst snd] in *.
  - destruct (lht_put_rep o fd (lo_grow _ Hos) (lo_trunc _ Hos) m M A F B n key val) as (m' & ofs & -> & Hrep' & Href & Hs'); auto.
    exists m'. cbn [mbind option_bind]. by rewrite (lht_value_refers _ _ _ _ Href).
  - destruct (lht_get_rep m M A F key Hrep) as (ofs & -> & Hr). exists m. cbn [mbind option_bind]. split.
    + destruct (M !! key); [by rewrite (lht_value_refers _ _ _ _ Hr)|by subst ofs].
    + split; [eauto|]. eapply lht_small_mono; eauto; lia.
  - destruct (lht_del_rep m M A F B n key Hrep Hsmall ltac:(lia)) as (m' & -> & Hrep' & Hs'). exists m'. cbn [mbind option_bind].
    split; [done|]. split; [done|]. by rewrite Z.add_0_r.
  - exists m. unfold lhashtable_size. rewrite (lr_size _ _ _ _ Hrep). split; [done|]. split; [eauto|]. eapply lht_small_mono; eauto; lia.
  - exists m. split; [done|]. split; [eauto|]. eapply lht_small_mono; eauto; lia.
Qed.

(** Closing a table and opening its file again keeps everything. *)
Lemma lht_reopen_sim fs lht name M B n :
  lht_open_rep fs lht name M B n ->
  exists fs' lht', lht_file_op o fs lht LReopen = Some (fs', lht', RCode 0) /\ lht_open_rep fs' lht' name M B n.
Proof using Hos.
  intros (Em & Hfd & m & Hf & (A & F & Hrep) & Hsmall). unfold lht_file_op, lhashtable_close. rewrite Em.
  destruct (Z.ltb_spec (lh_fd lht) 0); [lia|]. rewrite Hf. cbn [mbind option_bind].
  unfold lhashtable_init, lhashtable_close. cbn [lh_fd]. change (-1 <? 0) with true. cbn match. cbn [mbind option_bind].
  rewrite lookup_insert_eq. cbn [lht_file_size lm_with_flags lm_capacity]. pose proof (lr_room _ _ _ _ Hrep) as [Hroom Hcap].
  destruct (Z.ltb_spec (lm_capacity m) sizeof_lht_header); [lia|].
  pose proof (lo_open _ Hos name 2) as Hop. destruct (Z.ltb_spec (sys_open o name 2) 0); [lia|].
  rewrite (lo_map _ Hos) by done. cbn [negb mbind option_bind]. eexists _, _. split; [done|].
  split; [done|]. split; [done|]. eexists. rewrite lookup_insert_eq. split; [done|].
  split; [|done]. exists A, F. by do 2 apply lht_flags_rep.
Qed.

Lemma lht_file_op_sim fs lht name M B n x :
  lht_open_rep fs lht name M B n -> n < 2 ^ 25 -> B + lht_op_cost x <= 2 ^ 32 -> lht_op_fits x ->
  exists fs' lht', lht_file_op o fs lht x = Some (fs', lht', snd (lht_spec_op M x))
    /\ lht_open_rep fs' lht' name (fst (lht_spec_op M x)) (B + lht_op_cost x) (n + 1).
Proof using Hos.
  intros Hopen Hn HB Hfit. destruct (decide (x = LReopen)) as [->|Hx].
  - destruct (lht_reopen_sim fs lht name M B n Hopen) as (fs' & lht' & E & (H1 & H2 & m & H3 & H4 & H5)). exists fs', lht'.
    split; [exact E|]. split; [done|]. split; [done|]. exists m. split; [done|]. split; [done|]. cbn.
    eapply lht_small_mono; eauto; lia.
  - destruct Hopen as (Em & Hfd & m & Hf & (A & F & Hrep) & Hsmall).
    destruct (lht_mem_op_sim (lh_fd lht) m M A F B n x Hrep Hsmall Hn HB Hfit) as (m' & E & Hrep' & Hs').
    exists (<[name := LhtFile m']> fs), lht. split.
    + unfold lht_file_op. rewrite Em, Hf, E. by destruct x.
    + split; [done|]. split; [done|]. exists m'. by rewrite lookup_insert_eq.
Qed.

Lemma lht_run_sim l : forall fs lht name M B n,
  lht_open_rep fs lht name M B n -> n + Z.of_nat (length l) <= 2 ^ 25 -> B + lht_cost l <= 2 ^ 32 -> Forall lht_op_fits l ->
  exists fs' lht', lht_run o fs lht l = Some (fs', lht', snd (lht_spec M l))
    /\ lht_open_rep fs' lht' name (fst (lht_spec M l)) (B + lht_cost l) (n + Z.of_nat (length l)).
Proof using Hos.
  induction l as [|x l IH]; intros fs lht name M B n Hopen Hn HB Hfit.
  - exists fs, lht. cbn. by rewrite !Z.add_0_r.
  - apply Forall_cons in Hfit as [Hx Hl]. cbn [length lht_cost foldr] in *. fold (lht_cost l) in *.
    pose proof (lht_cost_nonneg l) as Hc.
    destruct (lht_file_op_sim fs lht name M B n x Hopen ltac:(lia) ltac:(lia) Hx) as (fs1 & lht1 & E & Hopen1).
    cbn [lht_run lht_spec]. rewrite E. cbn [mbind option_bind]. destruct (lht_spec_op M x) as [M1 y]. cbn [fst snd] in *.
    destruct (IH fs1 lht1 name M1 _ _ Hopen1) as (fs' & lht' & -> & Hopen'); auto; try lia.
    cbn [mbind option_bind]. destruct (lht_spec M1 l) as [M2 ys]. cbn [fst snd] in *. exists fs', lht'. split; [done|].
    replace (B + (lht_op_cost x + lht_cost l)) with (B + lht_op_cost x + lht_cost l) by lia.
    by replace (n + Z.of_nat (S (length l))) with (n + 1 + Z.of_nat (length l)) by lia.
Qed.

(** The allocation and the key behind a record that was found. *)
Lemma lht_get_alloc m M A F key ofs :
  lht_rep m M A F -> lhashtable_get m key = Some ofs -> ofs <> 0 ->
  exists t d n, lm_tables m !! sub_of key = Some t /\ A (sub_of key) !! d = Some n /\ ofs = abs_ofs t d
    /\ sizeof_lht_record + lhashtable_get_key_len m ofs + lhashtable_get_val_len m ofs <= 8 * n.
Proof.
  intros Hrep. destruct (rep_table _ _ _ _ key Hrep) as [t Ht]. pose proof (lr_sub _ _ _ _ Hrep _ _ Ht) as Hs.
  unfold lhashtable_get, sub_table. fold (sub_of key). rewrite Ht. cbn [mbind option_bind].
  destruct (lht_find_spec m t _ _ _ key Hs) as (b & -> & Hb & Hcase). cbn [mbind option_bind].
  destruct Hcase as [(Ho & v & Hkv & _)|(_ & Hh)]; [|by rewrite (hole_free _ _ _ _ Hh); intros [= <-]].
  rewrite (proj2 (is_free_false _) Ho). intros [= E] _.
  assert (ofs = abs_ofs t (e_rec (bucket t b))) as -> by (symmetry; exact E).
  destruct (found_rec m M A F _ t b key v Hrep Ht Hb Ho Hkv) as (r & Er & _ & Ha & _).
  exists t, (e_rec (bucket t b)), (rec_units r). split; [done|]. split; [done|]. split; [done|].
  unfold lhashtable_get_key_len, lhashtable_get_val_len, lht_rec_at. rewrite Er. cbn [default from_option].
  pose proof (units_bounds (4 + lr_key_len r + lr_val_len r)). unfold rec_units, sizeof_lht_record, id. lia.
Qed.

Lemma lht_get_key m M A F key ofs :
  lht_rep m M A F -> lhashtable_get m key = Some ofs -> ofs <> 0 -> lhashtable_get_key m ofs = key.
Proof.
  intros Hrep E Hne. destruct (lht_get_rep m M A F key Hrep) as (ofs' & E' & H). rewrite E in E'. injection E' as <-.
  destruct (M !! key); [apply H|done].
Qed.

Lemma lht_init_open fs name :
  fs !! name = None ->
  exists fs' lht', lhashtable_init o fs name LHASHTABLE_INITIALIZER = Some (fs', lht', 0) /\ lht_open_rep fs' lht' name ∅ 0 0.
Proof using Hos.
  intros Hf. unfold lhashtable_init, lhashtable_close. cbn [lh_fd LHASHTABLE_INITIALIZER]. change (-1 <? 0) with true. cbn match.
  cbn [mbind option_bind]. rewrite Hf. pose proof (lo_open _ Hos name 0x242) as Hop. destruct (Z.ltb_spec (sys_open o name 0x242) 0); [lia|].
  rewrite (lo_trunc _ Hos), (lo_map _ Hos) by (vm_compute; done). cbn [negb].
  destruct (lht_new_rep o (sys_open o name 0x242) (lo_grow _ Hos) (lo_trunc _ Hos)) as (m & -> & Hrep & Hsmall).
  cbn [mbind option_bind]. eexists _, _. split; [done|]. split; [done|]. split; [done|].
  exists m. rewrite lookup_insert_eq. eauto.
Qed.
End Run.

(** C4: any sequence of up to 2^25 calls of [lhashtable_put], [lhashtable_get], [lhashtable_del]
    and [lhashtable_size] on a table that [lhashtable_init] made in a new file, with
    [lhashtable_close] and [lhashtable_init] on the same file anywhere in between, runs to its
    end and returns exactly what the same operations on a finite map return, as long as records
    have at most 65528 bytes and twice the bytes of all records put fit the 4096 blocks of a
    sub-table. *)
Theorem lhashtable_refines_map (o : os) (fs : lht_files) (name : path) (l : list lht_op)
  (Hos : lht_os_ok o) (Hnew : fs !! name = None) (Hfit : Forall lht_op_fits l)
  (Hlen : Z.of_nat (length l) <= 2 ^ 25) (Hcost : lht_cost l <= 2 ^ 32) :
  exists fs1 lht1 fs2 lht2,
    lhashtable_init o fs name LHASHTABLE_INITIALIZER = Some (fs1, lht1, 0)
    /\ lht_run o fs1 lht1 l = Some (fs2, lht2, snd (lht_spec ∅ l))
    /\ lht_open_rep fs2 lht2 name (fst (lht_spec ∅ l)) (lht_cost l) (Z.of_nat (length l)).
Proof.
  destruct (lht_init_open o Hos fs name Hnew) as (fs1 & lht1 & E1 & Ho1).
  destruct (lht_run_sim o Hos l fs1 lht1 name ∅ 0 0 Ho1) as (fs2 & lht2 & E2 & Ho2); auto.
  exists fs1, lht1, fs2, lht2. auto.
Qed.

Definition lht_demo : list lht_op :=
  [LPut [97] [1]; LPut [98] [2; 3]; LReopen; LGet [97]; LDel [97]; LPut [98] [4; 5; 6; 7; 8; 9]; LReopen; LGet [97]; LGet [98]; LSize].

Lemma os_all_ok_lht : lht_os_ok os_all_ok.
Proof. by split. Qed.

Lemma lhashtable_refines_map_witness :
  exists fs1 lht1 fs2 lht2,
    lhashtable_init os_all_ok ∅ [116] LHASHTABLE_INITIALIZER = Some (fs1, lht1, 0)
    /\ lht_run os_all_ok fs1 lht1 lht_demo
       = Some (fs2, lht2, [RValue (Some [1]); RValue (Some [2; 3]); RCode 0; RValue (Some [1]); RCode 0;
                           RValue (Some [4; 5; 6; 7; 8; 9]); RCode 0; RValue None; RValue (Some [4; 5; 6; 7; 8; 9]); RCode 1]).
Proof.
  destruct (lhashtable_refines_map os_all_ok ∅ [116] lht_demo) as (fs1 & lht1 & fs2 & lht2 & E1 & E2 & _).
  - exact os_all_ok_lht.
  - reflexivity.
  - repeat (apply Forall_cons; split; [unfold lht_op_fits, fits; cbn; auto; lia|]). apply Forall_nil. exact I.
  - cbn. lia.
  - vm_compute. discriminate.
  - exists fs1, lht1, fs2, lht2. split; [exact E1|exact E2].
Defined.

(** C5: after any such sequence (of at most 2^25 calls, with records of at most 65528 bytes, and twice the
    bytes of all records put at most 2^32), the record of every key lies inside the part of the file that
    has been allocated, behind the header, and the records of two different keys do not overlap. *)
Theorem lhashtable_records_disjoint (o : os) (fs fs1 fs2 : lht_files) (lht1 lht2 : lhashtable) (name : path) (l : list lht_op)
  (ys : list lht_result) (m : lht_mem) (k1 k2 : list Z) (o1 o2 : Z)
  (Hos : lht_os_ok o) (Hnew : fs !! name = None) (Hfit : Forall lht_op_fits l)
  (Hlen : Z.of_nat (length l) <= 2 ^ 25) (Hcost : lht_cost l <= 2 ^ 32)
  (Hinit : lhashtable_init o fs name LHASHTABLE_INITIALIZER = Some (fs1, lht1, 0))
  (Hrun : lht_run o fs1 lht1 l = Some (fs2, lht2, ys)) (Hm : fs2 !! name = Some (LhtFile m))
  (H1 : lhashtable_get m k1 = Some o1) (H2 : lhashtable_get m k2 = Some o2) (Hn1 : o1 <> 0) (Hn2 : o2 <> 0) (Hne : k1 <> k2) :
  let len ofs := sizeof_lht_record + lhashtable_get_key_len m ofs + lhashtable_get_val_len m ofs in
  sizeof_lht_header <= o1 /\ o1 + len o1 <= lm_write_loc m <= lm_capacity m
  /\ (o1 + len o1 <= o2 \/ o2 + len o2 <= o1).
Proof.
  destruct (lht_init_open o Hos fs name Hnew) as (fs1' & lht1' & E1 & Ho1). rewrite Hinit in E1. injection E1 as <- <-.
  destruct (lht_run_sim o Hos l fs1 lht1 name ∅ 0 0 Ho1) as (fs2' & lht2' & E2 & (_ & _ & m' & Em & (A & F & Hrep) & _)); auto.
  rewrite Hrun in E2. injection E2 as <- <- _. rewrite Hm in Em. injection Em as <-. intros len.
  destruct (lht_get_alloc m _ A F k1 o1 Hrep H1 Hn1) as (t1 & d1 & n1 & Ht1 & Ha1 & -> & Hl1).
  destruct (lht_get_alloc m _ A F k2 o2 Hrep H2 Hn2) as (t2 & d2 & n2 & Ht2 & Ha2 & -> & Hl2).
  fold (len (abs_ofs t1 d1)) in Hl1. fold (len (abs_ofs t2 d2)) in Hl2.
  destruct (abs_ofs_region _ _ _ _ _ _ _ _ Hrep Ht1 Ha1) as (s & Hs & Eabs & Hnpos & Hin).
  pose proof (rg_in _ (lr_regions _ _ _ _ Hrep) _ _ _ Hs). pose proof (lr_room _ _ _ _ Hrep). pose proof (data_ofs_ofs_range d1).
  split; [lia|]. split; [lia|].
  assert (Hap : lht_apart (abs_ofs t1 d1, 8 * n1) (abs_ofs t2 d2, 8 * n2)); [|unfold lht_apart in Hap; cbn [fst snd] in Hap; lia].
  apply (allocs_apart m (fst (lht_spec ∅ l)) A F (sub_of k1) (sub_of k2)); auto. intros [= Ei Ed]. apply Hne.
  rewrite Ei in Ht1. rewrite Ht2 in Ht1. injection Ht1 as <-. subst d2.
  pose proof (lht_get_key m _ A F k1 _ Hrep H1 Hn1) as K1. pose proof (lht_get_key m _ A F k2 _ Hrep H2 Hn2) as K2. congruence.
Qed.

Definition lht_demo2 : list lht_op := [LPut [97] [1; 2; 3; 4; 5]; LPut [98] [2; 3]; LReopen; LPut [97] [7]].

Lemma lht_demo2_fits : Forall lht_op_fits lht_demo2.
Proof. repeat (apply Forall_cons; split; [unfold lht_op_fits, fits; cbn; auto; lia|]). apply Forall_nil. exact I. Qed.

Lemma lhashtable_records_disjoint_witness :
  exists fs1 lht1 fs2 lht2 m o1 o2,
    lhashtable_init os_all_ok ∅ [116] LHASHTABLE_INITIALIZER = Some (fs1, lht1, 0)
    /\ lht_run os_all_ok fs1 lht1 lht_demo2 = Some (fs2, lht2, [RValue (Some [1; 2; 3; 4; 5]); RValue (Some [2; 3]); RCode 0; RValue (Some [7])])
    /\ fs2 !! [116] = Some (LhtFile m) /\ lhashtable_get m [97] = Some o1 /\ lhashtable_get m [98] = Some o2
    /\ lhashtable_get_val m o1 = [7] /\ lhashtable_get_val m o2 = [2; 3] /\ sizeof_lht_header <= o1
    /\ (o1 + (sizeof_lht_record + lhashtable_get_key_len m o1 + lhashtable_get_val_len m o1) <= o2
        \/ o2 + (sizeof_lht_record + lhashtable_get_key_len m o2 + lhashtable_get_val_len m o2) <= o1).
Proof.
  destruct (lht_init_open os_all_ok os_all_ok_lht ∅ [116] (lookup_empty _)) as (fs1 & lht1 & E1 & Ho1).
  destruct (lht_run_sim os_all_ok os_all_ok_lht lht_demo2 fs1 lht1 [116] ∅ 0 0 Ho1) as (fs2 & lht2 & E2 & (_ & _ & m & Em & (A & F & Hrep) & _)).
  - cbn. lia.
  - vm_compute. discriminate.
  - exact lht_demo2_fits.
  - destruct (lht_get_rep m _ A F [97] Hrep) as (o1 & G1 & R1). destruct (lht_get_rep m _ A F [98] Hrep) as (o2 & G2 & R2).
    change (lht_refers m o1 [97] [7]) in R1. change (lht_refers m o2 [98] [2; 3]) in R2.
    destruct R1 as (N1 & _ & V1), R2 as (N2 & _ & V2).
    assert (Hfin := lhashtable_records_disjoint os_all_ok ∅ fs1 fs2 lht1 lht2 [116] lht_demo2 _ m [97] [98] o1 o2
      os_all_ok_lht (lookup_empty _) lht_demo2_fits ltac:(cbn; lia) ltac:(vm_compute; discriminate) E1 E2 Em G1 G2 N1 N2 ltac:(discriminate)).
    cbv zeta in Hfin. destruct Hfin as (Q1 & _ & Q2).
    exists fs1, lht1, fs2, lht2, m, o1, o2. exact (conj E1 (conj E2 (conj Em (conj G1 (conj G2 (conj V1 (conj V2 (conj Q1 Q2)))))))).
Defined.
