(* ===== verification/Heap.v ===== *)
(** * Heap: the binary max-heap ([include/heap.h], [src/heap.c], [src/_heap.c])

    Elements stay where they were inserted (their location [loc]); the heap proper is the
    array [ofs] of locations.  Each element carries a [key], meant to be its position in
    [ofs], by which [heap_remove] finds an element from its location.

    The two buffers are modelled as lists: element [loc] of [h_data] is the entry at byte
    offset [el_size * loc].  Allocating and growing the buffers is modelled as succeeding. *)

From stdpp Require Import base numbers list.
From Stdlib Require Import ZArith Lia.
From S2P Require Import Prelude.

Definition HEAP_DEFAULT_INITIAL_SIZE : Z := 128.

Section Heap.
Context {A : Type}.
Variable junk : A.                     (* contents of fresh memory *)
Variable compar : A -> A -> Z.

(** [struct _heap_entry] *)
Record heap_entry := HeapEntry { h_key : Z; h_user_data : A }.

Record heap := Heap {
  h_data : list heap_entry;
  h_ofs : list Z;
  h_max_size : Z;
  h_num_items : Z;
}.

Definition entry_at (h : heap) (loc : Z) : heap_entry := default (HeapEntry 0 junk) (h_data h !! Z.to_nat loc).
Definition data_at (h : heap) (loc : Z) : A := h_user_data (entry_at h loc).
Definition ofs_at (h : heap) (i : Z) : Z := default 0 (h_ofs h !! Z.to_nat i).

Definition set_key (h : heap) (loc k : Z) : heap :=
  Heap (<[Z.to_nat loc := HeapEntry k (data_at h loc)]> (h_data h)) (h_ofs h) (h_max_size h) (h_num_items h).
Definition set_ofs (h : heap) (i loc : Z) : heap :=
  Heap (h_data h) (<[Z.to_nat i := loc]> (h_ofs h)) (h_max_size h) (h_num_items h).
Definition set_num_items (h : heap) (n : Z) : heap := Heap (h_data h) (h_ofs h) (h_max_size h) n.

(** The initialisation loop over fresh elements [i .. i + n - 1], appended to the buffers. *)
Definition fresh_entries (n : Z) : list heap_entry := replicate (Z.to_nat n) (HeapEntry (u32 (-1)) junk).

Definition heap_init (initial_size el_size : Z) : option heap :=
  if el_size =? 0 then None (* returns -1 *)
  else
    let initial_size := if initial_size =? 0 then HEAP_DEFAULT_INITIAL_SIZE else initial_size in
    Some (Heap (fresh_entries initial_size) (seqZ 0 initial_size) (u32 initial_size) 0).

(** The loop of [_heap_fix_down] from position [i]. *)
Fixpoint _heap_fix_down (fuel : nat) (h : heap) (i : Z) : option heap :=
  match fuel with
  | O => None
  | S f =>
      let num_items := h_num_items h in
      let child := u32 (u32 (Z.shiftl i 1) + 1) in
      if child <? num_items then
        let child :=
          if (u32 (child + 1) <? num_items)
             && (compar (data_at h (ofs_at h child)) (data_at h (ofs_at h (child + 1))) <? 0)
          then child + 1 else child in
        let parent_ofs := ofs_at h i in
        let child_ofs := ofs_at h child in
        if compar (data_at h parent_ofs) (data_at h child_ofs) <? 0 then
          let h := set_key h child_ofs parent_ofs in
          let h := set_key h parent_ofs child_ofs in
          let h := set_ofs h child parent_ofs in
          let h := set_ofs h i child_ofs in
          _heap_fix_down f h child
        else Some h
      else Some h
  end.

(** Positions strictly increase, so this much fuel is enough. *)
Definition fix_down (h : heap) (i : Z) : option heap := _heap_fix_down (S (Z.to_nat (h_num_items h))) h i.

Definition heap_top (h : heap) : A := data_at h (ofs_at h 0).
Definition heap_full (h : heap) : bool := h_num_items h =? h_max_size h.
Definition heap_empty (h : heap) : bool := h_num_items h =? 0.

Definition heap_remove_item (h : heap) (index : Z) : option heap :=
  if index <? h_num_items h then
    let h := set_num_items h (h_num_items h - 1) in
    let o := ofs_at h index in
    let h := set_key h o (u32 (-1)) in
    let h := set_ofs h index (ofs_at h (h_num_items h)) in
    let h := set_key h (ofs_at h index) index in
    let h := set_ofs h (h_num_items h) o in
    fix_down h index
  else Some h.

Definition heap_remove (h : heap) (loc : Z) : option heap := heap_remove_item h (h_key (entry_at h loc)).

Definition heap_remove_top (h : heap) : option heap :=
  if h_num_items h =? 0 then Some h
  else
    let h := set_num_items h (h_num_items h - 1) in
    let first := ofs_at h 0 in
    let last := ofs_at h (h_num_items h) in
    let h := set_key h first (u32 (h_key (entry_at h first) - 1)) in
    let h := set_ofs h 0 last in
    let h := set_ofs h (h_num_items h) first in
    let h := set_key h last 0 in
    fix_down h 0.

(** [for (i = last_parent; i != -1U; --i)], as [n] iterations. *)
Fixpoint heap_build_loop (n : nat) (h : heap) : option heap :=
  match n with
  | O => Some h
  | S n' =>
      match fix_down h (Z.of_nat n') with
      | None => None
      | Some h => heap_build_loop n' h
      end
  end.

Definition heap_build (h : heap) : option heap :=
  heap_build_loop (S (Z.to_nat (Z.shiftr (h_num_items h) 1))) h.

(** The sift-up loop of [heap_insert]: the heap and the position for [x]. *)
Fixpoint sift_up (fuel : nat) (h : heap) (pos : Z) (x : A) : option (heap * Z) :=
  match fuel with
  | O => None
  | S f =>
      if 0 <? pos then
        let parent := Z.shiftr (pos - 1) 1 in
        if compar (data_at h (ofs_at h parent)) x <? 0 then
          let ofs_pos := ofs_at h pos in
          let ofs_parent := ofs_at h parent in
          let h := set_key h ofs_pos ofs_parent in
          let h := set_key h ofs_parent ofs_pos in
          let h := set_ofs h pos ofs_parent in
          let h := set_ofs h parent ofs_pos in
          sift_up f h parent x
        else Some (h, pos)
      else Some (h, pos)
  end.

(** Doubling a full heap. *)
Definition heap_grow (h : heap) : heap :=
  if heap_full h then
    let new_size := Z.shiftl (h_max_size h) 1 in
    Heap (h_data h ++ fresh_entries (new_size - h_max_size h))
         (h_ofs h ++ seqZ (h_max_size h) (new_size - h_max_size h))
         (u32 new_size) (h_num_items h)
  else h.

Definition heap_insert (h : heap) (x : A) : option (heap * Z) :=
  let h := heap_grow h in
  match sift_up (S (Z.to_nat (h_num_items h))) h (h_num_items h) x with
  | None => None
  | Some (h, pos) =>
      let loc := ofs_at h pos in
      let h := Heap (<[Z.to_nat loc := HeapEntry pos x]> (h_data h)) (h_ofs h) (h_max_size h) (h_num_items h) in
      Some (set_num_items h (u32 (h_num_items h + 1)), loc)
  end.

End Heap.

(** The default comparison. *)
Definition _heap_int_compar (a b : Z) : Z := if a <? b then -1 else if b <? a then 1 else 0.
