(* ===== verification/HeapFacts.v ===== *)
(** * HeapFacts: the heap keeps the largest element on top

    For a comparison that is a total preorder, insertion, removal of the top and
    [heap_build] keep the heap order and change the multiset of elements exactly by the
    element concerned.  The two removal functions that take an index or a location do not
    have this property; evaluated examples show how they fail. *)

From stdpp Require Import base numbers list.
From Stdlib Require Import ZArith Lia Sorted.
From S2P Require Import Prelude Heap.

(** ** Swapping two elements of a list *)

Definition swap {A} (l : list A) (i j : nat) (x y : A) : list A := <[i := y]> (<[j := x]> l).

Lemma swap_perm {A} (l : list A) i j x y :
  l !! i = Some x -> l !! j = Some y -> swap l i j x y ≡ₚ l.
Proof.
  intros Hi Hj. unfold swap. destruct (decide (i = j)) as [->|Hne].
  { by rewrite list_insert_insert_eq, list_insert_id by congruence. }
  apply Permutation_inj. split; [by rewrite !length_insert|].
  exists (fun k => if decide (k = i) then j else if decide (k = j) then i else k). split.
  - intros a b. repeat case_decide; congruence.
  - intros k. pose proof (lookup_lt_Some _ _ _ Hi). pose proof (lookup_lt_Some _ _ _ Hj).
    repeat case_decide; subst.
    + by rewrite list_lookup_insert_eq by (by rewrite length_insert).
    + by rewrite list_lookup_insert_ne, list_lookup_insert_eq by done.
    + by rewrite !list_lookup_insert_ne by done.
Qed.

Section Facts.
Context {A : Type} (junk : A) (compar : A -> A -> Z).

(** [ge a b]: [b] is not larger than [a], the test of the heap loops. *)
Definition ge (a b : A) : Prop := 0 <= compar a b.

Hypothesis ge_trans : forall a b c, ge a b -> ge b c -> ge a c.
Hypothesis ge_total : forall a b, compar a b < 0 -> ge b a.

Notation heap := (@heap A).
Notation data_at := (data_at junk).
Notation fix_down_loop := (_heap_fix_down junk compar).

Definition at_pos (h : heap) (i : Z) : A := data_at h (ofs_at h i).

(** The elements in the heap. *)
Definition items (h : heap) : list A := data_at h <$> take (Z.to_nat (h_num_items h)) (h_ofs h).

Record heap_shape (h : heap) : Prop := {
  shape_data : Z.of_nat (length (h_data h)) = h_max_size h;
  shape_perm : h_ofs h ≡ₚ seqZ 0 (h_max_size h);
  shape_num : 0 <= h_num_items h <= h_max_size h;
  shape_max : 0 < h_max_size h < 2 ^ 31;
}.

Definition parent (i : Z) : Z := (i - 1) / 2.

(** The heap order below the positions from [lo] on. *)
Definition ordered_from (h : heap) (lo : Z) : Prop :=
  forall j, 0 < j < h_num_items h -> lo <= parent j -> ge (at_pos h (parent j)) (at_pos h j).

Definition ordered (h : heap) : Prop := ordered_from h 0.

(** Ordered except below position [i], whose children do not exceed its parent. *)
Definition ordered_but (h : heap) (lo i : Z) : Prop :=
  (forall j, 0 < j < h_num_items h -> lo <= parent j -> parent j <> i -> ge (at_pos h (parent j)) (at_pos h j))
  /\ (forall j, 0 < j < h_num_items h -> parent j = i -> 0 < i -> lo <= parent i ->
        ge (at_pos h (parent i)) (at_pos h j)).

(** *** Field updates *)

Lemma shape_len h : heap_shape h -> Z.of_nat (length (h_ofs h)) = h_max_size h.
Proof.
  intros [_ Hp _ Hm]. rewrite (Permutation_length Hp), length_seqZ. lia.
Qed.

Lemma ofs_lookup h i : heap_shape h -> 0 <= i < h_max_size h -> h_ofs h !! Z.to_nat i = Some (ofs_at h i).
Proof.
  intros Hs Hi. unfold ofs_at. destruct (h_ofs h !! Z.to_nat i) eqn:E; [done|].
  apply lookup_ge_None in E. pose proof (shape_len h Hs). lia.
Qed.

Lemma ofs_range h i : heap_shape h -> 0 <= i < h_max_size h -> 0 <= ofs_at h i < h_max_size h.
Proof.
  intros Hs Hi. pose proof (ofs_lookup h i Hs Hi) as Hl. apply list_elem_of_lookup_2 in Hl.
  rewrite (shape_perm h Hs) in Hl. apply elem_of_seqZ in Hl. lia.
Qed.

Lemma data_at_set_key h loc k l : data_at (set_key junk h loc k) l = data_at h l.
Proof.
  unfold Heap.data_at, entry_at, set_key. cbn. destruct (decide (Z.to_nat loc = Z.to_nat l)) as [E|E].
  - rewrite E. destruct (decide (Z.to_nat l < length (h_data h))%nat) as [Hl|Hl].
    + rewrite list_lookup_insert_eq by done. cbn. unfold Heap.data_at, entry_at. by rewrite E.
    + rewrite list_insert_ge by lia. done.
  - by rewrite list_lookup_insert_ne.
Qed.

(** Two heaps that differ only in keys. *)
Definition same_but_keys (h h' : heap) : Prop :=
  h_ofs h' = h_ofs h /\ h_num_items h' = h_num_items h /\ h_max_size h' = h_max_size h
  /\ length (h_data h') = length (h_data h) /\ forall l, data_at h' l = data_at h l.

Lemma set_key_same h loc k : same_but_keys h (set_key junk h loc k).
Proof.
  repeat split; try done; [cbn; by rewrite length_insert|]. intros l. apply data_at_set_key.
Qed.

Lemma same_trans h1 h2 h3 : same_but_keys h1 h2 -> same_but_keys h2 h3 -> same_but_keys h1 h3.
Proof. unfold same_but_keys. intuition congruence. Qed.

(** The exchange of positions [i] and [j]. *)
Definition exchanged (h h' : heap) (i j : Z) : Prop :=
  h_ofs h' = swap (h_ofs h) (Z.to_nat i) (Z.to_nat j) (ofs_at h i) (ofs_at h j)
  /\ h_num_items h' = h_num_items h /\ h_max_size h' = h_max_size h
  /\ length (h_data h') = length (h_data h) /\ forall l, data_at h' l = data_at h l.

Lemma exchanged_shape h h' i j :
  heap_shape h -> 0 <= i < h_max_size h -> 0 <= j < h_max_size h -> exchanged h h' i j -> heap_shape h'.
Proof.
  intros Hs Hi Hj (Eo & En & Em & El & _). split; rewrite ?Em, ?En, ?El; try apply Hs.
  rewrite Eo, swap_perm by (by apply ofs_lookup). apply Hs.
Qed.

Lemma exchanged_at h h' i j k :
  heap_shape h -> 0 <= i < h_max_size h -> 0 <= j < h_max_size h -> 0 <= k -> exchanged h h' i j ->
  at_pos h' k = at_pos h (if decide (k = i) then j else if decide (k = j) then i else k).
Proof.
  intros Hs Hi Hj Hk (Eo & _ & _ & _ & Ed). unfold at_pos. rewrite Ed. f_equal. unfold ofs_at at 1. rewrite Eo.
  pose proof (shape_len h Hs). unfold swap. repeat case_decide; subst.
  - by rewrite list_lookup_insert_eq by (rewrite length_insert; lia).
  - rewrite list_lookup_insert_ne, list_lookup_insert_eq by lia. done.
  - rewrite !list_lookup_insert_ne by lia. done.
Qed.

Lemma exchanged_items h h' i j :
  heap_shape h -> 0 <= i < h_num_items h -> 0 <= j < h_num_items h -> exchanged h h' i j ->
  items h' ≡ₚ items h.
Proof.
  intros Hs Hi Hj (Eo & En & _ & _ & Ed). pose proof (shape_num h Hs). unfold items. rewrite En, Eo.
  rewrite (list_fmap_ext (data_at h') (data_at h)) by (intros; apply Ed).
  apply fmap_Permutation. unfold swap. rewrite !take_insert_lt by lia.
  apply swap_perm; rewrite lookup_take_lt by lia; apply ofs_lookup; auto; lia.
Qed.

Lemma parent_spec j : 2 * parent j + 1 <= j <= 2 * parent j + 2.
Proof.
  unfold parent. pose proof (Z.div_mod (j - 1) 2 ltac:(lia)). pose proof (Z.mod_pos_bound (j - 1) 2 ltac:(lia)). lia.
Qed.

Ltac parents := repeat match goal with
  | |- context [parent ?j] => lazymatch goal with H : _ <= j <= 2 * parent j + 2 |- _ => fail | _ => pose proof (parent_spec j) end
  | _ : context [parent ?j] |- _ => lazymatch goal with H : _ <= j <= 2 * parent j + 2 |- _ => fail | _ => pose proof (parent_spec j) end
  end.

(** Moving the larger child [c] of [i] up restores the order at [i] and moves the gap to [c]. *)
Lemma exchange_down h h' lo i c :
  heap_shape h -> 0 <= lo <= i -> ordered_but h lo i -> parent c = i -> 0 < c < h_num_items h ->
  (forall j, 0 < j < h_num_items h -> parent j = i -> ge (at_pos h c) (at_pos h j)) ->
  ge (at_pos h c) (at_pos h i) -> exchanged h h' i c -> ordered_but h' lo c.
Proof.
  intros Hs Hi [Hord Hgap] Hc Hcr Hmax Hup He. pose proof (shape_num h Hs). parents.
  pose proof He as (_ & En & _). unfold ordered_but. rewrite En.
  assert (Hat : forall k, 0 <= k -> at_pos h' k = at_pos h (if decide (k = i) then c else if decide (k = c) then i else k)).
  { intros k Hk. apply (exchanged_at h h' i c k); auto; lia. }
  split.
  - intros j Hj Hlo Hpj. parents. rewrite !Hat by lia. repeat case_decide; subst; try lia.
    + exact Hup.
    + apply Hmax; auto.
    + apply Hgap; auto; lia.
    + apply Hord; auto.
  - intros j Hj Hpj Hcpos Hlo. parents. rewrite !Hat by lia. repeat case_decide; subst; try lia.
    apply Hord; auto; lia.
Qed.

(** What the loops leave alone. *)
Definition rearranged (h h' : heap) : Prop :=
  heap_shape h' /\ items h' ≡ₚ items h /\ h_num_items h' = h_num_items h /\ h_max_size h' = h_max_size h
  /\ (forall l, data_at h' l = data_at h l).

Lemma rearranged_refl h : heap_shape h -> rearranged h h.
Proof. intros Hs. split; [done|]. by repeat split. Qed.

Lemma rearranged_trans h1 h2 h3 : rearranged h1 h2 -> rearranged h2 h3 -> rearranged h1 h3.
Proof.
  intros (S1 & I1 & N1 & M1 & D1) (S2 & I2 & N2 & M2 & D2). split; [done|]. split; [by rewrite I2|].
  split; [congruence|]. split; [congruence|]. intros l. by rewrite D2.
Qed.

Lemma exchanged_rearranged h h' i j :
  heap_shape h -> 0 <= i < h_num_items h -> 0 <= j < h_num_items h -> exchanged h h' i j -> rearranged h h'.
Proof.
  intros Hs Hi Hj He. pose proof (shape_num h Hs). pose proof He as (_ & En & Em & _ & Ed).
  split; [eapply (exchanged_shape h h' i j); eauto; lia|]. split; [by apply (exchanged_items h h' i j)|]. done.
Qed.

(** The four assignments of one step of either loop. *)
Lemma step_exchanged h i j a b :
  a = ofs_at h i -> b = ofs_at h j ->
  exchanged h (set_ofs (set_ofs (set_key junk (set_key junk h b a) a b) j a) i b) i j.
Proof.
  intros -> ->. unfold exchanged, set_ofs, set_key, swap. cbn. rewrite !length_insert.
  repeat split; try done. intros l.
  change (data_at (set_key junk (set_key junk h (ofs_at h j) (ofs_at h i)) (ofs_at h i) (ofs_at h j)) l = data_at h l).
  by rewrite !data_at_set_key.
Qed.

Lemma compar_cases a b : (compar a b <? 0) = true /\ ge b a \/ (compar a b <? 0) = false /\ ge a b.
Proof.
  destruct (Z.ltb_spec (compar a b) 0) as [H|H]; [left|right]; split; auto.
Qed.

Lemma ge_refl a : ge a a.
Proof. destruct (compar_cases a a) as [[_ ?]|[_ ?]]; done. Qed.

Lemma fix_down_spec lo n : forall h i,
  heap_shape h -> 0 <= lo <= i -> i <= h_num_items h -> h_num_items h - i <= Z.of_nat n -> ordered_but h lo i ->
  exists h', fix_down_loop (S n) h i = Some h' /\ rearranged h h' /\ ordered_from h' lo.
Proof.
  induction n as [|n IH]; intros h i Hs Hi Hi2 Hn Hb; pose proof (shape_num h Hs) as Hnum; pose proof (shape_max h Hs) as Hmax.
  all: assert (Hch : u32 (u32 (Z.shiftl i 1) + 1) = 2 * i + 1) by
    (rewrite Z.shiftl_mul_pow2 by lia; rewrite (u32_small (i * 2 ^ 1)), u32_small by lia; lia).
  all: assert (Hdone : h_num_items h <= 2 * i + 1 -> rearranged h h /\ ordered_from h lo) by
    (intros Hle; split; [by apply rearranged_refl|]; intros j Hj Hlo; apply Hb; auto; parents; lia).
  all: cbn [_heap_fix_down]; rewrite Hch; destruct (Z.ltb_spec (2 * i + 1) (h_num_items h)) as [Hlt|Hge]; [|eauto].
  { lia. }
  rewrite (u32_small (2 * i + 1 + 1)) by lia.
  fold (at_pos h (2 * i + 1)). fold (at_pos h (2 * i + 1 + 1)).
  set (c := if (2 * i + 1 + 1 <? h_num_items h) && (compar (at_pos h (2 * i + 1)) (at_pos h (2 * i + 1 + 1)) <? 0)
            then 2 * i + 1 + 1 else 2 * i + 1).
  assert (Hc : (c = 2 * i + 1 \/ c = 2 * i + 2) /\ c < h_num_items h
    /\ forall j, 0 < j < h_num_items h -> parent j = i -> ge (at_pos h c) (at_pos h j)).
  { unfold c. destruct (Z.ltb_spec (2 * i + 1 + 1) (h_num_items h)) as [H2|H2]; cbn [andb].
    - destruct (compar_cases (at_pos h (2 * i + 1)) (at_pos h (2 * i + 1 + 1))) as [[-> Hg]|[-> Hg]];
        (split; [lia|]); (split; [lia|]); intros j Hj Hp; parents;
        (assert (j = 2 * i + 1 \/ j = 2 * i + 1 + 1) as [-> | ->] by lia); auto using ge_refl.
    - split; [lia|]. split; [lia|]. intros j Hj Hp. parents. replace j with (2 * i + 1) by lia. apply ge_refl. }
  clearbody c. destruct Hc as (Hc & Hcn & Hcmax). fold (at_pos h i). fold (at_pos h c).
  assert (Hpc : parent c = i) by (parents; lia).
  destruct (compar_cases (at_pos h i) (at_pos h c)) as [[-> Hg]|[-> Hg]].
  - set (h1 := set_ofs _ _ _). assert (He : exchanged h h1 i c) by (by apply step_exchanged).
    assert (Hr : rearranged h h1) by (apply (exchanged_rearranged h h1 i c); auto; lia).
    destruct Hr as (Hs1 & Hr2 & En & Hr4).
    destruct (IH h1 c) as (h' & E & Hr' & Ho); auto; try lia.
    { apply (exchange_down h h1 lo i c); auto; lia. }
    exists h'. split; [exact E|]. split; [|done]. eapply rearranged_trans; [|exact Hr']. done.
  - exists h. split; [done|]. split; [by apply rearranged_refl|]. intros j Hj Hlo.
    destruct (Z.eq_dec (parent j) i) as [Hp|Hp]; [|by apply Hb].
    rewrite Hp. eapply ge_trans; [exact Hg|]. by apply Hcmax.
Qed.

(** ** [heap_build] *)

Lemma build_loop_spec n : forall h,
  heap_shape h -> Z.of_nat n <= h_num_items h + 1 -> ordered_from h (Z.of_nat n) ->
  exists h', heap_build_loop junk compar n h = Some h' /\ rearranged h h' /\ ordered h'.
Proof.
  induction n as [|n IH]; intros h Hs Hn Ho; cbn [heap_build_loop].
  - exists h. split; [done|]. split; [by apply rearranged_refl|done].
  - destruct (fix_down_spec (Z.of_nat n) (Z.to_nat (h_num_items h)) h (Z.of_nat n)) as (h1 & E1 & Hr1 & Ho1); auto; try lia.
    { split; intros j Hj; [intros Hlo Hne; apply Ho; auto; lia|]. intros _ Hpos Hlo. parents. lia. }
    unfold fix_down. rewrite E1. pose proof Hr1 as (Hs1 & _ & En & _).
    destruct (IH h1) as (h' & -> & Hr' & Ho'); auto; [lia|].
    exists h'. split; [done|]. split; [by eapply rearranged_trans|done].
Qed.

Lemma build_spec h :
  heap_shape h -> exists h', heap_build junk compar h = Some h' /\ rearranged h h' /\ ordered h'.
Proof.
  intros Hs. pose proof (shape_num h Hs). pose proof (shape_max h Hs). unfold heap_build.
  assert (0 <= Z.shiftr (h_num_items h) 1 /\ 2 * Z.shiftr (h_num_items h) 1 <= h_num_items h <= 2 * Z.shiftr (h_num_items h) 1 + 1).
  { rewrite Z.shiftr_div_pow2 by lia. pose proof (Z.div_mod (h_num_items h) 2 ltac:(lia)).
    pose proof (Z.mod_pos_bound (h_num_items h) 2 ltac:(lia)). change (2 ^ 1) with 2. lia. }
  apply build_loop_spec; [done|lia|]. intros j Hj Hlo. parents. lia.
Qed.

(** ** The top *)

Lemma at_in_items h i : heap_shape h -> 0 <= i < h_num_items h -> at_pos h i ∈ items h.
Proof.
  intros Hs Hi. pose proof (shape_num h Hs). unfold items, at_pos. apply list_elem_of_fmap_2.
  apply (list_elem_of_lookup_2 _ (Z.to_nat i)). rewrite lookup_take_lt by lia. apply ofs_lookup; auto; lia.
Qed.

Lemma items_at h y : heap_shape h -> y ∈ items h -> exists i, 0 <= i < h_num_items h /\ y = at_pos h i.
Proof.
  intros Hs Hy. pose proof (shape_num h Hs). unfold items in Hy. apply list_elem_of_fmap in Hy as (loc & -> & Hl).
  apply list_elem_of_lookup in Hl as (k & Hk). pose proof (lookup_lt_Some _ _ _ Hk) as Hlt.
  rewrite length_take in Hlt. rewrite lookup_take_lt in Hk by lia. exists (Z.of_nat k). split; [lia|].
  unfold at_pos, ofs_at. by rewrite Nat2Z.id, Hk.
Qed.

Lemma top_max_at h n : forall j, heap_shape h -> ordered h -> 0 <= j < h_num_items h -> j <= Z.of_nat n -> ge (at_pos h 0) (at_pos h j).
Proof.
  induction n as [|n IH]; intros j Hs Ho Hj Hn; [replace j with 0 by lia; apply ge_refl|].
  destruct (Z.eq_dec j 0) as [->|Hne]; [apply ge_refl|]. parents.
  eapply ge_trans; [|apply Ho; [lia|]]; parents; [|lia]. apply IH; auto; lia.
Qed.

Lemma top_max h y : heap_shape h -> ordered h -> y ∈ items h -> ge (at_pos h 0) y.
Proof.
  intros Hs Ho Hy. destruct (items_at h y Hs Hy) as (i & Hi & ->).
  apply (top_max_at h (Z.to_nat i)); auto; lia.
Qed.

Lemma items_snoc h n :
  heap_shape h -> 0 <= n < h_max_size h ->
  data_at h <$> take (Z.to_nat (n + 1)) (h_ofs h) = (data_at h <$> take (Z.to_nat n) (h_ofs h)) ++ [at_pos h n].
Proof.
  intros Hs Hn. replace (Z.to_nat (n + 1)) with (S (Z.to_nat n)) by lia.
  rewrite (take_S_r _ _ (ofs_at h n)) by (by apply ofs_lookup). by rewrite fmap_app.
Qed.

Lemma remove_top_spec h :
  heap_shape h -> ordered h -> 0 < h_num_items h ->
  exists h', heap_remove_top junk compar h = Some h' /\ heap_shape h' /\ ordered h'
    /\ items h ≡ₚ heap_top junk h :: items h'.
Proof.
  intros Hs Ho Hpos. pose proof (shape_num h Hs) as Hnum. unfold heap_remove_top.
  destruct (Z.eqb_spec (h_num_items h) 0) as [?|_]; [lia|]. cbv zeta.
  set (h0 := set_num_items h (h_num_items h - 1)).
  set (n := h_num_items h - 1). assert (Hs0 : heap_shape h0) by (split; try apply Hs; cbn; lia).
  set (h1 := set_key junk (set_ofs (set_ofs (set_key junk h0 (ofs_at h0 0) _) 0 _) _ _) _ 0).
  assert (He : exchanged h0 h1 n 0).
  { unfold exchanged, swap. cbn. rewrite !length_insert. repeat split; try done.
    intros l. unfold h1. rewrite data_at_set_key.
    change (data_at (set_key junk h0 (ofs_at h0 0) (u32 (h_key (entry_at junk h0 (ofs_at h0 0)) - 1))) l = data_at h0 l).
    apply data_at_set_key. }
  assert (Hs1 : heap_shape h1) by (apply (exchanged_shape h0 h1 n 0); auto; unfold n; cbn; lia).
  assert (Hat : forall k, 0 < k < n -> at_pos h1 k = at_pos h k).
  { intros k Hk. rewrite (exchanged_at h0 h1 n 0 k) by (auto; unfold n in *; cbn; lia).
    rewrite !decide_False by lia. done. }
  destruct (fix_down_spec 0 (Z.to_nat (h_num_items h1)) h1 0) as (h' & E & Hr & Ho'); auto; try (cbn; lia).
  { split; intros j Hj; [|lia]. intros _ Hne. change (h_num_items h1) with n in Hj. parents.
    rewrite !Hat by lia. apply Ho; lia. }
  exists h'. split; [exact E|]. destruct Hr as (Hs' & Hi & _). split; [done|]. split; [done|].
  rewrite Hi. unfold items at 1. replace (h_num_items h) with (n + 1) by (unfold n; lia).
  assert (items h1 = data_at h <$> take (Z.to_nat n) (h_ofs h1)) as ->.
  { unfold items. apply list_fmap_ext. intros k l _. apply He. }
  pose proof He as (Eo & _ & _ & _ & Ed).
  assert (Hp : take (Z.to_nat (n + 1)) (h_ofs h) ≡ₚ take (Z.to_nat (n + 1)) (h_ofs h1)).
  { rewrite Eo. unfold swap. rewrite !take_insert_lt by lia. symmetry.
    apply swap_perm; rewrite lookup_take_lt by lia; apply (ofs_lookup h0 _ Hs0); unfold n; cbn; lia. }
  rewrite Hp, (list_fmap_ext (data_at h) (data_at h1)) by (intros; symmetry; apply Ed).
  rewrite items_snoc by (auto; cbn; unfold n; lia). rewrite Permutation_app_comm. cbn.
  rewrite (exchanged_at h0 h1 n 0 n) by (auto; unfold n; cbn; lia). rewrite decide_True by done.
  apply Permutation_cons; [done|]. rewrite (list_fmap_ext (data_at h1) (data_at h)) by (intros; apply Ed). done.
Qed.

(** ** Insertion *)

Lemma grow_spec h :
  heap_shape h -> h_num_items h < 2 ^ 30 ->
  let g := heap_grow junk h in
  heap_shape g /\ items g = items h /\ h_num_items g = h_num_items h /\ h_num_items g < h_max_size g
  /\ (forall i, 0 <= i < h_num_items h -> at_pos g i = at_pos h i).
Proof.
  intros Hs Hsmall. pose proof (shape_num h Hs) as Hn. pose proof (shape_max h Hs) as Hm. unfold heap_grow, heap_full.
  destruct (Z.eqb_spec (h_num_items h) (h_max_size h)) as [E|E]; [|cbn; repeat split; auto; try apply Hs; lia].
  rewrite Z.shiftl_mul_pow2, u32_small by lia. set (g := Heap _ _ _ _). cbv zeta.
  pose proof (shape_len h Hs) as Hl. pose proof (shape_data h Hs) as Hd.
  assert (Hofs : forall i, 0 <= i < h_max_size h -> ofs_at g i = ofs_at h i).
  { intros i Hi. unfold ofs_at. cbn. by rewrite lookup_app_l by lia. }
  assert (Hdata : forall l, 0 <= l < h_max_size h -> data_at g l = data_at h l).
  { intros l Hlr. unfold Heap.data_at, entry_at. cbn. by rewrite lookup_app_l by lia. }
  split; [|split; [|split; [done|split; [cbn; lia|]]]].
  - split; cbn; try lia.
    + rewrite length_app. unfold fresh_entries. rewrite length_replicate. lia.
    + rewrite (shape_perm h Hs). replace (h_max_size h * 2 ^ 1) with (h_max_size h + h_max_size h) at 2 by lia.
      rewrite seqZ_app by lia. rewrite Z.add_0_l. by replace (h_max_size h * 2 ^ 1 - h_max_size h) with (h_max_size h) by lia.
  - unfold items. cbn. rewrite take_app_le by lia. apply list_fmap_ext. intros k l Hk. apply Hdata.
    assert (l ∈ h_ofs h) as Hin.
    { apply lookup_take_Some in Hk as [Hk _]. by apply list_elem_of_lookup_2 in Hk. }
    rewrite (shape_perm h Hs) in Hin. apply elem_of_seqZ in Hin. lia.
  - intros i Hi. unfold at_pos. rewrite Hofs, Hdata by (try apply ofs_range; auto; lia). done.
Qed.

(** The array with [x] in the place of position [pos]. *)
Definition with_x (h : heap) (pos : Z) (x : A) (k : Z) : A := if decide (k = pos) then x else at_pos h k.

(** Positions up to [num_items] are ordered when [x] is thought at [pos], except perhaps [x]
    and its parent. *)
Definition rising (h : heap) (pos : Z) (x : A) : Prop :=
  (forall j, 0 < j <= h_num_items h -> j <> pos -> ge (with_x h pos x (parent j)) (with_x h pos x j))
  /\ (forall j, 0 < j <= h_num_items h -> parent j = pos -> 0 < pos -> ge (at_pos h (parent pos)) (at_pos h j)).

Lemma rise_step h h1 pos x :
  heap_shape h -> h_num_items h < h_max_size h -> 0 < pos <= h_num_items h -> rising h pos x ->
  ge x (at_pos h (parent pos)) -> exchanged h h1 pos (parent pos) -> rising h1 (parent pos) x.
Proof.
  intros Hs Hm Hp [H1 H2] Hx He. pose proof (shape_num h Hs). pose proof (parent_spec pos) as Hpp.
  pose proof He as (_ & En & _). unfold rising, with_x in *. rewrite En.
  assert (Hat : forall k, 0 <= k -> at_pos h1 k = at_pos h (if decide (k = pos) then parent pos else if decide (k = parent pos) then pos else k)).
  { intros k Hk. apply (exchanged_at h h1 pos (parent pos) k); auto; lia. }
  split.
  - intros j Hj Hne. pose proof (parent_spec j) as Hpj. destruct (decide (j = parent pos)) as [?|_]; [done|].
    rewrite (Hat j) by lia. destruct (decide (parent j = parent pos)) as [E|E].
    + destruct (decide (j = pos)) as [->|Hjp]; [done|]. rewrite (decide_False _ _ Hne).
      specialize (H1 j Hj Hjp). rewrite !decide_False in H1 by lia. rewrite E in H1. by eapply ge_trans.
    + rewrite (Hat (parent j)) by lia. destruct (decide (parent j = pos)) as [E2|E2].
      * rewrite !decide_False by lia. apply H2; auto; lia.
      * rewrite (decide_False _ _ E). destruct (decide (j = pos)) as [->|Hjp]; [done|]. rewrite (decide_False _ _ Hne).
        specialize (H1 j Hj Hjp). by rewrite !decide_False in H1 by lia.
  - intros j Hj E Hpos. pose proof (parent_spec j) as Hpj. pose proof (parent_spec (parent pos)) as Hppp.
    rewrite (Hat (parent (parent pos))), (Hat j) by lia. rewrite (decide_False (P := parent (parent pos) = pos)) by lia.
    rewrite (decide_False (P := parent (parent pos) = parent pos)) by lia.
    assert (Hup : ge (at_pos h (parent (parent pos))) (at_pos h (parent pos))).
    { specialize (H1 (parent pos) ltac:(lia) ltac:(lia)). by rewrite !decide_False in H1 by lia. }
    destruct (decide (j = pos)) as [->|Hjp]; [done|]. rewrite decide_False by lia.
    specialize (H1 j Hj Hjp). rewrite !decide_False in H1 by lia. rewrite E in H1. by eapply ge_trans.
Qed.

Lemma sift_up_spec x n : forall h pos,
  heap_shape h -> h_num_items h < h_max_size h -> 0 <= pos <= h_num_items h -> pos <= Z.of_nat n -> rising h pos x ->
  exists h' pos', sift_up junk compar (S n) h pos x = Some (h', pos') /\ heap_shape h'
    /\ 0 <= pos' <= h_num_items h /\ ofs_at h' pos' = ofs_at h pos
    /\ h_num_items h' = h_num_items h /\ h_max_size h' = h_max_size h /\ (forall l, data_at h' l = data_at h l)
    /\ take (Z.to_nat (h_num_items h + 1)) (h_ofs h') ≡ₚ take (Z.to_nat (h_num_items h + 1)) (h_ofs h)
    /\ forall j, 0 < j <= h_num_items h -> ge (with_x h' pos' x (parent j)) (with_x h' pos' x j).
Proof.
  induction n as [|n IH]; intros h pos Hs Hm Hp Hn Hr; pose proof (shape_num h Hs) as Hnum; cbn [sift_up].
  all: assert (Hstop : pos = 0 \/ ge (at_pos h (parent pos)) x ->
    forall j, 0 < j <= h_num_items h -> ge (with_x h pos x (parent j)) (with_x h pos x j)) by
    (intros Hst j Hj; destruct (decide (j = pos)) as [->|Hne]; [|by apply Hr];
     pose proof (parent_spec pos); unfold with_x; rewrite decide_False, decide_True by lia; destruct Hst; [lia|done]).
  all: destruct (Z.ltb_spec 0 pos) as [Hpos|Hz]; [|exists h, pos; split; [done|]; split; [done|]; split; [lia|]; repeat (split; [done|]); apply Hstop; lia].
  { lia. }
  assert (Hpar : Z.shiftr (pos - 1) 1 = parent pos) by (rewrite Z.shiftr_div_pow2 by lia; done).
  rewrite Hpar. pose proof (parent_spec pos) as Hpp. fold (at_pos h (parent pos)).
  destruct (compar_cases (at_pos h (parent pos)) x) as [[-> Hg]|[-> Hg]];
    [|exists h, pos; split; [done|]; split; [done|]; split; [lia|]; repeat (split; [done|]); apply Hstop; auto].
  set (h1 := set_ofs _ _ _).
  assert (He : exchanged h h1 (parent pos) pos) by (by apply step_exchanged).
  assert (He' : exchanged h h1 pos (parent pos)).
  { destruct He as (Eo & He). split; [|exact He]. rewrite Eo. unfold swap. rewrite list_insert_insert_ne by lia. done. }
  assert (Hs1 : heap_shape h1) by (apply (exchanged_shape h h1 pos (parent pos)); auto; lia).
  pose proof He' as (Eo & En & Em & _ & Ed).
  destruct (IH h1 (parent pos)) as (h' & pos' & E & Hs' & Hp' & Hofs & En' & Em' & Ed' & Ht & Hord); auto; try lia.
  { apply (rise_step h h1 pos x); auto; lia. }
  exists h', pos'. split; [exact E|]. rewrite En, Em in *. split; [done|]. split; [lia|].
  split; [|split; [done|split; [done|split; [intros l; by rewrite Ed', Ed|split; [|done]]]]].
  - rewrite Hofs. unfold ofs_at at 1. rewrite Eo. unfold swap.
    rewrite list_lookup_insert_ne, list_lookup_insert_eq by (pose proof (shape_len h Hs); lia). done.
  - rewrite Ht, Eo. unfold swap. rewrite !take_insert_lt by lia.
    apply swap_perm; rewrite lookup_take_lt by lia; apply ofs_lookup; auto; lia.
Qed.

Lemma ofs_inj h i j :
  heap_shape h -> 0 <= i < h_max_size h -> 0 <= j < h_max_size h -> ofs_at h i = ofs_at h j -> i = j.
Proof.
  intros Hs Hi Hj E. assert (NoDup (h_ofs h)) as Hnd by (rewrite (shape_perm h Hs); apply NoDup_seqZ).
  pose proof (ofs_lookup h i Hs Hi) as Li. pose proof (ofs_lookup h j Hs Hj) as Lj. rewrite E in Li.
  pose proof (NoDup_lookup _ _ _ _ Hnd Li Lj). lia.
Qed.

(** Writing the new element at its final position. *)
Section Place.
Variables (h : heap) (pos : Z) (x : A).
Hypothesis Hs : heap_shape h.
Hypothesis Hfull : h_num_items h < h_max_size h.
Hypothesis Hpos : 0 <= pos <= h_num_items h.

Definition placed : heap :=
  Heap (<[Z.to_nat (ofs_at h pos) := HeapEntry pos x]> (h_data h)) (h_ofs h) (h_max_size h) (h_num_items h + 1).

Lemma placed_data l : 0 <= l < h_max_size h ->
  data_at placed l = if decide (l = ofs_at h pos) then x else data_at h l.
Proof.
  intros Hl. pose proof (shape_num h Hs). pose proof (ofs_range h pos Hs ltac:(lia)). pose proof (shape_data h Hs).
  unfold Heap.data_at, entry_at. cbn. case_decide as E.
  - subst l. by rewrite list_lookup_insert_eq by lia.
  - by rewrite list_lookup_insert_ne by lia.
Qed.

Lemma placed_at k : 0 <= k <= h_num_items h -> at_pos placed k = with_x h pos x k.
Proof.
  intros Hk. pose proof (shape_num h Hs). unfold at_pos, with_x. change (ofs_at placed k) with (ofs_at h k).
  rewrite placed_data by (apply ofs_range; auto; lia). unfold at_pos.
  repeat case_decide; auto; [|congruence]. exfalso. pose proof (ofs_inj h k pos Hs). lia.
Qed.

Lemma placed_shape : heap_shape placed.
Proof.
  pose proof (shape_num h Hs). split; cbn; try apply Hs; [rewrite length_insert; apply Hs|lia].
Qed.

Lemma placed_items g :
  heap_shape g -> h_num_items g = h_num_items h -> h_max_size g = h_max_size h ->
  (forall l, data_at h l = data_at g l) -> ofs_at h pos = ofs_at g (h_num_items g) ->
  take (Z.to_nat (h_num_items g + 1)) (h_ofs h) ≡ₚ take (Z.to_nat (h_num_items g + 1)) (h_ofs g) ->
  items placed ≡ₚ x :: items g.
Proof.
  intros Hg En Em Ed Eo Ht. pose proof (shape_num h Hs). unfold items at 1. cbn [placed h_num_items h_ofs].
  rewrite <- En, Ht. replace (Z.to_nat (h_num_items g + 1)) with (S (Z.to_nat (h_num_items g))) by lia.
  rewrite (take_S_r _ _ (ofs_at g (h_num_items g))) by (apply ofs_lookup; auto; lia).
  rewrite fmap_app. cbn. rewrite Permutation_app_comm. cbn.
  rewrite <- Eo, placed_data by (apply ofs_range; auto; lia). rewrite decide_True by done.
  apply Permutation_cons; [done|]. unfold items. erewrite list_fmap_ext; [done|]. intros i l Hl.
  apply lookup_take_Some in Hl as [Hl Hi].
  assert (Hof : l = ofs_at g (Z.of_nat i)) by (unfold ofs_at; by rewrite Nat2Z.id, Hl).
  rewrite placed_data; [|rewrite Hof, <- Em; apply ofs_range; auto; lia].
  rewrite decide_False; [apply Ed|]. rewrite Eo, Hof. intros E. pose proof (ofs_inj g (Z.of_nat i) (h_num_items g) Hg ltac:(lia) ltac:(lia) E). lia.
Qed.

End Place.

Lemma insert_spec h x :
  heap_shape h -> ordered h -> h_num_items h < 2 ^ 30 ->
  exists h' loc, heap_insert junk compar h x = Some (h', loc) /\ heap_shape h' /\ ordered h'
    /\ items h' ≡ₚ x :: items h /\ data_at h' loc = x /\ h_num_items h' = h_num_items h + 1.
Proof.
  intros Hs Ho Hsm. destruct (grow_spec h Hs Hsm) as (Hg & Hi & En & Hlt & Hat). unfold heap_insert. cbv zeta.
  set (g := heap_grow junk h) in *. pose proof (shape_num g Hg) as Hn.
  destruct (sift_up_spec x (Z.to_nat (h_num_items g)) g (h_num_items g))
    as (h1 & pos & -> & Hs1 & Hp & Hofs & En1 & Em1 & Ed1 & Ht & Hord); auto; try lia.
  { split; intros j Hj; [|intros E; parents; lia]. intros Hne. unfold with_x. pose proof (parent_spec j).
    rewrite !decide_False by lia. rewrite !Hat by lia. apply Ho; lia. }
  eexists _, _. split; [done|]. rewrite (u32_small (h_num_items _ + 1)) by (cbn; lia).
  change (set_num_items _ _) with (placed h1 pos x).
  assert (Hpos1 : 0 <= pos <= h_num_items h1) by lia. assert (Hlt1 : h_num_items h1 < h_max_size h1) by lia.
  split; [by apply placed_shape|]. split; [|split; [|split]].
  - intros j Hj _. cbn in Hj. pose proof (parent_spec j). rewrite !placed_at by (auto; lia). apply Hord. lia.
  - rewrite (placed_items h1 pos x Hs1 Hlt1 Hpos1 g) by auto. by rewrite Hi.
  - rewrite placed_data by (auto; apply ofs_range; auto; lia). by rewrite decide_True.
  - cbn. lia.
Qed.

End Facts.

(** ** Filling and draining a heap *)

Section Sort.
Context {A : Type} (junk : A) (compar : A -> A -> Z).

Fixpoint heap_fill (h : heap) (l : list A) : option heap :=
  match l with
  | [] => Some h
  | x :: l => '(h, _) ← heap_insert junk compar h x; heap_fill h l
  end.

(** [while (!heap_empty(h)) { use heap_top(h); heap_remove_top(h); }] *)
Fixpoint heap_drain (fuel : nat) (h : heap) : option (list A) :=
  if heap_empty h then Some []
  else
    match fuel with
    | O => None
    | S f => h' ← heap_remove_top junk compar h; l ← heap_drain f h'; Some (heap_top junk h :: l)
    end.

Hypothesis ge_trans : forall a b c, ge compar a b -> ge compar b c -> ge compar a c.
Hypothesis ge_total : forall a b, compar a b < 0 -> ge compar b a.

Lemma init_spec n el h :
  0 <= n < 2 ^ 31 -> heap_init junk n el = Some h -> heap_shape h /\ ordered junk compar h /\ items junk h = [].
Proof.
  intros Hn. unfold heap_init, HEAP_DEFAULT_INITIAL_SIZE. destruct (el =? 0); [done|]. intros [= <-].
  set (k := if n =? 0 then 128 else n). assert (0 < k < 2 ^ 31) as Hk by (unfold k; zcase; lia).
  rewrite u32_small by lia. split; [|split; [|done]].
  - split; cbn; try lia; [|done]. unfold fresh_entries. rewrite length_replicate. lia.
  - intros j Hj. cbn in Hj. lia.
Qed.

Lemma fill_spec l : forall h,
  heap_shape h -> ordered junk compar h -> h_num_items h + Z.of_nat (length l) <= 2 ^ 30 ->
  exists h', heap_fill h l = Some h' /\ heap_shape h' /\ ordered junk compar h'
    /\ items junk h' ≡ₚ l ++ items junk h /\ h_num_items h' = h_num_items h + Z.of_nat (length l).
Proof.
  induction l as [|x l IH]; intros h Hs Ho Hlen; cbn [heap_fill length] in *.
  - exists h. split; [done|]. split; [done|]. split; [done|]. split; [done|lia].
  - destruct (insert_spec junk compar ge_trans ge_total h x Hs Ho ltac:(lia)) as (h1 & loc & -> & Hs1 & Ho1 & Hi1 & _ & En).
    cbn [mbind option_bind]. destruct (IH h1 Hs1 Ho1 ltac:(lia)) as (h' & -> & Hs' & Ho' & Hi' & En').
    exists h'. split; [done|]. split; [done|]. split; [done|]. split; [|lia].
    rewrite Hi', Hi1. symmetry. apply (Permutation_middle l).
Qed.

Lemma items_length h : heap_shape h -> Z.of_nat (length (items junk h)) = h_num_items h.
Proof.
  intros Hs. unfold items. rewrite length_fmap, length_take.
  pose proof (shape_len h Hs). pose proof (shape_num h Hs). lia.
Qed.

Lemma drain_spec n : forall h,
  heap_shape h -> ordered junk compar h -> h_num_items h <= Z.of_nat n ->
  exists l, heap_drain n h = Some l /\ l ≡ₚ items junk h /\ StronglySorted (ge compar) l.
Proof.
  induction n as [|n IH]; intros h Hs Ho Hn; pose proof (shape_num h Hs) as Hnum; cbn [heap_drain]; unfold heap_empty;
    pose proof (items_length h Hs) as Hl.
  all: destruct (Z.eqb_spec (h_num_items h) 0) as [Hz|Hz];
    [exists []; split; [done|]; split; [|constructor]; destruct (items junk h); [done|cbn in Hl; lia]|].
  { lia. }
  destruct (remove_top_spec junk compar ge_trans ge_total h Hs Ho ltac:(lia)) as (h' & -> & Hs' & Ho' & Hi).
  cbn [mbind option_bind]. pose proof (items_length h' Hs') as Hl'. rewrite Hi in Hl. cbn in Hl.
  destruct (IH h' Hs' Ho' ltac:(lia)) as (l & -> & Hp & Hsort). cbn. eexists. split; [done|].
  split; [by rewrite Hi, Hp|]. constructor; [done|]. apply Forall_forall. intros y Hy.
  apply (top_max junk compar ge_trans ge_total h y); auto. rewrite Hi. right. by rewrite <- Hp.
Qed.

End Sort.

(** C25: for any comparison that is a total preorder, inserting the elements of [l] into a new
    heap and then taking and removing the top until the heap is empty yields exactly the
    elements of [l], from the largest to the smallest. *)
Theorem heap_sorts {A} (junk : A) (compar : A -> A -> Z) (n el_size : Z) (h : heap) (l : list A)
  (Htrans : forall a b c, 0 <= compar a b -> 0 <= compar b c -> 0 <= compar a c)
  (Htotal : forall a b, compar a b < 0 -> 0 <= compar b a)
  (Hn : 0 <= n < 2 ^ 31) (Hinit : heap_init junk n el_size = Some h) (Hlen : Z.of_nat (length l) <= 2 ^ 30) :
  exists h' out, heap_fill junk compar h l = Some h' /\ heap_drain junk compar (length l) h' = Some out
    /\ out ≡ₚ l /\ StronglySorted (fun a b => 0 <= compar a b) out.
Proof.
  destruct (init_spec junk compar n el_size h Hn Hinit) as (Hs & Ho & Hi).
  assert (h_num_items h = 0) as Hz by (rewrite <- (items_length junk h Hs), Hi; done).
  destruct (fill_spec junk compar Htrans Htotal l h Hs Ho ltac:(lia)) as (h' & Hf & Hs' & Ho' & Hi' & En).
  destruct (drain_spec junk compar Htrans Htotal (length l) h' Hs' Ho' ltac:(lia)) as (out & Hd & Hp & Hsort).
  exists h', out. rewrite Hi, app_nil_r in Hi'. split; [done|]. split; [done|]. split; [by rewrite Hp|done].
Qed.

Definition demo_heap : heap (A := Z) := Heap (fresh_entries 0 2) (seqZ 0 2) 2 0.

Lemma int_compar_trans a b c : 0 <= _heap_int_compar a b -> 0 <= _heap_int_compar b c -> 0 <= _heap_int_compar a c.
Proof. unfold _heap_int_compar. zcases. Qed.
Lemma int_compar_total a b : _heap_int_compar a b < 0 -> 0 <= _heap_int_compar b a.
Proof. unfold _heap_int_compar. zcases. Qed.

Lemma heap_sorts_witness :
  heap_init 0 2 4 = Some demo_heap
  /\ exists h' out, heap_fill 0 _heap_int_compar demo_heap [3; 9; 4; 1; 9] = Some h'
    /\ heap_drain 0 _heap_int_compar 5 h' = Some out /\ out ≡ₚ [3; 9; 4; 1; 9].
Proof.
  split; [reflexivity|].
  destruct (heap_sorts 0 _heap_int_compar 2 4 demo_heap [3; 9; 4; 1; 9] int_compar_trans int_compar_total
    ltac:(lia) eq_refl ltac:(cbn; lia)) as (h' & out & H1 & H2 & H3 & _). eauto.
Defined.

(** [heap_build] on a heap whose elements are in any order rearranges them, without
    adding or losing one, so that no element is larger than its parent. *)
Theorem heap_build_orders {A} (junk : A) (compar : A -> A -> Z) (h : heap)
  (Htrans : forall a b c, 0 <= compar a b -> 0 <= compar b c -> 0 <= compar a c)
  (Htotal : forall a b, compar a b < 0 -> 0 <= compar b a)
  (Hshape : heap_shape h) :
  exists h', heap_build junk compar h = Some h' /\ heap_shape h' /\ ordered junk compar h'
    /\ items junk h' ≡ₚ items junk h.
Proof.
  destruct (build_spec junk compar Htrans Htotal h Hshape) as (h' & E & (Hs & Hi & _) & Ho). eauto.
Qed.

(** Three elements stored in increasing order. *)
Definition demo_unordered : heap (A := Z) := Heap [HeapEntry 0 1; HeapEntry 1 2; HeapEntry 2 3] [0; 1; 2] 3 3.

Lemma demo_unordered_shape : heap_shape demo_unordered.
Proof. split; cbn; try lia. reflexivity. Qed.

Lemma heap_build_orders_witness :
  exists h', heap_build 0 _heap_int_compar demo_unordered = Some h' /\ heap_shape h'
    /\ ordered 0 _heap_int_compar h' /\ items 0 h' ≡ₚ [1; 2; 3].
Proof.
  apply (heap_build_orders 0 _heap_int_compar demo_unordered int_compar_trans int_compar_total demo_unordered_shape).
Defined.

(** ** What the keys are worth *)

Definition heap_of (n : Z) (l : list Z) : option heap :=
  h ← heap_init 0 n 4; heap_fill 0 _heap_int_compar h l.

Lemma heap_insert_eval {A} (junk : A) compar h x h1 h2 pos h3 : heap_grow junk h = h1 -> sift_up junk compar (S (Z.to_nat (h_num_items h1))) h1 (h_num_items h1) x = Some (h2, pos) ->
  Heap (<[Z.to_nat (ofs_at h2 pos) := HeapEntry pos x]> (h_data h2)) (h_ofs h2) (h_max_size h2) (u32 (h_num_items h2 + 1)) = h3 ->
  heap_insert junk compar h x = Some (h3, ofs_at h2 pos).
Proof. intros <- E <-. unfold heap_insert. cbv zeta. by rewrite E. Qed.

(** Evaluates the next [heap_insert], with the comparisons that are known. *)
Ltac insert_step :=
  erewrite heap_insert_eval by
    first [vm_compute; reflexivity | repeat (vm_compute; match goal with E : _ = Z.neg _ |- _ => rewrite E end); vm_compute; reflexivity];
  cbn [mbind option_bind].

(** [heap_remove] can remove another element than the one at the given location: with any four
    elements inserted in increasing order, the element at location 2 is the third one, but its key
    is 3, the position of the first one, which is what is removed.  The sift-up loop stores
    locations where the keys should be positions. *)
Lemma heap_remove_removes_another {A} (junk : A) (compar : A -> A -> Z) (a b c d : A)
  (Hab : compar a b < 0) (Hbc : compar b c < 0) (Had : compar a d < 0) (Hcd : compar c d < 0) :
  exists h0 h h', heap_init junk 16 4 = Some h0 /\ heap_fill junk compar h0 [a; b; c; d] = Some h /\ data_at junk h 2 = c
    /\ heap_remove junk compar h 2 = Some h' /\ items junk h' = [d; c; b].
Proof.
  destruct (compar a b) eqn:Eab, (compar b c) eqn:Ebc, (compar a d) eqn:Ead, (compar c d) eqn:Ecd; try lia. clear Hab Hbc Had Hcd.
  eexists _, _, _. split; [reflexivity|]. split; [|split; [|split]].
  - do 4 (cbn [heap_fill]; insert_step). cbn [heap_fill]. reflexivity.
  - reflexivity.
  - vm_compute. reflexivity.
  - reflexivity.
Qed.

(** [heap_remove_item] can destroy the heap order, because the element moved into the gap
    is only ever moved down: removing position 3 of a proper heap moves 70 below 10. *)
Theorem heap_remove_item_breaks_order :
  exists h h', heap_of 16 [100; 10; 90; 5; 6; 80; 70] = Some h /\ ordered 0 _heap_int_compar h
    /\ heap_remove_item 0 _heap_int_compar h 3 = Some h' /\ ~ ordered 0 _heap_int_compar h'.
Proof.
  eexists _, _. split; [vm_compute; reflexivity|]. split; [|split; [vm_compute; reflexivity|]].
  - intros j Hj _. cbn in Hj.
    assert (j = 1 \/ j = 2 \/ j = 3 \/ j = 4 \/ j = 5 \/ j = 6) as Hc by lia.
    repeat destruct Hc as [->|Hc]; subst; vm_compute; congruence.
  - intros Ho. specialize (Ho 3 ltac:(cbn; lia) ltac:(vm_compute; congruence)). vm_compute in Ho. by apply Ho.
Qed.
