(* ===== verification/HashtableVect.v ===== *)
(** * HashtableVect: hash table over a vector of fixed-size values
    ([include/hashtable_vect.h], [src/hashtable_vect.c], [src/_hashtable_vect.c])

    Three allocators: the buckets (a header and a contiguous bucket array), the entries
    (value offset and key) and the vector of values.  Values are addressed by their byte
    offset in the vector; a NULL result is [None] inside the result. *)

From stdpp Require Import base numbers list gmap.
From Stdlib Require Import ZArith Lia.
From S2P Require Import Prelude Words Probe ProbeFacts Os Vmallocator ProbeMap.

(** Sizes of [struct hashtable_vect_header], [.._internal_entry] and [.._entry]. *)
Definition HV_HEADER_SIZE : Z := 16.
Definition HV_BUCKET_SIZE : Z := 8.
Definition HV_ENTRY_SIZE : Z := 8.

Record hashtable_vect_entry := HvEntry { ofs_val : Z; hv_key_len : Z; hv_key_data : list Z }.

Record hashtable_vect := HashtableVect {
  hv_entry_buf : vmallocator;
  hv_buckets_buf : vmallocator;
  hv_vect : vmallocator;
  (* struct hashtable_vect_header *)
  hv_mask : Z;
  hv_size : Z;
  hv_val_size : Z;
  (* contents *)
  hv_buckets : list ht_entry;
  hv_entries : gmap Z hashtable_vect_entry;   (* by offset in entry_buf *)
  hv_vals : gmap Z (list Z);                  (* by offset in vect *)
}.

Definition hv_with_buckets t l := HashtableVect (hv_entry_buf t) (hv_buckets_buf t) (hv_vect t) (hv_mask t) (hv_size t) (hv_val_size t) l (hv_entries t) (hv_vals t).
Definition hv_with_buckets_buf t v := HashtableVect (hv_entry_buf t) v (hv_vect t) (hv_mask t) (hv_size t) (hv_val_size t) (hv_buckets t) (hv_entries t) (hv_vals t).
Definition hv_with_mask t m := HashtableVect (hv_entry_buf t) (hv_buckets_buf t) (hv_vect t) m (hv_size t) (hv_val_size t) (hv_buckets t) (hv_entries t) (hv_vals t).
Definition hv_with_size t n := HashtableVect (hv_entry_buf t) (hv_buckets_buf t) (hv_vect t) (hv_mask t) n (hv_val_size t) (hv_buckets t) (hv_entries t) (hv_vals t).
Definition hv_with_entries t v m := HashtableVect v (hv_buckets_buf t) (hv_vect t) (hv_mask t) (hv_size t) (hv_val_size t) (hv_buckets t) m (hv_vals t).
Definition hv_with_vals t v m := HashtableVect (hv_entry_buf t) (hv_buckets_buf t) v (hv_mask t) (hv_size t) (hv_val_size t) (hv_buckets t) (hv_entries t) m.

#[export] Instance hashtable_vect_bucket : Buckets hashtable_vect := {
  bucket t b := default free_entry (hv_buckets t !! Z.to_nat b);
  set_bucket t b e := hv_with_buckets t (<[Z.to_nat b := e]> (hv_buckets t));
}.

Definition HASHTABLE_VECT_INITIALIZER : hashtable_vect :=
  HashtableVect VMALLOCATOR_INITIALIZER VMALLOCATOR_INITIALIZER VMALLOCATOR_INITIALIZER 0 0 0 [] ∅ ∅.

Section Ops.
Variable o : os.

(** The results of the four allocator calls are not checked. *)
Definition _hashtable_vect_init (t : hashtable_vect) (initial_size val_size : Z) : hashtable_vect * Z :=
  let initial_size := if initial_size =? 0 then 64 else initial_size in
  let initial_size := u32 (Z.shiftl (next_p2 initial_size) 1) in
  let (bb, _) := vmallocator_alloc o (hv_buckets_buf t) (HV_HEADER_SIZE + initial_size * HV_BUCKET_SIZE) in
  let (eb, _) := vmallocator_check_resize o (hv_entry_buf t) (initial_size * HV_ENTRY_SIZE) in
  let (eb, _) := vmallocator_alloc o eb HV_ENTRY_SIZE in (* first offset is reserved *)
  let (vb, _) := vmallocator_check_resize o (hv_vect t) (u64 (val_size * initial_size)) in
  (HashtableVect eb bb vb (u32 (initial_size - 1)) 0 val_size
     (replicate (Z.to_nat initial_size) free_entry) (hv_entries t) (hv_vals t), 0).

Definition hashtable_vect_init (t : hashtable_vect) (initial_size val_size : Z) : hashtable_vect * Z :=
  let (eb, r1) := vmallocator_init o (hv_entry_buf t) in
  if r1 <? 0 then (hv_with_entries t eb (hv_entries t), -1) else
  let t := hv_with_entries t eb (hv_entries t) in
  let (bb, r2) := vmallocator_init o (hv_buckets_buf t) in
  if r2 <? 0 then (hv_with_buckets_buf t bb, -1) else
  let t := hv_with_buckets_buf t bb in
  let (vb, r3) := vmallocator_init o (hv_vect t) in
  if r3 <? 0 then (hv_with_vals t vb (hv_vals t), -1) else
  _hashtable_vect_init (hv_with_vals t vb (hv_vals t)) initial_size val_size.

(** One iteration of [hashtable_vect_move_buckets_range]: unlike in the other tables the
    bucket is freed only after the new place has been found. *)
Definition hv_move_bucket (t : hashtable_vect) (new_mask begin : Z) : option hashtable_vect :=
  let ie := bucket t begin in
  let new_bkt_idx := Z.land (e_hashcode ie) new_mask in
  (* if already in the right place skip it *)
  if begin =? new_bkt_idx then Some t else
  match probe is_free (round new_mask) t new_mask new_bkt_idx with
  | None => None
  | Some j =>
      let t := set_bucket t j ie in
      (* free the bucket so it can be reused *)
      Some (set_bucket t begin (HtEntry (e_hashcode (bucket t begin)) 0))
  end.

Fixpoint hv_move_range (n : nat) (t : hashtable_vect) (new_mask begin : Z) : option hashtable_vect :=
  match n with
  | O => Some t
  | S n' =>
      match hv_move_bucket t new_mask begin with
      | None => None
      | Some t => hv_move_range n' t new_mask (begin + 1)
      end
  end.

Definition hashtable_vect_move_buckets_range (t : hashtable_vect) (new_mask begin end_ : Z) : option hashtable_vect :=
  hv_move_range (Z.to_nat (end_ - begin)) t new_mask begin.

Definition hashtable_vect_grow (t : hashtable_vect) : option (hashtable_vect * Z) :=
  let capacity := u32 (hv_mask t + 1) in
  let (bb, ofs) := vmallocator_alloc o (hv_buckets_buf t) (capacity * HV_BUCKET_SIZE) in
  if ofs =? u64 (-1) then Some (hv_with_buckets_buf t bb, -1)
  else
    let t := hv_with_buckets_buf t bb in
    let t := hv_with_buckets t (hv_buckets t ++ replicate (Z.to_nat capacity) free_entry) in
    let new_mask := u32 (u32 (Z.shiftl capacity 1) - 1) in
    match first_free (Z.to_nat capacity) t 0 with
    | None => None
    | Some b =>
        match hashtable_vect_move_buckets_range t new_mask b capacity with
        | None => None
        | Some t =>
            match hashtable_vect_move_buckets_range t new_mask 0 b with
            | None => None
            | Some t => Some (hv_with_mask t new_mask, 0)
            end
        end
    end.

Definition hashtable_vect_check_resize (t : hashtable_vect) : option (hashtable_vect * Z) :=
  if hv_size t >? Z.shiftr (hv_mask t) 1 then hashtable_vect_grow t else Some (t, 0).

(** [_hashtable_vect_insert]; [alloc_func] allocates (and writes) the value and returns its
    result code. *)
Definition _hashtable_vect_insert (t : hashtable_vect) (key : list Z)
    (alloc_func : hashtable_vect -> hashtable_vect * Z) : option (hashtable_vect * option Z) :=
  let key_len := Z.of_nat (length key) in
  match hashtable_vect_check_resize t with
  | None => None
  | Some (t, res) =>
      if res <? 0 then Some (t, None)
      else
        let (eb, entry_ofs) := vmallocator_alloc o (hv_entry_buf t) (HV_ENTRY_SIZE + key_len) in
        if entry_ofs =? u64 (-1) then None (* writes through the failed allocation *)
        else
          let ofs := u32 (vmallocator_wlocpos (hv_vect t)) in
          let e := HvEntry ofs (u32 key_len) key in
          let t := hv_with_entries t eb (<[entry_ofs := e]> (hv_entries t)) in
          let hc := hashcode key in
          match probe is_free (round (hv_mask t)) t (hv_mask t) (Z.land hc (hv_mask t)) with
          | None => None
          | Some b =>
              let t := set_bucket t b (HtEntry hc (u32 entry_ofs)) in
              let t := hv_with_size t (u32 (hv_size t + 1)) in
              let (t, res) := alloc_func t in
              if res <? 0 then Some (t, None) else Some (t, Some ofs)
          end
  end.

(** The value is [val_size] bytes; a failed allocation of it is written through. *)
Definition hashtable_vect_insert (t : hashtable_vect) (key val : list Z) : option (hashtable_vect * option Z) :=
  _hashtable_vect_insert t key (fun t =>
    let (vb, ofs) := vmallocator_alloc o (hv_vect t) (hv_val_size t) in
    (hv_with_vals t vb (<[ofs := take (Z.to_nat (hv_val_size t)) val]> (hv_vals t)), 0)).

(** [int alloc_func() { return vmallocator_alloc(..); }]: the offset converted to [int]. *)
Definition hashtable_vect_insert_alloc (t : hashtable_vect) (key : list Z) : option (hashtable_vect * option Z) :=
  _hashtable_vect_insert t key (fun t =>
    let (vb, ofs) := vmallocator_alloc o (hv_vect t) (hv_val_size t) in
    (hv_with_vals t vb (hv_vals t), if u32 ofs <? 2 ^ 31 then u32 ofs else u32 ofs - 2 ^ 32)).

Definition hv_key_matches (t : hashtable_vect) (hc : Z) (key : list Z) (e : ht_entry) : bool :=
  (e_hashcode e =? hc) &&
  match hv_entries t !! e_rec e with
  | None => false
  | Some r => (hv_key_len r =? Z.of_nat (length key)) && bool_decide (hv_key_data r = key)
  end.

Definition hashtable_vect_lookup (t : hashtable_vect) (key : list Z) : option (option Z) :=
  let hc := hashcode key in
  let mask := hv_mask t in
  match probe (fun e => is_free e || hv_key_matches t hc key e) (round mask) t mask (Z.land hc mask) with
  | None => None
  | Some b =>
      let e := bucket t b in
      if is_free e then Some None
      else
        match hv_entries t !! e_rec e with
        | None => None
        | Some r => Some (Some (ofs_val r))
        end
  end.

Definition hashtable_vect_size (t : hashtable_vect) : Z := hv_size t.
Definition hashtable_vect_end (t : hashtable_vect) : Z := vmallocator_wlocpos (hv_vect t).

Definition hashtable_vect_free (t : hashtable_vect) : hashtable_vect :=
  HashtableVect (vmallocator_free (hv_entry_buf t)) (vmallocator_free (hv_buckets_buf t)) (vmallocator_free (hv_vect t))
    (hv_mask t) (hv_size t) (hv_val_size t) (hv_buckets t) (hv_entries t) (hv_vals t).

Definition hashtable_vect_close (t : hashtable_vect) : hashtable_vect * Z :=
  let (eb, r1) := vmallocator_close o (hv_entry_buf t) in
  let (bb, r2) := vmallocator_close o (hv_buckets_buf t) in
  let (vb, r3) := vmallocator_close o (hv_vect t) in
  (HashtableVect eb bb vb (hv_mask t) (hv_size t) (hv_val_size t) (hv_buckets t) (hv_entries t) (hv_vals t),
   Z.lor (Z.lor r1 r2) r3).

(** [HASHTABLE_VECT_OPEN_VMALLOC] *)
Definition HASHTABLE_VECT_OPEN_VMALLOC (v : vmallocator) (dirname filename : list Z) (flags : Z) : vmallocator * Z :=
  let path := dirname ++ 47 :: filename in
  if 4096 (* PATH_MAX *) <=? Z.of_nat (length path) then (v, -1) else vmallocator_open o v path flags.

(** The files of [t] are opened again: its header, buckets, entries and values are what they hold
    (for new files the header is zero and the rest empty).  [made] is the result of
    [mkdir_recursive].  The header of an unmapped file is not there. *)
Definition hashtable_vect_open (made : Z) (t : hashtable_vect) (initial_size val_size : Z) (dirname : list Z) (flags : Z) : option (hashtable_vect * Z) :=
  if made <? 0 then Some (t, -1) else
  let (bb, r1) := HASHTABLE_VECT_OPEN_VMALLOC (hv_buckets_buf t) dirname [98; 117; 99; 107; 101; 116; 115] flags in   (* "buckets" *)
  let t := hv_with_buckets_buf t bb in
  if r1 <? 0 then Some (t, -1) else
  let (eb, r2) := HASHTABLE_VECT_OPEN_VMALLOC (hv_entry_buf t) dirname [101; 110; 116; 114; 105; 101; 115] flags in   (* "entries" *)
  let t := hv_with_entries t eb (hv_entries t) in
  if r2 <? 0 then Some (t, -1) else
  let (vb, r3) := HASHTABLE_VECT_OPEN_VMALLOC (hv_vect t) dirname [118; 101; 99; 116] flags in   (* "vect" *)
  let t := hv_with_vals t vb (hv_vals t) in
  if r3 <? 0 then Some (t, -1) else
  if negb (v_mapped (hv_buckets_buf t)) then None else
  (* the positions at which the next insertion writes *)
  let t := hv_with_entries t (vmallocator_wlocset (hv_entry_buf t) (u64 (hv_size t * HV_ENTRY_SIZE))) (hv_entries t) in
  let t := hv_with_vals t (vmallocator_wlocset (hv_vect t) (u64 (hv_size t * hv_val_size t))) (hv_vals t) in
  if hv_mask t =? 0 then Some (_hashtable_vect_init t initial_size val_size) else Some (t, 0).

(** Inserting a list of keys with their values. *)
Fixpoint hv_insert_all (t : hashtable_vect) (l : list (list Z * list Z)) : option hashtable_vect :=
  match l with
  | [] => Some t
  | (k, v) :: l =>
      match hashtable_vect_insert t k v with
      | Some (t, Some _) => hv_insert_all t l
      | _ => None
      end
  end.

End Ops.

(** * What [hashtable_vect] finds again

    A table that never has to grow finds every key it was given; growing can lose a key. *)

#[export] Instance hashtable_vect_bucket_laws : BucketLaws hashtable_vect.
Proof.
  refine {| addressable t n := n <= Z.of_nat (length (hv_buckets t)) |}.
  - intros t n i e Ha Hi. unfold bucket, set_bucket. cbn. by rewrite list_lookup_insert_eq by lia.
  - intros t n i j e Ha Hi Hj Hne. unfold bucket, set_bucket. cbn. by rewrite list_lookup_insert_ne by lia.
  - intros t n i e Ha. cbn. by rewrite length_insert.
Defined.

Definition hv_cap (t : hashtable_vect) : Z := hv_mask t + 1.

(** Key and value of an entry. *)
Definition hv_kv (t : hashtable_vect) (rec : Z) : option (list Z * list Z) :=
  match hv_entries t !! rec with
  | None => None
  | Some e => match hv_vals t !! ofs_val e with Some v => Some (hv_key_data e, v) | None => None end
  end.

Record hv_rep (t : hashtable_vect) (m : kvmap) : Prop := {
  hv_rep_cap : is_cap (hv_cap t);
  hv_rep_even : hv_cap t mod 2 = 0;
  hv_rep_len : Z.of_nat (length (hv_buckets t)) = hv_cap t;
  hv_rep_keyed : keyed t (hv_cap t) (hv_kv t) m;
  hv_rep_size : hv_size t = Z.of_nat (length (entries t (hv_cap t)));
  hv_rep_load : 2 * hv_size t <= hv_cap t;
  hv_rep_vm1 : vm_wf (hv_entry_buf t);
  hv_rep_vm2 : vm_wf (hv_vect t);
  hv_rep_entries : forall rec e, hv_entries t !! rec = Some e ->
    0 < rec < wlocpos (hv_entry_buf t) /\ 0 <= ofs_val e < wlocpos (hv_vect t)
    /\ hv_key_len e = Z.of_nat (length (hv_key_data e)) /\ is_Some (hv_vals t !! ofs_val e);
  hv_rep_first : 0 < wlocpos (hv_entry_buf t);
  hv_rep_val : 0 < hv_val_size t;
}.

Lemma hv_free_bucket t m : hv_rep t m -> exists z, 0 <= z < hv_cap t /\ ~ occ t z.
Proof.
  intros Hrep. pose proof (is_cap_pos _ (hv_rep_cap _ _ Hrep)) as Hc. apply free_bucket_exists; [lia|].
  rewrite <- (hv_rep_size _ _ Hrep). pose proof (hv_rep_load _ _ Hrep). lia.
Qed.

Lemma hv_matches t m key e :
  hv_rep t m -> hv_key_matches t (hashcode key) key e = matches (hv_kv t) key e.
Proof.
  intros Hrep. unfold hv_key_matches, matches, hv_kv. rewrite Z.eqb_sym. f_equal.
  destruct (hv_entries t !! e_rec e) as [r|] eqn:E; [|done].
  destruct (hv_rep_entries _ _ Hrep _ _ E) as (_ & _ & Hk & [v ->]).
  destruct (bool_decide_reflect (hv_key_data r = key)) as [<-|Hne]; [|by rewrite andb_false_r].
  by rewrite Hk, Z.eqb_refl.
Qed.

Lemma hv_lookup_rep t m key :
  hv_rep t m ->
  exists r, hashtable_vect_lookup t key = Some r
    /\ match m !! key with
       | Some v => exists ofs, r = Some ofs /\ hv_vals t !! ofs = Some v
       | None => r = None
       end.
Proof.
  intros Hrep. unfold hashtable_vect_lookup. cbv zeta.
  replace (hv_mask t) with (hv_cap t - 1) by (unfold hv_cap; lia).
  destruct (keyed_find t (hv_cap t) (hv_kv t) m key
    (fun e => is_free e || hv_key_matches t (hashcode key) key e)) as (b & -> & Hb & Hcase).
  { apply Hrep. } { apply Hrep. } { by eapply hv_free_bucket. }
  { intros b Hb. f_equal. by eapply hv_matches. }
  destruct Hcase as [(Ho & v & Hkv & ->)|(-> & _ & Hf & _)].
  - rewrite (proj2 (is_free_false _) Ho). unfold hv_kv in Hkv.
    destruct (hv_entries t !! e_rec (bucket t b)) as [e|]; [|done].
    destruct (hv_vals t !! ofs_val e) as [w|] eqn:Ev; [|done]. injection Hkv as _ ->. eauto.
  - assert (is_free (bucket t b) = true) as ->; [|eauto].
    apply is_free_true. destruct (decide (e_rec (bucket t b) = 0)); [done|by destruct Hf].
Qed.

(** The system can hold what a table of this size needs. *)
Definition hv_roomy (o : os) : Prop := can_grow_to o (2 ^ 33) /\ can_truncate_to o (2 ^ 33).

(** The table after an insertion into the free bucket [b]. *)
Section Filled.
Variables (t : hashtable_vect) (m : kvmap) (b : Z) (key val : list Z) (eb vb : vmallocator).
Notation rec := (wlocpos (hv_entry_buf t)).
Notation vo := (wlocpos (hv_vect t)).

Definition hv_filled : hashtable_vect :=
  HashtableVect eb (hv_buckets_buf t) vb (hv_mask t) (hv_size t + 1) (hv_val_size t)
    (<[Z.to_nat b := HtEntry (hashcode key) rec]> (hv_buckets t))
    (<[rec := HvEntry vo (Z.of_nat (length key)) key]> (hv_entries t)) (<[vo := val]> (hv_vals t)).

Hypothesis Hrep : hv_rep t m.
Hypothesis Hnew : m !! key = None.
Hypothesis Hload : 2 * hv_size t < hv_cap t.
Hypothesis Heb : vm_wf eb.
Hypothesis Hweb : rec + 8 <= wlocpos eb.
Hypothesis Hvb : vm_wf vb.
Hypothesis Hwvb : vo < wlocpos vb.
Hypothesis Hhole : first_hole t (hv_cap t) (Z.land (hashcode key) (hv_cap t - 1)) b.

Lemma hv_filled_kv_old e : e ∈ entries t (hv_cap t) -> e_rec e <> rec /\ hv_kv hv_filled (e_rec e) = hv_kv t (e_rec e).
Proof.
  intros He. destruct (keyed_live _ _ _ _ (hv_rep_keyed _ _ Hrep) e He) as (k & v & Ek & _).
  unfold hv_kv in *. destruct (hv_entries t !! e_rec e) as [r|] eqn:Er; [|done].
  destruct (hv_rep_entries _ _ Hrep _ _ Er) as (H1 & H2 & _). split; [lia|].
  cbn. rewrite lookup_insert_ne, Er by lia. by rewrite lookup_insert_ne by lia.
Qed.

Lemma hv_filled_rep : hv_rep hv_filled (<[key := val]> m).
Proof.
  pose proof (is_cap_pos _ (hv_rep_cap _ _ Hrep)) as Hc. pose proof (hv_rep_even _ _ Hrep) as Heven.
  pose proof (hv_rep_first _ _ Hrep) as Hfirst. pose proof (vm_wloc _ (hv_rep_vm2 _ _ Hrep)) as Hwv.
  assert (Hkv : hv_kv hv_filled rec = Some (key, val)).
  { unfold hv_kv. cbn. rewrite lookup_insert_eq. cbn. by rewrite lookup_insert_eq. }
  destruct (keyed_fill t (hv_cap t) (hv_kv t) (hv_kv hv_filled) m key val b rec) as [Hk He]; auto; try lia;
    [apply Hrep|unfold addressable; cbn; rewrite (hv_rep_len _ _ Hrep); lia|apply Hrep| | |].
  { intros e Hin. by apply hv_filled_kv_old. } { intros e Hin. by apply hv_filled_kv_old. }
  assert (Hcap : hv_cap hv_filled = hv_cap t) by done.
  assert (Hent : entries hv_filled (hv_cap t) = entries (set_bucket t b (HtEntry (hashcode key) rec)) (hv_cap t)) by done.
  split; rewrite ?Hcap; try apply Hrep; auto.
  - cbn. rewrite length_insert. apply Hrep.
  - eapply keyed_perm; [exact Hk|exact (keyed_reach _ _ _ _ Hk)|done].
  - rewrite Hent, He. cbn [hv_size hv_filled length]. rewrite (hv_rep_size _ _ Hrep). lia.
  - cbn [hv_size hv_filled]. pose proof (Z.div_mod (hv_cap t) 2 ltac:(lia)). lia.
  - cbn. intros r e [[<- <-]|[Hne Hr]]%lookup_insert_Some; cbn.
    + rewrite lookup_insert_eq. repeat split; eauto; lia.
    + destruct (hv_rep_entries _ _ Hrep _ _ Hr) as (H1 & H2 & H3 & H4).
      rewrite lookup_insert_ne by lia. repeat split; eauto; lia.
  - cbn. lia.
Qed.

End Filled.

(** A table that is less than half full does not grow. *)
Lemma hv_no_resize o t m : hv_rep t m -> 2 * hv_size t < hv_cap t -> hashtable_vect_check_resize o t = Some (t, 0).
Proof.
  intros Hrep Hload. pose proof (hv_rep_even _ _ Hrep) as Heven. unfold hashtable_vect_check_resize.
  assert ((hv_size t >? Z.shiftr (hv_mask t) 1) = false) as ->; [|done].
  rewrite Z.shiftr_div_pow2 by lia. replace (hv_mask t) with (hv_cap t - 1) by (unfold hv_cap; lia).
  rewrite Z.gtb_ltb. apply Z.ltb_ge. apply Z.div_le_lower_bound; [lia|].
  pose proof (Z.div_mod (hv_cap t) 2 ltac:(lia)). lia.
Qed.

Lemma hv_insert_rep o t m key val :
  hv_roomy o -> hv_rep t m -> m !! key = None -> 2 * hv_size t < hv_cap t ->
  Z.of_nat (length val) = hv_val_size t ->
  wlocpos (hv_entry_buf t) + 8 + Z.of_nat (length key) < 2 ^ 32 -> wlocpos (hv_vect t) + hv_val_size t < 2 ^ 32 ->
  exists t' ofs, hashtable_vect_insert o t key val = Some (t', Some ofs)
    /\ hv_rep t' (<[key := val]> m) /\ hv_size t' = hv_size t + 1 /\ hv_cap t' = hv_cap t
    /\ hv_val_size t' = hv_val_size t
    /\ wlocpos (hv_entry_buf t') = wlocpos (hv_entry_buf t) + 8 + Z.of_nat (length key)
    /\ wlocpos (hv_vect t') = wlocpos (hv_vect t) + hv_val_size t.
Proof.
  intros [Hg Ht] Hrep Hnew Hload Hval Hroom1 Hroom2. pose proof (is_cap_pos _ (hv_rep_cap _ _ Hrep)) as Hc.
  pose proof (hv_rep_first _ _ Hrep) as Hfirst. pose proof (hv_rep_val _ _ Hrep) as Hvs.
  pose proof (vm_wloc _ (hv_rep_vm2 _ _ Hrep)) as Hwv.
  unfold hashtable_vect_insert, _hashtable_vect_insert, HV_ENTRY_SIZE.
  rewrite (hv_no_resize o t m) by done. cbn [Z.ltb Z.compare].
  destruct (alloc_ok o (hv_entry_buf t) (8 + Z.of_nat (length key)) (2 ^ 32)) as (eb & -> & Heb & Hweb & _);
    auto; try lia; [apply Hrep|].
  destruct (Z.eqb_spec (wlocpos (hv_entry_buf t)) (u64 (-1))) as [E|_]; [change (u64 (-1)) with (2 ^ 64 - 1) in E; lia|].
  unfold vmallocator_wlocpos.
  rewrite (u32_small (wlocpos (hv_vect t))), (u32_small (Z.of_nat (length key))) by lia. cbv zeta.
  set (t1 := hv_with_entries t eb _). change (hv_mask t1) with (hv_mask t).
  replace (hv_mask t) with (hv_cap t - 1) by (unfold hv_cap; lia).
  assert (Hhb : 0 <= Z.land (hashcode key) (hv_cap t - 1) < hv_cap t)
    by (apply (home_range _ (HtEntry (hashcode key) 0)); apply Hrep).
  destruct (hv_free_bucket _ _ Hrep) as (z & Hz & Hfz).
  destruct (probe_spec t1 (hv_cap t) is_free z (Z.land (hashcode key) (hv_cap t - 1)))
    as (b & -> & Hbr & _ & Hsb & Hbefore); auto; try lia.
  { apply is_free_true. destruct (decide (e_rec (bucket t z) = 0)); [done|by destruct Hfz]. }
  change (hv_vect (hv_with_size _ _)) with (hv_vect t). change (hv_val_size (hv_with_size _ _)) with (hv_val_size t).
  destruct (alloc_ok o (hv_vect t) (hv_val_size t) (2 ^ 32)) as (vb & -> & Hvb & Hwvb & _); auto; try lia; [apply Hrep|].
  cbn [Z.ltb Z.compare]. eexists _, _. split; [done|].
  change (hv_size (set_bucket t1 b _)) with (hv_size t).
  rewrite (u32_small (wlocpos (hv_entry_buf t))), take_ge, (u32_small (hv_size t + 1))
    by (pose proof (hv_rep_size _ _ Hrep); lia).
  change (hv_with_vals _ _ _) with (hv_filled t b key val eb vb).
  split; [|cbn; repeat split; lia]. apply hv_filled_rep; auto; try lia.
  split; [done|]. apply is_free_true in Hsb. split; [intros Ho; by apply Ho|].
  intros p Hp Hd. specialize (Hbefore p Hp Hd). by apply is_free_false in Hbefore.
Qed.

(** ** Initialisation *)

Lemma hv_init_vm o : sys_mmap o VM_ALLOC_MIN_SIZE = true ->
  exists v, vmallocator_init o VMALLOCATOR_INITIALIZER = (v, 0) /\ vm_wf v /\ wlocpos v = 0.
Proof.
  intros Hm. destruct (vmallocator_init o VMALLOCATOR_INITIALIZER) as [v r] eqn:E.
  assert (r = 0) as -> by (unfold vmallocator_init in E; cbn in E; rewrite Hm in E; by injection E).
  exists v. split; [done|]. by apply (init_wf o VMALLOCATOR_INITIALIZER v).
Qed.

Lemma hv_init_rep o n vs :
  hv_roomy o -> sys_mmap o VM_ALLOC_MIN_SIZE = true -> 2 <= n <= 2 ^ 20 -> 0 < vs <= 512 ->
  exists t, hashtable_vect_init o HASHTABLE_VECT_INITIALIZER n vs = (t, 0) /\ hv_rep t ∅
    /\ 2 * n <= hv_cap t /\ hv_size t = 0 /\ hv_val_size t = vs
    /\ wlocpos (hv_entry_buf t) = 8 /\ wlocpos (hv_vect t) = 0.
Proof.
  intros [Hg Ht] Hm Hn Hvs. destruct (hv_init_vm o Hm) as (v & Hv & Hwf & Hw).
  unfold hashtable_vect_init. cbn [hv_entry_buf hv_buckets_buf hv_vect HASHTABLE_VECT_INITIALIZER hv_with_entries hv_with_buckets_buf].
  rewrite Hv. cbn [Z.ltb Z.compare]. unfold _hashtable_vect_init. cbv zeta.
  destruct (Z.eqb_spec n 0) as [?|_]; [lia|].
  pose proof (log2_pred_bounds n ltac:(lia)) as [Hlo Hhi]. rewrite next_p2_eq by lia.
  pose proof (Z.log2_nonneg (n - 1)) as Hl. set (j := Z.log2 (n - 1) + 1) in *.
  rewrite Z.shiftl_mul_pow2, (u32_small (2 ^ j * 2 ^ 1)) by lia. set (cap := 2 ^ j * 2 ^ 1).
  assert (Hcap : 2 * n <= cap <= 2 ^ 22) by (unfold cap; lia).
  cbn [hv_with_vals hv_with_entries hv_with_buckets_buf hv_entry_buf hv_buckets_buf hv_vect hv_entries hv_vals HASHTABLE_VECT_INITIALIZER].
  unfold HV_HEADER_SIZE, HV_BUCKET_SIZE, HV_ENTRY_SIZE.
  destruct (alloc_ok o v (16 + cap * 8) (2 ^ 32)) as (bb & -> & _); auto; try lia.
  destruct (check_resize_ok o v (cap * 8) (2 ^ 32)) as (eb0 & -> & Heb0 & Hweb0 & _); auto; try lia.
  destruct (alloc_ok o eb0 8 (2 ^ 32)) as (eb & -> & Heb & Hweb & _); auto; try lia.
  assert (0 <= vs * cap <= 512 * 2 ^ 22) by (split; [lia|apply Z.mul_le_mono_nonneg; lia]).
  rewrite (u64_small (vs * cap)) by lia.
  destruct (check_resize_ok o v (vs * cap) (2 ^ 32)) as (vb & -> & Hvb & Hwvb & _); auto; try lia.
  rewrite u32_small by lia. eexists. split; [done|]. set (t := HashtableVect _ _ _ _ _ _ _ _ _).
  assert (Hc : hv_cap t = cap) by (unfold hv_cap; cbn; lia).
  assert (Hfree : forall i, 0 <= i < cap -> ~ occ t i).
  { intros i Hi. unfold occ, bucket. cbn. rewrite lookup_replicate_2 by lia. cbn. tauto. }
  assert (Hents : entries t cap = []).
  { destruct (entries t cap) as [|e l] eqn:E; [done|]. exfalso.
    assert (e ∈ entries t cap) as He by (rewrite E; by left).
    apply elem_of_entries in He as (i & Hi & Ho & _). by apply (Hfree i). }
  split; [|cbn; repeat split; auto; lia].
  split; rewrite ?Hc, ?Hents; cbn; auto; try lia.
  - exists (j + 1). unfold cap. rewrite Z.pow_add_r by lia. lia.
  - unfold cap. change (2 ^ 1) with 2. apply Z.mod_mul. lia.
  - rewrite length_replicate. lia.
  - split; rewrite ?Hents; try (intros; by set_solver); [|constructor].
    intros i k Hi _ Ho _. by destruct (Hfree i Hi).
  - intros rec e Hr. by rewrite lookup_empty in Hr.
Qed.

Lemma hv_insert_all_rep o vs l : forall t m,
  hv_roomy o -> hv_rep t m -> hv_val_size t = vs -> NoDup l.*1 -> (forall k, k ∈ l.*1 -> m !! k = None) ->
  Forall (fun kv => Z.of_nat (length kv.1) <= 1024 /\ Z.of_nat (length kv.2) = vs) l ->
  2 * (hv_size t + Z.of_nat (length l)) <= hv_cap t -> 0 < vs <= 512 ->
  wlocpos (hv_entry_buf t) + 1032 * Z.of_nat (length l) < 2 ^ 31 ->
  wlocpos (hv_vect t) + 512 * Z.of_nat (length l) < 2 ^ 31 ->
  exists t', hv_insert_all o t l = Some t' /\ hv_rep t' (foldr (fun kv m => <[kv.1 := kv.2]> m) m (reverse l)).
Proof.
  induction l as [|[k v] l IH]; intros t m Ho Hrep Hvs Hnd Hnew Hlen Hload Hv Hw1 Hw2.
  { by exists t. }
  cbn [hv_insert_all fmap list_fmap length fst snd] in *. apply NoDup_cons in Hnd as [Hk Hnd].
  apply Forall_cons in Hlen as [[Hlk Hlv] Hlen]. cbn in Hlk, Hlv.
  destruct (hv_insert_rep o t m k v) as (t1 & ofs & -> & Hrep1 & Hs1 & Hc1 & Hv1 & Hw1' & Hw2'); auto; try lia.
  { apply Hnew. by left. }
  destruct (IH t1 (<[k := v]> m)) as (t' & -> & Hrep'); auto; try lia.
  { intros k' Hk'. rewrite lookup_insert_ne by (intros ->; done). apply Hnew. by right. }
  exists t'. split; [done|]. rewrite reverse_cons, foldr_app. exact Hrep'.
Qed.

Lemma foldr_insert_lookup (l : list (list Z * list Z)) k v :
  NoDup l.*1 -> (k, v) ∈ l -> foldr (fun kv m => <[kv.1 := kv.2]> m) (∅ : kvmap) l !! k = Some v.
Proof.
  induction l as [|[k' v'] l IH]; cbn; intros Hnd Hin; [set_solver|].
  apply NoDup_cons in Hnd as [Hk Hnd]. apply elem_of_cons in Hin as [[= <- <-]|Hin].
  - by rewrite lookup_insert_eq.
  - rewrite lookup_insert_ne; [by apply IH|]. intros ->. apply Hk, list_elem_of_fmap. by exists (k, v).
Qed.


Definition hv_demo : list (list Z * list Z) := [([8], [1]); ([16], [2]); ([3], [3])].


(** Growing is another matter.  For example, of three keys inserted into a table initialised for
    two elements the second one is not found again, because the bucket that is being moved still
    counts as occupied while its new place is searched. *)
Example hashtable_vect_grow_loses_key :
  exists t, hv_insert_all os_all_ok (fst (hashtable_vect_init os_all_ok HASHTABLE_VECT_INITIALIZER 2 1)) hv_demo = Some t
    /\ hashtable_vect_size t = 3 /\ hashtable_vect_lookup t [16] = Some None.
Proof. eexists. split; [vm_compute; reflexivity|]. split; vm_compute; reflexivity. Qed.

(** A system with the files of a table that holds one key of one byte. *)
Definition one_key_os : os := {|
  sys_mmap := fun _ => true;
  sys_mremap := fun _ _ => true;
  sys_munmap := fun _ => true;
  sys_ftruncate := fun _ _ => true;
  sys_open := fun name _ => nth 2 name 0;   (* the first letter behind a directory with a name of one byte *)
  sys_fstat := fun fd => Some (if fd =? 98 then 48 else if fd =? 101 then 17 else 1);
  sys_close := fun _ => true;
  sys_temp_file := -1;
|}.

(** After closing and opening, the next insertion overwrites an entry: [hashtable_vect_open] puts
    the write position of the entries at their number times the size of an entry without a key,
    and does not count the reserved first entry.  The only key of the table is not found again
    after another key was inserted. *)
Theorem hashtable_vect_open_loses_key :
  (t ← hv_insert_all one_key_os (fst (hashtable_vect_init one_key_os HASHTABLE_VECT_INITIALIZER 2 1)) [([8], [1])];
   '(t, opened) ← hashtable_vect_open one_key_os 0 (fst (hashtable_vect_close one_key_os t)) 2 1 [100] O_RDWR;
   before ← hashtable_vect_lookup t [8];
   '(t, inserted) ← hashtable_vect_insert one_key_os t [9] [2];
   after ← hashtable_vect_lookup t [8];
   Some (opened, before, inserted, after)) = Some (0, Some 0, Some 1, None).
Proof. vm_compute. reflexivity. Qed.
