(* ===== verification/Bitvect.v ===== *)
(** * Bitvect: vectors of bits ([include/bitvect.h])

    The data is a list of 64-bit blocks; an access outside of it is [None]. *)

From stdpp Require Import base numbers list sets.
From Stdlib Require Import ZArith Lia.
From S2P Require Import Prelude.

Definition BITVECT_NUM_BITS_ALIGN : Z := 6.
Definition BITVECT_NUM_BITS : Z := 64.
Definition BITVECT_MASK : Z := 63.
Definition BITVECT_ROUND_UP_TO_NEAREST_BLOCK_SIZE (x : Z) : Z :=
  Z.land (u64 (x + BITVECT_MASK)) (u64 (Z.lnot BITVECT_MASK)).
Definition BITVECT_NUM_BITS_TO_NUM_BYTES (x : Z) : Z := Z.shiftr (BITVECT_ROUND_UP_TO_NEAREST_BLOCK_SIZE x) 3.
Definition BITVECT_NUM_BITS_TO_NUM_BLOCKS (x : Z) : Z :=
  Z.shiftr (BITVECT_ROUND_UP_TO_NEAREST_BLOCK_SIZE x) BITVECT_NUM_BITS_ALIGN.

(** [struct bitvect]: the allocated blocks and the field [size]. *)
Record bitvect := Bitvect { bv_data : list Z; bv_size : Z }.

Definition block_of (i : Z) : Z := Z.shiftr i BITVECT_NUM_BITS_ALIGN.
Definition bit_of (i : Z) : Z := Z.land i (BITVECT_NUM_BITS - 1).

Definition bitvect_init (size : Z) : bitvect :=
  Bitvect (replicate (Z.to_nat (Z.shiftr (BITVECT_NUM_BITS_TO_NUM_BYTES size) 3)) 0)
          (BITVECT_NUM_BITS_TO_NUM_BLOCKS size).

(** [bitvect_init_mem]: the caller's memory [mem]. *)
Definition bitvect_init_mem (size : Z) (mem : list Z) : bitvect :=
  Bitvect mem (BITVECT_NUM_BITS_TO_NUM_BLOCKS size).

Definition bitvect_calc_mem_size (size : Z) : Z := BITVECT_NUM_BITS_TO_NUM_BYTES size.

(** [data[k] = f(data[k])] *)
Definition update_block (bv : bitvect) (k : Z) (f : Z -> Z) : option bitvect :=
  match bv_data bv !! Z.to_nat k with
  | None => None
  | Some v => Some (Bitvect (<[Z.to_nat k := f v]> (bv_data bv)) (bv_size bv))
  end.

Definition bitvect_set (bv : bitvect) (i : Z) : option bitvect :=
  update_block bv (block_of i) (fun v => Z.lor v (Z.shiftl 1 (bit_of i))).

Definition bitvect_reset (bv : bitvect) (i : Z) : option bitvect :=
  update_block bv (block_of i) (fun v => Z.land v (u64 (Z.lnot (Z.shiftl 1 (bit_of i))))).

Definition bitvect_isset (bv : bitvect) (i : Z) : option bool :=
  match bv_data bv !! Z.to_nat (block_of i) with
  | None => None
  | Some v => Some (negb (Z.land v (Z.shiftl 1 (bit_of i)) =? 0))
  end.

Definition bitvect_isset_safe (bv : bitvect) (i : Z) : option bool :=
  if i <? Z.shiftl (bv_size bv) BITVECT_NUM_BITS_ALIGN then bitvect_isset bv i else Some false.

Definition bitvect_set_resize (bv : bitvect) (i : Z) : option bitvect :=
  let new_size_bytes := BITVECT_NUM_BITS_TO_NUM_BYTES i in
  let old_size_bytes := Z.shiftl (bv_size bv) (BITVECT_NUM_BITS_ALIGN - 3) in
  let bv :=
    if old_size_bytes <? new_size_bytes then
      Bitvect (take (Z.to_nat (bv_size bv)) (bv_data bv)
               ++ replicate (Z.to_nat (Z.shiftr (new_size_bytes - old_size_bytes) 3)) 0)
              (BITVECT_NUM_BITS_TO_NUM_BLOCKS i)
    else bv in
  bitvect_set bv i.

(** The loop of [bitvect_from_index] after the element [x] has been read, with [rest] to
    follow: bits of one block are collected in [a] before they are written. *)
Fixpoint from_index_loop (bv : bitvect) (current a x : Z) (rest : list Z) : option bitvect :=
  let a := Z.lor a (Z.shiftl 1 (bit_of x)) in
  match rest with
  | [] => update_block bv current (fun v => Z.lor v a)
  | y :: rest =>
      let loc := block_of y in
      if negb (current =? loc) then
        match update_block bv current (fun v => Z.lor v a) with
        | None => None
        | Some bv => from_index_loop bv loc 0 y rest
        end
      else from_index_loop bv current a y rest
  end.

Definition bitvect_from_index (bv : bitvect) (index : list Z) : option bitvect * Z :=
  match index with
  | [] => (Some bv, -1)
  | x :: rest => (from_index_loop bv (block_of x) 0 x rest, 0)
  end.

Definition bitvect_combine (op : Z -> Z -> Z) (bv other : bitvect) : bitvect * Z :=
  if negb (bv_size bv =? bv_size other) then (bv, -1)
  else (Bitvect (zip_with op (bv_data bv) (bv_data other)) (bv_size bv), 0).
Definition bitvect_combine_and := bitvect_combine Z.land.
Definition bitvect_combine_or := bitvect_combine Z.lor.

(** [while (v) { if (v & 1) emit(count + bit); v >>= 1; ++bit; }] *)
Fixpoint block_to_index (fuel : nat) (v count bit : Z) : list Z :=
  match fuel with
  | O => []
  | S f =>
      if v =? 0 then []
      else (if Z.land v 1 =? 0 then [] else [count + bit]) ++ block_to_index f (Z.shiftr v 1) count (bit + 1)
  end.

Fixpoint blocks_to_index (l : list Z) (count : Z) : list Z :=
  match l with
  | [] => []
  | v :: l => block_to_index 64 v count 0 ++ blocks_to_index l (count + BITVECT_NUM_BITS)
  end.

(** [bitvect_to_index]: the numbers appended to the output. *)
Definition bitvect_to_index (bv : bitvect) : list Z := blocks_to_index (bv_data bv) 0.

(** [__builtin_popcountll] *)
Definition popcount (v : Z) : Z := Z.of_nat (length (filter (fun b => Z.testbit v b = true) (seqZ 0 64))).

Definition bitvect_count (bv : bitvect) : Z := foldr (fun v n => popcount v + n) 0 (bv_data bv).

(** ** Facts *)

Definition wf_blocks (l : list Z) : Prop := Forall (fun v => 0 <= v < 2 ^ 64) l.

Definition testbit (bv : bitvect) (i : Z) : bool :=
  Z.testbit (default 0 (bv_data bv !! Z.to_nat (i / 64))) (i mod 64).

Lemma block_of_div i : block_of i = i / 64.
Proof. unfold block_of, BITVECT_NUM_BITS_ALIGN. by rewrite Z.shiftr_div_pow2 by lia. Qed.

Lemma bit_of_mod i : 0 <= i -> bit_of i = i mod 64.
Proof.
  intros Hi. unfold bit_of, BITVECT_NUM_BITS. change (64 - 1) with (Z.ones 6). by rewrite Z.land_ones by lia.
Qed.

Lemma testbit_shift1 b j : 0 <= b -> 0 <= j -> Z.testbit (Z.shiftl 1 b) j = (b =? j).
Proof.
  intros Hb Hj. rewrite Z.shiftl_spec by lia. destruct (Z.eqb_spec b j) as [->|Hne].
  - by rewrite Z.sub_diag.
  - destruct (Z.lt_ge_cases j b); [by rewrite Z.testbit_neg_r by lia|].
    rewrite Z.bits_above_log2; [done|lia|cbn; lia].
Qed.

Lemma land_shift1 v b : 0 <= b -> negb (Z.land v (Z.shiftl 1 b) =? 0) = Z.testbit v b.
Proof.
  intros Hb. destruct (Z.eqb_spec (Z.land v (Z.shiftl 1 b)) 0) as [E|E]; cbn.
  - assert (Z.testbit (Z.land v (Z.shiftl 1 b)) b = false) as H by (rewrite E; apply Z.testbit_0_l).
    rewrite Z.land_spec, testbit_shift1, Z.eqb_refl, andb_true_r in H by lia. done.
  - destruct (Z.testbit v b) eqn:Ev; [done|]. exfalso. apply E. apply Z.bits_inj'. intros n Hn.
    rewrite Z.land_spec, testbit_shift1, Z.testbit_0_l by lia.
    destruct (Z.eqb_spec b n) as [->|]; [by rewrite Ev|apply andb_false_r].
Qed.

Lemma isset_spec bv i :
  0 <= i < 64 * Z.of_nat (length (bv_data bv)) -> bitvect_isset bv i = Some (testbit bv i).
Proof.
  intros Hi. unfold bitvect_isset, testbit. rewrite block_of_div, bit_of_mod by lia.
  pose proof (Z.mod_pos_bound i 64 ltac:(lia)). pose proof (Z.div_mod i 64 ltac:(lia)).
  destruct (lookup_lt_is_Some_2 (bv_data bv) (Z.to_nat (i / 64))) as [v E]; [lia|].
  rewrite E. cbn. by rewrite land_shift1 by lia.
Qed.

(** Bits of a vector in which block [k] was replaced. *)
Lemma update_block_testbit bv k f bv' j :
  0 <= k -> 0 <= j -> update_block bv k f = Some bv' ->
  testbit bv' j = if j / 64 =? k then Z.testbit (f (default 0 (bv_data bv !! Z.to_nat k))) (j mod 64) else testbit bv j.
Proof.
  intros Hk Hj. unfold update_block. destruct (bv_data bv !! Z.to_nat k) as [v|] eqn:E; [|done]. intros [= <-].
  pose proof (lookup_lt_Some _ _ _ E). pose proof (Z.div_pos j 64). unfold testbit. cbn.
  destruct (Z.eqb_spec (j / 64) k) as [->|Hne].
  - by rewrite list_lookup_insert_eq.
  - by rewrite list_lookup_insert_ne by lia.
Qed.

Lemma update_block_some bv k f :
  0 <= k < Z.of_nat (length (bv_data bv)) -> exists bv', update_block bv k f = Some bv'
    /\ length (bv_data bv') = length (bv_data bv) /\ bv_size bv' = bv_size bv.
Proof.
  intros Hk. unfold update_block. destruct (lookup_lt_is_Some_2 (bv_data bv) (Z.to_nat k)) as [v E]; [lia|].
  rewrite E. eexists. split; [done|]. cbn. by rewrite length_insert.
Qed.

Lemma div_mod_eq i j : 0 <= i -> 0 <= j -> (j / 64 =? i / 64) && (i mod 64 =? j mod 64) = (i =? j).
Proof.
  intros Hi Hj. pose proof (Z.div_mod i 64 ltac:(lia)). pose proof (Z.div_mod j 64 ltac:(lia)).
  destruct (Z.eqb_spec (j / 64) (i / 64)), (Z.eqb_spec (i mod 64) (j mod 64)), (Z.eqb_spec i j); cbn; try done; subst; congruence || lia.
Qed.

Lemma set_spec bv i :
  0 <= i < 64 * Z.of_nat (length (bv_data bv)) ->
  exists bv', bitvect_set bv i = Some bv' /\ length (bv_data bv') = length (bv_data bv) /\ bv_size bv' = bv_size bv
    /\ forall j, 0 <= j -> testbit bv' j = (i =? j) || testbit bv j.
Proof.
  intros Hi. unfold bitvect_set. rewrite block_of_div, bit_of_mod by lia.
  pose proof (Z.div_mod i 64 ltac:(lia)). pose proof (Z.mod_pos_bound i 64 ltac:(lia)).
  destruct (update_block_some bv (i / 64) (fun v => Z.lor v (Z.shiftl 1 (i mod 64)))) as (bv' & E & Hl & Hs); [lia|].
  exists bv'. split; [done|]. split; [done|]. split; [done|]. intros j Hj.
  rewrite (update_block_testbit bv (i / 64) _ bv' j ltac:(lia) Hj E). pose proof (Z.mod_pos_bound j 64 ltac:(lia)).
  rewrite Z.lor_spec, testbit_shift1, <- (div_mod_eq i j) by lia.
  unfold testbit. destruct (Z.eqb_spec (j / 64) (i / 64)) as [->|]; cbn; [apply orb_comm|done].
Qed.

Lemma reset_spec bv i :
  0 <= i < 64 * Z.of_nat (length (bv_data bv)) ->
  exists bv', bitvect_reset bv i = Some bv' /\ length (bv_data bv') = length (bv_data bv)
    /\ forall j, 0 <= j -> testbit bv' j = negb (i =? j) && testbit bv j.
Proof.
  intros Hi. unfold bitvect_reset. rewrite block_of_div, bit_of_mod by lia.
  pose proof (Z.div_mod i 64 ltac:(lia)). pose proof (Z.mod_pos_bound i 64 ltac:(lia)).
  destruct (update_block_some bv (i / 64) (fun v => Z.land v (u64 (Z.lnot (Z.shiftl 1 (i mod 64)))))) as (bv' & E & Hl & Hs); [lia|].
  exists bv'. split; [done|]. split; [done|]. intros j Hj.
  rewrite (update_block_testbit bv (i / 64) _ bv' j ltac:(lia) Hj E). pose proof (Z.mod_pos_bound j 64 ltac:(lia)).
  unfold u64. rewrite Z.land_spec, Z.mod_pow2_bits_low, Z.lnot_spec, testbit_shift1, <- (div_mod_eq i j) by lia.
  unfold testbit. destruct (Z.eqb_spec (j / 64) (i / 64)) as [->|]; cbn; [apply andb_comm|done].
Qed.

(** ** [bitvect_from_index] *)

(** The version left in a comment of the source: one write per element. *)
Fixpoint set_all (bv : bitvect) (l : list Z) : option bitvect :=
  match l with
  | [] => Some bv
  | x :: l => bv ← bitvect_set bv x; set_all bv l
  end.

Lemma update_update bv k f g :
  (bv' ← update_block bv k f; update_block bv' k g) = update_block bv k (fun v => g (f v)).
Proof.
  unfold update_block. destruct (bv_data bv !! Z.to_nat k) as [v|] eqn:E; cbn; [|done].
  rewrite list_lookup_insert_eq by (by apply lookup_lt_Some in E). by rewrite list_insert_insert_eq.
Qed.

Lemma update_ext bv k f g : (forall v, f v = g v) -> update_block bv k f = update_block bv k g.
Proof. intros H. unfold update_block. destruct (bv_data bv !! Z.to_nat k); [by rewrite H|done]. Qed.

(** Collected bits and one more bit of the same block. *)
Lemma collect_bit bv a x :
  (bv' ← update_block bv (block_of x) (fun v => Z.lor v a); bitvect_set bv' x)
  = update_block bv (block_of x) (fun v => Z.lor v (Z.lor a (Z.shiftl 1 (bit_of x)))).
Proof. unfold bitvect_set. rewrite update_update. apply update_ext. intros v. by rewrite Z.lor_assoc. Qed.

Lemma update_nothing bv x l :
  (bv' ← update_block bv (block_of x) (fun v => Z.lor v 0); set_all bv' (x :: l)) = set_all bv (x :: l).
Proof.
  destruct (bv_data bv !! Z.to_nat (block_of x)) as [v|] eqn:E.
  - assert (update_block bv (block_of x) (fun v => Z.lor v 0) = Some bv) as ->; [|done].
    unfold update_block. rewrite E, Z.lor_0_r, list_insert_id by done. by destruct bv.
  - cbn [set_all]. unfold bitvect_set, update_block. by rewrite E.
Qed.

Lemma from_index_loop_spec rest : forall bv a x,
  from_index_loop bv (block_of x) a x rest
  = (bv' ← update_block bv (block_of x) (fun v => Z.lor v a); set_all bv' (x :: rest)).
Proof.
  assert (Hpull : forall bv a x l, (bv' ← update_block bv (block_of x) (fun v => Z.lor v a); set_all bv' (x :: l))
    = (bv' ← update_block bv (block_of x) (fun v => Z.lor v (Z.lor a (Z.shiftl 1 (bit_of x)))); set_all bv' l)).
  { intros bv a x l. rewrite <- collect_bit. cbn [set_all].
    by destruct (update_block bv (block_of x) (fun v => Z.lor v a)). }
  induction rest as [|y rest IH]; intros bv a x; rewrite Hpull; cbn [from_index_loop].
  - by destruct (update_block bv _ _).
  - destruct (Z.eqb_spec (block_of x) (block_of y)) as [E|E]; cbn [negb].
    + rewrite E. apply IH.
    + destruct (update_block bv (block_of x) _) as [bv'|]; [|done]. cbn [mbind option_bind].
      rewrite IH. apply update_nothing.
Qed.

Lemma from_index_set_all bv x l : bitvect_from_index bv (x :: l) = (set_all bv (x :: l), 0).
Proof. unfold bitvect_from_index. rewrite from_index_loop_spec. by rewrite update_nothing. Qed.

Lemma set_all_spec l : forall bv,
  Forall (fun i => 0 <= i < 64 * Z.of_nat (length (bv_data bv))) l ->
  exists bv', set_all bv l = Some bv' /\ length (bv_data bv') = length (bv_data bv) /\ bv_size bv' = bv_size bv
    /\ forall j, 0 <= j -> testbit bv' j = bool_decide (j ∈ l) || testbit bv j.
Proof.
  induction l as [|x l IH]; intros bv Hl; cbn [set_all].
  - exists bv. split; [done|]. split; [done|]. split; [done|]. intros j _. by rewrite bool_decide_eq_false_2 by set_solver.
  - apply Forall_cons in Hl as [Hx Hl]. destruct (set_spec bv x Hx) as (bv1 & -> & Hlen & Hs & Ht). cbn [mbind option_bind].
    destruct (IH bv1) as (bv' & E & Hlen' & Hs' & Ht'); [by rewrite Hlen|].
    exists bv'. split; [done|]. split; [congruence|]. split; [congruence|]. intros j Hj. rewrite Ht', Ht by done.
    destruct (Z.eqb_spec x j) as [->|Hne].
    + rewrite (bool_decide_eq_true_2 (j ∈ j :: l)) by set_solver. cbn. apply orb_true_r.
    + cbn. f_equal. apply bool_decide_ext. rewrite elem_of_cons. naive_solver.
Qed.

(** ** [bitvect_to_index] and [bitvect_count] *)

Lemma block_to_index_spec n : forall v count bit,
  0 <= v < 2 ^ Z.of_nat n ->
  block_to_index n v count bit
  = (fun b => count + bit + b) <$> filter (fun b => Z.testbit v b = true) (seqZ 0 (Z.of_nat n)).
Proof.
  induction n as [|n IH]; intros v count bit Hv; [done|]. cbn [block_to_index].
  rewrite Nat2Z.inj_succ, Z.pow_succ_r in Hv by lia.
  rewrite seqZ_cons by lia. replace (Z.pred (Z.of_nat (S n))) with (Z.of_nat n) by lia.
  change (Z.succ 0) with (1 + 0). rewrite <- fmap_add_seqZ, filter_cons, filter_map.
  assert (Hrest : filter (fun b => Z.testbit (Z.shiftr v 1) b = true) (seqZ 0 (Z.of_nat n))
    = filter (fun b => Z.testbit v (1 + b) = true) (seqZ 0 (Z.of_nat n))).
  { apply filter_ext_in. intros b Hb. apply elem_of_seqZ in Hb. rewrite Z.shiftr_spec by lia. by rewrite Z.add_comm. }
  destruct (Z.eqb_spec v 0) as [->|Hne].
  - rewrite decide_False by done. rewrite <- Hrest. rewrite filter_none; [done|].
    intros b _. by rewrite Z.shiftr_0_l, Z.testbit_0_l.
  - rewrite IH.
    2:{ rewrite Z.shiftr_div_pow2 by lia. change (2 ^ 1) with 2. split; [apply Z.div_pos; lia|].
        apply Z.div_lt_upper_bound; lia. }
    rewrite <- Hrest.
    replace (Z.land v 1) with (Z.b2z (Z.testbit v 0)) by (rewrite Z.bit0_mod; exact (eq_sym (Z.land_ones v 1 ltac:(lia)))).
    destruct (Z.testbit v 0); cbn [Z.b2z Z.eqb].
    + rewrite decide_True by done. rewrite fmap_cons, <- list_fmap_compose. cbn [app]. f_equal; [lia|].
      apply list_fmap_ext. intros. cbn. lia.
    + rewrite decide_False by done. rewrite <- list_fmap_compose. cbn [app]. apply list_fmap_ext. intros. cbn. lia.
Qed.

Lemma app_congr {A} (a b c d : list A) : a = c -> b = d -> a ++ b = c ++ d.
Proof. by intros -> ->. Qed.

Lemma blocks_to_index_spec l : forall count, wf_blocks l ->
  blocks_to_index l count
  = (fun i => count + i) <$> filter (fun i => Z.testbit (default 0 (l !! Z.to_nat (i / 64))) (i mod 64) = true)
                               (seqZ 0 (64 * Z.of_nat (length l))).
Proof.
  induction l as [|v l IH]; intros count Hwf; [done|]. apply Forall_cons in Hwf as [Hv Hwf].
  cbn [blocks_to_index length]. rewrite (block_to_index_spec 64 v count 0 Hv), (IH _ Hwf).
  change (Z.of_nat 64) with 64.
  replace (64 * Z.of_nat (S (length l))) with (64 + 64 * Z.of_nat (length l)) by lia.
  rewrite seqZ_app, filter_app, fmap_app by lia. apply app_congr.
  - rewrite (filter_ext_in (fun b => Z.testbit v b = true)
      (fun i => Z.testbit (default 0 ((v :: l) !! Z.to_nat (i / 64))) (i mod 64) = true)).
    + apply list_fmap_ext. intros. lia.
    + intros b Hb. apply elem_of_seqZ in Hb. rewrite Z.div_small, Z.mod_small by lia. done.
  - replace (0 + 64) with (64 + 0) by lia. rewrite <- fmap_add_seqZ, filter_map, <- list_fmap_compose.
    rewrite (filter_ext_in (fun x => Z.testbit (default 0 ((v :: l) !! Z.to_nat ((64 + x) / 64))) ((64 + x) mod 64) = true)
      (fun i => Z.testbit (default 0 (l !! Z.to_nat (i / 64))) (i mod 64) = true)).
    + apply list_fmap_ext. intros. cbn. unfold BITVECT_NUM_BITS. lia.
    + intros x Hx. apply elem_of_seqZ in Hx. pose proof (Z.div_pos x 64 ltac:(lia) ltac:(lia)).
      replace (64 + x) with (x + 1 * 64) by lia. rewrite Z.div_add, Z.mod_add by lia.
      replace (Z.to_nat (x / 64 + 1)) with (S (Z.to_nat (x / 64))) by lia. done.
Qed.

Lemma to_index_spec bv : wf_blocks (bv_data bv) ->
  bitvect_to_index bv = filter (fun i => testbit bv i = true) (seqZ 0 (64 * Z.of_nat (length (bv_data bv)))).
Proof.
  intros Hwf. unfold bitvect_to_index. rewrite blocks_to_index_spec by done.
  rewrite (list_fmap_ext _ id), list_fmap_id; [done|]. by intros.
Qed.

Lemma lor_range a b : 0 <= a < 2 ^ 64 -> 0 <= b < 2 ^ 64 -> 0 <= Z.lor a b < 2 ^ 64.
Proof.
  intros Ha Hb. split; [apply Z.lor_nonneg; lia|].
  destruct (Z.eq_dec (Z.lor a b) 0) as [->|Hne]; [lia|].
  apply Z.log2_lt_pow2; [pose proof (Z.lor_nonneg a b); lia|]. rewrite Z.log2_lor by lia.
  destruct (Z.eq_dec a 0) as [->|], (Z.eq_dec b 0) as [->|]; try (exfalso; apply Hne; reflexivity);
    apply Z.max_lub_lt; cbn; try lia; apply Z.log2_lt_pow2; lia.
Qed.

Lemma update_wf bv k f bv' :
  wf_blocks (bv_data bv) -> (forall v, 0 <= v < 2 ^ 64 -> 0 <= f v < 2 ^ 64) ->
  update_block bv k f = Some bv' -> wf_blocks (bv_data bv').
Proof.
  intros Hwf Hf. unfold update_block. destruct (bv_data bv !! Z.to_nat k) as [v|] eqn:E; [|done]. intros [= <-].
  apply Forall_insert; [done|]. apply Hf. unfold wf_blocks in Hwf. rewrite Forall_lookup in Hwf. by eapply Hwf.
Qed.

Lemma bit_range i : 0 <= i -> 0 <= Z.shiftl 1 (bit_of i) < 2 ^ 64.
Proof.
  intros Hi. rewrite bit_of_mod by done. pose proof (Z.mod_pos_bound i 64 ltac:(lia)). rewrite Z.shiftl_1_l.
  split; [apply Z.pow_nonneg; lia|]. apply Z.pow_lt_mono_r; lia.
Qed.

Lemma set_all_wf l : forall bv bv', wf_blocks (bv_data bv) -> Forall (fun i => 0 <= i) l ->
  set_all bv l = Some bv' -> wf_blocks (bv_data bv').
Proof.
  induction l as [|x l IH]; intros bv bv' Hwf Hl; cbn [set_all]; [by intros [= <-]|].
  apply Forall_cons in Hl as [Hx Hl]. destruct (bitvect_set bv x) as [bv1|] eqn:E; [|done]. cbn. apply IH; [|done].
  eapply update_wf; [done| |exact E]. intros v Hv. apply lor_range; [done|]. by apply bit_range.
Qed.

(** C26: the optimised loop of [bitvect_from_index], which collects the bits of consecutive
    elements of one block before writing them, does to the vector exactly what setting the
    bits one by one does, out-of-range writes included; an empty index is an error. *)
Theorem bitvect_from_index_equiv (bv : bitvect) (index : list Z) :
  bitvect_from_index bv index = (set_all bv index, if decide (index = []) then -1 else 0).
Proof. destruct index as [|x l]; [done|]. rewrite from_index_set_all. by rewrite decide_False. Qed.

Lemma num_blocks n : 0 <= n < 2 ^ 60 ->
  BITVECT_NUM_BITS_TO_NUM_BLOCKS n = (n + 63) / 64 /\ BITVECT_NUM_BITS_TO_NUM_BYTES n = 8 * ((n + 63) / 64).
Proof.
  intros Hn. unfold BITVECT_NUM_BITS_TO_NUM_BLOCKS, BITVECT_NUM_BITS_TO_NUM_BYTES, BITVECT_ROUND_UP_TO_NEAREST_BLOCK_SIZE,
    BITVECT_MASK, BITVECT_NUM_BITS_ALIGN. rewrite u64_small by lia.
  assert (Z.land (n + 63) (u64 (Z.lnot 63)) = (n + 63) / 64 * 64) as ->.
  { change (u64 (Z.lnot 63)) with (Z.land (Z.lnot (2 ^ 6 - 1)) (Z.ones 64)).
    change (n + 63) with (n + (2 ^ 6 - 1)). rewrite Z.land_assoc, (round_up_mask n 6), Z.land_ones by lia.
    change (2 ^ 6) with 64. change (n + (64 - 1)) with (n + 63).
    pose proof (Z.div_mod (n + 63) 64 ltac:(lia)). pose proof (Z.mod_pos_bound (n + 63) 64 ltac:(lia)).
    apply Z.mod_small. lia. }
  rewrite !Z.shiftr_div_pow2 by lia. change (2 ^ 6) with 64. change (2 ^ 3) with 8. split.
  - apply Z.div_mul. lia.
  - replace ((n + 63) / 64 * 64) with ((n + 63) / 64 * 8 * 8) by lia. rewrite Z.div_mul by lia. lia.
Qed.

Lemma init_data n : 0 <= n < 2 ^ 60 -> bv_data (bitvect_init n) = replicate (Z.to_nat ((n + 63) / 64)) 0.
Proof.
  intros Hn. unfold bitvect_init. destruct (num_blocks n Hn) as [_ ->]. cbn. rewrite Z.shiftr_div_pow2 by lia.
  change (2 ^ 3) with 8. rewrite Z.mul_comm, Z.div_mul by lia. done.
Qed.

(** Writing an index into a fresh vector of [n] bits and reading it back with
    [bitvect_to_index] gives the elements of the index, each once and in increasing order. *)
Theorem bitvect_index_roundtrip (n : Z) (index : list Z)
  (Hn : 0 <= n < 2 ^ 60) (Hne : index <> []) (Hrange : Forall (fun i => 0 <= i < n) index) :
  exists bv, bitvect_from_index (bitvect_init n) index = (Some bv, 0)
    /\ bitvect_to_index bv = filter (fun i => i ∈ index) (seqZ 0 n).
Proof.
  destruct index as [|x l]; [done|]. rewrite from_index_set_all. pose proof (init_data n Hn) as Hd.
  pose proof (Z.div_mod (n + 63) 64 ltac:(lia)). pose proof (Z.mod_pos_bound (n + 63) 64 ltac:(lia)).
  destruct (set_all_spec (x :: l) (bitvect_init n)) as (bv & E & Hlen & _ & Ht).
  { rewrite Hd, length_replicate. eapply Forall_impl; [exact Hrange|]. intros i Hi. cbn in Hi. lia. }
  exists bv. rewrite E. split; [done|].
  assert (Hwf : wf_blocks (bv_data bv)).
  { eapply set_all_wf; [|eapply Forall_impl; [exact Hrange|intros i Hi; cbn in Hi; lia]|exact E].
    rewrite Hd. apply Forall_replicate. lia. }
  rewrite to_index_spec, Hlen, Hd, length_replicate by done.
  replace (64 * Z.of_nat (Z.to_nat ((n + 63) / 64))) with (n + (64 * ((n + 63) / 64) - n)) by lia.
  assert (Hbit : forall i, 0 <= i -> testbit bv i = true <-> i ∈ x :: l).
  { intros i Hi. rewrite Ht by done. unfold testbit. rewrite Hd.
    assert (default 0 (replicate (Z.to_nat ((n + 63) / 64)) 0 !! Z.to_nat (i / 64)) = 0) as ->.
    { destruct (replicate _ 0 !! _) eqn:Er; [|done]. apply lookup_replicate in Er as [-> _]. done. }
    rewrite Z.testbit_0_l, orb_false_r. apply bool_decide_eq_true. }
  rewrite seqZ_app, filter_app by lia. rewrite (filter_none _ (seqZ (0 + n) _)), app_nil_r.
  - apply filter_ext_in. intros i Hi. apply elem_of_seqZ in Hi. apply Hbit. lia.
  - intros i Hi. apply elem_of_seqZ in Hi. rewrite Hbit by lia. rewrite Forall_forall in Hrange.
    intros Hin. apply Hrange in Hin. lia.
Qed.

Lemma bitvect_index_roundtrip_witness :
  exists bv, bitvect_from_index (bitvect_init 200) [130; 7; 7; 64] = (Some bv, 0) /\ bitvect_to_index bv = [7; 64; 130].
Proof.
  destruct (bitvect_index_roundtrip 200 [130; 7; 7; 64]) as (bv & H1 & H2); [lia|done| |].
  - repeat (apply Forall_cons; split; [lia|]). by apply Forall_nil.
  - exists bv. split; [exact H1|]. rewrite H2. reflexivity.
Defined.

(** After [bitvect_set] of bit [i], [bitvect_isset] is true at [i] and unchanged at every
    other bit; after [bitvect_reset] it is false at [i] and unchanged elsewhere. *)
Theorem bitvect_set_reset_isset (bv : bitvect) (i j : Z)
  (Hi : 0 <= i < 64 * Z.of_nat (length (bv_data bv))) (Hj : 0 <= j < 64 * Z.of_nat (length (bv_data bv))) :
  exists bv1 bv2, bitvect_set bv i = Some bv1 /\ bitvect_reset bv i = Some bv2
    /\ bitvect_isset bv1 j = (if i =? j then Some true else bitvect_isset bv j)
    /\ bitvect_isset bv2 j = (if i =? j then Some false else bitvect_isset bv j).
Proof.
  destruct (set_spec bv i Hi) as (bv1 & E1 & L1 & _ & T1). destruct (reset_spec bv i Hi) as (bv2 & E2 & L2 & T2).
  exists bv1, bv2. split; [done|]. split; [done|].
  rewrite !isset_spec by (rewrite ?L1, ?L2; done). rewrite T1, T2 by lia. by destruct (i =? j).
Qed.

Lemma bitvect_set_reset_isset_witness :
  exists bv1 bv2, bitvect_set (bitvect_init 128) 70 = Some bv1 /\ bitvect_reset (bitvect_init 128) 70 = Some bv2
    /\ bitvect_isset bv1 70 = Some true /\ bitvect_isset bv2 70 = Some false.
Proof. apply (bitvect_set_reset_isset (bitvect_init 128) 70 70); vm_compute; split; congruence. Defined.

(** [bitvect_set_resize] sizes the vector for [i] bits instead of [i + 1]: setting bit 64
    of a vector of 64 bits writes outside of the allocated block. *)
Theorem bitvect_set_resize_out_of_bounds : bitvect_set_resize (bitvect_init 64) 64 = None.
Proof. vm_compute. reflexivity. Qed.
