(* ===== verification/Search.v ===== *)
(** * Search: binary search ([src/search.c], [include/binary_search.h])

    The loops are over an array accessed through a comparison; [less i] stands for the
    comparison of element [i] with the key. *)

From stdpp Require Import base numbers list.
From Stdlib Require Import ZArith Lia.
From S2P Require Import Prelude.

(** The loop of [lower_bound] and of the [LOWER_BOUND] and [BINARY_SEARCH] templates, on
    32-bit positions. *)
Fixpoint lower_bound_loop (fuel : nat) (less : Z -> bool) (l h : Z) : option Z :=
  match fuel with
  | O => None
  | S f =>
      if l <? h then
        let m := Z.shiftr (u32 (l + h)) 1 in
        if less m then lower_bound_loop f less (u32 (m + 1)) h else lower_bound_loop f less l m
      else Some l
  end.

(** [h - l] decreases in every step. *)
Definition bound_fuel (n : Z) : nat := S (Z.to_nat n).

Section Search.
Context {A : Type} (compar : A -> A -> Z) (junk : A).

Definition elem (base : list A) (i : Z) : A := default junk (base !! Z.to_nat i).

(** [lower_bound]: [h = nmemb] is stored in a [uint32_t]. *)
Definition lower_bound (key : A) (base : list A) (nmemb : Z) : option Z :=
  lower_bound_loop (bound_fuel (u32 nmemb)) (fun m => compar (elem base m) key <? 0) 0 (u32 nmemb).

Fixpoint binary_search_loop (fuel : nat) (key : A) (base : list A) (low high : Z) : option Z :=
  match fuel with
  | O => None
  | S f =>
      if low <? high then
        let curr := Z.shiftr (u64 (low + high)) 1 in
        if 0 <? compar key (elem base curr) then binary_search_loop f key base (u64 (curr + 1)) high
        else binary_search_loop f key base low curr
      else Some low
  end.

(** [binary_search]: the index of the element found, [None] inside for NULL. *)
Definition binary_search (key : A) (base : list A) (nmemb : Z) : option (option Z) :=
  match binary_search_loop (bound_fuel nmemb) key base 0 nmemb with
  | None => None
  | Some low =>
      Some (if low >=? nmemb then None
            else if negb (compar key (elem base low) =? 0) then None
            else Some low)
  end.

(** The template [LOWER_BOUND_PRED(T, LESSTHAN)]. *)
Variable LESSTHAN : A -> A -> bool.

Definition LOWER_BOUND_PRED (data : list A) (n : Z) (v : A) : option Z :=
  lower_bound_loop (bound_fuel n) (fun m => LESSTHAN (elem data m) v) 0 n.

(** The template [BINARY_SEARCH_PRED(T, LESSTHAN)]: the index and the return code. *)
Definition BINARY_SEARCH_PRED (data : list A) (n : Z) (v : A) : option (option Z * Z) :=
  match lower_bound_loop (bound_fuel n) (fun m => LESSTHAN (elem data m) v) 0 n with
  | None => None
  | Some l =>
      let p := elem data l in
      Some (if (l >=? n) || LESSTHAN p v || LESSTHAN v p then (None, -1) else (Some l, 0))
  end.

End Search.

(** ** Facts *)

(** True up to some position and false from there on. *)
Definition downward (less : Z -> bool) (n : Z) : Prop :=
  forall i j, 0 <= i <= j -> j < n -> less j = true -> less i = true.

(** [r] is where [less] becomes false. *)
Definition partition_point (less : Z -> bool) (n r : Z) : Prop :=
  0 <= r <= n /\ (forall i, 0 <= i < r -> less i = true) /\ (forall i, r <= i < n -> less i = false).

Lemma lower_bound_loop_spec less n fuel : forall l h,
  n <= 2 ^ 31 -> downward less n -> 0 <= l <= h -> h <= n ->
  (forall i, 0 <= i < l -> less i = true) -> (forall i, h <= i < n -> less i = false) ->
  h - l < Z.of_nat fuel ->
  exists r, lower_bound_loop fuel less l h = Some r /\ partition_point less n r.
Proof.
  induction fuel as [|f IH]; intros l h Hn Hd Hl Hh Hlow Hhigh Hf; [lia|]. cbn [lower_bound_loop].
  destruct (Z.ltb_spec l h) as [Hlt|Hge].
  2:{ exists l. split; [done|]. replace h with l in * by lia. split; [lia|by split]. }
  rewrite (u32_small (l + h)) by lia. rewrite Z.shiftr_div_pow2 by lia. change (2 ^ 1) with 2.
  set (m := (l + h) / 2). assert (l <= m < h) as Hm.
  { unfold m. pose proof (Z.div_mod (l + h) 2 ltac:(lia)). pose proof (Z.mod_pos_bound (l + h) 2 ltac:(lia)). lia. }
  destruct (less m) eqn:E.
  - rewrite u32_small by lia. apply IH; auto; try lia. intros i Hi.
    destruct (Z.eq_dec i m) as [->|]; [done|]. apply (Hd i m); auto; lia.
  - apply IH; auto; try lia. intros i Hi. destruct (less i) eqn:Ei; [|done].
    rewrite (Hd m i) in E; auto; lia.
Qed.

Lemma lower_bound_spec less n :
  0 <= n <= 2 ^ 31 -> downward less n ->
  exists r, lower_bound_loop (bound_fuel n) less 0 n = Some r /\ partition_point less n r.
Proof. intros Hn Hd. apply lower_bound_loop_spec; auto; unfold bound_fuel; intros; lia. Qed.

Section Sorted.
Context {A : Type} (compar : A -> A -> Z) (junk : A).
Notation elem := (elem junk).

(** The array is sorted for the comparison with [key]: smaller, equal, larger. *)
Definition sorted_for (key : A) (base : list A) : Prop :=
  forall i j, 0 <= i <= j -> j < Z.of_nat (length base) -> compar (elem base j) key < 0 -> compar (elem base i) key < 0.

Lemma binary_search_loop_spec key base n fuel : forall low high,
  n <= 2 ^ 63 -> downward (fun m => 0 <? compar key (elem base m)) n -> 0 <= low <= high -> high <= n ->
  (forall i, 0 <= i < low -> (0 <? compar key (elem base i)) = true) ->
  (forall i, high <= i < n -> (0 <? compar key (elem base i)) = false) -> high - low < Z.of_nat fuel ->
  exists r, binary_search_loop compar junk fuel key base low high = Some r
    /\ partition_point (fun m => 0 <? compar key (elem base m)) n r.
Proof.
  induction fuel as [|f IH]; intros l h Hn Hd Hl Hh Hlow Hhigh Hf; [lia|]. cbn [binary_search_loop].
  destruct (Z.ltb_spec l h) as [Hlt|Hge].
  2:{ exists l. split; [done|]. replace h with l in * by lia. split; [lia|by split]. }
  rewrite (u64_small (l + h)) by lia. rewrite Z.shiftr_div_pow2 by lia. change (2 ^ 1) with 2.
  set (m := (l + h) / 2). assert (l <= m < h) as Hm.
  { unfold m. pose proof (Z.div_mod (l + h) 2 ltac:(lia)). pose proof (Z.mod_pos_bound (l + h) 2 ltac:(lia)). lia. }
  destruct (0 <? compar key (elem base m)) eqn:E.
  - rewrite u64_small by lia. apply IH; auto; try lia. intros i Hi.
    destruct (Z.eq_dec i m) as [->|]; [done|]. apply (Hd i m); auto; lia.
  - apply IH; auto; try lia. intros i Hi. destruct (0 <? compar key (elem base i)) eqn:Ei; [|done].
    rewrite (Hd m i) in E; auto; lia.
Qed.

End Sorted.

(** On an array of up to 2^31 elements that is sorted with respect to [key],
    [lower_bound] terminates and returns the first position whose element is not smaller
    than the key (the length if there is none). *)
Theorem lower_bound_correct {A} (compar : A -> A -> Z) (junk key : A) (base : list A)
  (Hlen : Z.of_nat (length base) <= 2 ^ 31)
  (Hsorted : forall i j, 0 <= i <= j -> j < Z.of_nat (length base) ->
     compar (elem junk base j) key < 0 -> compar (elem junk base i) key < 0) :
  exists r, lower_bound compar junk key base (Z.of_nat (length base)) = Some r
    /\ 0 <= r <= Z.of_nat (length base)
    /\ (forall i, 0 <= i < r -> compar (elem junk base i) key < 0)
    /\ (forall i, r <= i < Z.of_nat (length base) -> 0 <= compar (elem junk base i) key).
Proof.
  unfold lower_bound. rewrite u32_small by lia.
  destruct (lower_bound_spec (fun m => compar (elem junk base m) key <? 0) (Z.of_nat (length base)))
    as (r & E & Hr & H1 & H2); [lia| |].
  { intros i j Hij Hj Hless. apply Z.ltb_lt in Hless. apply Z.ltb_lt. by apply (Hsorted i j). }
  exists r. split; [done|]. split; [done|]. split.
  - intros i Hi. specialize (H1 i Hi). by apply Z.ltb_lt in H1.
  - intros i Hi. specialize (H2 i Hi). by apply Z.ltb_ge in H2.
Qed.

Definition int_diff (a b : Z) : Z := a - b.

Lemma lower_bound_correct_witness :
  exists r, lower_bound int_diff 0 5 [1; 3; 5; 5; 8] 5 = Some r /\ 0 <= r <= 5
    /\ (forall i, 0 <= i < r -> int_diff (elem 0 [1; 3; 5; 5; 8] i) 5 < 0)
    /\ (forall i, r <= i < 5 -> 0 <= int_diff (elem 0 [1; 3; 5; 5; 8] i) 5).
Proof.
  apply (lower_bound_correct int_diff 0 5 [1; 3; 5; 5; 8]); [cbn; lia|].
  intros i j Hij Hj. cbn [length] in Hj. unfold int_diff, elem.
  assert (forall k, 0 <= k < 5 -> k = 0 \/ k = 1 \/ k = 2 \/ k = 3 \/ k = 4) as Hc by (intros; lia).
  destruct (Hc i ltac:(lia)) as [->|[->|[->|[->| ->]]]], (Hc j ltac:(lia)) as [->|[->|[->|[->| ->]]]];
    try lia; vm_compute; congruence.
Defined.

(** on an array that is sorted with respect to [key], [binary_search] terminates; it
    returns the first element equal to the key, and NULL exactly when there is none. *)
Theorem binary_search_correct {A} (compar : A -> A -> Z) (junk key : A) (base : list A)
  (Hlen : Z.of_nat (length base) <= 2 ^ 63)
  (Hdown : forall i j, 0 <= i <= j -> j < Z.of_nat (length base) ->
     0 < compar key (elem junk base j) -> 0 < compar key (elem junk base i))
  (Hup : forall i j, 0 <= i <= j -> j < Z.of_nat (length base) ->
     compar key (elem junk base i) < 0 -> compar key (elem junk base j) < 0) :
  exists res, binary_search compar junk key base (Z.of_nat (length base)) = Some res
    /\ match res with
       | Some r => 0 <= r < Z.of_nat (length base) /\ compar key (elem junk base r) = 0
                   /\ forall i, 0 <= i < r -> compar key (elem junk base i) <> 0
       | None => forall i, 0 <= i < Z.of_nat (length base) -> compar key (elem junk base i) <> 0
       end.
Proof.
  unfold binary_search. set (n := Z.of_nat (length base)) in *.
  destruct (binary_search_loop_spec compar junk key base n (bound_fuel n) 0 n) as (r & -> & Hr & H1 & H2);
    auto; unfold bound_fuel; try lia; try (intros; lia).
  { intros i j Hij Hj Hless. apply Z.ltb_lt in Hless. apply Z.ltb_lt. by apply (Hdown i j). }
  assert (Hbefore : forall i, 0 <= i < r -> 0 < compar key (elem junk base i)).
  { intros i Hi. apply Z.ltb_lt. by apply H1. }
  assert (Hafter : forall i, r <= i < n -> compar key (elem junk base i) <= 0).
  { intros i Hi. apply Z.ltb_ge. by apply H2. }
  eexists. split; [done|]. rewrite Z.geb_leb. destruct (Z.leb_spec n r) as [Hend|Hin].
  - intros i Hi E. specialize (Hbefore i ltac:(lia)). lia.
  - destruct (Z.eqb_spec (compar key (elem junk base r)) 0) as [E|E]; cbn [negb].
    + split; [lia|]. split; [done|]. intros i Hi. specialize (Hbefore i Hi). lia.
    + intros i Hi Ei. destruct (Z.lt_ge_cases i r) as [Hlt|Hge]; [specialize (Hbefore i ltac:(lia)); lia|].
      specialize (Hafter r ltac:(lia)). specialize (Hup r i ltac:(lia) ltac:(lia) ltac:(lia)). lia.
Qed.

Lemma binary_search_correct_witness :
  exists res, binary_search int_diff 0 4 [1; 3; 5] 3 = Some res
    /\ match res with
       | Some r => 0 <= r < 3 /\ int_diff 4 (elem 0 [1; 3; 5] r) = 0
                   /\ forall i, 0 <= i < r -> int_diff 4 (elem 0 [1; 3; 5] i) <> 0
       | None => forall i, 0 <= i < 3 -> int_diff 4 (elem 0 [1; 3; 5] i) <> 0
       end.
Proof.
  assert (forall k, 0 <= k < 3 -> k = 0 \/ k = 1 \/ k = 2) as Hc by (intros; lia).
  apply (binary_search_correct int_diff 0 4 [1; 3; 5]); [cbn; lia|..];
    intros i j Hij Hj; cbn [length] in Hj; unfold int_diff, elem;
    destruct (Hc i ltac:(lia)) as [->|[->| ->]], (Hc j ltac:(lia)) as [->|[->| ->]]; try lia; vm_compute; congruence.
Defined.
