(* ===== verification/Dlist.v ===== *)
(** * Dlist: intrusive doubly linked lists ([include/list.h])

    The nodes live in a store from addresses to their [next] and [prev] fields; 0 is NULL. *)

From stdpp Require Import base numbers list gmap.
From Stdlib Require Import ZArith Lia.
From S2P Require Import Prelude.

Record node := Node { n_next : Z; n_prev : Z }.
Notation store := (gmap Z node).

Definition node_at (s : store) (p : Z) : node := default (Node 0 0) (s !! p).
Definition next (s : store) (p : Z) : Z := n_next (node_at s p).
Definition prev (s : store) (p : Z) : Z := n_prev (node_at s p).
Definition set_next (s : store) (p x : Z) : store := <[p := Node x (prev s p)]> s.
Definition set_prev (s : store) (p x : Z) : store := <[p := Node (next s p) x]> s.

Definition list_init (s : store) (l : Z) : store := set_prev (set_next s l l) l l.
Definition list_is_null (s : store) (l : Z) : bool := next s l =? 0.
Definition list_set_null (s : store) (l : Z) : store := set_prev (set_next s l 0) l 0.
Definition list_is_head (head iterator : Z) : bool := iterator =? head.
Definition list_next (s : store) (iterator : Z) : Z := next s iterator.
Definition list_prev (s : store) (iterator : Z) : Z := prev s iterator.

Definition list_insert_head (s : store) (l entry : Z) : store :=
  let s := set_next s entry (next s l) in
  let s := set_prev s entry l in
  let s := set_prev s (next s l) entry in
  set_next s l entry.

Definition list_insert_tail (s : store) (l entry : Z) : store :=
  let s := set_next s entry l in
  let s := set_prev s entry (prev s l) in
  let s := set_next s (prev s l) entry in
  set_prev s l entry.

Definition list_empty (s : store) (l : Z) : bool := l =? next s l.
Definition list_head (s : store) (l : Z) : Z := next s l.
Definition list_tail (s : store) (l : Z) : Z := prev s l.

Definition list_remove (s : store) (entry : Z) : store :=
  let s := set_prev s (next s entry) (prev s entry) in
  set_next s (prev s entry) (next s entry).

Definition list_pop_head (s : store) (l : Z) : store * Z := let e := list_head s l in (list_remove s e, e).
Definition list_pop_tail (s : store) (l : Z) : store * Z := let e := list_tail s l in (list_remove s e, e).
Definition list_make_first (s : store) (l entry : Z) : store := list_insert_head (list_remove s entry) l entry.
Definition list_make_last (s : store) (l entry : Z) : store := list_insert_tail (list_remove s entry) l entry.

(** [LIST_FOR_EACH]: the addresses visited. *)
Fixpoint for_each (fuel : nat) (s : store) (head it : Z) : option (list Z) :=
  if it =? head then Some []
  else match fuel with
       | O => None
       | S f => l ← for_each f s head (next s it); Some (it :: l)
       end.
Definition LIST_FOR_EACH (fuel : nat) (s : store) (head : Z) : option (list Z) := for_each fuel s head (next s head).

(** ** The abstract list *)

(** [seg s a xs b]: following [next] from [a] leads through [xs] to [b], and [prev] back. *)
Fixpoint seg (s : store) (a : Z) (xs : list Z) (b : Z) : Prop :=
  match xs with
  | [] => next s a = b /\ prev s b = a
  | x :: xs => next s a = x /\ prev s x = a /\ seg s x xs b
  end.

(** The list with head [h] holds the nodes [xs]. *)
Definition is_list (s : store) (h : Z) (xs : list Z) : Prop := NoDup (h :: xs) /\ seg s h xs h.

Lemma next_set_next s p x q : next (set_next s p x) q = if p =? q then x else next s q.
Proof.
  unfold next, node_at, set_next. zcase; subst; [by rewrite lookup_insert_eq|by rewrite lookup_insert_ne].
Qed.
Lemma prev_set_next s p x q : prev (set_next s p x) q = prev s q.
Proof.
  unfold prev at 1, node_at, set_next. destruct (Z.eq_dec p q) as [->|]; [by rewrite lookup_insert_eq|by rewrite lookup_insert_ne].
Qed.
Lemma next_set_prev s p x q : next (set_prev s p x) q = next s q.
Proof.
  unfold next at 1, node_at, set_prev. destruct (Z.eq_dec p q) as [->|]; [by rewrite lookup_insert_eq|by rewrite lookup_insert_ne].
Qed.
Lemma prev_set_prev s p x q : prev (set_prev s p x) q = if p =? q then x else prev s q.
Proof.
  unfold prev, node_at, set_prev. zcase; subst; [by rewrite lookup_insert_eq|by rewrite lookup_insert_ne].
Qed.

Create HintDb dlist.
#[export] Hint Rewrite next_set_next prev_set_next next_set_prev prev_set_prev : dlist.

(** Only the [next] of all but the last and the [prev] of all but the first node matter. *)
Lemma seg_ext s s' xs : forall a b,
  (forall p, p ∈ a :: xs -> next s' p = next s p) -> (forall p, p ∈ b :: xs -> prev s' p = prev s p) ->
  seg s a xs b -> seg s' a xs b.
Proof.
  induction xs as [|x xs IH]; cbn [seg]; intros a b Hn Hp.
  - rewrite (Hn a), (Hp b) by (by left). done.
  - intros (Hx & Hpx & Hs). rewrite (Hn a), (Hp x) by first [by left | right; by left].
    split; [done|]. split; [done|]. apply IH; [|intros p [->|Hpi]%elem_of_cons|done].
    + intros p Hpi. apply Hn. by right.
    + apply Hp. by left.
    + apply Hp. right. by right.
Qed.

Lemma seg_app s xs y ys : forall a b, seg s a (xs ++ y :: ys) b <-> seg s a xs y /\ seg s y ys b.
Proof.
  induction xs as [|x xs IH]; intros a b; cbn; [tauto|]. rewrite IH. tauto.
Qed.

Lemma seg_last s xs : forall a b, seg s a xs b -> prev s b = default a (last xs) /\ next s (default a (last xs)) = b.
Proof.
  induction xs as [|x xs IH]; intros a b; cbn [seg]; [tauto|]. intros (_ & _ & Hs). rewrite last_cons.
  destruct (IH x b Hs). by destruct (last xs).
Qed.

Lemma list_init_spec s h : is_list (list_init s h) h [].
Proof.
  split; [apply NoDup_singleton|]. cbn. unfold list_init. autorewrite with dlist. by rewrite Z.eqb_refl.
Qed.

(** Simplifies reads after the writes of an operation, deciding equalities of addresses. *)
Ltac links := repeat (autorewrite with dlist in *; match goal with
  | |- context [?a =? ?b] =>
      lazymatch a with context [Z.eqb] => fail | _ => idtac end;
      lazymatch b with context [Z.eqb] => fail | _ => idtac end;
      first [rewrite (Z.eqb_refl a) | rewrite (proj2 (Z.eqb_neq a b)) by congruence
            | destruct (Z.eqb_spec a b); try congruence]
  | _ => progress autorewrite with dlist
  end); try congruence; auto.

(** The state after [e] was linked between the neighbours [a] and [b]. *)
Record linked (s s' : store) (a e b : Z) : Prop := {
  linked_ae : next s' a = e /\ prev s' e = a;
  linked_eb : next s' e = b /\ prev s' b = e;
  linked_next : forall p, p <> a -> p <> e -> next s' p = next s p;
  linked_prev : forall p, p <> b -> p <> e -> prev s' p = prev s p;
}.

(** The state after what was between [a] and [b] was unlinked. *)
Record unlinked (s s' : store) (a b : Z) : Prop := {
  unlinked_ab : next s' a = b /\ prev s' b = a;
  unlinked_next : forall p, p <> a -> next s' p = next s p;
  unlinked_prev : forall p, p <> b -> prev s' p = prev s p;
}.

Lemma seg_split s xs ys : forall a b,
  seg s a (xs ++ ys) b <-> seg s a xs (default b (head ys)) /\ seg s (default a (last xs)) ys b.
Proof.
  induction xs as [|x xs IH]; intros a b; cbn [app seg].
  - cbn. destruct ys as [|y ys]; cbn; tauto.
  - rewrite IH, last_cons. destruct (last xs); cbn; tauto.
Qed.

Lemma relink_end s s' xs z : forall a y, NoDup (a :: xs) ->
  (forall p, p ∈ a :: xs -> p <> default a (last xs) -> next s' p = next s p) ->
  (forall p, p ∈ xs -> prev s' p = prev s p) ->
  next s' (default a (last xs)) = z -> prev s' z = default a (last xs) -> seg s a xs y -> seg s' a xs z.
Proof.
  induction xs as [|x xs IH]; intros a y Hnd Hn Hp Hz Hpz Hs; cbn [seg] in *; [by cbn in *|].
  destruct Hs as (Hx & Hpx & Hs). rewrite last_cons in Hn, Hz, Hpz. apply NoDup_cons in Hnd as [Ha Hnd].
  assert (Hlast : default x (last xs) ∈ x :: xs).
  { destruct (last xs) as [l|] eqn:E; cbn; [|by left]. right. by apply last_Some_elem_of in E. }
  assert (Hd : default a (match last xs with Some y => Some y | None => Some x end) = default x (last xs)) by (by destruct (last xs)).
  rewrite Hd in *. rewrite Hn, Hp; [|by left|by left|intros ->; by apply Ha].
  split; [done|]. split; [done|]. eapply (IH x y); auto.
  - intros p Hpi. apply Hn. by right.
  - intros p Hpi. apply Hp. by right.
Qed.

Lemma relink_start s s' ys p q b :
  next s' q = default b (head ys) -> prev s' (default b (head ys)) = q ->
  (forall x, x ∈ ys -> next s' x = next s x) ->
  (forall x, x ∈ b :: ys -> x <> default b (head ys) -> prev s' x = prev s x) -> NoDup (b :: ys) ->
  seg s p ys b -> seg s' q ys b.
Proof.
  destruct ys as [|y ys]; cbn; intros Hq Hpq Hn Hp Hnd Hs; [done|]. destruct Hs as (_ & _ & Hs).
  apply NoDup_cons in Hnd as [Hb Hnd]. apply NoDup_cons in Hnd as [Hy _].
  split; [done|]. split; [done|]. eapply seg_ext; [done| |exact Hs].
  intros x Hx. apply Hp.
  - apply elem_of_cons in Hx as [->|Hx]; [by left|right; by right].
  - intros ->. apply elem_of_cons in Hx as [->|Hx]; [apply Hb; by left|done].
Qed.

Lemma head_in (h : Z) ys : default h (head ys) ∈ h :: ys.
Proof. destruct ys; cbn; [by left|right; by left]. Qed.
Lemma last_in (h : Z) xs : default h (last xs) ∈ h :: xs.
Proof. destruct (last xs) eqn:E; cbn; [right; by apply last_Some_elem_of in E|by left]. Qed.

Lemma nodup_split (h e : Z) xs ys : NoDup (h :: xs ++ e :: ys) ->
  NoDup (h :: xs) /\ NoDup (h :: ys) /\ NoDup (h :: xs ++ ys) /\ e ∉ h :: xs /\ e ∉ h :: ys
  /\ (forall p, p ∈ xs -> p ∉ h :: ys) /\ (forall p, p ∈ ys -> p ∉ h :: xs).
Proof.
  rewrite !NoDup_cons, !NoDup_app, NoDup_cons. setoid_rewrite elem_of_app. setoid_rewrite elem_of_cons.
  naive_solver.
Qed.

Lemma link_spec s s' h xs ys e :
  is_list s h (xs ++ ys) -> NoDup (h :: xs ++ e :: ys) ->
  linked s s' (default h (last xs)) e (default h (head ys)) -> is_list s' h (xs ++ e :: ys).
Proof.
  intros [_ Hs] Hnd [[L1 L2] [L3 L4] Ln Lp]. split; [done|]. apply seg_split in Hs as [Hs1 Hs2].
  destruct (nodup_split h e xs ys Hnd) as (N1 & N2 & _ & N4 & N5 & N6 & N7).
  apply seg_app. split.
  - eapply (relink_end s s' xs e h); eauto.
    + intros p Hp Hne. apply Ln; [done|]. intros ->. by apply N4.
    + intros p Hp. apply Lp; [|intros ->; apply N4; by right]. intros ->. apply (N6 _ Hp), head_in.
  - eapply (relink_start s s' ys _ e h); eauto.
    + intros p Hp. apply Ln; [|intros ->; apply N5; by right]. intros ->. apply (N7 _ Hp), last_in.
    + intros p Hp Hne. apply Lp; [done|]. intros ->. by apply N5.
Qed.

Lemma unlink_spec s s' h xs ys e :
  is_list s h (xs ++ e :: ys) -> unlinked s s' (default h (last xs)) (default h (head ys)) -> is_list s' h (xs ++ ys).
Proof.
  intros [Hnd Hs] [[L1 L2] Ln Lp]. destruct (nodup_split h e xs ys Hnd) as (N1 & N2 & N3 & N4 & N5 & N6 & N7).
  split; [done|]. apply seg_app in Hs as [Hs1 Hs2]. apply seg_split. split.
  - eapply (relink_end s s' xs _ h); eauto. intros p Hp. apply Lp. intros ->. apply (N6 _ Hp), head_in.
  - eapply (relink_start s s' ys e _ h); eauto. intros p Hp. apply Ln. intros ->. apply (N7 _ Hp), last_in.
Qed.

(** ** The operations *)

Lemma insert_head_linked s h e : next s h <> e -> h <> e -> linked s (list_insert_head s h e) h e (next s h).
Proof. intros H1 H2. unfold list_insert_head. cbv zeta. split; [split|split|..]; intros; links. Qed.

Lemma insert_tail_linked s h e : prev s h <> e -> h <> e -> linked s (list_insert_tail s h e) (prev s h) e h.
Proof. intros H1 H2. unfold list_insert_tail. cbv zeta. split; [split|split|..]; intros; links. Qed.

Lemma remove_unlinked s e : next s e <> e -> prev s e <> e -> unlinked s (list_remove s e) (prev s e) (next s e).
Proof. intros H1 H2. unfold list_remove. cbv zeta. split; [split|..]; intros; links. Qed.

Lemma seg_ends s h xs : seg s h xs h -> next s h = default h (head xs) /\ prev s h = default h (last xs).
Proof.
  intros Hs. split; [|by apply seg_last in Hs as [? _]]. destruct xs; cbn in *; tauto.
Qed.

Lemma insert_head_spec s h xs e : is_list s h xs -> e ∉ h :: xs -> is_list (list_insert_head s h e) h (e :: xs).
Proof.
  intros Hl He. pose proof Hl as [Hnd Hs]. destruct (seg_ends s h xs Hs) as [Hn _].
  apply (link_spec s _ h [] xs e Hl).
  - apply not_elem_of_cons in He as [Heh Hex]. apply NoDup_cons in Hnd as [Hh Hnd]. cbn.
    apply NoDup_cons; split; [intros [->|?]%elem_of_cons; done|]. by apply NoDup_cons.
  - cbn. rewrite <- Hn. apply insert_head_linked; intros E; apply He; [rewrite <- E, Hn; apply head_in|subst; by left].
Qed.

Lemma insert_tail_spec s h xs e : is_list s h xs -> e ∉ h :: xs -> is_list (list_insert_tail s h e) h (xs ++ [e]).
Proof.
  intros Hl He. pose proof Hl as [Hnd Hs]. destruct (seg_ends s h xs Hs) as [_ Hp].
  apply (link_spec s _ h xs [] e); [by rewrite app_nil_r| |].
  - rewrite <- Permutation_middle, app_nil_r. rewrite Permutation_swap. by apply NoDup_cons.
  - cbn. rewrite <- Hp. apply insert_tail_linked; intros E; apply He; [rewrite <- E, Hp; apply last_in|subst; by left].
Qed.

Lemma dlist_remove_spec s h xs e ys : is_list s h (xs ++ e :: ys) -> is_list (list_remove s e) h (xs ++ ys).
Proof.
  intros Hl. pose proof Hl as [Hnd Hs]. destruct (nodup_split h e xs ys Hnd) as (_ & _ & _ & N4 & N5 & _).
  apply seg_app in Hs as [Hs1 Hs2].
  assert (Hp : prev s e = default h (last xs)) by (by apply seg_last in Hs1 as [? _]).
  assert (Hn : next s e = default h (head ys)) by (destruct ys; cbn in *; tauto).
  eapply unlink_spec; [exact Hl|]. rewrite <- Hp, <- Hn.
  apply remove_unlinked; intros E; [apply N5; rewrite <- E, Hn; apply head_in|apply N4; rewrite <- E, Hp; apply last_in].
Qed.

Lemma for_each_spec s h xs : forall a, h ∉ xs -> seg s a xs h -> for_each (length xs) s h (next s a) = Some xs.
Proof.
  induction xs as [|x xs IH]; intros a Hh Hs; cbn [seg length] in *.
  - destruct Hs as [-> _]. cbn. by rewrite Z.eqb_refl.
  - destruct Hs as (-> & _ & Hs). cbn [for_each]. destruct (Z.eqb_spec x h) as [->|_]; [exfalso; apply Hh; by left|].
    rewrite (IH x); [done| |done]. intros Hin. apply Hh. by right.
Qed.

(** On a well-formed circular list with nodes [xs], inserting a fresh entry at the head or
    the tail, removing any entry, and moving an entry to either end keep the list well formed
    and have the effect of the corresponding list operation. *)
Theorem list_ops_correct (s : store) (h e : Z) (xs ys : list Z)
  (Hlist : is_list s h (xs ++ ys)) (Hfresh : e ∉ h :: xs ++ ys) :
  is_list (list_insert_head s h e) h (e :: xs ++ ys)
  /\ is_list (list_insert_tail s h e) h ((xs ++ ys) ++ [e])
  /\ forall s2, is_list s2 h (xs ++ e :: ys) ->
       is_list (list_remove s2 e) h (xs ++ ys)
       /\ is_list (list_make_first s2 h e) h (e :: xs ++ ys)
       /\ is_list (list_make_last s2 h e) h ((xs ++ ys) ++ [e]).
Proof.
  split; [by apply insert_head_spec|]. split; [by apply insert_tail_spec|]. intros s2 H2.
  pose proof (dlist_remove_spec s2 h xs e ys H2) as Hr. split; [done|].
  split; [by apply insert_head_spec|by apply insert_tail_spec].
Qed.

Definition dlist_demo : store := list_insert_tail (list_insert_tail (list_init ∅ 1) 1 2) 1 3.

Lemma dlist_demo_ok : is_list dlist_demo 1 [2; 3].
Proof.
  apply (insert_tail_spec _ 1 [2] 3); [apply (insert_tail_spec _ 1 [] 2); [apply list_init_spec|]|];
    rewrite ?elem_of_cons, elem_of_nil; lia.
Qed.

Lemma list_ops_correct_witness :
  is_list (list_insert_head dlist_demo 1 4) 1 [4; 2; 3] /\ is_list (list_insert_tail dlist_demo 1 4) 1 [2; 3; 4].
Proof.
  destruct (list_ops_correct dlist_demo 1 4 [2] [3] dlist_demo_ok) as (H1 & H2 & _); [|by split].
  cbn. rewrite !elem_of_cons, elem_of_nil. lia.
Defined.

(** [list_pop_head] and [list_pop_tail] of a non-empty list return its first and its last
    node and remove exactly that node, and [LIST_FOR_EACH] visits all nodes in order. *)
Theorem list_pop_and_iterate (s : store) (h x : Z) (xs : list Z) :
  (is_list s h (x :: xs) -> snd (list_pop_head s h) = x /\ is_list (fst (list_pop_head s h)) h xs)
  /\ (is_list s h (xs ++ [x]) -> snd (list_pop_tail s h) = x /\ is_list (fst (list_pop_tail s h)) h xs)
  /\ (is_list s h xs -> LIST_FOR_EACH (length xs) s h = Some xs /\ list_empty s h = bool_decide (xs = [])).
Proof.
  split; [|split].
  - intros Hl. pose proof Hl as [_ (Hn & _)]. unfold list_pop_head, list_head. cbn. rewrite Hn. split; [done|].
    by apply (dlist_remove_spec s h [] x xs).
  - intros Hl. pose proof Hl as [_ Hs]. apply seg_last in Hs as [Hp _]. rewrite last_snoc in Hp.
    unfold list_pop_tail, list_tail. cbn. cbn in Hp. rewrite Hp. split; [done|].
    pose proof (dlist_remove_spec s h xs x [] Hl) as Hr. by rewrite app_nil_r in Hr.
  - intros [Hnd Hs]. apply NoDup_cons in Hnd as [Hh Hnd]. split; [by apply for_each_spec|].
    destruct (seg_ends s h xs Hs) as [Hn _]. unfold list_empty. rewrite Hn. destruct xs as [|y ys]; cbn.
    + by rewrite Z.eqb_refl.
    + destruct (Z.eqb_spec h y) as [->|]; [exfalso; apply Hh; by left|done].
Qed.

Lemma list_pop_and_iterate_witness :
  snd (list_pop_head dlist_demo 1) = 2 /\ is_list (fst (list_pop_head dlist_demo 1)) 1 [3]
  /\ LIST_FOR_EACH 2 dlist_demo 1 = Some [2; 3].
Proof.
  destruct (list_pop_and_iterate dlist_demo 1 2 [3]) as (H1 & _ & _).
  destruct (list_pop_and_iterate dlist_demo 1 0 [2; 3]) as (_ & _ & H3).
  destruct (H1 dlist_demo_ok). destruct (H3 dlist_demo_ok). auto.
Defined.

(** * Several intrusive lists in one store

    [Dlist.v] describes one list of [include/list.h].  The nodes of the library's lists are
    fields of larger objects and move from one list to another; here are the lists that share
    a store, and what the operations on one of them do to all. *)

(** ** What an operation leaves alone *)

Lemma is_list_ext s s' h xs : (forall p, p ∈ h :: xs -> next s' p = next s p /\ prev s' p = prev s p) -> is_list s h xs -> is_list s' h xs.
Proof. intros Hp [Hnd Hs]. split; [done|]. eapply seg_ext; [| |exact Hs]; intros p Hin; by apply Hp. Qed.

Lemma list_init_frame s l p : p <> l -> next (list_init s l) p = next s p /\ prev (list_init s l) p = prev s p.
Proof. intros Hp. unfold list_init. split; links. Qed.

Lemma insert_tail_frame s l xs e p : is_list s l xs -> p <> e -> p ∉ l :: xs ->
  next (list_insert_tail s l e) p = next s p /\ prev (list_insert_tail s l e) p = prev s p.
Proof.
  intros [_ Hs] Hp Hl. destruct (seg_ends s l xs Hs) as [_ Hpr]. apply not_elem_of_cons in Hl as Hl'. destruct Hl' as [Hne _].
  assert (Hq : p <> prev s l) by (intros ->; apply Hl; rewrite Hpr; apply last_in).
  unfold list_insert_tail. split; links.
Qed.

Lemma remove_frame s l xs e ys p : is_list s l (xs ++ e :: ys) -> p ∉ l :: xs ++ e :: ys ->
  next (list_remove s e) p = next s p /\ prev (list_remove s e) p = prev s p.
Proof.
  intros [Hnd Hs] Hp. apply seg_app in Hs as [Hs1 Hs2].
  assert (Hpr : prev s e = default l (last xs)) by (by apply seg_last in Hs1 as [? _]).
  assert (Hn : next s e = default l (head ys)) by (destruct ys; cbn in *; tauto).
  assert (H1 : p <> prev s e) by (intros ->; apply Hp; rewrite Hpr; pose proof (last_in l xs); set_solver).
  assert (H2 : p <> next s e) by (intros ->; apply Hp; rewrite Hn; pose proof (head_in l ys); set_solver).
  unfold list_remove. split; links.
Qed.

(** ** The lists of a store *)

Section Lists.
Context {I : Type} `{Countable I}.

(** Each list by a name, with its head and its nodes; no address is in two lists. *)
Record lists (s : store) (G : gmap I (Z * list Z)) : Prop := {
  ls_list : forall i h xs, G !! i = Some (h, xs) -> is_list s h xs;
  ls_apart : forall i j h xs h' xs' p, G !! i = Some (h, xs) -> G !! j = Some (h', xs') -> p ∈ h :: xs -> p ∈ h' :: xs' -> i = j;
}.

(** An address that is neither a head nor a node of a list. *)
Definition unused (G : gmap I (Z * list Z)) (p : Z) : Prop := forall i h xs, G !! i = Some (h, xs) -> p ∉ h :: xs.

Lemma ls_other s G i j h xs h' xs' p : lists s G -> i <> j -> G !! i = Some (h, xs) -> G !! j = Some (h', xs') -> p ∈ h' :: xs' -> p ∉ h :: xs.
Proof. intros Hl Hij Hi Hj Hp Hin. apply Hij. by eapply (ls_apart s G Hl). Qed.

(** One list is replaced; the others are neither changed nor touched. *)
Lemma lists_update s s' G i h xs : lists s G -> is_list s' h xs ->
  (forall j h' xs', j <> i -> G !! j = Some (h', xs') -> forall p, p ∈ h' :: xs' -> p ∉ h :: xs /\ next s' p = next s p /\ prev s' p = prev s p) ->
  lists s' (<[i := (h, xs)]> G).
Proof.
  intros Hl Hi Ho. split.
  - intros j h' xs' Hj. apply lookup_insert_Some in Hj as [[-> [= <- <-]]|[Hne Hj]]; [done|].
    eapply is_list_ext; [|by eapply (ls_list s G Hl)]. intros p Hp. by eapply (Ho j).
  - intros j k h1 xs1 h2 xs2 p Hj Hk Hp1 Hp2. apply lookup_insert_Some in Hj as [[Ej E1]|[Hnj Hj]], Hk as [[Ek E2]|[Hnk Hk]]; simplify_eq; [done| | |by eapply (ls_apart s G Hl)].
    + exfalso. by destruct (Ho k h2 xs2 ltac:(done) Hk p Hp2) as [? _].
    + exfalso. by destruct (Ho j h1 xs1 ltac:(done) Hj p Hp1) as [? _].
Qed.

Lemma lists_init s G i h : lists s G -> unused G h -> lists (list_init s h) (<[i := (h, [])]> G).
Proof.
  intros Hl Hu. apply (lists_update s); [done|apply list_init_spec|]. intros j h' xs' _ Hj p Hp.
  assert (p <> h) by (intros ->; by apply (Hu j h' xs' Hj)). split; [set_solver|by apply list_init_frame].
Qed.

Lemma lists_insert_tail s G i h xs e : lists s G -> G !! i = Some (h, xs) -> unused G e ->
  lists (list_insert_tail s h e) (<[i := (h, xs ++ [e])]> G).
Proof.
  intros Hl Hi Hu. pose proof (ls_list s G Hl i h xs Hi) as Hlist. apply (lists_update s); [done|apply insert_tail_spec; [done|by apply (Hu i)]|].
  intros j h' xs' Hne Hj p Hp. pose proof (ls_other s G i j h xs h' xs' p Hl ltac:(done) Hi Hj Hp) as Hn.
  assert (p <> e) by (intros ->; by apply (Hu j h' xs' Hj)). split; [|by eapply insert_tail_frame].
  rewrite elem_of_cons, elem_of_app, elem_of_cons in *. rewrite elem_of_nil. tauto.
Qed.

Lemma lists_remove s G i h xs e ys : lists s G -> G !! i = Some (h, xs ++ e :: ys) -> lists (list_remove s e) (<[i := (h, xs ++ ys)]> G).
Proof.
  intros Hl Hi. pose proof (ls_list s G Hl i _ _ Hi) as Hlist. apply (lists_update s); [done|by apply dlist_remove_spec|].
  intros j h' xs' Hne Hj p Hp. pose proof (ls_other s G i j h _ h' xs' p Hl ltac:(done) Hi Hj Hp) as Hn.
  split; [|by eapply remove_frame]. rewrite elem_of_cons, elem_of_app, ?elem_of_cons in *. tauto.
Qed.

(** What a list looks like from outside. *)
Lemma ls_empty s G i h xs : lists s G -> G !! i = Some (h, xs) -> list_empty s h = bool_decide (xs = []).
Proof.
  intros Hl Hi. destruct (ls_list s G Hl i h xs Hi) as [Hnd Hs]. destruct (seg_ends s h xs Hs) as [Hn _]. unfold list_empty. rewrite Hn.
  destruct xs as [|x xs]; cbn; [apply Z.eqb_refl|]. apply NoDup_cons in Hnd as [Hh _]. apply Z.eqb_neq. set_solver.
Qed.
Lemma ls_head s G i h x xs : lists s G -> G !! i = Some (h, x :: xs) -> list_head s h = x.
Proof. intros Hl Hi. destruct (ls_list s G Hl i h _ Hi) as [_ Hs]. by destruct (seg_ends s h _ Hs) as [Hn _]. Qed.
Lemma ls_tail s G i h xs x : lists s G -> G !! i = Some (h, xs ++ [x]) -> list_tail s h = x.
Proof. intros Hl Hi. destruct (ls_list s G Hl i h _ Hi) as [_ Hs]. destruct (seg_ends s h _ Hs) as [_ Hp]. unfold list_tail. by rewrite Hp, last_snoc. Qed.

Lemma lists_pop_head s G i h x xs : lists s G -> G !! i = Some (h, x :: xs) ->
  exists s', list_pop_head s h = (s', x) /\ lists s' (<[i := (h, xs)]> G).
Proof.
  intros Hl Hi. exists (list_remove s x). unfold list_pop_head. rewrite (ls_head s G i h x xs Hl Hi). split; [done|]. by apply (lists_remove s G i h [] x xs).
Qed.
Lemma lists_pop_tail s G i h xs x : lists s G -> G !! i = Some (h, xs ++ [x]) ->
  exists s', list_pop_tail s h = (s', x) /\ lists s' (<[i := (h, xs)]> G).
Proof.
  intros Hl Hi. exists (list_remove s x). unfold list_pop_tail. rewrite (ls_tail s G i h xs x Hl Hi). split; [done|].
  pose proof (lists_remove s G i h xs x [] Hl Hi) as Hr. by rewrite app_nil_r in Hr.
Qed.

(** A node is once in its list. *)
Lemma ls_nodup s G i h xs : lists s G -> G !! i = Some (h, xs) -> NoDup (h :: xs).
Proof. intros Hl Hi. by destruct (ls_list s G Hl i h xs Hi). Qed.
End Lists.
