(* ===== verification/TimeoutHandler.v ===== *)
(** * TimeoutHandler: closing idle connections
    ([include/timeout_handler.h], [src/timeout_handler.c], [src/_timeout_handler.c])

    The descriptors that wait for their peer are on a chain in the order in which they were
    added, each with the time at which it was added; one timer wakes up the handler.  The
    handler shuts down the descriptors that have waited for [timeout] milliseconds and arms the
    timer for the next one.  The chain is the circular list of [Dlist.v], here the sequence of
    its nodes.  The timer, the clock and the calls of the other components are the steps of a
    transition system, in which the handler runs at most [latency] microseconds after the timer has
    expired.  One clock stands for both that of [gettimeofday] and that of the timer
    ([CLOCK_MONOTONIC]), so nothing is said of a system whose time of day is set while it runs. *)

From stdpp Require Import base numbers list gmap.
From Stdlib Require Import ZArith Lia Sorted.
From S2P Require Import Prelude.

(** ** Times ([struct timeval], [timersub] and [timercmp] of <sys/time.h>) *)

Record timeval := Timeval { tv_sec : Z; tv_usec : Z }.
#[export] Instance timeval_eq_dec : EqDecision timeval.
Proof. solve_decision. Defined.

Definition epoch : timeval := Timeval 0 0.

Definition timersub (a b : timeval) : timeval :=
  let sec := tv_sec a - tv_sec b in
  let usec := tv_usec a - tv_usec b in
  if usec <? 0 then Timeval (sec - 1) (usec + 1000000) else Timeval sec usec.

Definition timer_gt (a b : timeval) : bool :=
  if tv_sec a =? tv_sec b then tv_usec a >? tv_usec b else tv_sec a >? tv_sec b.
Definition timer_ne (a b : timeval) : bool := negb (tv_sec a =? tv_sec b) || negb (tv_usec a =? tv_usec b).

(** [it_value] of a [struct itimerspec] with [it_interval] zero. *)
Record timespec := Timespec { ts_sec : Z; ts_nsec : Z }.

(** ** The handler *)

Record timeout_handler := TimeoutHandler {
  timeout : Z;                          (* milliseconds *)
  timeout_chain : list Z;               (* the descriptors, first to last *)
  timestamps : gmap Z timeval;          (* epoll_worker_fd_map[fd].timestamp *)
}.

Definition timestamp (h : timeout_handler) (fd : Z) : timeval := default epoch (timestamps h !! fd).

Definition timeout_handler_init (timeout_ms : Z) : timeout_handler := TimeoutHandler timeout_ms [] ∅.

(** The second result is the argument of [timerfd_settime], if it is called. *)
Definition timeout_handler_add_fd_data (h : timeout_handler) (now : timeval) (fd : Z) : timeout_handler * option timespec :=
  let arm := match timeout_chain h with
             | [] => Some (Timespec (timeout h / 1000) (timeout h mod 1000 * 1000000))
             | _ => None
             end in
  (TimeoutHandler (timeout h) (timeout_chain h ++ [fd]) (<[fd := now]> (timestamps h)), arm).

Definition TIMEOUT_HANDLER_REMOVE_FD_DATA (h : timeout_handler) (fd : Z) : timeout_handler :=
  TimeoutHandler (timeout h) (filter (fun x => x <> fd) (timeout_chain h)) (timestamps h).

(** The [LIST_FOR_EACH] of the handler: the time stamps afterwards, the descriptors shut down, and the
    time until the first descriptor that has not waited long enough. *)
Fixpoint expire_loop (ts : timeval) (chain : list Z) (stamps : gmap Z timeval) : gmap Z timeval * list Z * option timespec :=
  match chain with
  | [] => (stamps, [], None)
  | fd :: chain =>
      let stamp := default epoch (stamps !! fd) in
      if negb (timer_ne stamp epoch) then expire_loop ts chain stamps
      else if timer_gt stamp ts then
        let now := timersub stamp ts in (stamps, [], Some (Timespec (tv_sec now) (tv_usec now * 1000)))
      else
        let '(stamps, shut, arm) := expire_loop ts chain (<[fd := epoch]> stamps) in (stamps, fd :: shut, arm)
  end.

(** One round of the loop after the timer was read: the descriptors shut down, and how the
    timer is armed. *)
Definition expiration_handler (h : timeout_handler) (now : timeval) : timeout_handler * list Z * option timespec :=
  let when := Timeval (timeout h / 1000) (timeout h mod 1000 * 1000) in
  match timeout_chain h with
  | [] => (h, [], None)
  | _ =>
      let ts := timersub now when in
      let '(stamps, shut, arm) := expire_loop ts (timeout_chain h) (timestamps h) in
      let arm := match arm with Some a => Some a | None => Some (Timespec (tv_sec when) (tv_usec when * 1000)) end in
      (TimeoutHandler (timeout h) (timeout_chain h) stamps, shut, arm)
  end.

(** ** Times as numbers of microseconds *)

Definition usecs (t : timeval) : Z := tv_sec t * 1000000 + tv_usec t.
Definition normal (t : timeval) : Prop := 0 <= tv_usec t < 1000000.
Definition spec_usecs (t : timespec) : Z := ts_sec t * 1000000 + ts_nsec t / 1000.

Lemma timersub_spec a b : normal a -> normal b -> normal (timersub a b) /\ usecs (timersub a b) = usecs a - usecs b.
Proof. unfold normal, timersub, usecs. intros Ha Hb. zcase; cbn; lia. Qed.

Lemma timer_gt_spec a b : normal a -> normal b -> timer_gt a b = (usecs a >? usecs b).
Proof.
  unfold normal, timer_gt, usecs. intros Ha Hb. rewrite !Z.gtb_ltb.
  destruct (Z.eqb_spec (tv_sec a) (tv_sec b)); apply eq_true_iff_eq; rewrite !Z.ltb_lt; lia.
Qed.

Lemma timer_ne_epoch t : normal t -> timer_ne t epoch = negb (usecs t =? 0).
Proof.
  unfold normal, timer_ne, usecs, epoch. intros Ht. cbn [tv_sec tv_usec].
  destruct (Z.eqb_spec (tv_sec t) 0), (Z.eqb_spec (tv_usec t) 0), (Z.eqb_spec (tv_sec t * 1000000 + tv_usec t) 0); cbn; auto; lia.
Qed.

Lemma spec_of_timeval t : spec_usecs (Timespec (tv_sec t) (tv_usec t * 1000)) = usecs t.
Proof. unfold spec_usecs, usecs. cbn. by rewrite Z.div_mul. Qed.

Lemma when_spec ms : 0 <= ms -> normal (Timeval (ms / 1000) (ms mod 1000 * 1000)) /\ usecs (Timeval (ms / 1000) (ms mod 1000 * 1000)) = ms * 1000.
Proof.
  intros H. unfold normal, usecs. cbn [tv_sec tv_usec]. pose proof (Z.mod_pos_bound ms 1000 ltac:(lia)).
  pose proof (Z.div_mod ms 1000 ltac:(lia)). lia.
Qed.

Lemma add_arm_spec ms : 0 <= ms -> spec_usecs (Timespec (ms / 1000) (ms mod 1000 * 1000000)) = ms * 1000.
Proof.
  intros H. unfold spec_usecs. cbn [ts_sec ts_nsec]. replace (ms mod 1000 * 1000000) with (ms mod 1000 * 1000 * 1000) by lia.
  rewrite Z.div_mul by lia. pose proof (Z.div_mod ms 1000 ltac:(lia)). lia.
Qed.

(** ** The system *)

Record system := System {
  sys_now : timeval;                    (* gettimeofday *)
  sys_timer : option Z;                 (* the time at which the timer expires, in microseconds; None is disarmed *)
  sys_handler : timeout_handler;
}.

Definition stamp_us (s : system) (fd : Z) : Z := usecs (timestamp (sys_handler s) fd).

(** [timerfd_settime(fd, 0, arm, NULL)]; a zero time disarms. *)
Definition settime (now : timeval) (timer : option Z) (arm : option timespec) : option Z :=
  match arm with
  | None => timer
  | Some a => if spec_usecs a =? 0 then None else Some (usecs now + spec_usecs a)
  end.

Inductive th_event := Wait (t : timeval) | Add (fd : Z) | Remove (fd : Z) | Expire (shut : list Z).

Section System.
Context (latency : Z).

Inductive step : system -> th_event -> system -> Prop :=
  | step_wait s t :
      normal t -> usecs (sys_now s) <= usecs t ->
      (forall e, sys_timer s = Some e -> usecs t <= e + latency) ->
      step s (Wait t) (System t (sys_timer s) (sys_handler s))
  | step_add s fd h arm :
      fd ∉ timeout_chain (sys_handler s) ->
      timeout_handler_add_fd_data (sys_handler s) (sys_now s) fd = (h, arm) ->
      step s (Add fd) (System (sys_now s) (settime (sys_now s) (sys_timer s) arm) h)
  | step_remove s fd :
      step s (Remove fd) (System (sys_now s) (sys_timer s) (TIMEOUT_HANDLER_REMOVE_FD_DATA (sys_handler s) fd))
  | step_expire s e h shut arm :
      sys_timer s = Some e -> e <= usecs (sys_now s) ->
      expiration_handler (sys_handler s) (sys_now s) = (h, shut, arm) ->
      step s (Expire shut) (System (sys_now s) (settime (sys_now s) None arm) h).

Inductive steps : system -> list th_event -> system -> Prop :=
  | steps_nil s : steps s [] s
  | steps_cons s ev s' l s'' : step s ev s' -> steps s' l s'' -> steps s (ev :: l) s''.

(** A descriptor that waits: on the chain and not shut down. *)
Definition waiting (s : system) (fd : Z) : Prop := fd ∈ timeout_chain (sys_handler s) /\ stamp_us s fd <> 0.

Definition initial (s : system) (ms : Z) : Prop :=
  normal (sys_now s) /\ 0 < usecs (sys_now s) /\ sys_timer s = None /\ sys_handler s = timeout_handler_init ms.
End System.

(** ** The handler's round *)

(** Descriptors that wait are on the chain in the order of their time stamps. *)
Definition stamps_ordered (st : Z -> Z) (chain : list Z) : Prop :=
  StronglySorted (fun a b => st a <> 0 -> st b <> 0 -> st a <= st b) chain.

Lemma ordered_ext st st' chain :
  (forall fd, fd ∈ chain -> st' fd = 0 \/ st' fd = st fd) -> stamps_ordered st chain -> stamps_ordered st' chain.
Proof.
  unfold stamps_ordered. intros Hst. induction 1 as [|a l Hs IH Ha]; [constructor|]. constructor.
  - apply IH. intros fd Hfd. apply Hst. by right.
  - rewrite Forall_forall in Ha |- *. intros b Hb H1 H2. destruct (Hst a ltac:(by left)) as [?|Ea]; [done|].
    destruct (Hst b ltac:(by right)) as [?|Eb]; [done|]. rewrite Ea, Eb in *. by apply Ha.
Qed.

Lemma ordered_filter st P `{!forall x, Decision (P x)} chain : stamps_ordered st chain -> stamps_ordered st (filter P chain).
Proof.
  unfold stamps_ordered. induction 1 as [|a l Hs IH Ha]; [constructor|]. rewrite filter_cons. case_decide; [|done].
  constructor; [done|]. rewrite Forall_forall in Ha |- *. intros b [_ Hb]%list_elem_of_filter. by apply Ha.
Qed.

Lemma ordered_snoc st chain x : stamps_ordered st chain -> (forall a, a ∈ chain -> st a <= st x) -> stamps_ordered st (chain ++ [x]).
Proof.
  unfold stamps_ordered. induction 1 as [|a l Hs IH Ha]; intros Hx; cbn; [by repeat constructor|]. constructor.
  - apply IH. intros b Hb. apply Hx. by right.
  - apply Forall_app. split; [done|]. apply Forall_singleton. intros _ _. apply Hx. by left.
Qed.

Section Round.
Context (ts : timeval) (Hts : normal ts).

Definition stamp_of (stamps : gmap Z timeval) (fd : Z) : Z := usecs (default epoch (stamps !! fd)).
Definition expired (stamps : gmap Z timeval) (fd : Z) : Prop := stamp_of stamps fd <> 0 /\ stamp_of stamps fd <= usecs ts.
#[export] Instance expired_dec stamps fd : Decision (expired stamps fd).
Proof. unfold expired. apply _. Defined.

(** What the loop does to a chain in order. *)
Record expire_result (chain : list Z) (stamps stamps' : gmap Z timeval) (shut : list Z) (arm : option timespec) : Prop := {
  er_shut : shut = filter (expired stamps) chain;
  er_stamps : forall fd, stamps' !! fd = if decide (fd ∈ shut) then Some epoch else stamps !! fd;
  er_arm : match arm with
           | None => forall fd, fd ∈ chain -> stamp_of stamps fd = 0 \/ expired stamps fd
           | Some a => exists fd, fd ∈ chain /\ usecs ts < stamp_of stamps fd /\ stamp_of stamps fd <> 0
               /\ spec_usecs a = stamp_of stamps fd - usecs ts
               /\ forall fd', fd' ∈ chain -> stamp_of stamps fd' = 0 \/ expired stamps fd' \/ stamp_of stamps fd <= stamp_of stamps fd'
           end;
}.

Lemma expire_loop_spec chain : forall stamps stamps' shut arm,
  NoDup chain -> (forall fd, fd ∈ chain -> normal (default epoch (stamps !! fd))) -> stamps_ordered (stamp_of stamps) chain ->
  expire_loop ts chain stamps = (stamps', shut, arm) -> expire_result chain stamps stamps' shut arm.
Proof using Hts.
  induction chain as [|fd chain IH]; intros stamps stamps' shut arm Hnd Hn Hord; cbn [expire_loop].
  { intros [= <- <- <-]. split; [done|done|]. intros fd Hfd. by apply not_elem_of_nil in Hfd. }
  apply NoDup_cons in Hnd as [Hni Hnd]. apply StronglySorted_inv in Hord as [Hord Hfst]. rewrite Forall_forall in Hfst.
  pose proof (Hn fd ltac:(by left)) as Hnf. assert (Hn' : forall x, x ∈ chain -> normal (default epoch (stamps !! x))) by (intros; apply Hn; by right).
  rewrite timer_ne_epoch, negb_involutive by done. fold (stamp_of stamps fd).
  destruct (Z.eqb_spec (stamp_of stamps fd) 0) as [E0|N0].
  - intros E. destruct (IH _ _ _ _ Hnd Hn' Hord E) as [H1 H2 H3]. split; [|done|].
    + rewrite filter_cons_False; [done|]. unfold expired. tauto.
    + destruct arm as [a|]; [destruct H3 as (x & Hx & H4 & H4' & H5 & H6); exists x|].
      * split; [by right|]. do 3 (split; [done|]). intros y [->|Hy]%elem_of_cons; auto.
      * intros y [->|Hy]%elem_of_cons; auto.
  - rewrite timer_gt_spec, Z.gtb_ltb by done. fold (stamp_of stamps fd). destruct (Z.ltb_spec (usecs ts) (stamp_of stamps fd)) as [Hgt|Hle].
    + intros [= <- <- <-].
      assert (Hlater : forall y, y ∈ chain -> stamp_of stamps y = 0 \/ stamp_of stamps fd <= stamp_of stamps y).
      { intros y Hy. destruct (decide (stamp_of stamps y = 0)); [by left|]. right. by apply Hfst. }
      split.
      * symmetry. apply filter_none. intros y [->|Hy]%elem_of_cons [Hy1 Hy2]; [lia|]. destruct (Hlater y Hy); lia.
      * intros x. by rewrite decide_False by apply not_elem_of_nil.
      * exists fd. split; [by left|]. split; [done|]. split; [done|]. split.
        -- rewrite spec_of_timeval. by apply timersub_spec.
        -- intros y [->|Hy]%elem_of_cons; [right; right; lia|]. destruct (Hlater y Hy); auto.
    + destruct (expire_loop ts chain (<[fd := epoch]> stamps)) as [[st1 sh1] ar1] eqn:E. intros [= <- <- <-].
      assert (Hsame : forall y, y ∈ chain -> (<[fd := epoch]> stamps) !! y = stamps !! y).
      { intros y Hy. apply lookup_insert_ne. intros ->. done. }
      assert (Hst : forall y, y ∈ chain -> stamp_of (<[fd := epoch]> stamps) y = stamp_of stamps y) by (intros; unfold stamp_of; by rewrite Hsame).
      assert (Hex : forall y, y ∈ chain -> expired (<[fd := epoch]> stamps) y <-> expired stamps y) by (intros; unfold expired; by rewrite Hst).
      destruct (IH (<[fd := epoch]> stamps) st1 sh1 ar1 Hnd) as [H1 H2 H3]; [| |exact E|].
      * intros y Hy. rewrite Hsame by done. auto.
      * eapply ordered_ext; [|exact Hord]. intros y Hy. right. by apply Hst.
      * split.
        -- rewrite filter_cons_True by (by split). f_equal. rewrite H1. by apply filter_ext_in.
        -- intros x. rewrite H2. destruct (decide (x = fd)) as [->|Hne].
           ++ rewrite lookup_insert_eq. rewrite (decide_True (P := fd ∈ fd :: sh1)) by (by left). by case_decide.
           ++ rewrite lookup_insert_ne by done. destruct (decide (x ∈ sh1)); [rewrite decide_True by (by right); done|].
              rewrite decide_False; [done|]. by intros [?|?]%elem_of_cons.
        -- destruct ar1 as [a|].
           ++ destruct H3 as (x & Hx & H4 & H4' & H5 & H6). rewrite Hst in * by done. exists x. split; [by right|]. do 3 (split; [done|]).
              intros y [->|Hy]%elem_of_cons; [right; left; by split|]. destruct (H6 y Hy) as [?|[?|?]].
              ** left. by rewrite <- Hst.
              ** right. left. by apply Hex.
              ** right. right. by rewrite <- (Hst y).
           ++ intros y [->|Hy]%elem_of_cons; [right; by split|]. destruct (H3 y Hy) as [?|?]; [left; by rewrite <- Hst|right; by apply Hex].
Qed.
End Round.

(** ** The invariant *)

Section Invariant.
Context (latency ms : Z) (Hlat : 0 <= latency) (Hms : 0 < ms).
Let T : Z := ms * 1000.

Record th_inv (s : system) : Prop := {
  ti_now : normal (sys_now s) /\ 0 < usecs (sys_now s);
  ti_timeout : timeout (sys_handler s) = ms;
  ti_nodup : NoDup (timeout_chain (sys_handler s));
  ti_stamps : forall fd, fd ∈ timeout_chain (sys_handler s) ->
    normal (timestamp (sys_handler s) fd) /\ 0 <= stamp_us s fd <= usecs (sys_now s);
  ti_ordered : stamps_ordered (stamp_us s) (timeout_chain (sys_handler s));
  ti_timer : timeout_chain (sys_handler s) <> [] ->
    exists e, sys_timer s = Some e /\ e <= usecs (sys_now s) + T /\ forall fd, waiting s fd -> e <= stamp_us s fd + T;
  ti_late : forall e, sys_timer s = Some e -> usecs (sys_now s) <= e + latency;
}.

Lemma inv_initial s : initial s ms -> th_inv s.
Proof.
  intros (Hn & Hp & Ht & Hh). split; rewrite ?Ht, ?Hh; cbn; try done; try constructor; try (by apply not_elem_of_nil in H).
Qed.

Lemma inv_add s fd h arm :
  th_inv s -> fd ∉ timeout_chain (sys_handler s) -> timeout_handler_add_fd_data (sys_handler s) (sys_now s) fd = (h, arm) ->
  th_inv (System (sys_now s) (settime (sys_now s) (sys_timer s) arm) h).
Proof using Hlat Hms.
  intros [[Hn Hp] Hto Hnd Hst Hord Htm Hlt] Hni [= <- <-]. set (s' := System _ _ _).
  assert (Hc' : timeout_chain (sys_handler s') = timeout_chain (sys_handler s) ++ [fd]) by done.
  assert (Htm' : sys_timer s' = match timeout_chain (sys_handler s) with [] => Some (usecs (sys_now s) + T) | _ => sys_timer s end).
  { cbn [s' sys_timer]. destruct (timeout_chain (sys_handler s)); [|done]. cbn [settime]. rewrite add_arm_spec, Hto by lia. fold T.
    destruct (Z.eqb_spec T 0); [unfold T in *; lia|done]. }
  assert (Hold : forall x, x ∈ timeout_chain (sys_handler s) -> timestamp (sys_handler s') x = timestamp (sys_handler s) x).
  { intros x Hx. unfold timestamp. cbn. rewrite lookup_insert_ne; [done|]. by intros ->. }
  assert (Hnew : timestamp (sys_handler s') fd = sys_now s) by (unfold timestamp; cbn; by rewrite lookup_insert_eq).
  assert (Hold' : forall x, x ∈ timeout_chain (sys_handler s) -> stamp_us s' x = stamp_us s x) by (intros; unfold stamp_us; by rewrite Hold).
  assert (Hnew' : stamp_us s' fd = usecs (sys_now s)) by (unfold stamp_us; by rewrite Hnew).
  split; auto.
  - cbn. apply NoDup_app. split; [done|]. split; [|apply NoDup_singleton]. intros x Hx Hx'. apply list_elem_of_singleton in Hx' as ->. done.
  - change (timeout_chain (sys_handler s')) with (timeout_chain (sys_handler s) ++ [fd]). intros x [Hx|Hx]%elem_of_app; [rewrite Hold, Hold' by done; auto|].
    apply list_elem_of_singleton in Hx as ->. rewrite Hnew, Hnew'. split; [done|]. cbn. lia.
  - change (timeout_chain (sys_handler s')) with (timeout_chain (sys_handler s) ++ [fd]). apply ordered_snoc.
    + eapply ordered_ext; [|exact Hord]. intros x Hx. right. by apply Hold'.
    + intros a Ha. rewrite Hold', Hnew' by done. by apply Hst.
  - intros _. rewrite Htm'. change (sys_now s') with (sys_now s). destruct (decide (timeout_chain (sys_handler s) = [])) as [Ec|Ec].
    + rewrite Ec. exists (usecs (sys_now s) + T). split; [done|]. split; [lia|].
      intros x [Hx _]. rewrite Hc', Ec in Hx. apply list_elem_of_singleton in Hx as ->. rewrite Hnew'. lia.
    + destruct (Htm Ec) as (e & He & Hb & Hw). exists e. split; [by destruct (timeout_chain (sys_handler s))|]. split; [done|].
      intros x [Hx Hx2]. rewrite Hc' in Hx.
      apply elem_of_app in Hx as [Hx|Hx]; [|apply list_elem_of_singleton in Hx as ->; rewrite Hnew'; lia].
      rewrite Hold' in * by done. apply Hw. by split.
  - intros e. rewrite Htm'. change (sys_now s') with (sys_now s). destruct (timeout_chain (sys_handler s)).
    + intros [= <-]. unfold T in *. lia.
    + apply Hlt.
Qed.

Lemma inv_remove s fd : th_inv s -> th_inv (System (sys_now s) (sys_timer s) (TIMEOUT_HANDLER_REMOVE_FD_DATA (sys_handler s) fd)).
Proof.
  intros [Hn Hto Hnd Hst Hord Htm Hlt]. split; auto.
  - cbn. by apply NoDup_filter.
  - cbn [sys_handler timeout_chain TIMEOUT_HANDLER_REMOVE_FD_DATA]. intros x [_ Hx]%list_elem_of_filter. by apply Hst.
  - apply (ordered_filter _ (fun x => x <> fd)). exact Hord.
  - cbn [sys_handler timeout_chain TIMEOUT_HANDLER_REMOVE_FD_DATA sys_timer sys_now]. intros Hne. destruct Htm as (e & He & Hb & Hw).
    + intros E. apply Hne. by rewrite E.
    + exists e. split; [done|]. split; [done|]. intros x [Hx Hx2]. apply Hw. split; [|exact Hx2].
      cbn in Hx. by apply list_elem_of_filter in Hx as [_ ?].
Qed.

(** What an expiration does in a state of the invariant. *)
Lemma expire_spec s h shut arm :
  th_inv s -> expiration_handler (sys_handler s) (sys_now s) = (h, shut, arm) ->
  let s' := System (sys_now s) (settime (sys_now s) None arm) h in
  timeout_chain h = timeout_chain (sys_handler s) /\ timeout h = ms
  /\ (forall fd, fd ∈ shut <-> waiting s fd /\ stamp_us s fd + T <= usecs (sys_now s))
  /\ (forall fd, timestamp h fd = if decide (fd ∈ shut) then epoch else timestamp (sys_handler s) fd)
  /\ (timeout_chain h <> [] -> exists e, sys_timer s' = Some e /\ usecs (sys_now s) <= e <= usecs (sys_now s) + T
       /\ (forall fd, waiting s' fd -> e <= stamp_us s' fd + T)
       /\ ((exists fd, waiting s' fd /\ e = stamp_us s' fd + T) \/ forall fd, ~ waiting s' fd))
  /\ (timeout_chain h = [] -> sys_timer s' = None).
Proof using Hms.
  intros [[Hn Hp] Hto Hnd Hst Hord Htm Hlt]. unfold expiration_handler. rewrite Hto.
  destruct (when_spec ms ltac:(lia)) as [Hwn Hwu]. fold T in Hwu. set (when := Timeval _ _) in *.
  destruct (timeout_chain (sys_handler s)) as [|x0 c0] eqn:Ec.
  { intros [= <- <- <-]. cbv zeta. rewrite Ec. split; [done|]. split; [done|]. split; [|split; [|split; [done|done]]].
    - intros fd. split; [by intros ?%not_elem_of_nil|]. intros [[Hw _] _]. rewrite Ec in Hw. by apply not_elem_of_nil in Hw.
    - intros fd. by rewrite decide_False by apply not_elem_of_nil. }
  rewrite <- Ec in *. assert (Hne : timeout_chain (sys_handler s) <> []) by (by rewrite Ec). clear x0 c0 Ec.
  destruct (timersub_spec (sys_now s) when Hn Hwn) as [Htn Htu]. rewrite Hwu in Htu. set (ts := timersub _ _) in *.
  destruct (expire_loop ts _ _) as [[stamps sh] ar] eqn:E. intros [= <- <- <-]. cbv zeta. set (s' := System _ _ _).
  destruct (expire_loop_spec ts Htn _ _ _ _ _ Hnd (fun fd Hfd => proj1 (Hst fd Hfd)) Hord E) as [H1 H2 H3].
  assert (Hmem : forall fd, fd ∈ sh <-> waiting s fd /\ stamp_us s fd + T <= usecs (sys_now s)).
  { intros fd. rewrite H1, list_elem_of_filter. unfold expired, waiting, stamp_us, timestamp. fold (stamp_of (timestamps (sys_handler s)) fd).
    rewrite Htu. unfold stamp_of. split; intros; intuition lia. }
  assert (Hstamp : forall fd, timestamp (sys_handler s') fd = if decide (fd ∈ sh) then epoch else timestamp (sys_handler s) fd).
  { intros fd. unfold timestamp. cbn. rewrite H2. by case_decide. }
  assert (Hus : forall fd, stamp_us s' fd = if decide (fd ∈ sh) then 0 else stamp_us s fd).
  { intros fd. unfold stamp_us. rewrite Hstamp. by case_decide. }
  assert (Hwait : forall fd, waiting s' fd -> waiting s fd /\ fd ∉ sh /\ stamp_us s' fd = stamp_us s fd).
  { intros fd [Hc Hs]. rewrite Hus in *. case_decide; [done|]. by split. }
  split; [done|]. split; [done|]. split; [exact Hmem|]. split; [exact Hstamp|]. split; [|by intros Hc].
  intros _. destruct ar as [a|].
  - destruct H3 as (x & Hx & Hgt & Hx0 & Ha & Hmin). cbn [s' sys_timer settime]. rewrite Ha, Htu in *.
    change (stamp_of (timestamps (sys_handler s)) x) with (stamp_us s x) in *.
    destruct (Z.eqb_spec (stamp_us s x - (usecs (sys_now s) - T)) 0); [lia|]. exists (stamp_us s x + T).
    assert (Hxs : x ∉ sh) by (rewrite Hmem; lia). assert (Hwx : waiting s' x).
    { split; [exact Hx|]. rewrite Hus, decide_False by done. exact Hx0. }
    split; [f_equal; lia|]. pose proof (Hst x Hx). split; [lia|]. split.
    + intros fd Hw. destruct (Hwait fd Hw) as ((Hc & Hs0) & Hns & ->). destruct (Hmin fd Hc) as [?|[[? ?]|?]].
      * unfold stamp_us, timestamp in Hs0. done.
      * exfalso. apply Hns. apply Hmem. split; [by split|]. unfold stamp_us, timestamp. unfold stamp_of in *. lia.
      * change (stamp_of (timestamps (sys_handler s)) fd) with (stamp_us s fd) in *. lia.
    + left. exists x. split; [done|]. by rewrite Hus, decide_False by done.
  - cbn [s' sys_timer settime]. replace (spec_usecs _) with T by (rewrite <- Hwu; symmetry; apply (spec_of_timeval when)). destruct (Z.eqb_spec T 0); [unfold T in *; lia|].
    exists (usecs (sys_now s) + T). split; [done|]. split; [unfold T in *; lia|].
    assert (Hnone : forall fd, ~ waiting s' fd).
    { intros fd Hw. destruct (Hwait fd Hw) as ((Hc & Hs0) & Hns & _). destruct (H3 fd Hc) as [?|[? ?]].
      - unfold stamp_us, timestamp in Hs0. done.
      - apply Hns. apply Hmem. split; [by split|]. unfold stamp_us, timestamp. unfold stamp_of in *. lia. }
    split; [intros fd Hw; by destruct (Hnone fd)|]. by right.
Qed.

Lemma inv_expire s h shut arm :
  th_inv s -> expiration_handler (sys_handler s) (sys_now s) = (h, shut, arm) ->
  th_inv (System (sys_now s) (settime (sys_now s) None arm) h).
Proof using Hlat Hms.
  intros Hinv E. destruct (expire_spec s h shut arm Hinv E) as (Hc & Ht & _ & Hst & Htm & Hempty). cbv zeta in *.
  destruct Hinv as [Hn Hto Hnd Hs Hord _ _]. set (s' := System _ _ _) in *.
  assert (Hus : forall fd, stamp_us s' fd = 0 \/ stamp_us s' fd = stamp_us s fd).
  { intros fd. unfold stamp_us. cbn [s' sys_handler]. rewrite Hst. case_decide; auto. }
  split; auto; cbn [s' sys_handler]; rewrite ?Hc; auto.
  - intros fd Hfd. rewrite Hst. destruct (Hs fd Hfd) as [? ?]. destruct Hn. split; [by case_decide|].
    change (sys_now s') with (sys_now s). destruct (Hus fd) as [E1|E1]; rewrite E1; lia.
  - eapply ordered_ext; [|exact Hord]. auto.
  - rewrite <- Hc. intros Hne. destruct (Htm Hne) as (e & He & Hb & Hw & _). exists e. split; [done|]. split; [cbn; lia|done].
  - intros e He. destruct (decide (timeout_chain h = [])) as [E0|Hne].
    + rewrite Hempty in He by done. done.
    + destruct (Htm Hne) as (e' & He' & Hb & _). rewrite He in He'. injection He' as <-. cbn. lia.
Qed.

Lemma inv_step s ev s' : th_inv s -> step latency s ev s' -> th_inv s'.
Proof using Hlat Hms.
  intros Hinv. destruct 1 as [s t Ht Hle Hlim|s fd h arm Hni E|s fd|s e h shut arm He Hexp E].
  - destruct Hinv as [[Hn Hp] Hto Hnd Hst Hord Htm Hlt]. split; auto; cbn [sys_now sys_timer sys_handler].
    + split; [done|lia].
    + intros fd Hfd. destruct (Hst fd Hfd). unfold stamp_us in *. cbn. split; [done|lia].
    + intros Hne. destruct (Htm Hne) as (e & He & Hb & Hw). exists e. split; [done|]. split; [lia|]. intros fd Hf. by apply Hw.
  - by eapply inv_add.
  - by apply inv_remove.
  - by eapply inv_expire.
Qed.

Lemma inv_steps s l s' : th_inv s -> steps latency s l s' -> th_inv s'.
Proof using Hlat Hms. intros Hinv. induction 1; [done|]. apply IHsteps. by eapply inv_step. Qed.
End Invariant.

(** ** Progress *)

Section Progress.
Context (latency ms : Z) (Hlat : 0 <= latency) (Hms : 0 < ms).
Let T : Z := ms * 1000.

Definition passive (ev : th_event) : Prop := match ev with Wait _ | Expire _ => True | _ => False end.

#[export] Instance waiting_dec s fd : Decision (waiting s fd).
Proof. unfold waiting. apply _. Defined.

Definition waiters (s : system) : list Z := filter (waiting s) (timeout_chain (sys_handler s)).

(** The timer is set for a descriptor that waits. *)
Definition timer_exact (s : system) : Prop :=
  Exists (fun x => waiting s x /\ sys_timer s = Some (stamp_us s x + T)) (timeout_chain (sys_handler s)).
#[export] Instance timer_exact_dec s : Decision (timer_exact s).
Proof. unfold timer_exact. apply _. Defined.

Lemma steps_app s l s' l' s'' : steps latency s l s' -> steps latency s' l' s'' -> steps latency s (l ++ l') s''.
Proof. induction 1; [done|]. intros. cbn. econstructor; eauto. Qed.

(** Waiting for the timer, and its expiration. *)
Lemma next_expiration s e :
  th_inv latency ms s -> sys_timer s = Some e ->
  exists s1 s' shut, steps latency s [Wait (sys_now s1); Expire shut] s' /\ th_inv latency ms s1 /\ th_inv latency ms s'
    /\ sys_handler s1 = sys_handler s /\ e <= usecs (sys_now s1)
    /\ (forall fd, fd ∈ shut <-> waiting s fd /\ stamp_us s fd + T <= usecs (sys_now s1))
    /\ (forall fd, waiting s' fd <-> waiting s fd /\ fd ∉ shut)
    /\ timeout_chain (sys_handler s') = timeout_chain (sys_handler s)
    /\ ((exists fd, waiting s' fd) -> timer_exact s').
Proof using Hlat Hms.
  intros Hinv He. destruct (ti_now _ _ _ Hinv) as [Hn Hp].
  assert (exists t, normal t /\ usecs (sys_now s) <= usecs t /\ e <= usecs t <= e + latency) as (t & Ht & Hle & Hte).
  { destruct (Z.le_gt_cases e (usecs (sys_now s))).
    - exists (sys_now s). pose proof (ti_late _ _ _ Hinv e He). split; [done|]. lia.
    - exists (Timeval (e / 1000000) (e mod 1000000)). unfold normal, usecs in *. cbn [tv_sec tv_usec].
      pose proof (Z.mod_pos_bound e 1000000 ltac:(lia)). pose proof (Z.div_mod e 1000000 ltac:(lia)). lia. }
  set (s1 := System t (sys_timer s) (sys_handler s)).
  assert (Hs1 : step latency s (Wait t) s1) by (constructor; [done|done|]; intros e' He'; rewrite He in He'; injection He' as <-; lia).
  pose proof (inv_step latency ms Hlat Hms _ _ _ Hinv Hs1) as Hinv1.
  destruct (expiration_handler (sys_handler s1) (sys_now s1)) as [[h shut] arm] eqn:E.
  assert (Hs' : step latency s1 (Expire shut) (System (sys_now s1) (settime (sys_now s1) None arm) h)) by (apply (step_expire _ s1 e); [done|cbn; lia|exact E]).
  pose proof (inv_step latency ms Hlat Hms _ _ _ Hinv1 Hs') as Hinv'.
  destruct (expire_spec latency ms Hms s1 h shut arm Hinv1 E) as (Hc & _ & Hmem & Hst & Htm & _). cbv zeta in Htm.
  set (s' := System _ _ h) in *. exists s1, s', shut. split; [econstructor; [exact Hs1|]; econstructor; [exact Hs'|constructor]|].
  assert (Hw : forall fd, waiting s' fd <-> waiting s fd /\ fd ∉ shut).
  { intros fd. unfold waiting, stamp_us. cbn [s' sys_handler]. rewrite Hc, Hst. case_decide; cbn; [|tauto]. split; [|tauto]. intros [_ ?]. done. }
  split; [done|]. split; [done|]. split; [done|]. split; [cbn; lia|]. split; [exact Hmem|]. split; [exact Hw|]. split; [exact Hc|].
  intros (fd & Hwf). assert (Hne : timeout_chain h <> []) by (intros E0; destruct Hwf as [Hx _]; cbn [s' sys_handler] in Hx; rewrite E0 in Hx; by apply not_elem_of_nil in Hx).
  destruct (Htm Hne) as (e' & He' & _ & _ & [(x & Hx & Hex)|Hnone]); [|by destruct (Hnone fd)].
  apply Exists_exists. exists x. split; [apply Hx|]. split; [done|]. by rewrite He', Hex.
Qed.

Lemma waiters_le s s' : timeout_chain (sys_handler s') = timeout_chain (sys_handler s) -> (forall fd, waiting s' fd -> waiting s fd) ->
  (length (waiters s') <= length (waiters s))%nat /\ (forall fd, waiting s fd -> ~ waiting s' fd -> (length (waiters s') < length (waiters s))%nat).
Proof.
  intros Hc Hw. unfold waiters. rewrite Hc. assert (forall l, (length (filter (waiting s') l) <= length (filter (waiting s) l))%nat
    /\ (forall fd, fd ∈ l -> waiting s fd -> ~ waiting s' fd -> (length (filter (waiting s') l) < length (filter (waiting s) l))%nat)) as H.
  { induction l as [|x l [IH1 IH2]]; [split; [done|]; intros fd Hfd; by apply not_elem_of_nil in Hfd|].
    rewrite !filter_cons. split.
    - destruct (decide (waiting s' x)), (decide (waiting s x)); cbn; try lia. by destruct n; apply Hw.
    - intros fd [->|Hfd]%elem_of_cons H1 H2.
      + rewrite decide_False, decide_True by done. cbn. lia.
      + specialize (IH2 fd Hfd H1 H2). destruct (decide (waiting s' x)), (decide (waiting s x)); cbn; try lia. by destruct n; apply Hw. }
  split; [apply H|]. intros fd H1 H2. apply (proj2 (H _) fd); [apply H1|done|done].
Qed.

(** Every descriptor that waits is shut down by an expiration that needs no other event. *)
Lemma shut_down_reached n : forall s fd, th_inv latency ms s -> waiting s fd ->
  (2 * length (waiters s) + (if decide (timer_exact s) then 0 else 1) <= n)%nat ->
  exists l shut s', steps latency s (l ++ [Expire shut]) s' /\ fd ∈ shut /\ Forall passive l.
Proof using Hlat Hms.
  induction n as [n IH] using lt_wf_ind. intros s fd Hinv Hwait Hn.
  destruct (ti_timer _ _ _ Hinv) as (e & He & _ & Hbound); [intros E; destruct Hwait as [Hx _]; rewrite E in Hx; by apply not_elem_of_nil in Hx|].
  destruct (next_expiration s e Hinv He) as (s1 & s' & shut & Hsteps & _ & Hinv' & Eh & Hle & Hmem & Hw & Hc & Hex).
  destruct (decide (fd ∈ shut)) as [Hin|Hnin].
  - exists [Wait (sys_now s1)], shut, s'. split; [exact Hsteps|]. split; [done|]. by repeat constructor.
  - assert (Hwait' : waiting s' fd) by (by apply Hw).
    pose proof (Hex (ex_intro _ fd Hwait')) as Hexact.
    destruct (waiters_le s s' Hc ltac:(intros; by apply Hw)) as [Hwl Hws].
    assert (Hlt : (2 * length (waiters s') < n)%nat).
    { case_decide as Hb; [|lia]. apply Exists_exists in Hb as (x & _ & Hx & Hxe). rewrite He in Hxe. injection Hxe as ->.
      enough (length (waiters s') < length (waiters s))%nat by lia. apply (Hws x Hx). rewrite Hw. intros [_ Hns]. apply Hns, Hmem.
      split; [done|]. lia. }
    destruct (IH _ Hlt s' fd Hinv' Hwait') as (l & shut' & s'' & Hs'' & Hin & Hp); [rewrite decide_True by done; lia|].
    exists ([Wait (sys_now s1); Expire shut] ++ l), shut', s''. rewrite <- app_assoc. split; [by eapply steps_app|]. split; [done|].
    apply Forall_app. split; [|done]. by repeat constructor.
Qed.
End Progress.

(** C33: in every state that is reached from an empty handler by adding and removing descriptors,
    letting time pass and running the handler at most [latency] microseconds after its timer
    has expired, no descriptor waits for longer than the timeout plus the latency; and from every such
    state the expirations of the timer alone lead to the shutdown of each descriptor that waits. *)
Theorem timeout_handler_liveness (latency ms : Z) (s0 s : system) (l : list th_event) (fd : Z)
  (Hlat : 0 <= latency) (Hms : 0 < ms) (Hinit : initial s0 ms) (Hrun : steps latency s0 l s) (Hwait : waiting s fd) :
  usecs (sys_now s) <= stamp_us s fd + ms * 1000 + latency
  /\ exists l' shut s', steps latency s (l' ++ [Expire shut]) s' /\ fd ∈ shut /\ Forall passive l'.
Proof.
  pose proof (inv_steps latency ms Hlat Hms _ _ _ (inv_initial latency ms _ Hinit) Hrun) as Hinv. split.
  - destruct (ti_timer _ _ _ Hinv) as (e & He & _ & Hb); [intros E; destruct Hwait as [Hx _]; rewrite E in Hx; by apply not_elem_of_nil in Hx|].
    pose proof (ti_late _ _ _ Hinv e He). specialize (Hb fd Hwait). lia.
  - by eapply (shut_down_reached latency ms Hlat Hms).
Qed.

(** An expiration of the timer shuts down exactly the descriptors that have waited for the
    timeout, and does not touch the others. *)
Theorem expiration_shuts_down_idle (latency ms : Z) (s0 s s' : system) (l : list th_event) (shut : list Z)
  (Hlat : 0 <= latency) (Hms : 0 < ms) (Hinit : initial s0 ms) (Hrun : steps latency s0 l s)
  (Hstep : step latency s (Expire shut) s') (fd : Z) :
  (fd ∈ shut <-> waiting s fd /\ stamp_us s fd + ms * 1000 <= usecs (sys_now s))
  /\ (fd ∈ shut -> ~ waiting s' fd)
  /\ (fd ∉ shut -> timestamp (sys_handler s') fd = timestamp (sys_handler s) fd)
  /\ timeout_chain (sys_handler s') = timeout_chain (sys_handler s).
Proof.
  pose proof (inv_steps latency ms Hlat Hms _ _ _ (inv_initial latency ms _ Hinit) Hrun) as Hinv.
  inversion Hstep as [| | |s1 e h shut1 arm He Hexp E]; subst.
  destruct (expire_spec latency ms Hms s h shut arm Hinv E) as (Hc & _ & Hmem & Hst & _). cbn [sys_handler].
  split; [apply Hmem|]. split; [|split; [|done]].
  - intros Hin [_ Hs]. unfold stamp_us in Hs. cbn [sys_handler] in Hs. rewrite Hst, decide_True in Hs by done. by apply Hs.
  - intros Hni. by rewrite Hst, decide_False.
Qed.

(** *** An example: two descriptors, one of them removed *)
Definition th_start : system := System (Timeval 5 0) None (timeout_handler_init 1500).
Definition th_wait : system := System (Timeval 5 0) (Some 6500000) (TimeoutHandler 1500 [7] {[7 := Timeval 5 0]}).

Lemma th_start_initial : initial th_start 1500.
Proof. by repeat split. Qed.

Lemma th_start_add : steps 100 th_start [Add 7] th_wait.
Proof.
  econstructor; [|constructor].
  apply (step_add 100 th_start 7 (TimeoutHandler 1500 [7] {[7 := Timeval 5 0]}) (Some (Timespec 1 500000000))); [apply not_elem_of_nil|reflexivity].
Qed.

Lemma timeout_handler_liveness_witness :
  waiting th_wait 7 /\ usecs (sys_now th_wait) <= stamp_us th_wait 7 + 1500 * 1000 + 100
  /\ exists l' shut s', steps 100 th_wait (l' ++ [Expire shut]) s' /\ 7 ∈ shut /\ Forall passive l'.
Proof.
  assert (Hw : waiting th_wait 7) by (split; [apply list_elem_of_here|vm_compute; discriminate]).
  split; [exact Hw|]. exact (timeout_handler_liveness 100 1500 th_start th_wait [Add 7] 7 ltac:(lia) ltac:(lia) th_start_initial th_start_add Hw).
Defined.

Definition th_late : system := System (Timeval 6 500000) (Some 6500000) (sys_handler th_wait).
Definition th_done : system := System (Timeval 6 500000) (Some 8000000) (TimeoutHandler 1500 [7] {[7 := epoch]}).

Lemma th_late_reached : steps 100 th_start [Add 7; Wait (Timeval 6 500000)] th_late.
Proof.
  eapply (steps_app 100 th_start [Add 7]); [exact th_start_add|]. econstructor; [|constructor].
  apply (step_wait 100 th_wait (Timeval 6 500000)); [by split|vm_compute; discriminate|]. intros e [= <-]. vm_compute. discriminate.
Qed.

Lemma th_done_step : step 100 th_late (Expire [7]) th_done.
Proof.
  apply (step_expire 100 th_late 6500000 (TimeoutHandler 1500 [7] {[7 := epoch]}) [7] (Some (Timespec 1 500000000)));
    [reflexivity|vm_compute; discriminate|vm_compute; reflexivity].
Qed.

Lemma expiration_shuts_down_idle_witness :
  7 ∈ [7] /\ waiting th_late 7 /\ stamp_us th_late 7 + 1500 * 1000 <= usecs (sys_now th_late) /\ ~ waiting th_done 7.
Proof.
  assert (H := expiration_shuts_down_idle 100 1500 th_start th_late th_done _ [7] ltac:(lia) ltac:(lia) th_start_initial th_late_reached th_done_step 7).
  destruct H as (H1 & H2 & _). assert (Hin : 7 ∈ [7]) by apply list_elem_of_here.
  destruct (proj1 H1 Hin) as [Hw Hs]. exact (conj Hin (conj Hw (conj Hs (H2 Hin)))).
Defined.
