(* ===== verification/FileWriter.v ===== *)
(** * FileWriter: sequential writes through a mapping that moves ([include/file_writer.h], [src/_file_writer.c])

    A window of the file is mapped; when the write position reaches its end the file is extended
    and the next window is mapped at the same address. *)

From stdpp Require Import base numbers list gmap.
From Stdlib Require Import ZArith Lia.
From S2P Require Import Prelude Words Bytes Os.

(** [fw_mem] is the mapping: the inode and the offset in the file of its first byte. *)
Record file_writer := FileWriter {
  fw_fd : Z;
  fw_mem : option (Z * Z);
  fw_base_loc : Z;
  fw_next_loc : Z;
  fw_write_loc : Z;
  fw_capacity : Z;
  fw_buffer_size : Z;
}.
Definition FILE_WRITER_INITIALIZER : file_writer := FileWriter (-1) None 0 0 0 0 (1024 * 1024).

Abbreviation FW := (ST (fsys * file_writer)).
Definition fw_self : FW file_writer := fun s => Some (snd s, s).
Definition fw_set (v : file_writer) : FW unit := fun s => Some (tt, (fst s, v)).

Definition fw_with_mem v m := FileWriter (fw_fd v) m (fw_base_loc v) (fw_next_loc v) (fw_write_loc v) (fw_capacity v) (fw_buffer_size v).
Definition fw_with_fd v fd := FileWriter fd (fw_mem v) (fw_base_loc v) (fw_next_loc v) (fw_write_loc v) (fw_capacity v) (fw_buffer_size v).
Definition fw_with_window v b n := FileWriter (fw_fd v) (fw_mem v) b n (fw_write_loc v) (fw_capacity v) (fw_buffer_size v).
Definition fw_with_write_loc v w := FileWriter (fw_fd v) (fw_mem v) (fw_base_loc v) (fw_next_loc v) w (fw_capacity v) (fw_buffer_size v).
Definition fw_with_capacity v c := FileWriter (fw_fd v) (fw_mem v) (fw_base_loc v) (fw_next_loc v) (fw_write_loc v) c (fw_buffer_size v).

(** A write at an offset of the mapping: inside of it, and of the file. *)
Definition fw_poke (ofs : Z) (l : list Z) : FW unit := fun '(fs, v) =>
  match l, fw_mem v with
  | [], _ => Some (tt, (fs, v))
  | _, None => None
  | _, Some (ino, base) =>
      match fs_data fs !! ino with
      | Some f =>
          if (0 <=? ofs) && (ofs + Z.of_nat (length l) <=? fw_buffer_size v) && (base + ofs + Z.of_nat (length l) <=? Z.of_nat (length f))
          then Some (tt, (Fsys (fs_dir fs) (<[ino := splice f (base + ofs) l]> (fs_data fs)) (fs_fds fs) (fs_next fs), v)) else None
      | None => None
      end
  end.

(** The eight bytes at an offset of the mapping. *)
Definition fw_peek64 (ofs : Z) : FW Z := fun s =>
  match fw_mem (snd s) with
  | Some (ino, base) =>
      match fs_data (fst s) !! ino with
      | Some f => if (0 <=? ofs) && (ofs + 8 <=? fw_buffer_size (snd s)) && (base + ofs + 8 <=? Z.of_nat (length f)) then Some (get64 f (base + ofs), s) else None
      | None => None
      end
  | None => None
  end.

Inductive whence := SEEK_SET | SEEK_CUR | SEEK_END.

Section Ops.
Context (o : os).

(** The window of the file at [base_loc], mapped; 0, or negative and no mapping. *)
Definition map_window : FW Z :=
  v ← fw_self; i ← file_of (fw_fd v);
  match i with
  | Some ino => if sys_mmap o (fw_buffer_size v) then fw_set (fw_with_mem v (Some (ino, fw_base_loc v)));; mret 0 else fw_set (fw_with_mem v None);; mret (-1)
  | None => fw_set (fw_with_mem v None);; mret (-1)
  end.

Definition file_writer_make : FW unit := fw_set FILE_WRITER_INITIALIZER.

(** Errors of [munmap] and [close] are not reported. *)
Definition file_writer_close : FW Z :=
  v ← fw_self;
  if fw_fd v <? 0 then mret 0
  else
    (if sys_munmap o (fw_buffer_size v) then fw_set (fw_with_mem v None) else mret tt);;
    res ← ftruncate o (fw_fd v) (fw_write_loc v);
    close_fd o (fw_fd v);;
    v ← fw_self; fw_set (fw_with_fd v (-1));;
    mret (if res <? 0 then -1 else 0).

Definition file_writer_attachfd (fd initial_size : Z) : FW Z :=
  r ← file_writer_close;
  if r <? 0 then mret (-1)
  else
    v ← fw_self;
    fw_set (FileWriter fd None 0 (fw_next_loc v) 0 (fw_capacity v) (if initial_size <? 4096 then 4096 else next_p2 initial_size));;
    if fd <? 0 then mret (-1)
    else
      v ← fw_self;
      r ← ftruncate o fd (fw_buffer_size v);
      if r <? 0 then mret (-1)
      else
        r ← map_window;
        if r <? 0 then mret (-1)
        else
          v ← fw_self;
          fw_set (fw_with_window (fw_with_capacity v (fw_buffer_size v)) (fw_base_loc v) (u64 (fw_base_loc v + fw_buffer_size v)));;
          mret 0.

Definition file_writer_init (filename : path) : FW Z :=
  fd ← sys_create o filename; v ← fw_self; file_writer_attachfd fd (fw_buffer_size v).

Definition file_writer_wavail : FW Z := v ← fw_self; mret (u64 (fw_capacity v - fw_write_loc v)).
(** The pointer is an offset from [mem]. *)
Definition file_writer_wloc : FW Z := v ← fw_self; mret (fw_write_loc v - fw_base_loc v).
Definition file_writer_wlocpos : FW Z := v ← fw_self; mret (fw_write_loc v).

Definition file_writer_wseek (n : Z) : FW Z :=
  v ← fw_self;
  let v := fw_with_write_loc v (u64 (fw_write_loc v + n)) in
  fw_set v;;
  if fw_write_loc v =? fw_next_loc v then
    let v := fw_with_window v (fw_write_loc v) (u64 (fw_write_loc v + fw_buffer_size v)) in
    fw_set v;;
    r ← (if fw_write_loc v =? fw_capacity v then
           let v := fw_with_capacity v (u64 (fw_capacity v + fw_buffer_size v)) in
           fw_set v;; ftruncate o (fw_fd v) (fw_capacity v)
         else mret 0);
    if r <? 0 then mret (-1) else map_window
  else mret 0.

Definition align_window (v : file_writer) (x : Z) : Z := Z.land x (u64 (Z.lnot (fw_buffer_size v - 1))).

Definition file_writer_lseek (offset : Z) (w : whence) : FW Z :=
  match w with
  | SEEK_END => mret (-1)
  | _ =>
      v ← fw_self;
      let v := fw_with_write_loc v (match w with SEEK_SET => u64 offset | _ => u64 (fw_write_loc v + offset) end) in
      fw_set v;;
      r ← (if fw_write_loc v >? fw_capacity v then
             let v := fw_with_capacity v (align_window v (u64 (fw_write_loc v + fw_buffer_size v - 1))) in
             fw_set v;; ftruncate o (fw_fd v) (fw_capacity v)
           else mret 0);
      if r <? 0 then mret (-1)
      else
        v ← fw_self;
        let base := align_window v (fw_write_loc v) in
        fw_set (fw_with_window v base (u64 (base + fw_buffer_size v)));; map_window
  end.

(** Each round copies what fits into the window; the result of [file_writer_wseek] is not used. *)
Fixpoint write_windows (fuel : nat) (buf : list Z) : FW Z :=
  match fuel with
  | O => crash
  | S k =>
      wav ← file_writer_wavail; p ← file_writer_wloc;
      let n := if wav >=? Z.of_nat (length buf) then length buf else Z.to_nat wav in
      fw_poke p (take n buf);;
      file_writer_wseek (Z.of_nat n);;
      match drop n buf with
      | [] => mret 0
      | rest => write_windows k rest
      end
  end.
Definition file_writer_write (buf : list Z) : FW Z := write_windows (S (length buf)) buf.

Definition file_writer_align : FW Z :=
  v ← fw_self; file_writer_wseek (u64 (Z.land (u64 (fw_write_loc v + 7)) (u64 (Z.lnot 7)) - fw_write_loc v)).
End Ops.

(** * What is written is in the file

    While no seek intervenes, the file is what has been written, followed by zeros up to the end
    of the window; closing cuts them off. *)

Lemma round_down_mask x k : 0 <= k <= 63 -> 0 <= x < 2 ^ 64 -> Z.land x (u64 (Z.lnot (2 ^ k - 1))) = x / 2 ^ k * 2 ^ k.
Proof.
  intros Hk Hx. unfold u64. rewrite <- (Z.land_ones (Z.lnot _)) by lia. rewrite (Z.land_comm (Z.lnot _)), Z.land_assoc, Z.land_ones, Z.mod_small by lia.
  replace (2 ^ k - 1) with (Z.ones k) by (rewrite Z.ones_equiv; lia). rewrite <- Z.ldiff_land, Z.ldiff_ones_r by lia. by rewrite Z.shiftl_mul_pow2, Z.shiftr_div_pow2 by lia.
Qed.

(** The size of a window is a power of two. *)
Definition window_size (initial_size : Z) : Z := if initial_size <? 4096 then 4096 else next_p2 initial_size.

Lemma window_size_pow n : 0 <= n <= 2 ^ 31 -> exists k, window_size n = 2 ^ k /\ 12 <= k <= 31.
Proof.
  intros Hn. unfold window_size. destruct (Z.ltb_spec n 4096); [exists 12; done|]. rewrite next_p2_eq by lia. exists (Z.log2 (n - 1) + 1). split; [done|].
  pose proof (Z.log2_le_mono (2 ^ 11) (n - 1) ltac:(lia)) as H1. pose proof (Z.log2_lt_pow2 (n - 1) 31 ltac:(lia)) as H2. rewrite Z.log2_pow2 in H1 by lia. lia.
Qed.

Ltac fw_simpl := unfold fw_with_mem, fw_with_fd, fw_with_window, fw_with_write_loc, fw_with_capacity; cbn [fst snd fw_fd fw_mem fw_base_loc fw_next_loc fw_write_loc fw_capacity fw_buffer_size].

Lemma fw_self_eval {B} (k : file_writer -> FW B) s : (fw_self ≫= k) s = k (snd s) s.
Proof. done. Qed.
Lemma fw_set_eval {B} v (k : unit -> FW B) s : (fw_set v ≫= k) s = k tt (fst s, v).
Proof. done. Qed.

Lemma splice_zeros c l m n : (length l <= n)%nat -> m = Z.of_nat (length c) -> splice (c ++ replicate n 0) m l = c ++ l ++ replicate (n - length l) 0.
Proof.
  intros Hl ->. unfold splice. rewrite Nat2Z.id, take_app_length. do 2 f_equal. rewrite drop_app_add. rewrite drop_replicate. done.
Qed.

(** Padding to a multiple of eight. *)
Definition padding (n : nat) : list Z := replicate ((8 - n mod 8) mod 8) 0.
Definition aligned (c : list Z) : list Z := c ++ padding (length c).

Lemma length_aligned c : Z.of_nat (length (aligned c)) = (Z.of_nat (length c) + 7) / 8 * 8.
Proof.
  unfold aligned, padding. rewrite length_app, length_replicate.
  pose proof (Nat.div_mod_eq (length c) 8) as E. pose proof (Nat.mod_upper_bound (length c) 8 ltac:(lia)) as Hr. set (r := (length c mod 8)%nat) in *. set (q := (length c / 8)%nat) in *.
  destruct (Nat.eq_dec r 0) as [Hr0|Hr0].
  - rewrite Hr0 in *. change ((8 - 0) mod 8)%nat with O. replace (Z.of_nat (length c) + 7) with (7 + Z.of_nat q * 8) by lia. rewrite Z.div_add by lia. change (7 / 8) with 0. lia.
  - rewrite Nat.mod_small by lia. replace (Z.of_nat (length c) + 7) with (Z.of_nat r - 1 + (Z.of_nat q + 1) * 8) by lia. rewrite Z.div_add, Z.div_small by lia. lia.
Qed.

Section Facts.
Context (o : os) (fn : path) (ino fd k limit : Z) (fs0 : fsys).
Let bs := 2 ^ k.
Hypothesis (Hk : 12 <= k <= 31) (Hlimit : limit <= 2 ^ 60) (Htrunc : can_truncate_to o limit) (Hmap : sys_mmap o bs = true) (Hfd : 0 <= fd).

Lemma bs_bounds : 4096 <= bs <= 2 ^ 31.
Proof. unfold bs. split; [apply (Z.pow_le_mono_r 2 12); lia|apply Z.pow_le_mono_r; lia]. Qed.

(** [c] has been written, and [l] is in the window behind it. *)
Record fw_at (c l : list Z) (base : Z) (s : fsys * file_writer) : Prop := {
  fa_self : snd s = FileWriter fd (Some (ino, base)) base (base + bs) (Z.of_nat (length c)) (base + bs) bs;
  fa_window : 0 <= base <= Z.of_nat (length c) /\ Z.of_nat (length (c ++ l)) <= base + bs /\ base mod bs = 0;
  fa_data : fs_data (fst s) !! ino = Some (c ++ l ++ replicate (Z.to_nat (base + bs) - length (c ++ l)) 0);
  fa_dir : fs_dir (fst s) !! fn = Some ino;
  fa_open : fs_fds (fst s) !! fd = Some ino;
  fa_frame : forall i, i <> ino -> fs_data (fst s) !! i = fs_data fs0 !! i;
}.

(** The state between two calls. *)
Definition fw_is (c : list Z) (s : fsys * file_writer) : Prop := exists base, fw_at c [] base s /\ Z.of_nat (length c) < base + bs.

Lemma map_window_eval fs m base nx wl cap : fs_fds fs !! fd = Some ino ->
  map_window o (fs, FileWriter fd m base nx wl cap bs) = Some (0, (fs, FileWriter fd (Some (ino, base)) base nx wl cap bs)).
Proof.
  intros Ho. unfold map_window. rewrite fw_self_eval. cbn [snd fw_fd fw_buffer_size]. rewrite (bind_eval (file_of _) _ _ (Some ino) (fs, FileWriter fd m base nx wl cap bs)) by (unfold file_of; cbn; by rewrite Ho).
  by rewrite Hmap.
Qed.

Lemma wseek_moves c l base s : fw_at c l base s -> Z.of_nat (length (c ++ l)) + bs <= limit ->
  exists s', file_writer_wseek o (Z.of_nat (length l)) s = Some (0, s') /\ fw_is (c ++ l) s'.
Proof.
  intros [Hs (Hb & Hl & Hm) Hd Hdir Ho Hfr] Hlim. pose proof bs_bounds as Hbs. unfold file_writer_wseek. rewrite fw_self_eval, Hs. fw_simpl.
  rewrite length_app, Nat2Z.inj_add in *. rewrite (u64_small (_ + _)) by lia. rewrite fw_set_eval. fw_simpl.
  destruct (Z.eqb_spec (Z.of_nat (length c) + Z.of_nat (length l)) (base + bs)) as [E|E].
  - rewrite fw_set_eval. fw_simpl. rewrite !E, (u64_small (base + bs + bs)) by lia.
    set (v2 := FileWriter fd (Some (ino, base)) (base + bs) (base + bs + bs) (base + bs) (base + bs + bs) bs).
    set (fs2 := Fsys (fs_dir (fst s)) (alter (fun f => truncate f (base + bs + bs)) ino (fs_data (fst s))) (fs_fds (fst s)) (fs_next (fst s))).
    rewrite (bind_eval _ _ _ 0 (fs2, v2)).
    2:{ rewrite fw_set_eval. cbn [fst]. unfold ftruncate. rewrite Ho, Htrunc by lia. done. }
    cbn [Z.ltb Z.compare]. unfold v2. rewrite map_window_eval by done. eexists. split; [reflexivity|]. exists (base + bs).
    split; [|rewrite length_app; lia]. split; cbn [fst snd fs_dir fs_fds fs_data fs2].
    + rewrite length_app, Nat2Z.inj_add, E. done.
    + rewrite app_nil_r, length_app. split; [lia|]. split; [lia|]. rewrite Z.add_mod, Hm, Z.mod_same by lia. done.
    + rewrite lookup_alter_eq, Hd. cbn. f_equal. rewrite app_nil_r. cbn [app]. rewrite !length_app. replace (Z.to_nat (base + bs) - (length c + length l))%nat with O by lia. cbn [replicate].
      rewrite app_nil_r. unfold truncate. rewrite take_ge by (rewrite length_app; lia). by rewrite length_app.
    + done.
    + done.
    + intros i Hi. rewrite lookup_alter_ne by done. auto.
  - eexists. split; [reflexivity|]. exists base. split; [|rewrite length_app; lia]. split; cbn [fst snd]; try done.
    + by rewrite length_app, Nat2Z.inj_add.
    + rewrite app_nil_r, length_app. lia.
    + rewrite Hd, app_nil_r. cbn [app]. by rewrite <- app_assoc, length_app.
Qed.

Lemma poke_at_end c l base s : fw_at c [] base s -> Z.of_nat (length (c ++ l)) <= base + bs ->
  exists s', fw_poke (Z.of_nat (length c) - base) l s = Some (tt, s') /\ fw_at c l base s'.
Proof.
  intros [Hs (Hb & Hl & Hm) Hd Hdir Ho Hfr] Hle. destruct s as [fs v]. cbn [fst snd] in *. subst v. destruct l as [|x l]; [by exists (fs, FileWriter fd (Some (ino, base)) base (base + bs) (Z.of_nat (length c)) (base + bs) bs)|].
  set (y := x :: l) in *. unfold fw_poke. cbn [fw_mem fw_buffer_size]. rewrite Hd. rewrite app_nil_r in *. cbn [app] in *. rewrite length_app in Hle. pose proof bs_bounds.
  rewrite !length_app, length_replicate. rewrite (proj2 (Z.leb_le 0 _)), !(proj2 (Z.leb_le _ _)) by lia. cbn [andb].
  change (match y with [] => ?a | _ :: _ => ?b end) with b. eexists. split; [reflexivity|]. split; cbn [fst snd fs_dir fs_data fs_fds]; try done.
  - rewrite length_app. lia.
  - rewrite lookup_insert_eq. f_equal. rewrite splice_zeros by lia. rewrite length_app. do 3 f_equal. lia.
  - intros i Hi. rewrite lookup_insert_ne by done. auto.
Qed.

(** A write of any size. *)
Lemma write_windows_eval fuel : forall buf c s, fw_is c s -> (length buf < fuel)%nat -> Z.of_nat (length (c ++ buf)) + bs <= limit ->
  exists s', write_windows o fuel buf s = Some (0, s') /\ fw_is (c ++ buf) s'.
Proof.
  induction fuel as [|m IH]; intros buf c s (base & Hs & Hroom) Hfuel Hlim; [lia|]. pose proof (fa_self _ _ _ _ Hs) as Hself. pose proof bs_bounds. destruct (fa_window _ _ _ _ Hs) as (Hb & Hw & _).
  cbn [write_windows]. rewrite length_app in Hlim. unfold file_writer_wavail, file_writer_wloc.
  rewrite (bind_eval _ _ _ (base + bs - Z.of_nat (length c)) s) by (rewrite fw_self_eval, Hself; cbn; by rewrite u64_small by lia).
  rewrite (bind_eval _ _ _ (Z.of_nat (length c) - base) s) by (by rewrite fw_self_eval, Hself). cbv zeta.
  rewrite Z.geb_leb. set (n := if _ <=? _ then _ else _).
  assert (Hn : (n <= length buf)%nat /\ Z.of_nat (length c + n) <= base + bs /\ (n = length buf \/ (0 < n)%nat)) by (unfold n; destruct (Z.leb_spec (Z.of_nat (length buf)) (base + bs - Z.of_nat (length c))); lia).
  destruct Hn as (Hn & Hfit & Hpos). assert (Hlt : length (take n buf) = n) by (rewrite length_take; lia).
  destruct (poke_at_end c (take n buf) base s Hs) as (s1 & E1 & H1); [rewrite length_app; lia|]. rewrite (bind_eval _ _ _ _ _ E1).
  destruct (wseek_moves c (take n buf) base s1 H1) as (s2 & E2 & H2); [rewrite length_app; lia|]. rewrite Hlt in E2. rewrite (bind_eval _ _ _ _ _ E2).
  assert (Ebuf : take n buf ++ drop n buf = buf) by apply take_drop. destruct (drop n buf) as [|x r] eqn:Ed.
  - exists s2. split; [done|]. rewrite app_nil_r in Ebuf. by rewrite <- Ebuf.
  - destruct (IH (x :: r) (c ++ take n buf) s2 H2) as (s3 & E3 & H3).
    + apply (f_equal length) in Ed. rewrite length_drop in Ed. cbn in *. lia.
    + rewrite <- app_assoc, Ebuf, length_app. lia.
    + exists s3. split; [exact E3|]. by rewrite <- app_assoc, Ebuf in H3.
Qed.

Lemma file_writer_write_eval c buf s : fw_is c s -> Z.of_nat (length (c ++ buf)) + bs <= limit ->
  exists s', file_writer_write o buf s = Some (0, s') /\ fw_is (c ++ buf) s'.
Proof. intros Hs Hl. apply write_windows_eval; auto. Qed.

Lemma file_writer_align_eval c s : fw_is c s -> Z.of_nat (length (aligned c)) + bs <= limit ->
  exists s', file_writer_align o s = Some (0, s') /\ fw_is (aligned c) s'.
Proof.
  intros (base & Hs & Hroom) Hlim. pose proof bs_bounds. destruct (fa_window _ _ _ _ Hs) as (Hb & _ & Hm). pose proof (length_aligned c) as Hla. set (p := padding (length c)).
  assert (Hlp : Z.of_nat (length (aligned c)) = Z.of_nat (length c) + Z.of_nat (length p)) by (unfold aligned; fold p; rewrite length_app; lia).
  assert (Hfit : Z.of_nat (length (aligned c)) <= base + bs).
  { rewrite Hla. assert (Hdiv : (base + bs) mod 8 = 0).
    { rewrite Z.add_mod by lia. assert (Hb8 : bs mod 8 = 0) by (unfold bs; replace k with (3 + (k - 3)) by lia; rewrite Z.pow_add_r by lia; rewrite Z.mul_comm; apply Z.mod_mul; lia).
      rewrite Hb8. assert (base mod 8 = 0) as ->; [|done]. rewrite (Z.div_mod base bs), Hm by lia. rewrite Z.add_0_r, Z.mul_mod, Hb8 by lia. done. }
    pose proof (Z.div_mod (base + bs) 8 ltac:(lia)). assert ((Z.of_nat (length c) + 7) / 8 <= (base + bs) / 8); [|lia].
    apply Z.lt_succ_r. apply Z.div_lt_upper_bound; lia. }
  assert (Ha : fw_at c p base s).
  { destruct Hs as [Hs Hw Hd Hdir Ho Hfr]. split; try done. rewrite Hd. do 2 f_equal. rewrite app_nil_r. cbn [app].
    assert (Hp : p = replicate (length p) 0) by (unfold p, padding; by rewrite length_replicate). rewrite Hp at 1. rewrite <- replicate_add. f_equal. rewrite length_app. lia. }
  destruct (wseek_moves c p base s Ha) as (s' & E & H'); [exact Hlim|]. exists s'. split; [|exact H'].
  unfold file_writer_align. rewrite fw_self_eval, (fa_self _ _ _ _ Hs). cbn [fw_write_loc]. rewrite (u64_small (_ + 7)) by lia. change 7 with (2 ^ 3 - 1) at 2. rewrite round_down_mask by lia.
  change (2 ^ 3) with 8. rewrite <- Hla, Hlp, u64_small by lia. replace (Z.of_nat (length c) + Z.of_nat (length p) - Z.of_nat (length c)) with (Z.of_nat (length p)) by lia. exact E.
Qed.

(** Closing: the file is what was written. *)
Lemma file_writer_close_eval c s : fw_is c s -> sys_munmap o bs = true -> Z.of_nat (length c) <= limit ->
  exists s', file_writer_close o s = Some (0, s') /\ fw_fd (snd s') = -1 /\ fs_dir (fst s') !! fn = Some ino /\ fs_data (fst s') !! ino = Some c
    /\ (forall i, i <> ino -> fs_data (fst s') !! i = fs_data fs0 !! i).
Proof.
  intros (base & [Hs (Hb & Hl & Hm) Hd Hdir Ho Hfr] & _) Hun Hlim. destruct s as [fs v]. cbn [fst snd] in *. subst v. unfold file_writer_close. rewrite fw_self_eval. cbn [snd fw_fd fw_buffer_size].
  rewrite (proj2 (Z.ltb_ge fd 0)) by lia. rewrite Hun, (bind_eval _ _ _ _ _ (eq_refl : fw_set _ _ = Some (tt, _))). fw_simpl.
  set (fs2 := Fsys (fs_dir fs) (alter (fun f => truncate f (Z.of_nat (length c))) ino (fs_data fs)) (fs_fds fs) (fs_next fs)). set (v2 := FileWriter _ _ _ _ _ _ _).
  rewrite (bind_eval _ _ _ 0 (fs2, v2)) by (unfold ftruncate; by rewrite Ho, Htrunc by lia).
  rewrite (bind_eval _ _ _ (if sys_close o fd then 0 else -1) (Fsys (fs_dir fs2) (fs_data fs2) (delete fd (fs_fds fs2)) (fs_next fs2), v2)) by (unfold close_fd; cbn [fs2 fs_fds]; by rewrite Ho).
  eexists. split; [reflexivity|]. split; [done|]. split; [done|]. split; cbn [fst fs_data fs2].
  - rewrite lookup_alter_eq, Hd. cbn. f_equal. rewrite app_nil_r. unfold truncate. rewrite Nat2Z.id, take_app_length. rewrite length_app, length_replicate.
    by replace (length c - _)%nat with O by lia; rewrite app_nil_r.
  - intros i Hi. rewrite lookup_alter_ne by done. auto.
Qed.

(** Seeking inside of the file. *)
Lemma lseek_eval fs m b nx wl cap pos : fs_fds fs !! fd = Some ino -> 0 <= pos <= cap -> cap < 2 ^ 62 ->
  file_writer_lseek o pos SEEK_SET (fs, FileWriter fd m b nx wl cap bs)
  = Some (0, (fs, FileWriter fd (Some (ino, pos / bs * bs)) (pos / bs * bs) (pos / bs * bs + bs) pos cap bs)).
Proof.
  intros Ho Hpos Hcap. pose proof bs_bounds as Hbs. unfold file_writer_lseek. rewrite fw_self_eval. fw_simpl. rewrite (u64_small pos), fw_set_eval by lia. fw_simpl.
  rewrite Z.gtb_ltb, (proj2 (Z.ltb_ge cap pos)) by lia. rewrite (bind_eval (mret 0) _ _ 0 _ eq_refl). cbn [Z.ltb Z.compare]. rewrite fw_self_eval. unfold align_window. fw_simpl.
  unfold bs at 1 2 3 4. rewrite round_down_mask by lia. fold bs. assert (Hle : 0 <= pos / bs * bs <= pos) by (pose proof (Z.div_mod pos bs ltac:(lia)); pose proof (Z.mod_pos_bound pos bs ltac:(lia)); pose proof (Z.div_pos pos bs ltac:(lia) ltac:(lia)); nia).
  rewrite (u64_small (_ + bs)) by lia. rewrite fw_set_eval. fw_simpl. by apply map_window_eval.
Qed.

(** A write through a window at the start of the file. *)
Lemma poke_first fs f nx wl cap x l : fs_data fs !! ino = Some f -> 0 <= x -> x + Z.of_nat (length l) <= bs -> x + Z.of_nat (length l) <= Z.of_nat (length f) -> l <> [] ->
  fw_poke x l (fs, FileWriter fd (Some (ino, 0)) 0 nx wl cap bs)
  = Some (tt, (Fsys (fs_dir fs) (<[ino := splice f x l]> (fs_data fs)) (fs_fds fs) (fs_next fs), FileWriter fd (Some (ino, 0)) 0 nx wl cap bs)).
Proof.
  intros Hf Hx Hw Hlen Hne. unfold fw_poke. cbn [fw_mem fw_buffer_size]. rewrite Hf. rewrite Z.add_0_l, (proj2 (Z.leb_le 0 x)), !(proj2 (Z.leb_le _ _)) by lia. by destruct l.
Qed.
End Facts.

Lemma file_writer_init_eval (o : os) fn fs v k limit : fw_fd v < 0 -> window_size (fw_buffer_size v) = 2 ^ k -> 12 <= k <= 31 ->
  0 <= sys_open o fn 0x42 -> can_truncate_to o limit -> 2 ^ k <= limit -> sys_mmap o (2 ^ k) = true ->
  exists s, file_writer_init o fn (fs, v) = Some (0, s) /\ fw_is fn (fs_next fs) (sys_open o fn 0x42) k fs [] s.
Proof.
  intros Hfd Hws Hk Hopen Htr Hlim Hmap. pose proof (bs_bounds k Hk) as Hbs. unfold file_writer_init. set (fd := sys_open o fn 0x42) in *. set (ino := fs_next fs).
  set (fs1 := Fsys (<[fn := ino]> (delete fn (fs_dir fs))) (<[ino := []]> (fs_data fs)) (<[fd := ino]> (fs_fds fs)) (ino + 1)).
  rewrite (bind_eval (sys_create o fn) _ _ fd (fs1, v)) by (unfold sys_create; fold fd; by rewrite (proj2 (Z.ltb_ge fd 0)) by lia).
  rewrite fw_self_eval. cbn [snd]. unfold file_writer_attachfd.
  rewrite (bind_eval (file_writer_close o) _ _ 0 (fs1, v)) by (unfold file_writer_close; rewrite fw_self_eval; cbn [snd]; by rewrite (proj2 (Z.ltb_lt _ _) Hfd)).
  cbn [Z.ltb Z.compare]. rewrite fw_self_eval, fw_set_eval. fw_simpl. fold (window_size (fw_buffer_size v)). rewrite Hws, (proj2 (Z.ltb_ge fd 0)), fw_self_eval by lia. fw_simpl.
  set (v1 := FileWriter _ _ _ _ _ _ _). set (fs2 := Fsys (fs_dir fs1) (alter (fun f => truncate f (2 ^ k)) ino (fs_data fs1)) (fs_fds fs1) (fs_next fs1)).
  rewrite (bind_eval (ftruncate o fd (2 ^ k)) _ _ 0 (fs2, v1)) by (unfold ftruncate; cbn [fs1 fs_fds]; by rewrite lookup_insert_eq, Htr by lia). cbn [Z.ltb Z.compare].
  assert (Ho : fs_fds fs2 !! fd = Some ino) by (cbn; apply lookup_insert_eq).
  unfold v1. rewrite (bind_eval (map_window o) _ _ _ _ (map_window_eval o ino fd k Hmap fs2 _ _ _ _ _ Ho)). cbn [Z.ltb Z.compare].
  rewrite fw_self_eval, fw_set_eval. fw_simpl. rewrite Z.add_0_l, u64_small by lia. eexists. split; [reflexivity|]. exists 0. split; [|cbn; lia]. split; cbn [fst snd fs_dir fs_data fs_fds fs2].
  - done.
  - split; [cbn; lia|]. split; [cbn; lia|done].
  - rewrite lookup_alter_eq. cbn [fs1 fs_data]. rewrite lookup_insert_eq. cbn -[Z.pow replicate]. f_equal. unfold truncate. by rewrite take_nil.
  - cbn. by rewrite lookup_insert_eq.
  - cbn. by rewrite lookup_insert_eq.
  - intros i Hi. rewrite lookup_alter_ne by done. cbn. by rewrite lookup_insert_ne.
Qed.

(** ** A whole file *)
Inductive fw_call := FWwrite (buf : list Z) | FWalign.
Definition fw_exec (o : os) (call : fw_call) : FW Z := match call with FWwrite buf => file_writer_write o buf | FWalign => file_writer_align o end.
Definition fw_apply (c : list Z) (call : fw_call) : list Z := match call with FWwrite buf => c ++ buf | FWalign => aligned c end.
Fixpoint fw_run (o : os) (calls : list fw_call) : FW Z :=
  match calls with
  | [] => mret 0
  | call :: calls => r ← fw_exec o call; if r <? 0 then mret r else fw_run o calls
  end.

Lemma fw_apply_grows c call : (length c <= length (fw_apply c call))%nat.
Proof. destruct call; cbn [fw_apply]; unfold aligned; rewrite length_app; lia. Qed.
Lemma fw_applied_grows calls : forall c, (length c <= length (foldl fw_apply c calls))%nat.
Proof. induction calls as [|call calls IH]; intros c; cbn [foldl]; [done|]. pose proof (fw_apply_grows c call). specialize (IH (fw_apply c call)). lia. Qed.

Lemma fw_run_eval o fn ino fd k limit fs0 calls : 12 <= k <= 31 -> limit <= 2 ^ 60 -> can_truncate_to o limit -> sys_mmap o (2 ^ k) = true ->
  forall c s, fw_is fn ino fd k fs0 c s -> Z.of_nat (length (foldl fw_apply c calls)) + 2 ^ k <= limit ->
  exists s', fw_run o calls s = Some (0, s') /\ fw_is fn ino fd k fs0 (foldl fw_apply c calls) s'.
Proof.
  intros Hk Hlimit Htr Hmap. induction calls as [|call calls IH]; intros c s Hs Hlim; [by exists s|]. cbn [foldl fw_run] in *. pose proof (fw_applied_grows calls (fw_apply c call)).
  assert (Hstep : exists s1, fw_exec o call s = Some (0, s1) /\ fw_is fn ino fd k fs0 (fw_apply c call) s1).
  { destruct call as [buf|]; cbn [fw_exec fw_apply] in *; [eapply file_writer_write_eval|eapply file_writer_align_eval]; eauto; lia. }
  destruct Hstep as (s1 & E1 & H1). rewrite (bind_eval _ _ _ _ _ E1). cbn [Z.ltb Z.compare]. by apply IH.
Qed.

(** C18: a file that [file_writer_init] creates, that is written by any sequence of
    [file_writer_write], of any sizes, and [file_writer_align], and closed, contains exactly the
    written bytes, in order, with zeros for the padding; no other file changes.  The writes may
    cross any number of windows. *)
Theorem file_writer_saves (o : os) (fs : fsys) (v : file_writer) (fn : path) (limit : Z) (calls : list fw_call)
  (Hfd : fw_fd v < 0) (Hsize : 0 <= fw_buffer_size v <= 2 ^ 31) (Hlimit : limit <= 2 ^ 60) (Hopen : 0 <= sys_open o fn 0x42)
  (Htrunc : can_truncate_to o limit) (Hmap : forall n, sys_mmap o n = true) (Hunmap : forall n, sys_munmap o n = true)
  (Hfits : Z.of_nat (length (foldl fw_apply [] calls)) + 2 ^ 31 <= limit) :
  exists s s' s2 ino, file_writer_init o fn (fs, v) = Some (0, s) /\ fw_run o calls s = Some (0, s') /\ file_writer_close o s' = Some (0, s2)
    /\ fs_dir (fst s2) !! fn = Some ino /\ fs_data (fst s2) !! ino = Some (foldl fw_apply [] calls)
    /\ (forall i, i <> ino -> fs_data (fst s2) !! i = fs_data fs !! i).
Proof.
  destruct (window_size_pow (fw_buffer_size v) Hsize) as (k & Hws & Hk). pose proof (bs_bounds k Hk).
  destruct (file_writer_init_eval o fn fs v k limit) as (s & E & Hs); [done|done|done|done|done|lia|done|].
  destruct (fw_run_eval o fn (fs_next fs) (sys_open o fn 0x42) k limit fs calls Hk Hlimit Htrunc (Hmap _) [] s Hs) as (s' & E' & Hs'); [lia|].
  edestruct (file_writer_close_eval o fn (fs_next fs) (sys_open o fn 0x42) k limit fs) as (s2 & E2 & _ & Hd & Hf & Hfr); try done; [lia|].
  exists s, s', s2, (fs_next fs). done.
Qed.

Definition fw_demo : list fw_call := [FWwrite [1; 2; 3]; FWalign; FWwrite (replicate 5000 7); FWwrite []; FWalign].
Definition small_writer : file_writer := FileWriter (-1) None 0 0 0 0 4096.

Lemma file_writer_saves_witness :
  exists s s' s2 ino, file_writer_init os_all_ok [97] (Fsys ∅ ∅ ∅ 1, small_writer) = Some (0, s) /\ fw_run os_all_ok fw_demo s = Some (0, s')
    /\ file_writer_close os_all_ok s' = Some (0, s2)
    /\ fs_dir (fst s2) !! [97] = Some ino /\ fs_data (fst s2) !! ino = Some ([1; 2; 3] ++ replicate 5 0 ++ replicate 5000 7)
    /\ (forall i, i <> ino -> fs_data (fst s2) !! i = None).
Proof.
  destruct (file_writer_saves os_all_ok (Fsys ∅ ∅ ∅ 1) small_writer [97] (2 ^ 40) fw_demo) as (s & s' & s2 & ino & H1 & H2 & H3 & H4 & H5 & H6).
  - vm_compute. congruence.
  - vm_compute. split; congruence.
  - lia.
  - vm_compute. congruence.
  - by intros ? ? _.
  - done.
  - done.
  - vm_compute. congruence.
  - exists s, s', s2, ino. do 4 (split; [assumption|]). split; [rewrite H5; vm_compute; reflexivity|]. intros i Hi. rewrite H6 by assumption. apply lookup_empty.
Defined.

(** ** Seeking

    [file_writer_write] takes the end of the file for the end of the window, which holds only
    until the first seek. *)

(** After [file_writer_lseek] to the end of the mapped part of the file, a write of one byte or
    more never returns: each round finds no room, copies nothing and moves nothing, however often
    it is repeated. *)
Theorem file_writer_seek_end_hangs (o : os) (fs : fsys) (fd ino base nx wl k n : Z) (m : option (Z * Z)) (x : Z) (buf : list Z) (fuel : nat)
  (Hk : 12 <= k <= 31) (Hn : 0 <= n < 2 ^ 30) (Hopen : fs_fds fs !! fd = Some ino) (Hmap : sys_mmap o (2 ^ k) = true) :
  exists s, file_writer_lseek o (n * 2 ^ k) SEEK_SET (fs, FileWriter fd m base nx wl (n * 2 ^ k) (2 ^ k)) = Some (0, s)
    /\ write_windows o fuel (x :: buf) s = None.
Proof.
  pose proof (bs_bounds k Hk) as Hbs. eexists. split; [eapply lseek_eval; [done|done|done|nia|nia]|]. rewrite Z.div_mul by lia. set (cap := n * 2 ^ k).
  induction fuel as [|fuel IH]; [done|]. cbn [write_windows]. unfold file_writer_wavail, file_writer_wloc. rewrite (bind_eval _ _ _ 0 _) by (rewrite fw_self_eval; cbn; by rewrite Z.sub_diag).
  rewrite (bind_eval _ _ _ 0 _) by (rewrite fw_self_eval; cbn; by rewrite Z.sub_diag). cbv zeta. cbn [length]. rewrite Z.geb_leb, (proj2 (Z.leb_gt _ 0)) by lia.
  change (Z.to_nat 0) with O. cbn [take drop Z.of_nat]. rewrite (bind_eval _ _ _ tt (fs, FileWriter fd (Some (ino, cap)) cap (cap + 2 ^ k) cap cap (2 ^ k))) by done.
  rewrite (bind_eval _ _ _ 0 (fs, FileWriter fd (Some (ino, cap)) cap (cap + 2 ^ k) cap cap (2 ^ k))); [exact IH|].
  unfold file_writer_wseek. rewrite fw_self_eval. fw_simpl. rewrite Z.add_0_r, (u64_small cap), fw_set_eval by (unfold cap; nia). fw_simpl. rewrite (proj2 (Z.eqb_neq cap (cap + 2 ^ k))) by lia. done.
Qed.

Lemma file_writer_seek_end_hangs_witness :
  exists s, file_writer_lseek os_all_ok 8192 SEEK_SET (Fsys ∅ ∅ {[3 := 1]} 2, FileWriter 3 (Some (1, 4096)) 4096 8192 5000 8192 4096) = Some (0, s)
    /\ write_windows os_all_ok 1000 [7] s = None.
Proof. apply (file_writer_seek_end_hangs os_all_ok (Fsys ∅ ∅ {[3 := 1]} 2) 3 1 4096 8192 5000 12 2 (Some (1, 4096)) 7 [] 1000); [lia|lia|done|done]. Defined.

(** After a seek back, what does not fit into the window is still copied in one piece: out of the mapping. *)
Lemma file_writer_seek_back_overruns (o : os) fs fd ino k f buf : 12 <= k <= 31 -> fs_data fs !! ino = Some f -> Z.of_nat (length f) = 2 * 2 ^ k ->
  2 ^ k < Z.of_nat (length buf) <= 2 * 2 ^ k -> file_writer_write o buf (fs, FileWriter fd (Some (ino, 0)) 0 (2 ^ k) 0 (2 * 2 ^ k) (2 ^ k)) = None.
Proof.
  intros Hk Hf Hlen Hbuf. pose proof (bs_bounds k Hk) as Hbs. unfold file_writer_write. cbn [write_windows]. unfold file_writer_wavail, file_writer_wloc.
  rewrite (bind_eval _ _ _ (2 * 2 ^ k) _) by (rewrite fw_self_eval; cbn -[Z.mul Z.pow]; by rewrite Z.sub_0_r, u64_small by lia).
  rewrite (bind_eval _ _ _ 0 _) by done. cbv zeta. rewrite Z.geb_leb, (proj2 (Z.leb_le _ _)) by lia. rewrite take_ge by lia. unfold mbind, ST_bind, fw_poke. cbn [fw_mem fw_buffer_size]. rewrite Hf.
  destruct buf as [|y buf]; [cbn in Hbuf; lia|]. rewrite (proj2 (Z.leb_gt (0 + _) (2 ^ k))) by lia. by rewrite andb_false_r.
Qed.
