(* ===== verification/Ringbuf.v ===== *)
(** * Ringbuf: byte ring buffer ([include/ringbuf.h], [src/ringbuf.c], [src/_ringbuf.c])

    The buffer maps the same [capacity] bytes twice in a row, so that up to [capacity] bytes
    from any position below [capacity] are contiguous.  The memory is modelled as the list of
    the [capacity] bytes; address [mem + x] for [0 <= x < 2 * capacity] is byte
    [x mod capacity] of it. *)

From stdpp Require Import base numbers list.
From Stdlib Require Import ZArith Lia.
From S2P Require Import Prelude Os.

(** [RIBS_VM_ALIGN] with 4096-byte pages ([include/vm_misc.h]). *)
Definition RIBS_VM_PAGESIZE : Z := 4096.
Definition RIBS_VM_ALIGN (x : Z) : Z := Z.land (u64 (x + RIBS_VM_PAGESIZE - 1)) (u64 (Z.lnot (RIBS_VM_PAGESIZE - 1))).

Lemma vm_align_spec x : 0 <= x < 2 ^ 62 ->
  x <= RIBS_VM_ALIGN x < x + RIBS_VM_PAGESIZE /\ RIBS_VM_ALIGN x mod RIBS_VM_PAGESIZE = 0.
Proof.
  intros Hx. unfold RIBS_VM_ALIGN, RIBS_VM_PAGESIZE. rewrite u64_small by lia.
  replace (x + 4096 - 1) with (x + (2 ^ 12 - 1)) by lia.
  replace (Z.land (x + (2 ^ 12 - 1)) (u64 (Z.lnot (4096 - 1)))) with (Z.land (x + (2 ^ 12 - 1)) (Z.lnot (2 ^ 12 - 1))).
  - apply (round_up_mask_bounds x 12); lia.
  - change (u64 (Z.lnot (4096 - 1))) with (Z.land (Z.ones 64) (Z.lnot (2 ^ 12 - 1))).
    rewrite Z.land_assoc. f_equal. rewrite Z.land_ones by lia. symmetry. apply Z.mod_small. lia.
Qed.

Lemma vm_align_id x : 0 <= x < 2 ^ 62 -> x mod RIBS_VM_PAGESIZE = 0 -> RIBS_VM_ALIGN x = x.
Proof.
  intros Hx Hm. destruct (vm_align_spec x Hx) as [Hb Ha]. set (y := RIBS_VM_ALIGN x) in *.
  unfold RIBS_VM_PAGESIZE in *. pose proof (Z.div_mod x 4096 ltac:(lia)). pose proof (Z.div_mod y 4096 ltac:(lia)). lia.
Qed.

Record ringbuf := Ringbuf {
  rb_mem : option (list Z);   (* NULL or the bytes of the mapping *)
  rb_capacity : Z;
  rb_read_loc : Z;
  rb_write_loc : Z;
}.

Definition RINGBUF_INITIALIZER : ringbuf := Ringbuf None 0 0 0.

Section Init.
Variable o : os.

(** [ringbuf_init]; the two fixed mappings over the reserved range are made by the same
    call as the reservation. *)
Definition ringbuf_init (rb : ringbuf) (size : Z) : ringbuf * Z :=
  let rb := Ringbuf (rb_mem rb) (RIBS_VM_ALIGN size) 0 0 in
  let fd := sys_temp_file o in
  if fd <? 0 then (rb, -1) else
  if negb (sys_ftruncate o fd (rb_capacity rb)) then (rb, -1) else
  let total_vmsize := u64 (Z.shiftl (rb_capacity rb) 1) in
  if negb (sys_mmap o total_vmsize) then (rb, -1) else
  if negb (sys_mmap o (rb_capacity rb)) then (rb, -1) else
  (Ringbuf (Some (replicate (Z.to_nat (rb_capacity rb)) 0)) (rb_capacity rb) 0 0, 0).

Definition ringbuf_free (rb : ringbuf) : ringbuf * Z :=
  match rb_mem rb with
  | Some _ =>
      if sys_munmap o (u64 (Z.shiftl (rb_capacity rb) 1))
      then (Ringbuf None (rb_capacity rb) (rb_read_loc rb) (rb_write_loc rb), 0) else (rb, -1)
  | None => (rb, 0)
  end.
End Init.

Definition ringbuf_wseek (rb : ringbuf) (by_ : Z) : ringbuf :=
  Ringbuf (rb_mem rb) (rb_capacity rb) (rb_read_loc rb) (u64 (rb_write_loc rb + by_)).

Definition ringbuf_rseek (rb : ringbuf) (by_ : Z) : ringbuf :=
  let rl := u64 (rb_read_loc rb + by_) in
  if rl >=? rb_capacity rb then
    Ringbuf (rb_mem rb) (rb_capacity rb) (u64 (rl - rb_capacity rb)) (u64 (rb_write_loc rb - rb_capacity rb))
  else Ringbuf (rb_mem rb) (rb_capacity rb) rl (rb_write_loc rb).

Definition ringbuf_size (rb : ringbuf) : Z := u64 (rb_write_loc rb - rb_read_loc rb).
Definition ringbuf_avail (rb : ringbuf) : Z := u64 (rb_capacity rb - ringbuf_size rb).
Definition ringbuf_empty (rb : ringbuf) : bool := rb_write_loc rb =? rb_read_loc rb.

(** The results are offsets of the returned pointers from [mem]. *)
Definition ringbuf_pop (rb : ringbuf) (n : Z) : ringbuf * Z := (ringbuf_rseek rb n, rb_read_loc rb).
Definition ringbuf_push (rb : ringbuf) (n : Z) : ringbuf * Z := (ringbuf_wseek rb n, rb_write_loc rb).

(** [while (ringbuf_avail(rb) < n) ringbuf_rseek(rb, n);] *)
Fixpoint rolling_loop (fuel : nat) (rb : ringbuf) (n : Z) : option ringbuf :=
  if ringbuf_avail rb <? n then
    match fuel with
    | O => None
    | S f => rolling_loop f (ringbuf_rseek rb n) n
    end
  else Some rb.

Definition ringbuf_rolling_push (fuel : nat) (rb : ringbuf) (n : Z) : option (ringbuf * Z) :=
  rb ← rolling_loop fuel rb n; Some (ringbuf_push rb n).

(** *** Access through the returned pointers *)

Definition byte_at (rb : ringbuf) (x : Z) : Z :=
  match rb_mem rb with
  | Some m => default 0 (m !! Z.to_nat (x mod rb_capacity rb))
  | None => 0
  end.

Definition set_byte (rb : ringbuf) (x v : Z) : ringbuf :=
  Ringbuf (match rb_mem rb with Some m => Some (<[Z.to_nat (x mod rb_capacity rb) := v]> m) | None => None end)
          (rb_capacity rb) (rb_read_loc rb) (rb_write_loc rb).

(** [memcpy(mem + x, bytes, length)] *)
Fixpoint write_bytes (rb : ringbuf) (x : Z) (l : list Z) : ringbuf :=
  match l with
  | [] => rb
  | v :: l => write_bytes (set_byte rb x v) (x + 1) l
  end.

Definition read_bytes (rb : ringbuf) (x n : Z) : list Z := byte_at rb <$> seqZ x n.

(** ** The buffer as a queue of bytes *)

Record rb_wf (rb : ringbuf) : Prop := {
  rb_wf_mem : exists m, rb_mem rb = Some m /\ Z.of_nat (length m) = rb_capacity rb;
  rb_wf_cap : 0 < rb_capacity rb < 2 ^ 62;
  rb_wf_read : 0 <= rb_read_loc rb < rb_capacity rb;
  rb_wf_write : rb_read_loc rb <= rb_write_loc rb <= rb_read_loc rb + rb_capacity rb;
}.

(** The bytes written and not yet read. *)
Definition queued (rb : ringbuf) : list Z := read_bytes rb (rb_read_loc rb) (rb_write_loc rb - rb_read_loc rb).

Lemma size_wf rb : rb_wf rb -> ringbuf_size rb = rb_write_loc rb - rb_read_loc rb.
Proof. intros [_ ? ? ?]. apply u64_small. lia. Qed.
Lemma avail_wf rb : rb_wf rb -> ringbuf_avail rb = rb_capacity rb - (rb_write_loc rb - rb_read_loc rb).
Proof. intros H. unfold ringbuf_avail. rewrite size_wf by done. destruct H as [_ ? ? ?]. apply u64_small. lia. Qed.

Definition same_mem (rb rb' : ringbuf) : Prop := rb_mem rb' = rb_mem rb /\ rb_capacity rb' = rb_capacity rb.

Lemma byte_at_same rb rb' x : same_mem rb rb' -> byte_at rb' x = byte_at rb x.
Proof. intros [Hm Hc]. unfold byte_at. by rewrite Hm, Hc. Qed.

Lemma read_bytes_same rb rb' x n : same_mem rb rb' -> read_bytes rb' x n = read_bytes rb x n.
Proof. intros H. apply list_fmap_ext. intros. by apply byte_at_same. Qed.

Lemma byte_at_wrap rb x : 0 < rb_capacity rb -> byte_at rb (x - rb_capacity rb) = byte_at rb x.
Proof.
  intros Hc. unfold byte_at. destruct (rb_mem rb); [|done]. do 3 f_equal.
  replace (x - rb_capacity rb) with (x + (-1) * rb_capacity rb) by lia. apply Z.mod_add. lia.
Qed.

Lemma read_bytes_wrap rb x n :
  0 < rb_capacity rb -> read_bytes rb (x - rb_capacity rb) n = read_bytes rb x n.
Proof.
  intros Hc. unfold read_bytes. replace (x - rb_capacity rb) with (- rb_capacity rb + x) by lia.
  rewrite <- fmap_add_seqZ, <- list_fmap_compose. apply list_fmap_ext. intros i y _. cbn.
  replace (- rb_capacity rb + y) with (y - rb_capacity rb) by lia. by apply byte_at_wrap.
Qed.

Lemma read_bytes_app rb x n m : 0 <= n -> 0 <= m -> read_bytes rb x (n + m) = read_bytes rb x n ++ read_bytes rb (x + n) m.
Proof. intros Hn Hm. unfold read_bytes. by rewrite seqZ_app, fmap_app by lia. Qed.

Lemma length_read_bytes rb x n : length (read_bytes rb x n) = Z.to_nat n.
Proof. unfold read_bytes. by rewrite length_fmap, length_seqZ. Qed.

(** Writing less than a whole round from [x] on. *)
Lemma set_byte_at rb x v y :
  rb_wf rb -> byte_at (set_byte rb x v) y = if y mod rb_capacity rb =? x mod rb_capacity rb then v else byte_at rb y.
Proof.
  intros [(m & Hm & Hl) Hc _ _]. unfold byte_at, set_byte. cbn. rewrite Hm.
  pose proof (Z.mod_pos_bound x (rb_capacity rb) ltac:(lia)). pose proof (Z.mod_pos_bound y (rb_capacity rb) ltac:(lia)).
  destruct (Z.eqb_spec (y mod rb_capacity rb) (x mod rb_capacity rb)) as [->|Hne].
  - by rewrite list_lookup_insert_eq by lia.
  - by rewrite list_lookup_insert_ne by lia.
Qed.

Lemma set_byte_wf rb x v : rb_wf rb -> rb_wf (set_byte rb x v).
Proof.
  intros [(m & Hm & Hl) ? ? ?]. split; cbn; auto. rewrite Hm. eexists. split; [done|]. by rewrite length_insert.
Qed.

Lemma write_bytes_fields l : forall rb x, rb_wf rb -> rb_wf (write_bytes rb x l)
  /\ rb_capacity (write_bytes rb x l) = rb_capacity rb /\ rb_read_loc (write_bytes rb x l) = rb_read_loc rb
  /\ rb_write_loc (write_bytes rb x l) = rb_write_loc rb.
Proof.
  induction l as [|v l IH]; intros rb x Hwf; cbn [write_bytes]; [done|].
  destruct (IH (set_byte rb x v) (x + 1)) as (? & ? & ? & ?); [by apply set_byte_wf|done].
Qed.

Lemma mod_window c x y : 0 < c -> x < y < x + c -> y mod c <> x mod c.
Proof.
  intros Hc Hy E. pose proof (Z.div_mod x c ltac:(lia)). pose proof (Z.div_mod y c ltac:(lia)).
  assert (y - x = c * (y / c - x / c)) by lia. assert (y / c - x / c < 1) by nia. assert (0 < y / c - x / c) by nia. lia.
Qed.

(** The bytes before the written window. *)
Lemma write_bytes_keep l : forall rb x y, rb_wf rb -> y < x -> x + Z.of_nat (length l) <= y + rb_capacity rb ->
  byte_at (write_bytes rb x l) y = byte_at rb y.
Proof.
  induction l as [|v l IH]; intros rb x y Hwf Hy Hl; cbn [write_bytes length] in *; [done|].
  pose proof (rb_wf_cap _ Hwf). rewrite IH by (auto using set_byte_wf; cbn; lia). rewrite set_byte_at by done.
  destruct (Z.eqb_spec (y mod rb_capacity rb) (x mod rb_capacity rb)) as [E|]; [|done].
  exfalso. apply (mod_window (rb_capacity rb) y x); lia.
Qed.

(** The written bytes. *)
Lemma write_bytes_at l : forall rb x y,
  rb_wf rb -> Z.of_nat (length l) <= rb_capacity rb -> x <= y < x + rb_capacity rb ->
  byte_at (write_bytes rb x l) y = default (byte_at rb y) (l !! Z.to_nat (y - x)).
Proof.
  induction l as [|v l IH]; intros rb x y Hwf Hl Hy; cbn [write_bytes length] in *; [by rewrite lookup_nil|].
  pose proof (rb_wf_cap _ Hwf). destruct (Z.eq_dec y x) as [->|Hne].
  - rewrite Z.sub_diag. cbn. rewrite write_bytes_keep by (auto using set_byte_wf; cbn; lia). rewrite set_byte_at by done. by rewrite Z.eqb_refl.
  - rewrite IH by (auto using set_byte_wf; cbn; lia). rewrite set_byte_at by done.
    replace (Z.to_nat (y - x)) with (S (Z.to_nat (y - (x + 1)))) by lia. cbn. f_equal.
    destruct (Z.eqb_spec (y mod rb_capacity rb) (x mod rb_capacity rb)) as [E|]; [|done].
    exfalso. apply (mod_window (rb_capacity rb) x y); lia.
Qed.

Lemma read_written rb x l :
  rb_wf rb -> Z.of_nat (length l) <= rb_capacity rb -> read_bytes (write_bytes rb x l) x (Z.of_nat (length l)) = l.
Proof.
  intros Hwf Hl. apply list_eq. intros i. unfold read_bytes. rewrite list_lookup_fmap.
  destruct (decide (i < length l)%nat) as [Hi|Hi].
  - rewrite lookup_seqZ_lt by lia. cbn. rewrite write_bytes_at by (auto; lia).
    replace (Z.to_nat (x + Z.of_nat i - x)) with i by lia. destruct (l !! i) eqn:E; [done|]. apply lookup_ge_None in E. lia.
  - rewrite lookup_seqZ_ge by lia. cbn. symmetry. apply lookup_ge_None. lia.
Qed.

Lemma push_write_spec rb l :
  rb_wf rb -> Z.of_nat (length l) <= ringbuf_avail rb ->
  let (rb1, x) := ringbuf_push rb (Z.of_nat (length l)) in
  let rb2 := write_bytes rb1 x l in
  rb_wf rb2 /\ queued rb2 = queued rb ++ l /\ x + Z.of_nat (length l) <= 2 * rb_capacity rb.
Proof.
  intros Hwf Hl. rewrite avail_wf in Hl by done. pose proof Hwf as [(m & Hm & Hlen) Hc Hr Hw].
  cbn. set (rb1 := ringbuf_wseek rb (Z.of_nat (length l))).
  assert (Hw1 : rb_write_loc rb1 = rb_write_loc rb + Z.of_nat (length l)) by (cbn; apply u64_small; lia).
  assert (Hwf1 : rb_wf rb1) by (split; rewrite ?Hw1; cbn; eauto; lia).
  destruct (write_bytes_fields l rb1 (rb_write_loc rb) Hwf1) as (Hwf2 & Ec & Er & Ew).
  split; [done|]. split; [|lia]. unfold queued. rewrite Er, Ew, Hw1. cbn [rb1 ringbuf_wseek rb_read_loc].
  replace (rb_write_loc rb + Z.of_nat (length l) - rb_read_loc rb)
    with ((rb_write_loc rb - rb_read_loc rb) + Z.of_nat (length l)) by lia.
  rewrite read_bytes_app by lia. f_equal.
  - unfold read_bytes. apply list_fmap_ext. intros i y Hy. apply lookup_seqZ in Hy.
    rewrite write_bytes_keep by (auto; cbn; lia). by apply byte_at_same.
  - replace (rb_read_loc rb + (rb_write_loc rb - rb_read_loc rb)) with (rb_write_loc rb) by lia.
    apply read_written; [done|cbn; lia].
Qed.

(** Moving the read position forward over queued bytes. *)
Lemma rseek_spec rb n :
  rb_wf rb -> 0 <= n <= ringbuf_size rb ->
  let rb' := ringbuf_rseek rb n in
  rb_wf rb' /\ queued rb' = drop (Z.to_nat n) (queued rb) /\ same_mem rb rb'
  /\ rb_write_loc rb' - rb_read_loc rb' = rb_write_loc rb - rb_read_loc rb - n.
Proof.
  intros Hwf Hn. rewrite size_wf in Hn by done. pose proof Hwf as [Hm Hc Hr Hw].
  assert (Hq : queued rb = read_bytes rb (rb_read_loc rb) n
             ++ read_bytes rb (rb_read_loc rb + n) (rb_write_loc rb - rb_read_loc rb - n)).
  { unfold queued. rewrite <- read_bytes_app by lia. f_equal. lia. }
  assert (Hd : drop (Z.to_nat n) (queued rb) = read_bytes rb (rb_read_loc rb + n) (rb_write_loc rb - rb_read_loc rb - n)).
  { rewrite Hq. rewrite <- (length_read_bytes rb (rb_read_loc rb) n) at 1. apply drop_app_length. }
  unfold ringbuf_rseek. rewrite (u64_small (rb_read_loc rb + n)) by lia. cbv zeta. rewrite Hd, Z.geb_leb.
  destruct (Z.leb_spec (rb_capacity rb) (rb_read_loc rb + n)) as [Hwrap|Hno].
  - rewrite !u64_small by lia. split; [split; cbn; auto; lia|]. split; [|split; [by split|cbn; lia]].
    unfold queued. cbn [rb_read_loc rb_write_loc].
    rewrite (read_bytes_same rb) by (by split). rewrite read_bytes_wrap by lia. f_equal. lia.
  - split; [split; cbn; auto; lia|]. split; [|split; [by split|cbn; lia]].
    unfold queued. cbn [rb_read_loc rb_write_loc]. rewrite (read_bytes_same rb) by (by split). f_equal. lia.
Qed.

Lemma queued_length rb : rb_wf rb -> Z.of_nat (length (queued rb)) = ringbuf_size rb.
Proof.
  intros Hwf. rewrite size_wf by done. unfold queued. rewrite length_read_bytes. destruct Hwf as [_ ? ? ?]. lia.
Qed.

Lemma queued_take rb n : rb_wf rb -> 0 <= n <= ringbuf_size rb ->
  read_bytes rb (rb_read_loc rb) n = take (Z.to_nat n) (queued rb).
Proof.
  intros Hwf Hn. rewrite size_wf in Hn by done. unfold queued.
  replace (rb_write_loc rb - rb_read_loc rb) with (n + (rb_write_loc rb - rb_read_loc rb - n)) by lia.
  rewrite read_bytes_app by lia. rewrite take_app_length'; [done|by rewrite length_read_bytes].
Qed.

(** C27: pushing [l] when there is room and copying its bytes to the returned pointer appends
    them to the queue of unread bytes; popping [n] of them returns a pointer to the first [n]
    and removes them.  All accesses stay inside the doubled mapping. *)
Theorem ringbuf_is_fifo (rb : ringbuf) (l : list Z) (n : Z)
  (Hwf : rb_wf rb) (Hroom : Z.of_nat (length l) <= ringbuf_avail rb) (Hn : 0 <= n <= ringbuf_size rb) :
  (let (rb1, x) := ringbuf_push rb (Z.of_nat (length l)) in
   let rb2 := write_bytes rb1 x l in
   rb_wf rb2 /\ queued rb2 = queued rb ++ l /\ x + Z.of_nat (length l) <= 2 * rb_capacity rb)
  /\ (let (rb1, x) := ringbuf_pop rb n in
      rb_wf rb1 /\ read_bytes rb x n = take (Z.to_nat n) (queued rb)
      /\ queued rb1 = drop (Z.to_nat n) (queued rb) /\ x + n <= 2 * rb_capacity rb).
Proof.
  split; [by apply push_write_spec|]. cbn.
  destruct (rseek_spec rb n Hwf Hn) as (H1 & H2 & _). split; [done|]. split; [by apply queued_take|]. split; [done|].
  rewrite size_wf in Hn by done. destruct Hwf as [_ ? ? ?]. lia.
Qed.

Definition rb_demo : ringbuf := Ringbuf (Some [10; 11; 12; 13]) 4 3 5.

Lemma rb_demo_wf : rb_wf rb_demo.
Proof. split; cbn; [|lia..]. eexists. split; reflexivity. Qed.

Lemma ringbuf_is_fifo_witness :
  queued rb_demo = [13; 10]
  /\ (let (rb1, x) := ringbuf_push rb_demo 2 in queued (write_bytes rb1 x [7; 8]) = [13; 10; 7; 8])
  /\ (let (rb1, x) := ringbuf_pop rb_demo 1 in read_bytes rb_demo x 1 = [13] /\ queued rb1 = [10]).
Proof.
  split; [reflexivity|].
  destruct (ringbuf_is_fifo rb_demo [7; 8] 1 rb_demo_wf) as [(H1 & H2 & H3) (H4 & H5 & H6 & H7)];
    [vm_compute; congruence|vm_compute; split; congruence|].
  split; [exact H2|]. split; [exact H5|exact H6].
Defined.

(** Dropping records of [n] bytes until there is room for one more. *)
Lemma rolling_loop_spec n fuel : forall rb,
  rb_wf rb -> 0 < n <= rb_capacity rb -> ringbuf_size rb mod n = 0 -> ringbuf_size rb < Z.of_nat fuel ->
  exists rb' k, rolling_loop fuel rb n = Some rb' /\ 0 <= k /\ rb_wf rb' /\ same_mem rb rb'
    /\ queued rb' = drop (Z.to_nat (k * n)) (queued rb) /\ n <= ringbuf_avail rb' /\ ringbuf_size rb' mod n = 0
    /\ (0 < k -> rb_capacity rb - n < ringbuf_size rb' + n).
Proof.
  induction fuel as [|f IH]; intros rb Hwf Hn Hmod Hf; [pose proof (queued_length rb Hwf); lia|].
  cbn [rolling_loop]. pose proof (avail_wf rb Hwf) as Ha. pose proof (size_wf rb Hwf) as Hsz.
  destruct (Z.ltb_spec (ringbuf_avail rb) n) as [Hlt|Hge].
  2:{ exists rb, 0. split; [done|]. split; [lia|]. split; [done|]. split; [by split|]. split; [done|]. split; [done|]. split; [done|lia]. }
  assert (n <= ringbuf_size rb) as Hle.
  { pose proof (Z.div_mod (ringbuf_size rb) n ltac:(lia)). destruct (Z.le_gt_cases n (ringbuf_size rb)); [done|].
    rewrite Z.mod_small in Hmod by (pose proof (queued_length rb Hwf); lia). lia. }
  destruct (rseek_spec rb n Hwf ltac:(lia)) as (Hwf1 & Hq1 & [Hm1 Hc1] & Hs1).
  set (rb1 := ringbuf_rseek rb n) in *. pose proof (size_wf rb1 Hwf1) as Hsz1.
  destruct (IH rb1) as (rb' & k & E & Hk & Hwf' & [Hm' Hc'] & Hq' & Ha' & Hmod' & Hmin); auto; try lia.
  { replace (ringbuf_size rb1) with (ringbuf_size rb + (-1) * n) by lia. rewrite Z.mod_add by lia. done. }
  exists rb', (k + 1). split; [exact E|]. split; [lia|]. split; [done|]. split; [split; congruence|].
  split; [rewrite Hq', Hq1, drop_drop; f_equal; lia|]. split; [done|]. split; [done|]. intros _.
  destruct (Z.eq_dec k 0) as [->|]; [|rewrite Hc1 in Hmin; apply Hmin; lia].
  assert (length (queued rb') = length (queued rb1)) as Hl by (rewrite Hq'; done).
  pose proof (queued_length rb' Hwf'). pose proof (queued_length rb1 Hwf1). lia.
Qed.

(** When only records of [n] bytes are stored, [ringbuf_rolling_push] terminates and makes
    room for one more record by dropping the oldest ones, as few as possible. *)
Theorem ringbuf_rolling_push_drops_oldest (rb : ringbuf) (n : Z) (fuel : nat)
  (Hwf : rb_wf rb) (Hn : 0 < n <= rb_capacity rb) (Hrecords : ringbuf_size rb mod n = 0)
  (Hfuel : ringbuf_size rb < Z.of_nat fuel) :
  exists rb' x k, ringbuf_rolling_push fuel rb n = Some (rb', x) /\ 0 <= k
    /\ x + n <= 2 * rb_capacity rb
    /\ read_bytes rb' (rb_read_loc rb') (x - rb_read_loc rb') = drop (Z.to_nat (k * n)) (queued rb)
    /\ rb_write_loc rb' = x + n
    /\ (0 < k -> rb_capacity rb < x - rb_read_loc rb' + 2 * n).
Proof.
  destruct (rolling_loop_spec n fuel rb Hwf Hn Hrecords Hfuel) as (rb1 & k & E & Hk & Hwf1 & [Hm Hc] & Hq & Ha & _ & Hmin).
  unfold ringbuf_rolling_push. rewrite E. cbn. eexists _, _, k. split; [done|]. split; [done|].
  pose proof (avail_wf rb1 Hwf1). pose proof (size_wf rb1 Hwf1). pose proof Hwf1 as [_ ? ? ?].
  split; [lia|]. cbn. rewrite (read_bytes_same rb1) by (by split).
  split; [exact Hq|]. split; [apply u64_small; lia|]. intros Hpos. specialize (Hmin Hpos). lia.
Qed.

Lemma ringbuf_rolling_push_drops_oldest_witness :
  exists rb' x k, ringbuf_rolling_push 10 (Ringbuf (Some [1; 2; 3; 4]) 4 1 5) 2 = Some (rb', x) /\ 0 <= k
    /\ read_bytes rb' (rb_read_loc rb') (x - rb_read_loc rb') = drop (Z.to_nat (k * 2)) [2; 3; 4; 1].
Proof.
  destruct (ringbuf_rolling_push_drops_oldest (Ringbuf (Some [1; 2; 3; 4]) 4 1 5) 2 10) as (rb' & x & k & H1 & H2 & _ & H3 & _).
  - split; cbn; [|lia..]. eexists. split; reflexivity.
  - cbn. lia.
  - reflexivity.
  - vm_compute. reflexivity.
  - exists rb', x, k. split; [exact H1|]. split; [exact H2|exact H3].
Defined.
