(* ===== verification/FileMapper.v ===== *)
(** * FileMapper: a file mapped as a whole ([include/file_mapper.h], [src/file_mapper.c])

    Also the variant that makes sure that the contents is a C string. *)

From stdpp Require Import base numbers list gmap.
From Stdlib Require Import ZArith Lia.
From S2P Require Import Prelude Words Bytes Os Ringbuf.

(** [fm_mem] is the inode that is mapped, and whether an anonymous page is mapped behind it. *)
Record file_mapper := FileMapper {
  fm_mem : option (Z * bool);
  fm_size : Z;
}.
Definition FILE_MAPPER_INITIALIZER : file_mapper := FileMapper None 0.

Abbreviation FM := (ST (fsys * file_mapper)).
Definition fm_self : FM file_mapper := fun s => Some (snd s, s).
Definition fm_set (v : file_mapper) : FM unit := fun s => Some (tt, (fst s, v)).

Definition O_RDONLY_CLOEXEC : Z := 0x80000.
Definition O_RDWR_CREAT_CLOEXEC : Z := 0x80042.

Section Ops.
Context (o : os).

(** The result is that of [munmap]; the fields are reset also if it fails. *)
Definition file_mapper_free : FM Z :=
  v ← fm_self;
  match fm_mem v with
  | None => mret 0
  | Some _ => fm_set (FileMapper None 0);; mret (if sys_munmap o (RIBS_VM_ALIGN (fm_size v)) then 0 else -1)
  end.

Definition file_mapper_init_with_fd (fd size : Z) : FM Z :=
  size ← (if size =? 0 then fstat o fd else r ← ftruncate o fd size; mret (if r <? 0 then None else Some size));
  match size with
  | None => mret (-1)
  | Some size =>
      i ← file_of fd;
      if size =? 0 then fm_set (FileMapper None size);; mret 0
      else match i with
           | Some ino => if sys_mmap o (RIBS_VM_ALIGN size) then fm_set (FileMapper (Some (ino, false)) size);; mret 0
                         else fm_set (FileMapper None size);; mret (-1)
           | None => fm_set (FileMapper None size);; mret (-1)
           end
  end.

Definition file_mapper_init_with_fd_r (fd : Z) : FM Z := file_mapper_init_with_fd fd 0.
Definition file_mapper_init_with_fd_rw (fd : Z) : FM Z := file_mapper_init_with_fd fd 0.

(** [open]: with O_CREAT a file that does not exist is created. *)
Definition open_or_create (filename : path) (flags : Z) : FM Z := fun '(fs, v) =>
  if bool_decide (fs_dir fs !! filename = None) && Z.testbit flags 6 then
    let fd := sys_open o filename flags in
    if fd <? 0 then Some (fd, (fs, v))
    else Some (fd, (Fsys (<[filename := fs_next fs]> (fs_dir fs)) (<[fs_next fs := []]> (fs_data fs)) (<[fd := fs_next fs]> (fs_fds fs)) (fs_next fs + 1), v))
  else sys_open_file o filename flags (fs, v).

Definition file_mapper_init2 (filename : path) (size flags : Z) : FM Z :=
  r ← file_mapper_free;
  if r <? 0 then mret (-1)
  else
    fd ← open_or_create filename flags;
    if fd <? 0 then mret (-1)
    else
      r ← file_mapper_init_with_fd fd size;
      if r <? 0 then v ← fm_self; fm_set (FileMapper None (fm_size v));; close_fd o fd;; mret (-1)
      else close_fd o fd;; mret 0.

Definition file_mapper_init (filename : path) : FM Z := file_mapper_init2 filename 0 O_RDONLY_CLOEXEC.
Definition file_mapper_init_rw (filename : path) (size : Z) : FM Z := file_mapper_init2 filename size O_RDWR_CREAT_CLOEXEC.

(** The descriptor stays open. *)
Definition file_mapper_init_null_terminated (filename : path) : FM Z :=
  r ← file_mapper_free;
  if r <? 0 then mret (-1)
  else
    fd ← sys_open_file o filename O_RDONLY_CLOEXEC;
    if fd <? 0 then mret (-1)
    else
      st ← fstat o fd; i ← file_of fd;
      match st, i with
      | Some st_size, Some ino =>
          let size := RIBS_VM_ALIGN st_size in
          let extra_page := size =? st_size in
          let size := if extra_page then u64 (size + RIBS_VM_PAGESIZE) else size in
          if negb (sys_mmap o size) then fm_set (FileMapper None size);; mret (-1)
          else if extra_page && negb (sys_mmap o RIBS_VM_PAGESIZE) then fm_set (FileMapper None size);; mret (-1)
          else fm_set (FileMapper (Some (ino, extra_page)) size);; mret 0
      | _, _ => mret (-1)
      end.
End Ops.

(** [n] bytes at an offset from [mem].  The rest of the last page of the file is zero, as is an
    extra page; behind the last page of the file there is nothing to read. *)
Definition file_mapper_data (ofs n : Z) : FM (list Z) := fun s =>
  match fm_mem (snd s) with
  | None => None
  | Some (ino, extra) =>
      match fs_data (fst s) !! ino with
      | None => None
      | Some f =>
          let pages := RIBS_VM_ALIGN (Z.of_nat (length f)) in
          let readable := if extra then fm_size (snd s) else Z.min (RIBS_VM_ALIGN (fm_size (snd s))) pages in
          if (0 <=? ofs) && (0 <=? n) && (ofs + n <=? readable)
          then Some (subrange (f ++ replicate (Z.to_nat (readable - Z.of_nat (length f))) 0) ofs n, s) else None
      end
  end.
Definition file_mapper_size : FM Z := v ← fm_self; mret (fm_size v).
