(* ===== verification/Ringfile.v ===== *)
(** * Ringfile: ring buffer in a file ([include/ringfile.h], [src/ringfile.c], [src/_ringfile.c])

    A ringfile maps a file of a header page range ([reserved] bytes, header included) and
    [capacity] bytes of data, the data twice in a row.  The header with the read and write
    positions is inside the file, so the queue outlives the process.  Files are lists of bytes
    under their names; while a file is mapped its contents is what the mapping shows. *)

From stdpp Require Import base numbers list gmap.
From Stdlib Require Import ZArith Lia.
From S2P Require Import Prelude Words Bytes Os Ringbuf.

Abbreviation files := (gmap (list Z) (list Z)) (only parsing).

(** The calls on names of files and the flush of a mapping. *)
Record file_os := {
  sys_unlink : path -> bool;
  sys_rename : path -> path -> bool;
  sys_msync : Z -> bool;
}.

(** What a mapping shows: [mp_reserved + mp_capacity] bytes of the file, then the last
    [mp_capacity] of them again. *)
Record mapping := Mapping { mp_path : path; mp_reserved : Z; mp_capacity : Z }.

(** [rb->mem]: NULL, MAP_FAILED, a range without access, the mapping, an unmapped range. *)
Inductive rmem := MemNull | MemFailed | MemNoAccess | MemMap (m : mapping) | MemUnmapped.

(** [rf_rbuf] is an offset from [mem]. *)
Record ringfile := RF { rf_rbuf : Z; rf_mem : rmem }.
Definition RINGFILE_INITIALIZER : ringfile := RF 0 MemNull.

(** The header: four words at the start of the file. *)
Record ringfile_header := Header { h_capacity : Z; h_read_loc : Z; h_write_loc : Z; h_reserved_size : Z }.
Definition sizeof_ringfile_header : Z := 32.
Definition ringfile_get_header (f : list Z) : ringfile_header := Header (get64 f 0) (get64 f 8) (get64 f 16) (get64 f 24).
Definition set_hdr_capacity (f : list Z) (v : Z) : list Z := put64 f 0 v.
Definition set_read_loc (f : list Z) (v : Z) : list Z := put64 f 8 v.
Definition set_write_loc (f : list Z) (v : Z) : list Z := put64 f 16 v.
Definition set_reserved_size (f : list Z) (v : Z) : list Z := put64 f 24 v.

(** ** Operations on a mapped file

    [f] is the contents of the mapped file; pointers are offsets from [rb->mem]. *)

Definition ringfile_data (rb : ringfile) : Z := rf_rbuf rb.
Definition ringfile_get_reserved : Z := sizeof_ringfile_header.
Definition ringfile_reset (f : list Z) : list Z := set_read_loc (set_write_loc f 0) 0.
Definition ringfile_wloc (f : list Z) (rb : ringfile) : Z := rf_rbuf rb + h_write_loc (ringfile_get_header f).
Definition ringfile_rloc (f : list Z) (rb : ringfile) : Z := rf_rbuf rb + h_read_loc (ringfile_get_header f).

Definition ringfile_rloc_reverse (f : list Z) (rb : ringfile) (size : Z) : Z :=
  let h := ringfile_get_header f in
  let mem := if h_read_loc h <? size then rf_rbuf rb + h_capacity h else rf_rbuf rb in
  mem + h_read_loc h - size.

Definition ringfile_rlocpos (f : list Z) : Z := h_read_loc (ringfile_get_header f).
Definition ringfile_wlocpos (f : list Z) : Z := h_write_loc (ringfile_get_header f).

Definition ringfile_wseek (f : list Z) (by_ : Z) : list Z := set_write_loc f (u64 (ringfile_wlocpos f + by_)).

Definition ringfile_rseek (f : list Z) (by_ : Z) : list Z :=
  let f := set_read_loc f (u64 (ringfile_rlocpos f + by_)) in
  let cap := h_capacity (ringfile_get_header f) in
  if ringfile_rlocpos f >=? cap then
    let f := set_read_loc f (u64 (ringfile_rlocpos f - cap)) in
    set_write_loc f (u64 (ringfile_wlocpos f - cap))
  else f.

Definition ringfile_rseek_reverse (f : list Z) (by_ : Z) : list Z :=
  let cap := h_capacity (ringfile_get_header f) in
  let f := if ringfile_rlocpos f <? by_ then
             let f := set_read_loc f (u64 (ringfile_rlocpos f + cap)) in
             set_write_loc f (u64 (ringfile_wlocpos f + cap))
           else f in
  set_read_loc f (u64 (ringfile_rlocpos f - by_)).

Definition ringfile_size (f : list Z) : Z := u64 (ringfile_wlocpos f - ringfile_rlocpos f).
Definition ringfile_capacity (f : list Z) : Z := h_capacity (ringfile_get_header f).
Definition ringfile_avail (f : list Z) : Z := u64 (ringfile_capacity f - ringfile_size f).
Definition ringfile_empty (f : list Z) : bool := ringfile_wlocpos f =? ringfile_rlocpos f.

Definition ringfile_pop (f : list Z) (rb : ringfile) (n : Z) : list Z * Z := (ringfile_rseek f n, ringfile_rloc f rb).
Definition ringfile_push (f : list Z) (rb : ringfile) (n : Z) : list Z * Z := (ringfile_wseek f n, ringfile_wloc f rb).

Fixpoint ringfile_rolling_loop (fuel : nat) (f : list Z) (n : Z) : option (list Z) :=
  if ringfile_avail f <? n then
    match fuel with
    | O => None
    | S k => ringfile_rolling_loop k (ringfile_rseek f n) n
    end
  else Some f.

Definition ringfile_rolling_push (fuel : nat) (f : list Z) (rb : ringfile) (n : Z) : option (list Z * Z) :=
  f ← ringfile_rolling_loop fuel f n; Some (ringfile_push f rb n).

(** Access through an address [x] of the mapping; [None] is outside of it. *)
Definition file_ofs (mp : mapping) (x : Z) : option Z :=
  let first := mp_reserved mp + mp_capacity mp in
  if (0 <=? x) && (x <? first) then Some x
  else if (first <=? x) && (x <? first + mp_capacity mp) then Some (x - mp_capacity mp)
  else None.

Definition rf_peek (f : list Z) (mp : mapping) (x : Z) : option Z := i ← file_ofs mp x; f !! Z.to_nat i.

Definition mem_read (f : list Z) (mp : mapping) (x n : Z) : option (list Z) := mapM (rf_peek f mp) (seqZ x n).

Fixpoint mem_write (f : list Z) (mp : mapping) (x : Z) (l : list Z) : option (list Z) :=
  match l with
  | [] => Some f
  | v :: l => i ← file_ofs mp x; mem_write (<[Z.to_nat i := v]> f) mp (x + 1) l
  end.

(** ** Opening and resizing *)

Section Files.
Context (o : os) (fo : file_os).

Definition O_RDONLY_NOATIME : Z := 0x40000.
Definition O_RDWR_CREAT_NOATIME : Z := 0x40042.
Definition PATH_MAX : Z := 4096.

(** [None] is the result -1.  A file that does not exist gives an empty header. *)
Definition _ringfile_read_header (fs : files) (filename : path) : option ringfile_header :=
  match fs !! filename with
  | None => Some (Header 0 0 0 0)
  | Some f =>
      let fd := sys_open o filename O_RDONLY_NOATIME in
      if fd <? 0 then None else
      match sys_fstat o fd with
      | None => None
      | Some _ =>
          if Z.of_nat (length f) <? sizeof_ringfile_header then None else
          if negb (sys_mmap o (RIBS_VM_ALIGN sizeof_ringfile_header)) then None else
          Some (ringfile_get_header f)
      end
  end.

Definition ringfile_init (fs : files) (rb : ringfile) (filename : path) (size reserved : Z) : files * ringfile * Z :=
  let reserved := RIBS_VM_ALIGN (u64 (reserved + sizeof_ringfile_header)) in
  let capacity := RIBS_VM_ALIGN size in
  let fd := sys_open o filename O_RDWR_CREAT_NOATIME in
  if fd <? 0 then (fs, rb, -1) else
  let f := default [] (fs !! filename) in
  let fs := <[filename := f]> fs in
  if negb (sys_ftruncate o fd (u64 (capacity + reserved))) then (fs, rb, -1) else
  let f := truncate f (u64 (capacity + reserved)) in
  let fs := <[filename := f]> fs in
  let total_vmsize := u64 (reserved + u64 (Z.shiftl capacity 1)) in
  if negb (sys_mmap o total_vmsize) then (fs, RF (rf_rbuf rb) MemFailed, -1) else
  if negb (sys_mmap o (u64 (reserved + capacity))) then (fs, RF (rf_rbuf rb) MemNoAccess, -1) else
  let h := ringfile_get_header f in
  let f := if negb (h_capacity h =? capacity) || negb (h_reserved_size h =? reserved) then ringfile_reset f else f in
  let f := set_reserved_size (set_hdr_capacity f capacity) reserved in
  let fs := <[filename := f]> fs in
  if negb (sys_mmap o capacity) then (fs, RF reserved MemUnmapped, -1) else
  (fs, RF reserved (MemMap (Mapping filename reserved capacity)), 0).

(** [None]: the header is read through a pointer to no readable memory. *)
Definition ringfile_free (fs : files) (rb : ringfile) : option (ringfile * Z) :=
  match rf_mem rb with
  | MemNull => Some (rb, 0)
  | MemMap mp =>
      f ← fs !! mp_path mp;
      let h := ringfile_get_header f in
      if sys_munmap o (u64 (h_reserved_size h + u64 (Z.shiftl (h_capacity h) 1)))
      then Some (RF (rf_rbuf rb) MemNull, 0) else Some (rb, -1)
  | _ => None
  end.

Definition ringfile_sync (fs : files) (rb : ringfile) : option Z :=
  match rf_mem rb with
  | MemNull => Some 0
  | MemMap mp =>
      f ← fs !! mp_path mp;
      let h := ringfile_get_header f in
      Some (if sys_msync fo (u64 (h_reserved_size h + h_capacity h)) then 0 else -1)
  | _ => None
  end.

(** [while (ringfile_size(&old) > capacity_aligned) evict_one_rec(&old);] *)
Fixpoint evict_loop (fuel : nat) (evict_one_rec : list Z -> list Z) (f : list Z) (capacity_aligned : Z) : option (list Z) :=
  if ringfile_size f >? capacity_aligned then
    match fuel with
    | O => None
    | S k => evict_loop k evict_one_rec (evict_one_rec f) capacity_aligned
    end
  else Some f.

(** The unread part of [old] made to fit. *)
Definition shrink_old (fuel : nat) (evict_one_rec : option (list Z -> list Z)) (f : list Z) (capacity_aligned : Z) : option (list Z) :=
  match evict_one_rec with
  | Some ev => evict_loop fuel ev f capacity_aligned
  | None => Some (if ringfile_size f >? capacity_aligned
                  then ringfile_rseek f (u64 (ringfile_size f - capacity_aligned)) else f)
  end.

(** The two copies from the old to the new file, and the seek. *)
Definition copy_old (fold fnew : list Z) (mold mnew : mapping) (old new : ringfile) (nres : Z) : option (list Z) :=
  res ← mem_read fold mold ringfile_get_reserved nres;
  fnew ← mem_write fnew mnew ringfile_get_reserved res;
  data ← mem_read fold mold (ringfile_rloc fold old) (ringfile_size fold);
  fnew ← mem_write fnew mnew (ringfile_wloc fnew new) data;
  Some (ringfile_wseek fnew (ringfile_size fold)).

(** ".new.temp" *)
Definition new_ext : list Z := [46; 110; 101; 119; 46; 116; 101; 109; 112].

(** [None]: an invalid access, or the eviction does not end within [fuel] rounds. *)
Definition _ringfile_resize (fuel : nat) (fs : files) (filename : path) (capacity reserved : Z)
    (evict_one_rec : option (list Z -> list Z)) : option (files * Z) :=
  let filename_new := filename ++ new_ext in
  if PATH_MAX <=? Z.of_nat (length filename_new) then Some (fs, -1) else
  match _ringfile_read_header fs filename with
  | None => Some (fs, -1)
  | Some header =>
      if 0 =? h_capacity header then Some (fs, 0) else
      let reserved_aligned := RIBS_VM_ALIGN (u64 (reserved + sizeof_ringfile_header)) in
      let capacity_aligned := RIBS_VM_ALIGN capacity in
      if (h_capacity header =? capacity_aligned) && (h_reserved_size header =? reserved_aligned) then Some (fs, 0) else
      let '(fs, old, r) := ringfile_init fs RINGFILE_INITIALIZER filename (h_capacity header)
                             (u64 (h_reserved_size header - sizeof_ringfile_header)) in
      if r <? 0 then Some (fs, -1) else
      fold ← fs !! filename;
      fold ← shrink_old fuel evict_one_rec fold capacity_aligned;
      let fs := <[filename := fold]> fs in
      if bool_decide (is_Some (fs !! filename_new)) && negb (sys_unlink fo filename_new)
      then '(_, _) ← ringfile_free fs old; Some (fs, -1) else
      let fs := delete filename_new fs in
      let '(fs, new, r) := ringfile_init fs RINGFILE_INITIALIZER filename_new capacity reserved in
      if r <? 0 then '(_, _) ← ringfile_free fs old; Some (fs, -1) else
      match rf_mem old, rf_mem new with
      | MemMap mold, MemMap mnew =>
          fnew ← fs !! filename_new;
          fnew ← copy_old fold fnew mold mnew old new
                   (Z.min (u64 (h_reserved_size header - sizeof_ringfile_header)) (u64 (reserved_aligned - sizeof_ringfile_header)));
          let fs := <[filename_new := fnew]> fs in
          '(_, _) ← ringfile_free fs old; '(_, _) ← ringfile_free fs new;
          if negb (sys_rename fo filename_new filename) then Some (fs, -1) else
          Some (<[filename := fnew]> (delete filename_new fs), 0)
      | _, _ => None
      end
  end.

Definition ringfile_init_with_resize (fuel : nat) (fs : files) (rb : ringfile) (filename : path) (size reserved : Z)
    (evict_one_rec : option (list Z -> list Z)) : option (files * ringfile * Z) :=
  '(fs, r) ← _ringfile_resize fuel fs filename size reserved evict_one_rec;
  if r <? 0 then Some (fs, rb, -1) else Some (ringfile_init fs rb filename size reserved).

Definition ringfile_init_safe_resize (fuel : nat) (fs : files) (rb : ringfile) (filename : path) (size reserved : Z)
    : option (files * ringfile * Z) :=
  match _ringfile_read_header fs filename with
  | None => Some (fs, rb, -1)
  | Some header =>
      let reserved_aligned := RIBS_VM_ALIGN (u64 (reserved + sizeof_ringfile_header)) in
      let capacity_aligned := RIBS_VM_ALIGN size in
      if negb (h_capacity header =? 0) then
        if negb (h_reserved_size header =? reserved_aligned) then Some (fs, rb, -1) else
        if capacity_aligned <? h_capacity header then Some (fs, rb, -1) else
        if h_capacity header <? capacity_aligned then
          '(fs, r) ← _ringfile_resize fuel fs filename size reserved None;
          if r <? 0 then Some (fs, rb, -1) else Some (ringfile_init fs rb filename size reserved)
        else Some (ringfile_init fs rb filename size reserved)
      else Some (ringfile_init fs rb filename size reserved)
  end.
End Files.
