(* ===== verification/RingfileFacts.v ===== *)
(** * RingfileFacts: a ringfile is a ring buffer that outlives the process

    [view] reads a mapped file as a ring buffer of [Ringbuf.v]; the operations of the file
    version are those of the memory version on the view.  Opening and resizing keep the queue. *)

From stdpp Require Import base numbers list gmap.
From Stdlib Require Import ZArith Lia.
From S2P Require Import Prelude Words Bytes Os Ringbuf Ringfile.

Definition view (f : list Z) (res cap : Z) : ringbuf :=
  Ringbuf (Some (subrange f res cap)) (get64 f 0) (get64 f 8) (get64 f 16).

Record rf_wf (f : list Z) (res cap : Z) : Prop := {
  rf_wf_len : Z.of_nat (length f) = res + cap;
  rf_wf_cap : get64 f 0 = cap;
  rf_wf_res : get64 f 24 = res;
  rf_wf_bounds : 32 <= res <= 2 ^ 60 /\ 0 < cap <= 2 ^ 60;
  rf_wf_pages : res mod RIBS_VM_PAGESIZE = 0 /\ cap mod RIBS_VM_PAGESIZE = 0;
  rf_wf_locs : 0 <= get64 f 8 < cap /\ get64 f 8 <= get64 f 16 <= get64 f 8 + cap;
}.

Lemma view_wf f res cap : rf_wf f res cap -> rb_wf (view f res cap).
Proof.
  intros [Hl Hc Hr Hb Hp Hloc]. split; cbn; rewrite ?Hc; try lia.
  eexists. split; [done|]. rewrite length_subrange by lia. lia.
Qed.

(** ** Header fields *)


(** The file after the header is out of the setters' reach. *)
Lemma set_read_loc_spec f v res cap : 32 <= Z.of_nat (length f) -> 32 <= res -> 0 <= v < 2 ^ 64 ->
  let f' := set_read_loc f v in
  length f' = length f /\ get64 f' 24 = get64 f 24 /\ (forall x n, 32 <= x -> subrange f' x n = subrange f x n)
  /\ view f' res cap = Ringbuf (rb_mem (view f res cap)) (get64 f 0) v (get64 f 16).
Proof.
  intros Hl Hr Hv f'. unfold f', set_read_loc, view. split; [apply length_put64; lia|].
  split; [apply get64_put64_ne; lia|]. split; [intros; apply subrange_put64; lia|].
  rewrite get64_put64, !get64_put64_ne, subrange_put64 by lia. done.
Qed.

Lemma set_write_loc_spec f v res cap : 32 <= Z.of_nat (length f) -> 32 <= res -> 0 <= v < 2 ^ 64 ->
  let f' := set_write_loc f v in
  length f' = length f /\ get64 f' 24 = get64 f 24 /\ (forall x n, 32 <= x -> subrange f' x n = subrange f x n)
  /\ view f' res cap = Ringbuf (rb_mem (view f res cap)) (get64 f 0) (get64 f 8) v.
Proof.
  intros Hl Hr Hv f'. unfold f', set_write_loc, view. split; [apply length_put64; lia|].
  split; [apply get64_put64_ne; lia|]. split; [intros; apply subrange_put64; lia|].
  rewrite get64_put64, !get64_put64_ne, subrange_put64 by lia. done.
Qed.

(** [f'] differs from [f] in the two positions only. *)
Record moved (f f' : list Z) : Prop := {
  moved_len : length f' = length f;
  moved_cap : get64 f' 0 = get64 f 0;
  moved_res : get64 f' 24 = get64 f 24;
  moved_rest : forall x n, 32 <= x -> subrange f' x n = subrange f x n;
}.

Lemma moved_refl f : moved f f.
Proof. by split. Qed.

Lemma moved_trans f g h : moved f g -> moved g h -> moved f h.
Proof. intros [? ? ? H1] [? ? ? H2]. split; [congruence..|]. intros. by rewrite H2, H1. Qed.

Lemma view_fields f f' res cap rl wl : view f' res cap = Ringbuf (rb_mem (view f res cap)) (get64 f 0) rl wl ->
  get64 f' 0 = get64 f 0 /\ get64 f' 8 = rl /\ get64 f' 16 = wl.
Proof. intros H. by inversion H. Qed.

Lemma moved_wf f f' res cap : rf_wf f res cap -> moved f f' ->
  0 <= get64 f' 8 < cap -> get64 f' 8 <= get64 f' 16 <= get64 f' 8 + cap -> rf_wf f' res cap.
Proof. intros [Hl Hc Hr Hb Hp _] [Hl' Hc' Hr' _] H1 H2. split; try done; congruence || lia. Qed.

Section Ops.
Context (f : list Z) (res cap : Z) (Hwf : rf_wf f res cap).

Local Lemma len32 : 32 <= Z.of_nat (length f).
Proof. destruct Hwf. lia. Qed.

Lemma size_view : ringfile_size f = ringbuf_size (view f res cap).
Proof. done. Qed.
Lemma avail_view : ringfile_avail f = ringbuf_avail (view f res cap).
Proof. done. Qed.

Lemma wseek_view n : let f' := ringfile_wseek f n in
  moved f f' /\ view f' res cap = ringbuf_wseek (view f res cap) n.
Proof.
  pose proof len32. destruct Hwf as [? ? ? ? ? ?]. cbv zeta. unfold ringfile_wseek.
  destruct (set_write_loc_spec f (u64 (ringfile_wlocpos f + n)) res cap) as (H1 & H2 & H3 & H4); [lia..|apply u64_range|].
  split; [|exact H4]. apply view_fields in H4 as (? & _). by split.
Qed.

Lemma rseek_view n : let f' := ringfile_rseek f n in
  moved f f' /\ view f' res cap = ringbuf_rseek (view f res cap) n.
Proof.
  pose proof len32. destruct Hwf as [? ? ? ? ? ?]. cbv zeta. unfold ringfile_rseek. set (rl := u64 (ringfile_rlocpos f + n)).
  destruct (set_read_loc_spec f rl res cap) as (H1 & H2 & H3 & H4); [lia..|apply u64_range|].
  set (f1 := set_read_loc f rl) in *. assert (M1 : moved f f1) by (apply view_fields in H4 as (? & _); by split).
  pose proof (view_fields _ _ _ _ _ _ H4) as (E0 & E8 & E16).
  unfold ringfile_rlocpos, ringfile_wlocpos, ringfile_get_header, ringbuf_rseek. cbn [h_read_loc h_capacity h_write_loc].
  cbn [view rb_read_loc rb_capacity rb_write_loc rb_mem]. rewrite E0, E8. unfold rl, ringfile_rlocpos, ringfile_get_header. cbn [h_read_loc].
  destruct (u64 (get64 f 8 + n) >=? get64 f 0); [|split; [done|exact H4]].
  set (rl2 := u64 (u64 (get64 f 8 + n) - get64 f 0)).
  destruct (set_read_loc_spec f1 rl2 res cap) as (G1 & G2 & G3 & G4); [lia..|apply u64_range|].
  set (f2 := set_read_loc f1 rl2) in *. pose proof (view_fields _ _ _ _ _ _ G4) as (F0 & F8 & F16).
  destruct (set_write_loc_spec f2 (u64 (get64 f2 16 - get64 f 0)) res cap) as (K1 & K2 & K3 & K4); [lia..|apply u64_range|].
  pose proof (view_fields _ _ _ _ _ _ K4) as (J0 & _).
  split.
  - apply (moved_trans _ f1), (moved_trans _ f2); [done|by split|by split].
  - rewrite K4. f_equal; [|lia..|rewrite F16, E16; done].
    assert (Hm : forall x y, view x res cap = y -> rb_mem (view x res cap) = rb_mem y) by congruence.
    rewrite (Hm _ _ G4). cbn [rb_mem]. by rewrite (Hm _ _ H4).
Qed.

(** Going back by [n] bytes undoes reading them. *)
Lemma rseek_reverse_view n : 0 <= n <= ringfile_size f -> let f' := ringfile_rseek_reverse (ringfile_rseek f n) n in
  moved f f' /\ view f' res cap = view f res cap.
Proof.
  intros Hn. destruct (rseek_view n) as [M1 V1]. pose proof len32. pose proof Hwf as [Hl Hc Hr Hb Hp Hloc]. cbv zeta.
  set (f1 := ringfile_rseek f n) in *. rewrite size_view, size_wf in Hn by (by apply view_wf). cbn in Hn.
  assert (Hl1 : length f1 = length f) by apply M1.
  unfold ringbuf_rseek in V1. cbn [view rb_read_loc rb_capacity rb_write_loc rb_mem] in V1. rewrite Hc in V1.
  rewrite (u64_small (get64 f 8 + n)) in V1 by lia. rewrite Z.geb_leb in V1.
  unfold ringfile_rseek_reverse, ringfile_rlocpos, ringfile_wlocpos, ringfile_get_header. cbn [h_read_loc h_capacity h_write_loc].
  destruct (Z.leb_spec cap (get64 f 8 + n)).
  - rewrite !u64_small in V1 by lia. injection V1 as Em E0 E8 E16. rewrite E8, E0.
    rewrite (proj2 (Z.ltb_lt _ _)) by lia.
    set (v := u64 (get64 f 8 + n - cap + cap)). assert (v = get64 f 8 + n) by (unfold v; rewrite u64_small; lia).
    destruct (set_read_loc_spec f1 v res cap) as (G1 & G2 & G3 & G4); [lia..|]. set (f2 := set_read_loc f1 v) in *.
    pose proof (view_fields _ _ _ _ _ _ G4) as (F0 & F8 & F16). rewrite F16, E16.
    set (w := u64 (get64 f 16 - cap + cap)). assert (w = get64 f 16) by (unfold w; rewrite u64_small; lia).
    destruct (set_write_loc_spec f2 w res cap) as (K1 & K2 & K3 & K4); [lia..|]. set (f3 := set_write_loc f2 w) in *.
    pose proof (view_fields _ _ _ _ _ _ K4) as (J0 & J8 & J16).
    set (x := u64 (get64 f3 8 - n)). assert (x = get64 f 8) by (unfold x; rewrite u64_small; lia).
    destruct (set_read_loc_spec f3 x res cap) as (L1 & L2 & L3 & L4); [lia..|].
    pose proof (view_fields _ _ _ _ _ _ L4) as (I0 & _).
    split.
    + apply (moved_trans _ f1), (moved_trans _ f2), (moved_trans _ f3); [done|by split..].
    + rewrite L4. unfold view. cbn [rb_mem]. f_equal; [|lia..]. f_equal. rewrite K3, G3 by lia. apply M1. lia.
  - injection V1 as Em E0 E8 E16. rewrite E8. rewrite (proj2 (Z.ltb_ge _ _)) by lia. rewrite E8.
    set (x := u64 (get64 f 8 + n - n)). assert (x = get64 f 8) by (unfold x; rewrite u64_small; lia).
    destruct (set_read_loc_spec f1 x res cap) as (L1 & L2 & L3 & L4); [lia..|].
    pose proof (view_fields _ _ _ _ _ _ L4) as (I0 & _).
    split; [apply (moved_trans _ f1); [done|by split]|]. rewrite L4. unfold view. cbn [rb_mem]. f_equal; [|lia..]. f_equal. apply M1. lia.
Qed.

(** ** Access through the mapping *)

Context (p : path).
Let mp := Mapping p res cap.

Lemma file_ofs_data x : 0 <= x < 2 * cap -> file_ofs mp (res + x) = Some (res + x mod cap).
Proof.
  intros Hx. destruct Hwf. unfold file_ofs. cbn. destruct (Z.lt_ge_cases x cap).
  - rewrite (proj2 (Z.leb_le 0 _)), (proj2 (Z.ltb_lt _ (res + cap))) by lia. cbn. by rewrite Z.mod_small by lia.
  - rewrite (proj2 (Z.ltb_ge _ (res + cap))), andb_false_r by lia.
    rewrite (proj2 (Z.leb_le (res + cap) _)), (proj2 (Z.ltb_lt _ (res + cap + cap))) by lia. cbn. f_equal.
    replace x with (x - cap + 1 * cap) at 2 by lia. rewrite Z.mod_add, Z.mod_small by lia. lia.
Qed.

Lemma peek_data x : 0 <= x < 2 * cap -> rf_peek f mp (res + x) = Some (byte_at (view f res cap) x).
Proof.
  intros Hx. destruct Hwf. unfold rf_peek. rewrite file_ofs_data by done. cbn. unfold byte_at. cbn. rewrite rf_wf_cap0.
  pose proof (Z.mod_pos_bound x cap ltac:(lia)). rewrite lookup_subrange by lia.
  rewrite Z2Nat.inj_add by lia. destruct (f !! _) eqn:E; [done|]. apply lookup_ge_None in E. lia.
Qed.

Lemma mem_read_data x n : 0 <= x -> 0 <= n -> x + n <= 2 * cap ->
  mem_read f mp (res + x) n = Some (read_bytes (view f res cap) x n).
Proof.
  intros Hx Hn Hb. apply mapM_Some. unfold read_bytes. replace (seqZ (res + x) n) with (Z.add res <$> seqZ x n) by (by rewrite fmap_add_seqZ).
  rewrite Forall2_fmap. apply Forall2_same_length_lookup. split; [done|]. intros i a b Ha Hb'.
  assert (a = b) as -> by congruence. apply lookup_seqZ in Ha. apply peek_data. lia.
Qed.
End Ops.

(** A byte of the data written through the mapping. *)
Lemma poke_data f res cap x v : rf_wf f res cap -> 0 <= x < 2 * cap ->
  let f' := <[Z.to_nat (res + x mod cap) := v]> f in
  rf_wf f' res cap /\ view f' res cap = set_byte (view f res cap) x v
  /\ (forall y n, 0 <= y -> y + n <= res -> subrange f' y n = subrange f y n).
Proof.
  intros Hwf Hx f'. pose proof Hwf as [Hl Hc Hr Hb Hp Hloc]. pose proof (Z.mod_pos_bound x cap ltac:(lia)).
  assert (Hlow : forall y n, 0 <= y -> y + n <= res -> subrange f' y n = subrange f y n).
  { intros y n Hy0 Hy. unfold subrange, f'. apply list_eq. intros i. destruct (decide (i < Z.to_nat n)%nat).
    - rewrite !lookup_take_lt, !lookup_drop by done. apply list_lookup_insert_ne. lia.
    - by rewrite !lookup_take_ge by lia. }
  assert (Hg : forall y, 0 <= y -> y + 8 <= 32 -> get64 f' y = get64 f y) by (intros; unfold get64; rewrite Hlow by lia; done).
  split; [|split; [|done]].
  - split; rewrite ?Hg by lia; try done. unfold f'. rewrite length_insert. done.
  - unfold view, set_byte. cbn. rewrite !Hg by lia. f_equal. f_equal. rewrite Hc. unfold subrange, f'.
    rewrite drop_insert_ge by lia. rewrite take_insert_lt by lia. f_equal. lia.
Qed.

Lemma mem_write_data l : forall f res cap p x, rf_wf f res cap -> 0 <= x -> x + Z.of_nat (length l) <= 2 * cap ->
  exists f', mem_write f (Mapping p res cap) (res + x) l = Some f' /\ rf_wf f' res cap
    /\ view f' res cap = write_bytes (view f res cap) x l
    /\ (forall y n, 0 <= y -> y + n <= res -> subrange f' y n = subrange f y n).
Proof.
  induction l as [|v l IH]; intros f res cap p x Hwf Hx Hl; cbn [mem_write write_bytes length] in *; [by exists f|].
  rewrite (file_ofs_data f res cap Hwf p) by lia. cbn.
  destruct (poke_data f res cap x v Hwf ltac:(lia)) as (Hwf1 & Hv1 & Hlow1).
  destruct (IH _ res cap p (x + 1) Hwf1 ltac:(lia) ltac:(lia)) as (f' & E & Hwf' & Hv' & Hlow').
  exists f'. rewrite Z.add_assoc in E. split; [exact E|]. split; [done|]. split; [by rewrite Hv', Hv1|].
  intros y n Hy0 Hy. by rewrite Hlow', Hlow1.
Qed.

(** Access below the second copy is access to the file. *)
Lemma file_ofs_low p res cap x : 0 <= x < res + cap -> file_ofs (Mapping p res cap) x = Some x.
Proof. intros Hx. unfold file_ofs. cbn. by rewrite (proj2 (Z.leb_le 0 _)), (proj2 (Z.ltb_lt _ (res + cap))) by lia. Qed.

Lemma mem_read_low f p res cap x n : Z.of_nat (length f) = res + cap -> 0 <= x -> 0 <= n -> x + n <= res + cap ->
  mem_read f (Mapping p res cap) x n = Some (subrange f x n).
Proof.
  intros Hl Hx Hn Hb. apply mapM_Some. apply Forall2_same_length_lookup. rewrite length_seqZ, length_subrange by lia. split; [done|].
  intros i a b Ha E. apply lookup_seqZ in Ha as [-> Hi]. unfold rf_peek. rewrite file_ofs_low by lia. cbn.
  rewrite lookup_subrange in E by lia. rewrite <- E. f_equal. lia.
Qed.

Lemma splice_cons f x v l : 0 <= x -> x + Z.of_nat (length (v :: l)) <= Z.of_nat (length f) ->
  splice (<[Z.to_nat x := v]> f) (x + 1) l = splice f x (v :: l).
Proof.
  intros Hx Hl. cbn [length] in Hl. apply list_eq. intros i.
  rewrite !lookup_splice by (rewrite ?length_insert; cbn [length]; lia). cbn [length].
  destruct (decide (i = Z.to_nat x)) as [->|Hi].
  - rewrite decide_False by lia. rewrite decide_True by lia. rewrite list_lookup_insert_eq by lia. by rewrite Nat.sub_diag.
  - rewrite list_lookup_insert_ne by done. destruct (decide (Z.to_nat x <= i < Z.to_nat x + S (length l))%nat).
    + rewrite decide_True by lia. replace (i - Z.to_nat x)%nat with (S (i - Z.to_nat (x + 1))) by lia. done.
    + by rewrite decide_False by lia.
Qed.

Lemma mem_write_low p res cap l : forall f x, Z.of_nat (length f) = res + cap -> 0 <= x -> x + Z.of_nat (length l) <= res + cap ->
  mem_write f (Mapping p res cap) x l = Some (splice f x l).
Proof.
  induction l as [|v l IH]; intros f x Hl Hx Hb; cbn [mem_write length] in *.
  - unfold splice. cbn. by rewrite Nat.add_0_r, take_drop.
  - rewrite file_ofs_low by lia. cbn. rewrite IH by (rewrite ?length_insert; lia). f_equal. apply splice_cons; cbn [length]; lia.
Qed.

(** ** Opening *)

(** Every call succeeds. *)
Record calls_succeed (o : os) (fo : file_os) : Prop := {
  ok_open : forall p fl, 0 <= sys_open o p fl;
  ok_fstat : forall fd, is_Some (sys_fstat o fd);
  ok_mmap : forall n, sys_mmap o n = true;
  ok_truncate : forall fd n, sys_ftruncate o fd n = true;
  ok_munmap : forall n, sys_munmap o n = true;
  ok_unlink : forall p, sys_unlink fo p = true;
  ok_rename : forall p q, sys_rename fo p q = true;
}.

Section Open.
Context (o : os) (fo : file_os) (Hok : calls_succeed o fo).

(** The sizes a call of [ringfile_init] works with. *)
Record sizes (size reserved res cap : Z) : Prop := {
  sizes_args : 0 < size <= 2 ^ 60 /\ 0 <= reserved <= 2 ^ 60 - 32;
  sizes_res : res = RIBS_VM_ALIGN (reserved + 32);
  sizes_cap : cap = RIBS_VM_ALIGN size;
}.

Lemma sizes_bounds size reserved res cap : sizes size reserved res cap ->
  (32 <= res <= 2 ^ 60 /\ 0 < cap <= 2 ^ 60) /\ (res mod RIBS_VM_PAGESIZE = 0 /\ cap mod RIBS_VM_PAGESIZE = 0).
Proof.
  intros [Ha -> ->]. pose proof (vm_align_spec (reserved + 32) ltac:(lia)). pose proof (vm_align_spec size ltac:(lia)).
  set (a := RIBS_VM_ALIGN (reserved + 32)) in *. set (b := RIBS_VM_ALIGN size) in *. unfold RIBS_VM_PAGESIZE in *.
  pose proof (Z.div_mod a 4096 ltac:(lia)). pose proof (Z.div_mod b 4096 ltac:(lia)). lia.
Qed.

Lemma rf_init_spec fs rb filename size reserved res cap : sizes size reserved res cap ->
  let f0 := truncate (default [] (fs !! filename)) (cap + res) in
  let keep := (get64 f0 0 =? cap) && (get64 f0 24 =? res) in
  exists f, ringfile_init o fs rb filename size reserved
      = (<[filename := f]> fs, RF res (MemMap (Mapping filename res cap)), 0)
    /\ Z.of_nat (length f) = res + cap /\ get64 f 0 = cap /\ get64 f 24 = res
    /\ get64 f 8 = (if keep then get64 f0 8 else 0) /\ get64 f 16 = (if keep then get64 f0 16 else 0)
    /\ (forall x n, 32 <= x -> subrange f x n = subrange f0 x n).
Proof.
  intros Hs f0 keep. destruct (sizes_bounds _ _ _ _ Hs) as [Hb Hp]. destruct Hs as [Ha Er Ec].
  unfold ringfile_init. unfold sizeof_ringfile_header. rewrite (u64_small (reserved + 32)) by lia. rewrite <- Er, <- Ec.
  destruct Hok as [H1 _ H2 H3 _ _ _]. rewrite (proj2 (Z.ltb_ge _ 0)) by apply H1. rewrite H3, !H2. cbn [negb].
  rewrite (u64_small (cap + res)) by lia. fold f0.
  assert (Hl0 : Z.of_nat (length f0) = res + cap) by (unfold f0; rewrite length_truncate; lia).
  cbn [ringfile_get_header h_capacity h_reserved_size]. rewrite <- negb_andb. fold keep.
  set (f1 := if negb keep then ringfile_reset f0 else f0).
  assert (H4 : length f1 = length f0 /\ get64 f1 8 = (if keep then get64 f0 8 else 0)
            /\ get64 f1 16 = (if keep then get64 f0 16 else 0) /\ (forall x n, 32 <= x -> subrange f1 x n = subrange f0 x n)).
  { unfold f1, ringfile_reset, set_read_loc, set_write_loc. destruct keep; [done|]. cbn [negb].
    assert (length (put64 f0 16 0) = length f0) by (apply length_put64; lia).
    split; [rewrite length_put64; lia|]. split; [apply get64_put64; lia|].
    split; [rewrite get64_put64_ne by lia; apply get64_put64; lia|]. intros. by rewrite !subrange_put64 by lia. }
  destruct H4 as (L1 & R1 & W1 & S1). unfold set_reserved_size, set_hdr_capacity.
  assert (L2 : length (put64 f1 0 cap) = length f1) by (apply length_put64; lia).
  eexists. split; [rewrite !insert_insert_eq; reflexivity|].
  split; [rewrite length_put64; lia|]. split; [rewrite get64_put64_ne by lia; apply get64_put64; lia|].
  split; [apply get64_put64; lia|]. split; [rewrite !get64_put64_ne by lia; exact R1|].
  split; [rewrite !get64_put64_ne by lia; exact W1|]. intros. rewrite !subrange_put64 by lia. by apply S1.
Qed.

(** Opening a ringfile with the sizes it has. *)
Lemma init_reopens fs rb filename size reserved res cap f : sizes size reserved res cap ->
  fs !! filename = Some f -> rf_wf f res cap ->
  exists f', ringfile_init o fs rb filename size reserved = (<[filename := f']> fs, RF res (MemMap (Mapping filename res cap)), 0)
    /\ rf_wf f' res cap /\ view f' res cap = view f res cap /\ (forall x n, 32 <= x -> subrange f' x n = subrange f x n).
Proof.
  intros Hs Hf [Hl Hc Hr Hb Hp Hloc]. destruct (rf_init_spec fs rb filename size reserved res cap Hs) as (f' & E & L & C & R & RL & WL & S).
  rewrite Hf in *. cbn [default from_option id] in *. rewrite truncate_same in * by lia. rewrite Hc, Hr, !Z.eqb_refl in *. cbn in RL, WL.
  exists f'. split; [exact E|]. split; [split; rewrite ?RL, ?WL; done|]. split; [|exact S].
  unfold view. rewrite C, RL, WL, Hc, S by lia. done.
Qed.

Lemma truncate_nil_get64 n x : 0 <= x -> x + 8 <= n -> get64 (truncate [] n) x = 0.
Proof.
  intros Hx Hn. unfold get64, subrange, truncate. rewrite take_nil. cbn [app length]. rewrite Nat.sub_0_r, drop_replicate, take_replicate.
  rewrite Nat.min_l by lia. reflexivity.
Qed.

(** Opening a file that does not exist. *)
Lemma init_creates fs rb filename size reserved res cap : sizes size reserved res cap -> fs !! filename = None ->
  exists f', ringfile_init o fs rb filename size reserved = (<[filename := f']> fs, RF res (MemMap (Mapping filename res cap)), 0)
    /\ rf_wf f' res cap /\ get64 f' 8 = 0 /\ get64 f' 16 = 0.
Proof.
  intros Hs Hf. destruct (rf_init_spec fs rb filename size reserved res cap Hs) as (f' & E & L & C & R & RL & WL & S).
  destruct (sizes_bounds _ _ _ _ Hs) as [Hb Hp].
  rewrite Hf in *. cbn [default from_option id] in *. rewrite (truncate_nil_get64 _ 0) in * by lia.
  rewrite (proj2 (Z.eqb_neq 0 cap)) in * by lia. cbn in RL, WL.
  exists f'. split; [exact E|]. split; [split; rewrite ?RL, ?WL; try done; lia|done].
Qed.

(** ** Resizing *)

(** A record evictor drops some bytes of the queue and leaves the reserved bytes alone. *)
Definition evicts (res cap : Z) (ev : list Z -> list Z) : Prop :=
  forall f, rf_wf f res cap -> 0 < ringfile_size f ->
    rf_wf (ev f) res cap
    /\ (exists k, (0 < k)%nat /\ queued (view (ev f) res cap) = drop k (queued (view f res cap)))
    /\ (forall x n, 32 <= x -> x + n <= res -> subrange (ev f) x n = subrange f x n).

Lemma queue_length f res cap : rf_wf f res cap -> Z.of_nat (length (queued (view f res cap))) = ringfile_size f.
Proof. intros Hwf. rewrite queued_length by (by apply view_wf). done. Qed.

Lemma evict_loop_spec res cap ev cap' fuel : evicts res cap ev -> 0 <= cap' -> forall f, rf_wf f res cap ->
  (length (queued (view f res cap)) <= fuel)%nat ->
  exists f1 k, evict_loop fuel ev f cap' = Some f1 /\ rf_wf f1 res cap /\ ringfile_size f1 <= cap'
    /\ queued (view f1 res cap) = drop k (queued (view f res cap))
    /\ (forall x n, 32 <= x -> x + n <= res -> subrange f1 x n = subrange f x n).
Proof.
  intros Hev Hc. induction fuel as [|fuel IH]; intros f Hwf Hf; cbn [evict_loop]; pose proof (queue_length f res cap Hwf); rewrite Z.gtb_ltb;
    (destruct (Z.ltb_spec cap' (ringfile_size f)) as [Hgt|Hle]; [|exists f, 0%nat; auto]); [lia|].
  destruct (Hev f Hwf ltac:(lia)) as (Hwf1 & (k & Hk & Hq) & Hr).
  destruct (IH (ev f) Hwf1) as (f1 & k1 & E & Hwf2 & Hs & Hq2 & Hr2); [rewrite Hq, length_drop; lia|].
  exists f1, (k + k1)%nat. split; [exact E|]. split; [done|]. split; [done|]. split; [by rewrite Hq2, Hq, drop_drop|].
  intros. by rewrite Hr2, Hr.
Qed.

Lemma shrink_old_spec res cap evict cap' fuel f :
  match evict with Some ev => evicts res cap ev | None => True end -> 0 <= cap' -> rf_wf f res cap ->
  (length (queued (view f res cap)) <= fuel)%nat ->
  exists f1 k, shrink_old fuel evict f cap' = Some f1 /\ rf_wf f1 res cap /\ ringfile_size f1 <= cap'
    /\ queued (view f1 res cap) = drop k (queued (view f res cap))
    /\ (evict = None -> k = (length (queued (view f res cap)) - Z.to_nat cap')%nat)
    /\ (forall x n, 32 <= x -> x + n <= res -> subrange f1 x n = subrange f x n).
Proof.
  intros Hev Hc Hwf Hf. destruct evict as [ev|]; cbn [shrink_old].
  { destruct (evict_loop_spec res cap ev cap' fuel Hev Hc f Hwf Hf) as (f1 & k & E & ? & ? & ? & ?). by exists f1, k. }
  pose proof (queue_length f res cap Hwf) as Hl. rewrite Z.gtb_ltb. destruct (Z.ltb_spec cap' (ringfile_size f)) as [Hgt|Hle].
  2:{ exists f, 0%nat. split; [done|]. split; [done|]. split; [done|]. split; [done|]. split; [lia|done]. }
  pose proof (view_wf _ _ _ Hwf) as Hv. pose proof (rf_wf_bounds _ _ _ Hwf). pose proof (rf_wf_locs _ _ _ Hwf).
  pose proof (size_wf _ Hv) as Hsz. rewrite <- size_view in Hsz. cbn in Hsz.
  set (n := u64 (ringfile_size f - cap')). assert (Hn : n = ringfile_size f - cap') by (apply u64_small; lia).
  destruct (rseek_view f res cap Hwf n) as [Hm Hv1].
  destruct (rseek_spec (view f res cap) n Hv) as (Hw1 & Hq1 & _ & Hs1); [rewrite <- size_view; lia|].
  set (f1 := ringfile_rseek f n) in *. rewrite <- Hv1 in *.
  assert (Hwf1 : rf_wf f1 res cap).
  { destruct Hw1 as [_ _ Hrd Hwr]. cbn in Hrd, Hwr. pose proof (moved_cap _ _ Hm). pose proof (rf_wf_cap _ _ _ Hwf).
    apply (moved_wf f); [done..|lia|lia]. }
  exists f1, (Z.to_nat n). split; [done|]. split; [done|].
  pose proof (queue_length f1 res cap Hwf1) as Hl1. rewrite Hq1, length_drop in Hl1. split; [lia|]. split; [done|]. split; [lia|].
  intros. by apply Hm.
Qed.

Lemma write_wseek_comm l : forall rb x n, ringbuf_wseek (write_bytes rb x l) n = write_bytes (ringbuf_wseek rb n) x l.
Proof. induction l as [|v l IH]; intros rb x n; cbn [write_bytes]; [done|]. by rewrite IH. Qed.

(** Writing the reserved bytes. *)
Lemma splice_reserved f res cap l : rf_wf f res cap -> 32 + Z.of_nat (length l) <= res ->
  let f' := splice f 32 l in
  rf_wf f' res cap /\ view f' res cap = view f res cap /\ subrange f' 32 (Z.of_nat (length l)) = l.
Proof.
  intros [Hl Hc Hr Hb Hp Hloc] Hlen f'. unfold f'.
  assert (G : forall y, 0 <= y -> y + 8 <= 32 -> get64 (splice f 32 l) y = get64 f y) by (intros; apply get64_splice_ne; lia).
  split; [split; rewrite ?length_splice, ?G by lia; done|]. split; [|apply subrange_splice_same; lia].
  unfold view. rewrite !G, subrange_splice_disjoint by lia. done.
Qed.

(** What is written to the data area and the header is not in the reserved bytes. *)
Lemma copy_old_spec fold fnew pold pnew res cap res' cap' :
  rf_wf fold res cap -> rf_wf fnew res' cap' -> get64 fnew 8 = 0 -> get64 fnew 16 = 0 -> ringfile_size fold <= cap' ->
  let nres := Z.min (res - 32) (res' - 32) in
  exists f', copy_old fold fnew (Mapping pold res cap) (Mapping pnew res' cap') (RF res (MemMap (Mapping pold res cap)))
               (RF res' (MemMap (Mapping pnew res' cap'))) nres = Some f'
    /\ rf_wf f' res' cap' /\ queued (view f' res' cap') = queued (view fold res cap)
    /\ subrange f' 32 nres = subrange fold 32 nres.
Proof.
  intros Hwo Hwn R0 W0 Hsz nres. assert (Hnres : nres = Z.min (res - 32) (res' - 32)) by done. clearbody nres. pose proof (queue_length _ _ _ Hwo) as Hq. pose proof (rf_wf_bounds _ _ _ Hwo). pose proof (rf_wf_bounds _ _ _ Hwn).
  pose proof (rf_wf_len _ _ _ Hwo). pose proof (rf_wf_len _ _ _ Hwn). pose proof (view_wf _ _ _ Hwo) as Hvo.
  pose proof (size_wf _ Hvo) as Hso. rewrite <- size_view in Hso. pose proof (rf_wf_locs _ _ _ Hwo). cbn in Hso.
  unfold copy_old, ringfile_get_reserved, sizeof_ringfile_header. rewrite (mem_read_low fold pold res cap 32 nres) by lia. cbn [mbind option_bind].
  set (r := subrange fold 32 nres). assert (Lr : Z.of_nat (length r) = nres) by (unfold r; rewrite length_subrange by lia; lia).
  rewrite (mem_write_low pnew res' cap' r fnew 32) by lia. cbn [mbind option_bind].
  destruct (splice_reserved fnew res' cap' r Hwn ltac:(lia)) as (Hw1 & Hv1 & Hr1). set (f1 := splice fnew 32 r) in *.
  unfold ringfile_rloc, ringfile_get_header. cbn [rf_rbuf h_read_loc]. rewrite (mem_read_data fold res cap Hwo) by lia. cbn [mbind option_bind].
  replace (read_bytes (view fold res cap) (get64 fold 8) (ringfile_size fold)) with (queued (view fold res cap))
    by (unfold queued; cbn [view rb_read_loc rb_write_loc]; by rewrite Hso).
  set (q := queued (view fold res cap)) in *. unfold ringfile_wloc, ringfile_get_header. cbn [rf_rbuf h_write_loc].
  injection Hv1 as _ _ R1 W1. rewrite W1, W0.
  destruct (mem_write_data q f1 res' cap' pnew 0 Hw1 ltac:(lia) ltac:(lia)) as (f2 & E2 & Hw2 & Hv2 & Hl2). rewrite E2. cbn [mbind option_bind].
  eexists. split; [reflexivity|].
  destruct (wseek_view f2 res' cap' Hw2 (ringfile_size fold)) as [Hm3 Hv3]. set (f3 := ringfile_wseek f2 (ringfile_size fold)) in *.
  pose proof (view_wf _ _ _ Hw1) as Hvw1.
  assert (Hempty : rb_read_loc (view f1 res' cap') = 0 /\ rb_write_loc (view f1 res' cap') = 0) by (cbn; lia).
  destruct (push_write_spec (view f1 res' cap') q Hvw1) as (Hw & Hqq & _).
  { rewrite avail_wf by done. pose proof (rf_wf_cap _ _ _ Hw1). cbn. lia. }
  destruct Hempty as [Er Ew]. rewrite Ew, <- write_wseek_comm, Hq, <- Hv2, <- Hv3 in *.
  assert (queued (view f1 res' cap') = []) as Hnil by (unfold queued; rewrite Er, Ew; done).
  rewrite Hnil in Hqq. split; [|split; [exact Hqq|]].
  - destruct Hw as [_ _ Hrd Hwr]. cbn in Hrd, Hwr. pose proof (moved_cap _ _ Hm3). pose proof (rf_wf_cap _ _ _ Hw2).
    apply (moved_wf f2); [done..|lia|lia].
  - rewrite (moved_rest _ _ Hm3), Hl2 by lia. rewrite <- Lr. exact Hr1.
Qed.

Lemma read_header_spec fs filename f : fs !! filename = Some f -> 32 <= Z.of_nat (length f) ->
  _ringfile_read_header o fs filename = Some (ringfile_get_header f).
Proof.
  intros Hf Hl. unfold _ringfile_read_header, sizeof_ringfile_header. rewrite Hf. destruct Hok as [H1 H2 H3 _ _ _ _].
  rewrite (proj2 (Z.ltb_ge _ 0)) by apply H1. destruct (H2 (sys_open o filename O_RDONLY_NOATIME)) as [? ->].
  rewrite (proj2 (Z.ltb_ge _ 32)), H3 by lia. done.
Qed.

Lemma rf_free_spec fs p res cap f b : fs !! p = Some f ->
  ringfile_free o fs (RF b (MemMap (Mapping p res cap))) = Some (RF b MemNull, 0).
Proof. intros Hf. unfold ringfile_free. cbn. rewrite Hf. cbn. by rewrite (ok_munmap _ _ Hok). Qed.

Lemma new_name_ne (filename : path) : filename ++ new_ext <> filename.
Proof. intros E. apply (f_equal length) in E. rewrite length_app in E. cbn in E. lia. Qed.

Lemma resize_spec fs filename size reserved res cap res' cap' f evict fuel :
  sizes size reserved res' cap' -> fs !! filename = Some f -> rf_wf f res cap -> Z.of_nat (length filename) < PATH_MAX - 9 ->
  match evict with Some ev => evicts res cap ev | None => True end -> (length (queued (view f res cap)) <= fuel)%nat ->
  exists fs' f' k, _ringfile_resize o fo fuel fs filename size reserved evict = Some (fs', 0)
    /\ fs' !! filename = Some f' /\ rf_wf f' res' cap'
    /\ queued (view f' res' cap') = drop k (queued (view f res cap))
    /\ (evict = None -> k = (length (queued (view f res cap)) - Z.to_nat cap')%nat)
    /\ subrange f' 32 (Z.min (res - 32) (res' - 32)) = subrange f 32 (Z.min (res - 32) (res' - 32))
    /\ (forall p, p <> filename -> p <> filename ++ new_ext -> fs' !! p = fs !! p).
Proof.
  intros Hs Hf Hwf Hname Hev Hfuel. destruct (sizes_bounds _ _ _ _ Hs) as [Hb' Hp']. pose proof Hwf as [Hl Hc Hr Hb Hp Hloc].
  unfold _ringfile_resize. rewrite (proj2 (Z.leb_gt PATH_MAX _)) by (rewrite length_app; cbn [new_ext length]; lia).
  rewrite (read_header_spec fs filename f) by (done || lia). cbn [ringfile_get_header h_capacity h_reserved_size]. rewrite Hc, Hr.
  rewrite (proj2 (Z.eqb_neq 0 cap)) by lia. unfold sizeof_ringfile_header. destruct Hs as [Ha Er Ec].
  rewrite (u64_small (reserved + 32)) by lia. rewrite <- Er, <- Ec. rewrite (u64_small (res - 32)), (u64_small (res' - 32)) by lia.
  pose proof (queue_length _ _ _ Hwf) as Hql. pose proof (size_wf _ (view_wf _ _ _ Hwf)) as Hsz. rewrite <- size_view in Hsz. cbn in Hsz.
  destruct ((cap =? cap') && (res =? res')) eqn:Esame.
  { apply andb_prop in Esame as [->%Z.eqb_eq ->%Z.eqb_eq].
    exists fs, f, 0%nat. split; [done|]. split; [done|]. split; [done|]. split; [done|]. split; [lia|done]. }
  assert (Hs0 : sizes cap (res - 32) res cap).
  { split; [lia| |symmetry; apply vm_align_id; [lia|apply Hp]]. replace (res - 32 + 32) with res by lia. symmetry. apply vm_align_id; [lia|apply Hp]. }
  destruct (init_reopens fs RINGFILE_INITIALIZER filename _ _ _ _ f Hs0 Hf Hwf) as (f0 & E0 & Hw0 & Hv0 & Hr0).
  rewrite E0. cbn [Z.ltb Z.compare]. rewrite lookup_insert_eq. cbn [mbind option_bind].
  rewrite <- Hv0 in Hfuel. destruct (shrink_old_spec res cap evict cap' fuel f0 Hev ltac:(lia) Hw0 Hfuel) as (f1 & k & E1 & Hw1 & Hs1 & Hq1 & Hk & Hr1).
  rewrite E1. cbn [mbind option_bind]. rewrite insert_insert_eq.
  set (fs1 := <[filename:=f1]> fs). pose proof (new_name_ne filename) as Hnn. set (fnn := filename ++ new_ext) in *.
  rewrite (ok_unlink _ _ Hok), andb_false_r.
  assert (Hs' : sizes size reserved res' cap') by done.
  destruct (init_creates (delete fnn fs1) RINGFILE_INITIALIZER fnn _ _ _ _ Hs' (lookup_delete_eq _ _)) as (f2 & E2 & Hw2 & R2 & W2).
  rewrite E2. cbn [Z.ltb Z.compare rf_mem]. rewrite lookup_insert_eq. cbn [mbind option_bind].
  destruct (copy_old_spec f1 f2 filename fnn res cap res' cap' Hw1 Hw2 R2 W2 Hs1) as (f3 & E3 & Hw3 & Hq3 & Hr3).
  rewrite E3. cbn [mbind option_bind]. rewrite insert_insert_eq.
  rewrite (rf_free_spec _ filename res cap f1) by (unfold fs1; by rewrite lookup_insert_ne, lookup_delete_ne, lookup_insert_eq by done). cbn [mbind option_bind].
  rewrite (rf_free_spec _ fnn res' cap' f3) by (by rewrite lookup_insert_eq). cbn [mbind option_bind]. rewrite (ok_rename _ _ Hok). cbn [negb].
  eexists _, f3, k. split; [reflexivity|]. split; [by rewrite lookup_insert_eq|]. split; [done|]. split; [by rewrite Hq3, Hq1, Hv0|].
  split; [rewrite <- Hv0; exact Hk|]. split.
  - rewrite Hr3. rewrite Hr1, Hr0 by lia. done.
  - intros p0 H1 H2. rewrite lookup_insert_ne, lookup_delete_ne, lookup_insert_ne, lookup_delete_ne by done. unfold fs1. by rewrite lookup_insert_ne.
Qed.


(** C32: a ringfile is a queue that outlives its mapping: bytes pushed to it are appended to the
    queue and are there after it was unmapped and opened again with the same sizes; popping
    then gives the oldest bytes, and [ringfile_rseek_reverse] takes the pop back. *)
Theorem ringfile_queue_persists (fs : files) (rb : ringfile) (filename : path) (size reserved res cap : Z) (f l : list Z) (n : Z)
  (Hs : sizes size reserved res cap) (Hf : fs !! filename = Some f) (Hwf : rf_wf f res cap)
  (Hroom : Z.of_nat (length l) <= ringfile_avail f) (Hn : 0 <= n <= ringfile_size f + Z.of_nat (length l)) :
  let mp := Mapping filename res cap in
  let (f1, x) := ringfile_push f (RF res (MemMap mp)) (Z.of_nat (length l)) in
  exists f2 f3, mem_write f1 mp x l = Some f2
    /\ ringfile_free o (<[filename := f2]> fs) (RF res (MemMap mp)) = Some (RF res MemNull, 0)
    /\ ringfile_init o (<[filename := f2]> fs) rb filename size reserved = (<[filename := f3]> fs, RF res (MemMap mp), 0)
    /\ rf_wf f3 res cap /\ queued (view f3 res cap) = queued (view f res cap) ++ l
    /\ let (f4, y) := ringfile_pop f3 (RF res (MemMap mp)) n in
       mem_read f3 mp y n = Some (take (Z.to_nat n) (queued (view f3 res cap)))
       /\ queued (view f4 res cap) = drop (Z.to_nat n) (queued (view f3 res cap))
       /\ view (ringfile_rseek_reverse f4 n) res cap = view f3 res cap.
Proof.
  unfold ringfile_push. pose proof (view_wf _ _ _ Hwf) as Hv. pose proof Hwf as [Hl Hc Hr Hb Hp Hloc].
  rewrite (avail_view f res cap) in Hroom. pose proof (avail_wf _ Hv) as Ha. cbn in Ha.
  destruct (wseek_view f res cap Hwf (Z.of_nat (length l))) as [Hm1 Hv1]. set (f1 := ringfile_wseek f (Z.of_nat (length l))) in *.
  destruct (push_write_spec _ l Hv Hroom) as (Hw & Hq & _). rewrite <- Hv1 in *.
  assert (Hwf1 : rf_wf f1 res cap).
  { pose proof (moved_cap _ _ Hm1). apply (moved_wf f); [done..| |]; injection Hv1 as _ _ R1 W1; rewrite ?R1, ?W1, ?u64_small; lia. }
  unfold ringfile_wloc. cbn [ringfile_get_header h_write_loc rf_rbuf].
  destruct (mem_write_data l f1 res cap filename (get64 f 16) Hwf1 ltac:(lia) ltac:(lia)) as (f2 & E2 & Hwf2 & Hv2 & _).
  destruct (init_reopens (<[filename := f2]> fs) rb filename size reserved res cap f2 Hs (lookup_insert_eq _ _ _) Hwf2) as (f3 & E3 & Hwf3 & Hv3 & _).
  rewrite insert_insert_eq in E3. cbn [view rb_write_loc] in Hq. rewrite <- Hv2, <- Hv3 in Hq.
  exists f2, f3. split; [exact E2|]. split; [by apply (rf_free_spec _ _ _ _ f2), lookup_insert_eq|]. split; [exact E3|]. split; [done|]. split; [exact Hq|].
  pose proof (queue_length f3 res cap Hwf3) as Hl3. rewrite Hq, length_app in Hl3. pose proof (queue_length f res cap Hwf).
  pose proof (view_wf _ _ _ Hwf3) as Hvw3. pose proof (size_wf _ Hvw3) as Hs3. rewrite <- size_view in Hs3. pose proof (rf_wf_locs _ _ _ Hwf3). cbn in Hs3.
  unfold ringfile_pop, ringfile_rloc. cbn [ringfile_get_header h_read_loc rf_rbuf].
  rewrite (mem_read_data f3 res cap Hwf3) by lia. split; [f_equal; apply (queued_take (view f3 res cap) n Hvw3); rewrite <- size_view; lia|].
  destruct (rseek_view f3 res cap Hwf3 n) as [_ ->]. split; [apply rseek_spec; [done|rewrite <- size_view; lia]|].
  apply rseek_reverse_view; [done|lia].
Qed.
End Open.

(** A ringfile of one header page and one data page holding three bytes. *)
Definition fo_all_ok : file_os := {| sys_unlink := fun _ => true; sys_rename := fun _ _ => true; sys_msync := fun _ => true |}.
Definition rf_demo : list Z :=
  splice (put64 (put64 (put64 (replicate (Z.to_nat 8192) 0) 0 4096) 16 3) 24 4096) 4096 [7; 8; 9].

Lemma all_ok_succeed : calls_succeed os_all_ok fo_all_ok.
Proof. split; cbn; intros; try done; try lia. Qed.

Lemma rf_demo_wf : rf_wf rf_demo 4096 4096.
Proof. split; vm_compute; repeat split; congruence. Qed.


Lemma ringfile_queue_persists_witness :
  let mp := Mapping [97] 4096 4096 in
  exists f2 f3, mem_write (fst (ringfile_push rf_demo (RF 4096 (MemMap mp)) 2)) mp 4099 [1; 2] = Some f2
    /\ ringfile_init os_all_ok (<[ [97] := f2 ]> {[ [97] := rf_demo ]}) RINGFILE_INITIALIZER [97] 4096 0
       = (<[ [97] := f3 ]> {[ [97] := rf_demo ]}, RF 4096 (MemMap mp), 0)
    /\ queued (view f3 4096 4096) = queued (view rf_demo 4096 4096) ++ [1; 2].
Proof.
  destruct (ringfile_queue_persists os_all_ok fo_all_ok all_ok_succeed {[ [97] := rf_demo ]} RINGFILE_INITIALIZER [97] 4096 0 4096 4096 rf_demo [1; 2] 4)
    as (f2 & f3 & E2 & _ & E3 & _ & Hq & _).
  - split; [lia|vm_compute; reflexivity..].
  - reflexivity.
  - exact rf_demo_wf.
  - vm_compute. congruence.
  - vm_compute. split; congruence.
  - exists f2, f3. split; [|split; [exact E3|exact Hq]].
    assert (Hx : ringfile_wloc rf_demo (RF 4096 (MemMap (Mapping [97] 4096 4096))) = 4099) by (vm_compute; reflexivity).
    rewrite Hx in E2. exact E2.
Defined.
