(* ===== verification/Mempool.v ===== *)
(** * Mempool: chunks of memory by powers of two ([src/mempool.c])

    Twenty buckets, one per chunk size from 2^12 to 2^31, each a singly linked list of free
    chunks.  The link is stored in the first word of the free chunk; here it is a map from
    the address of the chunk.  Chunks come from [mmap] and are never unmapped. *)

From stdpp Require Import functions base numbers list gmap.
From Stdlib Require Import ZArith Lia.
From S2P Require Import Prelude Words.

(** ** The address space

    A region is its address and its size.  [mmap_anon mapped s] is the address [mmap] chooses
    for an anonymous mapping of [s] bytes when [mapped] are the regions mapped so far, or
    [None] for [MAP_FAILED]; as documented it does not overlap an existing mapping. *)
Definition apart (c d : Z * Z) : Prop := c.1 + c.2 <= d.1 \/ d.1 + d.2 <= c.1.

Class address_space := {
  mmap_anon : list (Z * Z) -> Z -> option Z;
  mmap_fresh : forall mapped s a, 0 < s -> mmap_anon mapped s = Some a ->
    0 < a /\ a + s < 2 ^ 64 /\ Forall (apart (a, s)) mapped;
}.

(** An address space that maps each region above all others, up to 2^47. *)
Definition above (mapped : list (Z * Z)) : Z := foldr (fun c m => (c.1 + c.2) `max` m) 4096 mapped.

Lemma above_apart mapped s : Forall (apart (above mapped, s)) mapped.
Proof.
  apply Forall_forall. intros c Hc. right. cbn. unfold above.
  induction mapped as [|d l IH]; [by apply elem_of_nil in Hc|]. cbn [foldr].
  apply elem_of_cons in Hc as [->|Hc]; [lia|]. specialize (IH Hc). lia.
Qed.

Lemma above_pos mapped : 4096 <= above mapped.
Proof. unfold above. induction mapped; cbn [foldr]; lia. Qed.

#[export] Instance upward_space : address_space.
Proof.
  refine {| mmap_anon := fun mapped s => if above mapped + s <=? 2 ^ 47 then Some (above mapped) else None |}.
  intros mapped s a Hs. zcase; intros [= <-]. pose proof (above_pos mapped).
  split; [lia|]. split; [lia|]. apply above_apart.
Defined.

(** ** The pool *)
Definition MIN_CHUNK_SIZE_BITS : Z := 12.
Definition MIN_CHUNK_SIZE : Z := Z.shiftl 1 MIN_CHUNK_SIZE_BITS.
Definition MAX_CHUNK_SIZE : Z := Z.shiftl 1 31.
Definition NUM_CHUNK_BUCKETS : Z := 32 - MIN_CHUNK_SIZE_BITS.

Record memchunks := Memchunks { num_chunks : Z; num_free_chunks : Z; head : Z }.

Record mempool := Mempool {
  buckets : list memchunks;        (* the array memchunks[NUM_CHUNK_BUCKETS] *)
  chunk_next : gmap Z Z;           (* struct memchunk's next, by the address of the chunk *)
  mp_mapped : list (Z * Z);        (* the regions obtained from mmap *)
}.

Definition mempool_initial : mempool := Mempool (replicate (Z.to_nat NUM_CHUNK_BUCKETS) (Memchunks 0 0 0)) ∅ [].

Definition bucket_at (p : mempool) (i : Z) : memchunks := default (Memchunks 0 0 0) (buckets p !! Z.to_nat i).
Definition set_bucket (p : mempool) (i : Z) (b : memchunks) : mempool :=
  Mempool (<[Z.to_nat i := b]> (buckets p)) (chunk_next p) (mp_mapped p).
Definition next_of (p : mempool) (a : Z) : Z := default 0 (chunk_next p !! a).

Definition _mempool_alloc_validate_size (s : Z) : Z :=
  if s >? MAX_CHUNK_SIZE then -1
  else if (s <? MIN_CHUNK_SIZE) || negb (s =? next_p2 (u32 s)) then -1
  else 0.

Section Ops.
Context `{address_space}.

(** The address of the chunk, 0 for NULL. *)
Definition mempool_alloc_chunk (p : mempool) (s : Z) : mempool * Z :=
  if _mempool_alloc_validate_size s <? 0 then (p, 0) else
  let chunk_index := u32 (ilog2 (u32 s) - MIN_CHUNK_SIZE_BITS) in
  let b := bucket_at p chunk_index in
  let mem := head b in
  if mem =? 0 then
    let p := set_bucket p chunk_index (Memchunks (u64 (num_chunks b + 1)) (num_free_chunks b) (head b)) in
    match mmap_anon (mp_mapped p) s with
    | None => (p, 0)
    | Some a => (Mempool (buckets p) (chunk_next p) ((a, s) :: mp_mapped p), a)
    end
  else (set_bucket p chunk_index (Memchunks (num_chunks b) (u64 (num_free_chunks b - 1)) (next_of p mem)), mem).

Definition mempool_free_chunk (p : mempool) (mem s : Z) : mempool * Z :=
  if _mempool_alloc_validate_size s <? 0 then (p, -1) else
  let chunk_index := u32 (ilog2 (u32 s) - MIN_CHUNK_SIZE_BITS) in
  let b := bucket_at p chunk_index in
  let p := Mempool (buckets p) (<[mem := head b]> (chunk_next p)) (mp_mapped p) in
  (set_bucket p chunk_index (Memchunks (num_chunks b) (u64 (num_free_chunks b + 1)) mem), 0).
End Ops.

(** ** Sizes *)
Definition chunk_size (i : nat) : Z := 2 ^ (MIN_CHUNK_SIZE_BITS + Z.of_nat i).

Lemma validate_size_spec s :
  _mempool_alloc_validate_size s = 0 <-> exists i, (i < 20)%nat /\ s = chunk_size i.
Proof.
  unfold _mempool_alloc_validate_size, MAX_CHUNK_SIZE, MIN_CHUNK_SIZE, chunk_size, MIN_CHUNK_SIZE_BITS.
  change (Z.shiftl 1 31) with (2 ^ 31). change (Z.shiftl 1 12) with (2 ^ 12). split.
  - rewrite Z.gtb_ltb. destruct (Z.ltb_spec (2 ^ 31) s); [done|]. destruct (Z.ltb_spec s (2 ^ 12)); [done|].
    rewrite u32_small, next_p2_eq by lia. zcase; [|done]. intros _.
    pose proof (Z.log2_spec (s - 1) ltac:(lia)) as [_ ?]. pose proof (Z.log2_nonneg (s - 1)).
    set (k := Z.log2 (s - 1)) in *. exists (Z.to_nat (k + 1 - 12)).
    assert (12 <= k + 1 /\ k + 1 <= 31).
    { split; apply (Z.pow_le_mono_r_iff 2); lia. }
    split; [lia|]. rewrite e at 1. f_equal. lia.
  - intros (i & Hi & ->). set (k := 12 + Z.of_nat i).
    assert (2 ^ 12 <= 2 ^ k <= 2 ^ 31) as Hk by (split; apply Z.pow_le_mono_r; lia).
    rewrite u32_small, next_p2_eq, Z.gtb_ltb by lia.
    destruct (Z.ltb_spec (2 ^ 31) (2 ^ k)); [lia|]. destruct (Z.ltb_spec (2 ^ k) (2 ^ 12)); [lia|]. cbn [orb].
    replace (Z.log2 (2 ^ k - 1)) with (k - 1); [rewrite Z.sub_add, Z.eqb_refl; done|].
    symmetry. apply Z.log2_unique; [lia|]. replace (2 ^ k) with (2 ^ Z.succ (k - 1)) in * by (f_equal; lia).
    rewrite Z.pow_succ_r in * by lia. lia.
Qed.

Lemma validate_size_cases s : _mempool_alloc_validate_size s = 0 \/ _mempool_alloc_validate_size s = -1.
Proof. unfold _mempool_alloc_validate_size. repeat case_match; auto. Qed.

Lemma chunk_size_inj i j : chunk_size i = chunk_size j -> i = j.
Proof. unfold chunk_size, MIN_CHUNK_SIZE_BITS. intros E. apply Z.pow_inj_r in E; lia. Qed.

Lemma chunk_size_bounds i : (i < 20)%nat -> 4096 <= chunk_size i <= 2 ^ 31.
Proof.
  intros. unfold chunk_size, MIN_CHUNK_SIZE_BITS. change 4096 with (2 ^ 12). split; apply Z.pow_le_mono_r; lia.
Qed.

(** The bucket of a chunk size is inside the array. *)
Lemma chunk_index_of i : (i < 20)%nat ->
  u32 (ilog2 (u32 (chunk_size i)) - MIN_CHUNK_SIZE_BITS) = Z.of_nat i.
Proof.
  intros Hi. pose proof (chunk_size_bounds i Hi). rewrite (u32_small (chunk_size i)) by lia.
  unfold ilog2. zcase; [lia|]. unfold chunk_size. rewrite Z.log2_pow2 by (unfold MIN_CHUNK_SIZE_BITS; lia).
  rewrite u32_small; unfold MIN_CHUNK_SIZE_BITS; lia.
Qed.

(** ** The invariant

    [fl i] are the free chunks of bucket [i] in the order of their links; together with the
    chunks handed out, [live], they are all the regions mapped, and these are disjoint. *)
Fixpoint chain (nx : gmap Z Z) (h : Z) (l : list Z) : Prop :=
  match l with
  | [] => h = 0
  | x :: l => h = x /\ x <> 0 /\ chain nx (default 0 (nx !! x)) l
  end.

Definition bucket_chunks (fl : nat -> list Z) (i : nat) : list (Z * Z) := (fun a => (a, chunk_size i)) <$> fl i.
Definition free_chunks (fl : nat -> list Z) : list (Z * Z) := seq 0 20 ≫= bucket_chunks fl.

Fixpoint pairwise {A} (R : A -> A -> Prop) (l : list A) : Prop :=
  match l with
  | [] => True
  | x :: l => Forall (R x) l /\ pairwise R l
  end.

Record pool_inv (p : mempool) (live : list (Z * Z)) (fl : nat -> list Z) : Prop := {
  pi_len : length (buckets p) = 20%nat;
  pi_chain : forall i, (i < 20)%nat -> chain (chunk_next p) (head (bucket_at p (Z.of_nat i))) (fl i);
  pi_count : forall i, (i < 20)%nat -> num_free_chunks (bucket_at p (Z.of_nat i)) = u64 (Z.of_nat (length (fl i)));
  pi_all : live ++ free_chunks fl ≡ₚ mp_mapped p;
  pi_apart : pairwise apart (mp_mapped p);
  pi_sizes : Forall (fun c => 0 < c.1 /\ c.1 + c.2 < 2 ^ 64 /\ _mempool_alloc_validate_size c.2 = 0) (mp_mapped p);
}.

Lemma apart_sym c d : apart c d -> apart d c.
Proof. unfold apart. lia. Qed.

Lemma pairwise_perm {A} (R : A -> A -> Prop) (Hsym : forall x y, R x y -> R y x) l l' :
  l ≡ₚ l' -> pairwise R l -> pairwise R l'.
Proof.
  induction 1 as [|x l l' Hp IH|x y l|l l' l'' _ IH1 _ IH2]; cbn; auto.
  - intros [Hx Hl]. split; [by rewrite <- Hp|auto].
  - rewrite !Forall_cons. intros [[H1 H2] [H3 H4]]. auto 6.
Qed.

Lemma pairwise_app_l {A} (R : A -> A -> Prop) l l' : pairwise R (l ++ l') -> pairwise R l.
Proof. induction l as [|x l IH]; cbn; [done|]. rewrite Forall_app. tauto. Qed.

Lemma bucket_chunks_insert fl i l j : bucket_chunks (<[i := l]> fl) j = if decide (i = j) then (fun a => (a, chunk_size j)) <$> l else bucket_chunks fl j.
Proof.
  unfold bucket_chunks. destruct (decide (i = j)) as [->|]; [by rewrite fn_lookup_insert|by rewrite fn_lookup_insert_ne].
Qed.

Lemma bind_insert_ne fl i l js : i ∉ js -> js ≫= bucket_chunks (<[i := l]> fl) = js ≫= bucket_chunks fl.
Proof.
  induction js as [|j js IH]; intros Hi; [done|]. rewrite not_elem_of_cons in Hi.
  rewrite !bind_cons, bucket_chunks_insert, decide_False, IH by tauto. done.
Qed.

Lemma free_chunks_push fl i x l : (i < 20)%nat -> fl i = l ->
  free_chunks (<[i := x :: l]> fl) ≡ₚ (x, chunk_size i) :: free_chunks fl.
Proof.
  intros Hi Hl. unfold free_chunks.
  assert (exists pre post, seq 0 20 = pre ++ i :: post /\ i ∉ pre /\ i ∉ post) as (pre & post & E & H1 & H2).
  { destruct (list_elem_of_split (seq 0 20) i) as (pre & post & E); [apply elem_of_seq; lia|].
    exists pre, post. split; [done|]. pose proof (NoDup_seq 0 20) as Hnd. rewrite E in Hnd.
    apply NoDup_app in Hnd as (_ & Hd & Hnd). apply NoDup_cons in Hnd as [? _].
    split; [intros Hin; apply (Hd i Hin); by left|done]. }
  rewrite E, !bind_app, !bind_cons, !bind_insert_ne, bucket_chunks_insert, decide_True by done.
  replace (bucket_chunks fl i) with ((fun a => (a, chunk_size i)) <$> l) by (by unfold bucket_chunks; rewrite Hl).
  rewrite fmap_cons. cbn [app]. symmetry. apply Permutation_middle.
Qed.

Lemma chain_ext nx nx' h l : (forall x, x ∈ l -> nx' !! x = nx !! x) -> chain nx h l -> chain nx' h l.
Proof.
  revert h. induction l as [|x l IH]; intros h Hx; cbn; [done|]. intros (-> & H0 & Hc). split; [done|]. split; [done|].
  rewrite Hx by (by left). apply IH; [|done]. intros y Hy. apply Hx. by right.
Qed.

Lemma bucket_at_set p i j b : length (buckets p) = 20%nat -> (i < 20)%nat ->
  bucket_at (set_bucket p (Z.of_nat i) b) (Z.of_nat j) = if decide (i = j) then b else bucket_at p (Z.of_nat j).
Proof.
  intros Hlen Hi. unfold bucket_at, set_bucket. cbn [buckets]. rewrite !Nat2Z.id.
  destruct (decide (i = j)) as [->|]; [by rewrite list_lookup_insert_eq by lia|by rewrite list_lookup_insert_ne].
Qed.

Lemma free_chunk_in fl i x : (i < 20)%nat -> x ∈ fl i -> (x, chunk_size i) ∈ free_chunks fl.
Proof.
  intros Hi Hx. apply list_elem_of_bind. exists i. split; [|apply elem_of_seq; lia]. apply list_elem_of_fmap. eauto.
Qed.

Lemma pool_inv_initial : pool_inv mempool_initial [] (fun _ => []).
Proof.
  split; cbn; auto.
  - intros i Hi. do 20 (destruct i as [|i]; [done|]). lia.
  - intros i Hi. do 20 (destruct i as [|i]; [done|]). lia.
Qed.

Lemma u64_succ n : u64 (u64 n + 1) = u64 (n + 1).
Proof. apply Zplus_mod_idemp_l. Qed.
Lemma u64_pred n : u64 (u64 n - 1) = u64 (n - 1).
Proof. apply Zminus_mod_idemp_l. Qed.

Section Facts.
Context `{address_space}.

Lemma alloc_reject p s : _mempool_alloc_validate_size s <> 0 -> mempool_alloc_chunk p s = (p, 0).
Proof. intros Hs. unfold mempool_alloc_chunk. destruct (validate_size_cases s) as [E|E]; [done|by rewrite E]. Qed.

(** A free chunk of the size is reused; no memory is mapped. *)
Lemma alloc_reuse p live fl i a l : pool_inv p live fl -> (i < 20)%nat -> fl i = a :: l ->
  exists p', mempool_alloc_chunk p (chunk_size i) = (p', a) /\ a <> 0 /\ mp_mapped p' = mp_mapped p
    /\ pool_inv p' ((a, chunk_size i) :: live) (<[i := l]> fl).
Proof.
  intros Hp Hi Hfl. pose proof Hp as [Hlen Hch Hcnt Hall Hap Hsz].
  pose proof (Hch i Hi) as Hc. rewrite Hfl in Hc. destruct Hc as (Hh & Ha & Hc).
  unfold mempool_alloc_chunk. rewrite (proj2 (validate_size_spec _)) by eauto. cbn [Z.ltb Z.compare].
  rewrite chunk_index_of by done. cbv zeta. rewrite Hh. rewrite (proj2 (Z.eqb_neq a 0)) by done.
  eexists. split; [done|]. split; [done|]. split; [done|]. split; cbn [chunk_next mp_mapped set_bucket]; auto.
  - unfold set_bucket. cbn. by rewrite length_insert.
  - intros j Hj. rewrite bucket_at_set by done. destruct (decide (i = j)) as [<-|].
    + by rewrite fn_lookup_insert.
    + rewrite fn_lookup_insert_ne by done. auto.
  - intros j Hj. rewrite bucket_at_set by done. destruct (decide (i = j)) as [<-|].
    + rewrite fn_lookup_insert, Hcnt, Hfl by done. cbn [num_free_chunks length]. rewrite u64_pred. f_equal. lia.
    + rewrite fn_lookup_insert_ne by done. auto.
  - rewrite <- Hall. assert (free_chunks fl ≡ₚ (a, chunk_size i) :: free_chunks (<[i := l]> fl)) as ->.
    { rewrite <- (free_chunks_push (<[i := l]> fl) i a l Hi) by apply fn_lookup_insert.
      unfold free_chunks. erewrite list_bind_ext; [done| |done]. intros j. rewrite !bucket_chunks_insert.
      destruct (decide (i = j)) as [<-|]; [|done]. unfold bucket_chunks. by rewrite Hfl. }
    cbn [app]. by rewrite Permutation_middle.
Qed.

(** Without a free chunk of the size a new region is mapped. *)
Lemma alloc_map p live fl i : pool_inv p live fl -> (i < 20)%nat -> fl i = [] ->
  let (p', a) := mempool_alloc_chunk p (chunk_size i) in
  (a = 0 /\ mp_mapped p' = mp_mapped p /\ pool_inv p' live fl)
  \/ (0 < a /\ mmap_anon (mp_mapped p) (chunk_size i) = Some a /\ mp_mapped p' = (a, chunk_size i) :: mp_mapped p
      /\ pool_inv p' ((a, chunk_size i) :: live) fl).
Proof.
  intros Hp Hi Hfl. pose proof Hp as [Hlen Hch Hcnt Hall Hap Hsz].
  pose proof (Hch i Hi) as Hh. rewrite Hfl in Hh. cbn in Hh. pose proof (chunk_size_bounds i Hi) as Hb.
  assert (Hv : _mempool_alloc_validate_size (chunk_size i) = 0) by (apply validate_size_spec; eauto).
  unfold mempool_alloc_chunk. rewrite Hv. cbn [Z.ltb Z.compare]. rewrite chunk_index_of by done. cbv zeta.
  rewrite Hh. cbn [Z.eqb]. unfold set_bucket. cbn [mp_mapped buckets chunk_next].
  set (b := Memchunks _ _ _).
  assert (Hlen' : length (<[Z.to_nat (Z.of_nat i) := b]> (buckets p)) = 20%nat) by (by rewrite length_insert).
  assert (Hbk : forall c m j, (j < 20)%nat ->
    head (bucket_at (Mempool (<[Z.to_nat (Z.of_nat i) := b]> (buckets p)) c m) (Z.of_nat j)) = head (bucket_at p (Z.of_nat j))
    /\ num_free_chunks (bucket_at (Mempool (<[Z.to_nat (Z.of_nat i) := b]> (buckets p)) c m) (Z.of_nat j))
       = num_free_chunks (bucket_at p (Z.of_nat j))).
  { intros c m j Hj. pose proof (bucket_at_set p i j b Hlen Hi) as E. unfold bucket_at, set_bucket in *. cbn in *.
    rewrite E. destruct (decide (i = j)) as [<-|]; [|done]. subst b. cbn. by rewrite Hh. }
  destruct (mmap_anon (mp_mapped p) (chunk_size i)) as [a|] eqn:Hm; [right|left].
  - destruct (mmap_fresh (mp_mapped p) (chunk_size i) a ltac:(lia) Hm) as (Ha & Hend & Hfr). do 3 (split; [done|]).
    split; cbn [chunk_next mp_mapped buckets]; auto.
    + intros j Hj. destruct (Hbk (chunk_next p) ((a, chunk_size i) :: mp_mapped p) j Hj) as [-> _]. auto.
    + intros j Hj. destruct (Hbk (chunk_next p) ((a, chunk_size i) :: mp_mapped p) j Hj) as [_ ->]. auto.
    + cbn [app]. by rewrite Hall.
    + by split.
  - split; [done|]. split; [done|]. split; cbn [chunk_next mp_mapped buckets]; auto.
    + intros j Hj. destruct (Hbk (chunk_next p) (mp_mapped p) j Hj) as [-> _]. auto.
    + intros j Hj. destruct (Hbk (chunk_next p) (mp_mapped p) j Hj) as [_ ->]. auto.
Qed.

(** Either case, with where a new address comes from. *)
Lemma alloc_spec p live fl s : pool_inv p live fl ->
  exists p' a fl', mempool_alloc_chunk p s = (p', a)
  /\ (a = 0 /\ pool_inv p' live fl' /\ mp_mapped p' = mp_mapped p
      \/ 0 < a /\ _mempool_alloc_validate_size s = 0 /\ pool_inv p' ((a, s) :: live) fl'
         /\ (mp_mapped p' = mp_mapped p \/ mmap_anon (mp_mapped p) s = Some a /\ mp_mapped p' = (a, s) :: mp_mapped p)).
Proof.
  intros Hp. destruct (decide (_mempool_alloc_validate_size s = 0)) as [Hv|Hs].
  2:{ rewrite alloc_reject by done. eexists _, _, _. split; [done|]. left. eauto. }
  pose proof Hv as (i & Hi & ->)%validate_size_spec. destruct (fl i) as [|a l] eqn:Hfl.
  - pose proof (alloc_map p live fl i Hp Hi Hfl) as Ha. destruct (mempool_alloc_chunk p (chunk_size i)) as [p' a] eqn:E.
    eexists p', a, fl. split; [done|]. destruct Ha as [(-> & ? & Hp')|(Ha & Hm & ? & Hp')]; [left|right]; auto 6.
  - destruct (alloc_reuse p live fl i a l Hp Hi Hfl) as (p' & E & Ha & Hm & Hp'). eexists _, _, _. split; [exact E|]. right.
    assert (0 < a); [|eauto 6]. destruct Hp as [_ _ _ Hall _ Hsz].
    rewrite <- Hall, Forall_app in Hsz. destruct Hsz as [_ Hsz]. rewrite Forall_forall in Hsz.
    apply (Hsz (a, chunk_size i)), free_chunk_in; [done|]. rewrite Hfl. by left.
Qed.

Lemma pool_inv_perm p live live' fl : live ≡ₚ live' -> pool_inv p live fl -> pool_inv p live' fl.
Proof. intros Hl []. split; auto. by rewrite <- Hl. Qed.

Lemma live_not_free p live live' fl a s x i : pool_inv p live fl -> live ≡ₚ (a, s) :: live' ->
  (i < 20)%nat -> x ∈ fl i -> x <> a.
Proof.
  intros [_ _ _ Hall Hap Hsz] Hl Hi Hx ->. rewrite <- Hall, Hl in Hsz.
  apply (pairwise_perm apart apart_sym _ ((a, s) :: live' ++ free_chunks fl)) in Hap; [|by rewrite <- Hall, Hl].
  destruct Hap as [Hap _]. apply Forall_app in Hap as [_ Hap].
  rewrite Forall_forall in Hap. specialize (Hap _ (free_chunk_in fl i a Hi Hx)).
  apply Forall_cons in Hsz as [(_ & _ & Hs) _]. apply validate_size_spec in Hs as (j & Hj & E).
  unfold apart in Hap. cbn in *. pose proof (chunk_size_bounds i Hi). pose proof (chunk_size_bounds j Hj). lia.
Qed.

(** Freeing a chunk that was handed out puts it first on the list of its bucket. *)
Lemma free_spec p live live' fl a s : pool_inv p live fl -> live ≡ₚ (a, s) :: live' ->
  exists p' i, mempool_free_chunk p a s = (p', 0) /\ (i < 20)%nat /\ s = chunk_size i
    /\ pool_inv p' live' (<[i := a :: fl i]> fl) /\ mp_mapped p' = mp_mapped p.
Proof.
  intros Hp Hl. pose proof Hp as [Hlen Hch Hcnt Hall Hap Hsz].
  assert (Hs : 0 < a /\ _mempool_alloc_validate_size s = 0).
  { rewrite <- Hall, Hl in Hsz. apply Forall_cons in Hsz as [(? & _ & ?) _]. auto. }
  destruct Hs as [Ha Hv]. pose proof Hv as (i & Hi & ->)%validate_size_spec.
  unfold mempool_free_chunk. rewrite Hv. cbn [Z.ltb Z.compare]. rewrite chunk_index_of by done. cbv zeta.
  eexists _, i. split; [done|]. split; [done|]. split; [done|]. split; [|done].
  set (p1 := Mempool _ _ _). assert (Hlen1 : length (buckets p1) = 20%nat) by done.
  split; cbn [chunk_next mp_mapped set_bucket]; auto.
  - unfold set_bucket. cbn. by rewrite length_insert.
  - intros j Hj. rewrite bucket_at_set by done. destruct (decide (i = j)) as [<-|].
    + rewrite fn_lookup_insert. cbn. split; [done|]. split; [lia|]. rewrite lookup_insert_eq.
      eapply chain_ext; [|by apply Hch]. intros x Hx. rewrite lookup_insert_ne; [done|].
      intros ->. by eapply live_not_free.
    + rewrite fn_lookup_insert_ne by done. eapply chain_ext; [|by apply Hch]. intros x Hx. cbn.
      rewrite lookup_insert_ne; [done|]. intros ->. by eapply live_not_free.
  - intros j Hj. rewrite bucket_at_set by done. destruct (decide (i = j)) as [<-|].
    + rewrite fn_lookup_insert. cbn [num_free_chunks length]. rewrite Hcnt, u64_succ by done. f_equal. lia.
    + rewrite fn_lookup_insert_ne by done. by apply Hcnt.
  - change (mp_mapped p1) with (mp_mapped p). rewrite <- Hall, (free_chunks_push fl i a (fl i) Hi), Hl by done. cbn [app]. by rewrite <- Permutation_middle.
Qed.

(** ** Sequences of calls

    Any sequence of allocations of any sizes and of frees of chunks that are handed out. *)
Inductive pool_call := CallAlloc (s : Z) | CallFree (k : nat).

Definition pool_step (st : mempool * list (Z * Z)) (c : pool_call) : mempool * list (Z * Z) :=
  let (p, live) := st in
  match c with
  | CallAlloc s =>
      let (p, a) := mempool_alloc_chunk p s in (p, if a =? 0 then live else (a, s) :: live)
  | CallFree k =>
      match live !! k with
      | Some (a, s) => (fst (mempool_free_chunk p a s), delete k live)
      | None => (p, live)
      end
  end.

Lemma pool_step_inv p live fl c : pool_inv p live fl ->
  exists fl', let (p', live') := pool_step (p, live) c in pool_inv p' live' fl'.
Proof.
  intros Hp. destruct c as [s|k]; cbn [pool_step].
  - destruct (decide (_mempool_alloc_validate_size s = 0)) as [(i & Hi & ->)%validate_size_spec|Hs].
    2:{ rewrite alloc_reject by done. cbn. eauto. }
    destruct (fl i) as [|a l] eqn:Hfl.
    + pose proof (alloc_map p live fl i Hp Hi Hfl) as Ha. destruct (mempool_alloc_chunk p (chunk_size i)) as [p' a].
      destruct Ha as [(-> & _ & Hp')|(Ha & _ & _ & Hp')]; [cbn; eauto|]. rewrite (proj2 (Z.eqb_neq a 0)) by lia. eauto.
    + destruct (alloc_reuse p live fl i a l Hp Hi Hfl) as (p' & -> & Ha & _ & Hp').
      rewrite (proj2 (Z.eqb_neq a 0)) by done. eauto.
  - destruct (live !! k) as [[a s]|] eqn:Hk; [|eauto].
    destruct (free_spec p live (delete k live) fl a s Hp) as (p' & i & -> & _ & _ & Hp' & _); [|cbn; eauto].
    by apply delete_Permutation.
Qed.

(** Whatever the sequence of allocations and frees of outstanding chunks, the chunks
    handed out are pairwise disjoint regions of valid power-of-two sizes at non-null
    addresses, and every region ever mapped is either handed out or on a free list. *)
Theorem mempool_chunks_disjoint (calls : list pool_call) :
  exists free, let (p, live) := foldl pool_step (mempool_initial, []) calls in
  pairwise apart live
  /\ Forall (fun c => 0 < c.1 /\ c.1 + c.2 < 2 ^ 64 /\ _mempool_alloc_validate_size c.2 = 0) live
  /\ live ++ free ≡ₚ mp_mapped p.
Proof.
  assert (forall p live fl, pool_inv p live fl ->
    exists fl', let (p', live') := foldl pool_step (p, live) calls in pool_inv p' live' fl') as Hrun.
  { induction calls as [|c calls IH]; intros p live fl Hp; cbn [foldl]; [eauto|].
    destruct (pool_step_inv p live fl c Hp) as [fl' H']. destruct (pool_step (p, live) c) as [p' live']. eauto. }
  destruct (Hrun _ _ _ pool_inv_initial) as [fl Hf]. exists (free_chunks fl).
  destruct (foldl pool_step (mempool_initial, []) calls) as [p live]. destruct Hf as [_ _ _ Hall Hap Hsz].
  rewrite <- Hall, Forall_app in Hsz. split; [|tauto].
  eapply pairwise_app_l. by eapply pairwise_perm; [exact apart_sym|symmetry; exact Hall|].
Qed.
End Facts.

Lemma mempool_chunks_disjoint_witness :
  let calls := [CallAlloc 4096; CallAlloc 8192; CallFree 1; CallAlloc 5000; CallAlloc 4096; CallAlloc 4096] in
  snd (foldl pool_step (mempool_initial, []) calls) = [(16384, 4096); (4096, 4096); (8192, 8192)]
  /\ pairwise apart (snd (foldl pool_step (mempool_initial, []) calls)).
Proof.
  intros calls. split; [vm_compute; reflexivity|].
  destruct (mempool_chunks_disjoint calls) as [free Hf].
  destruct (foldl pool_step (mempool_initial, []) calls). apply Hf.
Defined.
