(* ===== verification/CtxPool.v ===== *)
(** * CtxPool: the stacks of fibers ([include/ctx_pool.h], [src/ctx_pool.c], [src/_ctx_pool.c])

    Stacks are mapped many at a time and never unmapped.  The context of a fiber is at the end
    of its stack, below the reserved bytes; free contexts are linked through [next_free]. *)

From stdpp Require Import base numbers list gmap.
From Stdlib Require Import ZArith Lia.
From S2P Require Import Prelude Words Mempool.

Record ctx_pool := CtxPool {
  cp_grow_by : Z;
  cp_stack_size : Z;
  cp_reserved_size : Z;
  cp_freelist : Z;            (* 0 is NULL *)
}.

(** The pool, [next_free] by the address of the context, and what is mapped. *)
Record ctx_world := CtxWorld {
  cw_pool : ctx_pool;
  cw_next_free : gmap Z Z;
  cw_mapped : list (Z * Z);
}.
Abbreviation CP := (ST ctx_world).

Section Ops.
(** The size of [struct ribs_context] depends on the processor. *)
Context `{address_space} (sizeof_ribs_context : Z).

Definition cp_self : CP ctx_world := fun w => Some (w, w).
Definition set_freelist (a : Z) : CP unit := fun w =>
  Some (tt, CtxWorld (CtxPool (cp_grow_by (cw_pool w)) (cp_stack_size (cw_pool w)) (cp_reserved_size (cw_pool w)) a) (cw_next_free w) (cw_mapped w)).
Definition set_next_free (ctx a : Z) : CP unit := fun w => Some (tt, CtxWorld (cw_pool w) (<[ctx := a]> (cw_next_free w)) (cw_mapped w)).

(** An anonymous mapping; one of no bytes fails. *)
Definition map_stacks (size : Z) : CP (option Z) := fun w =>
  if size =? 0 then Some (None, w)
  else match mmap_anon (cw_mapped w) size with
       | Some a => Some (Some a, CtxWorld (cw_pool w) (cw_next_free w) ((a, size) :: cw_mapped w))
       | None => Some (None, w)
       end.

Definition ctx_pool_put (ctx : Z) : CP unit := w ← cp_self; set_next_free ctx (cp_freelist (cw_pool w));; set_freelist ctx.

(** The loop that makes the contexts of the stacks from [mem] on free. *)
Fixpoint link_stacks (num_stacks : nat) (mem rc_ofs stack_size : Z) : CP unit :=
  match num_stacks with
  | O => mret tt
  | S n =>
      w ← cp_self;
      set_next_free (mem + rc_ofs) (cp_freelist (cw_pool w));;
      set_freelist (mem + rc_ofs);;
      link_stacks n (mem + stack_size) rc_ofs stack_size
  end.

Definition ctx_pool_createstacks (num_stacks stack_size reserved_size : Z) : CP Z :=
  m ← map_stacks (u64 (num_stacks * stack_size));
  match m with
  | None => mret (-1)
  | Some mem =>
      let rc_ofs := u64 (stack_size - sizeof_ribs_context - reserved_size) in
      link_stacks (Z.to_nat num_stacks) mem rc_ofs stack_size;; mret 0
  end.

Definition page_round (n : Z) : Z := Z.land (u64 (n + 4095)) (u64 (Z.lnot 4095)).

Definition ctx_pool_init (initial_size grow_by stack_size reserved_size : Z) : CP Z :=
  let stack_size := page_round stack_size in
  w ← cp_self;
  (fun w => Some (tt, CtxWorld (CtxPool grow_by stack_size reserved_size 0) (cw_next_free w) (cw_mapped w)));;
  ctx_pool_createstacks initial_size stack_size reserved_size.

(** The address of the context; 0 is NULL. *)
Definition ctx_pool_get : CP Z :=
  w ← cp_self;
  let cp := cw_pool w in
  r ← (if cp_freelist cp =? 0 then ctx_pool_createstacks (cp_grow_by cp) (cp_stack_size cp) (cp_reserved_size cp) else mret 0);
  if negb (r =? 0) then mret 0
  else
    w ← cp_self;
    let ctx := cp_freelist (cw_pool w) in
    match cw_next_free w !! ctx with
    | None => crash
    | Some next => set_freelist next;; mret ctx
    end.
End Ops.

(** ** The contexts that are free and in use *)
Fixpoint chain (next : gmap Z Z) (a : Z) (fl : list Z) : Prop :=
  match fl with [] => a = 0 | c :: fl => a = c /\ c <> 0 /\ exists n, next !! c = Some n /\ chain next n fl end.

Lemma chain_insert next a fl c n : c ∉ fl -> chain next a fl -> chain (<[c := n]> next) a fl.
Proof.
  revert a. induction fl as [|x fl IH]; intros a Hc; [done|]. apply not_elem_of_cons in Hc as [Hne Hc]. intros (-> & Hx & m & Hm & Hch). split; [done|]. split; [done|]. exists m. split; [by rewrite lookup_insert_ne|by apply IH].
Qed.

Section Facts.
Context `{address_space} (sizeof_ribs_context : Z) (initial_size grow_by size reserved_size : Z).
Let ss := page_round size.
Let rc := ss - sizeof_ribs_context - reserved_size.
Hypothesis (Hctx : 0 < sizeof_ribs_context) (Hres : 0 <= reserved_size) (Hsize : 0 <= size < 2 ^ 62) (Hrc : sizeof_ribs_context + reserved_size <= size).
Hypothesis (Hinit : 0 <= initial_size) (Hgrow : 0 <= grow_by) (Hfit : initial_size * ss < 2 ^ 64 /\ grow_by * ss < 2 ^ 64).

(** What was mapped before the pool was made. *)
Context (mapped0 : list (Z * Z)).

(** One of the stacks of equal size that a mapping of [n] stacks is cut into. *)
Definition slice_of (mapped : list (Z * Z)) (s : Z * Z) : Prop := exists a n i, (a, n * ss) ∈ mapped /\ 0 <= i < n /\ s = (a + i * ss, ss).

(** The stack [s] is a slice of one of these mappings, and has the context [c] and, behind it, the
    reserved bytes as its last bytes. *)
Definition has_stack (mapped : list (Z * Z)) (c : Z) (s : Z * Z) : Prop :=
  slice_of mapped s /\ s.1 <= c /\ c + sizeof_ribs_context + reserved_size = s.1 + s.2.

(** Where the stack of a context has to be, as seen from the context. *)
Definition stack_of (c : Z) : Z * Z := (c - rc, ss).

Record cp_inv (w : ctx_world) (fl live : list Z) : Prop := {
  ci_pool : cw_pool w = CtxPool grow_by ss reserved_size (cp_freelist (cw_pool w));
  ci_chain : chain (cw_next_free w) (cp_freelist (cw_pool w)) fl;
  ci_apart : pairwise apart (stack_of <$> (fl ++ live));
  ci_mapped : exists mine, cw_mapped w = mine ++ mapped0 /\ Forall (fun m => 0 < m.1 /\ Forall (apart m) mapped0) mine
    /\ Forall (fun c => slice_of mine (stack_of c)) (fl ++ live);
}.

Lemma stack_size_bounds : size <= ss < size + 4096 /\ 0 <= rc /\ 0 < ss.
Proof.
  assert (Hss : size <= ss < size + 4096).
  { unfold ss, page_round. rewrite u64_small by lia. assert (u64 (Z.lnot 4095) = Z.land (Z.lnot (2 ^ 12 - 1)) (Z.ones 64)) as -> by reflexivity. rewrite Z.land_assoc. change 4095 with (2 ^ 12 - 1).
    pose proof (round_up_mask_bounds size 12 ltac:(lia) ltac:(lia)) as [Hb Hm]. cbv zeta in *. change (2 ^ 12) with 4096 in *. rewrite Z.land_ones, Z.mod_small by lia. lia. }
  unfold rc. lia.
Qed.

Lemma apart_not_in c l : Forall (apart (stack_of c)) (stack_of <$> l) -> c ∉ l.
Proof. pose proof stack_size_bounds as (_ & _ & Hss). intros Ha Hin. rewrite Forall_fmap, Forall_forall in Ha. specialize (Ha c Hin). unfold apart, stack_of in Ha. cbn in Ha. lia. Qed.

Lemma slice_cons m mapped s : slice_of mapped s -> slice_of (m :: mapped) s.
Proof. intros (a & n & i & Hin & Hr). exists a, n, i. split; [by apply elem_of_cons; right|done]. Qed.

Lemma slice_inside mapped s : slice_of mapped s -> exists m, m ∈ mapped /\ m.1 <= s.1 /\ s.1 + s.2 <= m.1 + m.2.
Proof. pose proof stack_size_bounds as (_ & _ & Hss). intros (a & n & i & Hin & Hi & ->). exists (a, n * ss). cbn. split; [done|nia]. Qed.

Lemma slice_apart mine s : Forall (fun m => 0 < m.1 /\ Forall (apart m) mapped0) mine -> slice_of mine s -> 0 < s.1 /\ Forall (apart s) mapped0.
Proof.
  intros Hm (m & Hin & Hlo & Hhi)%slice_inside. rewrite Forall_forall in Hm. destruct (Hm m Hin) as [Hpos Ha]. split; [lia|]. eapply Forall_impl; [exact Ha|]. unfold apart. lia.
Qed.

Lemma slice_has_stack mapped c : slice_of mapped (stack_of c) -> has_stack mapped c (stack_of c).
Proof. pose proof stack_size_bounds as (_ & Hrc0 & _). intros Hs. split; [done|]. unfold stack_of, rc in *. cbn. lia. Qed.

Lemma add_free_context w fl live mine c : cp_inv w fl live -> cw_mapped w = mine ++ mapped0 -> Forall (fun m => 0 < m.1 /\ Forall (apart m) mapped0) mine ->
  Forall (fun c => slice_of mine (stack_of c)) (c :: fl ++ live) -> Forall (apart (stack_of c)) (stack_of <$> (fl ++ live)) ->
  let w' := CtxWorld (CtxPool grow_by ss reserved_size c) (<[c := cp_freelist (cw_pool w)]> (cw_next_free w)) (cw_mapped w) in cp_inv w' (c :: fl) live.
Proof.
  intros [H1 H2 H3 _] Hmine Hap Hsl Ha w'. pose proof stack_size_bounds as (_ & Hrc0 & _). split; cbn [w' cw_pool cp_freelist cw_next_free cw_mapped]; [done| |by split|by exists mine].
  apply Forall_cons in Hsl as [Hc _]. destruct (slice_apart _ _ Hap Hc) as [Hpos _]. cbn in Hpos.
  split; [done|]. split; [lia|]. exists (cp_freelist (cw_pool w)). split; [apply lookup_insert_eq|]. apply chain_insert; [|done]. intros Hin. apply (apart_not_in c (fl ++ live)); [done|]. apply elem_of_app. by left.
Qed.

(** Of the mapping of [num] stacks at [a], those from number [num - n] on are made free. *)
Lemma link_stacks_inv a num mine n : forall w fl live, cp_inv w fl live -> cw_mapped w = mine ++ mapped0 -> Forall (fun m => 0 < m.1 /\ Forall (apart m) mapped0) mine ->
  (a, num * ss) ∈ mine -> Z.of_nat n <= num -> let mem := a + (num - Z.of_nat n) * ss in
  Forall (fun c => slice_of mine (stack_of c)) (fl ++ live) -> Forall (apart (mem, Z.of_nat n * ss)) (stack_of <$> (fl ++ live)) ->
  exists w' new, link_stacks n mem rc ss w = Some (tt, w') /\ cp_inv w' (new ++ fl) live /\ length new = n /\ cw_mapped w' = cw_mapped w.
Proof.
  induction n as [|n IH]; intros w fl live Hi Hmine Hap Hin Hle mem Hsl Ha; [exists w, []; done|]. pose proof stack_size_bounds as (_ & Hrc0 & Hss). cbn [link_stacks].
  set (w1 := CtxWorld (CtxPool grow_by ss reserved_size (mem + rc)) (<[mem + rc := cp_freelist (cw_pool w)]> (cw_next_free w)) (cw_mapped w)).
  assert (Hsplit : Z.of_nat (S n) * ss = ss + Z.of_nat n * ss) by lia. assert (Hn0 : 0 <= Z.of_nat n * ss) by nia. rewrite Hsplit in Ha.
  assert (Hst : stack_of (mem + rc) = (mem, ss)) by (unfold stack_of; f_equal; lia).
  assert (Hsl1 : Forall (fun c => slice_of mine (stack_of c)) (mem + rc :: fl ++ live)).
  { constructor; [|done]. rewrite Hst. exists a, num, (num - Z.of_nat (S n)). split; [done|]. split; [lia|done]. }
  assert (Ha1 : Forall (apart (stack_of (mem + rc))) (stack_of <$> (fl ++ live))) by (rewrite Hst; eapply Forall_impl; [exact Ha|]; unfold apart; cbn; lia).
  assert (Hi1 : cp_inv w1 (mem + rc :: fl) live) by exact (add_free_context w fl live mine (mem + rc) Hi Hmine Hap Hsl1 Ha1).
  assert (Hmem : a + (num - Z.of_nat n) * ss = mem + ss) by (unfold mem; lia).
  destruct (IH w1 (mem + rc :: fl) live Hi1 Hmine Hap Hin ltac:(lia) Hsl1) as (w2 & new & E & Hi2 & Hl & Hmap); rewrite Hmem in *.
  - cbn [app fmap list_fmap]. constructor; [rewrite Hst; unfold apart; cbn; lia|]. eapply Forall_impl; [exact Ha|]. unfold apart. cbn. lia.
  - exists w2, (new ++ [mem + rc]). split.
    + rewrite (bind_eval cp_self _ _ _ _ eq_refl), (bind_eval (set_next_free _ _) _ _ _ _ eq_refl). erewrite (bind_eval (set_freelist _)) by reflexivity. cbn [cw_pool cw_next_free cw_mapped].
      rewrite (ci_pool _ _ _ Hi) at 1 2 3. cbn [cp_grow_by cp_stack_size cp_reserved_size]. exact E.
    + split; [by rewrite <- app_assoc|]. split; [rewrite length_app; cbn; lia|done].
Qed.

(** What a new mapping adds to the mappings of the pool. *)
Lemma mapping_inv w fl live a num : cp_inv w fl live -> mmap_anon (cw_mapped w) (num * ss) = Some a -> 0 < num ->
  let w' := CtxWorld (cw_pool w) (cw_next_free w) ((a, num * ss) :: cw_mapped w) in
  cp_inv w' fl live /\ exists mine, cw_mapped w' = mine ++ mapped0 /\ Forall (fun m => 0 < m.1 /\ Forall (apart m) mapped0) mine /\ (a, num * ss) ∈ mine
    /\ Forall (fun c => slice_of mine (stack_of c)) (fl ++ live) /\ Forall (apart (a, num * ss)) (stack_of <$> (fl ++ live)).
Proof.
  intros [H1 H2 H3 (mine & Hmine & Hap & Hsl)] Em Hnum w'. pose proof stack_size_bounds as (_ & _ & Hss). destruct (mmap_fresh (cw_mapped w) (num * ss) a ltac:(nia) Em) as (Ha & Hend & Hfresh).
  rewrite Hmine in Hfresh. pose proof Hfresh as [Hf1 Hf0]%Forall_app.
  assert (Hap' : Forall (fun m => 0 < m.1 /\ Forall (apart m) mapped0) ((a, num * ss) :: mine)) by (constructor; done).
  assert (Hsl' : Forall (fun c => slice_of ((a, num * ss) :: mine) (stack_of c)) (fl ++ live)) by (eapply Forall_impl; [exact Hsl|]; intros c; apply slice_cons).
  assert (Hm' : cw_mapped w' = ((a, num * ss) :: mine) ++ mapped0) by (cbn; by rewrite Hmine).
  split; [split; [exact H1|exact H2|exact H3|by exists ((a, num * ss) :: mine)]|]. exists ((a, num * ss) :: mine). do 2 (split; [done|]). split; [by apply elem_of_cons; left|]. split; [done|].
  apply Forall_fmap. eapply Forall_impl; [exact Hsl|]. intros c (m & Hin & Hlo & Hhi)%slice_inside. rewrite Forall_forall in Hf1. specialize (Hf1 m Hin). unfold apart in *. cbn in *. lia.
Qed.

Lemma createstacks_inv num w fl live : cp_inv w fl live -> 0 <= num -> num * ss < 2 ^ 64 ->
  exists r w', ctx_pool_createstacks sizeof_ribs_context num ss reserved_size w = Some (r, w')
    /\ (r = -1 /\ w' = w /\ (num = 0 \/ mmap_anon (cw_mapped w) (num * ss) = None)
        \/ r = 0 /\ exists new, cp_inv w' (new ++ fl) live /\ length new = Z.to_nat num /\ 0 < num).
Proof.
  intros Hi Hn Hov. pose proof stack_size_bounds as (Hs & Hrc0 & Hss). unfold ctx_pool_createstacks. rewrite (u64_small (num * ss)) by nia. unfold map_stacks. destruct (Z.eqb_spec (num * ss) 0) as [E0|E0].
  - exists (-1), w. split; [unfold mbind, ST_bind; done|]. left. split; [done|]. split; [done|]. left. nia.
  - assert (Hnum : 0 < num) by nia. destruct (mmap_anon (cw_mapped w) (num * ss)) as [a|] eqn:Em.
    + destruct (mapping_inv w fl live a num Hi Em Hnum) as (Hi1 & mine & Hmine & Hap & Hin & Hsl & Hfr).
      destruct (link_stacks_inv a num mine (Z.to_nat num) _ fl live Hi1 Hmine Hap Hin) as (w2 & new & E & Hi2 & Hl & Hmp); rewrite ?Z2Nat.id, ?Z.sub_diag, ?Z.add_0_r by lia; [lia|done|done|].
      exists 0, w2. split; [|right; split; [done|]; exists new; done]. erewrite (bind_eval _ _ _ (Some a)) by (by rewrite Em). cbv zeta iota. rewrite u64_small by (unfold rc in *; lia). fold rc.
      rewrite Z2Nat.id, Z.sub_diag, Z.add_0_r in E by lia. by rewrite (bind_eval _ _ _ _ _ E).
    + exists (-1), w. split; [unfold mbind, ST_bind; by rewrite Em|]. left. split; [done|]. split; [done|]. by right.
Qed.

Lemma get_inv w fl live : cp_inv w fl live ->
  exists c w' fl', ctx_pool_get sizeof_ribs_context w = Some (c, w')
    /\ (c = 0 /\ w' = w /\ fl = [] /\ (grow_by = 0 \/ mmap_anon (cw_mapped w) (grow_by * ss) = None) \/ c <> 0 /\ cp_inv w' fl' (c :: live)).
Proof.
  intros Hi. assert (Htake : forall w1 c fl1, cp_inv w1 (c :: fl1) live -> exists w', (w ← cp_self; let ctx := cp_freelist (cw_pool w) in match cw_next_free w !! ctx with None => crash | Some next => set_freelist next;; mret ctx end) w1 = Some (c, w') /\ c <> 0 /\ cp_inv w' fl1 (c :: live)).
  { intros w1 c fl1 [H1 (Hc & Hc0 & n & Hn & Hch) H3 H4]. rewrite (bind_eval cp_self _ _ _ _ eq_refl). cbv zeta. rewrite Hc, Hn. eexists. split; [reflexivity|]. split; [done|]. rewrite H1. split; cbn [cw_pool cp_freelist cw_next_free cw_mapped cp_grow_by cp_stack_size cp_reserved_size]; try done.
    - eapply pairwise_perm; [exact apart_sym| |exact H3]. apply fmap_Permutation. cbn [app]. by rewrite Permutation_middle.
    - destruct H4 as (mine & Hm & Hap & Hsl). exists mine. do 2 (split; [done|]). rewrite <- Permutation_middle. exact Hsl. }
  unfold ctx_pool_get. rewrite (bind_eval cp_self _ _ _ _ eq_refl). cbv zeta. destruct fl as [|c fl].
  - pose proof (ci_chain _ _ _ Hi) as Hnil. cbn in Hnil. rewrite Hnil. cbn [Z.eqb]. rewrite (ci_pool _ _ _ Hi). cbn [cp_grow_by cp_stack_size cp_reserved_size].
    destruct (createstacks_inv grow_by w [] live Hi Hgrow (proj2 Hfit)) as (r & w1 & E & [(-> & -> & Hno)|(-> & new & Hi1 & Hl & Hpos)]); rewrite (bind_eval _ _ _ _ _ E).
    + exists 0, w, []. split; [done|]. left. done.
    + cbn [Z.eqb negb]. rewrite app_nil_r in Hi1. destruct new as [|c new]; [cbn in Hl; lia|]. destruct (Htake w1 c new Hi1) as (w2 & E2 & Hc & Hi2). exists c, w2, new. split; [exact E2|]. right. done.
  - assert (Hc0 : c <> 0 /\ cp_freelist (cw_pool w) = c) by (destruct (ci_chain _ _ _ Hi) as (? & ? & _); done). destruct Hc0 as [Hc0 Hfl]. rewrite Hfl, (proj2 (Z.eqb_neq c 0) Hc0), (bind_eval (mret 0) _ _ 0 w eq_refl). cbn [Z.eqb negb].
    destruct (Htake w c fl Hi) as (w2 & E2 & Hc & Hi2). exists c, w2, fl. split; [exact E2|]. right. done.
Qed.

Lemma put_inv w fl live live' c : cp_inv w fl live -> live ≡ₚ c :: live' -> exists w', ctx_pool_put c w = Some (tt, w') /\ cp_inv w' (c :: fl) live'.
Proof.
  intros [H1 H2 H3 H4] Hp. eexists. split; [unfold ctx_pool_put; rewrite (bind_eval cp_self _ _ _ _ eq_refl), (bind_eval (set_next_free _ _) _ _ _ _ eq_refl); reflexivity|]. cbn [cw_pool cw_next_free cw_mapped]. rewrite H1. cbn [cp_grow_by cp_stack_size cp_reserved_size].
  assert (Hperm : fl ++ live ≡ₚ c :: fl ++ live') by (rewrite Hp; by rewrite Permutation_middle). destruct H4 as (mine & Hm & Hap & Hsl). rewrite Hperm in Hsl. apply (pairwise_perm apart apart_sym _ (stack_of <$> (c :: fl ++ live'))) in H3; [|by apply fmap_Permutation].
  split; cbn [cw_pool cp_freelist cw_next_free cw_mapped]; [done| |exact H3|by exists mine]. apply Forall_cons in Hsl as [Hc _]. destruct (slice_apart _ _ Hap Hc) as [Hpos _]. cbn in Hpos. pose proof stack_size_bounds as (_ & Hrc0 & _). split; [done|]. split; [lia|]. eexists. split; [apply lookup_insert_eq|]. apply chain_insert; [|exact H2].
  intros Hin. destruct H3 as [Ha _]. apply (apart_not_in c (fl ++ live')); [exact Ha|]. apply elem_of_app. by left.
Qed.

(** ** Use of a pool

    [ctx_pool_put] is called with contexts that are in use. *)
Inductive pool_reaches : ctx_world -> list Z -> Prop :=
| reach_init w w' : cw_mapped w = mapped0 -> ctx_pool_init sizeof_ribs_context initial_size grow_by size reserved_size w = Some (0, w') -> pool_reaches w' []
| reach_get w w' live c : pool_reaches w live -> ctx_pool_get sizeof_ribs_context w = Some (c, w') -> c <> 0 -> pool_reaches w' (c :: live)
| reach_get_null w w' live : pool_reaches w live -> ctx_pool_get sizeof_ribs_context w = Some (0, w') -> pool_reaches w' live
| reach_put w w' live live' c : pool_reaches w live -> live ≡ₚ c :: live' -> ctx_pool_put c w = Some (tt, w') -> pool_reaches w' live'.

Lemma reaches_inv w live : pool_reaches w live -> exists fl, cp_inv w fl live.
Proof.
  induction 1 as [w w' Hm E|w w' live c _ (fl & Hi) E Hc|w w' live _ (fl & Hi) E|w w' live live' c _ (fl & Hi) Hp E].
  - unfold ctx_pool_init in E. fold ss in E. rewrite (bind_eval cp_self _ _ _ _ eq_refl) in E. set (w1 := CtxWorld (CtxPool grow_by ss reserved_size 0) (cw_next_free w) (cw_mapped w)). erewrite bind_eval in E by reflexivity. fold w1 in E.
    assert (Hi : cp_inv w1 [] []) by (split; cbn; [done|done|done|exists []; split; [exact Hm|split; constructor]]). destruct (createstacks_inv initial_size w1 [] [] Hi Hinit (proj1 Hfit)) as (r & w2 & E2 & [(-> & _)|(-> & new & Hi2 & _)]); rewrite E2 in E; [done|]. injection E as <-. by exists (new ++ []).
  - destruct (get_inv w fl live Hi) as (c' & w2 & fl' & E2 & [(-> & _)|(_ & Hi2)]); rewrite E2 in E; [congruence|]. injection E as -> ->. by exists fl'.
  - destruct (get_inv w fl live Hi) as (c' & w2 & fl' & E2 & [(_ & -> & _)|(Hc & _)]); rewrite E2 in E; [|congruence]. injection E as _ <-. by exists fl.
  - destruct (put_inv w fl live live' c Hi Hp) as (w2 & E2 & Hi2). rewrite E2 in E. injection E as <-. by exists (c :: fl).
Qed.

Lemma live_apart w fl live : cp_inv w fl live -> pairwise apart (stack_of <$> live).
Proof. intros Hi. eapply pairwise_app_l. eapply pairwise_perm; [exact apart_sym| |exact (ci_apart _ _ _ Hi)]. rewrite fmap_app. apply Permutation_app_comm. Qed.

(** C21: whatever the order in which contexts are taken from a pool and put back, the contexts in
    use are different, and each has a stack of its own: one of the [n] slices of [stack_size] bytes
    of a mapping of [n * stack_size] bytes that the pool itself has made, with the context and the
    reserved bytes behind it as the last bytes of the slice.  The stacks overlap neither each other
    nor anything that was mapped before the pool was made.  [ctx_pool_get] always returns: a context
    with such a stack, apart from all those in use, or NULL, which it does only when nothing is free
    and [mmap] refuses to map [grow_by] more stacks. *)
Theorem ctx_pool_stacks_disjoint (w : ctx_world) (live : list Z) (Hreach : pool_reaches w live) :
  NoDup live
  /\ exists mine stacks, cw_mapped w = mine ++ mapped0 /\ Forall2 (has_stack mine) live stacks /\ pairwise apart stacks /\ Forall (fun s => Forall (apart s) mapped0) stacks
  /\ exists c w', ctx_pool_get sizeof_ribs_context w = Some (c, w')
     /\ (c = 0 /\ cp_freelist (cw_pool w) = 0 /\ (grow_by = 0 \/ mmap_anon (cw_mapped w) (grow_by * page_round size) = None)
         \/ c <> 0 /\ exists mine' s, cw_mapped w' = mine' ++ mapped0 /\ has_stack mine' c s /\ Forall (apart s) mapped0 /\ Forall (apart s) stacks).
Proof.
  destruct (reaches_inv _ _ Hreach) as (fl & Hi). pose proof (live_apart _ _ _ Hi) as Hlive. destruct (ci_mapped _ _ _ Hi) as (mine & Hm & Hap & [_ Hsl]%Forall_app). split.
  { clear Hreach Hi Hsl. induction live as [|c live IH]; [constructor|]. destruct Hlive as [Ha Hl]. constructor; [by apply apart_not_in|by apply IH]. }
  exists mine, (stack_of <$> live). split; [done|]. split; [|split; [done|split]].
  - clear -Hsl Hctx Hres Hsize Hrc. induction Hsl; [constructor|]. constructor; [by apply slice_has_stack|done].
  - apply Forall_fmap. eapply Forall_impl; [exact Hsl|]. intros c Hc. exact (proj2 (slice_apart _ _ Hap Hc)).
  - destruct (get_inv w fl live Hi) as (c & w' & fl' & E & Hr). exists c, w'. split; [exact E|]. destruct Hr as [(-> & _ & -> & Hno)|(Hc & Hi')]; [left; split; [done|]; split; [exact (ci_chain _ _ _ Hi)|exact Hno]|right; split; [done|]].
    destruct (ci_mapped _ _ _ Hi') as (mine' & Hm' & Hap' & [_ [Hs' _]%Forall_cons]%Forall_app). exists mine', (stack_of c).
    split; [done|]. split; [by apply slice_has_stack|]. split; [exact (proj2 (slice_apart _ _ Hap' Hs'))|]. exact (proj1 (live_apart _ _ _ Hi')).
Qed.
End Facts.

(** Two stacks at first, one more when they are used up. *)
Definition ctx_world0 : ctx_world := CtxWorld (CtxPool 0 0 0 0) ∅ [].
Definition ctx_made : ctx_world := match ctx_pool_init 128 2 1 5000 64 ctx_world0 with Some (_, w) => w | None => ctx_world0 end.
Definition get_next (w : ctx_world) : ctx_world := match ctx_pool_get 128 w with Some (_, w) => w | None => w end.

Lemma ctx_pool_stacks_disjoint_witness :
  let w := get_next (get_next (get_next ctx_made)) in
  exists stacks, Forall2 (has_stack 128 5000 64 (cw_mapped w)) [28480; 12096; 20288] stacks /\ pairwise apart stacks
  /\ exists c w', ctx_pool_get 128 w = Some (c, w')
     /\ (c = 0 /\ cp_freelist (cw_pool w) = 0 /\ (1 = 0 \/ mmap_anon (cw_mapped w) (1 * page_round 5000) = None)
         \/ c <> 0 /\ exists mine s, cw_mapped w' = mine ++ [] /\ has_stack 128 5000 64 mine c s /\ Forall (apart s) [] /\ Forall (apart s) stacks).
Proof.
  intros w. destruct (ctx_pool_stacks_disjoint 128 2 1 5000 64) with (mapped0 := @nil (Z * Z)) (w := w) (live := [28480; 12096; 20288]) as (_ & mine & stacks & Hm & H2 & H3 & _ & H4).
  - lia.
  - lia.
  - lia.
  - lia.
  - lia.
  - lia.
  - by vm_compute.
  - apply reach_get with (w := get_next (get_next ctx_made)); [|reflexivity|done]. apply reach_get with (w := get_next ctx_made); [|reflexivity|done]. apply reach_get with (w := ctx_made); [|reflexivity|done]. apply reach_init with (w := ctx_world0); reflexivity.
  - rewrite app_nil_r in Hm. rewrite Hm. exists stacks. split; [exact H2|]. split; [exact H3|]. rewrite Hm in H4. exact H4.
Defined.
