(* ===== verification/Memalloc.v ===== *)
(** * Memalloc: bump allocation from a list of pool blocks
    ([include/memalloc.h], [src/memalloc.c], [src/_memalloc.c])

    The memory is split by type: the list nodes of the blocks are a [Dlist] store, the
    [size] words of the block headers a map by block address, and the bytes handed out a
    byte map.  The header of a block at [b] is [size] at [b] and the node at [b + 8].  A write of
    bytes therefore cannot change a header; that no region reaches one is part of
    [memalloc_regions_hold]. *)

From stdpp Require Import base numbers list gmap.
From Stdlib Require Import ZArith Lia.
From S2P Require Import Prelude Words Dlist Mempool.

Definition MEMALLOC_MEM_TYPE_ANY : Z := 0.
Definition MEMALLOC_MEM_TYPE_MALLOC : Z := 0.
Definition MEMALLOC_MEM_TYPE_BUF : Z := 1.
Definition MEMALLOC_INITIAL_BLOCK_SIZE : Z := 131072.
Definition MEMALLOC_BLOCK_HEADER : Z := 24.   (* sizeof(struct memalloc_block) *)
Definition MEMBLOCKS_OFS : Z := 8.            (* offsetof(struct memalloc_block, _memblocks) *)

(** [size.size] and [size.type] of a block header. *)
Record memalloc_block := Block { bk_size : Z; bk_type : Z }.

Record memory := Memory {
  m_pool : mempool;
  m_nodes : gmap Z node;
  m_blocks : gmap Z memalloc_block;
  m_bytes : gmap Z Z;
}.

Record memalloc := Memalloc {
  ma_mem : Z;         (* 0 is NULL *)
  ma_capacity : Z;
  ma_avail : Z;
  ma_memblocks : Z;   (* the address of the list head *)
}.

Definition MEMALLOC_INITIALIZER (head : Z) : memalloc := Memalloc 0 0 0 head.

Definition set_nodes (m : memory) (s : gmap Z node) : memory := Memory (m_pool m) s (m_blocks m) (m_bytes m).
Definition set_bytes (m : memory) (b : gmap Z Z) : memory := Memory (m_pool m) (m_nodes m) (m_blocks m) b.
Definition set_pool (m : memory) (p : mempool) : memory := Memory p (m_nodes m) (m_blocks m) (m_bytes m).
Definition block_at (m : memory) (b : Z) : memalloc_block := default (Block 0 0) (m_blocks m !! b).

(** ** Bytes *)
Definition m_byte (m : memory) (a : Z) : Z := default 0 (m_bytes m !! a).

Fixpoint put_bytes (bs : gmap Z Z) (a : Z) (l : list Z) : gmap Z Z :=
  match l with
  | [] => bs
  | b :: l => put_bytes (<[a := b]> bs) (a + 1) l
  end.
Definition store_bytes (m : memory) (a : Z) (l : list Z) : memory := set_bytes m (put_bytes (m_bytes m) a l).

Definition load_bytes (m : memory) (a n : Z) : list Z := m_byte m <$> seqZ a n.

(** The C string at [a]; as its bytes are non-zero they are in the map, whose size bounds it. *)
Fixpoint cstr_loop (fuel : nat) (m : memory) (a : Z) : list Z :=
  match fuel with
  | O => []
  | S f => if m_byte m a =? 0 then [] else m_byte m a :: cstr_loop f m (a + 1)
  end.
Definition cstr (m : memory) (a : Z) : list Z := cstr_loop (S (size (m_bytes m))) m a.

(** [vsnprintf(str, avail, ...)] where [text] is the formatted output, [None] if formatting
    fails: at most [avail - 1] bytes and a NUL are written, the result is the full length. *)
Definition INT_MAX : Z := 2 ^ 31 - 1.
Definition vsnprintf (m : memory) (str avail : Z) (text : option (list Z)) : memory * Z :=
  match text with
  | Some t =>
      if Z.of_nat (length t) >? INT_MAX then (m, -1)
      else if 0 <? avail then
        (store_bytes m str (take (Z.to_nat (avail - 1)) t ++ [0]), Z.of_nat (length t))
      else (m, Z.of_nat (length t))
  | None => (m, -1)
  end.

(** [strftime(mem, avail, ...)]: 0 if the result and its NUL do not fit. *)
Definition strftime (m : memory) (mem avail : Z) (text : list Z) : memory * Z :=
  if Z.of_nat (length text) <? avail then (store_bytes m mem (text ++ [0]), Z.of_nat (length text))
  else (m, 0).

(** The capacity doubles with each block and a block has at most 2^31 bytes: loops that add
    a block per round end within this many rounds. *)
Definition BLOCK_ROUNDS : nat := 18.

Section Ops.
Context `{address_space}.

Definition list_ensure (m : memory) (head : Z) : memory :=
  if list_is_null (m_nodes m) head then set_nodes m (list_init (m_nodes m) head) else m.

(** A chunk with its header written and its node linked at the tail of [head]. *)
Definition add_block (m : memory) (head mem size type : Z) : memory :=
  Memory (m_pool m) (list_insert_tail (m_nodes m) head (mem + MEMBLOCKS_OFS))
    (<[mem := Block size type]> (m_blocks m)) (m_bytes m).

Definition memalloc_new_block (m : memory) (ma : memalloc) : memory * memalloc * Z :=
  let m := list_ensure m (ma_memblocks ma) in
  let size := if negb (ma_capacity ma =? 0) then u64 (Z.shiftl (ma_capacity ma) 1) else MEMALLOC_INITIAL_BLOCK_SIZE in
  let (p, mem) := mempool_alloc_chunk (m_pool m) size in
  let m := set_pool m p in
  if mem =? 0 then (m, ma, -1)
  else
    (add_block m (ma_memblocks ma) mem size MEMALLOC_MEM_TYPE_MALLOC,
     Memalloc (u64 (mem + MEMALLOC_BLOCK_HEADER)) size (u64 (size - MEMALLOC_BLOCK_HEADER)) (ma_memblocks ma), 0).

Definition memalloc_usage (fuel : nat) (m : memory) (ma : memalloc) : option Z :=
  if list_is_null (m_nodes m) (ma_memblocks ma) then Some 0
  else
    l ← LIST_FOR_EACH fuel (m_nodes m) (ma_memblocks ma);
    Some (u64 (foldl (fun usage it => u64 (usage + bk_size (block_at m (it - MEMBLOCKS_OFS)))) 0 l - ma_avail ma)).

(** The usable size (0 on failure) and the address of the memory. *)
Definition memalloc_alloc_raw (m : memory) (ma : memalloc) (size : Z) : memory * (Z * Z) :=
  let m := list_ensure m (ma_memblocks ma) in
  let size := next_p2_64 (u64 (size + MEMALLOC_BLOCK_HEADER)) in
  let (p, mem) := mempool_alloc_chunk (m_pool m) size in
  let m := set_pool m p in
  if mem =? 0 then (m, (0, 0))
  else (add_block m (ma_memblocks ma) mem size MEMALLOC_MEM_TYPE_BUF,
        (u64 (size - MEMALLOC_BLOCK_HEADER), u64 (mem + MEMALLOC_BLOCK_HEADER))).

Definition memalloc_free_raw (m : memory) (mem : Z) : memory :=
  let block := mem - MEMALLOC_BLOCK_HEADER in
  let m := set_nodes m (list_remove (m_nodes m) (block + MEMBLOCKS_OFS)) in
  set_pool m (fst (mempool_free_chunk (m_pool m) block (bk_size (block_at m block)))).

(** [while (ma->avail < size) if (0 > memalloc_new_block(ma)) return -1;] *)
Fixpoint resize_rounds (fuel : nat) (m : memory) (ma : memalloc) (size : Z) : option (memory * memalloc * Z) :=
  match fuel with
  | O => None
  | S f =>
      if ma_avail ma <? size then
        let '(m, ma, res) := memalloc_new_block m ma in
        if res <? 0 then Some (m, ma, -1) else resize_rounds f m ma size
      else Some (m, ma, 0)
  end.
Definition memalloc_resize_if_less := resize_rounds BLOCK_ROUNDS.

Definition memalloc_seek (ma : memalloc) (size : Z) : memalloc :=
  Memalloc (u64 (ma_mem ma + size)) (ma_capacity ma) (u64 (ma_avail ma - size)) (ma_memblocks ma).

Definition memalloc_alloc (m : memory) (ma : memalloc) (size : Z) : option (memory * memalloc * Z) :=
  '(m, ma, res) ← memalloc_resize_if_less m ma size;
  if res <? 0 then Some (m, ma, 0) else Some (m, memalloc_seek ma size, ma_mem ma).

(** The loop of [memalloc_reset2]: [it] is read before the block is freed. *)
Fixpoint reset_loop (fuel : nat) (m : memory) (head it type : Z) : option memory :=
  if list_is_head head it then Some m
  else match fuel with
       | O => None
       | S f =>
           let cur_block := it - MEMBLOCKS_OFS in
           let it := list_next (m_nodes m) it in
           let m := if bk_type (block_at m cur_block) >=? type
                    then set_pool m (fst (mempool_free_chunk (m_pool m) cur_block (bk_size (block_at m cur_block))))
                    else m in
           reset_loop f m head it type
       end.

Definition memalloc_reset2 (fuel : nat) (m : memory) (ma : memalloc) (type : Z) : option (memory * memalloc) :=
  let head := ma_memblocks ma in
  if list_is_null (m_nodes m) head then Some (m, ma)
  else
    m ← reset_loop fuel m head (list_next (m_nodes m) head) type;
    Some (set_nodes m (list_set_null (m_nodes m) head), Memalloc 0 0 0 head).
Definition memalloc_reset (fuel : nat) (m : memory) (ma : memalloc) := memalloc_reset2 fuel m ma MEMALLOC_MEM_TYPE_ANY.

Definition memalloc_is_mine (fuel : nat) (m : memory) (ma : memalloc) (ptr : Z) : option bool :=
  if list_is_null (m_nodes m) (ma_memblocks ma) then Some false
  else
    l ← LIST_FOR_EACH fuel (m_nodes m) (ma_memblocks ma);
    Some (existsb (fun it => let mem := it - MEMBLOCKS_OFS in
                             (mem <=? ptr) && (ptr <? mem + bk_size (block_at m mem))) l).

(** [if (0 == ma->avail && 0 > memalloc_new_block(ma)) return NULL;] *)
Definition new_block_if_empty (m : memory) (ma : memalloc) : memory * memalloc * Z :=
  if ma_avail ma =? 0 then memalloc_new_block m ma else (m, ma, 0).

(** The results [0] of the following are NULL. *)
Fixpoint vsprintf_rounds (fuel : nat) (m : memory) (ma : memalloc) (text : option (list Z)) : option (memory * memalloc * Z) :=
  match fuel with
  | O => None
  | S f =>
      let str := ma_mem ma in
      let (m, n) := vsnprintf m str (ma_avail ma) text in
      if n <? 0 then Some (m, ma, 0)
      else if n <? ma_avail ma then Some (m, memalloc_seek ma (n + 1), str)
      else
        let '(m, ma, res) := memalloc_new_block m ma in
        if res <? 0 then Some (m, ma, 0) else vsprintf_rounds f m ma text
  end.
Definition memalloc_vsprintf (m : memory) (ma : memalloc) (text : option (list Z)) : option (memory * memalloc * Z) :=
  let '(m, ma, res) := new_block_if_empty m ma in
  if res <? 0 then Some (m, ma, 0) else vsprintf_rounds BLOCK_ROUNDS m ma text.

Definition memalloc_memcpy (m : memory) (ma : memalloc) (s : list Z) : option (memory * memalloc * Z) :=
  let n := Z.of_nat (length s) in
  '(m, ma, res) ← memalloc_resize_if_less m ma n;
  if res <? 0 then Some (m, ma, 0) else Some (store_bytes m (ma_mem ma) s, memalloc_seek ma n, ma_mem ma).

(** The string [s] is copied until its end or the end of the block. *)
Fixpoint strcpy_rounds (fuel : nat) (m : memory) (ma : memalloc) (s : list Z) : option (memory * memalloc * Z) :=
  match fuel with
  | O => None
  | S f =>
      let mem := ma_mem ma in
      let m := store_bytes m mem (take (Z.to_nat (ma_avail ma)) s) in
      if Z.of_nat (length s) <? ma_avail ma then
        Some (store_bytes m (mem + Z.of_nat (length s)) [0], memalloc_seek ma (Z.of_nat (length s) + 1), mem)
      else
        let '(m, ma, res) := memalloc_new_block m ma in
        if res <? 0 then Some (m, ma, 0) else strcpy_rounds f m ma s
  end.
Definition memalloc_strcpy (m : memory) (ma : memalloc) (s : list Z) : option (memory * memalloc * Z) :=
  let '(m, ma, res) := new_block_if_empty m ma in
  if res <? 0 then Some (m, ma, 0) else strcpy_rounds BLOCK_ROUNDS m ma s.

Fixpoint strftime_rounds (fuel : nat) (m : memory) (ma : memalloc) (text : list Z) : option (memory * memalloc * Z) :=
  match fuel with
  | O => None
  | S f =>
      let mem := ma_mem ma in
      let (m, n) := strftime m mem (ma_avail ma) text in
      if n >? 0 then Some (m, memalloc_seek ma (n + 1), mem)
      else
        let '(m, ma, res) := memalloc_new_block m ma in
        if res <? 0 then Some (m, ma, 0) else strftime_rounds f m ma text
  end.
Definition memalloc_strftime := strftime_rounds BLOCK_ROUNDS.

(** One byte back: [--ma->mem; ++ma->avail]. *)
Definition step_back (ma : memalloc) : memalloc :=
  Memalloc (u64 (ma_mem ma - 1)) (ma_capacity ma) (u64 (ma_avail ma + 1)) (ma_memblocks ma).

Fixpoint strcat_rounds (fuel : nat) (m : memory) (ma : memalloc) (buf : Z) (resized : bool) (text : option (list Z)) :
  option (memory * memalloc * Z * Z) :=
  match fuel with
  | O => None
  | S f =>
      '(m, ma, buf) ←
        (if negb (buf =? 0) then
           '(m, ma, buf) ← (if resized then memalloc_strcpy m ma (cstr m buf) else Some (m, ma, buf));
           Some (m, step_back ma, buf)
         else Some (m, ma, buf));
      let str := ma_mem ma in
      let (m, n) := vsnprintf m str (ma_avail ma) text in
      if n <? 0 then Some (m, ma, buf, -1)
      else if n <? ma_avail ma then Some (m, memalloc_seek ma (n + 1), if buf =? 0 then str else buf, 0)
      else
        let '(m, ma, res) := memalloc_new_block m ma in
        if res <? 0 then Some (m, ma, buf, -1)
        else strcat_rounds f (store_bytes m str [0]) ma buf true text
  end.

(** The memory, the allocator, the new [*buf] and the result. *)
Definition memalloc_strcat_vsprintf (m : memory) (ma : memalloc) (buf : Z) (text : option (list Z)) :
  option (memory * memalloc * Z * Z) :=
  let resized := ma_avail ma =? 0 in
  let '(m, ma, res) := new_block_if_empty m ma in
  if res <? 0 then Some (m, ma, buf, -1)
  else strcat_rounds BLOCK_ROUNDS m ma buf resized text.

Definition memalloc_str_remove_last_if (fuel : nat) (m : memory) (ma : memalloc) (c : Z) : option (memory * memalloc) :=
  let p := u64 (ma_mem ma - 2) in
  mine ← memalloc_is_mine fuel m ma p;
  if mine && (m_byte m p =? c) then Some (store_bytes m p [0], step_back ma) else Some (m, ma).
End Ops.

(** ** The allocators of the fibers ([include/malloc.h], [src/_malloc.c])

    Every fiber has an allocator; the functions without a context use that of the fiber that runs. *)
Record fibers := Fibers { fi_memory : memory; fi_memallocs : gmap Z memalloc; fi_current_ctx : Z }.

Definition on_memalloc {A} (ctx : Z) (f : memory -> memalloc -> option (memory * memalloc * A)) : ST fibers A := fun s =>
  ma ← fi_memallocs s !! ctx;
  '(m, ma, res) ← f (fi_memory s) ma;
  Some (res, Fibers m (<[ctx := ma]> (fi_memallocs s)) (fi_current_ctx s)).
Definition in_current {A} (f : Z -> ST fibers A) : ST fibers A := fun s => f (fi_current_ctx s) s.
Definition with_unit {A B} (r : option (A * B)) : option (A * B * unit) := '(a, b) ← r; Some (a, b, tt).
(** The list of blocks has at most as many nodes as there are. *)
Definition block_fuel (m : memory) : nat := size (m_nodes m).

(** [memset(mem, 0, n)] *)
Definition memset0 (mem n : Z) : ST fibers unit := fun s =>
  if n =? 0 then Some (tt, s)
  else if mem =? 0 then None
  else Some (tt, Fibers (store_bytes (fi_memory s) mem (replicate (Z.to_nat n) 0)) (fi_memallocs s) (fi_current_ctx s)).

Section Malloc.
Context `{address_space}.

Definition ribs_malloc2 (ctx size : Z) : ST fibers Z :=
  if size =? 0 then mret 0 else on_memalloc ctx (fun m ma => memalloc_alloc m ma size).
Definition ribs_malloc (size : Z) : ST fibers Z := in_current (fun ctx => ribs_malloc2 ctx size).

Definition ribs_calloc2 (ctx nmemb size : Z) : ST fibers Z :=
  let s := u64 (nmemb * size) in
  mem ← ribs_malloc2 ctx s;
  memset0 mem s;;
  mret mem.
Definition ribs_calloc (nmemb size : Z) : ST fibers Z := in_current (fun ctx => ribs_calloc2 ctx nmemb size).

Definition ribs_reset_malloc2 (ctx : Z) : ST fibers unit := on_memalloc ctx (fun m ma => with_unit (memalloc_reset (block_fuel m) m ma)).
Definition ribs_reset_malloc : ST fibers unit := in_current ribs_reset_malloc2.

Definition ribs_malloc_vsprintf2 (ctx : Z) (text : option (list Z)) : ST fibers Z := on_memalloc ctx (fun m ma => memalloc_vsprintf m ma text).
Definition ribs_malloc_vsprintf (text : option (list Z)) : ST fibers Z := in_current (fun ctx => ribs_malloc_vsprintf2 ctx text).
Definition ribs_malloc_sprintf (text : option (list Z)) : ST fibers Z := ribs_malloc_vsprintf text.
Definition ribs_malloc_sprintf2 (ctx : Z) (text : option (list Z)) : ST fibers Z := ribs_malloc_vsprintf2 ctx text.

(** The new [*buf] and the result. *)
Definition ribs_malloc_strcat_vsprintf2 (ctx buf : Z) (text : option (list Z)) : ST fibers (Z * Z) :=
  on_memalloc ctx (fun m ma => '(m, ma, buf, res) ← memalloc_strcat_vsprintf m ma buf text; Some (m, ma, (buf, res))).
Definition ribs_malloc_strcat_vsprintf (buf : Z) (text : option (list Z)) : ST fibers (Z * Z) := in_current (fun ctx => ribs_malloc_strcat_vsprintf2 ctx buf text).
Definition ribs_malloc_strcat_sprintf (buf : Z) (text : option (list Z)) : ST fibers (Z * Z) := ribs_malloc_strcat_vsprintf buf text.
Definition ribs_malloc_strcat_sprintf2 (ctx buf : Z) (text : option (list Z)) : ST fibers (Z * Z) := ribs_malloc_strcat_vsprintf2 ctx buf text.

Definition ribs_malloc_str_remove_last_if2 (ctx c : Z) : ST fibers unit := on_memalloc ctx (fun m ma => with_unit (memalloc_str_remove_last_if (block_fuel m) m ma c)).
Definition ribs_malloc_str_remove_last_if (c : Z) : ST fibers unit := in_current (fun ctx => ribs_malloc_str_remove_last_if2 ctx c).

Definition ribs_memdup2 (ctx : Z) (s : list Z) : ST fibers Z := on_memalloc ctx (fun m ma => memalloc_memcpy m ma s).
Definition ribs_memdup (s : list Z) : ST fibers Z := in_current (fun ctx => ribs_memdup2 ctx s).
Definition ribs_strdup2 (ctx : Z) (s : list Z) : ST fibers Z := on_memalloc ctx (fun m ma => memalloc_strcpy m ma s).
Definition ribs_strdup (s : list Z) : ST fibers Z := in_current (fun ctx => ribs_strdup2 ctx s).
Definition ribs_malloc_strftime2 (ctx : Z) (text : list Z) : ST fibers Z := on_memalloc ctx (fun m ma => memalloc_strftime m ma text).
Definition ribs_malloc_strftime (text : list Z) : ST fibers Z := in_current (fun ctx => ribs_malloc_strftime2 ctx text).
Definition ribs_malloc_usage2 (ctx : Z) : ST fibers Z := on_memalloc ctx (fun m ma => n ← memalloc_usage (block_fuel m) m ma; Some (m, ma, n)).
Definition ribs_malloc_usage : ST fibers Z := in_current ribs_malloc_usage2.
End Malloc.
