(* ===== verification/MemallocFacts.v ===== *)
(** * MemallocFacts: what [memalloc] promises

    The regions allocated since the last reset are disjoint, lie in blocks of the pool after
    the block headers, and keep their contents; a reset gives every block back. *)

From stdpp Require Import base numbers list gmap.
From Stdlib Require Import ZArith Lia.
From S2P Require Import Prelude Words Dlist Mempool Memalloc.

(** ** Bytes *)
Lemma lookup_put l : forall bs a x,
  put_bytes bs a l !! x = if decide (a <= x < a + Z.of_nat (length l)) then l !! Z.to_nat (x - a) else bs !! x.
Proof.
  induction l as [|b l IH]; intros bs a x; cbn [put_bytes length].
  - rewrite decide_False by lia. done.
  - rewrite IH. destruct (decide (a + 1 <= x < a + 1 + Z.of_nat (length l))).
    + rewrite decide_True by lia. replace (Z.to_nat (x - a)) with (S (Z.to_nat (x - (a + 1)))) by lia. done.
    + destruct (Z.eq_dec a x) as [->|]; [rewrite lookup_insert_eq, decide_True by lia; by rewrite Z.sub_diag|].
      rewrite lookup_insert_ne, decide_False by lia. done.
Qed.

Lemma byte_store m a l x :
  m_byte (store_bytes m a l) x =
  if decide (a <= x < a + Z.of_nat (length l)) then default 0 (l !! Z.to_nat (x - a)) else m_byte m x.
Proof. unfold m_byte, store_bytes. cbn. rewrite lookup_put. by case_decide. Qed.

Lemma length_load m a n : length (load_bytes m a n) = Z.to_nat n.
Proof. unfold load_bytes. by rewrite length_fmap, length_seqZ. Qed.

Lemma load_lookup m a n i : (i < Z.to_nat n)%nat -> load_bytes m a n !! i = Some (m_byte m (a + Z.of_nat i)).
Proof. intros Hi. unfold load_bytes. rewrite list_lookup_fmap, lookup_seqZ_lt by lia. done. Qed.

Lemma load_ext m m' a n : (forall x, a <= x < a + n -> m_byte m' x = m_byte m x) -> load_bytes m' a n = load_bytes m a n.
Proof.
  intros Hx. unfold load_bytes. apply list_fmap_ext. intros i x Hi. apply Hx. apply lookup_seqZ in Hi. lia.
Qed.

Lemma load_store_same m a l : load_bytes (store_bytes m a l) a (Z.of_nat (length l)) = l.
Proof.
  apply list_eq. intros i. destruct (decide (i < length l)%nat) as [Hi|Hi].
  - rewrite load_lookup, byte_store, decide_True by lia. replace (Z.to_nat (a + Z.of_nat i - a)) with i by lia.
    destruct (lookup_lt_is_Some_2 l i Hi) as [b ->]. done.
  - rewrite !lookup_ge_None_2; [done|lia|rewrite length_load; lia].
Qed.

Lemma load_store_other m a l b n : apart (a, Z.of_nat (length l)) (b, n) -> load_bytes (store_bytes m a l) b n = load_bytes m b n.
Proof. intros Ha. apply load_ext. intros x Hx. rewrite byte_store, decide_False; [done|]. unfold apart in Ha. cbn in Ha. lia. Qed.

Lemma load_app m a n k : 0 <= n -> 0 <= k -> load_bytes m a (n + k) = load_bytes m a n ++ load_bytes m (a + n) k.
Proof. intros. unfold load_bytes. by rewrite seqZ_app, fmap_app by lia. Qed.

Lemma load_one m a : load_bytes m a 1 = [m_byte m a].
Proof. unfold load_bytes. rewrite seqZ_cons by lia. rewrite (seqZ_nil (Z.succ a) (Z.pred 1)) by lia. done. Qed.

Lemma store_app m a l k : store_bytes (store_bytes m a l) (a + Z.of_nat (length l)) k = store_bytes m a (l ++ k).
Proof.
  unfold store_bytes, set_bytes. cbn. f_equal. revert a. generalize (m_bytes m).
  induction l as [|b l IH]; intros bs a; cbn [put_bytes length app]; [f_equal; lia|].
  rewrite <- IH. f_equal. lia.
Qed.

(** A loaded string is no longer than the byte map. *)
Lemma load_nonzero_size m a s : load_bytes m a (Z.of_nat (length s)) = s -> Forall (fun b => b <> 0) s ->
  (length s <= size (m_bytes m))%nat.
Proof.
  intros Hs Hnz.
  assert (Hdom : list_to_set (seqZ a (Z.of_nat (length s))) ⊆ dom (m_bytes m)).
  { intros x Hx%elem_of_list_to_set. apply elem_of_seqZ in Hx.
    assert (m_byte m x <> 0) as Hb.
    { rewrite Forall_forall in Hnz. apply Hnz. rewrite <- Hs. unfold load_bytes. apply list_elem_of_fmap. exists x.
      split; [done|]. by apply elem_of_seqZ. }
    apply elem_of_dom. unfold m_byte in Hb. destruct (m_bytes m !! x); [by eexists|done]. }
  apply subseteq_size in Hdom. rewrite size_list_to_set, length_seqZ, size_dom in Hdom by apply NoDup_seqZ. lia.
Qed.

Lemma cstr_loop_spec m s : forall a fuel, (length s < fuel)%nat -> Forall (fun b => b <> 0) s ->
  load_bytes m a (Z.of_nat (length s) + 1) = s ++ [0] -> cstr_loop fuel m a = s.
Proof.
  induction s as [|b s IH]; intros a [|f] Hf Hnz Hl; cbn [length] in *; try lia; cbn [cstr_loop].
  - change (Z.of_nat 0 + 1) with 1 in Hl. rewrite load_one in Hl. injection Hl as E. by rewrite E.
  - apply Forall_cons in Hnz as [Hb Hnz].
    replace (Z.of_nat (S (length s)) + 1) with (1 + (Z.of_nat (length s) + 1)) in Hl by lia. rewrite load_app in Hl by lia.
    rewrite load_one in Hl. cbn in Hl. injection Hl as E Hl.
    rewrite E, (proj2 (Z.eqb_neq b 0)) by done. f_equal. apply IH; [lia|done|done].
Qed.

Lemma cstr_spec m a s : Forall (fun b => b <> 0) s -> load_bytes m a (Z.of_nat (length s) + 1) = s ++ [0] -> cstr m a = s.
Proof.
  intros Hnz Hl. apply cstr_loop_spec; [|done|done]. apply Nat.lt_succ_r, (load_nonzero_size m a); [|done].
  rewrite load_app in Hl by lia. apply app_inj_1 in Hl as [? _]; [done|]. rewrite length_load. lia.
Qed.

(** ** The invariant *)
Section Facts.
Context `{address_space} (head : Z).
(** The list head is memory that existed before, which [mmap] does not hand out. *)
Hypothesis Hreserved : forall mapped s a, mmap_anon mapped s = Some a -> a + MEMBLOCKS_OFS <> head.
Hypothesis Hhead : head <> 0.

Definition in_block (u b : Z * Z) : Prop := b.1 + MEMALLOC_BLOCK_HEADER <= u.1 /\ u.1 + u.2 <= b.1 + b.2.

(** The free part [ma_mem, ma_mem + ma_avail) ends the current block. *)
Definition window (ma : memalloc) (blocks : list (Z * Z)) : Prop :=
  ma_capacity ma = 0 /\ ma_avail ma = 0
  \/ exists a i, (5 <= i < 20)%nat /\ ma_capacity ma = chunk_size i /\ (a, chunk_size i) ∈ blocks
     /\ a + MEMALLOC_BLOCK_HEADER <= ma_mem ma /\ 0 <= ma_avail ma /\ ma_mem ma + ma_avail ma = a + chunk_size i.

Record ma_inv (m : memory) (ma : memalloc) (blocks others used : list (Z * Z)) : Prop := {
  mi_pool : exists fl, pool_inv (m_pool m) (blocks ++ others) fl;
  mi_addr : ma_memblocks ma = head;
  mi_mapped : Forall (fun c => c.1 + MEMBLOCKS_OFS <> head) (mp_mapped (m_pool m));
  mi_list : list_is_null (m_nodes m) head = true /\ blocks = []
            \/ is_list (m_nodes m) head ((fun b => b.1 + MEMBLOCKS_OFS) <$> blocks);
  mi_hdr : Forall (fun b => bk_size (block_at m b.1) = b.2 /\ 0 <= bk_type (block_at m b.1)) blocks;
  mi_window : window ma blocks;
  mi_used_in : Forall (fun u => 0 < u.2 /\ exists b, b ∈ blocks /\ in_block u b) used;
  mi_used_apart : pairwise apart used;
  mi_used_window : Forall (apart (ma_mem ma, ma_avail ma)) used;
}.

Lemma ma_inv_bytes m ma blocks others used a l :
  ma_inv m ma blocks others used -> ma_inv (store_bytes m a l) ma blocks others used.
Proof. intros []. split; auto. Qed.

Lemma pool_live_pos p live fl : pool_inv p live fl ->
  Forall (fun c => 0 < c.1 /\ c.1 + c.2 < 2 ^ 64 /\ exists i, (i < 20)%nat /\ c.2 = chunk_size i) live.
Proof.
  intros [_ _ _ Hall _ Hsz]. rewrite <- Hall in Hsz. apply Forall_app in Hsz as [Hsz _].
  eapply Forall_impl; [exact Hsz|]. intros c (? & ? & ?%validate_size_spec). eauto.
Qed.

Lemma pool_live_apart p live fl : pool_inv p live fl -> pairwise apart live.
Proof.
  intros [_ _ _ Hall Hap _]. eapply pairwise_app_l. by eapply pairwise_perm; [exact apart_sym|symmetry; exact Hall|].
Qed.

Lemma ensure_list m blocks others fl : pool_inv (m_pool m) (blocks ++ others) fl ->
  list_is_null (m_nodes m) head = true /\ blocks = [] \/ is_list (m_nodes m) head ((fun b => b.1 + MEMBLOCKS_OFS) <$> blocks) ->
  is_list (m_nodes (list_ensure m head)) head ((fun b => b.1 + MEMBLOCKS_OFS) <$> blocks).
Proof.
  intros Hp. unfold list_ensure. intros [[-> ->]|Hl]; [apply list_init_spec|].
  assert (list_is_null (m_nodes m) head = false) as ->; [|done]. unfold list_is_null. apply Z.eqb_neq.
  destruct Hl as [Hnd Hs]. destruct (seg_ends _ _ _ Hs) as [-> _]. destruct blocks as [|b bl]; [done|]. cbn.
  apply pool_live_pos in Hp. apply Forall_cons in Hp as [[Hb _] _]. unfold MEMBLOCKS_OFS. lia.
Qed.

(** A chunk taken from the pool becomes the last block. *)
Lemma add_block_inv m blocks others fl p a s type fl' :
  pool_inv (m_pool m) (blocks ++ others) fl ->
  Forall (fun c => c.1 + MEMBLOCKS_OFS <> head) (mp_mapped (m_pool m)) ->
  (list_is_null (m_nodes m) head = true /\ blocks = [] \/ is_list (m_nodes m) head ((fun b => b.1 + MEMBLOCKS_OFS) <$> blocks)) ->
  Forall (fun b => bk_size (block_at m b.1) = b.2 /\ 0 <= bk_type (block_at m b.1)) blocks ->
  0 <= type -> pool_inv p ((a, s) :: blocks ++ others) fl' ->
  (mp_mapped p = mp_mapped (m_pool m) \/ mmap_anon (mp_mapped (m_pool m)) s = Some a /\ mp_mapped p = (a, s) :: mp_mapped (m_pool m)) ->
  let m' := add_block (set_pool (list_ensure m head) p) head a s type in
  pool_inv (m_pool m') ((blocks ++ [(a, s)]) ++ others) fl'
  /\ Forall (fun c => c.1 + MEMBLOCKS_OFS <> head) (mp_mapped (m_pool m'))
  /\ is_list (m_nodes m') head ((fun b => b.1 + MEMBLOCKS_OFS) <$> (blocks ++ [(a, s)]))
  /\ Forall (fun b => bk_size (block_at m' b.1) = b.2 /\ 0 <= bk_type (block_at m' b.1)) (blocks ++ [(a, s)])
  /\ m_bytes m' = m_bytes m.
Proof.
  intros Hp Hmap Hl Hh Ht Hp' Hm'. cbv zeta.
  assert (Hap : Forall (fun b => a <> b.1) blocks).
  { pose proof (pool_live_apart _ _ _ Hp') as [Ha _]. apply Forall_app in Ha as [Ha _].
    pose proof (pool_live_pos _ _ _ Hp') as [(_ & _ & i & Hi & Es) Hpos]%Forall_cons. apply Forall_app in Hpos as [Hpos _].
    rewrite Forall_forall in *. intros b Hb E. specialize (Ha b Hb). specialize (Hpos b Hb) as (_ & _ & j & Hj & Ej).
    unfold apart in Ha. cbn [fst snd] in *. pose proof (chunk_size_bounds i Hi). pose proof (chunk_size_bounds j Hj). lia. }
  assert (Hmap' : Forall (fun c => c.1 + MEMBLOCKS_OFS <> head) (mp_mapped p)).
  { destruct Hm' as [->|[Hm ->]]; [done|]. apply Forall_cons. split; [by eapply Hreserved|done]. }
  split; [|split; [|split; [|split]]]; cbn [add_block set_pool m_pool m_nodes m_bytes].
  - eapply pool_inv_perm; [|exact Hp']. rewrite <- (app_assoc blocks). cbn [app]. apply Permutation_middle.
  - done.
  - rewrite fmap_app. cbn [fmap list_fmap]. apply insert_tail_spec; [by eapply ensure_list|].
    apply not_elem_of_cons. split.
    + destruct Hp' as [_ _ _ Hall _ _]. rewrite Forall_forall in Hmap'. apply (Hmap' (a, s)). rewrite <- Hall. by left.
    + intros (b & E & Hb)%list_elem_of_fmap. rewrite Forall_forall in Hap. apply (Hap b Hb). cbn in E. unfold MEMBLOCKS_OFS in E. lia.
  - apply Forall_app. split; [|apply Forall_singleton; unfold block_at; cbn; by rewrite lookup_insert_eq].
    rewrite Forall_forall in *. intros b Hb. unfold block_at in *. cbn. rewrite lookup_insert_ne by auto.
    specialize (Hh b Hb). unfold list_ensure. by destruct (list_is_null _ _).
  - unfold list_ensure. by destruct (list_is_null _ _).
Qed.

(** The number of blocks that can still be added. *)
Definition rank (ma : memalloc) : Z := if ma_capacity ma =? 0 then 15 else 31 - Z.log2 (ma_capacity ma).

Lemma rank_chunk i mem avail h : (i < 20)%nat -> rank (Memalloc mem (chunk_size i) avail h) = 19 - Z.of_nat i.
Proof.
  intros Hi. unfold rank. cbn [ma_capacity]. pose proof (chunk_size_bounds i Hi). rewrite (proj2 (Z.eqb_neq _ 0)) by lia.
  unfold chunk_size. rewrite Z.log2_pow2; unfold MIN_CHUNK_SIZE_BITS; lia.
Qed.

Definition block_added (ma ma' : memalloc) : Prop :=
  0 <= rank ma' < rank ma /\ ma_avail ma' = ma_capacity ma' - MEMALLOC_BLOCK_HEADER
  /\ 2 * ma_capacity ma <= ma_capacity ma' /\ 2 ^ 17 <= ma_capacity ma' <= 2 ^ 31.

(** The size asked for is the next chunk size. *)
Lemma new_block_size ma blocks : window ma blocks ->
  exists j, (if negb (ma_capacity ma =? 0) then u64 (Z.shiftl (ma_capacity ma) 1) else MEMALLOC_INITIAL_BLOCK_SIZE) = chunk_size j
  /\ (5 <= j)%nat /\ 2 * ma_capacity ma <= chunk_size j /\ ((j < 20)%nat -> 19 - Z.of_nat j < rank ma).
Proof.
  intros [[Hc Ha]|(a & i & Hi & Hc & _)]; rewrite Hc.
  - cbn. exists 5%nat. split; [done|]. split; [lia|]. split; [done|]. intros _. unfold rank. rewrite Hc. cbn. lia.
  - pose proof (chunk_size_bounds i ltac:(lia)). rewrite (proj2 (Z.eqb_neq _ 0)) by lia. cbn [negb]. exists (S i).
    assert (E : chunk_size (S i) = 2 * chunk_size i).
    { unfold chunk_size, MIN_CHUNK_SIZE_BITS. rewrite Nat2Z.inj_succ, <- Z.pow_succ_r by lia. f_equal. lia. }
    rewrite Z.shiftl_mul_pow2, E, u64_small by lia. split; [lia|]. split; [lia|]. split; [lia|]. intros Hj.
    destruct ma as [mem cap av h]. cbn in Hc. subst cap. rewrite rank_chunk by lia. lia.
Qed.

Lemma window_new a j h : (5 <= j < 20)%nat -> 0 < a -> a + chunk_size j < 2 ^ 64 ->
  window (Memalloc (a + MEMALLOC_BLOCK_HEADER) (chunk_size j) (chunk_size j - MEMALLOC_BLOCK_HEADER) h) [(a, chunk_size j)].
Proof.
  intros Hj Ha He. right. exists a, j. pose proof (chunk_size_bounds j ltac:(lia)). unfold MEMALLOC_BLOCK_HEADER.
  cbn [ma_capacity ma_mem ma_avail]. split; [lia|]. split; [done|]. split; [by left|]. lia.
Qed.

Lemma window_weaken ma blocks blocks' : blocks ⊆ blocks' -> window ma blocks -> window ma blocks'.
Proof. intros Hs [?|(a & i & ? & ? & ? & ?)]; [by left|right]. exists a, i. split; [done|]. split; [done|]. split; [by apply Hs|done]. Qed.

(** A region of another block is apart from anything in [b]. *)
Lemma apart_sub u b c w : in_block u b -> apart c b -> in_block w c -> apart w u.
Proof. unfold in_block, apart, MEMALLOC_BLOCK_HEADER. lia. Qed.

Lemma new_block_spec m ma blocks others used : ma_inv m ma blocks others used ->
  exists m' ma' res blocks', memalloc_new_block m ma = (m', ma', res) /\ ma_inv m' ma' blocks' others used
  /\ m_bytes m' = m_bytes m /\ (res = -1 /\ ma' = ma /\ blocks' = blocks \/ res = 0 /\ block_added ma ma').
Proof.
  intros [[fl Hp] Haddr Hmap Hl Hh Hw Hui Hua Huw]. unfold memalloc_new_block. rewrite Haddr.
  destruct (new_block_size ma blocks Hw) as (j & -> & Hj5 & Hdbl & Hrank).
  assert (Hpe : m_pool (list_ensure m head) = m_pool m) by (unfold list_ensure; by destruct (list_is_null _ _)).
  destruct (alloc_spec (m_pool m) _ fl (chunk_size j) Hp) as (p' & a & fl' & E & Hcase). rewrite Hpe, E.
  destruct Hcase as [(-> & Hp' & Hm')|(Ha & Hv & Hp' & Hm')].
  - cbn [Z.eqb]. eexists _, ma, (-1), blocks. split; [done|]. split; [|split; [|by left]].
    + split; cbn; auto; [by eexists|by rewrite Hm'|right; by eapply ensure_list|].
      eapply Forall_impl; [exact Hh|]. intros b. unfold block_at, list_ensure. by destruct (list_is_null _ _).
    + cbn. unfold list_ensure. by destruct (list_is_null _ _).
  - rewrite (proj2 (Z.eqb_neq a 0)) by lia.
    destruct (add_block_inv m blocks others fl p' a (chunk_size j) MEMALLOC_MEM_TYPE_MALLOC fl' Hp Hmap Hl Hh)
      as (I1 & I2 & I3 & I4 & I5); [done|done|done|].
    apply validate_size_spec in Hv as (j' & Hj & <-%chunk_size_inj). pose proof (chunk_size_bounds j Hj).
    pose proof (pool_live_pos _ _ _ Hp') as [(_ & Hend & _) _]%Forall_cons. cbn [fst snd] in Hend.
    rewrite !u64_small by (unfold MEMALLOC_BLOCK_HEADER; lia).
    eexists _, _, 0, (blocks ++ [(a, chunk_size j)]). split; [done|]. split; [|split; [done|right; split; [done|]]].
    + split; auto; [by eexists|..].
      * eapply window_weaken; [|apply (window_new a j head); [lia|done|done]]. apply list_subseteq_app_r. done.
      * eapply Forall_impl; [exact Hui|]. intros u (Hpos & b & Hb & Hin). split; [done|]. exists b. split; [apply elem_of_app; by left|done].
      * eapply Forall_impl; [exact Hui|]. intros u (Hpos & b & Hb & Hin). cbn [ma_mem ma_avail].
        pose proof (pool_live_apart _ _ _ Hp') as [Hapb _]. rewrite Forall_app, !Forall_forall in Hapb. destruct Hapb as [Hapb _].
        apply (apart_sub u b (a, chunk_size j)); [done|by apply Hapb|]. unfold in_block. cbn [fst snd]. lia.
    + unfold block_added. rewrite rank_chunk by done. cbn [ma_avail ma_capacity]. split; [lia|]. split; [done|]. split; [done|].
      split; [|lia]. change (2 ^ 17) with (chunk_size 5). unfold chunk_size, MIN_CHUNK_SIZE_BITS. apply Z.pow_le_mono_r; lia.
Qed.

(** ** Allocation *)
Lemma seek_inv m ma blocks others used n : ma_inv m ma blocks others used -> 0 < n <= ma_avail ma ->
  ma_inv m (memalloc_seek ma n) blocks others ((ma_mem ma, n) :: used) /\ 0 < ma_mem ma
  /\ ma_mem (memalloc_seek ma n) = ma_mem ma + n /\ ma_avail (memalloc_seek ma n) = ma_avail ma - n.
Proof.
  intros [[fl Hp] Haddr Hmap Hl Hh Hw Hui Hua Huw] Hn. destruct Hw as [[? ?]|(a & i & Hi & Hc & Hb & Hlo & Hav & Hend)]; [lia|].
  pose proof (chunk_size_bounds i ltac:(lia)).
  assert (Ha : 0 < a /\ a + chunk_size i < 2 ^ 64).
  { apply pool_live_pos in Hp. apply Forall_app in Hp as [Hp _]. rewrite Forall_forall in Hp. specialize (Hp _ Hb). cbn [fst snd] in Hp. lia. }
  assert (Hs : memalloc_seek ma n = Memalloc (ma_mem ma + n) (ma_capacity ma) (ma_avail ma - n) (ma_memblocks ma)).
  { unfold memalloc_seek. rewrite !u64_small by (unfold MEMALLOC_BLOCK_HEADER in *; lia). done. }
  rewrite Hs. split; [|unfold MEMALLOC_BLOCK_HEADER in *; cbn; lia]. split; cbn [ma_mem ma_avail ma_capacity ma_memblocks]; auto.
  - by eexists.
  - right. exists a, i. cbn [ma_mem ma_avail ma_capacity]. unfold MEMALLOC_BLOCK_HEADER in *. repeat (split; [done || lia|]). lia.
  - apply Forall_cons. split; [|done]. split; [cbn; lia|]. exists (a, chunk_size i). split; [done|]. unfold in_block. cbn [fst snd]. lia.
  - split; [|done]. eapply Forall_impl; [exact Huw|]. intros u. unfold apart. cbn [fst snd]. lia.
  - apply Forall_cons. split; [unfold apart; cbn [fst snd]; lia|]. eapply Forall_impl; [exact Huw|]. intros u. unfold apart. cbn [fst snd]. lia.
Qed.

Lemma window_rank ma blocks : window ma blocks -> 0 <= rank ma < 18.
Proof.
  intros [[Hc _]|(a & i & Hi & Hc & _)]; [unfold rank; rewrite Hc; cbn; lia|].
  destruct ma as [mem cap av h]. cbn in Hc. subst cap. rewrite rank_chunk by lia. lia.
Qed.

(** The contents of the allocated regions are kept. *)
Definition kept (m m' : memory) (used : list (Z * Z)) : Prop :=
  Forall (fun u => load_bytes m' u.1 u.2 = load_bytes m u.1 u.2) used.

Lemma kept_bytes m m' used : m_bytes m' = m_bytes m -> kept m m' used.
Proof. intros E. apply Forall_forall. intros u _. apply load_ext. intros x _. unfold m_byte. by rewrite E. Qed.

Lemma kept_trans m1 m2 m3 used : kept m1 m2 used -> kept m2 m3 used -> kept m1 m3 used.
Proof. unfold kept. rewrite !Forall_forall. intros H1 H2 u Hu. by rewrite H2, H1. Qed.

Lemma kept_store m ma blocks others used l : ma_inv m ma blocks others used -> Z.of_nat (length l) <= ma_avail ma ->
  kept m (store_bytes m (ma_mem ma) l) used.
Proof.
  intros Hinv Hlen. eapply Forall_impl; [exact (mi_used_window _ _ _ _ _ Hinv)|]. intros u Hu. apply load_store_other.
  unfold apart in *. cbn [fst snd] in *. lia.
Qed.

(** The outcome of an operation that allocates a region and fills it with [l]. *)
Definition region_allocated (m : memory) (others used : list (Z * Z)) (l : list Z) (m' : memory) (ma' : memalloc) (r : Z) : Prop :=
  exists blocks', kept m m' used
  /\ (r = 0 /\ ma_inv m' ma' blocks' others used
      \/ 0 < r /\ load_bytes m' r (Z.of_nat (length l)) = l /\ ma_inv m' ma' blocks' others ((r, Z.of_nat (length l)) :: used)
         /\ r + Z.of_nat (length l) = ma_mem ma').

Lemma allocated_kept m0 m others used l m' ma' r :
  kept m0 m used -> region_allocated m others used l m' ma' r -> region_allocated m0 others used l m' ma' r.
Proof. intros Hk (b & Hk' & Hr). exists b. split; [by eapply kept_trans|done]. Qed.

(** Writing [l] at the start of the free part and moving past it. *)
Lemma store_seek m ma blocks others used l : ma_inv m ma blocks others used -> 0 < Z.of_nat (length l) <= ma_avail ma ->
  region_allocated m others used l (store_bytes m (ma_mem ma) l) (memalloc_seek ma (Z.of_nat (length l))) (ma_mem ma).
Proof.
  intros Hinv Hl. destruct (seek_inv m ma blocks others used _ Hinv Hl) as (Hs & Hpos & Hm & _).
  exists blocks. split; [eapply kept_store; [done|lia]|]. right. split; [done|]. split; [apply load_store_same|].
  split; [by apply ma_inv_bytes|by rewrite Hm].
Qed.

Lemma resize_rounds_spec size fuel : forall m ma blocks others used,
  ma_inv m ma blocks others used -> rank ma < Z.of_nat fuel ->
  exists m' ma' res blocks', resize_rounds fuel m ma size = Some (m', ma', res) /\ ma_inv m' ma' blocks' others used
  /\ m_bytes m' = m_bytes m /\ (res = -1 \/ res = 0 /\ size <= ma_avail ma').
Proof.
  induction fuel as [|f IH]; intros m ma blocks others used Hinv Hf.
  { pose proof (window_rank ma blocks (mi_window _ _ _ _ _ Hinv)). lia. }
  cbn [resize_rounds]. destruct (Z.ltb_spec (ma_avail ma) size).
  - destruct (new_block_spec m ma blocks others used Hinv) as (m1 & ma1 & res & b1 & -> & Hinv1 & Hb1 & [(-> & _)|(-> & Hadd)]).
    + exists m1, ma1, (-1), b1. split; [done|]. auto.
    + cbn [Z.ltb Z.compare]. destruct Hadd as [Hrk _].
      destruct (IH m1 ma1 b1 others used Hinv1 ltac:(lia)) as (m2 & ma2 & res & b2 & E & Hinv2 & Hb2 & Hres).
      exists m2, ma2, res, b2. rewrite E. split; [done|]. split; [done|]. split; [congruence|done].
  - exists m, ma, 0, blocks. auto 7.
Qed.

Lemma memcpy_spec m ma blocks others used s : ma_inv m ma blocks others used -> s <> [] ->
  exists m' ma' r, memalloc_memcpy m ma s = Some (m', ma', r) /\ region_allocated m others used s m' ma' r.
Proof.
  intros Hinv Hs. pose proof (window_rank ma blocks (mi_window _ _ _ _ _ Hinv)).
  assert (0 < Z.of_nat (length s)) by (destruct s; cbn; [done|lia]).
  unfold memalloc_memcpy, memalloc_resize_if_less.
  destruct (resize_rounds_spec (Z.of_nat (length s)) BLOCK_ROUNDS m ma blocks others used Hinv) as (m1 & ma1 & res & b1 & -> & Hinv1 & Hb1 & Hres);
    [unfold BLOCK_ROUNDS; lia|]. cbn [mbind option_bind].
  pose proof (kept_bytes m m1 used Hb1) as Hk. destruct Hres as [->|[-> Hav]]; cbn [Z.ltb Z.compare]; eexists _, _, _; (split; [done|]).
  - exists b1. split; [done|]. by left.
  - eapply allocated_kept; [exact Hk|]. eapply store_seek; [done|lia].
Qed.

Lemma strcpy_fits m ma s fuel : Z.of_nat (length s) < ma_avail ma -> 
  strcpy_rounds (S fuel) m ma s
  = Some (store_bytes m (ma_mem ma) (s ++ [0]), memalloc_seek ma (Z.of_nat (length (s ++ [0]))), ma_mem ma).
Proof.
  intros Hs. cbn [strcpy_rounds]. rewrite take_ge, (proj2 (Z.ltb_lt _ _)) by lia. rewrite store_app, length_app. cbn [length].
  repeat f_equal. lia.
Qed.

Lemma strcpy_rounds_spec s fuel : forall m ma blocks others used,
  ma_inv m ma blocks others used -> rank ma < Z.of_nat fuel ->
  exists m' ma' r, strcpy_rounds fuel m ma s = Some (m', ma', r) /\ region_allocated m others used (s ++ [0]) m' ma' r.
Proof.
  induction fuel as [|f IH]; intros m ma blocks others used Hinv Hf;
    pose proof (window_rank ma blocks (mi_window _ _ _ _ _ Hinv)); [lia|].
  destruct (Z.ltb_spec (Z.of_nat (length s)) (ma_avail ma)) as [Hlt|Hge].
  - rewrite strcpy_fits by done. eexists _, _, _. split; [done|]. eapply store_seek; [done|]. rewrite length_app. cbn. lia.
  - cbn [strcpy_rounds]. rewrite (proj2 (Z.ltb_ge _ _)) by lia.
    set (m0 := store_bytes m (ma_mem ma) (take (Z.to_nat (ma_avail ma)) s)).
    assert (Hinv0 : ma_inv m0 ma blocks others used) by (by apply ma_inv_bytes).
    assert (Hk0 : kept m m0 used).
    { destruct (mi_window _ _ _ _ _ Hinv) as [[? ?]|(? & ? & ? & ? & ? & ? & ? & ?)];
        (eapply kept_store; [done|]; rewrite length_take; lia). }
    destruct (new_block_spec m0 ma blocks others used Hinv0) as (m1 & ma1 & res & b1 & -> & Hinv1 & Hb1 & [(-> & _)|(-> & Hadd)]).
    + eexists _, _, _. split; [done|]. exists b1. split; [|by left]. eapply kept_trans; [exact Hk0|by apply kept_bytes].
    + cbn [Z.ltb Z.compare]. destruct Hadd as [Hrk _].
      destruct (IH m1 ma1 b1 others used Hinv1 ltac:(lia)) as (m2 & ma2 & r & E & Hr). rewrite E.
      eexists _, _, _. split; [done|]. eapply allocated_kept; [|exact Hr]. eapply kept_trans; [exact Hk0|by apply kept_bytes].
Qed.

Lemma if_empty_spec m ma blocks others used : ma_inv m ma blocks others used ->
  exists m' ma' res blocks', new_block_if_empty m ma = (m', ma', res) /\ ma_inv m' ma' blocks' others used
  /\ m_bytes m' = m_bytes m
  /\ (res = -1 \/ res = 0 /\ (0 < ma_avail ma /\ m' = m /\ ma' = ma /\ blocks' = blocks \/ ma_avail ma = 0 /\ block_added ma ma')).
Proof.
  intros Hinv. unfold new_block_if_empty. destruct (Z.eqb_spec (ma_avail ma) 0) as [E|E].
  - destruct (new_block_spec m ma blocks others used Hinv) as (m1 & ma1 & res & b1 & -> & Hinv1 & Hb1 & [(-> & _)|(-> & Hadd)]);
      eexists _, _, _, b1; (split; [done|]); (split; [done|]); (split; [done|]); [by left|right; auto].
  - eexists _, _, _, blocks. split; [done|]. split; [done|]. split; [done|]. right. split; [done|]. left.
    destruct (mi_window _ _ _ _ _ Hinv) as [[_ ?]|(? & ? & _ & _ & _ & _ & ? & _)]; [done|]. split; [lia|done].
Qed.

Lemma strcpy_spec m ma blocks others used s : ma_inv m ma blocks others used ->
  exists m' ma' r, memalloc_strcpy m ma s = Some (m', ma', r) /\ region_allocated m others used (s ++ [0]) m' ma' r.
Proof.
  intros Hinv. unfold memalloc_strcpy.
  destruct (if_empty_spec m ma blocks others used Hinv) as (m1 & ma1 & res & b1 & -> & Hinv1 & Hb1 & Hres).
  pose proof (kept_bytes m m1 used Hb1) as Hk. destruct Hres as [->|[-> _]]; cbn [Z.ltb Z.compare].
  - eexists _, _, _. split; [done|]. exists b1. split; [done|by left].
  - pose proof (window_rank ma1 b1 (mi_window _ _ _ _ _ Hinv1)).
    destruct (strcpy_rounds_spec s BLOCK_ROUNDS m1 ma1 b1 others used Hinv1) as (m2 & ma2 & r & -> & Hr);
      [unfold BLOCK_ROUNDS; lia|]. eexists _, _, _. split; [done|]. by eapply allocated_kept.
Qed.

(** [vsnprintf] into the free part: all of [t] if it fits, else only free bytes are written. *)
Lemma vsnprintf_fits m str av t : Z.of_nat (length t) <= INT_MAX -> Z.of_nat (length t) < av ->
  vsnprintf m str av (Some t) = (store_bytes m str (t ++ [0]), Z.of_nat (length t)).
Proof.
  intros Ht Hlt. unfold vsnprintf. rewrite Z.gtb_ltb, (proj2 (Z.ltb_ge _ _)), (proj2 (Z.ltb_lt 0 av)), take_ge by lia. done.
Qed.

Lemma vsnprintf_full m str av t : Z.of_nat (length t) <= INT_MAX -> 0 < av <= Z.of_nat (length t) ->
  exists l, vsnprintf m str av (Some t) = (store_bytes m str l, Z.of_nat (length t)) /\ Z.of_nat (length l) = av.
Proof.
  intros Ht Hlt. unfold vsnprintf. rewrite Z.gtb_ltb, (proj2 (Z.ltb_ge _ _)), (proj2 (Z.ltb_lt 0 av)) by lia.
  eexists. split; [done|]. rewrite length_app, length_take. cbn. lia.
Qed.

Lemma vsprintf_rounds_spec t fuel : Z.of_nat (length t) <= INT_MAX -> forall m ma blocks others used,
  ma_inv m ma blocks others used -> 0 < ma_avail ma -> rank ma < Z.of_nat fuel ->
  exists m' ma' r, vsprintf_rounds fuel m ma (Some t) = Some (m', ma', r) /\ region_allocated m others used (t ++ [0]) m' ma' r.
Proof.
  intros Ht. induction fuel as [|f IH]; intros m ma blocks others used Hinv Hpos Hf;
    pose proof (window_rank ma blocks (mi_window _ _ _ _ _ Hinv)); [lia|]. cbn [vsprintf_rounds].
  destruct (Z.ltb_spec (Z.of_nat (length t)) (ma_avail ma)) as [Hlt|Hge].
  - rewrite vsnprintf_fits, (proj2 (Z.ltb_ge _ 0)), (proj2 (Z.ltb_lt _ _)) by lia. eexists _, _, _. split; [done|].
    replace (Z.of_nat (length t) + 1) with (Z.of_nat (length (t ++ [0]))) by (rewrite length_app; cbn; lia).
    eapply store_seek; [done|]. rewrite length_app. cbn. lia.
  - destruct (vsnprintf_full m (ma_mem ma) (ma_avail ma) t Ht ltac:(lia)) as (l & -> & Hl).
    rewrite (proj2 (Z.ltb_ge _ 0)), (proj2 (Z.ltb_ge _ _)) by lia.
    pose proof (kept_store m ma blocks others used l Hinv ltac:(lia)) as Hk0.
    apply (ma_inv_bytes _ _ _ _ _ (ma_mem ma) l) in Hinv.
    destruct (new_block_spec _ ma blocks others used Hinv) as (m1 & ma1 & res & b1 & -> & Hinv1 & Hb1 & [(-> & _)|(-> & Hadd)]).
    + eexists _, _, _. split; [done|]. exists b1. split; [|by left]. eapply kept_trans; [exact Hk0|by apply kept_bytes].
    + cbn [Z.ltb Z.compare]. destruct Hadd as (Hrk & Hav & _ & Hcap). unfold MEMALLOC_BLOCK_HEADER in Hav.
      destruct (IH m1 ma1 b1 others used Hinv1 ltac:(lia) ltac:(lia)) as (m2 & ma2 & r & E & Hr). rewrite E.
      eexists _, _, _. split; [done|]. eapply allocated_kept; [|exact Hr]. eapply kept_trans; [exact Hk0|by apply kept_bytes].
Qed.

Lemma vsprintf_spec m ma blocks others used t : ma_inv m ma blocks others used -> Z.of_nat (length t) <= INT_MAX ->
  exists m' ma' r, memalloc_vsprintf m ma (Some t) = Some (m', ma', r) /\ region_allocated m others used (t ++ [0]) m' ma' r.
Proof.
  intros Hinv Ht. unfold memalloc_vsprintf.
  destruct (if_empty_spec m ma blocks others used Hinv) as (m1 & ma1 & res & b1 & -> & Hinv1 & Hb1 & Hres).
  pose proof (kept_bytes m m1 used Hb1) as Hk. destruct Hres as [->|[-> Hne]]; cbn [Z.ltb Z.compare].
  - eexists _, _, _. split; [done|]. exists b1. split; [done|by left].
  - pose proof (window_rank ma1 b1 (mi_window _ _ _ _ _ Hinv1)).
    assert (0 < ma_avail ma1).
    { destruct Hne as [(? & _ & -> & _)|(_ & _ & Hav & _ & Hcap)]; [done|]. unfold MEMALLOC_BLOCK_HEADER in Hav. lia. }
    destruct (vsprintf_rounds_spec t BLOCK_ROUNDS Ht m1 ma1 b1 others used Hinv1) as (m2 & ma2 & r & -> & Hr);
      [done|unfold BLOCK_ROUNDS; lia|]. eexists _, _, _. split; [done|]. by eapply allocated_kept.
Qed.

(** ** Appending to the last string *)

(** [s] is the string at [buf], the last region allocated, in the current block. *)
Record last_string (m : memory) (ma : memalloc) (blocks : list (Z * Z)) (buf : Z) (s : list Z) : Prop := {
  ls_end : buf + Z.of_nat (length s) + 1 = ma_mem ma;
  ls_text : load_bytes m buf (Z.of_nat (length s) + 1) = s ++ [0];
  ls_block : exists a, (a, ma_capacity ma) ∈ blocks /\ a + MEMALLOC_BLOCK_HEADER <= buf
                       /\ ma_mem ma + ma_avail ma = a + ma_capacity ma;
}.

Lemma block_bounds m ma blocks others used a s : ma_inv m ma blocks others used -> (a, s) ∈ blocks ->
  0 < a /\ a + s < 2 ^ 64.
Proof.
  intros [[fl Hp] _ _ _ _ _ _ _ _] Hb. apply pool_live_pos in Hp. apply Forall_app in Hp as [Hp _].
  rewrite Forall_forall in Hp. specialize (Hp _ Hb). cbn [fst snd] in Hp. lia.
Qed.

Lemma step_back_eq m ma blocks others used buf s : ma_inv m ma blocks others used -> last_string m ma blocks buf s ->
  step_back ma = Memalloc (ma_mem ma - 1) (ma_capacity ma) (ma_avail ma + 1) (ma_memblocks ma) /\ 0 <= ma_avail ma /\ 0 < buf.
Proof.
  intros Hinv [He _ (a & Hb & Ha & Hend)]. destruct (block_bounds _ _ _ _ _ _ _ Hinv Hb).
  assert (0 <= ma_avail ma) by (destruct (mi_window _ _ _ _ _ Hinv) as [[_ ?]|(? & ? & _ & _ & _ & _ & ? & _)]; lia).
  unfold MEMALLOC_BLOCK_HEADER in *. unfold step_back. rewrite !u64_small by lia. split; [done|]. split; [done|]. lia.
Qed.

(** The terminator of the last string is free again. *)
Lemma step_back_inv m ma blocks others used buf s :
  ma_inv m ma blocks others ((buf, Z.of_nat (length s) + 1) :: used) -> last_string m ma blocks buf s ->
  ma_inv m (step_back ma) blocks others used /\ Forall (apart (buf, Z.of_nat (length s))) used.
Proof.
  intros Hinv Hls. destruct (step_back_eq _ _ _ _ _ _ _ Hinv Hls) as (E & Hav & _). rewrite E.
  destruct Hls as [He _ (a & Hb & Ha & Hend)]. destruct Hinv as [Hp Haddr Hmap Hl Hh Hw Hui [Hu1 Hua] Huw].
  apply Forall_cons in Hui as [_ Hui], Huw as [_ Huw].
  assert (Hrest : Forall (apart (ma_mem ma - 1, ma_avail ma + 1)) used).
  { rewrite Forall_forall in *. intros u Hu. specialize (Hu1 u Hu). specialize (Huw u Hu).
    specialize (Hui u Hu) as (Hpos & b & Hub & Hin). unfold apart, in_block in *. cbn [fst snd] in *.
    destruct Hu1 as [Hu1|Hu1]; [|lia]. destruct Huw as [Huw|Huw]; [lia|]. right. lia. }
  split; [split; cbn [ma_mem ma_avail ma_capacity ma_memblocks]; auto|].
  - destruct Hw as [[Hc Ha0]|(a' & i & Hi & Hc & Hb' & Hlo & _ & Hend')].
    + left. cbn [ma_capacity ma_avail]. exfalso. rewrite Hc in *.
      destruct Hp as [fl Hp]. apply pool_live_pos in Hp. apply Forall_app in Hp as [Hp _].
      rewrite Forall_forall in Hp. specialize (Hp _ Hb) as (_ & _ & i & Hi & E'). cbn in E'.
      pose proof (chunk_size_bounds i Hi). lia.
    + right. exists a', i. cbn [ma_capacity ma_avail ma_mem]. rewrite Hc in *.
      assert (a = a') as <- by lia. split; [done|]. split; [done|]. split; [done|]. unfold MEMALLOC_BLOCK_HEADER in *. lia.
  - eapply Forall_impl; [exact Hu1|]. intros u. unfold apart. cbn [fst snd]. lia.
Qed.

(** Two adjacent regions are one. *)
Lemma merge_regions m ma blocks others used buf x n :
  ma_inv m ma blocks others ((x, n) :: used) -> Forall (apart (buf, x - buf)) used -> buf <= x ->
  (exists b, b ∈ blocks /\ in_block (buf, x + n - buf) b) ->
  x + n <= ma_mem ma -> 0 <= ma_avail ma -> ma_inv m ma blocks others ((buf, x + n - buf) :: used).
Proof.
  intros [Hp Haddr Hmap Hl Hh Hw Hui [Hu1 Hua] Huw] Hap Hle Hin Hend Hav. apply Forall_cons in Hui as [[Hn _] Hui], Huw as [_ Huw].
  cbn [fst snd] in Hn. split; auto.
  - apply Forall_cons. split; [|done]. split; [cbn; lia|done].
  - split; [|done]. rewrite Forall_forall in *. intros u Hu. specialize (Hap u Hu). specialize (Hu1 u Hu).
    specialize (Hui u Hu) as [Hpos _]. unfold apart in *. cbn [fst snd] in *. lia.
  - apply Forall_cons. split; [unfold apart; cbn [fst snd]; lia|done].
Qed.

Lemma append_fits m ma blocks others used buf s t :
  ma_inv m ma blocks others ((buf, Z.of_nat (length s) + 1) :: used) -> last_string m ma blocks buf s ->
  Z.of_nat (length t) <= ma_avail ma ->
  let m' := store_bytes m (ma_mem ma - 1) (t ++ [0]) in
  let ma' := memalloc_seek (step_back ma) (Z.of_nat (length t) + 1) in
  ma_inv m' ma' blocks others ((buf, Z.of_nat (length (s ++ t)) + 1) :: used) /\ last_string m' ma' blocks buf (s ++ t)
  /\ kept m m' used.
Proof.
  intros Hinv Hls Ht. cbv zeta. destruct (step_back_eq _ _ _ _ _ _ _ Hinv Hls) as (E & Hav & Hbuf).
  destruct (step_back_inv _ _ _ _ _ _ _ Hinv Hls) as [Hinv1 Hap]. destruct Hls as [He Htx (a & Hb & Ha & Hend)].
  destruct (seek_inv m (step_back ma) blocks others used (Z.of_nat (length t) + 1) Hinv1) as (Hinv2 & _ & Hm2 & Ha2);
    [rewrite E; cbn; lia|].
  set (ma2 := memalloc_seek (step_back ma) (Z.of_nat (length t) + 1)) in *.
  assert (Hc2 : ma_capacity ma2 = ma_capacity ma) by done. rewrite E in Hm2, Ha2, Hinv2. cbn [ma_mem ma_avail] in *.
  assert (Hlen : Z.of_nat (length (s ++ t)) + 1 = (ma_mem ma - 1) + (Z.of_nat (length t) + 1) - buf) by (rewrite length_app; lia).
  split; [|split].
  - rewrite Hlen. apply ma_inv_bytes. apply merge_regions; [exact Hinv2| |lia| |lia|lia].
    + replace (ma_mem ma - 1 - buf) with (Z.of_nat (length s)) by lia. done.
    + eexists. split; [exact Hb|]. unfold in_block. cbn [fst snd]. lia.
  - split; [lia| |].
    + rewrite length_app, Nat2Z.inj_add, <- Z.add_assoc, load_app, <- app_assoc by lia. f_equal.
      * rewrite load_store_other by (unfold apart; cbn [fst snd]; lia).
        rewrite load_app in Htx by lia. apply app_inj_1 in Htx as [-> _]; [done|]. rewrite length_load. lia.
      * replace (buf + Z.of_nat (length s)) with (ma_mem ma - 1) by lia.
        replace (Z.of_nat (length t) + 1) with (Z.of_nat (length (t ++ [0]))) by (rewrite length_app; cbn; lia).
        apply load_store_same.
    + exists a. rewrite Hc2. split; [done|]. split; [done|]. lia.
  - replace (ma_mem ma - 1) with (ma_mem (step_back ma)) by (by rewrite E).
    eapply kept_store; [exact Hinv1|]. rewrite E, length_app. cbn. lia.
Qed.

Lemma new_block_back m ma : memalloc_new_block m (step_back ma) =
  (let '(m', ma', res) := memalloc_new_block m ma in (m', if res <? 0 then step_back ma else ma', res)).
Proof.
  unfold memalloc_new_block. cbn [step_back ma_capacity ma_memblocks].
  destruct (mempool_alloc_chunk _ _) as [p' a]. by destruct (a =? 0).
Qed.

(** Cutting the string at its terminator after a failed attempt to append. *)
Lemma cut_string m m1 ma blocks used others buf s l :
  ma_inv m ma blocks others ((buf, Z.of_nat (length s) + 1) :: used) -> last_string m ma blocks buf s ->
  Z.of_nat (length l) = ma_avail ma + 1 -> m_bytes m1 = m_bytes (store_bytes m (ma_mem ma - 1) l) ->
  load_bytes (store_bytes m1 (ma_mem ma - 1) [0]) buf (Z.of_nat (length s) + 1) = s ++ [0]
  /\ load_bytes m1 buf (Z.of_nat (length s)) = s
  /\ kept m m1 used /\ kept m (store_bytes m1 (ma_mem ma - 1) [0]) used.
Proof.
  intros Hinv Hls Hl Hb1. destruct (step_back_eq _ _ _ _ _ _ _ Hinv Hls) as (E & Hav & _).
  destruct (step_back_inv _ _ _ _ _ _ _ Hinv Hls) as [Hinv1 _]. destruct Hls as [He Htx _].
  assert (Hld : forall a n, load_bytes m1 a n = load_bytes (store_bytes m (ma_mem ma - 1) l) a n).
  { intros a n. apply load_ext. intros x _. unfold m_byte. by rewrite Hb1. }
  assert (Hpre : load_bytes m1 buf (Z.of_nat (length s)) = s).
  { rewrite Hld, load_store_other by (unfold apart; cbn [fst snd]; lia).
    rewrite load_app in Htx by lia. apply app_inj_1 in Htx as [-> _]; [done|]. rewrite length_load. lia. }
  assert (Hk : kept m m1 used).
  { eapply kept_trans; [|apply kept_bytes; exact Hb1]. replace (ma_mem ma - 1) with (ma_mem (step_back ma)) by (by rewrite E).
    eapply kept_store; [exact Hinv1|]. rewrite E. cbn [ma_avail]. lia. }
  split; [|split; [done|split; [done|]]].
  - rewrite load_app by lia. f_equal; [rewrite load_store_other; [done|unfold apart; cbn [fst snd length]; lia]|].
    replace (buf + Z.of_nat (length s)) with (ma_mem ma - 1) by lia. apply (load_store_same m1 (ma_mem ma - 1) [0]).
  - eapply kept_trans; [exact Hk|]. eapply Forall_impl; [exact (mi_used_window _ _ _ _ _ Hinv1)|]. intros u Hu.
    apply load_store_other. rewrite E in Hu. unfold apart in *. cbn [fst snd length ma_mem ma_avail] in *. lia.
Qed.

Lemma strcpy_last m ma blocks others used s : ma_inv m ma blocks others used -> Z.of_nat (length s) < ma_avail ma ->
  exists m' ma' r, memalloc_strcpy m ma s = Some (m', ma', r)
  /\ ma_inv m' ma' blocks others ((r, Z.of_nat (length s) + 1) :: used) /\ last_string m' ma' blocks r s /\ kept m m' used
  /\ ma_capacity ma' = ma_capacity ma.
Proof.
  intros Hinv Hs. unfold memalloc_strcpy, new_block_if_empty. rewrite (proj2 (Z.eqb_neq _ 0)) by lia. cbn [Z.ltb Z.compare].
  unfold BLOCK_ROUNDS. rewrite strcpy_fits by done. eexists _, _, _. split; [done|].
  assert (Hlen : Z.of_nat (length (s ++ [0])) = Z.of_nat (length s) + 1) by (rewrite length_app; cbn; lia). rewrite Hlen.
  destruct (seek_inv m ma blocks others used (Z.of_nat (length s) + 1) Hinv ltac:(lia)) as (Hinv1 & _ & Hm & Hav).
  split; [by apply ma_inv_bytes|]. split; [|split; [eapply kept_store; [done|lia]|done]].
  split; [lia|rewrite <- Hlen; apply load_store_same|].
  destruct (mi_window _ _ _ _ _ Hinv) as [[_ ?]|(a & i & _ & Hc & Hb & Hlo & _ & Hend)]; [lia|].
  exists a. unfold memalloc_seek in *. cbn in *. rewrite Hc. split; [done|]. split; [done|]. lia.
Qed.

(** The outcome of appending [t] to [s]: the string is extended, possibly at a new place, or
    the call fails and the old bytes are still there. *)
Definition appended (m : memory) (others used : list (Z * Z)) (s t : list Z) (m' : memory) (ma' : memalloc) (buf' res : Z) : Prop :=
  kept m m' used
  /\ (res = -1 /\ load_bytes m' buf' (Z.of_nat (length s)) = s
      \/ res = 0 /\ exists blocks' used', used ⊆ used' /\ last_string m' ma' blocks' buf' (s ++ t)
         /\ ma_inv m' ma' blocks' others ((buf', Z.of_nat (length (s ++ t)) + 1) :: used')).

Lemma appended_weaken m0 m others used0 used s t m' ma' buf' res :
  kept m0 m used0 -> used0 ⊆ used -> appended m others used s t m' ma' buf' res -> appended m0 others used0 s t m' ma' buf' res.
Proof.
  intros Hk Hsub [Hk' Hr]. split.
  - eapply kept_trans; [exact Hk|]. unfold kept in *. rewrite Forall_forall in *. intros u Hu. apply Hk'. by apply Hsub.
  - destruct Hr as [Hr|(-> & b & u' & Hs & Hr)]; [by left|right]. split; [done|]. exists b, u'. split; [|done]. by etransitivity.
Qed.

(** A fresh block has room for any string of the block before. *)
Lemma string_fits_next m ma blocks others used buf s ma' :
  ma_inv m ma blocks others used -> last_string m ma blocks buf s -> block_added ma ma' ->
  Z.of_nat (length s) < ma_avail ma'.
Proof.
  intros Hinv [He _ (a & Hb & Ha & Hend)] (_ & Hav & Hdbl & Hcap).
  assert (0 <= ma_avail ma) by (destruct (mi_window _ _ _ _ _ Hinv) as [[_ ?]|(? & ? & _ & _ & _ & _ & ? & _)]; lia).
  unfold MEMALLOC_BLOCK_HEADER in *. lia.
Qed.

(** One round for a string that is last in the current block; [go] is the rest of the loop. *)
Lemma append_round (go : memory -> memalloc -> option (memory * memalloc * Z * Z)) m ma blocks others used buf s t :
  Z.of_nat (length t) <= INT_MAX ->
  ma_inv m ma blocks others ((buf, Z.of_nat (length s) + 1) :: used) -> last_string m ma blocks buf s ->
  (forall m' ma' blocks', ma_inv m' ma' blocks' others ((buf, Z.of_nat (length s) + 1) :: used) -> block_added ma ma' ->
     load_bytes m' buf (Z.of_nat (length s) + 1) = s ++ [0] -> kept m m' used ->
     exists m2 ma2 b2 r2, go m' ma' = Some (m2, ma2, b2, r2) /\ appended m others used s t m2 ma2 b2 r2) ->
  exists m2 ma2 b2 r2,
    (let str := ma_mem (step_back ma) in
     let (m, n) := vsnprintf m str (ma_avail (step_back ma)) (Some t) in
     if n <? 0 then Some (m, step_back ma, buf, -1)
     else if n <? ma_avail (step_back ma) then Some (m, memalloc_seek (step_back ma) (n + 1), if buf =? 0 then str else buf, 0)
     else let '(m, ma, res) := memalloc_new_block m (step_back ma) in
          if res <? 0 then Some (m, ma, buf, -1) else go (store_bytes m str [0]) ma)
    = Some (m2, ma2, b2, r2) /\ appended m others used s t m2 ma2 b2 r2.
Proof.
  intros Ht Hinv Hls Hgo. destruct (step_back_eq _ _ _ _ _ _ _ Hinv Hls) as (E & Hav & Hbuf).
  cbv zeta.
  assert (Em : ma_mem (step_back ma) = ma_mem ma - 1) by (by rewrite E).
  assert (Ea : ma_avail (step_back ma) = ma_avail ma + 1) by (by rewrite E). rewrite Em, Ea.
  destruct (Z.ltb_spec (Z.of_nat (length t)) (ma_avail ma + 1)) as [Hlt|Hge].
  - rewrite vsnprintf_fits, (proj2 (Z.ltb_ge _ 0)), (proj2 (Z.ltb_lt _ _)), (proj2 (Z.eqb_neq buf 0)) by lia.
    eexists _, _, _, _. split; [done|].
    destruct (append_fits m ma blocks others used buf s t Hinv Hls ltac:(lia)) as (H1 & H2 & H3).
    split; [done|]. right. split; [done|]. exists blocks, used. done.
  - destruct (vsnprintf_full m (ma_mem ma - 1) (ma_avail ma + 1) t Ht ltac:(lia)) as (l & -> & Hl).
    rewrite (proj2 (Z.ltb_ge _ 0)), (proj2 (Z.ltb_ge _ _)), new_block_back by lia.
    pose proof (ma_inv_bytes _ _ _ _ _ (ma_mem ma - 1) l Hinv) as Hinv0.
    destruct (new_block_spec _ ma blocks others _ Hinv0) as (m1 & ma1 & res & b1 & -> & Hinv1 & Hb1 & Hres).
    destruct (cut_string m m1 ma blocks used others buf s l Hinv Hls Hl Hb1) as (Hcut & Hpre & Hk1 & Hk2).
    destruct Hres as [(-> & _)|(-> & Hadd)]; cbn [Z.ltb Z.compare].
    + eexists _, _, _, _. split; [done|]. split; [done|]. by left.
    + apply (Hgo _ _ b1); [by apply ma_inv_bytes|done|done|done].
Qed.

Lemma strcat_rounds_spec t fuel : Z.of_nat (length t) <= INT_MAX -> forall m ma blocks others used buf s (resized : bool),
  ma_inv m ma blocks others ((buf, Z.of_nat (length s) + 1) :: used) -> Forall (fun b => b <> 0) s -> 0 < buf ->
  load_bytes m buf (Z.of_nat (length s) + 1) = s ++ [0] ->
  (if resized then Z.of_nat (length s) < ma_avail ma else last_string m ma blocks buf s) -> rank ma < Z.of_nat fuel ->
  exists m' ma' buf' res, strcat_rounds fuel m ma buf resized (Some t) = Some (m', ma', buf', res)
    /\ appended m others used s t m' ma' buf' res.
Proof.
  intros Ht. induction fuel as [|f IH]; intros m ma blocks others used buf s resized Hinv Hnz Hbuf Htx Hst Hf;
    pose proof (window_rank ma blocks (mi_window _ _ _ _ _ Hinv)); [lia|].
  cbn [strcat_rounds]. rewrite (proj2 (Z.eqb_neq buf 0)) by lia. cbn [negb].
  destruct resized.
  - rewrite (cstr_spec m buf s Hnz Htx).
    destruct (strcpy_last m ma blocks others _ s Hinv Hst) as (m1 & ma1 & r & -> & Hinv1 & Hls1 & Hk1 & Hc1).
    destruct (step_back_eq _ _ _ _ _ _ _ Hinv1 Hls1) as (_ & _ & Hr). cbn [mbind option_bind].
    assert (Hrk1 : rank ma1 = rank ma) by (unfold rank; by rewrite Hc1).
    destruct (append_round (fun m ma => strcat_rounds f m ma r true (Some t)) m1 ma1 blocks others _ r s t Ht Hinv1 Hls1)
      as (m2 & ma2 & b2 & r2 & E & Happ).
    { intros m2 ma2 b2 Hinv2 Hadd Htx2 Hk2. pose proof (string_fits_next _ _ _ _ _ _ _ _ Hinv1 Hls1 Hadd). destruct Hadd as [Hrk2 _].
      destruct (IH m2 ma2 b2 others _ r s true Hinv2 Hnz Hr Htx2) as (m3 & ma3 & b3 & r3 & E & Happ); [done|lia|].
      eexists _, _, _, _. split; [exact E|]. by eapply appended_weaken. }
    eexists _, _, _, _. split; [exact E|]. eapply appended_weaken; [|apply (list_subseteq_cons (buf, Z.of_nat (length s) + 1)); reflexivity|exact Happ].
    by apply Forall_cons in Hk1 as [_ Hk1].
  - cbn [mbind option_bind].
    apply (append_round (fun m ma => strcat_rounds f m ma buf true (Some t)) m ma blocks others used buf s t Ht Hinv Hst).
    intros m2 ma2 b2 Hinv2 Hadd Htx2 Hk2. pose proof (string_fits_next _ _ _ _ _ _ _ _ Hinv Hst Hadd). destruct Hadd as [Hrk2 _].
    destruct (IH m2 ma2 b2 others used buf s true Hinv2 Hnz Hbuf Htx2) as (m3 & ma3 & b3 & r3 & E & Happ); [done|lia|].
    eexists _, _, _, _. split; [exact E|]. by eapply appended_weaken.
Qed.

(** The same when there is no string yet. *)
Lemma strcat_null_spec t fuel : Z.of_nat (length t) <= INT_MAX -> forall m ma blocks others used (resized : bool),
  ma_inv m ma blocks others used -> 0 < ma_avail ma -> rank ma < Z.of_nat fuel ->
  exists m' ma' buf' res, strcat_rounds fuel m ma 0 resized (Some t) = Some (m', ma', buf', res)
    /\ appended m others used [] t m' ma' buf' res.
Proof.
  intros Ht. induction fuel as [|f IH]; intros m ma blocks others used resized Hinv Hpos Hf;
    pose proof (window_rank ma blocks (mi_window _ _ _ _ _ Hinv)); [lia|].
  cbn [strcat_rounds Z.eqb negb mbind option_bind].
  destruct (Z.ltb_spec (Z.of_nat (length t)) (ma_avail ma)) as [Hlt|Hge].
  - rewrite vsnprintf_fits, (proj2 (Z.ltb_ge _ 0)), (proj2 (Z.ltb_lt _ _)) by lia. eexists _, _, _, _. split; [done|].
    destruct (seek_inv m ma blocks others used (Z.of_nat (length t) + 1) Hinv ltac:(lia)) as (Hinv1 & _ & Hm & Hav).
    assert (Hlen : Z.of_nat (length (t ++ [0])) = Z.of_nat (length t) + 1) by (rewrite length_app; cbn; lia).
    split; [eapply kept_store; [done|lia]|]. right. split; [done|]. exists blocks, used. split; [done|].
    split; [|by apply ma_inv_bytes]. cbn [app]. split; [lia|rewrite <- Hlen; apply load_store_same|].
    destruct (mi_window _ _ _ _ _ Hinv) as [[_ ?]|(a & i & _ & Hc & Hb & Hlo & _ & Hend)]; [lia|].
    exists a. unfold memalloc_seek in *. cbn in *. rewrite Hc. split; [done|]. split; [done|]. lia.
  - destruct (vsnprintf_full m (ma_mem ma) (ma_avail ma) t Ht ltac:(lia)) as (l & -> & Hl).
    rewrite (proj2 (Z.ltb_ge _ 0)), (proj2 (Z.ltb_ge _ _)) by lia.
    pose proof (kept_store m ma blocks others used l Hinv ltac:(lia)) as Hk0.
    pose proof (ma_inv_bytes _ _ _ _ _ (ma_mem ma) l Hinv) as Hinv0.
    destruct (new_block_spec _ ma blocks others used Hinv0) as (m1 & ma1 & res & b1 & -> & Hinv1 & Hb1 & [(-> & _)|(-> & Hadd)]);
      (assert (Hk1 : kept m m1 used) by (eapply kept_trans; [exact Hk0|by apply kept_bytes])).
    + eexists _, _, _, _. split; [done|]. split; [done|]. left. done.
    + cbn [Z.ltb Z.compare]. destruct Hadd as (Hrk & Hav & _ & Hcap). unfold MEMALLOC_BLOCK_HEADER in Hav.
      destruct (IH (store_bytes m1 (ma_mem ma) [0]) ma1 b1 others used true) as (m2 & ma2 & b2 & r & E & Happ);
        [by apply ma_inv_bytes|lia|lia|]. eexists _, _, _, _. split; [exact E|].
      eapply appended_weaken; [|reflexivity|exact Happ]. eapply kept_trans; [exact Hk1|].
      eapply Forall_impl; [exact (mi_used_window _ _ _ _ _ Hinv)|]. intros u Hu. apply load_store_other.
      unfold apart in *. cbn [fst snd length] in *. lia.
Qed.

(** The string [*buf] before the call: none, or the last one. *)
Definition buf_string (m : memory) (ma : memalloc) (others used : list (Z * Z)) (buf : Z) (s : list Z) : Prop :=
  exists blocks, buf = 0 /\ s = [] /\ ma_inv m ma blocks others used
  \/ last_string m ma blocks buf s /\ Forall (fun b => b <> 0) s
     /\ ma_inv m ma blocks others ((buf, Z.of_nat (length s) + 1) :: used).

Lemma strcat_spec m ma others used buf s t :
  buf_string m ma others used buf s -> Z.of_nat (length t) <= INT_MAX ->
  exists m' ma' buf' res, memalloc_strcat_vsprintf m ma buf (Some t) = Some (m', ma', buf', res)
    /\ appended m others used s t m' ma' buf' res.
Proof.
  intros [blocks [(-> & -> & Hinv)|(Hls & Hnz & Hinv)]] Ht; unfold memalloc_strcat_vsprintf.
  - destruct (if_empty_spec m ma blocks others used Hinv) as (m1 & ma1 & res & b1 & -> & Hinv1 & Hb1 & Hres).
    pose proof (kept_bytes m m1 used Hb1) as Hk. pose proof (window_rank ma1 b1 (mi_window _ _ _ _ _ Hinv1)).
    destruct Hres as [->|[-> Hne]]; cbn [Z.ltb Z.compare].
    + eexists _, _, _, _. split; [done|]. split; [done|]. by left.
    + destruct (strcat_null_spec t BLOCK_ROUNDS Ht m1 ma1 b1 others used (ma_avail ma =? 0) Hinv1) as (m2 & ma2 & b2 & r & -> & Happ).
      * destruct Hne as [(? & _ & -> & _)|(_ & _ & Hav & _ & Hcap)]; [done|]. unfold MEMALLOC_BLOCK_HEADER in Hav. lia.
      * unfold BLOCK_ROUNDS. lia.
      * eexists _, _, _, _. split; [done|]. by eapply appended_weaken.
  - destruct (step_back_eq _ _ _ _ _ _ _ Hinv Hls) as (_ & _ & Hbuf). pose proof (ls_text _ _ _ _ _ Hls) as Htx.
    destruct (if_empty_spec m ma blocks others _ Hinv) as (m1 & ma1 & res & b1 & -> & Hinv1 & Hb1 & Hres).
    pose proof (kept_bytes m m1 used Hb1) as Hk. pose proof (window_rank ma1 b1 (mi_window _ _ _ _ _ Hinv1)).
    assert (Hld : forall n, load_bytes m1 buf n = load_bytes m buf n).
    { intros n. apply load_ext. intros x _. unfold m_byte. by rewrite Hb1. }
    destruct Hres as [->|[-> Hne]]; cbn [Z.ltb Z.compare].
    + eexists _, _, _, _. split; [done|]. split; [done|]. left. split; [done|]. rewrite Hld.
      rewrite load_app in Htx by lia. apply app_inj_1 in Htx as [-> _]; [done|]. rewrite length_load. lia.
    + destruct (strcat_rounds_spec t BLOCK_ROUNDS Ht m1 ma1 b1 others used buf s (ma_avail ma =? 0) Hinv1 Hnz Hbuf)
        as (m2 & ma2 & b2 & r & -> & Happ); [by rewrite Hld| |unfold BLOCK_ROUNDS; lia|].
      * destruct Hne as [(Hav & -> & -> & ->)|(-> & Hadd)]; [by rewrite (proj2 (Z.eqb_neq _ 0)) by lia|].
        exact (string_fits_next _ _ _ _ _ _ _ _ Hinv Hls Hadd).
      * eexists _, _, _, _. split; [done|]. by eapply appended_weaken.
Qed.

(** ** Reset *)
Lemma reset_loop_spec others blocks : forall m x fl, pool_inv (m_pool m) (blocks ++ others) fl ->
  seg (m_nodes m) x ((fun b => b.1 + MEMBLOCKS_OFS) <$> blocks) head -> head ∉ ((fun b => b.1 + MEMBLOCKS_OFS) <$> blocks) ->
  Forall (fun b => bk_size (block_at m b.1) = b.2 /\ 0 <= bk_type (block_at m b.1)) blocks ->
  exists m' fl', reset_loop (length blocks) m head (list_next (m_nodes m) x) MEMALLOC_MEM_TYPE_ANY = Some m'
  /\ pool_inv (m_pool m') others fl' /\ m_nodes m' = m_nodes m /\ m_bytes m' = m_bytes m.
Proof.
  unfold list_next. induction blocks as [|b blocks IH]; intros m x fl Hp Hs Hn Hh; cbn [fmap list_fmap length seg] in *.
  - destruct Hs as [-> _]. cbn. unfold list_is_head. rewrite Z.eqb_refl. exists m, fl. done.
  - destruct Hs as (-> & _ & Hs). apply not_elem_of_cons in Hn as [Hne Hn]. apply Forall_cons in Hh as [[Hsz Hty] Hh].
    cbn [reset_loop]. unfold list_is_head. rewrite (proj2 (Z.eqb_neq _ _)) by done. unfold list_next.
    replace (b.1 + MEMBLOCKS_OFS - MEMBLOCKS_OFS) with b.1 by lia. rewrite Hsz, Z.geb_leb.
    unfold MEMALLOC_MEM_TYPE_ANY at 1. rewrite (proj2 (Z.leb_le _ _)) by done.
    destruct b as [a s]. cbn [fst snd] in *.
    destruct (free_spec (m_pool m) _ (blocks ++ others) fl a s Hp) as (p' & i & -> & _ & _ & Hp' & _); [done|].
    cbn [fst]. apply (IH (set_pool m p') (a + MEMBLOCKS_OFS) _ Hp'); done.
Qed.

Lemma ma_reset_spec m ma blocks others used : ma_inv m ma blocks others used ->
  exists m' ma' fl, memalloc_reset (length blocks) m ma = Some (m', ma')
  /\ pool_inv (m_pool m') others fl /\ ma_capacity ma' = 0 /\ ma_avail ma' = 0 /\ list_is_null (m_nodes m') head = true.
Proof.
  intros [[fl Hp] Haddr Hmap Hl Hh Hw Hui Hua Huw]. unfold memalloc_reset, memalloc_reset2. rewrite Haddr.
  destruct Hl as [[Hnull ->]|Hl].
  { rewrite Hnull. exists m, ma, fl. split; [done|]. split; [done|].
    destruct Hw as [[? ?]|(a & i & _ & _ & Hin & _)]; [done|by apply elem_of_nil in Hin]. }
  assert (list_is_null (m_nodes m) head = false) as ->.
  { unfold list_is_null. apply Z.eqb_neq. destruct Hl as [_ Hs]. destruct (seg_ends _ _ _ Hs) as [-> _].
    destruct blocks as [|b bl]; [done|]. apply pool_live_pos in Hp. apply Forall_cons in Hp as [[? _] _]. cbn. unfold MEMBLOCKS_OFS. lia. }
  destruct Hl as [Hnd Hs]. apply NoDup_cons in Hnd as [Hnin _].
  destruct (reset_loop_spec others blocks m head fl Hp Hs Hnin Hh) as (m' & fl' & -> & Hp' & _ & _).
  eexists _, _, fl'. cbn [mbind option_bind]. split; [done|]. split; [done|]. split; [done|]. split; [done|].
  unfold list_is_null, list_set_null. cbn. autorewrite with dlist. by rewrite Z.eqb_refl.
Qed.

(** ** Sequences of calls *)
Inductive ma_call := CallMemcpy (l : list Z) | CallStrcpy (s : list Z) | CallSprintf (t : list Z).

Definition call_ok (c : ma_call) : Prop :=
  match c with
  | CallMemcpy l => l <> []
  | CallStrcpy s => True
  | CallSprintf t => Z.of_nat (length t) <= INT_MAX
  end.
Definition call_bytes (c : ma_call) : list Z :=
  match c with CallMemcpy l => l | CallStrcpy s => s ++ [0] | CallSprintf t => t ++ [0] end.

Definition ma_exec (m : memory) (ma : memalloc) (c : ma_call) : option (memory * memalloc * Z) :=
  match c with
  | CallMemcpy l => memalloc_memcpy m ma l
  | CallStrcpy s => memalloc_strcpy m ma s
  | CallSprintf t => memalloc_vsprintf m ma (Some t)
  end.

(** Runs the calls, logging the non-null results with what was stored there. *)
Fixpoint ma_run (m : memory) (ma : memalloc) (log : list (Z * list Z)) (calls : list ma_call) :
  option (memory * memalloc * list (Z * list Z)) :=
  match calls with
  | [] => Some (m, ma, log)
  | c :: calls =>
      '(m, ma, r) ← ma_exec m ma c;
      ma_run m ma (if r =? 0 then log else (r, call_bytes c) :: log) calls
  end.

Definition log_regions (log : list (Z * list Z)) : list (Z * Z) := (fun e => (e.1, Z.of_nat (length e.2))) <$> log.

Lemma ma_exec_spec m ma blocks others used c : ma_inv m ma blocks others used -> call_ok c ->
  exists m' ma' r, ma_exec m ma c = Some (m', ma', r) /\ region_allocated m others used (call_bytes c) m' ma' r.
Proof. destruct c; cbn; intros Hinv Hc; [by eapply memcpy_spec|by eapply strcpy_spec|by eapply vsprintf_spec]. Qed.

Lemma ma_run_spec others calls : forall m ma blocks log, Forall call_ok calls ->
  ma_inv m ma blocks others (log_regions log) -> Forall (fun e => load_bytes m e.1 (Z.of_nat (length e.2)) = e.2) log ->
  exists m' ma' blocks' log', ma_run m ma log calls = Some (m', ma', log') /\ ma_inv m' ma' blocks' others (log_regions log')
  /\ Forall (fun e => load_bytes m' e.1 (Z.of_nat (length e.2)) = e.2) log'.
Proof.
  induction calls as [|c calls IH]; intros m ma blocks log Hok Hinv Hlog; cbn [ma_run]; [exists m, ma, blocks, log; done|].
  apply Forall_cons in Hok as [Hc Hok].
  destruct (ma_exec_spec m ma blocks others _ c Hinv Hc) as (m1 & ma1 & r & -> & b1 & Hk & Hr). cbn [mbind option_bind].
  assert (Hlog1 : Forall (fun e => load_bytes m1 e.1 (Z.of_nat (length e.2)) = e.2) log).
  { unfold kept, log_regions in Hk. rewrite Forall_fmap in Hk. rewrite Forall_forall in *. intros e He.
    specialize (Hk e He). cbn in Hk. rewrite Hk. by apply Hlog. }
  destruct Hr as [[-> Hinv1]|(Hpos & Hld & Hinv1 & _)]; [by apply (IH _ _ b1)|].
  rewrite (proj2 (Z.eqb_neq r 0)) by lia. apply (IH _ _ b1); [done|done|]. apply Forall_cons. done.
Qed.
End Facts.

Definition empty_memory : memory := Memory mempool_initial ∅ ∅ ∅.

Lemma ma_inv_initial `{address_space} head : ma_inv head empty_memory (MEMALLOC_INITIALIZER head) [] [] [].
Proof.
  split; cbn; auto.
  - exists (fun _ => []). apply pool_inv_initial.
  - by left.
Qed.

(** C29: after any sequence of [memalloc_memcpy], [memalloc_strcpy] and [memalloc_sprintf] calls
    on a fresh allocator (all of which end), the regions returned are pairwise disjoint, each lies
    in one of the allocator's blocks behind its header and not beyond its end, and they still hold
    what was stored in them.  The blocks are exactly those on the list of the allocator and exactly
    the chunks of the pool in use: different mappings, of the sizes their headers say, that overlap
    neither each other nor a free chunk.  [memalloc_reset] then puts every block back into the pool. *)
Theorem memalloc_regions_hold `{address_space} (head : Z) (calls : list ma_call)
  (Hreserved : forall mapped s a, mmap_anon mapped s = Some a -> a + MEMBLOCKS_OFS <> head)
  (Hhead : head <> 0) (Hok : Forall call_ok calls) :
  exists m ma log blocks fl,
    ma_run empty_memory (MEMALLOC_INITIALIZER head) [] calls = Some (m, ma, log)
    /\ pairwise apart (log_regions log)
    /\ Forall (fun u => exists b, b ∈ blocks /\ in_block u b) (log_regions log)
    /\ Forall (fun e => load_bytes m e.1 (Z.of_nat (length e.2)) = e.2) log
    /\ pool_inv (m_pool m) blocks fl /\ pairwise apart (blocks ++ free_chunks fl) /\ Forall (fun b => b ∈ mp_mapped (m_pool m)) blocks
    /\ Forall (fun b => bk_size (block_at m b.1) = b.2) blocks
    /\ (blocks = [] \/ LIST_FOR_EACH (length blocks) (m_nodes m) head = Some ((fun b => b.1 + MEMBLOCKS_OFS) <$> blocks))
    /\ exists m' ma' fl', memalloc_reset (length blocks) m ma = Some (m', ma') /\ pool_inv (m_pool m') [] fl'.
Proof.
  destruct (ma_run_spec head Hreserved Hhead [] calls empty_memory (MEMALLOC_INITIALIZER head) [] [] Hok)
    as (m & ma & blocks & log & E & Hinv & Hlog); [apply ma_inv_initial|by constructor|].
  destruct (mi_pool _ _ _ _ _ _ Hinv) as (fl & Hp). rewrite app_nil_r in Hp.
  exists m, ma, log, blocks, fl. split; [done|]. split; [apply Hinv|].
  split; [eapply Forall_impl; [exact (mi_used_in _ _ _ _ _ _ Hinv)|]; intros u [_ Hu]; exact Hu|]. split; [done|]. split; [done|].
  split; [eapply pairwise_perm; [exact apart_sym|symmetry; exact (pi_all _ _ _ Hp)|exact (pi_apart _ _ _ Hp)]|].
  split; [apply Forall_forall; intros b Hb; rewrite <- (pi_all _ _ _ Hp); apply elem_of_app; by left|].
  split; [eapply Forall_impl; [exact (mi_hdr _ _ _ _ _ _ Hinv)|]; intros b [Hb _]; exact Hb|].
  split; [destruct (mi_list _ _ _ _ _ _ Hinv) as [[_ ->]|Hl]; [by left|right]; destruct Hl as [[Hh _]%NoDup_cons Hs]; rewrite <- (length_fmap (fun b => b.1 + MEMBLOCKS_OFS)); by apply for_each_spec|].
  destruct (ma_reset_spec head Hhead m ma blocks [] _ Hinv) as (m' & ma' & fl' & E' & Hp' & _). eauto.
Qed.

Lemma upward_reserved mapped s a : mmap_anon mapped s = Some a -> a + MEMBLOCKS_OFS <> 16.
Proof. cbn. pose proof (above_pos mapped). unfold MEMBLOCKS_OFS. zcase; intros [= <-]. lia. Qed.

Lemma memalloc_regions_hold_witness :
  let calls := [CallStrcpy [104; 105]; CallMemcpy [1; 2; 3]; CallSprintf [65]] in
  Forall call_ok calls
  /\ exists m ma log, ma_run empty_memory (MEMALLOC_INITIALIZER 16) [] calls = Some (m, ma, log)
     /\ pairwise apart (log_regions log) /\ log = [(4126, [65; 0]); (4123, [1; 2; 3]); (4120, [104; 105; 0])].
Proof.
  intros calls. assert (Hok : Forall call_ok calls) by (repeat constructor; done). split; [done|].
  destruct (memalloc_regions_hold 16 calls upward_reserved ltac:(lia) Hok) as (m & ma & log & b & fl & E & Hap & _).
  exists m, ma, log. split; [done|]. split; [done|]. vm_compute in E. injection E as _ _ <-. done.
Defined.

(** [memalloc_strcat_sprintf] appends the formatted text to the string [*buf] (or makes a
    new string if [*buf] is NULL), moving it to a larger block if needed, and leaves all other
    regions as they were; if it fails the old text is still at [*buf]. *)
Theorem memalloc_strcat_appends `{address_space} (head : Z) (m : memory) (ma : memalloc) (others used : list (Z * Z))
  (buf : Z) (s t : list Z)
  (Hreserved : forall mapped s a, mmap_anon mapped s = Some a -> a + MEMBLOCKS_OFS <> head) (Hhead : head <> 0)
  (Hbuf : buf_string head m ma others used buf s) (Ht : Z.of_nat (length t) <= INT_MAX)
  (Hs0 : Forall (fun b => b <> 0) s) (Ht0 : Forall (fun b => b <> 0) t) :
  exists m' ma' buf' res, memalloc_strcat_vsprintf m ma buf (Some t) = Some (m', ma', buf', res)
    /\ kept m m' used
    /\ (res = -1 /\ load_bytes m' buf' (Z.of_nat (length s)) = s
        \/ res = 0 /\ cstr m' buf' = s ++ t
           /\ exists used', used ⊆ used' /\ buf_string head m' ma' others used' buf' (s ++ t)).
Proof.
  destruct (strcat_spec head Hreserved Hhead m ma others used buf s t Hbuf Ht) as (m' & ma' & buf' & res & E & Hk & Hr).
  eexists _, _, _, _. split; [exact E|]. split; [done|]. destruct Hr as [Hr|(-> & b & u & Hu & Hls & Hinv)]; [by left|right].
  assert (Hnz : Forall (fun b => b <> 0) (s ++ t)) by (by apply Forall_app).
  split; [done|]. split; [apply cstr_spec; [done|apply (ls_text _ _ _ _ _ Hls)]|].
  exists u. split; [done|]. exists b. by right.
Qed.

Lemma memalloc_strcat_appends_witness :
  exists m' ma' buf' res,
    memalloc_strcat_vsprintf empty_memory (MEMALLOC_INITIALIZER 16) 0 (Some [65; 66]) = Some (m', ma', buf', res)
    /\ res = 0 /\ cstr m' buf' = [65; 66].
Proof.
  destruct (memalloc_strcat_appends 16 empty_memory (MEMALLOC_INITIALIZER 16) [] [] 0 [] [65; 66] upward_reserved ltac:(lia))
    as (m' & ma' & buf' & res & E & _ & Hr).
  - exists []. left. split; [done|]. split; [done|]. apply ma_inv_initial.
  - vm_compute. congruence.
  - constructor.
  - repeat constructor; done.
  - exists m', ma', buf', res. split; [exact E|]. destruct Hr as [[-> _]|(-> & Hc & _)]; [|done].
    vm_compute in E. discriminate.
Defined.

(** ** The allocators of the fibers *)

Section Calloc.
Context `{address_space} (head : Z).
Hypothesis Hreserved : forall mapped s a, mmap_anon mapped s = Some a -> a + MEMBLOCKS_OFS <> head.
Hypothesis Hhead : head <> 0.

(** [memalloc_alloc] and filling what it returns is [memalloc_memcpy]. *)
Lemma alloc_fill m ma l : memalloc_memcpy m ma l =
  match memalloc_alloc m ma (Z.of_nat (length l)) with
  | Some (m', ma', r) => match memalloc_resize_if_less m ma (Z.of_nat (length l)) with
                         | Some (_, _, res) => if res <? 0 then Some (m', ma', 0) else Some (store_bytes m' r l, ma', r)
                         | None => None
                         end
  | None => None
  end.
Proof. unfold memalloc_memcpy, memalloc_alloc. destruct (memalloc_resize_if_less m ma _) as [[[m1 ma1] res]|]; [|done]. cbn [mbind option_bind]. by destruct (res <? 0). Qed.

Lemma on_memalloc_eval {A} ctx (f : memory -> memalloc -> option (memory * memalloc * A)) s ma m' ma' r : fi_memallocs s !! ctx = Some ma -> f (fi_memory s) ma = Some (m', ma', r) ->
  on_memalloc ctx f s = Some (r, Fibers m' (<[ctx := ma']> (fi_memallocs s)) (fi_current_ctx s)).
Proof. intros Hc Hf. unfold on_memalloc. rewrite Hc. cbn [mbind option_bind]. by rewrite Hf. Qed.

(** [ribs_calloc] gives [nmemb * size] zero bytes that no other region overlaps, where the product
    fits 64 bits and there is memory; where there is none, [NULL] is written to. *)
Theorem ribs_calloc_zeroes (s : fibers) (ctx nmemb size : Z) (ma : memalloc) (blocks others used : list (Z * Z))
    (Hctx : fi_memallocs s !! ctx = Some ma) (Hinv : ma_inv head (fi_memory s) ma blocks others used) (Hsize : 0 < nmemb * size < 2 ^ 64) :
  exists m ma' r, memalloc_alloc (fi_memory s) ma (nmemb * size) = Some (m, ma', r)
    /\ (r = 0 /\ ribs_calloc2 ctx nmemb size s = None
        \/ 0 < r /\ exists s', ribs_calloc2 ctx nmemb size s = Some (r, s') /\ fi_memallocs s' = <[ctx := ma']> (fi_memallocs s)
           /\ region_allocated head (fi_memory s) others used (replicate (Z.to_nat (nmemb * size)) 0) (fi_memory s') ma' r).
Proof.
  set (n := nmemb * size) in *. set (zeros := replicate (Z.to_nat n) 0). assert (Hlen : Z.of_nat (length zeros) = n) by (unfold zeros; rewrite length_replicate; lia).
  destruct (memcpy_spec head Hreserved Hhead (fi_memory s) ma blocks others used zeros Hinv) as (m' & ma' & r & E & Hreg); [intros E; rewrite E in Hlen; cbn in Hlen; lia|].
  rewrite alloc_fill, Hlen in E. destruct (memalloc_alloc (fi_memory s) ma n) as [[[m1 ma1] r1]|] eqn:Ea; [|done]. exists m1, ma1, r1. split; [done|].
  set (s1 := Fibers m1 (<[ctx := ma1]> (fi_memallocs s)) (fi_current_ctx s)). assert (Em : ribs_malloc2 ctx n s = Some (r1, s1)).
  { unfold ribs_malloc2. rewrite (proj2 (Z.eqb_neq n 0)) by lia. by apply on_memalloc_eval with ma. }
  unfold ribs_calloc2. fold n. rewrite (u64_small n) by lia. rewrite (bind_eval _ _ _ _ _ Em). assert (Hn : (n =? 0) = false) by lia.
  assert (Hcase : r1 = 0 \/ 0 < r1 /\ region_allocated head (fi_memory s) others used zeros (store_bytes m1 r1 zeros) ma1 r1).
  { unfold memalloc_alloc in Ea. destruct (memalloc_resize_if_less (fi_memory s) ma n) as [[[m2 ma2] res]|]; [|done]. cbn [mbind option_bind] in Ea. destruct (res <? 0); [left; congruence|].
    injection E as E1 E2 E3. subst m' ma' r. pose proof Hreg as (b' & Hk & [[Hz _]|(Hpos & _)]); [by left|by right]. }
  destruct Hcase as [->|[Hpos Hr]]; [left|right]; (split; [done|]).
  - assert (Ez : memset0 0 n s1 = None) by (unfold memset0; by rewrite Hn). unfold mbind, ST_bind. by rewrite Ez.
  - exists (Fibers (store_bytes m1 r1 zeros) (<[ctx := ma1]> (fi_memallocs s)) (fi_current_ctx s)). split; [|by split].
    rewrite (bind_eval _ _ _ tt (Fibers (store_bytes m1 r1 zeros) (<[ctx := ma1]> (fi_memallocs s)) (fi_current_ctx s))); [done|]. unfold memset0. rewrite Hn. by rewrite (proj2 (Z.eqb_neq r1 0)) by lia.
Qed.
End Calloc.

(** Where the product does not fit 64 bits, [ribs_calloc] allocates fewer bytes than asked for. *)
Theorem ribs_calloc_wraps `{address_space} (s : fibers) (ctx nmemb size : Z) (Hbig : 2 ^ 64 <= nmemb * size) :
  ribs_calloc2 ctx nmemb size s = ribs_calloc2 ctx 1 (u64 (nmemb * size)) s /\ u64 (nmemb * size) < nmemb * size.
Proof.
  pose proof (u64_range (nmemb * size)) as Hr. split; [|lia]. unfold ribs_calloc2. by rewrite Z.mul_1_l, (u64_small (u64 (nmemb * size))).
Qed.

(** 2^33 elements of 2^31 + 1 bytes: 2^33 bytes are allocated. *)
Lemma ribs_calloc_wraps_witness : ribs_calloc2 1 (2 ^ 33) (2 ^ 31 + 1) (Fibers empty_memory {[1 := MEMALLOC_INITIALIZER 16]} 1) = ribs_calloc2 1 1 (2 ^ 33) (Fibers empty_memory {[1 := MEMALLOC_INITIALIZER 16]} 1)
  /\ 2 ^ 33 < 2 ^ 33 * (2 ^ 31 + 1).
Proof. apply (ribs_calloc_wraps (Fibers empty_memory {[1 := MEMALLOC_INITIALIZER 16]} 1) 1 (2 ^ 33) (2 ^ 31 + 1)). lia. Defined.

Lemma ribs_calloc_zeroes_witness : exists r s', ribs_calloc2 1 5 8 (Fibers empty_memory {[1 := MEMALLOC_INITIALIZER 16]} 1) = Some (r, s') /\ load_bytes (fi_memory s') r 40 = replicate 40 0.
Proof.
  destruct (ribs_calloc_zeroes 16 upward_reserved ltac:(lia) (Fibers empty_memory {[1 := MEMALLOC_INITIALIZER 16]} 1) 1 5 8 (MEMALLOC_INITIALIZER 16) [] [] []) as (m & ma & r & E & Hr).
  - by vm_compute.
  - apply ma_inv_initial.
  - lia.
  - destruct Hr as [[-> _]|(Hpos & s' & E' & _ & Hreg)]; [vm_compute in E; discriminate|]. exists r, s'. split; [exact E'|]. destruct Hreg as (b & _ & [[-> _]|(_ & Hl & _)]); [lia|exact Hl].
Defined.
