(* ===== verification/Vmbuf.v ===== *)
(** * Vmbuf: the growing byte buffer ([include/vmbuf.h], [src/vmbuf.c], [src/_vmbuf.c])

    A buffer is a region with a header of 16 bytes (write position and capacity) followed by
    [capacity] bytes.  Four families of memory functions provide the region.  Operations run
    in a state monad over the allocator of the current context and the buffer; [None] is an
    access outside the region (or through a pointer that is not one). *)

From stdpp Require Import base numbers list gmap.
From Stdlib Require Import ZArith Lia.
From S2P Require Import Prelude Words Os Mempool Memalloc.

(** ** Data *)
Inductive vmbuf_mem_funcs :=
  | _mem_funcs_anon_buf | _mem_funcs_shared_buf | _mem_funcs_shared_fixed_buf | _mem_funcs_mem_pool.

(** The header fields and the bytes behind the header; [r_addr] is the address of a region of
    the memory pool. *)
Record region := Region { r_addr : Z; r_wloc : Z; r_capacity : Z; r_bytes : list Z }.

(** The pointer [mem]: NULL, [MAP_FAILED], a pointer to memory that was freed, or a region. *)
Inductive vmem := MNull | MFailed | MDangling | MMap (r : region).

Record vmbuf := Vmbuf {
  vb_mem : vmem;
  vb_funcs : option vmbuf_mem_funcs;
  vb_fd : Z;
  vb_capacity : Z;
  vb_rloc : Z;
}.
Definition VMBUF_INITIALIZER : vmbuf := Vmbuf MNull None 0 0 0.
Definition VMBUF_HEADER : Z := 16.   (* sizeof(struct vmbuf_header) *)
Definition MEM_SYNC_ONLY : Z := 1.

(** [current_ctx->memalloc] and the memory behind it. *)
Abbreviation world := (memory * memalloc)%type.

(** ** The monad *)
Abbreviation M := (ST (world * vmbuf)).

Definition get : M vmbuf := fun s => Some (snd s, s).
Definition put (v : vmbuf) : M unit := fun s => Some (tt, (fst s, v)).

(** [vmbuf_get_header]: only through a pointer to a region. *)
Definition vmbuf_get_header : M region :=
  v ← get; match vb_mem v with MMap r => mret r | _ => crash end.

Definition set_mem (v : vmbuf) (m : vmem) : vmbuf := Vmbuf m (vb_funcs v) (vb_fd v) (vb_capacity v) (vb_rloc v).
Definition set_rloc (v : vmbuf) (r : Z) : vmbuf := Vmbuf (vb_mem v) (vb_funcs v) (vb_fd v) (vb_capacity v) r.
Definition set_region (r : region) : M unit := v ← get; put (set_mem v (MMap r)).
Definition set_wloc (w : Z) : M unit :=
  r ← vmbuf_get_header; set_region (Region (r_addr r) w (r_capacity r) (r_bytes r)).

(** Bytes [ofs, ofs + length l) of the data are overwritten, or read. *)
Definition poke (ofs : Z) (l : list Z) : M unit :=
  r ← vmbuf_get_header;
  if (0 <=? ofs) && (ofs + Z.of_nat (length l) <=? Z.of_nat (length (r_bytes r)))
  then set_region (Region (r_addr r) (r_wloc r) (r_capacity r)
                     (take (Z.to_nat ofs) (r_bytes r) ++ l ++ drop (Z.to_nat ofs + length l) (r_bytes r)))
  else crash.
Definition peek (ofs : Z) : M Z :=
  r ← vmbuf_get_header;
  if (0 <=? ofs) && (ofs <? Z.of_nat (length (r_bytes r))) then mret (nth (Z.to_nat ofs) (r_bytes r) 0) else crash.

(** ** Memory functions *)
Definition mem_roundup (size : Z) : Z := Z.land (u64 (size + 4095)) (u64 (Z.lnot 4095)).

Section Ops.
Context `{address_space} (o : os).
(** The unknown bytes of a chunk of the pool, and of a shared file written by others. *)
Variable stale : Z -> Z -> Z.

Definition zero_region (size : Z) : region := Region 0 0 0 (replicate (Z.to_nat (size - VMBUF_HEADER)) 0).
Definition stale_region (addr size : Z) : region := Region addr 0 0 (stale addr <$> seqZ 0 (size - VMBUF_HEADER)).

(** Each returns the size (0 for failure) and what [*mem] is afterwards. *)
Definition _mem_alloc_ab (size : Z) : Z * vmem :=
  let size := mem_roundup size in
  if sys_mmap o size then (size, MMap (zero_region size)) else (0, MFailed).

Definition _mem_alloc_sb (size : Z) (mem : vmem) (fd : Z) : Z * vmem :=
  let size := mem_roundup size in
  if negb (sys_ftruncate o fd size) then (0, mem)
  else if sys_mmap o size then (size, MMap (zero_region size)) else (0, MFailed).

Definition _mem_alloc_sfb (size : Z) : Z * vmem :=
  let size := mem_roundup size in
  if sys_mmap o size then (size, MMap (zero_region size)) else (0, MFailed).

Definition _mem_alloc_mp (w : world) (size : Z) (mem : vmem) : world * (Z * vmem) :=
  let (m, ma) := w in
  let '(m, (s, addr)) := memalloc_alloc_raw m ma (mem_roundup size) in
  ((m, ma), if s =? 0 then (0, mem) else (s, MMap (stale_region addr s))).

Definition mem_alloc (f : vmbuf_mem_funcs) (w : world) (size : Z) (mem : vmem) (fd : Z) : world * (Z * vmem) :=
  match f with
  | _mem_funcs_anon_buf => (w, _mem_alloc_ab size)
  | _mem_funcs_shared_buf => (w, _mem_alloc_sb size mem fd)
  | _mem_funcs_shared_fixed_buf => (w, _mem_alloc_sfb size)
  | _mem_funcs_mem_pool => _mem_alloc_mp w size mem
  end.

(** The unmapping and closing variants have no effect besides; a pool chunk is given back. *)
Definition mem_free (f : vmbuf_mem_funcs) (w : world) (r : region) : world :=
  match f with
  | _mem_funcs_mem_pool => (memalloc_free_raw (fst w) (r_addr r), snd w)
  | _ => w
  end.

(** The region grown or shrunk to [size] bytes with its header, new bytes from [fill]. *)
Definition resized (r : region) (size : Z) (fill : Z -> list Z) : region :=
  let n := size - VMBUF_HEADER in
  Region (r_addr r) (r_wloc r) (r_capacity r)
    (take (Z.to_nat n) (r_bytes r) ++ fill (n - Z.of_nat (length (r_bytes r)))).
Definition zeros (n : Z) : list Z := replicate (Z.to_nat n) 0.

Definition _mem_resize_ab (r : region) (old_size new_size : Z) : Z * vmem :=
  let new_size := mem_roundup new_size in
  if sys_mremap o old_size new_size then (new_size, MMap (resized r new_size zeros)) else (0, MFailed).

(** With [MEM_SYNC_ONLY] the file is not extended: its new bytes are those of another process. *)
Definition _mem_resize_sb (r : region) (old_size new_size fd flags : Z) : Z * vmem :=
  let new_size := mem_roundup new_size in
  if (Z.land flags MEM_SYNC_ONLY =? 0) && negb (sys_ftruncate o fd new_size) then (0, MMap r)
  else if sys_mremap o old_size new_size
  then (new_size, MMap (resized r new_size (if Z.land flags MEM_SYNC_ONLY =? 0 then zeros
                                            else fun n => stale (r_addr r) <$> seqZ (Z.of_nat (length (r_bytes r))) n)))
  else (0, MFailed).

Definition _mem_resize_sfb (r : region) : Z * vmem := (0, MMap r).

(** A new chunk, the copy of the smaller of both sizes, and the old chunk freed.  If there is no new
    chunk, [*new_mem] is the address behind the old header: the copy overlaps and runs past the
    end, and the chunk is freed all the same. *)
Definition _mem_resize_mp (w : world) (r : region) (old_size new_size : Z) : world * (Z * vmem) :=
  let (m, ma) := w in
  let '(m, (s, addr)) := memalloc_alloc_raw m ma new_size in
  let m' := memalloc_free_raw m (r_addr r) in
  if s =? 0 then ((m', ma), (0, MDangling))
  else
    let n := (if new_size >? old_size then old_size else new_size) - VMBUF_HEADER in
    let fresh := r_bytes (stale_region addr s) in
    ((m', ma), (s, MMap (Region addr (r_wloc r) (r_capacity r)
                           (take (Z.to_nat n) (r_bytes r) ++ drop (Z.to_nat n) fresh)))).

Definition mem_resize (f : vmbuf_mem_funcs) (w : world) (r : region) (old_size new_size fd flags : Z) : world * (Z * vmem) :=
  match f with
  | _mem_funcs_anon_buf => (w, _mem_resize_ab r old_size new_size)
  | _mem_funcs_shared_buf => (w, _mem_resize_sb r old_size new_size fd flags)
  | _mem_funcs_shared_fixed_buf => (w, _mem_resize_sfb r)
  | _mem_funcs_mem_pool => _mem_resize_mp w r old_size new_size
  end.

(** ** Creation and capacity ([src/vmbuf.c]) *)
Definition set_funcs (v : vmbuf) (f : vmbuf_mem_funcs) (fd : Z) : vmbuf :=
  Vmbuf (vb_mem v) (Some f) fd (vb_capacity v) (vb_rloc v).

Definition _vmbuf_init (initial_size : Z) : M Z := fun '(w, v) =>
  match vb_funcs v with
  | None => None
  | Some f =>
      let '(w, (size, mem)) := mem_alloc f w (u64 (initial_size + VMBUF_HEADER)) (vb_mem v) (vb_fd v) in
      if size =? 0 then Some (-1, (w, set_mem v mem))
      else match mem with
           | MMap r =>
               let cap := u64 (size - VMBUF_HEADER) in
               Some (0, (w, Vmbuf (MMap (Region (r_addr r) 0 cap (r_bytes r))) (Some f) (vb_fd v) cap 0))
           | _ => None
           end
  end.

Definition vmbuf_free : M Z := fun '(w, v) =>
  match vb_mem v, vb_funcs v with
  | MNull, _ => Some (0, (w, v))
  | MMap r, Some f => Some (0, (mem_free f w r, set_mem v MNull))
  | MFailed, Some f => Some (0, (w, set_mem v MNull))   (* munmap fails, which is only logged *)
  | _, _ => None
  end.

Definition vmbuf_reset : M unit := set_wloc 0;; v ← get; put (set_rloc v 0).

Definition vmbuf_init (initial_size : Z) : M Z :=
  v ← get;
  match vb_mem v with
  | MNull => put (set_funcs v _mem_funcs_anon_buf (vb_fd v));; _vmbuf_init initial_size
  | _ => vmbuf_reset;; mret 0
  end.

Definition vmbuf_init_tmp (initial_size : Z) : M Z :=
  vmbuf_free;; v ← get; put (set_funcs v _mem_funcs_mem_pool (vb_fd v));; _vmbuf_init initial_size.

Definition vmbuf_init_shared (initial_size : Z) : M Z :=
  vmbuf_free;; v ← get;
  let fd := sys_temp_file o in
  put (set_funcs v _mem_funcs_shared_buf fd);;
  if fd <? 0 then mret (-1) else _vmbuf_init initial_size.

Definition vmbuf_init_shared_fixed (max_size : Z) : M Z :=
  vmbuf_free;; v ← get; put (set_funcs v _mem_funcs_shared_fixed_buf (vb_fd v));; _vmbuf_init max_size.

Definition _vmbuf_change_capacity (new_capacity : Z) : M Z := fun '(w, v) =>
  match vb_mem v, vb_funcs v with
  | MMap r, Some f =>
      let '(w, (n, mem)) := mem_resize f w r (u64 (vb_capacity v + VMBUF_HEADER)) new_capacity (vb_fd v) 0 in
      if n =? 0 then Some (-1, (w, set_mem v mem))
      else match mem with
           | MMap r =>
               let cap := u64 (n - VMBUF_HEADER) in
               Some (0, (w, Vmbuf (MMap (Region (r_addr r) (r_wloc r) cap (r_bytes r))) (Some f) (vb_fd v) cap (vb_rloc v)))
           | _ => None
           end
  | _, _ => None
  end.

Definition vmbuf_add_capacity : M Z :=
  v ← get; _vmbuf_change_capacity (u64 (u64 (Z.shiftl (vb_capacity v) 1) + VMBUF_HEADER)).

Definition vmbuf_resize_to (size : Z) : M Z := _vmbuf_change_capacity (u64 (size + VMBUF_HEADER)).

Definition vmbuf_sync : M Z := fun '(w, v) =>
  match vb_mem v, vb_funcs v with
  | MMap r, Some f =>
      if negb (vb_capacity v =? r_capacity r) then
        let '(w, (n, mem)) := mem_resize f w r (u64 (vb_capacity v + VMBUF_HEADER)) (u64 (r_capacity r + VMBUF_HEADER)) (vb_fd v) MEM_SYNC_ONLY in
        if n =? 0 then Some (-1, (w, set_mem v mem))
        else match mem with
             | MMap r => Some (0, (w, Vmbuf (MMap r) (Some f) (vb_fd v) (r_capacity r) (vb_rloc v)))
             | _ => None
             end
      else Some (0, (w, v))
  | _, _ => None
  end.

(** ** Inline operations ([src/_vmbuf.c]) *)
Definition vmbuf_wreset : M unit := set_wloc 0.
Definition vmbuf_rreset : M unit := v ← get; put (set_rloc v 0).
Definition vmbuf_resetz : M unit := vmbuf_reset;; poke 0 [0].
Definition vmbuf_capacity : M Z := v ← get; mret (vb_capacity v).
Definition vmbuf_wavail : M Z := r ← vmbuf_get_header; v ← get; mret (u64 (vb_capacity v - r_wloc r)).
Definition vmbuf_ravail : M Z := r ← vmbuf_get_header; v ← get; mret (u64 (r_wloc r - vb_rloc v)).
Definition vmbuf_wlocpos : M Z := r ← vmbuf_get_header; mret (r_wloc r).
Definition vmbuf_rlocpos : M Z := v ← get; mret (vb_rloc v).
Definition vmbuf_size : M Z := vmbuf_wlocpos.
Definition vmbuf_num_elements (size_of_element : Z) : M Z := n ← vmbuf_size; mret (n / size_of_element).
Definition vmbuf_wlocset (ofs : Z) : M unit := set_wloc ofs.
Definition vmbuf_rlocset (ofs : Z) : M unit := v ← get; put (set_rloc v ofs).
Definition vmbuf_wrewind (by_ : Z) : M unit := w ← vmbuf_wlocpos; set_wloc (u64 (w - by_)).
Definition vmbuf_rrewind (by_ : Z) : M unit := v ← get; put (set_rloc v (u64 (vb_rloc v - by_))).
Definition vmbuf_rseek (by_ : Z) : M unit := v ← get; put (set_rloc v (u64 (vb_rloc v + by_))).

Definition vmbuf_wseek_no_resize (by_ : Z) : M unit := w ← vmbuf_wlocpos; set_wloc (u64 (w + by_)).

Definition vmbuf_resize_if_full : M Z :=
  r ← vmbuf_get_header; v ← get;
  if r_wloc r =? vb_capacity v then vmbuf_add_capacity else mret 0.

(** The capacity at least doubles in each round. *)
Definition RESIZE_ROUNDS : nat := 64.
Fixpoint resize_if_less_loop (fuel : nat) (desired_size : Z) : M Z :=
  match fuel with
  | O => crash
  | S f =>
      av ← vmbuf_wavail;
      if desired_size >? av then
        res ← vmbuf_add_capacity;
        if res <? 0 then mret (-1) else resize_if_less_loop f desired_size
      else mret 0
  end.
Definition vmbuf_resize_if_less (desired_size : Z) : M Z := resize_if_less_loop RESIZE_ROUNDS desired_size.

Definition vmbuf_resize_by (by_ : Z) : M Z := v ← get; vmbuf_resize_to (u64 (vb_capacity v + by_)).

Definition vmbuf_wseek (by_ : Z) : M Z := vmbuf_wseek_no_resize by_;; vmbuf_resize_if_full.

(** [vsnprintf] into the buffer; [text] as in [Memalloc.vsnprintf]. *)
Definition vb_snprintf (ofs wav : Z) (text : option (list Z)) : M Z :=
  match text with
  | None => mret (-1)
  | Some t =>
      if Z.of_nat (length t) >? INT_MAX then mret (-1)
      else if 0 <? wav then poke ofs (take (Z.to_nat (wav - 1)) t ++ [0]);; mret (Z.of_nat (length t))
      else mret (Z.of_nat (length t))
  end.

Fixpoint vsprintf_loop (fuel : nat) (text : option (list Z)) : M Z :=
  match fuel with
  | O => crash
  | S f =>
      wav ← vmbuf_wavail; w ← vmbuf_wlocpos;
      n ← vb_snprintf w wav text;
      if n <? 0 then mret (-1)
      else if n <? wav then vmbuf_wseek n;; mret 0
      else
        res ← vmbuf_add_capacity;
        if res <? 0 then mret (-1) else vsprintf_loop f text
  end.
Definition vmbuf_vsprintf (text : option (list Z)) : M Z := vsprintf_loop RESIZE_ROUNDS text.
Definition vmbuf_sprintf (text : option (list Z)) : M Z := vmbuf_vsprintf text.

(** [text] is what the format produces. *)
Fixpoint vmbuf_strftime (fuel : nat) (text : list Z) : M Z :=
  match fuel with
  | O => crash
  | S f =>
      wav ← vmbuf_wavail; w ← vmbuf_wlocpos;
      n ← (if Z.of_nat (length text) <? wav then poke w (text ++ [0]);; mret (Z.of_nat (length text)) else mret 0);
      if n >? 0 then vmbuf_wseek n;; mret 0
      else
        res ← vmbuf_resize_by 4096;
        if res <? 0 then mret (-1) else vmbuf_strftime f text
  end.

(** Each round copies up to the end of the buffer, and at least one byte of what is left. *)
Fixpoint strcpy_loop (fuel : nat) (src : list Z) : M Z :=
  match fuel with
  | O => crash
  | S f =>
      w ← vmbuf_wlocpos; av ← vmbuf_wavail;
      let part := take (Z.to_nat av) src in
      poke w part;;
      res ← vmbuf_wseek (Z.of_nat (length part));
      if res <? 0 then mret (-1)
      else match drop (Z.to_nat av) src with
           | [] => w ← vmbuf_wlocpos; poke w [0];; mret 0
           | rest => strcpy_loop f rest
           end
  end.
Definition vmbuf_strcpy (src : list Z) : M Z := strcpy_loop (S (length src)) src.

Definition vmbuf_replace_last_if (s d : Z) : M Z :=
  w ← vmbuf_wlocpos;
  if 0 <? w then
    b ← peek (w - 1);
    if s =? b then poke (w - 1) [d];; mret 0 else mret (-1)
  else mret (-1).

Definition vmbuf_remove_last_if (c : Z) : M unit :=
  res ← vmbuf_replace_last_if c 0;
  if res =? 0 then w ← vmbuf_wlocpos; set_wloc (u64 (w - 1)) else mret tt.

Definition vmbuf_chrcpy (c : Z) : M Z := w ← vmbuf_wlocpos; poke w [c];; vmbuf_wseek 1.

(** The result of [vmbuf_resize_if_less] is not used. *)
Definition vmbuf_memcpy (src : list Z) : M Z :=
  vmbuf_resize_if_less (Z.of_nat (length src));;
  w ← vmbuf_wlocpos; poke w src;; vmbuf_wseek (Z.of_nat (length src)).

Definition vmbuf_memset (c n : Z) : M unit :=
  cap ← vmbuf_capacity;
  (if cap <? n then vmbuf_resize_if_less n else mret 0);;
  poke 0 (replicate (Z.to_nat n) (u8 c)).

Definition vmbuf_alloc (n : Z) : M Z :=
  loc ← vmbuf_wlocpos;
  res ← vmbuf_resize_if_less n;
  if res <? 0 then mret (u64 (-1))
  else res ← vmbuf_wseek n; if res <? 0 then mret (u64 (-1)) else mret loc.

Definition vmbuf_alloczero (n : Z) : M Z :=
  loc ← vmbuf_alloc n; poke loc (replicate (Z.to_nat n) 0);; mret loc.

Definition vmbuf_alloc_aligned (n : Z) : M Z :=
  w ← vmbuf_wlocpos; set_wloc (Z.land (u64 (w + 7)) (u64 (Z.lnot 7)));; vmbuf_alloc n.

(** The offset from [vmbuf_mem] of the pointer. *)
Definition vmbuf_allocptr (n : Z) : M Z := vmbuf_alloc_aligned n.

Definition vmbuf_nul : M unit := w ← vmbuf_wlocpos; poke w [0].

(** ** Reading and writing a descriptor

    The input of a descriptor is the list of the pieces it delivers: one [read] returns at most one piece, and
    no more than asked for.  At the end of the list it returns [eof]: 0, or -1 with [EAGAIN] or another error. *)
Inductive read_end := Eof | Eagain | Eerror.

Fixpoint vmbuf_read (fuel : nat) (input : list (list Z)) (e : read_end) : M (Z * list (list Z)) :=
  match fuel with
  | O => crash
  | S f =>
      w ← vmbuf_wlocpos; wavail ← vmbuf_wavail;
      match input with
      | [] => mret (match e with Eof => 0 | Eagain => 1 | Eerror => -1 end, [])
      | piece :: rest =>
          let data := take (Z.to_nat wavail) piece in
          let input := match drop (Z.to_nat wavail) piece with [] => rest | p => p :: rest end in
          if Z.of_nat (length data) =? 0 then mret (0, input)
          else
            poke w data;;
            res ← vmbuf_wseek (Z.of_nat (length data));
            if res <? 0 then mret (-1, input)
            else if Z.of_nat (length data) <? wavail then mret (1, input)
            else vmbuf_read f input e
      end
  end.

(** A descriptor accepts the given numbers of bytes, one per [write], and then no more ([EAGAIN]);
    a negative number is [EAGAIN] (-1) or an error.  Returns the result and the bytes written. *)
Fixpoint vmbuf_write (accepts : list Z) : M (Z * list Z) :=
  rav ← vmbuf_ravail;
  if rav >? 0 then
    match accepts with
    | [] => mret (0, [])
    | a :: accepts =>
        if a =? -1 then mret (0, [])
        else if a <? 0 then mret (-1, [])
        else
          r ← vmbuf_get_header; v ← get;
          let out := take (Z.to_nat (Z.min a rav)) (drop (Z.to_nat (vb_rloc v)) (r_bytes r)) in
          if Z.min a rav >? 0 then
            vmbuf_rseek (Z.min a rav);;
            '(res, written) ← vmbuf_write accepts; mret (res, out ++ written)
          else mret (-1, [])
    end
  else mret (1, []).
End Ops.

Definition vmbuf_swap (v1 v2 : vmbuf) : vmbuf * vmbuf := (v2, v1).
