(* ===== verification/VmbufFacts.v ===== *)
(** * VmbufFacts: a vmbuf is a growing list of bytes

    Buffers whose memory can grow implement appending, reading and writing of a byte list;
    the memory functions enter only through what [Growable] says of them. *)

From stdpp Require Import base numbers list gmap.
From Stdlib Require Import ZArith Lia.
From S2P Require Import Prelude Words Os Mempool Memalloc Vmbuf.

Lemma mem_roundup_bounds x : 0 <= x < 2 ^ 63 -> x <= mem_roundup x < x + 4096 /\ mem_roundup x mod 4096 = 0.
Proof.
  intros Hx. unfold mem_roundup. rewrite u64_small by lia.
  assert (u64 (Z.lnot 4095) = Z.land (Z.lnot (2 ^ 12 - 1)) (Z.ones 64)) as -> by reflexivity.
  rewrite Z.land_assoc. change 4095 with (2 ^ 12 - 1).
  pose proof (round_up_mask_bounds x 12 ltac:(lia) ltac:(lia)) as [Hb Hm]. cbv zeta in *. change (2 ^ 12) with 4096 in *.
  rewrite Z.land_ones, Z.mod_small by lia. auto.
Qed.

Lemma mod_4096_8 x : x mod 4096 = 0 -> x mod 8 = 0.
Proof. intros Hx. rewrite (Z.div_mod x 4096), Hx by lia. replace (4096 * (x / 4096) + 0) with (x / 4096 * 512 * 8) by lia. apply Z.mod_mul. lia. Qed.

(** ** What the buffer needs of its memory functions *)
Section Growable.
Context `{address_space} (o : os) (stale : Z -> Z -> Z).

(** A resize to at most [limit] bytes succeeds, keeps the header and the bytes, and gives a
    little more than asked for; [I] is an invariant of the allocator state. *)
Class Growable (f : vmbuf_mem_funcs) (I : world -> Prop) (limit : Z) : Prop :=
  grow : forall w r old new fd, I w -> VMBUF_HEADER + Z.of_nat (length (r_bytes r)) <= new <= limit ->
    exists w' n r', mem_resize o stale f w r old new fd 0 = (w', (n, MMap r')) /\ I w' /\ new <= n < new + 4096 /\ n mod 8 = 0
      /\ r_wloc r' = r_wloc r /\ Z.of_nat (length (r_bytes r')) = n - VMBUF_HEADER
      /\ take (length (r_bytes r)) (r_bytes r') = r_bytes r.

Lemma resized_grown r n : Z.of_nat (length (r_bytes r)) <= n - VMBUF_HEADER ->
  Z.of_nat (length (r_bytes (resized r n zeros))) = n - VMBUF_HEADER
  /\ take (length (r_bytes r)) (r_bytes (resized r n zeros)) = r_bytes r.
Proof.
  intros Hn. unfold resized, zeros. cbn [r_bytes]. rewrite length_app, length_replicate, (take_ge (r_bytes r)) by lia.
  split; [lia|apply take_app_length].
Qed.

#[export] Instance anon_growable limit : limit <= 2 ^ 60 -> can_grow_to o (limit + 4096) ->
  Growable _mem_funcs_anon_buf (fun _ => True) limit.
Proof.
  intros Hl Hg w r old new fd _ Hn. unfold VMBUF_HEADER in Hn. destruct (mem_roundup_bounds new ltac:(lia)) as [Hb Hm%mod_4096_8].
  cbn [mem_resize]. unfold _mem_resize_ab. rewrite Hg by lia. eexists _, _, _. split; [done|]. split; [done|]. split; [lia|].
  split; [done|]. split; [done|]. apply resized_grown. unfold VMBUF_HEADER. lia.
Qed.

#[export] Instance shared_growable limit : limit <= 2 ^ 60 -> can_grow_to o (limit + 4096) -> can_truncate_to o (limit + 4096) ->
  Growable _mem_funcs_shared_buf (fun _ => True) limit.
Proof.
  intros Hl Hg Ht w r old new fd _ Hn. unfold VMBUF_HEADER in Hn. destruct (mem_roundup_bounds new ltac:(lia)) as [Hb Hm%mod_4096_8].
  cbn [mem_resize]. unfold _mem_resize_sb. rewrite Ht, Hg by lia. cbn. eexists _, _, _. split; [done|]. split; [done|]. split; [lia|].
  split; [done|]. split; [done|]. apply resized_grown. unfold VMBUF_HEADER. lia.
Qed.

(** ** The state of a buffer

    Position [wl], capacity [cap], and [p] the bytes known at the start of the data. *)
Record vb_is (f : vmbuf_mem_funcs) (I : world -> Prop) (wl : Z) (p : list Z) (rl cap : Z) (s : world * vmbuf) : Prop := {
  vi_world : I (fst s);
  vi_funcs : vb_funcs (snd s) = Some f;
  vi_rloc : vb_rloc (snd s) = rl;
  vi_cap : vb_capacity (snd s) = cap;
  vi_region : exists r, vb_mem (snd s) = MMap r /\ r_wloc r = wl /\ r_capacity r = cap
    /\ Z.of_nat (length (r_bytes r)) = cap /\ take (length p) (r_bytes r) = p;
  vi_bounds : 0 < cap < 2 ^ 61 /\ cap mod 8 = 0;
}.

Lemma bind_get {B} (k : vmbuf -> M B) s : (get ≫= k) s = k (snd s) s.
Proof. done. Qed.

Lemma vb_header f I wl p rl cap s : vb_is f I wl p rl cap s ->
  exists r, vmbuf_get_header s = Some (r, s) /\ vb_mem (snd s) = MMap r /\ r_wloc r = wl /\ r_capacity r = cap
    /\ Z.of_nat (length (r_bytes r)) = cap /\ take (length p) (r_bytes r) = p.
Proof.
  intros [_ _ _ _ (r & Hm & Hr) _]. exists r. split; [|done].
  unfold vmbuf_get_header, get, mbind, ST_bind. rewrite Hm. done.
Qed.

Lemma wlocpos_eval f I wl p rl cap s : vb_is f I wl p rl cap s -> vmbuf_wlocpos s = Some (wl, s).
Proof.
  intros Hs. destruct (vb_header _ _ _ _ _ _ _ Hs) as (r & E & _ & Hw & _). unfold vmbuf_wlocpos.
  rewrite (bind_eval _ _ _ _ _ E), Hw. done.
Qed.

Lemma wavail_eval f I wl p rl cap s : vb_is f I wl p rl cap s -> 0 <= wl <= cap -> vmbuf_wavail s = Some (cap - wl, s).
Proof.
  intros Hs Hwl. destruct (vb_header _ _ _ _ _ _ _ Hs) as (r & E & _ & Hw & _). unfold vmbuf_wavail.
  rewrite (bind_eval _ _ _ _ _ E), bind_get, (vi_cap _ _ _ _ _ _ _ Hs), Hw. pose proof (vi_bounds _ _ _ _ _ _ _ Hs).
  rewrite u64_small by lia. done.
Qed.

Lemma set_wloc_eval f I wl p rl cap s n : vb_is f I wl p rl cap s ->
  exists s', set_wloc n s = Some (tt, s') /\ vb_is f I n p rl cap s' /\ fst s' = fst s.
Proof.
  intros Hs. destruct (vb_header _ _ _ _ _ _ _ Hs) as (r & E & Hm & _ & Hc & Hl & Ht). unfold set_wloc.
  rewrite (bind_eval _ _ _ _ _ E). eexists. split; [reflexivity|]. destruct Hs as [? ? ? ? _ ?]. split; [|done].
  split; cbn; auto. eexists. split; [done|]. done.
Qed.

(** Writing [l] behind the known bytes extends them. *)
Lemma poke_eval f I wl p rl cap s l : vb_is f I wl p rl cap s -> Z.of_nat (length p) + Z.of_nat (length l) <= cap ->
  exists s', poke (Z.of_nat (length p)) l s = Some (tt, s') /\ vb_is f I wl (p ++ l) rl cap s' /\ fst s' = fst s.
Proof.
  intros Hs Hfit. destruct (vb_header _ _ _ _ _ _ _ Hs) as (r & E & Hm & Hw & Hc & Hl & Ht). unfold poke.
  rewrite (bind_eval _ _ _ _ _ E), Hl, (proj2 (Z.leb_le 0 _)), (proj2 (Z.leb_le _ _)) by lia. cbn [andb].
  eexists. split; [reflexivity|]. destruct Hs as [? ? ? ? _ ?]. split; [|done]. split; cbn; auto. eexists. split; [done|].
  cbn [r_wloc r_capacity r_bytes]. split; [done|]. split; [done|]. rewrite Nat2Z.id, Ht. split.
  - rewrite !length_app, length_drop. lia.
  - rewrite app_assoc, take_app_length. done.
Qed.

(** Rewriting known bytes. *)
Lemma poke_inside f I wl p q x l rl cap s : vb_is f I wl (p ++ x ++ q) rl cap s -> length l = length x ->
  exists s', poke (Z.of_nat (length p)) l s = Some (tt, s') /\ vb_is f I wl (p ++ l ++ q) rl cap s' /\ fst s' = fst s.
Proof.
  intros Hs Hlen. destruct (vb_header _ _ _ _ _ _ _ Hs) as (r & E & Hm & Hw & Hc & Hl & Ht). unfold poke.
  assert (Hle : (length (p ++ x ++ q) <= length (r_bytes r))%nat).
  { rewrite <- Ht at 1. rewrite length_take. lia. }
  rewrite !length_app in Hle. rewrite (bind_eval _ _ _ _ _ E), (proj2 (Z.leb_le 0 _)), (proj2 (Z.leb_le _ _)) by lia. cbn [andb].
  eexists. split; [reflexivity|]. destruct Hs as [? ? ? ? _ ?]. split; [|done]. split; cbn; auto. eexists. split; [done|].
  cbn [r_wloc r_capacity r_bytes]. split; [done|]. split; [done|]. rewrite Nat2Z.id.
  rewrite <- (take_drop (length (p ++ x ++ q)) (r_bytes r)), Ht. set (tl := drop _ (r_bytes r)).
  assert (length tl = length (r_bytes r) - length (p ++ x ++ q))%nat as Htl by (subst tl; by rewrite length_drop).
  rewrite <- (app_assoc p), take_app_length, <- app_assoc.
  replace (drop (length p + length l) (p ++ x ++ q ++ tl)) with (q ++ tl).
  2:{ rewrite Hlen, app_assoc, <- length_app. by rewrite drop_app_length. }
  split; [rewrite !length_app in *; lia|]. rewrite !app_assoc. rewrite take_app_le by (rewrite !length_app; lia).
  apply take_ge. rewrite !length_app. lia.
Qed.

(** ** Growing *)
Context (f : vmbuf_mem_funcs) (I : world -> Prop) (limit : Z) `{!Growable f I limit}.
Hypothesis Hlimit : limit <= 2 ^ 60.

Lemma prefix_mono (p bs bs' : list Z) : take (length bs) bs' = bs -> take (length p) bs = p -> take (length p) bs' = p.
Proof.
  intros Hb Hp. assert (length p <= length bs)%nat by (apply (f_equal length) in Hp; rewrite length_take in Hp; lia).
  rewrite <- Hb, take_take, Nat.min_l in Hp by lia. done.
Qed.

Lemma change_capacity_eval wl p rl cap s size : vb_is f I wl p rl cap s -> cap <= size -> size + VMBUF_HEADER <= limit ->
  exists s' cap', _vmbuf_change_capacity o stale (size + VMBUF_HEADER) s = Some (0, s') /\ vb_is f I wl p rl cap' s' /\ size <= cap' < size + 4096.
Proof.
  intros [Hi Hf Hrl Hcap (r & Hm & Hw & Hrc & Hl & Ht) Hb] Hsz Hlim. unfold VMBUF_HEADER in *. unfold _vmbuf_change_capacity. destruct s as [w v]. cbn [fst snd] in *.
  rewrite Hm, Hf, Hcap.
  destruct (grow w r (u64 (cap + VMBUF_HEADER)) (size + VMBUF_HEADER) (vb_fd v) Hi) as (w' & n & r' & Eg & Hi' & Hn & Hn8 & Hw' & Hl' & Ht'); [unfold VMBUF_HEADER; lia|].
  unfold VMBUF_HEADER in *. rewrite Eg, (proj2 (Z.eqb_neq n 0)), u64_small by lia.
  eexists _, (n - 16). split; [done|]. split; [|lia]. split; cbn; auto; [|split; [lia|rewrite Zminus_mod, Hn8; done]]. eexists. split; [done|]. cbn.
  split; [congruence|]. split; [done|]. split; [done|]. by eapply prefix_mono.
Qed.

Lemma add_capacity_eval wl p rl cap s : vb_is f I wl p rl cap s -> 2 * cap + VMBUF_HEADER <= limit ->
  exists s' cap', vmbuf_add_capacity o stale s = Some (0, s') /\ vb_is f I wl p rl cap' s' /\ 2 * cap <= cap' < 2 * cap + 4096.
Proof.
  intros Hs Hlim. pose proof (vi_bounds _ _ _ _ _ _ _ Hs). unfold vmbuf_add_capacity. rewrite bind_get, (vi_cap _ _ _ _ _ _ _ Hs).
  unfold VMBUF_HEADER in *. rewrite Z.shiftl_mul_pow2, (u64_small (cap * 2 ^ 1)), u64_small by lia. replace (cap * 2 ^ 1) with (2 * cap) by lia.
  apply (change_capacity_eval wl p rl cap s (2 * cap) Hs); unfold VMBUF_HEADER; lia.
Qed.

Lemma resize_by_eval wl p rl cap s n : vb_is f I wl p rl cap s -> 0 <= n -> cap + n + VMBUF_HEADER <= limit ->
  exists s' cap', vmbuf_resize_by o stale n s = Some (0, s') /\ vb_is f I wl p rl cap' s' /\ cap + n <= cap' < cap + n + 4096.
Proof.
  intros Hs Hn Hlim. pose proof (vi_bounds _ _ _ _ _ _ _ Hs). unfold vmbuf_resize_by, vmbuf_resize_to. rewrite bind_get, (vi_cap _ _ _ _ _ _ _ Hs).
  unfold VMBUF_HEADER in *. rewrite (u64_small (cap + n)), u64_small by lia. apply (change_capacity_eval wl p rl cap s (cap + n) Hs); unfold VMBUF_HEADER; lia.
Qed.

(** The state the operations keep: the contents are [c] and the buffer is not full. *)
Definition vbuf (c : list Z) (rl : Z) (s : world * vmbuf) : Prop :=
  exists cap, vb_is f I (Z.of_nat (length c)) c rl cap s /\ Z.of_nat (length c) < cap.

Lemma wseek_eval wl p rl cap s n : vb_is f I wl p rl cap s -> 0 <= wl -> 0 <= n -> wl + n <= cap -> 2 * (wl + n) + VMBUF_HEADER <= limit ->
  exists s' cap', vmbuf_wseek o stale n s = Some (0, s') /\ vb_is f I (wl + n) p rl cap' s' /\ wl + n < cap' /\ cap <= cap'.
Proof.
  intros Hs Hwl Hn Hle Hlim. pose proof (vi_bounds _ _ _ _ _ _ _ Hs). unfold vmbuf_wseek, vmbuf_wseek_no_resize.
  destruct (set_wloc_eval f I wl p rl cap s (wl + n) Hs) as (s1 & E1 & Hs1 & _).
  assert ((w ← vmbuf_wlocpos; set_wloc (u64 (w + n))) s = Some (tt, s1)) as E.
  { rewrite (bind_eval _ _ _ _ _ (wlocpos_eval _ _ _ _ _ _ _ Hs)), u64_small by lia. done. }
  rewrite (bind_eval _ _ _ _ _ E). unfold vmbuf_resize_if_full.
  destruct (vb_header _ _ _ _ _ _ _ Hs1) as (r & Er & _ & Hw & _). rewrite (bind_eval _ _ _ _ _ Er), bind_get.
  rewrite (vi_cap _ _ _ _ _ _ _ Hs1), Hw. destruct (Z.eqb_spec (wl + n) cap) as [Hfull|Hne].
  - destruct (add_capacity_eval _ _ _ _ _ Hs1 ltac:(lia)) as (s2 & cap2 & E2 & Hs2 & Hc2).
    exists s2, cap2. split; [done|]. split; [done|]. lia.
  - exists s1, cap. split; [done|]. split; [done|]. lia.
Qed.

(** Writing at the end and moving past it. *)
Lemma append_eval c rl cap s l : vb_is f I (Z.of_nat (length c)) c rl cap s -> Z.of_nat (length (c ++ l)) <= cap ->
  2 * Z.of_nat (length (c ++ l)) + VMBUF_HEADER <= limit ->
  exists s', (w ← vmbuf_wlocpos; poke w l;; vmbuf_wseek o stale (Z.of_nat (length l))) s = Some (0, s') /\ vbuf (c ++ l) rl s'.
Proof.
  intros Hs Hle Hlim. rewrite (bind_eval _ _ _ _ _ (wlocpos_eval _ _ _ _ _ _ _ Hs)).
  rewrite length_app, Nat2Z.inj_add in *.
  destruct (poke_eval f I _ c rl cap s l Hs Hle) as (s1 & E1 & Hs1 & _). rewrite (bind_eval _ _ _ _ _ E1).
  destruct (wseek_eval _ _ _ _ _ (Z.of_nat (length l)) Hs1 ltac:(lia) ltac:(lia) Hle Hlim) as (s2 & cap2 & E2 & Hs2 & Hc2 & _).
  exists s2. split; [done|]. exists cap2. rewrite length_app, Nat2Z.inj_add. done.
Qed.

Lemma resize_if_less_eval wl p rl n fuel : forall cap s, vb_is f I wl p rl cap s -> 0 <= wl <= cap -> 0 <= n ->
  2 * (wl + n) + VMBUF_HEADER <= limit -> wl + n <= cap * 2 ^ Z.of_nat fuel ->
  exists s' cap', resize_if_less_loop o stale (S fuel) n s = Some (0, s') /\ vb_is f I wl p rl cap' s' /\ wl + n <= cap' /\ cap <= cap'.
Proof.
  induction fuel as [|k IH]; intros cap s Hs Hwl Hn Hlim Hpow; pose proof (vi_bounds _ _ _ _ _ _ _ Hs).
  - cbn [resize_if_less_loop]. rewrite (bind_eval _ _ _ _ _ (wavail_eval _ _ _ _ _ _ _ Hs ltac:(lia))), Z.gtb_ltb.
    rewrite (proj2 (Z.ltb_ge _ _)) by (change (2 ^ Z.of_nat 0) with 1 in Hpow; lia). exists s, cap. split; [done|]. split; [done|].
    change (2 ^ Z.of_nat 0) with 1 in Hpow. lia.
  - cbn [resize_if_less_loop]. rewrite (bind_eval _ _ _ _ _ (wavail_eval _ _ _ _ _ _ _ Hs ltac:(lia))), Z.gtb_ltb.
    destruct (Z.ltb_spec (cap - wl) n); [|exists s, cap; split; [done|]; split; [done|lia]].
    destruct (add_capacity_eval _ _ _ _ _ Hs ltac:(lia)) as (s1 & cap1 & E1 & Hs1 & Hc1). rewrite (bind_eval _ _ _ _ _ E1).
    cbn [Z.ltb Z.compare]. destruct (IH cap1 s1 Hs1) as (s2 & cap2 & E2 & Hs2 & Hc2); [lia|lia|lia| |exists s2, cap2; split; [exact E2|]; split; [done|lia]].
    rewrite Nat2Z.inj_succ, Z.pow_succ_r in Hpow by lia. assert (0 < 2 ^ Z.of_nat k) by (apply Z.pow_pos_nonneg; lia). nia.
Qed.

Lemma resize_rounds_enough wl n cap : 0 < cap -> 2 * (wl + n) + VMBUF_HEADER <= limit -> wl + n <= cap * 2 ^ Z.of_nat 63.
Proof. intros. unfold VMBUF_HEADER in *. change (2 ^ Z.of_nat 63) with (2 ^ 63). nia. Qed.

(** ** Appending operations *)
Lemma memcpy_eval c rl s l : vbuf c rl s -> 2 * Z.of_nat (length (c ++ l)) + VMBUF_HEADER <= limit ->
  exists s', vmbuf_memcpy o stale l s = Some (0, s') /\ vbuf (c ++ l) rl s'.
Proof.
  intros (cap & Hs & Hc) Hlim. pose proof (vi_bounds _ _ _ _ _ _ _ Hs). unfold vmbuf_memcpy.
  pose proof Hlim as Hlim'. rewrite length_app, Nat2Z.inj_add in Hlim'.
  destruct (resize_if_less_eval _ c rl (Z.of_nat (length l)) 63 cap s Hs ltac:(lia) ltac:(lia) Hlim') as (s1 & cap1 & E1 & Hs1 & Hc1 & _);
    [apply resize_rounds_enough; [lia|done]|]. unfold vmbuf_resize_if_less, RESIZE_ROUNDS. rewrite (bind_eval _ _ _ _ _ E1).
  apply (append_eval c rl cap1); [done| |done]. rewrite length_app. lia.
Qed.

Lemma chrcpy_eval c rl s b : vbuf c rl s -> 2 * Z.of_nat (length (c ++ [b])) + VMBUF_HEADER <= limit ->
  exists s', vmbuf_chrcpy o stale b s = Some (0, s') /\ vbuf (c ++ [b]) rl s'.
Proof. intros (cap & Hs & Hc) Hlim. apply (append_eval c rl cap s [b]); [done| |done]. rewrite length_app. cbn. lia. Qed.

Lemma strcpy_loop_eval src fuel : forall c rl s, (length src < fuel)%nat -> vbuf c rl s ->
  2 * Z.of_nat (length (c ++ src)) + VMBUF_HEADER <= limit ->
  exists s', strcpy_loop o stale fuel src s = Some (0, s') /\ vbuf (c ++ src) rl s'.
Proof.
  revert src. induction fuel as [|k IH]; intros src c rl s Hf Hv Hlim; [lia|]. destruct Hv as (cap & Hs & Hc).
  cbn [strcpy_loop]. rewrite (bind_eval _ _ _ _ _ (wlocpos_eval _ _ _ _ _ _ _ Hs)).
  rewrite (bind_eval _ _ _ _ _ (wavail_eval _ _ _ _ _ _ _ Hs ltac:(lia))). cbv zeta.
  set (av := Z.to_nat (cap - Z.of_nat (length c))). rewrite length_app, Nat2Z.inj_add in Hlim.
  assert (Hpart : Z.of_nat (length c) + Z.of_nat (length (take av src)) <= cap) by (rewrite length_take; lia).
  destruct (poke_eval f I _ c rl cap s (take av src) Hs Hpart) as (s1 & E1 & Hs1 & _). rewrite (bind_eval _ _ _ _ _ E1).
  destruct (wseek_eval _ _ _ _ _ (Z.of_nat (length (take av src))) Hs1 ltac:(lia) ltac:(lia) Hpart) as (s2 & cap2 & E2 & Hs2 & Hc2 & _);
    [rewrite length_take; lia|]. rewrite (bind_eval _ _ _ _ _ E2). cbn [Z.ltb Z.compare].
  assert (Hs2' : vb_is f I (Z.of_nat (length (c ++ take av src))) (c ++ take av src) rl cap2 s2).
  { rewrite length_app, Nat2Z.inj_add. done. }
  destruct (drop av src) as [|b rest] eqn:Hd.
  - rewrite (bind_eval _ _ _ _ _ (wlocpos_eval _ _ _ _ _ _ _ Hs2')).
    assert (Hall : take av src = src) by (rewrite <- (take_drop av src) at 2; by rewrite Hd, app_nil_r). rewrite Hall in *.
    destruct (poke_eval f I _ _ rl cap2 s2 [0] Hs2') as (s3 & E3 & Hs3 & _); [rewrite length_app; cbn; lia|].
    rewrite (bind_eval _ _ _ _ _ E3). exists s3. split; [done|]. exists cap2.
    split; [|rewrite length_app; lia]. destruct Hs3 as [? ? ? ? (r & ? & ? & ? & ? & Ht) ?]. split; auto. exists r.
    do 4 (split; [done|]). eapply (prefix_mono _ ((c ++ src) ++ [0])); [exact Ht|apply take_app_length].
  - assert (Hlen : (length (take av src) + length (b :: rest) = length src)%nat).
    { rewrite <- Hd, <- length_app, take_drop. done. }
    assert (Hav : (0 < length (take av src))%nat) by (rewrite length_take; cbn in Hlen; lia).
    destruct (IH (b :: rest) (c ++ take av src) rl s2) as (s3 & E3 & Hs3);
      [lia|exists cap2; split; [done|rewrite length_app; lia]|rewrite !length_app; lia|].
    exists s3. split; [exact E3|]. by rewrite <- app_assoc, <- Hd, take_drop in Hs3.
Qed.

Lemma strcpy_eval c rl s src : vbuf c rl s -> 2 * Z.of_nat (length (c ++ src)) + VMBUF_HEADER <= limit ->
  exists s', vmbuf_strcpy o stale src s = Some (0, s') /\ vbuf (c ++ src) rl s'.
Proof. intros. apply strcpy_loop_eval; [lia|done|done]. Qed.

Lemma vb_is_prefix wl p q rl cap s : vb_is f I wl (p ++ q) rl cap s -> vb_is f I wl p rl cap s.
Proof.
  intros [? ? ? ? (r & ? & ? & ? & ? & Ht) ?]. split; auto. exists r. do 4 (split; [done|]).
  eapply (prefix_mono _ (p ++ q)); [exact Ht|apply take_app_length].
Qed.

(** The round in which the text fits, and the one in which it does not. *)
Lemma vsprintf_fits c rl t cap s fuel : Z.of_nat (length t) <= INT_MAX ->
  vb_is f I (Z.of_nat (length c)) c rl cap s -> Z.of_nat (length c) + Z.of_nat (length t) < cap ->
  2 * (Z.of_nat (length c) + Z.of_nat (length t)) + VMBUF_HEADER <= limit ->
  exists s', vsprintf_loop o stale (S fuel) (Some t) s = Some (0, s') /\ vbuf (c ++ t) rl s'.
Proof.
  intros Ht Hs Hlt Hlim. cbn [vsprintf_loop].
  rewrite (bind_eval _ _ _ _ _ (wavail_eval _ _ _ _ _ _ _ Hs ltac:(lia))), (bind_eval _ _ _ _ _ (wlocpos_eval _ _ _ _ _ _ _ Hs)).
  destruct (poke_eval f I _ c rl cap s (t ++ [0]) Hs) as (s1 & E1 & Hs1 & _); [rewrite length_app; cbn; lia|].
  assert (E : vb_snprintf (Z.of_nat (length c)) (cap - Z.of_nat (length c)) (Some t) s = Some (Z.of_nat (length t), s1)).
  { unfold vb_snprintf. rewrite Z.gtb_ltb, (proj2 (Z.ltb_ge _ _)), (proj2 (Z.ltb_lt 0 _)), take_ge by lia. by rewrite (bind_eval _ _ _ _ _ E1). }
  rewrite (bind_eval _ _ _ _ _ E), (proj2 (Z.ltb_ge _ 0)), (proj2 (Z.ltb_lt _ _)) by lia. rewrite app_assoc in Hs1. apply vb_is_prefix in Hs1.
  destruct (wseek_eval _ _ _ _ _ (Z.of_nat (length t)) Hs1 ltac:(lia) ltac:(lia) ltac:(lia) ltac:(lia)) as (s2 & cap2 & E2 & Hs2 & Hc2 & _).
  rewrite (bind_eval _ _ _ _ _ E2). exists s2. split; [done|]. exists cap2. by rewrite length_app, Nat2Z.inj_add.
Qed.

Lemma vsprintf_retry c rl t cap s fuel : Z.of_nat (length t) <= INT_MAX ->
  vb_is f I (Z.of_nat (length c)) c rl cap s -> Z.of_nat (length c) < cap <= Z.of_nat (length c) + Z.of_nat (length t) ->
  2 * cap + VMBUF_HEADER <= limit ->
  exists s' cap', vsprintf_loop o stale (S fuel) (Some t) s = vsprintf_loop o stale fuel (Some t) s'
    /\ vb_is f I (Z.of_nat (length c)) c rl cap' s' /\ 2 * cap <= cap'.
Proof.
  intros Ht Hs Hge Hlim. cbn [vsprintf_loop].
  rewrite (bind_eval _ _ _ _ _ (wavail_eval _ _ _ _ _ _ _ Hs ltac:(lia))), (bind_eval _ _ _ _ _ (wlocpos_eval _ _ _ _ _ _ _ Hs)).
  set (l := take (Z.to_nat (cap - Z.of_nat (length c) - 1)) t ++ [0]).
  destruct (poke_eval f I _ c rl cap s l Hs) as (s1 & E1 & Hs1 & _); [subst l; rewrite length_app, length_take; cbn; lia|].
  assert (E : vb_snprintf (Z.of_nat (length c)) (cap - Z.of_nat (length c)) (Some t) s = Some (Z.of_nat (length t), s1)).
  { unfold vb_snprintf. rewrite Z.gtb_ltb, (proj2 (Z.ltb_ge _ _)), (proj2 (Z.ltb_lt 0 _)) by lia. by rewrite (bind_eval _ _ _ _ _ E1). }
  rewrite (bind_eval _ _ _ _ _ E), (proj2 (Z.ltb_ge _ 0)), (proj2 (Z.ltb_ge _ _)) by lia. apply vb_is_prefix in Hs1.
  destruct (add_capacity_eval _ _ _ _ _ Hs1 Hlim) as (s2 & cap2 & E2 & Hs2 & Hc2). rewrite (bind_eval _ _ _ _ _ E2).
  exists s2, cap2. split; [done|]. split; [done|lia].
Qed.

Lemma vsprintf_loop_eval c rl t fuel : Z.of_nat (length t) <= INT_MAX -> forall cap s,
  vb_is f I (Z.of_nat (length c)) c rl cap s -> Z.of_nat (length c) < cap ->
  2 * (Z.of_nat (length c) + Z.of_nat (length t)) + VMBUF_HEADER <= limit ->
  Z.of_nat (length c) + Z.of_nat (length t) < cap * 2 ^ Z.of_nat fuel ->
  exists s', vsprintf_loop o stale (S fuel) (Some t) s = Some (0, s') /\ vbuf (c ++ t) rl s'.
Proof.
  intros Ht. induction fuel as [|k IH]; intros cap s Hs Hc Hlim Hpow;
    (destruct (Z.lt_ge_cases (Z.of_nat (length c) + Z.of_nat (length t)) cap); [by eapply vsprintf_fits|]).
  - change (2 ^ Z.of_nat 0) with 1 in Hpow. lia.
  - destruct (vsprintf_retry c rl t cap s (S k) Ht Hs ltac:(lia) ltac:(lia)) as (s1 & cap1 & -> & Hs1 & Hc1).
    apply (IH cap1); [done|lia|lia|].
    rewrite Nat2Z.inj_succ, Z.pow_succ_r in Hpow by lia. assert (0 < 2 ^ Z.of_nat k) by (apply Z.pow_pos_nonneg; lia). nia.
Qed.

Lemma sprintf_eval c rl s t : vbuf c rl s -> Z.of_nat (length t) <= INT_MAX -> 2 * Z.of_nat (length (c ++ t)) + VMBUF_HEADER <= limit ->
  exists s', vmbuf_sprintf o stale (Some t) s = Some (0, s') /\ vbuf (c ++ t) rl s'.
Proof.
  intros (cap & Hs & Hc) Ht Hlim. pose proof (vi_bounds _ _ _ _ _ _ _ Hs). rewrite length_app, Nat2Z.inj_add in Hlim.
  apply (vsprintf_loop_eval c rl t 63 Ht cap); [done|done|done|]. unfold VMBUF_HEADER in *. change (2 ^ Z.of_nat 63) with (2 ^ 63). nia.
Qed.

(** ** Removing the last byte *)
(** A time is short; it needs at most one more page. *)
Lemma strftime_fits c rl t cap s fuel : vb_is f I (Z.of_nat (length c)) c rl cap s -> t <> [] -> Z.of_nat (length c) + Z.of_nat (length t) < cap ->
  2 * Z.of_nat (length (c ++ t)) + VMBUF_HEADER <= limit ->
  exists s', vmbuf_strftime o stale (S fuel) t s = Some (0, s') /\ vbuf (c ++ t) rl s'.
Proof.
  intros Hs Ht Hlt Hlim. rewrite length_app, Nat2Z.inj_add in Hlim. cbn [vmbuf_strftime].
  rewrite (bind_eval _ _ _ _ _ (wavail_eval _ _ _ _ _ _ _ Hs ltac:(lia))), (bind_eval _ _ _ _ _ (wlocpos_eval _ _ _ _ _ _ _ Hs)).
  rewrite (proj2 (Z.ltb_lt _ _)) by lia. destruct (poke_eval f I _ c rl cap s (t ++ [0]) Hs) as (s1 & E1 & Hs1 & _); [rewrite length_app; cbn; lia|].
  rewrite (bind_eval _ _ s (Z.of_nat (length t)) s1) by (by rewrite (bind_eval _ _ _ _ _ E1)). rewrite Z.gtb_ltb, (proj2 (Z.ltb_lt 0 _)) by (destruct t; [done|cbn; lia]).
  rewrite app_assoc in Hs1. apply vb_is_prefix in Hs1.
  destruct (wseek_eval _ _ _ _ _ (Z.of_nat (length t)) Hs1 ltac:(lia) ltac:(lia) ltac:(lia) ltac:(lia)) as (s2 & cap2 & E2 & Hs2 & Hc2 & _).
  rewrite (bind_eval _ _ _ _ _ E2). exists s2. split; [done|]. exists cap2. by rewrite length_app, Nat2Z.inj_add.
Qed.

Lemma strftime_eval c rl s t : vbuf c rl s -> t <> [] -> Z.of_nat (length t) < 4096 -> 2 * (Z.of_nat (length (c ++ t)) + 4096) + VMBUF_HEADER <= limit ->
  exists s', vmbuf_strftime o stale 2 t s = Some (0, s') /\ vbuf (c ++ t) rl s'.
Proof.
  intros (cap & Hs & Hc) Ht Hlen Hlim. rewrite length_app, Nat2Z.inj_add in Hlim.
  destruct (Z.lt_ge_cases (Z.of_nat (length c) + Z.of_nat (length t)) cap); [eapply strftime_fits; [done..|rewrite length_app; lia]|].
  cbn [vmbuf_strftime]. rewrite (bind_eval _ _ _ _ _ (wavail_eval _ _ _ _ _ _ _ Hs ltac:(lia))), (bind_eval _ _ _ _ _ (wlocpos_eval _ _ _ _ _ _ _ Hs)).
  rewrite (proj2 (Z.ltb_ge _ _)) by lia. rewrite (bind_eval _ _ s 0 s) by done. cbn [Z.gtb Z.compare].
  destruct (resize_by_eval _ _ _ _ _ 4096 Hs ltac:(lia) ltac:(lia)) as (s1 & cap1 & E1 & Hs1 & Hc1). rewrite (bind_eval _ _ _ _ _ E1). cbn [Z.ltb Z.compare].
  apply (strftime_fits c rl t cap1 s1 0 Hs1 Ht); [lia|rewrite length_app; lia].
Qed.

Lemma peek_eval wl p x q rl cap s : vb_is f I wl (p ++ x :: q) rl cap s -> peek (Z.of_nat (length p)) s = Some (x, s).
Proof.
  intros Hs. destruct (vb_header _ _ _ _ _ _ _ Hs) as (r & E & _ & _ & _ & _ & Ht). unfold peek. rewrite (bind_eval _ _ _ _ _ E).
  assert (length p < length (r_bytes r))%nat by (apply (f_equal length) in Ht; rewrite length_take, length_app in Ht; cbn in Ht; lia).
  rewrite (proj2 (Z.leb_le 0 _)), (proj2 (Z.ltb_lt _ _)) by lia. cbn [andb].
  rewrite <- (take_drop (length (p ++ x :: q)) (r_bytes r)), Ht, Nat2Z.id, <- app_assoc. cbn [app].
  rewrite app_nth2 by lia. by rewrite Nat.sub_diag.
Qed.

Definition remove_last (c : list Z) (b : Z) : list Z := if decide (last c = Some b) then removelast c else c.

Lemma remove_last_if_eval c rl s b : vbuf c rl s -> exists s', vmbuf_remove_last_if b s = Some (tt, s') /\ vbuf (remove_last c b) rl s'.
Proof.
  intros (cap & Hs & Hc). pose proof (vi_bounds _ _ _ _ _ _ _ Hs). unfold vmbuf_remove_last_if, vmbuf_replace_last_if, remove_last.
  destruct c as [|x c0] using rev_ind; [|clear IHc0].
  - rewrite decide_False by done. exists s. split; [|by exists cap].
    rewrite (bind_eval _ _ s (-1) s); [done|]. by rewrite (bind_eval _ _ _ _ _ (wlocpos_eval _ _ _ _ _ _ _ Hs)).
  - rewrite length_app in *. cbn [length] in *. rewrite last_snoc.
    destruct (poke_inside f I _ c0 [] [x] [0] rl cap s Hs eq_refl) as (s1 & E1 & Hs1 & _).
    assert (Hpre : (w ← vmbuf_wlocpos; if 0 <? w then (b0 ← peek (w - 1); if b =? b0 then poke (w - 1) [0];; mret 0 else mret (-1)) else mret (-1)) s
                   = if b =? x then Some (0, s1) else Some (-1, s)).
    { rewrite (bind_eval _ _ _ _ _ (wlocpos_eval _ _ _ _ _ _ _ Hs)), (proj2 (Z.ltb_lt _ _)) by lia.
      replace (Z.of_nat (length c0 + 1) - 1) with (Z.of_nat (length c0)) by lia.
      rewrite (bind_eval _ _ _ _ _ (peek_eval _ _ _ _ _ _ _ Hs)). destruct (b =? x); [|done]. by rewrite (bind_eval _ _ _ _ _ E1). }
    destruct (Z.eqb_spec b x) as [->|Hne].
    + rewrite decide_True, removelast_last by done. rewrite (bind_eval _ _ s 0 s1) by exact Hpre. cbn [Z.eqb].
      rewrite (bind_eval _ _ _ _ _ (wlocpos_eval _ _ _ _ _ _ _ Hs1)), u64_small by lia.
      replace (Z.of_nat (length c0 + 1) - 1) with (Z.of_nat (length c0)) by lia.
      destruct (set_wloc_eval f I _ _ rl cap s1 (Z.of_nat (length c0)) Hs1) as (s2 & E2 & Hs2 & _). exists s2. split; [done|].
      exists cap. split; [by eapply vb_is_prefix|lia].
    + rewrite decide_False by congruence. rewrite (bind_eval _ _ s (-1) s) by exact Hpre. exists s. split; [done|].
      exists cap. rewrite length_app. done.
Qed.

(** ** Allocating in the buffer *)

(** The bytes behind the known ones are some bytes. *)
Lemma expose wl p rl cap s n : vb_is f I wl p rl cap s -> Z.of_nat (length p) + Z.of_nat n <= cap ->
  exists x, length x = n /\ vb_is f I wl (p ++ x) rl cap s.
Proof.
  intros [? ? ? ? (r & ? & ? & ? & Hl & Ht) ?] Hn. exists (take n (drop (length p) (r_bytes r))).
  assert (Hx : length (take n (drop (length p) (r_bytes r))) = n) by (rewrite length_take, length_drop; lia).
  split; [done|]. split; auto. exists r. do 4 (split; [done|]). rewrite length_app, Hx.
  rewrite <- (take_take_drop (r_bytes r) (length p) n). by rewrite Ht.
Qed.

Lemma alloc_eval wl p rl cap s n : vb_is f I wl p rl cap s -> wl = Z.of_nat (length p) -> wl <= cap -> 0 <= n ->
  2 * (wl + n) + VMBUF_HEADER <= limit ->
  exists s' x, vmbuf_alloc o stale n s = Some (wl, s') /\ Z.of_nat (length x) = n /\ vbuf (p ++ x) rl s'.
Proof.
  intros Hs -> Hc Hn Hlim. pose proof (vi_bounds _ _ _ _ _ _ _ Hs). unfold vmbuf_alloc.
  rewrite (bind_eval _ _ _ _ _ (wlocpos_eval _ _ _ _ _ _ _ Hs)).
  destruct (resize_if_less_eval _ p rl n 63 cap s Hs ltac:(lia) ltac:(lia) Hlim) as (s1 & cap1 & E1 & Hs1 & Hc1 & _);
    [apply resize_rounds_enough; [lia|done]|]. unfold vmbuf_resize_if_less, RESIZE_ROUNDS. rewrite (bind_eval _ _ _ _ _ E1).
  cbn [Z.ltb Z.compare].
  destruct (expose _ _ _ _ _ (Z.to_nat n) Hs1 ltac:(lia)) as (x & Hx & Hs1').
  destruct (wseek_eval _ _ _ _ _ n Hs1' ltac:(lia) ltac:(lia) ltac:(lia) ltac:(lia)) as (s2 & cap2 & E2 & Hs2 & Hc2 & _).
  rewrite (bind_eval _ _ _ _ _ E2). cbn [Z.ltb Z.compare]. exists s2, x. split; [done|]. split; [lia|]. exists cap2.
  rewrite length_app, Hx, Nat2Z.inj_add, Z2Nat.id by lia. done.
Qed.

Lemma alloczero_eval c rl s n : vbuf c rl s -> 2 * Z.of_nat (length (c ++ replicate n 0)) + VMBUF_HEADER <= limit ->
  exists s', vmbuf_alloczero o stale (Z.of_nat n) s = Some (Z.of_nat (length c), s') /\ vbuf (c ++ replicate n 0) rl s'.
Proof.
  intros (cap & Hs & Hc) Hlim. rewrite length_app, length_replicate, Nat2Z.inj_add in Hlim. unfold vmbuf_alloczero.
  destruct (alloc_eval _ c rl cap s (Z.of_nat n) Hs eq_refl ltac:(lia) ltac:(lia) Hlim) as (s1 & x & E1 & Hx & cap1 & Hs1 & Hc1).
  rewrite (bind_eval _ _ _ _ _ E1), Nat2Z.id.
  assert (Hs1' : vb_is f I (Z.of_nat (length (c ++ x))) (c ++ x ++ []) rl cap1 s1) by (by rewrite app_nil_r).
  destruct (poke_inside f I _ c [] x (replicate n 0) rl cap1 s1 Hs1') as (s2 & E2 & Hs2 & _); [rewrite length_replicate; lia|].
  rewrite (bind_eval _ _ _ _ _ E2). exists s2. split; [done|]. exists cap1. rewrite app_nil_r in Hs2.
  rewrite length_app in *. rewrite length_replicate. replace (length x) with n in * by lia. done.
Qed.

Lemma alloc_aligned_eval c rl s n : vbuf c rl s -> 0 <= n -> 2 * (Z.of_nat (length c) + 7 + n) + VMBUF_HEADER <= limit ->
  exists s' pad x, vmbuf_alloc_aligned o stale n s = Some (Z.of_nat (length (c ++ pad)), s') /\ (length pad < 8)%nat
    /\ Z.of_nat (length (c ++ pad)) mod 8 = 0 /\ Z.of_nat (length x) = n /\ vbuf ((c ++ pad) ++ x) rl s'.
Proof.
  intros (cap & Hs & Hc) Hn Hlim. pose proof (vi_bounds _ _ _ _ _ _ _ Hs) as [Hb Hc8]. unfold vmbuf_alloc_aligned.
  rewrite (bind_eval _ _ _ _ _ (wlocpos_eval _ _ _ _ _ _ _ Hs)), u64_small by (unfold VMBUF_HEADER in *; lia).
  set (a := Z.land _ _). set (len := Z.of_nat (length c)) in *.
  assert (Ha : len <= a < len + 8 /\ a mod 8 = 0).
  { subst a. assert (u64 (Z.lnot 7) = Z.land (Z.lnot (2 ^ 3 - 1)) (Z.ones 64)) as -> by reflexivity.
    rewrite Z.land_assoc. pose proof (round_up_mask_bounds len 3 ltac:(lia) ltac:(lia)) as [Hr Hm].
    cbv zeta in *. change (2 ^ 3 - 1) with 7 in *. change (2 ^ 3) with 8 in *. rewrite Z.land_ones, Z.mod_small by lia. auto. }
  destruct Ha as [Ha Ha8].
  assert (Hacap : a <= cap).
  { pose proof (Z.div_mod a 8 ltac:(lia)). pose proof (Z.div_mod cap 8 ltac:(lia)). rewrite Ha8, Hc8 in *.
    assert (a / 8 <= cap / 8); [|lia]. assert (a / 8 < cap / 8 + 1) by (apply Z.div_lt_upper_bound; lia). lia. }
  destruct (set_wloc_eval f I _ _ rl cap s a Hs) as (s1 & E1 & Hs1 & _). rewrite (bind_eval _ _ _ _ _ E1).
  destruct (expose _ _ _ _ _ (Z.to_nat (a - len)) Hs1 ltac:(lia)) as (pad & Hpad & Hs1').
  assert (Hlen : Z.of_nat (length (c ++ pad)) = a) by (rewrite length_app; lia).
  destruct (alloc_eval a (c ++ pad) rl cap s1 n Hs1' ltac:(lia) Hacap Hn ltac:(lia)) as (s2 & x & E2 & Hx & Hs2).
  exists s2, pad, x. rewrite Hlen. split; [done|]. split; [lia|]. done.
Qed.

(** ** Descriptors *)
Definition read_code (e : read_end) : Z := match e with Eof => 0 | Eagain => 1 | Eerror => -1 end.

Lemma read_eval e fuel : forall input c rl s, vbuf c rl s -> Forall (fun p => p <> []) input ->
  2 * (Z.of_nat (length c) + Z.of_nat (length (concat input))) + VMBUF_HEADER <= limit -> (length (concat input) < fuel)%nat ->
  exists s' res input' d, vmbuf_read o stale fuel input e s = Some ((res, input'), s')
    /\ concat input = d ++ concat input' /\ vbuf (c ++ d) rl s' /\ (input <> [] -> d <> [])
    /\ (res = 1 /\ d <> [] \/ input' = [] /\ res = read_code e) /\ exists k, d = concat (take k input) /\ input' = drop k input.
Proof.
  induction fuel as [|k IH]; intros input c rl s Hv Hne Hlim Hf; [lia|]. destruct Hv as (cap & Hs & Hc). cbn [vmbuf_read].
  rewrite (bind_eval _ _ _ _ _ (wlocpos_eval _ _ _ _ _ _ _ Hs)), (bind_eval _ _ _ _ _ (wavail_eval _ _ _ _ _ _ _ Hs ltac:(lia))).
  destruct input as [|piece rest].
  { exists s, (read_code e), [], []. split; [done|]. split; [done|]. rewrite app_nil_r. split; [by exists cap|]. split; [done|split; [by right|by exists O]]. }
  apply Forall_cons in Hne as [Hp Hne]. cbv zeta. set (av := Z.to_nat (cap - Z.of_nat (length c))).
  cbn [concat] in *. rewrite length_app, Nat2Z.inj_add in Hlim. rewrite length_app in Hf.
  assert (Hd : take av piece <> []) by (destruct piece; [done|]; destruct av eqn:Eav; [lia|done]).
  assert (Hlen : (0 < length (take av piece) <= length piece)%nat) by (split; [destruct (take av piece); cbn; [done|lia]|rewrite length_take; lia]).
  rewrite (proj2 (Z.eqb_neq _ 0)) by lia.
  assert (Hfit : Z.of_nat (length c) + Z.of_nat (length (take av piece)) <= cap) by (rewrite length_take; lia).
  destruct (poke_eval f I _ c rl cap s (take av piece) Hs Hfit) as (s1 & E1 & Hs1 & _). rewrite (bind_eval _ _ _ _ _ E1).
  destruct (wseek_eval _ _ _ _ _ (Z.of_nat (length (take av piece))) Hs1 ltac:(lia) ltac:(lia) Hfit ltac:(lia)) as (s2 & cap2 & E2 & Hs2 & Hc2 & _).
  rewrite (bind_eval _ _ _ _ _ E2). cbn [Z.ltb Z.compare].
  set (input' := match drop av piece with [] => rest | p => p :: rest end).
  assert (Hcat : piece ++ concat rest = take av piece ++ concat input').
  { subst input'. rewrite <- (take_drop av piece) at 1. rewrite <- app_assoc. f_equal. by destruct (drop av piece). }
  assert (Hne' : Forall (fun p => p <> []) input') by (subst input'; destruct (drop av piece) eqn:E; [done|by apply Forall_cons]).
  assert (Hv2 : vbuf (c ++ take av piece) rl s2) by (exists cap2; by rewrite length_app, Nat2Z.inj_add).
  assert (Hcl : (length piece + length (concat rest) = length (take av piece) + length (concat input'))%nat) by (rewrite <- !length_app; by f_equal).
  destruct (Z.ltb_spec (Z.of_nat (length (take av piece))) (cap - Z.of_nat (length c))).
  - exists s2, 1, input', (take av piece). repeat (split; [by auto|]). exists 1%nat. subst input' av. rewrite length_take in *.
    rewrite (drop_ge piece), (take_ge piece) by lia. cbn. by rewrite app_nil_r.
  - destruct (IH input' (c ++ take av piece) rl s2 Hv2 Hne') as (s3 & res & in3 & d & E3 & Hcat3 & Hv3 & Hd3 & Hres & k3 & Hk3 & Hin3);
      [rewrite length_app; lia|lia|].
    exists s3, res, in3, (take av piece ++ d). split; [exact E3|]. rewrite Hcat, Hcat3, app_assoc. split; [done|].
    rewrite app_assoc. split; [done|]. assert (take av piece ++ d <> []) by (intros [? _]%app_eq_nil; done).
    split; [done|]. split; [destruct Hres as [[-> _]|Hres]; auto|]. subst input'. destruct (drop av piece) as [|x p] eqn:Ed.
    + exists (S k3). split; [|done]. cbn [take concat]. rewrite Hk3, take_ge; [done|]. apply (f_equal length) in Ed. rewrite length_drop in Ed. cbn in Ed. lia.
    + destruct k3 as [|k3]; [by specialize (Hd3 ltac:(done))|]. exists (S k3). split; [|done]. cbn [take concat] in *.
      by rewrite Hk3, app_assoc, <- Ed, take_drop.
Qed.

(** The progress of the writes: what is not refused is taken. *)
Definition takes (accepts : list Z) (res : Z) (out : list Z) : Prop :=
  Forall (fun n => n = -1 \/ 0 < n) accepts -> res = 1 \/ res = 0 /\ match accepts with a :: _ => a <= Z.of_nat (length out) | [] => True end.

Lemma write_eval accepts : forall c rl s, vbuf c rl s -> 0 <= rl <= Z.of_nat (length c) ->
  exists s' res out, vmbuf_write accepts s = Some ((res, out), s')
    /\ drop (Z.to_nat rl) c = out ++ drop (Z.to_nat rl + length out) c /\ vbuf c (rl + Z.of_nat (length out)) s'
    /\ (res = 1 <-> rl + Z.of_nat (length out) = Z.of_nat (length c)) /\ takes accepts res out.
Proof.
  unfold takes. induction accepts as [|a accepts IH]; intros c rl s Hv Hrl; pose proof Hv as (cap & Hs & Hc);
    pose proof (vi_bounds _ _ _ _ _ _ _ Hs); destruct (vb_header _ _ _ _ _ _ _ Hs) as (r & E & _ & Hw & _ & Hl & Ht);
    (assert (Er : vmbuf_ravail s = Some (Z.of_nat (length c) - rl, s)) by
      (unfold vmbuf_ravail; rewrite (bind_eval _ _ _ _ _ E), bind_get, Hw, (vi_rloc _ _ _ _ _ _ _ Hs), u64_small by lia; done));
    cbn [vmbuf_write]; rewrite (bind_eval _ _ _ _ _ Er), Z.gtb_ltb;
    (destruct (Z.ltb_spec 0 (Z.of_nat (length c) - rl));
     [|exists s, 1, []; cbn [length]; rewrite Nat.add_0_r, Z.add_0_r; split; [done|]; split; [done|]; split; [done|]; split; [lia|by left]]).
  - exists s, 0, []. cbn [length]. rewrite Nat.add_0_r, Z.add_0_r. split; [done|]. split; [done|]. split; [done|]. split; [lia|by right].
  - assert (Hstop : forall res, res <> 1 -> (a = -1 \/ 0 < a -> res = 0 /\ a <= 0) -> exists s' res' out, Some ((res, []), s) = Some ((res', out), s')
      /\ drop (Z.to_nat rl) c = out ++ drop (Z.to_nat rl + length out) c /\ vbuf c (rl + Z.of_nat (length out)) s'
      /\ (res' = 1 <-> rl + Z.of_nat (length out) = Z.of_nat (length c))
      /\ (Forall (fun n => n = -1 \/ 0 < n) (a :: accepts) -> res' = 1 \/ res' = 0 /\ a <= Z.of_nat (length out))).
    { intros res Hres Ha. exists s, res, []. cbn [length]. rewrite Nat.add_0_r, Z.add_0_r. split; [done|]. split; [done|]. split; [done|].
      split; [lia|]. intros [Hf _]%Forall_cons. right. apply (Ha Hf). }
    destruct (Z.eqb_spec a (-1)) as [|Hna]; [apply Hstop; lia|]. destruct (Z.ltb_spec a 0); [apply Hstop; lia|].
    rewrite (bind_eval _ _ _ _ _ E), bind_get, (vi_rloc _ _ _ _ _ _ _ Hs), Z.gtb_ltb. cbv zeta.
    set (n := Z.min a (Z.of_nat (length c) - rl)). destruct (Z.ltb_spec 0 n); [|apply Hstop; lia].
    set (s1 := (fst s, set_rloc (snd s) (rl + n))).
    assert (Es : vmbuf_rseek n s = Some (tt, s1)).
    { unfold vmbuf_rseek. rewrite bind_get, (vi_rloc _ _ _ _ _ _ _ Hs), u64_small by lia. done. }
    rewrite (bind_eval _ _ _ _ _ Es).
    assert (Hv1 : vbuf c (rl + n) s1) by (exists cap; destruct Hs as [? ? ? ? ? ?]; split; [split; cbn; auto|done]).
    destruct (IH c (rl + n) s1 Hv1 ltac:(lia)) as (s2 & res & out & E2 & Hout & Hv2 & Hres & Htk). rewrite (bind_eval _ _ _ _ _ E2).
    assert (Hpart : take (Z.to_nat n) (drop (Z.to_nat rl) (r_bytes r)) = take (Z.to_nat n) (drop (Z.to_nat rl) c)).
    { rewrite <- (take_drop (length c) (r_bytes r)), Ht, drop_app_le, take_app_le; [done|rewrite length_drop; lia|lia]. }
    assert (Hn : length (take (Z.to_nat n) (drop (Z.to_nat rl) c)) = Z.to_nat n) by (rewrite length_take, length_drop; lia).
    rewrite Hpart. eexists s2, res, _. split; [reflexivity|]. rewrite length_app, Hn. split; [|split; [|split]].
    + rewrite <- app_assoc, <- (take_drop (Z.to_nat n) (drop (Z.to_nat rl) c)) at 1. f_equal. rewrite drop_drop.
      replace (Z.to_nat rl + Z.to_nat n)%nat with (Z.to_nat (rl + n)) by lia. rewrite Hout. f_equal. f_equal. lia.
    + replace (rl + Z.of_nat (Z.to_nat n + length out)) with (rl + n + Z.of_nat (length out)) by lia. done.
    + rewrite Hres. lia.
    + intros [_ Hf]%Forall_cons. destruct (Htk Hf) as [->|[-> _]]; [by left|right]. split; [done|].
      apply (f_equal length) in Hout. rewrite length_app, !length_drop in Hout. lia.
Qed.
End Growable.

(** ** Sequences of operations on a buffer *)
Inductive vb_call :=
  | VMemcpy (l : list Z) | VStrcpy (l : list Z) | VChrcpy (b : Z) | VSprintf (t : list Z)
  | VRemoveLast (b : Z) | VAllocZero (n : nat).

(** What each does to the contents, and what it returns. *)
Definition vb_apply (c : list Z) (call : vb_call) : list Z :=
  match call with
  | VMemcpy l | VStrcpy l | VSprintf l => c ++ l
  | VChrcpy b => c ++ [b]
  | VRemoveLast b => remove_last c b
  | VAllocZero n => c ++ replicate n 0
  end.
Definition vb_result (c : list Z) (call : vb_call) : Z :=
  match call with VAllocZero _ => Z.of_nat (length c) | _ => 0 end.
Definition vb_call_size (call : vb_call) : Z :=
  match call with
  | VMemcpy l | VStrcpy l | VSprintf l => Z.of_nat (length l)
  | VChrcpy _ => 1
  | VRemoveLast _ => 0
  | VAllocZero n => Z.of_nat n
  end.
Definition vb_call_ok (call : vb_call) : Prop :=
  match call with VSprintf t => Z.of_nat (length t) <= INT_MAX | _ => True end.

Fixpoint vb_results (c : list Z) (calls : list vb_call) : list Z :=
  match calls with [] => [] | call :: calls => vb_result c call :: vb_results (vb_apply c call) calls end.

Definition calls_size (calls : list vb_call) : Z := foldr (fun c n => vb_call_size c + n) 0 calls.

(** The contents of a buffer. *)
Definition contents_of (v : vmbuf) : list Z :=
  match vb_mem v with MMap r => take (Z.to_nat (r_wloc r)) (r_bytes r) | _ => [] end.

Section Run.
Context `{address_space} (o : os) (stale : Z -> Z -> Z).

Definition vb_exec (call : vb_call) : M Z :=
  match call with
  | VMemcpy l => vmbuf_memcpy o stale l
  | VStrcpy l => vmbuf_strcpy o stale l
  | VChrcpy b => vmbuf_chrcpy o stale b
  | VSprintf t => vmbuf_sprintf o stale (Some t)
  | VRemoveLast b => vmbuf_remove_last_if b;; mret 0
  | VAllocZero n => vmbuf_alloczero o stale (Z.of_nat n)
  end.

Fixpoint vb_run (calls : list vb_call) : M (list Z) :=
  match calls with
  | [] => mret []
  | call :: calls => r ← vb_exec call; rs ← vb_run calls; mret (r :: rs)
  end.

Context (f : vmbuf_mem_funcs) (I : world -> Prop) (limit : Z) `{!Growable o stale f I limit} (Hlimit : limit <= 2 ^ 60).

Lemma vbuf_contents c rl s : vbuf f I c rl s -> contents_of (snd s) = c.
Proof.
  intros (cap & [_ _ _ _ (r & Hm & Hw & _ & _ & Ht) _] & _). unfold contents_of. by rewrite Hm, Hw, Nat2Z.id.
Qed.

Lemma length_remove_last c b : (length (remove_last c b) <= length c)%nat.
Proof.
  unfold remove_last. case_decide; [|done]. destruct c as [|x c0] using rev_ind; [done|].
  rewrite removelast_last, length_app. lia.
Qed.

Lemma vb_apply_length c call : Z.of_nat (length (vb_apply c call)) <= Z.of_nat (length c) + vb_call_size call.
Proof.
  destruct call; cbn; rewrite ?length_app, ?length_replicate; cbn; try lia. pose proof (length_remove_last c b). lia.
Qed.

Lemma calls_size_pos calls : 0 <= calls_size calls.
Proof. induction calls as [|c calls IH]; cbn [calls_size foldr]; [lia|]. unfold calls_size in IH. destruct c; cbn; lia. Qed.

Lemma vb_exec_eval c rl s call : vbuf f I c rl s -> vb_call_ok call ->
  2 * (Z.of_nat (length c) + vb_call_size call) + VMBUF_HEADER <= limit ->
  exists s', vb_exec call s = Some (vb_result c call, s') /\ vbuf f I (vb_apply c call) rl s'.
Proof.
  intros Hv Hok Hlim. destruct call; cbn [vb_exec vb_result vb_apply vb_call_size vb_call_ok] in *.
  - apply (memcpy_eval o stale f I limit Hlimit); [done|]. rewrite length_app. lia.
  - apply (strcpy_eval o stale f I limit Hlimit); [done|]. rewrite length_app. lia.
  - apply (chrcpy_eval o stale f I limit Hlimit); [done|]. rewrite length_app. cbn. lia.
  - apply (sprintf_eval o stale f I limit Hlimit); [done|done|]. rewrite length_app. lia.
  - destruct (remove_last_if_eval f I c rl s b Hv) as (s' & E & Hs'). exists s'. by rewrite (bind_eval _ _ _ _ _ E).
  - apply (alloczero_eval o stale f I limit Hlimit); [done|]. rewrite length_app, length_replicate. lia.
Qed.

Lemma vb_run_eval calls : forall c rl s, vbuf f I c rl s -> Forall vb_call_ok calls ->
  2 * (Z.of_nat (length c) + calls_size calls) + VMBUF_HEADER <= limit ->
  exists s', vb_run calls s = Some (vb_results c calls, s') /\ vbuf f I (foldl vb_apply c calls) rl s'.
Proof.
  induction calls as [|call calls IH]; intros c rl s Hv Hok Hlim; cbn [vb_run vb_results foldl]; [by exists s|].
  apply Forall_cons in Hok as [Hc Hok]. cbn [calls_size foldr] in Hlim. fold (calls_size calls) in Hlim.
  pose proof (calls_size_pos calls). pose proof (vb_apply_length c call).
  destruct (vb_exec_eval c rl s call Hv Hc ltac:(lia)) as (s1 & E1 & Hv1). rewrite (bind_eval _ _ _ _ _ E1).
  destruct (IH (vb_apply c call) rl s1 Hv1 Hok ltac:(lia)) as (s2 & E2 & Hv2). rewrite (bind_eval _ _ _ _ _ E2). by exists s2.
Qed.
End Run.

Lemma init_eval `{address_space} (o : os) stale w size : 0 <= size <= 2 ^ 59 -> sys_mmap o (mem_roundup (size + VMBUF_HEADER)) = true ->
  exists s, vmbuf_init o stale size (w, VMBUF_INITIALIZER) = Some (0, s) /\ vbuf _mem_funcs_anon_buf (fun _ => True) [] 0 s.
Proof.
  intros Hs Hmap. unfold VMBUF_HEADER in *. destruct (mem_roundup_bounds (size + 16) ltac:(lia)) as [Hb Hm].
  unfold vmbuf_init. rewrite bind_get. cbn [snd vb_mem VMBUF_INITIALIZER].
  rewrite (bind_eval (put _) _ _ tt (w, set_funcs VMBUF_INITIALIZER _mem_funcs_anon_buf 0)) by done.
  unfold _vmbuf_init, set_funcs. cbn [vb_funcs vb_mem vb_fd mem_alloc]. unfold _mem_alloc_ab, VMBUF_HEADER.
  rewrite (u64_small (size + 16)), Hmap, (proj2 (Z.eqb_neq _ 0)), u64_small by lia. eexists. split; [done|].
  assert (16 < mem_roundup (size + 16)).
  { destruct (Z.eq_dec (mem_roundup (size + 16)) 16) as [E|]; [|lia]. rewrite E in Hm. done. }
  exists (mem_roundup (size + 16) - 16). cbn [length]. split; [|lia]. split; cbn [fst snd vb_funcs vb_rloc vb_capacity vb_mem]; auto.
  - eexists. split; [done|]. cbn. rewrite length_replicate. split; [done|]. split; [done|]. unfold VMBUF_HEADER. split; [lia|done].
  - split; [lia|]. rewrite Zminus_mod, (mod_4096_8 _ Hm). done.
Qed.

(** C28: on a buffer made by [vmbuf_init], any sequence of [memcpy], [strcpy], [chrcpy],
    [sprintf], [remove_last_if] and [alloczero] calls acts like the same operations on a
    list of bytes: every call succeeds with the expected result and no access leaves the
    buffer, which grows as needed. *)
Theorem vmbuf_is_byte_list `{address_space} (o : os) (stale : Z -> Z -> Z) (w : world) (size limit : Z) (calls : list vb_call)
  (Hsize : 0 <= size <= 2 ^ 59) (Hmap : sys_mmap o (mem_roundup (size + VMBUF_HEADER)) = true)
  (Hlimit : limit <= 2 ^ 60) (Hgrow : can_grow_to o (limit + 4096))
  (Hok : Forall vb_call_ok calls) (Hfits : 2 * calls_size calls + VMBUF_HEADER <= limit) :
  exists s s', vmbuf_init o stale size (w, VMBUF_INITIALIZER) = Some (0, s)
    /\ vb_run o stale calls s = Some (vb_results [] calls, s')
    /\ contents_of (snd s') = foldl vb_apply [] calls.
Proof.
  destruct (init_eval o stale w size Hsize Hmap) as (s & E & Hv). exists s.
  pose proof (anon_growable o stale limit Hlimit Hgrow) as Hg.
  destruct (vb_run_eval o stale _ _ limit Hlimit calls [] 0 s Hv Hok Hfits) as (s' & E' & Hv').
  exists s'. split; [done|]. split; [done|]. by eapply vbuf_contents.
Qed.

Definition vb_world : world := (Memory mempool_initial ∅ ∅ ∅, MEMALLOC_INITIALIZER 16).
Definition vb_demo : list vb_call :=
  [VStrcpy [104; 105]; VChrcpy 44; VRemoveLast 44; VSprintf [32; 49]; VAllocZero 2; VMemcpy (replicate 5000 7)].

Lemma vmbuf_is_byte_list_witness :
  exists s s', vmbuf_init os_all_ok (fun _ _ => 0) 100 (vb_world, VMBUF_INITIALIZER) = Some (0, s)
    /\ vb_run os_all_ok (fun _ _ => 0) vb_demo s = Some ([0; 0; 0; 0; 4; 0], s')
    /\ contents_of (snd s') = [104; 105; 32; 49; 0; 0] ++ replicate 5000 7.
Proof.
  apply (vmbuf_is_byte_list os_all_ok (fun _ _ => 0) vb_world 100 (2 ^ 20) vb_demo).
  - lia.
  - reflexivity.
  - lia.
  - by intros old n _.
  - repeat constructor; done.
  - vm_compute. congruence.
Defined.

(** [vmbuf_read] ends after reading a non-empty part of the pending input (if there is any)
    and appends exactly the bytes it took: it returns 1 after a short read and otherwise, when
    the input is used up, 0 at the end of file, 1 for [EAGAIN] and -1 for another error.
    [vmbuf_write] sends the unread bytes in order whatever the descriptor accepts per call,
    and returns 1 exactly when all were sent. *)
Theorem vmbuf_read_write `{address_space} (o : os) (stale : Z -> Z -> Z) (limit rl : Z) (c : list Z) (s : world * vmbuf)
  (input : list (list Z)) (e : read_end) (accepts : list Z)
  (Hlimit : limit <= 2 ^ 60) (Hgrow : can_grow_to o (limit + 4096))
  (Hbuf : vbuf _mem_funcs_anon_buf (fun _ => True) c rl s) (Hinput : Forall (fun p => p <> []) input)
  (Hfits : 2 * (Z.of_nat (length c) + Z.of_nat (length (concat input))) + VMBUF_HEADER <= limit)
  (Hrl : 0 <= rl <= Z.of_nat (length c)) :
  (exists s' res input' d, vmbuf_read o stale (S (length (concat input))) input e s = Some ((res, input'), s')
     /\ concat input = d ++ concat input' /\ contents_of (snd s') = c ++ d /\ (input <> [] -> d <> [])
     /\ (res = 1 \/ input' = [] /\ res = read_code e))
  /\ (exists s' res out, vmbuf_write accepts s = Some ((res, out), s')
     /\ drop (Z.to_nat rl) c = out ++ drop (Z.to_nat rl + length out) c
     /\ vb_rloc (snd s') = rl + Z.of_nat (length out) /\ contents_of (snd s') = c
     /\ (res = 1 <-> rl + Z.of_nat (length out) = Z.of_nat (length c))).
Proof.
  pose proof (anon_growable o stale limit Hlimit Hgrow) as Hg. split.
  - destruct (read_eval o stale _ _ limit Hlimit e (S (length (concat input))) input c rl s Hbuf Hinput Hfits ltac:(lia))
      as (s' & res & in' & d & E & Hc & Hv & Hd & Hr & _).
    exists s', res, in', d. split; [done|]. split; [done|]. split; [by eapply vbuf_contents|]. split; [done|]. destruct Hr as [[? _]|?]; auto.
  - destruct (write_eval _ _ accepts c rl s Hbuf Hrl) as (s' & res & out & E & Hout & Hv & Hr & _).
    exists s', res, out. split; [done|]. split; [done|]. split; [|split; [by eapply vbuf_contents|done]].
    destruct Hv as (cap & [_ _ Hrloc _ _ _] & _). exact Hrloc.
Qed.

Definition abc_state : world * vmbuf :=
  (vb_world, Vmbuf (MMap (Region 0 3 8 [97; 98; 99; 0; 0; 0; 0; 0])) (Some _mem_funcs_anon_buf) 0 8 1).
Lemma abc_state_ok : vbuf _mem_funcs_anon_buf (fun _ => True) [97; 98; 99] 1 abc_state.
Proof. exists 8. split; [|cbn; lia]. split; try done. eexists. split; [reflexivity|]. done. Qed.

Lemma vmbuf_read_write_witness :
  (exists s' res input' d, vmbuf_read os_all_ok (fun _ _ => 0) 8 [[1; 2; 3; 4; 5; 6]; [7]] Eagain abc_state = Some ((res, input'), s')
     /\ concat [[1; 2; 3; 4; 5; 6]; [7]] = d ++ concat input' /\ contents_of (snd s') = [97; 98; 99] ++ d)
  /\ exists s' res out, vmbuf_write [1; 5] abc_state = Some ((res, out), s') /\ out = [98; 99] /\ res = 1.
Proof.
  destruct (vmbuf_read_write os_all_ok (fun _ _ => 0) (2 ^ 20) 1 [97; 98; 99] abc_state [[1; 2; 3; 4; 5; 6]; [7]] Eagain [1; 5])
    as [(s' & res & in' & d & E & Hc & Hd & _) (s2 & res2 & out & E2 & _ & _ & _ & _)].
  - lia.
  - by intros old n _.
  - apply abc_state_ok.
  - repeat constructor; done.
  - vm_compute. congruence.
  - cbn. lia.
  - split; [by exists s', res, in', d|]. exists s2, res2, out. split; [exact E2|]. vm_compute in E2. by injection E2 as <- <- _.
Defined.

(** [vmbuf_alloc_aligned] returns an offset that is a multiple of 8 behind the contents,
    with [n] bytes of the buffer behind it, and keeps the contents. *)
Theorem vmbuf_alloc_aligned_spec `{address_space} (o : os) (stale : Z -> Z -> Z) (limit rl n : Z) (c : list Z) (s : world * vmbuf)
  (Hlimit : limit <= 2 ^ 60) (Hgrow : can_grow_to o (limit + 4096))
  (Hbuf : vbuf _mem_funcs_anon_buf (fun _ => True) c rl s) (Hn : 0 <= n)
  (Hfits : 2 * (Z.of_nat (length c) + 7 + n) + VMBUF_HEADER <= limit) :
  exists s' ofs, vmbuf_alloc_aligned o stale n s = Some (ofs, s') /\ ofs mod 8 = 0
    /\ Z.of_nat (length c) <= ofs < Z.of_nat (length c) + 8
    /\ Z.of_nat (length (contents_of (snd s'))) = ofs + n /\ take (length c) (contents_of (snd s')) = c.
Proof.
  pose proof (anon_growable o stale limit Hlimit Hgrow) as Hg.
  destruct (alloc_aligned_eval o stale _ _ limit Hlimit c rl s n Hbuf Hn Hfits) as (s' & pad & x & E & Hp & H8 & Hx & Hv).
  exists s', (Z.of_nat (length (c ++ pad))). rewrite (vbuf_contents _ _ _ _ _ Hv). split; [done|]. split; [done|].
  rewrite !length_app in *. split; [lia|]. split; [lia|]. by rewrite <- app_assoc, take_app_length.
Qed.

Lemma vmbuf_alloc_aligned_spec_witness :
  exists s' ofs, vmbuf_alloc_aligned os_all_ok (fun _ _ => 0) 16 abc_state = Some (ofs, s') /\ ofs mod 8 = 0
    /\ Z.of_nat (length (contents_of (snd s'))) = ofs + 16.
Proof.
  destruct (vmbuf_alloc_aligned_spec os_all_ok (fun _ _ => 0) (2 ^ 20) 1 16 [97; 98; 99] abc_state) as (s' & ofs & E & H8 & _ & Hl & _).
  - lia.
  - by intros old n _.
  - apply abc_state_ok.
  - lia.
  - vm_compute. congruence.
  - by exists s', ofs.
Defined.

(** A failed [mremap] leaves [MAP_FAILED] in [mem]: after [vmbuf_resize_to] has reported
    the failure, the buffer and its contents can no longer be reached. *)
Theorem vmbuf_failed_resize_loses_buffer `{address_space} (o : os) (stale : Z -> Z -> Z) (w : world) (r : region)
  (fd cap rl size : Z) (Hfail : forall old new, sys_mremap o old new = false) :
  exists s, vmbuf_resize_to o stale size (w, Vmbuf (MMap r) (Some _mem_funcs_anon_buf) fd cap rl) = Some (-1, s)
    /\ vb_mem (snd s) = MFailed /\ vmbuf_wlocpos s = None.
Proof.
  unfold vmbuf_resize_to, _vmbuf_change_capacity. cbn [vb_mem vb_funcs mem_resize]. unfold _mem_resize_ab. rewrite Hfail.
  cbn [Z.eqb]. eexists. split; [done|]. done.
Qed.

Lemma vmbuf_failed_resize_loses_buffer_witness :
  exists s, vmbuf_resize_to os_no_memory (fun _ _ => 0) 100 abc_state = Some (-1, s) /\ vmbuf_wlocpos s = None.
Proof.
  destruct (vmbuf_failed_resize_loses_buffer os_no_memory (fun _ _ => 0) vb_world (Region 0 3 8 [97; 98; 99; 0; 0; 0; 0; 0]) 0 8 1 100)
    as (s & E & _ & Hw); [done|]. by exists s.
Defined.

(** [vmbuf_memcpy] does not check the result of [vmbuf_resize_if_less]: on a buffer of
    fixed size, more bytes than are available are written past the end of the buffer. *)
Theorem vmbuf_memcpy_overflows_fixed `{address_space} (o : os) (stale : Z -> Z -> Z) (w : world) (r : region) (fd rl : Z) (l : list Z)
  (Hwloc : 0 <= r_wloc r <= Z.of_nat (length (r_bytes r))) (Hcap : Z.of_nat (length (r_bytes r)) < 2 ^ 63)
  (Hover : Z.of_nat (length (r_bytes r)) < r_wloc r + Z.of_nat (length l)) :
  vmbuf_memcpy o stale l (w, Vmbuf (MMap r) (Some _mem_funcs_shared_fixed_buf) fd (Z.of_nat (length (r_bytes r))) rl) = None.
Proof.
  set (s := (w, Vmbuf (MMap r) (Some _mem_funcs_shared_fixed_buf) fd (Z.of_nat (length (r_bytes r))) rl)).
  assert (Ew : vmbuf_wavail s = Some (Z.of_nat (length (r_bytes r)) - r_wloc r, s)).
  { unfold vmbuf_wavail. rewrite (bind_eval vmbuf_get_header _ s r s), bind_get by done. cbn [snd s vb_capacity]. rewrite u64_small by lia. done. }
  assert (Er : vmbuf_resize_if_less o stale (Z.of_nat (length l)) s = Some (-1, s)).
  { unfold vmbuf_resize_if_less, RESIZE_ROUNDS. cbn [resize_if_less_loop]. rewrite (bind_eval _ _ _ _ _ Ew), Z.gtb_ltb, (proj2 (Z.ltb_lt _ _)) by lia.
    by rewrite (bind_eval (vmbuf_add_capacity o stale) _ s (-1) s). }
  unfold vmbuf_memcpy. rewrite (bind_eval _ _ _ _ _ Er), (bind_eval vmbuf_wlocpos _ s (r_wloc r) s) by done.
  unfold mbind, ST_bind, poke. rewrite (bind_eval vmbuf_get_header _ s r s), (proj2 (Z.leb_le 0 _)), (proj2 (Z.leb_gt _ _)) by (done || lia). done.
Qed.

Lemma vmbuf_memcpy_overflows_fixed_witness :
  vmbuf_memcpy os_all_ok (fun _ _ => 0) [1; 2; 3; 4; 5; 6]
    (vb_world, Vmbuf (MMap (Region 0 3 8 [97; 98; 99; 0; 0; 0; 0; 0])) (Some _mem_funcs_shared_fixed_buf) 0 8 1) = None.
Proof.
  apply (vmbuf_memcpy_overflows_fixed os_all_ok (fun _ _ => 0) vb_world (Region 0 3 8 [97; 98; 99; 0; 0; 0; 0; 0]) 0 1 [1; 2; 3; 4; 5; 6]);
    cbn; lia.
Defined.
