(* ===== verification/ObjectPool.v ===== *)
(** * ObjectPool: reusing objects ([include/object_pool.h])

    Free objects are pointers in a [vmbuf], of which the first [rloc] bytes are in use as a
    stack; objects are allocated many at a time and never freed. *)

From stdpp Require Import base numbers list gmap.
From Stdlib Require Import ZArith Lia.
From S2P Require Import Prelude Words Bytes Os Mempool Memalloc Vmbuf VmbufFacts.

Definition sizeof_ptr : Z := 8.

Record object_pool := ObjectPool {
  op_object_size : Z;
  op_initial_size : Z;
  op_grow : Z;
  op_init_object : bool;        (* whether there is such a function *)
  op_pool : vmbuf;
}.
Definition OBJECT_POOL_INITIALIZER : object_pool := ObjectPool 0 0 0 false VMBUF_INITIALIZER.

(** The pool, the memory of [vmbuf], the blocks from [calloc], and the objects that
    [init_object] was called with. *)
Record op_world := OpWorld { ow_pool : object_pool; ow_memory : world; ow_blocks : list (Z * Z); ow_inits : list Z }.
Abbreviation OP := (ST op_world).

Section Ops.
Context `{address_space} (o : os) (stale : Z -> Z -> Z).

Definition op_self : OP op_world := fun w => Some (w, w).
Definition with_pool (p : object_pool) (v : vmbuf) : object_pool := ObjectPool (op_object_size p) (op_initial_size p) (op_grow p) (op_init_object p) v.
Definition on_pool {A} (m : M A) : OP A := fun w =>
  match m (ow_memory w, op_pool (ow_pool w)) with
  | Some (x, (mem, v)) => Some (x, OpWorld (with_pool (ow_pool w) v) mem (ow_blocks w) (ow_inits w))
  | None => None
  end.

(** [calloc(n, size)], 0 for NULL. *)
Definition calloc (n size : Z) : OP Z := fun w =>
  if n * size <? 2 ^ 64 then
    match mmap_anon (ow_blocks w) (n * size) with
    | Some a => Some (a, OpWorld (ow_pool w) (ow_memory w) ((a, n * size) :: ow_blocks w) (ow_inits w))
    | None => Some (0, w)
    end
  else Some (0, w).
Definition init_object (mem : Z) : OP unit := fun w =>
  Some (tt, if op_init_object (ow_pool w) then OpWorld (ow_pool w) (ow_memory w) (ow_blocks w) (ow_inits w ++ [mem]) else w).

(** The pointer at [vmbuf_rloc]. *)
Definition push_object (mem : Z) : OP unit := rl ← on_pool vmbuf_rlocpos; on_pool (poke rl (bytes64 mem));; on_pool (vmbuf_rseek sizeof_ptr).
Definition peek64 (ofs : Z) : M Z :=
  r ← vmbuf_get_header;
  if (0 <=? ofs) && (ofs + 8 <=? Z.of_nat (length (r_bytes r))) then mret (get64 (r_bytes r) ofs) else crash.

Fixpoint push_objects (n : nat) (mem : Z) : OP unit :=
  match n with
  | O => mret tt
  | S n => init_object mem;; push_object mem;; w ← op_self; push_objects n (u64 (mem + op_object_size (ow_pool w)))
  end.

Definition object_pool_grow (growby : Z) : OP Z :=
  w ← op_self;
  mem ← calloc growby (op_object_size (ow_pool w));
  on_pool (vmbuf_alloc o stale (u64 (growby * sizeof_ptr)));;
  push_objects (Z.to_nat growby) mem;;
  mret 0.

Definition object_pool_get : OP Z :=
  rl ← on_pool vmbuf_rlocpos;
  w ← op_self;
  r ← (if rl =? 0 then object_pool_grow (op_grow (ow_pool w)) else mret 0);
  if r <? 0 then mret 0
  else on_pool (vmbuf_rrewind sizeof_ptr);; rl ← on_pool vmbuf_rlocpos; on_pool (peek64 rl).

Definition object_pool_put (mem : Z) : OP unit := push_object mem.

Definition object_pool_init : OP Z :=
  w ← op_self;
  let p := ow_pool w in
  if op_object_size p =? 0 then mret (-1)
  else
    let grow := if op_grow p =? 0 then 1 else op_grow p in
    (fun w => Some (tt, OpWorld (ObjectPool (op_object_size p) (op_initial_size p) grow (op_init_object p) (op_pool p)) (ow_memory w) (ow_blocks w) (ow_inits w)));;
    r ← on_pool (vmbuf_init o stale (u64 ((if op_initial_size p =? 0 then grow else op_initial_size p) * sizeof_ptr)));
    if r <? 0 then mret (-1)
    else if 0 <? op_initial_size p then object_pool_grow (op_initial_size p) else mret 0.
End Ops.

(** ** The objects of a pool *)
Section Facts.
Context `{address_space} (o : os) (stale : Z -> Z -> Z) (size initial grow : Z) (init : bool) (limit : Z).
Hypothesis (Hsize : 0 < size) (Hgrow : 0 < grow) (Hlimit : limit <= 2 ^ 60) (Hcan : can_grow_to o (limit + 4096)).
Local Notation vb := (vb_is _mem_funcs_anon_buf (fun _ => True)).

Definition object (a : Z) : Z * Z := (a, size).

(** The first pointers of the buffer are the free objects; the others are stale. *)
Definition stack_bytes (free : list Z) : list Z := concat (bytes64 <$> free).

Definition stack (w : op_world) (free q : list Z) : Prop :=
  exists cap, vb (Z.of_nat (length (stack_bytes free ++ q))) (stack_bytes free ++ q) (8 * Z.of_nat (length free)) cap (ow_memory w, op_pool (ow_pool w))
    /\ Z.of_nat (length (stack_bytes free ++ q)) <= cap.

(** Nothing but the buffer differs. *)
Definition same_pool (w w' : op_world) : Prop := (exists v, ow_pool w' = with_pool (ow_pool w) v) /\ ow_blocks w' = ow_blocks w.

Record op_inv (w : op_world) (free used : list Z) : Prop := {
  oi_conf : exists v, ow_pool w = ObjectPool size initial grow init v;
  oi_stack : exists q, stack w free q /\ length q = (8 * length used)%nat;
  oi_apart : pairwise apart (object <$> (free ++ used));
  oi_blocks : Forall (fun a => 0 < a < 2 ^ 64 /\ exists b, b ∈ ow_blocks w /\ b.1 <= a /\ a + size <= b.1 + b.2) (free ++ used);
  oi_inits : init = true -> ow_inits w ≡ₚ free ++ used;
}.

Lemma length_stack_bytes free : length (stack_bytes free) = (8 * length free)%nat.
Proof. unfold stack_bytes. induction free as [|a free IH]; [done|]. rewrite fmap_cons. cbn [concat]. rewrite length_app, IH, length_bytes64. cbn [length]. lia. Qed.
Lemma stack_bytes_snoc free a : stack_bytes (free ++ [a]) = stack_bytes free ++ bytes64 a.
Proof. unfold stack_bytes. rewrite fmap_app, concat_app. cbn. by rewrite app_nil_r. Qed.

Lemma on_pool_eval {A} (m : M A) w x mem v : m (ow_memory w, op_pool (ow_pool w)) = Some (x, (mem, v)) ->
  on_pool m w = Some (x, OpWorld (with_pool (ow_pool w) v) mem (ow_blocks w) (ow_inits w)).
Proof. intros E. unfold on_pool. by rewrite E. Qed.

(** Moving the read position. *)
Lemma vb_rlocset wl p rl cap s rl' : vb wl p rl cap s -> vb wl p rl' cap (fst s, set_rloc (snd s) rl').
Proof. intros [? ? ? ? ? ?]. by split. Qed.

Lemma same_pool_trans w1 w2 w3 : same_pool w1 w2 -> same_pool w2 w3 -> same_pool w1 w3.
Proof. intros [(v & E1) B1] [(v' & E2) B2]. split; [|congruence]. exists v'. rewrite E2, E1. by destruct (ow_pool w1). Qed.

Lemma push_object_eval w free x q a : stack w free (x ++ q) -> length x = 8%nat ->
  exists w', push_object a w = Some (tt, w') /\ stack w' (free ++ [a]) q /\ same_pool w w' /\ ow_inits w' = ow_inits w.
Proof.
  intros (cap & Hv & Hc) Hx. pose proof (vi_bounds _ _ _ _ _ _ _ Hv) as [Hcap _]. pose proof (length_stack_bytes free) as Hl. unfold push_object. set (s := (ow_memory w, op_pool (ow_pool w))) in *.
  assert (E0 : on_pool vmbuf_rlocpos w = Some (8 * Z.of_nat (length free), w)) by (unfold on_pool, vmbuf_rlocpos; rewrite bind_get; cbn; rewrite <- (vi_rloc _ _ _ _ _ _ _ Hv); by destruct w as [[] ? ? ?]).
  rewrite (bind_eval _ _ _ _ _ E0). destruct (poke_inside _ _ _ _ _ x (bytes64 a) _ _ _ Hv) as ([mem v] & E1 & Hv1 & _); [by rewrite length_bytes64|].
  rewrite Hl in E1. replace (Z.of_nat (8 * length free)) with (8 * Z.of_nat (length free)) in E1 by lia. rewrite (bind_eval _ _ _ _ _ (on_pool_eval _ w _ _ _ E1)). set (w1 := OpWorld _ mem _ _).
  pose proof (vi_rloc _ _ _ _ _ _ _ Hv1) as Hr1. cbn [snd] in Hr1. apply (vb_rlocset _ _ _ _ _ (8 * Z.of_nat (length (free ++ [a])))) in Hv1.
  assert (Hseek : u64 (vb_rloc v + sizeof_ptr) = 8 * Z.of_nat (length (free ++ [a]))).
  { rewrite Hr1, length_app. unfold sizeof_ptr. cbn [length]. rewrite !length_app in Hc. rewrite u64_small by lia. lia. }
  assert (E2 : vmbuf_rseek sizeof_ptr (ow_memory w1, op_pool (ow_pool w1)) = Some (tt, (mem, set_rloc v (8 * Z.of_nat (length (free ++ [a])))))) by (rewrite <- Hseek; done).
  eexists. split; [exact (on_pool_eval _ w1 _ _ _ E2)|]. split; [|split; [split; [by eexists|done]|done]]. exists cap.
  rewrite stack_bytes_snoc, <- !app_assoc. cbn [ow_memory ow_pool op_pool with_pool fst snd] in *. rewrite !length_app, length_bytes64 in *. rewrite Hx in *. split; [exact Hv1|lia].
Qed.

Fixpoint objects_from (n : nat) (a : Z) : list Z := match n with O => [] | S n => a :: objects_from n (a + size) end.

Lemma pairwise_app {A} (R : A -> A -> Prop) l1 l2 : pairwise R l1 -> pairwise R l2 -> Forall (fun x => Forall (R x) l2) l1 -> pairwise R (l1 ++ l2).
Proof. induction l1 as [|x l1 IH]; [done|]. intros [H1 H2] Hl [Hx Hf]%Forall_cons. split; [by apply Forall_app|by apply IH]. Qed.

Lemma objects_from_in n : forall a x, x ∈ objects_from n a -> a <= x /\ x + size <= a + Z.of_nat n * size.
Proof.
  induction n as [|n IH]; intros a x; cbn [objects_from]; [by intros ?%elem_of_nil|]. intros [->|Hx]%elem_of_cons; [nia|]. specialize (IH _ _ Hx). nia.
Qed.
Lemma length_objects_from n : forall a, length (objects_from n a) = n.
Proof. induction n as [|n IH]; intros a; cbn; [done|]. by rewrite IH. Qed.
Lemma objects_from_apart n : forall a, pairwise apart (object <$> objects_from n a).
Proof.
  induction n as [|n IH]; intros a; [done|]. cbn. split; [|apply IH]. apply Forall_fmap, Forall_forall. intros x Hx%objects_from_in. left. cbn. lia.
Qed.

Lemma init_object_eval a w : (exists v, ow_pool w = ObjectPool size initial grow init v) ->
  init_object a w = Some (tt, OpWorld (ow_pool w) (ow_memory w) (ow_blocks w) (ow_inits w ++ if init then [a] else [])).
Proof. intros (v & E). unfold init_object. rewrite E. cbn. destruct init; [done|]. destruct w. cbn in *. by rewrite E, app_nil_r. Qed.

Lemma push_objects_eval n : forall w free a x q, (exists v, ow_pool w = ObjectPool size initial grow init v) -> stack w free (x ++ q) -> length x = (8 * n)%nat -> 0 < a -> a + Z.of_nat n * size < 2 ^ 64 ->
  exists w', push_objects n a w = Some (tt, w') /\ stack w' (free ++ objects_from n a) q /\ same_pool w w' /\ ow_inits w' = ow_inits w ++ if init then objects_from n a else [].
Proof.
  induction n as [|n IH]; intros w free a x q Hp Hs Hx Ha Hend; cbn [push_objects objects_from].
  { exists w. destruct x; [|done]. rewrite app_nil_r. split; [done|]. split; [done|]. split; [split; [|done]; exists (op_pool (ow_pool w)); by destruct (ow_pool w)|]. destruct init; by rewrite app_nil_r. }
  rewrite (bind_eval _ _ _ _ _ (init_object_eval a w Hp)). set (w1 := OpWorld _ _ _ _).
  assert (Hx8 : x = take 8 x ++ drop 8 x) by (by rewrite take_drop). rewrite Hx8, <- app_assoc in Hs.
  destruct (push_object_eval w1 free (take 8 x) (drop 8 x ++ q) a Hs) as (w2 & E2 & Hs2 & Hp2 & Hi2); [rewrite length_take; lia|]. rewrite (bind_eval _ _ _ _ _ E2). unfold op_self. rewrite (bind_eval _ _ _ _ _ eq_refl).
  assert (Hconf : exists v, ow_pool w2 = ObjectPool size initial grow init v) by (destruct Hp as [v E], Hp2 as [(v2 & E3) _]; exists v2; rewrite E3; cbn [w1 ow_pool]; by rewrite E).
  destruct Hconf as [v2 Ev2]. rewrite Ev2. cbn [op_object_size].
  assert (Hsplit : Z.of_nat (S n) * size = size + Z.of_nat n * size) by lia. assert (0 <= Z.of_nat n * size) by nia. rewrite u64_small by lia.
  destruct (IH w2 (free ++ [a]) (a + size) (drop 8 x) q) as (w3 & E3 & Hs3 & Hp3 & Hi3); [by exists v2|done|rewrite length_drop; lia|lia|lia|]. exists w3. split; [done|]. rewrite <- app_assoc in Hs3. split; [exact Hs3|]. split; [exact (same_pool_trans w1 w2 w3 Hp2 Hp3)|].
  rewrite Hi3, Hi2. cbn [w1 ow_inits]. rewrite <- app_assoc. by destruct init.
Qed.

(** [object_pool_grow] when [calloc] succeeds: the new objects are free. *)
Lemma object_pool_grow_eval w free used n a : op_inv w free used -> 0 < n -> n * size < 2 ^ 64 -> mmap_anon (ow_blocks w) (n * size) = Some a ->
  16 * (Z.of_nat (length (free ++ used)) + n) + VMBUF_HEADER <= limit ->
  exists w', object_pool_grow o stale n w = Some (0, w') /\ op_inv w' (free ++ objects_from (Z.to_nat n) a) used.
Proof.
  intros [Hp (q & (cap & Hv & Hc) & Hq) Hap Hbl Hin] Hn Hns Ha Hroom. pose proof (length_stack_bytes free) as Hl. unfold object_pool_grow, op_self. rewrite (bind_eval _ _ _ _ _ eq_refl). destruct Hp as [v Ep]. rewrite Ep. cbn [op_object_size].
  set (w1 := OpWorld (ow_pool w) (ow_memory w) ((a, n * size) :: ow_blocks w) (ow_inits w)). assert (E1 : calloc n size w = Some (a, w1)) by (unfold calloc; rewrite (proj2 (Z.ltb_lt _ _)) by lia; by rewrite Ha). rewrite (bind_eval _ _ _ _ _ E1).
  destruct (mmap_fresh (ow_blocks w) (n * size) a ltac:(by apply Z.mul_pos_pos) Ha) as (Ha0 & Hae & Hfr). pose proof (anon_growable o stale limit Hlimit Hcan) as Hg. rewrite !length_app in Hroom. rewrite u64_small by (unfold sizeof_ptr, VMBUF_HEADER in *; lia).
  destruct (alloc_eval o stale _ _ limit Hlimit _ _ _ _ _ (n * sizeof_ptr) Hv eq_refl Hc) as ([mem v2] & x & E2 & Hx & (cap2 & Hv2 & Hc2)); [unfold sizeof_ptr; lia|unfold sizeof_ptr, VMBUF_HEADER in *; rewrite length_app, Hl, Hq; lia|].
  rewrite (bind_eval _ _ _ _ _ (on_pool_eval _ w1 _ _ _ E2)). set (w2 := OpWorld _ mem _ _).
  assert (Hs2 : stack w2 free (take (8 * Z.to_nat n) (q ++ x) ++ drop (8 * Z.to_nat n) (q ++ x))) by (rewrite take_drop; exists cap2; rewrite app_assoc; split; [exact Hv2|lia]).
  assert (Hp2 : exists v, ow_pool w2 = ObjectPool size initial grow init v) by (cbn; rewrite Ep; by eexists).
  destruct (push_objects_eval (Z.to_nat n) w2 free a _ _ Hp2 Hs2) as (w3 & E3 & Hs3 & [(v3 & Ep3) Hb3] & Hi3); [rewrite length_take, length_app; unfold sizeof_ptr in Hx; lia|lia|rewrite Z2Nat.id by lia; lia|].
  rewrite (bind_eval _ _ _ _ _ E3). exists w3. split; [done|]. assert (Hperm : (free ++ objects_from (Z.to_nat n) a) ++ used ≡ₚ objects_from (Z.to_nat n) a ++ (free ++ used)) by (rewrite <- app_assoc; apply Permutation_app_swap_app).
  split.
  - exists v3. rewrite Ep3. destruct Hp2 as [v' ->]. done.
  - eexists. split; [exact Hs3|]. rewrite length_drop, length_app. unfold sizeof_ptr in Hx. lia.
  - eapply pairwise_perm; [exact apart_sym|apply fmap_Permutation; symmetry; exact Hperm|]. rewrite fmap_app. apply pairwise_app; [apply objects_from_apart|exact Hap|].
    apply Forall_fmap, Forall_forall. intros y Hy%objects_from_in. apply Forall_fmap. eapply Forall_impl; [exact Hbl|]. intros z (_ & b & Hb & Hz). rewrite Z2Nat.id in Hy by lia.
    pose proof (proj1 (Forall_forall _ _) Hfr b Hb) as Hab. unfold apart in *. cbn in *. lia.
  - rewrite Hb3. cbn [w2 w1 ow_blocks]. rewrite Hperm. apply Forall_app. split.
    + apply Forall_forall. intros y Hy%objects_from_in. rewrite Z2Nat.id in Hy by lia. split; [lia|]. exists (a, n * size). split; [by left|]. cbn. lia.
    + eapply Forall_impl; [exact Hbl|]. intros z (Hz & b & Hb & Hzb). split; [done|]. exists b. split; [by right|done].
  - intros Ei. rewrite Hi3, Hperm. cbn [w2 w1 ow_inits]. rewrite Ei. rewrite (Hin Ei). apply Permutation_app_comm.
Qed.

Lemma peek64_eval wl p q rl cap s a : vb wl (p ++ bytes64 a ++ q) rl cap s -> 0 <= a < 2 ^ 64 -> peek64 (Z.of_nat (length p)) s = Some (a, s).
Proof.
  intros Hs Ha. destruct (vb_header _ _ _ _ _ _ _ Hs) as (r & E & _ & _ & _ & Hl & Ht). unfold peek64. rewrite (bind_eval _ _ _ _ _ E).
  assert (Hb : r_bytes r = p ++ bytes64 a ++ (q ++ drop (length (p ++ bytes64 a ++ q)) (r_bytes r))) by (rewrite <- (take_drop (length (p ++ bytes64 a ++ q)) (r_bytes r)) at 1; rewrite Ht; by rewrite <- !app_assoc).
  assert (Hlen : Z.of_nat (length p) + 8 <= Z.of_nat (length (r_bytes r))) by (rewrite Hb, !length_app, length_bytes64; lia). rewrite (proj2 (Z.leb_le 0 _)), (proj2 (Z.leb_le _ _)) by lia. cbn [andb].
  unfold get64. rewrite Hb, subrange_app; [by rewrite le64_bytes64|done|by rewrite length_bytes64].
Qed.

Lemma rlocpos_stack w free q : stack w free q -> on_pool vmbuf_rlocpos w = Some (8 * Z.of_nat (length free), w).
Proof. intros (cap & Hv & _). unfold on_pool, vmbuf_rlocpos. rewrite bind_get. cbn. rewrite <- (vi_rloc _ _ _ _ _ _ _ Hv). by destruct w as [[] ? ? ?]. Qed.

(** Taking the last free object. *)
Lemma pop_object_eval w free a used : op_inv w (free ++ [a]) used ->
  exists w', (on_pool (vmbuf_rrewind sizeof_ptr);; rl ← on_pool vmbuf_rlocpos; on_pool (peek64 rl)) w = Some (a, w') /\ op_inv w' free (a :: used).
Proof.
  intros [Hp (q & (cap & Hv & Hc) & Hq) Hap Hbl Hin]. pose proof (vi_bounds _ _ _ _ _ _ _ Hv) as [Hcap _]. pose proof (length_stack_bytes free) as Hl. pose proof (vi_rloc _ _ _ _ _ _ _ Hv) as Hr. cbn [snd] in Hr.
  pose proof Hbl as Hbl'. rewrite <- app_assoc in Hbl'. apply Forall_app in Hbl' as [_ Hbl']. cbn in Hbl'. apply Forall_cons in Hbl' as [[Ha _] _].
  rewrite stack_bytes_snoc, <- app_assoc in Hv, Hc. assert (Hrew : u64 (vb_rloc (op_pool (ow_pool w)) - sizeof_ptr) = 8 * Z.of_nat (length free)).
  { rewrite Hr, length_app. unfold sizeof_ptr. cbn [length]. rewrite !length_app in Hc. rewrite u64_small by lia. lia. }
  apply (vb_rlocset _ _ _ _ _ (8 * Z.of_nat (length free))) in Hv. cbn [fst snd] in Hv. set (v := set_rloc (op_pool (ow_pool w)) (8 * Z.of_nat (length free))) in *.
  assert (E1 : vmbuf_rrewind sizeof_ptr (ow_memory w, op_pool (ow_pool w)) = Some (tt, (ow_memory w, v))) by (unfold v; rewrite <- Hrew; done). rewrite (bind_eval _ _ _ _ _ (on_pool_eval _ w _ _ _ E1)).
  set (w1 := OpWorld _ _ _ _). assert (Hs1 : stack w1 free (bytes64 a ++ q)) by (exists cap; split; [exact Hv|exact Hc]). rewrite (bind_eval _ _ _ _ _ (rlocpos_stack _ _ _ Hs1)).
  pose proof (peek64_eval _ _ _ _ _ _ a Hv ltac:(lia)) as E2. rewrite Hl in E2. replace (Z.of_nat (8 * length free)) with (8 * Z.of_nat (length free)) in E2 by lia.
  eexists. split; [exact (on_pool_eval _ w1 _ _ _ E2)|]. assert (Hperm : free ++ a :: used = (free ++ [a]) ++ used) by (by rewrite <- app_assoc). split; rewrite ?Hperm; try done.
  - destruct Hp as [v' Ep]. cbn. rewrite Ep. by eexists.
  - exists (bytes64 a ++ q). split; [exists cap; split; [exact Hv|exact Hc]|]. rewrite length_app, length_bytes64, Hq. cbn. lia.
Qed.

(** [object_pool_put] of an object that is in use. *)
Lemma object_pool_put_eval w free used used' a : op_inv w free used -> used ≡ₚ a :: used' -> exists w', object_pool_put a w = Some (tt, w') /\ op_inv w' (free ++ [a]) used'.
Proof.
  intros [Hp (q & Hs & Hq) Hap Hbl Hin] Hperm. pose proof (Permutation_length Hperm) as Hlen. cbn in Hlen. rewrite <- (take_drop 8 q) in Hs.
  destruct (push_object_eval w free (take 8 q) (drop 8 q) a Hs) as (w' & E & Hs' & [(v' & Ep') Hb] & Hi); [rewrite length_take; lia|]. exists w'. split; [done|].
  assert (Hall : (free ++ [a]) ++ used' ≡ₚ free ++ used) by (rewrite Hperm, <- app_assoc; done). split.
  - destruct Hp as [v Ep]. rewrite Ep', Ep. by eexists.
  - exists (drop 8 q). split; [done|]. rewrite length_drop. lia.
  - eapply pairwise_perm; [exact apart_sym|apply fmap_Permutation; symmetry; exact Hall|done].
  - rewrite Hall, Hb. done.
  - intros Ei. rewrite Hi, Hall. by apply Hin.
Qed.

(** [calloc] has memory for [n] more objects. *)
Definition can_calloc (w : op_world) (n : Z) : Prop := exists a, mmap_anon (ow_blocks w) (n * size) = Some a.

Lemma object_pool_get_eval w free used : op_inv w free used -> grow * size < 2 ^ 64 -> (vb_rloc (op_pool (ow_pool w)) = 0 -> can_calloc w grow) -> 16 * (Z.of_nat (length (free ++ used)) + grow) + VMBUF_HEADER <= limit ->
  exists a w' free', object_pool_get o stale w = Some (a, w') /\ op_inv w' free' (a :: used)
    /\ Z.of_nat (length (free' ++ a :: used)) <= Z.of_nat (length (free ++ used)) + grow /\ (free <> [] -> free = free' ++ [a]).
Proof.
  intros Hi Hgs Hcal Hroom. pose proof (oi_stack _ _ _ Hi) as (q & Hs & _). pose proof (oi_conf _ _ _ Hi) as (v & Ep). unfold object_pool_get. rewrite (bind_eval _ _ _ _ _ (rlocpos_stack _ _ _ Hs)). unfold op_self. rewrite (bind_eval _ _ _ _ _ eq_refl).
  assert (Hpop : forall w1 free1, op_inv w1 free1 used -> free1 <> [] -> exists a w' free', (on_pool (vmbuf_rrewind sizeof_ptr);; rl ← on_pool vmbuf_rlocpos; on_pool (peek64 rl)) w1 = Some (a, w') /\ op_inv w' free' (a :: used) /\ free1 = free' ++ [a]).
  { intros w1 free1 Hi1 Hne. destruct free1 as [|a free1 _] using rev_ind; [done|]. destruct (pop_object_eval w1 free1 a used Hi1) as (w' & E & Hi'). by exists a, w', free1. }
  destruct free as [|x free].
  - cbn [length Z.of_nat Z.mul Z.eqb]. destruct Hcal as [a Ha]. { destruct Hs as (cap & Hv & _). exact (vi_rloc _ _ _ _ _ _ _ Hv). } rewrite Ep. cbn [op_grow].
    destruct (object_pool_grow_eval w [] used grow a Hi Hgrow Hgs Ha Hroom) as (w1 & E1 & Hi1). rewrite (bind_eval _ _ _ _ _ E1). cbn [Z.ltb Z.compare].
    destruct (Hpop w1 _ Hi1) as (b & w' & free' & E2 & Hi' & Hf). { cbn [app]. pose proof (length_objects_from (Z.to_nat grow) a) as Hlo. intros E0. rewrite E0 in Hlo. cbn in Hlo. lia. }
    exists b, w', free'. split; [done|]. split; [done|]. split; [|done]. pose proof (f_equal length Hf) as Hlen. cbn [app] in Hlen. rewrite length_objects_from, length_app in Hlen. rewrite !length_app. cbn [length] in *. lia.
  - rewrite (proj2 (Z.eqb_neq _ 0)) by (cbn; lia). rewrite (bind_eval (mret 0) _ _ 0 w eq_refl). cbn [Z.ltb Z.compare]. destruct (Hpop w _ Hi) as (b & w' & free' & E2 & Hi' & Hf); [done|]. exists b, w', free'. split; [done|]. split; [done|].
    split; [|done]. rewrite Hf, !length_app. cbn [length]. lia.
Qed.

Lemma object_pool_init_eval w g0 : ow_pool w = ObjectPool size initial g0 init VMBUF_INITIALIZER -> grow = (if g0 =? 0 then 1 else g0) -> ow_inits w = [] -> 0 <= initial -> initial * size < 2 ^ 64 ->
  (forall n, sys_mmap o n = true) -> 16 * Z.max initial grow + VMBUF_HEADER <= limit -> (0 < initial -> can_calloc w initial) ->
  exists w' free, object_pool_init o stale w = Some (0, w') /\ op_inv w' free [] /\ Z.of_nat (length free) = initial.
Proof.
  intros Ep Eg Ei Hin Hins Hmap Hroom Hcal. unfold VMBUF_HEADER in Hroom. unfold object_pool_init, op_self. rewrite (bind_eval _ _ _ _ _ eq_refl). rewrite Ep. cbn [op_object_size op_grow op_initial_size op_init_object op_pool]. rewrite (proj2 (Z.eqb_neq size 0)) by lia. cbv zeta. rewrite <- Eg.
  set (w1 := OpWorld (ObjectPool size initial grow init VMBUF_INITIALIZER) (ow_memory w) (ow_blocks w) (ow_inits w)). rewrite (bind_eval _ _ _ tt w1) by done.
  set (n := u64 ((if initial =? 0 then grow else initial) * sizeof_ptr)). assert (Hn : 0 <= n <= 2 ^ 59) by (unfold n, sizeof_ptr; destruct (initial =? 0); rewrite u64_small; lia).
  destruct (init_eval o stale (ow_memory w) n Hn (Hmap _)) as ([mem v] & E1 & (cap & Hv & Hc)). rewrite (bind_eval _ _ _ _ _ (on_pool_eval _ w1 _ _ _ E1)). cbn [Z.ltb Z.compare]. set (w2 := OpWorld _ mem _ _).
  assert (Hi2 : op_inv w2 [] []). { split; cbn; [by eexists|exists []; split; [exists cap; split; [exact Hv|cbn in *; lia]|done]|done|constructor|intros _; by rewrite Ei]. }
  destruct (Z.ltb_spec 0 initial) as [Hpos|Hz]; [|exists w2, []; split; [done|]; split; [done|cbn; lia]].
  destruct (Hcal Hpos) as [a Ha]. destruct (object_pool_grow_eval w2 [] [] initial a Hi2 Hpos Hins Ha) as (w3 & E3 & Hi3); [cbn [app length]; unfold VMBUF_HEADER; lia|].
  exists w3, (objects_from (Z.to_nat initial) a). split; [done|]. split; [done|]. rewrite length_objects_from. lia.
Qed.

(** ** Use of a pool

    Objects are put back only once; [n] bounds the number of objects. *)
Inductive pool_uses : op_world -> list Z -> Z -> Prop :=
| uses_init w w' g0 : ow_pool w = ObjectPool size initial g0 init VMBUF_INITIALIZER -> grow = (if g0 =? 0 then 1 else g0) -> ow_inits w = [] -> (0 < initial -> can_calloc w initial) ->
    object_pool_init o stale w = Some (0, w') -> pool_uses w' [] initial
| uses_get w used n a w' : pool_uses w used n -> (vb_rloc (op_pool (ow_pool w)) = 0 -> can_calloc w grow) -> 16 * (n + grow) + VMBUF_HEADER <= limit ->
    object_pool_get o stale w = Some (a, w') -> pool_uses w' (a :: used) (n + grow)
| uses_put w used used' n a w' : pool_uses w used n -> used ≡ₚ a :: used' -> object_pool_put a w = Some (tt, w') -> pool_uses w' used' n.

Hypothesis (Hin : 0 <= initial) (Hins : initial * size < 2 ^ 64) (Hgs : grow * size < 2 ^ 64) (Hmap : forall n, sys_mmap o n = true) (Hroom0 : 16 * Z.max initial grow + VMBUF_HEADER <= limit).

Lemma uses_inv w used n : pool_uses w used n -> exists free, op_inv w free used /\ Z.of_nat (length (free ++ used)) <= n.
Proof.
  induction 1 as [w w' g0 Ep Eg Ei Hc E|w used n a w' _ (free & Hi & Hl) Hc Hr E|w used used' n a w' _ (free & Hi & Hl) Hp E].
  - destruct (object_pool_init_eval w g0 Ep Eg Ei Hin Hins Hmap Hroom0 Hc) as (w2 & free & E2 & Hi & Hl). rewrite E2 in E. injection E as <-. exists free. split; [done|]. rewrite app_nil_r. lia.
  - destruct (object_pool_get_eval w free used Hi Hgs Hc ltac:(lia)) as (b & w2 & free' & E2 & Hi' & Hl' & _). rewrite E2 in E. injection E as -> ->. exists free'. split; [done|lia].
  - destruct (object_pool_put_eval w free used used' a Hi Hp) as (w2 & E2 & Hi'). rewrite E2 in E. injection E as <-. exists (free ++ [a]). split; [done|]. rewrite Hp in Hl. rewrite !length_app in *. cbn in *. lia.
Qed.

(** Whatever the order in which objects are taken and put back, those in use are different,
    do not overlap, lie in allocated memory, and [init_object] was called once with each.
    [object_pool_get] gives one that is apart from those in use, unless [calloc] fails, and an
    object that was put back is the next one taken. *)
Theorem object_pool_objects_apart (w : op_world) (used : list Z) (n : Z) (Huses : pool_uses w used n) (Hroom : 16 * (n + grow) + VMBUF_HEADER <= limit) :
  pairwise apart (object <$> used)
  /\ Forall (fun a => exists b, b ∈ ow_blocks w /\ b.1 <= a /\ a + size <= b.1 + b.2) used
  /\ (init = true -> exists rest, ow_inits w ≡ₚ used ++ rest /\ pairwise apart (object <$> ow_inits w))
  /\ ((vb_rloc (op_pool (ow_pool w)) = 0 -> can_calloc w grow) -> exists a w', object_pool_get o stale w = Some (a, w') /\ Forall (apart (object a)) (object <$> used))
  /\ forall a used', used ≡ₚ a :: used' -> exists w1 w2, object_pool_put a w = Some (tt, w1) /\ object_pool_get o stale w1 = Some (a, w2).
Proof.
  destruct (uses_inv w used n Huses) as (free & Hi & Hl). pose proof (oi_apart _ _ _ Hi) as Hap.
  assert (Hswap : pairwise apart (object <$> (used ++ free))) by (eapply pairwise_perm; [exact apart_sym|apply fmap_Permutation, Permutation_app_comm|exact Hap]).
  split; [rewrite fmap_app in Hswap; by eapply pairwise_app_l|]. split; [|split; [|split]].
  - pose proof (oi_blocks _ _ _ Hi) as Hb. apply Forall_app in Hb as [_ Hb]. eapply Forall_impl; [exact Hb|]. by intros a (_ & ?).
  - intros Ei. exists free. split; [etrans; [exact (oi_inits _ _ _ Hi Ei)|apply Permutation_app_comm]|]. eapply pairwise_perm; [exact apart_sym|apply fmap_Permutation; symmetry; exact (oi_inits _ _ _ Hi Ei)|exact Hap].
  - intros Hc. destruct (object_pool_get_eval w free used Hi Hgs Hc ltac:(lia)) as (a & w' & free' & E & Hi' & _). exists a, w'. split; [done|]. pose proof (oi_apart _ _ _ Hi') as Ha.
    eapply (pairwise_perm apart apart_sym _ (object <$> (a :: used ++ free'))) in Ha; [|apply fmap_Permutation; rewrite Permutation_app_comm; done]. destruct Ha as [Ha _]. rewrite fmap_app in Ha. by apply Forall_app in Ha as [? _].
  - intros a used' Hp. destruct (object_pool_put_eval w free used used' a Hi Hp) as (w1 & E1 & Hi1). exists w1.
    assert (Hlen : Z.of_nat (length ((free ++ [a]) ++ used')) <= n) by (rewrite Hp in Hl; rewrite !length_app in *; cbn in *; lia).
    destruct (object_pool_get_eval w1 (free ++ [a]) used' Hi1 Hgs) as (b & w2 & free' & E2 & _ & _ & Hlast); [|lia|].
    + intros Hz. pose proof (oi_stack _ _ _ Hi1) as (q & (cap & Hv & _) & _). pose proof (vi_rloc _ _ _ _ _ _ _ Hv) as Hr. cbn [snd] in Hr. rewrite Hz, length_app in Hr. cbn in Hr. lia.
    + exists w2. split; [done|]. destruct (app_inj_tail _ _ _ _ (Hlast ltac:(by destruct free))) as [_ ->]. done.
Qed.
End Facts.

(** A pool of objects of 24 bytes, two at first: both are taken and one is put back. *)
Definition op_demo_empty : op_world := OpWorld (ObjectPool 24 2 3 true VMBUF_INITIALIZER) vb_world [] [].
Definition op_after {A} (m : OP A) (w : op_world) : op_world := match m w with Some (_, w) => w | None => w end.
Definition op_demo0 : op_world := op_after (object_pool_init os_all_ok (fun _ _ => 0)) op_demo_empty.
Definition op_demo1 : op_world := op_after (object_pool_get os_all_ok (fun _ _ => 0)) op_demo0.
Definition op_demo : op_world := op_after (object_pool_get os_all_ok (fun _ _ => 0)) op_demo1.

Lemma op_demo_uses : pool_uses os_all_ok (fun _ _ => 0) 24 2 3 true (2 ^ 20) op_demo [4096; 4120] 8.
Proof.
  assert (Hc : forall w n, mmap_anon (ow_blocks w) (n * 24) = Some (above (ow_blocks w)) -> can_calloc 24 w n) by (intros w n E; by exists (above (ow_blocks w))).
  apply (uses_get os_all_ok (fun _ _ => 0) 24 2 3 true (2 ^ 20) op_demo1 [4120] 5); [|intros _; apply Hc; vm_compute; reflexivity|unfold VMBUF_HEADER; lia|vm_compute; reflexivity].
  apply (uses_get os_all_ok (fun _ _ => 0) 24 2 3 true (2 ^ 20) op_demo0 [] 2); [|intros _; apply Hc; vm_compute; reflexivity|unfold VMBUF_HEADER; lia|vm_compute; reflexivity].
  apply (uses_init os_all_ok (fun _ _ => 0) 24 2 3 true (2 ^ 20) op_demo_empty op_demo0 3); [done|done|done|intros _; apply Hc; vm_compute; reflexivity|vm_compute; reflexivity].
Qed.

Lemma object_pool_objects_apart_witness : exists w1 w2, object_pool_put 4096 op_demo = Some (tt, w1) /\ object_pool_get os_all_ok (fun _ _ => 0) w1 = Some (4096, w2).
Proof.
  destruct (object_pool_objects_apart os_all_ok (fun _ _ => 0) 24 2 3 true (2 ^ 20) ltac:(lia) ltac:(lia) ltac:(lia) ltac:(by intros ? ? _) ltac:(lia) ltac:(lia) ltac:(lia) (fun _ => eq_refl) ltac:(unfold VMBUF_HEADER; lia)
    op_demo [4096; 4120] 8 op_demo_uses ltac:(unfold VMBUF_HEADER; lia)) as (_ & _ & _ & _ & Hlifo). apply (Hlifo 4096 [4120]). reflexivity.
Defined.
