(* ===== verification/Vmfile.v ===== *)
(** * Vmfile: a growing buffer mapped to a file ([include/vmfile.h], [src/_vmfile.c], [src/_vmbuf_impl.c])

    [src/_vmbuf_impl.c] is a template for buffers; [vmfile.h] instantiates it with a buffer
    that is the shared mapping of a file, which is cut to the written length when the buffer is
    closed.  Operations run in the state monad over the file system and the buffer. *)

From stdpp Require Import base numbers list gmap.
From Stdlib Require Import ZArith Lia.
From S2P Require Import Prelude Words Bytes Os Ringbuf Memalloc Vmbuf.

(** ** Data *)

(** [vf_buf] is NULL or the inode that is mapped. *)
Record vmfile := Vmfile {
  vf_buf : option Z;
  vf_capacity : Z;
  vf_read_loc : Z;
  vf_write_loc : Z;
  vf_fd : Z;
}.
Definition VMFILE_INITIALIZER : vmfile := Vmfile None 0 0 0 (-1).

Abbreviation F := (ST (fsys * vmfile)).
Definition self : F vmfile := fun s => Some (snd s, s).
Definition set_self (v : vmfile) : F unit := fun s => Some (tt, (fst s, v)).
Definition with_buf (v : vmfile) (b : option Z) (cap : Z) : vmfile := Vmfile b cap (vf_read_loc v) (vf_write_loc v) (vf_fd v).
Definition with_locs (v : vmfile) (r w : Z) : vmfile := Vmfile (vf_buf v) (vf_capacity v) r w (vf_fd v).
Definition with_fd (v : vmfile) (fd : Z) : vmfile := Vmfile (vf_buf v) (vf_capacity v) (vf_read_loc v) (vf_write_loc v) fd.

(** The bytes that can be accessed through [buf]: those of the mapping that are in the file. *)
Definition mapped : F (Z * list Z) := fun s =>
  match vf_buf (snd s) with
  | Some ino => match fs_data (fst s) !! ino with Some f => Some ((ino, f), s) | None => None end
  | None => None
  end.

Definition store (ino : Z) (f : list Z) : F unit := fun '(fs, v) =>
  Some (tt, (Fsys (fs_dir fs) (<[ino := f]> (fs_data fs)) (fs_fds fs) (fs_next fs), v)).

Definition vf_poke (ofs : Z) (l : list Z) : F unit :=
  v ← self; '(ino, f) ← mapped;
  if (0 <=? ofs) && (ofs + Z.of_nat (length l) <=? Z.min (vf_capacity v) (Z.of_nat (length f)))
  then store ino (splice f ofs l) else crash.

Definition vf_peek (ofs : Z) : F Z :=
  v ← self; '(_, f) ← mapped;
  if (0 <=? ofs) && (ofs <? Z.min (vf_capacity v) (Z.of_nat (length f))) then mret (nth (Z.to_nat ofs) f 0) else crash.

Section Ops.
Context (o : os).

(** ** The template ([src/_vmbuf_impl.c]) and the file functions ([src/_vmfile.c]) *)

Definition vmfile_make : F unit := set_self (Vmfile None 0 0 0 0).
Definition vmfile_reset : F unit := v ← self; set_self (with_locs v 0 0).

Definition vmfile_free : F Z :=
  vmfile_reset;; v ← self;
  match vf_buf v with
  | Some _ => if sys_munmap o (vf_capacity v) then set_self (with_buf v None 0);; mret 0 else mret (-1)
  | None => set_self (with_buf v None 0);; mret 0
  end.

Definition vmfile_free_most : F Z :=
  vmfile_reset;; v ← self;
  match vf_buf v with
  | Some _ =>
      if vf_capacity v >? RIBS_VM_PAGESIZE then
        if sys_munmap o (vf_capacity v - RIBS_VM_PAGESIZE) then set_self (with_buf v (vf_buf v) RIBS_VM_PAGESIZE);; mret 0 else mret (-1)
      else mret 0
  | None => mret 0
  end.

Definition vmfile_close : F Z :=
  v ← self;
  if vf_fd v <? 0 then mret 0 else
  r ← ftruncate o (vf_fd v) (vf_write_loc v);
  if r <? 0 then mret (-1) else
  vmfile_free;; v ← self;
  res ← close_fd o (vf_fd v);
  v ← self; set_self (with_fd v (-1));;
  mret res.

Definition vmfile_attachfd (fd initial_size : Z) : F Z :=
  r ← vmfile_close;
  if r <? 0 then mret (-1) else
  v ← self; set_self (with_fd v fd);;
  let initial_size := RIBS_VM_ALIGN initial_size in
  r ← ftruncate o fd initial_size;
  if r <? 0 then mret (-1) else
  i ← file_of fd; v ← self;
  match i with
  | Some ino =>
      if sys_mmap o initial_size
      then set_self (with_buf v (Some ino) initial_size);; vmfile_reset;; mret 0
      else set_self (with_buf v None (vf_capacity v));; mret (-1)
  | None => set_self (with_buf v None (vf_capacity v));; mret (-1)
  end.

Definition vmfile_init (filename : path) (initial_size : Z) : F Z :=
  fd ← sys_create o filename;
  if fd <? 0 then mret (-1) else vmfile_attachfd fd initial_size.

Definition vmfile_resize_to (new_capacity : Z) : F Z :=
  let new_capacity := RIBS_VM_ALIGN new_capacity in
  v ← self;
  r ← ftruncate o (vf_fd v) new_capacity;
  if r <? 0 then mret (-1) else
  match vf_buf v with
  | Some _ => if sys_mremap o (vf_capacity v) new_capacity then set_self (with_buf v (vf_buf v) new_capacity);; mret 0 else mret (-1)
  | None => mret (-1)
  end.

Definition vmfile_wavail : F Z := v ← self; mret (u64 (vf_capacity v - vf_write_loc v)).
Definition vmfile_ravail : F Z := v ← self; mret (u64 (vf_write_loc v - vf_read_loc v)).
(** Pointers are offsets from [buf]. *)
Definition vmfile_wloc : F Z := v ← self; mret (vf_write_loc v).
Definition vmfile_rloc : F Z := v ← self; mret (vf_read_loc v).
Definition vmfile_rlocpos : F Z := v ← self; mret (vf_read_loc v).
Definition vmfile_wlocpos : F Z := v ← self; mret (vf_write_loc v).
Definition vmfile_rlocset (ofs : Z) : F unit := v ← self; set_self (with_locs v ofs (vf_write_loc v)).
Definition vmfile_wlocset (ofs : Z) : F unit := v ← self; set_self (with_locs v (vf_read_loc v) ofs).
Definition vmfile_rrewind (by_ : Z) : F unit := v ← self; set_self (with_locs v (u64 (vf_read_loc v - by_)) (vf_write_loc v)).
Definition vmfile_wrewind (by_ : Z) : F unit := v ← self; set_self (with_locs v (vf_read_loc v) (u64 (vf_write_loc v - by_))).
Definition vmfile_capacity : F Z := v ← self; mret (vf_capacity v).
Definition vmfile_rseek (by_ : Z) : F unit := v ← self; set_self (with_locs v (u64 (vf_read_loc v + by_)) (vf_write_loc v)).
Definition vmfile_rreset : F unit := v ← self; set_self (with_locs v 0 (vf_write_loc v)).
Definition vmfile_wreset : F unit := v ← self; set_self (with_locs v (vf_read_loc v) 0).
Definition vmfile_num_elements (size_of_element : Z) : F Z := w ← vmfile_wlocpos; mret (w / size_of_element).

Definition vmfile_resize_by (by_ : Z) : F Z := v ← self; vmfile_resize_to (u64 (vf_capacity v + by_)).

Definition vmfile_resize_if_full : F Z :=
  v ← self; if vf_write_loc v =? vf_capacity v then vmfile_resize_to (u64 (Z.shiftl (vf_capacity v) 1)) else mret 0.

(** [do new_capacity <<= 1; while (new_capacity - write_loc <= n);] *)
Fixpoint double_capacity (fuel : nat) (new_capacity write_loc n : Z) : option Z :=
  match fuel with
  | O => None
  | S k =>
      let new_capacity := u64 (Z.shiftl new_capacity 1) in
      if u64 (new_capacity - write_loc) <=? n then double_capacity k new_capacity write_loc n else Some new_capacity
  end.

Definition vmfile_resize_no_check (n : Z) : F Z :=
  v ← self;
  match double_capacity RESIZE_ROUNDS (vf_capacity v) (vf_write_loc v) n with
  | Some c => vmfile_resize_to c
  | None => crash
  end.

Definition vmfile_resize_if_less (desired_size : Z) : F Z :=
  wa ← vmfile_wavail; if desired_size <=? wa then mret 0 else vmfile_resize_no_check desired_size.

Definition vmfile_unsafe_wseek (by_ : Z) : F unit := v ← self; set_self (with_locs v (vf_read_loc v) (u64 (vf_write_loc v + by_))).
Definition vmfile_wseek (by_ : Z) : F Z := vmfile_unsafe_wseek by_;; vmfile_resize_if_full.

Definition vmfile_alloc (n : Z) : F Z :=
  loc ← vmfile_wlocpos;
  r ← vmfile_resize_if_less n;
  if r <? 0 then mret (u64 (-1)) else
  r ← vmfile_wseek n;
  if r <? 0 then mret (u64 (-1)) else mret loc.

Definition vmfile_alloczero (n : Z) : F Z := loc ← vmfile_alloc n; vf_poke loc (replicate (Z.to_nat n) 0);; mret loc.

Definition vmfile_alloc_aligned (n : Z) : F Z :=
  v ← self; set_self (with_locs v (vf_read_loc v) (Z.land (u64 (vf_write_loc v + 7)) (u64 (Z.lnot 7))));; vmfile_alloc n.

Definition vmfile_allocptr (n : Z) : F Z := vmfile_alloc n.

(** [vsnprintf] into the buffer; [text] is what the format produces. *)
Definition vf_snprintf (ofs wav : Z) (text : option (list Z)) : F Z :=
  match text with
  | None => mret (-1)
  | Some t =>
      if Z.of_nat (length t) >? INT_MAX then mret (-1)
      else if 0 <? wav then vf_poke ofs (take (Z.to_nat (wav - 1)) t ++ [0]);; mret (Z.of_nat (length t))
      else mret (Z.of_nat (length t))
  end.

Fixpoint vmfile_vsprintf_loop (fuel : nat) (text : option (list Z)) : F Z :=
  match fuel with
  | O => crash
  | S k =>
      wav ← vmfile_wavail; w ← vmfile_wloc;
      n ← vf_snprintf w wav text;
      if n <? 0 then mret (-1)
      else if n <? wav then vmfile_wseek n;; mret 0
      else r ← vmfile_resize_no_check n; if r <? 0 then mret (-1) else vmfile_vsprintf_loop k text
  end.
Definition vmfile_vsprintf (text : option (list Z)) : F Z := vmfile_vsprintf_loop RESIZE_ROUNDS text.
Definition vmfile_sprintf (text : option (list Z)) : F Z := vmfile_vsprintf text.

Fixpoint vmfile_strcpy_loop (fuel : nat) (src : list Z) : F Z :=
  match fuel with
  | O => crash
  | S k =>
      w ← vmfile_wloc; av ← vmfile_wavail;
      let part := take (Z.to_nat av) src in
      vf_poke w part;;
      r ← vmfile_wseek (Z.of_nat (length part));
      if r <? 0 then mret (-1)
      else match drop (Z.to_nat av) src with
           | [] => w ← vmfile_wloc; vf_poke w [0];; mret 0
           | rest => vmfile_strcpy_loop k rest
           end
  end.
Definition vmfile_strcpy (src : list Z) : F Z := vmfile_strcpy_loop (S (length src)) src.

Definition vmfile_replace_last_if (s d : Z) : F Z :=
  w ← vmfile_wloc;
  if 0 <? w then
    b ← vf_peek (w - 1);
    if s =? b then vf_poke (w - 1) [d];; mret 0 else mret (-1)
  else mret (-1).

Definition vmfile_remove_last_if (c : Z) : F unit :=
  r ← vmfile_replace_last_if c 0; if r =? 0 then vmfile_wrewind 1 else mret tt.

Definition vmfile_chrcpy (c : Z) : F Z := w ← vmfile_wloc; vf_poke w [c];; vmfile_wseek 1.

(** The result of [vmfile_resize_if_less] is not used. *)
Definition vmfile_memcpy (src : list Z) : F Z :=
  vmfile_resize_if_less (Z.of_nat (length src));;
  w ← vmfile_wloc; vf_poke w src;; vmfile_wseek (Z.of_nat (length src)).

Definition vmfile_memset (c n : Z) : F unit := vf_poke 0 (replicate (Z.to_nat n) (u8 c)).

(** [text] is what the format produces. *)
Fixpoint vmfile_strftime (fuel : nat) (text : list Z) : F Z :=
  match fuel with
  | O => crash
  | S k =>
      wav ← vmfile_wavail; w ← vmfile_wloc;
      n ← (if Z.of_nat (length text) <? wav then vf_poke w (text ++ [0]);; mret (Z.of_nat (length text)) else mret 0);
      if n >? 0 then vmfile_wseek n;; mret 0
      else r ← vmfile_resize_by RIBS_VM_PAGESIZE; if r <? 0 then mret (-1) else vmfile_strftime k text
  end.

(** Input and output as for [vmbuf_read] and [vmbuf_write]. *)
Fixpoint vmfile_read (fuel : nat) (input : list (list Z)) (e : read_end) : F (Z * list (list Z)) :=
  match fuel with
  | O => crash
  | S k =>
      w ← vmfile_wloc; wavail ← vmfile_wavail;
      match input with
      | [] => mret (match e with Eof => 0 | Eagain => 1 | Eerror => -1 end, [])
      | piece :: rest =>
          let data := take (Z.to_nat wavail) piece in
          let input := match drop (Z.to_nat wavail) piece with [] => rest | p => p :: rest end in
          if Z.of_nat (length data) =? 0 then mret (0, input)
          else
            vf_poke w data;;
            r ← vmfile_wseek (Z.of_nat (length data));
            if r <? 0 then mret (-1, input)
            else if Z.of_nat (length data) <? wavail then mret (1, input)
            else vmfile_read k input e
      end
  end.

Fixpoint vmfile_write (accepts : list Z) : F (Z * list Z) :=
  rav ← vmfile_ravail;
  if rav >? 0 then
    match accepts with
    | [] => mret (0, [])
    | a :: accepts =>
        if a =? -1 then mret (0, [])
        else if a <? 0 then mret (-1, [])
        else
          v ← self; '(_, f) ← mapped;
          let out := subrange f (vf_read_loc v) (Z.min a rav) in
          if Z.min a rav >? 0 then
            vmfile_rseek (Z.min a rav);;
            '(res, written) ← vmfile_write accepts; mret (res, out ++ written)
          else mret (-1, [])
    end
  else mret (1, []).
End Ops.

Definition vmfile_swap (v1 v2 : vmfile) : vmfile * vmfile := (v2, v1).
