(* ===== verification/VmfileFacts.v ===== *)
(** * VmfileFacts: closing a vmfile leaves the written bytes in the file *)

From stdpp Require Import base numbers list gmap.
From Stdlib Require Import ZArith Lia.
From S2P Require Import Prelude Words Bytes Os Ringbuf Memalloc Vmbuf VmbufFacts Vmfile.

Section Buffer.
Context (o : os) (limit : Z) (fn : path) (ino fd : Z) (fs0 : fsys).
Hypothesis (Hlimit : limit <= 2 ^ 60) (Hgrow : can_grow_to o (limit + 4096)) (Htrunc : can_truncate_to o (limit + 4096)).
Hypothesis Hfd : 0 <= fd.

(** The file [fn] is mapped with [cap] bytes, the write position is [wl] and the contents
    starts with [p]. *)
Record vf_is (wl : Z) (p : list Z) (rl cap : Z) (s : fsys * vmfile) : Prop := {
  vf_self : snd s = Vmfile (Some ino) cap rl wl fd;
  vf_dir : fs_dir (fst s) !! fn = Some ino;
  vf_open : fs_fds (fst s) !! fd = Some ino;
  vf_data : exists f, fs_data (fst s) !! ino = Some f /\ Z.of_nat (length f) = cap /\ take (length p) f = p;
  vf_bounds : 0 < cap < 2 ^ 61;
  vf_frame : forall i, i <> ino -> fs_data (fst s) !! i = fs_data fs0 !! i;
}.

Lemma vf_is_prefix wl p q rl cap s : vf_is wl (p ++ q) rl cap s -> vf_is wl p rl cap s.
Proof.
  intros [? ? ? (f & ? & ? & Ht) ? ?]. split; auto. exists f. split; [done|]. split; [done|].
  eapply (prefix_mono _ (p ++ q)); [exact Ht|apply take_app_length].
Qed.

Lemma self_eval {B} (k : vmfile -> F B) s : (self ≫= k) s = k (snd s) s.
Proof. done. Qed.

Lemma wloc_eval wl p rl cap s : vf_is wl p rl cap s -> vmfile_wloc s = Some (wl, s).
Proof. intros Hs. unfold vmfile_wloc. by rewrite self_eval, (vf_self _ _ _ _ _ Hs). Qed.

Lemma vf_wavail_eval wl p rl cap s : vf_is wl p rl cap s -> 0 <= wl <= cap -> vmfile_wavail s = Some (cap - wl, s).
Proof.
  intros Hs Hwl. pose proof (vf_bounds _ _ _ _ _ Hs). unfold vmfile_wavail. rewrite self_eval, (vf_self _ _ _ _ _ Hs). cbn.
  by rewrite u64_small by lia.
Qed.

Lemma set_locs_eval wl p rl cap s wl' : vf_is wl p rl cap s ->
  exists s', set_self (with_locs (snd s) (vf_read_loc (snd s)) wl') s = Some (tt, s') /\ vf_is wl' p rl cap s'.
Proof.
  intros [Hs ? ? ? ? ?]. eexists. split; [reflexivity|]. split; cbn; auto. by rewrite Hs.
Qed.

Lemma mapped_eval wl p rl cap s : vf_is wl p rl cap s ->
  exists f, mapped s = Some ((ino, f), s) /\ fs_data (fst s) !! ino = Some f /\ Z.of_nat (length f) = cap /\ take (length p) f = p.
Proof.
  intros [Hs _ _ (f & Hf & Hr) _ _]. exists f. split; [|done]. unfold mapped. rewrite Hs. cbn. by rewrite Hf.
Qed.

Lemma splice_known (p q x l f : list Z) : length l = length x -> take (length (p ++ x ++ q)) f = p ++ x ++ q ->
  take (length (p ++ l ++ q)) (splice f (Z.of_nat (length p)) l) = p ++ l ++ q.
Proof.
  intros Hlen Ht. unfold splice. rewrite Nat2Z.id. rewrite <- (take_drop (length (p ++ x ++ q)) f), Ht.
  set (tl := drop _ f). rewrite <- app_assoc, take_app_length.
  replace (drop (length p + length l) (p ++ (x ++ q) ++ tl)) with (q ++ tl).
  2:{ rewrite <- app_assoc, Hlen, app_assoc, <- length_app. by rewrite drop_app_length. }
  rewrite !app_assoc, <- (app_assoc p l q). rewrite take_app_le by (rewrite !length_app; lia). apply take_ge. rewrite !length_app. lia.
Qed.

Lemma store_eval wl p rl cap s f q : vf_is wl p rl cap s -> Z.of_nat (length f) = cap -> take (length q) f = q ->
  exists s', store ino f s = Some (tt, s') /\ vf_is wl q rl cap s'.
Proof.
  intros [? ? ? ? ? Hfr] Hl Ht. destruct s as [fs v]. eexists. split; [reflexivity|]. split; cbn; auto; [exists f; by rewrite lookup_insert_eq|].
  intros. rewrite lookup_insert_ne by done. by apply Hfr.
Qed.

(** Rewriting bytes inside the known ones, and behind them. *)
Lemma vf_poke_inside wl p q x l rl cap s : vf_is wl (p ++ x ++ q) rl cap s -> length l = length x ->
  exists s', vf_poke (Z.of_nat (length p)) l s = Some (tt, s') /\ vf_is wl (p ++ l ++ q) rl cap s'.
Proof.
  intros Hs Hlen. destruct (mapped_eval _ _ _ _ _ Hs) as (f & E & Hf & Hl & Ht).
  assert (Hle : (length (p ++ x ++ q) <= length f)%nat) by (rewrite <- Ht at 1; rewrite length_take; lia). rewrite !length_app in Hle.
  unfold vf_poke. rewrite self_eval, (bind_eval _ _ _ _ _ E), (vf_self _ _ _ _ _ Hs). cbn [vf_capacity].
  rewrite (proj2 (Z.leb_le 0 _)), (proj2 (Z.leb_le _ _)) by lia. cbn [andb].
  apply (store_eval _ _ _ _ _ _ _ Hs); [rewrite length_splice; lia|]. by apply (splice_known p q x).
Qed.

Lemma vf_poke_eval wl p rl cap s l : vf_is wl p rl cap s -> Z.of_nat (length p) + Z.of_nat (length l) <= cap ->
  exists s', vf_poke (Z.of_nat (length p)) l s = Some (tt, s') /\ vf_is wl (p ++ l) rl cap s'.
Proof.
  intros Hs Hfit. destruct (mapped_eval _ _ _ _ _ Hs) as (f & E & Hf & Hl & Ht).
  set (x := subrange f (Z.of_nat (length p)) (Z.of_nat (length l))).
  assert (Hx : length x = length l) by (unfold x; rewrite length_subrange; lia).
  assert (Hs' : vf_is wl (p ++ x ++ []) rl cap s).
  { destruct Hs as [? ? ? ? ? ?]. split; auto. exists f. split; [done|]. split; [done|]. rewrite app_nil_r, length_app, Hx.
    rewrite <- (take_drop (length p) f) at 1. rewrite Ht, take_app_add. unfold x, subrange. by rewrite !Nat2Z.id. }
  destruct (vf_poke_inside _ _ _ _ l _ _ _ Hs' (eq_sym Hx)) as (s' & E' & H'). rewrite app_nil_r in H'. by exists s'.
Qed.

(** ** Growing *)

Lemma resize_to_eval wl p rl cap s n : vf_is wl p rl cap s -> cap <= n <= limit ->
  exists s', vmfile_resize_to o n s = Some (0, s') /\ vf_is wl p rl (RIBS_VM_ALIGN n) s'.
Proof.
  intros [Hs Hd Hop (f & Hf & Hl & Ht) Hb Hfr] Hn. destruct (vm_align_spec n ltac:(lia)) as [Ha _]. unfold RIBS_VM_PAGESIZE in Ha.
  destruct s as [fs v]. cbn in *. subst v. unfold vmfile_resize_to. rewrite self_eval. cbn [snd vf_fd vf_buf vf_capacity].
  set (n' := RIBS_VM_ALIGN n) in *. set (fs1 := Fsys (fs_dir fs) (alter (fun f => truncate f n') ino (fs_data fs)) (fs_fds fs) (fs_next fs)).
  assert (E : ftruncate o fd n' (fs, Vmfile (Some ino) cap rl wl fd) = Some (0, (fs1, Vmfile (Some ino) cap rl wl fd))).
  { unfold ftruncate. rewrite Hop, Htrunc by lia. done. }
  rewrite (bind_eval _ _ _ _ _ E). cbn [Z.ltb Z.compare]. rewrite Hgrow by lia.
  eexists. split; [reflexivity|]. split; cbn; auto; [|lia|intros; rewrite lookup_alter_ne by done; by apply Hfr]. exists (truncate f n').
  split; [by rewrite lookup_alter_eq, Hf|]. split; [rewrite length_truncate; lia|].
  unfold truncate. assert (length p <= length f)%nat by (rewrite <- Ht at 1; rewrite length_take; lia).
  rewrite take_app_le by (rewrite length_take; lia). rewrite take_take, Nat.min_l by lia. done.
Qed.

Definition vfile (c : list Z) (rl : Z) (s : fsys * vmfile) : Prop :=
  exists cap, vf_is (Z.of_nat (length c)) c rl cap s /\ Z.of_nat (length c) < cap.

Lemma vf_wseek_eval wl p rl cap s n : vf_is wl p rl cap s -> 0 <= wl -> 0 <= n -> wl + n <= cap -> 2 * (wl + n) <= limit ->
  exists s' cap', vmfile_wseek o n s = Some (0, s') /\ vf_is (wl + n) p rl cap' s' /\ wl + n < cap' /\ cap <= cap'.
Proof.
  intros Hs Hwl Hn Hle Hlim. pose proof (vf_bounds _ _ _ _ _ Hs). unfold vmfile_wseek.
  destruct (set_locs_eval wl p rl cap s (wl + n) Hs) as (s1 & E1 & Hs1).
  assert (vmfile_unsafe_wseek n s = Some (tt, s1)) as E.
  { unfold vmfile_unsafe_wseek. rewrite self_eval, <- E1, (vf_self _ _ _ _ _ Hs). cbn. by rewrite u64_small by lia. }
  rewrite (bind_eval _ _ _ _ _ E). unfold vmfile_resize_if_full. rewrite self_eval, (vf_self _ _ _ _ _ Hs1). cbn [vf_write_loc vf_capacity].
  destruct (Z.eqb_spec (wl + n) cap) as [Hfull|Hne]; [|exists s1, cap; split; [done|]; split; [done|lia]].
  rewrite Z.shiftl_mul_pow2, u64_small by lia.
  destruct (resize_to_eval _ _ _ _ _ (cap * 2 ^ 1) Hs1 ltac:(lia)) as (s2 & E2 & Hs2). destruct (vm_align_spec (cap * 2 ^ 1) ltac:(lia)) as [Ha _].
  exists s2, (RIBS_VM_ALIGN (cap * 2 ^ 1)). split; [done|]. split; [done|lia].
Qed.

(** The doubling ends above what is needed and not much above it. *)
Lemma double_capacity_spec wl n fuel : forall cap, 0 < cap <= wl + n -> 0 <= wl <= cap -> 0 <= n -> wl + n < 2 ^ 60 -> wl + n < cap * 2 ^ Z.of_nat fuel ->
  exists c, double_capacity fuel cap wl n = Some c /\ wl + n < c <= 2 * (wl + n).
Proof.
  induction fuel as [|k IH]; intros cap Hc Hwl Hn Hmax Hpow; [change (2 ^ Z.of_nat 0) with 1 in Hpow; lia|].
  rewrite Nat2Z.inj_succ, Z.pow_succ_r in Hpow by lia. cbn [double_capacity]. rewrite Z.shiftl_mul_pow2, (u64_small (cap * 2 ^ 1)) by lia. cbv zeta.
  rewrite u64_small by lia. destruct (Z.leb_spec (cap * 2 ^ 1 - wl) n); [apply IH; lia|].
  eexists. split; [done|lia].
Qed.

Lemma resize_no_check_eval wl p rl cap s n : vf_is wl p rl cap s -> 0 <= wl <= cap -> cap <= wl + n -> 2 * (wl + n) <= limit ->
  exists s' cap', vmfile_resize_no_check o n s = Some (0, s') /\ vf_is wl p rl cap' s' /\ wl + n < cap'.
Proof.
  intros Hs Hwl Hn Hlim. pose proof (vf_bounds _ _ _ _ _ Hs). unfold vmfile_resize_no_check. rewrite self_eval, (vf_self _ _ _ _ _ Hs). cbn [vf_capacity vf_write_loc].
  destruct (double_capacity_spec wl n RESIZE_ROUNDS cap) as (c & -> & Hc); [lia..| |].
  { unfold RESIZE_ROUNDS. change (2 ^ Z.of_nat 64) with (2 ^ 64). nia. }
  destruct (resize_to_eval _ _ _ _ _ c Hs ltac:(lia)) as (s' & E & Hs'). destruct (vm_align_spec c ltac:(lia)) as [Ha _].
  exists s', (RIBS_VM_ALIGN c). split; [done|]. split; [done|lia].
Qed.

Lemma vf_resize_if_less_eval wl p rl cap s n : vf_is wl p rl cap s -> 0 <= wl <= cap -> 0 <= n -> 2 * (wl + n) <= limit ->
  exists s' cap', vmfile_resize_if_less o n s = Some (0, s') /\ vf_is wl p rl cap' s' /\ wl + n <= cap' /\ wl < cap' \/ wl = cap.
Proof.
  intros Hs Hwl Hn Hlim. unfold vmfile_resize_if_less. rewrite (bind_eval _ _ _ _ _ (vf_wavail_eval _ _ _ _ _ Hs Hwl)).
  destruct (Z.leb_spec n (cap - wl)).
  - exists s, cap. destruct (Z.eq_dec wl cap); [by right|]. left. split; [done|]. split; [done|lia].
  - destruct (resize_no_check_eval _ _ _ _ _ n Hs Hwl ltac:(lia) Hlim) as (s' & cap' & E & Hs' & Hc). exists s', cap'. left. split; [done|]. split; [done|lia].
Qed.

(** ** Operations *)

Lemma vf_append_eval c rl cap s l : vf_is (Z.of_nat (length c)) c rl cap s -> Z.of_nat (length (c ++ l)) <= cap ->
  2 * Z.of_nat (length (c ++ l)) <= limit ->
  exists s', (w ← vmfile_wloc; vf_poke w l;; vmfile_wseek o (Z.of_nat (length l))) s = Some (0, s') /\ vfile (c ++ l) rl s'.
Proof.
  intros Hs Hle Hlim. rewrite (bind_eval _ _ _ _ _ (wloc_eval _ _ _ _ _ Hs)). rewrite length_app, Nat2Z.inj_add in *.
  destruct (vf_poke_eval _ c rl cap s l Hs Hle) as (s1 & E1 & Hs1). rewrite (bind_eval _ _ _ _ _ E1).
  destruct (vf_wseek_eval _ _ _ _ _ (Z.of_nat (length l)) Hs1 ltac:(lia) ltac:(lia) Hle Hlim) as (s2 & cap2 & E2 & Hs2 & Hc2 & _).
  exists s2. split; [done|]. exists cap2. by rewrite length_app, Nat2Z.inj_add.
Qed.

Lemma vf_memcpy_eval c rl s l : vfile c rl s -> 2 * Z.of_nat (length (c ++ l)) <= limit ->
  exists s', vmfile_memcpy o l s = Some (0, s') /\ vfile (c ++ l) rl s'.
Proof.
  intros (cap & Hs & Hc) Hlim. unfold vmfile_memcpy. pose proof Hlim as Hlim'. rewrite length_app, Nat2Z.inj_add in Hlim'.
  destruct (vf_resize_if_less_eval _ _ _ _ _ (Z.of_nat (length l)) Hs ltac:(lia) ltac:(lia) Hlim') as (s1 & cap1 & [(E1 & Hs1 & Hc1)|?]); [|lia].
  rewrite (bind_eval _ _ _ _ _ E1). apply (vf_append_eval c rl cap1); [done| |done]. rewrite length_app. lia.
Qed.

Lemma vf_chrcpy_eval c rl s b : vfile c rl s -> 2 * Z.of_nat (length (c ++ [b])) <= limit ->
  exists s', vmfile_chrcpy o b s = Some (0, s') /\ vfile (c ++ [b]) rl s'.
Proof. intros (cap & Hs & Hc) Hlim. apply (vf_append_eval c rl cap s [b]); [done| |done]. rewrite length_app. cbn. lia. Qed.

Lemma vf_strcpy_loop_eval fuel : forall src c rl s, (length src < fuel)%nat -> vfile c rl s -> 2 * Z.of_nat (length (c ++ src)) <= limit ->
  exists s', vmfile_strcpy_loop o fuel src s = Some (0, s') /\ vfile (c ++ src) rl s'.
Proof.
  induction fuel as [|k IH]; intros src c rl s Hf Hv Hlim; [lia|]. destruct Hv as (cap & Hs & Hc).
  cbn [vmfile_strcpy_loop]. rewrite (bind_eval _ _ _ _ _ (wloc_eval _ _ _ _ _ Hs)), (bind_eval _ _ _ _ _ (vf_wavail_eval _ _ _ _ _ Hs ltac:(lia))).
  cbv zeta. set (av := Z.to_nat (cap - Z.of_nat (length c))). rewrite length_app, Nat2Z.inj_add in Hlim.
  assert (Hpart : Z.of_nat (length c) + Z.of_nat (length (take av src)) <= cap) by (rewrite length_take; lia).
  destruct (vf_poke_eval _ c rl cap s (take av src) Hs Hpart) as (s1 & E1 & Hs1). rewrite (bind_eval _ _ _ _ _ E1).
  destruct (vf_wseek_eval _ _ _ _ _ (Z.of_nat (length (take av src))) Hs1 ltac:(lia) ltac:(lia) Hpart) as (s2 & cap2 & E2 & Hs2 & Hc2 & _);
    [rewrite length_take; lia|]. rewrite (bind_eval _ _ _ _ _ E2). cbn [Z.ltb Z.compare].
  assert (Hs2' : vf_is (Z.of_nat (length (c ++ take av src))) (c ++ take av src) rl cap2 s2) by (by rewrite length_app, Nat2Z.inj_add).
  destruct (drop av src) as [|b rest] eqn:Hd.
  - rewrite (bind_eval _ _ _ _ _ (wloc_eval _ _ _ _ _ Hs2')).
    assert (Hall : take av src = src) by (rewrite <- (take_drop av src) at 2; by rewrite Hd, app_nil_r). rewrite Hall in *.
    destruct (vf_poke_eval _ _ rl cap2 s2 [0] Hs2') as (s3 & E3 & Hs3); [rewrite length_app; cbn; lia|].
    rewrite (bind_eval _ _ _ _ _ E3). exists s3. split; [done|]. exists cap2. split; [by eapply vf_is_prefix|rewrite length_app; lia].
  - assert (Hlen : (length (take av src) + length (b :: rest) = length src)%nat) by (rewrite <- Hd, <- length_app, take_drop; done).
    assert (Hav : (0 < length (take av src))%nat) by (rewrite length_take; cbn in Hlen; lia).
    destruct (IH (b :: rest) (c ++ take av src) rl s2) as (s3 & E3 & Hs3);
      [lia|exists cap2; split; [done|rewrite length_app; lia]|rewrite !length_app; lia|].
    exists s3. split; [exact E3|]. by rewrite <- app_assoc, <- Hd, take_drop in Hs3.
Qed.

(** The text is written twice at most: the resize makes room for all of it. *)
Lemma vf_snprintf_eval c rl cap s t : vf_is (Z.of_nat (length c)) c rl cap s -> Z.of_nat (length c) < cap -> Z.of_nat (length t) <= INT_MAX ->
  exists s', vf_snprintf (Z.of_nat (length c)) (cap - Z.of_nat (length c)) (Some t) s = Some (Z.of_nat (length t), s')
    /\ vf_is (Z.of_nat (length c)) c rl cap s'
    /\ (Z.of_nat (length c) + Z.of_nat (length t) < cap -> vf_is (Z.of_nat (length c)) (c ++ t) rl cap s').
Proof.
  intros Hs Hc Ht. unfold vf_snprintf. rewrite Z.gtb_ltb, (proj2 (Z.ltb_ge _ _)), (proj2 (Z.ltb_lt 0 _)) by lia.
  set (l := take (Z.to_nat (cap - Z.of_nat (length c) - 1)) t).
  destruct (vf_poke_eval _ c rl cap s (l ++ [0]) Hs) as (s1 & E1 & Hs1); [subst l; rewrite length_app, length_take; cbn; lia|].
  rewrite (bind_eval _ _ _ _ _ E1). exists s1. split; [done|]. split; [by eapply vf_is_prefix|]. intros Hlt.
  rewrite app_assoc in Hs1. apply vf_is_prefix in Hs1. subst l. by rewrite take_ge in Hs1 by lia.
Qed.

Lemma vf_sprintf_fits c rl cap s t k : vf_is (Z.of_nat (length c)) c rl cap s -> Z.of_nat (length t) <= INT_MAX ->
  Z.of_nat (length c) + Z.of_nat (length t) < cap -> 2 * (Z.of_nat (length c) + Z.of_nat (length t)) <= limit ->
  exists s', vmfile_vsprintf_loop o (S k) (Some t) s = Some (0, s') /\ vfile (c ++ t) rl s'.
Proof.
  intros Hs Ht Hlt Hlim. cbn [vmfile_vsprintf_loop]. rewrite (bind_eval _ _ _ _ _ (vf_wavail_eval _ _ _ _ _ Hs ltac:(lia))), (bind_eval _ _ _ _ _ (wloc_eval _ _ _ _ _ Hs)).
  destruct (vf_snprintf_eval c rl cap s t Hs ltac:(lia) Ht) as (s1 & E1 & _ & Hs1). specialize (Hs1 Hlt).
  rewrite (bind_eval _ _ _ _ _ E1), (proj2 (Z.ltb_ge _ 0)), (proj2 (Z.ltb_lt _ _)) by lia.
  destruct (vf_wseek_eval _ _ _ _ _ (Z.of_nat (length t)) Hs1 ltac:(lia) ltac:(lia) ltac:(lia) ltac:(lia)) as (s2 & cap2 & E2 & Hs2 & Hc2 & _).
  rewrite (bind_eval _ _ _ _ _ E2). exists s2. split; [done|]. exists cap2. by rewrite length_app, Nat2Z.inj_add.
Qed.

Lemma vf_sprintf_loop_eval c rl s t k j : vfile c rl s -> k = S j -> Z.of_nat (length t) <= INT_MAX -> 2 * Z.of_nat (length (c ++ t)) <= limit ->
  exists s', vmfile_vsprintf_loop o (S k) (Some t) s = Some (0, s') /\ vfile (c ++ t) rl s'.
Proof.
  intros (cap & Hs & Hc) Hk Ht Hlim. rewrite length_app, Nat2Z.inj_add in Hlim.
  destruct (Z.lt_ge_cases (Z.of_nat (length c) + Z.of_nat (length t)) cap) as [Hlt|Hge]; [by eapply vf_sprintf_fits|].
  cbn [vmfile_vsprintf_loop]. rewrite (bind_eval _ _ _ _ _ (vf_wavail_eval _ _ _ _ _ Hs ltac:(lia))), (bind_eval _ _ _ _ _ (wloc_eval _ _ _ _ _ Hs)).
  destruct (vf_snprintf_eval c rl cap s t Hs ltac:(lia) Ht) as (s1 & E1 & Hs1 & _).
  rewrite (bind_eval _ _ _ _ _ E1), (proj2 (Z.ltb_ge _ 0)), (proj2 (Z.ltb_ge _ _)) by lia.
  destruct (resize_no_check_eval _ _ _ _ _ (Z.of_nat (length t)) Hs1 ltac:(lia) ltac:(lia) Hlim) as (s2 & cap2 & E2 & Hs2 & Hc2).
  rewrite (bind_eval _ _ _ _ _ E2). cbn [Z.ltb Z.compare]. rewrite Hk. by eapply vf_sprintf_fits.
Qed.

Lemma vf_sprintf_eval c rl s t : vfile c rl s -> Z.of_nat (length t) <= INT_MAX -> 2 * Z.of_nat (length (c ++ t)) <= limit ->
  exists s', vmfile_sprintf o (Some t) s = Some (0, s') /\ vfile (c ++ t) rl s'.
Proof. intros Hv Ht Hlim. exact (vf_sprintf_loop_eval c rl s t 63 62 Hv eq_refl Ht Hlim). Qed.

Lemma vf_alloczero_eval c rl s n : vfile c rl s -> 2 * Z.of_nat (length (c ++ replicate n 0)) <= limit ->
  exists s', vmfile_alloczero o (Z.of_nat n) s = Some (Z.of_nat (length c), s') /\ vfile (c ++ replicate n 0) rl s'.
Proof.
  intros (cap & Hs & Hc) Hlim. rewrite length_app, length_replicate, Nat2Z.inj_add in Hlim. unfold vmfile_alloczero.
  destruct (vf_resize_if_less_eval _ _ _ _ _ (Z.of_nat n) Hs ltac:(lia) ltac:(lia) ltac:(lia)) as (s1 & cap1 & [(E1 & Hs1 & Hc1)|?]); [|lia].
  destruct (vf_wseek_eval _ _ _ _ _ (Z.of_nat n) Hs1 ltac:(lia) ltac:(lia) ltac:(lia) ltac:(lia)) as (s2 & cap2 & E2 & Hs2 & Hc2 & _).
  assert (E : vmfile_alloc o (Z.of_nat n) s = Some (Z.of_nat (length c), s2)).
  { unfold vmfile_alloc. rewrite (bind_eval _ _ _ _ _ (wloc_eval _ _ _ _ _ Hs)), (bind_eval _ _ _ _ _ E1). cbn [Z.ltb Z.compare].
    by rewrite (bind_eval _ _ _ _ _ E2). }
  rewrite (bind_eval _ _ _ _ _ E).
  destruct (vf_poke_eval _ c rl cap2 s2 (replicate n 0) Hs2) as (s3 & E3 & Hs3); [rewrite length_replicate; lia|].
  rewrite Nat2Z.id, (bind_eval _ _ _ _ _ E3). exists s3. split; [done|]. exists cap2. rewrite length_app, length_replicate, Nat2Z.inj_add. done.
Qed.

Lemma vf_peek_eval wl p x q rl cap s : vf_is wl (p ++ x :: q) rl cap s -> vf_peek (Z.of_nat (length p)) s = Some (x, s).
Proof.
  intros Hs. destruct (mapped_eval _ _ _ _ _ Hs) as (f & E & _ & Hl & Ht). unfold vf_peek.
  rewrite self_eval, (bind_eval _ _ _ _ _ E), (vf_self _ _ _ _ _ Hs). cbn [vf_capacity].
  assert (length p < length f)%nat by (apply (f_equal length) in Ht; rewrite length_take, length_app in Ht; cbn in Ht; lia).
  rewrite (proj2 (Z.leb_le 0 _)), (proj2 (Z.ltb_lt _ _)) by lia. cbn [andb].
  rewrite <- (take_drop (length (p ++ x :: q)) f), Ht, Nat2Z.id, <- app_assoc. cbn [app]. rewrite app_nth2 by lia. by rewrite Nat.sub_diag.
Qed.

Lemma vf_remove_last_eval c rl s b : vfile c rl s -> exists s', vmfile_remove_last_if b s = Some (tt, s') /\ vfile (remove_last c b) rl s'.
Proof.
  intros (cap & Hs & Hc). pose proof (vf_bounds _ _ _ _ _ Hs). unfold vmfile_remove_last_if, remove_last.
  destruct c as [|x c0] using rev_ind; [|clear IHc0].
  - rewrite decide_False by done. exists s. split; [|by exists cap]. rewrite (bind_eval _ _ s (-1) s); [done|].
    unfold vmfile_replace_last_if. by rewrite (bind_eval _ _ _ _ _ (wloc_eval _ _ _ _ _ Hs)).
  - rewrite length_app in *. cbn [length] in *. rewrite last_snoc.
    destruct (vf_poke_inside _ c0 [] [x] [0] rl cap s Hs eq_refl) as (s1 & E1 & Hs1).
    assert (Hpre : vmfile_replace_last_if b 0 s = if b =? x then Some (0, s1) else Some (-1, s)).
    { unfold vmfile_replace_last_if. rewrite (bind_eval _ _ _ _ _ (wloc_eval _ _ _ _ _ Hs)), (proj2 (Z.ltb_lt _ _)) by lia.
      replace (Z.of_nat (length c0 + 1) - 1) with (Z.of_nat (length c0)) by lia.
      rewrite (bind_eval _ _ _ _ _ (vf_peek_eval _ _ _ _ _ _ _ Hs)). destruct (b =? x); [|done]. by rewrite (bind_eval _ _ _ _ _ E1). }
    destruct (Z.eqb_spec b x) as [->|Hne].
    + rewrite decide_True, removelast_last by done. rewrite (bind_eval _ _ s 0 s1) by exact Hpre. cbn [Z.eqb].
      destruct (set_locs_eval _ _ _ _ s1 (Z.of_nat (length c0)) Hs1) as (s2 & E2 & Hs2). exists s2. split.
      * unfold vmfile_wrewind. rewrite self_eval, <- E2, (vf_self _ _ _ _ _ Hs1). cbn [vf_write_loc vf_read_loc]. rewrite u64_small by lia.
        do 2 f_equal. lia.
      * exists cap. split; [by eapply vf_is_prefix|lia].
    + rewrite decide_False by congruence. rewrite (bind_eval _ _ s (-1) s) by exact Hpre. exists s. split; [done|].
      exists cap. rewrite length_app. done.
Qed.

(** ** Sequences of operations, as for [vmbuf] *)
Definition vf_exec (call : vb_call) : F Z :=
  match call with
  | VMemcpy l => vmfile_memcpy o l
  | VStrcpy l => vmfile_strcpy o l
  | VChrcpy b => vmfile_chrcpy o b
  | VSprintf t => vmfile_sprintf o (Some t)
  | VRemoveLast b => vmfile_remove_last_if b;; mret 0
  | VAllocZero n => vmfile_alloczero o (Z.of_nat n)
  end.

Fixpoint vf_run (calls : list vb_call) : F (list Z) :=
  match calls with
  | [] => mret []
  | call :: calls => r ← vf_exec call; rs ← vf_run calls; mret (r :: rs)
  end.

Lemma vf_exec_eval c rl s call : vfile c rl s -> vb_call_ok call -> 2 * (Z.of_nat (length c) + vb_call_size call) <= limit ->
  exists s', vf_exec call s = Some (vb_result c call, s') /\ vfile (vb_apply c call) rl s'.
Proof.
  intros Hv Hok Hlim. destruct call; cbn [vf_exec vb_result vb_apply vb_call_size vb_call_ok] in *.
  - apply vf_memcpy_eval; [done|]. rewrite length_app. lia.
  - apply vf_strcpy_loop_eval; [lia|done|]. rewrite length_app. lia.
  - apply vf_chrcpy_eval; [done|]. rewrite length_app. cbn. lia.
  - apply vf_sprintf_eval; [done|done|]. rewrite length_app. lia.
  - destruct (vf_remove_last_eval c rl s b Hv) as (s' & E & Hs'). exists s'. by rewrite (bind_eval _ _ _ _ _ E).
  - apply vf_alloczero_eval; [done|]. rewrite length_app, length_replicate. lia.
Qed.

Lemma vf_run_eval calls : forall c rl s, vfile c rl s -> Forall vb_call_ok calls -> 2 * (Z.of_nat (length c) + calls_size calls) <= limit ->
  exists s', vf_run calls s = Some (vb_results c calls, s') /\ vfile (foldl vb_apply c calls) rl s'.
Proof.
  induction calls as [|call calls IH]; intros c rl s Hv Hok Hlim; cbn [vf_run vb_results foldl]; [by exists s|].
  apply Forall_cons in Hok as [Hc Hok]. cbn [calls_size foldr] in Hlim. fold (calls_size calls) in Hlim.
  pose proof (calls_size_pos calls). pose proof (vb_apply_length c call).
  destruct (vf_exec_eval c rl s call Hv Hc ltac:(lia)) as (s1 & E1 & Hv1). rewrite (bind_eval _ _ _ _ _ E1).
  destruct (IH (vb_apply c call) rl s1 Hv1 Hok ltac:(lia)) as (s2 & E2 & Hv2). rewrite (bind_eval _ _ _ _ _ E2). by exists s2.
Qed.

(** ** Closing *)
Lemma vf_close_eval c rl s : vfile c rl s -> Z.of_nat (length c) <= limit -> (forall n, sys_munmap o n = true) -> sys_close o fd = true ->
  exists fs', vmfile_close o s = Some (0, (fs', Vmfile None 0 0 0 (-1)))
    /\ fs_dir fs' !! fn = Some ino /\ fs_data fs' !! ino = Some c /\ fs_fds fs' !! fd = None
    /\ (forall i, i <> ino -> fs_data fs' !! i = fs_data fs0 !! i).
Proof.
  intros (cap & [Hs Hd Hop (f & Hf & Hl & Ht) Hb Hfr] & Hc) Hlim Hun Hcl. destruct s as [fs v]. cbn in *. subst v.
  unfold vmfile_close. rewrite self_eval. cbn [snd vf_fd vf_write_loc]. rewrite (proj2 (Z.ltb_ge fd 0)) by lia.
  set (fs1 := Fsys (fs_dir fs) (alter (fun f => truncate f (Z.of_nat (length c))) ino (fs_data fs)) (fs_fds fs) (fs_next fs)).
  assert (E : ftruncate o fd (Z.of_nat (length c)) (fs, Vmfile (Some ino) cap rl (Z.of_nat (length c)) fd)
            = Some (0, (fs1, Vmfile (Some ino) cap rl (Z.of_nat (length c)) fd))).
  { unfold ftruncate. rewrite Hop, Htrunc by lia. done. }
  rewrite (bind_eval _ _ _ _ _ E). cbn [Z.ltb Z.compare].
  assert (E2 : vmfile_free o (fs1, Vmfile (Some ino) cap rl (Z.of_nat (length c)) fd) = Some (0, (fs1, Vmfile None 0 0 0 fd))).
  { unfold vmfile_free, vmfile_reset, self, set_self, mbind, ST_bind. cbn. by rewrite Hun. }
  rewrite (bind_eval _ _ _ _ _ E2), self_eval. cbn [snd vf_fd].
  assert (E3 : close_fd o fd (fs1, Vmfile None 0 0 0 fd) = Some (0, (Fsys (fs_dir fs) (fs_data fs1) (delete fd (fs_fds fs)) (fs_next fs), Vmfile None 0 0 0 fd))).
  { unfold close_fd. cbn. by rewrite Hop, Hcl. }
  rewrite (bind_eval _ _ _ _ _ E3), self_eval. cbn [snd].
  eexists. split; [reflexivity|]. cbn. split; [done|]. split; [|split; [by rewrite lookup_delete_eq|]].
  - rewrite lookup_alter_eq, Hf. cbn. f_equal. unfold truncate. rewrite Nat2Z.id.
    assert (length c <= length f)%nat by lia. replace (length c - length f)%nat with 0%nat by lia. by rewrite app_nil_r.
  - intros i Hi. rewrite lookup_alter_ne by done. by apply Hfr.
Qed.
End Buffer.

Lemma vf_init_eval (o : os) (fs : fsys) (fn : path) (size : Z) :
  0 < size <= 2 ^ 59 -> 0 <= sys_open o fn 0x42 -> can_truncate_to o (2 ^ 60) -> (forall n, sys_mmap o n = true) ->
  exists s, vmfile_init o fn size (fs, VMFILE_INITIALIZER) = Some (0, s)
    /\ vfile fn (fs_next fs) (sys_open o fn 0x42) fs [] 0 s.
Proof.
  intros Hsize Hopen Ht Hmap. destruct (vm_align_spec size ltac:(lia)) as [Ha _]. unfold RIBS_VM_PAGESIZE in Ha.
  unfold vmfile_init, sys_create. set (fd := sys_open o fn 0x42) in *. set (ino := fs_next fs). set (n := RIBS_VM_ALIGN size) in *.
  unfold mbind at 1, ST_bind at 1. rewrite (proj2 (Z.ltb_ge fd 0)) by lia. cbv zeta. rewrite (proj2 (Z.ltb_ge fd 0)) by lia.
  set (fs1 := Fsys _ _ _ _). unfold vmfile_attachfd. rewrite (bind_eval _ _ _ 0 (fs1, VMFILE_INITIALIZER)) by done. cbn [Z.ltb Z.compare].
  rewrite self_eval. cbn [snd]. rewrite (bind_eval _ _ _ tt (fs1, Vmfile None 0 0 0 fd)) by done. fold n. cbv zeta.
  set (fs2 := Fsys (fs_dir fs1) (alter (fun f => truncate f n) ino (fs_data fs1)) (fs_fds fs1) (fs_next fs1)).
  assert (E : ftruncate o fd n (fs1, Vmfile None 0 0 0 fd) = Some (0, (fs2, Vmfile None 0 0 0 fd))).
  { unfold ftruncate. cbn [fs1 fs_fds]. rewrite lookup_insert_eq, Ht by lia. done. }
  rewrite (bind_eval _ _ _ _ _ E). cbn [Z.ltb Z.compare].
  rewrite (bind_eval _ _ _ (Some ino) (fs2, Vmfile None 0 0 0 fd)) by (unfold file_of; cbn; by rewrite lookup_insert_eq).
  rewrite self_eval, Hmap. eexists. split; [reflexivity|]. exists n. cbn [length Z.of_nat]. split; [|lia].
  split; cbn; try done; try apply lookup_insert_eq; try lia.
  - exists (truncate [] n). rewrite lookup_alter_eq, lookup_insert_eq. split; [done|]. split; [rewrite length_truncate; lia|done].
  - intros i Hi. rewrite lookup_alter_ne, lookup_insert_ne by done. done.
Qed.

(** A file made by [vmfile_init], written by any sequence of appending, allocating and
    removing calls and closed by [vmfile_close] contains exactly the bytes that the same
    operations leave in a list; the calls return what they should and no other file changes. *)
Theorem vmfile_close_saves_list (o : os) (fs : fsys) (fn : path) (size limit : Z) (calls : list vb_call)
  (Hsize : 0 < size <= 2 ^ 59) (Hlimit : limit <= 2 ^ 59) (Hopen : 0 <= sys_open o fn 0x42)
  (Hgrow : can_grow_to o (2 ^ 60)) (Htrunc : can_truncate_to o (2 ^ 60)) (Hmap : forall n, sys_mmap o n = true)
  (Hunmap : forall n, sys_munmap o n = true) (Hclose : sys_close o (sys_open o fn 0x42) = true)
  (Hok : Forall vb_call_ok calls) (Hfits : 2 * calls_size calls <= limit) :
  exists s s' fs' ino, vmfile_init o fn size (fs, VMFILE_INITIALIZER) = Some (0, s)
    /\ vf_run o calls s = Some (vb_results [] calls, s')
    /\ vmfile_close o s' = Some (0, (fs', VMFILE_INITIALIZER))
    /\ fs_dir fs' !! fn = Some ino /\ fs_data fs' !! ino = Some (foldl vb_apply [] calls)
    /\ (forall i, i <> ino -> fs_data fs' !! i = fs_data fs !! i).
Proof.
  destruct (vf_init_eval o fs fn size Hsize Hopen Htrunc Hmap) as (s & E & Hv).
  assert (Hg : can_grow_to o (2 ^ 59 + 4096)) by (intros ? ? ?; apply Hgrow; lia).
  assert (Ht : can_truncate_to o (2 ^ 59 + 4096)) by (intros ? ? ?; apply Htrunc; lia).
  destruct (vf_run_eval o (2 ^ 59) fn (fs_next fs) (sys_open o fn 0x42) fs ltac:(lia) Hg Ht calls [] 0 s Hv Hok) as (s' & E' & Hv'); [cbn [length]; lia|].
  assert (Hlen : Z.of_nat (length (foldl vb_apply [] calls)) <= 0 + calls_size calls).
  { clear. change 0 with (Z.of_nat (length (@nil Z))) at 1. generalize (@nil Z). induction calls as [|call calls IH]; intros c; cbn [foldl calls_size foldr]; [lia|].
    specialize (IH (vb_apply c call)). pose proof (vb_apply_length c call). fold (calls_size calls). lia. }
  pose proof (calls_size_pos calls).
  destruct (vf_close_eval o (2 ^ 59) fn (fs_next fs) (sys_open o fn 0x42) fs Ht Hopen _ 0 s' Hv') as (fs' & E2 & Hd & Hf & _ & Hfr); [lia|done|done|].
  exists s, s', fs', (fs_next fs). done.
Qed.

Lemma vmfile_close_saves_list_witness :
  exists s s' fs' ino, vmfile_init os_all_ok [97] 100 (Fsys ∅ ∅ ∅ 1, VMFILE_INITIALIZER) = Some (0, s)
    /\ vf_run os_all_ok vb_demo s = Some ([0; 0; 0; 0; 4; 0], s')
    /\ vmfile_close os_all_ok s' = Some (0, (fs', VMFILE_INITIALIZER))
    /\ fs_dir fs' !! [97] = Some ino /\ fs_data fs' !! ino = Some ([104; 105; 32; 49; 0; 0] ++ replicate 5000 7).
Proof.
  destruct (vmfile_close_saves_list os_all_ok (Fsys ∅ ∅ ∅ 1) [97] 100 (2 ^ 20) vb_demo) as (s & s' & fs' & ino & H1 & H2 & H3 & H4 & H5 & _).
  - lia.
  - lia.
  - vm_compute. congruence.
  - by intros ? ? _.
  - by intros ? ? _.
  - done.
  - done.
  - done.
  - repeat constructor; done.
  - vm_compute. congruence.
  - exists s, s', fs', ino. split; [exact H1|]. split; [exact H2|]. split; [exact H3|]. split; [exact H4|exact H5].
Defined.
