(* ===== verification/Ds.v ===== *)
(** * Ds: columns in files ([include/ds.h], [include/ds_types.h], [include/ds_field.h], [include/ds_var_field.h],
    [src/ds_var_field.c], [src/_ds_var_field.c])

    A column of values of one size is a type code and the values.  A column of byte strings is a
    header, the strings, and a table of the offsets at which they start and the last one ends.
    Both are written by a [file_writer] and read from a mapping. *)

From stdpp Require Import base numbers list gmap.
From Stdlib Require Import ZArith Lia.
From S2P Require Import Prelude Words Bytes Os FileWriter Ringbuf FileMapper Mempool Memalloc Vmbuf VmbufFacts.

Inductive ds_type_t :=
  ds_type_int8_t | ds_type_uint8_t | ds_type_int16_t | ds_type_uint16_t | ds_type_int32_t | ds_type_uint32_t
| ds_type_int64_t | ds_type_uint64_t | ds_type_float | ds_type_double | ds_type_var | ds_type_array.

#[export] Instance ds_type_t_eq_dec : EqDecision ds_type_t.
Proof. solve_decision. Defined.

(** The value of the enumerator. *)
Definition ds_type (t : ds_type_t) : Z :=
  match t with
  | ds_type_int8_t => 0 | ds_type_uint8_t => 1 | ds_type_int16_t => 2 | ds_type_uint16_t => 3 | ds_type_int32_t => 4 | ds_type_uint32_t => 5
  | ds_type_int64_t => 6 | ds_type_uint64_t => 7 | ds_type_float => 8 | ds_type_double => 9 | ds_type_var => 10 | ds_type_array => 11
  end.

Definition SIZE_MAX : Z := 2 ^ 64 - 1.
Definition ds_type_to_size (t : Z) : Z :=
  if t =? 0 then 1 else if t =? 1 then 1 else if t =? 2 then 2 else if t =? 3 then 2 else if t =? 4 then 4 else if t =? 5 then 4
  else if t =? 6 then 8 else if t =? 7 then 8 else if t =? 8 then 4 else if t =? 9 then 8 else SIZE_MAX.

(** A 64-bit word read as a signed number. *)
Definition i64 (v : Z) : Z := if v <? 2 ^ 63 then v else v - 2 ^ 64.

(** ** Values of one size

    The type [T] of the template; a value is the list of its bytes. *)
Record ds_field := DsField {
  df_mem : option Z;
  df_num_elements : Z;
}.
Definition DS_FIELD_INITIALIZER : ds_field := DsField None 0.

Record ds_field_writer := DsFieldWriter {
  dfw_fw : file_writer;
  dfw_num_elements : Z;
}.
Definition DS_FIELD_WRITER_INITIALIZER : ds_field_writer := DsFieldWriter FILE_WRITER_INITIALIZER 0.

Section Field.
Context (o : os) (T : ds_type_t).
Let sizeof_T : Z := ds_type_to_size (ds_type T).

Abbreviation D := (ST (fsys * ds_field)).
Definition ds_self : D ds_field := fun s => Some (snd s, s).
Definition ds_set (v : ds_field) : D unit := fun s => Some (tt, (fst s, v)).

Definition ds_field_free : D Z :=
  v ← ds_self;
  match df_mem v with
  | None => mret 0
  | Some _ => ds_set (DsField None (df_num_elements v));; mret (if sys_munmap o (u64 (df_num_elements v * sizeof_T + 8)) then 0 else -1)
  end.

(** The first eight bytes of a mapping of a file. *)
Definition read_type (fd : Z) : D (option (Z * Z)) := fun '(fs, v) =>
  match fs_fds fs !! fd with
  | Some ino => match fs_data fs !! ino with Some f => if 8 <=? Z.of_nat (length f) then Some (Some (ino, i64 (get64 f 0)), (fs, v)) else None | None => None end
  | None => Some (None, (fs, v))
  end.

Definition ds_field_init (filename : path) : D Z :=
  ds_field_free;;
  fd ← sys_open_file o filename O_RDONLY_CLOEXEC;
  if fd <? 0 then mret (-1)
  else
    st ← fstat o fd;
    match st with
    | None => close_fd o fd;; mret (-1)
    | Some size =>
        if size <? 8 then close_fd o fd;; mret (-1)
        else if negb ((size - 8) mod sizeof_T =? 0) then close_fd o fd;; mret (-1)
        else if negb (sys_mmap o size) then close_fd o fd;; mret (-1)
        else
          t ← read_type fd;
          match t with
          | None => mret (-1)
          | Some (ino, t) =>
              close_fd o fd;;
              if negb (t =? ds_type T) then mret (-1)
              else ds_set (DsField (Some ino) ((size - 8) / sizeof_T));; mret 0
          end
    end.

(** The value at [index]; only an index in the file is accepted. *)
Definition ds_field_get (index : Z) : D (list Z) := fun s =>
  match df_mem (snd s) with
  | None => None
  | Some ino =>
      match fs_data (fst s) !! ino with
      | Some f => if (0 <=? index) && (8 + (index + 1) * sizeof_T <=? Z.of_nat (length f)) then Some (subrange f (8 + index * sizeof_T) sizeof_T, s) else None
      | None => None
      end
  end.
Definition ds_field_num_elements : D Z := v ← ds_self; mret (df_num_elements v).

Abbreviation DW := (ST (fsys * ds_field_writer)).
Definition on_fw {A} (m : FW A) : DW A := on_part dfw_fw (fun w fw => DsFieldWriter fw (dfw_num_elements w)) m.
Definition set_num (n : Z) : DW unit := fun '(fs, w) => Some (tt, (fs, DsFieldWriter (dfw_fw w) n)).
Definition get_num : DW Z := fun '(fs, w) => Some (dfw_num_elements w, (fs, w)).

Definition ds_field_writer_init (filename : path) : DW Z :=
  r ← on_fw (file_writer_init o filename);
  if r <? 0 then mret (-1) else set_num 0;; on_fw (file_writer_write o (bytes64 (ds_type T))).
Definition ds_field_writer_close : DW Z := on_fw (file_writer_close o).
Definition ds_field_writer_write (v : list Z) : DW Z := n ← get_num; set_num (u64 (n + 1));; on_fw (file_writer_write o v).
Definition ds_field_writer_num_elements : DW Z := get_num.
End Field.

(** ** Byte strings *)

(** [ofs_table] is an offset from the start of the mapping. *)
Record ds_var_field := DsVarField {
  dv_data : file_mapper;
  dv_ofs_table : Z;
  dv_num_elements : Z;
  dv_array_el_size : Z;
}.
Definition DS_VAR_FIELD_INITIALIZER : ds_var_field := DsVarField FILE_MAPPER_INITIALIZER 0 0 0.

Record ds_var_field_writer := DsVarFieldWriter {
  dw_ofs_table : vmbuf;
  dw_data : file_writer;
  dw_world : world;
}.

Section VarField.
Context `{address_space} (o : os) (stale : Z -> Z -> Z).

Abbreviation DV := (ST (fsys * ds_var_field)).
Definition on_mapper {A} (m : FM A) : DV A := on_part dv_data (fun v d => DsVarField d (dv_ofs_table v) (dv_num_elements v) (dv_array_el_size v)) m.
Definition dv_self : DV ds_var_field := fun s => Some (snd s, s).
Definition dv_set (v : ds_var_field) : DV unit := fun s => Some (tt, (fst s, v)).
Definition map64 (ofs : Z) : DV Z := l ← on_mapper (file_mapper_data ofs 8); mret (le64 l).

Definition DS_VAR_HEADER_SIZE : Z := 24.

Definition ds_var_field_free : DV Z := on_mapper (file_mapper_free o).
Definition refuse : DV Z := ds_var_field_free;; mret (-1).

Definition ds_var_field_init (filename : path) : DV Z :=
  r ← ds_var_field_free;
  if r <? 0 then mret (-1)
  else
    r ← on_mapper (file_mapper_init o filename);
    if r <? 0 then mret (-1)
    else
      file_size ← on_mapper file_mapper_size;
      if file_size <? DS_VAR_HEADER_SIZE then refuse
      else
        header_ofs ← map64 8;
        if file_size <=? header_ofs then refuse
        else
          let ofs_table_size := file_size - header_ofs in
          if (0 <? Z.land ofs_table_size 7) || (ofs_table_size <? 8) then refuse
          else
            v ← dv_self;
            let v := DsVarField (dv_data v) header_ofs (ofs_table_size / 8 - 1) (dv_array_el_size v) in
            dv_set v;;
            last ← map64 (header_ofs + 8 * dv_num_elements v);
            if negb (Z.land (u64 (last + 7)) (u64 (Z.lnot 7)) =? header_ofs) then refuse
            else
              t ← map64 0;
              if negb (i64 t =? ds_type ds_type_var) && negb (i64 t =? ds_type ds_type_array) then refuse
              else
                e ← map64 16; v ← dv_self;
                dv_set (DsVarField (dv_data v) (dv_ofs_table v) (dv_num_elements v) (if i64 t =? ds_type ds_type_array then ds_type_to_size (i64 e) else 0));;
                mret 0.

(** Where the string is, and its size. *)
Definition ds_var_field_get (index : Z) : DV (Z * Z) :=
  v ← dv_self;
  ofs ← map64 (dv_ofs_table v + 8 * index);
  next ← map64 (dv_ofs_table v + 8 * (index + 1));
  mret (ofs, u64 (next - ofs)).
Definition ds_var_field_get_array_ptr (index : Z) : DV (Z * Z) := ds_var_field_get index.
Definition ds_var_field_get_array (index : Z) : DV (Z * Z) :=
  '(ofs, size) ← ds_var_field_get index; v ← dv_self;
  if dv_array_el_size v =? 0 then crash else mret (ofs, size / dv_array_el_size v).
Definition ds_var_field_get_cstr (index : Z) : DV Z := v ← dv_self; map64 (dv_ofs_table v + 8 * index).
Definition ds_var_field_num_elements : DV Z := v ← dv_self; mret (dv_num_elements v).

Abbreviation DVW := (ST (fsys * ds_var_field_writer)).
Definition on_data {A} (m : FW A) : DVW A := on_part dw_data (fun w d => DsVarFieldWriter (dw_ofs_table w) d (dw_world w)) m.
Definition on_table {A} (m : M A) : DVW A := fun '(fs, w) =>
  match m (dw_world w, dw_ofs_table w) with Some (a, (wo, b)) => Some (a, (fs, DsVarFieldWriter b (dw_data w) wo)) | None => None end.

Definition ds_var_field_writer_new_row : DVW Z :=
  ofs ← on_data file_writer_wlocpos;
  on_table (w ← vmbuf_wlocpos; poke w (bytes64 ofs);; vmbuf_wseek o stale 8).

(** The type is stored negated until the file is complete. *)
Definition ds_var_field_writer_init2 (filename : path) (type element_type : Z) : DVW Z :=
  unlink filename;;
  r ← on_table (vmbuf_init o stale 4096);
  if r <? 0 then mret (-1)
  else
    r ← on_data (file_writer_init o filename);
    if r <? 0 then mret (-1)
    else
      r ← on_data (file_writer_write o (bytes64 (u64 (- type)) ++ bytes64 (u64 (-1)) ++ bytes64 (u64 element_type)));
      mret (if r <? 0 then -1 else 0).
Definition ds_var_field_writer_init (filename : path) : DVW Z := ds_var_field_writer_init2 filename (ds_type ds_type_var) (-1).
Definition ds_var_field_writer_init_array (filename : path) (element_type : Z) : DVW Z := ds_var_field_writer_init2 filename (ds_type ds_type_array) element_type.

Definition ds_var_field_writer_write (data : list Z) : DVW Z := ds_var_field_writer_new_row;; on_data (file_writer_write o data).
Definition ds_var_field_writer_append (data : list Z) : DVW Z := on_data (file_writer_write o data).

(** [vmbuf_data(ofs_table)], [vmbuf_wlocpos(ofs_table)] bytes of it. *)
Definition table_bytes : M (list Z) := w ← vmbuf_wlocpos; r ← vmbuf_get_header; mret (take (Z.to_nat w) (r_bytes r)).

(** Writing the type and the place of the table into the header, and going back to the end. *)
Definition finish_header (ofs_table ofs_last : Z) : FW Z :=
  r ← file_writer_lseek o 0 SEEK_SET;
  if r <? 0 then mret (-1)
  else
    header ← file_writer_wloc;
    t ← fw_peek64 header;
    fw_poke header (bytes64 (u64 (- t)));;
    fw_poke (header + 8) (bytes64 ofs_table);;
    file_writer_lseek o ofs_last SEEK_SET.

Definition ds_var_field_writer_close : DVW Z :=
  r ← ds_var_field_writer_new_row;
  if r <? 0 then mret (-1)
  else
    r ← on_data (file_writer_align o);
    if r <? 0 then mret (-1)
    else
      ofs_table ← on_data file_writer_wlocpos;
      table ← on_table table_bytes;
      r ← on_data (file_writer_write o table);
      if r <? 0 then mret (-1)
      else
        ofs_last ← on_data file_writer_wlocpos;
        r ← on_data (finish_header ofs_table ofs_last);
        if r <? 0 then mret (-1)
        else
          r ← on_data (file_writer_close o);
          if r <? 0 then mret (-1) else on_table vmbuf_free;; mret 0.
End VarField.

(** * What is written to a column is read from it

    A closed column is a file of a known form, and a file of that form gives back its values. *)

Lemma subrange_prefix (f z : list Z) x n : 0 <= x -> 0 <= n -> x + n <= Z.of_nat (length f) -> subrange (f ++ z) x n = subrange f x n.
Proof. intros. unfold subrange. rewrite drop_app_le by lia. apply take_app_le. rewrite length_drop. lia. Qed.

(** ** Mappings of whole files *)
Section Mapper.
Context (o : os) (fs : fsys) (fn : path) (ino : Z) (f : list Z).
Hypothesis (Hdir : fs_dir fs !! fn = Some ino) (Hdata : fs_data fs !! ino = Some f) (Hlen : Z.of_nat (length f) < 2 ^ 60).
Hypothesis (Hstat : forall fd, is_Some (sys_fstat o fd)) (Hmap : forall n, sys_mmap o n = true).

Lemma open_eval {X} (x : X) flags : 0 <= sys_open o fn flags ->
  sys_open_file o fn flags (fs, x) = Some (sys_open o fn flags, (Fsys (fs_dir fs) (fs_data fs) (<[sys_open o fn flags := ino]> (fs_fds fs)) (fs_next fs), x)).
Proof. intros Ho. unfold sys_open_file. by rewrite Hdir, (proj2 (Z.ltb_ge _ 0) Ho). Qed.

Lemma fstat_eval {X} (x : X) fds fd next : fds !! fd = Some ino ->
  fstat o fd (Fsys (fs_dir fs) (fs_data fs) fds next, x) = Some (Some (Z.of_nat (length f)), (Fsys (fs_dir fs) (fs_data fs) fds next, x)).
Proof. intros Hfd. unfold fstat. destruct (Hstat fd) as [sz ->]. cbn. rewrite Hfd. cbn. by rewrite Hdata. Qed.

Lemma close_eval {X} (x : X) fds fd next : fds !! fd = Some ino ->
  exists r, close_fd o fd (Fsys (fs_dir fs) (fs_data fs) fds next, x) = Some (r, (Fsys (fs_dir fs) (fs_data fs) (delete fd fds) next, x)).
Proof. intros Hfd. unfold close_fd. cbn [fs_fds]. rewrite Hfd. by eexists. Qed.

Lemma file_mapper_init_eval : f <> [] -> 0 <= sys_open o fn O_RDONLY_CLOEXEC ->
  exists fs', file_mapper_init o fn (fs, FILE_MAPPER_INITIALIZER) = Some (0, (fs', FileMapper (Some (ino, false)) (Z.of_nat (length f)))) /\ fs_data fs' = fs_data fs /\ fs_dir fs' = fs_dir fs.
Proof.
  intros Hne Hopen. unfold file_mapper_init, file_mapper_init2. rewrite (bind_eval (file_mapper_free o) _ _ 0 (fs, FILE_MAPPER_INITIALIZER)) by done. cbn [Z.ltb Z.compare].
  set (fd := sys_open o fn O_RDONLY_CLOEXEC) in *. set (fds := <[fd := ino]> (fs_fds fs)).
  rewrite (bind_eval (open_or_create o fn O_RDONLY_CLOEXEC) _ _ fd (Fsys (fs_dir fs) (fs_data fs) fds (fs_next fs), FILE_MAPPER_INITIALIZER)).
  2:{ unfold open_or_create. rewrite Hdir. rewrite bool_decide_eq_false_2 by done. cbn [andb]. by apply open_eval. }
  rewrite (proj2 (Z.ltb_ge _ 0) Hopen).
  assert (Hfd : fds !! fd = Some ino) by apply lookup_insert_eq. assert (Hl : Z.of_nat (length f) <> 0) by (destruct f; [done|cbn; lia]).
  destruct (close_eval (FileMapper (Some (ino, false)) (Z.of_nat (length f))) fds fd (fs_next fs) Hfd) as (r & Ec).
  rewrite (bind_eval (file_mapper_init_with_fd o fd 0) _ _ 0 (Fsys (fs_dir fs) (fs_data fs) fds (fs_next fs), FileMapper (Some (ino, false)) (Z.of_nat (length f)))).
  - cbn [Z.ltb Z.compare]. rewrite (bind_eval _ _ _ _ _ Ec). by eexists.
  - unfold file_mapper_init_with_fd. cbn [Z.eqb]. rewrite (bind_eval _ _ _ _ _ (fstat_eval _ fds fd _ Hfd)).
    rewrite (bind_eval (file_of fd) _ _ (Some ino) (Fsys (fs_dir fs) (fs_data fs) fds (fs_next fs), FILE_MAPPER_INITIALIZER)) by (unfold file_of; cbn [fst fs_fds]; by rewrite Hfd).
    rewrite (proj2 (Z.eqb_neq _ 0) Hl). by rewrite Hmap.
Qed.

Lemma file_mapper_data_eval fs' ofs n : fs_data fs' = fs_data fs -> 0 <= ofs -> 0 <= n -> ofs + n <= Z.of_nat (length f) ->
  let s := (fs', FileMapper (Some (ino, false)) (Z.of_nat (length f))) in file_mapper_data ofs n s = Some (subrange f ofs n, s).
Proof.
  intros Hfs Hofs Hn Hle. unfold file_mapper_data. cbn [fst snd fm_mem fm_size]. rewrite Hfs, Hdata, Z.min_id. destruct (vm_align_spec (Z.of_nat (length f)) ltac:(lia)) as [Ha _].
  rewrite !(proj2 (Z.leb_le _ _)) by lia. cbn [andb]. by rewrite subrange_prefix.
Qed.

(** The contents of a mapping of [file_mapper_init_null_terminated]. *)
Lemma null_terminated_eval : 0 <= sys_open o fn O_RDONLY_CLOEXEC ->
  exists s z, file_mapper_init_null_terminated o fn (fs, FILE_MAPPER_INITIALIZER) = Some (0, s) /\ 0 < z
    /\ fm_size (snd s) = Z.of_nat (length f) + z /\ file_mapper_data 0 (fm_size (snd s)) s = Some (f ++ replicate (Z.to_nat z) 0, s).
Proof.
  intros Hopen. unfold file_mapper_init_null_terminated. rewrite (bind_eval (file_mapper_free o) _ _ 0 (fs, FILE_MAPPER_INITIALIZER)) by done. cbn [Z.ltb Z.compare].
  rewrite (bind_eval _ _ _ _ _ (open_eval FILE_MAPPER_INITIALIZER _ Hopen)). set (fd := sys_open o fn O_RDONLY_CLOEXEC) in *. rewrite (proj2 (Z.ltb_ge _ 0) Hopen). set (fds := <[fd := ino]> (fs_fds fs)).
  assert (Hfd : fds !! fd = Some ino) by apply lookup_insert_eq. rewrite (bind_eval _ _ _ _ _ (fstat_eval _ fds fd _ Hfd)).
  rewrite (bind_eval (file_of fd) _ _ (Some ino) (Fsys (fs_dir fs) (fs_data fs) fds (fs_next fs), FILE_MAPPER_INITIALIZER)) by (unfold file_of; cbn [fst fs_fds]; by rewrite Hfd).
  cbv zeta. rewrite !Hmap. cbn [negb]. rewrite andb_false_r. destruct (vm_align_spec (Z.of_nat (length f)) ltac:(lia)) as [Ha _]. unfold RIBS_VM_PAGESIZE in *.
  set (a := RIBS_VM_ALIGN (Z.of_nat (length f))) in *. destruct (Z.eqb_spec a (Z.of_nat (length f))) as [E|E].
  - eexists _, 4096. rewrite u64_small, E by lia. split; [reflexivity|]. cbn [snd fm_size]. split; [lia|]. split; [lia|]. unfold file_mapper_data. cbn [fst snd fm_mem fm_size fs_data]. rewrite Hdata.
    rewrite !(proj2 (Z.leb_le _ _)) by lia. cbn [andb]. do 2 f_equal. unfold subrange. rewrite Z2Nat.inj_0, drop_0. replace (_ - Z.of_nat (length f)) with 4096 by lia. apply take_ge. rewrite length_app, length_replicate. lia.
  - eexists _, (a - Z.of_nat (length f)). split; [reflexivity|]. cbn [snd fm_size]. split; [lia|]. split; [lia|]. unfold file_mapper_data. cbn [fst snd fm_mem fm_size fs_data]. rewrite Hdata.
    assert (Haa : RIBS_VM_ALIGN a = a) by (apply vm_align_id; [lia|apply vm_align_spec; lia]). fold a. rewrite Haa, Z.min_id. rewrite !(proj2 (Z.leb_le _ _)) by lia. cbn [andb]. do 2 f_equal. unfold subrange. rewrite Z2Nat.inj_0, drop_0.
    apply take_ge. rewrite length_app, length_replicate. lia.
Qed.
End Mapper.

(** ** Values of one size *)
Definition field_size (T : ds_type_t) : Z := ds_type_to_size (ds_type T).
Definition scalar (T : ds_type_t) : Prop := field_size T <> SIZE_MAX.
(** The file of a closed column. *)
Definition field_file (T : ds_type_t) (vs : list (list Z)) : list Z := bytes64 (ds_type T) ++ concat vs.

Fixpoint field_run (o : os) (vs : list (list Z)) : ST (fsys * ds_field_writer) Z :=
  match vs with
  | [] => mret 0
  | v :: vs => r ← ds_field_writer_write o v; if r <? 0 then mret r else field_run o vs
  end.

Lemma field_size_pos T : 0 < field_size T.
Proof. by destruct T. Qed.
Lemma ds_type_range T : 0 <= ds_type T <= 11.
Proof. by destruct T. Qed.
Lemma ds_type_inj T T' : ds_type T = ds_type T' -> T = T'.
Proof. by destruct T, T'. Qed.
Lemma i64_small v : 0 <= v < 2 ^ 63 -> i64 v = v.
Proof. intros Hv. unfold i64. by rewrite (proj2 (Z.ltb_lt _ _)) by lia. Qed.

Lemma length_concat_same n (vs : list (list Z)) : Forall (fun v => length v = n) vs -> length (concat vs) = (length vs * n)%nat.
Proof. induction 1 as [|v vs Hv _ IH]; [done|]. cbn [concat length]. rewrite length_app, IH. lia. Qed.

Lemma concat_at {A} (vs : list (list A)) (i : nat) v : vs !! i = Some v -> concat vs = concat (take i vs) ++ v ++ concat (drop (S i) vs).
Proof. intros Hi. rewrite <- (take_drop_middle vs i v Hi) at 1. by rewrite concat_app. Qed.

Lemma set_num_eval {B} n (k : unit -> ST (fsys * ds_field_writer) B) s : (set_num n ≫= k) s = k tt (fst s, DsFieldWriter (dfw_fw (snd s)) n).
Proof. by destruct s. Qed.
Lemma get_num_eval {B} (k : Z -> ST (fsys * ds_field_writer) B) s : (get_num ≫= k) s = k (dfw_num_elements (snd s)) s.
Proof. by destruct s. Qed.

Section FieldWriter.
Context (o : os) (fn : path) (ino fd k limit : Z) (fs0 : fsys).
Hypothesis (Hk : 12 <= k <= 31) (Hlimit : limit <= 2 ^ 60) (Htrunc : can_truncate_to o limit) (Hmap : forall n, sys_mmap o n = true) (Hfd : 0 <= fd).
Let fwis := fw_is fn ino fd k fs0.

Lemma field_run_eval vs : forall c s, fwis c (fst s, dfw_fw (snd s)) -> 0 <= dfw_num_elements (snd s) ->
  Z.of_nat (length (c ++ concat vs)) + 2 ^ k <= limit -> dfw_num_elements (snd s) + Z.of_nat (length vs) < 2 ^ 64 ->
  exists s', field_run o vs s = Some (0, s') /\ fwis (c ++ concat vs) (fst s', dfw_fw (snd s')) /\ dfw_num_elements (snd s') = dfw_num_elements (snd s) + Z.of_nat (length vs).
Proof.
  induction vs as [|v vs IH]; intros c s Hs Hn Hlim Hnum; [exists s; cbn [concat]; rewrite app_nil_r; split; [done|]; split; [done|cbn; lia]|].
  cbn [field_run concat length] in *. rewrite app_assoc in *. destruct s as [fs w]. cbn [fst snd] in *.
  destruct (file_writer_write_eval o fn ino fd k limit fs0 Hk Hlimit Htrunc (Hmap _) c v (fs, dfw_fw w) Hs) as ([fs1 w1] & E1 & H1); [rewrite length_app in Hlim; lia|].
  rewrite (bind_eval (ds_field_writer_write o v) _ _ 0 (fs1, DsFieldWriter w1 (dfw_num_elements w + 1))).
  - cbn [Z.ltb Z.compare]. destruct (IH (c ++ v) (fs1, DsFieldWriter w1 (dfw_num_elements w + 1))) as (s2 & E2 & H2 & Hn2); cbn [fst snd dfw_fw dfw_num_elements] in *; [done|lia|done|lia|].
    exists s2. split; [done|]. split; [done|lia].
  - unfold ds_field_writer_write. rewrite get_num_eval, set_num_eval. cbn [fst snd]. rewrite u64_small by lia. unfold on_fw. by erewrite on_part_eval by exact E1.
Qed.
End FieldWriter.

Section FieldReader.
Context (o : os) (fs : fsys) (fn : path) (ino : Z) (T : ds_type_t) (vs : list (list Z)).
Let f := field_file T vs.
Hypothesis (Hdir : fs_dir fs !! fn = Some ino) (Hdata : fs_data fs !! ino = Some f).
Hypothesis (Hstat : forall fd, is_Some (sys_fstat o fd)) (Hmap : forall n, sys_mmap o n = true) (Hopen : 0 <= sys_open o fn O_RDONLY_CLOEXEC).
Hypothesis (Hsizes : Forall (fun v => Z.of_nat (length v) = field_size T) vs).

Lemma length_field_file : Z.of_nat (length f) = 8 + Z.of_nat (length vs) * field_size T.
Proof.
  pose proof (field_size_pos T). unfold f, field_file. rewrite length_app, length_bytes64. rewrite (length_concat_same (Z.to_nat (field_size T))); [lia|].
  eapply Forall_impl; [exact Hsizes|]. cbn. lia.
Qed.

(** [ds_field_init] as a column of any type: the header decides. *)
Lemma ds_field_init_eval T' : scalar T' -> exists fs', fs_data fs' = fs_data fs /\
  (T' = T /\ ds_field_init o T' fn (fs, DS_FIELD_INITIALIZER) = Some (0, (fs', DsField (Some ino) (Z.of_nat (length vs))))
   \/ T' <> T /\ ds_field_init o T' fn (fs, DS_FIELD_INITIALIZER) = Some (-1, (fs', DS_FIELD_INITIALIZER))).
Proof.
  intros HT'. pose proof length_field_file as Hl. pose proof (field_size_pos T). pose proof (field_size_pos T'). unfold ds_field_init.
  rewrite (bind_eval (ds_field_free o T') _ _ 0 (fs, DS_FIELD_INITIALIZER)) by done.
  rewrite (bind_eval _ _ _ _ _ (open_eval o fs fn ino Hdir DS_FIELD_INITIALIZER _ Hopen)). set (fd := sys_open o fn O_RDONLY_CLOEXEC) in *. rewrite (proj2 (Z.ltb_ge _ 0) Hopen).
  set (fds := <[fd := ino]> (fs_fds fs)). assert (Hfd : fds !! fd = Some ino) by apply lookup_insert_eq.
  rewrite (bind_eval _ _ _ _ _ (fstat_eval o fs ino f Hdata Hstat _ fds fd _ Hfd)). rewrite (proj2 (Z.ltb_ge _ 8)) by nia. fold (field_size T').
  destruct (close_eval o fs ino DS_FIELD_INITIALIZER fds fd (fs_next fs) Hfd) as (r & Ec). rewrite Hmap. cbn [negb].
  destruct (Z.eqb_spec ((Z.of_nat (length f) - 8) mod field_size T') 0) as [Ed|Ed]; cbn [negb].
  - assert (Hcode : i64 (get64 f 0) = ds_type T).
    { unfold get64, f, field_file. rewrite <- (app_nil_l (_ ++ _)). pose proof (ds_type_range T). rewrite subrange_app, le64_bytes64, i64_small; [done|lia|lia|done|]. by rewrite length_bytes64. }
    rewrite (bind_eval (read_type fd) _ _ (Some (ino, ds_type T)) (Fsys (fs_dir fs) (fs_data fs) fds (fs_next fs), DS_FIELD_INITIALIZER)).
    2:{ unfold read_type. cbn [fs_fds fs_data]. rewrite Hfd, Hdata, (proj2 (Z.leb_le 8 _)) by nia. by rewrite Hcode. }
    rewrite (bind_eval _ _ _ _ _ Ec). destruct (Z.eqb_spec (ds_type T) (ds_type T')) as [Et|Et]; cbn [negb].
    + eexists. split; [|left; split; [by apply ds_type_inj|]; rewrite (ds_type_inj _ _ Et) in *; rewrite Hl; replace (8 + _ - 8) with (Z.of_nat (length vs) * field_size T') by lia; rewrite Z.div_mul by lia; reflexivity]. done.
    + eexists. split; [|right; split; [congruence|reflexivity]]. done.
  - rewrite (bind_eval _ _ _ _ _ Ec). eexists. split; [|right; split; [|reflexivity]]; [done|]. intros ->. apply Ed. rewrite Hl. replace (8 + _ - 8) with (Z.of_nat (length vs) * field_size T) by lia. apply Z.mod_mul. lia.
Qed.

Lemma ds_field_get_eval fs' n (i : nat) v : fs_data fs' = fs_data fs -> vs !! i = Some v -> let s := (fs', DsField (Some ino) n) in ds_field_get T (Z.of_nat i) s = Some (v, s).
Proof.
  intros Hfs Hi s. pose proof length_field_file as Hl. pose proof (field_size_pos T). pose proof (lookup_lt_Some _ _ _ Hi) as Hlt. unfold ds_field_get, s. cbn [fst snd df_mem]. rewrite Hfs, Hdata. fold (field_size T).
  rewrite (proj2 (Z.leb_le 0 _)), (proj2 (Z.leb_le _ _)) by nia. cbn [andb]. do 2 f_equal. unfold f, field_file. rewrite (concat_at vs i v Hi), app_assoc.
  apply subrange_app; [|by rewrite (proj1 (Forall_lookup _ _) Hsizes i v Hi)]. rewrite length_app, length_bytes64, (length_concat_same (Z.to_nat (field_size T))).
  - rewrite length_take. nia.
  - apply Forall_take. eapply Forall_impl; [exact Hsizes|]. cbn. lia.
Qed.
End FieldReader.

(** A system that can write and read back files of up to [limit] bytes. *)
Class file_system_ok (o : os) (fn : path) (limit : Z) : Prop := {
  fok_limit : limit <= 2 ^ 60;
  fok_create : 0 <= sys_open o fn 0x42;
  fok_open : 0 <= sys_open o fn O_RDONLY_CLOEXEC;
  fok_truncate : can_truncate_to o limit;
  fok_mmap : forall n, sys_mmap o n = true;
  fok_munmap : forall n, sys_munmap o n = true;
  fok_stat : forall fd, is_Some (sys_fstat o fd);
}.

#[export] Instance all_ok_file_system fn : file_system_ok os_all_ok fn (2 ^ 60).
Proof. by split. Qed.

(** A closed column. *)
Lemma ds_field_written (o : os) (fs : fsys) (fn : path) (limit : Z) `{!file_system_ok o fn limit} (T : ds_type_t) (vs : list (list Z)) :
  Z.of_nat (length (field_file T vs)) + 2 ^ 31 <= limit -> Z.of_nat (length vs) < 2 ^ 64 ->
  exists s s' s2 ino, ds_field_writer_init o T fn (fs, DS_FIELD_WRITER_INITIALIZER) = Some (0, s) /\ field_run o vs s = Some (0, s')
    /\ ds_field_writer_num_elements s' = Some (Z.of_nat (length vs), s') /\ ds_field_writer_close o s' = Some (0, s2)
    /\ fs_dir (fst s2) !! fn = Some ino /\ fs_data (fst s2) !! ino = Some (field_file T vs).
Proof.
  intros Hfits Hnum. set (k := 20). assert (Hk : 12 <= k <= 31) by (unfold k; lia). pose proof (fok_limit (limit := limit)) as Hlimit. pose proof (bs_bounds k Hk) as Hbs.
  destruct (file_writer_init_eval o fn fs FILE_WRITER_INITIALIZER k limit) as ([fs0 w0] & E0 & H0); [done|reflexivity|done|apply fok_create|apply fok_truncate|lia|apply fok_mmap|].
  unfold field_file in Hfits. rewrite length_app in Hfits. set (hd := bytes64 (ds_type T)) in *.
  edestruct (file_writer_write_eval o fn (fs_next fs) (sys_open o fn 0x42) k limit fs) as ([fs1 w1] & E1 & H1); [done|done|apply fok_truncate|apply fok_mmap|exact H0|instantiate (1 := hd); rewrite app_nil_l; lia|].
  edestruct (field_run_eval o fn (fs_next fs) (sys_open o fn 0x42) k limit fs Hk Hlimit fok_truncate fok_mmap vs hd (fs1, DsFieldWriter w1 0)) as ([fs2 w2] & E2 & H2 & Hn2); [done|done|rewrite length_app; lia|done|].
  edestruct (file_writer_close_eval o fn (fs_next fs) (sys_open o fn 0x42) k limit fs) as ([fs3 w3] & E3 & _ & Hd3 & Hf3 & _); [done|apply fok_truncate|apply fok_create|exact H2|apply fok_munmap|rewrite length_app; lia|].
  exists (fs1, DsFieldWriter w1 0), (fs2, w2), (fs3, DsFieldWriter w3 (dfw_num_elements w2)), (fs_next fs). split.
  { unfold ds_field_writer_init, on_fw. erewrite bind_eval by (eapply on_part_eval; exact E0). cbn [Z.ltb Z.compare]. rewrite set_num_eval. cbn [fst snd]. by erewrite on_part_eval by exact E1. }
  split; [done|]. split; [unfold ds_field_writer_num_elements, get_num; cbn in *; by rewrite Hn2|]. split; [|done]. unfold ds_field_writer_close, on_fw. by erewrite on_part_eval by exact E3.
Qed.

(** A column written by [ds_field_writer_init], any number of [ds_field_writer_write] and
    [ds_field_writer_close] is opened by [ds_field_init], which finds the same number of values,
    and [ds_field_get] gives each of them back. *)
Theorem ds_field_roundtrip (o : os) (fs : fsys) (fn : path) (limit : Z) (T : ds_type_t) (vs : list (list Z))
  (Hos : file_system_ok o fn limit) (HT : scalar T) (Hsizes : Forall (fun v => Z.of_nat (length v) = field_size T) vs)
  (Hfits : 8 + Z.of_nat (length vs) * field_size T + 2 ^ 31 <= limit) :
  exists s s' s2 s3, ds_field_writer_init o T fn (fs, DS_FIELD_WRITER_INITIALIZER) = Some (0, s) /\ field_run o vs s = Some (0, s')
    /\ ds_field_writer_num_elements s' = Some (Z.of_nat (length vs), s') /\ ds_field_writer_close o s' = Some (0, s2)
    /\ ds_field_init o T fn (fst s2, DS_FIELD_INITIALIZER) = Some (0, s3) /\ ds_field_num_elements s3 = Some (Z.of_nat (length vs), s3)
    /\ forall (i : nat) v, vs !! i = Some v -> ds_field_get T (Z.of_nat i) s3 = Some (v, s3).
Proof.
  pose proof (length_field_file T vs Hsizes) as Hl. pose proof (fok_limit (limit := limit)). pose proof (field_size_pos T).
  destruct (ds_field_written o fs fn limit T vs) as (s & s' & s2 & ino & H1 & H2 & H3 & H4 & Hd & Hf); [lia|nia|].
  destruct (ds_field_init_eval o (fst s2) fn ino T vs Hd Hf fok_stat fok_mmap fok_open Hsizes T HT) as (fs' & Hfs & [[_ E]|[? _]]); [|done].
  exists s, s', s2. eexists. do 4 (split; [eassumption|]). split; [exact E|]. split; [done|]. intros i v Hi. by eapply ds_field_get_eval.
Qed.

Definition field_demo : list (list Z) := [[1; 0; 0; 0]; [2; 0; 0; 0]; [255; 255; 255; 255]].

Lemma ds_field_roundtrip_witness :
  exists s s' s2 s3, ds_field_writer_init os_all_ok ds_type_int32_t [97] (Fsys ∅ ∅ ∅ 1, DS_FIELD_WRITER_INITIALIZER) = Some (0, s)
    /\ field_run os_all_ok field_demo s = Some (0, s') /\ ds_field_writer_num_elements s' = Some (3, s') /\ ds_field_writer_close os_all_ok s' = Some (0, s2)
    /\ ds_field_init os_all_ok ds_type_int32_t [97] (fst s2, DS_FIELD_INITIALIZER) = Some (0, s3) /\ ds_field_num_elements s3 = Some (3, s3)
    /\ forall (i : nat) v, field_demo !! i = Some v -> ds_field_get ds_type_int32_t (Z.of_nat i) s3 = Some (v, s3).
Proof.
  apply (ds_field_roundtrip os_all_ok (Fsys ∅ ∅ ∅ 1) [97] (2 ^ 60) ds_type_int32_t field_demo (all_ok_file_system [97])).
  - by vm_compute.
  - by repeat constructor.
  - vm_compute. congruence.
Defined.

(** C36: a column is opened only as what it is: [ds_field_init] instantiated at any other type
    refuses the file of a column of type [T], whatever the values are, also when the sizes of
    the types agree. *)
Theorem ds_field_wrong_type (o : os) (fs : fsys) (fn : path) (limit : Z) (T T' : ds_type_t) (vs : list (list Z))
  (Hos : file_system_ok o fn limit) (HT' : scalar T') (Hne : T' <> T) (Hsizes : Forall (fun v => Z.of_nat (length v) = field_size T) vs)
  (Hfits : 8 + Z.of_nat (length vs) * field_size T + 2 ^ 31 <= limit) :
  exists s s' s2 s3, ds_field_writer_init o T fn (fs, DS_FIELD_WRITER_INITIALIZER) = Some (0, s) /\ field_run o vs s = Some (0, s')
    /\ ds_field_writer_close o s' = Some (0, s2)
    /\ ds_field_init o T' fn (fst s2, DS_FIELD_INITIALIZER) = Some (-1, s3) /\ snd s3 = DS_FIELD_INITIALIZER.
Proof.
  pose proof (length_field_file T vs Hsizes) as Hl. pose proof (fok_limit (limit := limit)). pose proof (field_size_pos T).
  destruct (ds_field_written o fs fn limit T vs) as (s & s' & s2 & ino & H1 & H2 & H3 & H4 & Hd & Hf); [lia|nia|].
  destruct (ds_field_init_eval o (fst s2) fn ino T vs Hd Hf fok_stat fok_mmap fok_open Hsizes T' HT') as (fs' & Hfs & [[? _]|[_ E]]); [done|].
  exists s, s', s2. eexists. do 3 (split; [eassumption|]). split; [exact E|done].
Qed.

Lemma ds_field_wrong_type_witness :
  exists s s' s2 s3, ds_field_writer_init os_all_ok ds_type_int32_t [97] (Fsys ∅ ∅ ∅ 1, DS_FIELD_WRITER_INITIALIZER) = Some (0, s)
    /\ field_run os_all_ok field_demo s = Some (0, s') /\ ds_field_writer_close os_all_ok s' = Some (0, s2)
    /\ ds_field_init os_all_ok ds_type_float [97] (fst s2, DS_FIELD_INITIALIZER) = Some (-1, s3) /\ snd s3 = DS_FIELD_INITIALIZER.
Proof.
  apply (ds_field_wrong_type os_all_ok (Fsys ∅ ∅ ∅ 1) [97] (2 ^ 60) ds_type_int32_t ds_type_float field_demo (all_ok_file_system [97])).
  - by vm_compute.
  - congruence.
  - by repeat constructor.
  - vm_compute. congruence.
Defined.
