(* ===== verification/DsVarFacts.v ===== *)
(** * DsVarFacts: columns of byte strings

    A row is written by [ds_var_field_writer_write] and any number of
    [ds_var_field_writer_append]; the closed file gives back the rows. *)

From stdpp Require Import base numbers list gmap.
From Stdlib Require Import ZArith Lia.
From S2P Require Import Prelude Words Bytes Os FileWriter Ringbuf FileMapper Mempool Memalloc Vmbuf VmbufFacts Ds.

(** ** The form of the file *)
Definition table (l : list Z) : list Z := concat (bytes64 <$> l).
Fixpoint offs (ofs : Z) (rows : list (list Z)) : list Z :=
  match rows with [] => [] | r :: rows => ofs :: offs (ofs + Z.of_nat (length r)) rows end.
Definition rows_end (rows : list (list Z)) : Z := DS_VAR_HEADER_SIZE + Z.of_nat (length (concat rows)).
Definition all_offs (rows : list (list Z)) : list Z := offs DS_VAR_HEADER_SIZE rows ++ [rows_end rows].
Definition rows_pad (rows : list (list Z)) : list Z := padding (Z.to_nat (rows_end rows)).
Definition table_at (rows : list (list Z)) : Z := rows_end rows + Z.of_nat (length (rows_pad rows)).
Definition var_header (type ofs element_type : Z) : list Z := bytes64 (u64 type) ++ bytes64 (u64 ofs) ++ bytes64 (u64 element_type).
Definition column_file (type element_type : Z) (rows : list (list Z)) : list Z :=
  var_header type (table_at rows) element_type ++ concat rows ++ rows_pad rows ++ table (all_offs rows).

Lemma length_table l : length (table l) = (8 * length l)%nat.
Proof. unfold table. rewrite (length_concat_same 8); [rewrite length_fmap; lia|]. apply Forall_fmap, Forall_forall. intros x _. apply length_bytes64. Qed.
Lemma table_app l l' : table (l ++ l') = table l ++ table l'.
Proof. unfold table. by rewrite fmap_app, concat_app. Qed.
Lemma table_one x : table [x] = bytes64 x.
Proof. unfold table. cbn [fmap list_fmap concat]. apply app_nil_r. Qed.
Lemma length_var_header t p e : length (var_header t p e) = 24%nat.
Proof. unfold var_header. by rewrite !length_app, !length_bytes64. Qed.

Lemma length_offs rows : forall ofs, length (offs ofs rows) = length rows.
Proof. induction rows as [|r rows IH]; intros ofs; [done|]. cbn [offs length]. by rewrite IH. Qed.
Lemma offs_app rows r : forall ofs, offs ofs (rows ++ [r]) = offs ofs rows ++ [ofs + Z.of_nat (length (concat rows))].
Proof.
  induction rows as [|r0 rows IH]; intros ofs; [cbn; do 2 f_equal; lia|]. cbn [offs app concat]. rewrite IH, length_app. cbn [app]. do 3 f_equal. lia.
Qed.
Lemma offs_lookup rows : forall ofs (i : nat), (i < length rows)%nat -> offs ofs rows !! i = Some (ofs + Z.of_nat (length (concat (take i rows)))).
Proof.
  induction rows as [|r rows IH]; intros ofs [|i] Hi; cbn in Hi; [lia|lia|cbn; f_equal; lia|]. cbn [offs lookup list_lookup take concat]. rewrite IH by lia. rewrite length_app. f_equal. lia.
Qed.
Lemma all_offs_lookup rows (i : nat) : (i <= length rows)%nat -> all_offs rows !! i = Some (DS_VAR_HEADER_SIZE + Z.of_nat (length (concat (take i rows)))).
Proof.
  intros Hi. unfold all_offs. destruct (decide (i < length rows)%nat) as [Hlt|Hge]; [rewrite lookup_app_l by (rewrite length_offs; lia); by apply offs_lookup|].
  replace i with (length (offs DS_VAR_HEADER_SIZE rows)) by (rewrite length_offs; lia). rewrite list_lookup_middle by done. rewrite length_offs, take_ge by lia. done.
Qed.
Lemma all_offs_range rows x : In x (all_offs rows) -> DS_VAR_HEADER_SIZE <= x <= rows_end rows.
Proof.
  intros [i Hi]%list_elem_of_In%list_elem_of_lookup. assert (Hl : (i <= length rows)%nat) by (apply lookup_lt_Some in Hi; unfold all_offs in Hi; rewrite length_app, length_offs in Hi; cbn in Hi; lia).
  rewrite all_offs_lookup in Hi by done. injection Hi as <-. unfold rows_end. rewrite <- (take_drop i rows) at 3. rewrite concat_app, length_app. lia.
Qed.

Lemma get64_table (pre l post : list Z) x v (i : nat) : l !! i = Some v -> 0 <= v < 2 ^ 64 -> x = Z.of_nat (length pre) + 8 * Z.of_nat i ->
  get64 (pre ++ table l ++ post) x = v.
Proof.
  intros Hi Hv ->. unfold get64. assert (Hb : (bytes64 <$> l) !! i = Some (bytes64 v)) by by rewrite list_lookup_fmap, Hi. unfold table. rewrite (concat_at _ _ _ Hb).
  rewrite <- !app_assoc, (app_assoc pre). rewrite subrange_app; [by apply le64_bytes64| |by rewrite length_bytes64].
  rewrite <- fmap_take. fold (table (take i l)). rewrite length_app, length_table, length_take. apply lookup_lt_Some in Hi. lia.
Qed.

(** What the reader relies on. *)
Section Form.
Context (type et : Z) (rows : list (list Z)).
Let f := column_file type et rows.
Hypothesis Hlen : rows_end rows < 2 ^ 60.

Lemma table_at_eq : table_at rows = (rows_end rows + 7) / 8 * 8.
Proof.
  unfold table_at, rows_pad. assert (Hp : 0 <= rows_end rows) by (unfold rows_end, DS_VAR_HEADER_SIZE; lia).
  pose proof (length_aligned (replicate (Z.to_nat (rows_end rows)) 0)) as H. unfold aligned in H. rewrite length_app, !length_replicate, Nat2Z.inj_add, Z2Nat.id in H by lia. exact H.
Qed.
Lemma length_column_file : Z.of_nat (length f) = table_at rows + 8 * (Z.of_nat (length rows) + 1).
Proof. unfold f, column_file, table_at, rows_end, DS_VAR_HEADER_SIZE, rows_pad, rows_end. rewrite !length_app, length_var_header, length_table. unfold all_offs. rewrite length_app, length_offs. cbn [length]. lia. Qed.
Lemma table_at_range : 24 <= rows_end rows <= table_at rows /\ table_at rows < 2 ^ 60 + 8.
Proof. unfold table_at, rows_pad, padding. rewrite length_replicate. pose proof (Nat.mod_upper_bound (8 - Z.to_nat (rows_end rows) mod 8) 8 ltac:(lia)). unfold rows_end, DS_VAR_HEADER_SIZE in *. lia. Qed.

Lemma column_header x v r : var_header type (table_at rows) et = table [u64 type; table_at rows; u64 et] -> [u64 type; table_at rows; u64 et] !! r = Some v -> 0 <= v < 2 ^ 64 -> x = 8 * Z.of_nat r -> get64 f x = v.
Proof. intros Hh Hr Hv Hx. unfold f, column_file. rewrite Hh, <- (app_nil_l (table _ ++ _)). eapply get64_table; [done|done|cbn; lia]. Qed.
Lemma header_is_table : var_header type (table_at rows) et = table [u64 type; table_at rows; u64 et].
Proof. pose proof table_at_range. unfold var_header, table. cbn [fmap list_fmap concat]. rewrite app_nil_r, (u64_small (table_at rows)) by lia. done. Qed.

Lemma column_start (i : nat) : (i <= length rows)%nat -> get64 f (table_at rows + 8 * Z.of_nat i) = DS_VAR_HEADER_SIZE + Z.of_nat (length (concat (take i rows))).
Proof.
  intros Hi. unfold f, column_file. rewrite !app_assoc. rewrite <- (app_nil_r (table _)). eapply get64_table; [by apply all_offs_lookup| |].
  - assert (Hin : In (DS_VAR_HEADER_SIZE + Z.of_nat (length (concat (take i rows)))) (all_offs rows)) by (apply list_elem_of_In, list_elem_of_lookup; exists i; by apply all_offs_lookup).
    apply all_offs_range in Hin. unfold DS_VAR_HEADER_SIZE in *. lia.
  - rewrite !length_app, length_var_header. unfold table_at, rows_end, DS_VAR_HEADER_SIZE. lia.
Qed.

Lemma column_row (i : nat) row : rows !! i = Some row ->
  subrange f (DS_VAR_HEADER_SIZE + Z.of_nat (length (concat (take i rows)))) (Z.of_nat (length row)) = row.
Proof.
  intros Hi. unfold f, column_file. rewrite (concat_at _ _ _ Hi), <- !app_assoc, app_assoc. apply subrange_app; [|done]. rewrite length_app, length_var_header. unfold DS_VAR_HEADER_SIZE. lia.
Qed.
End Form.

(** ** Writing *)
Lemma splice_block (a b b' r : list Z) x : length b' = length b -> x = Z.of_nat (length a) -> splice (a ++ b ++ r) x b' = a ++ b' ++ r.
Proof.
  intros Hl ->. unfold splice. rewrite Nat2Z.id, take_app_length, Hl. do 2 f_equal. rewrite drop_app_add. apply drop_app_length.
Qed.

Section Writer.
Context `{address_space} (o : os) (stale : Z -> Z -> Z) (fn : path) (limit : Z) `{!file_system_ok o fn limit} (Hgrow : can_grow_to o (limit + 4096)).
Context (ino fd k : Z) (fs0 : fsys).
Hypothesis (Hk : 12 <= k <= 31) (Hfd : 0 <= fd).
Let fwis := fw_is fn ino fd k fs0.

(** [c] is in the file, and the offsets [l] are in the table. *)
Definition dvw_is (c l : list Z) (s : fsys * ds_var_field_writer) : Prop :=
  fwis c (fst s, dw_data (snd s)) /\ vbuf _mem_funcs_anon_buf (fun _ => True) (table l) 0 (dw_world (snd s), dw_ofs_table (snd s)).

Lemma on_data_eval {A} (m : FW A) s a fs' d : m (fst s, dw_data (snd s)) = Some (a, (fs', d)) ->
  on_data m s = Some (a, (fs', DsVarFieldWriter (dw_ofs_table (snd s)) d (dw_world (snd s)))).
Proof. destruct s as [fs w]. intros E. unfold on_data. cbn [fst snd] in *. by erewrite on_part_eval by exact E. Qed.
Lemma on_table_eval {A} (m : M A) s a wo b : m (dw_world (snd s), dw_ofs_table (snd s)) = Some (a, (wo, b)) ->
  on_table m s = Some (a, (fst s, DsVarFieldWriter b (dw_data (snd s)) wo)).
Proof. destruct s as [fs w]. intros E. unfold on_table. cbn [fst snd] in *. by rewrite E. Qed.

Lemma wlocpos_data c l s : dvw_is c l s -> on_data file_writer_wlocpos s = Some (Z.of_nat (length c), s).
Proof.
  destruct s as [fs [tb d wo]]. intros [(base & [Hs _ _ _ _ _] & _) _]. cbn [fst snd dw_data] in *. rewrite (on_data_eval _ _ (Z.of_nat (length c)) fs d); [done|].
  cbn [fst snd dw_data]. unfold file_writer_wlocpos. rewrite fw_self_eval. cbn [snd]. by rewrite Hs.
Qed.

Lemma new_row_eval c l s : dvw_is c l s -> 16 * (Z.of_nat (length l) + 1) + 16 <= limit ->
  exists s', ds_var_field_writer_new_row o stale s = Some (0, s') /\ dvw_is c (l ++ [Z.of_nat (length c)]) s'.
Proof.
  intros Hs Hlim. unfold ds_var_field_writer_new_row. rewrite (bind_eval _ _ _ _ _ (wlocpos_data c l s Hs)). destruct Hs as [Hd (cap & Hv & Hroom)].
  pose proof (anon_growable o stale limit fok_limit Hgrow) as Hg. destruct (vi_bounds _ _ _ _ _ _ _ Hv) as [Hc Hc8]. rewrite length_table in *.
  assert (Hcap : 8 * Z.of_nat (length l) + 8 <= cap) by (pose proof (Z.div_mod cap 8 ltac:(lia)); lia).
  assert (Hv' : vb_is _mem_funcs_anon_buf (fun _ => True) (Z.of_nat (length (table l))) (table l) 0 cap (dw_world (snd s), dw_ofs_table (snd s))) by by rewrite length_table.
  destruct (append_eval o stale _ _ limit fok_limit (table l) 0 cap _ (bytes64 (Z.of_nat (length c))) Hv') as ([wo b] & E & Hb).
  - rewrite length_app, length_table, length_bytes64. lia.
  - rewrite length_app, length_table, length_bytes64. unfold VMBUF_HEADER. lia.
  - rewrite length_bytes64 in E. change (Z.of_nat 8) with 8 in E. rewrite (on_table_eval _ _ _ _ _ E). eexists. split; [done|]. split; [done|]. cbn [fst snd dw_world dw_ofs_table]. by rewrite table_app, table_one.
Qed.

Lemma append_row_eval c l s d : dvw_is c l s -> Z.of_nat (length (c ++ d)) + 2 ^ 31 <= limit ->
  exists s', ds_var_field_writer_append o d s = Some (0, s') /\ dvw_is (c ++ d) l s'.
Proof.
  intros [Hd Hv] Hlim. pose proof (bs_bounds k Hk). destruct (file_writer_write_eval o fn ino fd k limit fs0 Hk fok_limit fok_truncate (fok_mmap _) c d _ Hd) as ([fs' d'] & E & Hd'); [lia|].
  unfold ds_var_field_writer_append. rewrite (on_data_eval _ _ _ _ _ E). eexists. split; [done|]. split; done.
Qed.

Lemma write_row_eval c l s d : dvw_is c l s -> 16 * (Z.of_nat (length l) + 1) + 16 <= limit -> Z.of_nat (length (c ++ d)) + 2 ^ 31 <= limit ->
  exists s', ds_var_field_writer_write o stale d s = Some (0, s') /\ dvw_is (c ++ d) (l ++ [Z.of_nat (length c)]) s'.
Proof.
  intros Hs Hl Hlim. destruct (new_row_eval c l s Hs Hl) as (s1 & E1 & H1). unfold ds_var_field_writer_write. rewrite (bind_eval _ _ _ _ _ E1). by apply append_row_eval.
Qed.

Lemma finish_header_eval t u rest ofs s : 0 <= t < 2 ^ 64 -> fwis (bytes64 t ++ bytes64 u ++ rest) s -> Z.of_nat (length rest) + 16 <= limit ->
  exists s', finish_header o ofs (Z.of_nat (length (bytes64 t ++ bytes64 u ++ rest))) s = Some (0, s') /\ fwis (bytes64 (u64 (- t)) ++ bytes64 ofs ++ rest) s'.
Proof.
  intros Ht (base & [Hs (Hb & Hl & Hm) Hd Hdir Ho Hfr] & Hroom) Hlim. pose proof (bs_bounds k Hk) as Hbs. pose proof (fok_limit (limit := limit)) as Hlimit. destruct s as [fs v]. cbn [fst snd] in *. subst v.
  set (n := Z.of_nat (length (bytes64 t ++ bytes64 u ++ rest))) in *. rewrite app_nil_r in *. cbn [app] in *.
  assert (Hn : n = 16 + Z.of_nat (length rest)) by (unfold n; rewrite !length_app, !length_bytes64; lia). set (cap := base + 2 ^ k) in *.
  set (z := replicate _ 0) in Hd. rewrite <- !app_assoc in Hd. assert (Hbase : n / 2 ^ k * 2 ^ k = base).
  { rewrite (Z.div_mod base (2 ^ k)), Hm, Z.add_0_r by lia. rewrite (Z.mul_comm (2 ^ k)). f_equal. symmetry. apply Z.div_unique with (n - base); [lia|]. pose proof (Z.div_mod base (2 ^ k) ltac:(lia)). lia. }
  unfold finish_header. rewrite (bind_eval _ _ _ _ _ (lseek_eval o ino fd k Hk (fok_mmap _) fs _ _ _ _ cap 0 Ho ltac:(lia) ltac:(lia))). cbn [Z.ltb Z.compare]. rewrite Z.div_0_l, Z.mul_0_l, Z.add_0_l by lia.
  set (v0 := FileWriter fd (Some (ino, 0)) 0 (2 ^ k) 0 cap (2 ^ k)). rewrite (bind_eval file_writer_wloc _ _ 0 (fs, v0)) by done.
  rewrite (bind_eval (fw_peek64 0) _ _ t (fs, v0)).
  2:{ unfold fw_peek64, v0. cbn [fst snd fw_mem fw_buffer_size]. rewrite Hd. rewrite !length_app, length_bytes64, !(proj2 (Z.leb_le _ _)) by lia. cbn [andb]. do 2 f_equal. unfold get64. rewrite <- (app_nil_l (bytes64 t ++ _)).
      rewrite subrange_app; [by apply le64_bytes64|done|by rewrite length_bytes64]. }
  erewrite bind_eval by (eapply poke_first; [exact Hd|lia|rewrite length_bytes64; lia|rewrite !length_app, !length_bytes64; lia|done]). rewrite <- (app_nil_l (bytes64 t ++ _)), splice_block by (by rewrite ?length_bytes64). cbn [app].
  erewrite bind_eval by (eapply poke_first; [cbn [fs_data]; apply lookup_insert_eq|lia|rewrite length_bytes64; lia|rewrite !length_app, !length_bytes64; lia|done]).
  rewrite splice_block by (by rewrite ?length_bytes64). cbn [fs_data fs_dir fs_fds fs_next]. rewrite insert_insert_eq.
  rewrite (lseek_eval o ino fd k Hk (fok_mmap _) _ _ _ _ _ cap n) by (try done; lia). rewrite Hbase. eexists. split; [reflexivity|]. exists base. assert (Hlen : Z.of_nat (length (bytes64 (u64 (- t)) ++ bytes64 ofs ++ rest)) = n) by (rewrite !length_app, !length_bytes64; lia).
  split; [|lia]. split; cbn [fst snd fs_dir fs_data fs_fds]; try done.
  - rewrite app_nil_r. split; [lia|]. split; [lia|done].
  - rewrite lookup_insert_eq, app_nil_r, <- !app_assoc. done.
  - intros i Hi. rewrite lookup_insert_ne by done. auto.
Qed.
Lemma table_bytes_eval c l s : dvw_is c l s -> on_table table_bytes s = Some (table l, s).
Proof.
  destruct s as [fs [tb d wo]]. intros [_ (cap & Hv & _)]. cbn [snd dw_world dw_ofs_table] in Hv. rewrite (on_table_eval _ _ (table l) wo tb); [done|]. cbn [snd dw_world dw_ofs_table].
  unfold table_bytes. rewrite (bind_eval _ _ _ _ _ (wlocpos_eval _ _ _ _ _ _ _ Hv)). destruct (vb_header _ _ _ _ _ _ _ Hv) as (r & E & _ & _ & _ & _ & Ht). rewrite (bind_eval _ _ _ _ _ E), Nat2Z.id, Ht. done.
Qed.

Lemma align_eval c l s : dvw_is c l s -> Z.of_nat (length (aligned c)) + 2 ^ 31 <= limit ->
  exists s', on_data (file_writer_align o) s = Some (0, s') /\ dvw_is (aligned c) l s'.
Proof.
  intros [Hd Hv] Hlim. pose proof (bs_bounds k Hk). destruct (file_writer_align_eval o fn ino fd k limit fs0 Hk fok_limit fok_truncate (fok_mmap _) c _ Hd) as ([fs' d'] & E & Hd'); [lia|].
  rewrite (on_data_eval _ _ _ _ _ E). eexists. split; [done|]. split; done.
Qed.

Lemma ds_var_field_close_eval t u rest l s : let c := bytes64 t ++ bytes64 u ++ rest in 0 <= t < 2 ^ 64 -> dvw_is c l s ->
  16 * (Z.of_nat (length l) + 1) + Z.of_nat (length (aligned c)) + 2 ^ 31 <= limit ->
  exists s', ds_var_field_writer_close o stale s = Some (0, s') /\ fs_dir (fst s') !! fn = Some ino
    /\ fs_data (fst s') !! ino = Some (bytes64 (u64 (- t)) ++ bytes64 (Z.of_nat (length (aligned c))) ++ rest ++ padding (length c) ++ table (l ++ [Z.of_nat (length c)])).
Proof.
  intros c Ht Hs Hlim. unfold ds_var_field_writer_close. destruct (new_row_eval c l s Hs ltac:(lia)) as (s1 & E1 & H1). rewrite (bind_eval _ _ _ _ _ E1). cbn [Z.ltb Z.compare].
  destruct (align_eval c _ s1 H1 ltac:(lia)) as (s2 & E2 & H2). rewrite (bind_eval _ _ _ _ _ E2). cbn [Z.ltb Z.compare]. rewrite (bind_eval _ _ _ _ _ (wlocpos_data _ _ _ H2)).
  rewrite (bind_eval _ _ _ _ _ (table_bytes_eval _ _ _ H2)). set (l' := l ++ [Z.of_nat (length c)]) in *.
  assert (Hl' : length (table l') = (8 * length l + 8)%nat) by (rewrite length_table; unfold l'; rewrite length_app; cbn; lia).
  destruct (append_row_eval (aligned c) l' s2 (table l') H2) as (s3 & E3 & H3); [rewrite length_app; lia|]. unfold ds_var_field_writer_append in E3. rewrite (bind_eval _ _ _ _ _ E3). cbn [Z.ltb Z.compare].
  rewrite (bind_eval _ _ _ _ _ (wlocpos_data _ _ _ H3)). destruct H3 as [H3 Hv3]. assert (Ec : aligned c ++ table l' = bytes64 t ++ bytes64 u ++ rest ++ padding (length c) ++ table l') by (unfold aligned, c; by rewrite <- !app_assoc).
  rewrite Ec in *. assert (Hlen : Z.of_nat (length (rest ++ padding (length c) ++ table l')) + 16 = Z.of_nat (length (aligned c ++ table l'))) by (rewrite Ec, !length_app, !length_bytes64; lia). rewrite (length_app (aligned c)) in Hlen.
  destruct (finish_header_eval t u _ (Z.of_nat (length (aligned c))) _ Ht H3 ltac:(lia)) as ([fs4 d4] & E4 & H4).
  rewrite (bind_eval _ _ _ _ _ (on_data_eval _ _ _ _ _ E4)). cbn [Z.ltb Z.compare].
  edestruct (file_writer_close_eval o fn ino fd k limit fs0 Hk fok_truncate Hfd _ _ H4) as ([fs5 d5] & E5 & _ & Hdir & Hdata & _); [apply fok_munmap|rewrite !length_app, !length_bytes64 in *; lia|].
  erewrite bind_eval by (apply on_data_eval; exact E5). cbn [Z.ltb Z.compare fst snd dw_ofs_table dw_world].
  destruct Hv3 as (cap & [_ Hf3 _ _ (r & Hm3 & _) _] & _). cbn [fst snd dw_ofs_table dw_world] in *. erewrite bind_eval by (apply on_table_eval; cbn [snd dw_ofs_table dw_world]; unfold vmbuf_free; rewrite Hm3, Hf3; reflexivity).
  eexists. split; [reflexivity|]. done.
Qed.
(** A row: the bytes of the first call and those of the calls that append. *)
Fixpoint append_run (more : list (list Z)) : ST (fsys * ds_var_field_writer) Z :=
  match more with
  | [] => mret 0
  | d :: more => r ← ds_var_field_writer_append o d; if r <? 0 then mret r else append_run more
  end.
Fixpoint rows_run (rows : list (list Z * list (list Z))) : ST (fsys * ds_var_field_writer) Z :=
  match rows with
  | [] => mret 0
  | (d, more) :: rows =>
      r ← ds_var_field_writer_write o stale d; if r <? 0 then mret r else
      r ← append_run more; if r <? 0 then mret r else rows_run rows
  end.

Lemma append_run_eval more : forall c l s, dvw_is c l s -> Z.of_nat (length (c ++ concat more)) + 2 ^ 31 <= limit ->
  exists s', append_run more s = Some (0, s') /\ dvw_is (c ++ concat more) l s'.
Proof.
  induction more as [|d more IH]; intros c l s Hs Hlim; [exists s; cbn [concat]; by rewrite app_nil_r|]. cbn [append_run concat] in *. rewrite app_assoc in *.
  destruct (append_row_eval c l s d Hs) as (s1 & E1 & H1); [rewrite length_app in Hlim; lia|]. rewrite (bind_eval _ _ _ _ _ E1). cbn [Z.ltb Z.compare]. by apply IH.
Qed.

Definition row_bytes (row : list Z * list (list Z)) : list Z := fst row ++ concat (snd row).

Lemma rows_run_eval hd rows : length hd = 24%nat -> forall rows0 s, dvw_is (hd ++ concat rows0) (offs DS_VAR_HEADER_SIZE rows0) s ->
  let all := rows0 ++ (row_bytes <$> rows) in Z.of_nat (length (hd ++ concat all)) + 2 ^ 31 <= limit -> 16 * (Z.of_nat (length all) + 1) + 16 <= limit ->
  exists s', rows_run rows s = Some (0, s') /\ dvw_is (hd ++ concat all) (offs DS_VAR_HEADER_SIZE all) s'.
Proof.
  intros Hhd. induction rows as [|[d more] rows IH]; intros rows0 s Hs all Hlim Hnum; unfold all in *; [exists s; cbn [fmap list_fmap]; by rewrite app_nil_r|].
  cbn [rows_run fmap list_fmap] in *. rewrite cons_middle, app_assoc in *. set (r := row_bytes (d, more)) in *. set (rows1 := rows0 ++ [r]) in *.
  assert (Hc : concat rows1 = concat rows0 ++ d ++ concat more) by (unfold rows1, r, row_bytes; rewrite concat_app; cbn [concat fst snd]; by rewrite app_nil_r).
  assert (Hlen : Z.of_nat (length (hd ++ concat rows1)) + 2 ^ 31 <= limit) by (rewrite concat_app, app_assoc, length_app in Hlim; lia).
  assert (Hn0 : (length rows0 < length (rows1 ++ (row_bytes <$> rows)))%nat) by (unfold rows1; rewrite !length_app; cbn; lia).
  rewrite Hc in Hlen. rewrite !length_app in Hlen.
  destruct (write_row_eval _ _ s d Hs) as (s1 & E1 & H1); [rewrite length_offs; lia|rewrite !length_app; lia|]. rewrite (bind_eval _ _ _ _ _ E1). cbn [Z.ltb Z.compare].
  destruct (append_run_eval more _ _ s1 H1) as (s2 & E2 & H2); [rewrite !length_app; lia|]. rewrite (bind_eval _ _ _ _ _ E2). cbn [Z.ltb Z.compare].
  apply IH; [|done|done]. unfold rows1 at 2. rewrite offs_app. rewrite Hc. rewrite <- !app_assoc in H2. rewrite length_app, Hhd in H2. unfold DS_VAR_HEADER_SIZE in *. by replace (24 + Z.of_nat (length (concat rows0))) with (Z.of_nat (24 + length (concat rows0))) by lia.
Qed.
End Writer.

Lemma ds_var_field_init_eval `{address_space} (o : os) stale fn limit `{!file_system_ok o fn limit} fs wo type et : 2 ^ 31 + 2 ^ 20 <= limit ->
  exists s, ds_var_field_writer_init2 o stale fn type et (fs, DsVarFieldWriter VMBUF_INITIALIZER FILE_WRITER_INITIALIZER wo) = Some (0, s)
    /\ dvw_is fn (fs_next fs) (sys_open o fn 0x42) 20 (Fsys (delete fn (fs_dir fs)) (fs_data fs) (fs_fds fs) (fs_next fs)) (var_header (- type) (-1) et) [] s.
Proof.
  intros Hlim. unfold ds_var_field_writer_init2. set (fs1 := Fsys (delete fn (fs_dir fs)) _ _ _).
  rewrite (bind_eval (unlink fn) _ _ tt (fs1, DsVarFieldWriter VMBUF_INITIALIZER FILE_WRITER_INITIALIZER wo)) by done.
  destruct (init_eval o stale wo 4096) as ([wo1 tb] & E1 & H1); [lia|apply fok_mmap|]. erewrite bind_eval by (apply on_table_eval; exact E1). cbn [Z.ltb Z.compare fst snd dw_data].
  destruct (file_writer_init_eval o fn fs1 FILE_WRITER_INITIALIZER 20 limit) as ([fs2 d2] & E2 & H2); [done|reflexivity|lia|apply fok_create|apply fok_truncate|lia|apply fok_mmap|].
  erewrite bind_eval by (apply on_data_eval; exact E2). cbn [Z.ltb Z.compare fst snd dw_ofs_table dw_world].
  edestruct (file_writer_write_eval o fn (fs_next fs1) (sys_open o fn 0x42) 20 limit fs1) as ([fs3 d3] & E3 & H3); [lia|apply fok_limit|apply fok_truncate|apply fok_mmap|exact H2|instantiate (1 := var_header (- type) (-1) et); rewrite app_nil_l, length_var_header; lia|].
  erewrite bind_eval by (apply on_data_eval; exact E3). eexists. split; [reflexivity|]. split; [done|]. exact H1.
Qed.

(** A closed column of byte strings. *)
Lemma ds_var_field_written `{address_space} (o : os) stale fn limit `{!file_system_ok o fn limit} (Hgrow : can_grow_to o (limit + 4096)) fs wo t et rows :
  let col := row_bytes <$> rows in Z.of_nat (length (column_file (ds_type t) et col)) * 2 + 2 ^ 32 <= limit ->
  exists s s' s2 ino, ds_var_field_writer_init2 o stale fn (ds_type t) et (fs, DsVarFieldWriter VMBUF_INITIALIZER FILE_WRITER_INITIALIZER wo) = Some (0, s)
    /\ rows_run o stale rows s = Some (0, s') /\ ds_var_field_writer_close o stale s' = Some (0, s2)
    /\ fs_dir (fst s2) !! fn = Some ino /\ fs_data (fst s2) !! ino = Some (column_file (ds_type t) et col).
Proof.
  intros col Hfits. pose proof (ds_type_range t) as Ht. pose proof (fok_limit (limit := limit)) as Hlimit. pose proof (length_column_file (ds_type t) et col) as Hl. assert (Hcol : rows_end col < 2 ^ 60) by (unfold table_at in Hl; lia).
  pose proof (table_at_range col Hcol) as Hta.
  destruct (ds_var_field_init_eval o stale fn limit fs wo (ds_type t) et) as (s & E & Hs); [lia|]. set (fs1 := Fsys _ _ _ _) in Hs. set (hd := var_header (- ds_type t) (-1) et) in *. assert (Hhd : length hd = 24%nat) by apply length_var_header.
  edestruct (rows_run_eval o stale fn limit Hgrow (fs_next fs) (sys_open o fn 0x42) 20 fs1 ltac:(lia) hd rows Hhd [] s) as (s' & E' & Hs'); [by rewrite app_nil_r| | |]; cbn [app] in *; fold col.
  - rewrite length_app, Hhd. unfold rows_end, DS_VAR_HEADER_SIZE in *. lia.
  - lia.
  - fold col in Hs'. assert (Hc : Z.of_nat (length (hd ++ concat col)) = rows_end col) by (rewrite length_app, Hhd; unfold rows_end, DS_VAR_HEADER_SIZE; lia).
    assert (Ha : Z.of_nat (length (aligned (hd ++ concat col))) = table_at col) by (by rewrite length_aligned, Hc, table_at_eq).
    assert (Hp : padding (length (hd ++ concat col)) = rows_pad col) by (unfold rows_pad; rewrite <- Hc; by rewrite Nat2Z.id).
    unfold hd, var_header in Hs', Ha, Hc, Hp. rewrite <- !app_assoc in Hs', Ha, Hc, Hp.
    edestruct (ds_var_field_close_eval o stale fn limit Hgrow (fs_next fs) (sys_open o fn 0x42) 20 fs1) as (s2 & E2 & Hd2 & Hf2); [lia|apply fok_create| |exact Hs'|rewrite Ha, length_offs; lia|].
    { unfold u64. apply Z.mod_pos_bound. lia. }
    exists s, s', s2, (fs_next fs). do 4 (split; [assumption|]). rewrite Hf2, Ha, Hc, Hp. f_equal. unfold column_file, var_header, all_offs. rewrite <- !app_assoc. f_equal; [|f_equal; by rewrite u64_small by lia].
    f_equal. by destruct t.
Qed.

(** ** Reading *)
Section Reader.
Context (o : os) (fs : fsys) (fn : path) (limit : Z) `{!file_system_ok o fn limit} (ino : Z) (f : list Z).
Hypothesis (Hdir : fs_dir fs !! fn = Some ino) (Hdata : fs_data fs !! ino = Some f) (Hlen : Z.of_nat (length f) < 2 ^ 60).
Let fm := FileMapper (Some (ino, false)) (Z.of_nat (length f)).

Lemma map64_eval fs' v ofs : fs_data fs' = fs_data fs -> dv_data v = fm -> 0 <= ofs -> ofs + 8 <= Z.of_nat (length f) -> map64 ofs (fs', v) = Some (get64 f ofs, (fs', v)).
Proof.
  intros Hfs Hv Hofs Hle. unfold map64, on_mapper. erewrite bind_eval; [reflexivity|]. assert (Ev : v = DsVarField fm (dv_ofs_table v) (dv_num_elements v) (dv_array_el_size v)) by (destruct v; cbn in *; by subst).
  rewrite Ev at 2. eapply (on_part_eval dv_data (fun v d => DsVarField d (dv_ofs_table v) (dv_num_elements v) (dv_array_el_size v))). rewrite Hv.
  by apply (file_mapper_data_eval fs ino f Hdata Hlen).
Qed.

Lemma dv_map_eval : f <> [] -> exists fs', fs_data fs' = fs_data fs /\ on_mapper (file_mapper_init o fn) (fs, DS_VAR_FIELD_INITIALIZER) = Some (0, (fs', DsVarField fm 0 0 0)).
Proof.
  intros Hne. destruct (file_mapper_init_eval o fs fn ino f Hdir Hdata Hlen fok_stat fok_mmap Hne fok_open) as (fs' & E & Hfs & _). exists fs'. split; [done|].
  unfold on_mapper. by erewrite on_part_eval by exact E.
Qed.

(** [ds_var_field_init] up to the check of the place of the table. *)
Definition dv_check (file_size header_ofs : Z) : ST (fsys * ds_var_field) Z :=
  if file_size <=? header_ofs then refuse o
  else
    let ofs_table_size := file_size - header_ofs in
    if (0 <? Z.land ofs_table_size 7) || (ofs_table_size <? 8) then refuse o
    else
      v ← dv_self;
      let v := DsVarField (dv_data v) header_ofs (ofs_table_size / 8 - 1) (dv_array_el_size v) in
      dv_set v;;
      last ← map64 (header_ofs + 8 * dv_num_elements v);
      if negb (Z.land (u64 (last + 7)) (u64 (Z.lnot 7)) =? header_ofs) then refuse o
      else
        t ← map64 0;
        if negb (i64 t =? ds_type ds_type_var) && negb (i64 t =? ds_type ds_type_array) then refuse o
        else
          e ← map64 16; v ← dv_self;
          dv_set (DsVarField (dv_data v) (dv_ofs_table v) (dv_num_elements v) (if i64 t =? ds_type ds_type_array then ds_type_to_size (i64 e) else 0));;
          mret 0.

Lemma dv_init_prefix : 24 <= Z.of_nat (length f) -> exists fs', fs_data fs' = fs_data fs /\
  ds_var_field_init o fn (fs, DS_VAR_FIELD_INITIALIZER) = dv_check (Z.of_nat (length f)) (get64 f 8) (fs', DsVarField fm 0 0 0).
Proof.
  intros Hle. destruct dv_map_eval as (fs' & Hfs & E); [by intros ->|]. exists fs'. split; [done|]. unfold ds_var_field_init.
  rewrite (bind_eval (ds_var_field_free o) _ _ 0 (fs, DS_VAR_FIELD_INITIALIZER)) by done. cbn [Z.ltb Z.compare]. rewrite (bind_eval _ _ _ _ _ E). cbn [Z.ltb Z.compare].
  rewrite (bind_eval (on_mapper file_mapper_size) _ _ (Z.of_nat (length f)) (fs', DsVarField fm 0 0 0)) by done. unfold DS_VAR_HEADER_SIZE. rewrite (proj2 (Z.ltb_ge _ 24)) by lia.
  rewrite (bind_eval _ _ _ _ _ (map64_eval fs' (DsVarField fm 0 0 0) 8 Hfs eq_refl ltac:(lia) ltac:(lia))). done.
Qed.
End Reader.

Section ReadColumn.
Context (o : os) (fs : fsys) (fn : path) (limit : Z) `{!file_system_ok o fn limit} (ino : Z) (t : ds_type_t) (et : Z) (rows : list (list Z)).
Let f := column_file (ds_type t) et rows.
Hypothesis (Hdir : fs_dir fs !! fn = Some ino) (Hdata : fs_data fs !! ino = Some f) (Hlen : Z.of_nat (length f) < 2 ^ 60).
Let fm := FileMapper (Some (ino, false)) (Z.of_nat (length f)).

Lemma read_column (Ht : t = ds_type_var \/ t = ds_type_array) : exists fs', fs_data fs' = fs_data fs /\
  ds_var_field_init o fn (fs, DS_VAR_FIELD_INITIALIZER)
  = Some (0, (fs', DsVarField fm (table_at rows) (Z.of_nat (length rows)) (if bool_decide (t = ds_type_array) then ds_type_to_size (i64 (u64 et)) else 0))).
Proof.
  pose proof (length_column_file (ds_type t) et rows) as Hl. fold f in Hl. assert (Hre : rows_end rows < 2 ^ 60) by (unfold table_at in Hl; lia). pose proof (table_at_range rows Hre) as Hta. pose proof (table_at_eq rows) as Hte.
  assert (Hu : forall x, 0 <= u64 x < 2 ^ 64) by (intros x; apply Z.mod_pos_bound; lia). pose proof (ds_type_range t) as Htr.
  assert (Hh : forall (r : nat) v, [u64 (ds_type t); table_at rows; u64 et] !! r = Some v -> 0 <= v < 2 ^ 64 -> get64 f (8 * Z.of_nat r) = v) by (intros r v Hr Hv; eapply column_header; [by apply header_is_table|exact Hr|done|done]).
  pose proof (Hh 0%nat _ eq_refl (Hu _)) as H0. pose proof (Hh 1%nat _ eq_refl ltac:(lia)) as H1. pose proof (Hh 2%nat _ eq_refl (Hu _)) as H2. change (8 * Z.of_nat 0) with 0 in H0. change (8 * Z.of_nat 1) with 8 in H1. change (8 * Z.of_nat 2) with 16 in H2.
  destruct (dv_init_prefix o fs fn limit ino f Hdir Hdata Hlen) as (fs' & Hfs & ->); [lia|]. exists fs'. split; [done|]. rewrite H1. unfold dv_check. rewrite (proj2 (Z.leb_gt _ _)) by lia. cbv zeta.
  replace (Z.of_nat (length f) - table_at rows) with ((Z.of_nat (length rows) + 1) * 8) by lia. change 7 with (Z.ones 3) at 1. rewrite Z.land_ones by lia. change (2 ^ 3) with 8. rewrite Z.mod_mul, Z.div_mul by lia. rewrite (proj2 (Z.ltb_ge _ 8)) by lia. cbn [orb Z.ltb Z.compare].
  replace (Z.of_nat (length rows) + 1 - 1) with (Z.of_nat (length rows)) by lia. rewrite (bind_eval dv_self _ _ _ _ eq_refl). cbn [snd dv_data dv_array_el_size]. rewrite (bind_eval (dv_set _) _ _ _ _ eq_refl). cbn [fst dv_num_elements].
  assert (Hm : forall v ofs, dv_data v = fm -> 0 <= ofs -> ofs + 8 <= Z.of_nat (length f) -> map64 ofs (fs', v) = Some (get64 f ofs, (fs', v))) by (intros v ofs Hv Hx Hy; by apply (map64_eval fs ino f Hdata Hlen)).
  erewrite bind_eval by (apply Hm; [done|lia|lia]). unfold f at 1. rewrite column_start by done. rewrite take_ge by done. fold (rows_end rows).
  rewrite u64_small by lia. change 7 with (2 ^ 3 - 1) at 2. rewrite round_down_mask by lia. change (2 ^ 3) with 8. rewrite <- Hte, Z.eqb_refl. cbn [negb].
  erewrite bind_eval by (apply Hm; [done|lia|lia]). rewrite H0, (u64_small (ds_type t)), i64_small by lia.
  assert (negb (ds_type t =? ds_type ds_type_var) && negb (ds_type t =? ds_type ds_type_array) = false) as -> by (by destruct Ht as [-> | ->]).
  erewrite bind_eval by (apply Hm; [done|lia|lia]). rewrite H2. by destruct Ht as [-> | ->].
Qed.

Lemma read_row fs' n e (i : nat) row : fs_data fs' = fs_data fs -> rows !! i = Some row -> let s := (fs', DsVarField fm (table_at rows) n e) in
  exists ofs, ds_var_field_get (Z.of_nat i) s = Some ((ofs, Z.of_nat (length row)), s) /\ on_mapper (file_mapper_data ofs (Z.of_nat (length row))) s = Some (row, s).
Proof.
  intros Hfs Hi s. pose proof (length_column_file (ds_type t) et rows) as Hl. fold f in Hl. assert (Hre : rows_end rows < 2 ^ 60) by (unfold table_at in Hl; lia). pose proof (table_at_range rows Hre) as Hta.
  pose proof (lookup_lt_Some _ _ _ Hi) as Hlt. set (ofs := DS_VAR_HEADER_SIZE + Z.of_nat (length (concat (take i rows)))). exists ofs.
  assert (Hend : DS_VAR_HEADER_SIZE + Z.of_nat (length (concat (take (S i) rows))) = ofs + Z.of_nat (length row)) by (rewrite (take_S_r _ _ _ Hi), concat_app, length_app; cbn [concat]; rewrite app_nil_r; unfold ofs; lia).
  assert (Hb : ofs + Z.of_nat (length row) <= rows_end rows).
  { rewrite <- Hend. unfold rows_end. rewrite <- (take_drop (S i) rows) at 2. rewrite concat_app, length_app. lia. }
  assert (Hm : forall ofs, 0 <= ofs -> ofs + 8 <= Z.of_nat (length f) -> map64 ofs s = Some (get64 f ofs, s)) by (intros x Hx Hy; by apply (map64_eval fs ino f Hdata Hlen)). split.
  - unfold ds_var_field_get. rewrite (bind_eval dv_self _ _ _ _ eq_refl). cbn [s snd dv_ofs_table]. fold s. erewrite bind_eval by (apply Hm; lia). erewrite bind_eval by (apply Hm; lia).
    unfold f. replace (Z.of_nat i + 1) with (Z.of_nat (S i)) by lia. rewrite !column_start by lia. rewrite Hend. fold ofs. replace (ofs + Z.of_nat (length row) - ofs) with (Z.of_nat (length row)) by lia. rewrite u64_small by (unfold ofs, DS_VAR_HEADER_SIZE in *; lia). done.
  - unfold on_mapper, s. erewrite on_part_eval; [|cbn [dv_data]; apply (file_mapper_data_eval fs ino f Hdata Hlen); [done|unfold ofs, DS_VAR_HEADER_SIZE; lia|lia|unfold table_at in *; lia]]. cbn [dv_ofs_table dv_num_elements dv_array_el_size]. unfold f, ofs. by rewrite column_row.
Qed.
End ReadColumn.

(** C17: a column of byte strings that is created by [ds_var_field_writer_init2] (with the type
    [ds_type_var] or [ds_type_array]), filled with rows, each of them one
    [ds_var_field_writer_write] and any number of [ds_var_field_writer_append], and closed, is
    accepted by [ds_var_field_init].  It then has as many elements as there were rows, and for
    each of them [ds_var_field_get] gives the place and size of the row's bytes in the mapping;
    for an array of values of a fixed size [ds_var_field_get_array] gives their number. *)
Theorem ds_var_field_roundtrip `{address_space} (o : os) (stale : Z -> Z -> Z) (fs : fsys) (wo : world) (fn : path) (limit : Z) (t e : ds_type_t) (rows : list (list Z * list (list Z)))
  (Hos : file_system_ok o fn limit) (Hgrow : can_grow_to o (limit + 4096)) (Ht : t = ds_type_var \/ t = ds_type_array)
  (Hfits : Z.of_nat (length (column_file (ds_type t) (ds_type e) (row_bytes <$> rows))) * 2 + 2 ^ 32 <= limit) :
  exists s s' s2 s3, ds_var_field_writer_init2 o stale fn (ds_type t) (ds_type e) (fs, DsVarFieldWriter VMBUF_INITIALIZER FILE_WRITER_INITIALIZER wo) = Some (0, s)
    /\ rows_run o stale rows s = Some (0, s') /\ ds_var_field_writer_close o stale s' = Some (0, s2)
    /\ ds_var_field_init o fn (fst s2, DS_VAR_FIELD_INITIALIZER) = Some (0, s3)
    /\ ds_var_field_num_elements s3 = Some (Z.of_nat (length rows), s3)
    /\ forall (i : nat) row, rows !! i = Some row -> exists ofs,
         ds_var_field_get (Z.of_nat i) s3 = Some ((ofs, Z.of_nat (length (row_bytes row))), s3)
         /\ on_mapper (file_mapper_data ofs (Z.of_nat (length (row_bytes row)))) s3 = Some (row_bytes row, s3)
         /\ (t = ds_type_array -> ds_var_field_get_array (Z.of_nat i) s3 = Some ((ofs, Z.of_nat (length (row_bytes row)) / field_size e), s3)).
Proof.
  destruct (ds_var_field_written o stale fn limit Hgrow fs wo t (ds_type e) rows Hfits) as (s & s' & s2 & ino & H1 & H2 & H3 & Hd & Hf). pose proof (fok_limit (limit := limit)) as Hlimit.
  destruct (read_column o (fst s2) fn limit ino t (ds_type e) _ Hd Hf ltac:(lia) Ht) as (fs' & Hfs & E). pose proof (ds_type_range e). pose proof (field_size_pos e).
  rewrite u64_small, i64_small, length_fmap in E by lia. fold (field_size e) in E. exists s, s', s2. eexists. do 3 (split; [eassumption|]). split; [exact E|]. split; [done|].
  intros i row Hi. assert (Hi' : (row_bytes <$> rows) !! i = Some (row_bytes row)) by (by rewrite list_lookup_fmap, Hi).
  destruct (read_row (fst s2) ino t (ds_type e) _ Hf ltac:(lia) fs' (Z.of_nat (length rows)) (if bool_decide (t = ds_type_array) then field_size e else 0) i _ Hfs Hi') as (ofs & Eg & Em).
  exists ofs. split; [exact Eg|]. split; [exact Em|]. intros ->. unfold ds_var_field_get_array. rewrite (bind_eval _ _ _ _ _ Eg). cbv beta iota. rewrite (bind_eval dv_self _ _ _ _ eq_refl). cbn [snd dv_array_el_size].
  rewrite bool_decide_eq_true_2 by done. by rewrite (proj2 (Z.eqb_neq _ 0)) by lia.
Qed.

Definition rows_demo : list (list Z * list (list Z)) := [([104; 105], []); ([], []); ([1; 0; 0; 0], [[2; 0]; [0; 0]])].

Lemma ds_var_field_roundtrip_witness :
  exists s s' s2 s3, ds_var_field_writer_init2 os_all_ok (fun _ _ => 0) [97] 11 4 (Fsys ∅ ∅ ∅ 1, DsVarFieldWriter VMBUF_INITIALIZER FILE_WRITER_INITIALIZER vb_world) = Some (0, s)
    /\ rows_run os_all_ok (fun _ _ => 0) rows_demo s = Some (0, s') /\ ds_var_field_writer_close os_all_ok (fun _ _ => 0) s' = Some (0, s2)
    /\ ds_var_field_init os_all_ok [97] (fst s2, DS_VAR_FIELD_INITIALIZER) = Some (0, s3)
    /\ ds_var_field_num_elements s3 = Some (3, s3)
    /\ forall (i : nat) row, rows_demo !! i = Some row -> exists ofs,
         ds_var_field_get (Z.of_nat i) s3 = Some ((ofs, Z.of_nat (length (row_bytes row))), s3)
         /\ on_mapper (file_mapper_data ofs (Z.of_nat (length (row_bytes row)))) s3 = Some (row_bytes row, s3)
         /\ (ds_type_array = ds_type_array -> ds_var_field_get_array (Z.of_nat i) s3 = Some ((ofs, Z.of_nat (length (row_bytes row)) / 4), s3)).
Proof.
  apply (ds_var_field_roundtrip os_all_ok (fun _ _ => 0) (Fsys ∅ ∅ ∅ 1) vb_world [97] (2 ^ 60) ds_type_array ds_type_int32_t rows_demo (all_ok_file_system [97])).
  - by intros ? ? _.
  - by right.
  - vm_compute. congruence.
Defined.

(** Before [ds_var_field_writer_close] the file of a column is not accepted: whatever has been
    written, [ds_var_field_init] on the file as it is then returns -1 and maps nothing, because
    the header says that the table is behind the end. *)
Theorem ds_var_field_unfinished_refused `{address_space} (o : os) (stale : Z -> Z -> Z) (fs : fsys) (wo : world) (fn : path) (limit : Z) (t : ds_type_t) (et : Z) (rows : list (list Z * list (list Z)))
  (Hos : file_system_ok o fn limit) (Hgrow : can_grow_to o (limit + 4096))
  (Hfits : Z.of_nat (length (column_file (ds_type t) et (row_bytes <$> rows))) * 2 + 2 ^ 32 <= limit) :
  exists s s' s3, ds_var_field_writer_init2 o stale fn (ds_type t) et (fs, DsVarFieldWriter VMBUF_INITIALIZER FILE_WRITER_INITIALIZER wo) = Some (0, s)
    /\ rows_run o stale rows s = Some (0, s')
    /\ ds_var_field_init o fn (fst s', DS_VAR_FIELD_INITIALIZER) = Some (-1, s3) /\ fm_mem (dv_data (snd s3)) = None.
Proof.
  set (col := row_bytes <$> rows) in *. pose proof (fok_limit (limit := limit)) as Hlimit. pose proof (length_column_file (ds_type t) et col) as Hl. assert (Hcol : rows_end col < 2 ^ 60) by (unfold table_at in Hl; lia).
  pose proof (table_at_range col Hcol) as Hta. destruct (ds_var_field_init_eval o stale fn limit fs wo (ds_type t) et) as (s & E & Hs); [lia|]. set (fs1 := Fsys _ _ _ _) in Hs. set (hd := var_header (- ds_type t) (-1) et) in *. assert (Hhd : length hd = 24%nat) by apply length_var_header.
  edestruct (rows_run_eval o stale fn limit Hgrow (fs_next fs) (sys_open o fn 0x42) 20 fs1 ltac:(lia) hd rows Hhd [] s) as (s' & E' & (base & Hat & Hroom) & _); [by rewrite app_nil_r| | |]; cbn [app] in *; fold col.
  - rewrite length_app, Hhd. unfold rows_end, DS_VAR_HEADER_SIZE in *. lia.
  - lia.
  - fold col in Hat, Hroom. destruct Hat as [_ (Hb & Hle & _) Hd Hdir _ _]. cbn [fst] in Hd, Hdir. rewrite app_nil_r in *. cbn [app] in *. set (z := replicate _ 0) in Hd. rewrite length_app, Hhd in *. unfold rows_end, DS_VAR_HEADER_SIZE in *.
    assert (Hz : Z.of_nat (length ((hd ++ concat col) ++ z)) = base + 2 ^ 20) by (unfold z; rewrite !length_app, length_replicate; lia).
    destruct (dv_init_prefix o (fst s') fn limit (fs_next fs) _ Hdir Hd) as (fs' & Hfs & Ei); [lia|lia|].
    assert (Hofs : get64 ((hd ++ concat col) ++ z) 8 = 2 ^ 64 - 1).
    { unfold get64, hd, var_header. rewrite <- !app_assoc. rewrite subrange_app; [|by rewrite length_bytes64|by rewrite length_bytes64]. reflexivity. }
    rewrite Hofs in Ei. unfold dv_check in Ei. rewrite (proj2 (Z.leb_le _ (2 ^ 64 - 1))) in Ei by lia. exists s, s'. eexists. split; [exact E|]. split; [exact E'|]. split; [rewrite Ei; reflexivity|done].
Qed.

Lemma ds_var_field_unfinished_refused_witness :
  exists s s' s3, ds_var_field_writer_init2 os_all_ok (fun _ _ => 0) [97] 10 (-1) (Fsys ∅ ∅ ∅ 1, DsVarFieldWriter VMBUF_INITIALIZER FILE_WRITER_INITIALIZER vb_world) = Some (0, s)
    /\ rows_run os_all_ok (fun _ _ => 0) rows_demo s = Some (0, s')
    /\ ds_var_field_init os_all_ok [97] (fst s', DS_VAR_FIELD_INITIALIZER) = Some (-1, s3) /\ fm_mem (dv_data (snd s3)) = None.
Proof.
  apply (ds_var_field_unfinished_refused os_all_ok (fun _ _ => 0) (Fsys ∅ ∅ ∅ 1) vb_world [97] (2 ^ 60) ds_type_var (-1) rows_demo (all_ok_file_system [97])).
  - by intros ? ? _.
  - vm_compute. congruence.
Defined.
