(* ===== verification/Uri.v ===== *)
(** * Uri: percent-encoding ([src/_uri_encode.c], [src/_uri_decode.c])

    Strings are lists of non-zero bytes, without their terminator. *)

From stdpp Require Import base numbers list.
From Stdlib Require Import ZArith Lia.
From S2P Require Import Prelude Os Mempool Memalloc Vmbuf VmbufFacts.

(** ** Encoding *)

(** The characters to be escaped, one bit each. *)
Definition uri_bits : list Z :=
  [0xFF; 0xFF; 0xFF; 0xFF; 0xFF; 0x9B; 0x00; 0xFC;
   0x01; 0x00; 0x00; 0x78; 0x01; 0x00; 0x00; 0xF8;
   0xFF; 0xFF; 0xFF; 0xFF; 0xFF; 0xFF; 0xFF; 0xFF;
   0xFF; 0xFF; 0xFF; 0xFF; 0xFF; 0xFF; 0xFF; 0xFF].
Definition hex_chars : list Z := [48; 49; 50; 51; 52; 53; 54; 55; 56; 57; 65; 66; 67; 68; 69; 70].

Definition uri_encode_char (c : Z) : list Z :=
  if c =? 32 then [43]
  else if Z.land (nth (Z.to_nat (Z.shiftr c 3)) uri_bits 0) (Z.shiftl 1 (Z.land c 7)) >? 0 then
    [37; nth (Z.to_nat (Z.shiftr c 4)) hex_chars 0; nth (Z.to_nat (Z.land c 15)) hex_chars 0]
  else [c].
Definition uri_encoded (s : list Z) : list Z := s ≫= uri_encode_char.

(** The room is asked for on top of what is free already and its result is not used; the
    encoded bytes are written behind the contents. *)
Definition http_uri_encode `{address_space} (o : os) (stale : Z -> Z -> Z) (s : list Z) : M Z :=
  w ← vmbuf_wlocpos;
  vmbuf_resize_if_less o stale (u64 (w + Z.of_nat (length s) * 3 + 1));;
  w ← vmbuf_wlocpos;
  poke w (uri_encoded s);;
  vmbuf_wseek o stale (Z.of_nat (length (uri_encoded s)));; mret 0.

(** ** Decoding *)
Definition hex_val_char (c : Z) : Z :=
  if (c >=? 48) && (c <=? 57) then c - 48
  else if (c >=? 65) && (c <=? 70) then c - 65 + 10
  else if (c >=? 97) && (c <=? 102) then c - 97 + 10
  else 0.

(** The value of up to two digits and the rest of the string. *)
Definition hex_val (h : list Z) : Z * list Z :=
  match h with
  | [] => (0, [])
  | s :: h =>
      let val := u8 (Z.shiftl (hex_val_char s) 4) in
      match h with
      | [] => (val, [])
      | s :: h => (u8 (val + hex_val_char s), h)
      end
  end.

Fixpoint uri_decode_loop (fuel : nat) (p1 : list Z) : list Z :=
  match fuel with
  | O => []
  | S f =>
      match p1 with
      | [] => []
      | c :: p1 =>
          if c =? 37 then let (v, p1) := hex_val p1 in v :: uri_decode_loop f p1
          else if c =? 43 then 32 :: uri_decode_loop f p1
          else c :: uri_decode_loop f p1
      end
  end.
(** Each round consumes a character. *)
Definition uri_decoded (uri : list Z) : list Z := uri_decode_loop (length uri) uri.

(** What is written to [target], and the result. *)
Definition http_uri_decode (uri : list Z) : list Z * Z :=
  (uri_decoded uri ++ [0], Z.of_nat (length (uri_decoded uri)) + 1).

(** ** Facts *)
Lemma uri_decode_fuel fuel : forall p1, (length p1 <= fuel)%nat -> uri_decode_loop fuel p1 = uri_decoded p1.
Proof.
  unfold uri_decoded. induction fuel as [fuel IH] using lt_wf_ind. intros [|c p1] Hf; [by destruct fuel|].
  destruct fuel as [|f]; cbn in Hf; [lia|]. cbn [uri_decode_loop length].
  destruct (c =? 37).
  - destruct (hex_val p1) as [v rest] eqn:E. assert (Hr : (length rest <= length p1)%nat).
    { revert E. unfold hex_val. destruct p1 as [|a [|b p]]; intros [= <- <-]; cbn; lia. }
    rewrite (IH f), (IH (length p1)) by lia. done.
  - by destruct (c =? 43); rewrite (IH f) by lia.
Qed.

Lemma uri_decoded_cons c p1 : uri_decoded (c :: p1) =
  if c =? 37 then let (v, p1) := hex_val p1 in v :: uri_decoded p1
  else if c =? 43 then 32 :: uri_decoded p1 else c :: uri_decoded p1.
Proof.
  unfold uri_decoded at 1. cbn [length uri_decode_loop]. destruct (c =? 37); [|by rewrite uri_decode_fuel by lia].
  destruct (hex_val p1) as [v rest] eqn:E. rewrite uri_decode_fuel; [done|].
  revert E. unfold hex_val. destruct p1 as [|a [|b p]]; intros [= <- <-]; cbn; lia.
Qed.

(** Decoding an encoded character, checked for each of the 255. *)
Definition char_ok (c : Z) : bool :=
  match uri_encode_char c with
  | [a] => if c =? 32 then a =? 43 else (a =? c) && negb (a =? 37) && negb (a =? 43)
  | [p; h; l] => (p =? 37) && (u8 (u8 (Z.shiftl (hex_val_char h) 4) + hex_val_char l) =? c)
  | _ => false
  end.

Lemma char_ok_all : forallb char_ok (seqZ 1 255) = true.
Proof. vm_compute. reflexivity. Qed.

Lemma decode_encode_char c rest : 0 < c < 256 -> uri_decoded (uri_encode_char c ++ rest) = c :: uri_decoded rest.
Proof.
  intros Hc. pose proof char_ok_all as Hall. rewrite forallb_forall in Hall.
  specialize (Hall c ltac:(apply list_elem_of_In, elem_of_seqZ; lia)). unfold char_ok in Hall.
  destruct (uri_encode_char c) as [|a [|b [|d [|? ?]]]] eqn:E; try done; cbn [app].
  - rewrite uri_decoded_cons. destruct (Z.eqb_spec c 32) as [->|].
    + apply Z.eqb_eq in Hall as ->. done.
    + apply andb_prop in Hall as [[Ha%Z.eqb_eq H37]%andb_prop H43]. subst a.
      apply negb_true_iff in H37, H43. by rewrite H37, H43.
  - apply andb_prop in Hall as [->%Z.eqb_eq Hv%Z.eqb_eq]. rewrite uri_decoded_cons. cbn [Z.eqb Pos.eqb hex_val]. cbv zeta. by rewrite Hv.
Qed.

Lemma uri_roundtrip s : Forall (fun c => 0 < c < 256) s -> uri_decoded (uri_encoded s) = s.
Proof.
  induction 1 as [|c s Hc Hs IH]; [done|]. unfold uri_encoded in *. rewrite bind_cons, decode_encode_char by done. by rewrite IH.
Qed.

Lemma length_encode_char c : (length (uri_encode_char c) <= 3)%nat.
Proof. unfold uri_encode_char. repeat case_match; cbn; lia. Qed.

Lemma length_uri_encoded s : (length (uri_encoded s) <= 3 * length s)%nat.
Proof.
  unfold uri_encoded. induction s as [|c s IH]; [done|]. rewrite bind_cons, length_app. pose proof (length_encode_char c). cbn. lia.
Qed.

Lemma uri_decoded_shorter fuel : forall p1, (length (uri_decode_loop fuel p1) <= length p1)%nat.
Proof.
  induction fuel as [|f IH]; intros [|c p1]; cbn; try lia. destruct (c =? 37).
  - destruct (hex_val p1) as [v rest] eqn:E. cbn. assert (length rest <= length p1)%nat.
    { revert E. unfold hex_val. destruct p1 as [|a [|b p]]; intros [= <- <-]; cbn; lia. }
    specialize (IH rest). lia.
  - specialize (IH p1). destruct (c =? 43); cbn; lia.
Qed.

(** [http_uri_encode] appends to the buffer a string that [http_uri_decode] turns back into
    the original, for every string; the encoding takes at most three bytes per byte. *)
Theorem uri_encode_decode `{address_space} (o : os) (stale : Z -> Z -> Z) (limit rl : Z) (c s : list Z) (st : world * vmbuf)
  (Hlimit : limit <= 2 ^ 60) (Hgrow : can_grow_to o (limit + 4096))
  (Hbuf : vbuf _mem_funcs_anon_buf (fun _ => True) c rl st) (Hs : Forall (fun b => 0 < b < 256) s)
  (Hfits : 2 * (2 * Z.of_nat (length c) + 3 * Z.of_nat (length s) + 1) + VMBUF_HEADER <= limit) :
  exists st' e, http_uri_encode o stale s st = Some (0, st') /\ contents_of (snd st') = c ++ e
    /\ http_uri_decode e = (s ++ [0], Z.of_nat (length s) + 1) /\ (length e <= 3 * length s)%nat.
Proof.
  pose proof (anon_growable o stale limit Hlimit Hgrow) as Hg. destruct Hbuf as (cap & Hv & Hc).
  pose proof (vi_bounds _ _ _ _ _ _ _ Hv). pose proof (length_uri_encoded s) as Hlen. unfold http_uri_encode.
  rewrite (bind_eval _ _ _ _ _ (wlocpos_eval _ _ _ _ _ _ _ Hv)), u64_small by (unfold VMBUF_HEADER in *; lia).
  destruct (resize_if_less_eval o stale _ _ limit Hlimit _ c rl (Z.of_nat (length c) + Z.of_nat (length s) * 3 + 1) 63 cap st Hv)
    as (s1 & cap1 & E1 & Hs1 & Hc1 & _); [lia|lia|lia|apply (resize_rounds_enough limit Hlimit); lia|].
  unfold vmbuf_resize_if_less, RESIZE_ROUNDS. rewrite (bind_eval _ _ _ _ _ E1).
  destruct (append_eval o stale _ _ limit Hlimit c rl cap1 s1 (uri_encoded s) Hs1) as (s2 & E2 & Hv2);
    [rewrite length_app; lia|rewrite length_app; lia|].
  exists s2, (uri_encoded s). split; [|split; [by eapply vbuf_contents|split; [|done]]].
  - pose proof (wlocpos_eval _ _ _ _ _ _ _ Hs1) as Ew. rewrite (bind_eval _ _ _ _ _ Ew) in E2. rewrite (bind_eval _ _ _ _ _ Ew).
    unfold mbind, ST_bind in *. destruct (poke _ _ s1) as [[? s3]|]; [|done]. by rewrite E2.
  - unfold http_uri_decode. by rewrite uri_roundtrip.
Qed.

Lemma uri_encode_decode_witness :
  exists st' e, http_uri_encode os_all_ok (fun _ _ => 0) [97; 32; 37; 200] abc_state = Some (0, st')
    /\ contents_of (snd st') = [97; 98; 99] ++ e /\ http_uri_decode e = ([97; 32; 37; 200; 0], 5).
Proof.
  destruct (uri_encode_decode os_all_ok (fun _ _ => 0) (2 ^ 20) 1 [97; 98; 99] [97; 32; 37; 200] abc_state) as (st' & e & E & Hc & Hd & _).
  - lia.
  - by intros old n _.
  - apply abc_state_ok.
  - repeat (constructor; [lia|]); constructor.
  - vm_compute. congruence.
  - by exists st', e.
Defined.
