(* ===== verification/Base64.v ===== *)
(** * Base64: the URL-safe base64 code ([src/base64.c], [include/base64.h])

    Bytes are integers in [0, 256). *)

From stdpp Require Import base numbers list.
From Stdlib Require Import ZArith Lia.
From S2P Require Import Prelude.

Definition BASE64_ENCODED_LEN (x : Z) : Z := (x + 2) / 3 * 4.
Definition BASE64_DECODED_LEN (x : Z) : Z := (x + 3) / 4 * 3.
Definition BASE64_ENCODED_SIZE (x : Z) : Z := BASE64_ENCODED_LEN x + 1.
Definition BASE64_DECODED_SIZE (x : Z) : Z := BASE64_DECODED_LEN x + 1.

(** [code]: A-Z, a-z, 0-9, '-' and '_'. *)
Definition code_chars : list Z := seqZ 65 26 ++ seqZ 97 26 ++ seqZ 48 10 ++ [45; 95].
Definition code (i : Z) : Z := nth (Z.to_nat i) code_chars 0.

(** [decoder]: the 256-entry table of the source. *)
Definition decoder_table : list Z :=
  replicate 45 0xff ++ [0x3e; 0xff; 0xff]
  ++ seqZ 0x34 10 ++ replicate 7 0xff
  ++ seqZ 0x00 26 ++ [0xff; 0xff; 0xff; 0xff; 0x3f; 0xff]
  ++ seqZ 0x1a 26 ++ replicate 133 0xff.
Definition decoder (c : Z) : Z := nth (Z.to_nat c) decoder_table 0.

(** ** Encoding *)
Definition encode3 (a b c : Z) : list Z :=
  let data := Z.lor (Z.lor (Z.shiftl a 16) (Z.shiftl b 8)) c in
  [code (Z.shiftr data 18); code (Z.land (Z.shiftr data 12) 0x3F);
   code (Z.land (Z.shiftr data 6) 0x3F); code (Z.land data 0x3F)].

(** The [total_chars] groups of three bytes, then the one or two that are left. *)
Fixpoint encode_groups (s : list Z) (padding : bool) : list Z :=
  match s with
  | a :: b :: c :: s => encode3 a b c ++ encode_groups s padding
  | [a; b] =>
      let data := Z.lor (Z.shiftl a 8) b in
      [code (Z.shiftr data 10); code (Z.land (Z.shiftr data 4) 0x3F); code (Z.shiftl (Z.land data 0xF) 2)]
      ++ (if padding then [61] else [])
  | [a] => [code (Z.shiftr a 2); code (Z.shiftl (Z.land a 0x3) 4)] ++ (if padding then [61; 61] else [])
  | [] => []
  end.

(** The bytes written to [dst] (with the terminator) and [*dstsize]. *)
Definition ribs_base64_encode (src : list Z) (padding : bool) : list Z * Z :=
  let d := encode_groups src padding in (d ++ [0], Z.of_nat (length d)).

(** ** Decoding *)
Definition decode4 (a b c d : Z) : list Z :=
  let data := u32 (Z.shiftl (decoder a) 18) in
  let data := Z.lor data (Z.shiftl (decoder b) 12) in
  let data := Z.lor data (Z.shiftl (decoder c) 6) in
  let data := Z.lor data (decoder d) in
  [u8 (Z.shiftr data 16); u8 (Z.shiftr data 8); u8 data].

Fixpoint decode_groups (s : list Z) : list Z :=
  match s with
  | a :: b :: c :: d :: s => decode4 a b c d ++ decode_groups s
  | [a; b; c] =>
      let data := Z.lor (Z.lor (Z.shiftl (decoder a) 12) (Z.shiftl (decoder b) 6)) (decoder c) in
      [u8 (Z.shiftr data 10); u8 (Z.shiftr data 2)]
  | [a; b] =>
      let data := Z.lor (Z.shiftl (decoder a) 6) (decoder b) in
      [u8 (Z.shiftr data 4)]
  | _ => []
  end.

(** One or two padding characters are dropped first. *)
Definition strip_padding (src : list Z) : list Z :=
  let n := length src in
  if (2 <? Z.of_nat n) && (nth (n - 2) src 0 =? 61) then take (n - 2) src
  else if (1 <? Z.of_nat n) && (nth (n - 1) src 0 =? 61) then take (n - 1) src
  else src.

Definition ribs_base64_decode (src : list Z) : list Z * Z :=
  let d := decode_groups (strip_padding src) in (d ++ [0], Z.of_nat (length d)).

(** ** Facts *)
Lemma decoder_table_size : length decoder_table = 256%nat.
Proof. reflexivity. Qed.

Definition code_ok (i : Z) : bool := (decoder (code i) =? i) && negb (code i =? 61) && (0 <? code i) && (code i <? 128).
Lemma code_ok_all : forallb code_ok (seqZ 0 64) = true.
Proof. vm_compute. reflexivity. Qed.

Lemma code_spec i : 0 <= i < 64 -> decoder (code i) = i /\ code i <> 61.
Proof.
  intros Hi. pose proof code_ok_all as Hall. rewrite forallb_forall in Hall.
  specialize (Hall i ltac:(apply list_elem_of_In, elem_of_seqZ; lia)). unfold code_ok in Hall.
  rewrite !andb_true_iff, negb_true_iff, Z.eqb_eq, Z.eqb_neq in Hall. tauto.
Qed.

Lemma land_shift_low a b n : 0 <= n -> 0 <= b < 2 ^ n -> Z.land (Z.shiftl a n) b = 0.
Proof.
  intros Hn Hb. apply Z.bits_inj'. intros k Hk. rewrite Z.land_spec, Z.bits_0.
  destruct (Z.lt_ge_cases k n); [by rewrite Z.shiftl_spec_low|].
  replace (Z.testbit b k) with false; [apply andb_false_r|]. rewrite <- (Z.mod_small b (2 ^ n)) by lia.
  by rewrite Z.mod_pow2_bits_high by lia.
Qed.

Lemma lor_shift a b n : 0 <= n -> 0 <= b < 2 ^ n -> Z.lor (Z.shiftl a n) b = a * 2 ^ n + b.
Proof.
  intros Hn Hb. rewrite <- Z.lxor_lor by (by apply land_shift_low).
  rewrite <- Z.add_nocarry_lxor by (by apply land_shift_low). by rewrite Z.shiftl_mul_pow2.
Qed.

(** The bit operations of the code as arithmetic. *)
Lemma shiftr_div a n : 0 <= n -> Z.shiftr a n = a / 2 ^ n.
Proof. apply Z.shiftr_div_pow2. Qed.
Lemma land63 a : Z.land a 0x3F = a mod 64.
Proof. apply (land_ones_mod a 6). lia. Qed.
Lemma land15 a : Z.land a 0xF = a mod 16.
Proof. apply (land_ones_mod a 4). lia. Qed.
Lemma land3 a : Z.land a 0x3 = a mod 4.
Proof. apply (land_ones_mod a 2). lia. Qed.

Ltac divmod := Z.to_euclidean_division_equations; lia.

Definition is_byte (b : Z) : Prop := 0 <= b < 256.

Lemma combine3 x y z : 0 <= y < 64 -> 0 <= z < 64 ->
  Z.lor (Z.lor (Z.shiftl x 12) (Z.shiftl y 6)) z = x * 2 ^ 12 + y * 2 ^ 6 + z.
Proof. intros. rewrite <- Z.lor_assoc, (lor_shift y z 6), lor_shift by lia. lia. Qed.

Lemma combine4 w x y z : 0 <= w < 64 -> 0 <= x < 64 -> 0 <= y < 64 -> 0 <= z < 64 ->
  Z.lor (Z.lor (Z.lor (u32 (Z.shiftl w 18)) (Z.shiftl x 12)) (Z.shiftl y 6)) z = w * 2 ^ 18 + x * 2 ^ 12 + y * 2 ^ 6 + z.
Proof.
  intros. rewrite u32_small by (rewrite Z.shiftl_mul_pow2 by lia; lia).
  rewrite <- !Z.lor_assoc, (lor_shift y z 6), (lor_shift x _ 12), lor_shift by lia. lia.
Qed.

Lemma decode_encode3 a b c : is_byte a -> is_byte b -> is_byte c ->
  exists w x y z, encode3 a b c = [w; x; y; z] /\ decode4 w x y z = [a; b; c] /\ Forall (fun e => e <> 61) [w; x; y; z].
Proof.
  unfold is_byte. intros Ha Hb Hc. unfold encode3.
  rewrite <- Z.lor_assoc, (lor_shift b c 8), lor_shift by lia. set (data := a * 2 ^ 16 + (b * 2 ^ 8 + c)).
  cbv zeta. eexists _, _, _, _. split; [reflexivity|]. rewrite !land63, !shiftr_div by lia.
  assert (H1 : 0 <= data / 2 ^ 18 < 64) by (subst data; divmod). assert (H2 : 0 <= (data / 2 ^ 12) mod 64 < 64) by divmod.
  assert (H3 : 0 <= (data / 2 ^ 6) mod 64 < 64) by divmod. assert (H4 : 0 <= data mod 64 < 64) by divmod.
  destruct (code_spec _ H1) as [E1 N1], (code_spec _ H2) as [E2 N2], (code_spec _ H3) as [E3 N3], (code_spec _ H4) as [E4 N4].
  split; [|repeat (constructor; [done|]); constructor]. unfold decode4. rewrite E1, E2, E3, E4, combine4 by done.
  replace (data / 2 ^ 18 * 2 ^ 18 + (data / 2 ^ 12) mod 64 * 2 ^ 12 + (data / 2 ^ 6) mod 64 * 2 ^ 6 + data mod 64) with data by divmod.
  rewrite !shiftr_div by lia. unfold u8. subst data. repeat f_equal; divmod.
Qed.

Lemma decode_encode2 a b : is_byte a -> is_byte b ->
  exists x y z, encode_groups [a; b] false = [x; y; z] /\ decode_groups [x; y; z] = [a; b] /\ Forall (fun e => e <> 61) [x; y; z].
Proof.
  unfold is_byte. intros Ha Hb. cbn [encode_groups app]. rewrite (lor_shift a b 8) by lia. set (data := a * 2 ^ 8 + b).
  eexists _, _, _. split; [reflexivity|]. rewrite land63, land15, !shiftr_div, Z.shiftl_mul_pow2 by lia.
  assert (H1 : 0 <= data / 2 ^ 10 < 64) by (subst data; divmod). assert (H2 : 0 <= (data / 2 ^ 4) mod 64 < 64) by divmod.
  assert (H3 : 0 <= data mod 16 * 2 ^ 2 < 64) by divmod.
  destruct (code_spec _ H1) as [E1 N1], (code_spec _ H2) as [E2 N2], (code_spec _ H3) as [E3 N3].
  split; [|repeat (constructor; [done|]); constructor]. cbn [decode_groups]. rewrite E1, E2, E3, combine3 by done.
  rewrite !shiftr_div by lia. unfold u8. subst data. repeat f_equal; divmod.
Qed.

Lemma decode_encode1 a : is_byte a ->
  exists x y, encode_groups [a] false = [x; y] /\ decode_groups [x; y] = [a] /\ Forall (fun e => e <> 61) [x; y].
Proof.
  unfold is_byte. intros Ha. cbn [encode_groups app]. eexists _, _. split; [reflexivity|].
  rewrite land3, !shiftr_div, Z.shiftl_mul_pow2 by lia.
  assert (H1 : 0 <= a / 2 ^ 2 < 64) by divmod. assert (H2 : 0 <= a mod 4 * 2 ^ 4 < 64) by divmod.
  destruct (code_spec _ H1) as [E1 N1], (code_spec _ H2) as [E2 N2].
  split; [|repeat (constructor; [done|]); constructor]. cbn [decode_groups]. rewrite E1, E2, lor_shift by (done || lia).
  rewrite !shiftr_div by lia. unfold u8. repeat f_equal; divmod.
Qed.

(** Induction in steps of three bytes. *)
Lemma list_ind3 {A} (P : list A -> Prop) : P [] -> (forall a, P [a]) -> (forall a b, P [a; b]) ->
  (forall a b c s, P s -> P (a :: b :: c :: s)) -> forall s, P s.
Proof.
  intros H0 H1 H2 H3 s. enough (forall n s, (length s <= n)%nat -> P s) as H by (by apply (H (length s))). clear s.
  induction n as [|n IH]; intros [|a [|b [|c s]]] Hs; cbn in Hs; auto; [lia..|]. apply H3, IH. lia.
Qed.

Lemma groups_roundtrip s : Forall is_byte s ->
  decode_groups (encode_groups s false) = s /\ Forall (fun e => e <> 61) (encode_groups s false).
Proof.
  induction s as [|a|a b|a b c s IH] using list_ind3; intros Hs.
  - done.
  - apply Forall_cons in Hs as [Ha _]. destruct (decode_encode1 a Ha) as (x & y & -> & Hd & Hn). done.
  - apply Forall_cons in Hs as [Ha [Hb _]%Forall_cons]. destruct (decode_encode2 a b Ha Hb) as (x & y & z & -> & Hd & Hn). done.
  - apply Forall_cons in Hs as [Ha [Hb [Hc Hs]%Forall_cons]%Forall_cons]. destruct (IH Hs) as [IH1 IH2].
    destruct (decode_encode3 a b c Ha Hb Hc) as (w & x & y & z & E & Hd & Hn). cbn [encode_groups]. rewrite E. cbn [app decode_groups].
    rewrite Hd, IH1. split; [done|]. by apply (Forall_app_2 _ [w; x; y; z]).
Qed.

(** Padding adds nothing, one or two '='. *)
Definition pad (s : list Z) : list Z :=
  match Z.of_nat (length s) mod 3 with 1 => [61; 61] | 2 => [61] | _ => [] end.

Lemma encode_padded s : encode_groups s true = encode_groups s false ++ pad s
  /\ Z.of_nat (length (encode_groups s true)) = BASE64_ENCODED_LEN (Z.of_nat (length s))
  /\ (length (encode_groups s false) + length (pad s) = length (encode_groups s true))%nat.
Proof.
  induction s as [|a|a b|a b c s IH] using list_ind3; try done.
  destruct IH as (IH1 & IH2 & IH3).
  assert (Hp : pad (a :: b :: c :: s) = pad s).
  { unfold pad. cbn [length]. replace (Z.of_nat (S (S (S (length s))))) with (Z.of_nat (length s) + 1 * 3) by lia.
    by rewrite Z.mod_add by lia. }
  cbn [encode_groups]. rewrite Hp, IH1, <- app_assoc, !length_app. split; [done|]. cbn [length encode3].
  unfold BASE64_ENCODED_LEN in *. rewrite IH1, length_app in IH2. split; [|lia]. rewrite !Nat2Z.inj_add in *. cbn [length].
  replace (Z.of_nat (S (S (S (length s)))) + 2) with (Z.of_nat (length s) + 2 + 1 * 3) by lia. rewrite Z.div_add by lia. lia.
Qed.

(** The encoded length is never 1 modulo 4, and the padding tells it. *)
Lemma strip_padded s e : Forall (fun x => x <> 61) e -> (length (pad s) > 0 -> length e > 1)%nat ->
  strip_padding (e ++ pad s) = e.
Proof.
  intros Hn He. unfold strip_padding, pad in *.
  assert (Hlast : forall k, (k < length e)%nat -> (nth k e 0 =? 61) = false).
  { intros k Hk. apply Z.eqb_neq. rewrite Forall_forall in Hn. apply Hn. apply list_elem_of_In, nth_In. done. }
  assert (Hnopad : strip_padding (e ++ []) = e).
  { rewrite app_nil_r. unfold strip_padding. destruct e as [|x [|y e]]; [done|done|].
    rewrite !Hlast by (cbn; lia). by rewrite !andb_false_r. }
  destruct (Z.of_nat (length s) mod 3) as [|[[]|[]|]|]; try exact Hnopad; cbn [length] in He; specialize (He ltac:(lia)).
  - rewrite length_app. cbn [length]. replace (length e + 1 - 2)%nat with (length e - 1)%nat by lia.
    rewrite app_nth1, Hlast, andb_false_r by lia. replace (length e + 1 - 1)%nat with (length e) by lia.
    rewrite (proj2 (Z.ltb_lt _ _)) by lia. rewrite app_nth2, Nat.sub_diag by lia. cbn [nth andb Z.eqb Pos.eqb]. apply take_app_length.
  - rewrite length_app. cbn [length]. replace (length e + 2 - 2)%nat with (length e) by lia.
    rewrite (proj2 (Z.ltb_lt _ _)) by lia. rewrite app_nth2, Nat.sub_diag by lia. cbn [nth andb Z.eqb Pos.eqb]. apply take_app_length.
Qed.

Lemma encoded_long s : (length s > 0)%nat -> (length (encode_groups s false) > 1)%nat.
Proof. destruct s as [|a [|b [|c s]]]; cbn [encode_groups encode3]; rewrite ?length_app; cbn; lia. Qed.

(** C30: decoding what [ribs_base64_encode] produces, with or without padding, gives back the
    bytes; with padding the encoded length is [BASE64_ENCODED_LEN], and it is never more, so
    that a buffer of [BASE64_ENCODED_SIZE] bytes is enough. *)
Theorem base64_roundtrip (src : list Z) (padding : bool) (Hbytes : Forall is_byte src) :
  let (d, n) := ribs_base64_encode src padding in
  ribs_base64_decode (take (Z.to_nat n) d) = (src ++ [0], Z.of_nat (length src))
  /\ n <= BASE64_ENCODED_LEN (Z.of_nat (length src)) /\ (padding = true -> n = BASE64_ENCODED_LEN (Z.of_nat (length src)))
  /\ Z.of_nat (length d) <= BASE64_ENCODED_SIZE (Z.of_nat (length src)).
Proof.
  destruct (groups_roundtrip src Hbytes) as [Hd Hn]. destruct (encode_padded src) as (Hpad & Hlen & Hsum).
  unfold ribs_base64_encode. cbv zeta. rewrite Nat2Z.id, take_app_length, length_app. unfold BASE64_ENCODED_SIZE. cbn [length].
  assert (Hstrip : decode_groups (strip_padding (encode_groups src padding)) = src).
  { assert (Hs0 : (length src > 0 -> length (encode_groups src false) > 1)%nat) by apply encoded_long.
    destruct padding.
    - rewrite Hpad, strip_padded; [done|done|]. intros Hp. apply Hs0. destruct src; [exfalso; vm_compute in Hp; lia|cbn; lia].
    - rewrite <- (app_nil_r (encode_groups src false)). change [] with (pad []) at 1. rewrite strip_padded; [done|done|vm_compute; lia]. }
  unfold ribs_base64_decode. rewrite Hstrip. split; [done|]. destruct padding; [|split; [lia|split; [done|lia]]]. lia.
Qed.

Lemma base64_roundtrip_witness :
  ribs_base64_encode [77; 97; 110; 255] true = ([84; 87; 70; 117; 95; 119; 61; 61; 0], 8)
  /\ ribs_base64_decode [84; 87; 70; 117; 95; 119; 61; 61] = ([77; 97; 110; 255; 0], 4).
Proof.
  assert (Hb : Forall is_byte [77; 97; 110; 255]) by (repeat (constructor; [unfold is_byte; lia|]); constructor).
  split; [vm_compute; reflexivity|]. exact (proj1 (base64_roundtrip [77; 97; 110; 255] true Hb)).
Defined.
