(* ===== verification/Cstring.v ===== *)
(** * Cstring: C strings and numbers in text

    A string is the list of the bytes before its terminator.  What the HTTP parsers use of
    <string.h>, <strings.h> and <stdlib.h>. *)

From Stdlib Require Import String Ascii ZArith Lia.
From stdpp Require Import base numbers list.
From S2P Require Import Prelude.

(** [strchrnul(s, c)]: the bytes before the first [c], and what is from there on. *)
Fixpoint strchrnul (c : Z) (s : list Z) : list Z * list Z :=
  match s with
  | [] => ([], [])
  | x :: r => if x =? c then ([], s) else let (a, b) := strchrnul c r in (x :: a, b)
  end.

(** [strrchr(s, c)]: what is behind the last [c]. *)
Fixpoint strrchr (c : Z) (s : list Z) : option (list Z) :=
  match s with
  | [] => None
  | x :: r => match strrchr c r with Some t => Some t | None => if x =? c then Some r else None end
  end.

(** [tolower] in the C locale. *)
Definition tolower (c : Z) : Z := if (65 <=? c) && (c <=? 90) then c + 32 else c.

(** [strncmp(prefix, s, strlen(prefix)) == 0] *)
Fixpoint starts_with (prefix s : list Z) : bool :=
  match prefix, s with
  | [], _ => true
  | a :: prefix, b :: s => (a =? b) && starts_with prefix s
  | _ :: _, [] => false
  end.

(** The bytes of a string literal. *)
Definition str (s : string) : list Z := (fun c => Z.of_nat (nat_of_ascii c)) <$> list_ascii_of_string s.

(** The string that starts at the first of the given bytes of memory, if it ends. *)
Fixpoint c_string (mem : list Z) : option (list Z) :=
  match mem with
  | [] => None
  | c :: mem => if c =? 0 then Some [] else s ← c_string mem; Some (c :: s)
  end.

(** [strncasecmp(prefix, s, strlen(prefix)) == 0] *)
Definition starts_with_nocase (prefix s : list Z) : bool := starts_with (tolower <$> prefix) (tolower <$> s).

(** [strstr(s, needle)] and [strcasestr(s, needle)]: where the first occurrence starts. *)
Fixpoint strstr_by (at_ : list Z -> bool) (s : list Z) : option nat :=
  if at_ s then Some O
  else match s with
       | [] => None
       | _ :: r => i ← strstr_by at_ r; Some (S i)
       end.
Definition strstr (needle s : list Z) : option nat := strstr_by (starts_with needle) s.
Definition strcasestr (needle s : list Z) : option nat := strstr_by (starts_with_nocase needle) s.

(** [atoi]: white space, a sign, and digits, as [strtol] reads them, cut to an [int]. *)
Definition is_digit (c : Z) : bool := (48 <=? c) && (c <=? 57).
Definition is_space (c : Z) : bool := (c =? 32) || ((9 <=? c) && (c <=? 13)).

Fixpoint digits_value (acc : Z) (s : list Z) : Z :=
  match s with
  | c :: r => if is_digit c then digits_value (10 * acc + (c - 48)) r else acc
  | [] => acc
  end.
Fixpoint skip_while (p : Z -> bool) (s : list Z) : list Z :=
  match s with c :: r => if p c then skip_while p r else s | [] => [] end.

Definition int_of_long (v : Z) : Z := let w := u32 v in if w <? 2 ^ 31 then w else w - 2 ^ 32.
Definition atoi (s : list Z) : Z :=
  let s := skip_while is_space s in
  let v := match s with
           | 45 :: r => - digits_value 0 r
           | 43 :: r => digits_value 0 r
           | _ => digits_value 0 s
           end in
  int_of_long (Z.max (- 2 ^ 63) (Z.min v (2 ^ 63 - 1))).

(** [strtol] and [strtoul]: white space, a sign, a prefix that sets the base, and digits. *)
Definition digit_value (c : Z) : Z :=
  if is_digit c then c - 48
  else if (97 <=? c) && (c <=? 122) then c - 87
  else if (65 <=? c) && (c <=? 90) then c - 55
  else 36.
Fixpoint digits_in (base acc : Z) (s : list Z) : Z :=
  match s with
  | c :: r => if digit_value c <? base then digits_in base (base * acc + digit_value c) r else acc
  | [] => acc
  end.
Definition starts_digit (base : Z) (s : list Z) : bool := match s with c :: _ => digit_value c <? base | [] => false end.

(** The base and the text of the digits; [None] if there is no number. *)
Definition based (base : Z) (s : list Z) : option (Z * list Z) :=
  let hex := match s with 48 :: x :: r => ((x =? 120) || (x =? 88)) && starts_digit 16 r | _ => false end in
  if ((base =? 16) || (base =? 0)) && hex then Some (16, drop 2 s)
  else
    let base := if base =? 0 then (if starts_with [48] s then 8 else 10) else base in
    if starts_digit base s then Some (base, s) else None.

(** Whether there is a minus, and the magnitude. *)
Definition strtox (base : Z) (s : list Z) : option (bool * Z) :=
  let s := skip_while is_space s in
  let '(neg, s) := match s with 45 :: r => (true, r) | 43 :: r => (false, r) | _ => (false, s) end in
  '(b, s) ← based base s; Some (neg, digits_in b 0 s).

(** [None] if [errno] is set, or there is no number. *)
Definition strtol (base : Z) (s : list Z) : option Z :=
  '(neg, n) ← strtox base s;
  let v := if (neg : bool) then - n else n in
  if (- 2 ^ 63 <=? v) && (v <? 2 ^ 63) then Some v else None.
Definition strtoul (base : Z) (s : list Z) : Z :=
  match strtox base s with
  | None => 0
  | Some (neg, n) => if n <? 2 ^ 64 then u64 (if (neg : bool) then - n else n) else 2 ^ 64 - 1
  end.

(** [strncmp(a, b, n) <= 0]: the order of the first bytes that differ, an ended string before any other. *)
Fixpoint strncmp_le (n : nat) (a b : list Z) : bool :=
  match n, a, b with
  | O, _, _ => true
  | S _, [], _ => true
  | S _, _ :: _, [] => false
  | S n, x :: a, y :: b => if x =? y then strncmp_le n a b else x <? y
  end.

(** The decimal digits of a number ([%zu]). *)
Fixpoint dec_loop (fuel : nat) (n : Z) (acc : list Z) : list Z :=
  match fuel with
  | O => acc
  | S k => let acc := (48 + n mod 10) :: acc in if n <? 10 then acc else dec_loop k (n / 10) acc
  end.
Definition dec (n : Z) : list Z := dec_loop 20 n [].

Lemma strchrnul_app c s : s = fst (strchrnul c s) ++ snd (strchrnul c s).
Proof.
  induction s as [|x s IH]; [done|]. cbn. destruct (x =? c); [done|]. destruct (strchrnul c s) as [a b]. cbn in *. by rewrite <- IH.
Qed.

Lemma strchrnul_found c a b : c ∉ a -> strchrnul c (a ++ c :: b) = (a, c :: b).
Proof.
  induction a as [|x a IH]; intros Ha; cbn; [by rewrite Z.eqb_refl|]. apply not_elem_of_cons in Ha as [Hx Ha].
  rewrite (proj2 (Z.eqb_neq x c)) by done. by rewrite IH.
Qed.

Lemma strchrnul_none c a : c ∉ a -> strchrnul c a = (a, []).
Proof.
  induction a as [|x a IH]; intros Ha; cbn; [done|]. apply not_elem_of_cons in Ha as [Hx Ha].
  rewrite (proj2 (Z.eqb_neq x c)) by done. by rewrite IH.
Qed.

Lemma strrchr_last c b : c ∉ b -> forall a, strrchr c (a ++ c :: b) = Some b.
Proof.
  intros Hb a. assert (Hn : strrchr c b = None) by (induction b as [|x b IH]; [done|]; apply not_elem_of_cons in Hb as [Hx Hb]; cbn; rewrite IH by done; by rewrite (proj2 (Z.eqb_neq x c))).
  induction a as [|x a IH]; cbn; [by rewrite Hn, Z.eqb_refl|by rewrite IH].
Qed.

Lemma strchrnul_len c s : (length (snd (strchrnul c s)) <= length s)%nat.
Proof. rewrite (strchrnul_app c s) at 2. rewrite length_app. lia. Qed.

Lemma c_string_app x b : 0 ∉ x -> c_string (x ++ 0 :: b) = Some x.
Proof.
  induction x as [|c x IH]; intros Hx; [done|]. apply not_elem_of_cons in Hx as [Hc Hx]. cbn.
  rewrite (proj2 (Z.eqb_neq c 0)), IH by done. done.
Qed.

(** A search depends on the text up to the end of the first match. *)
Lemma starts_with_spec prefix s : starts_with prefix s = true <-> exists r, s = prefix ++ r.
Proof.
  revert s. induction prefix as [|a prefix IH]; intros s; cbn.
  - split; [by exists s|done].
  - destruct s as [|b s]; [split; [done|by intros []]|]. rewrite andb_true_iff, Z.eqb_eq, IH. split.
    + intros [-> [r ->]]. by exists r.
    + intros [r [= -> ->]]. split; [done|by exists r].
Qed.

Lemma strstr_Some needle s i : strstr needle s = Some i -> exists r, s = take i s ++ needle ++ r.
Proof.
  revert i. unfold strstr. induction s as [|c s IH]; intros i; cbn [strstr_by].
  - destruct (starts_with needle []) eqn:E; [|done]. intros [= <-]. apply starts_with_spec in E as [r Hr]. by exists r.
  - destruct (starts_with needle (c :: s)) eqn:E.
    + intros [= <-]. apply starts_with_spec in E as [r Hr]. by exists r.
    + destruct (strstr_by _ s) as [j|]; [|done]. intros [= <-]. destruct (IH j eq_refl) as [r Hr]. exists r. cbn. by rewrite <- Hr.
Qed.

Lemma strstr_bound needle s i : strstr needle s = Some i -> (i + length needle <= length s)%nat.
Proof.
  revert i. unfold strstr. induction s as [|c s IH]; intros i; cbn [strstr_by].
  - destruct (starts_with needle []) eqn:E; [|done]. intros [= <-]. apply starts_with_spec in E as [r Hr].
    apply (f_equal length) in Hr. rewrite length_app in Hr. cbn in *. lia.
  - destruct (starts_with needle (c :: s)) eqn:E.
    + intros [= <-]. apply starts_with_spec in E as [r Hr]. rewrite Hr, length_app. lia.
    + destruct (strstr_by _ s) as [j|]; [|done]. intros [= <-]. specialize (IH j eq_refl). cbn. lia.
Qed.

(** The first occurrence of a needle in [a ++ needle] stays the first one in longer texts. *)
Lemma strstr_extend needle s r i : strstr needle s = Some i -> strstr needle (s ++ r) = Some i.
Proof.
  revert i. unfold strstr. induction s as [|c s IH]; intros i; cbn [strstr_by app].
  - destruct (starts_with needle []) eqn:E; [|done]. intros [= <-]. apply starts_with_spec in E as [r' Hr'].
    symmetry in Hr'. apply app_eq_nil in Hr' as [-> _]. by destruct r.
  - destruct (starts_with needle (c :: s)) eqn:E.
    + intros [= <-]. apply starts_with_spec in E as [r' Hr'].
      rewrite (proj2 (starts_with_spec needle (c :: s ++ r))); [done|]. exists (r' ++ r). by rewrite app_assoc, <- Hr'.
    + intros Hi. destruct (strstr_by _ s) as [j|] eqn:Ej; [|done].
      destruct (starts_with needle (c :: s ++ r)) eqn:E2; [exfalso|by rewrite (IH j eq_refl)].
      pose proof (strstr_bound needle s j Ej). apply starts_with_spec in E2 as [q Hq].
      assert (starts_with needle (c :: s) = true); [|congruence]. apply starts_with_spec.
      exists (drop (length needle) (c :: s)). rewrite <- (take_drop (length needle) (c :: s)) at 1. f_equal.
      change (c :: s ++ r) with ((c :: s) ++ r) in Hq. apply (f_equal (take (length needle))) in Hq.
      rewrite take_app_length, take_app_le in Hq by (cbn; lia). done.
Qed.

(** If it is where the text read so far ends, or ends later, a shorter text has no occurrence but that one. *)
Lemma strstr_prefix needle s r i j : strstr needle (s ++ r) = Some i -> strstr needle s = Some j -> j = i.
Proof. intros Hi Hj. apply (strstr_extend _ _ r) in Hj. congruence. Qed.

Lemma strstr_cover needle s r i : strstr needle (s ++ r) = Some i -> (i + length needle <= length s)%nat -> strstr needle s = Some i.
Proof.
  revert i. unfold strstr. induction s as [|c s IH]; intros i Hi Hle.
  - destruct needle; [|cbn in Hle; lia]. cbn in Hle. assert (i = 0)%nat as -> by lia. done.
  - cbn [strstr_by app] in *. destruct (starts_with needle (c :: s ++ r)) eqn:E2.
    + injection Hi as <-. rewrite (proj2 (starts_with_spec needle (c :: s))); [done|]. apply starts_with_spec in E2 as [q Hq].
      exists (drop (length needle) (c :: s)). rewrite <- (take_drop (length needle) (c :: s)) at 1. f_equal.
      change (c :: s ++ r) with ((c :: s) ++ r) in Hq. apply (f_equal (take (length needle))) in Hq.
      rewrite take_app_length, take_app_le in Hq by (cbn in *; lia). done.
    + destruct (strstr_by _ (s ++ r)) as [j|] eqn:Ej; [|done]. injection Hi as <-.
      destruct (starts_with needle (c :: s)) eqn:E.
      { apply starts_with_spec in E as [q Hq]. assert (starts_with needle (c :: s ++ r) = true); [|congruence].
        apply starts_with_spec. exists (q ++ r). by rewrite app_assoc, <- Hq. }
      by rewrite (IH j eq_refl) by (cbn in Hle; lia).
Qed.

Lemma length_dec_loop k : forall n acc, (length (dec_loop k n acc) <= k + length acc)%nat.
Proof.
  induction k as [|k IH]; intros n acc; cbn [dec_loop]; [lia|]. destruct (n <? 10); cbn [length]; [lia|].
  etrans; [apply IH|]. cbn [length]. lia.
Qed.
Lemma length_dec n : (length (dec n) <= 20)%nat.
Proof. apply (length_dec_loop 20). Qed.

Lemma strstr_occurs needle x r : strstr needle (x ++ needle ++ r) <> None.
Proof.
  unfold strstr. induction x as [|c x IH]; cbn [app].
  - assert (E : starts_with needle (needle ++ r) = true) by (apply starts_with_spec; by exists r). by destruct (needle ++ r); cbn [strstr_by]; rewrite E.
  - cbn [strstr_by]. destruct (starts_with needle (c :: x ++ needle ++ r)); [done|]. by destruct (strstr_by _ _).
Qed.

Lemma atoi_range s : - 2 ^ 31 <= atoi s < 2 ^ 31.
Proof. unfold atoi, int_of_long. set (v := Z.max _ _). pose proof (u32_range v). destruct (Z.ltb_spec (u32 v) (2 ^ 31)); lia. Qed.
