(* ===== verification/Disk.v ===== *)
(** * Disk: directories, symbolic links and the names of files

    The files of [Os.v] with directories, links and times added, and the part of <stdlib.h> and
    <sys/stat.h> that looks names up: [realpath] and [stat]. *)

From Stdlib Require Import String.
From stdpp Require Import base numbers list gmap.
From Stdlib Require Import ZArith Lia.
From S2P Require Import Prelude Words Os Cstring.

Definition PATH_MAX : Z := 4096.
Definition MAXSYMLINKS : nat := 40.

(** ** The files *)

(** Of an inode: the entries of a directory ([None] for a file), and the time of its last change. *)
Record attr := Attr { a_entries : option (list (list Z)); a_mtime : Z }.
(** Attributes by inode, symbolic links by name, and the working directory. *)
Record tree := Tree { t_attrs : gmap Z attr; t_links : gmap path path; t_cwd : list (list Z) }.

Definition attr_of (t : tree) (ino : Z) : attr := default (Attr None 0) (t_attrs t !! ino).

(** *** [realpath] *)
Fixpoint components (p : list Z) : list (list Z) :=
  match p with
  | [] => [[]]
  | c :: r => if c =? 47 then [] :: components r
              else match components r with n :: ns => (c :: n) :: ns | [] => [[c]] end
  end.
Definition name_of (comps : list (list Z)) : path := match comps with [] => [47] | _ => concat (cons 47 <$> comps) end.
Definition absolute (p : path) : bool := starts_with [47] p.

(** Walk from the directory [done] along [todo]; [n] links can still be followed.  Only the last
    component can be a file. *)
Fixpoint walk (fs : fsys) (t : tree) (n : nat) : list (list Z) -> list (list Z) -> option (list (list Z)) :=
  fix go (done todo : list (list Z)) {struct todo} :=
    match todo with
    | [] => Some done
    | c :: todo =>
        if bool_decide (c = []) || bool_decide (c = str ".") then go done todo
        else if bool_decide (c = str "..") then go (removelast done) todo
        else
          let next := done ++ [c] in
          match t_links t !! name_of next with
          | Some target =>
              match n with
              | O => None
              | S n => walk fs t n (if absolute target then [] else done) (components target ++ todo)
              end
          | None =>
              ino ← fs_dir fs !! name_of next;
              match a_entries (attr_of t ino), todo with
              | Some _, _ => go next todo
              | None, [] => Some next
              | None, _ => None
              end
          end
    end.

(** The name without links, dots and repeated slashes, of something that exists. *)
Definition realpath (fs : fsys) (t : tree) (p : path) : option path :=
  match p with
  | [] => None
  | _ =>
      comps ← walk fs t MAXSYMLINKS (if absolute p then [] else t_cwd t) (components p);
      if Z.of_nat (length (name_of comps)) <? PATH_MAX then Some (name_of comps) else None
  end.

(** [struct stat] *)
Record stat := Stat { st_is_dir : bool; st_size : Z; st_mtime : Z }.

Definition stat_of (t : tree) (ino size : Z) : stat :=
  Stat (bool_decide (is_Some (a_entries (attr_of t ino)))) size (a_mtime (attr_of t ino)).

(** [stat] of a name: links are followed. *)
Definition stat_name (fs : fsys) (t : tree) (name : path) : option stat :=
  r ← realpath fs t name; ino ← fs_dir fs !! r; data ← fs_data fs !! ino;
  Some (stat_of t ino (Z.of_nat (length data))).

(** ** Names *)

(** What every disk satisfies. *)
Record disk_ok (fs : fsys) (t : tree) : Prop := {
  dk_next : forall n ino, fs_dir fs !! n = Some ino -> ino < fs_next fs;
  dk_empty : fs_dir fs !! [] = None;
  dk_root : forall ino, fs_dir fs !! [47] = Some ino -> is_Some (a_entries (attr_of t ino));
}.

(** The name of a directory in front of that of an entry. *)
Definition dir_text (dir : list (list Z)) : list Z := concat (cons 47 <$> dir).
Lemma name_of_snoc dir b : name_of (dir ++ [b]) = dir_text dir ++ 47 :: b.
Proof. unfold name_of, dir_text. rewrite fmap_app, concat_app. cbn. rewrite app_nil_r. by destruct dir. Qed.

Section Names.
Context (fs : fsys) (t : tree).

(** A component that names an entry. *)
Definition entry_name (c : list Z) : Prop := c <> [] /\ c <> str "." /\ c <> str ".." /\ 47 ∉ c.

(** Directories by their names, without links. *)
Inductive directory : list (list Z) -> Prop :=
  | root_directory : directory []
  | sub_directory dir c ino es : directory dir -> entry_name c -> t_links t !! name_of (dir ++ [c]) = None -> fs_dir fs !! name_of (dir ++ [c]) = Some ino ->
      a_entries (attr_of t ino) = Some es -> directory (dir ++ [c]).
(** Directories and files. *)
Inductive canonical : list (list Z) -> Prop :=
  | canonical_directory comps : directory comps -> canonical comps
  | canonical_file dir c ino : directory dir -> entry_name c -> t_links t !! name_of (dir ++ [c]) = None -> fs_dir fs !! name_of (dir ++ [c]) = Some ino ->
      a_entries (attr_of t ino) = None -> canonical (dir ++ [c]).

Lemma directory_parent comps : directory comps -> directory (removelast comps).
Proof. destruct 1; [constructor|]. by rewrite removelast_last. Qed.

Lemma components_ne p : components p <> [].
Proof. destruct p as [|c p]; [done|]. cbn. destruct (c =? 47); [done|]. by destruct (components p). Qed.
Lemma components_slash p : Forall (fun c => 47 ∉ c) (components p).
Proof.
  induction p as [|c p IH]; [by repeat constructor; apply not_elem_of_nil|]. cbn. destruct (Z.eqb_spec c 47) as [->|Hc]; [by constructor; [apply not_elem_of_nil|]|].
  destruct (components p) as [|n ns]; [constructor; [|done]; set_solver|]. apply Forall_cons in IH as [Hn Hns]. constructor; [|done]. set_solver.
Qed.

(** What the walk ends at, whatever it passes. *)
Lemma walk_canonical n : forall dir todo r, directory dir -> Forall (fun c => 47 ∉ c) todo -> walk fs t n dir todo = Some r -> canonical r.
Proof.
  induction n as [|n IHn]; intros dir todo; revert dir; (induction todo as [|c todo IH]; intros dir r Hd Hs; cbn [walk]; [intros [= <-]; by constructor|]);
    apply Forall_cons in Hs as [Hc Hs]; (destruct (bool_decide_reflect (c = [])); [by apply IH|]); (destruct (bool_decide_reflect (c = str ".")); [by apply IH|]); cbn [orb];
    (destruct (bool_decide_reflect (c = str "..")); [by apply IH, Hs; apply directory_parent|]).
  1: destruct (t_links t !! name_of (dir ++ [c])) as [target|] eqn:El; [done|].
  2: destruct (t_links t !! name_of (dir ++ [c])) as [target|] eqn:El;
       [apply IHn; [destruct (absolute target); [constructor|done]|apply Forall_app; split; [apply components_slash|done]]|].
  all: destruct (fs_dir fs !! name_of (dir ++ [c])) as [ino|] eqn:Ei; [|done]; cbn [mbind option_bind]; destruct (a_entries (attr_of t ino)) as [es|] eqn:Ea; [apply IH; [by eapply sub_directory|done]|];
       destruct todo; [|done]; intros [= <-]; by eapply canonical_file.
Qed.

(** Walking along a name that has no links goes where it says. *)
Lemma walk_step n dir c todo ino : entry_name c -> t_links t !! name_of (dir ++ [c]) = None -> fs_dir fs !! name_of (dir ++ [c]) = Some ino ->
  walk fs t n dir (c :: todo) = match a_entries (attr_of t ino), todo with Some _, _ => walk fs t n (dir ++ [c]) todo | None, [] => Some (dir ++ [c]) | None, _ => None end.
Proof.
  intros (H1 & H2 & H3 & _) Hl Hi. destruct n; cbn [walk]; rewrite !bool_decide_eq_false_2 by done; cbn [orb]; rewrite Hl, Hi; done.
Qed.
Lemma walk_directory n comps : directory comps -> forall todo, walk fs t n [] (comps ++ todo) = walk fs t n comps todo.
Proof.
  induction 1 as [|dir c ino es Hd IH Hc Hl Hi Ha]; intros todo; [done|]. rewrite <- app_assoc. cbn [app]. rewrite IH, (walk_step n dir c todo ino) by done. by rewrite Ha.
Qed.
Lemma walk_nil n dir : walk fs t n dir [] = Some dir.
Proof. by destruct n. Qed.
Lemma walk_self n comps : canonical comps -> walk fs t n [] comps = Some comps.
Proof.
  intros [comps' Hd|dir c ino Hd Hc Hl Hi Ha].
  - pose proof (walk_directory n comps' Hd []) as E. rewrite app_nil_r, walk_nil in E. done.
  - rewrite (walk_directory n dir Hd), (walk_step n dir c [] ino) by done. by rewrite Ha.
Qed.

Lemma canonical_names comps : canonical comps -> Forall entry_name comps.
Proof.
  assert (Hdir : forall comps, directory comps -> Forall entry_name comps) by (induction 1; [constructor|apply Forall_app; split; [done|by constructor]]).
  intros [comps' Hd|dir c ino Hd Hc Hl Hi Ha]; [auto|]. apply Forall_app. split; [auto|by constructor].
Qed.

Lemma components_app c : 47 ∉ c -> forall p, components (c ++ 47 :: p) = c :: components p.
Proof.
  induction c as [|x c IH]; intros Hc p; [done|]. apply not_elem_of_cons in Hc as [Hx Hc]. cbn [app components]. rewrite (proj2 (Z.eqb_neq x 47)), IH by done. done.
Qed.
Lemma components_word c : 47 ∉ c -> components c = [c].
Proof. induction c as [|x c IH]; intros Hc; [done|]. apply not_elem_of_cons in Hc as [Hx Hc]. cbn [components]. by rewrite (proj2 (Z.eqb_neq x 47)), IH. Qed.
Lemma components_name c comps : Forall entry_name (c :: comps) -> components (c ++ concat (cons 47 <$> comps)) = c :: comps.
Proof.
  revert c. induction comps as [|d comps IH]; intros c [(_ & _ & _ & Hc) Hs]%Forall_cons; cbn [fmap list_fmap concat].
  - rewrite app_nil_r. by apply components_word.
  - cbn [app]. rewrite components_app by done. by rewrite IH.
Qed.

Lemma walk_skip n dir todo : walk fs t n dir ([] :: todo) = walk fs t n dir todo.
Proof. by destruct n. Qed.

Lemma realpath_spec p r : absolute p = true -> realpath fs t p = Some r -> exists comps, r = name_of comps /\ canonical comps /\ Z.of_nat (length r) < PATH_MAX.
Proof.
  intros Habs Hr. unfold realpath in Hr. destruct p as [|a p]; [done|]. rewrite Habs in Hr. destruct (walk fs t MAXSYMLINKS [] _) as [comps|] eqn:E; [|done]. cbn [mbind option_bind] in Hr.
  destruct (Z.ltb_spec (Z.of_nat (length (name_of comps))) PATH_MAX) as [Hlen|]; [|done]. injection Hr as <-. exists comps. split; [done|]. split; [|done]. eapply walk_canonical; [constructor|apply components_slash|exact E].
Qed.
Lemma realpath_self comps : canonical comps -> Z.of_nat (length (name_of comps)) < PATH_MAX -> realpath fs t (name_of comps) = Some (name_of comps).
Proof.
  intros Hc Hlen. pose proof (walk_self MAXSYMLINKS comps Hc) as Hw. pose proof (canonical_names comps Hc) as Hn. unfold realpath. destruct comps as [|c comps].
  - cbn [name_of absolute starts_with]. change (components [47]) with [[]; [] : list Z]. by rewrite !walk_skip.
  - cbn [name_of] in *. cbn [fmap list_fmap concat app] in *. change (absolute (47 :: ?x)) with true. cbv iota.
    change (components (47 :: ?x)) with ([] :: components x). rewrite components_name, walk_skip, Hw by done. cbn [mbind option_bind name_of]. cbn [fmap list_fmap concat app]. by rewrite (proj2 (Z.ltb_lt _ _)).
Qed.

(** [realpath] gives a name that stands for itself, whatever links, dots and slashes the name it
    is given has: no component of the result is a link, and applying it again changes nothing. *)
Theorem realpath_canonical (p r : path) (Habs : absolute p = true) (Hr : realpath fs t p = Some r) :
  realpath fs t r = Some r /\ exists comps, r = name_of comps /\ canonical comps.
Proof.
  destruct (realpath_spec p r Habs Hr) as (comps & -> & Hc & Hlen). split; [by apply realpath_self|by exists comps].
Qed.
End Names.
