(* ===== verification/FileUtils.v ===== *)
(** * FileUtils: creating and removing directories ([src/file_utils.c])

    The calls on names that <sys/stat.h>, <unistd.h> and <dirent.h> declare, over the directories
    and links of [Disk.v], and the functions that use them. *)

From Stdlib Require Import String.
From stdpp Require Import base numbers list gmap.
From Stdlib Require Import ZArith Lia.
From S2P Require Import Prelude Os Cstring Disk.

Definition ENOENT : Z := 2.
Definition EIO : Z := 5.
Definition EACCES : Z := 13.
Definition EBUSY : Z := 16.
Definition EEXIST : Z := 17.
Definition ENOTDIR : Z := 20.
Definition EISDIR : Z := 21.
Definition EINVAL : Z := 22.
Definition ENAMETOOLONG : Z := 36.
Definition ENOTEMPTY : Z := 39.
Definition ELOOP : Z := 40.
Definition NAME_MAX : Z := 255.

(** The files, [errno], and the number of directory streams that are open. *)
Record disk := Disk { d_fs : fsys; d_tree : tree; d_errno : Z; d_streams : nat }.

(** What the system grants, by the name of a directory: to change its entries, to open it, to read
    it to its end, to close it. *)
Record grants := { g_write : path -> bool; g_read : path -> bool; g_readdir : path -> bool; g_closedir : path -> bool }.
Definition all_granted : grants := {| g_write := fun _ => true; g_read := fun _ => true; g_readdir := fun _ => true; g_closedir := fun _ => true |}.

Definition set_errno (e : Z) : ST disk unit := fun d => Some (tt, Disk (d_fs d) (d_tree d) e (d_streams d)).
Definition get_errno : ST disk Z := fun d => Some (d_errno d, d).
Definition fail_with (e : Z) : ST disk Z := set_errno e;; mret (-1).

(** ** Names *)

(** Why a walk along a name fails. *)
Fixpoint walk_error (fs : fsys) (t : tree) (n : nat) : list (list Z) -> list (list Z) -> Z :=
  fix go (done todo : list (list Z)) {struct todo} :=
    match todo with
    | [] => 0
    | c :: todo =>
        if bool_decide (c = []) || bool_decide (c = str ".") then go done todo
        else if bool_decide (c = str "..") then go (removelast done) todo
        else
          let next := done ++ [c] in
          match t_links t !! name_of next with
          | Some target =>
              match n with
              | O => ELOOP
              | S n => walk_error fs t n (if absolute target then [] else done) (components target ++ todo)
              end
          | None =>
              match fs_dir fs !! name_of next with
              | None => if NAME_MAX <? Z.of_nat (length c) then ENAMETOOLONG else ENOENT
              | Some ino =>
                  match a_entries (attr_of t ino), todo with
                  | Some _, _ => go next todo
                  | None, [] => 0
                  | None, _ => ENOTDIR
                  end
              end
          end
    end.

Definition start_of (t : tree) (p : path) : list (list Z) := if absolute p then [] else t_cwd t.

(** What is at the end of a walk, or an error. *)
Definition resolve (d : disk) (start todo : list (list Z)) : Z + list (list Z) :=
  match walk (d_fs d) (d_tree d) MAXSYMLINKS start todo with
  | Some comps => inr comps
  | None => inl (walk_error (d_fs d) (d_tree d) MAXSYMLINKS start todo)
  end.

Definition lookup_path (d : disk) (p : path) : Z + list (list Z) :=
  match p with
  | [] => inl ENOENT
  | _ => if PATH_MAX <=? Z.of_nat (length p) then inl ENAMETOOLONG else resolve d (start_of (d_tree d) p) (components p)
  end.

(** The entries of a directory; the root directory need not have an inode. *)
Definition entries_at (d : disk) (comps : list (list Z)) : option (list (list Z)) :=
  match fs_dir (d_fs d) !! name_of comps with
  | Some ino => a_entries (attr_of (d_tree d) ino)
  | None => if bool_decide (comps = []) then Some [] else None
  end.

Fixpoint strip_left (p : list Z) : list Z := match p with c :: r => if c =? 47 then strip_left r else p | [] => [] end.
Definition strip_slashes (p : path) : path := reverse (strip_left (reverse p)).

(** For the calls on an entry itself: the directory it is in, links followed, and its name, which is
    empty for the root directory. *)
Definition entry_of_name (d : disk) (p : path) : Z + (list (list Z) * list Z) :=
  match p with
  | [] => inl ENOENT
  | _ =>
      if PATH_MAX <=? Z.of_nat (length p) then inl ENAMETOOLONG
      else
        let comps := components (strip_slashes p) in
        match resolve d (start_of (d_tree d) p) (removelast comps) with
        | inl e => inl e
        | inr dir => match entries_at d dir with Some _ => inr (dir, List.last comps []) | None => inl ENOTDIR end
        end
  end.

Definition dots (c : list Z) : bool := bool_decide (c = str ".") || bool_decide (c = str "..").
Definition no_entry (c : list Z) : bool := bool_decide (c = []) || dots c.

(** ** Calls *)
Section FileUtils.
Context (g : grants) (now : Z).

Definition change_entries (f : list (list Z) -> list (list Z)) (dir : list (list Z)) (d : disk) : gmap Z attr :=
  match fs_dir (d_fs d) !! name_of dir with
  | Some ino => alter (fun a => Attr (f <$> a_entries a) now) ino (t_attrs (d_tree d))
  | None => t_attrs (d_tree d)
  end.

Definition add_entry (dir : list (list Z)) (c : list Z) (new : option (list (list Z))) (fds : gmap Z Z) (d : disk) : disk :=
  let fs := d_fs d in
  let ino := fs_next fs in
  Disk (Fsys (<[name_of (dir ++ [c]) := ino]> (fs_dir fs)) (<[ino := []]> (fs_data fs)) fds (ino + 1))
       (Tree (<[ino := Attr new now]> (change_entries (fun es => es ++ [c]) dir d)) (t_links (d_tree d)) (t_cwd (d_tree d)))
       (d_errno d) (d_streams d).
Definition add_directory (dir : list (list Z)) (c : list Z) (d : disk) : disk := add_entry dir c (Some [str "."; str ".."]) (fs_fds (d_fs d)) d.

Definition drop_entry (dir : list (list Z)) (c : list Z) (d : disk) : disk :=
  let fs := d_fs d in
  Disk (Fsys (delete (name_of (dir ++ [c])) (fs_dir fs)) (fs_data fs) (fs_fds fs) (fs_next fs))
       (Tree (change_entries (filter (fun e => e <> c)) dir d) (delete (name_of (dir ++ [c])) (t_links (d_tree d))) (t_cwd (d_tree d)))
       (d_errno d) (d_streams d).

Definition mkdir (p : path) : ST disk Z := fun d =>
  match entry_of_name d p with
  | inl e => fail_with e d
  | inr (dir, c) =>
      let name := name_of (dir ++ [c]) in
      if no_entry c || bool_decide (is_Some (t_links (d_tree d) !! name)) || bool_decide (is_Some (fs_dir (d_fs d) !! name)) then fail_with EEXIST d
      else if NAME_MAX <? Z.of_nat (length c) then fail_with ENAMETOOLONG d
      else if negb (g_write g (name_of dir)) then fail_with EACCES d
      else Some (0, add_directory dir c d)
  end.

Definition unlink_name (p : path) : ST disk Z := fun d =>
  match entry_of_name d p with
  | inl e => fail_with e d
  | inr (dir, c) =>
      let name := name_of (dir ++ [c]) in
      if no_entry c then fail_with EISDIR d
      else
        match t_links (d_tree d) !! name, fs_dir (d_fs d) !! name with
        | None, None => fail_with ENOENT d
        | None, Some ino =>
            if bool_decide (is_Some (a_entries (attr_of (d_tree d) ino))) then fail_with EISDIR d
            else if negb (g_write g (name_of dir)) then fail_with EACCES d
            else Some (0, drop_entry dir c d)
        | Some _, _ => if negb (g_write g (name_of dir)) then fail_with EACCES d else Some (0, drop_entry dir c d)
        end
  end.

Definition rmdir (p : path) : ST disk Z := fun d =>
  match entry_of_name d p with
  | inl e => fail_with e d
  | inr (dir, c) =>
      let name := name_of (dir ++ [c]) in
      if bool_decide (c = []) then fail_with EBUSY d
      else if bool_decide (c = str ".") then fail_with EINVAL d
      else if bool_decide (c = str "..") then fail_with ENOTEMPTY d
      else
        match t_links (d_tree d) !! name, fs_dir (d_fs d) !! name with
        | Some _, _ => fail_with ENOTDIR d
        | None, None => fail_with ENOENT d
        | None, Some ino =>
            match a_entries (attr_of (d_tree d) ino) with
            | None => fail_with ENOTDIR d
            | Some es =>
                if negb (forallb dots es) then fail_with ENOTEMPTY d
                else if negb (g_write g (name_of dir)) then fail_with EACCES d
                else Some (0, drop_entry dir c d)
            end
        end
  end.

(** [opendir]: the entries that [readdir] will return. *)
Definition opendir (p : path) : ST disk (option (list (list Z))) := fun d =>
  match lookup_path d p with
  | inl e => (set_errno e;; mret None) d
  | inr comps =>
      match entries_at d comps with
      | None => (set_errno ENOTDIR;; mret None) d
      | Some es =>
          if negb (g_read g p) then (set_errno EACCES;; mret None) d
          else Some (Some es, Disk (d_fs d) (d_tree d) (d_errno d) (S (d_streams d)))
      end
  end.
Definition closedir (p : path) : ST disk Z := fun d => Some (if g_closedir g p then 0 else -1, Disk (d_fs d) (d_tree d) (d_errno d) (pred (d_streams d))).

(** [stat]: whether the name is that of a directory. *)
Definition stat_is_dir (p : path) : ST disk (option bool) := fun d =>
  match lookup_path d p with
  | inl e => (set_errno e;; mret None) d
  | inr comps => Some (Some (bool_decide (is_Some (entries_at d comps))), d)
  end.

(** [mkstemp]: [letters] are those it puts in the place of the last six of the name. *)
Definition mkstemp (o : os) (letters : list Z) (template : path) : ST disk (Z * path) := fun d =>
  let name := take (length template - 6) template ++ letters in
  let fd := sys_open o name 0xC2 in
  match entry_of_name d name with
  | inl e => (r ← fail_with e; mret (r, name)) d
  | inr (dir, c) =>
      if no_entry c || bool_decide (is_Some (t_links (d_tree d) !! name_of (dir ++ [c]))) || bool_decide (is_Some (fs_dir (d_fs d) !! name_of (dir ++ [c])))
      then (r ← fail_with EEXIST; mret (r, name)) d
      else if NAME_MAX <? Z.of_nat (length c) then (r ← fail_with ENAMETOOLONG; mret (r, name)) d
      else if negb (g_write g (name_of dir)) || (fd <? 0) then (r ← fail_with EACCES; mret (r, name)) d
      else Some ((fd, name), add_entry dir c None (<[fd := fs_next (d_fs d)]> (fs_fds (d_fs d))) d)
  end.
Definition close (fd : Z) : ST disk unit := fun d =>
  let fs := d_fs d in Some (tt, Disk (Fsys (fs_dir fs) (fs_data fs) (delete fd (fs_fds fs)) (fs_next fs)) (d_tree d) (d_errno d) (d_streams d)).

(** ** [file_utils.c] *)

(** The string is [before ++ rest], and [cur] is between them; the result comes with what the string
    is when the function returns. *)
Fixpoint mkdir_loop (fuel : nat) (before rest : list Z) : ST disk (Z * list Z) :=
  match rest, fuel with
  | [], _ => mret (0, before)
  | _, O => crash
  | x :: rest, S fuel =>
      let (a, b) := strchrnul 47 rest in
      let file := before ++ x :: a in
      r ← mkdir file;
      e ← get_errno;
      if (r <? 0) && negb (e =? EEXIST) then mret (-1, file) else mkdir_loop fuel file b
  end.
Definition _mkdir_recursive (file : list Z) : ST disk (Z * list Z) := mkdir_loop (length file) [] file.

Definition mkdir_for_file_recursive (filename : path) : ST disk Z :=
  match strrchr 47 filename with
  | None => mret 0
  | Some base => r ← _mkdir_recursive (take (length filename - length base - 1) filename); mret (fst r)
  end.

Definition mkdir_recursive (dirname : path) : ST disk Z := r ← _mkdir_recursive dirname; mret (fst r).

(** How the loop over the entries ends: at the end of the directory, by [goto done], or by returning
    with the directory still open. *)
Inductive dir_end := Ended | Goto_done | Returned.

Definition rmdir_entry (rmdir_recursive : path -> ST disk Z) (buf : path) : ST disk bool :=
  st ← stat_is_dir buf;
  match st with
  | None => mret false
  | Some true => r ← rmdir_recursive buf; mret (0 <=? r)
  | Some false => r ← unlink_name buf; mret (0 <=? r)
  end.

Fixpoint rmdir_entries (rmdir_recursive : path -> ST disk Z) (dirname : path) (entries : list (list Z)) : ST disk dir_end :=
  match entries with
  | [] => mret Ended
  | d_name :: entries =>
      if dots d_name then rmdir_entries rmdir_recursive dirname entries
      else if PATH_MAX - Z.of_nat (length dirname) <=? Z.of_nat (length d_name) then mret Returned
      else
        ok ← rmdir_entry rmdir_recursive (dirname ++ d_name);
        if ok : bool then rmdir_entries rmdir_recursive dirname entries else mret Goto_done
  end.

(** From [done] on. *)
Definition rmdir_done (path : path) (ok : bool) : ST disk Z :=
  r ← closedir path;
  if r <? 0 then mret (-1)
  else if negb ok then mret (-1)
  else r ← rmdir path; mret (if r <? 0 then -1 else 0).

Definition with_slash (path : path) : list Z := if bool_decide (last path = Some 47) then path else path ++ [47].

Fixpoint rmdir_recursive_from (fuel : nat) (path : path) : ST disk Z :=
  match fuel with
  | O => crash
  | S fuel =>
      d ← opendir path;
      match d with
      | None => e ← get_errno; mret (if e =? ENOENT then 0 else -1)
      | Some entries =>
          if PATH_MAX - 1 <=? Z.of_nat (length path) then mret (-1)
          else
            set_errno 0;;
            e ← rmdir_entries (rmdir_recursive_from fuel) (with_slash path) entries;
            match e with
            | Returned => mret (-1)
            | Goto_done => rmdir_done path false
            | Ended =>
                (if g_readdir g path then mret tt else set_errno EIO);;
                e ← get_errno;
                rmdir_done path (e =? 0)
            end
      end
  end.
(** The name grows in every call and [opendir] refuses names of [PATH_MAX] bytes. *)
Definition rmdir_recursive : path -> ST disk Z := rmdir_recursive_from (Z.to_nat PATH_MAX + 1).

(** The result comes with the string left in [file_path], if there is one: [size] is the size of its buffer. *)
Definition ribs_create_temp_file2 (o : os) (letters : list Z) (dir_path prefix : list Z) (size : option nat) : ST disk (Z * option (list Z)) :=
  let filename := dir_path ++ str "/" ++ prefix ++ str "_XXXXXX" in
  if PATH_MAX <=? Z.of_nat (length filename) then mret (-1, None)
  else
    '(fd, filename) ← mkstemp o letters filename;
    if fd <? 0 then mret (-1, None)
    else
      r ← unlink_name filename;
      if r <? 0 then close fd;; mret (-1, None)
      else mret (fd, match size with Some (S n) => Some (take n filename) | _ => None end).

Definition ribs_create_temp_file (o : os) (letters : list Z) (prefix : list Z) : ST disk Z :=
  r ← ribs_create_temp_file2 o letters (str "/dev/shm") prefix None; mret (fst r).
End FileUtils.
