(* ===== verification/FileUtilsFacts.v ===== *)
(** * FileUtilsFacts: the directories that are created

    Every directory on the way to a name is created, and nothing else. *)

From Stdlib Require Import String.
From stdpp Require Import base numbers list gmap.
From Stdlib Require Import ZArith Lia.
From S2P Require Import Prelude Os Cstring Disk FileUtils.

(** ** Names *)
Lemma components_slash_app a b : components (a ++ 47 :: b) = components a ++ components b.
Proof.
  induction a as [|x a IH]; [done|]. cbn [app components]. destruct (x =? 47); [by rewrite IH|]. rewrite IH. destruct (components a) as [|n ns] eqn:E; [by destruct (components_ne a)|]. done.
Qed.

(** Components without slashes. *)
Definition word (c : list Z) : Prop := c <> [] /\ 47 ∉ c.
Lemma names_words x : Forall entry_name x -> Forall word x.
Proof. intros H. eapply Forall_impl; [exact H|]. by intros c (? & _ & _ & ?). Qed.

Lemma components_text q rest : Forall word rest -> components (q ++ dir_text rest) = components q ++ rest.
Proof.
  revert q. induction rest as [|c rest IH]; intros q Hs; [by rewrite !app_nil_r|]. apply Forall_cons in Hs as [[_ Hc] Hs].
  change (dir_text (c :: rest)) with (47 :: c ++ dir_text rest). rewrite components_slash_app. rewrite IH by done. by rewrite (components_word c Hc).
Qed.

Lemma dir_text_app a b : dir_text (a ++ b) = dir_text a ++ dir_text b.
Proof. unfold dir_text. by rewrite fmap_app, concat_app. Qed.
Lemma dir_text_snoc a c : dir_text (a ++ [c]) = dir_text a ++ 47 :: c.
Proof. rewrite dir_text_app. cbn. by rewrite app_nil_r. Qed.
Lemma dir_text_name a c : name_of (a ++ [c]) = dir_text (a ++ [c]).
Proof. by rewrite name_of_snoc, dir_text_snoc. Qed.
Lemma name_text comps : comps <> [] -> name_of comps = dir_text comps.
Proof. by destruct comps. Qed.
Lemma text_slash a : a <> [] -> exists p, dir_text a = 47 :: p.
Proof. destruct a as [|c a]; [done|]. intros _. by eexists. Qed.

Lemma strip_id q c : entry_name c -> strip_slashes (q ++ 47 :: c) = q ++ 47 :: c.
Proof.
  intros (Hne & _ & _ & Hc). unfold strip_slashes. destruct c as [|x c _] using rev_ind; [done|]. rewrite app_comm_cons, app_assoc, reverse_snoc. cbn [strip_left].
  rewrite (proj2 (Z.eqb_neq x 47)) by (intros ->; apply Hc; set_solver). rewrite <- reverse_snoc. apply reverse_involutive.
Qed.

Lemma start_text t a : a <> [] -> start_of t (dir_text a) = [].
Proof. intros Ha. destruct (text_slash a Ha) as [p ->]. done. Qed.

(** A name by its directory and its last component. *)
Lemma entry_eval d q c dir es : entry_name c -> Z.of_nat (length (q ++ 47 :: c)) < PATH_MAX -> resolve d (start_of (d_tree d) (q ++ 47 :: c)) (components q) = inr dir -> entries_at d dir = Some es ->
  entry_of_name d (q ++ 47 :: c) = inr (dir, c).
Proof.
  intros Hc Hlen Hr Hes. unfold entry_of_name. destruct (q ++ 47 :: c) as [|a p] eqn:Ep; [by destruct q|]. rewrite <- Ep in *. rewrite (proj2 (Z.leb_gt _ _)) by done. rewrite strip_id by done. rewrite components_slash_app.
  rewrite (components_word c) by apply Hc. rewrite removelast_last, List.last_last, Hr, Hes. done.
Qed.

Lemma resolve_dir d dir : directory (d_fs d) (d_tree d) dir -> resolve d [] (components (dir_text dir)) = inr dir.
Proof.
  intros Hd. pose proof (canonical_names _ _ dir ltac:(by constructor)) as Hns. unfold resolve. pose proof (components_text [] dir (names_words _ Hns)) as Ec. cbn [app] in Ec. rewrite Ec. change (components []) with [[] : list Z]. cbn [app]. rewrite walk_skip.
  pose proof (walk_directory _ _ MAXSYMLINKS dir Hd []) as E. rewrite app_nil_r, walk_nil in E. by rewrite E.
Qed.

Lemma entries_dir d dir : disk_ok (d_fs d) (d_tree d) -> directory (d_fs d) (d_tree d) dir -> exists es, entries_at d dir = Some es.
Proof.
  intros [_ _ Hroot] Hd. unfold entries_at. destruct Hd as [|dir c ino es Hd Hc Hl Hi Ha].
  - destruct (fs_dir (d_fs d) !! name_of []) as [ino|] eqn:E; [|by eexists]. destruct (Hroot ino E) as [es ->]. by eexists.
  - rewrite Hi, Ha. by eexists.
Qed.

Lemma entry_dir d dir c : disk_ok (d_fs d) (d_tree d) -> directory (d_fs d) (d_tree d) dir -> entry_name c -> Z.of_nat (length (name_of (dir ++ [c]))) < PATH_MAX ->
  entry_of_name d (name_of (dir ++ [c])) = inr (dir, c).
Proof.
  intros Hok Hd Hc Hlen. destruct (entries_dir d dir Hok Hd) as [es Hes]. rewrite name_of_snoc in *. eapply entry_eval; [done|done| |done]. rewrite <- dir_text_snoc, start_text by (by destruct dir). by apply resolve_dir.
Qed.

Lemma entry_name_no_entry c : entry_name c -> no_entry c = false.
Proof. intros (H1 & H2 & H3 & _). unfold no_entry, dots. by rewrite !bool_decide_eq_false_2. Qed.

Lemma directory_prefix fs t dir rest : directory fs t (dir ++ rest) -> directory fs t dir.
Proof.
  induction rest as [|c rest IH] using rev_ind; [by rewrite app_nil_r|]. rewrite app_assoc. intros H. apply IH. pose proof (directory_parent fs t _ H) as Hp. by rewrite removelast_last in Hp.
Qed.

Lemma directory_snoc fs t dir c : directory fs t (dir ++ [c]) ->
  directory fs t dir /\ entry_name c /\ t_links t !! name_of (dir ++ [c]) = None /\ exists ino es, fs_dir fs !! name_of (dir ++ [c]) = Some ino /\ a_entries (attr_of t ino) = Some es.
Proof.
  remember (dir ++ [c]) as x eqn:Ex. destruct 1 as [|dir' c' ino es Hd Hc Hl Hi Ha]; [by destruct dir|]. apply app_inj_tail in Ex as [-> ->]. eauto 10.
Qed.

(** ** One entry *)

Definition with_errno (d : disk) (e : Z) : disk := Disk (d_fs d) (d_tree d) e (d_streams d).

Section Mkdir.
Context (g : grants) (now : Z).

Lemma mkdir_new d dir c : disk_ok (d_fs d) (d_tree d) -> directory (d_fs d) (d_tree d) dir -> entry_name c -> Z.of_nat (length (name_of (dir ++ [c]))) < PATH_MAX -> Z.of_nat (length c) <= NAME_MAX ->
  t_links (d_tree d) !! name_of (dir ++ [c]) = None -> fs_dir (d_fs d) !! name_of (dir ++ [c]) = None -> g_write g (name_of dir) = true ->
  mkdir g now (name_of (dir ++ [c])) d = Some (0, add_directory now dir c d).
Proof.
  intros Hok Hd Hc Hlen Hmax Hl Hn Hw. unfold mkdir. rewrite (entry_dir d dir c) by done. rewrite entry_name_no_entry, Hl, Hn by done. rewrite !bool_decide_eq_false_2 by (by intros []). cbn [orb]. rewrite (proj2 (Z.ltb_ge _ _)) by done. by rewrite Hw.
Qed.

Lemma mkdir_there d dir c ino : disk_ok (d_fs d) (d_tree d) -> directory (d_fs d) (d_tree d) dir -> entry_name c -> Z.of_nat (length (name_of (dir ++ [c]))) < PATH_MAX ->
  fs_dir (d_fs d) !! name_of (dir ++ [c]) = Some ino -> mkdir g now (name_of (dir ++ [c])) d = Some (-1, with_errno d EEXIST).
Proof.
  intros Hok Hd Hc Hlen Hn. unfold mkdir. rewrite (entry_dir d dir c) by done. rewrite Hn, orb_true_r. done.
Qed.

(** From [d] to [d'] only directories at the beginnings of [comps] were added. *)
Record made (comps : list (list Z)) (d d' : disk) : Prop := {
  md_names : forall n ino, fs_dir (d_fs d) !! n = Some ino -> fs_dir (d_fs d') !! n = Some ino;
  md_new : forall n, fs_dir (d_fs d') !! n <> fs_dir (d_fs d) !! n -> exists x, x `prefix_of` comps /\ n = name_of x;
  md_data : forall n ino, fs_dir (d_fs d) !! n = Some ino -> fs_data (d_fs d') !! ino = fs_data (d_fs d) !! ino;
  md_files : forall n ino, fs_dir (d_fs d) !! n = Some ino -> a_entries (attr_of (d_tree d) ino) = None -> attr_of (d_tree d') ino = attr_of (d_tree d) ino;
  md_dirs : forall n ino es, fs_dir (d_fs d) !! n = Some ino -> a_entries (attr_of (d_tree d) ino) = Some es -> exists es', a_entries (attr_of (d_tree d') ino) = Some (es ++ es');
  md_links : t_links (d_tree d') = t_links (d_tree d);
  md_streams : d_streams d' = d_streams d;
}.

Lemma made_refl comps d e : made comps d (with_errno d e).
Proof. split; try done. intros n ino es _ E. exists []. cbn [d_tree with_errno]. by rewrite E, app_nil_r. Qed.
Lemma made_trans comps d1 d2 d3 : made comps d1 d2 -> made comps d2 d3 -> made comps d1 d3.
Proof.
  intros H1 H2. split.
  - intros n ino Hn. by apply (md_names _ _ _ H2), (md_names _ _ _ H1).
  - intros n Hn. destruct (decide (fs_dir (d_fs d2) !! n = fs_dir (d_fs d1) !! n)) as [E|]; [|by apply (md_new _ _ _ H1)]. apply (md_new _ _ _ H2). congruence.
  - intros n ino Hn. rewrite <- (md_data _ _ _ H1 n) by done. eapply (md_data _ _ _ H2), (md_names _ _ _ H1), Hn.
  - intros n ino Hn Ha. pose proof (md_files _ _ _ H1 n ino Hn Ha) as E. rewrite <- E. eapply (md_files _ _ _ H2); [by apply (md_names _ _ _ H1), Hn|congruence].
  - intros n ino es Hn Ha. destruct (md_dirs _ _ _ H1 n ino es Hn Ha) as [es1 E1]. destruct (md_dirs _ _ _ H2 n ino _ (md_names _ _ _ H1 n ino Hn) E1) as [es2 E2]. exists (es1 ++ es2). by rewrite app_assoc.
  - by rewrite (md_links _ _ _ H2), (md_links _ _ _ H1).
  - by rewrite (md_streams _ _ _ H2), (md_streams _ _ _ H1).
Qed.

Lemma directory_made comps d d' x : made comps d d' -> directory (d_fs d) (d_tree d) x -> directory (d_fs d') (d_tree d') x.
Proof.
  intros Hm. induction 1 as [|dir c ino es Hd IH Hc Hl Hi Ha]; [constructor|]. destruct (md_dirs _ _ _ Hm _ _ _ Hi Ha) as [es' He].
  eapply sub_directory; [done|done|by rewrite (md_links _ _ _ Hm)|by apply (md_names _ _ _ Hm)|done].
Qed.

(** The attributes after an entry was added. *)
Lemma added_attr dir c new fds d ino : ino <> fs_next (d_fs d) ->
  attr_of (d_tree (add_entry now dir c new fds d)) ino = attr_of (d_tree d) ino
  \/ fs_dir (d_fs d) !! name_of dir = Some ino /\ a_entries (attr_of (d_tree (add_entry now dir c new fds d)) ino) = (fun es => es ++ [c]) <$> a_entries (attr_of (d_tree d) ino).
Proof.
  intros Hi. unfold attr_of, add_entry, change_entries. cbn [d_tree t_attrs]. rewrite lookup_insert_ne by done. destruct (fs_dir (d_fs d) !! name_of dir) as [j|]; [|by left].
  destruct (decide (j = ino)) as [->|Hj]; [|left; by rewrite lookup_alter_ne]. right. split; [done|]. rewrite lookup_alter_eq. by destruct (t_attrs (d_tree d) !! ino).
Qed.

Lemma dropped_attr dir c d ino : attr_of (d_tree (drop_entry now dir c d)) ino = attr_of (d_tree d) ino /\ fs_dir (d_fs d) !! name_of dir <> Some ino
  \/ fs_dir (d_fs d) !! name_of dir = Some ino /\ a_entries (attr_of (d_tree (drop_entry now dir c d)) ino) = filter (fun e => e <> c) <$> a_entries (attr_of (d_tree d) ino).
Proof.
  unfold attr_of, drop_entry, change_entries. cbn [d_tree t_attrs]. destruct (fs_dir (d_fs d) !! name_of dir) as [j|]; [|by left].
  destruct (decide (j = ino)) as [->|Hj]; [|left; rewrite lookup_alter_ne by done; split; [done|congruence]]. right. split; [done|]. rewrite lookup_alter_eq. by destruct (t_attrs (d_tree d) !! ino).
Qed.

Section Added.
Context (d : disk) (dir : list (list Z)) (c : list Z).
Hypothesis (Hok : disk_ok (d_fs d) (d_tree d)) (Hd : directory (d_fs d) (d_tree d) dir) (Hc : entry_name c).
Hypothesis (Hl : t_links (d_tree d) !! name_of (dir ++ [c]) = None) (Hn : fs_dir (d_fs d) !! name_of (dir ++ [c]) = None).
Context (new : option (list (list Z))) (fds : gmap Z Z).
Let d' := add_entry now dir c new fds d.

Lemma old_inode n ino : fs_dir (d_fs d) !! n = Some ino -> ino <> fs_next (d_fs d).
Proof. intros E. pose proof (dk_next _ _ Hok n ino E). lia. Qed.

Lemma added_made comps : dir ++ [c] `prefix_of` comps -> made comps d d'.
Proof.
  intros Hp. split; try done.
  - intros n ino E. cbn. rewrite lookup_insert_ne; [done|]. intros <-. congruence.
  - intros n E. exists (dir ++ [c]). split; [done|]. destruct (decide (n = name_of (dir ++ [c]))) as [|Hne]; [done|]. cbn in E. rewrite lookup_insert_ne in E by done. done.
  - intros n ino E. cbn. rewrite lookup_insert_ne; [done|]. intros <-. by apply (old_inode n (fs_next (d_fs d))).
  - intros n ino E Ha. destruct (added_attr dir c new fds d ino ltac:(by eapply old_inode)) as [?|[Ed _]]; [done|]. exfalso.
    destruct (entries_dir d dir Hok Hd) as [es Hes]. unfold entries_at in Hes. rewrite Ed in Hes. congruence.
  - intros n ino es E Ha. destruct (added_attr dir c new fds d ino ltac:(by eapply old_inode)) as [Ea|[_ Ea]].
    + exists []. unfold d'. by rewrite Ea, app_nil_r.
    + exists [c]. unfold d'. by rewrite Ea, Ha.
Qed.
Lemma added_directory es : new = Some es -> directory (d_fs d') (d_tree d') (dir ++ [c]).
Proof.
  intros Hnew. eapply sub_directory; [eapply directory_made; [by apply added_made|done]|done|done| |].
  - cbn. by rewrite lookup_insert_eq.
  - unfold d', add_entry, attr_of. cbn [d_tree t_attrs]. rewrite lookup_insert_eq. exact Hnew.
Qed.
Lemma added_ok : disk_ok (d_fs d') (d_tree d').
Proof.
  assert (Hnm : name_of (dir ++ [c]) <> [47]).
  { rewrite name_of_snoc. destruct Hc as (Hne & _). intros E. apply (f_equal length) in E. rewrite length_app in E. cbn in E. destruct c; [done|]. cbn in E. lia. }
  split.
  - intros n ino. cbn. destruct (decide (n = name_of (dir ++ [c]))) as [->|Hne]; [rewrite lookup_insert_eq; intros [= <-]; lia|]. rewrite lookup_insert_ne by done. intros E. apply (dk_next _ _ Hok) in E. lia.
  - cbn. rewrite lookup_insert_ne; [apply Hok|]. rewrite name_of_snoc. by destruct (dir_text dir).
  - intros ino. cbn. rewrite lookup_insert_ne by done. intros E. destruct (dk_root _ _ Hok ino E) as [es Ha]. destruct (md_dirs _ _ _ (added_made (dir ++ [c]) ltac:(done)) _ _ _ E Ha) as [es' He]. by eexists.
Qed.
End Added.

(** ** All of them *)

(** The directories at the beginnings of [comps] are there or can be created. *)
Record creatable (d : disk) (comps : list (list Z)) : Prop := {
  cr_ok : disk_ok (d_fs d) (d_tree d);
  cr_names : Forall entry_name comps;
  cr_name_max : Forall (fun c => Z.of_nat (length c) <= NAME_MAX) comps;
  cr_path_max : Z.of_nat (length (dir_text comps)) < PATH_MAX;
  cr_links : forall x, x <> [] -> x `prefix_of` comps -> t_links (d_tree d) !! name_of x = None;
  cr_dirs : forall x ino, x `prefix_of` comps -> fs_dir (d_fs d) !! name_of x = Some ino -> is_Some (a_entries (attr_of (d_tree d) ino));
  cr_write : forall x, x `prefix_of` comps -> g_write g (name_of x) = true;
}.

Lemma creatable_errno d comps e : creatable d comps -> creatable (with_errno d e) comps.
Proof. by intros []. Qed.
Lemma creatable_added d comps dir c : creatable d comps -> directory (d_fs d) (d_tree d) dir -> dir ++ [c] `prefix_of` comps -> fs_dir (d_fs d) !! name_of (dir ++ [c]) = None ->
  creatable (add_directory now dir c d) comps.
Proof.
  intros [Hok Hs Hmax Hlen Hl Hds Hw] Hd Hp Hn. assert (Hc : entry_name c) by (destruct Hp as [post ->]; rewrite !Forall_app, Forall_singleton in Hs; apply Hs).
  assert (Hlc : t_links (d_tree d) !! name_of (dir ++ [c]) = None) by (by apply Hl; [destruct dir|]). split; try done; [by apply added_ok|].
  intros x ino Hx. destruct (decide (name_of x = name_of (dir ++ [c]))) as [->|Hne].
  - cbn. rewrite lookup_insert_eq. intros [= <-]. unfold attr_of, add_directory, add_entry. cbn [d_tree t_attrs]. by rewrite lookup_insert_eq.
  - cbn. rewrite lookup_insert_ne by done. intros E. destruct (Hds x ino Hx E) as [es Ha]. destruct (md_dirs _ _ _ (added_made d dir c Hok Hd Hn (Some [str "."; str ".."]) (fs_fds (d_fs d)) comps Hp) _ _ _ E Ha) as [es' He]. by eexists.
Qed.

(** One round of the loop. *)
Lemma mkdir_round d comps dir c : creatable d comps -> directory (d_fs d) (d_tree d) dir -> dir ++ [c] `prefix_of` comps ->
  exists r d', mkdir g now (name_of (dir ++ [c])) d = Some (r, d') /\ (r = 0 \/ r = -1 /\ d_errno d' = EEXIST) /\ creatable d' comps /\ directory (d_fs d') (d_tree d') (dir ++ [c]) /\ made comps d d'.
Proof.
  intros Hcr Hd Hp. pose proof Hcr as [Hok Hs Hmax Hlen Hl Hds Hw]. pose proof Hp as [post Hpost].
  assert (Hc : entry_name c) by (subst comps; rewrite !Forall_app, Forall_singleton in Hs; apply Hs).
  assert (Hcm : Z.of_nat (length c) <= NAME_MAX) by (subst comps; rewrite !Forall_app, Forall_singleton in Hmax; apply Hmax).
  assert (Hcl : Z.of_nat (length (name_of (dir ++ [c]))) < PATH_MAX) by (subst comps; rewrite dir_text_app, length_app in Hlen; rewrite dir_text_name; lia).
  assert (Hlc : t_links (d_tree d) !! name_of (dir ++ [c]) = None) by (by apply Hl; [destruct dir|]).
  destruct (fs_dir (d_fs d) !! name_of (dir ++ [c])) as [ino|] eqn:E.
  - exists (-1), (with_errno d EEXIST). split; [by eapply mkdir_there|]. split; [by right|]. split; [by apply creatable_errno|]. split; [|by apply made_refl].
    destruct (Hds _ _ Hp E) as [es Ha]. by eapply sub_directory.
  - exists 0, (add_directory now dir c d). split; [apply mkdir_new; try done; apply Hw; etrans; [|done]; by eexists|]. split; [by left|]. split; [by apply creatable_added|]. split; [by eapply added_directory|by apply added_made].
Qed.

Lemma chrnul_text c todo : 47 ∉ c -> strchrnul 47 (c ++ dir_text todo) = (c, dir_text todo).
Proof. intros Hc. destruct todo as [|e todo]; [cbn; rewrite app_nil_r; by apply strchrnul_none|]. change (dir_text (e :: todo)) with (47 :: (e ++ dir_text todo)). by apply strchrnul_found. Qed.

Lemma mkdir_loop_step k before c todo d r d' : 47 ∉ c -> mkdir g now (before ++ 47 :: c) d = Some (r, d') -> (r = 0 \/ r = -1 /\ d_errno d' = EEXIST) ->
  mkdir_loop g now (S k) before (47 :: c ++ dir_text todo) d = mkdir_loop g now k (before ++ 47 :: c) (dir_text todo) d'.
Proof.
  intros Hc Hm Hr. cbn [mkdir_loop]. rewrite chrnul_text by done. rewrite (bind_eval _ _ _ _ _ Hm). rewrite (bind_eval get_errno _ d' _ _ eq_refl). by destruct Hr as [-> | [-> ->]].
Qed.

(** The loop goes through the directories of [todo], with [more] still to come. *)
Lemma mkdir_loop_eval todo : forall k dir more d comps, creatable d comps -> directory (d_fs d) (d_tree d) dir -> dir ++ todo `prefix_of` comps ->
  exists d', mkdir_loop g now (length todo + k) (dir_text dir) (dir_text (todo ++ more)) d = mkdir_loop g now k (dir_text (dir ++ todo)) (dir_text more) d'
    /\ creatable d' comps /\ directory (d_fs d') (d_tree d') (dir ++ todo) /\ made comps d d'.
Proof.
  induction todo as [|c todo IH]; intros k dir more d comps Hcr Hd Hp.
  - exists d. rewrite app_nil_r. split; [done|]. split; [done|]. split; [done|]. pose proof (made_refl comps d (d_errno d)) as Hm. by destruct d.
  - assert (Hp' : dir ++ [c] `prefix_of` comps) by (etrans; [|exact Hp]; exists todo; by rewrite <- app_assoc). destruct (mkdir_round d comps dir c Hcr Hd Hp') as (r & d1 & E & Hr & Hcr1 & Hd1 & Hm1).
    destruct (IH k (dir ++ [c]) more d1 comps Hcr1 Hd1 ltac:(by rewrite <- app_assoc)) as (d2 & E2 & Hcr2 & Hd2 & Hm2). exists d2. rewrite <- app_assoc in E2, Hd2. split; [|split; [done|split; [done|by eapply made_trans]]].
    change (dir ++ c :: todo) with (dir ++ [c] ++ todo). rewrite <- E2. rewrite dir_text_snoc. change (dir_text ((c :: todo) ++ more)) with (47 :: c ++ dir_text (todo ++ more)). apply (mkdir_loop_step _ _ c _ d r); [|by rewrite <- name_of_snoc|done].
    destruct Hp' as [post ->]. pose proof (cr_names _ _ Hcr) as Hs. rewrite !Forall_app, Forall_singleton in Hs. apply Hs.
Qed.

Lemma text_length comps : (length comps <= length (dir_text comps))%nat.
Proof. induction comps as [|c comps IH]; [done|]. change (dir_text (c :: comps)) with (47 :: c ++ dir_text comps). cbn. rewrite length_app. lia. Qed.

Lemma mkdir_text comps d : creatable d comps ->
  exists d', _mkdir_recursive g now (dir_text comps) d = Some ((0, dir_text comps), d') /\ directory (d_fs d') (d_tree d') comps /\ made comps d d'.
Proof.
  intros Hcr. unfold _mkdir_recursive. pose proof (text_length comps) as Hl. destruct (mkdir_loop_eval comps (length (dir_text comps) - length comps) [] [] d comps Hcr ltac:(constructor) ltac:(done)) as (d' & E & _ & Hd & Hm).
  replace (length comps + _)%nat with (length (dir_text comps)) in E by lia. exists d'. rewrite app_nil_r in E. cbn [app] in E. change (dir_text []) with (@nil Z) in E. rewrite E. split; [|done]. by destruct (_ - _)%nat.
Qed.

(** C23: [mkdir_recursive] on the name of a directory, and [mkdir_for_file_recursive] on the name of any
    entry of it, create the directories on the way that are missing, provided that what is there on the
    way are directories, not files or links, that they can be written to, and that the names are not
    too long for the system: they return 0, the directory is there afterwards, and what was there
    before is there with the same contents; only directories at the beginnings of the name are new.
    ([mkdir_recursive_accepts_file] shows what happens when the last name is that of a file.) *)
Theorem mkdir_recursive_creates (d : disk) (comps : list (list Z)) (Hcr : creatable d comps) (Hne : comps <> []) :
  exists d', mkdir_recursive g now (name_of comps) d = Some (0, d')
    /\ (forall f, 47 ∉ f -> mkdir_for_file_recursive g now (name_of (comps ++ [f])) d = Some (0, d'))
    /\ directory (d_fs d') (d_tree d') comps /\ made comps d d'.
Proof.
  destruct (mkdir_text comps d Hcr) as (d' & E & Hd & Hm). exists d'. split; [|split; [|done]].
  - unfold mkdir_recursive. rewrite name_text by done. by rewrite (bind_eval _ _ _ _ _ E).
  - intros f Hf. unfold mkdir_for_file_recursive. rewrite name_of_snoc, strrchr_last by done. rewrite length_app. cbn [length]. replace (_ - _ - 1)%nat with (length (dir_text comps)) by lia.
    rewrite take_app_length. by rewrite (bind_eval _ _ _ _ _ E).
Qed.

(** The loop over directories that are there changes nothing but [errno]. *)
Lemma mkdir_loop_there todo : forall k dir more d, disk_ok (d_fs d) (d_tree d) -> directory (d_fs d) (d_tree d) (dir ++ todo) -> Z.of_nat (length (dir_text (dir ++ todo))) < PATH_MAX ->
  exists e, mkdir_loop g now (length todo + k) (dir_text dir) (dir_text (todo ++ more)) d = mkdir_loop g now k (dir_text (dir ++ todo)) (dir_text more) (with_errno d e).
Proof.
  induction todo as [|c todo IH]; intros k dir more d Hok Hd Hlen; [exists (d_errno d); rewrite app_nil_r; by destruct d|]. change (dir ++ c :: todo) with (dir ++ [c] ++ todo) in *. rewrite app_assoc in *.
  destruct (directory_snoc _ _ _ _ (directory_prefix _ _ _ _ Hd)) as (Hd1 & Hc & _ & ino & _ & Hi & _).
  assert (Hlc : Z.of_nat (length (name_of (dir ++ [c]))) < PATH_MAX) by (rewrite dir_text_name; rewrite dir_text_app, length_app in Hlen; lia).
  pose proof (mkdir_there d dir c ino Hok Hd1 Hc Hlc Hi) as E.
  destruct (IH k (dir ++ [c]) more (with_errno d EEXIST) Hok Hd Hlen) as [e E2]. exists e. change (with_errno (with_errno d EEXIST) e) with (with_errno d e) in E2. rewrite <- E2. rewrite dir_text_snoc.
  change (dir_text ((c :: todo) ++ more)) with (47 :: c ++ dir_text (todo ++ more)). apply (mkdir_loop_step _ _ c _ d (-1)); [apply Hc|by rewrite <- name_of_snoc|by right].
Qed.

(** [mkdir_recursive] takes a file for the directory: where the name is that of a file, it returns 0
    and changes nothing, and there is no directory. *)
Theorem mkdir_recursive_accepts_file (d : disk) (dir : list (list Z)) (f : list Z) (ino : Z) (Hok : disk_ok (d_fs d) (d_tree d)) (Hd : directory (d_fs d) (d_tree d) dir) (Hf : entry_name f)
    (Hlen : Z.of_nat (length (name_of (dir ++ [f]))) < PATH_MAX) (Hino : fs_dir (d_fs d) !! name_of (dir ++ [f]) = Some ino) (Hfile : a_entries (attr_of (d_tree d) ino) = None) :
  mkdir_recursive g now (name_of (dir ++ [f])) d = Some (0, with_errno d EEXIST) /\ ~ directory (d_fs d) (d_tree d) (dir ++ [f]).
Proof.
  split.
  - unfold mkdir_recursive, _mkdir_recursive. rewrite dir_text_name in *. assert (Hl : (S (length dir) <= length (dir_text (dir ++ [f])))%nat) by (pose proof (text_length (dir ++ [f])) as H; rewrite length_app in H; cbn in H; lia).
    destruct (mkdir_loop_there dir (S (length (dir_text (dir ++ [f])) - S (length dir))) [] [f] d Hok Hd ltac:(rewrite dir_text_app, length_app in Hlen; cbn [app]; lia)) as [e E].
    replace (length dir + _)%nat with (length (dir_text (dir ++ [f]))) in E by lia. change (dir_text []) with (@nil Z) in E. cbn [app] in E. rewrite <- (app_nil_r f) in E at 3.
    pose proof (mkdir_there (with_errno d e) dir f ino Hok Hd Hf ltac:(by rewrite dir_text_name) ltac:(by rewrite dir_text_name)) as Em.
    change (dir_text [f ++ []]) with (47 :: (f ++ []) ++ dir_text []) in E. rewrite app_nil_r in E. rewrite (mkdir_loop_step _ _ f [] _ (-1) (with_errno d EEXIST)) in E; [|apply Hf|by rewrite <- name_of_snoc|by right].
    rewrite (bind_eval _ _ _ (0, dir_text (dir ++ [f])) (with_errno d EEXIST)); [done|]. rewrite E, <- dir_text_snoc. by destruct (length _ - _)%nat.
  - intros H. destruct (directory_snoc _ _ _ _ H) as (_ & _ & _ & ino' & es & Hi & Ha). congruence.
Qed.

(** ** Files without a name *)

Section Temp.
Context (o : os) (letters prefix : list Z) (d : disk) (dir : list (list Z)).
Let c : list Z := prefix ++ str "_" ++ letters.
Let name : path := name_of (dir ++ [c]).
Let fd : Z := sys_open o name 0xC2.
Hypothesis (Hok : disk_ok (d_fs d) (d_tree d)) (Hd : directory (d_fs d) (d_tree d) dir) (Hne : dir <> []) (Hc : entry_name c) (Hsix : length letters = 6%nat).
Hypothesis (Hpath : Z.of_nat (length name) < PATH_MAX) (Hmax : Z.of_nat (length c) <= NAME_MAX) (Hw : g_write g (name_of dir) = true) (Hfd : 0 <= fd).
Hypothesis (Hlink : t_links (d_tree d) !! name = None) (Hnew : fs_dir (d_fs d) !! name = None).
Hypothesis (Hfresh : forall ino es, fs_dir (d_fs d) !! name_of dir = Some ino -> a_entries (attr_of (d_tree d) ino) = Some es -> c ∉ es).

Let d1 : disk := add_entry now dir c None (<[fd := fs_next (d_fs d)]> (fs_fds (d_fs d))) d.

Lemma template_name : let template := name_of dir ++ str "/" ++ prefix ++ str "_XXXXXX" in
  length template = length name /\ take (length template - 6) template ++ letters = name.
Proof.
  cbv zeta. change (str "_XXXXXX") with (str "_" ++ str "XXXXXX"). unfold name. rewrite name_of_snoc, name_text by done. unfold c. rewrite !length_app. cbn [length]. rewrite !length_app. change (length (str "XXXXXX")) with 6%nat. change (length (str "/")) with 1%nat. split; [lia|].
  rewrite !app_assoc. rewrite take_app_le by (rewrite !length_app; change (length (str "/")) with 1%nat; lia). rewrite take_ge by (rewrite !length_app; change (length (str "/")) with 1%nat; lia). by rewrite <- !app_assoc.
Qed.
Lemma mkstemp_eval : mkstemp g now o letters (name_of dir ++ str "/" ++ prefix ++ str "_XXXXXX") d = Some ((fd, name), d1).
Proof.
  unfold mkstemp. destruct template_name as [_ ->]. unfold name. rewrite (entry_dir d dir c) by done. fold name. rewrite entry_name_no_entry, Hlink, Hnew by done. rewrite !bool_decide_eq_false_2 by (by intros []). cbn [orb]. rewrite (proj2 (Z.ltb_ge _ _)) by done.
  rewrite Hw. cbn [negb orb]. by rewrite (proj2 (Z.ltb_ge _ _)).
Qed.
Lemma unlink_temp : unlink_name g now name d1 = Some (0, drop_entry now dir c d1).
Proof.
  assert (Hm := added_made d dir c Hok Hd Hnew None (<[fd := fs_next (d_fs d)]> (fs_fds (d_fs d))) (dir ++ [c]) ltac:(done)). fold d1 in Hm.
  unfold unlink_name, name. rewrite (entry_dir d1 dir c); [|by apply added_ok|by eapply directory_made|done|done]. fold name. rewrite entry_name_no_entry by done. rewrite (md_links _ _ _ Hm), Hlink.
  assert (Hin : fs_dir (d_fs d1) !! name = Some (fs_next (d_fs d))) by (cbn; by rewrite lookup_insert_eq). rewrite Hin. assert (Ha : a_entries (attr_of (d_tree d1) (fs_next (d_fs d))) = None) by (unfold d1, add_entry, attr_of; cbn [d_tree t_attrs]; by rewrite lookup_insert_eq).
  rewrite Ha, bool_decide_eq_false_2 by (by intros []). by rewrite Hw.
Qed.

(** [ribs_create_temp_file2] returns a descriptor of a new empty file that has no name: the names,
    the links and the entries of all directories are as before.  [file_path] gets the name the
    file had, cut to the size of the buffer. *)
Theorem create_temp_file_anonymous (size : option nat) :
  exists d', ribs_create_temp_file2 g now o letters (name_of dir) prefix size d = Some ((fd, match size with Some (S n) => Some (take n name) | _ => None end), d')
    /\ fs_dir (d_fs d') = fs_dir (d_fs d) /\ t_links (d_tree d') = t_links (d_tree d)
    /\ fs_fds (d_fs d') !! fd = Some (fs_next (d_fs d)) /\ fs_data (d_fs d') !! fs_next (d_fs d) = Some []
    /\ forall n ino, fs_dir (d_fs d) !! n = Some ino -> a_entries (attr_of (d_tree d') ino) = a_entries (attr_of (d_tree d) ino) /\ fs_data (d_fs d') !! ino = fs_data (d_fs d) !! ino.
Proof.
  exists (drop_entry now dir c d1). destruct template_name as [Hlen _]. split; [|split; [|split; [|split; [|split]]]].
  - unfold ribs_create_temp_file2. rewrite Hlen, (proj2 (Z.leb_gt _ _)) by done. rewrite (bind_eval _ _ _ _ _ mkstemp_eval). rewrite (proj2 (Z.ltb_ge _ _)) by done. by rewrite (bind_eval _ _ _ _ _ unlink_temp).
  - cbn. by apply delete_insert_id.
  - cbn. by apply delete_id.
  - cbn. by rewrite lookup_insert_eq.
  - cbn. by rewrite lookup_insert_eq.
  - intros n ino Hi. assert (Hino : ino <> fs_next (d_fs d)) by (pose proof (dk_next _ _ Hok n ino Hi); lia). split; [|cbn; by rewrite lookup_insert_ne].
    assert (Hdn : fs_dir (d_fs d1) !! name_of dir = fs_dir (d_fs d) !! name_of dir) by (cbn; rewrite lookup_insert_ne; [done|]; unfold name; rewrite name_of_snoc, name_text by done; intros E; apply (f_equal length) in E; rewrite length_app in E; cbn in E; lia).
    destruct (added_attr dir c None (<[fd := fs_next (d_fs d)]> (fs_fds (d_fs d))) d ino Hino) as [E1|[E0 E1]]; fold d1 in E1; destruct (dropped_attr dir c d1 ino) as [[E2 E3]|[E3 E2]]; rewrite E2, ?E1; rewrite Hdn in E3; [done| |done|].
    + destruct (a_entries (attr_of (d_tree d) ino)) as [es|] eqn:Ea; [|reflexivity]. cbn. f_equal. apply filter_all. intros e He ->. by apply (Hfresh ino es).
    + destruct (a_entries (attr_of (d_tree d) ino)) as [es|] eqn:Ea; [|reflexivity]. cbn. f_equal. rewrite filter_app, filter_all by (intros e He ->; by apply (Hfresh ino es)). rewrite filter_cons, decide_False by (intros Hcc; by apply Hcc). cbn. apply app_nil_r.
Qed.
End Temp.
End Mkdir.

(** ** A disk

    Two directories: in the first a link to the second, in the second a file and a directory. *)
Definition linked_disk : disk :=
  Disk (Fsys (list_to_map [(str "/", 1); (str "/a", 2); (str "/t", 3); (str "/t/f", 4); (str "/t/s", 5)]) (list_to_map [(1, []); (2, []); (3, []); (4, str "text"); (5, [])]) ∅ 6)
       (Tree (list_to_map [(1, Attr (Some [str "."; str ".."; str "a"; str "t"]) 0); (2, Attr (Some [str "."; str ".."; str "l"]) 0); (3, Attr (Some [str "."; str ".."; str "f"; str "s"]) 0); (4, Attr None 0); (5, Attr (Some [str "."; str ".."]) 0)])
             (list_to_map [(str "/a/l", str "/t")]) [])
       0 0.

Lemma linked_names n ino : fs_dir (d_fs linked_disk) !! n = Some ino -> (n, ino) ∈ [(str "/", 1); (str "/a", 2); (str "/t", 3); (str "/t/f", 4); (str "/t/s", 5)].
Proof. intros H. by apply elem_of_list_to_map_2 in H. Qed.
Lemma linked_links n target : t_links (d_tree linked_disk) !! n = Some target -> n = str "/a/l" /\ target = str "/t".
Proof. intros H. apply elem_of_list_to_map_2, list_elem_of_singleton in H. by simplify_eq. Qed.

Lemma linked_directory c ino es : entry_name c -> t_links (d_tree linked_disk) !! name_of [c] = None -> fs_dir (d_fs linked_disk) !! name_of [c] = Some ino -> a_entries (attr_of (d_tree linked_disk) ino) = Some es ->
  directory (d_fs linked_disk) (d_tree linked_disk) [c].
Proof. intros. change [c] with ([] ++ [c]). by eapply sub_directory; [constructor|..]. Qed.
Ltac entry_by_computation := split; [|split; [|split]]; apply (bool_decide_unpack _); vm_compute; exact I.
Lemma linked_a : directory (d_fs linked_disk) (d_tree linked_disk) [str "a"].
Proof. eapply linked_directory; [entry_by_computation|vm_compute; reflexivity..]. Qed.
Lemma linked_t : directory (d_fs linked_disk) (d_tree linked_disk) [str "t"].
Proof. eapply linked_directory; [entry_by_computation|vm_compute; reflexivity..]. Qed.
Lemma linked_s : directory (d_fs linked_disk) (d_tree linked_disk) [str "t"; str "s"].
Proof. apply (sub_directory _ _ [str "t"] (str "s") 5 [str "."; str ".."]); [exact linked_t|entry_by_computation|vm_compute; reflexivity..]. Qed.

(** Case analysis on the entries of the disk. *)
Ltac linked_cases H := apply linked_names in H; repeat (apply elem_of_cons in H as [H|H]; [injection H as ? ?; subst|]); [..|by apply not_elem_of_nil in H].

Lemma linked_ok : disk_ok (d_fs linked_disk) (d_tree linked_disk).
Proof.
  split; [|by vm_compute|intros ino H; vm_compute in H; injection H as <-; vm_compute; by eexists]. intros n ino H. linked_cases H; by vm_compute.
Qed.

(** The beginnings of a list. *)
Ltac prefix_cases H :=
  match type of H with
  | ?x `prefix_of` _ => let y := fresh "y" in let k := fresh "k" in let E := fresh "E" in
      destruct H as [k E]; repeat (destruct x as [|y x]; [clear E|try discriminate E; injection E as <- E]); try done; try (by destruct x)
  end.

Lemma linked_creatable : creatable all_granted linked_disk [str "t"; str "x"; str "y"].
Proof.
  split; [exact linked_ok|repeat (constructor; [entry_by_computation|]); constructor|repeat (constructor; [by vm_compute|]); constructor|by vm_compute| | |done].
  - intros x Hne Hx. prefix_cases Hx; by vm_compute.
  - intros x ino Hx H. prefix_cases Hx; vm_compute in H; try done; injection H as <-; vm_compute; by eexists.
Qed.

Lemma mkdir_recursive_creates_witness : creatable all_granted linked_disk [str "t"; str "x"; str "y"]
  /\ exists d', mkdir_recursive all_granted 9 (name_of [str "t"; str "x"; str "y"]) linked_disk = Some (0, d')
    /\ (forall f, 47 ∉ f -> mkdir_for_file_recursive all_granted 9 (name_of ([str "t"; str "x"; str "y"] ++ [f])) linked_disk = Some (0, d'))
    /\ directory (d_fs d') (d_tree d') [str "t"; str "x"; str "y"] /\ made [str "t"; str "x"; str "y"] linked_disk d'.
Proof. split; [exact linked_creatable|]. apply (mkdir_recursive_creates all_granted 9); [exact linked_creatable|done]. Defined.

Lemma mkdir_recursive_accepts_file_witness :
  mkdir_recursive all_granted 9 (str "/t/f") linked_disk = Some (0, with_errno linked_disk EEXIST) /\ ~ directory (d_fs linked_disk) (d_tree linked_disk) [str "t"; str "f"].
Proof.
  apply (mkdir_recursive_accepts_file all_granted 9 linked_disk [str "t"] (str "f") 4); [exact linked_ok|exact linked_t|entry_by_computation|by vm_compute|by vm_compute|by vm_compute].
Defined.

Lemma create_temp_file_anonymous_witness :
  exists d', ribs_create_temp_file2 all_granted 9 os_all_ok (str "abcdef") (str "/t") (str "p") (Some 6%nat) linked_disk = Some ((3, Some (str "/t/p_")), d') /\ fs_dir (d_fs d') = fs_dir (d_fs linked_disk).
Proof.
  destruct (create_temp_file_anonymous all_granted 9 os_all_ok (str "abcdef") (str "p") linked_disk [str "t"] linked_ok linked_t) with (size := Some 6%nat) as (d' & E & Hdir & _); [done|entry_by_computation|by vm_compute|by vm_compute|by vm_compute|by vm_compute|by vm_compute|by vm_compute|by vm_compute| |].
  - intros ino es H. vm_compute in H. injection H as <-. intros H. vm_compute in H. injection H as <-. by apply (bool_decide_unpack _); vm_compute.
  - exists d'. split; [exact E|exact Hdir].
Defined.
