(* ===== verification/FileUtilsRemove.v ===== *)
(** * FileUtilsRemove: the directories that are removed

    A directory goes with everything below it, and nothing else goes, unless there are symbolic
    links in it: those are followed. *)

From Stdlib Require Import String.
From stdpp Require Import base numbers list gmap.
From Stdlib Require Import ZArith Lia.
From S2P Require Import Prelude Os Cstring Disk FileUtils FileUtilsFacts.

(** ** Names and what is below them *)

Lemma components_name_of x : Forall word x -> x <> [] -> components (name_of x) = [] :: x.
Proof. intros Hs Hx. rewrite name_text by done. exact (components_text [] x Hs). Qed.

Lemma name_inj x y : Forall word x -> Forall word y -> name_of x = name_of y -> x = y.
Proof.
  intros Hx Hy E. pose proof (f_equal components E) as Ec. destruct (decide (x = [])) as [->|Hnx], (decide (y = [])) as [->|Hny]; [done|rewrite (components_name_of y) in Ec by done|rewrite (components_name_of x) in Ec by done|rewrite !components_name_of in Ec by done; congruence]; exfalso.
  - change (components (name_of [])) with [[]; [] : list Z] in Ec. injection Ec as <-. by apply Forall_cons in Hy as [[] _].
  - change (components (name_of [])) with [[]; [] : list Z] in Ec. injection Ec as ->. by apply Forall_cons in Hx as [[] _].
Qed.

(** The names that go when the entries [roots] go. *)
Definition removed (roots : list path) (n : path) : Prop := Exists (fun r => n = r \/ r ++ [47] `prefix_of` n) roots.
#[export] Instance removed_dec roots n : Decision (removed roots n).
Proof. unfold removed. apply _. Defined.

Lemma removed_app a b n : removed (a ++ b) n <-> removed a n \/ removed b n.
Proof. apply Exists_app. Qed.
Lemma removed_one r n : removed [r] n <-> n = r \/ r ++ [47] `prefix_of` n.
Proof. unfold removed. rewrite Exists_cons, Exists_nil. tauto. Qed.
Lemma removed_nil n : ~ removed [] n.
Proof. intros H. inversion H. Qed.

Lemma below_comps x z : x <> [] -> Forall word x -> Forall word z -> name_of x ++ [47] `prefix_of` name_of z -> exists e more, z = x ++ e :: more.
Proof.
  intros Hx Hs Hz [s E]. rewrite <- app_assoc in E. cbn [app] in E. pose proof (f_equal components E) as Ec. rewrite components_slash_app, (components_name_of x) in Ec by done.
  destruct (components s) as [|e more] eqn:Es; [by destruct (components_ne s)|]. destruct (decide (z = [])) as [->|Hnz].
  - exfalso. change (components (name_of [])) with [[]; [] : list Z] in Ec. destruct x as [|c x]; [done|]. cbn in Ec. injection Ec as E1 E2. by destruct x.
  - rewrite components_name_of in Ec by done. injection Ec as ->. by exists e, more.
Qed.
Lemma below_name x e more : x <> [] -> name_of x ++ [47] `prefix_of` name_of (x ++ e :: more).
Proof.
  intros Hx. rewrite !name_text by (by destruct x). rewrite dir_text_app. change (dir_text (e :: more)) with (47 :: e ++ dir_text more). exists (e ++ dir_text more). by rewrite <- app_assoc.
Qed.

(** Removing [x] removes exactly what is at or below it. *)
Lemma removed_name x z : x <> [] -> Forall word x -> Forall word z -> removed [name_of x] (name_of z) <-> x `prefix_of` z.
Proof.
  intros Hx Hs Hz. rewrite removed_one. split.
  - intros [E|Hb]; [by rewrite (name_inj z x Hz Hs E)|]. destruct (below_comps x z Hx Hs Hz Hb) as (e & more & ->). by eexists.
  - intros [[|e more] ->]; [left; by rewrite app_nil_r|right; by apply below_name].
Qed.
Lemma removed_entry roots x c : x <> [] -> removed roots (name_of x) -> removed roots (name_of (x ++ [c])).
Proof.
  intros Hx. unfold removed. rewrite !Exists_exists. intros (r & Hr & Hn). exists r. split; [done|]. right. destruct Hn as [<-|Hb]; [by apply below_name|]. etrans; [exact Hb|]. etrans; [|by apply below_name]. by eexists.
Qed.

(** ** A coherent disk: directories have one name and list what is in them *)
Record tree_ok (d : disk) : Prop := {
  to_disk : disk_ok (d_fs d) (d_tree d);
  to_unique : forall x y ino, directory (d_fs d) (d_tree d) x -> directory (d_fs d) (d_tree d) y -> fs_dir (d_fs d) !! name_of x = Some ino -> fs_dir (d_fs d) !! name_of y = Some ino -> x = y;
  to_entries : forall x ino es, directory (d_fs d) (d_tree d) x -> fs_dir (d_fs d) !! name_of x = Some ino -> a_entries (attr_of (d_tree d) ino) = Some es ->
    NoDup es /\ forall e, e ∈ es -> dots e = true \/ entry_name e /\ (is_Some (fs_dir (d_fs d) !! name_of (x ++ [e])) \/ is_Some (t_links (d_tree d) !! name_of (x ++ [e])));
  to_parent : forall n ino, fs_dir (d_fs d) !! n = Some ino -> n = [47] \/ exists x e j es,
    n = name_of (x ++ [e]) /\ directory (d_fs d) (d_tree d) x /\ entry_name e /\ fs_dir (d_fs d) !! name_of x = Some j /\ a_entries (attr_of (d_tree d) j) = Some es /\ e ∈ es;
}.

(** From [d] to [d'] the entries [roots] were removed with everything below them, and nothing else. *)
Record gone (roots : list path) (d d' : disk) : Prop := {
  gn_dir : forall n, fs_dir (d_fs d') !! n = if decide (removed roots n) then None else fs_dir (d_fs d) !! n;
  gn_data : fs_data (d_fs d') = fs_data (d_fs d);
  gn_fds : fs_fds (d_fs d') = fs_fds (d_fs d);
  gn_next : fs_next (d_fs d') = fs_next (d_fs d);
  gn_links : t_links (d_tree d') = t_links (d_tree d);
  gn_cwd : t_cwd (d_tree d') = t_cwd (d_tree d);
  gn_files : forall ino, a_entries (attr_of (d_tree d) ino) = None -> attr_of (d_tree d') ino = attr_of (d_tree d) ino;
  gn_dirs : forall ino, is_Some (a_entries (attr_of (d_tree d) ino)) -> is_Some (a_entries (attr_of (d_tree d') ino));
  gn_entries : forall x ino, directory (d_fs d) (d_tree d) x -> fs_dir (d_fs d) !! name_of x = Some ino -> ~ removed roots (name_of x) ->
    a_entries (attr_of (d_tree d') ino) = filter (fun e => ~ removed roots (name_of (x ++ [e]))) <$> a_entries (attr_of (d_tree d) ino);
}.

(** The names of entries below the root directory. *)
Definition root_name (r : path) : Prop := exists x, r = name_of x /\ x <> [] /\ Forall word x.

Lemma directory_names fs t x : directory fs t x -> Forall entry_name x.
Proof. intros H. apply (canonical_names fs t). by constructor. Qed.

Lemma root_kept roots : Forall root_name roots -> ~ removed roots [47].
Proof.
  intros Hr. unfold removed. rewrite Exists_exists. intros (r & Hin & Hn). rewrite Forall_forall in Hr. destruct (Hr r Hin) as (x & -> & Hx & Hs). change [47] with (name_of []) in Hn at 1 2.
  assert (Hp : removed [name_of x] (name_of [])) by (rewrite removed_one; tauto). apply removed_name in Hp; [|done|done|by constructor]. destruct Hp as [k Hk]. by destruct x.
Qed.

Lemma directory_kept roots d d' x : Forall root_name roots -> gone roots d d' -> directory (d_fs d) (d_tree d) x -> ~ removed roots (name_of x) -> directory (d_fs d') (d_tree d') x.
Proof.
  intros Hroots Hg. induction 1 as [|dir c ino es Hd IH Hc Hl Hi Ha]; intros Hn; [constructor|]. destruct (gn_dirs _ _ _ Hg ino ltac:(by rewrite Ha)) as [es' Ha'].
  eapply sub_directory; [|done|by rewrite (gn_links _ _ _ Hg)|by rewrite (gn_dir _ _ _ Hg), decide_False|exact Ha'].
  apply IH. destruct (decide (dir = [])) as [->|]; [by apply root_kept|]. intros Hr. apply Hn. by apply removed_entry.
Qed.
Lemma directory_before roots d d' x : gone roots d d' -> directory (d_fs d') (d_tree d') x -> directory (d_fs d) (d_tree d) x.
Proof.
  intros Hg. induction 1 as [|dir c ino es Hd IH Hc Hl Hi Ha]; [constructor|]. rewrite (gn_dir _ _ _ Hg) in Hi. destruct (decide _); [done|]. rewrite (gn_links _ _ _ Hg) in Hl.
  destruct (a_entries (attr_of (d_tree d) ino)) as [es'|] eqn:E; [by eapply sub_directory|]. rewrite (gn_files _ _ _ Hg ino E) in Ha. congruence.
Qed.
Lemma directory_left roots d d' x : gone roots d d' -> directory (d_fs d') (d_tree d') x -> x <> [] -> ~ removed roots (name_of x).
Proof.
  intros Hg Hd Hx. destruct Hd as [|dir c ino es Hd Hc Hl Hi Ha]; [done|]. rewrite (gn_dir _ _ _ Hg) in Hi. by destruct (decide _).
Qed.
Lemma directory_left_root roots d d' x : Forall root_name roots -> gone roots d d' -> directory (d_fs d') (d_tree d') x -> ~ removed roots (name_of x).
Proof. intros Hr Hg Hd. destruct (decide (x = [])) as [->|]; [by apply root_kept|by eapply directory_left]. Qed.

Lemma gone_trans a b d1 d2 d3 : Forall root_name a -> gone a d1 d2 -> gone b d2 d3 -> gone (a ++ b) d1 d3.
Proof.
  intros Hra H1 H2. split.
  - intros n. rewrite (gn_dir _ _ _ H2), (gn_dir _ _ _ H1). destruct (decide (removed b n)), (decide (removed a n)); [rewrite decide_True by (apply removed_app; tauto)..|rewrite decide_False by (rewrite removed_app; tauto)]; done.
  - by rewrite (gn_data _ _ _ H2), (gn_data _ _ _ H1).
  - by rewrite (gn_fds _ _ _ H2), (gn_fds _ _ _ H1).
  - by rewrite (gn_next _ _ _ H2), (gn_next _ _ _ H1).
  - by rewrite (gn_links _ _ _ H2), (gn_links _ _ _ H1).
  - by rewrite (gn_cwd _ _ _ H2), (gn_cwd _ _ _ H1).
  - intros ino Ha. pose proof (gn_files _ _ _ H1 ino Ha) as E. rewrite <- E. apply (gn_files _ _ _ H2). congruence.
  - intros ino Ha. by apply (gn_dirs _ _ _ H2), (gn_dirs _ _ _ H1).
  - intros x ino Hd Hi Hn. rewrite removed_app in Hn. rewrite (gn_entries _ _ _ H2 x ino); [|eapply directory_kept; [done|done|done|tauto]|rewrite (gn_dir _ _ _ H1), decide_False by tauto; done|tauto].
    rewrite (gn_entries _ _ _ H1 x ino) by tauto. destruct (a_entries _) as [es|]; [|done]. cbn. f_equal. rewrite list_filter_filter. apply filter_ext_in. intros e _. rewrite removed_app. tauto.
Qed.

(** The same removals, listed in another way. *)
Lemma gone_iff a b d d' : (forall n, removed a n <-> removed b n) -> gone a d d' -> gone b d d'.
Proof.
  intros Hab []. split; try done.
  - intros n. rewrite gn_dir0. destruct (decide (removed a n)), (decide (removed b n)); [done|exfalso|exfalso|done]; specialize (Hab n); tauto.
  - intros x ino Hd Hi Hn. rewrite (gn_entries0 x ino) by (rewrite ?Hab; done). destruct (a_entries _) as [es|]; [|done]. cbn. f_equal. apply filter_ext_in. intros e _. specialize (Hab (name_of (x ++ [e]))). tauto.
Qed.

Lemma gone_tree_ok roots d d' : Forall root_name roots -> gone roots d d' -> tree_ok d -> tree_ok d'.
Proof.
  intros Hroots Hg [Hok Hu He Hp]. assert (Hdir : forall n ino, fs_dir (d_fs d') !! n = Some ino -> fs_dir (d_fs d) !! n = Some ino /\ ~ removed roots n).
  { intros n ino. rewrite (gn_dir _ _ _ Hg). by destruct (decide _). }
  split.
  - split.
    + intros n ino [Hn _]%Hdir. rewrite (gn_next _ _ _ Hg). by eapply (dk_next _ _ Hok).
    + rewrite (gn_dir _ _ _ Hg), (dk_empty _ _ Hok). by destruct (decide _).
    + intros ino [Hi _]%Hdir. apply (gn_dirs _ _ _ Hg). by apply (dk_root _ _ Hok).
  - intros x y ino Hx Hy [Ex _]%Hdir [Ey _]%Hdir. eapply Hu; [by eapply directory_before|by eapply directory_before|done|done].
  - intros x ino es Hx [Hi Hn]%Hdir Ha. pose proof (directory_before _ _ _ _ Hg Hx) as Hx0. rewrite (gn_entries _ _ _ Hg x ino Hx0 Hi Hn) in Ha. destruct (a_entries (attr_of (d_tree d) ino)) as [es0|] eqn:Ea; [|done]. injection Ha as <-.
    destruct (He x ino es0 Hx0 Hi Ea) as [Hnd Hes]. split; [by apply NoDup_filter|]. intros e [Hr Hin]%list_elem_of_filter. destruct (Hes e Hin) as [?|[Hen Hor]]; [by left|]. right. split; [done|]. rewrite (gn_links _ _ _ Hg), (gn_dir _ _ _ Hg), decide_False by done. done.
  - intros n ino [Hi Hn]%Hdir. destruct (Hp n ino Hi) as [?|(x & e & j & es & -> & Hx & Hen & Hj & Ha & Hin)]; [by left|]. right.
    assert (Hnx : ~ removed roots (name_of x)) by (destruct (decide (x = [])) as [->|]; [by apply root_kept|intros Hr; apply Hn; by apply removed_entry]).
    exists x, e, j, (filter (fun e => ~ removed roots (name_of (x ++ [e]))) es). split; [done|]. split; [by eapply directory_kept|]. split; [done|]. split; [by rewrite (gn_dir _ _ _ Hg), decide_False|].
    split; [by rewrite (gn_entries _ _ _ Hg x j), Ha|]. by apply list_elem_of_filter.
Qed.

(** ** Removing one entry *)
Section Remove.
Context (g : grants) (now : Z).

Lemma directory_words fs t x : directory fs t x -> Forall word x.
Proof. intros H. by eapply names_words, directory_names. Qed.
Lemma dots_word e : dots e = true -> word e.
Proof. unfold dots. intros [->%bool_decide_eq_true | ->%bool_decide_eq_true]%orb_true_iff; split; [done|by apply (bool_decide_unpack _)|done|by apply (bool_decide_unpack _)]. Qed.
Lemma dots_entry e : entry_name e -> dots e = false.
Proof. intros (_ & H2 & H3 & _). unfold dots. by rewrite !bool_decide_eq_false_2. Qed.

Lemma entries_words d x ino es e : tree_ok d -> directory (d_fs d) (d_tree d) x -> fs_dir (d_fs d) !! name_of x = Some ino -> a_entries (attr_of (d_tree d) ino) = Some es -> e ∈ es -> word e.
Proof. intros Hok Hd Hi Ha He. destruct (to_entries _ Hok x ino es Hd Hi Ha) as [_ Hes]. destruct (Hes e He) as [Hdot|[Hen _]]; [by apply dots_word|]. destruct Hen as (? & _ & _ & ?). done. Qed.

Lemma prefix_snoc {A} (a b : list A) (x y : A) : a ++ [x] `prefix_of` b ++ [y] -> a ++ [x] `prefix_of` b \/ a = b /\ x = y.
Proof.
  intros [k E]. destruct k as [|z k _] using rev_ind.
  - right. rewrite app_nil_r in E. apply app_inj_tail in E as [-> ->]. done.
  - left. rewrite app_assoc in E. apply app_inj_tail in E as [-> _]. by eexists.
Qed.

Lemma drop_gone d dir c : tree_ok d -> directory (d_fs d) (d_tree d) dir -> entry_name c -> t_links (d_tree d) !! name_of (dir ++ [c]) = None ->
  (forall n, name_of (dir ++ [c]) ++ [47] `prefix_of` n -> fs_dir (d_fs d) !! n = None) -> gone [name_of (dir ++ [c])] d (drop_entry now dir c d).
Proof.
  intros Hok Hd Hc Hl Hbelow. pose proof (directory_words _ _ _ Hd) as Hdw. assert (Hw : Forall word (dir ++ [c])) by (apply Forall_app; split; [done|]; constructor; [by destruct Hc as (? & _ & _ & ?)|done]).
  assert (Hne : dir ++ [c] <> []) by (by destruct dir). split; try done.
  - intros n. destruct (decide _) as [Hr|Hr]; rewrite removed_one in Hr; cbn.
    + destruct Hr as [->|Hb]; [apply lookup_delete_eq|]. rewrite lookup_delete_None. right. by apply Hbelow.
    + rewrite lookup_delete_ne by (intros E; apply Hr; by left). done.
  - cbn. by apply delete_id.
  - intros ino Ha. destruct (dropped_attr now dir c d ino) as [[E _]|[Hi _]]; [done|]. exfalso. destruct (entries_dir d dir (to_disk _ Hok) Hd) as [es Hes]. unfold entries_at in Hes. rewrite Hi in Hes. congruence.
  - intros ino [es Ha]. destruct (dropped_attr now dir c d ino) as [[E _]|[_ E]]; rewrite E, Ha; by eexists.
  - intros x ino Hx Hi Hn. destruct (a_entries (attr_of (d_tree d) ino)) as [es|] eqn:Ha.
    2: { exfalso. destruct (entries_dir d x (to_disk _ Hok) Hx) as [es Hes]. unfold entries_at in Hes. rewrite Hi in Hes. congruence. }
    pose proof (directory_words _ _ _ Hx) as Hxw. assert (Hxe : forall e, e ∈ es -> Forall word (x ++ [e])) by (intros e He; apply Forall_app; split; [done|]; constructor; [by eapply entries_words|done]).
    destruct (dropped_attr now dir c d ino) as [[E Hdi]|[Hdi E]]; rewrite E, Ha; cbn; f_equal.
    + symmetry. apply filter_all. intros e He Hr. apply removed_name in Hr; [|done|done|by apply Hxe]. apply prefix_snoc in Hr as [Hp|[-> ->]]; [|done]. apply Hn. by apply removed_name.
    + assert (x = dir) as -> by (by eapply (to_unique _ Hok)). apply filter_ext_in. intros e He. rewrite (removed_name (dir ++ [c]) (dir ++ [e])) by (done || by apply Hxe). split.
      * intros Hec [Hp|[_ ->]]%prefix_snoc; [|done]. destruct Hp as [k Hk]. apply (f_equal length) in Hk. rewrite !length_app in Hk. cbn in Hk. lia.
      * intros Hp ->. by apply Hp.
Qed.

(** What is below a directory is listed in it. *)
Lemma below_listed d y n ino j es : tree_ok d -> directory (d_fs d) (d_tree d) y -> y <> [] -> fs_dir (d_fs d) !! name_of y = Some j -> a_entries (attr_of (d_tree d) j) = Some es ->
  fs_dir (d_fs d) !! n = Some ino -> name_of y ++ [47] `prefix_of` n -> exists e, e ∈ es /\ dots e = false.
Proof.
  intros Hok Hy Hne Hj Ha Hn Hb. assert (Hlist : forall e i, entry_name e -> fs_dir (d_fs d) !! name_of (y ++ [e]) = Some i -> e ∈ es).
  { intros e i Hen Hi. destruct (to_parent _ Hok _ _ Hi) as [E|(x & e' & j' & es' & E & Hx & He' & Hj' & Ha' & Hin)].
    - exfalso. rewrite name_of_snoc in E. apply (f_equal length) in E. rewrite length_app in E. cbn in E. destruct Hen as [Hen _]. destruct e; [done|]. cbn in E. lia.
    - apply name_inj in E; [|apply Forall_app; split; [by eapply directory_words|by apply names_words; constructor]..]. apply app_inj_tail in E as [-> ->]. congruence. }
  destruct (to_parent _ Hok _ _ Hn) as [->|(x & e & i & es' & -> & Hx & He & Hi & _)].
  - exfalso. destruct Hb as [k E]. rewrite name_text in E by done. destruct (text_slash y Hne) as [p Ep]. rewrite Ep in E. cbn in E. injection E as E. by destruct p.
  - assert (Hxw : Forall word (x ++ [e])) by (apply Forall_app; split; [by eapply directory_words|by apply names_words; constructor]). apply below_comps in Hb as (e1 & more & E); [|done|by eapply directory_words|done].
    destruct more as [|z more _] using rev_ind.
    + apply app_inj_tail in E as [-> ->]. exists e1. split; [by eapply Hlist|by apply dots_entry].
    + rewrite app_comm_cons, app_assoc in E. apply app_inj_tail in E as [-> _]. assert (Hd1 : directory (d_fs d) (d_tree d) (y ++ [e1])) by (apply (directory_prefix _ _ _ more); by rewrite <- app_assoc).
      destruct (directory_snoc _ _ _ _ Hd1) as (_ & He1 & _ & i1 & es1 & Hi1 & _). exists e1. split; [by eapply Hlist|by apply dots_entry].
Qed.

(** ** Names that lead to a directory *)

Lemma walk_along fs t n rest : forall base todo, directory fs t (base ++ rest) -> walk fs t n base (rest ++ todo) = walk fs t n (base ++ rest) todo.
Proof.
  induction rest as [|c rest IH]; intros base todo Hd; [by rewrite app_nil_r|]. change (base ++ c :: rest) with (base ++ [c] ++ rest) in *. rewrite app_assoc in *.
  destruct (directory_snoc _ _ _ _ (directory_prefix _ _ _ _ Hd)) as (_ & Hc & Hl & ino & es & Hi & Ha). cbn [app]. rewrite (walk_step fs t n base c (rest ++ todo) ino) by done. rewrite Ha. by apply IH.
Qed.
Lemma walk_to fs t n base rest : canonical fs t (base ++ rest) -> walk fs t n base rest = Some (base ++ rest).
Proof.
  intros Hc. destruct rest as [|c rest _] using rev_ind; [rewrite app_nil_r; apply walk_nil|]. rewrite app_assoc in *. remember ((base ++ rest) ++ [c]) as x eqn:Ex. destruct Hc as [x Hd|dir c' ino Hd Hc Hl Hi Ha]; subst.
  - rewrite <- (app_nil_r (rest ++ [c])). rewrite walk_along by (by rewrite app_assoc). by rewrite walk_nil, app_assoc.
  - apply app_inj_tail in Ex as [-> ->]. rewrite (walk_along _ _ _ rest _ [c]) by done. rewrite (walk_step fs t n _ c [] ino) by done. by rewrite Ha.
Qed.

(** [q] is the name of [base], or that of a link to it from a directory that is not at or below [top]. *)
Definition leads (top : list (list Z)) (d : disk) (q : path) (base : list (list Z)) : Prop :=
  directory (d_fs d) (d_tree d) base /\
  (q = dir_text base \/ exists ldir l, q = name_of (ldir ++ [l]) /\ directory (d_fs d) (d_tree d) ldir /\ entry_name l /\ base <> [] /\ t_links (d_tree d) !! q = Some (name_of base)
                                   /\ ~ removed [name_of top] (name_of ldir)).

Lemma leads_absolute top d q base rest : leads top d q base -> q ++ dir_text rest <> [] -> absolute (q ++ dir_text rest) = true.
Proof.
  intros [_ [->|(ldir & l & -> & _)]] Hne.
  - rewrite <- dir_text_app in *. destruct (text_slash (base ++ rest)) as [p ->]; [|done]. by intros E; rewrite E in Hne.
  - rewrite dir_text_name. destruct (text_slash (ldir ++ [l])) as [p ->]; [by destruct ldir|]. done.
Qed.
Lemma leads_walk top d q base : leads top d q base -> exists n, forall todo, walk (d_fs d) (d_tree d) MAXSYMLINKS [] (components q ++ todo) = walk (d_fs d) (d_tree d) n base todo.
Proof.
  intros [Hb [->|(ldir & l & -> & Hd & Hl & Hne & Ht & _)]].
  - exists MAXSYMLINKS. intros todo. pose proof (components_text [] base (directory_words _ _ _ Hb)) as Ec. cbn [app] in Ec. rewrite Ec. change (components []) with [[] : list Z]. cbn [app]. rewrite walk_skip. by apply walk_directory.
  - exists (pred MAXSYMLINKS). intros todo. assert (Hw : Forall word (ldir ++ [l])) by (apply Forall_app; split; [by eapply directory_words|by apply names_words; constructor]).
    rewrite components_name_of by (done || by destruct ldir). cbn [app]. rewrite walk_skip, <- app_assoc, walk_directory by done. cbn [app]. destruct Hl as (H1 & H2 & H3 & _).
    change MAXSYMLINKS with (S (pred MAXSYMLINKS)) at 1. cbn [walk]. rewrite !bool_decide_eq_false_2 by done. cbn [orb]. rewrite Ht. assert (Ha : absolute (name_of base) = true) by (rewrite name_text by done; by destruct (text_slash base Hne) as [p ->]). rewrite Ha.
    rewrite components_name_of by (done || by eapply directory_words). cbn [app]. rewrite walk_skip. by apply walk_directory.
Qed.

Section Leads.
Context (top base : list (list Z)) (q : path).

Lemma lookup_leads d rest : leads top d q base -> canonical (d_fs d) (d_tree d) (base ++ rest) -> q ++ dir_text rest <> [] -> Z.of_nat (length (q ++ dir_text rest)) < PATH_MAX ->
  lookup_path d (q ++ dir_text rest) = inr (base ++ rest).
Proof.
  intros Hq Hc Hne Hlen. pose proof (leads_absolute _ _ _ _ rest Hq Hne) as Habs. destruct (leads_walk _ _ _ _ Hq) as [n Hw]. pose proof (names_words _ (canonical_names _ _ _ Hc)) as Hs. apply Forall_app in Hs as [_ Hs].
  unfold lookup_path. destruct (q ++ dir_text rest) as [|a p] eqn:Ep; [done|]. rewrite <- Ep in *. rewrite (proj2 (Z.leb_gt _ _)) by done. unfold start_of, resolve. rewrite Habs, components_text, Hw, walk_to by done. done.
Qed.

Lemma path_snoc rest c : q ++ dir_text (rest ++ [c]) = (q ++ dir_text rest) ++ 47 :: c.
Proof. by rewrite dir_text_snoc, app_assoc. Qed.
Lemma path_ne rest c : q ++ dir_text (rest ++ [c]) <> [].
Proof. rewrite path_snoc. by destruct (q ++ dir_text rest). Qed.

Lemma entry_leads d rest c : tree_ok d -> leads top d q base -> directory (d_fs d) (d_tree d) (base ++ rest) -> entry_name c -> Z.of_nat (length (q ++ dir_text (rest ++ [c]))) < PATH_MAX ->
  entry_of_name d (q ++ dir_text (rest ++ [c])) = inr (base ++ rest, c).
Proof.
  intros Hok Hq Hd Hc Hlen. pose proof (leads_absolute _ _ _ _ (rest ++ [c]) Hq (path_ne rest c)) as Habs. destruct (leads_walk _ _ _ _ Hq) as [n Hw]. pose proof (directory_words _ _ _ Hd) as Hs. apply Forall_app in Hs as [_ Hs].
  destruct (entries_dir d (base ++ rest) (to_disk _ Hok) Hd) as [es Hes]. rewrite path_snoc in *. eapply entry_eval; [done|done| |exact Hes].
  unfold start_of, resolve. rewrite Habs, components_text, Hw, walk_to by (done || by constructor). done.
Qed.

Definition granted : Prop := forall n, g_write g n = true /\ g_read g n = true /\ g_readdir g n = true /\ g_closedir g n = true.
Hypothesis (Hg : granted).

Lemma unlink_leads d rest c ino : tree_ok d -> leads top d q base -> directory (d_fs d) (d_tree d) (base ++ rest) -> entry_name c -> Z.of_nat (length (q ++ dir_text (rest ++ [c]))) < PATH_MAX ->
  t_links (d_tree d) !! name_of ((base ++ rest) ++ [c]) = None -> fs_dir (d_fs d) !! name_of ((base ++ rest) ++ [c]) = Some ino -> a_entries (attr_of (d_tree d) ino) = None ->
  unlink_name g now (q ++ dir_text (rest ++ [c])) d = Some (0, drop_entry now (base ++ rest) c d).
Proof.
  intros Hok Hq Hd Hc Hlen Hl Hi Ha. unfold unlink_name. rewrite (entry_leads d rest c) by done. rewrite entry_name_no_entry, Hl, Hi, Ha by done. rewrite bool_decide_eq_false_2 by (by intros []). by destruct (Hg (name_of (base ++ rest))) as [-> _].
Qed.
Lemma rmdir_leads d rest c ino es : tree_ok d -> leads top d q base -> directory (d_fs d) (d_tree d) (base ++ rest) -> entry_name c -> Z.of_nat (length (q ++ dir_text (rest ++ [c]))) < PATH_MAX ->
  t_links (d_tree d) !! name_of ((base ++ rest) ++ [c]) = None -> fs_dir (d_fs d) !! name_of ((base ++ rest) ++ [c]) = Some ino -> a_entries (attr_of (d_tree d) ino) = Some es -> forallb dots es = true ->
  rmdir g now (q ++ dir_text (rest ++ [c])) d = Some (0, drop_entry now (base ++ rest) c d).
Proof.
  intros Hok Hq Hd Hc Hlen Hl Hi Ha Hes. unfold rmdir. rewrite (entry_leads d rest c) by done. destruct Hc as (H1 & H2 & H3 & _). rewrite !bool_decide_eq_false_2 by done. rewrite Hl, Hi, Ha, Hes. by destruct (Hg (name_of (base ++ rest))) as [-> _].
Qed.

(** ** Removing a directory with what is in it *)

(** What is below [top] can be removed through names that begin with [q]. *)
Record removable (d : disk) : Prop := {
  rv_tree : tree_ok d;
  rv_leads : leads top d q base;
  rv_links : forall n, removed [name_of top] n -> t_links (d_tree d) !! n = None;
  rv_len : forall y, top `prefix_of` base ++ y -> is_Some (fs_dir (d_fs d) !! name_of (base ++ y)) -> Z.of_nat (length (q ++ dir_text y)) < PATH_MAX - 1;
}.
Hypothesis (Htop : top <> []) (Htopw : Forall word top) (Hqw : last q <> Some 47).

Lemma removed_mono roots n : Forall (removed [name_of top]) roots -> removed roots n -> removed [name_of top] n.
Proof.
  unfold removed at 2. rewrite Forall_forall, Exists_exists. intros Hall (r & Hr & Hn). specialize (Hall r Hr). rewrite removed_one in *. destruct Hn as [->|Hb]; [done|]. right.
  destruct Hall as [->|Ha]; [done|]. etrans; [exact Ha|]. etrans; [|exact Hb]. by eexists.
Qed.

Lemma removable_gone roots d d' : Forall (removed [name_of top]) roots -> Forall root_name roots -> ~ removed roots (name_of base) -> gone roots d d' -> removable d -> removable d'.
Proof.
  intros Hbelow Hroots Hbase Hgone [Hok Hq Hl Hlen]. split.
  - by eapply gone_tree_ok.
  - destruct Hq as [Hb Hor]. split; [by eapply directory_kept|]. destruct Hor as [?|(ldir & l & -> & Hd & Hle & Hne & Ht & Hn)]; [by left|]. right. exists ldir, l. rewrite (gn_links _ _ _ Hgone).
    split; [done|]. split; [|done]. eapply directory_kept; [done|done|done|]. intros Hr. apply Hn. by eapply removed_mono.
  - intros n Hn. rewrite (gn_links _ _ _ Hgone). by apply Hl.
  - intros y Hy. rewrite (gn_dir _ _ _ Hgone). destruct (decide _); [by intros []|]. by apply Hlen.
Qed.

(** Changes of [errno] and of the number of streams. *)
Definition same_files (d d' : disk) : Prop := d_fs d' = d_fs d /\ d_tree d' = d_tree d.
Lemma same_removable d d' : same_files d d' -> removable d -> removable d'.
Proof.
  destruct d as [fs t e n], d' as [fs' t' e' n']. intros [E1 E2] Hr. cbn in E1, E2. subst fs' t'. destruct Hr as [[H1 H2 H3 H4] H5 H6 H7]. split; [split|..]; done.
Qed.
Lemma gone_same roots d1 d1' d2 d2' : same_files d1 d1' -> same_files d2' d2 -> gone roots d1' d2' -> gone roots d1 d2.
Proof.
  destruct d1 as [fs t e n], d1' as [fs' t' e' n'], d2 as [gs u f m], d2' as [gs' u' f' m']. intros [E1 E2] [E3 E4] []. cbn in *. subst. split; done.
Qed.

(** An entry of a directory of the tree. *)
Definition child (rest : list (list Z)) (e : list Z) : path := name_of ((base ++ rest) ++ [e]).

Lemma child_facts d rest e : removable d -> directory (d_fs d) (d_tree d) (base ++ rest) -> top `prefix_of` (base ++ rest) -> entry_name e ->
  removed [name_of top] (child rest e) /\ root_name (child rest e) /\ ~ removed [child rest e] (name_of base) /\ ~ removed [child rest e] (name_of (base ++ rest)) /\ Forall word ((base ++ rest) ++ [e]).
Proof.
  intros Hr Hd Hp He. pose proof (directory_words _ _ _ Hd) as Hw. assert (Hwe : Forall word ((base ++ rest) ++ [e])) by (apply Forall_app; split; [done|by apply names_words; constructor]). assert (Hne : (base ++ rest) ++ [e] <> []) by (by destruct (base ++ rest)).
  unfold child. split; [apply removed_name; [done|done|done|]; etrans; [exact Hp|by eexists]|]. split; [by exists ((base ++ rest) ++ [e])|].
  split; [|split; [|done]]; (rewrite removed_name; [|done|done|try done; by apply Forall_app in Hw as [? _]]); intros [k Hk]; apply (f_equal length) in Hk; rewrite !length_app in Hk; cbn in Hk; lia.
Qed.

(** What a call on a directory of the tree does, with enough fuel. *)
Definition removes (fuel : nat) : Prop := forall d rest c, removable d -> top `prefix_of` base ++ rest ++ [c] -> directory (d_fs d) (d_tree d) (base ++ rest ++ [c]) ->
  PATH_MAX - Z.of_nat (length (q ++ dir_text (rest ++ [c]))) < Z.of_nat fuel ->
  exists d', rmdir_recursive_from g now fuel (q ++ dir_text (rest ++ [c])) d = Some (0, d') /\ gone [child rest c] d d' /\ d_errno d' = 0 /\ d_streams d' = d_streams d.

Lemma remove_child fuel d rest e : removes fuel -> removable d -> directory (d_fs d) (d_tree d) (base ++ rest) -> top `prefix_of` base ++ rest -> entry_name e -> is_Some (fs_dir (d_fs d) !! child rest e) ->
  d_errno d = 0 -> PATH_MAX - Z.of_nat (length (q ++ dir_text rest)) < Z.of_nat (S fuel) ->
  exists d', rmdir_entry g now (rmdir_recursive_from g now fuel) (q ++ dir_text (rest ++ [e])) d = Some (true, d') /\ gone [child rest e] d d' /\ d_errno d' = 0 /\ d_streams d' = d_streams d.
Proof.
  intros HP Hr Hd Hp He [ino Hi] Herr Hfuel. destruct (child_facts d rest e Hr Hd Hp He) as (Htopc & _ & _ & _ & Hw). unfold child in *.
  assert (Hpe : top `prefix_of` base ++ rest ++ [e]) by (etrans; [exact Hp|]; rewrite app_assoc; by eexists).
  assert (Hlen : Z.of_nat (length (q ++ dir_text (rest ++ [e]))) < PATH_MAX - 1) by (apply (rv_len _ Hr); [done|]; rewrite app_assoc; by eexists).
  pose proof (rv_links _ Hr _ Htopc) as Hl. unfold rmdir_entry. destruct (a_entries (attr_of (d_tree d) ino)) as [es|] eqn:Ha.
  - assert (Hde : directory (d_fs d) (d_tree d) (base ++ rest ++ [e])) by (rewrite app_assoc; by eapply sub_directory).
    assert (Est : stat_is_dir (q ++ dir_text (rest ++ [e])) d = Some (Some true, d)).
    { unfold stat_is_dir. rewrite (lookup_leads d (rest ++ [e]) (rv_leads _ Hr) (canonical_directory _ _ _ Hde) (path_ne rest e) ltac:(lia)). unfold entries_at. by rewrite app_assoc, Hi, Ha. }
    rewrite (bind_eval _ _ _ _ _ Est). destruct (HP d rest e Hr Hpe Hde) as (d' & E & Hrest); [rewrite path_snoc, length_app; cbn; lia|]. exists d'. rewrite (bind_eval _ _ _ _ _ E). done.
  - assert (Hce : canonical (d_fs d) (d_tree d) (base ++ rest ++ [e])) by (rewrite app_assoc; by eapply canonical_file).
    assert (Est : stat_is_dir (q ++ dir_text (rest ++ [e])) d = Some (Some false, d)).
    { unfold stat_is_dir. rewrite (lookup_leads d (rest ++ [e]) (rv_leads _ Hr) Hce (path_ne rest e) ltac:(lia)). unfold entries_at. by rewrite app_assoc, Hi, Ha. }
    rewrite (bind_eval _ _ _ _ _ Est). exists (drop_entry now (base ++ rest) e d). assert (Eu := unlink_leads d rest e ino (rv_tree _ Hr) (rv_leads _ Hr) Hd He ltac:(lia) Hl Hi Ha). rewrite (bind_eval _ _ _ _ _ Eu).
    split; [done|]. split; [|done]. apply drop_gone; [apply Hr|done|done|done|]. intros n Hb. destruct (fs_dir (d_fs d) !! n) as [i|] eqn:En; [|done]. exfalso.
    destruct (to_parent _ (rv_tree _ Hr) _ _ En) as [->|(x & e' & j & es & -> & Hx & He' & _)].
    + destruct Hb as [k Ek]. apply (f_equal length) in Ek. rewrite name_of_snoc, !length_app in Ek. cbn in Ek. lia.
    + apply below_comps in Hb as (e1 & more & E); [|by destruct (base ++ rest)|done|apply Forall_app; split; [by eapply directory_words|by apply names_words; constructor]].
      assert (Hpx : (base ++ rest) ++ [e] `prefix_of` x) by (destruct more as [|z more _] using rev_ind; [apply app_inj_tail in E as [-> _]; done|rewrite app_comm_cons, app_assoc in E; apply app_inj_tail in E as [-> _]; by eexists]).
      destruct Hpx as [k ->]. destruct (directory_snoc _ _ _ _ (directory_prefix _ _ _ _ Hx)) as (_ & _ & _ & i' & es' & Hi' & Ha'). congruence.
Qed.

Lemma gone_nil d : gone [] d d.
Proof.
  split; try done. intros x ino _ _ _. destruct (a_entries _) as [es|]; [|done]. cbn. f_equal. symmetry. apply filter_all. intros e _. apply removed_nil.
Qed.

Lemma with_slash_text rest : Forall word rest -> with_slash (q ++ dir_text rest) = (q ++ dir_text rest) ++ [47].
Proof.
  intros Hw. unfold with_slash. rewrite bool_decide_eq_false_2; [done|]. destruct rest as [|c rest _] using rev_ind; [by rewrite app_nil_r|]. apply Forall_app in Hw as [_ [Hne Hc]%Forall_singleton].
  rewrite path_snoc. destruct c as [|x c _] using rev_ind; [done|]. rewrite app_comm_cons, app_assoc, last_snoc. intros [= ->]. apply Hc. set_solver.
Qed.

(** The loop over the entries of a directory. *)
Lemma remove_entries fuel rest : removes fuel -> top `prefix_of` base ++ rest -> PATH_MAX - Z.of_nat (length (q ++ dir_text rest)) < Z.of_nat (S fuel) ->
  forall es d, removable d -> directory (d_fs d) (d_tree d) (base ++ rest) -> NoDup es -> (forall e, e ∈ es -> dots e = true \/ entry_name e /\ is_Some (fs_dir (d_fs d) !! child rest e)) -> d_errno d = 0 ->
  exists d', rmdir_entries g now (rmdir_recursive_from g now fuel) ((q ++ dir_text rest) ++ [47]) es d = Some (Ended, d')
    /\ gone (child rest <$> filter (fun e => dots e = false) es) d d' /\ d_errno d' = 0 /\ d_streams d' = d_streams d.
Proof.
  intros HP Hp Hfuel. induction es as [|e es IH]; intros d Hr Hd Hnd Hes Herr; [exists d; split; [done|]; split; [apply gone_nil|done]|]. apply NoDup_cons in Hnd as [Hnin Hnd]. cbn [rmdir_entries]. rewrite filter_cons. destruct (dots e) eqn:Hdot.
  - rewrite decide_False by done. apply IH; [done|done|done|intros e' He'; apply Hes; by right|done].
  - rewrite decide_True by done. destruct (Hes e ltac:(by left)) as [?|[He Hi]]; [congruence|]. destruct (child_facts d rest e Hr Hd Hp He) as (Htopc & Hroot & Hnb & Hnr & Hw).
    assert (Hlen : Z.of_nat (length (q ++ dir_text (rest ++ [e]))) < PATH_MAX - 1) by (apply (rv_len _ Hr); rewrite app_assoc; [etrans; [exact Hp|by eexists]|exact Hi]).
    assert (Ecat : ((q ++ dir_text rest) ++ [47]) ++ e = q ++ dir_text (rest ++ [e])) by (by rewrite path_snoc, <- app_assoc). rewrite <- Ecat, !length_app in Hlen.
    rewrite (proj2 (Z.leb_gt _ _)) by (rewrite !length_app in *; lia). destruct (remove_child fuel d rest e HP Hr Hd Hp He Hi Herr Hfuel) as (d1 & E1 & Hg1 & Herr1 & Hst1). rewrite Ecat, (bind_eval _ _ _ _ _ E1).
    assert (Hr1 : removable d1) by (eapply (removable_gone [child rest e]); [by constructor|by constructor|done|done|done]).
    destruct (IH d1) as (d2 & E2 & Hg2 & Herr2 & Hst2); [done|by eapply directory_kept; [constructor| | |]|done| |done|].
    + intros e' He'. destruct (Hes e' ltac:(by right)) as [?|[He2 Hi2]]; [by left|]. right. split; [done|]. rewrite (gn_dir _ _ _ Hg1), decide_False; [done|]. unfold child. destruct (child_facts d rest e' Hr Hd Hp He2) as (_ & _ & _ & _ & Hw').
      rewrite removed_name by (done || by destruct (base ++ rest)). intros [Hp'|[_ ->]]%prefix_snoc; [|done]. apply Hnr. unfold child. apply removed_name; [by destruct (base ++ rest)|done| |done]. by apply Forall_app in Hw as [? _].
    + exists d2. split; [done|]. split; [|split; [done|congruence]]. exact (gone_trans [child rest e] _ _ _ _ (proj2 (Forall_singleton _ _) Hroot) Hg1 Hg2).
Qed.

(** Everything in a directory is removed before [rmdir] is called. *)
Lemma empty_directory fuel d rest ino es : removes fuel -> removable d -> directory (d_fs d) (d_tree d) (base ++ rest) -> top `prefix_of` base ++ rest -> base ++ rest <> [] -> q ++ dir_text rest <> [] ->
  Z.of_nat (length (q ++ dir_text rest)) < PATH_MAX - 1 -> PATH_MAX - Z.of_nat (length (q ++ dir_text rest)) < Z.of_nat (S fuel) ->
  fs_dir (d_fs d) !! name_of (base ++ rest) = Some ino -> a_entries (attr_of (d_tree d) ino) = Some es ->
  exists d', rmdir_recursive_from g now (S fuel) (q ++ dir_text rest) d = (r ← rmdir g now (q ++ dir_text rest); mret (if r <? 0 then -1 else 0)) d'
    /\ gone (child rest <$> filter (fun e => dots e = false) es) d d' /\ d_errno d' = 0 /\ d_streams d' = d_streams d.
Proof.
  intros HP Hr Hd Hp Hbne Hne Hlen Hfuel Hi Ha. cbn [rmdir_recursive_from]. set (path := q ++ dir_text rest) in *. destruct (Hg path) as (_ & Hread & Hreaddir & Hclose).
  assert (Eo : opendir g path d = Some (Some es, Disk (d_fs d) (d_tree d) (d_errno d) (S (d_streams d)))).
  { unfold opendir, path. rewrite (lookup_leads d rest (rv_leads _ Hr) (canonical_directory _ _ _ Hd) Hne ltac:(unfold path in *; lia)). unfold entries_at. rewrite Hi, Ha. fold path. by rewrite Hread. }
  rewrite (bind_eval _ _ _ _ _ Eo). rewrite (proj2 (Z.leb_gt _ _)) by lia. set (d1 := Disk (d_fs d) (d_tree d) 0 (S (d_streams d))). rewrite (bind_eval (set_errno 0) _ _ tt d1) by done.
  pose proof (directory_words _ _ _ Hd) as Hw. apply Forall_app in Hw as [_ Hw]. assert (Hd1 : removable d1) by (by eapply same_removable; [|exact Hr]).
  destruct (to_entries _ (rv_tree _ Hr) _ _ _ Hd Hi Ha) as [Hnd Hes]. destruct (remove_entries fuel rest HP Hp Hfuel es d1 Hd1 Hd Hnd) as (d2 & E2 & Hg2 & Herr2 & Hst2); [|done|].
  { intros e He. destruct (Hes e He) as [?|[Hen [Hs|Hs]]]; [by left|by right|]. exfalso. destruct (child_facts d rest e Hr Hd Hp Hen) as (Htopc & _). unfold child in Htopc. rewrite (rv_links _ Hr _ Htopc) in Hs. by destruct Hs. }
  assert (Ews : with_slash path = path ++ [47]) by (by apply with_slash_text). rewrite Ews. fold path in E2. rewrite (bind_eval _ _ _ _ _ E2). rewrite Hreaddir. rewrite (bind_eval (mret tt) _ _ tt d2 eq_refl), (bind_eval get_errno _ _ _ _ eq_refl), Herr2. unfold rmdir_done.
  exists (Disk (d_fs d2) (d_tree d2) (d_errno d2) (pred (d_streams d2))). assert (Ec : closedir g path d2 = Some (0, Disk (d_fs d2) (d_tree d2) (d_errno d2) (pred (d_streams d2)))) by (unfold closedir; by rewrite Hclose). rewrite (bind_eval _ _ _ _ _ Ec).
  split; [done|]. split; [by eapply gone_same; [| |exact Hg2]|]. split; [done|]. cbn. rewrite Hst2. done.
Qed.

Definition children (rest : list (list Z)) (es : list (list Z)) : list path := child rest <$> filter (fun e => dots e = false) es.

Section Emptied.
Context (d d' : disk) (rest : list (list Z)) (ino : Z) (es : list (list Z)).
Hypothesis (Hr : removable d) (Hd : directory (d_fs d) (d_tree d) (base ++ rest)) (Hp : top `prefix_of` base ++ rest) (Hne : base ++ rest <> []).
Hypothesis (Hi : fs_dir (d_fs d) !! name_of (base ++ rest) = Some ino) (Ha : a_entries (attr_of (d_tree d) ino) = Some es).
Hypothesis (Hgone : gone (children rest es) d d').

Lemma children_facts : Forall (removed [name_of top]) (children rest es) /\ Forall root_name (children rest es)
  /\ ~ removed (children rest es) (name_of base) /\ ~ removed (children rest es) (name_of (base ++ rest)).
Proof.
  assert (Hc : forall c, c ∈ children rest es -> exists e, c = child rest e /\ entry_name e).
  { intros c (e & -> & [Hdot He]%list_elem_of_filter)%list_elem_of_fmap. exists e. split; [done|]. destruct (to_entries _ (rv_tree _ Hr) _ _ _ Hd Hi Ha) as [_ Hes]. destruct (Hes e He) as [?|[? _]]; [congruence|done]. }
  split; [|split; [|split]]; rewrite ?Forall_forall; [..|intros (c & Hin & Hn)%Exists_exists; apply removed_one in Hn; revert Hn|intros (c & Hin & Hn)%Exists_exists; apply removed_one in Hn; revert Hn]; [intros c Hin..| |];
    destruct (Hc c Hin) as (e & -> & He); destruct (child_facts d rest e Hr Hd Hp He) as (H1 & H2 & H3 & H4 & _); done.
Qed.

Lemma emptied : directory (d_fs d') (d_tree d') (base ++ rest) /\ removable d' /\ fs_dir (d_fs d') !! name_of (base ++ rest) = Some ino
  /\ (exists es', a_entries (attr_of (d_tree d') ino) = Some es' /\ forallb dots es' = true) /\ forall n, name_of (base ++ rest) ++ [47] `prefix_of` n -> fs_dir (d_fs d') !! n = None.
Proof.
  destruct children_facts as (Hb & Hroots & Hnb & Hn). assert (Hd' : directory (d_fs d') (d_tree d') (base ++ rest)) by (by eapply directory_kept). assert (Hr' : removable d') by (by eapply removable_gone).
  assert (Hi' : fs_dir (d_fs d') !! name_of (base ++ rest) = Some ino) by (by rewrite (gn_dir _ _ _ Hgone), decide_False). pose proof (gn_entries _ _ _ Hgone _ _ Hd Hi Hn) as He. rewrite Ha in He. cbn in He.
  assert (Hdots : forallb dots (filter (fun e => ~ removed (children rest es) (name_of ((base ++ rest) ++ [e]))) es) = true).
  { apply forallb_forall. intros e [Hk Hin]%list_elem_of_In%list_elem_of_filter. destruct (dots e) eqn:E; [done|]. exfalso. apply Hk. unfold removed. rewrite Exists_exists. exists (child rest e). split; [|by left].
    apply list_elem_of_fmap. exists e. split; [done|]. by apply list_elem_of_filter. }
  split; [done|]. split; [done|]. split; [done|]. split; [by eexists|]. intros n Hbelow. destruct (fs_dir (d_fs d') !! n) as [i|] eqn:En; [|done]. exfalso.
  destruct (below_listed d' (base ++ rest) n i ino _ (rv_tree _ Hr') Hd' Hne Hi' He En Hbelow) as (e & Hin & Hdot). rewrite forallb_forall in Hdots. rewrite (Hdots e) in Hdot by (by apply list_elem_of_In). done.
Qed.
End Emptied.

Lemma removes_all fuel : removes fuel.
Proof.
  induction fuel as [|fuel IH]; intros d rest c Hr Hp Hd Hfuel.
  - exfalso. pose proof (directory_snoc (d_fs d) (d_tree d) (base ++ rest) c) as Hs. rewrite <- app_assoc in Hs. destruct (Hs Hd) as (_ & _ & _ & ino & es & Hi & _). pose proof (rv_len _ Hr (rest ++ [c]) Hp ltac:(by eexists)). lia.
  - pose proof (directory_snoc (d_fs d) (d_tree d) (base ++ rest) c) as Hs. rewrite <- app_assoc in Hs. destruct (Hs Hd) as (Hd0 & Hc & Hl & ino & es & Hi & Ha). pose proof (rv_len _ Hr (rest ++ [c]) Hp ltac:(by eexists)) as Hlen.
    assert (Hbne : base ++ rest ++ [c] <> []) by (rewrite app_assoc; by destruct (base ++ rest)).
    destruct (empty_directory fuel d (rest ++ [c]) ino es IH Hr Hd Hp Hbne (path_ne rest c) Hlen Hfuel Hi Ha) as (d1 & E & Hg1 & Herr1 & Hst1). destruct (emptied d d1 (rest ++ [c]) ino es Hr Hd Hp Hbne Hi Ha Hg1) as (Hd1 & Hr1 & Hi1 & (es1 & Ha1 & Hdots) & Hbelow).
    destruct (children_facts d (rest ++ [c]) ino es Hr Hd Hp Hi Ha) as (_ & Hroots & _ & _). rewrite app_assoc in Hl, Hi1, Hd1, Hbelow. assert (Hd01 : directory (d_fs d1) (d_tree d1) (base ++ rest)) by (by eapply directory_prefix).
    assert (Hl1 : t_links (d_tree d1) !! name_of ((base ++ rest) ++ [c]) = None) by (by rewrite (gn_links _ _ _ Hg1)).
    exists (drop_entry now (base ++ rest) c d1). rewrite E. rewrite (bind_eval _ _ _ _ _ (rmdir_leads d1 rest c ino es1 (rv_tree _ Hr1) (rv_leads _ Hr1) Hd01 Hc ltac:(lia) Hl1 Hi1 Ha1 Hdots)). split; [done|]. split; [|done].
    eapply gone_iff; [|eapply gone_trans; [exact Hroots|exact Hg1|apply drop_gone; [apply Hr1|done|done|done|done]]]. intros n. rewrite removed_app. unfold child. split; [|tauto]. intros [Hn|?]; [|done]. rewrite removed_one. right.
    unfold removed in Hn. rewrite Exists_exists in Hn. destruct Hn as (x & (e & -> & _)%list_elem_of_fmap & Hn). assert (Hb : name_of ((base ++ rest) ++ [c]) ++ [47] `prefix_of` child (rest ++ [c]) e) by (unfold child; rewrite (app_assoc base); apply below_name; by destruct (base ++ rest)).
    destruct Hn as [->|Hn]; [done|]. etrans; [exact Hb|]. etrans; [|exact Hn]. by eexists.
Qed.
End Leads.

Lemma dir_text_last x : Forall word x -> last (dir_text x) <> Some 47.
Proof.
  intros Hw. destruct x as [|c x _] using rev_ind; [done|]. apply Forall_app in Hw as [_ [Hne Hc]%Forall_singleton]. rewrite dir_text_snoc. destruct c as [|z c _] using rev_ind; [done|].
  rewrite app_comm_cons, app_assoc, last_snoc. intros [= ->]. apply Hc. set_solver.
Qed.

(** C22: [rmdir_recursive] on a directory in which there are no symbolic links returns 0; the directory
    and everything below it are gone, and everything else is as it was, every stream closed. *)
Theorem rmdir_recursive_removes (d : disk) (top : list (list Z)) (Hg : granted) (Hok : tree_ok d) (Htop : directory (d_fs d) (d_tree d) top) (Hne : top <> [])
    (Hlinks : forall n, removed [name_of top] n -> t_links (d_tree d) !! n = None)
    (Hlen : forall y, top `prefix_of` y -> is_Some (fs_dir (d_fs d) !! name_of y) -> Z.of_nat (length (name_of y)) < PATH_MAX - 1) :
  exists d', rmdir_recursive g now (name_of top) d = Some (0, d') /\ gone [name_of top] d d' /\ d_streams d' = d_streams d.
Proof.
  destruct top as [|c dir _] using rev_ind; [done|]. pose proof (directory_words _ _ _ Htop) as Hw. pose proof Hw as Hwd. apply Forall_app in Hwd as [Hwd _]. destruct (directory_snoc _ _ _ _ Htop) as (Hd & _).
  assert (Hr : removable (dir ++ [c]) dir (dir_text dir) d).
  { split; [done|by split; [|left]|done|]. intros y Hy Hs. rewrite <- dir_text_app, <- name_text; [by apply Hlen|]. destruct Hy as [k E]. rewrite E. by destruct dir. }
  destruct (removes_all (dir ++ [c]) dir (dir_text dir) Hg Hne Hw (dir_text_last _ Hwd) (Z.to_nat PATH_MAX + 1) d [] c Hr) as (d' & E & Hgone & _ & Hst); [done|done|lia|]. cbn [app] in E. rewrite <- dir_text_app in E. unfold child in Hgone. rewrite app_nil_r in Hgone. exists d'. rewrite <- dir_text_name in E. done.
Qed.

(** ** Links *)

Section Links.
Context (d : disk) (ldir : list (list Z)) (l : list Z) (post : list (list Z)) (lino : Z).
Hypothesis (Hg : granted) (Hok : tree_ok d) (Hldir : directory (d_fs d) (d_tree d) ldir) (Hlne : ldir <> []) (Hl : entry_name l) (Hlen : Z.of_nat (length (name_of (ldir ++ [l]))) < PATH_MAX - 1).
Hypothesis (Hlino : fs_dir (d_fs d) !! name_of ldir = Some lino) (Hla : a_entries (attr_of (d_tree d) lino) = Some (str "." :: str ".." :: l :: post)).

(** The call up to the first entry. *)
Lemma first_entry ok d' : let d1 := Disk (d_fs d) (d_tree d) 0 (S (d_streams d)) in
  rmdir_entry g now (rmdir_recursive_from g now (Z.to_nat PATH_MAX)) (name_of (ldir ++ [l])) d1 = Some (ok, d') -> ok = false ->
  rmdir_recursive g now (name_of ldir) d = Some (-1, Disk (d_fs d') (d_tree d') (d_errno d') (pred (d_streams d'))).
Proof.
  intros d1 He ->. unfold rmdir_recursive. rewrite Nat.add_1_r. cbn [rmdir_recursive_from]. destruct (Hg (name_of ldir)) as (_ & Hread & _ & Hclose). pose proof (directory_words _ _ _ Hldir) as Hw.
  assert (Hll : Z.of_nat (length (name_of ldir)) < PATH_MAX - 1) by (rewrite dir_text_name, dir_text_snoc, length_app in Hlen; rewrite name_text by done; lia).
  assert (Eo : opendir g (name_of ldir) d = Some (Some (str "." :: str ".." :: l :: post), Disk (d_fs d) (d_tree d) (d_errno d) (S (d_streams d)))).
  { unfold opendir. pose proof (lookup_leads ldir ldir (dir_text ldir) d []) as Elk. rewrite !app_nil_r in Elk. rewrite name_text in * by done. rewrite Elk; [|by split; [|left]|by constructor|by destruct ldir|lia].
    unfold entries_at. rewrite (name_text ldir) by done. by rewrite Hlino, Hla, Hread. }
  assert (Ew : with_slash (name_of ldir) = name_of ldir ++ [47]) by (unfold with_slash; rewrite name_text by done; by rewrite bool_decide_eq_false_2 by (by apply dir_text_last)).
  assert (Ec : (name_of ldir ++ [47]) ++ l = name_of (ldir ++ [l])) by (rewrite dir_text_name, dir_text_snoc, <- app_assoc; by rewrite name_text).
  assert (Ee : rmdir_entries g now (rmdir_recursive_from g now (Z.to_nat PATH_MAX)) (name_of ldir ++ [47]) (str "." :: str ".." :: l :: post) d1 = Some (Goto_done, d')).
  { cbn [rmdir_entries]. change (dots (str ".")) with true. change (dots (str "..")) with true. cbv iota. rewrite (dots_entry l Hl). rewrite <- Ec, length_app in Hlen. rewrite (proj2 (Z.leb_gt _ _)) by lia. rewrite Ec, (bind_eval _ _ _ _ _ He). done. }
  rewrite (bind_eval _ _ _ _ _ Eo). rewrite (proj2 (Z.leb_gt _ _)) by lia. rewrite (bind_eval (set_errno 0) _ _ tt d1) by done. rewrite Ew, (bind_eval _ _ _ _ _ Ee). unfold rmdir_done.
  assert (Ecl : closedir g (name_of ldir) d' = Some (0, Disk (d_fs d') (d_tree d') (d_errno d') (pred (d_streams d')))) by (unfold closedir; by rewrite Hclose). by rewrite (bind_eval _ _ _ _ _ Ecl).
Qed.

(** [rmdir_recursive] gives up at an entry that [stat] refuses, such as a link to nothing: it
    returns -1 and removes nothing. *)
Theorem rmdir_recursive_dangling (e : Z) (Hlink : lookup_path d (name_of (ldir ++ [l])) = inl e) :
  rmdir_recursive g now (name_of ldir) d = Some (-1, with_errno d e).
Proof.
  rewrite (first_entry false (Disk (d_fs d) (d_tree d) e (S (d_streams d)))); [done| |done]. unfold rmdir_entry. rewrite (bind_eval _ _ _ None (Disk (d_fs d) (d_tree d) e (S (d_streams d)))); [done|]. unfold stat_is_dir.
  assert (El : lookup_path (Disk (d_fs d) (d_tree d) 0 (S (d_streams d))) (name_of (ldir ++ [l])) = inl e) by (by destruct d). by rewrite El.
Qed.

(** C38: [rmdir_recursive] follows links: where the first entry of the directory is a link to a
    directory elsewhere, everything below that other directory is removed, although the call
    returns -1; the link and both directories stay. *)
Theorem rmdir_recursive_follows_link (base : list (list Z)) (ino : Z) (es : list (list Z)) (Hbase : directory (d_fs d) (d_tree d) base) (Hbne : base <> [])
    (Hlink : t_links (d_tree d) !! name_of (ldir ++ [l]) = Some (name_of base)) (Hapart : ~ base `prefix_of` ldir)
    (Hino : fs_dir (d_fs d) !! name_of base = Some ino) (Ha : a_entries (attr_of (d_tree d) ino) = Some es)
    (Hlinks : forall n, removed [name_of base] n -> t_links (d_tree d) !! n = None)
    (Hlens : forall y, is_Some (fs_dir (d_fs d) !! name_of (base ++ y)) -> Z.of_nat (length (name_of (ldir ++ l :: y))) < PATH_MAX - 1) :
  exists d', rmdir_recursive g now (name_of ldir) d = Some (-1, d') /\ (forall n, name_of base ++ [47] `prefix_of` n -> fs_dir (d_fs d') !! n = None)
    /\ gone (children base [] es) d d' /\ d_streams d' = d_streams d.
Proof.
  set (d1 := Disk (d_fs d) (d_tree d) 0 (S (d_streams d))). set (q := name_of (ldir ++ [l])) in *. pose proof (directory_words _ _ _ Hbase) as Hbw.
  assert (Hlw : Forall word (ldir ++ [l])) by (apply Forall_app; split; [by eapply directory_words|by apply names_words; constructor]).
  assert (Hr : removable base base q d1).
  { apply (same_removable _ _ _ d); [done|]. split; [done| |done|].
    - split; [done|]. right. exists ldir, l. repeat (split; [done|]). rewrite removed_name; [done|done|done|by eapply directory_words].
    - intros y _ Hs. unfold q. rewrite dir_text_name, <- dir_text_app, <- app_assoc, <- name_text by (by destruct ldir). by apply Hlens. }
  assert (Hqne : q ++ dir_text [] <> []) by (unfold q; rewrite dir_text_name, dir_text_snoc; by destruct (dir_text ldir)). assert (Hqw : last q <> Some 47) by (unfold q; rewrite dir_text_name; by apply dir_text_last). rewrite app_nil_r in Hqne.
  assert (Hcan : canonical (d_fs d1) (d_tree d1) (base ++ [])) by (rewrite app_nil_r; by constructor).
  pose proof (lookup_leads base base q d1 [] (rv_leads _ _ _ _ Hr) Hcan) as Elk. rewrite !app_nil_r in Elk. specialize (Elk Hqne ltac:(lia)).
  assert (Est : stat_is_dir q d1 = Some (Some true, d1)) by (unfold stat_is_dir; rewrite Elk; unfold entries_at; cbn [d1 d_fs d_tree]; by rewrite Hino, Ha).
  pose proof (empty_directory base base q Hg Hbne Hbw Hqw (Z.to_nat PATH_MAX - 1) d1 [] ino es (removes_all base base q Hg Hbne Hbw Hqw _) Hr) as He. rewrite !app_nil_r in He.
  destruct He as (d2 & E2 & Hg2 & Herr2 & Hst2); [done|done|done|done|lia| |done|done|]. { unfold q in *. rewrite name_of_snoc, length_app. cbn. lia. }
  pose proof (emptied base base q Hbne Hbw Hqw d1 d2 [] ino es Hr) as Hem. rewrite !app_nil_r in Hem. destruct (Hem Hbase ltac:(done) Hbne Hino Ha Hg2) as (Hb2 & Hr2 & _ & _ & Hbelow).
  pose proof (children_facts base base q Hbne Hbw d1 [] ino es Hr) as Hcf. rewrite !app_nil_r in Hcf. destruct (Hcf Hbase ltac:(done) Hino Ha) as (Hmono & Hroots & _ & _).
  assert (Hld2 : directory (d_fs d2) (d_tree d2) ldir).
  { eapply directory_kept; [exact Hroots|exact Hg2|exact Hldir|]. intros Hrm. apply Hapart. apply removed_name; [done|done|by eapply directory_words|]. by eapply removed_mono. }
  assert (Erm : rmdir g now q d2 = Some (-1, with_errno d2 ENOTDIR)).
  { unfold rmdir, q. rewrite (entry_dir d2 ldir l) by (done || apply Hr2 || (unfold q in *; lia)). destruct Hl as (H1 & H2 & H3 & _). rewrite !bool_decide_eq_false_2 by done. rewrite (gn_links _ _ _ Hg2). cbn [d1 d_tree]. fold q. by rewrite Hlink. }
  eexists. split; [apply (first_entry false (with_errno d2 ENOTDIR)); [|done]|].
  - unfold rmdir_entry. fold q d1. rewrite (bind_eval _ _ _ _ _ Est). replace (Z.to_nat PATH_MAX) with (S (Z.to_nat PATH_MAX - 1)) by (by vm_compute). rewrite (bind_eval _ _ _ (-1) (with_errno d2 ENOTDIR)); [done|]. rewrite E2. by rewrite (bind_eval _ _ _ _ _ Erm).
  - split; [exact Hbelow|]. split; [by eapply gone_same; [| |exact Hg2]|]. cbn. by rewrite Hst2.
Qed.
End Links.
End Remove.

(** ** Termination *)

(** No directory has an entry without a name. *)
Definition named (d : disk) : Prop := forall ino es, a_entries (attr_of (d_tree d) ino) = Some es -> [] ∉ es.

Section Returns.
Context (g : grants) (now : Z).

(** A call that returns, whatever the disk is. *)
Definition returns {A} (m : ST disk A) : Prop := forall d, named d -> exists a d', m d = Some (a, d') /\ named d'.

Lemma returns_ret {A} (a : A) : returns (mret a).
Proof. intros d Hd. by exists a, d. Qed.
Lemma returns_bind {A B} (m : ST disk A) (k : A -> ST disk B) : returns m -> (forall a, returns (k a)) -> returns (m ≫= k).
Proof. intros Hm Hk d Hd. destruct (Hm d Hd) as (a & d1 & E & Hd1). rewrite (bind_eval _ _ _ _ _ E). by apply Hk. Qed.
Lemma returns_errno e : returns (set_errno e).
Proof. intros d Hd. by eexists _, _. Qed.
Lemma returns_get : returns get_errno.
Proof. intros d Hd. by eexists _, _. Qed.
Lemma returns_fail e d : named d -> exists a d', fail_with e d = Some (a, d') /\ named d'.
Proof. intros Hd. by eexists _, _. Qed.
Lemma returns_drop dir c d : named d -> named (drop_entry now dir c d).
Proof.
  intros Hd ino es Ha. destruct (dropped_attr now dir c d ino) as [[E _]|[_ E]]; rewrite E in Ha; [by apply (Hd ino)|]. destruct (a_entries (attr_of (d_tree d) ino)) as [es'|] eqn:Ea; [|done]. injection Ha as <-.
  intros [_ Hin]%list_elem_of_filter. by apply (Hd ino es').
Qed.

Ltac returns_cases := repeat first [by apply returns_fail | by eexists _, _; split; [reflexivity|apply returns_drop] | case_match].

Lemma returns_unlink p : returns (unlink_name g now p).
Proof. intros d Hd. unfold unlink_name. returns_cases. Qed.
Lemma returns_rmdir p : returns (rmdir g now p).
Proof. intros d Hd. unfold rmdir. returns_cases. Qed.
Lemma returns_stat p : returns (stat_is_dir p).
Proof. intros d Hd. unfold stat_is_dir. case_match; by eexists _, _. Qed.
Lemma returns_closedir p : returns (closedir g p).
Proof. intros d Hd. by eexists _, _. Qed.
Lemma returns_done p ok : returns (rmdir_done g now p ok).
Proof.
  apply returns_bind; [apply returns_closedir|]. intros r. case_match; [apply returns_ret|]. case_match; [apply returns_ret|]. apply returns_bind; [apply returns_rmdir|]. intros r'. apply returns_ret.
Qed.

(** What [opendir] returns has names; a name that is too long is refused. *)
Lemma opendir_returns p d : named d -> exists r d', opendir g p d = Some (r, d') /\ named d' /\ match r with Some es => [] ∉ es /\ Z.of_nat (length p) < PATH_MAX | None => True end.
Proof.
  intros Hd. unfold opendir. destruct (lookup_path d p) as [e|comps] eqn:El; [by eexists _, _|]. assert (Hlen : Z.of_nat (length p) < PATH_MAX) by (unfold lookup_path in El; destruct p; [done|]; destruct (Z.leb_spec PATH_MAX (Z.of_nat (length (z :: p)))); [done|lia]).
  destruct (entries_at d comps) as [es|] eqn:Ee; [|by eexists _, _]. case_match; [by eexists _, _|]. eexists _, _. split; [done|]. split; [done|]. split; [|done]. unfold entries_at in Ee. case_match; [by apply (Hd _ _ Ee)|]. case_match; [|done]. injection Ee as <-. apply not_elem_of_nil.
Qed.

Lemma entries_return rec dirname es : (forall e, e <> [] -> returns (rec (dirname ++ e))) -> [] ∉ es -> returns (rmdir_entries g now rec dirname es).
Proof.
  intros Hrec. induction es as [|e es IH]; intros Hes; [apply returns_ret|]. apply not_elem_of_cons in Hes as [He Hes]. cbn [rmdir_entries]. case_match; [by apply IH|]. case_match; [apply returns_ret|].
  apply returns_bind.
  - apply returns_bind; [apply returns_stat|]. intros [[]|]; [..|apply returns_ret]; (apply returns_bind; [|intros r; apply returns_ret]); [by apply Hrec|apply returns_unlink].
  - intros []; [by apply IH|apply returns_ret].
Qed.

Lemma with_slash_length p : (length p <= length (with_slash p))%nat.
Proof. unfold with_slash. case_match; [lia|]. rewrite length_app. cbn. lia. Qed.

Lemma rmdir_from_returns fuel : forall path, PATH_MAX - Z.of_nat (length path) < Z.of_nat fuel -> (0 < fuel)%nat -> returns (rmdir_recursive_from g now fuel path).
Proof.
  induction fuel as [|fuel IH]; intros path Hfuel Hpos; [lia|]. intros d Hd. cbn [rmdir_recursive_from]. destruct (opendir_returns path d Hd) as (r & d1 & E & Hd1 & Hr). rewrite (bind_eval _ _ _ _ _ E).
  destruct r as [es|]; [|apply (returns_bind get_errno); [apply returns_get|intros e; apply returns_ret|done]]. destruct Hr as [Hes Hlen]. case_match; [by apply returns_ret|].
  apply (returns_bind (set_errno 0)); [apply returns_errno| |done]. intros _. apply returns_bind.
  - apply entries_return; [|done]. intros e He. pose proof (with_slash_length path). assert (0 < length e)%nat by (destruct e; [done|cbn; lia]). apply IH; [rewrite length_app|]; lia.
  - intros []; [|apply returns_done|apply returns_ret]. apply returns_bind; [case_match; [apply returns_ret|apply returns_errno]|]. intros _. apply returns_bind; [apply returns_get|]. intros e. apply returns_done.
Qed.

(** C24: [rmdir_recursive] returns on every disk, whatever links there are in the directory, also links
    to the directory itself: the name it works on grows in each call, and [opendir] refuses it when
    it is too long. *)
Theorem rmdir_recursive_returns (path : path) (d : disk) (Hd : named d) : exists r d', rmdir_recursive g now path d = Some (r, d').
Proof.
  destruct (rmdir_from_returns (Z.to_nat PATH_MAX + 1) path ltac:(lia) ltac:(lia) d Hd) as (r & d' & E & _). by exists r, d'.
Qed.
End Returns.

(** ** The disk of the examples *)

Ltac linked_rows H := repeat (apply elem_of_cons in H as [H|H]; [simplify_eq|]); try (by apply not_elem_of_nil in H).

Lemma linked_tree_ok : tree_ok linked_disk.
Proof.
  assert (Hn : forall x ino, directory (d_fs linked_disk) (d_tree linked_disk) x -> fs_dir (d_fs linked_disk) !! name_of x = Some ino -> (x, ino) ∈ [([], 1); ([str "a"], 2); ([str "t"], 3); ([str "t"; str "f"], 4); ([str "t"; str "s"], 5)]).
  { intros x ino Hx%directory_words H. apply linked_names in H. assert (Hw : forall y, forallb (fun c => bool_decide (word c)) y = true -> name_of x = name_of y -> x = y).
    { intros y Hy E. apply (name_inj x y); [done| |done]. apply Forall_forall. intros c Hc%list_elem_of_In. rewrite forallb_forall in Hy. by apply (bool_decide_eq_true (word c)), Hy. }
    repeat (apply elem_of_cons in H as [H|H]; [injection H as H ->|]); [..|by apply not_elem_of_nil in H];
      [rewrite (Hw [] eq_refl H)|rewrite (Hw [str "a"] eq_refl H)|rewrite (Hw [str "t"] eq_refl H)|rewrite (Hw [str "t"; str "f"] eq_refl H)|rewrite (Hw [str "t"; str "s"] eq_refl H)]; repeat first [by left | right]. }
  split; [exact linked_ok|..].
  - intros x y ino Hx Hy Ex Ey. pose proof (Hn x ino Hx Ex) as H1. pose proof (Hn y ino Hy Ey) as H2. linked_rows H1; linked_rows H2; congruence.
  - intros x ino es Hx Hi Ha. pose proof (Hn x ino Hx Hi) as H. linked_rows H; vm_compute in Ha; try discriminate Ha; injection Ha as <-; (split; [by apply (bool_decide_unpack _); vm_compute|]); intros e He; rewrite !elem_of_cons in He;
      destruct_or? He; try (by apply not_elem_of_nil in He); subst e; first [by left; vm_compute | right; split; [entry_by_computation|]; first [by left; vm_compute; eexists | by right; vm_compute; eexists]].
  - intros n ino H. linked_cases H; [by left|right..].
    + exists [], (str "a"), 1, [str "."; str ".."; str "a"; str "t"]. repeat (split; [first [done | constructor; fail | entry_by_computation | by vm_compute]|]). by apply (bool_decide_unpack _); vm_compute.
    + exists [], (str "t"), 1, [str "."; str ".."; str "a"; str "t"]. repeat (split; [first [done | constructor; fail | entry_by_computation | by vm_compute]|]). by apply (bool_decide_unpack _); vm_compute.
    + exists [str "t"], (str "f"), 3, [str "."; str ".."; str "f"; str "s"]. repeat (split; [first [exact linked_t | done | entry_by_computation | by vm_compute]|]). by apply (bool_decide_unpack _); vm_compute.
    + exists [str "t"], (str "s"), 3, [str "."; str ".."; str "f"; str "s"]. repeat (split; [first [exact linked_t | done | entry_by_computation | by vm_compute]|]). by apply (bool_decide_unpack _); vm_compute.
Qed.

Lemma linked_granted : granted all_granted.
Proof. done. Qed.
Lemma linked_below n : removed [name_of [str "t"]] n -> t_links (d_tree linked_disk) !! n = None.
Proof.
  intros Hr. destruct (t_links (d_tree linked_disk) !! n) as [target|] eqn:E; [|done]. exfalso. apply linked_links in E as [-> _]. revert Hr. by apply (bool_decide_unpack _); vm_compute.
Qed.

Lemma rmdir_recursive_removes_witness :
  exists d', rmdir_recursive all_granted 9 (str "/t") linked_disk = Some (0, d') /\ gone [str "/t"] linked_disk d' /\ d_streams d' = d_streams linked_disk.
Proof.
  apply (rmdir_recursive_removes all_granted 9 linked_disk [str "t"]); [exact linked_granted|exact linked_tree_ok|exact linked_t|done|exact linked_below|].
  intros y _ [ino H]. generalize dependent (name_of y). intros n H. linked_cases H; by vm_compute.
Defined.

Lemma rmdir_recursive_follows_link_witness :
  exists d', rmdir_recursive all_granted 9 (str "/a") linked_disk = Some (-1, d') /\ (forall n, str "/t" ++ [47] `prefix_of` n -> fs_dir (d_fs d') !! n = None)
    /\ gone (children [str "t"] [] [str "."; str ".."; str "f"; str "s"]) linked_disk d' /\ d_streams d' = d_streams linked_disk.
Proof.
  apply (rmdir_recursive_follows_link all_granted 9 linked_disk [str "a"] (str "l") [] 2 linked_granted linked_tree_ok linked_a) with (base := [str "t"]) (ino := 3);
    [done|entry_by_computation|by vm_compute|by vm_compute|by vm_compute|exact linked_t|done|by vm_compute| |by vm_compute|by vm_compute|exact linked_below|].
  - by apply (bool_decide_unpack _); vm_compute.
  - intros y [ino H]. assert (Hl : (length (name_of ([str "a"] ++ str "l" :: y)) = length (name_of ([str "t"] ++ y)) + 2)%nat) by (rewrite !name_text by done; change ([str "a"] ++ str "l" :: y) with ([str "a"; str "l"] ++ y); rewrite !dir_text_app, !length_app; change (length (dir_text [str "a"; str "l"])) with 4%nat; change (length (dir_text [str "t"])) with 2%nat; lia).
    rewrite Hl. generalize dependent (name_of ([str "t"] ++ y)). intros n H _. linked_cases H; by vm_compute.
Defined.

Lemma rmdir_recursive_returns_witness : named linked_disk /\ exists r d', rmdir_recursive all_granted 9 (str "/a") linked_disk = Some (r, d').
Proof.
  assert (Hn : named linked_disk).
  { intros ino es. unfold attr_of. destruct (t_attrs (d_tree linked_disk) !! ino) as [a|] eqn:E; [|done]. apply elem_of_list_to_map_2 in E. rewrite !elem_of_cons in E. destruct_or? E; [..|by apply not_elem_of_nil in E]; injection E as -> ->; intros Ha; try discriminate Ha; injection Ha as <-; by apply (bool_decide_unpack _); vm_compute. }
  split; [exact Hn|]. apply (rmdir_recursive_returns all_granted 9 (str "/a") linked_disk). exact Hn.
Defined.
