(* ===== verification/StringTable.v ===== *)
(** * StringTable: what the HTTP parsers need of a hash table

    The parsers of cookies and query strings only look keys up, insert new ones and fill in
    the value through the pointer they get.  [StringTableLaws] says what they rely on; the
    hash table of [Hashtable.v] provides it. *)

From stdpp Require Import base numbers list gmap.
From Stdlib Require Import ZArith Lia.
From S2P Require Import Prelude Words Os Vmallocator Probe ProbeFacts Hashtable HashtableFacts HashtableMap.

(** Keys and values have at most this many bytes together. *)
Definition max_record : nat := 1024.

Class StringTable (T : Type) := {
  st_lookup : T -> list Z -> option Z;                        (* 0 if there is none *)
  st_insert : T -> list Z -> list Z -> option (T * Z);
  st_insert_alloc : T -> list Z -> list Z -> option (T * Z);  (* with the bytes that happen to be in the record *)
  st_get_val : T -> Z -> list Z;
  st_set_val : T -> Z -> list Z -> T;                         (* writing through the pointer to the value *)
}.

(** What an insertion of [k] with [v] gives: a place where the value can be rewritten. *)
Definition inserted {T} `{StringTable T} (rep : T -> gmap (list Z) (list Z) -> Prop)
    (m : gmap (list Z) (list Z)) (k v : list Z) (res : option (T * Z)) : Prop :=
  exists t loc, res = Some (t, loc) /\ loc <> 0 /\ st_get_val t loc = v /\ rep t (<[k := v]> m)
    /\ forall v', length v' = length v -> rep (st_set_val t loc v') (<[k := v']> m).

(** [st_rep t n m]: the table holds [m] and has room for [n] more keys. *)
Class StringTableLaws (T : Type) `{StringTable T} := {
  st_rep : T -> nat -> gmap (list Z) (list Z) -> Prop;
  st_lookup_ok t n m k : st_rep t n m -> exists loc, st_lookup t k = Some loc
    /\ match m !! k with Some v => loc <> 0 /\ st_get_val t loc = v | None => loc = 0 end;
  st_insert_ok t n m k v : st_rep t (S n) m -> m !! k = None -> (length k + length v <= max_record)%nat ->
    inserted (fun t => st_rep t n) m k v (st_insert t k v);
  st_insert_alloc_ok t n m k v : st_rep t (S n) m -> m !! k = None -> (length k + length v <= max_record)%nat ->
    inserted (fun t => st_rep t n) m k v (st_insert_alloc t k v);
}.

(** ** The hash table *)

Definition hashtable_set_val (ht : hashtable) (ofs : Z) (v : list Z) : hashtable :=
  let r := rec_at ht ofs in
  with_recs ht (<[ofs := InternalRec (r_word0 r) (r_word1 r) (take (Z.to_nat (rec_key_size r)) (r_data r) ++ v)]> (ht_recs ht)).

#[export] Instance hashtable_string_table (o : os) : StringTable hashtable := {
  st_lookup := hashtable_lookup;
  st_insert := hashtable_insert o;
  st_insert_alloc := hashtable_insert_alloc o;
  st_get_val := hashtable_get_val;
  st_set_val := hashtable_set_val;
}.

(** Room for [n] more records within the budget of [HashtableMap]. *)
Definition room_for (ht : hashtable) (n : nat) : Prop :=
  exists c0 w0 k, budget c0 w0 k 1024 ht /\ 32 <= c0 /\ 0 <= k
    /\ w0 + 40 * Z.max c0 (4 * (k + Z.of_nat n)) + (k + Z.of_nat n + 1) * (REC_SIZE + 1024) < 2 ^ 31.

Definition ht_string_rep (ht : hashtable) (n : nat) (m : gmap (list Z) (list Z)) : Prop :=
  (exists F, ht_rep ht F m) /\ room_for ht n.

Lemma room_insert ht n k v : room_for ht (S n) -> (length k + length v <= max_record)%nat -> insert_room ht k v.
Proof.
  intros (c0 & w0 & u & [B1 B2 B3] & Hc0 & Hu & Hmax) Hlen. unfold insert_room, ENTRY_SIZE, REC_SIZE, max_record in *. lia.
Qed.

Lemma room_growth ht ht' n bytes : room_for ht (S n) -> bytes <= REC_SIZE + 1024 -> growth ht ht' bytes -> room_for ht' n.
Proof.
  intros (c0 & w0 & u & Hb & Hc0 & Hu & Hmax) Hbytes Hg. exists c0, w0, (u + 1). split; [by eapply budget_growth; eauto; lia|].
  split; [done|]. split; [lia|]. replace (u + 1 + Z.of_nat n) with (u + Z.of_nat (S n)) by lia. done.
Qed.

(** Rewriting the value of a live record. *)
Section SetVal.
Context (ht : hashtable) (F : list Z) (m : gmap (list Z) (list Z)) (e0 : ht_entry) (k v v' : list Z).
Hypothesis (Hrep : ht_rep ht F m) (He0 : e0 ∈ entries ht (cap_of ht)) (Hh : holds ht (e_rec e0) k v) (Hlen : length v' = length v).
Let ht' := hashtable_set_val ht (e_rec e0) v'.

Lemma set_val_recs : ht_recs ht' = <[e_rec e0 := InternalRec (Z.of_nat (length k)) (Z.of_nat (length v')) (k ++ v')]> (ht_recs ht).
Proof.
  unfold ht', hashtable_set_val, rec_at. rewrite Hh. cbn. rewrite Nat2Z.id, take_app_length. by rewrite Hlen.
Qed.

Lemma set_val_new : holds ht' (e_rec e0) k v'.
Proof. unfold holds. rewrite set_val_recs. apply lookup_insert_eq. Qed.

Lemma set_val_ne a : a <> e_rec e0 -> ht_recs ht' !! a = ht_recs ht !! a.
Proof. intros Ha. rewrite set_val_recs. by apply lookup_insert_ne. Qed.

Lemma set_val_words a : rec_key_size (rec_at ht' a) = rec_key_size (rec_at ht a) /\ rec_val_size (rec_at ht' a) = rec_val_size (rec_at ht a).
Proof.
  unfold rec_at. destruct (decide (a = e_rec e0)) as [->|Ha]; [|by rewrite set_val_ne].
  rewrite set_val_new, Hh. cbn. by rewrite Hlen.
Qed.

Lemma set_val_regions : regions ht' F = regions ht F.
Proof.
  unfold regions. f_equal. f_equal; apply list_fmap_ext; intros i x _.
  - unfold live_region. destruct (set_val_words (e_rec x)). congruence.
  - unfold free_region, free_rec_size. destruct (set_val_words x). unfold rec_val_size in *. congruence.
Qed.

Lemma set_val_chain G : forall head, (forall g, g ∈ G -> g <> e_rec e0) -> free_chain ht head G -> free_chain ht' head G.
Proof.
  induction G as [|g G IH]; intros head Hne; cbn; [done|]. intros (-> & Hg & r & Hr & Hc). split; [done|]. split; [done|].
  exists r. rewrite set_val_ne by (apply Hne; by left). split; [done|]. apply IH; [|done]. intros g' Hg'. apply Hne. by right.
Qed.

Lemma set_val_old e k1 v1 : e ∈ entries ht (cap_of ht) -> e <> e0 -> holds ht (e_rec e) k1 v1 -> holds ht' (e_rec e) k1 v1 /\ k1 <> k.
Proof.
  intros He Hne H1. split.
  - unfold holds. rewrite set_val_ne; [done|]. intros E. apply Hne. by eapply live_rec_inj.
  - intros ->. apply Hne. by eapply (rep_keys _ _ _ Hrep).
Qed.

Lemma set_val_rep : ht_rep ht' F (<[k := v']> m).
Proof.
  pose proof Hrep as [Hvm Hwl Hsl Hcap Hreach Hsize Hload Hdis Hwith Hch Hlive Hmap Hkeys].
  split; auto.
  - by rewrite set_val_regions.
  - by rewrite set_val_regions.
  - apply set_val_chain; [|done]. intros g Hg E. by apply (live_free_ne _ _ _ Hrep e0 g He0 Hg).
  - intros e He. destruct (decide (e = e0)) as [->|Hne].
    + exists k, v'. split; [apply set_val_new|]. destruct (Hlive e0 He0) as (k1 & v1 & H1 & Hc1 & _).
      destruct (holds_inj _ _ _ _ _ _ Hh H1) as [-> ->]. split; [done|]. apply lookup_insert_eq.
    + destruct (Hlive e He) as (k1 & v1 & H1 & Hc1 & Hm1). destruct (set_val_old e k1 v1 He Hne H1) as [H2 Hk].
      exists k1, v1. split; [done|]. split; [done|]. by rewrite lookup_insert_ne.
  - intros k1 v1 Hm1. destruct (decide (k1 = k)) as [->|Hk].
    + rewrite lookup_insert_eq in Hm1. injection Hm1 as <-. exists e0. split; [done|]. apply set_val_new.
    + rewrite lookup_insert_ne in Hm1 by done. destruct (Hmap k1 v1 Hm1) as (e & He & H1). exists e. split; [done|].
      apply set_val_old; [done| |done]. intros ->. by destruct (holds_inj _ _ _ _ _ _ Hh H1).
  - assert (Hback : forall e k1 v1, e ∈ entries ht (cap_of ht) -> holds ht' (e_rec e) k1 v1 -> exists v2, holds ht (e_rec e) k1 v2).
    { intros e k1 v1 He H1. destruct (decide (e = e0)) as [->|Hne].
      - exists v. by destruct (holds_inj _ _ _ _ _ _ H1 set_val_new) as [-> _].
      - exists v1. unfold holds in *. rewrite set_val_ne in H1; [done|]. intros E. apply Hne. by eapply live_rec_inj. }
    intros e1 e2 k1 v1 v2 He1 He2 H1 H2. destruct (Hback _ _ _ He1 H1) as [? ?], (Hback _ _ _ He2 H2) as [? ?]. by eapply Hkeys.
Qed.

Lemma set_val_room n : room_for ht n -> room_for ht' n.
Proof. intros (c0 & w0 & u & Hb & Hr). exists c0, w0, u. split; [|done]. destruct Hb as [? ? ?]. by split. Qed.
End SetVal.

Lemma insert_inserted o ht n m k v : roomy o -> ht_string_rep ht (S n) m -> m !! k = None -> (length k + length v <= max_record)%nat ->
  inserted (H := hashtable_string_table o) (fun t => ht_string_rep t n) m k v (hashtable_insert o ht k v).
Proof.
  intros Ho [[F Hrep] Hroom] Hk Hlen.
  destruct (insert_rep o ht F m k v Ho Hrep Hk (room_insert _ _ _ _ Hroom Hlen)) as (ht' & ofs & F' & E & Hrep' & Hh & Hne & Hg & Hin).
  assert (Hroom' : room_for ht' n) by (eapply room_growth; [done| |exact Hg]; unfold REC_SIZE, max_record in *; lia).
  exists ht', ofs. split; [done|]. split; [done|]. split; [by apply (holds_get_val ht' ofs k v)|].
  split; [by split; [exists F'|]|]. intros v' Hv'. cbn [st_set_val hashtable_string_table].
  change ofs with (e_rec (HtEntry (hashcode k) ofs)) in *. split; [|by eapply set_val_room].
  exists F'. pose proof (set_val_rep ht' F' _ _ k v v' Hrep' Hin Hh Hv') as H. by rewrite insert_insert_eq in H.
Qed.

Lemma lookup_string_rep o ht n m k : ht_string_rep ht n m -> exists loc, st_lookup (StringTable := hashtable_string_table o) ht k = Some loc
  /\ match m !! k with Some v => loc <> 0 /\ hashtable_get_val ht loc = v | None => loc = 0 end.
Proof.
  intros [[F Hrep] _]. destruct (lookup_rep ht F m k Hrep) as (loc & E & Hl). exists loc. split; [done|].
  destruct (m !! k); [|done]. by destruct Hl as (? & _ & ?).
Qed.

#[export] Instance hashtable_string_laws (o : os) (Ho : roomy o) : @StringTableLaws hashtable (hashtable_string_table o) := {
  st_rep := ht_string_rep;
  st_lookup_ok := lookup_string_rep o;
  st_insert_ok := fun t n m k v => insert_inserted o t n m k v Ho;
  st_insert_alloc_ok := fun t n m k v => insert_inserted o t n m k v Ho;
}.

(** A table from [hashtable_init] has room for a quarter of a million keys. *)
Lemma init_string_rep o n : roomy o -> sys_mmap o VM_ALLOC_MIN_SIZE = true -> 0 <= n <= 2 ^ 20 ->
  exists ht, hashtable_init o HASHTABLE_INITIALIZER n = Some (ht, 0) /\ ht_string_rep ht (Z.to_nat (2 ^ 18)) ∅.
Proof.
  intros Ho Hmm Hn. destruct (init_rep o n Ho Hmm ltac:(lia)) as (ht & Hi & Hrep & Hc & Hw). exists ht. split; [done|].
  split; [by exists []|]. exists (cap_of ht), (wlocpos (ht_data ht)), 0. unfold HEADER_SIZE, ENTRY_SIZE, REC_SIZE in *.
  split; [|lia]. split; [lia| |unfold REC_SIZE; lia]. rewrite (rep_size _ _ _ Hrep).
  destruct (entries ht (cap_of ht)) as [|e es] eqn:E; [done|]. exfalso.
  destruct (rep_live _ _ _ Hrep e) as (k & v & _ & _ & Hm); [rewrite E; by left|]. by rewrite lookup_empty in Hm.
Qed.
