(* ===== verification/Cookies.v ===== *)
(** * Cookies: parsing a [Cookie] header into a table ([src/http_cookies.c])

    The parser cuts the header at semicolons and spaces and inserts one record per piece.  It
    is written against the interface of [StringTable.v].  Strings are the bytes before their
    terminator. *)

From stdpp Require Import base numbers list gmap.
From Stdlib Require Import ZArith Lia.
From S2P Require Import Prelude Words Os Vmallocator Probe ProbeFacts Hashtable HashtableFacts HashtableMap Cstring StringTable.

Definition QUOTE : Z := 34.
Definition is_cookie_delim (c : Z) : bool := (c =? 59) || (c =? 32).   (* ';' ' ' *)

Section Parser.
Context {T : Type} `{StringTable T}.

(** The name, the bytes of the value and the byte behind it, which is copied too and then
    overwritten by the terminator. *)
Definition cookie_parts (str : list Z) : list Z * list Z * Z :=
  let (name, name_end) := strchrnul 61 str in   (* '=' *)
  let val := match name_end with _ :: v => v | [] => [] end in
  let val_st := match val with c :: r => if c =? QUOTE then r else val | [] => val end in
  match last val_st with
  | Some c => if c =? QUOTE then (name, removelast val_st, QUOTE) else (name, val_st, 0)
  | None => (name, val_st, 0)
  end.

Definition add_cookie (ht : T) (str : list Z) : option T :=
  let '(name, v, behind) := cookie_parts str in
  '(ht, loc) ← st_insert ht name (v ++ [behind]);
  Some (st_set_val ht loc (v ++ [0])).

(** [for (; *p == ';' || *p == ' '; ++p);] *)
Fixpoint skip_delims (p : list Z) : list Z :=
  match p with
  | c :: r => if is_cookie_delim c then skip_delims r else p
  | [] => []
  end.

(** [tok] is the bytes from [s] to [p]. *)
Fixpoint parse_cookies_loop (fuel : nat) (ht : T) (tok p : list Z) : option T :=
  match fuel with
  | O => None
  | S k =>
      let cut := ht ← (match tok with [] => Some ht | _ => add_cookie ht tok end);
                 match skip_delims p with [] => Some ht | p => parse_cookies_loop k ht [] p end in
      match p with
      | [] => cut
      | c :: r => if is_cookie_delim c then cut else parse_cookies_loop k ht (tok ++ [c]) r
      end
  end.

Definition http_parse_cookies (ht : T) (cookies_str : list Z) : option T :=
  parse_cookies_loop (S (length cookies_str)) ht [] cookies_str.

(** ** The pieces *)

(** The pieces of the text, [tok] being the start of the first one. *)
Fixpoint pieces (tok p : list Z) : list (list Z) :=
  let flush := match tok with [] => [] | _ => [tok] end in
  match p with
  | [] => flush
  | c :: r => if is_cookie_delim c then flush ++ pieces [] r else pieces (tok ++ [c]) r
  end.

Fixpoint add_cookies (ht : T) (l : list (list Z)) : option T :=
  match l with [] => Some ht | x :: l => ht ← add_cookie ht x; add_cookies ht l end.

Lemma add_cookies_app l1 : forall ht l2, add_cookies ht (l1 ++ l2) = (ht ← add_cookies ht l1; add_cookies ht l2).
Proof. induction l1 as [|x l1 IH]; intros ht l2; [done|]. cbn. destruct (add_cookie ht x); cbn; [apply IH|done]. Qed.

Lemma pieces_skip p : pieces [] (skip_delims p) = pieces [] p.
Proof. induction p as [|c p IH]; [done|]. cbn. destruct (is_cookie_delim c) eqn:E; cbn; [exact IH|by rewrite E]. Qed.

Lemma skip_delims_len p : (length (skip_delims p) <= length p)%nat.
Proof. induction p as [|c p IH]; [done|]. cbn. destruct (is_cookie_delim c); cbn; lia. Qed.

(** The loop adds the pieces in order. *)
Lemma parse_loop_pieces fuel : forall ht tok p, (length p < fuel)%nat ->
  parse_cookies_loop fuel ht tok p = add_cookies ht (pieces tok p).
Proof.
  induction fuel as [|k IH]; intros ht tok p Hf; [lia|]. cbn [parse_cookies_loop].
  set (cut := match tok with [] => Some ht | _ => add_cookie ht tok end).
  assert (Hcut : forall r l, l = (match tok with [] => [] | _ => [tok] end) ++ pieces [] r -> (length (skip_delims r) < k)%nat \/ skip_delims r = [] ->
            (ht ← cut; match skip_delims r with [] => Some ht | p => parse_cookies_loop k ht [] p end) = add_cookies ht l).
  { intros r l -> Hr. rewrite add_cookies_app. replace (add_cookies ht (match tok with [] => [] | _ => [tok] end)) with cut.
    2:{ unfold cut. destruct tok; cbn; [done|]. by destruct (add_cookie ht _). }
    destruct cut as [ht1|]; cbn; [|done]. rewrite <- pieces_skip. destruct (skip_delims r) as [|c q]; [done|].
    apply IH. by destruct Hr. }
  destruct p as [|c r]; cbn [pieces].
  - apply Hcut; [by rewrite app_nil_r|by right].
  - destruct (is_cookie_delim c) eqn:Ec; cbn [length] in Hf.
    + apply Hcut; [cbn; by rewrite Ec|]. left. cbn. rewrite Ec. pose proof (skip_delims_len r). lia.
    + apply IH. lia.
Qed.

Context `{!StringTableLaws T}.

Lemma add_cookie_rep ht n m str : st_rep ht (S n) m ->
  let '(name, v, _) := cookie_parts str in m !! name = None -> (length name + length v + 1 <= max_record)%nat ->
  exists ht', add_cookie ht str = Some ht' /\ st_rep ht' n (<[name := v ++ [0]]> m).
Proof.
  intros Hr. unfold add_cookie. destruct (cookie_parts str) as [[name v] b]. intros Hm Hlen.
  destruct (st_insert_ok ht n m name (v ++ [b]) Hr Hm) as (t & loc & -> & _ & _ & _ & Hset); [rewrite length_app; cbn; lia|].
  cbn. eexists. split; [done|]. apply Hset. by rewrite !length_app.
Qed.

(** ** Cookies as a browser sends them *)

Record cookie := Cookie { ck_name : list Z; ck_value : list Z; ck_quoted : bool }.

Definition cookie_text (c : cookie) : list Z :=
  ck_name c ++ 61 :: (if ck_quoted c then QUOTE :: ck_value c ++ [QUOTE] else ck_value c).

(** "a=1; b=2" *)
Fixpoint cookie_header (l : list cookie) : list Z :=
  match l with
  | [] => []
  | [c] => cookie_text c
  | c :: l => cookie_text c ++ [59; 32] ++ cookie_header l
  end.

(** The bytes allowed in names and values. *)
Definition cookie_ok (c : cookie) : Prop :=
  61 ∉ ck_name c /\ Forall (fun x => is_cookie_delim x = false) (ck_name c ++ ck_value c)
  /\ QUOTE ∉ ck_value c /\ (length (ck_name c) + length (ck_value c) + 1 <= max_record)%nat.

Lemma pieces_run tok run p : Forall (fun x => is_cookie_delim x = false) run -> pieces tok (run ++ p) = pieces (tok ++ run) p.
Proof.
  revert tok. induction run as [|x run IH]; intros tok Hr; cbn; [by rewrite app_nil_r|]. apply Forall_cons in Hr as [Hx Hr].
  rewrite Hx, IH by done. by rewrite <- app_assoc.
Qed.

Lemma cookie_text_plain c : cookie_ok c -> Forall (fun x => is_cookie_delim x = false) (cookie_text c) /\ cookie_text c <> [].
Proof.
  intros (_ & Hd & _). apply Forall_app in Hd as [Hn Hv]. split; [|unfold cookie_text; by destruct (ck_name c)].
  unfold cookie_text. apply Forall_app. split; [done|]. constructor; [done|].
  destruct (ck_quoted c); [|done]. constructor; [done|]. apply Forall_app. split; [done|by constructor].
Qed.

Lemma pieces_header l : Forall cookie_ok l -> pieces [] (cookie_header l) = cookie_text <$> l.
Proof.
  induction l as [|c l IH]; intros Hl; [done|]. apply Forall_cons in Hl as [Hc Hl]. destruct (cookie_text_plain c Hc) as [Hp Hne].
  destruct l as [|d l].
  - cbn [cookie_header]. rewrite <- (app_nil_r (cookie_text c)), pieces_run by done. cbn. by destruct (cookie_text c).
  - change (cookie_header (c :: d :: l)) with (cookie_text c ++ [59; 32] ++ cookie_header (d :: l)).
    rewrite pieces_run by done. cbn [app]. remember (cookie_header (d :: l)) as h eqn:Eh. cbn. rewrite IH by done.
    by destruct (cookie_text c).
Qed.

Lemma cookie_text_parts c : cookie_ok c -> exists b, cookie_parts (cookie_text c) = (ck_name c, ck_value c, b).
Proof.
  intros (Hn & _ & Hq & _). unfold cookie_parts, cookie_text. rewrite strchrnul_found by done.
  destruct (ck_quoted c).
  - cbn. rewrite last_snoc. cbn. rewrite removelast_last. by eexists.
  - destruct (ck_value c) as [|x v] eqn:Ev; [by eexists|]. apply not_elem_of_cons in Hq as [Hx Hq].
    rewrite (proj2 (Z.eqb_neq x QUOTE)) by congruence. destruct (last (x :: v)) as [y|] eqn:El; [|by eexists].
    rewrite (proj2 (Z.eqb_neq y QUOTE)); [by eexists|]. intros ->. apply last_Some_elem_of in El.
    apply elem_of_cons in El as [?|?]; [congruence|done].
Qed.

(** The map after the cookies. *)
Definition with_cookies (m : gmap (list Z) (list Z)) (l : list cookie) : gmap (list Z) (list Z) :=
  foldl (fun m c => <[ck_name c := ck_value c ++ [0]]> m) m l.

Lemma with_cookies_other l : forall m k, k ∉ (ck_name <$> l) -> with_cookies m l !! k = m !! k.
Proof.
  induction l as [|c l IH]; intros m k Hk; [done|]. cbn in *. apply not_elem_of_cons in Hk as [Hc Hk].
  rewrite IH by done. by rewrite lookup_insert_ne.
Qed.

Lemma with_cookies_in l : forall m c, NoDup (ck_name <$> l) -> c ∈ l -> with_cookies m l !! ck_name c = Some (ck_value c ++ [0]).
Proof.
  induction l as [|d l IH]; intros m c Hnd Hc; [by apply elem_of_nil in Hc|]. cbn in *. apply NoDup_cons in Hnd as [Hd Hnd].
  apply elem_of_cons in Hc as [->|Hc]; [|by apply IH].
  rewrite with_cookies_other by done. apply lookup_insert_eq.
Qed.

Lemma add_cookies_rep l : forall ht n m, Forall cookie_ok l -> NoDup (ck_name <$> l) -> (forall c, c ∈ l -> m !! ck_name c = None) ->
  st_rep ht (n + length l) m ->
  exists ht', add_cookies ht (cookie_text <$> l) = Some ht' /\ st_rep ht' n (with_cookies m l).
Proof.
  induction l as [|c l IH]; intros ht n m Hok Hnd Hnew Hr; cbn in *; [rewrite Nat.add_0_r in Hr; by exists ht|].
  apply Forall_cons in Hok as [Hc Hok]. apply NoDup_cons in Hnd as [Hcl Hnd]. rewrite Nat.add_succ_r in Hr.
  destruct (cookie_text_parts c Hc) as [b Hb]. pose proof (add_cookie_rep ht (n + length l) m (cookie_text c) Hr) as Hadd.
  rewrite Hb in Hadd. destruct Hadd as (ht1 & -> & Hr1); [apply Hnew; by left|apply Hc|]. cbn.
  apply IH; [done|done| |done]. intros d Hd. rewrite lookup_insert_ne; [apply Hnew; by right|].
  intros E. apply Hcl. rewrite E. by apply list_elem_of_fmap_2.
Qed.
End Parser.

(** Parsing the header text of a list of cookies with distinct names, quoted or not, gives
    a table in which each name is found with its value and a terminator, and nothing else has
    changed.  The parser ends on every text. *)
Theorem http_parse_cookies_roundtrip {T} `{StringTableLaws T} (ht : T) (n : nat) (m : gmap (list Z) (list Z)) (l : list cookie)
  (Hok : Forall cookie_ok l) (Hnames : NoDup (ck_name <$> l)) (Hnew : forall c, c ∈ l -> m !! ck_name c = None)
  (Hrep : st_rep ht (n + length l) m) :
  exists ht', http_parse_cookies ht (cookie_header l) = Some ht' /\ st_rep ht' n (with_cookies m l)
    /\ (forall c, c ∈ l -> exists loc, st_lookup ht' (ck_name c) = Some loc /\ loc <> 0 /\ st_get_val ht' loc = ck_value c ++ [0])
    /\ (forall k, k ∉ (ck_name <$> l) -> with_cookies m l !! k = m !! k).
Proof.
  unfold http_parse_cookies. rewrite parse_loop_pieces by lia. rewrite pieces_header by done.
  destruct (add_cookies_rep l ht n m Hok Hnames Hnew Hrep) as (ht' & E & Hr). exists ht'. split; [done|]. split; [done|].
  split; [|by intros; apply with_cookies_other]. intros c Hc. destruct (st_lookup_ok ht' n _ (ck_name c) Hr) as (loc & El & Hl).
  rewrite with_cookies_in in Hl by done. by exists loc.
Qed.

Definition demo_cookies : list cookie := [Cookie [97] [49; 50] false; Cookie [98] [51] true].

Lemma http_parse_cookies_roundtrip_witness :
  exists ht ht', hashtable_init os_all_ok HASHTABLE_INITIALIZER 0 = Some (ht, 0)
    /\ http_parse_cookies (H := hashtable_string_table os_all_ok) ht [97; 61; 49; 50; 59; 32; 98; 61; 34; 51; 34] = Some ht'
    /\ exists loc, hashtable_lookup ht' [98] = Some loc /\ loc <> 0 /\ hashtable_get_val ht' loc = [51; 0].
Proof.
  destruct (init_string_rep os_all_ok 0 roomy_all_ok eq_refl ltac:(lia)) as (ht & Hi & Hr). exists ht.
  pose (L := hashtable_string_laws os_all_ok roomy_all_ok).
  destruct (http_parse_cookies_roundtrip (H0 := L) ht (Z.to_nat (2 ^ 18) - 2) ∅ demo_cookies) as (ht' & E & _ & Hl & _).
  - repeat constructor; cbn; try (unfold max_record; lia); set_solver by done.
  - repeat constructor; set_solver.
  - intros. apply lookup_empty.
  - cbn [length demo_cookies]. rewrite Nat.sub_add by lia. exact Hr.
  - exists ht'. split; [exact Hi|]. split; [exact E|]. apply (Hl (Cookie [98] [51] true)). by right; left.
Defined.
