(* ===== verification/UriQuery.v ===== *)
(** * UriQuery: the parameters of a query string ([src/_uri_decode.c], [http_uri_decode_query_params])

    The first occurrence of a key is inserted with room for its text, and the text is decoded
    in place.  The separators overwritten while a pair is handled are put back, so the query
    string is unchanged at the end. *)

From stdpp Require Import base numbers list gmap.
From Stdlib Require Import ZArith Lia.
From S2P Require Import Prelude Words Os Vmallocator Probe ProbeFacts Hashtable HashtableFacts HashtableMap Uri Cstring StringTable.

Section Parser.
Context {T : Type} `{StringTable T}.
(** The bytes that happen to be in a new record. *)
Variable junk : nat -> list Z.

(** What the [while] loop does with the text [pair] of one parameter. *)
Definition query_param (params : T) (pair : list Z) : option T :=
  let (key, p2) := strchrnul 61 pair in   (* '=' *)
  let val := match p2 with _ :: v => v | [] => [] end in
  htofs ← st_lookup params key;
  if htofs =? 0 then
    let old := take (S (length val)) (junk (S (length val)) ++ replicate (S (length val)) 0) in
    '(params, htofs) ← st_insert_alloc params key old;
    let text := fst (http_uri_decode val) in
    Some (st_set_val params htofs (text ++ drop (length text) old))
  else Some params.

Fixpoint query_params_loop (fuel : nat) (query_params : list Z) (params : T) : option T :=
  match query_params with
  | [] => Some params
  | _ =>
      match fuel with
      | O => None
      | S k =>
          let (pair, p1) := strchrnul 38 query_params in   (* '&' *)
          params ← query_param params pair;
          query_params_loop k (match p1 with _ :: q => q | [] => [] end) params
      end
  end.

Definition http_uri_decode_query_params (query_params : list Z) (params : T) : option T :=
  query_params_loop (length query_params) query_params params.

(** ** What the table holds afterwards *)

Lemma length_decoded s : (length (uri_decoded s) <= length s)%nat.
Proof.
  unfold uri_decoded. generalize (length s) at 1. intros fuel. revert s. induction fuel as [|f IH]; intros [|c s]; cbn; try lia.
  destruct (c =? 37).
  - destruct (hex_val s) as [v r] eqn:E. assert (length r <= length s)%nat.
    { revert E. unfold hex_val. destruct s as [|a [|b s]]; intros [= <- <-]; cbn; lia. }
    cbn. specialize (IH r). lia.
  - destruct (c =? 43); cbn; specialize (IH s); lia.
Qed.

(** A value as a C string. *)
Definition is_string (v s : list Z) : Prop := exists rest, v = s ++ 0 :: rest.

Context `{!StringTableLaws T}.

Lemma query_param_rep params n m key val : st_rep params (S n) m -> 61 ∉ key -> (length key + length val + 1 <= max_record)%nat ->
  exists params' m', query_param params (key ++ 61 :: val) = Some params' /\ (st_rep params' n m' \/ st_rep params' (S n) m')
    /\ (forall k, k <> key -> m' !! k = m !! k)
    /\ match m !! key with
       | Some v => m' = m
       | None => exists v, m' !! key = Some v /\ is_string v (uri_decoded val)
       end.
Proof.
  intros Hr Hk Hlen. unfold query_param. rewrite strchrnul_found by done.
  destruct (st_lookup_ok params (S n) m key Hr) as (loc & -> & Hl). cbn [mbind option_bind].
  destruct (m !! key) as [v|] eqn:Em.
  - destruct Hl as [Hne _]. rewrite (proj2 (Z.eqb_neq loc 0)) by done. exists params, m. auto.
  - subst loc. cbn [Z.eqb]. set (old := take _ _).
    assert (Hold : length old = S (length val)) by (unfold old; rewrite length_take, length_app, length_replicate; lia).
    destruct (st_insert_alloc_ok params n m key old Hr Em) as (t & loc & -> & _ & _ & _ & Hset); [lia|].
    cbn [mbind option_bind http_uri_decode fst]. pose proof (length_decoded val).
    set (v := (uri_decoded val ++ [0]) ++ drop (length (uri_decoded val ++ [0])) old).
    exists (st_set_val t loc v), (<[key := v]> m). split; [done|]. split; [left; apply Hset|split; [by intros; rewrite lookup_insert_ne|]].
    + unfold v. rewrite !length_app, length_drop. cbn. lia.
    + exists v. split; [apply lookup_insert_eq|]. unfold v, is_string. rewrite <- app_assoc. by eexists.
Qed.

(** A query string of keys and encoded values. *)
Fixpoint query_text (l : list (list Z * list Z)) : list Z :=
  match l with
  | [] => []
  | [(k, v)] => k ++ 61 :: uri_encoded v
  | (k, v) :: l => k ++ 61 :: uri_encoded v ++ 38 :: query_text l
  end.

Definition param_ok (p : list Z * list Z) : Prop :=
  61 ∉ p.1 /\ 38 ∉ p.1 /\ Forall (fun c => 0 < c < 256) p.2 /\ (length p.1 + 3 * length p.2 + 1 <= max_record)%nat.

(** Encoding leaves no separator in a value. *)
Definition no_amp (c : Z) : bool := forallb (fun x => negb (x =? 38)) (uri_encode_char c).
Lemma no_amp_all : forallb no_amp (seqZ 1 255) = true.
Proof. vm_compute. reflexivity. Qed.

Lemma encoded_no_amp v : Forall (fun c => 0 < c < 256) v -> 38 ∉ uri_encoded v.
Proof.
  intros Hv Hin. unfold uri_encoded in Hin. apply list_elem_of_bind in Hin as (c & Hin & Hc). rewrite Forall_forall in Hv. specialize (Hv c Hc).
  pose proof no_amp_all as Hall. rewrite forallb_forall in Hall. specialize (Hall c). unfold no_amp in Hall. rewrite forallb_forall in Hall.
  assert (List.In c (seqZ 1 255)) as Hs by (apply list_elem_of_In, elem_of_seqZ; lia). specialize (Hall Hs 38).
  rewrite <- list_elem_of_In in Hall. specialize (Hall Hin). done.
Qed.

Lemma text_amp k v rest : param_ok (k, v) -> strchrnul 38 (k ++ 61 :: uri_encoded v ++ 38 :: rest) = (k ++ 61 :: uri_encoded v, 38 :: rest).
Proof.
  intros (_ & Hk & Hv & _). change (k ++ 61 :: uri_encoded v ++ 38 :: rest) with (k ++ (61 :: uri_encoded v) ++ 38 :: rest).
  rewrite app_assoc. apply strchrnul_found. rewrite elem_of_app, elem_of_cons. pose proof (encoded_no_amp v Hv). naive_solver.
Qed.

Lemma text_last k v : param_ok (k, v) -> strchrnul 38 (k ++ 61 :: uri_encoded v) = (k ++ 61 :: uri_encoded v, []).
Proof.
  intros (_ & Hk & Hv & _). apply strchrnul_none. rewrite elem_of_app, elem_of_cons. pose proof (encoded_no_amp v Hv). naive_solver.
Qed.

(** The value a list of parameters gives a key: that of its first occurrence. *)
Fixpoint first_value (l : list (list Z * list Z)) (key : list Z) : option (list Z) :=
  match l with
  | [] => None
  | (k, v) :: l => if decide (k = key) then Some v else first_value l key
  end.

(** The map [m'] results from [m] by the parameters [l]. *)
Definition params_added (m m' : gmap (list Z) (list Z)) (l : list (list Z * list Z)) : Prop :=
  forall key, match m !! key, first_value l key with
    | Some v, _ => m' !! key = Some v
    | None, Some s => exists v, m' !! key = Some v /\ is_string v s
    | None, None => m' !! key = None
    end.

(** One round of the loop on a text with parameter [(k, v)] in front. *)
Lemma round_rep params n m k v : param_ok (k, v) -> st_rep params (S n) m ->
  exists params' m', query_param params (k ++ 61 :: uri_encoded v) = Some params' /\ (st_rep params' n m' \/ st_rep params' (S n) m')
    /\ params_added m m' [(k, v)].
Proof.
  intros (Hk & _ & Hv & Hlen) Hr. cbn in Hk, Hv, Hlen. pose proof (length_uri_encoded v).
  destruct (query_param_rep params n m k (uri_encoded v) Hr Hk ltac:(lia)) as (p' & m' & E & Hr' & Hother & Hkey).
  exists p', m'. split; [done|]. split; [done|]. rewrite uri_roundtrip in Hkey by done. intros key. cbn [first_value].
  case_decide as Hd; [subst key|].
  - destruct (m !! k) eqn:Em; [by subst m'|done].
  - rewrite Hother by done. by destruct (m !! key).
Qed.

Lemma params_added_cons m m1 m2 k v l : params_added m m1 [(k, v)] -> params_added m1 m2 l -> params_added m m2 ((k, v) :: l).
Proof.
  intros H1 H2 key. specialize (H1 key). specialize (H2 key). cbn [first_value] in *.
  destruct (m !! key) as [x|]; [by rewrite H1 in H2|]. case_decide.
  - destruct H1 as (x & E & Hs). rewrite E in H2. by exists x.
  - by rewrite H1 in H2.
Qed.

Lemma query_text_nil k v l : query_text ((k, v) :: l) <> [].
Proof. destruct l as [|[k' v'] l], k; done. Qed.

Lemma loop_cons fuel k v l params : param_ok (k, v) ->
  query_params_loop (S fuel) (query_text ((k, v) :: l)) params
  = (params ← query_param params (k ++ 61 :: uri_encoded v); query_params_loop fuel (query_text l) params).
Proof.
  intros Hok. pose proof (query_text_nil k v l) as Hne. cbn [query_params_loop]. destruct (query_text ((k, v) :: l)) as [|c q] eqn:E; [done|].
  rewrite <- E. destruct l as [|[k' v'] l]; cbn [query_text] in *; [rewrite text_last by done|rewrite text_amp by done]; done.
Qed.

Lemma loop_rep l : forall fuel params n m, Forall param_ok l -> st_rep params (n + length l) m -> (length l <= fuel)%nat ->
  exists params' m' n', query_params_loop fuel (query_text l) params = Some params' /\ st_rep params' n' m' /\ (n <= n')%nat /\ params_added m m' l.
Proof.
  induction l as [|[k v] l IH]; intros fuel params n m Hok Hr Hf.
  { exists params, m, n. cbn in Hr. rewrite Nat.add_0_r in Hr. split; [by destruct fuel|]. split; [done|]. split; [done|].
    intros key. cbn. by destruct (m !! key). }
  apply Forall_cons in Hok as [Hkv Hok]. destruct fuel as [|f]; cbn [length] in *; [lia|]. rewrite loop_cons by done.
  rewrite Nat.add_succ_r in Hr. destruct (round_rep params (n + length l) m k v Hkv Hr) as (p1 & m1 & -> & Hr1 & Ha1). cbn [mbind option_bind].
  assert (exists j, st_rep p1 (j + length l) m1 /\ (n <= j)%nat) as (j & Hj & Hnj) by (destruct Hr1; [by exists n|exists (S n); auto with lia]).
  destruct (IH f p1 j m1 Hok Hj ltac:(lia)) as (p2 & m2 & n2 & E & Hr2 & Hn2 & Ha2).
  exists p2, m2, n2. split; [done|]. split; [done|]. split; [lia|]. by eapply params_added_cons.
Qed.

Lemma length_query_text l : (length l <= length (query_text l))%nat.
Proof.
  induction l as [|[k v] l IH]; [done|]. destruct l as [|[k' v'] l]; cbn [query_text length] in *; rewrite ?length_app; cbn; [lia|].
  rewrite length_app. cbn. lia.
Qed.
End Parser.

(** Parsing a query string of parameters with percent-encoded values puts into the table,
    for every key that was not in it, the original value of the first parameter with that key
    as a C string; other keys keep what they had.  The loop ends. *)
Theorem query_params_roundtrip {T} `{StringTableLaws T} (junk : nat -> list Z) (params : T) (n : nat) (m : gmap (list Z) (list Z))
  (l : list (list Z * list Z)) (Hok : Forall param_ok l) (Hrep : st_rep params (n + length l) m) :
  exists params' n' m', http_uri_decode_query_params junk (query_text l) params = Some params' /\ st_rep params' n' m'
    /\ params_added m m' l
    /\ forall key s, m !! key = None -> first_value l key = Some s ->
         exists loc, st_lookup params' key = Some loc /\ loc <> 0 /\ is_string (st_get_val params' loc) s.
Proof.
  destruct (loop_rep junk l (length (query_text l)) params n m Hok Hrep (length_query_text l)) as (p' & m' & n' & E & Hr & _ & Ha).
  exists p', n', m'. split; [done|]. split; [done|]. split; [done|]. intros key s Hm Hs. specialize (Ha key). rewrite Hm, Hs in Ha.
  destruct Ha as (v & Hv & Hstr). destruct (st_lookup_ok p' n' m' key Hr) as (loc & El & Hl). rewrite Hv in Hl. destruct Hl as [Hne Hg].
  exists loc. rewrite Hg. done.
Qed.

Lemma query_params_roundtrip_witness :
  exists ht ht', hashtable_init os_all_ok HASHTABLE_INITIALIZER 0 = Some (ht, 0)
    /\ http_uri_decode_query_params (H := hashtable_string_table os_all_ok) (fun _ => []) [97; 61; 98; 43; 99; 38; 97; 61; 100] ht = Some ht'
    /\ exists loc, hashtable_lookup ht' [97] = Some loc /\ loc <> 0 /\ is_string (hashtable_get_val ht' loc) [98; 32; 99].
Proof.
  destruct (init_string_rep os_all_ok 0 roomy_all_ok eq_refl ltac:(lia)) as (ht & Hi & Hr). exists ht.
  pose (L := hashtable_string_laws os_all_ok roomy_all_ok).
  destruct (query_params_roundtrip (H0 := L) (fun _ => []) ht (Z.to_nat (2 ^ 18) - 2) ∅ [([97], [98; 32; 99]); ([97], [100])])
    as (ht' & n' & m' & E & _ & _ & Hl).
  - repeat constructor; cbn; try (unfold max_record; lia); set_solver by done.
  - cbn [length]. rewrite Nat.sub_add by lia. exact Hr.
  - exists ht'. split; [exact Hi|]. split; [exact E|]. apply (Hl [97] [98; 32; 99]); reflexivity.
Defined.
