(* ===== verification/HttpHeaders.v ===== *)
(** * HttpHeaders: the request headers the server keeps ([include/http_headers.h], [src/http_headers.c])

    A static hash table maps the lower-case names of eleven headers to the offsets of their
    pointers in [struct http_headers]; the parser cuts the header text into lines and stores
    the values of the names it finds.  [Accept-Encoding] is then decoded into a mask. *)

From stdpp Require Import base numbers list gmap.
From Stdlib Require Import ZArith Lia.
From S2P Require Import Prelude Words Probe ProbeFacts Os Vmallocator Hashtable HashtableFacts HashtableMap Cstring StringTable.

(** ** Data *)

(** The eleven pointers in the order of the structure (as the strings they point to), the mask
    and the address of the peer. *)
Record http_headers := HttpHeaders {
  hh_strings : list (list Z);
  hh_accept_encoding_mask : Z;
  hh_peer_ip_addr : list Z;
}.
Definition ACCEPT_ENCODING : nat := 5.

Definition HTTP_AE_IDENTITY : Z := 0x00.
Definition HTTP_AE_GZIP : Z := 0x01.
Definition HTTP_AE_COMPRESS : Z := 0x02.
Definition HTTP_AE_DEFLATE : Z := 0x04.
Definition HTTP_AE_ALL : Z := 0xFF.

(** Names and offsets; the position of a pointer is its offset divided by eight. *)
Definition request_headers : list (list Z * Z) := [
  ([114; 101; 102; 101; 114; 101; 114], 0);                                              (* referer *)
  ([117; 115; 101; 114; 45; 97; 103; 101; 110; 116], 8);                                 (* user-agent *)
  ([99; 111; 111; 107; 105; 101], 16);                                                   (* cookie *)
  ([120; 45; 102; 111; 114; 119; 97; 114; 100; 101; 100; 45; 102; 111; 114], 24);        (* x-forwarded-for *)
  ([104; 111; 115; 116], 32);                                                            (* host *)
  ([97; 99; 99; 101; 112; 116; 45; 101; 110; 99; 111; 100; 105; 110; 103], 40);          (* accept-encoding *)
  ([99; 111; 110; 116; 101; 110; 116; 45; 116; 121; 112; 101], 48);                      (* content-type *)
  ([105; 102; 45; 110; 111; 110; 101; 45; 109; 97; 116; 99; 104], 56);                   (* if-none-match *)
  ([97; 99; 99; 101; 112; 116; 45; 108; 97; 110; 103; 117; 97; 103; 101], 64);           (* accept-language *)
  ([111; 114; 105; 103; 105; 110], 72);                                                  (* origin *)
  ([97; 117; 116; 104; 111; 114; 105; 122; 97; 116; 105; 111; 110], 80)                  (* authorization *)
].

(** A 32-bit offset as the four bytes of a value of the table, and back. *)
Definition bytes32 (v : Z) : list Z := [v mod 256; (v / 2 ^ 8) mod 256; (v / 2 ^ 16) mod 256; (v / 2 ^ 24) mod 256].
Definition get32 (l : list Z) : Z := match l with [a; b; c; d] => a + 2 ^ 8 * b + 2 ^ 16 * c + 2 ^ 24 * d | _ => 0 end.

(** ** Initialisation *)

(** [for (; rh->name; ++rh) hashtable_insert(...)]: the results are not used. *)
Fixpoint insert_headers (o : os) (ht : hashtable) (rh : list (list Z * Z)) : option hashtable :=
  match rh with
  | [] => Some ht
  | (name, ofs) :: rh => '(ht, _) ← hashtable_insert o ht name (bytes32 ofs); insert_headers o ht rh
  end.

Definition http_headers_init (o : os) (ht_request_headers : hashtable) : option (hashtable * Z) :=
  if hashtable_is_initialized ht_request_headers then Some (ht_request_headers, 1) else
  '(ht, _) ← hashtable_init o ht_request_headers 64;
  ht ← insert_headers o ht request_headers;
  Some (ht, 0).

(** ** Parsing *)
Section Parse.
(** The test [qval > 0.0001] on the number [atof] reads. *)
Variable atof_positive : list Z -> bool.
Variable ht_request_headers : hashtable.

Definition set_header (h : http_headers) (ofs : Z) (value : list Z) : http_headers :=
  HttpHeaders (<[Z.to_nat (ofs / 8) := value]> (hh_strings h)) (hh_accept_encoding_mask h) (hh_peer_ip_addr h).

Definition add_to_hashtable (name value : list Z) (h : http_headers) : option http_headers :=
  ofs ← hashtable_lookup ht_request_headers (tolower <$> name);
  Some (if ofs =? 0 then h else set_header h (get32 (hashtable_get_val ht_request_headers ofs)) value).

Fixpoint skip_spaces (p : list Z) : list Z :=
  match p with c :: r => if c =? 32 then skip_spaces r else p | [] => [] end.

Definition gzip : list Z := [103; 122; 105; 112].
Definition compress : list Z := [99; 111; 109; 112; 114; 101; 115; 115].
Definition deflate : list Z := [100; 101; 102; 108; 97; 116; 101].
Definition qval_name : list Z := [113; 61].

(** The bits one element of the list adds. *)
Definition encoding_bits (val : list Z) : Z :=
  let (val, qvalstr) := strchrnul 59 val in   (* ';' *)
  let accepted := match qvalstr with
                  | [] => true
                  | _ :: q => let q := skip_spaces q in
                              if starts_with qval_name q then atof_positive (drop 2 q) else true
                  end in
  if accepted then
    if starts_with [42] val then HTTP_AE_ALL          (* '*' *)
    else if starts_with gzip val then HTTP_AE_GZIP
    else if starts_with compress val then HTTP_AE_COMPRESS
    else if starts_with deflate val then HTTP_AE_DEFLATE
    else 0
  else 0.

Fixpoint accept_encoding_loop (fuel : nat) (p : list Z) (mask : Z) : option Z :=
  match p with
  | [] => Some mask
  | _ =>
      match fuel with
      | O => None
      | S k =>
          let (val, rest) := strchrnul 44 p in   (* ',' *)
          let p := match rest with _ :: r => skip_spaces r | [] => [] end in
          accept_encoding_loop k p (Z.lor mask (encoding_bits val))
      end
  end.

(** The string is cut at the first separator when the list is scanned. *)
Definition cut_at_separators (s : list Z) : list Z := fst (strchrnul 59 (fst (strchrnul 44 s))).

Definition http_header_decode_accept_encoding (h : http_headers) : option http_headers :=
  p ← hh_strings h !! ACCEPT_ENCODING;
  if starts_with [45] p then Some (HttpHeaders (hh_strings h) HTTP_AE_IDENTITY (hh_peer_ip_addr h))
  else if starts_with [42] p then Some (HttpHeaders (hh_strings h) HTTP_AE_ALL (hh_peer_ip_addr h))
  else
    mask ← accept_encoding_loop (length p) p (hh_accept_encoding_mask h);
    Some (HttpHeaders (<[ACCEPT_ENCODING := cut_at_separators p]> (hh_strings h)) mask (hh_peer_ip_addr h)).

Definition no_value : list Z := [45].

Fixpoint headers_loop (fuel : nat) (headers : list Z) (h : http_headers) : option http_headers :=
  match headers with
  | [] => Some h
  | _ =>
      match fuel with
      | O => None
      | S k =>
          let (line, p) := strchrnul 13 headers in
          let p := match p with _ :: r => r | [] => [] end in
          let p := match p with c :: r => if c =? 10 then r else p | [] => [] end in
          let (name, p2) := strchrnul 58 line in   (* ':' *)
          let p2 := match p2 with _ :: r => r | [] => [] end in
          let p2 := match p2 with c :: r => if c =? 32 then r else p2 | [] => [] end in
          h ← add_to_hashtable name p2 h;
          headers_loop k p h
      end
  end.

Definition http_headers_parse (headers : list Z) : option http_headers :=
  h ← headers_loop (length headers) headers (HttpHeaders (replicate 11 no_value) HTTP_AE_IDENTITY [45]);
  http_header_decode_accept_encoding h.
End Parse.

(** * Header text and what is found of it *)

(** ** The table of names *)

Definition header_map : gmap (list Z) (list Z) := list_to_map ((fun p => (p.1, bytes32 p.2)) <$> request_headers).

Lemma names_nodup : NoDup (request_headers.*1).
Proof. apply (bool_decide_unpack _). vm_compute. exact I. Qed.

Lemma insert_headers_rep o rh : roomy o -> forall ht n m, NoDup (rh.*1) -> (forall k, k ∈ rh.*1 -> m !! k = None) ->
  Forall (fun p => (length p.1 <= 100)%nat) rh -> ht_string_rep ht (n + length rh) m ->
  exists ht', insert_headers o ht rh = Some ht' /\ ht_string_rep ht' n (list_to_map ((fun p => (p.1, bytes32 p.2)) <$> reverse rh) ∪ m).
Proof.
  intros Ho. induction rh as [|[k ofs] rh IH]; intros ht n m Hnd Hnew Hlen Hr; cbn [insert_headers length] in *.
  { cbn. rewrite Nat.add_0_r in Hr. exists ht. rewrite map_empty_union. done. }
  apply NoDup_cons in Hnd as [Hk Hnd]. apply Forall_cons in Hlen as [Hl Hlen]. rewrite Nat.add_succ_r in Hr. cbn in Hl.
  destruct (insert_inserted o ht _ m k (bytes32 ofs) Ho Hr) as (t & loc & E & _ & _ & Hr1 & _);
    [apply Hnew; by left|unfold max_record; cbn; lia|]. rewrite E. cbn [mbind option_bind].
  destruct (IH t n (<[k := bytes32 ofs]> m) Hnd) as (ht' & E' & Hr'); [|done|done|].
  { intros k' Hk'. rewrite lookup_insert_ne by (intros ->; done). apply Hnew. by right. }
  exists ht'. split; [done|]. rewrite reverse_cons, fmap_app, list_to_map_app. cbn.
  rewrite <- map_union_assoc. rewrite insert_empty, <- insert_union_singleton_l. exact Hr'.
Qed.

Lemma headers_init_rep o : roomy o -> sys_mmap o VM_ALLOC_MIN_SIZE = true ->
  exists ht n, http_headers_init o HASHTABLE_INITIALIZER = Some (ht, 0) /\ ht_string_rep ht n header_map.
Proof.
  intros Ho Hmm. unfold http_headers_init. cbn [hashtable_is_initialized].
  change (hashtable_is_initialized HASHTABLE_INITIALIZER) with false. cbv iota.
  destruct (init_string_rep o 64 Ho Hmm ltac:(lia)) as (ht & -> & Hr). cbn [mbind option_bind].
  destruct (insert_headers_rep o request_headers Ho ht (Z.to_nat (2 ^ 18) - length request_headers) ∅) as (ht' & -> & Hr').
  - apply names_nodup.
  - intros. apply lookup_empty.
  - apply (bool_decide_unpack _). vm_compute. exact I.
  - rewrite Nat.sub_add by (cbn; lia). exact Hr.
  - cbn [mbind option_bind]. eexists ht', _. split; [done|]. rewrite map_union_empty in Hr'.
    replace header_map with (list_to_map (M := gmap _ _) ((fun p => (p.1, bytes32 p.2)) <$> reverse request_headers)); [done|].
    apply list_to_map_proper; [|by rewrite reverse_Permutation].
    rewrite <- list_fmap_compose. change (NoDup ((reverse request_headers).*1)). rewrite reverse_Permutation. apply names_nodup.
Qed.

(** The position of the pointer for a name. *)
Fixpoint index_in (rh : list (list Z * Z)) (name : list Z) : option nat :=
  match rh with
  | [] => None
  | (k, ofs) :: rh => if decide (k = name) then Some (Z.to_nat (ofs / 8)) else index_in rh name
  end.
Definition header_index (name : list Z) : option nat := index_in request_headers name.

Lemma header_map_lookup name :
  match header_index name with
  | Some i => exists v, header_map !! name = Some v /\ Z.to_nat (get32 v / 8) = i
  | None => header_map !! name = None
  end.
Proof.
  unfold header_index, header_map.
  assert (Hok : Forall (fun p => get32 (bytes32 p.2) = p.2) request_headers) by (repeat constructor).
  induction Hok as [|[k ofs] rh Hofs Hrh IH]; cbn [index_in fmap list_fmap list_to_map foldr]; [apply lookup_empty|]. cbn [snd] in Hofs. case_decide as Hd.
  - subst. exists (bytes32 ofs). split; [apply lookup_insert_eq|]. by rewrite Hofs.
  - rewrite lookup_insert_ne by done. exact IH.
Qed.

(** ** Lines *)
Section Parse.
Context (atof_positive : list Z -> bool) (ht : hashtable) (n : nat) (Hrep : ht_string_rep ht n header_map).

Definition store_header (h : http_headers) (p : list Z * list Z) : http_headers :=
  match header_index (tolower <$> p.1) with
  | Some i => HttpHeaders (<[i := p.2]> (hh_strings h)) (hh_accept_encoding_mask h) (hh_peer_ip_addr h)
  | None => h
  end.

Lemma add_to_hashtable_spec name value h : add_to_hashtable ht name value h = Some (store_header h (name, value)).
Proof.
  unfold add_to_hashtable, store_header. cbn [fst snd].
  destruct (lookup_string_rep os_all_ok ht n header_map (tolower <$> name) Hrep) as (loc & El & Hl). cbn in El. rewrite El. cbn [mbind option_bind].
  pose proof (header_map_lookup (tolower <$> name)) as Hm. destruct (header_index (tolower <$> name)) as [i|].
  - destruct Hm as (v & Em & Hi). rewrite Em in Hl. destruct Hl as [Hne Hv]. rewrite (proj2 (Z.eqb_neq loc 0)) by done.
    unfold set_header. by rewrite Hv, Hi.
  - rewrite Hm in Hl. by rewrite Hl.
Qed.

(** "Name: value" and the line end. *)
Definition header_line (p : list Z * list Z) : list Z := p.1 ++ [58; 32] ++ p.2 ++ [13; 10].
Definition header_ok (p : list Z * list Z) : Prop := 58 ∉ p.1 /\ 13 ∉ p.1 /\ 13 ∉ p.2.

(** One round on a line that ends in a carriage return and a line feed. *)
Lemma headers_loop_line k name value rest h : 58 ∉ name -> 13 ∉ name ++ 58 :: 32 :: value ->
  headers_loop ht (S k) ((name ++ 58 :: 32 :: value) ++ 13 :: 10 :: rest) h
  = (h ← add_to_hashtable ht name value h; headers_loop ht k rest h).
Proof.
  intros Hn Hl. remember ((name ++ 58 :: 32 :: value) ++ 13 :: 10 :: rest) as text eqn:Et.
  pose proof (strchrnul_found 13 _ (10 :: rest) Hl) as Hs. rewrite <- Et in Hs.
  pose proof (strchrnul_found 58 _ (32 :: value) Hn) as Hc.
  destruct text as [|c q]; [by destruct name|]. cbn [headers_loop]. rewrite Hs. cbn [Z.eqb Pos.eqb]. rewrite Hc. done.
Qed.

Lemma headers_loop_cons k p rest h : header_ok p ->
  headers_loop ht (S k) (header_line p ++ rest) h = headers_loop ht k rest (store_header h p).
Proof.
  intros (Hc & Hn & Hv). destruct p as [name value]. cbn [fst snd] in *. unfold header_line. cbn [fst snd].
  replace ((name ++ [58; 32] ++ value ++ [13; 10]) ++ rest) with ((name ++ 58 :: 32 :: value) ++ 13 :: 10 :: rest)
    by (rewrite <- !app_assoc; done).
  rewrite headers_loop_line; [by rewrite add_to_hashtable_spec|done|].
  rewrite elem_of_app, !elem_of_cons. naive_solver.
Qed.

Lemma header_line_len p : (1 <= length (header_line p))%nat.
Proof. unfold header_line. rewrite !length_app. cbn. lia. Qed.

Lemma headers_loop_all l : forall k h, Forall header_ok l -> (length l <= k)%nat ->
  headers_loop ht k (concat (header_line <$> l)) h = Some (foldl store_header h l).
Proof.
  induction l as [|p l IH]; intros k h Hok Hk; cbn in *; [by destruct k|]. apply Forall_cons in Hok as [Hp Hok].
  destruct k as [|k]; [lia|]. rewrite headers_loop_cons by done. apply IH; [done|lia].
Qed.

Lemma lines_len l : (length l <= length (concat (header_line <$> l)))%nat.
Proof. induction l as [|p l IH]; [done|]. cbn. rewrite length_app. pose proof (header_line_len p). lia. Qed.

(** The value of the last header with a name. *)
Definition last_value (l : list (list Z * list Z)) (i : nat) : option (list Z) :=
  snd <$> last (filter (fun p => header_index (tolower <$> p.1) = Some i) l).

Lemma last_cons_default (p : list Z * list Z) l (d : list Z) :
  default d (snd <$> last (p :: l)) = default p.2 (snd <$> last l).
Proof. rewrite last_cons. by destruct (last l). Qed.

Lemma store_all_strings l i : forall h, (i < length (hh_strings h))%nat ->
  hh_strings (foldl store_header h l) !! i = Some (default (default [] (hh_strings h !! i)) (last_value l i)).
Proof.
  unfold last_value. induction l as [|p l IH]; intros h Hi; cbn [foldl].
  { cbn. apply lookup_lt_is_Some in Hi as [x ->]. done. }
  rewrite filter_cons. destruct (header_index (tolower <$> p.1)) as [j|] eqn:Ej.
  - assert (store_header h p = HttpHeaders (<[j := p.2]> (hh_strings h)) (hh_accept_encoding_mask h) (hh_peer_ip_addr h)) as ->
      by (unfold store_header; by rewrite Ej).
    rewrite IH by (cbn; by rewrite length_insert). cbn [hh_strings]. case_decide as Hd.
    + injection Hd as ->. rewrite list_lookup_insert_eq by done. f_equal. symmetry. apply last_cons_default.
    + rewrite list_lookup_insert_ne by congruence. done.
  - assert (store_header h p = h) as -> by (unfold store_header; by rewrite Ej). rewrite IH by done. by rewrite decide_False by congruence.
Qed.

Lemma store_all_mask l : forall h, hh_accept_encoding_mask (foldl store_header h l) = hh_accept_encoding_mask h
  /\ hh_peer_ip_addr (foldl store_header h l) = hh_peer_ip_addr h.
Proof.
  induction l as [|p l IH]; intros h; cbn; [done|]. destruct (IH (store_header h p)) as [-> ->]. unfold store_header.
  by destruct (header_index _).
Qed.

(** ** Accept-Encoding *)

(** "gzip, deflate;q=0.5" *)
Fixpoint encoding_list (l : list (list Z)) : list Z :=
  match l with
  | [] => []
  | [e] => e
  | e :: l => e ++ [44; 32] ++ encoding_list l
  end.
Definition element_ok (e : list Z) : Prop := e <> [] /\ 44 ∉ e /\ head e <> Some 32.

Lemma skip_spaces_elements e l : element_ok e -> skip_spaces (32 :: encoding_list (e :: l)) = encoding_list (e :: l).
Proof.
  intros (Hne & _ & Hsp). destruct e as [|c e]; [done|]. cbn in Hsp.
  assert (exists q, encoding_list ((c :: e) :: l) = c :: q) as [q ->] by (destruct l; cbn; eauto). cbn.
  rewrite (proj2 (Z.eqb_neq c 32)) by congruence. done.
Qed.

Lemma encoding_loop_spec l : forall fuel mask, Forall element_ok l -> (length l <= fuel)%nat ->
  accept_encoding_loop atof_positive fuel (encoding_list l) mask = Some (foldl Z.lor mask (encoding_bits atof_positive <$> l)).
Proof.
  induction l as [|e l IH]; intros fuel mask Hok Hf; cbn [encoding_list length] in *; [by destruct fuel|].
  apply Forall_cons in Hok as [He Hok]. destruct fuel as [|k]; [lia|]. pose proof He as (Hne & Hc & _).
  destruct l as [|e2 l].
  - cbn [accept_encoding_loop]. destruct e as [|c e]; [done|]. rewrite strchrnul_none by done. by destruct k.
  - set (t := encoding_list (e2 :: l)). cbn [accept_encoding_loop]. destruct (e ++ [44; 32] ++ t) as [|c q] eqn:E; [by destruct e|]. rewrite <- E.
    cbn [app]. rewrite strchrnul_found by done. subst t. apply Forall_cons in Hok as [He2 Hok]. rewrite skip_spaces_elements by done.
    rewrite IH; [done|by constructor|cbn in *; lia].
Qed.

Lemma encoding_list_len l : Forall element_ok l -> (length l <= length (encoding_list l))%nat.
Proof.
  induction l as [|e l IH]; intros Hok; [done|]. apply Forall_cons in Hok as [(Hne & _) Hok]. specialize (IH Hok).
  destruct e as [|c e]; [done|]. destruct l as [|e2 l]; [cbn; lia|].
  change (encoding_list ((c :: e) :: e2 :: l)) with ((c :: e) ++ [44; 32] ++ encoding_list (e2 :: l)). rewrite !length_app. cbn [length] in *. lia.
Qed.

Lemma testbit_lor_all l b : forall mask, Z.testbit (foldl Z.lor mask l) b = Z.testbit mask b || existsb (fun x => Z.testbit x b) l.
Proof.
  induction l as [|x l IH]; intros mask; cbn; [by rewrite orb_false_r|]. rewrite IH, Z.lor_spec. by rewrite orb_assoc.
Qed.

Lemma parse_strings l : Forall header_ok l ->
  http_headers_parse atof_positive ht (concat (header_line <$> l))
  = http_header_decode_accept_encoding atof_positive (foldl store_header (HttpHeaders (replicate 11 no_value) HTTP_AE_IDENTITY [45]) l).
Proof.
  intros Hok. unfold http_headers_parse. rewrite headers_loop_all by (done || apply lines_len). done.
Qed.
End Parse.

Lemma skip_spaces_len p : (length (skip_spaces p) <= length p)%nat.
Proof. induction p as [|c p IH]; [done|]. cbn. destruct (c =? 32); cbn; lia. Qed.

(** The scan of the encodings ends on every text. *)
Lemma encoding_loop_total atof fuel : forall p mask, (length p <= fuel)%nat -> is_Some (accept_encoding_loop atof fuel p mask).
Proof.
  induction fuel as [|k IH]; intros p mask Hp; [destruct p; cbn in *; [by eexists|lia]|].
  destruct p as [|c p]; [by eexists|]. cbn [accept_encoding_loop]. destruct (strchrnul 44 (c :: p)) as [val rest] eqn:E. apply IH.
  pose proof (strchrnul_len 44 (c :: p)) as Hl. rewrite E in Hl. cbn [snd length] in *.
  destruct rest as [|x r]; [cbn; lia|]. pose proof (skip_spaces_len r). cbn in Hl. lia.
Qed.

Lemma starts_with_head c p : starts_with [c] p = true <-> head p = Some c.
Proof.
  destruct p as [|x p]; cbn; [done|]. rewrite andb_true_r, Z.eqb_eq. split; [by intros ->|by intros [= ->]].
Qed.

Lemma decode_spec atof h p : hh_strings h !! ACCEPT_ENCODING = Some p ->
  exists h', http_header_decode_accept_encoding atof h = Some h'
    /\ (forall i, i <> ACCEPT_ENCODING -> hh_strings h' !! i = hh_strings h !! i)
    /\ (head p = Some 45 -> hh_accept_encoding_mask h' = HTTP_AE_IDENTITY)
    /\ (head p <> Some 45 -> head p <> Some 42 -> forall es, p = encoding_list es -> Forall element_ok es ->
        hh_accept_encoding_mask h' = foldl Z.lor (hh_accept_encoding_mask h) (encoding_bits atof <$> es)).
Proof.
  intros Hp. unfold http_header_decode_accept_encoding. rewrite Hp. cbn [mbind option_bind].
  destruct (starts_with [45] p) eqn:E1; [apply starts_with_head in E1|].
  { eexists. split; [done|]. split; [done|]. split; [done|]. done. }
  destruct (starts_with [42] p) eqn:E2; [apply starts_with_head in E2|].
  { eexists. split; [done|]. split; [done|]. split; [|done]. intros H. congruence. }
  destruct (encoding_loop_total atof (length p) p (hh_accept_encoding_mask h) (Nat.le_refl _)) as [mask Em]. rewrite Em. cbn.
  eexists. split; [done|]. split; [|split].
  - intros i Hi. cbn. by rewrite list_lookup_insert_ne.
  - intros H. by apply starts_with_head in H; rewrite H in E1.
  - intros _ _ es -> Hok. cbn. rewrite encoding_loop_spec in Em by (done || by apply encoding_list_len). by injection Em as <-.
Qed.

(** [http_headers_init] makes a table with which parsing a text of header lines ends and
    gives each known header the value of the last line with its name in any letter case, "-"
    when there is none; without [Accept-Encoding] the mask is identity, and otherwise a bit is
    set exactly when an element of the list offers it. *)
Theorem http_headers_parse_correct (o : os) (atof_positive : list Z -> bool)
  (Hos : roomy o) (Hmap : sys_mmap o VM_ALLOC_MIN_SIZE = true) :
  exists ht, http_headers_init o HASHTABLE_INITIALIZER = Some (ht, 0)
    /\ forall l, Forall header_ok l ->
       exists h, http_headers_parse atof_positive ht (concat (header_line <$> l)) = Some h
         /\ (forall i, (i < 11)%nat -> i <> ACCEPT_ENCODING -> hh_strings h !! i = Some (default no_value (last_value l i)))
         /\ match last_value l ACCEPT_ENCODING with
            | None => hh_accept_encoding_mask h = HTTP_AE_IDENTITY
            | Some v => forall es, v = encoding_list es -> Forall element_ok es -> head v <> Some 45 -> head v <> Some 42 ->
                forall b, Z.testbit (hh_accept_encoding_mask h) b = existsb (fun e => Z.testbit (encoding_bits atof_positive e) b) es
            end.
Proof.
  destruct (headers_init_rep o Hos Hmap) as (ht & n & Hi & Hrep). exists ht. split; [done|]. intros l Hl.
  rewrite (parse_strings _ ht n Hrep l Hl). set (h0 := HttpHeaders _ _ _).
  pose proof (store_all_strings l ACCEPT_ENCODING h0) as Hae. cbn [h0 hh_strings] in Hae. rewrite length_replicate in Hae. specialize (Hae ltac:(unfold ACCEPT_ENCODING; lia)).
  destruct (decode_spec atof_positive _ _ Hae) as (h & E & Hs & Hid & Hm). exists h. split; [done|].
  destruct (store_all_mask l h0) as [Hmask _]. split.
  - intros i Hi11 Hne. rewrite Hs by done. rewrite store_all_strings by (cbn; lia). cbn [h0 hh_strings].
    rewrite lookup_replicate_2 by done. done.
  - destruct (last_value l ACCEPT_ENCODING) as [v|]; [|by apply Hid]. cbn [default from_option id] in *.
    intros es Hv Hok H45 H42 b. rewrite (Hm H45 H42 es Hv Hok), Hmask, testbit_lor_all. cbn [h0 hh_accept_encoding_mask].
    unfold HTTP_AE_IDENTITY. rewrite Z.bits_0. cbn [orb]. clear. induction es as [|e es IH]; [done|]. cbn. by rewrite IH.
Qed.

(** Host: "x", accept-encoding: "gzip, br". *)
Definition demo_headers : list (list Z * list Z) :=
  [([72; 111; 115; 116], [120]); ([65; 99; 99; 101; 112; 116; 45; 69; 110; 99; 111; 100; 105; 110; 103], encoding_list [gzip; [98; 114]])].

Lemma http_headers_parse_correct_witness :
  exists ht h, http_headers_init os_all_ok HASHTABLE_INITIALIZER = Some (ht, 0)
    /\ http_headers_parse (fun _ => true) ht (concat (header_line <$> demo_headers)) = Some h
    /\ hh_strings h !! 4%nat = Some [120] /\ Z.testbit (hh_accept_encoding_mask h) 0 = true.
Proof.
  destruct (http_headers_parse_correct os_all_ok (fun _ => true) roomy_all_ok eq_refl) as (ht & Hi & Hp).
  destruct (Hp demo_headers) as (h & E & Hs & Hm).
  { constructor; [|constructor; [|constructor]]; (split; [|split]); apply (bool_decide_unpack _); vm_compute; exact I. }
  exists ht, h. split; [exact Hi|]. split; [exact E|]. split; [apply (Hs 4%nat); [lia|done]|].
  apply (Hm [gzip; [98; 114]]); [reflexivity| |done|done].
  constructor; [|constructor; [|constructor]]; (split; [|split]); apply (bool_decide_unpack _); vm_compute; exact I.
Defined.
