(* ===== verification/HttpVhost.v ===== *)
(** * HttpVhost: choosing the handler of a request by its host ([include/http_vhost.h], [src/http_vhost.c])

    Two tables map host names, and first components of paths, to handlers.  The tables are used
    through the interface of [StringTable.v]; a handler is the address of a function. *)

From stdpp Require Import base numbers list gmap.
From Stdlib Require Import ZArith Lia.
From S2P Require Import Prelude Words Bytes Os Vmallocator Probe ProbeFacts Hashtable HashtableFacts HashtableMap Cstring StringTable HttpHeaders.

Record http_vhost (T : Type) := HttpVhost {
  vh_fallback_to_url : bool;
  vh_ht_vhosts : T;
  vh_ht_vhosts_url : T;
}.
Arguments HttpVhost {T}.
Arguments vh_fallback_to_url {T}.
Arguments vh_ht_vhosts {T}.
Arguments vh_ht_vhosts_url {T}.

Definition HTTP_VHOST_INITIALIZER : http_vhost hashtable := HttpVhost true HASHTABLE_INITIALIZER HASHTABLE_INITIALIZER.

(** The handler that is called, with the headers and the path it finds; or the response 403. *)
Inductive vhost_outcome := Dispatch (func : Z) (h : http_headers) (uri : list Z) | Forbidden.

Definition http_vhost_init (o : os) (vh : http_vhost hashtable) : option (http_vhost hashtable * Z) :=
  '(t, r) ← hashtable_init o (vh_ht_vhosts vh) 0;
  if r <? 0 then Some (HttpVhost (vh_fallback_to_url vh) t (vh_ht_vhosts_url vh), -1)
  else
    '(u, r) ← hashtable_init o (vh_ht_vhosts_url vh) 0;
    Some (HttpVhost (vh_fallback_to_url vh) t u, if r <? 0 then -1 else 0).

Section Ops.
Context {T : Type} `{StringTable T}.

Definition http_vhost_set_fallback_to_url (vh : http_vhost T) (value : Z) : http_vhost T :=
  HttpVhost (negb (value =? 0)) (vh_ht_vhosts vh) (vh_ht_vhosts_url vh).

(** [url] may be NULL. *)
Definition http_vhost_add (vh : http_vhost T) (name : list Z) (url : option (list Z)) (func : Z) : option (http_vhost T) :=
  '(t, _) ← st_insert (vh_ht_vhosts vh) name (bytes64 func);
  match url with
  | None => Some (HttpVhost (vh_fallback_to_url vh) t (vh_ht_vhosts_url vh))
  | Some url => '(u, _) ← st_insert (vh_ht_vhosts_url vh) url (bytes64 func); Some (HttpVhost (vh_fallback_to_url vh) t u)
  end.

Definition HOST : nat := 4.

(** The host is cut at the port in place. *)
Definition http_vhost_run (atof_positive : list Z -> bool) (ht_request_headers : hashtable) (vh : http_vhost T) (headers uri : list Z) : option vhost_outcome :=
  h ← http_headers_parse atof_positive ht_request_headers headers;
  host ← hh_strings h !! HOST;
  let host := fst (strchrnul 58 host) in
  let h := HttpHeaders (<[HOST := host]> (hh_strings h)) (hh_accept_encoding_mask h) (hh_peer_ip_addr h) in
  ofs ← st_lookup (vh_ht_vhosts vh) host;
  if negb (ofs =? 0) then Some (Dispatch (le64 (st_get_val (vh_ht_vhosts vh) ofs)) h uri)
  else match uri with
       | [] => Some Forbidden
       | c :: r =>
           if negb (vh_fallback_to_url vh) then Some Forbidden
           else
             let (component, p) := strchrnul 47 r in   (* '/' *)
             ofs ← st_lookup (vh_ht_vhosts_url vh) (c :: component);
             if ofs =? 0 then Some Forbidden else Some (Dispatch (le64 (st_get_val (vh_ht_vhosts_url vh) ofs)) h p)
       end.
End Ops.

(** ** What the tables hold *)
Definition vhost : Type := list Z * option (list Z) * Z.
Definition vhost_ok (v : vhost) : Prop := (length v.1.1 <= 1000)%nat /\ 0 <= v.2 < 2 ^ 64 /\ match v.1.2 with Some u => (length u <= 1000)%nat | None => True end.
Definition urls (vs : list vhost) : list (list Z) := omap (fun v => v.1.2) vs.

Lemma length_urls vs : (length (urls vs) <= length vs)%nat.
Proof. unfold urls. induction vs as [|[[nm [u|]] f] vs IH]; cbn; lia. Qed.

Fixpoint host_func (vs : list vhost) (host : list Z) : option Z :=
  match vs with [] => None | v :: vs => if decide (v.1.1 = host) then Some v.2 else host_func vs host end.
Fixpoint url_func (vs : list vhost) (url : list Z) : option Z :=
  match vs with [] => None | v :: vs => if decide (v.1.2 = Some url) then Some v.2 else url_func vs url end.

Section Table.
Context {T : Type} `{StringTableLaws T}.

(** The table holds the entries of [get] and nothing else. *)
Definition holds_funcs (t : T) (n : nat) (get : list Z -> option Z) : Prop := exists m, st_rep t n m /\ forall k, m !! k = bytes64 <$> get k.

Lemma holds_insert t n get k f : holds_funcs t (S n) get -> get k = None -> (length k <= 1000)%nat -> exists t' loc, st_insert t k (bytes64 f) = Some (t', loc) /\ holds_funcs t' n (fun k' => if decide (k = k') then Some f else get k').
Proof.
  intros (m & Hr & Hm) Hk Hlen. destruct (st_insert_ok t n m k (bytes64 f) Hr) as (t' & loc & E & _ & _ & Hr' & _); [by rewrite Hm, Hk|rewrite length_bytes64; unfold max_record; lia|].
  exists t', loc. split; [done|]. exists (<[k := bytes64 f]> m). split; [done|]. intros k'. destruct (decide (k = k')) as [->|Hne]; [by rewrite lookup_insert_eq|by rewrite lookup_insert_ne].
Qed.

Lemma holds_lookup t n get k : holds_funcs t n get -> (forall k f, get k = Some f -> 0 <= f < 2 ^ 64) ->
  exists loc, st_lookup t k = Some loc /\ match get k with Some f => loc <> 0 /\ le64 (st_get_val t loc) = f | None => loc = 0 end.
Proof.
  intros (m & Hr & Hm) Hf. destruct (st_lookup_ok t n m k Hr) as (loc & E & Hl). exists loc. split; [done|]. rewrite Hm in Hl. destruct (get k) as [f|] eqn:Eg; cbn in Hl; [|done]. destruct Hl as [Hl Hv]. split; [done|]. rewrite Hv. apply le64_bytes64. by eapply Hf.
Qed.

Fixpoint vhost_adds (vh : http_vhost T) (vs : list vhost) : option (http_vhost T) :=
  match vs with [] => Some vh | v :: vs => vh ← http_vhost_add vh v.1.1 v.1.2 v.2; vhost_adds vh vs end.

Lemma holds_ext t n g g' : (forall k, g k = g' k) -> holds_funcs t n g -> holds_funcs t n g'.
Proof. intros E (m & Hr & Hm). exists m. split; [done|]. intros k. by rewrite Hm, E. Qed.

Definition or_else (a b : option Z) : option Z := match a with Some _ => a | None => b end.

Lemma url_func_none vs u : u ∉ urls vs -> url_func vs u = None.
Proof.
  induction vs as [|[[nm [u'|]] f] vs IH]; intros Hu; [done| |]; cbn [url_func urls omap list_omap fst snd] in *.
  - apply not_elem_of_cons in Hu as [Hne Hu]. rewrite decide_False by congruence. by apply IH.
  - rewrite decide_False by done. by apply IH.
Qed.
Lemma host_func_none vs u : u ∉ vs.*1.*1 -> host_func vs u = None.
Proof. induction vs as [|v vs IH]; intros Hu; [done|]. cbn [host_func fmap list_fmap] in *. apply not_elem_of_cons in Hu as [Hne Hu]. rewrite decide_False by congruence. by apply IH. Qed.

Lemma vhost_adds_ok vs : forall vh n1 n2 g1 g2, holds_funcs (vh_ht_vhosts vh) (n1 + length vs) g1 -> holds_funcs (vh_ht_vhosts_url vh) (n2 + length (urls vs)) g2 ->
  NoDup vs.*1.*1 -> NoDup (urls vs) -> Forall (fun k => g1 k = None) vs.*1.*1 -> Forall (fun k => g2 k = None) (urls vs) -> Forall vhost_ok vs ->
  exists vh', vhost_adds vh vs = Some vh' /\ vh_fallback_to_url vh' = vh_fallback_to_url vh
    /\ holds_funcs (vh_ht_vhosts vh') n1 (fun k => or_else (host_func vs k) (g1 k)) /\ holds_funcs (vh_ht_vhosts_url vh') n2 (fun k => or_else (url_func vs k) (g2 k)).
Proof.
  induction vs as [|[[name url] f] vs IH]; intros vh n1 n2 g1 g2 H1 H2 Hd1 Hd2 Hn1 Hn2 Hok.
  - exists vh. cbn [length urls omap list_omap] in *. rewrite Nat.add_0_r in *. done.
  - cbn [fmap list_fmap fst snd length] in *. apply NoDup_cons in Hd1 as [Hname Hd1]. apply Forall_cons in Hn1 as [Hnone Hn1]. apply Forall_cons in Hok as [(Hl & Hf & Hu) Hok]. cbn [fst snd] in *. rewrite Nat.add_succ_r in H1.
    destruct (holds_insert _ _ _ name f H1 Hnone Hl) as (t & loc & E1 & Ht). cbn [vhost_adds fst snd]. unfold http_vhost_add. rewrite E1. cbn [mbind option_bind].
    assert (Hg1 : Forall (fun k => (if decide (name = k) then Some f else g1 k) = None) vs.*1.*1).
    { rewrite Forall_forall in *. intros k Hk. rewrite decide_False by (intros ->; done). auto. }
    assert (Heq1 : forall k, or_else (host_func vs k) (if decide (name = k) then Some f else g1 k) = or_else (if decide (name = k) then Some f else host_func vs k) (g1 k)).
    { intros k. destruct (decide (name = k)) as [->|]; [by rewrite host_func_none|done]. }
    destruct url as [u|]; cbn [urls omap list_omap fst snd] in *.
    + fold (urls vs) in *. cbn [length] in H2. rewrite Nat.add_succ_r in H2. apply NoDup_cons in Hd2 as [Hurl Hd2]. apply Forall_cons in Hn2 as [Hnone2 Hn2]. destruct (holds_insert _ _ _ u f H2 Hnone2 Hu) as (t2 & loc2 & E2 & Ht2). rewrite E2. cbn [mbind option_bind].
      destruct (IH (HttpVhost (vh_fallback_to_url vh) t t2) n1 n2 _ _ Ht Ht2 Hd1 Hd2 Hg1) as (vh' & E & Hfb & Hh1 & Hh2); [|done|].
      { rewrite Forall_forall in *. intros k Hk. rewrite decide_False by (intros ->; done). auto. }
      exists vh'. split; [done|]. split; [done|]. split; [eapply holds_ext; [|exact Hh1]; exact Heq1|]. eapply holds_ext; [|exact Hh2]. intros k. cbn [url_func fst snd]. destruct (decide (u = k)) as [->|Hne]; [by rewrite url_func_none, decide_True|]. by rewrite decide_False by congruence.
    + fold (urls vs) in *. destruct (IH (HttpVhost (vh_fallback_to_url vh) t (vh_ht_vhosts_url vh)) n1 n2 _ g2 Ht H2 Hd1 Hd2 Hg1 Hn2 Hok) as (vh' & E & Hfb & Hh1 & Hh2). exists vh'. split; [done|]. split; [done|]. split; [eapply holds_ext; [|exact Hh1]; exact Heq1|done].
Qed.
End Table.

(** ** Requests *)
Lemma host_func_range vs k f : Forall vhost_ok vs -> host_func vs k = Some f -> 0 <= f < 2 ^ 64.
Proof. induction 1 as [|v vs (_ & Hf & _) _ IH]; [done|]. cbn [host_func]. destruct (decide _); [by intros [= <-]|done]. Qed.
Lemma url_func_range vs k f : Forall vhost_ok vs -> url_func vs k = Some f -> 0 <= f < 2 ^ 64.
Proof. induction 1 as [|v vs (_ & Hf & _) _ IH]; [done|]. cbn [url_func]. destruct (decide _); [by intros [= <-]|done]. Qed.

(** The handler that is to be called, and the path it is to see. *)
Definition vhost_choice (vs : list vhost) (fallback : bool) (host uri : list Z) : option (Z * list Z) :=
  match host_func vs host, uri with
  | Some f, _ => Some (f, uri)
  | None, [] => None
  | None, c :: r => if fallback then (fun f => (f, snd (strchrnul 47 r))) <$> url_func vs (c :: fst (strchrnul 47 r)) else None
  end.

(** C35: after [http_vhost_init] and [http_vhost_add] for any list of at most 1000 hosts with different
    names and paths of at most 1000 bytes, [http_vhost_run] on a request whose headers are any list of lines calls the handler
    of the host in its [Host] header, without the port; if there is none, and falling back is
    on, the handler of the first component of the path, which then sees only the rest of the
    path; and otherwise answers 403.  A request without [Host] is one for the host "-". *)
Theorem http_vhost_dispatch (o : os) (atof_positive : list Z -> bool) (vs : list vhost) (fallback : Z)
  (Hos : roomy o) (Hmap : sys_mmap o VM_ALLOC_MIN_SIZE = true) (Hnames : NoDup vs.*1.*1) (Hurls : NoDup (urls vs)) (Hok : Forall vhost_ok vs) (Hnum : (length vs <= 1000)%nat) :
  let T := hashtable_string_table o in
  exists ht vh vh', http_headers_init o HASHTABLE_INITIALIZER = Some (ht, 0) /\ http_vhost_init o HTTP_VHOST_INITIALIZER = Some (vh, 0)
    /\ vhost_adds (http_vhost_set_fallback_to_url vh fallback) vs = Some vh'
    /\ forall l uri, Forall header_ok l -> exists h out, http_vhost_run atof_positive ht vh' (concat (header_line <$> l)) uri = Some out
       /\ hh_strings h !! HOST = Some (fst (strchrnul 58 (default no_value (last_value l HOST))))
       /\ out = match vhost_choice vs (negb (fallback =? 0)) (fst (strchrnul 58 (default no_value (last_value l HOST)))) uri with
                | Some (f, uri') => Dispatch f h uri'
                | None => Forbidden
                end.
Proof.
  intros T. subst T. pose (L := hashtable_string_laws o Hos). destruct (headers_init_rep o Hos Hmap) as (ht & n & Hi & Hrep). destruct (init_string_rep o 0 Hos Hmap ltac:(lia)) as (t0 & Hi0 & Hr0).
  set (N := Z.to_nat (2 ^ 18)) in *. set (vh0 := HttpVhost true t0 t0). assert (Hinit : http_vhost_init o HTTP_VHOST_INITIALIZER = Some (vh0, 0)) by (unfold http_vhost_init; cbn [vh_ht_vhosts vh_ht_vhosts_url HTTP_VHOST_INITIALIZER]; rewrite Hi0; done).
  assert (HN : (1000 <= N)%nat) by (unfold N; lia). pose proof (length_urls vs) as Hu.
  assert (Hh : forall k, (k <= N)%nat -> holds_funcs (H0 := L) t0 (N - k + k) (fun _ => None)) by (intros k Hk; exists ∅; rewrite Nat.sub_add by done; split; [exact Hr0|intros; apply lookup_empty]).
  destruct (vhost_adds_ok (H0 := L) vs (http_vhost_set_fallback_to_url vh0 fallback) (N - length vs) (N - length (urls vs)) (fun _ => None) (fun _ => None)) as (vh' & Eadd & Hfb & H1 & H2); [apply Hh; lia|apply Hh; lia|done|done|by apply Forall_forall|by apply Forall_forall|done|].
  exists ht, vh0, vh'. split; [done|]. split; [done|]. split; [done|]. intros l uri Hl. unfold http_vhost_run.
  rewrite (parse_strings _ ht n Hrep l Hl). set (h0 := HttpHeaders _ _ _). pose proof (store_all_strings l ACCEPT_ENCODING h0 ltac:(cbn [h0 hh_strings]; rewrite length_replicate; unfold ACCEPT_ENCODING; lia)) as Hae. destruct (decode_spec atof_positive _ _ Hae) as (h & E & Hs & _). rewrite E. cbn [mbind option_bind].
  rewrite Hs by done. rewrite store_all_strings by (cbn [h0 hh_strings]; rewrite length_replicate; unfold HOST; lia). replace (default [] (hh_strings h0 !! HOST)) with no_value by done. cbn [mbind option_bind]. set (host := fst (strchrnul 58 _)).
  assert (Hlen : (HOST < length (hh_strings h))%nat) by (eapply lookup_lt_Some; rewrite Hs by done; rewrite store_all_strings by (cbn [h0 hh_strings]; rewrite length_replicate; unfold HOST; lia); reflexivity).
  destruct (holds_lookup (H0 := L) _ _ _ host H1) as (loc & El & Hloc); [intros k f; unfold or_else; destruct (host_func vs k) eqn:Ek; [intros [= <-]; by eapply host_func_range|done]|]. rewrite El. cbn [mbind option_bind].
  eexists (HttpHeaders (<[HOST := host]> (hh_strings h)) _ _). unfold vhost_choice. destruct (host_func vs host) as [f|] eqn:Ehost; cbn [or_else] in Hloc.
  - destruct Hloc as [Hne Hv]. rewrite (proj2 (Z.eqb_neq loc 0) Hne), Hv. cbn [negb]. eexists. split; [reflexivity|]. split; [cbn [hh_strings]; by rewrite list_lookup_insert_eq|done].
  - subst loc. cbn [Z.eqb negb]. destruct uri as [|c r]; [eexists; split; [reflexivity|]; split; [cbn [hh_strings]; by rewrite list_lookup_insert_eq|done]|]. rewrite Hfb. cbn [vh_fallback_to_url http_vhost_set_fallback_to_url].
    destruct (negb (fallback =? 0)); cbn [negb]; [|eexists; split; [reflexivity|]; split; [cbn [hh_strings]; by rewrite list_lookup_insert_eq|done]]. destruct (strchrnul 47 r) as [comp p] eqn:Ecomp. cbn [fst snd].
    destruct (holds_lookup (H0 := L) _ _ _ (c :: comp) H2) as (loc & El2 & Hloc2); [intros k f; unfold or_else; destruct (url_func vs k) eqn:Ek; [intros [= <-]; by eapply url_func_range|done]|]. rewrite El2. cbn [mbind option_bind].
    destruct (url_func vs (c :: comp)) as [f|] eqn:Eurl; cbn [or_else] in Hloc2; cbn [fmap option_fmap option_map].
    + destruct Hloc2 as [Hne2 Hv2]. rewrite (proj2 (Z.eqb_neq loc 0) Hne2), Hv2. eexists. split; [reflexivity|]. split; [cbn [hh_strings]; by rewrite list_lookup_insert_eq|done].
    + subst loc. cbn [Z.eqb]. eexists. split; [reflexivity|]. split; [cbn [hh_strings]; by rewrite list_lookup_insert_eq|done].
Qed.

(** Hosts "a" (with the path "/x") and "b"; the request is for "c:80" and "/x/y". *)
Definition vhosts_demo : list vhost := [([97], Some [47; 120], 7); ([98], None, 8)].

Lemma http_vhost_dispatch_witness :
  let T := hashtable_string_table os_all_ok in
  exists ht vh vh' h, http_headers_init os_all_ok HASHTABLE_INITIALIZER = Some (ht, 0) /\ http_vhost_init os_all_ok HTTP_VHOST_INITIALIZER = Some (vh, 0)
    /\ vhost_adds (http_vhost_set_fallback_to_url vh 1) vhosts_demo = Some vh'
    /\ http_vhost_run (fun _ => true) ht vh' (concat (header_line <$> [([72; 111; 115; 116], [99; 58; 56; 48])])) [47; 120; 47; 121] = Some (Dispatch 7 h [47; 121]).
Proof.
  destruct (http_vhost_dispatch os_all_ok (fun _ => true) vhosts_demo 1) as (ht & vh & vh' & H1 & H2 & H3 & H4).
  - exact roomy_all_ok.
  - reflexivity.
  - apply (bool_decide_unpack _). by vm_compute.
  - apply (bool_decide_unpack _). by vm_compute.
  - repeat constructor; cbn; lia.
  - vm_compute. lia.
  - destruct (H4 [([72; 111; 115; 116], [99; 58; 56; 48])] [47; 120; 47; 121]) as (h & out & E & _ & Hout).
    + apply Forall_singleton. unfold header_ok. repeat split; apply (bool_decide_unpack _); vm_compute; exact I.
    + exists ht, vh, vh', h. split; [exact H1|]. split; [exact H2|]. split; [exact H3|]. rewrite E, Hout. vm_compute. reflexivity.
Defined.
