(* ===== verification/MimeTypes.v ===== *)
(** * MimeTypes: content types by file extension ([include/mime_types.h], [src/mime_types.c])

    The file [/etc/mime.types] is mapped, cut into lines and words in place, and each extension
    is entered into a hash table with its type. *)

From Stdlib Require Import String.
From stdpp Require Import base numbers list gmap.
From Stdlib Require Import ZArith Lia.
From S2P Require Import Prelude Words Bytes Os Vmallocator Probe ProbeFacts Hashtable HashtableFacts HashtableMap Cstring StringTable.

Definition MIME_TYPES : list Z := str "/etc/mime.types"%string.
Definition DEFAULT_MIME_TYPE : list Z := str "text/plain"%string.
Definition is_mime_delim (c : Z) : bool := (c =? 9) || (c =? 32).

(** [strtok_r] with [MIME_DELIMS] until it returns NULL; [tok] is the start of the first word. *)
Fixpoint strtoks (tok s : list Z) : list (list Z) :=
  let flush := match tok with [] => [] | _ => [tok] end in
  match s with
  | [] => flush
  | c :: r => if is_mime_delim c then (flush ++ strtoks [] r)%list else strtoks (tok ++ [c]) r
  end.

Section Ops.
Context (o : os).

(** Extensions are folded to lower case in place; the value includes the terminator. *)
Fixpoint insert_exts (ht : hashtable) (mime : list Z) (exts : list (list Z)) : option hashtable :=
  match exts with
  | [] => Some ht
  | ext :: exts => '(ht, _) ← hashtable_insert o ht (tolower <$> ext) (mime ++ [0]); insert_exts ht mime exts
  end.

(** The part of the line before a zero byte and before a comment, in words. *)
Definition mime_line (ht : hashtable) (line : list Z) : option hashtable :=
  let line := fst (strchrnul 35 (fst (strchrnul 0 line))) in   (* '#' *)
  match strtoks [] line with
  | [] => Some ht
  | mime :: exts => insert_exts ht mime exts
  end.

(** The terminator of a last line that does not end in a newline is written behind the file:
    into the rest of its last page, if there is one. *)
Fixpoint mime_lines (fuel : nat) (size : Z) (ht : hashtable) (content : list Z) : option hashtable :=
  match content with
  | [] => Some ht
  | _ =>
      match fuel with
      | O => None
      | S f =>
          let (line, rest) := strchrnul 10 content in   (* '\n' *)
          match rest with
          | [] => if size mod 4096 =? 0 then None else mime_line ht line
          | _ :: rest => ht ← mime_line ht line; mime_lines f size ht rest
          end
      end
  end.

(** [file]: the contents of the file, if it can be opened. *)
Definition mime_types_init (file : option (list Z)) (ht_mime_types : hashtable) : option (hashtable * Z) :=
  if hashtable_is_initialized ht_mime_types then Some (ht_mime_types, 1)
  else match file with
       | None => Some (ht_mime_types, -1)   (* fstat of -1 fails *)
       | Some content =>
           let fd := sys_open o MIME_TYPES 0 in
           let size := Z.of_nat (length content) in
           match sys_fstat o fd with
           | None => Some (ht_mime_types, -1)
           | Some _ =>
               if negb (sys_mmap o (size + 1)) then Some (ht_mime_types, -1)
               else
                 '(ht, _) ← hashtable_init o ht_mime_types 4096;
                 ht ← mime_lines (length content) size ht content;
                 Some (ht, 0)
           end
       end.
End Ops.

Definition mime_types_by_ext (ht_mime_types : hashtable) (ext : list Z) : option (list Z) :=
  if 128 <? Z.of_nat (length ext) then Some DEFAULT_MIME_TYPE
  else
    ofs ← hashtable_lookup ht_mime_types (tolower <$> ext);
    if ofs =? 0 then Some DEFAULT_MIME_TYPE else c_string (hashtable_get_val ht_mime_types ofs).

Definition mime_types_by_filename (ht_mime_types : hashtable) (filename : list Z) : option (list Z) :=
  match strrchr 46 filename with   (* '.' *)
  | Some ext => mime_types_by_ext ht_mime_types ext
  | None => Some DEFAULT_MIME_TYPE
  end.

(** ** Files in the usual form *)
Definition word_ok (w : list Z) : Prop := w <> [] /\ Forall (fun c => is_mime_delim c = false /\ c <> 10 /\ c <> 0 /\ c <> 35) w.
Definition mime_entry : Type := list Z * list (list Z).
Definition entry_text (e : mime_entry) : list Z := fst e ++ concat (map (cons 9) (snd e)).
(** One line per type; the extensions are behind tabs. *)
Definition mime_file (es : list mime_entry) : list Z := concat (map (fun e => entry_text e ++ [10])%list es).
Definition entry_ok (e : mime_entry) : Prop := word_ok (fst e) /\ Forall word_ok (snd e) /\ Forall (fun x => (length x + length (fst e) <= 1000)%nat) (snd e).

Definition exts_of (e : mime_entry) : list (list Z) := map (fmap tolower) (snd e).
(** The type of an extension. *)
Fixpoint mime_of (es : list mime_entry) (ext : list Z) : option (list Z) :=
  match es with [] => None | e :: es => if decide (ext ∈ exts_of e) then Some (fst e) else mime_of es ext end.

Lemma strtoks_word w : forall tok rest, Forall (fun c => is_mime_delim c = false) w -> strtoks tok (w ++ rest) = strtoks (tok ++ w) rest.
Proof. induction w as [|c w IH]; intros tok rest Hw; [by rewrite app_nil_r|]. apply Forall_cons in Hw as [Hc Hw]. cbn [app strtoks]. rewrite Hc, IH by done. by rewrite <- app_assoc. Qed.

Lemma word_delims w : word_ok w -> Forall (fun c => is_mime_delim c = false) w.
Proof. intros [_ Hw]. eapply Forall_impl; [exact Hw|]. naive_solver. Qed.

Lemma strtoks_entry exts : forall tok, tok <> [] -> Forall word_ok exts -> strtoks tok (concat (map (cons 9) exts)) = tok :: exts.
Proof.
  induction exts as [|x exts IH]; intros tok Ht Hok; [by destruct tok|]. apply Forall_cons in Hok as [Hx Hok]. cbn [map concat app]. cbn [strtoks is_mime_delim Z.eqb Pos.eqb orb].
  destruct tok as [|c tok]; [done|]. cbn [app]. f_equal. rewrite strtoks_word by (by apply word_delims). apply IH; [by destruct Hx|done].
Qed.

Lemma entry_words e : entry_ok e -> strtoks [] (entry_text e) = fst e :: snd e.
Proof. intros ((Hne & Hw) & Hx & _). unfold entry_text. rewrite strtoks_word by (by apply word_delims). by apply strtoks_entry. Qed.

Lemma entry_chars e : entry_ok e -> Forall (fun c => c <> 10 /\ c <> 0 /\ c <> 35) (entry_text e).
Proof.
  intros ((_ & Hw) & Hx & _). unfold entry_text. apply Forall_app. split; [eapply Forall_impl; [exact Hw|]; naive_solver|]. apply Forall_concat, Forall_map. eapply Forall_impl; [exact Hx|]. intros x [_ Hc]. constructor; [lia|]. eapply Forall_impl; [exact Hc|]. naive_solver.
Qed.
Lemma not_in_chars c (l : list Z) : Forall (fun x => x <> c) l -> c ∉ l.
Proof. intros Hl Hc. rewrite Forall_forall in Hl. by apply (Hl c Hc). Qed.

Lemma mime_line_entry o ht e : entry_ok e -> mime_line o ht (entry_text e) = insert_exts o ht (fst e) (snd e).
Proof.
  intros He. pose proof (entry_chars e He) as Hc. unfold mime_line. rewrite (strchrnul_none 0) by (apply not_in_chars; eapply Forall_impl; [exact Hc|]; naive_solver). cbn [fst].
  rewrite (strchrnul_none 35) by (apply not_in_chars; eapply Forall_impl; [exact Hc|]; naive_solver). cbn [fst]. by rewrite entry_words.
Qed.

(** The table holds the types [get] says. *)
Definition holds_mimes (ht : hashtable) (n : nat) (get : list Z -> option (list Z)) : Prop :=
  exists m, ht_string_rep ht n m /\ forall k, m !! k = (fun v => v ++ [0])%list <$> get k.

Section Facts.
Context (o : os) (Hos : roomy o).

Lemma insert_exts_ok mime exts : forall ht n get, holds_mimes ht (n + length exts) get -> NoDup (map (fmap tolower) exts) -> Forall (fun k => get k = None) (map (fmap tolower) exts) -> Forall (fun x => (length x + length mime <= 1000)%nat) exts ->
  exists ht', insert_exts o ht mime exts = Some ht' /\ holds_mimes ht' n (fun k => if decide (k ∈ map (fmap tolower) exts) then Some mime else get k).
Proof.
  induction exts as [|x exts IH]; intros ht n get (m & Hr & Hm) Hnd Hnone Hlen.
  - exists ht. split; [done|]. exists m. cbn [length] in Hr. rewrite Nat.add_0_r in Hr. split; [done|]. intros k. rewrite Hm. by rewrite decide_False by (cbn; apply not_elem_of_nil).
  - cbn [map length] in *. apply NoDup_cons in Hnd as [Hx Hnd]. apply Forall_cons in Hnone as [Hnx Hnone]. apply Forall_cons in Hlen as [Hl Hlen]. rewrite Nat.add_succ_r in Hr. cbn [insert_exts].
    destruct (insert_inserted o ht _ m (tolower <$> x) (mime ++ [0]) Hos Hr) as (t & loc & E & _ & _ & Hr1 & _); [by rewrite Hm, Hnx|rewrite length_fmap, length_app; cbn; unfold max_record; lia|]. rewrite E. cbn [mbind option_bind].
    destruct (IH t n (fun k => if decide (k = tolower <$> x) then Some mime else get k)) as (ht' & E' & m' & Hr' & Hm').
    + exists (<[tolower <$> x := (mime ++ [0])%list]> m). split; [done|]. intros k. destruct (decide (k = tolower <$> x)) as [->|Hne]; [by rewrite lookup_insert_eq|by rewrite lookup_insert_ne].
    + done.
    + rewrite Forall_forall in *. intros k Hk. rewrite decide_False by (intros ->; done). auto.
    + done.
    + exists ht'. split; [done|]. exists m'. split; [done|]. intros k. rewrite Hm'. destruct (decide (k ∈ map (fmap tolower) exts)) as [Hin|Hin]; [by rewrite decide_True by (by apply elem_of_cons; right)|].
      destruct (decide (k = tolower <$> x)) as [->|Hne]; [by rewrite decide_True by (by apply elem_of_cons; left)|]. rewrite decide_False; [done|]. by apply not_elem_of_cons.
Qed.

Definition all_exts (es : list mime_entry) : list (list Z) := concat (map exts_of es).

Lemma mime_of_none es k : k ∉ all_exts es -> mime_of es k = None.
Proof.
  induction es as [|e es IH]; intros Hk; [done|]. unfold all_exts in *. cbn [map concat mime_of] in *. apply not_elem_of_app in Hk as [H1 H2]. rewrite decide_False by done. by apply IH.
Qed.

Lemma mime_lines_ok es : forall fuel size ht n get, (length (mime_file es) <= fuel)%nat -> holds_mimes ht (n + length (all_exts es)) get -> NoDup (all_exts es) -> Forall (fun k => get k = None) (all_exts es) -> Forall entry_ok es ->
  exists ht', mime_lines o fuel size ht (mime_file es) = Some ht' /\ holds_mimes ht' n (fun k => match mime_of es k with Some v => Some v | None => get k end).
Proof.
  induction es as [|e es IH]; intros fuel size ht n get Hfuel Hh Hnd Hnone Hok.
  - exists ht. unfold all_exts in Hh. cbn in Hh. rewrite Nat.add_0_r in Hh. by destruct fuel.
  - apply Forall_cons in Hok as [He Hok]. unfold mime_file in *. cbn [map concat] in *. fold (mime_file es) in *. rewrite !length_app in Hfuel. cbn [length] in Hfuel. destruct fuel as [|fuel]; [lia|].
    rewrite <- app_assoc. cbn [app]. assert (Hnl : 10 ∉ entry_text e) by (apply not_in_chars; eapply Forall_impl; [exact (entry_chars e He)|]; naive_solver).
    unfold all_exts in *. cbn [map concat] in *. fold (all_exts es) in *. rewrite length_app in Hh. apply NoDup_app in Hnd as (Hnd1 & Hdis & Hnd2). apply Forall_app in Hnone as [Hn1 Hn2].
    assert (Hlx : length (exts_of e) = length (snd e)) by (unfold exts_of; apply length_map). rewrite Hlx in Hh. replace (n + (length (snd e) + length (all_exts es)))%nat with (n + length (all_exts es) + length (snd e))%nat in Hh by lia.
    destruct (insert_exts_ok (fst e) (snd e) ht _ get Hh Hnd1 Hn1 (proj2 (proj2 He))) as (ht1 & E1 & H1).
    destruct (IH fuel size ht1 n _ ltac:(lia) H1 Hnd2) as (ht2 & E2 & m2 & Hr2 & Hm2); [|done|].
    { rewrite Forall_forall in *. intros k Hk. rewrite decide_False; [by apply Hn2|]. intros Hin. by apply (Hdis k). }
    exists ht2. split.
    + cbn [mime_lines]. destruct (entry_text e ++ 10 :: mime_file es) eqn:Ee; [by destruct (entry_text e)|]. rewrite <- Ee, strchrnul_found by done. rewrite mime_line_entry by done. rewrite E1. exact E2.
    + exists m2. split; [done|]. intros k. rewrite Hm2. cbn [mime_of]. fold (exts_of e). destruct (decide (k ∈ exts_of e)) as [Hin|Hin]; [|by destruct (mime_of es k)]. rewrite mime_of_none; [done|]. by apply Hdis.
Qed.
End Facts.

Lemma c_string_terminated v : Forall (fun c => c <> 0) v -> c_string (v ++ [0]) = Some v.
Proof. induction 1 as [|c v Hc _ IH]; [done|]. cbn [app c_string]. rewrite (proj2 (Z.eqb_neq c 0) Hc). cbn in IH. rewrite IH. done. Qed.

(** What [mime_types_by_filename] should find. *)
Definition mime_spec (es : list mime_entry) (filename : list Z) : list Z :=
  match strrchr 46 filename with
  | Some ext => if decide (length ext <= 128)%nat then default DEFAULT_MIME_TYPE (mime_of es (tolower <$> ext)) else DEFAULT_MIME_TYPE
  | None => DEFAULT_MIME_TYPE
  end.

(** After [mime_types_init] has read a file with a line per type and different extensions, it
    does nothing more when called again, and [mime_types_by_filename] gives the type of the
    line that has the extension of the name (what is behind its last dot, in any letter case),
    and the default for an unknown one, one of more than 128 bytes, or none. *)
Theorem mime_types_by_filename_correct (o : os) (es : list mime_entry)
  (Hos : roomy o) (Hmap : forall n, sys_mmap o n = true) (Hstat : forall fd, is_Some (sys_fstat o fd))
  (Hok : Forall entry_ok es) (Hdistinct : NoDup (all_exts es)) (Hnum : Z.of_nat (length (all_exts es)) <= 10000) :
  exists ht, mime_types_init o (Some (mime_file es)) HASHTABLE_INITIALIZER = Some (ht, 0)
    /\ (forall file, mime_types_init o file ht = Some (ht, 1))
    /\ forall filename, mime_types_by_filename ht filename = Some (mime_spec es filename).
Proof.
  destruct (init_string_rep o 4096 Hos (Hmap _) ltac:(lia)) as (ht0 & Hi0 & Hr0). set (N := Z.to_nat (2 ^ 18)) in *. assert (HN : Z.of_nat N = 2 ^ 18) by (unfold N; lia).
  destruct (mime_lines_ok o Hos es (length (mime_file es)) (Z.of_nat (length (mime_file es))) ht0 (N - length (all_exts es)) (fun _ => None)) as (ht & E & m & Hr & Hm); [done|exists ∅; rewrite Nat.sub_add by lia; split; [done|intros; apply lookup_empty]|done|by apply Forall_forall|done|].
  exists ht. split; [|split].
  - unfold mime_types_init. change (hashtable_is_initialized HASHTABLE_INITIALIZER) with false. cbv iota zeta. destruct (Hstat (sys_open o MIME_TYPES 0)) as [sz ->]. rewrite Hmap, Hi0. cbn [negb mbind option_bind]. by rewrite E.
  - intros file. unfold mime_types_init. destruct Hr as [[F Hrep] _]. apply header_le_wloc in Hrep. unfold hashtable_is_initialized, vmallocator_wlocpos. by rewrite Z.gtb_ltb, (proj2 (Z.ltb_lt 0 _)) by (unfold HEADER_SIZE in Hrep; lia).
  - intros filename. unfold mime_types_by_filename, mime_spec. destruct (strrchr 46 filename) as [ext|]; [|done]. unfold mime_types_by_ext. destruct (decide _) as [Hle|Hgt]; [rewrite (proj2 (Z.ltb_ge 128 _)) by lia|rewrite (proj2 (Z.ltb_lt 128 _)) by lia; done].
    destruct (lookup_string_rep o ht _ m (tolower <$> ext) Hr) as (loc & El & Hl). cbn in El. rewrite El. cbn [mbind option_bind]. rewrite Hm in Hl. destruct (mime_of es (tolower <$> ext)) as [v|] eqn:Ev; cbn in Hl |- *.
    + destruct Hl as [Hne Hv]. rewrite (proj2 (Z.eqb_neq loc 0) Hne), Hv. apply c_string_terminated. clear -Ev Hok. induction Hok as [|e es He _ IH]; [done|]. cbn [mime_of] in Ev. destruct (decide _); [|by apply IH]. injection Ev as <-.
      destruct He as ((_ & Hw) & _). eapply Forall_impl; [exact Hw|]. naive_solver.
    + by subst loc.
Qed.

Definition mime_demo : list mime_entry := [(str "text/html"%string, [str "html"%string; str "HTM"%string]); (str "image/png"%string, [str "png"%string])].

Lemma mime_types_by_filename_correct_witness :
  exists ht, mime_types_init os_all_ok (Some (mime_file mime_demo)) HASHTABLE_INITIALIZER = Some (ht, 0)
    /\ mime_types_by_filename ht (str "a.b.Htm"%string) = Some (str "text/html"%string) /\ mime_types_by_filename ht (str "README"%string) = Some (str "text/plain"%string).
Proof.
  destruct (mime_types_by_filename_correct os_all_ok mime_demo) as (ht & H1 & _ & H3).
  - exact roomy_all_ok.
  - done.
  - intros fd. by eexists.
  - repeat constructor; done.
  - apply (bool_decide_unpack _). by vm_compute.
  - by vm_compute.
  - exists ht. split; [exact H1|]. split; rewrite H3; vm_compute; reflexivity.
Defined.
