(* ===== verification/Calendar.v ===== *)
(** * Calendar: times as text

    What [http_file_server.c] uses of <time.h>: [gmtime_r] and [strftime] in the C locale.  Days
    are counted in the Gregorian calendar, in years that start in March, so that the day of a
    leap year comes last. *)

From Stdlib Require Import String.
From stdpp Require Import base numbers list.
From Stdlib Require Import ZArith Lia.
From S2P Require Import Prelude Words Cstring.

(** [struct tm] with the year and the month written out: [tm_year + 1900], [tm_mon + 1]. *)
Record tm := Tm { tm_year : Z; tm_mon : Z; tm_mday : Z; tm_hour : Z; tm_min : Z; tm_sec : Z; tm_wday : Z }.

(** Days since 1 March of a year that is a multiple of 400: the year of that era, and its day. *)
Definition year_of_era (doe : Z) : Z := (doe - doe / 1460 + doe / 36524 - doe / 146096) / 365.
Definition day_of_year (doe : Z) : Z := let yoe := year_of_era doe in doe - (365 * yoe + yoe / 4 - yoe / 100).
(** Months from March on, and the day of the month. *)
Definition month_of (doy : Z) : Z := (5 * doy + 2) / 153.
Definition mday_of (doy : Z) : Z := doy - (153 * month_of doy + 2) / 5 + 1.

(** From 1 March 0000 to 1 January 1970. *)
Definition epoch_days : Z := 719468.

Definition gmtime (t : Z) : tm :=
  let days := t / 86400 in
  let secs := t mod 86400 in
  let era := (days + epoch_days) / 146097 in
  let doe := (days + epoch_days) mod 146097 in
  let mp := month_of (day_of_year doe) in
  let mon := if mp <? 10 then mp + 3 else mp - 9 in
  Tm (400 * era + year_of_era doe + (if mon <=? 2 then 1 else 0)) mon (mday_of (day_of_year doe))
     (secs / 3600) (secs / 60 mod 60) (secs mod 60) ((days + 4) mod 7).

(** The day and the time of a [struct tm] (its weekday is not looked at). *)
Definition timegm (v : tm) : Z :=
  let y := if tm_mon v <=? 2 then tm_year v - 1 else tm_year v in
  let mp := if tm_mon v <=? 2 then tm_mon v + 9 else tm_mon v - 3 in
  let yoe := y mod 400 in
  let doe := 365 * yoe + yoe / 4 - yoe / 100 + (153 * mp + 2) / 5 + tm_mday v - 1 in
  86400 * (146097 * (y / 400) + doe - epoch_days) + 3600 * tm_hour v + 60 * tm_min v + tm_sec v.

(** ** Text *)
Definition two_digits (n : Z) : list Z := [48 + n / 10; 48 + n mod 10].
Definition weekdays : list (list Z) := [str "Sun"; str "Mon"; str "Tue"; str "Wed"; str "Thu"; str "Fri"; str "Sat"].
Definition months : list (list Z) := [str "Jan"; str "Feb"; str "Mar"; str "Apr"; str "May"; str "Jun"; str "Jul"; str "Aug"; str "Sep"; str "Oct"; str "Nov"; str "Dec"].
(** [%Y]: at least one digit; negative years have a sign. *)
Definition year_text (y : Z) : list Z := if y <? 0 then 45 :: dec (- y) else dec y.
Definition date_text (v : tm) : list Z := year_text (tm_year v) ++ str "-" ++ two_digits (tm_mon v) ++ str "-" ++ two_digits (tm_mday v).
Definition clock_text (v : tm) : list Z := two_digits (tm_hour v) ++ str ":" ++ two_digits (tm_min v) ++ str ":" ++ two_digits (tm_sec v).

(** The conversions the library uses; an unknown one produces itself. *)
Definition conversion (c : Z) (v : tm) : list Z :=
  if c =? 89 then year_text (tm_year v)                                        (* Y *)
  else if c =? 109 then two_digits (tm_mon v)                                  (* m *)
  else if c =? 100 then two_digits (tm_mday v)                                 (* d *)
  else if c =? 72 then two_digits (tm_hour v)                                  (* H *)
  else if c =? 77 then two_digits (tm_min v)                                   (* M *)
  else if c =? 83 then two_digits (tm_sec v)                                   (* S *)
  else if c =? 97 then default [] (weekdays !! Z.to_nat (tm_wday v))           (* a *)
  else if c =? 98 then default [] (months !! Z.to_nat (tm_mon v - 1))          (* b *)
  else if c =? 70 then date_text v                                             (* F *)
  else if c =? 84 then clock_text v                                            (* T *)
  else [37; c].

Fixpoint strftime (format : list Z) (v : tm) : list Z :=
  match format with
  | 37 :: c :: r => conversion c v ++ strftime r v
  | c :: r => c :: strftime r v
  | [] => []
  end.

(** ** Facts *)
Ltac calendar := Z.to_euclidean_division_equations; lia.

Lemma year_of_era_range doe : 0 <= doe < 146097 -> 0 <= year_of_era doe < 400.
Proof. unfold year_of_era. calendar. Qed.
Lemma day_of_year_range doe : 0 <= doe < 146097 -> 0 <= day_of_year doe <= 365.
Proof. unfold day_of_year, year_of_era. cbv zeta. calendar. Qed.
Lemma month_range doy : 0 <= doy <= 365 -> 0 <= month_of doy < 12 /\ 1 <= mday_of doy <= 31.
Proof. unfold mday_of, month_of. calendar. Qed.

(** The parts of a date are in their ranges. *)
Lemma gmtime_ranges t : let v := gmtime t in 1 <= tm_mon v <= 12 /\ 1 <= tm_mday v <= 31 /\ 0 <= tm_hour v < 24 /\ 0 <= tm_min v < 60 /\ 0 <= tm_sec v < 60 /\ 0 <= tm_wday v < 7.
Proof.
  cbv zeta. unfold gmtime. set (doe := (t / 86400 + epoch_days) mod 146097). cbn [tm_mon tm_mday tm_hour tm_min tm_sec tm_wday].
  destruct (month_range (day_of_year doe)) as [Hm Hd]; [apply day_of_year_range; subst doe; calendar|]. set (mp := month_of _) in *.
  split; [destruct (Z.ltb_spec mp 10); lia|]. split; [done|]. repeat split; calendar.
Qed.

(** [timegm] inverts [gmtime]. *)
Lemma timegm_gmtime t : timegm (gmtime t) = t.
Proof.
  unfold gmtime, timegm. set (doe := (t / 86400 + epoch_days) mod 146097). set (era := (t / 86400 + epoch_days) / 146097). cbn [tm_year tm_mon tm_mday tm_hour tm_min tm_sec].
  assert (Hdoe : 0 <= doe < 146097) by (subst doe; calendar). pose proof (year_of_era_range doe Hdoe) as Hyoe. destruct (month_range _ (day_of_year_range doe Hdoe)) as [Hmp _].
  assert (Hday : 365 * year_of_era doe + year_of_era doe / 4 - year_of_era doe / 100 + (153 * month_of (day_of_year doe) + 2) / 5 + mday_of (day_of_year doe) - 1 = doe) by (unfold mday_of, day_of_year; cbv zeta; lia).
  set (yoe := year_of_era doe) in *. set (mp := month_of (day_of_year doe)) in *. set (md := mday_of (day_of_year doe)) in *.
  assert (Ht : t = 86400 * (146097 * era + doe - epoch_days) + t mod 86400) by (subst era doe; calendar).
  assert (Hs : t mod 86400 = 3600 * (t mod 86400 / 3600) + 60 * (t mod 86400 / 60 mod 60) + t mod 86400 mod 60) by (generalize (t mod 86400); intros; calendar).
  assert (Hy : forall y, y = 400 * era + yoe -> y mod 400 = yoe /\ y / 400 = era) by (intros; calendar).
  destruct (Z.ltb_spec mp 10).
  - rewrite (proj2 (Z.leb_gt (mp + 3) 2)) by lia. destruct (Hy (400 * era + yoe + 0)) as [-> ->]; [lia|]. replace (mp + 3 - 3) with mp by lia. lia.
  - rewrite (proj2 (Z.leb_le (mp - 9) 2)) by lia. destruct (Hy (400 * era + yoe + 1 - 1)) as [-> ->]; [lia|]. replace (mp - 9 + 9) with mp by lia. lia.
Qed.

(** Years of four digits. *)
Lemma gmtime_year t : 0 <= t < 253402300800 -> 1970 <= tm_year (gmtime t) <= 9999.
Proof.
  intros Ht. unfold gmtime. set (doe := (t / 86400 + epoch_days) mod 146097). set (era := (t / 86400 + epoch_days) / 146097). cbn [tm_year].
  assert (Hd : 0 <= doe < 146097) by (subst doe; calendar). assert (He : 719468 <= 146097 * era + doe < 719468 + 2932897) by (subst era doe; unfold epoch_days; calendar). clearbody doe era.
  assert (Hy : 365 * year_of_era doe + year_of_era doe / 4 - year_of_era doe / 100 = doe - day_of_year doe) by (unfold day_of_year; cbv zeta; lia).
  pose proof (year_of_era_range doe Hd). pose proof (day_of_year_range doe Hd) as Hdoy. unfold month_of. set (yoe := year_of_era doe) in *. set (doy := day_of_year doe) in *. clearbody yoe doy.
  destruct (Z.ltb_spec ((5 * doy + 2) / 153) 10); [rewrite (proj2 (Z.leb_gt _ 2)) by calendar|rewrite (proj2 (Z.leb_le _ 2)) by calendar]; calendar.
Qed.

Example gmtime_leap_day : strftime (str "%a, %d %b %Y %H:%M:%S GMT") (gmtime 951827696) = str "Tue, 29 Feb 2000 12:34:56 GMT".
Proof. vm_compute. reflexivity. Qed.
