(* ===== verification/HttpText.v ===== *)
(** * HttpText: strings of the protocol, numbers and lines in HTTP text *)

From Stdlib Require Import String.
From stdpp Require Import base numbers list.
From Stdlib Require Import ZArith Lia.
From S2P Require Import Prelude Words Cstring.

(** * Strings of the protocol

    [http_server.c] and [http_client_pool.c] declare the same strings, one file each. *)

Definition CRLF : list Z := [13; 10].
Definition CRLFCRLF : list Z := CRLF ++ CRLF.
Definition CONNECTION : list Z := CRLF ++ str "Connection: ".
Definition CONNECTION_CLOSE : list Z := str "close".
Definition CONTENT_LENGTH : list Z := CRLF ++ str "Content-Length: ".

(** * Numbers and lines in HTTP text

    What [atoi] and [strtol] read in what [sprintf] wrote, and which line of a header a search
    finds: a header starts behind a CRLF, and no other CR is in a line. *)

(** ** Decimal numbers *)
Definition digit (c : Z) : Prop := 48 <= c <= 57.
Definition decimal (a : Z) (ds : list Z) : Z := foldl (fun a c => 10 * a + (c - 48)) a ds.

Lemma digit_is_digit c : digit c -> is_digit c = true.
Proof. unfold digit, is_digit. lia. Qed.

Lemma decimal_mono ds : Forall digit ds -> forall a, 0 <= a -> a <= decimal a ds.
Proof. unfold decimal. induction 1 as [|c ds Hc _ IH]; intros a Ha; [done|]. cbn [foldl]. unfold digit in Hc. specialize (IH (10 * a + (c - 48)) ltac:(lia)). lia. Qed.

Lemma dec_loop_spec fuel : forall n acc, 0 <= n < 10 ^ Z.of_nat fuel -> (0 < fuel)%nat ->
  exists c ds, dec_loop fuel n acc = (c :: ds) ++ acc /\ Forall digit (c :: ds) /\ decimal 0 (c :: ds) = n /\ (0 < n -> c <> 48).
Proof.
  induction fuel as [|k IH]; intros n acc Hn Hk; [lia|]. cbn [dec_loop]. pose proof (Z.mod_pos_bound n 10 ltac:(lia)) as Hm. pose proof (Z.div_mod n 10 ltac:(lia)) as Hd.
  destruct (Z.ltb_spec n 10).
  - exists (48 + n mod 10), []. rewrite Z.mod_small in * by lia. split; [done|]. split; [repeat constructor; lia|]. split; [cbn; lia|lia].
  - rewrite Nat2Z.inj_succ, Z.pow_succ_r in Hn by lia. destruct k as [|k]; [cbn in Hn; lia|].
    destruct (IH (n / 10) ((48 + n mod 10) :: acc)) as (c & ds & E & Hf & Hv & Hz); [split; [apply Z.div_pos; lia|apply Z.div_lt_upper_bound; lia]|lia|].
    exists c, (ds ++ [48 + n mod 10]). rewrite E. split; [cbn; by rewrite <- app_assoc|]. split; [change (c :: ds ++ ?x) with ((c :: ds) ++ x); apply Forall_app; split; [done|repeat constructor; lia]|].
    split; [|intros _; apply Hz; apply Z.div_str_pos; lia]. change (c :: ds ++ ?x) with ((c :: ds) ++ x). unfold decimal in *. rewrite foldl_app, Hv. cbn [foldl]. lia.
Qed.

Lemma dec_spec n : 0 <= n < 10 ^ 20 -> exists c ds, dec n = c :: ds /\ Forall digit (c :: ds) /\ decimal 0 (c :: ds) = n /\ (0 < n -> c <> 48).
Proof. intros Hn. destruct (dec_loop_spec 20 n [] Hn ltac:(lia)) as (c & ds & E & H). exists c, ds. unfold dec. by rewrite E, app_nil_r. Qed.

(** A number in [sprintf]'s form has no terminator and no CR. *)
Lemma dec_not_in n x : 0 <= n < 10 ^ 20 -> ~ digit x -> x ∉ dec n.
Proof. intros Hn Hx Hin. destruct (dec_spec n Hn) as (c & ds & E & Hf & _). rewrite E in Hin. rewrite Forall_forall in Hf. by apply Hx, Hf. Qed.

Lemma digits_value_decimal ds r : Forall digit ds -> forall a, digits_value a (ds ++ r) = digits_value (decimal a ds) r.
Proof. induction 1 as [|c ds Hc _ IH]; intros a; [done|]. cbn [app digits_value decimal foldl]. rewrite digit_is_digit by done. apply IH. Qed.

Lemma digits_in_decimal ds : Forall digit ds -> forall a, digits_in 10 a ds = decimal a ds.
Proof.
  induction 1 as [|c ds Hc _ IH]; intros a; [done|]. cbn [digits_in decimal foldl]. unfold digit_value. rewrite digit_is_digit by done.
  unfold digit in Hc. rewrite (proj2 (Z.ltb_lt _ 10)) by lia. apply IH.
Qed.

Lemma digit_text c r : digit c -> skip_while is_space (c :: r) = c :: r.
Proof. intros Hc. cbn. unfold is_space, digit in *. destruct (c =? 32) eqn:E1; [lia|]. by replace ((9 <=? c) && (c <=? 13)) with false by lia. Qed.

Lemma digit_no_sign {A} (c : Z) (r : list Z) (f g : list Z -> A) (x : A) : digit c -> match c :: r with 45 :: r => f r | 43 :: r => g r | _ => x end = x.
Proof.
  intros Hc. unfold digit in Hc. destruct c as [|p|p]; [done| |lia].
  do 6 (destruct p as [p|p|]; try done; try lia).
Qed.

Lemma digit_no_prefix {A} (c : Z) (r : list Z) (f : Z -> list Z -> A) (x : A) : digit c -> c <> 48 -> match c :: r with 48 :: y :: r => f y r | _ => x end = x.
Proof. intros Hc Hne. unfold digit in Hc. destruct c as [|p|p]; [done| |lia]. do 6 (destruct p as [p|p|]; try done; try lia). Qed.

(** [atoi] of a number and something else behind it. *)
Lemma atoi_dec n c r : 0 <= n < 2 ^ 31 -> ~ digit c -> atoi (dec n ++ c :: r) = n.
Proof.
  intros Hn Hc. destruct (dec_spec n ltac:(lia)) as (d & ds & E & Hf & Hv & _). unfold atoi. rewrite E. destruct (proj1 (Forall_cons _ _ _) Hf) as [Hd _].
  cbn [app]. rewrite digit_text by done.
  rewrite (digit_no_sign d _ (fun r => - digits_value 0 r) (fun r => digits_value 0 r)) by done.
  change (d :: ds ++ c :: r) with ((d :: ds) ++ c :: r). rewrite digits_value_decimal by done. cbn [digits_value].
  assert (is_digit c = false) as -> by (unfold is_digit, digit in *; lia). unfold int_of_long.
  rewrite Z.min_l, Z.max_r, u32_small, (proj2 (Z.ltb_lt _ _)) by lia. done.
Qed.

(** [strtol] with the base 0 reads it back. *)
Lemma strtol_dec n : 0 <= n < 2 ^ 63 -> strtol 0 (dec n) = Some n.
Proof.
  intros Hn. destruct (Z.eq_dec n 0) as [->|Hne]; [reflexivity|].
  destruct (dec_spec n ltac:(lia)) as (d & ds & E & Hf & Hv & Hz). specialize (Hz ltac:(lia)). unfold strtol, strtox. rewrite E.
  destruct (proj1 (Forall_cons _ _ _) Hf) as [Hd _]. rewrite digit_text, (digit_no_sign d _ (fun r => (true, r)) (fun r => (false, r))) by done.
  assert (Hb : based 0 (d :: ds) = Some (10, d :: ds)).
  { unfold based. rewrite (digit_no_prefix d ds (fun x r => ((x =? 120) || (x =? 88)) && starts_digit 16 r)) by done. cbn [andb orb Z.eqb].
    change (starts_with [48] (d :: ds)) with ((48 =? d) && true). rewrite (proj2 (Z.eqb_neq 48 d)) by lia. cbn [andb starts_digit]. unfold digit_value. rewrite digit_is_digit by done. unfold digit in Hd. by rewrite (proj2 (Z.ltb_lt _ 10)) by lia. }
  rewrite Hb. cbn -[Z.pow]. change (if digit_value d <? 10 then _ else _) with (digits_in 10 0 (d :: ds)). rewrite digits_in_decimal by done. rewrite Hv.
  by replace ((- 2 ^ 63 <=? n) && (n <? 2 ^ 63)) with true by lia.
Qed.

(** ** Lines *)
Lemma starts_with_other c p x s : x <> c -> starts_with (c :: p) (x :: s) = false.
Proof. intros Hx. cbn. by rewrite (proj2 (Z.eqb_neq c x)) by congruence. Qed.

Lemma strstr_cons needle x s : starts_with needle (x :: s) = false -> strstr needle (x :: s) = (i ← strstr needle s; Some (S i)).
Proof. intros E. unfold strstr. cbn [strstr_by]. by rewrite E. Qed.

(** The search for a header skips a line that is not the one. *)
Lemma strstr_line name line rest : 13 ∉ line -> starts_with name rest = false ->
  strstr (CRLF ++ name) (line ++ CRLF ++ rest) = (i ← strstr (CRLF ++ name) rest; Some (length line + 2 + i)%nat).
Proof.
  intros Hl Hn. induction line as [|x line IH].
  - cbn [app]. change (CRLF ++ rest) with (13 :: 10 :: rest). rewrite strstr_cons by (cbn; done).
    rewrite strstr_cons by (by apply starts_with_other). by destruct (strstr _ rest).
  - apply not_elem_of_cons in Hl as [Hx Hl]. cbn [app]. rewrite strstr_cons by (apply starts_with_other; congruence). rewrite IH by done.
    by destruct (strstr _ rest).
Qed.

Lemma strstr_found name line rest : 13 ∉ line -> starts_with name rest = true -> strstr (CRLF ++ name) (line ++ CRLF ++ rest) = Some (length line).
Proof.
  intros Hl Hn. induction line as [|x line IH].
  - cbn [app]. unfold strstr. change (CRLF ++ rest) with (13 :: 10 :: rest). cbn. by rewrite Hn.
  - apply not_elem_of_cons in Hl as [Hx Hl]. cbn [app length]. rewrite strstr_cons by (apply starts_with_other; congruence). by rewrite IH.
Qed.

Lemma strstr_last name line : 13 ∉ line -> strstr (CRLF ++ name) line = None.
Proof.
  intros Hl. induction line as [|x line IH]; [done|]. apply not_elem_of_cons in Hl as [Hx Hl].
  rewrite strstr_cons by (apply starts_with_other; congruence). by rewrite IH.
Qed.
