(* ===== verification/Connection.v ===== *)
(** * Connection: a fiber and its socket

    The HTTP server and client run a fiber per connection.  A fiber works on buffers of its
    context ([Vmbuf.v]), reads what its socket delivers and writes what it accepts, and gives up
    the processor when the socket is not ready.  What the socket delivers between two such times,
    and how much it accepts in each write, is the input of a run; closing idle connections is in
    [TimeoutHandler.v], and a connection that was shut down delivers the end of the input. *)

From stdpp Require Import base numbers functions list gmap.
From Stdlib Require Import ZArith Lia.
From S2P Require Import Prelude Words Os Mempool Memalloc Vmbuf VmbufFacts Cstring.

(** ** Strings in a buffer *)

(** The string at an offset of a buffer. *)
Definition peek_str (ofs : Z) : M (list Z) :=
  r ← vmbuf_get_header;
  if 0 <=? ofs then match c_string (drop (Z.to_nat ofs) (r_bytes r)) with Some s => mret s | None => crash end else crash.

(** [strchrnul] on it: an offset. *)
Definition find_char (c ofs : Z) : M Z := s ← peek_str ofs; mret (ofs + Z.of_nat (length (fst (strchrnul c s)))).

(** [n] bytes from an offset. *)
Definition peek_bytes (ofs : Z) (n : nat) : M (list Z) :=
  r ← vmbuf_get_header;
  if (0 <=? ofs) && (ofs + Z.of_nat n <=? Z.of_nat (length (r_bytes r)))
  then mret (take n (drop (Z.to_nat ofs) (r_bytes r))) else crash.

(** The contents of a buffer. *)
Definition data_of : M (list Z) := w ← vmbuf_wlocpos; peek_bytes 0 (Z.to_nat w).

(** ** Fibers *)

(** What arrives: for each time the socket is ready the pieces that reads return, and how it ends. *)
Abbreviation arrivals := (list (list (list Z) * read_end)).

(** A fiber with the context [C]: its memory, what the socket will deliver, what it will accept in each write,
    and what has been sent. *)
Record fiber (C : Type) := Fiber {
  fb_world : world;
  fb_ctx : C;
  fb_input : arrivals;
  fb_accepts : list Z;
  fb_sent : list Z;
}.
Arguments Fiber {C}.
Arguments fb_world {C}.
Arguments fb_ctx {C}.
Arguments fb_input {C}.
Arguments fb_accepts {C}.
Arguments fb_sent {C}.

(** How a fiber ends: the connection is closed, or kept for the next request; or the fiber waits
    for a socket that does nothing any more. *)
Inductive fiber_end := Closed | Idle | Blocked.

(** [None] is an access outside of a buffer. *)
Definition FB (C A : Type) : Type := fiber C -> option ((fiber_end + A) * fiber C).
#[export] Instance FB_ret {C} : MRet (FB C) := fun A x s => Some (inr x, s).
#[export] Instance FB_bind {C} : MBind (FB C) := fun A B k m s =>
  match m s with
  | Some (inr x, s) => k x s
  | Some (inl e, s) => Some (inl e, s)
  | None => None
  end.
Definition exit {C A} (e : fiber_end) : FB C A := fun s => Some (inl e, s).

Definition get_ctx {C} : FB C C := fun s => Some (inr (fb_ctx s), s).
Definition modify_ctx {C} (f : C -> C) : FB C unit :=
  fun s => Some (inr tt, Fiber (fb_world s) (f (fb_ctx s)) (fb_input s) (fb_accepts s) (fb_sent s)).

(** A buffer of the context. *)
Record field (C : Type) := Field { fld_get : C -> vmbuf; fld_set : C -> vmbuf -> C }.
Arguments Field {C}.
Arguments fld_get {C}.
Arguments fld_set {C}.

Class LawfulField {C} (f : field C) : Prop := {
  fld_get_set : forall c v, fld_get f (fld_set f c v) = v;
  fld_set_get : forall c, fld_set f c (fld_get f c) = c;
  fld_set_set : forall c v v', fld_set f (fld_set f c v) v' = fld_set f c v';
}.

Definition on_buffer {C A} (f : field C) (m : M A) : FB C A :=
  fun s => match m (fb_world s, fld_get f (fb_ctx s)) with
           | Some (x, (w, v)) => Some (inr x, Fiber w (fld_set f (fb_ctx s) v) (fb_input s) (fb_accepts s) (fb_sent s))
           | None => None
           end.

(** What a read has not taken is there for the next one; so is an end that it has not seen. *)
Definition put_back (unread : list (list Z)) (e : read_end) (input : arrivals) : arrivals :=
  match unread, e with
  | [], Eagain => input
  | _, _ => (unread, e) :: input
  end.

(** Each read takes an element of the input or a byte of it. *)
Definition input_size (input : arrivals) : nat := sum_list_with (fun x => S (length (concat (fst x)))) input.

Section Read.
Context `{address_space} (o : os) (stale : Z -> Z -> Z).

(** [vmbuf_read] from the socket. *)
Definition fiber_read {C} (f : field C) : FB C Z := fun s =>
  match fb_input s with
  | [] => Some (inl Blocked, s)
  | (pieces, e) :: input =>
      match on_buffer f (vmbuf_read o stale (S (length (concat pieces))) pieces e) s with
      | Some (inr (res, unread), s) => Some (inr res, Fiber (fb_world s) (fb_ctx s) (put_back unread e input) (fb_accepts s) (fb_sent s))
      | Some (inl x, s) => Some (inl x, s)
      | None => None
      end
  end.
End Read.

(** * Buffers and sockets of a fiber

    What is known of the bytes of a buffer that is edited in place; runs of a fiber; and a read:
    it appends a part of what arrives, whatever the pieces. *)

(** A decidable statement about given bytes. *)
Ltac by_computation := match goal with |- ?P => apply (@bool_decide_unpack P _); vm_compute; exact I end.

(** ** Bytes of a buffer *)

Abbreviation anon_is := (vb_is _mem_funcs_anon_buf (fun _ => True)).

(** A buffer with room for a terminator: the write position is [wl], and the data start with [p]. *)
Definition rq (wl : Z) (p : list Z) (st : world * vmbuf) : Prop := exists cap rl, anon_is wl p rl cap st /\ 0 <= wl < cap.

(** Buffers of this kind do not depend on the allocator. *)
Lemma rq_world wl p w w' v : rq wl p (w, v) -> rq wl p (w', v).
Proof. intros (cap & rl & [? ? ? ? ? ?] & Hw). exists cap, rl. split; [|done]. by split. Qed.

Lemma rq_vbuf c rl st : vbuf _mem_funcs_anon_buf (fun _ => True) c rl st -> rq (Z.of_nat (length c)) c st.
Proof. intros (cap & Hs & Hc). exists cap, rl. split; [done|lia]. Qed.
Lemma vbuf_rq c st : rq (Z.of_nat (length c)) c st -> exists rl, vbuf _mem_funcs_anon_buf (fun _ => True) c rl st.
Proof. intros (cap & rl & Hs & Hc). exists rl, cap. split; [done|lia]. Qed.

Lemma rq_prefix wl p q st : rq wl (p ++ q) st -> rq wl p st.
Proof. intros (cap & rl & Hs & Hw). exists cap, rl. split; [|done]. by eapply vb_is_prefix. Qed.

(** The byte at the write position is part of the buffer. *)
Lemma rq_expose c st : rq (Z.of_nat (length c)) c st -> exists x, rq (Z.of_nat (length c)) (c ++ [x]) st.
Proof.
  intros (cap & rl & Hs & Hw). destruct (expose _ _ _ _ _ _ _ 1 Hs ltac:(lia)) as ([|x [|]] & Hx & Hs'); try done.
  exists x, cap, rl. done.
Qed.

Lemma rq_wlocpos wl p st : rq wl p st -> vmbuf_wlocpos st = Some (wl, st).
Proof. intros (cap & rl & Hs & _). by eapply wlocpos_eval. Qed.

Lemma rq_poke wl a x b y st : rq wl (a ++ x :: b) st -> exists st', poke (Z.of_nat (length a)) [y] st = Some (tt, st') /\ rq wl (a ++ y :: b) st'.
Proof.
  intros (cap & rl & Hs & Hw). destruct (poke_inside _ _ wl a b [x] [y] rl cap st Hs eq_refl) as (st' & E & Hs' & _).
  exists st'. split; [done|]. by exists cap, rl.
Qed.

Lemma rq_peek wl a x b st : rq wl (a ++ x :: b) st -> peek (Z.of_nat (length a)) st = Some (x, st).
Proof. intros (cap & rl & Hs & _). by eapply peek_eval. Qed.

Lemma rq_header wl p st : rq wl p st -> exists r b, vmbuf_get_header st = Some (r, st) /\ r_bytes r = p ++ b.
Proof.
  intros (cap & rl & Hs & _). destruct (vb_header _ _ _ _ _ _ _ Hs) as (r & E & _ & _ & _ & _ & Ht). exists r, (drop (length p) (r_bytes r)).
  split; [done|]. rewrite <- (take_drop (length p) (r_bytes r)) at 1. by rewrite Ht.
Qed.

Lemma rq_peek_str wl a x b st : rq wl (a ++ x ++ 0 :: b) st -> 0 ∉ x -> peek_str (Z.of_nat (length a)) st = Some (x, st).
Proof.
  intros Hs Hx. destruct (rq_header _ _ _ Hs) as (r & t & E & Hr). unfold peek_str. rewrite (bind_eval _ _ _ _ _ E).
  rewrite (proj2 (Z.leb_le 0 _)), Nat2Z.id, Hr, <- app_assoc, drop_app_length, <- app_assoc by lia. cbn [app].
  by rewrite (c_string_app x) by done.
Qed.

Lemma rq_peek_bytes wl a x b st n : rq wl (a ++ x ++ b) st -> n = length x -> peek_bytes (Z.of_nat (length a)) n st = Some (x, st).
Proof.
  intros Hs ->. destruct (rq_header _ _ _ Hs) as (r & t & E & Hr). unfold peek_bytes. rewrite (bind_eval _ _ _ _ _ E).
  rewrite Hr, <- app_assoc, !length_app, (proj2 (Z.leb_le 0 _)), (proj2 (Z.leb_le _ _)) by lia. cbn [andb].
  by rewrite Nat2Z.id, drop_app_length, <- app_assoc, take_app_length.
Qed.

Lemma rq_data c st : rq (Z.of_nat (length c)) c st -> data_of st = Some (c, st).
Proof.
  intros Hs. unfold data_of. rewrite (bind_eval _ _ _ _ _ (rq_wlocpos _ _ _ Hs)), Nat2Z.id.
  apply (rq_peek_bytes (Z.of_nat (length c)) [] c []); [|done]. cbn [app]. by rewrite app_nil_r.
Qed.

Lemma rq_find_char wl a x b st c : rq wl (a ++ x ++ 0 :: b) st -> 0 ∉ x ->
  find_char c (Z.of_nat (length a)) st = Some (Z.of_nat (length (a ++ fst (strchrnul c x))), st).
Proof.
  intros Hs Hx. unfold find_char. rewrite (bind_eval _ _ _ _ _ (rq_peek_str _ _ _ _ _ Hs Hx)). by rewrite length_app, Nat2Z.inj_add.
Qed.

Lemma strchrnul_cases c x : snd (strchrnul c x) = [] \/ exists r, snd (strchrnul c x) = c :: r.
Proof. induction x as [|y x IH]; cbn; [by left|]. destruct (Z.eqb_spec y c) as [->|]; [right; by eexists|]. by destruct (strchrnul c x). Qed.

(** What is from the first [c] on, up to and after the terminator: it starts with that [c], or is the terminator. *)
Lemma strchrnul_split c x b : c <> 0 -> exists d, x ++ 0 :: b = fst (strchrnul c x) ++ d :: tail (snd (strchrnul c x) ++ 0 :: b)
  /\ (d =? 0) = bool_decide (snd (strchrnul c x) = []).
Proof.
  intros Hc. pose proof (strchrnul_app c x) as E. pose proof (strchrnul_cases c x) as Hd.
  destruct (strchrnul c x) as [y z]. cbn [fst snd] in *. subst x. destruct Hd as [->|[r ->]]; rewrite <- app_assoc; cbn.
  - exists 0. done.
  - exists c. split; [done|]. rewrite (proj2 (Z.eqb_neq c 0)) by done. done.
Qed.

Lemma strchrnul_before c x : c ∉ fst (strchrnul c x).
Proof.
  induction x as [|y x IH]; cbn; [apply not_elem_of_nil|]. destruct (Z.eqb_spec y c); [apply not_elem_of_nil|].
  destruct (strchrnul c x). cbn in *. apply not_elem_of_cons. done.
Qed.

Lemma strchrnul_before_in c x d : d ∉ x -> d ∉ fst (strchrnul c x).
Proof. intros Hx Hin. apply Hx. rewrite (strchrnul_app c x). apply elem_of_app. by left. Qed.
Lemma strchrnul_after_in c x d : d ∉ x -> d ∉ snd (strchrnul c x).
Proof. intros Hx Hin. apply Hx. rewrite (strchrnul_app c x). apply elem_of_app. by right. Qed.

(** The byte a search stops at is overwritten by a terminator. *)
Lemma rq_cut wl a x b st c : rq wl (a ++ x ++ 0 :: b) st -> c <> 0 ->
  exists st', poke (Z.of_nat (length (a ++ fst (strchrnul c x)))) [0] st = Some (tt, st')
    /\ rq wl (a ++ fst (strchrnul c x) ++ 0 :: tail (snd (strchrnul c x) ++ 0 :: b)) st'.
Proof.
  intros Hs Hc. destruct (strchrnul_split c x b Hc) as (d & E & _). rewrite E, app_assoc in Hs.
  destruct (rq_poke _ _ _ _ 0 _ Hs) as (st' & E' & Hs'). exists st'. split; [done|]. by rewrite app_assoc.
Qed.

Lemma rq_peek_at wl a x b st c : rq wl (a ++ x ++ 0 :: b) st -> c <> 0 ->
  exists d, peek (Z.of_nat (length (a ++ fst (strchrnul c x)))) st = Some (d, st) /\ (d =? 0) = bool_decide (snd (strchrnul c x) = []).
Proof.
  intros Hs Hc. destruct (strchrnul_split c x b Hc) as (d & E & Hd). rewrite E, app_assoc in Hs. exists d. split; [|done]. by eapply rq_peek.
Qed.

(** ** The text of a buffer *)
Definition text (c : list Z) : list Z := fst (strchrnul 0 c).

Lemma text_zero c : 0 ∉ text c.
Proof. apply strchrnul_before. Qed.

Lemma text_id c : 0 ∉ c -> text c = c.
Proof. intros Hc. unfold text. by rewrite strchrnul_none. Qed.

Lemma text_app a c : 0 ∉ a -> text (a ++ c) = a ++ text c.
Proof.
  induction a as [|x a IH]; intros Ha; [done|]. apply not_elem_of_cons in Ha as [Hx Ha]. unfold text in *. cbn.
  rewrite (proj2 (Z.eqb_neq x 0)) by done. specialize (IH Ha). destruct (strchrnul 0 (a ++ c)). cbn in *. by rewrite IH.
Qed.

Lemma text_split c b : exists b', c ++ 0 :: b = text c ++ 0 :: b'.
Proof.
  unfold text. induction c as [|x c [b' IH]]; [by exists b|]. cbn. destruct (Z.eqb_spec x 0) as [->|]; [by exists (c ++ 0 :: b)|].
  exists b'. destruct (strchrnul 0 c). cbn in *. by rewrite IH.
Qed.

Lemma text_prefix a c : exists r, text (a ++ c) = text a ++ r.
Proof.
  unfold text. induction a as [|x a [r IH]]; [by eexists|]. cbn. destruct (x =? 0); [by exists []|]. exists r.
  destruct (strchrnul 0 (a ++ c)), (strchrnul 0 a). cbn in *. by rewrite IH.
Qed.

Lemma rq_text wl c b st : rq wl (c ++ 0 :: b) st -> peek_str 0 st = Some (text c, st).
Proof.
  destruct (text_split c b) as [b' ->]. intros Hs. apply (rq_peek_str wl [] (text c) b' st Hs). apply text_zero.
Qed.

(** A terminator can be written anywhere in the known bytes; from any offset before a terminator there is a string. *)
Lemma rq_poke_at wl p n st : rq wl p st -> (n < length p)%nat -> exists st', poke (Z.of_nat n) [0] st = Some (tt, st') /\ rq wl (<[n := 0]> p) st'.
Proof.
  intros Hs Hn. destruct (lookup_lt_is_Some_2 p n Hn) as [x Hx]. rewrite <- (take_drop_middle p n x Hx) in Hs.
  destruct (rq_poke _ _ _ _ 0 _ Hs) as (st' & E & Hs'). rewrite length_take_le in E by lia. exists st'. split; [done|].
  by rewrite insert_take_drop.
Qed.

Lemma insert_behind (w pre post : list Z) y n : n = (length w + 1 + length pre)%nat -> <[n := 0]> (w ++ 0 :: pre ++ y :: post) = w ++ 0 :: pre ++ 0 :: post.
Proof.
  intros ->. rewrite insert_app_r_alt by lia. replace (length w + 1 + length pre - length w)%nat with (S (length pre)) by lia.
  change (<[S (length pre) := 0]> (0 :: pre ++ y :: post)) with (0 :: <[length pre := 0]> (pre ++ y :: post)).
  rewrite (insert_app_r_alt pre) by done. by rewrite Nat.sub_diag.
Qed.

Lemma string_from p n k : p !! k = Some 0 -> (n <= k)%nat -> exists a x b, p = a ++ x ++ 0 :: b /\ length a = n /\ 0 ∉ x.
Proof.
  intros Hk Hn. destruct (text_split (take (k - n) (drop n p)) (drop (S k) p)) as [b E].
  exists (take n p), (text (take (k - n) (drop n p))), b. rewrite <- E. split; [|split; [apply length_take_le; apply lookup_lt_Some in Hk; lia|apply text_zero]].
  rewrite app_assoc, take_take_drop. replace (n + (k - n))%nat with k by lia. by rewrite take_drop_middle.
Qed.

(** ** Contents *)
Definition contains (c : list Z) (st : world * vmbuf) : Prop := rq (Z.of_nat (length c)) c st.

Lemma vbuf_world c rl w w' v : vbuf _mem_funcs_anon_buf (fun _ => True) c rl (w, v) -> vbuf _mem_funcs_anon_buf (fun _ => True) c rl (w', v).
Proof. intros (cap & [? ? ? ? ? ?] & Hw). exists cap. split; [|done]. by split. Qed.

Lemma reset_empties c st : contains c st -> exists st', vmbuf_reset st = Some (tt, st') /\ vbuf _mem_funcs_anon_buf (fun _ => True) [] 0 st'.
Proof.
  intros (cap & rl & Hs & Hw). unfold vmbuf_reset. destruct (set_wloc_eval _ _ _ _ _ _ _ 0 Hs) as (st1 & E1 & Hs1 & _).
  rewrite (bind_eval _ _ _ _ _ E1), bind_get. eexists. split; [reflexivity|]. exists cap. split; [|cbn in *; lia].
  destruct Hs1 as [? ? ? ? (r & ? & ? & ? & ? & ?) ?]. split; auto. by exists r.
Qed.
Lemma contains_reset c st : contains c st -> exists st', vmbuf_reset st = Some (tt, st') /\ contains [] st'.
Proof. intros (st' & E & Hst')%reset_empties. exists st'. split; [done|]. exact (rq_vbuf [] 0 st' Hst'). Qed.


(** ** Runs *)

(** The computation ends, without an access outside of the buffers, in a state of [Q]. *)
Definition runs {C A} (m : FB C A) (s : fiber C) (Q : fiber_end + A -> fiber C -> Prop) : Prop := exists r s', m s = Some (r, s') /\ Q r s'.

Lemma fb_bind_eval {C A B} (m : FB C A) (k : A -> FB C B) s x s' : m s = Some (inr x, s') -> (m ≫= k) s = k x s'.
Proof. intros E. unfold mbind, FB_bind. by rewrite E. Qed.
Lemma fb_bind_exit {C A B} (m : FB C A) (k : A -> FB C B) s e s' : m s = Some (inl e, s') -> (m ≫= k) s = Some (inl e, s').
Proof. intros E. unfold mbind, FB_bind. by rewrite E. Qed.

Lemma runs_bind {C A B} (m : FB C A) (k : A -> FB C B) s Q :
  runs m s (fun r s' => match r with inl e => Q (inl e) s' | inr x => runs (k x) s' Q end) -> runs (m ≫= k) s Q.
Proof.
  intros ([e|x] & s' & E & H).
  - exists (inl e), s'. by rewrite (fb_bind_exit _ _ _ _ _ E).
  - unfold runs. by rewrite (fb_bind_eval _ _ _ _ _ E).
Qed.

Lemma runs_mono {C A} (m : FB C A) s (Q Q' : fiber_end + A -> fiber C -> Prop) : runs m s Q -> (forall r s', Q r s' -> Q' r s') -> runs m s Q'.
Proof. intros (r & s' & E & H) HQ. exists r, s'. auto. Qed.

(** ** The buffers of a fiber *)
Definition set_ctx {C} (s : fiber C) (c : C) : fiber C := Fiber (fb_world s) c (fb_input s) (fb_accepts s) (fb_sent s).
Definition buffer_of {C} (f : field C) (s : fiber C) : world * vmbuf := (fb_world s, fld_get f (fb_ctx s)).
Definition put_buffer {C} (f : field C) (s : fiber C) (st : world * vmbuf) : fiber C :=
  Fiber (fst st) (fld_set f (fb_ctx s) (snd st)) (fb_input s) (fb_accepts s) (fb_sent s).

Section Fields.
Context {C : Type} (f : field C) `{!LawfulField f}.

Lemma on_buffer_eval {A} (m : M A) s x st : m (buffer_of f s) = Some (x, st) -> on_buffer f m s = Some (inr x, put_buffer f s st).
Proof. intros E. unfold on_buffer. fold (buffer_of f s). rewrite E. by destruct st. Qed.

Lemma put_buffer_same s : put_buffer f s (buffer_of f s) = s.
Proof. unfold put_buffer. cbn. rewrite fld_set_get. by destruct s. Qed.

Lemma buffer_of_put s st : buffer_of f (put_buffer f s st) = st.
Proof. unfold buffer_of. cbn. rewrite fld_get_set. by destruct st. Qed.

Lemma on_buffer_read {A} (m : M A) s x : m (buffer_of f s) = Some (x, buffer_of f s) -> on_buffer f m s = Some (inr x, s).
Proof. intros E%on_buffer_eval. by rewrite put_buffer_same in E. Qed.
End Fields.

(** ** What arrives *)
Definition bytes_of (input : list (list (list Z) * read_end)) : list Z := concat (concat (fst <$> input)).
(** A read returns something, or the end. *)
Definition input_ok (input : list (list (list Z) * read_end)) : Prop := Forall (fun x => Forall (fun p => p <> []) (fst x)) input.
(** The client keeps the connection open. *)
Definition stays_open (input : list (list (list Z) * read_end)) : Prop := Forall (fun x => snd x = Eagain) input.

Lemma bytes_of_put_back unread e input : bytes_of (put_back unread e input) = concat unread ++ bytes_of input.
Proof. unfold put_back. destruct unread, e; try done; unfold bytes_of; cbn; by rewrite <- ?app_assoc, ?concat_app. Qed.

Lemma input_size_put_back unread e input : (input_size (put_back unread e input) <= S (length (concat unread)) + input_size input)%nat.
Proof. unfold put_back, input_size. destruct unread, e; cbn [sum_list_with fst]; lia. Qed.
Lemma Forall_put_back (P : list (list Z) * read_end -> Prop) unread e input : P (unread, e) -> Forall P input -> Forall P (put_back unread e input).
Proof. intros Hu Hi. unfold put_back. destruct unread, e; try done; by apply Forall_cons. Qed.

Section Facts.
Context `{address_space} (o : os) (stale : Z -> Z -> Z) (limit : Z) (Hlimit : 4096 <= limit <= 2 ^ 60) (Hgrow : can_grow_to o (limit + 4096)).

Local Instance anon_grows : Growable o stale _mem_funcs_anon_buf (fun _ => True) limit := anon_growable o stale limit (proj2 Hlimit) Hgrow.

Lemma contains_sprintf c t st : contains c st -> Z.of_nat (length t) <= INT_MAX -> 2 * Z.of_nat (length (c ++ t)) + VMBUF_HEADER <= limit ->
  exists st', vmbuf_sprintf o stale (Some t) st = Some (0, st') /\ contains (c ++ t) st'.
Proof.
  intros [rl Hv]%vbuf_rq Ht Hl. destruct (sprintf_eval o stale _ _ limit (proj2 Hlimit) c rl st t Hv Ht Hl) as (st' & E & Hv').
  exists st'. split; [done|by eapply rq_vbuf].
Qed.
Lemma contains_strcpy c t st : contains c st -> 2 * Z.of_nat (length (c ++ t)) + VMBUF_HEADER <= limit ->
  exists st', vmbuf_strcpy o stale t st = Some (0, st') /\ contains (c ++ t) st'.
Proof.
  intros [rl Hv]%vbuf_rq Hl. destruct (strcpy_eval o stale _ _ limit (proj2 Hlimit) c rl st t Hv Hl) as (st' & E & Hv').
  exists st'. split; [done|by eapply rq_vbuf].
Qed.


Lemma contains_strftime c t st : contains c st -> t <> [] -> Z.of_nat (length t) < 4096 -> 2 * (Z.of_nat (length (c ++ t)) + 4096) + VMBUF_HEADER <= limit ->
  exists st', vmbuf_strftime o stale 2 t st = Some (0, st') /\ contains (c ++ t) st'.
Proof.
  intros [rl Hv]%vbuf_rq Ht Hlen Hl. destruct (strftime_eval o stale _ _ limit (proj2 Hlimit) c rl st t Hv Ht Hlen Hl) as (st' & E & Hv').
  exists st'. split; [done|by eapply rq_vbuf].
Qed.

(** ** A read *)

(** No read ends in a CR. *)
Definition ends_clean (d : list Z) : Prop := last d <> Some 13.
Definition no_cr_end (input : arrivals) : Prop := Forall (fun x => Forall ends_clean (fst x)) input.

Lemma concat_ends_clean l : Forall ends_clean l -> concat l <> [] -> ends_clean (concat l).
Proof.
  unfold ends_clean. induction l as [|x l IH]; [done|]. intros [Hx Hl]%Forall_cons Hne. cbn in *. rewrite last_app.
  destruct (concat l) as [|y r] eqn:E; [done|]. specialize (IH Hl ltac:(done)). by destruct (last (y :: r)) eqn:El; [|rewrite last_None in El].
Qed.

(** [d] has been received into the buffer [f]; nothing else has changed. *)
Record received {C} (f : field C) (d : list Z) (s s' : fiber C) : Prop := {
  rc_bytes : bytes_of (fb_input s) = d ++ bytes_of (fb_input s');
  rc_accepts : fb_accepts s' = fb_accepts s;
  rc_sent : fb_sent s' = fb_sent s;
  rc_ctx : exists v, fb_ctx s' = fld_set f (fb_ctx s) v;
  rc_input : input_ok (fb_input s) -> input_ok (fb_input s');
  rc_open : stays_open (fb_input s) -> stays_open (fb_input s');
  rc_clean : no_cr_end (fb_input s) -> no_cr_end (fb_input s') /\ (d <> [] -> ends_clean d);
}.

Section Read.
Context {C : Type} (f : field C) `{!LawfulField f}.

Lemma received_trans d d' s1 s2 s3 : received f d s1 s2 -> received f d' s2 s3 -> received f (d ++ d') s1 s3.
Proof.
  intros [Hb Ha Hs [v Hv] Hi Ho Hc] [Hb' Ha' Hs' [v' Hv'] Hi' Ho' Hc']. split; [by rewrite Hb, Hb', app_assoc|congruence|congruence| |auto|auto|].
  - exists v'. by rewrite Hv', Hv, fld_set_set.
  - intros H1. destruct (Hc H1) as [H2 Hd]. destruct (Hc' H2) as [H3 Hd']. split; [done|]. intros Hne. unfold ends_clean in *. rewrite last_app.
    destruct d' as [|x d']; [rewrite app_nil_r in Hne; auto|]. specialize (Hd' ltac:(done)). by destruct (last (x :: d')) eqn:E; [|rewrite last_None in E].
Qed.

Lemma received_nil s st : received f [] s (put_buffer f s st).
Proof. split; try done. by exists (snd st). Qed.

Lemma received_refl s : received f [] s s.
Proof. pose proof (received_nil s (buffer_of f s)) as Hr. by rewrite (put_buffer_same f) in Hr. Qed.

Lemma fiber_read_runs c s : contains c (buffer_of f s) -> input_ok (fb_input s) ->
  2 * Z.of_nat (length (c ++ bytes_of (fb_input s))) + VMBUF_HEADER <= limit ->
  runs (fiber_read o stale f) s (fun r s' => match r with
    | inl _ => fb_input s = []
    | inr res => fb_input s <> [] /\ (stays_open (fb_input s) -> res = 1)
        /\ exists d, contains (c ++ d) (buffer_of f s') /\ received f d s s' /\ (0 < res -> (input_size (fb_input s') < input_size (fb_input s))%nat)
    end).
Proof.
  intros Hr Hi Hf. unfold runs, fiber_read. destruct (fb_input s) as [|[pieces e] input] eqn:Ei; [by eexists _, _|].
  pose proof Hi as [Hne Hi']%Forall_cons. cbn [fst] in Hne. apply vbuf_rq in Hr as [rl Hv].
  assert (Hb : bytes_of ((pieces, e) :: input) = concat pieces ++ bytes_of input) by (unfold bytes_of; cbn; by rewrite concat_app).
  rewrite Hb, !length_app in Hf.
  destruct (read_eval o stale _ _ limit (proj2 Hlimit) e (S (length (concat pieces))) pieces c rl (buffer_of f s) Hv Hne)
    as (st & res & un & d & E & Hcat & Hv' & Hd & Hres & k & Hk & Hun);
    [lia|lia|]. rewrite (on_buffer_eval f _ _ _ _ E). eexists _, _. split; [reflexivity|]. cbn beta iota.
  split; [done|]. split; [intros [He _]%Forall_cons; cbn in He; subst e; destruct Hres as [[-> _]|[_ ->]]; done|].
  exists d. split; [|split].
  - pose proof (buffer_of_put f s st) as Eb. unfold buffer_of in *. cbn in *. rewrite Eb. by eapply rq_vbuf.
  - split; rewrite ?Ei; cbn [fb_input fb_accepts fb_sent fb_ctx put_buffer]; try done.
    + by rewrite bytes_of_put_back, app_assoc, <- Hcat.
    + by exists (snd st).
    + intros _. apply Forall_put_back; [|done]. cbn. subst un. by apply Forall_drop.
    + intros [He Ho]%Forall_cons. by apply Forall_put_back.
    + intros [He Ho]%Forall_cons. cbn in He. split; [apply Forall_put_back; [|done]; cbn; subst un; by apply Forall_drop|].
      intros Hne'. rewrite Hk. apply concat_ends_clean; [by apply Forall_take|by rewrite <- Hk].
  - intros H1. cbn [fb_input]. unfold input_size at 2. cbn [sum_list_with fst]. fold (input_size input). apply (f_equal length) in Hcat. rewrite length_app in Hcat.
    destruct Hres as [[-> Hnil]|[-> ->]].
    + pose proof (input_size_put_back un e input). assert (0 < length d)%nat by (destruct d; [done|cbn; lia]). lia.
    + destruct e; cbn [read_code] in H1; [lia| |lia]. cbn [put_back]. lia.
Qed.
End Read.
End Facts.

(** ** The first empty line *)
Lemma first_empty_line empty head body d z i : 0 ∉ head ++ empty -> strstr empty (head ++ empty) = Some (length head) ->
  head ++ empty ++ body = d ++ z -> strstr empty (text d) = Some i -> i = length head /\ exists w, d = head ++ empty ++ w /\ body = w ++ z.
Proof.
  intros H0 Hfirst Hb Hi. assert (Hf : strstr empty (text (d ++ z)) = Some (length head)).
  { rewrite <- Hb, app_assoc, text_app by done. by apply strstr_extend. }
  destruct (text_prefix d z) as [r Hr]. rewrite Hr in Hf. pose proof (strstr_extend _ _ r _ Hi) as Hi'. rewrite Hi' in Hf. injection Hf as ->. split; [done|].
  pose proof (strstr_bound _ _ _ Hi) as Hbound. assert (Hlen : (length (head ++ empty) <= length d)%nat).
  { rewrite length_app. pose proof (f_equal length (strchrnul_app 0 d)) as L. rewrite length_app in L. unfold text in Hbound. lia. }
  exists (drop (length (head ++ empty)) d). rewrite app_assoc in Hb |- *. pose proof (f_equal (take (length (head ++ empty))) Hb) as E.
  rewrite take_app_length, take_app_le in E by done. rewrite E at 1. rewrite take_drop. split; [done|].
  pose proof (f_equal (drop (length (head ++ empty))) Hb) as E'. by rewrite drop_app_length, drop_app_le in E' by done.
Qed.

(** If the line is there it is found. *)
Lemma empty_line_found empty head body : 0 ∉ head ++ empty -> strstr empty (head ++ empty) = Some (length head) ->
  strstr empty (text (head ++ empty ++ body)) = Some (length head).
Proof. intros H0 Hf. rewrite app_assoc, text_app by done. by apply strstr_extend. Qed.
