(* ===== verification/HttpServer.v ===== *)
(** * HttpServer: one connection of the server ([include/http_server.h], [src/http_server.c])

    The fiber of a connection reads a request into a [vmbuf], takes it apart in place, calls the
    user's function and writes the response.  The model runs on the buffers of [Vmbuf.v]; pointers
    into the request are offsets. *)

From Stdlib Require Import String.
From stdpp Require Import base numbers list gmap.
From Stdlib Require Import ZArith Lia.
From S2P Require Import Prelude Words Os Mempool Memalloc Vmbuf Cstring HttpText Connection.

Definition MIN_HTTP_REQ_SIZE : Z := 5.

(** *** Strings *)
Definition HEAD : list Z := str "HEAD ".
Definition GET : list Z := str "GET ".
Definition POST : list Z := str "POST ".
Definition PUT : list Z := str "PUT ".
Definition HTTP_SERVER_VER : list Z := str "HTTP/1.1".
Definition HTTP_SERVER_NAME : list Z := str "ribs2.0".
Definition CONNECTION_KEEPALIVE : list Z := str "Keep-Alive".
Definition SET_COOKIE : list Z := CRLF ++ str "Set-Cookie: ".
Definition HTTP_LOCATION : list Z := CRLF ++ str "Location: ".
Definition CACHE_CONTROL : list Z := CRLF ++ str "Cache-Control: ".
Definition PRAGMA : list Z := CRLF ++ str "Pragma: ".
Definition EXPIRES : list Z := CRLF ++ str "Expires: ".
Definition HTTP_STATUS_100 : list Z := str "100 Continue".
Definition EXPECT_100 : list Z := CRLF ++ str "Expect: 100".
Definition HTTP_STATUS_411 : list Z := str "411 Length Required".
Definition HTTP_STATUS_413 : list Z := str "413 Request Entity Too Large".
Definition HTTP_STATUS_501 : list Z := str "501 Not Implemented".
Definition HTTP_CONTENT_TYPE_TEXT_PLAIN : list Z := str "text/plain".
Definition HTTP_1_1 : list Z := str " HTTP/1.1".
Definition HTTP_SCHEME : list Z := str "http://".
Definition quote : list Z := [34].
Definition COOKIE_VERSION : list Z := str "Version=" ++ quote ++ str "1" ++ quote.

(** ** State *)

(** [struct http_server_context]; [uri], [headers], [query] and [content] are offsets into the
    request. *)
Record http_server_context := HttpServerContext {
  request : vmbuf;
  header : vmbuf;
  payload : vmbuf;
  uri : Z;
  headers : Z;
  query : Z;
  content : option Z;
  content_len : Z;
  persistent : bool;
}.

Definition with_request c v := HttpServerContext v (header c) (payload c) (uri c) (headers c) (query c) (content c) (content_len c) (persistent c).
Definition with_header c v := HttpServerContext (request c) v (payload c) (uri c) (headers c) (query c) (content c) (content_len c) (persistent c).
Definition with_payload c v := HttpServerContext (request c) (header c) v (uri c) (headers c) (query c) (content c) (content_len c) (persistent c).
Definition with_uri c u h q := HttpServerContext (request c) (header c) (payload c) u h q (content c) (content_len c) (persistent c).
Definition with_content c x n := HttpServerContext (request c) (header c) (payload c) (uri c) (headers c) (query c) x n (persistent c).
Definition with_persistent c b := HttpServerContext (request c) (header c) (payload c) (uri c) (headers c) (query c) (content c) (content_len c) b.

Abbreviation hs := (fiber http_server_context).
Abbreviation HS := (FB http_server_context).

(** The buffers of the context. *)
Definition request_field : field http_server_context := Field request with_request.
Definition header_field : field http_server_context := Field header with_header.
Definition payload_field : field http_server_context := Field payload with_payload.
#[export] Instance request_lawful : LawfulField request_field.
Proof. by split; intros []. Qed.
#[export] Instance header_lawful : LawfulField header_field.
Proof. by split; intros []. Qed.
#[export] Instance payload_lawful : LawfulField payload_field.
Proof. by split; intros []. Qed.

Definition on_request {A} : M A -> HS A := on_buffer request_field.
Definition on_header {A} : M A -> HS A := on_buffer header_field.
Definition on_payload {A} : M A -> HS A := on_buffer payload_field.

Definition check_persistent (p : list Z) : bool :=
  let conn := strstr CONNECTION p in
  let value_is x := match conn with Some i => starts_with_nocase x (drop (i + length CONNECTION) p) | None => false end in
  match strstr HTTP_1_1 p with
  | Some _ => match conn with None => true | Some _ => negb (value_is CONNECTION_CLOSE) end
  | None => value_is CONNECTION_KEEPALIVE
  end.

Section Server.
Context `{address_space} (o : os) (stale : Z -> Z -> Z).

(** ** Responses *)
Definition header_sprintf (text : list Z) : HS unit := on_header (vmbuf_sprintf o stale (Some text));; mret tt.
Definition connection_value (c : http_server_context) : list Z := if persistent c then CONNECTION_KEEPALIVE else CONNECTION_CLOSE.

Definition http_server_header_start (status content_type : list Z) : HS unit :=
  c ← get_ctx;
  header_sprintf (HTTP_SERVER_VER ++ str " " ++ status ++ CRLF ++ str "Server: " ++ HTTP_SERVER_NAME ++ CRLF
                  ++ str "Content-Type: " ++ content_type ++ CONNECTION ++ connection_value c).

Definition http_server_header_start_no_body (status : list Z) : HS unit :=
  c ← get_ctx;
  header_sprintf (HTTP_SERVER_VER ++ str " " ++ status ++ CRLF ++ str "Server: " ++ HTTP_SERVER_NAME ++ CONNECTION ++ connection_value c).

Definition http_server_header_close : HS unit := on_header (vmbuf_strcpy o stale CRLFCRLF);; mret tt.

Definition http_server_header_no_cache : HS unit :=
  header_sprintf (CACHE_CONTROL ++ str "no-cache, no-store, must-revalidate");;
  header_sprintf (PRAGMA ++ str "no-cache");;
  header_sprintf (EXPIRES ++ str "0").

Definition http_server_set_cookie (name value : list Z) (max_age : Z) (path domain : option (list Z)) : HS unit :=
  header_sprintf (SET_COOKIE ++ name ++ str "=" ++ quote ++ value ++ quote);;
  match path with Some p => header_sprintf (str ";Path=" ++ p) | None => mret tt end;;
  (if max_age =? 0 then mret tt else header_sprintf (str ";Max-Age=" ++ dec max_age));;
  match domain with Some d => header_sprintf (str ";Domain=" ++ d) | None => mret tt end;;
  header_sprintf (str ";" ++ COOKIE_VERSION).

Definition http_server_set_session_cookie (name value : list Z) (path : option (list Z)) : HS unit :=
  http_server_set_cookie name value 0 path None.

Definition http_server_begin_cookie (name : list Z) : HS unit := header_sprintf (SET_COOKIE ++ name ++ str "=" ++ quote).

(** [time] is what [strftime] makes of [expires]; the fuel bounds the rounds of [vmbuf_strftime]. *)
Definition http_server_end_cookie (fuel : nat) (time domain path : list Z) : HS unit :=
  header_sprintf (quote ++ str ";Path=" ++ path ++ str ";Domain=" ++ domain ++ str ";Expires=");;
  on_header (vmbuf_strftime o stale fuel time);; mret tt.

Definition http_server_header_content_length : HS unit :=
  n ← on_payload vmbuf_wlocpos; header_sprintf (CONTENT_LENGTH ++ dec n).

Definition http_server_response (status content_type : list Z) : HS unit :=
  on_header vmbuf_reset;;
  http_server_header_start status content_type;;
  http_server_header_content_length;;
  http_server_header_close.

(** [text] is what the format and its arguments produce. *)
Definition http_server_response_vsprintf (status content_type : list Z) (text : option (list Z)) : HS unit :=
  on_header vmbuf_reset;;
  on_payload vmbuf_reset;;
  http_server_header_start status content_type;;
  on_payload (vmbuf_vsprintf o stale text);;
  http_server_header_content_length;;
  http_server_header_close.

Definition http_server_header_vredirect (text : option (list Z)) : HS unit :=
  on_header (vmbuf_strcpy o stale HTTP_LOCATION);;
  on_header (vmbuf_vsprintf o stale text);; mret tt.

Definition http_server_vredirect (status content_type : list Z) (text : option (list Z)) : HS unit :=
  on_header vmbuf_reset;;
  http_server_header_start status content_type;;
  http_server_header_vredirect text;;
  http_server_header_content_length;;
  http_server_header_close.

(** ** The socket *)

(** The loop of [_http_server_write] over its two vectors.  A number is what [writev] returns:
    -1 is [EAGAIN], other negative numbers are errors.  Gives the result, what was sent, and the
    numbers left; [None] is a socket that does nothing any more. *)
Fixpoint write_loop (accepts : list Z) (iov0 iov1 : list Z) : option Z * list Z * list Z :=
  match accepts with
  | [] => (None, [], [])
  | n :: accepts =>
      if n <? 0 then if n =? -1 then write_loop accepts iov0 iov1 else (Some (-1), [], accepts)
      else
        let n := Z.to_nat (Z.min n (Z.of_nat (length (iov0 ++ iov1)))) in
        let sent := take n (iov0 ++ iov1) in
        if (length iov0 <=? n)%nat then
          let rest := drop (n - length iov0) iov1 in
          match rest with
          | [] => (Some 0, sent, accepts)
          | _ => let '(r, more, accepts) := write_loop accepts rest [] in (r, sent ++ more, accepts)
          end
        else let '(r, more, accepts) := write_loop accepts (drop n iov0) iov1 in (r, sent ++ more, accepts)
  end.

Definition send_vectors (h p : list Z) : HS Z := fun s =>
  let '(r, sent, accepts) := write_loop (fb_accepts s) h p in
  let c := match r with Some (-1) => with_persistent (fb_ctx s) false | _ => fb_ctx s end in
  let s := Fiber (fb_world s) c (fb_input s) accepts (fb_sent s ++ sent) in
  match r with Some r => Some (inr r, s) | None => Some (inl Blocked, s) end.

Definition _http_server_write : HS Z :=
  h ← on_header data_of; p ← on_payload data_of; send_vectors h p.

Definition _http_server_read : HS Z := fiber_read o stale request_field.

Section Fiber.
Context (max_req_size : Z).

Definition READ_FROM_SOCKET : HS unit :=
  res ← _http_server_read;
  if res <=? 0 then exit Closed
  else
    w ← on_request vmbuf_wlocpos;
    if w >? max_req_size then
      modify_ctx (fun c => with_persistent c false);;
      http_server_response HTTP_STATUS_413 HTTP_CONTENT_TYPE_TEXT_PLAIN;;
      _http_server_write;;
      exit Closed
    else mret tt.

(** [while (!done) READ_FROM_SOCKET] *)
Fixpoint read_until (fuel : nat) (done : M bool) : HS unit :=
  match fuel with
  | O => fun _ => None
  | S k => b ← on_request done; if (b : bool) then mret tt else READ_FROM_SOCKET;; read_until k done
  end.
Definition read_while_not (done : M bool) : HS unit := fun s => read_until (S (input_size (fb_input s))) done s.

(** *** Taking the request apart *)

(** From the method to the end of the first line: the address, and where the headers start. *)
Definition parse_request_line : M (Z * Z) :=
  p ← find_char 32 0;
  poke p [0];;
  let uri := p + 1 in
  p ← find_char 13 uri;
  b ← peek p;
  let headers := if b =? 0 then p else p + Z.of_nat (length CRLF) in
  poke p [0];;
  p ← find_char 32 uri;
  poke p [0];;
  mret (uri, headers).

(** The part of [http_server_process_request] before the user's function. *)
Definition split_uri (uri : Z) : M (Z * Z) :=
  q ← find_char 63 uri;
  b ← peek q;
  q ← (if b =? 0 then mret q else poke q [0];; mret (q + 1));
  s ← peek_str uri;
  uri ← (if starts_with HTTP_SCHEME s then find_char 47 (uri + Z.of_nat (length HTTP_SCHEME)) else mret uri);
  mret (uri, q).

Context (user_func : HS unit).

Definition http_server_process_request (uri headers : Z) : HS unit :=
  '(uri, q) ← on_request (split_uri uri);
  modify_ctx (fun c => with_uri c uri headers q);;
  user_func.

(** The last four bytes of the request are the end of the headers. *)
Definition ends_with_headers : M bool :=
  w ← vmbuf_wlocpos; b ← peek_bytes (w - Z.of_nat (length CRLFCRLF)) (length CRLFCRLF); mret (bool_decide (b = CRLFCRLF)).

Definition handle_get : HS unit :=
  read_while_not ends_with_headers;;
  p ← on_request (w ← vmbuf_wlocpos; poke (w - Z.of_nat (length CRLFCRLF)) [0];; peek_str 0);
  modify_ctx (fun c => with_persistent c (check_persistent p));;
  '(uri, headers) ← on_request parse_request_line;
  modify_ctx (fun c => with_content c None 0);;
  http_server_process_request uri headers.

(** [*vmbuf_wloc(request) = 0], and the test for the end of the headers. *)
Definition has_headers : M bool := vmbuf_nul;; s ← peek_str 0; mret (bool_decide (is_Some (strstr CRLFCRLF s))).

Definition has_content (content_ofs content_length : Z) : M bool :=
  w ← vmbuf_wlocpos; mret (u64 (content_ofs + content_length) <=? w).

(** The rest of POST and PUT once the length is known: wait for the content, then as for GET. *)
Definition handle_content (content_ofs content_length : Z) : HS unit :=
  read_while_not (has_content content_ofs content_length);;
  '(uri, headers) ← on_request parse_request_line;
  on_request (poke (u64 (content_ofs + content_length)) [0]);;
  modify_ctx (fun c => with_content c (Some content_ofs) (u32 content_length));;
  http_server_process_request uri headers.

(** [Expect: 100-continue] is answered before the content is read. *)
Definition expect_continue (s : list Z) : HS unit :=
  if bool_decide (is_Some (strstr EXPECT_100 s)) then
    header_sprintf (HTTP_SERVER_VER ++ str " " ++ HTTP_STATUS_100 ++ CRLFCRLF);;
    res ← _http_server_write;
    if res <? 0 then exit Closed else on_header vmbuf_reset
  else mret tt.

(** The headers [s] of POST and PUT. *)
Definition handle_post_headers (content_ofs : Z) (s : list Z) : HS unit :=
  expect_continue s;;
  modify_ctx (fun c => with_persistent c (check_persistent s));;
  match strcasestr CONTENT_LENGTH s with
  | None => http_server_response HTTP_STATUS_411 HTTP_CONTENT_TYPE_TEXT_PLAIN
  | Some j => handle_content content_ofs (u64 (atoi (drop (j + length CONTENT_LENGTH) s)))
  end.

Definition handle_post : HS unit :=
  read_while_not has_headers;;
  s ← on_request (peek_str 0);
  match strstr CRLFCRLF s with
  | None => fun _ => None
  | Some i =>
      on_request (poke (Z.of_nat i) [0]);;
      s ← on_request (peek_str 0);
      handle_post_headers (Z.of_nat (i + length CRLFCRLF)) s
  end.

(** The response is written, and the connection is kept or closed. *)
Definition finish_request : HS unit :=
  w ← on_header vmbuf_wlocpos;
  (if w >? 0 then _http_server_write else mret 0);;
  c ← get_ctx;
  exit (if persistent c then Idle else Closed).

Definition has_method : M bool := w ← vmbuf_wlocpos; mret (w >? MIN_HTTP_REQ_SIZE).

Definition method_is (names : list (list Z)) : M bool :=
  l ← data_of; mret (existsb (fun name => starts_with name l) names).

Record http_server := HttpServer { init_request_size : Z; init_header_size : Z; init_payload_size : Z }.

Definition http_server_fiber_main (server : http_server) : HS unit :=
  modify_ctx (fun c => with_persistent c false);;
  on_request (vmbuf_init o stale (init_request_size server));;
  on_header (vmbuf_init o stale (init_header_size server));;
  on_payload (vmbuf_init o stale (init_payload_size server));;
  READ_FROM_SOCKET;;
  read_while_not has_method;;
  get ← on_request (method_is [GET; HEAD]);
  post ← on_request (method_is [POST; PUT]);
  (if (get : bool) then handle_get
   else if (post : bool) then handle_post
   else http_server_response HTTP_STATUS_501 HTTP_CONTENT_TYPE_TEXT_PLAIN);;
  finish_request.
End Fiber.
End Server.
