(* ===== verification/HttpServerFacts.v ===== *)
(** * HttpServerFacts: requests in their buffer, and what the fiber of a connection does *)

From Stdlib Require Import String.
From stdpp Require Import base numbers functions list gmap.
From Stdlib Require Import ZArith Lia.
From S2P Require Import Prelude Words Os Mempool Memalloc Vmbuf VmbufFacts Cstring HttpText Connection HttpServer.

(** * Taking a request apart in its buffer

    The request is edited in place: separators are overwritten by terminators.  Each step of the
    parser is described by what is known of the bytes of the buffer before and after it. *)

(** ** The request line *)

(** After a method and a space: the first line up to its CR, the address up to the space. *)
Definition line_of (rest : list Z) : list Z := fst (strchrnul 13 rest).
Definition target_of (rest : list Z) : list Z := fst (strchrnul 32 (line_of rest)).
(** Where the headers start, relative to [rest]. *)
Definition headers_ofs (rest : list Z) : nat :=
  if decide (snd (strchrnul 13 rest) = []) then length rest else length (line_of rest) + length CRLF.
(** What is behind the terminator of the address. *)
Definition after_target (rest b : list Z) : list Z :=
  tail (snd (strchrnul 32 (line_of rest)) ++ 0 :: tail (snd (strchrnul 13 rest) ++ 0 :: b)).

Lemma parse_request_line_eval wl m rest b st : rq wl (m ++ 32 :: rest ++ 0 :: b) st -> 32 ∉ m -> 0 ∉ m -> 0 ∉ rest ->
  exists st', parse_request_line st = Some ((Z.of_nat (length (m ++ [0])), Z.of_nat (length (m ++ [0]) + headers_ofs rest)), st')
    /\ rq wl ((m ++ [0]) ++ target_of rest ++ 0 :: after_target rest b) st'.
Proof.
  intros Hs Hm Hm0 Hr. unfold parse_request_line.
  assert (E : find_char 32 0 st = Some (Z.of_nat (length m), st)).
  { pose proof (rq_find_char wl [] (m ++ 32 :: rest) b st 32) as F. rewrite strchrnul_found in F by done. apply F.
    - cbn [app]. by rewrite <- app_assoc.
    - rewrite elem_of_app, elem_of_cons. intuition lia. }
  rewrite (bind_eval _ _ _ _ _ E).
  destruct (rq_poke _ _ _ _ 0 _ Hs) as (st1 & E1 & Hs1). rewrite (bind_eval _ _ _ _ _ E1). cbv zeta.
  replace (Z.of_nat (length m) + 1) with (Z.of_nat (length (m ++ [0]))) by (rewrite length_app; cbn; lia).
  change (m ++ 0 :: rest ++ 0 :: b) with (m ++ [0] ++ rest ++ 0 :: b) in Hs1. rewrite app_assoc in Hs1. set (a := m ++ [0]) in *.
  rewrite (bind_eval _ _ _ _ _ (rq_find_char _ _ _ _ _ 13 Hs1 Hr)).
  destruct (rq_peek_at _ _ _ _ _ 13 Hs1 ltac:(lia)) as (d & E2 & Hd). rewrite (bind_eval _ _ _ _ _ E2).
  destruct (rq_cut _ _ _ _ _ 13 Hs1 ltac:(lia)) as (st2 & E3 & Hs2). rewrite (bind_eval _ _ _ _ _ E3).
  fold (line_of rest) in *. pose proof (strchrnul_before_in 13 rest 0 Hr : 0 ∉ line_of rest) as Hl.
  rewrite (bind_eval _ _ _ _ _ (rq_find_char _ _ _ _ _ 32 Hs2 Hl)).
  destruct (rq_cut _ _ _ _ _ 32 Hs2 ltac:(lia)) as (st3 & E4 & Hs3). rewrite (bind_eval _ _ _ _ _ E4).
  exists st3. split; [|exact Hs3]. unfold mret, ST_ret. do 3 f_equal. rewrite Hd. unfold headers_ofs, line_of.
  pose proof (strchrnul_app 13 rest) as Hap. case_bool_decide as Hz; case_decide; try done; rewrite length_app; [|lia].
  rewrite Hap at 2. rewrite Hz, app_nil_r. lia.
Qed.

(** ** The address *)
Definition scheme_stripped (path : list Z) : list Z :=
  if starts_with HTTP_SCHEME path then snd (strchrnul 47 (drop (length HTTP_SCHEME) path)) else path.
Definition path_of (target : list Z) : list Z := scheme_stripped (fst (strchrnul 63 target)).
Definition query_of (target : list Z) : list Z := tail (snd (strchrnul 63 target)).


Lemma split_uri_eval wl a t b st : rq wl (a ++ t ++ 0 :: b) st -> 0 ∉ t ->
  exists u q st', split_uri (Z.of_nat (length a)) st = Some ((u, q), st')
    /\ rq wl (a ++ fst (strchrnul 63 t) ++ 0 :: tail (snd (strchrnul 63 t) ++ 0 :: b)) st'
    /\ peek_str u st' = Some (path_of t, st') /\ peek_str q st' = Some (query_of t, st').
Proof.
  intros Hs Ht. unfold split_uri, path_of, query_of. rewrite (bind_eval _ _ _ _ _ (rq_find_char _ _ _ _ _ 63 Hs Ht)).
  destruct (rq_peek_at _ _ _ _ _ 63 Hs ltac:(lia)) as (d & E & Hd). rewrite (bind_eval _ _ _ _ _ E), Hd.
  pose proof (strchrnul_before_in 63 t 0 Ht) as Hp0. pose proof (strchrnul_after_in 63 t 0 Ht) as Hq0.
  pose proof (strchrnul_app 63 t) as Hap. destruct (strchrnul 63 t) as [p z]. cbn [fst snd] in *.
  assert (exists q st1, (if bool_decide (z = []) then mret (Z.of_nat (length (a ++ p))) else poke (Z.of_nat (length (a ++ p))) [0];; mret (Z.of_nat (length (a ++ p)) + 1)) st
            = Some (q, st1) /\ rq wl (a ++ p ++ 0 :: tail (z ++ 0 :: b)) st1 /\ peek_str q st1 = Some (tail z, st1)) as (q & st1 & E1 & Hs1 & Hq).
  { destruct z as [|c z]; cbn [app tail].
    - rewrite bool_decide_true by done. eexists _, st. split; [done|]. rewrite app_nil_r in Hap. subst t. split; [done|].
      rewrite app_assoc in Hs. by apply (rq_peek_str _ _ [] _ _ Hs).
    - rewrite bool_decide_false by done. rewrite Hap, <- app_assoc, app_assoc in Hs. cbn [app] in Hs.
      destruct (rq_poke _ _ _ _ 0 _ Hs) as (st1 & E1 & Hs1). rewrite (bind_eval _ _ _ _ _ E1). eexists _, st1. split; [done|].
      split; [by rewrite app_assoc|]. change (0 :: z ++ 0 :: b) with ([0] ++ z ++ 0 :: b) in Hs1. rewrite app_assoc in Hs1.
      replace (Z.of_nat (length (a ++ p)) + 1) with (Z.of_nat (length ((a ++ p) ++ [0]))) by (rewrite length_app; cbn; lia).
      apply (rq_peek_str _ _ _ _ _ Hs1). intros Hin. apply Hq0. by right. }
  rewrite (bind_eval _ _ _ _ _ E1), (bind_eval _ _ _ _ _ (rq_peek_str _ _ _ _ _ Hs1 Hp0)). unfold scheme_stripped.
  destruct (starts_with HTTP_SCHEME p) eqn:Hsch.
  - apply starts_with_spec in Hsch as [r ->]. rewrite drop_app_length. pose proof Hs1 as Hs2.
    rewrite <- (app_assoc HTTP_SCHEME), app_assoc in Hs1. rewrite <- Nat2Z.inj_add, <- length_app.
    assert (Hr0 : 0 ∉ r) by (intros Hin; apply Hp0, elem_of_app; by right).
    rewrite (bind_eval _ _ _ _ _ (rq_find_char _ _ _ _ _ 47 Hs1 Hr0)). eexists _, q, st1. split; [done|]. split; [done|]. split; [|done].
    rewrite (strchrnul_app 47 r), <- (app_assoc (fst _) (snd _)), (app_assoc (a ++ HTTP_SCHEME)) in Hs1. apply (rq_peek_str _ _ _ _ _ Hs1). by apply strchrnul_after_in.
  - exists (Z.of_nat (length a)), q, st1. rewrite (bind_eval _ _ st1 (Z.of_nat (length a)) st1) by done. split; [done|]. split; [done|].
    split; [|done]. by apply (rq_peek_str _ _ _ _ _ Hs1).
Qed.

(** ** What the cuts leave behind *)
Lemma cut_form z : exists w, length w = length z /\ forall b, 0 :: tail (z ++ 0 :: b) = w ++ 0 :: b.
Proof. destruct z as [|c z]; [by exists []|]. exists (0 :: z). by split. Qed.

(** The bytes behind the request line are where they were. *)
Lemma after_target_form rest : exists w, length w = length (snd (strchrnul 32 (line_of rest))) /\
  forall b, 0 :: after_target rest b = w ++ 0 :: tail (snd (strchrnul 13 rest) ++ 0 :: b).
Proof. unfold after_target. destruct (cut_form (snd (strchrnul 32 (line_of rest)))) as (w & Hw & E). exists w. split; [done|]. intros b. apply E. Qed.

(** The text of the headers, after the first line. *)
Definition headers_text (rest : list Z) : list Z := drop (length CRLF) (snd (strchrnul 13 rest)).

(** The headers are a string of the buffer, unless the line ends in a CR with nothing behind it. *)
Lemma headers_string wl a rest b st : 0 ∉ rest -> length (snd (strchrnul 13 rest)) <> 1%nat ->
  rq wl (a ++ fst (strchrnul 63 (target_of rest)) ++ 0 :: tail (snd (strchrnul 63 (target_of rest)) ++ 0 :: after_target rest b)) st ->
  peek_str (Z.of_nat (length a + headers_ofs rest)) st = Some (headers_text rest, st).
Proof.
  intros Hr Hne Hs. destruct (cut_form (snd (strchrnul 63 (target_of rest)))) as (w1 & Hw1 & E1).
  destruct (after_target_form rest) as (w2 & Hw2 & E2). rewrite E1, E2, !app_assoc in Hs.
  assert (Hlen : length (((a ++ fst (strchrnul 63 (target_of rest))) ++ w1) ++ w2) = (length a + length (line_of rest))%nat).
  { rewrite !length_app, Hw1, Hw2. pose proof (f_equal length (strchrnul_app 63 (target_of rest))) as L1.
    pose proof (f_equal length (strchrnul_app 32 (line_of rest))) as L2. rewrite length_app in L1, L2. unfold target_of in *. lia. }
  pose proof (strchrnul_after_in 13 rest 0 Hr) as H0. pose proof (f_equal length (strchrnul_app 13 rest)) as L3. rewrite length_app in L3.
  unfold headers_ofs, headers_text. fold (line_of rest) in *. destruct (snd (strchrnul 13 rest)) as [|c [|c' h]]; [|done|].
  - rewrite decide_True by done. cbn [length] in L3. replace (length a + length rest)%nat with (length (((a ++ fst (strchrnul 63 (target_of rest))) ++ w1) ++ w2)) by lia.
    by apply (rq_peek_str wl _ [] (tail ([] ++ 0 :: b))).
  - rewrite decide_False by done. cbn [app tail] in Hs.
    replace (length a + (length (line_of rest) + length CRLF))%nat with (length ((((a ++ fst (strchrnul 63 (target_of rest))) ++ w1) ++ w2) ++ [0; c']))
      by (rewrite (length_app _ [0; c']); cbn; lia).
    apply (rq_peek_str wl _ h b); [by rewrite <- (app_assoc _ [0; c'])|]. intros Hin. apply H0. by do 2 right.
Qed.

(** What is behind the headers stays where it was, before and after the query is cut off. *)
Lemma behind_target rest : exists v, (length (target_of rest) + length v = length rest)%nat /\ forall b, 0 :: after_target rest b = v ++ 0 :: b.
Proof.
  destruct (after_target_form rest) as (w2 & Hw2 & E2). destruct (cut_form (snd (strchrnul 13 rest))) as (w3 & Hw3 & E3).
  exists (w2 ++ w3). split.
  - rewrite length_app, Hw2, Hw3. pose proof (f_equal length (strchrnul_app 32 (line_of rest))) as L2.
    pose proof (f_equal length (strchrnul_app 13 rest)) as L3. rewrite length_app in L2, L3. unfold target_of, line_of in *. lia.
  - intros b. by rewrite E2, E3, <- app_assoc.
Qed.
Lemma behind_line a rest : exists w, length w = (length a + length rest)%nat /\ forall b, a ++ target_of rest ++ 0 :: after_target rest b = w ++ 0 :: b.
Proof.
  destruct (behind_target rest) as (v & Hv & E). exists (a ++ target_of rest ++ v). split; [rewrite !length_app; lia|].
  intros b. by rewrite E, <- !app_assoc.
Qed.
Lemma behind_query a rest : exists w, length w = (length a + length rest)%nat /\
  forall b, a ++ fst (strchrnul 63 (target_of rest)) ++ 0 :: tail (snd (strchrnul 63 (target_of rest)) ++ 0 :: after_target rest b) = w ++ 0 :: b.
Proof.
  destruct (cut_form (snd (strchrnul 63 (target_of rest)))) as (w1 & Hw1 & E1). destruct (behind_target rest) as (v & Hv & E).
  exists (a ++ fst (strchrnul 63 (target_of rest)) ++ w1 ++ v). pose proof (f_equal length (strchrnul_app 63 (target_of rest))) as L1. rewrite length_app in L1.
  split; [rewrite !length_app; lia|]. intros b. by rewrite E1, E, <- !app_assoc.
Qed.

(** ** A well-formed request *)

(** The first line and the headers of a request, without the empty line behind them. *)
Definition line_rest (target version hdrs : list Z) : list Z := target ++ 32 :: version ++ (match hdrs with [] => [] | _ => CRLF ++ hdrs end).
Definition request_head (method target version hdrs : list Z) : list Z := method ++ 32 :: line_rest target version hdrs.

Record well_formed (target version hdrs : list Z) : Prop := {
  wf_target : 0 ∉ target /\ 13 ∉ target /\ 32 ∉ target;
  wf_version : 0 ∉ version /\ 13 ∉ version;
  wf_hdrs : 0 ∉ hdrs;
}.

Lemma line_rest_split target version hdrs : well_formed target version hdrs -> let rest := line_rest target version hdrs in
  0 ∉ rest /\ target_of rest = target /\ headers_text rest = hdrs /\ length (snd (strchrnul 13 rest)) <> 1%nat.
Proof.
  intros [(Ht0 & Ht13 & Ht32) (Hv0 & Hv13) Hh]. unfold line_rest. cbv zeta.
  assert (Hl : 13 ∉ target ++ 32 :: version) by (rewrite elem_of_app, elem_of_cons; intuition lia).
  assert (Hl0 : 0 ∉ target ++ 32 :: version) by (rewrite elem_of_app, elem_of_cons; intuition lia).
  change (target ++ 32 :: version ++ ?x) with (target ++ (32 :: version) ++ x). rewrite app_assoc. unfold target_of, line_of, headers_text. destruct hdrs as [|b hdrs].
  - rewrite app_nil_r, (strchrnul_none 13) by done. cbn [fst snd]. rewrite strchrnul_found by done. done.
  - change (CRLF ++ b :: hdrs) with (13 :: 10 :: b :: hdrs). rewrite (strchrnul_found 13) by done. cbn [fst snd]. rewrite strchrnul_found by done.
    split; [|done]. intros [Hin|[E|[E|Hin]%elem_of_cons]%elem_of_cons]%elem_of_app; [by apply Hl0|lia|lia|by apply Hh].
Qed.

(** * What the fiber of a connection does

    Reading: the loops of the fiber read a prefix of what the client sends, whatever the pieces it
    arrives in.  Writing: header and payload are sent in order, whatever the socket accepts per
    call.  Both are lemmas about every run, from which the theorems of [HttpServerRun.v] follow. *)

(** ** The buffers of the fiber *)
Abbreviation request_of := (buffer_of request_field).
Abbreviation header_of := (buffer_of header_field).
Abbreviation payload_of := (buffer_of payload_field).
Abbreviation put_request := (put_buffer request_field).
Abbreviation put_header := (put_buffer header_field).
Abbreviation put_payload := (put_buffer payload_field).

Section Facts.
Context `{address_space} (o : os) (stale : Z -> Z -> Z) (limit : Z) (Hlimit : 4096 <= limit <= 2 ^ 60) (Hgrow : can_grow_to o (limit + 4096)).

(** ** Responses *)

Lemma header_sprintf_eval c t s : contains c (header_of s) -> Z.of_nat (length t) <= INT_MAX -> 2 * Z.of_nat (length (c ++ t)) + VMBUF_HEADER <= limit ->
  exists st, header_sprintf o stale t s = Some (inr tt, put_header s st) /\ contains (c ++ t) st.
Proof.
  intros Hh Ht Hl. destruct (contains_sprintf o stale limit Hlimit Hgrow c t _ Hh Ht Hl) as (st & E & Hs). exists st. split; [|done].
  unfold header_sprintf. by rewrite (fb_bind_eval _ _ _ _ _ (on_buffer_eval header_field _ _ _ _ E)).
Qed.

(** The header of a response: its first lines, and with the length and the end. *)
Definition start_text (keep : bool) (status content_type : list Z) : list Z :=
  HTTP_SERVER_VER ++ str " " ++ status ++ CRLF ++ str "Server: " ++ HTTP_SERVER_NAME ++ CRLF
  ++ str "Content-Type: " ++ content_type ++ CONNECTION ++ (if keep then CONNECTION_KEEPALIVE else CONNECTION_CLOSE).
Definition response_text (keep : bool) (status content_type : list Z) (len : Z) : list Z :=
  start_text keep status content_type ++ CONTENT_LENGTH ++ dec len ++ CRLFCRLF.

Lemma length_start_text keep status content_type : (length (start_text keep status content_type) <= length status + length content_type + 80)%nat.
Proof. unfold start_text. rewrite !length_app. destruct keep; cbn; lia. Qed.

(** Status and type are short, as all of [http_defs.h] are. *)
Definition short (status content_type : list Z) : Prop := (length status + length content_type <= 1024)%nat.

Lemma response_tail_eval keep status content_type n s : contains (start_text keep status content_type) (header_of s) -> contains n (payload_of s) ->
  short status content_type ->
  exists st, (http_server_header_content_length o stale;; http_server_header_close o stale) s = Some (inr tt, put_header s st)
    /\ contains (response_text keep status content_type (Z.of_nat (length n))) st.
Proof.
  unfold short. intros Hh Hp Hl. pose proof (length_start_text keep status content_type). pose proof (length_dec (Z.of_nat (length n))).
  pose proof (eq_refl : length CONTENT_LENGTH = 18%nat). pose proof (eq_refl : length CRLFCRLF = 4%nat).
  unfold VMBUF_HEADER, response_text. set (h := start_text _ _ _) in *.
  unfold http_server_header_content_length.
  destruct (header_sprintf_eval h (CONTENT_LENGTH ++ dec (Z.of_nat (length n))) s Hh) as (st & E & Hs);
    [rewrite length_app; unfold INT_MAX; lia|rewrite !length_app; unfold VMBUF_HEADER; lia|].
  rewrite (fb_bind_eval _ _ s tt (put_header s st)).
  2:{ by rewrite (fb_bind_eval _ _ _ _ _ (on_buffer_read payload_field _ _ _ (rq_wlocpos _ _ _ Hp))). }
  destruct (contains_strcpy o stale limit Hlimit Hgrow (h ++ CONTENT_LENGTH ++ dec (Z.of_nat (length n))) CRLFCRLF (header_of (put_header s st))) as (st2 & E2 & Hs2).
  - destruct st. exact Hs.
  - rewrite !length_app. unfold VMBUF_HEADER. lia.
  - exists st2. split; [|by rewrite <- !app_assoc in Hs2]. unfold http_server_header_close.
    by rewrite (fb_bind_eval _ _ _ _ _ (on_buffer_eval header_field _ _ _ _ E2)).
Qed.

Lemma header_start_eval status content_type s : contains [] (header_of s) -> short status content_type ->
  exists st, http_server_header_start o stale status content_type s = Some (inr tt, put_header s st)
    /\ contains (start_text (persistent (fb_ctx s)) status content_type) st.
Proof.
  unfold short. intros Hh Hl. pose proof (length_start_text (persistent (fb_ctx s)) status content_type).
  apply (header_sprintf_eval [] (start_text _ status content_type)); [done|unfold INT_MAX; lia|cbn [app]; unfold VMBUF_HEADER; lia].
Qed.

Lemma http_server_response_eval h n status content_type s : contains h (header_of s) -> contains n (payload_of s) -> short status content_type ->
  exists st, http_server_response o stale status content_type s = Some (inr tt, put_header s st)
    /\ contains (response_text (persistent (fb_ctx s)) status content_type (Z.of_nat (length n))) st.
Proof.
  intros Hh Hp Hl. unfold http_server_response. destruct (contains_reset _ _ Hh) as (st & E & Hs).
  rewrite (fb_bind_eval _ _ _ _ _ (on_buffer_eval header_field _ _ _ _ E)).
  destruct (header_start_eval status content_type (put_header s st)) as (st2 & E2 & Hs2); [by destruct st|done|].
  rewrite (fb_bind_eval _ _ _ _ _ E2).
  destruct (response_tail_eval (persistent (fb_ctx s)) status content_type n (put_header (put_header s st) st2)) as (st3 & E3 & Hs3);
    [by destruct st2|by eapply rq_world|done|]. exists st3. split; [exact E3|done].
Qed.

(** ** Writing *)

Lemma write_vectors_sent accepts : forall h p, let '(r, sent, _) := write_loop accepts h p in
  (exists rest, h ++ p = sent ++ rest) /\ (r = Some 0 /\ sent = h ++ p \/ r = Some (-1) \/ r = None).
Proof.
  induction accepts as [|n accepts IH]; intros h p; cbn [write_loop]; [split; [by exists (h ++ p)|auto]|].
  destruct (n <? 0); [destruct (n =? -1); [apply IH|split; [by exists (h ++ p)|auto]]|].
  set (k := Z.to_nat _). assert (Hk : (k <= length (h ++ p))%nat) by (subst k; lia).
  assert (Hcut : forall h' p', drop k (h ++ p) = h' ++ p' -> let '(r, sent, acc) := (let '(r, more, acc) := write_loop accepts h' p' in (r, take k (h ++ p) ++ more, acc)) in
    (exists rest, h ++ p = sent ++ rest) /\ (r = Some 0 /\ sent = h ++ p \/ r = Some (-1) \/ r = None)).
  { intros h' p' Hd. specialize (IH h' p'). destruct (write_loop accepts h' p') as [[r more] acc]. destruct IH as [[rest Hr] Hres]. rewrite <- Hd in *. split.
    - exists rest. by rewrite <- app_assoc, <- Hr, take_drop.
    - destruct Hres as [[-> ->]|Hres]; [left; split; [done|apply take_drop]|by right]. }
  destruct (Nat.leb_spec (length h) k) as [Hle|Hlt].
  - assert (Hd : drop k (h ++ p) = drop (k - length h) p) by (by rewrite drop_app, drop_ge).
    destruct (drop (k - length h) p) as [|x rest] eqn:Er.
    + rewrite (take_ge (h ++ p)); [split; [exists []; by rewrite app_nil_r|auto]|]. apply (f_equal length) in Hd. rewrite length_drop in Hd. cbn in Hd. lia.
    + apply Hcut. by rewrite app_nil_r.
  - apply Hcut. rewrite drop_app_le by lia. done.
Qed.

(** If the socket takes something in each call it does not refuse, everything is sent after enough of them. *)
Lemma write_vectors_progress accepts : forall h p, Forall (fun n => n = -1 \/ 0 < n) accepts ->
  Z.of_nat (length (h ++ p)) <= foldr (fun n t => Z.max 0 n + t) 0 accepts -> h <> [] ->
  exists acc, write_loop accepts h p = (Some 0, h ++ p, acc).
Proof.
  induction accepts as [|n accepts IH]; intros h p Hacc Hsum Hh.
  - destruct h; [done|]. cbn in Hsum. lia.
  - apply Forall_cons in Hacc as [Hn Hacc]. cbn [foldr] in Hsum. cbn [write_loop]. destruct Hn as [->|Hn]; [apply IH; [done|cbn in Hsum; lia|done]|].
    rewrite (proj2 (Z.ltb_ge n 0)) by lia. set (k := Z.to_nat _).
    assert (Hgo : forall h' p', drop k (h ++ p) = h' ++ p' -> h' <> [] ->
      exists acc, (let '(r, more, acc) := write_loop accepts h' p' in (r, take k (h ++ p) ++ more, acc)) = (Some 0, h ++ p, acc)).
    { intros h' p' Hd Hh'. destruct (IH h' p' Hacc) as (acc & ->); [|done|].
      - assert (0 < length (drop k (h ++ p)))%nat as Hl by (rewrite Hd; destruct h'; [done|cbn; lia]).
        rewrite <- Hd. rewrite length_drop in *. subst k. lia.
      - exists acc. by rewrite <- Hd, take_drop. }
    destruct (Nat.leb_spec (length h) k) as [Hle|Hlt].
    + assert (Hd : drop k (h ++ p) = drop (k - length h) p) by (by rewrite drop_app, drop_ge).
      destruct (drop (k - length h) p) as [|x rest] eqn:Er.
      * exists accepts. rewrite take_ge; [done|]. apply (f_equal length) in Hd. rewrite length_drop in Hd. cbn in Hd. lia.
      * apply Hgo; [by rewrite app_nil_r|done].
    + apply Hgo; [by rewrite drop_app_le by lia|]. intros E. apply (f_equal length) in E. rewrite length_drop in E. cbn in E. lia.
Qed.

Lemma http_server_write_eval h p s : contains h (header_of s) -> contains p (payload_of s) -> _http_server_write s = send_vectors h p s.
Proof.
  intros Hh Hp. unfold _http_server_write.
  rewrite (fb_bind_eval _ _ _ _ _ (on_buffer_read header_field _ _ _ (rq_data _ _ Hh))).
  by rewrite (fb_bind_eval _ _ _ _ _ (on_buffer_read payload_field _ _ _ (rq_data _ _ Hp))).
Qed.

Lemma http_server_write_runs h p s : contains h (header_of s) -> contains p (payload_of s) ->
  runs _http_server_write s (fun _ s' => fb_world s' = fb_world s /\ fb_input s' = fb_input s
    /\ exists b, fb_ctx s' = with_persistent (fb_ctx s) b).
Proof.
  intros Hh Hp. unfold runs. rewrite (http_server_write_eval h p s Hh Hp). unfold send_vectors.
  destruct (write_loop _ h p) as [[[r|] sent] acc]; eexists _, _; (split; [reflexivity|]); cbn; (split; [done|split; [done|]]).
  - assert (Hs : fb_ctx s = with_persistent (fb_ctx s) (persistent (fb_ctx s))) by (by destruct (fb_ctx s)).
    destruct r as [|?|[]]; by eexists.
  - exists (persistent (fb_ctx s)). by destruct (fb_ctx s).
Qed.

(** ** Reading *)
(** Before the request is handed to the user: [c] has been read, nothing has been written. *)
Record ready (c : list Z) (s : hs) : Prop := {
  rd_request : contains c (request_of s);
  rd_header : contains [] (header_of s);
  rd_payload : contains [] (payload_of s);
  rd_input : input_ok (fb_input s);
  rd_fits : 2 * Z.of_nat (length (c ++ bytes_of (fb_input s))) + VMBUF_HEADER <= limit;
}.

(** The state after a read that took [d]. *)
Record took (c d : list Z) (s s' : hs) : Prop := {
  tk_ready : ready (c ++ d) s';
  tk_received : received request_field d s s';
}.
Lemma tk_bytes c d s s' : took c d s s' -> bytes_of (fb_input s) = d ++ bytes_of (fb_input s').
Proof. intros [_ Hr]. apply (rc_bytes _ _ _ _ Hr). Qed.
Lemma tk_open c d s s' : took c d s s' -> stays_open (fb_input s) -> stays_open (fb_input s').
Proof. intros [_ Hr]. apply (rc_open _ _ _ _ Hr). Qed.
Lemma took_trans c d d' s1 s2 s3 : took c d s1 s2 -> took (c ++ d) d' s2 s3 -> took c (d ++ d') s1 s3.
Proof. intros [? ?] [? ?]. split; [by rewrite app_assoc|by eapply received_trans; [apply _|..]]. Qed.
Lemma took_nil c s st : ready c (put_request s st) -> took c [] s (put_request s st).
Proof. intros Hr. split; [by rewrite app_nil_r|apply received_nil]. Qed.

Lemma http_server_read_runs c s : ready c s ->
  runs (_http_server_read o stale) s (fun r s' => match r with
    | inl _ => fb_input s = []
    | inr res => (stays_open (fb_input s) -> res = 1)
        /\ exists d, took c d s s' /\ (0 < res -> (input_size (fb_input s') < input_size (fb_input s))%nat)
    end).
Proof.
  intros [Hr Hh Hp Hi Hf]. unfold _http_server_read.
  eapply runs_mono; [apply (fiber_read_runs o stale limit Hlimit Hgrow request_field c s Hr Hi Hf)|].
  intros [e|res] s'; cbn beta iota; [done|]. intros (_ & Ho & d & Hc & Hrc & Hsz). split; [done|]. exists d. split; [|done]. split; [|done].
  destruct (rc_ctx _ _ _ _ Hrc) as [v Hv]. split; [done| | |by apply (rc_input _ _ _ _ Hrc)|by rewrite <- app_assoc, <- (rc_bytes _ _ _ _ Hrc)].
  - unfold buffer_of. rewrite Hv. eapply rq_world. exact Hh.
  - unfold buffer_of. rewrite Hv. eapply rq_world. exact Hp.
Qed.
End Facts.
