(* ===== verification/HttpFiberFacts.v ===== *)
(** * HttpFiberFacts: the fiber of a connection, step by step

    The loops that wait for a part of the request, the two branches of [http_server_fiber_main]
    up to the call of the user's function, and the end of the request. *)

From Stdlib Require Import String.
From stdpp Require Import base numbers functions list gmap.
From Stdlib Require Import ZArith Lia.
From S2P Require Import Prelude Words Os Mempool Memalloc Vmbuf VmbufFacts Cstring HttpText Connection HttpServer HttpServerFacts.

Section Fiber.
Context `{address_space} (o : os) (stale : Z -> Z -> Z) (limit : Z) (Hlimit : 4096 <= limit <= 2 ^ 60) (Hgrow : can_grow_to o (limit + 4096)).
Context (max_req_size : Z).

Abbreviation ready := (ready limit).
Abbreviation took := (took limit).

(** ** Waiting for the client *)

(** The connection ends in a read only if the client has nothing more to say, closes it, or has sent too much. *)
Lemma read_from_socket_runs c s : ready c s ->
  runs (READ_FROM_SOCKET o stale max_req_size) s (fun r s' => match r with
    | inr _ => exists d, took c d s s' /\ (input_size (fb_input s') < input_size (fb_input s))%nat
    | inl _ => fb_input s <> [] -> stays_open (fb_input s) -> max_req_size < Z.of_nat (length (c ++ bytes_of (fb_input s)))
    end).
Proof.
  intros Hr. apply runs_bind. eapply runs_mono; [by eapply http_server_read_runs|]. intros [e|res] s1; cbn beta iota; [done|].
  intros (Hopen & d & Ht & Hsize). destruct (Z.leb_spec res 0) as [Hle|Hlt].
  { eexists _, s1. split; [reflexivity|]. intros _ Ho. specialize (Hopen Ho). lia. }
  pose proof (tk_ready _ _ _ _ _ Ht) as [Hq Hh Hp _ _]. unfold runs.
  rewrite (fb_bind_eval _ _ _ _ _ (on_buffer_read request_field _ _ _ (rq_wlocpos _ _ _ Hq))), Z.gtb_ltb.
  destruct (Z.ltb_spec max_req_size (Z.of_nat (length (c ++ d)))) as [Hbig|].
  - rewrite (fb_bind_eval (modify_ctx _) _ s1 tt _ eq_refl). set (s2 := Fiber _ _ _ _ _).
    destruct (http_server_response_eval o stale limit Hlimit Hgrow [] [] HTTP_STATUS_413 HTTP_CONTENT_TYPE_TEXT_PLAIN s2 Hh Hp) as (st & E & Hst);
      [unfold short; cbn; lia|]. rewrite (fb_bind_eval _ _ _ _ _ E).
    apply runs_bind. rewrite <- (buffer_of_put header_field s2 st) in Hst.
    eapply runs_mono; [eapply (http_server_write_runs _ [] (put_header s2 st) Hst); by eapply rq_world|].
    assert (max_req_size < Z.of_nat (length (c ++ bytes_of (fb_input s)))) by (rewrite (tk_bytes _ _ _ _ _ Ht), app_assoc, length_app; lia).
    intros [e|x] s3 _; cbn beta iota; [by intros|]. eexists _, s3. split; [reflexivity|]. cbn beta iota. by intros.
  - eexists _, _. split; [reflexivity|]. exists d. split; [done|]. apply Hsize. lia.
Qed.

Section Until.
(** [done] looks at what has been read, may write behind it, and knows [post] when it says yes. *)
Context (done : M bool) (dn : list Z -> bool) (post : list Z -> world * vmbuf -> Prop) (low : nat).
Hypothesis Hdone : forall c st, contains c st -> (low <= length c)%nat ->
  exists st', done st = Some (dn c, st') /\ contains c st' /\ (dn c = true -> post c st').

Lemma ready_request c s st : ready c s -> contains c st -> ready c (put_request s st).
Proof. intros [Hr Hh Hp Hi Hf] Hst. split; try done; [by destruct st|by eapply rq_world|by eapply rq_world]. Qed.

Lemma read_until_runs fuel : forall c s, ready c s -> (low <= length c)%nat -> (input_size (fb_input s) < fuel)%nat ->
  runs (read_until o stale max_req_size fuel done) s (fun r s' => match r with
    | inr _ => exists d, took c d s s' /\ dn (c ++ d) = true /\ post (c ++ d) (request_of s')
    | inl _ => stays_open (fb_input s) -> Z.of_nat (length (c ++ bytes_of (fb_input s))) <= max_req_size -> dn (c ++ bytes_of (fb_input s)) = false
    end).
Proof.
  induction fuel as [|k IH]; intros c s Hr Hlow Hfuel; [lia|]. cbn [read_until].
  destruct (Hdone c (request_of s) (rd_request _ _ _ Hr) Hlow) as (st & E & Hst & Hpost).
  unfold runs. rewrite (fb_bind_eval _ _ _ _ _ (on_buffer_eval request_field _ _ _ _ E)). pose proof (ready_request c s st Hr Hst) as Hr1.
  pose proof (took_nil _ _ _ _ Hr1) as Ht1. set (s1 := put_request s st) in *.
  destruct (dn c) eqn:Edn.
  - eexists _, s1. split; [reflexivity|]. exists []. rewrite app_nil_r. split; [done|]. split; [done|]. destruct st. exact (Hpost eq_refl).
  - apply runs_bind. eapply runs_mono; [by apply (read_from_socket_runs c s1)|]. intros [e|[]] s2; cbn beta iota.
    + intros Hend Ho Hmax. change (fb_input s1) with (fb_input s) in Hend. destruct (fb_input s) as [|x l] eqn:Ei; [by rewrite app_nil_r|].
      specialize (Hend ltac:(done) Ho). lia.
    + intros (d & Ht & Hsize). change (fb_input s1) with (fb_input s) in Hsize.
      assert (Ht2 : took c d s s2) by (apply (took_trans limit c [] d s s1 s2 Ht1); by rewrite app_nil_r).
      eapply runs_mono; [apply (IH (c ++ d) s2 (tk_ready _ _ _ _ _ Ht)); [rewrite length_app; lia|lia]|].
      intros [e|[]] s3; cbn beta iota.
      * intros Hend Ho Hmax. rewrite (tk_bytes _ _ _ _ _ Ht2), app_assoc in *. apply Hend; [by apply (tk_open _ _ _ _ _ Ht2)|done].
      * intros (d2 & Ht3 & Hdn & Hpo). exists (d ++ d2). rewrite !app_assoc in *. split; [by eapply took_trans|done].
Qed.

Lemma read_while_not_runs c s : ready c s -> (low <= length c)%nat ->
  runs (read_while_not o stale max_req_size done) s (fun r s' => match r with
    | inr _ => exists d, took c d s s' /\ dn (c ++ d) = true /\ post (c ++ d) (request_of s')
    | inl _ => stays_open (fb_input s) -> Z.of_nat (length (c ++ bytes_of (fb_input s))) <= max_req_size -> dn (c ++ bytes_of (fb_input s)) = false
    end).
Proof. intros Hr Hlow. apply read_until_runs; [done|done|lia]. Qed.
End Until.

(** *** The conditions the fiber waits for *)
Lemma has_method_eval c st : contains c st -> (0 <= length c)%nat ->
  exists st', has_method st = Some (Z.of_nat (length c) >? MIN_HTTP_REQ_SIZE, st') /\ contains c st' /\ ((Z.of_nat (length c) >? MIN_HTTP_REQ_SIZE) = true -> True).
Proof. intros Hs _. exists st. split; [|done]. unfold has_method. by rewrite (bind_eval _ _ _ _ _ (rq_wlocpos _ _ _ Hs)). Qed.

Definition headers_end (c : list Z) : bool := bool_decide (drop (length c - 4) c = CRLFCRLF).
Lemma ends_with_headers_eval c st : contains c st -> (4 <= length c)%nat ->
  exists st', ends_with_headers st = Some (headers_end c, st') /\ contains c st' /\ (headers_end c = true -> True).
Proof.
  intros Hs Hlen. exists st. split; [|done]. unfold ends_with_headers. rewrite (bind_eval _ _ _ _ _ (rq_wlocpos _ _ _ Hs)).
  assert (Hl : length (take (length c - 4) c) = (length c - 4)%nat) by (rewrite length_take; lia).
  replace (Z.of_nat (length c) - Z.of_nat (length CRLFCRLF)) with (Z.of_nat (length (take (length c - 4) c))) by (rewrite Hl; cbn; lia).
  rewrite (bind_eval _ _ _ _ _ (rq_peek_bytes (Z.of_nat (length c)) (take (length c - 4) c) (drop (length c - 4) c) [] st (length CRLFCRLF)
    ltac:(by rewrite app_nil_r, take_drop) ltac:(rewrite length_drop; cbn; lia))). done.
Qed.

Definition headers_in (c : list Z) : bool := bool_decide (is_Some (strstr CRLFCRLF (text c))).
Lemma has_headers_eval c st : contains c st -> (0 <= length c)%nat ->
  exists st', has_headers st = Some (headers_in c, st') /\ contains c st' /\ (headers_in c = true -> rq (Z.of_nat (length c)) (c ++ [0]) st').
Proof.
  intros Hs _. destruct (rq_expose c st Hs) as [x Hx]. destruct (rq_poke _ _ _ _ 0 _ Hx) as (st' & E & Hs').
  exists st'. split; [|split; [by eapply rq_prefix|done]]. unfold has_headers.
  assert (En : vmbuf_nul st = Some (tt, st')) by (unfold vmbuf_nul; by rewrite (bind_eval _ _ _ _ _ (rq_wlocpos _ _ _ Hs))).
  rewrite (bind_eval _ _ _ _ _ En), (bind_eval _ _ _ _ _ (rq_text _ _ _ _ Hs')). done.
Qed.

Lemma has_content_eval ofs n c st : contains c st -> (0 <= length c)%nat ->
  exists st', has_content ofs n st = Some (u64 (ofs + n) <=? Z.of_nat (length c), st') /\ contains c st' /\ ((u64 (ofs + n) <=? Z.of_nat (length c)) = true -> True).
Proof. intros Hs _. exists st. split; [|done]. unfold has_content. by rewrite (bind_eval _ _ _ _ _ (rq_wlocpos _ _ _ Hs)). Qed.

(** ** Handing the request to the user's function *)
Section Dispatch.
Context (user_func : HS unit).

(** What the user's function finds: [m] and [rest] are the first line and the headers, split at the first space. *)
Record dispatched (m rest : list Z) (s : hs) : Prop := {
  dp_uri : peek_str (uri (fb_ctx s)) (request_of s) = Some (path_of (target_of rest), request_of s);
  dp_query : peek_str (query (fb_ctx s)) (request_of s) = Some (query_of (target_of rest), request_of s);
  dp_headers : length (snd (strchrnul 13 rest)) <> 1%nat ->
    peek_str (headers (fb_ctx s)) (request_of s) = Some (headers_text rest, request_of s);
  dp_persistent : persistent (fb_ctx s) = check_persistent (m ++ 32 :: rest);
  dp_header : contains [] (header_of s);
  dp_payload : contains [] (payload_of s);
}.


(** [http_server_process_request] on a buffer with a string at [a], which need not be the one the line had. *)
Lemma process_request_eval wl a t b h s : rq wl (a ++ t ++ 0 :: b) (request_of s) -> 0 ∉ t ->
  exists u q st, http_server_process_request user_func (Z.of_nat (length a)) h s
      = user_func (set_ctx (put_request s st) (with_uri (with_request (fb_ctx s) (snd st)) u h q))
    /\ rq wl (a ++ fst (strchrnul 63 t) ++ 0 :: tail (snd (strchrnul 63 t) ++ 0 :: b)) st
    /\ peek_str u st = Some (path_of t, st) /\ peek_str q st = Some (query_of t, st).
Proof.
  intros Hs Ht. destruct (split_uri_eval _ _ _ _ _ Hs Ht) as (u & q & st & E & Hst & Hu & Hq). exists u, q, st. split; [|done].
  unfold http_server_process_request. by rewrite (fb_bind_eval _ _ _ _ _ (on_buffer_eval request_field _ _ _ _ E)).
Qed.

(** A first part without a CR is before the first CR. *)
Lemma before_separator (x : Z) a : forall y h z, a ++ y = h ++ x :: z -> x ∉ a -> exists y', h = a ++ y'.
Proof.
  induction a as [|b a IH]; intros y h z E Ha; [by exists h|]. apply not_elem_of_cons in Ha as [Hb Ha].
  destruct h as [|b' h]; injection E as -> E; [done|]. destruct (IH _ _ _ E Ha) as [y' ->]. by exists y'.
Qed.

(** The parts of a request whose headers end at the end of what was read. *)
Lemma headers_end_split m c : headers_end c = true -> 13 ∉ m -> (exists y, c = m ++ y) -> exists y, c = (m ++ y) ++ CRLFCRLF.
Proof.
  unfold headers_end. intros Hd%bool_decide_eq_true Hm [y Hy]. pose proof (take_drop (length c - 4) c) as E. rewrite Hd in E.
  destruct (before_separator 13 m y (take (length c - 4) c) [10; 13; 10]) as [y' Hy']; [rewrite <- Hy; symmetry; exact E|done|].
  exists y'. by rewrite <- Hy', E.
Qed.

(** The request is handed over with what the line had. *)
Lemma process_dispatched wl m rest b s :
  rq wl ((m ++ [0]) ++ target_of rest ++ 0 :: after_target rest b) (request_of s) -> 0 ∉ rest ->
  contains [] (header_of s) -> contains [] (payload_of s) -> persistent (fb_ctx s) = check_persistent (m ++ 32 :: rest) ->
  exists u q st, let h := Z.of_nat (length (m ++ [0]) + headers_ofs rest) in
    let s' := set_ctx (put_request s st) (with_uri (with_request (fb_ctx s) (snd st)) u h q) in
    http_server_process_request user_func (Z.of_nat (length (m ++ [0]))) h s = user_func s'
    /\ dispatched m rest s' /\ exists w, length w = length (m ++ 32 :: rest) /\ rq wl (w ++ 0 :: b) (request_of s').
Proof.
  intros Hs Hr Hh Hp Hper. assert (Ht : 0 ∉ target_of rest) by (unfold target_of, line_of; by do 2 apply strchrnul_before_in).
  destruct (process_request_eval _ _ _ _ (Z.of_nat (length (m ++ [0]) + headers_ofs rest)) _ Hs Ht) as (u & q & st & E & Hst & Hu & Hq).
  exists u, q, st. cbv zeta. split; [exact E|]. rewrite <- (buffer_of_put request_field s st) in Hst, Hu, Hq. split; [split|].
  - exact Hu.
  - exact Hq.
  - intros Hne. exact (headers_string _ _ _ _ _ Hr Hne Hst).
  - exact Hper.
  - eapply rq_world. exact Hh.
  - eapply rq_world. exact Hp.
  - destruct (behind_query (m ++ [0]) rest) as (w & Hw & E'). rewrite E' in Hst. exists w. split; [|exact Hst].
    rewrite Hw, !length_app. cbn. lia.
Qed.

Lemma handle_get_runs m c1 s : let c := m ++ 32 :: c1 in ready c s -> (5 < length c)%nat -> 32 ∉ m -> 0 ∉ m -> 13 ∉ m ->
  (exists e s', handle_get o stale max_req_size user_func s = Some (inl e, s') /\
     (stays_open (fb_input s) -> Z.of_nat (length (c ++ bytes_of (fb_input s))) <= max_req_size -> headers_end (c ++ bytes_of (fb_input s)) = false))
  \/ exists d y s', handle_get o stale max_req_size user_func s = user_func s'
      /\ c ++ d = (m ++ 32 :: y) ++ CRLFCRLF /\ bytes_of (fb_input s) = d ++ bytes_of (fb_input s')
      /\ dispatched m (text y) s' /\ (exists wl p, rq wl p (request_of s'))
      /\ content (fb_ctx s') = None /\ content_len (fb_ctx s') = 0 /\ fb_sent s' = fb_sent s /\ fb_accepts s' = fb_accepts s.
Proof.
  intros c Hr Hlen Hm Hm0 Hm13. unfold handle_get.
  destruct (read_while_not_runs _ headers_end (fun _ _ => True) 4 ends_with_headers_eval c s Hr ltac:(lia)) as ([e|[]] & s1 & E1 & H1).
  { left. exists e, s1. split; [|exact H1]. by rewrite (fb_bind_exit _ _ _ _ _ E1). }
  right. rewrite (fb_bind_eval _ _ _ _ _ E1). destruct H1 as (d & Ht & Hdn & _).
  assert (Hm' : 13 ∉ m ++ [32]) by (rewrite elem_of_app, list_elem_of_singleton; intros [?|?]; [done|lia]).
  destruct (headers_end_split (m ++ [32]) (c ++ d) Hdn Hm') as (y & Hy); [exists (c1 ++ d); subst c; by rewrite <- !app_assoc|].
  rewrite <- (app_assoc m [32] y) in Hy. cbn [app] in Hy.
  pose proof (tk_ready _ _ _ _ _ Ht) as [Hq Hh Hp _ _]. unfold contains in Hq. rewrite Hy in Hq at 2.
  destruct (rq_poke _ (m ++ 32 :: y) 13 [10; 13; 10] 0 _ Hq) as (st & Ep & Hst).
  assert (Htext : text (m ++ 32 :: y) = m ++ 32 :: text y).
  { rewrite text_app by done. f_equal. apply (text_app [32]). apply not_elem_of_cons. split; [lia|apply not_elem_of_nil]. }
  assert (E2 : (w ← vmbuf_wlocpos; poke (w - Z.of_nat (length CRLFCRLF)) [0];; peek_str 0) (request_of s1) = Some (m ++ 32 :: text y, st)).
  { rewrite (bind_eval _ _ _ _ _ (rq_wlocpos _ _ _ Hq)).
    replace (Z.of_nat (length (c ++ d)) - Z.of_nat (length CRLFCRLF)) with (Z.of_nat (length (m ++ 32 :: y))) by (rewrite Hy, (length_app _ CRLFCRLF); lia).
    rewrite (bind_eval _ _ _ _ _ Ep), (rq_text _ _ _ _ Hst). by rewrite Htext. }
  rewrite (fb_bind_eval _ _ _ _ _ (on_buffer_eval request_field _ _ _ _ E2)).
  set (p := check_persistent _). rewrite (fb_bind_eval (modify_ctx _) _ _ tt (set_ctx (put_request s1 st) (with_persistent (fb_ctx (put_request s1 st)) p)) eq_refl).
  destruct (text_split (m ++ 32 :: y) [10; 13; 10]) as [b Hb]. rewrite Hb, Htext, <- app_assoc in Hst.
  set (s2 := set_ctx _ _). rewrite <- (buffer_of_put request_field s1 st) in Hst.
  destruct (parse_request_line_eval _ _ _ _ _ (Hst : rq _ _ (request_of s2)) Hm Hm0 (text_zero y)) as (st1 & E3 & Hst1).
  rewrite (fb_bind_eval _ _ _ _ _ (on_buffer_eval request_field _ _ _ _ E3)).
  rewrite (fb_bind_eval (modify_ctx _) _ _ tt (set_ctx (put_request s2 st1) (with_content (fb_ctx (put_request s2 st1)) None 0)) eq_refl).
  set (s3 := set_ctx _ _). rewrite <- (buffer_of_put request_field s2 st1) in Hst1.
  destruct (process_dispatched _ m (text y) b s3 Hst1 (text_zero y)) as (u & q & st2 & E4 & Hdp & w & _ & Hw);
    [eapply rq_world; exact Hh|eapply rq_world; exact Hp|done|].
  eexists d, y, _. split; [exact E4|]. destruct (tk_received _ _ _ _ _ Ht) as [_ Ha Hsn _ _ _ _].
  split; [done|]. split; [exact (tk_bytes _ _ _ _ _ Ht)|]. split; [done|]. split; [by eexists _, _|]. done.
Qed.

(** *** POST and PUT *)

(** Everything of the request has been read, and its last terminator is written: the [N]-th byte of
    the buffer, which is the one behind the content if the length is not negative. *)
Lemma handle_content_runs m rest e s ofs n : let c := m ++ 32 :: rest ++ 0 :: e in let N := Z.to_nat (u64 (ofs + n)) in
  ready c s -> 32 ∉ m -> 0 ∉ m -> 0 ∉ rest ->
  (exists x s', handle_content o stale max_req_size user_func ofs n s = Some (inl x, s') /\
     (stays_open (fb_input s) -> Z.of_nat (length (c ++ bytes_of (fb_input s))) <= max_req_size -> Z.of_nat (length (c ++ bytes_of (fb_input s))) < u64 (ofs + n)))
  \/ exists d x s', handle_content o stale max_req_size user_func ofs n s
        = http_server_process_request user_func (Z.of_nat (length (m ++ [0]))) (Z.of_nat (length (m ++ [0]) + headers_ofs rest)) s'
      /\ (N <= length (c ++ d))%nat
      /\ rq (Z.of_nat (length (c ++ d))) (<[N := 0]> ((m ++ [0]) ++ target_of rest ++ 0 :: after_target rest (e ++ d ++ [x]))) (request_of s')
      /\ bytes_of (fb_input s) = d ++ bytes_of (fb_input s') /\ fb_sent s' = fb_sent s /\ fb_accepts s' = fb_accepts s
      /\ exists v, fb_ctx s' = with_content (with_request (fb_ctx s) v) (Some ofs) (u32 n).
Proof.
  intros c N Hr Hm Hm0 Hrest. unfold handle_content.
  destruct (read_while_not_runs _ (fun c => u64 (ofs + n) <=? Z.of_nat (length c)) (fun _ _ => True) 0 (has_content_eval ofs n) c s Hr ltac:(lia))
    as ([x|[]] & s1 & E1 & H1).
  { left. exists x, s1. split; [by rewrite (fb_bind_exit _ _ _ _ _ E1)|]. intros Ho Hmax. specialize (H1 Ho Hmax). by apply Z.leb_gt in H1. }
  right. rewrite (fb_bind_eval _ _ _ _ _ E1). destruct H1 as (d & Ht & HN%Z.leb_le & _).
  pose proof (u64_range (ofs + n)). pose proof (tk_ready _ _ _ _ _ Ht) as [Hq _ _ _ _]. destruct (rq_expose _ _ Hq) as [x Hx].
  assert (Hc : (c ++ d) ++ [x] = m ++ 32 :: rest ++ 0 :: (e ++ d ++ [x])) by (subst c; rewrite <- !app_assoc; cbn; by rewrite <- !app_assoc).
  rewrite Hc in Hx. destruct (parse_request_line_eval _ _ _ _ _ Hx Hm Hm0 Hrest) as (st1 & E2 & Hst1).
  rewrite (fb_bind_eval _ _ _ _ _ (on_buffer_eval request_field _ _ _ _ E2)). rewrite <- (buffer_of_put request_field s1 st1) in Hst1.
  set (L := (m ++ [0]) ++ target_of rest ++ 0 :: after_target rest (e ++ d ++ [x])) in *.
  assert (HL : length L = S (length (c ++ d))).
  { destruct (behind_line (m ++ [0]) rest) as (w & Hw & E). unfold L. rewrite E. clear - Hc Hw. generalize dependent (e ++ d ++ [x]). intros b Hc.
    apply (f_equal length) in Hc. repeat (rewrite !length_app in * || cbn [length] in * ). clearbody c. lia. }
  destruct (rq_poke_at _ L N _ Hst1 ltac:(lia)) as (st2 & E3 & Hst2). subst N. rewrite Z2Nat.id in E3 by lia.
  rewrite (fb_bind_eval _ _ _ _ _ (on_buffer_eval request_field _ _ _ _ E3)). rewrite <- (buffer_of_put request_field (put_request s1 st1) st2) in Hst2.
  eexists d, x, _. split; [reflexivity|]. split; [lia|]. split; [exact Hst2|]. destruct (tk_received _ _ _ _ _ Ht) as [_ Ha Hsn [v Hv] _ _ _].
  split; [exact (tk_bytes _ _ _ _ _ Ht)|]. split; [done|]. split; [done|]. exists (snd st2). cbn. by rewrite Hv.
Qed.

(** The headers are there: [head] is the text before the empty line, and [w] what has been read behind it. *)
Lemma handle_post_runs m c1 s : let c := m ++ 32 :: c1 in ready c s -> 32 ∉ m -> 0 ∉ m -> 13 ∉ m ->
  (exists x s', handle_post o stale max_req_size user_func s = Some (inl x, s') /\
     (stays_open (fb_input s) -> Z.of_nat (length (c ++ bytes_of (fb_input s))) <= max_req_size -> headers_in (c ++ bytes_of (fb_input s)) = false))
  \/ exists d rest w s', let head := m ++ 32 :: rest in
      handle_post o stale max_req_size user_func s = handle_post_headers o stale max_req_size user_func (Z.of_nat (length head + length CRLFCRLF)) head s'
      /\ c ++ d = head ++ CRLFCRLF ++ w /\ strstr CRLFCRLF (text (c ++ d)) = Some (length head) /\ 0 ∉ rest
      /\ ready (head ++ 0 :: [10; 13; 10] ++ w) s'
      /\ received request_field d s s'.
Proof.
  intros c Hr Hm Hm0 Hm13. unfold handle_post.
  destruct (read_while_not_runs _ headers_in _ 0 has_headers_eval c s Hr ltac:(lia)) as ([x|[]] & s1 & E1 & H1).
  { left. exists x, s1. split; [by rewrite (fb_bind_exit _ _ _ _ _ E1)|exact H1]. }
  right. rewrite (fb_bind_eval _ _ _ _ _ E1). destruct H1 as (d & Ht & Hin%bool_decide_eq_true & Hq). destruct Hin as [i Hi].
  rewrite (fb_bind_eval _ _ _ _ _ (on_buffer_read request_field _ _ _ (rq_text _ _ _ _ Hq))), Hi.
  destruct (strstr_Some _ _ _ Hi) as [r Htext]. pose proof (strstr_bound _ _ _ Hi) as Hbound. pose proof (text_zero (c ++ d)) as Hz.
  pose proof (strchrnul_app 0 (c ++ d)) as Hsplit. fold (text (c ++ d)) in Hsplit. set (z := snd _) in Hsplit. set (t := text (c ++ d)) in *. rewrite Htext, <- !app_assoc in Hsplit.
  assert (Hm' : 13 ∉ m ++ [32]) by (rewrite elem_of_app, list_elem_of_singleton; intros [?|?]; [done|lia]).
  destruct (before_separator 13 (m ++ [32]) (c1 ++ d) (take i t) ([10; 13; 10] ++ r ++ z)) as [rest Hrest];
    [rewrite <- app_assoc; cbn [app]; subst c; rewrite <- app_assoc in Hsplit; exact Hsplit|done|].
  rewrite <- app_assoc in Hrest. cbn [app] in Hrest. assert (Hlen : length (m ++ 32 :: rest) = i) by (rewrite <- Hrest, length_take_le; lia).
  assert (H0 : 0 ∉ m ++ 32 :: rest) by (rewrite <- Hrest; intros Hin; apply Hz; rewrite Htext; apply elem_of_app; by left).
  rewrite Hrest in Hsplit.
  replace ((c ++ d) ++ [0]) with ((m ++ 32 :: rest) ++ 13 :: [10; 13; 10] ++ (r ++ z) ++ [0]) in Hq by (by rewrite Hsplit, <- !app_assoc).
  destruct (rq_poke _ (m ++ 32 :: rest) 13 _ 0 _ Hq) as (st & E2 & Hst). rewrite Hlen in E2.
  rewrite (fb_bind_eval _ _ _ _ _ (on_buffer_eval request_field _ _ _ _ E2)). rewrite <- (buffer_of_put request_field s1 st) in Hst.
  rewrite (fb_bind_eval _ _ _ _ _ (on_buffer_read request_field _ _ _ (rq_text _ _ _ _ Hst))), text_id by done.
  eexists d, rest, (r ++ z), (put_request s1 st). cbv zeta. rewrite Hlen. split; [reflexivity|]. split; [exact Hsplit|]. split; [done|].
  split; [intros Hin; apply H0; apply elem_of_app; right; by right|].
  destruct Ht as [[_ Hh Hp Hi' Hf] Hrc]. split.
  - assert (Hl : length (c ++ d) = length ((m ++ 32 :: rest) ++ 0 :: [10; 13; 10] ++ r ++ z)) by (rewrite Hsplit, !length_app; cbn; rewrite !length_app; lia).
    split; [|by eapply rq_world|by eapply rq_world|done|].
    + unfold contains. rewrite <- Hl. apply (rq_prefix _ _ [0]). by rewrite <- app_assoc.
    + rewrite length_app, <- Hl, <- length_app. exact Hf.
  - rewrite <- (app_nil_r d). apply (received_trans request_field _ _ _ _ _ Hrc), received_nil.
Qed.
End Dispatch.
End Fiber.
