(* ===== verification/HttpServerRun.v ===== *)
(** * HttpServerRun: requests and responses

    The theorems about a connection, for every way its bytes arrive and leave: no access outside
    of the buffers, what the user's function is given, and what is sent. *)

From Stdlib Require Import String.
From stdpp Require Import base numbers functions list gmap.
From Stdlib Require Import ZArith Lia.
From S2P Require Import Prelude Words Os Mempool Memalloc Vmbuf VmbufFacts Cstring HttpText Connection HttpServer HttpServerFacts HttpFiberFacts.


Section Run.
Context `{address_space} (o : os) (stale : Z -> Z -> Z) (limit : Z) (Hlimit : 4096 <= limit <= 2 ^ 60) (Hgrow : can_grow_to o (limit + 4096)).
Context (max_req_size : Z) (user_func : HS unit).

Abbreviation ready := (ready limit).
Abbreviation took := (took limit).

(** ** Starting *)

(** A buffer that was never used and can be mapped, or one of an earlier request. *)
Definition startable (size : Z) (st : world * vmbuf) : Prop :=
  (snd st = VMBUF_INITIALIZER /\ 0 <= size <= 2 ^ 59 /\ sys_mmap o (mem_roundup (size + VMBUF_HEADER)) = true) \/ exists c, contains c st.

Lemma startable_init size st : startable size st -> exists res st', vmbuf_init o stale size st = Some (res, st') /\ vbuf _mem_funcs_anon_buf (fun _ => True) [] 0 st'.
Proof.
  intros [(Hv & Hs & Hm)|[c Hc]].
  - destruct st as [w v]. cbn in Hv. subst v. destruct (init_eval o stale w size Hs Hm) as (st' & E & Hst'). by exists 0, st'.
  - destruct (reset_empties c st Hc) as (st' & E & Hst'). exists 0, st'. split; [|done]. unfold vmbuf_init. rewrite bind_get.
    destruct Hc as (cap & rl & [_ _ _ _ (r & Hm & _) _] & _). rewrite Hm. by rewrite (bind_eval _ _ _ _ _ E).
Qed.
Lemma startable_eval size st : startable size st -> exists res st', vmbuf_init o stale size st = Some (res, st') /\ contains [] st'.
Proof. intros (res & st' & E & Hst')%startable_init. exists res, st'. split; [done|]. exact (rq_vbuf [] 0 st' Hst'). Qed.

Record starts (server : http_server) (s : hs) : Prop := {
  st_request : startable (init_request_size server) (request_of s);
  st_header : startable (init_header_size server) (header_of s);
  st_payload : startable (init_payload_size server) (payload_of s);
  st_input : input_ok (fb_input s);
  st_fits : 2 * Z.of_nat (length (bytes_of (fb_input s))) + VMBUF_HEADER <= limit;
}.

Lemma startable_world size w w' v : startable size (w, v) -> startable size (w', v).
Proof. intros [?|[c Hc]]; [by left|right]. exists c. by eapply rq_world. Qed.

(** What the fiber does with the first bytes. *)
Definition is_get (c : list Z) : bool := existsb (fun name => starts_with name c) [GET; HEAD].
Definition is_post (c : list Z) : bool := existsb (fun name => starts_with name c) [POST; PUT].
Definition serve (c : list Z) : HS unit :=
  (if is_get c then handle_get o stale max_req_size user_func
   else if is_post c then handle_post o stale max_req_size user_func
   else http_server_response o stale HTTP_STATUS_501 HTTP_CONTENT_TYPE_TEXT_PLAIN);;
  finish_request.

Lemma fiber_main_runs server s : starts server s ->
  (exists e s', http_server_fiber_main o stale max_req_size user_func server s = Some (inl e, s') /\
     (stays_open (fb_input s) -> Z.of_nat (length (bytes_of (fb_input s))) <= max_req_size -> (length (bytes_of (fb_input s)) <= 5)%nat))
  \/ exists c s', http_server_fiber_main o stale max_req_size user_func server s = serve c s' /\ ready c s' /\ (5 < length c)%nat
      /\ bytes_of (fb_input s) = c ++ bytes_of (fb_input s') /\ fb_sent s' = fb_sent s /\ fb_accepts s' = fb_accepts s
      /\ persistent (fb_ctx s') = false /\ (stays_open (fb_input s) -> stays_open (fb_input s')).
Proof.
  intros [Hr Hh Hp Hi Hf]. unfold http_server_fiber_main.
  rewrite (fb_bind_eval (modify_ctx _) _ s tt (set_ctx s (with_persistent (fb_ctx s) false)) eq_refl). set (s0 := set_ctx _ _).
  destruct (startable_eval _ (request_of s0) Hr) as (r1 & st1 & E1 & H1). rewrite (fb_bind_eval _ _ _ _ _ (on_buffer_eval request_field _ _ _ _ E1)). set (s1 := put_request s0 st1).
  destruct (startable_eval (init_header_size server) (header_of s1)) as (r2 & st2 & E2 & H2); [by eapply startable_world|].
  rewrite (fb_bind_eval _ _ _ _ _ (on_buffer_eval header_field _ _ _ _ E2)). set (s2 := put_header s1 st2).
  destruct (startable_eval (init_payload_size server) (payload_of s2)) as (r3 & st3 & E3 & H3); [by eapply startable_world|].
  rewrite (fb_bind_eval _ _ _ _ _ (on_buffer_eval payload_field _ _ _ _ E3)). set (s3 := put_payload s2 st3).
  assert (Hready : ready [] s3).
  { split; [destruct st1; by eapply rq_world|destruct st2; by eapply rq_world|destruct st3; done|done|done]. }
  destruct (read_from_socket_runs o stale limit Hlimit Hgrow max_req_size [] s3 Hready) as ([e|[]] & s4 & E4 & H4).
  { left. exists e, s4. split; [by rewrite (fb_bind_exit _ _ _ _ _ E4)|]. intros Ho Hmax. cbn [app] in H4. change (fb_input s3) with (fb_input s) in H4.
    destruct (fb_input s) as [|x l]; [cbn; lia|]. specialize (H4 ltac:(done) Ho). lia. }
  rewrite (fb_bind_eval _ _ _ _ _ E4). destruct H4 as (d & Ht & _).
  destruct (read_while_not_runs o stale limit Hlimit Hgrow max_req_size _ (fun c => Z.of_nat (length c) >? MIN_HTTP_REQ_SIZE) (fun _ _ => True) 0
    has_method_eval d s4 (tk_ready _ _ _ _ _ Ht) ltac:(lia)) as ([e|[]] & s5 & E5 & H5).
  { left. exists e, s5. split; [by rewrite (fb_bind_exit _ _ _ _ _ E5)|]. intros Ho Hmax.
    pose proof (tk_bytes _ _ _ _ _ Ht) as Hb. change (fb_input s3) with (fb_input s) in Hb. rewrite <- Hb in H5.
    specialize (H5 (tk_open _ _ _ _ _ Ht Ho) Hmax). rewrite Z.gtb_ltb in H5. apply Z.ltb_ge in H5. unfold MIN_HTTP_REQ_SIZE in H5. lia. }
  right. rewrite (fb_bind_eval _ _ _ _ _ E5). destruct H5 as (d2 & Ht2 & Hlen & _). rewrite Z.gtb_ltb in Hlen. apply Z.ltb_lt in Hlen.
  pose proof (took_trans _ _ _ _ _ _ _ Ht Ht2) as Htt. cbn [app] in Htt. exists (d ++ d2), s5.
  pose proof (tk_ready _ _ _ _ _ Htt) as Hr5. cbn [app] in Hr5.
  assert (Em : forall names, on_request (method_is names) s5 = Some (inr (existsb (fun name => starts_with name (d ++ d2)) names), s5)).
  { intros names. apply (on_buffer_read request_field). unfold method_is. by rewrite (bind_eval _ _ _ _ _ (rq_data _ _ (rd_request _ _ _ Hr5))). }
  rewrite (fb_bind_eval _ _ _ _ _ (Em [GET; HEAD])), (fb_bind_eval _ _ _ _ _ (Em [POST; PUT])). split; [done|].
  destruct Htt as [_ [Hb Ha Hsn [v Hv] _ Ho _]]. unfold MIN_HTTP_REQ_SIZE in Hlen. repeat (split; [done || lia|]). split; [by rewrite Hv|done].
Qed.

(** ** The methods *)
Definition verb (m : list Z) : Prop := 32 ∉ m /\ 0 ∉ m /\ 13 ∉ m.

Lemma is_get_split c : is_get c = true -> exists m c1, c = m ++ 32 :: c1 /\ verb m.
Proof.
  unfold is_get. cbn [existsb]. rewrite !orb_true_iff, !starts_with_spec. intros [[r ->]|[[r ->]|]]; [| |done].
  - exists (str "GET"), r. split; [done|]. repeat split; by_computation.
  - exists (str "HEAD"), r. split; [done|]. repeat split; by_computation.
Qed.
Lemma is_post_split c : is_post c = true -> exists m c1, c = m ++ 32 :: c1 /\ verb m.
Proof.
  unfold is_post. cbn [existsb]. rewrite !orb_true_iff, !starts_with_spec. intros [[r ->]|[[r ->]|]]; [| |done].
  - exists (str "POST"), r. split; [done|]. repeat split; by_computation.
  - exists (str "PUT"), r. split; [done|]. repeat split; by_computation.
Qed.

(** ** Every run ends without an access outside of the buffers *)
Definition served (s : hs) : Prop :=
  (exists wl p, rq wl p (request_of s)) /\ (exists h, contains h (header_of s)) /\ (exists p, contains p (payload_of s)).

Lemma finish_request_ends s : served s -> exists e s', finish_request s = Some (inl e, s').
Proof.
  intros (_ & [h Hh] & [p Hp]). unfold finish_request. rewrite (fb_bind_eval _ _ _ _ _ (on_buffer_read header_field _ _ _ (rq_wlocpos _ _ _ Hh))).
  destruct (_ >? 0).
  - destruct (http_server_write_runs h p s Hh Hp) as ([e|x] & s1 & E & _); [by rewrite (fb_bind_exit _ _ _ _ _ E); eexists _, _|].
    rewrite (fb_bind_eval _ _ _ _ _ E). by eexists _, _.
  - by eexists _, _.
Qed.

Lemma expect_continue_runs c head s : ready c s ->
  runs (expect_continue o stale head) s (fun r s' => match r with
    | inl _ => strstr EXPECT_100 head <> None
    | inr _ => ready c s' /\ fb_input s' = fb_input s /\ (strstr EXPECT_100 head = None -> s' = s)
    end).
Proof.
  intros Hr. unfold expect_continue. case_bool_decide as Hex; [|exists (inr tt), s; repeat split; done || apply Hr].
  assert (Hne : strstr EXPECT_100 head <> None) by (by apply not_eq_None_Some).
  destruct Hr as [Hq Hh Hp Hi Hf].
  destruct (header_sprintf_eval o stale limit Hlimit Hgrow [] (HTTP_SERVER_VER ++ str " " ++ HTTP_STATUS_100 ++ CRLFCRLF) s Hh) as (st & E & Hst); [done|cbn; unfold VMBUF_HEADER; lia|].
  unfold runs. rewrite (fb_bind_eval _ _ _ _ _ E). rewrite <- (buffer_of_put header_field s st) in Hst. apply runs_bind.
  eapply runs_mono; [eapply (http_server_write_runs _ [] (put_header s st) Hst); by eapply rq_world|].
  intros [e|res] s1 (Hw & Hin & b & Hctx); [done|]. destruct (res <? 0); [by eexists _, s1|].
  assert (Hst1 : contains ([] ++ HTTP_SERVER_VER ++ str " " ++ HTTP_STATUS_100 ++ CRLFCRLF) (header_of s1)).
  { unfold buffer_of. rewrite Hctx. cbn. eapply rq_world. exact Hst. }
  destruct (contains_reset _ _ Hst1) as (st2 & E2 & Hst2). unfold runs, on_header. rewrite (on_buffer_eval header_field _ _ _ _ E2). eexists _, _. split; [reflexivity|].
  split; [|split; [exact Hin|done]]. split; cbn [fb_input put_header].
  - unfold buffer_of. cbn. rewrite Hctx. eapply rq_world. exact Hq.
  - by rewrite (buffer_of_put header_field).
  - unfold buffer_of. cbn. rewrite Hctx. eapply rq_world. exact Hp.
  - by rewrite Hin.
  - by rewrite Hin.
Qed.

(** Whatever length the headers state, the user's function gets valid buffers. *)
Lemma handle_content_safe m rest e s ofs n : ready (m ++ 32 :: rest ++ 0 :: e) s -> verb m -> 0 ∉ rest ->
  (exists x s', handle_content o stale max_req_size user_func ofs n s = Some (inl x, s'))
  \/ exists s', handle_content o stale max_req_size user_func ofs n s = user_func s' /\ served s'.
Proof.
  intros Hr (Hm & Hm0 & Hm13) Hrest.
  destruct (handle_content_runs o stale limit Hlimit Hgrow max_req_size user_func m rest e s ofs n Hr Hm Hm0 Hrest)
    as [(x & s' & E & _)|(d & x & s' & E & HN & Hq & _ & _ & _ & v & Hctx)]; [left; by exists x, s'|right].
  set (L := (m ++ [0]) ++ target_of rest ++ 0 :: after_target rest (e ++ d ++ [x])) in *. set (N := Z.to_nat (u64 (ofs + n))) in *.
  assert (Hk : <[N := 0]> L !! length ((m ++ [0]) ++ target_of rest) = Some 0).
  { assert (HL : L !! length ((m ++ [0]) ++ target_of rest) = Some 0) by (unfold L; rewrite app_assoc; by apply list_lookup_middle).
    destruct (decide (N = length ((m ++ [0]) ++ target_of rest))) as [->|]; [|by rewrite list_lookup_insert_ne].
    apply list_lookup_insert_eq. by eapply lookup_lt_Some. }
  destruct (string_from _ (length (m ++ [0])) _ Hk) as (a & t & b & HL & Ha & Ht); [rewrite (length_app (m ++ [0])); lia|].
  rewrite HL in Hq. destruct (process_request_eval user_func _ _ _ _ (Z.of_nat (length (m ++ [0]) + headers_ofs rest)) _ Hq Ht) as (u & q & st & E' & Hst & _).
  rewrite Ha in E'. rewrite E, E'. eexists. split; [reflexivity|]. destruct Hr as [_ Hh Hp _ _]. split; [|split].
  - rewrite <- (buffer_of_put request_field s' st) in Hst. eexists _, _. exact Hst.
  - exists []. unfold buffer_of. cbn. rewrite Hctx. eapply rq_world. exact Hh.
  - exists []. unfold buffer_of. cbn. rewrite Hctx. eapply rq_world. exact Hp.
Qed.

(** What a branch of the fiber may do before the end: close the connection, answer itself, or call the user's function. *)
Definition branch_safe (k : HS unit) (s : hs) : Prop :=
  (exists e s', k s = Some (inl e, s')) \/ (exists s', k s = Some (inr tt, s') /\ served s') \/ exists s', k s = user_func s' /\ served s'.

Lemma response_served status c s : ready c s -> short status HTTP_CONTENT_TYPE_TEXT_PLAIN ->
  exists s', http_server_response o stale status HTTP_CONTENT_TYPE_TEXT_PLAIN s = Some (inr tt, s') /\ served s'.
Proof.
  intros [Hq Hh Hp _ _] Hs. destruct (http_server_response_eval o stale limit Hlimit Hgrow [] [] status HTTP_CONTENT_TYPE_TEXT_PLAIN s Hh Hp Hs) as (st & E & Hst).
  eexists. split; [exact E|]. rewrite <- (buffer_of_put header_field s st) in Hst. split; [|split].
  - eexists _, _. eapply rq_world. exact Hq.
  - by eexists.
  - exists []. eapply rq_world. exact Hp.
Qed.

Lemma handle_get_safe c s : ready c s -> (5 < length c)%nat -> is_get c = true -> branch_safe (handle_get o stale max_req_size user_func) s.
Proof.
  intros Hr Hl (m & c1 & -> & Hm & Hm0 & Hm13)%is_get_split.
  destruct (handle_get_runs o stale limit Hlimit Hgrow max_req_size user_func m c1 s Hr Hl Hm Hm0 Hm13)
    as [(e & s' & E & _)|(d & y & s' & E & _ & _ & Hd & Hq & _)]; [left; by exists e, s'|]. do 2 right. exists s'. split; [done|].
  split; [done|]. destruct Hd. split; by exists [].
Qed.

Lemma handle_post_safe c s : ready c s -> is_post c = true -> branch_safe (handle_post o stale max_req_size user_func) s.
Proof.
  intros Hr (m & c1 & -> & Hv)%is_post_split. pose proof Hv as (Hm & Hm0 & Hm13).
  destruct (handle_post_runs o stale limit Hlimit Hgrow max_req_size user_func m c1 s Hr Hm Hm0 Hm13)
    as [(e & s' & E & _)|(d & rest & w & s' & E & _ & _ & H0 & Hr' & _)]; [left; by exists e, s'|].
  unfold branch_safe. rewrite E. rewrite <- app_assoc in Hr'. set (head := m ++ 32 :: rest) in *. unfold handle_post_headers.
  destruct (expect_continue_runs _ head s' Hr') as ([e|[]] & s1 & E1 & H1); [left; exists e, s1; by rewrite (fb_bind_exit _ _ _ _ _ E1)|].
  rewrite (fb_bind_eval _ _ _ _ _ E1). destruct H1 as ([Hq Hh Hp Hi Hf] & _ & _).
  rewrite (fb_bind_eval (modify_ctx _) _ _ tt (set_ctx s1 (with_persistent (fb_ctx s1) (check_persistent head))) eq_refl). set (s2 := set_ctx _ _).
  assert (Hr2 : ready (m ++ 32 :: rest ++ 0 :: [10; 13; 10] ++ w) s2) by (split; done).
  destruct (strcasestr CONTENT_LENGTH head) as [j|].
  - destruct (handle_content_safe m rest _ s2 (Z.of_nat (length head + length CRLFCRLF)) (u64 (atoi (drop (j + length CONTENT_LENGTH) head))) Hr2 Hv H0) as [H1|H1]; auto.
  - right. left. eapply response_served; [exact Hr2|unfold short; cbn; lia].
Qed.

(** The user's function keeps the buffers valid. *)
Hypothesis Huser : forall s, served s -> runs user_func s (fun _ s' => served s').

Lemma serve_ends k s : branch_safe k s -> exists e s', (k;; finish_request) s = Some (inl e, s').
Proof.
  intros [(e & s' & E)|[(s' & E & Hs')|(s' & E & Hs')]].
  - exists e, s'. by rewrite (fb_bind_exit _ _ _ _ _ E).
  - rewrite (fb_bind_eval _ _ _ _ _ E). by apply finish_request_ends.
  - destruct (Huser s' Hs') as ([e|[]] & s1 & E1 & Hs1); rewrite E1 in E.
    + exists e, s1. by rewrite (fb_bind_exit _ _ _ _ _ E).
    + rewrite (fb_bind_eval _ _ _ _ _ E). by apply finish_request_ends.
Qed.
End Run.

(** C9: the fiber of a connection always comes to an end and never accesses memory outside of its
    buffers, whatever bytes the client sends (negative, huge or missing lengths, NULs, no line
    ends), however they are split, however the connection ends, and whatever the socket accepts;
    the user's function is only assumed to keep the buffers valid. *)
Theorem http_server_fiber_safe `{address_space} (o : os) (stale : Z -> Z -> Z) (limit max_req_size : Z) (user_func : HS unit) (server : http_server) (s : hs)
  (Hlimit : 4096 <= limit <= 2 ^ 60) (Hgrow : can_grow_to o (limit + 4096))
  (Huser : forall s, served s -> runs user_func s (fun _ s' => served s'))
  (Hstarts : starts o limit server s) :
  exists e s', http_server_fiber_main o stale max_req_size user_func server s = Some (inl e, s').
Proof.
  destruct (fiber_main_runs o stale limit Hlimit Hgrow max_req_size user_func server s Hstarts) as [(e & s' & E & _)|(c & s' & E & Hr & Hl & _)]; [by exists e, s'|].
  rewrite E. unfold serve. apply (serve_ends user_func Huser). destruct (is_get c) eqn:Eg; [by eapply handle_get_safe|].
  destruct (is_post c) eqn:Ep; [by eapply handle_post_safe|]. right. left. eapply response_served; [done|done|exact Hr|unfold short; cbn; lia].
Qed.
