(* ===== verification/HttpServerRequests.v ===== *)
(** * HttpServerRequests: well-formed requests, end to end

    A request that arrives in any pieces is given to the user's function with its address,
    query, headers and content, and what that function answers is what the client gets. *)

From Stdlib Require Import String.
From stdpp Require Import base numbers functions list gmap.
From Stdlib Require Import ZArith Lia.
From S2P Require Import Prelude Words Os Mempool Memalloc Vmbuf VmbufFacts Cstring HttpText Connection HttpServer HttpServerFacts HttpFiberFacts HttpServerRun.

(** What the user's function finds in its context. *)
Record user_sees (target hdrs : list Z) (keep : bool) (s : hs) : Prop := {
  us_uri : on_request (peek_str (uri (fb_ctx s))) s = Some (inr (path_of target), s);
  us_query : on_request (peek_str (query (fb_ctx s))) s = Some (inr (query_of target), s);
  us_headers : on_request (peek_str (headers (fb_ctx s))) s = Some (inr hdrs, s);
  us_persistent : persistent (fb_ctx s) = keep;
  us_header : contains [] (header_of s);
  us_payload : contains [] (payload_of s);
}.

Lemma dispatched_sees m target version hdrs s : well_formed target version hdrs -> dispatched m (line_rest target version hdrs) s ->
  user_sees target hdrs (check_persistent (request_head m target version hdrs)) s.
Proof.
  intros (_ & Ht & Hh & Hne)%line_rest_split [Hu Hq Hhd Hp He Hpl]. specialize (Hhd Hne). rewrite Ht, Hh in *.
  split; [by apply (on_buffer_read request_field)|by apply (on_buffer_read request_field)|by apply (on_buffer_read request_field)|done|done|done].
Qed.

(** What is sent before the content of a request is read: [100 Continue], where the client
    expects it. *)
Definition interim (head : list Z) : list Z :=
  if bool_decide (is_Some (strstr EXPECT_100 head)) then HTTP_SERVER_VER ++ str " " ++ HTTP_STATUS_100 ++ CRLFCRLF else [].

(** Sooner or later the socket takes all of [t]. *)
Definition socket_takes (t : list Z) (accepts : list Z) : Prop :=
  t = [] \/ Forall (fun n => n = -1 \/ 0 < n) accepts /\ Z.of_nat (length t) <= foldr (fun n t => Z.max 0 n + t) 0 accepts.

(** It is sent once, and not kept in the header buffer. *)
Lemma expect_continue_sends `{address_space} (o : os) (stale : Z -> Z -> Z) (limit : Z) (Hlimit : 4096 <= limit <= 2 ^ 60) (Hgrow : can_grow_to o (limit + 4096)) c head s :
  ready limit c s -> socket_takes (interim head) (fb_accepts s) ->
  exists s', expect_continue o stale head s = Some (inr tt, s') /\ ready limit c s' /\ fb_input s' = fb_input s /\ fb_sent s' = fb_sent s ++ interim head.
Proof.
  intros Hr. unfold expect_continue, interim. case_bool_decide as Hex; [|exists s; rewrite app_nil_r; done].
  set (t := HTTP_SERVER_VER ++ str " " ++ HTTP_STATUS_100 ++ CRLFCRLF). assert (Ht : t <> []) by done. intros [?|[Hacc Hsum]]; [done|]. destruct Hr as [Hq Hh Hp Hi Hf].
  destruct (header_sprintf_eval o stale limit Hlimit Hgrow [] t s Hh) as (st & E & Hst); [done|cbn; unfold VMBUF_HEADER; lia|]. rewrite (fb_bind_eval _ _ _ _ _ E). cbn [app] in Hst.
  assert (Hhd : contains t (header_of (put_header s st))) by (by rewrite (buffer_of_put header_field)). assert (Hpl : contains [] (payload_of (put_header s st))) by (by eapply rq_world).
  destruct (write_vectors_progress (fb_accepts s) t [] Hacc) as [acc Ew]; [by rewrite app_nil_r|done|]. rewrite app_nil_r in Ew.
  assert (E1 : _http_server_write (put_header s st) = Some (inr 0, Fiber (fb_world (put_header s st)) (fb_ctx (put_header s st)) (fb_input s) acc (fb_sent s ++ t))).
  { rewrite (http_server_write_eval _ [] _ Hhd Hpl). unfold send_vectors. cbn [fb_accepts put_buffer]. by rewrite Ew. }
  rewrite (fb_bind_eval _ _ _ _ _ E1). cbn [Z.ltb Z.compare]. set (s1 := Fiber _ _ _ _ _). destruct (contains_reset t (header_of s1) Hhd) as (st2 & E2 & Hst2).
  unfold on_header. rewrite (on_buffer_eval header_field _ _ _ _ E2). eexists. split; [reflexivity|]. split; [|done]. split; [by eapply rq_world|by rewrite (buffer_of_put header_field)|by eapply rq_world|done|done].
Qed.

Section Requests.
Context `{address_space} (o : os) (stale : Z -> Z -> Z) (limit : Z) (Hlimit : 4096 <= limit <= 2 ^ 60) (Hgrow : can_grow_to o (limit + 4096)).
Context (max_req_size : Z) (user_func : HS unit) (server : http_server) (s : hs) (Hstarts : starts o limit server s) (Hopen : stays_open (fb_input s)).

(** The request arrives, with [head] before its first empty line. *)
Context (m target version hdrs body : list Z) (Hwf : well_formed target version hdrs).
Let head := request_head m target version hdrs.
Context (Hbytes : bytes_of (fb_input s) = head ++ CRLFCRLF ++ body) (Hfirst : strstr CRLFCRLF (head ++ CRLFCRLF) = Some (length head))
  (Hmax : Z.of_nat (length (head ++ CRLFCRLF ++ body)) <= max_req_size).

Definition runs_user (s' : hs) : Prop := http_server_fiber_main o stale max_req_size user_func server s = (user_func;; finish_request) s'.

(** More than the method is read before the fiber looks at it. *)
Lemma request_starts : (3 <= length m <= 4)%nat -> exists c s1, http_server_fiber_main o stale max_req_size user_func server s = serve o stale max_req_size user_func c s1
  /\ ready limit c s1 /\ (5 < length c)%nat /\ head ++ CRLFCRLF ++ body = c ++ bytes_of (fb_input s1) /\ fb_sent s1 = fb_sent s /\ fb_accepts s1 = fb_accepts s
  /\ stays_open (fb_input s1) /\ exists c1, c = m ++ 32 :: c1.
Proof.
  intros Hm. destruct (fiber_main_runs o stale limit Hlimit Hgrow max_req_size user_func server s Hstarts)
    as [(e & s' & E & Hend)|(c & s' & E & Hr & Hl & Hb & Hsn & Ha & _ & Ho)].
  - rewrite Hbytes in Hend. specialize (Hend Hopen Hmax). exfalso. revert Hend. unfold head, request_head. rewrite !length_app. cbn [length]. pose proof (eq_refl : length CRLFCRLF = 4%nat). lia.
  - exists c, s'. rewrite Hbytes in Hb. do 6 (split; [auto|]). split; [auto|]. exists (drop (length m + 1) c).
    assert (E1 : take (length m + 1) c = m ++ [32]).
    { assert (take (length m + 1) (c ++ bytes_of (fb_input s')) = m ++ [32]) as E1.
      { rewrite <- Hb. unfold head, request_head. rewrite <- app_assoc. rewrite take_app_add. done. }
      by rewrite take_app_le in E1 by lia. }
    rewrite <- (take_drop (length m + 1) c) at 1. rewrite E1, <- app_assoc. done.
Qed.

Lemma not_post_get : m = str "GET" \/ m = str "HEAD" -> forall c1, is_get (m ++ 32 :: c1) = true.
Proof. intros [->| ->] c1; [done|]. unfold is_get. cbn. done. Qed.
Lemma post_not_get : m = str "POST" \/ m = str "PUT" -> forall c1, is_get (m ++ 32 :: c1) = false /\ is_post (m ++ 32 :: c1) = true.
Proof. by intros [->| ->] c1. Qed.

Lemma serve_user (k : HS unit) s1 s' : k s1 = user_func s' -> (k;; finish_request) s1 = (user_func;; finish_request) s'.
Proof. intros E. unfold mbind, FB_bind. by rewrite E. Qed.

Lemma get_dispatch : m = str "GET" \/ m = str "HEAD" -> body = [] ->
  exists s', runs_user s' /\ user_sees target hdrs (check_persistent head) s'
    /\ content (fb_ctx s') = None /\ content_len (fb_ctx s') = 0 /\ fb_sent s' = fb_sent s /\ fb_accepts s' = fb_accepts s.
Proof.
  intros Hm Hbody. assert (Hv : verb m) by (destruct Hm as [->| ->]; repeat split; by_computation).
  destruct request_starts as (c & s1 & E & Hr & Hl & Hb & Hsn & Ha & Ho & c1 & ->); [destruct Hm as [->| ->]; cbn; lia|].
  unfold runs_user. rewrite E. unfold serve. rewrite not_post_get by done. pose proof Hmax as Hmax'. rewrite Hbody, app_nil_r in Hb, Hmax'. destruct Hv as (Hm32 & Hm0 & Hm13).
  destruct (handle_get_runs o stale limit Hlimit Hgrow max_req_size user_func m c1 s1 Hr Hl Hm32 Hm0 Hm13)
    as [(e & s' & _ & Hend)|(d & y & s' & E1 & Hy & Hb1 & Hd & _ & Hc & Hcl & Hsn1 & Ha1)].
  - exfalso. rewrite <- Hb in Hend. specialize (Hend Ho Hmax'). unfold headers_end in Hend. apply bool_decide_eq_false in Hend. apply Hend.
    rewrite length_app, Nat.add_sub. apply drop_app_length.
  - assert (Hreq : head ++ CRLFCRLF = (m ++ 32 :: y) ++ CRLFCRLF).
    { rewrite Hb1, app_assoc, Hy in Hb. destruct (strstr CRLFCRLF ((m ++ 32 :: y) ++ CRLFCRLF)) as [j|] eqn:Ej;
        [|exfalso; apply (strstr_occurs CRLFCRLF (m ++ 32 :: y) []); by rewrite app_nil_r].
      pose proof (strstr_bound _ _ _ Ej) as Hj. apply (strstr_extend _ _ (bytes_of (fb_input s'))) in Ej. rewrite <- Hb, Hfirst in Ej. injection Ej as <-.
      rewrite Hb. destruct (bytes_of (fb_input s')) as [|x r]; [by rewrite app_nil_r|]. apply (f_equal length) in Hb. rewrite !length_app in *. cbn [length] in *. lia. }
    apply app_inv_tail in Hreq. unfold head, request_head in Hreq. apply app_inv_head in Hreq. injection Hreq as <-.
    destruct (line_rest_split _ _ _ Hwf) as (H0 & _). rewrite text_id in Hd by done.
    exists s'. split; [by apply serve_user|]. split; [by eapply dispatched_sees|]. split; [done|]. split; [done|]. split; congruence.
Qed.

(** *** POST and PUT *)

Lemma head_text : verb m -> 0 ∉ head ++ CRLFCRLF.
Proof.
  intros (_ & Hm0 & _). destruct (line_rest_split _ _ _ Hwf) as (H0 & _). unfold head, request_head. rewrite !elem_of_app, elem_of_cons.
  intros [[?|[?|?]]|Hin]; [done|lia|done|]. revert Hin. change (0 ∉ CRLFCRLF). by_computation.
Qed.

Lemma first_in_text d rest w z : verb m -> head ++ CRLFCRLF ++ body = d ++ z -> d = (m ++ 32 :: rest) ++ CRLFCRLF ++ w ->
  strstr CRLFCRLF (text d) = Some (length (m ++ 32 :: rest)) -> rest = line_rest target version hdrs /\ body = w ++ z.
Proof.
  intros Hv Hb Hd Hs. destruct (first_empty_line _ _ _ _ _ _ (head_text Hv) Hfirst Hb Hs) as (Hlen & w' & Hd' & Hbody).
  rewrite Hd in Hd'. apply app_inj_1 in Hd' as [Hh Hw]; [|done]. apply app_inv_head in Hw. subst w'. split; [|done].
  unfold head, request_head in Hh. apply app_inv_head in Hh. by injection Hh.
Qed.

(** The length the headers state, as the code reads it, and the byte it terminates. *)
Context (j : nat) (Hlength : strcasestr CONTENT_LENGTH head = Some j) (Hsocket : socket_takes (interim head) (fb_accepts s)).
Let content_length := u64 (atoi (drop (j + length CONTENT_LENGTH) head)).
Let ofs := Z.of_nat (length head + length CRLFCRLF).

(** If that byte is behind the headers and not behind the request, the user's function is called. *)
Lemma post_dispatch pre : m = str "POST" \/ m = str "PUT" -> u64 (ofs + content_length) = Z.of_nat (length head + 1 + length pre) ->
  (length head + 1 + length pre <= length (head ++ CRLFCRLF ++ body))%nat ->
  (forall d z x, body = d ++ z -> (length head + 1 + length pre <= length (head ++ CRLFCRLF ++ d))%nat -> exists y post, [10; 13; 10] ++ d ++ [x] = pre ++ y :: post) ->
  exists s' w post wl, runs_user s' /\ user_sees target hdrs (check_persistent head) s'
    /\ content (fb_ctx s') = Some ofs /\ content_len (fb_ctx s') = u32 content_length /\ fb_sent s' = fb_sent s ++ interim head
    /\ length w = length head /\ rq wl (w ++ 0 :: pre ++ 0 :: post) (request_of s').
Proof.
  intros Hm HN Hfit Hpre. assert (Hv : verb m) by (destruct Hm as [->| ->]; repeat split; by_computation). pose proof Hv as (Hm32 & Hm0 & Hm13).
  destruct request_starts as (c & s1 & E & Hr & Hl & Hb & Hsn & Ha & Ho & c1 & ->); [destruct Hm as [->| ->]; cbn; lia|].
  unfold runs_user. rewrite E. unfold serve. destruct (post_not_get Hm c1) as [-> ->].
  destruct (handle_post_runs o stale limit Hlimit Hgrow max_req_size user_func m c1 s1 Hr Hm32 Hm0 Hm13)
    as [(e & s' & _ & Hend)|(d & rest & w & s2 & E2 & Hd & Hs & H0 & Hr2 & [Hb2 Ha2 Hsn2 _ _ Ho2 _])].
  { exfalso. rewrite <- Hb in Hend. specialize (Hend Ho Hmax). unfold headers_in in Hend. apply bool_decide_eq_false in Hend. apply Hend.
    rewrite (empty_line_found _ _ _ (head_text Hv) Hfirst). by eexists. }
  rewrite Hb2, (app_assoc (m ++ 32 :: c1)) in Hb. destruct (first_in_text _ rest w _ Hv Hb Hd Hs) as [-> Hbody]. fold (request_head m target version hdrs) in *. fold head in E2, Hr2, Hd.
  unfold handle_post_headers in E2. destruct (expect_continue_sends o stale limit Hlimit Hgrow _ head s2 Hr2) as (s3 & E3 & Hr3 & Hi3 & Hsn3); [rewrite Ha2, Ha; exact Hsocket|].
  rewrite (fb_bind_eval _ _ _ _ _ E3) in E2. rewrite <- Hi3 in Ho2, Hbody. rewrite Hsn2, Hsn in Hsn3. clear Hr2 Hb2 Ha2 Hsn2 E3 Hi3 Hb. clear s2. rename s3 into s2, Hr3 into Hr2.
  rewrite (fb_bind_eval (modify_ctx _) _ _ tt (set_ctx s2 (with_persistent (fb_ctx s2) (check_persistent head))) eq_refl), Hlength in E2. set (s3 := set_ctx _ _) in E2.
  fold content_length ofs in E2. set (rest := line_rest target version hdrs) in *.
  assert (Hr3 : ready limit (m ++ 32 :: rest ++ 0 :: [10; 13; 10] ++ w) s3).
  { unfold head, request_head in Hr2. rewrite <- app_assoc in Hr2. by destruct Hr2. }
  assert (Hlen : forall z, length ((m ++ 32 :: rest ++ 0 :: [10; 13; 10] ++ w) ++ z) = length (head ++ CRLFCRLF ++ w ++ z)).
  { intros z. unfold head, request_head. fold rest. pose proof (eq_refl : length CRLFCRLF = 4%nat). repeat (rewrite length_app || cbn [length]). lia. }
  destruct (handle_content_runs o stale limit Hlimit Hgrow max_req_size user_func m rest _ s3 ofs content_length Hr3 Hm32 Hm0 H0)
    as [(e & s' & _ & Hend)|(d2 & x & s4 & E4 & HN4 & Hq4 & Hb4 & Hsn4 & Ha4 & v & Hctx4)].
  { exfalso. rewrite Hlen in Hend. change (fb_input s3) with (fb_input s2) in Hend. rewrite <- Hbody in Hend. specialize (Hend (Ho2 Ho) Hmax). lia. }
  rewrite HN, Nat2Z.id, Hlen in HN4. rewrite Hlen, HN, Nat2Z.id in Hq4. change (fb_input s3) with (fb_input s2) in Hb4. rewrite Hb4, app_assoc in Hbody.
  destruct (Hpre _ _ x Hbody HN4) as (y & post & Hpost). rewrite <- (app_assoc [10; 13; 10] w), (app_assoc w), Hpost in Hq4.
  destruct (behind_line (m ++ [0]) rest) as (W & HW & EW). rewrite EW in Hq4.
  assert (HlW : length W = length head) by (rewrite HW; unfold head, request_head; fold rest; rewrite !length_app; cbn [length]; lia).
  rewrite insert_behind in Hq4 by lia.
  rewrite <- EW in Hq4.
  destruct (process_dispatched user_func _ m rest (pre ++ 0 :: post) s4 Hq4 H0) as (u & q & st & E5 & Hdp & w' & Hw' & Hq5).
  - unfold buffer_of. rewrite Hctx4. eapply rq_world. exact (rd_header _ _ _ Hr3).
  - unfold buffer_of. rewrite Hctx4. eapply rq_world. exact (rd_payload _ _ _ Hr3).
  - by rewrite Hctx4.
  - eexists _, w', post, _. split; [apply serve_user; rewrite E2, E4; exact E5|]. split; [by eapply dispatched_sees|].
    cbn. rewrite Hctx4. do 2 (split; [done|]). split; [rewrite Hsn4; exact Hsn3|]. split; [done|]. exact Hq5.
Qed.
End Requests.

(** ** Responding *)
Section Respond.
Context `{address_space} (o : os) (stale : Z -> Z -> Z) (limit : Z) (Hlimit : 4096 <= limit <= 2 ^ 60) (Hgrow : can_grow_to o (limit + 4096)).

Lemma response_vsprintf_eval status content_type t s : contains [] (header_of s) -> contains [] (payload_of s) -> short status content_type ->
  Z.of_nat (length t) <= INT_MAX -> 2 * Z.of_nat (length t) + VMBUF_HEADER <= limit ->
  exists s', http_server_response_vsprintf o stale status content_type (Some t) s = Some (inr tt, s')
    /\ contains (response_text (persistent (fb_ctx s)) status content_type (Z.of_nat (length t))) (header_of s') /\ contains t (payload_of s')
    /\ persistent (fb_ctx s') = persistent (fb_ctx s) /\ fb_accepts s' = fb_accepts s /\ fb_sent s' = fb_sent s.
Proof.
  intros Hh Hp Hl Ht Hlim. unfold http_server_response_vsprintf.
  destruct (contains_reset _ _ Hh) as (st1 & E1 & H1). rewrite (fb_bind_eval _ _ _ _ _ (on_buffer_eval header_field _ _ _ _ E1)).
  destruct (contains_reset [] (payload_of (put_header s st1))) as (st2 & E2 & H2); [by eapply rq_world|].
  rewrite (fb_bind_eval _ _ _ _ _ (on_buffer_eval payload_field _ _ _ _ E2)).
  set (s2 := put_payload _ st2). destruct (header_start_eval o stale limit Hlimit Hgrow status content_type s2) as (st3 & E3 & H3); [destruct st1; by eapply rq_world|done|].
  rewrite (fb_bind_eval _ _ _ _ _ E3). set (s3 := put_header s2 st3).
  destruct (contains_sprintf o stale limit Hlimit Hgrow [] t (payload_of s3)) as (st4 & E4 & H4); [destruct st2; by eapply rq_world|done|done|].
  rewrite (fb_bind_eval _ _ _ _ _ (on_buffer_eval payload_field _ _ _ _ E4)). set (s4 := put_payload s3 st4).
  destruct (response_tail_eval o stale limit Hlimit Hgrow (persistent (fb_ctx s2)) status content_type t s4) as (st5 & E5 & H5);
    [destruct st3; by eapply rq_world|by destruct st4|done|].
  eexists. split; [exact E5|]. split; [by rewrite (buffer_of_put header_field)|]. split; [destruct st4; by eapply rq_world|done].
Qed.

Lemma finish_request_sends h p s : contains h (header_of s) -> contains p (payload_of s) -> h <> [] ->
  Forall (fun n => n = -1 \/ 0 < n) (fb_accepts s) -> Z.of_nat (length (h ++ p)) <= foldr (fun n t => Z.max 0 n + t) 0 (fb_accepts s) ->
  exists s', finish_request s = Some (inl (if persistent (fb_ctx s) then Idle else Closed), s') /\ fb_sent s' = fb_sent s ++ h ++ p.
Proof.
  intros Hh Hp Hne Hacc Hsum. unfold finish_request. rewrite (fb_bind_eval _ _ _ _ _ (on_buffer_read header_field _ _ _ (rq_wlocpos _ _ _ Hh))).
  rewrite Z.gtb_ltb, (proj2 (Z.ltb_lt 0 _)) by (destruct h; [done|cbn; lia]).
  destruct (write_vectors_progress _ h p Hacc Hsum Hne) as [acc E].
  assert (Ew : _http_server_write s = Some (inr 0, Fiber (fb_world s) (fb_ctx s) (fb_input s) acc (fb_sent s ++ h ++ p))).
  { rewrite (http_server_write_eval h p s Hh Hp). unfold send_vectors. by rewrite E. }
  rewrite (fb_bind_eval _ _ _ _ _ Ew). by eexists.
Qed.

(** A GET or HEAD request whose answer is a formatted text. *)
Lemma answers_get max_req_size status content_type t server s m target version hdrs : starts o limit server s -> stays_open (fb_input s) ->
  m = str "GET" \/ m = str "HEAD" -> well_formed target version hdrs -> bytes_of (fb_input s) = request_head m target version hdrs ++ CRLFCRLF ->
  strstr CRLFCRLF (request_head m target version hdrs ++ CRLFCRLF) = Some (length (request_head m target version hdrs)) ->
  Z.of_nat (length (request_head m target version hdrs ++ CRLFCRLF)) <= max_req_size ->
  short status content_type -> Z.of_nat (length t) <= INT_MAX -> 2 * Z.of_nat (length t) + VMBUF_HEADER <= limit -> Forall (fun n => n = -1 \/ 0 < n) (fb_accepts s) ->
  Z.of_nat (length (response_text (check_persistent (request_head m target version hdrs)) status content_type (Z.of_nat (length t)) ++ t))
    <= foldr (fun n t => Z.max 0 n + t) 0 (fb_accepts s) ->
  exists s', http_server_fiber_main o stale max_req_size (http_server_response_vsprintf o stale status content_type (Some t)) server s
      = Some (inl (if check_persistent (request_head m target version hdrs) then Idle else Closed), s')
    /\ fb_sent s' = fb_sent s ++ response_text (check_persistent (request_head m target version hdrs)) status content_type (Z.of_nat (length t)) ++ t.
Proof.
  intros Hstarts Hopen Hm Hwf Hbytes Hfirst Hmax Hshort Ht Hfits Hacc Hsum.
  set (head := request_head m target version hdrs) in *.
  destruct (get_dispatch o stale limit Hlimit Hgrow max_req_size (http_server_response_vsprintf o stale status content_type (Some t)) server s
    Hstarts Hopen m target version hdrs [] Hwf) as (s1 & Hu & [_ _ _ Hk Hh Hp] & _ & _ & Hsn & Ha); rewrite ?app_nil_r; try done.
  fold head in Hk. rewrite Hu.
  destruct (response_vsprintf_eval status content_type t s1 Hh Hp Hshort Ht Hfits) as (s2 & E2 & Hh2 & Hp2 & Hk2 & Ha2 & Hsn2).
  rewrite (fb_bind_eval _ _ _ _ _ E2). rewrite Hk in Hh2. destruct (finish_request_sends _ _ _ Hh2 Hp2) as (s3 & E3 & Hs3).
  - by destruct (check_persistent head).
  - by rewrite Ha2, Ha.
  - by rewrite Ha2, Ha.
  - exists s3. rewrite Hk2, Hk in E3. split; [done|]. by rewrite Hs3, Hsn2, Hsn.
Qed.
End Respond.

(** A GET or HEAD request that arrives in any pieces is given to the user's function, once all
    of it is there: with the path and the query of its address (of an absolute address without the
    scheme and the host), its headers, whether the connection is to be kept, no content, and empty
    response buffers; nothing has been sent. *)
Theorem http_server_get_request `{address_space} (o : os) (stale : Z -> Z -> Z) (limit max_req_size : Z) (user_func : HS unit) (server : http_server) (s : hs)
  (m target version hdrs : list Z) (Hlimit : 4096 <= limit <= 2 ^ 60) (Hgrow : can_grow_to o (limit + 4096)) (Hstarts : starts o limit server s)
  (Hopen : stays_open (fb_input s)) (Hm : m = str "GET" \/ m = str "HEAD") (Hwf : well_formed target version hdrs)
  (Hbytes : bytes_of (fb_input s) = request_head m target version hdrs ++ CRLFCRLF)
  (Hfirst : strstr CRLFCRLF (request_head m target version hdrs ++ CRLFCRLF) = Some (length (request_head m target version hdrs)))
  (Hmax : Z.of_nat (length (request_head m target version hdrs ++ CRLFCRLF)) <= max_req_size) :
  exists s', http_server_fiber_main o stale max_req_size user_func server s = (user_func;; finish_request) s'
    /\ user_sees target hdrs (check_persistent (request_head m target version hdrs)) s'
    /\ content (fb_ctx s') = None /\ content_len (fb_ctx s') = 0 /\ fb_sent s' = fb_sent s.
Proof.
  destruct (get_dispatch o stale limit Hlimit Hgrow max_req_size user_func server s Hstarts Hopen m target version hdrs [] Hwf) as (s' & Hu & Hs & Hc & Hl & Hsn & _);
    rewrite ?app_nil_r; try done. by exists s'.
Qed.

(** C10: a POST or PUT request with a content length, in any pieces, is given to the user's function
    once its content is there, with the same fields as GET, and with the content, its length and a
    terminator behind it.  If the request has an [Expect: 100] header, and the socket takes it, exactly
    the interim response [100 Continue] has been sent; else nothing.  In both cases the response
    buffers are empty. *)
Theorem http_server_post_request `{address_space} (o : os) (stale : Z -> Z -> Z) (limit max_req_size : Z) (user_func : HS unit) (server : http_server) (s : hs)
  (m target version hdrs body : list Z) (j : nat) (Hlimit : 4096 <= limit <= 2 ^ 60) (Hgrow : can_grow_to o (limit + 4096)) (Hstarts : starts o limit server s)
  (Hopen : stays_open (fb_input s)) (Hm : m = str "POST" \/ m = str "PUT") (Hwf : well_formed target version hdrs)
  (Hbytes : bytes_of (fb_input s) = request_head m target version hdrs ++ CRLFCRLF ++ body)
  (Hfirst : strstr CRLFCRLF (request_head m target version hdrs ++ CRLFCRLF) = Some (length (request_head m target version hdrs)))
  (Hmax : Z.of_nat (length (request_head m target version hdrs ++ CRLFCRLF ++ body)) <= max_req_size)
  (Hsocket : socket_takes (interim (request_head m target version hdrs)) (fb_accepts s))
  (Hlength : strcasestr CONTENT_LENGTH (request_head m target version hdrs) = Some j)
  (Hcl : atoi (drop (j + length CONTENT_LENGTH) (request_head m target version hdrs)) = Z.of_nat (length body)) :
  exists s' ofs, http_server_fiber_main o stale max_req_size user_func server s = (user_func;; finish_request) s'
    /\ user_sees target hdrs (check_persistent (request_head m target version hdrs)) s'
    /\ content (fb_ctx s') = Some ofs /\ content_len (fb_ctx s') = Z.of_nat (length body)
    /\ on_request (peek_bytes ofs (length body + 1)) s' = Some (inr (body ++ [0]), s')
    /\ fb_sent s' = fb_sent s ++ interim (request_head m target version hdrs).
Proof.
  set (head := request_head m target version hdrs) in *. pose proof (eq_refl : length CRLFCRLF = 4%nat) as H4.
  assert (Hsmall : 2 * Z.of_nat (length (head ++ CRLFCRLF ++ body)) + VMBUF_HEADER <= limit) by (rewrite <- Hbytes; apply (st_fits _ _ _ _ Hstarts)).
  rewrite !length_app in Hsmall. unfold VMBUF_HEADER in Hsmall.
  destruct (post_dispatch o stale limit Hlimit Hgrow max_req_size user_func server s Hstarts Hopen m target version hdrs body Hwf Hbytes Hfirst Hmax
    j Hlength Hsocket ([10; 13; 10] ++ body) Hm) as (s' & w & post & wl & Hu & Hs & Hc & Hl & Hsn & Hw & Hq); fold head; rewrite ?Hcl.
  - rewrite (u64_small (Z.of_nat (length body))), u64_small by (cbn; lia). cbn. lia.
  - rewrite !length_app. cbn. lia.
  - intros d z x Hd Hle. exists x, []. subst body. assert (z = []) as ->; [|by rewrite app_nil_r, <- app_assoc].
    rewrite !length_app in Hle. cbn in Hle. destruct z; [done|cbn in Hle; lia].
  - exists s', (Z.of_nat (length head + length CRLFCRLF)). split; [exact Hu|]. split; [exact Hs|]. split; [exact Hc|]. fold head in Hl. rewrite Hcl in Hl.
    split; [|split; [|done]].
    + assert (- 2 ^ 31 <= atoi (drop (j + length CONTENT_LENGTH) head) < 2 ^ 31) by apply atoi_range. rewrite Hl, u64_small, u32_small by lia. done.
    + apply (on_buffer_read request_field). fold head in Hw. replace (length head + length CRLFCRLF)%nat with (length (w ++ [0; 10; 13; 10])) by (rewrite length_app, Hw; cbn; lia).
      apply (rq_peek_bytes wl _ (body ++ [0]) post); [|by rewrite length_app]. rewrite <- !app_assoc. exact Hq.
Qed.

(** C34: the length is not checked for a sign: a POST or PUT request with the content length -1 (and
    without [Expect: 100]) is given to the user's function as soon as its headers are there, with a [content_len] of
    4294967295, however much content has been read. *)
Theorem http_server_negative_length `{address_space} (o : os) (stale : Z -> Z -> Z) (limit max_req_size : Z) (user_func : HS unit) (server : http_server) (s : hs)
  (m target version hdrs body : list Z) (j : nat) (Hlimit : 4096 <= limit <= 2 ^ 60) (Hgrow : can_grow_to o (limit + 4096)) (Hstarts : starts o limit server s)
  (Hopen : stays_open (fb_input s)) (Hm : m = str "POST" \/ m = str "PUT") (Hwf : well_formed target version hdrs)
  (Hbytes : bytes_of (fb_input s) = request_head m target version hdrs ++ CRLFCRLF ++ body)
  (Hfirst : strstr CRLFCRLF (request_head m target version hdrs ++ CRLFCRLF) = Some (length (request_head m target version hdrs)))
  (Hmax : Z.of_nat (length (request_head m target version hdrs ++ CRLFCRLF ++ body)) <= max_req_size)
  (Hexpect : strstr EXPECT_100 (request_head m target version hdrs) = None)
  (Hlength : strcasestr CONTENT_LENGTH (request_head m target version hdrs) = Some j)
  (Hcl : atoi (drop (j + length CONTENT_LENGTH) (request_head m target version hdrs)) = -1) :
  exists s', http_server_fiber_main o stale max_req_size user_func server s = (user_func;; finish_request) s'
    /\ user_sees target hdrs (check_persistent (request_head m target version hdrs)) s' /\ content_len (fb_ctx s') = 4294967295.
Proof.
  set (head := request_head m target version hdrs) in *. pose proof (eq_refl : length CRLFCRLF = 4%nat) as H4.
  assert (Hsmall : 2 * Z.of_nat (length (head ++ CRLFCRLF ++ body)) + VMBUF_HEADER <= limit) by (rewrite <- Hbytes; apply (st_fits _ _ _ _ Hstarts)).
  rewrite !length_app in Hsmall. unfold VMBUF_HEADER in Hsmall.
  assert (Hsocket : socket_takes (interim head) (fb_accepts s)) by (left; unfold interim; by rewrite Hexpect).
  destruct (post_dispatch o stale limit Hlimit Hgrow max_req_size user_func server s Hstarts Hopen m target version hdrs body Hwf Hbytes Hfirst Hmax
    j Hlength Hsocket [10; 13] Hm) as (s' & w & post & wl & Hu & Hs & Hc & Hl & _); fold head; rewrite ?Hcl.
  - change (u64 (-1)) with (2 ^ 64 - 1). unfold u64. replace (Z.of_nat (length head + length CRLFCRLF) + (2 ^ 64 - 1))
      with (Z.of_nat (length head + 3) + 1 * 2 ^ 64) by lia. rewrite Z_mod_plus_full, Z.mod_small by lia. cbn. lia.
  - rewrite !length_app. cbn. lia.
  - intros d z x _ _. by exists 10, (d ++ [x]).
  - exists s'. split; [exact Hu|]. split; [exact Hs|]. rewrite Hl. fold head. by rewrite Hcl.
Qed.

(** End to end: if the user's function answers with a formatted text, the client that sent a
    GET request gets the status line, the headers with the length of the text, and the text, in
    order and once, however little the socket accepts per call; the connection is then kept
    exactly if the request asks for it. *)
Theorem http_server_serves `{address_space} (o : os) (stale : Z -> Z -> Z) (limit max_req_size : Z) (status content_type t : list Z) (server : http_server) (s : hs)
  (m target version hdrs : list Z) (Hlimit : 4096 <= limit <= 2 ^ 60) (Hgrow : can_grow_to o (limit + 4096)) (Hstarts : starts o limit server s)
  (Hopen : stays_open (fb_input s)) (Hm : m = str "GET" \/ m = str "HEAD") (Hwf : well_formed target version hdrs)
  (Hbytes : bytes_of (fb_input s) = request_head m target version hdrs ++ CRLFCRLF)
  (Hfirst : strstr CRLFCRLF (request_head m target version hdrs ++ CRLFCRLF) = Some (length (request_head m target version hdrs)))
  (Hmax : Z.of_nat (length (request_head m target version hdrs ++ CRLFCRLF)) <= max_req_size)
  (Hshort : short status content_type) (Ht : Z.of_nat (length t) <= INT_MAX) (Hfits : 2 * Z.of_nat (length t) + VMBUF_HEADER <= limit)
  (Hacc : Forall (fun n => n = -1 \/ 0 < n) (fb_accepts s))
  (Hsum : Z.of_nat (length (response_text (check_persistent (request_head m target version hdrs)) status content_type (Z.of_nat (length t)) ++ t))
          <= foldr (fun n t => Z.max 0 n + t) 0 (fb_accepts s)) :
  exists s', http_server_fiber_main o stale max_req_size (http_server_response_vsprintf o stale status content_type (Some t)) server s
      = Some (inl (if check_persistent (request_head m target version hdrs) then Idle else Closed), s')
    /\ fb_sent s' = fb_sent s ++ response_text (check_persistent (request_head m target version hdrs)) status content_type (Z.of_nat (length t)) ++ t.
Proof. by eapply answers_get. Qed.

(** *** Examples *)
Definition hs_fresh (input : list (list (list Z) * read_end)) (accepts : list Z) : hs :=
  Fiber vb_world (HttpServerContext VMBUF_INITIALIZER VMBUF_INITIALIZER VMBUF_INITIALIZER 0 0 0 None 0 false) input accepts [].
Definition demo_server : http_server := HttpServer 8192 8192 8192.

Definition no_stale (_ _ : Z) : Z := 0.
Definition demo_target : list Z := str "http://h/p?q=1".
Definition demo_get : list (list (list Z) * read_end) :=
  [([str "GE"], Eagain); ([str "T http://h/p?"; str "q=1 HTTP/1.1"], Eagain); ([CRLF ++ str "Host: h" ++ [13]; [10; 13]], Eagain); ([[10]], Eagain)].

Lemma fresh_starts input accepts : input_ok input -> 2 * Z.of_nat (length (bytes_of input)) + VMBUF_HEADER <= 2 ^ 20 ->
  starts os_all_ok (2 ^ 20) demo_server (hs_fresh input accepts).
Proof. intros Hi Hf. split; try done; left; by repeat split. Qed.

Lemma http_server_get_request_witness :
  exists s', http_server_fiber_main os_all_ok no_stale 1000 (mret tt) demo_server (hs_fresh demo_get [])
      = (mret tt;; finish_request) s'
    /\ user_sees demo_target (str "Host: h") true s'
    /\ content (fb_ctx s') = None /\ content_len (fb_ctx s') = 0 /\ fb_sent s' = [].
Proof.
  apply (http_server_get_request os_all_ok no_stale (2 ^ 20) 1000 (mret tt) demo_server (hs_fresh demo_get []) (str "GET") demo_target (str "HTTP/1.1") (str "Host: h")).
  - lia.
  - by intros ? ? _.
  - apply fresh_starts; [repeat constructor; done|vm_compute; congruence].
  - repeat constructor.
  - by left.
  - split; [repeat split; by_computation|split; by_computation|by_computation].
  - reflexivity.
  - reflexivity.
  - vm_compute. congruence.
Defined.

Definition demo_post (len : string) : list (list (list Z) * read_end) :=
  [([str "PUT / HTTP/1.0" ++ CRLF ++ str "content-length: " ++ str len ++ CRLF], Eagain); ([CRLF; str "ab"], Eagain); ([[0; 99]], Eagain)].
Definition demo_hdrs (len : string) : list Z := str "content-length: " ++ str len.

(** The client waits for the interim response, which the socket takes in two pieces. *)
Definition demo_expect_hdrs : list Z := demo_hdrs "4" ++ CRLF ++ str "Expect: 100-continue".
Definition demo_expect : list (list (list Z) * read_end) :=
  [([str "PUT / HTTP/1.0" ++ CRLF ++ demo_expect_hdrs ++ CRLF], Eagain); ([CRLF; str "ab"], Eagain); ([[0; 99]], Eagain)].

Lemma http_server_post_request_witness :
  exists s' ofs, http_server_fiber_main os_all_ok no_stale 1000 (mret tt) demo_server (hs_fresh demo_expect [7; -1; 100])
      = (mret tt;; finish_request) s'
    /\ user_sees (str "/") demo_expect_hdrs false s'
    /\ content (fb_ctx s') = Some ofs /\ content_len (fb_ctx s') = 4
    /\ on_request (peek_bytes ofs 5) s' = Some (inr (str "ab" ++ [0; 99; 0]), s') /\ fb_sent s' = str "HTTP/1.1 100 Continue" ++ CRLFCRLF.
Proof.
  apply (http_server_post_request os_all_ok no_stale (2 ^ 20) 1000 (mret tt) demo_server (hs_fresh demo_expect [7; -1; 100]) (str "PUT") (str "/") (str "HTTP/1.0")
    demo_expect_hdrs (str "ab" ++ [0; 99]) 14).
  - lia.
  - by intros ? ? _.
  - apply fresh_starts; [repeat constructor; done|vm_compute; congruence].
  - repeat constructor.
  - by right.
  - split; [repeat split; by_computation|split; by_computation|by_computation].
  - reflexivity.
  - reflexivity.
  - vm_compute. congruence.
  - right. split; [repeat (constructor; [cbn; lia|]); constructor|vm_compute; congruence].
  - reflexivity.
  - reflexivity.
Defined.

Lemma http_server_negative_length_witness :
  exists s', http_server_fiber_main os_all_ok no_stale 1000 (mret tt) demo_server (hs_fresh (demo_post "-1") [])
      = (mret tt;; finish_request) s'
    /\ user_sees (str "/") (demo_hdrs "-1") false s' /\ content_len (fb_ctx s') = 4294967295.
Proof.
  apply (http_server_negative_length os_all_ok no_stale (2 ^ 20) 1000 (mret tt) demo_server (hs_fresh (demo_post "-1") []) (str "PUT") (str "/") (str "HTTP/1.0")
    (demo_hdrs "-1") (str "ab" ++ [0; 99]) 14).
  - lia.
  - by intros ? ? _.
  - apply fresh_starts; [repeat constructor; done|vm_compute; congruence].
  - repeat constructor.
  - by right.
  - split; [repeat split; by_computation|split; by_computation|by_computation].
  - reflexivity.
  - reflexivity.
  - vm_compute. congruence.
  - reflexivity.
  - reflexivity.
  - reflexivity.
Defined.

Definition demo_response : list Z := response_text true (str "200 OK") (str "text/plain") 5 ++ str "hello".

Lemma http_server_serves_witness :
  exists s', http_server_fiber_main os_all_ok no_stale 1000 (http_server_response_vsprintf os_all_ok no_stale (str "200 OK") (str "text/plain") (Some (str "hello")))
      demo_server (hs_fresh demo_get [7; -1; 100; 1; 100]) = Some (inl Idle, s')
    /\ fb_sent s' = demo_response.
Proof.
  apply (http_server_serves os_all_ok no_stale (2 ^ 20) 1000 (str "200 OK") (str "text/plain") (str "hello") demo_server (hs_fresh demo_get [7; -1; 100; 1; 100])
    (str "GET") demo_target (str "HTTP/1.1") (str "Host: h")).
  - lia.
  - by intros ? ? _.
  - apply fresh_starts; [repeat constructor; done|vm_compute; congruence].
  - repeat constructor.
  - by left.
  - split; [repeat split; by_computation|split; by_computation|by_computation].
  - reflexivity.
  - reflexivity.
  - vm_compute. congruence.
  - unfold short. cbn. lia.
  - vm_compute. congruence.
  - vm_compute. congruence.
  - cbn. repeat (constructor; [lia|]). constructor.
  - vm_compute. congruence.
Defined.

(** An answer of the user's function that any state allows. *)
Lemma response_keeps_served : forall s, served s -> runs (http_server_response os_all_ok no_stale (str "200 OK") (str "text/plain")) s (fun _ s' => served s').
Proof.
  intros s (Hq & [h Hh] & [p Hp]).
  destruct (http_server_response_eval os_all_ok no_stale (2 ^ 20) ltac:(lia) ltac:(by intros ? ? _) h p (str "200 OK") (str "text/plain") s Hh Hp) as (st & E & Hst);
    [unfold short; cbn; lia|].
  eexists _, _. split; [exact E|]. split; [|split].
  - destruct Hq as (wl & q & Hq). eexists _, _. eapply rq_world. exact Hq.
  - eexists. rewrite (buffer_of_put header_field). exact Hst.
  - eexists. eapply rq_world. exact Hp.
Qed.

Lemma http_server_fiber_safe_witness :
  exists e s', http_server_fiber_main os_all_ok no_stale 1000 (http_server_response os_all_ok no_stale (str "200 OK") (str "text/plain"))
    demo_server (hs_fresh [([str "POST "; [0; 255; 13]], Eof)] [-2]) = Some (inl e, s').
Proof.
  apply (http_server_fiber_safe os_all_ok no_stale (2 ^ 20) 1000 _ demo_server).
  - lia.
  - by intros ? ? _.
  - apply response_keeps_served.
  - apply fresh_starts; [repeat constructor; done|vm_compute; congruence].
Defined.
