(* ===== verification/HttpFileServer.v ===== *)
(** * HttpFileServer: serving files ([include/http_file_server.h], [src/http_file_server.c]), and
    the functions of [src/http_server.c] that send files

    The file server turns the path of a request into the name of a file below its directory, and
    sends the file, a compressed copy of it that it keeps beside it, a list of the files of a
    directory, or an error.  It runs in the fiber of a connection ([HttpServer.v]), on the files
    of [Disk.v]. *)

From Stdlib Require Import String.
From stdpp Require Import base numbers list gmap.
From Stdlib Require Import ZArith Lia.
From S2P Require Import Prelude Words Os Disk Vmallocator Probe ProbeFacts Hashtable Mempool Memalloc Vmbuf Cstring Uri HttpHeaders FileMapper MimeTypes Calendar HttpText Connection HttpServer.

Definition HTTP_STATUS_200 : list Z := str "200 OK".
Definition HTTP_STATUS_304 : list Z := str "304 Not Modified".
Definition HTTP_STATUS_403 : list Z := str "403 Forbidden".
Definition HTTP_STATUS_404 : list Z := str "404 Not Found".
Definition HTTP_STATUS_500 : list Z := str "500 Internal Server Error".
Definition HTTP_CONTENT_TYPE_TEXT_HTML : list Z := str "text/html".
Definition RIBS_GZ_EXT : list Z := str "._ribs_gz_".
Definition HTTP_SERVER_NOT_FOUND : Z := -2.
(** [%d] *)
Definition sdec (n : Z) : list Z := if n <? 0 then 45 :: dec (- n) else dec n.

(** ** The state of a request *)
Abbreviation sv := (fsys * (tree * hs))%type.
Definition SV (A : Type) : Type := sv -> option ((fiber_end + A) * sv).
#[export] Instance SV_ret : MRet SV := fun A x s => Some (inr x, s).
#[export] Instance SV_bind : MBind SV := fun A B k m s =>
  match m s with
  | Some (inr x, s) => k x s
  | Some (inl e, s) => Some (inl e, s)
  | None => None
  end.
(** A system call, the fiber, what may fail by an access outside of memory. *)
Definition sys {A} (m : ST sv A) : SV A := fun s => match m s with Some (x, s) => Some (inr x, s) | None => None end.
Definition in_fiber {A} (m : HS A) : SV A := fun '(fs, (t, s)) =>
  match m s with Some (x, s) => Some (x, (fs, (t, s))) | None => None end.
Definition checked {A} (x : option A) : SV A := fun s => match x with Some x => Some (inr x, s) | None => None end.
Definition sv_self : SV sv := fun s => Some (inr s, s).

(** zlib: the compressed form of some bytes, and which calls succeed. *)
Record zlib := {
  gz : list Z -> list Z;
  gz_opens : path -> bool;
  gz_writes : list Z -> Z;       (* what gzwrite returns *)
  gz_closes : path -> bool;
}.

(** ** State of the file server *)
Record http_file_server := HttpFileServer {
  base_dir : option path;
  allow_list : bool;
  max_age : Z;
  base_dir_len : Z;
  ht_ext_whitelist : hashtable;
  ht_ext_max_age : hashtable;
}.
Definition HTTP_FILE_SERVER_INITIALIZER : http_file_server := HttpFileServer None false 0 0 HASHTABLE_INITIALIZER HASHTABLE_INITIALIZER.

Section Config.
Context (o : os).

Definition http_file_server_init (fs : fsys) (t : tree) (v : http_file_server) : option (http_file_server * Z) :=
  match realpath fs t (default (str ".") (base_dir v)) with
  | None => Some (v, -1)
  | Some realname =>
      '(whitelist, r) ← hashtable_init o (ht_ext_whitelist v) 0;
      if r <? 0 then Some (HttpFileServer (Some realname) (allow_list v) (max_age v) (base_dir_len v) whitelist (ht_ext_max_age v), -1)
      else
        '(ages, r) ← hashtable_init o (ht_ext_max_age v) 0;
        if r <? 0 then Some (HttpFileServer (Some realname) (allow_list v) (max_age v) (base_dir_len v) whitelist ages, -1)
        else Some (HttpFileServer (Some realname) (allow_list v) (max_age v) (Z.of_nat (length realname)) whitelist ages, 0)
  end.

Definition http_file_server_gzip_ext (v : http_file_server) (ext : list Z) : option http_file_server :=
  '(ht, _) ← hashtable_insert o (ht_ext_whitelist v) ext [];
  Some (HttpFileServer (base_dir v) (allow_list v) (max_age v) (base_dir_len v) ht (ht_ext_max_age v)).

Definition http_file_server_max_age_ext (v : http_file_server) (ext : list Z) (age : Z) : option http_file_server :=
  '(ht, _) ← hashtable_insert o (ht_ext_max_age v) ext (bytes32 (u32 age));
  Some (HttpFileServer (base_dir v) (allow_list v) (max_age v) (base_dir_len v) (ht_ext_whitelist v) ht).
End Config.

Definition find_max_age (v : http_file_server) (ext : list Z) : option Z :=
  if 0 <? hashtable_get_size (ht_ext_max_age v) then
    ofs ← hashtable_lookup (ht_ext_max_age v) ext;
    Some (if ofs =? 0 then max_age v else int_of_long (get32 (hashtable_get_val (ht_ext_max_age v) ofs)))
  else Some (max_age v).

(** ** Requests *)
Section Requests.
Context `{address_space} (o : os) (stale : Z -> Z -> Z).

(** *** Sending a file *)

(** The loop of [_http_server_sendfile] from an offset: as [write_loop], for what [sendfile] returns.
    The end of the file is looked at after each call. *)
Fixpoint sendfile_loop (accepts : list Z) (data : list Z) (ofs size : Z) : option Z * list Z * list Z :=
  match accepts with
  | [] => (None, [], [])
  | n :: accepts =>
      if (n <? 0) && negb (n =? -1) then (Some (-1), [], accepts)
      else
        let part := take (Z.to_nat (Z.min n (size - ofs))) (drop (Z.to_nat ofs) data) in
        let ofs := ofs + Z.of_nat (length part) in
        if ofs >=? size then (Some 0, part, accepts)
        else let '(r, more, accepts) := sendfile_loop accepts data ofs size in (r, part ++ more, accepts)
  end.

Definition send_data (data : list Z) (size : Z) : HS Z := fun s =>
  let '(r, sent, accepts) := sendfile_loop (fb_accepts s) data 0 size in
  let c := match r with Some (-1) => with_persistent (fb_ctx s) false | _ => fb_ctx s end in
  let s := Fiber (fb_world s) c (fb_input s) accepts (fb_sent s ++ sent) in
  match r with Some r => Some (inr r, s) | None => Some (inl Blocked, s) end.

(** What a descriptor refers to. *)
Definition data_of_fd (ffd : Z) : SV (list Z) :=
  i ← sys (file_of ffd); s ← sv_self;
  checked (ino ← i; fs_data (fst s) !! ino).

Definition _http_server_sendfile (ffd size : Z) : SV Z := data ← data_of_fd ffd; in_fiber (send_data data size).

(** [TCP_CORK] only delays segments; the result of writing the header is not used. *)
Definition http_server_sendfile_payload (ffd size : Z) : SV Z :=
  in_fiber _http_server_write;;
  in_fiber (on_header vmbuf_reset);;
  _http_server_sendfile ffd size.

(** [open] follows links; [fstat] also gives the attributes. *)
Definition open_path (name : path) (flags : Z) : SV Z := s ← sv_self;
  match realpath (fst s) (fst (snd s)) name with
  | Some r => sys (sys_open_file o r flags)
  | None => mret (-1)
  end.
Definition sys_stat_fd (ffd : Z) : SV (option stat) :=
  size ← sys (fstat o ffd); i ← sys (file_of ffd); s ← sv_self;
  mret (n ← size; ino ← i; Some (stat_of (fst (snd s)) ino n)).
Definition close_file (ffd : Z) : SV unit := sys (close_fd o ffd);; mret tt.

(** [additional_headers] and [ext] may be NULL. *)
Definition http_server_sendfile2 (ht_mime_types : hashtable) (filename : path) (additional_headers ext : option (list Z)) : SV Z :=
  let filename := match filename with [] => str "." | _ => filename end in
  ffd ← open_path filename 0;
  if ffd <? 0 then mret HTTP_SERVER_NOT_FOUND
  else
    st ← sys_stat_fd ffd;
    match st with
    | None => close_file ffd;; mret HTTP_SERVER_NOT_FOUND
    | Some st =>
        if st_is_dir st then close_file ffd;; mret 1
        else
          in_fiber (on_header vmbuf_reset);;
          mime ← checked (match ext with Some ext => mime_types_by_ext ht_mime_types ext | None => mime_types_by_filename ht_mime_types filename end);
          in_fiber (http_server_header_start o stale HTTP_STATUS_200 mime);;
          in_fiber (header_sprintf o stale (CONTENT_LENGTH ++ dec (st_size st)));;
          match additional_headers with Some h => in_fiber (on_header (vmbuf_strcpy o stale h));; mret tt | None => mret tt end;;
          in_fiber (http_server_header_close o stale);;
          res ← http_server_sendfile_payload ffd (st_size st);
          close_file ffd;;
          mret res
    end.
Definition http_server_sendfile (ht_mime_types : hashtable) (filename : path) : SV Z := http_server_sendfile2 ht_mime_types filename None None.

(** *** Lists of directories *)
Section Listing.
(** The local time, if there is one; the port of the server. *)
Context (localtime : Z -> option tm) (port : Z).

Definition payload_sprintf (text : list Z) : HS unit := on_payload (vmbuf_sprintf o stale (Some text));; mret tt.
Definition payload_strcpy (text : list Z) : HS unit := on_payload (vmbuf_strcpy o stale text);; mret tt.
(** [vmbuf_strftime] grows by a page per round; a time has at most 64 characters. *)
Definition payload_strftime (text : list Z) : HS unit := on_payload (vmbuf_strftime o stale 2 text);; mret tt.

Definition listing_head (dir : list Z) : HS unit :=
  payload_sprintf (str "<html><head><title>Index of " ++ dir ++ str "</title></head>");;
  payload_strcpy (str "<body>");;
  payload_sprintf (str "<h1>Index of " ++ dir ++ str "</h1><hr>").

Definition list_parent : HS unit := payload_sprintf (str "<a href=" ++ quote ++ str ".." ++ quote ++ str ">../</a><br><br>").

Definition list_table : HS unit := payload_sprintf (str "<table width=" ++ quote ++ str "100%" ++ quote ++ str " border=" ++ quote ++ str "0" ++ quote ++ str ">").

(** The row of an entry; [None] is an [fstatat] that failed. *)
Definition list_entry (name : list Z) (st : option stat) : HS unit :=
  match st with
  | None => payload_sprintf (str "<tr><td>ERROR: " ++ name ++ str "</td><td>N/A</td></tr>")
  | Some st =>
      let slash := if st_is_dir st then str "/" else [] in
      payload_strcpy (str "<tr>");;
      payload_sprintf (str "<td><a href=" ++ quote ++ name ++ slash ++ quote ++ str ">" ++ name ++ slash ++ str "</a></td>");;
      payload_strcpy (str "<td>");;
      match localtime (st_mtime st) with Some v => payload_strftime (strftime (str "%F %T") v) | None => mret tt end;;
      payload_strcpy (str "</td>");;
      payload_sprintf (str "<td>" ++ dec (st_size st) ++ str "</td>");;
      payload_strcpy (str "</tr>")
  end.

(** Names that start with a dot are left out. *)
Fixpoint list_entries (entries : list (list Z * option stat)) : HS unit :=
  match entries with
  | [] => mret tt
  | (name, st) :: entries => (if starts_with (str ".") name then mret tt else list_entry name st);; list_entries entries
  end.

Definition list_foot : HS unit :=
  payload_strcpy (str "<tr><td colspan=3><hr></td></tr></table>");;
  payload_sprintf (str "<address>RIBS 2.0 Port " ++ dec (u16 port) ++ str "</address></body>");;
  payload_strcpy (str "</html>").

(** [opendir] and [readdir]: the entries with what [fstatat] says of them; nothing if the name is not a directory. *)
Definition read_dir (fs : fsys) (t : tree) (dir : path) : list (list Z * option stat) :=
  match r ← realpath fs t dir; ino ← fs_dir fs !! r; a_entries (attr_of t ino) with
  | Some entries => (fun n => (n, stat_name fs t (dir ++ 47 :: n))) <$> entries
  | None => []
  end.

Definition http_server_generate_dir_list (uri : list Z) : SV Z :=
  let dir := match uri with c :: r => if c =? 47 then r else uri | [] => [] end in
  let dir := match dir with [] => str "." | _ => dir end in
  in_fiber (listing_head dir);; in_fiber list_parent;; in_fiber list_table;;
  s ← sv_self;
  in_fiber (list_entries (read_dir (fst s) (fst (snd s)) dir));;
  in_fiber list_foot;;
  mret 0.

Definition http_file_server_list_dir (v : http_file_server) (realname : path) : SV Z :=
  let dir := drop (Z.to_nat (base_dir_len v)) realname in
  let dir := match dir with [] => str "/" | _ => dir end in
  in_fiber (listing_head dir);;
  (match dir with _ :: _ :: _ => in_fiber list_parent | _ => mret tt end);;
  in_fiber list_table;;
  s ← sv_self;
  in_fiber (list_entries (read_dir (fst s) (fst (snd s)) realname));;
  in_fiber list_foot;;
  in_fiber (http_server_response o stale HTTP_STATUS_200 HTTP_CONTENT_TYPE_TEXT_HTML);;
  mret 0.
End Listing.

(** *** The file server *)
Section FileServer.
(** zlib, the local time, the time, the port, the table of [mime_types.c], and what the table of
    headers needs. *)
Context (z : zlib) (localtime : Z -> option tm) (now port : Z) (ht_mime_types : hashtable).
Context (atof_positive : list Z -> bool) (ht_request_headers : hashtable).

Definition HTTP_FILE_SERVER_ERROR (status : list Z) : SV unit :=
  in_fiber (http_server_response_vsprintf o stale status HTTP_CONTENT_TYPE_TEXT_PLAIN (Some (status ++ [10]))).
(** [return HTTP_FILE_SERVER_ERROR(status), -1] *)
Definition error {A} (status : list Z) : SV (Z + A) := HTTP_FILE_SERVER_ERROR status;; mret (inl (-1)).

(** The name of the compressed file; [None] if it is too long. *)
Definition compressed_name (realname : path) : option path :=
  let name := match strrchr 47 realname with
              | Some base => take (length realname - length base - 1) realname ++ str "/" ++ RIBS_GZ_EXT ++ str "." ++ base
              | None => RIBS_GZ_EXT ++ str "." ++ realname
              end in
  if PATH_MAX <=? Z.of_nat (length name) then None else Some name.

(** [gzopen(name, "wb")]: the inode of the file, emptied or new. *)
Definition gz_create (name : path) : SV (option Z) := fun '(fs, (t, s)) =>
  if negb (gz_opens z name) then Some (inr None, (fs, (t, s)))
  else
    match realpath fs t name with
    | Some r =>
        match fs_dir fs !! r with
        | Some ino =>
            if bool_decide (is_Some (a_entries (attr_of t ino))) then Some (inr None, (fs, (t, s)))
            else Some (inr (Some ino), (Fsys (fs_dir fs) (<[ino := []]> (fs_data fs)) (fs_fds fs) (fs_next fs),
                                        (Tree (<[ino := Attr None now]> (t_attrs t)) (t_links t) (t_cwd t), s)))
        | None => Some (inr None, (fs, (t, s)))
        end
    | None =>
        if bool_decide (is_Some (t_links t !! name)) then Some (inr None, (fs, (t, s)))
        else
          let ino := fs_next fs in
          let base := default name (strrchr 47 name) in
          let add a := Attr ((fun e => e ++ [base]) <$> a_entries a) now in
          let attrs := match fs_dir fs !! take (length name - length base - 1) name with Some d => alter add d (t_attrs t) | None => t_attrs t end in
          Some (inr (Some ino), (Fsys (<[name := ino]> (fs_dir fs)) (<[ino := []]> (fs_data fs)) (fs_fds fs) (ino + 1),
                                 (Tree (<[ino := Attr None now]> attrs) (t_links t) (t_cwd t), s)))
    end.

(** [gzwrite] of [data], then [gzclose]; the result is the number of bytes written, or -1. *)
Definition gz_write_close (name : path) (ino : Z) (data : list Z) : SV Z := fun '(fs, x) =>
  let n := gz_writes z data in
  Some (inr (if gz_closes z name then n else -1),
        (Fsys (fs_dir fs) (<[ino := gz z (take (Z.to_nat n) data)]> (fs_data fs)) (fs_fds fs) (fs_next fs), x)).

(** The contents of a file through a [file_mapper] that is freed again. *)
Definition map_file (name : path) : SV (option (list Z)) := fun '(fs, x) =>
  match (r ← file_mapper_init o name;
         if r <? 0 then mret None
         else n ← file_mapper_size; data ← (if n =? 0 then mret [] else file_mapper_data 0 n); file_mapper_free o;; mret (Some data)) (fs, FILE_MAPPER_INITIALIZER) with
  | Some (res, (fs, _)) => Some (inr res, (fs, x))
  | None => None
  end.

Definition compress_file (realname gzname : path) : SV (Z + (Z * stat)) :=
  file ← gz_create gzname;
  match file with
  | None => error HTTP_STATUS_500
  | Some ino =>
      data ← map_file realname;
      match data with
      | None => r ← error HTTP_STATUS_404; gz_write_close gzname ino [];; mret r
      | Some data =>
          size ← gz_write_close gzname ino data;
          if negb (size =? Z.of_nat (length data)) then error HTTP_STATUS_500
          else
            ffd ← open_path gzname 0;
            if ffd <? 0 then error HTTP_STATUS_404
            else
              st ← sys_stat_fd ffd;
              match st with
              | None => r ← error HTTP_STATUS_500; close_file ffd;; mret r
              | Some st => mret (inr (ffd, st))
              end
      end
  end.

(** The compressed copy of a file, made again if it is older than the file. *)
Definition open_compressed (realname gzname : path) (orig_st : stat) : SV (Z + (Z * stat)) :=
  ffd ← open_path gzname 0;
  if ffd <? 0 then compress_file realname gzname
  else
    st ← sys_stat_fd ffd;
    match st with
    | None => r ← error HTTP_STATUS_500; close_file ffd;; mret r
    | Some st =>
        if st_mtime st <? st_mtime orig_st then close_file ffd;; compress_file realname gzname
        else mret (inr (ffd, st))
    end.

Definition answer_directory (v : http_file_server) (realname : path) : SV Z :=
  if allow_list v then http_file_server_list_dir localtime port v realname
  else HTTP_FILE_SERVER_ERROR HTTP_STATUS_403;; mret (-1).

(** The descriptor to send from, its state and that of the file itself, and whether it is compressed. *)
Definition choose_compressed (v : http_file_server) (realname : path) : SV (Z + (Z * stat * stat * bool)) := s ← sv_self;
  match stat_name (fst s) (fst (snd s)) realname with
  | None => error HTTP_STATUS_404
  | Some orig_st =>
      if st_is_dir orig_st then r ← answer_directory v realname; mret (inl r)
      else
        match compressed_name realname with
        | None => error HTTP_STATUS_403
        | Some gzname =>
            r ← open_compressed realname gzname orig_st;
            mret (match r with inl r => inl r | inr (ffd, st) => inr (ffd, st, orig_st, true) end)
        end
  end.

Definition choose_plain (realname : path) : SV (Z + (Z * stat * stat * bool)) :=
  ffd ← open_path realname 0;
  if ffd <? 0 then error HTTP_STATUS_404
  else
    st ← sys_stat_fd ffd;
    match st with
    | None => r ← error HTTP_STATUS_500; close_file ffd;; mret r
    | Some st => mret (inr (ffd, st, st, false))
    end.

(** [char etag[128]]; [None] if it does not fit. *)
Definition make_etag (mtime size : Z) : option (list Z) :=
  let date := strftime (CRLF ++ str "ETag: " ++ quote ++ str "%d%m%Y%H%M%S") (gmtime mtime) in
  let etag := date ++ dec size ++ quote in
  if (128 <=? Z.of_nat (length date)) || (128 <=? Z.of_nat (length etag)) then None else Some etag.

Definition IF_NONE_MATCH : nat := 7.
Definition http_date : list Z := str "%a, %d %b %Y %H:%M:%S GMT".

Definition header_strcpy (text : list Z) : HS unit := on_header (vmbuf_strcpy o stale text);; mret tt.
Definition header_strftime (text : list Z) : HS unit := on_header (vmbuf_strftime o stale 2 text);; mret tt.

(** The header of an answer; [mime] is there if the file is to follow. *)
Definition file_header (mime : option (list Z)) (etag : list Z) (age size mtime : Z) (compressed : bool) : HS unit :=
  match mime with
  | Some mime => http_server_header_start o stale HTTP_STATUS_200 mime
  | None => http_server_header_start_no_body o stale HTTP_STATUS_304
  end;;
  header_strcpy etag;;
  (if compressed && bool_decide (is_Some mime) then header_strcpy (CRLF ++ str "Content-Encoding: gzip") else mret tt);;
  header_sprintf o stale (CRLF ++ str "Cache-Control: max-age=" ++ sdec age);;
  header_strftime (strftime (CRLF ++ str "Date: " ++ http_date) (gmtime now));;
  header_strftime (strftime (CRLF ++ str "Expires: " ++ http_date) (gmtime (now + age)));;
  header_strftime (strftime (CRLF ++ str "Last-Modified: " ++ http_date) (gmtime mtime));;
  match mime with
  | Some _ => header_sprintf o stale (CRLF ++ str "Content-Length: " ++ dec size)
  | None => mret tt
  end;;
  header_strcpy CRLFCRLF.

Definition send_file (ext etag : list Z) (age ffd : Z) (st orig_st : stat) (compressed include_payload : bool) : SV Z :=
  mime ← (if include_payload then mime ← checked (mime_types_by_ext ht_mime_types ext); mret (Some mime) else mret None);
  in_fiber (file_header mime etag age (st_size st) (st_mtime orig_st) compressed);;
  res ← (if include_payload then http_server_sendfile_payload ffd (st_size st) else mret 0);
  close_file ffd;;
  mret res.

(** From [S_ISDIR] on. *)
Definition answer_file (v : http_file_server) (headers : http_headers) (ext : list Z) (realname : path) (ffd : Z) (st orig_st : stat) (compressed : bool) : SV Z :=
  if st_is_dir st then close_file ffd;; answer_directory v realname
  else
    age ← checked (find_max_age v ext);
    match make_etag (st_mtime orig_st) (st_size st) with
    | None => HTTP_FILE_SERVER_ERROR HTTP_STATUS_500;; close_file ffd;; mret (-1)
    | Some etag =>
        if_none_match ← checked (hh_strings headers !! IF_NONE_MATCH);
        send_file ext etag age ffd st orig_st compressed (negb (bool_decide (if_none_match = drop 8 etag)))
    end.

Definition base_name (v : http_file_server) : path := default [] (base_dir v).

(** [tmp] is taken to hold the name. *)
Definition http_file_server_run2 (v : http_file_server) (headers : http_headers) (file : list Z) : SV Z :=
  let ext := default [] (strrchr 46 file) in
  s ← sv_self;
  match realpath (fst s) (fst (snd s)) (base_name v ++ str "/" ++ file) with
  | None => HTTP_FILE_SERVER_ERROR HTTP_STATUS_404;; mret (-1)
  | Some realname =>
      if negb (starts_with (take (Z.to_nat (base_dir_len v)) (base_name v)) realname) then HTTP_FILE_SERVER_ERROR HTTP_STATUS_403;; mret (-1)
      else
        gzip ← checked (if Z.land (hh_accept_encoding_mask headers) HTTP_AE_GZIP =? 0 then Some 0 else hashtable_lookup (ht_ext_whitelist v) ext);
        r ← (if negb (gzip =? 0) then choose_compressed v realname else choose_plain realname);
        match r with
        | inl res => mret res
        | inr (ffd, st, orig_st, compressed) => answer_file v headers ext realname ffd st orig_st compressed
        end
  end.

(** The path is decoded in place.  The headers are cut into strings behind it. *)
Definition http_file_server_run (v : http_file_server) : SV Z :=
  c ← in_fiber get_ctx;
  text ← in_fiber (on_request (peek_str (headers c)));
  h ← checked (http_headers_parse atof_positive ht_request_headers text);
  target ← in_fiber (on_request (peek_str (uri c)));
  match target with
  | [] => HTTP_FILE_SERVER_ERROR HTTP_STATUS_403;; mret (-1)
  | _ =>
      in_fiber (on_request (poke (uri c) (fst (http_uri_decode target))));;
      file ← in_fiber (on_request (peek_str (uri c + 1)));
      http_file_server_run2 v h file
  end.
End FileServer.
End Requests.
