(* ===== verification/HttpFileServerFacts.v ===== *)
(** * HttpFileServerFacts: entity tags, and the answers of the file server *)

From Stdlib Require Import String.
From stdpp Require Import base numbers functions list gmap.
From Stdlib Require Import ZArith Lia.
From S2P Require Import Prelude Words Os Disk Vmallocator Probe ProbeFacts Hashtable HashtableFacts HashtableMap Mempool Memalloc Vmbuf VmbufFacts Cstring StringTable HttpHeaders FileMapper MimeTypes Calendar HttpText Connection HttpServer HttpServerFacts HttpServerRequests HttpFileServer.

(** ** Entity tags *)

Lemma dec_inj a b : 0 <= a < 10 ^ 20 -> 0 <= b < 10 ^ 20 -> dec a = dec b -> a = b.
Proof. intros (c & ds & E & _ & H & _)%dec_spec (c' & ds' & E' & _ & H' & _)%dec_spec. congruence. Qed.
Lemma two_digits_inj a b : 0 <= a < 100 -> 0 <= b < 100 -> two_digits a = two_digits b -> a = b.
Proof. unfold two_digits. intros Ha Hb [= E1 E2]. rewrite (Z_div_mod_eq_full a 10), (Z_div_mod_eq_full b 10). lia. Qed.
Lemma length_year y : 1000 <= y <= 9999 -> year_text y = dec y /\ length (dec y) = 4%nat.
Proof.
  intros Hy. unfold year_text. rewrite (proj2 (Z.ltb_ge y 0)) by lia. split; [done|]. unfold dec. cbn [dec_loop].
  rewrite (proj2 (Z.ltb_ge y 10)), (proj2 (Z.ltb_ge (y / 10) 10)), (proj2 (Z.ltb_ge (y / 10 / 10) 10)), (proj2 (Z.ltb_lt (y / 10 / 10 / 10) 10)) by calendar. done.
Qed.

(** Times with years of four digits. *)
Definition time_ok (t : Z) : Prop := 0 <= t < 253402300800.

(** The fourteen digits of a time. *)
Definition stamp (v : tm) : list Z := two_digits (tm_mday v) ++ two_digits (tm_mon v) ++ year_text (tm_year v) ++ two_digits (tm_hour v) ++ two_digits (tm_min v) ++ two_digits (tm_sec v).

Lemma length_stamp t : time_ok t -> length (stamp (gmtime t)) = 14%nat.
Proof. intros Ht. pose proof (gmtime_year t Ht). destruct (length_year (tm_year (gmtime t))) as [E El]; [lia|]. unfold stamp. rewrite E, !length_app, El. done. Qed.

Lemma stamp_inj t t' : time_ok t -> time_ok t' -> stamp (gmtime t) = stamp (gmtime t') -> t = t'.
Proof.
  intros Ht Ht' E. pose proof (gmtime_year t Ht). pose proof (gmtime_year t' Ht'). pose proof (gmtime_ranges t) as R. pose proof (gmtime_ranges t') as R'. cbv zeta in R, R'.
  destruct (length_year (tm_year (gmtime t))) as [Ey Hl]; [lia|]. destruct (length_year (tm_year (gmtime t'))) as [Ey' Hl']; [lia|]. rewrite <- (timegm_gmtime t), <- (timegm_gmtime t'). unfold stamp in E. rewrite Ey, Ey' in E.
  apply app_inj_1 in E as [E1 E]; [|done]. apply app_inj_1 in E as [E2 E]; [|done]. apply app_inj_1 in E as [E3 E]; [|congruence]. apply app_inj_1 in E as [E4 E]; [|done]. apply app_inj_1 in E as [E5 E6]; [|done].
  apply two_digits_inj in E1, E2, E4, E5, E6; try lia. apply dec_inj in E3; [|lia..]. unfold timegm. by rewrite E1, E2, E3, E4, E5, E6.
Qed.

(** The tag of a file, without the name of the header. *)
Definition etag (mtime size : Z) : list Z := quote ++ stamp (gmtime mtime) ++ dec size ++ quote.

Lemma make_etag_eval mtime size : time_ok mtime -> make_etag mtime size = Some (CRLF ++ str "ETag: " ++ etag mtime size).
Proof.
  intros Ht. unfold make_etag. change (strftime (CRLF ++ _) ?v) with (CRLF ++ str "ETag: " ++ quote ++ stamp v).
  pose proof (length_stamp mtime Ht) as Hs. pose proof (length_dec size) as Hd. unfold etag. rewrite !length_app, Hs. rewrite !(proj2 (Z.leb_gt 128 _)) by (change (length CRLF) with 2%nat; change (length (str "ETag: ")) with 6%nat; change (length quote) with 1%nat; lia).
  cbn [orb]. done.
Qed.

Lemma etag_inj m n m' n' : time_ok m -> time_ok m' -> 0 <= n < 2 ^ 63 -> 0 <= n' < 2 ^ 63 -> etag m n = etag m' n' -> m = m' /\ n = n'.
Proof.
  intros Hm Hm' Hn Hn' E. unfold etag in E. apply app_inj_1 in E as [_ E]; [|done]. apply app_inj_1 in E as [E1 E]; [|by rewrite !length_stamp]. apply app_inj_2 in E as [E2 _]; [|done].
  split; [by apply stamp_inj|]. apply dec_inj; [lia|lia|done].
Qed.

(** ** Text in the buffers *)
Lemma short_names (l : list (list Z)) n k : Forall (fun x => (length x <= k)%nat) l -> (length (default [] (l !! n)) <= k)%nat.
Proof. intros Hl. destruct (l !! n) as [x|] eqn:E; cbn; [|lia]. by eapply Forall_lookup_1 in Hl. Qed.

Lemma length_year_text y : (length (year_text y) <= 21)%nat.
Proof. unfold year_text. pose proof (length_dec y). pose proof (length_dec (- y)). destruct (y <? 0); cbn [length]; lia. Qed.

Lemma length_http_date v : (0 < length (strftime http_date v) <= 64)%nat.
Proof.
  change (strftime http_date v) with (default [] (weekdays !! Z.to_nat (tm_wday v)) ++ str ", " ++ two_digits (tm_mday v) ++ str " " ++ default [] (months !! Z.to_nat (tm_mon v - 1)) ++ str " "
    ++ year_text (tm_year v) ++ str " " ++ two_digits (tm_hour v) ++ str ":" ++ two_digits (tm_min v) ++ str ":" ++ two_digits (tm_sec v) ++ str " GMT").
  pose proof (length_year_text (tm_year v)). pose proof (short_names weekdays (Z.to_nat (tm_wday v)) 3 ltac:(repeat constructor)). pose proof (short_names months (Z.to_nat (tm_mon v - 1)) 3 ltac:(repeat constructor)).
  rewrite !length_app. cbn [length str two_digits list_ascii_of_string fmap list_fmap]. lia.
Qed.

(** Text without conversions. *)
Lemma strftime_prefix name f v : 37 ∉ name -> strftime (name ++ f) v = name ++ strftime f v.
Proof.
  induction name as [|c name IH]; intros Hc; [done|]. apply not_elem_of_cons in Hc as [Hc Hn]. rewrite <- app_comm_cons, <- app_comm_cons, <- IH by done.
  destruct (Z.eq_dec c 37); [congruence|]. cbn [strftime]. repeat (destruct c as [|c|c]; try done). 
Qed.

Section Text.
Context `{address_space} (o : os) (stale : Z -> Z -> Z) (limit : Z) (Hlimit : 4096 <= limit <= 2 ^ 31) (Hgrow : can_grow_to o (limit + 4096)) (keep : bool).
Lemma limit_range : 4096 <= limit <= 2 ^ 60.
Proof. lia. Qed.

Definition fits (c : list Z) : Prop := 2 * (Z.of_nat (length c) + 4096) + VMBUF_HEADER <= limit.

Lemma fits_prefix c d : fits (c ++ d) -> fits c.
Proof. unfold fits. rewrite length_app. lia. Qed.

(** [m] appends [t] to the buffer [f] of a connection that is kept or not, and does nothing else. *)
Definition appends (f : field http_server_context) (m : HS unit) (t : list Z) : Prop :=
  forall c s, persistent (fb_ctx s) = keep -> contains c (buffer_of f s) -> fits (c ++ t) -> exists st, m s = Some (inr tt, put_buffer f s st) /\ contains (c ++ t) st.

Section Field.
Context (f : field http_server_context) `{!LawfulField f} (Hkeep : forall c v, persistent (fld_set f c v) = persistent c).

Lemma appends_seq m m' t t' : appends f m t -> appends f m' t' -> appends f (m;; m') (t ++ t').
Proof.
  intros H1 H2 c s Hk Hc Hf. rewrite app_assoc in *. destruct (H1 c s Hk Hc (fits_prefix _ _ Hf)) as (st & E & Hst). rewrite (fb_bind_eval _ _ _ _ _ E).
  destruct (H2 (c ++ t) (put_buffer f s st)) as (st' & E' & Hst'); [cbn; by rewrite Hkeep|by rewrite (buffer_of_put f)|done|]. exists st'. split; [|done]. rewrite E'. unfold put_buffer. cbn. by rewrite fld_set_set.
Qed.
Lemma appends_nothing : appends f (mret tt) [].
Proof. intros c s _ Hc _. exists (buffer_of f s). rewrite app_nil_r, (put_buffer_same f). done. Qed.
Lemma appends_cond (b : bool) m t : appends f m t -> appends f (if b then m else mret tt) (if b then t else []).
Proof. intros Hm. destruct b; [done|apply appends_nothing]. Qed.
Lemma appends_buffer m t : (forall c st, contains c st -> fits (c ++ t) -> exists x st', (m : M Z) st = Some (x, st') /\ contains (c ++ t) st') -> appends f (on_buffer f m;; mret tt) t.
Proof. intros Hm c s _ Hc Hf. destruct (Hm c _ Hc Hf) as (x & st & E & Hst). exists st. split; [|done]. by rewrite (fb_bind_eval _ _ _ _ _ (on_buffer_eval f _ _ _ _ E)). Qed.

Lemma appends_sprintf t : appends f (on_buffer f (vmbuf_sprintf o stale (Some t));; mret tt) t.
Proof.
  apply appends_buffer. intros c st Hc Hf. unfold fits in Hf. rewrite length_app in Hf. destruct (contains_sprintf o stale limit limit_range Hgrow c t st Hc) as (st' & E & Hst'); [unfold INT_MAX, VMBUF_HEADER in *; lia|rewrite length_app; lia|by eexists _, st'].
Qed.
Lemma appends_strcpy t : appends f (on_buffer f (vmbuf_strcpy o stale t);; mret tt) t.
Proof. apply appends_buffer. intros c st Hc Hf. unfold fits in Hf. destruct (contains_strcpy o stale limit limit_range Hgrow c t st Hc) as (st' & E & Hst'); [lia|by eexists _, st']. Qed.
Lemma appends_strftime t : (0 < length t < 4096)%nat -> appends f (on_buffer f (vmbuf_strftime o stale 2 t);; mret tt) t.
Proof. intros Ht. apply appends_buffer. intros c st Hc Hf. destruct (contains_strftime o stale limit limit_range Hgrow c t st Hc) as (st' & E & Hst'); [by destruct t; [cbn in Ht; lia|]|lia|exact Hf|by eexists _, st']. Qed.
End Field.

(** The header of an answer. *)
Definition start_no_body_text (status : list Z) : list Z :=
  HTTP_SERVER_VER ++ str " " ++ status ++ CRLF ++ str "Server: " ++ HTTP_SERVER_NAME ++ CONNECTION ++ (if keep then CONNECTION_KEEPALIVE else CONNECTION_CLOSE).

Definition file_header_text (now : Z) (mime : option (list Z)) (etag : list Z) (age size mtime : Z) (compressed : bool) : list Z :=
  match mime with Some mime => start_text keep HTTP_STATUS_200 mime | None => start_no_body_text HTTP_STATUS_304 end ++ etag
  ++ (if compressed && bool_decide (is_Some mime) then CRLF ++ str "Content-Encoding: gzip" else [])
  ++ (CRLF ++ str "Cache-Control: max-age=" ++ sdec age)
  ++ strftime (CRLF ++ str "Date: " ++ http_date) (gmtime now)
  ++ strftime (CRLF ++ str "Expires: " ++ http_date) (gmtime (now + age))
  ++ strftime (CRLF ++ str "Last-Modified: " ++ http_date) (gmtime mtime)
  ++ match mime with Some _ => CRLF ++ str "Content-Length: " ++ dec size | None => [] end
  ++ CRLFCRLF.

Lemma file_header_appends now mime etag age size mtime compressed :
  appends header_field (file_header o stale now mime etag age size mtime compressed) (file_header_text now mime etag age size mtime compressed).
Proof.
  assert (Hk : forall c v, persistent (fld_set header_field c v) = persistent c) by done.
  assert (Ht : forall (name : list Z) v, (length name <= 24)%nat -> 37 ∉ name -> appends header_field (header_strftime o stale (strftime (name ++ http_date) v)) (strftime (name ++ http_date) v)).
  { intros name v Hn Hs. apply appends_strftime. rewrite strftime_prefix, length_app by done. pose proof (length_http_date v). lia. }
  repeat (apply (appends_seq header_field Hk)); try apply (appends_strcpy header_field); try apply (appends_sprintf header_field).
  - destruct mime as [mime|].
    + intros c s Hs Hc Hf. unfold http_server_header_start. rewrite (fb_bind_eval _ _ s (fb_ctx s) s) by done. unfold connection_value. rewrite Hs. by apply (appends_sprintf header_field).
    + intros c s Hs Hc Hf. unfold http_server_header_start_no_body. rewrite (fb_bind_eval _ _ s (fb_ctx s) s) by done. unfold connection_value. rewrite Hs. by apply (appends_sprintf header_field).
  - apply (appends_cond header_field), (appends_strcpy header_field).
  - rewrite app_assoc. apply Ht; by_computation.
  - rewrite app_assoc. apply Ht; by_computation.
  - rewrite app_assoc. apply Ht; by_computation.
  - destruct mime; [apply (appends_sprintf header_field)|apply (appends_nothing header_field)].
Qed.
End Text.

(** ** Sending *)

(** How often the socket takes something. *)
Definition takes (accepts : list Z) : nat := length (filter (fun n => 0 < n) accepts).
(** The socket is slow, but does not fail. *)
Definition takes_all (accepts : list Z) : Prop := Forall (fun n => n = -1 \/ 0 < n) accepts.

Lemma takes_cons n accepts : takes (n :: accepts) = if decide (0 < n) then S (takes accepts) else takes accepts.
Proof. unfold takes. rewrite filter_cons. by destruct (decide _). Qed.

Lemma write_loop_takes accepts : forall h p, takes_all accepts -> h <> [] -> (length (h ++ p) <= takes accepts)%nat ->
  exists acc, write_loop accepts h p = (Some 0, h ++ p, acc) /\ takes_all acc /\ (takes accepts <= takes acc + length (h ++ p))%nat.
Proof.
  induction accepts as [|n accepts IH]; intros h p Hacc Hh Hlen; [destruct h; [done|cbn in Hlen; lia]|].
  apply Forall_cons in Hacc as [Hn Hacc]. rewrite takes_cons in *. cbn [write_loop]. destruct Hn as [->|Hn]; [by apply IH|].
  rewrite decide_True in * by done. rewrite (proj2 (Z.ltb_ge n 0)) by lia. set (k := Z.to_nat _).
  assert (Hk : (0 < k <= length (h ++ p))%nat) by (subst k; destruct h; [done|]; cbn [app length] in *; lia).
  assert (Hgo : forall h' p', drop k (h ++ p) = h' ++ p' -> h' <> [] -> exists acc, (let '(r, more, acc) := write_loop accepts h' p' in (r, take k (h ++ p) ++ more, acc)) = (Some 0, h ++ p, acc)
    /\ takes_all acc /\ (S (takes accepts) <= takes acc + length (h ++ p))%nat).
  { intros h' p' Hd Hh'. assert (Hl : (length (h' ++ p') = length (h ++ p) - k)%nat) by (by rewrite <- Hd, length_drop). destruct (IH h' p' Hacc Hh') as (acc & -> & Ha & Ht); [lia|]. exists acc. split; [by rewrite <- Hd, take_drop|]. split; [done|lia]. }
  destruct (Nat.leb_spec (length h) k) as [Hle|Hlt].
  - assert (Hd : drop k (h ++ p) = drop (k - length h) p) by (by rewrite drop_app, drop_ge). destruct (drop (k - length h) p) as [|x rest] eqn:Er.
    + exists accepts. rewrite take_ge; [split; [done|]; split; [done|lia]|]. apply (f_equal length) in Hd. rewrite length_drop in Hd. cbn in Hd. lia.
    + apply Hgo; [by rewrite app_nil_r|done].
  - apply Hgo; [by rewrite drop_app_le by lia|]. intros E. apply (f_equal length) in E. rewrite length_drop in E. cbn in E. lia.
Qed.

Lemma sendfile_loop_takes accepts data size : size = Z.of_nat (length data) -> forall ofs, takes_all accepts -> 0 <= ofs <= size -> Z.max 1 (size - ofs) <= Z.of_nat (takes accepts) ->
  exists acc, sendfile_loop accepts data ofs size = (Some 0, drop (Z.to_nat ofs) data, acc) /\ takes_all acc.
Proof.
  intros ->. induction accepts as [|n accepts IH]; intros ofs Hacc Hofs Hlen; [cbn in Hlen; lia|]. apply Forall_cons in Hacc as [Hn Hacc]. rewrite takes_cons in Hlen. cbn [sendfile_loop].
  assert (Hneg : (n <? 0) && negb (n =? -1) = false) by (destruct Hn as [->|Hn]; [done|]; by rewrite (proj2 (Z.ltb_ge n 0)) by lia). rewrite Hneg.
  set (part := take _ _). assert (Hp : part ++ drop (Z.to_nat (ofs + Z.of_nat (length part))) data = drop (Z.to_nat ofs) data).
  { rewrite Z2Nat.inj_add, Nat2Z.id, <- drop_drop by lia. unfold part. rewrite length_take. set (d := drop (Z.to_nat ofs) data). destruct (Nat.le_gt_cases (Z.to_nat (Z.min n (Z.of_nat (length data) - ofs))) (length d)) as [Hle|Hgt]; [by rewrite Nat.min_l, take_drop|]. by rewrite Nat.min_r, take_ge, drop_all, app_nil_r by lia. }
  assert (Hpl : Z.of_nat (length part) = Z.max 0 (Z.min n (Z.of_nat (length data) - ofs))) by (unfold part; rewrite length_take, length_drop; lia).
  rewrite Z.geb_leb. destruct (Z.leb_spec (Z.of_nat (length data)) (ofs + Z.of_nat (length part))) as [Hend|Hmore].
  - exists accepts. split; [|done]. f_equal. f_equal. rewrite <- Hp, drop_ge, app_nil_r by lia. done.
  - destruct (IH (ofs + Z.of_nat (length part)) Hacc) as (acc & -> & Ha); [lia|destruct (decide (0 < n)); lia|]. exists acc. split; [by rewrite Hp|done].
Qed.

(** ** Steps of a request *)
Lemma sv_bind_eval {A B} (m : SV A) (k : A -> SV B) s x s' : m s = Some (inr x, s') -> (m ≫= k) s = k x s'.
Proof. intros E. unfold mbind, SV_bind. by rewrite E. Qed.
Lemma sv_bind_assoc {A B C} (m : SV A) (k : A -> SV B) (k' : B -> SV C) s : ((m ≫= k) ≫= k') s = (m ≫= fun x => k x ≫= k') s.
Proof. unfold mbind, SV_bind. by destruct (m s) as [[[e|x] s']|]. Qed.
Lemma in_fiber_eval {A} (m : HS A) fs t s x s' : m s = Some (x, s') -> in_fiber m (fs, (t, s)) = Some (x, (fs, (t, s'))).
Proof. intros E. unfold in_fiber. by rewrite E. Qed.
Lemma sys_eval {A} (m : ST sv A) s x s' : m s = Some (x, s') -> sys m s = Some (inr x, s').
Proof. intros E. unfold sys. by rewrite E. Qed.

Definition with_fds (fs : fsys) (fds : gmap Z Z) : fsys := Fsys (fs_dir fs) (fs_data fs) fds (fs_next fs).
Lemma with_fds_same fs : with_fds fs (fs_fds fs) = fs.
Proof. by destruct fs. Qed.
Lemma realpath_fds fs t fds p : realpath (with_fds fs fds) t p = realpath fs t p.
Proof. done. Qed.

(** The file [name] can be opened, as descriptor [fd], and looked at. *)
Record can_open (o : os) (fs : fsys) (name : path) (fd : Z) : Prop := {
  co_fd : sys_open o name 0 = fd;
  co_ok : 0 <= fd;
  co_fresh : fs_fds fs !! fd = None;
  co_stat : is_Some (sys_fstat o fd);
}.
(** [name] is the file or directory [ino] with the contents [data]. *)
Record file_at (fs : fsys) (t : tree) (name : path) (ino : Z) (data : list Z) : Prop := {
  fa_name : realpath fs t name = Some name;
  fa_ino : fs_dir fs !! name = Some ino;
  fa_data : fs_data fs !! ino = Some data;
}.

Section Open.
Context (o : os) (fs : fsys) (t : tree) (name : path) (ino fd : Z) (data : list Z).
Hypothesis (Hfile : file_at fs t name ino data) (Hopen : can_open o fs name fd).
Abbreviation opened := (with_fds fs (<[fd := ino]> (fs_fds fs))).

Lemma open_path_eval s : open_path o name 0 (fs, (t, s)) = Some (inr fd, (opened, (t, s))).
Proof.
  destruct Hfile as [Hn Hi Hd], Hopen as [Hfd Hok _ _]. unfold open_path. rewrite (sv_bind_eval _ _ _ (fs, (t, s)) (fs, (t, s))) by done. cbn [fst snd]. rewrite Hn.
  apply sys_eval. unfold sys_open_file. rewrite Hi, Hfd, (proj2 (Z.ltb_ge fd 0)) by done. done.
Qed.
Lemma stat_fd_eval s : sys_stat_fd o fd (opened, (t, s)) = Some (inr (Some (stat_of t ino (Z.of_nat (length data)))), (opened, (t, s))).
Proof.
  destruct Hfile as [Hn Hi Hd], Hopen as [Hfd Hok Hf [? Hst]]. unfold sys_stat_fd.
  assert (E : sys (fstat o fd) (opened, (t, s)) = Some (inr (Some (Z.of_nat (length data))), (opened, (t, s)))) by (apply sys_eval; unfold fstat; cbn; rewrite Hst, lookup_insert_eq; cbn; by rewrite Hd).
  rewrite (sv_bind_eval _ _ _ _ _ E). assert (E2 : sys (file_of fd) (opened, (t, s)) = Some (inr (Some ino), (opened, (t, s)))) by (apply sys_eval; unfold file_of; cbn; by rewrite lookup_insert_eq). by rewrite (sv_bind_eval _ _ _ _ _ E2).
Qed.
Lemma data_of_fd_eval s : data_of_fd fd (opened, (t, s)) = Some (inr data, (opened, (t, s))).
Proof.
  destruct Hfile as [Hn Hi Hd]. unfold data_of_fd. assert (E2 : sys (file_of fd) (opened, (t, s)) = Some (inr (Some ino), (opened, (t, s)))) by (apply sys_eval; unfold file_of; cbn; by rewrite lookup_insert_eq).
  rewrite (sv_bind_eval _ _ _ _ _ E2), (sv_bind_eval _ _ _ (opened, (t, s)) (opened, (t, s))) by done. unfold checked. cbn. by rewrite Hd.
Qed.
Lemma close_file_eval s : close_file o fd (opened, (t, s)) = Some (inr tt, (fs, (t, s))).
Proof.
  destruct Hopen as [_ _ Hf _]. unfold close_file. rewrite (sv_bind_eval _ _ _ (if sys_close o fd then 0 else -1) (fs, (t, s))); [done|]. apply sys_eval. unfold close_fd. cbn. rewrite lookup_insert_eq. f_equal. f_equal. f_equal.
  rewrite delete_insert_id by done. by destruct fs.
Qed.
End Open.

(** ** Answers *)
Section Answers.
Context `{address_space} (o : os) (stale : Z -> Z -> Z) (limit : Z) (Hlimit : 2 ^ 14 <= limit <= 2 ^ 31) (Hgrow : can_grow_to o (limit + 4096)).
Context (z : zlib) (localtime : Z -> option tm) (now port : Z) (ht_mime_types : hashtable).
Context (fs : fsys) (t : tree).

Lemma header_limit : 4096 <= limit <= 2 ^ 31.
Proof. lia. Qed.

(** A request that nothing has been answered to, of a connection that is kept or not. *)
Record fresh_request (s : hs) : Prop := {
  fr_header : contains [] (header_of s);
  fr_payload : contains [] (payload_of s);
}.

(** What has become of it: the answer is in the buffers, or has been sent. *)
Record answered (h p sent : list Z) (s s' : hs) : Prop := {
  an_header : contains h (header_of s');
  an_payload : contains p (payload_of s');
  an_sent : fb_sent s' = fb_sent s ++ sent;
  an_persistent : persistent (fb_ctx s') = persistent (fb_ctx s);
  an_accepts : sent = [] -> fb_accepts s' = fb_accepts s;
}.

Lemma sendfile_payload_eval name ino fd data h s : file_at fs t name ino data -> contains h (header_of s) -> contains [] (payload_of s) -> h <> [] ->
  takes_all (fb_accepts s) -> Z.of_nat (length h) + Z.max 1 (Z.of_nat (length data)) <= Z.of_nat (takes (fb_accepts s)) ->
  let x := with_fds fs (<[fd := ino]> (fs_fds fs)) in
  exists s', http_server_sendfile_payload fd (Z.of_nat (length data)) (x, (t, s)) = Some (inr 0, (x, (t, s'))) /\ answered [] [] (h ++ data) s s'.
Proof.
  intros Hf Hh Hp Hne Hacc Hlen x. unfold http_server_sendfile_payload.
  destruct (write_loop_takes (fb_accepts s) h [] Hacc Hne) as (acc & Ew & Hacc' & Ht); [rewrite app_nil_r; lia|]. rewrite app_nil_r in *.
  pose proof (http_server_write_eval h [] s Hh Hp) as E1. unfold send_vectors in E1. rewrite Ew in E1. set (s1 := Fiber (fb_world s) (fb_ctx s) (fb_input s) acc (fb_sent s ++ h)) in E1.
  rewrite (sv_bind_eval _ _ _ _ _ (in_fiber_eval _ x t _ _ _ E1)). destruct (contains_reset h (header_of s1) Hh) as (st & E2 & Hst).
  rewrite (sv_bind_eval _ _ _ _ _ (in_fiber_eval _ x t _ _ _ (on_buffer_eval header_field _ _ _ _ E2))). set (s2 := put_header s1 st).
  unfold _http_server_sendfile. rewrite (sv_bind_eval _ _ _ _ _ (data_of_fd_eval fs t name ino fd data Hf s2)).
  destruct (sendfile_loop_takes acc data _ eq_refl 0 Hacc') as (acc' & Es & _); [lia|lia|]. change (drop (Z.to_nat 0) data) with data in Es.
  eexists. split; [apply in_fiber_eval; unfold send_data; cbn [fb_accepts s2 put_buffer s1]; rewrite Es; reflexivity|]. split.
  - destruct st. exact Hst.
  - destruct st. by eapply rq_world.
  - cbn. by rewrite <- app_assoc.
  - done.
  - by destruct h.
Qed.

(** The answer to a request for a file: its header, and what is sent. *)
Definition file_answer (keep : bool) (mime : list Z) (age size mtime : Z) (compressed : bool) (if_none_match data : list Z) : list Z * list Z :=
  let tag := CRLF ++ str "ETag: " ++ etag mtime size in
  if decide (if_none_match = etag mtime size) then (file_header_text keep now None tag age size mtime compressed, [])
  else ([], file_header_text keep now (Some mime) tag age size mtime compressed ++ data).

(** What the socket has to take for it. *)
Definition answer_room (s : hs) (sent : list Z) : Prop := takes_all (fb_accepts s) /\ Z.of_nat (length sent) < Z.of_nat (takes (fb_accepts s)).

Lemma header_text_ne keep mime tag age size mtime c : file_header_text keep now mime tag age size mtime c <> [].
Proof. unfold file_header_text, start_text, start_no_body_text. by destruct mime. Qed.
Lemma length_sdec n : (length (sdec n) <= 21)%nat.
Proof. unfold sdec. pose proof (length_dec n). pose proof (length_dec (- n)). destruct (n <? 0); cbn [length]; lia. Qed.
Lemma length_date name v : 37 ∉ name -> (length (strftime (name ++ http_date) v) <= length name + 64)%nat.
Proof. intros Hn. rewrite strftime_prefix, length_app by done. pose proof (length_http_date v). lia. Qed.

Lemma length_header_text keep mime tag age size mtime c : (length (default [] mime) <= 1024)%nat -> (length tag <= 128)%nat ->
  (length (file_header_text keep now mime tag age size mtime c) <= 2000)%nat.
Proof.
  intros Hm Ht. unfold file_header_text. rewrite !length_app.
  pose proof (length_sdec age). pose proof (length_dec size). pose proof (length_date (CRLF ++ str "Date: ") (gmtime now) ltac:(by_computation)).
  pose proof (length_date (CRLF ++ str "Expires: ") (gmtime (now + age)) ltac:(by_computation)). pose proof (length_date (CRLF ++ str "Last-Modified: ") (gmtime mtime) ltac:(by_computation)). rewrite <- !app_assoc in *.
  assert (length match mime with Some m => start_text keep HTTP_STATUS_200 m | None => start_no_body_text keep HTTP_STATUS_304 end <= 1200)%nat.
  { destruct mime as [m|]; [pose proof (length_start_text keep HTTP_STATUS_200 m); change (length HTTP_STATUS_200) with 6%nat in *; change (default [] (Some m)) with m in Hm; lia|unfold start_no_body_text; rewrite !length_app; destruct keep; vm_compute; lia]. }
  assert (length (if c && bool_decide (is_Some mime) then CRLF ++ str "Content-Encoding: gzip" else []) <= 24)%nat by (destruct (c && _); vm_compute; lia).
  assert (length match mime with Some _ => CRLF ++ str "Content-Length: " ++ dec size | None => [] end <= 40)%nat by (destruct mime; [rewrite !length_app; change (length CRLF) with 2%nat; change (length (str "Content-Length: ")) with 16%nat; lia|cbn; lia]).
  rewrite !length_app in *. change (length CRLF) with 2%nat in *. change (length (str "Date: ")) with 6%nat in *. change (length (str "Expires: ")) with 9%nat in *. change (length (str "Last-Modified: ")) with 15%nat in *.
  change (length (str "Cache-Control: max-age=")) with 23%nat. change (length CRLFCRLF) with 4%nat. lia.
Qed.

Lemma length_tag mtime size : time_ok mtime -> (length (CRLF ++ str "ETag: " ++ etag mtime size) <= 128)%nat.
Proof. intros Ht. unfold etag. rewrite !length_app, length_stamp by done. pose proof (length_dec size). change (length CRLF) with 2%nat. change (length (str "ETag: ")) with 6%nat. change (length quote) with 1%nat. lia. Qed.

Lemma file_header_eval mime tag age size mtime c s : fresh_request s -> (length (default [] mime) <= 1024)%nat -> (length tag <= 128)%nat ->
  exists s', file_header o stale now mime tag age size mtime c s = Some (inr tt, s') /\ answered (file_header_text (persistent (fb_ctx s)) now mime tag age size mtime c) [] [] s s' /\ fb_accepts s' = fb_accepts s.
Proof.
  intros [Hh Hp] Hm Ht. destruct (file_header_appends o stale limit header_limit Hgrow (persistent (fb_ctx s)) now mime tag age size mtime c [] s eq_refl Hh) as (st & E & Hst).
  { unfold fits. rewrite app_nil_l. pose proof (length_header_text (persistent (fb_ctx s)) mime tag age size mtime c Hm Ht). unfold VMBUF_HEADER. lia. }
  eexists. split; [exact E|]. split; [|done]. split; [by rewrite (buffer_of_put header_field)|destruct st; by eapply rq_world|cbn; by rewrite app_nil_r|done|done].
Qed.

Lemma answer_file_eval v headers ext realname name ino fd data orig_st c age mime inm s : file_at fs t name ino data -> can_open o fs name fd -> a_entries (attr_of t ino) = None -> time_ok (st_mtime orig_st) ->
  find_max_age v ext = Some age -> mime_types_by_ext ht_mime_types ext = Some mime -> (length mime <= 1024)%nat -> hh_strings headers !! IF_NONE_MATCH = Some inm -> fresh_request s ->
  let '(h, sent) := file_answer (persistent (fb_ctx s)) mime age (Z.of_nat (length data)) (st_mtime orig_st) c inm data in
  answer_room s sent ->
  exists s', answer_file o stale localtime now port ht_mime_types v headers ext realname fd (stat_of t ino (Z.of_nat (length data))) orig_st c (with_fds fs (<[fd := ino]> (fs_fds fs)), (t, s)) = Some (inr 0, (fs, (t, s')))
    /\ answered h [] sent s s'.
Proof.
  intros Hf Ho Hreg Htime Hage Hmime Hml Hinm Hfr. set (x := with_fds _ _). unfold answer_file. cbn [st_is_dir stat_of]. rewrite Hreg. cbn [st_size].
  rewrite (bool_decide_eq_false_2 (is_Some None)) by (by intros []). rewrite (sv_bind_eval _ _ _ age (x, (t, s))) by (unfold checked; by rewrite Hage). rewrite make_etag_eval by done.
  rewrite (sv_bind_eval _ _ _ inm (x, (t, s))) by (unfold checked; by rewrite Hinm). change (drop 8 (CRLF ++ str "ETag: " ++ ?e)) with e. unfold file_answer. pose proof (length_tag (st_mtime orig_st) (Z.of_nat (length data)) Htime) as Htl.
  destruct (decide (inm = etag (st_mtime orig_st) (Z.of_nat (length data)))) as [->|Hne].
  - rewrite bool_decide_eq_true_2 by done. intros _. unfold send_file. cbn [negb]. rewrite (sv_bind_eval _ _ _ None (x, (t, s))) by done.
    destruct (file_header_eval None _ age (Z.of_nat (length data)) (st_mtime orig_st) c s Hfr ltac:(cbn; lia) Htl) as (s' & E & Ha & _). rewrite (sv_bind_eval _ _ _ _ _ (in_fiber_eval _ x t _ _ _ E)).
    rewrite (sv_bind_eval _ _ _ 0 (x, (t, s'))) by done. rewrite (sv_bind_eval _ _ _ _ _ (close_file_eval o fs t name ino fd data Hf Ho s')). by exists s'.
  - rewrite bool_decide_eq_false_2 by done. intros [Hacc Hroom]. unfold send_file. cbn [negb]. rewrite (sv_bind_eval _ _ _ (Some mime) (x, (t, s))) by (unfold checked; by rewrite Hmime).
    destruct (file_header_eval (Some mime) _ age (Z.of_nat (length data)) (st_mtime orig_st) c s Hfr Hml Htl) as (s1 & E & [Hh Hp Hsent Hk _] & Hac). rewrite (sv_bind_eval _ _ _ _ _ (in_fiber_eval _ x t _ _ _ E)).
    destruct (sendfile_payload_eval name ino fd data _ s1 Hf Hh Hp) as (s2 & E2 & [Hh2 Hp2 Hs2 Hk2 _]); [apply header_text_ne|by rewrite Hac|rewrite Hac; rewrite length_app in Hroom; lia|].
    fold x in E2. rewrite (sv_bind_eval _ _ _ _ _ E2). rewrite (sv_bind_eval _ _ _ _ _ (close_file_eval o fs t name ino fd data Hf Ho s2)). exists s2. split; [done|]. split; [done|done| |congruence|intros E0; by destruct (app_eq_nil _ _ E0) as [?%header_text_ne _]]. by rewrite Hs2, Hsent, app_nil_r.
Qed.
End Answers.
