(* ===== verification/HttpFileServerRun.v ===== *)
(** * HttpFileServerRun: requests to the file server *)

From Stdlib Require Import String.
From stdpp Require Import base numbers functions list gmap.
From Stdlib Require Import ZArith Lia.
From S2P Require Import Prelude Words Os Disk Vmallocator Probe ProbeFacts Hashtable HashtableFacts HashtableMap Mempool Memalloc Vmbuf VmbufFacts Cstring Uri StringTable HttpHeaders FileMapper MimeTypes Calendar HttpText Connection HttpServer HttpServerFacts HttpServerRun HttpServerRequests HttpFileServer HttpFileServerFacts.

Lemma c_string_length mem : forall x, c_string mem = Some x -> (length x < length mem)%nat.
Proof.
  induction mem as [|c mem IH]; intros x; [done|]. cbn [c_string]. destruct (c =? 0); [intros [= <-]; cbn; lia|]. destruct (c_string mem) as [y|]; [|done]. intros [= <-]. specialize (IH y eq_refl). cbn. lia.
Qed.

Lemma get_header_reads st r st' : vmbuf_get_header st = Some (r, st') -> vb_mem (snd st) = MMap r /\ st' = st.
Proof. unfold vmbuf_get_header. rewrite bind_get. destruct (vb_mem (snd st)); try done. by intros [= -> ->]. Qed.
Lemma peek_str_reads u st x st' : peek_str u st = Some (x, st') -> st' = st.
Proof.
  unfold peek_str. destruct (vmbuf_get_header st) as [[r st1]|] eqn:Eh; [|unfold mbind, ST_bind; by rewrite Eh]. rewrite (bind_eval _ _ _ _ _ Eh). destruct (get_header_reads _ _ _ Eh) as [_ ->].
  destruct (0 <=? u); [|done]. destruct (c_string _); [|done]. by intros [= _ <-].
Qed.

(** Writing a shorter string over one in a buffer. *)
Lemma decode_in_place u x c file st : peek_str u st = Some (x, st) -> (length (c :: file) <= length x)%nat -> 0 ∉ c :: file ->
  exists st', poke u ((c :: file) ++ [0]) st = Some (tt, st') /\ peek_str (u + 1) st' = Some (file, st').
Proof.
  intros E Hl H0. unfold peek_str in E. destruct (vmbuf_get_header st) as [[r st1]|] eqn:Eh; [|by unfold mbind, ST_bind in E; rewrite Eh in E]. rewrite (bind_eval _ _ _ _ _ Eh) in E.
  destruct (get_header_reads _ _ _ Eh) as [Hm ->].
  destruct (Z.leb_spec 0 u); [|done]. destruct (c_string (drop (Z.to_nat u) (r_bytes r))) as [y|] eqn:Ec; [|done]. injection E as ->. pose proof (c_string_length _ _ Ec) as Hc. rewrite length_drop in Hc.
  unfold poke. rewrite (bind_eval _ _ _ _ _ Eh), (proj2 (Z.leb_le 0 u)), (proj2 (Z.leb_le _ _)) by (rewrite ?length_app; cbn [length] in *; lia). cbn [andb]. eexists. split; [reflexivity|].
  unfold peek_str. match goal with |- (vmbuf_get_header ≫= _) (_, set_mem _ (MMap ?r)) = Some (_, ?st) => rewrite (bind_eval _ _ st r st) by done end. rewrite (proj2 (Z.leb_le 0 (u + 1))) by lia. cbn [r_bytes].
  assert (Ef : forall q, c_string (drop (Z.to_nat (u + 1)) (take (Z.to_nat u) (r_bytes r) ++ ((c :: file) ++ [0]) ++ q)) = Some file); [|by rewrite Ef].
  intros q. rewrite Z2Nat.inj_add, <- drop_drop by lia. rewrite drop_app_length' by (rewrite length_take; lia). cbn [app drop Z.to_nat Pos.to_nat Pos.iter_op]. rewrite <- app_assoc. apply not_elem_of_cons in H0 as [_ H0]. by apply c_string_app.
Qed.

Lemma takes_sum accepts : Z.of_nat (takes accepts) <= foldr (fun n t => Z.max 0 n + t) 0 accepts.
Proof. induction accepts as [|n accepts IH]; [done|]. rewrite takes_cons. cbn [foldr]. destruct (decide (0 < n)); lia. Qed.

Lemma header_limit60 limit : 2 ^ 14 <= limit <= 2 ^ 31 -> 4096 <= limit <= 2 ^ 60.
Proof. lia. Qed.

Section Run.
Context `{address_space} (o : os) (stale : Z -> Z -> Z) (limit : Z) (Hlimit : 2 ^ 14 <= limit <= 2 ^ 31) (Hgrow : can_grow_to o (limit + 4096)).
Context (z : zlib) (localtime : Z -> option tm) (now port : Z) (ht_mime_types : hashtable).
Context (fs : fsys) (t : tree) (v : http_file_server) (base : path).

Abbreviation run2 := (http_file_server_run2 o stale z localtime now port ht_mime_types v).

(** The server has been initialised with the directory [base]. *)
Record serves_from : Prop := {
  sf_base : base_dir v = Some base;
  sf_len : base_dir_len v = Z.of_nat (length base);
  sf_absolute : absolute base = true;
}.

(** The name that a request asks for. *)
Definition requested (file : list Z) : option path := realpath fs t (base ++ str "/" ++ file).
Definition ext_of (file : list Z) : list Z := default [] (strrchr 46 file).

(** The client does not accept compressed files, or such files are not compressed. *)
Definition plain_request (headers : http_headers) (file : list Z) : Prop :=
  Z.land (hh_accept_encoding_mask headers) HTTP_AE_GZIP = 0 \/ hashtable_lookup (ht_ext_whitelist v) (ext_of file) = Some 0.

Lemma error_eval fs' t' s status : (length status <= 64)%nat -> fresh_request s ->
  exists s', HTTP_FILE_SERVER_ERROR o stale status (fs', (t', s)) = Some (inr tt, (fs', (t', s')))
    /\ answered (response_text (persistent (fb_ctx s)) status HTTP_CONTENT_TYPE_TEXT_PLAIN (Z.of_nat (length status) + 1)) (status ++ [10]) [] s s'.
Proof.
  intros Hl [Hh Hp]. destruct (response_vsprintf_eval o stale limit ltac:(lia) Hgrow status HTTP_CONTENT_TYPE_TEXT_PLAIN (status ++ [10]) s Hh Hp) as (s' & E & Hh' & Hp' & Hk & Hac & Hs).
  - unfold short. change (length HTTP_CONTENT_TYPE_TEXT_PLAIN) with 10%nat. lia.
  - rewrite length_app. cbn. unfold INT_MAX. lia.
  - rewrite length_app. unfold VMBUF_HEADER. cbn. lia.
  - exists s'. split; [by apply in_fiber_eval|]. rewrite length_app in Hh'. replace (Z.of_nat (length status + length [10])) with (Z.of_nat (length status) + 1) in Hh' by (cbn; lia). split; [done|done|by rewrite app_nil_r|done|done].
Qed.

Lemma requested_under file realname : serves_from -> requested file = Some realname -> realpath fs t realname = Some realname.
Proof.
  intros [Hb _ Ha] Hr. destruct (realpath_spec fs t (base ++ str "/" ++ file) realname) as (comps & -> & Hc & Hlen); [|exact Hr|by apply realpath_self]. by destruct base; [|destruct (Z.eq_dec z0 47); subst].
Qed.

Lemma run2_plain headers file realname s : serves_from -> requested file = Some realname -> starts_with base realname = true -> plain_request headers file ->
  run2 headers file (fs, (t, s)) = (r ← choose_plain o stale realname; match r with inl res => mret res | inr (ffd, st, orig_st, c) => answer_file o stale localtime now port ht_mime_types v headers (ext_of file) realname ffd st orig_st c end) (fs, (t, s)).
Proof.
  intros [Hb Hl _] Hr Hu Hp. unfold http_file_server_run2, base_name. rewrite Hb. rewrite (sv_bind_eval _ _ _ (fs, (t, s)) (fs, (t, s))) by done. cbn [fst snd].
  change (default [] (Some base)) with base. fold (requested file). rewrite Hr, Hl, Nat2Z.id, take_ge, Hu by lia. cbn [negb].
  rewrite (sv_bind_eval _ _ _ 0 (fs, (t, s))); [done|]. unfold checked. fold (ext_of file). destruct Hp as [->|Hp]; [done|]. by destruct (Z.land _ _ =? 0); [|rewrite Hp].
Qed.

(** A request for the regular file [realname], which is to be sent as it is. *)
Record asks_for (headers : http_headers) (file : list Z) (realname : path) (ino fd age : Z) (mime inm data : list Z) : Prop := {
  af_from : serves_from;
  af_name : requested file = Some realname;
  af_under : starts_with base realname = true;
  af_plain : plain_request headers file;
  af_ino : fs_dir fs !! realname = Some ino;
  af_data : fs_data fs !! ino = Some data;
  af_regular : a_entries (attr_of t ino) = None;
  af_time : time_ok (a_mtime (attr_of t ino));
  af_open : can_open o fs realname fd;
  af_age : find_max_age v (ext_of file) = Some age;
  af_mime : mime_types_by_ext ht_mime_types (ext_of file) = Some mime;
  af_short : (length mime <= 1024)%nat;
  af_inm : hh_strings headers !! IF_NONE_MATCH = Some inm;
}.

Lemma plain_file_answered headers file realname ino fd age mime inm data s : asks_for headers file realname ino fd age mime inm data -> fresh_request s ->
  let '(h, sent) := file_answer now (persistent (fb_ctx s)) mime age (Z.of_nat (length data)) (a_mtime (attr_of t ino)) false inm data in
  answer_room s sent -> exists s', run2 headers file (fs, (t, s)) = Some (inr 0, (fs, (t, s'))) /\ answered h [] sent s s'.
Proof.
  intros [Hfrom Hname Hunder Hplain Hino Hdata Hregular Htime Hopen Hage Hmime Hshort Hinm] Hfresh.
  assert (Hf : file_at fs t realname ino data) by (split; [by eapply requested_under|done|done]).
  pose proof (answer_file_eval o stale limit Hlimit Hgrow localtime now port ht_mime_types fs t v headers (ext_of file) realname realname ino fd data (stat_of t ino (Z.of_nat (length data))) false age mime inm s Hf Hopen Hregular Htime Hage Hmime Hshort Hinm Hfresh) as Ha.
  cbn [st_mtime stat_of] in Ha. destruct (file_answer now _ mime age _ _ false inm data) as [h sent]. intros Hroom. destruct (Ha Hroom) as (s' & E & Han). exists s'. split; [|done].
  rewrite (run2_plain headers file realname s) by done. rewrite (sv_bind_eval _ _ (fs, (t, s)) (inr (fd, stat_of t ino (Z.of_nat (length data)), stat_of t ino (Z.of_nat (length data)), false)) (with_fds fs (<[fd:=ino]> (fs_fds fs)), (t, s))); [exact E|].
  unfold choose_plain. rewrite (sv_bind_eval _ _ _ _ _ (open_path_eval o fs t realname ino fd data Hf Hopen s)). rewrite (proj2 (Z.ltb_ge fd 0)) by (apply (co_ok _ _ _ _ Hopen)).
  by rewrite (sv_bind_eval _ _ _ _ _ (stat_fd_eval o fs t realname ino fd data Hf Hopen s)).
Qed.

(** C13: a client that does not accept gzip, or asks for a file whose extension is not to be compressed,
    and that names the tag of a version of the file that it has, by its time and size, is told that
    the file has not changed exactly if time and size are still the same, and else is sent the
    file: no two versions that differ in time or size have the same tag.  (The tag of a compressed
    copy has the size of the copy; [http_file_server_compresses] is about those.) *)
Theorem http_file_server_revalidates (headers : http_headers) (file : list Z) (realname : path) (ino fd age mtime size : Z) (mime data : list Z) (s : hs)
  (Hask : asks_for headers file realname ino fd age mime (etag mtime size) data) (Hfresh : fresh_request s) (Htime : time_ok mtime) (Hsize : 0 <= size < 2 ^ 63) (Hlen : Z.of_nat (length data) < 2 ^ 63)
  (Hroom : answer_room s (snd (file_answer now (persistent (fb_ctx s)) mime age (Z.of_nat (length data)) (a_mtime (attr_of t ino)) false (etag mtime size) data))) :
  exists s' h, run2 headers file (fs, (t, s)) = Some (inr 0, (fs, (t, s')))
    /\ (mtime = a_mtime (attr_of t ino) /\ size = Z.of_nat (length data) -> fb_sent s' = fb_sent s /\ contains (start_no_body_text (persistent (fb_ctx s)) HTTP_STATUS_304 ++ h) (header_of s'))
    /\ (~ (mtime = a_mtime (attr_of t ino) /\ size = Z.of_nat (length data)) -> fb_sent s' = fb_sent s ++ start_text (persistent (fb_ctx s)) HTTP_STATUS_200 mime ++ h ++ data).
Proof.
  pose proof (plain_file_answered _ _ _ _ _ _ _ _ _ s Hask Hfresh) as Ha. unfold file_answer in *. destruct (decide (etag mtime size = _)) as [E|Hne]; cbn [snd] in Hroom; destruct (Ha Hroom) as (s' & Er & [Hh Hp Hs Hk _]).
  - apply etag_inj in E as [-> ->]; [|done|apply (af_time _ _ _ _ _ _ _ _ _ Hask)|done|lia]. eexists s', _. split; [exact Er|]. split; [|intros Hn; by destruct Hn]. intros _. rewrite app_nil_r in Hs. split; [done|exact Hh].
  - eexists s', _. split; [exact Er|]. split; [intros [-> ->]; done|]. intros _. rewrite Hs. unfold file_header_text. by rewrite <- app_assoc.
Qed.

(** C12: a path that leads, through dots or links, to a name that does not start with that of the
    directory of the server is refused with 403, and one that leads nowhere with 404, whatever
    the client accepts: no file is opened, written or sent. *)
Theorem http_file_server_confined (headers : http_headers) (file : list Z) (s : hs) (Hfrom : serves_from) (Hfresh : fresh_request s) :
  let refused status := exists s', run2 headers file (fs, (t, s)) = Some (inr (-1), (fs, (t, s')))
    /\ answered (response_text (persistent (fb_ctx s)) status HTTP_CONTENT_TYPE_TEXT_PLAIN (Z.of_nat (length status) + 1)) (status ++ [10]) [] s s' in
  match requested file with
  | None => refused HTTP_STATUS_404
  | Some realname => starts_with base realname = false -> refused HTTP_STATUS_403
  end.
Proof.
  intros refused. destruct Hfrom as [Hb Hl _]. destruct (requested file) as [realname|] eqn:Hr; [intros Hu|]; unfold refused, http_file_server_run2, base_name; rewrite Hb; change (default [] (Some base)) with base;
    rewrite (sv_bind_eval _ _ _ (fs, (t, s)) (fs, (t, s))) by done; cbn [fst snd]; fold (requested file); rewrite Hr.
  - rewrite Hl, Nat2Z.id, take_ge, Hu by lia. cbn [negb]. destruct (error_eval fs t s HTTP_STATUS_403) as (s' & E & Ha); [by_computation|done|]. exists s'. by rewrite (sv_bind_eval _ _ _ _ _ E).
  - destruct (error_eval fs t s HTTP_STATUS_404) as (s' & E & Ha); [by_computation|done|]. exists s'. by rewrite (sv_bind_eval _ _ _ _ _ E).
Qed.

(** ** On the wire *)
Context (atof_positive : list Z -> bool) (ht_request_headers : hashtable).

(** The file server as the function of the user; the files are those at the time of the request. *)
Definition serve_files : HS unit := fun s =>
  match http_file_server_run o stale z localtime now port ht_mime_types atof_positive ht_request_headers v (fs, (t, s)) with
  | Some (inr _, (_, (_, s))) => Some (inr tt, s)
  | Some (inl e, (_, (_, s))) => Some (inl e, s)
  | None => None
  end.

Lemma run_eval target hdrs keep h c file s : user_sees target hdrs keep s -> http_headers_parse atof_positive ht_request_headers hdrs = Some h ->
  uri_decoded (path_of target) = c :: file -> 0 ∉ c :: file ->
  exists st, http_file_server_run o stale z localtime now port ht_mime_types atof_positive ht_request_headers v (fs, (t, s)) = run2 h file (fs, (t, put_request s st)).
Proof.
  intros [Hu _ Hh _ _ _] Hp Hd H0. unfold http_file_server_run. rewrite (sv_bind_eval _ _ _ (fb_ctx s) (fs, (t, s))) by done.
  rewrite (sv_bind_eval _ _ _ _ _ (in_fiber_eval _ fs t _ _ _ Hh)), (sv_bind_eval _ _ _ h (fs, (t, s))) by (unfold checked; by rewrite Hp). rewrite (sv_bind_eval _ _ _ _ _ (in_fiber_eval _ fs t _ _ _ Hu)).
  assert (Hu' : peek_str (uri (fb_ctx s)) (request_of s) = Some (path_of target, request_of s)).
  { unfold on_request, on_buffer in Hu. fold (request_of s) in Hu. destruct (peek_str _ (request_of s)) as [[x st]|] eqn:E; [|done]. pose proof (peek_str_reads _ _ _ _ E) as ->. by injection Hu as <-. }
  destruct (decode_in_place (uri (fb_ctx s)) (path_of target) c file (request_of s)) as (st & E1 & E2); [done|rewrite <- Hd; apply uri_decoded_shorter|done|].
  destruct (path_of target) as [|a rest] eqn:Ep; [done|]. rewrite <- Ep in *. unfold http_uri_decode. cbn [fst]. rewrite Hd. rewrite (sv_bind_eval _ _ _ _ _ (in_fiber_eval _ fs t _ _ _ (on_buffer_eval request_field _ _ _ _ E1))).
  assert (E3 : on_request (peek_str (uri (fb_ctx s) + 1)) (put_request s st) = Some (inr file, put_request s st)) by (apply (on_buffer_read request_field); by rewrite (buffer_of_put request_field)).
  rewrite (sv_bind_eval _ _ _ _ _ (in_fiber_eval _ fs t _ _ _ E3)). by exists st.
Qed.

Lemma get_answered (max_req_size : Z) (server : http_server) (s : hs) (m target version hdrs : list Z) (h : http_headers) (c : Z) (file : list Z) (realname : path) (ino fd age : Z) (mime inm data : list Z)
  (Hstarts : starts o limit server s) (Hopen : stays_open (fb_input s)) (Hm : m = str "GET" \/ m = str "HEAD") (Hwf : well_formed target version hdrs)
  (Hbytes : bytes_of (fb_input s) = request_head m target version hdrs ++ CRLFCRLF)
  (Hfirst : strstr CRLFCRLF (request_head m target version hdrs ++ CRLFCRLF) = Some (length (request_head m target version hdrs)))
  (Hmax : Z.of_nat (length (request_head m target version hdrs ++ CRLFCRLF)) <= max_req_size)
  (Hparse : http_headers_parse atof_positive ht_request_headers hdrs = Some h) (Hpath : uri_decoded (path_of target) = c :: file) (Hzero : 0 ∉ c :: file)
  (Hask : asks_for h file realname ino fd age mime inm data) :
  let keep := check_persistent (request_head m target version hdrs) in
  let '(hd, sent) := file_answer now keep mime age (Z.of_nat (length data)) (a_mtime (attr_of t ino)) false inm data in
  answer_room s (hd ++ sent) ->
  exists s', http_server_fiber_main o stale max_req_size serve_files server s = Some (inl (if keep then Idle else Closed), s') /\ fb_sent s' = fb_sent s ++ hd ++ sent.
Proof.
  intros keep. destruct (get_dispatch o stale limit (header_limit60 limit Hlimit) Hgrow max_req_size serve_files server s Hstarts Hopen m target version hdrs [] Hwf) as (s1 & Hu & Hsees & _ & _ & Hsn & Ha); rewrite ?app_nil_r; try done.
  unfold runs_user in Hu. destruct (run_eval _ _ _ h c file s1 Hsees Hparse Hpath Hzero) as (st & Erun). fold keep in Hsees. destruct Hsees as [_ _ _ Hk Hh Hp].
  assert (Hfr : fresh_request (put_request s1 st)) by (split; [by eapply rq_world|by eapply rq_world]). pose proof (plain_file_answered _ _ _ _ _ _ _ _ _ (put_request s1 st) Hask Hfr) as Han.
  change (persistent (fb_ctx (put_request s1 st))) with (persistent (fb_ctx s1)) in Han. rewrite Hk in Han. destruct (file_answer now keep mime age _ _ false inm data) as [hd sent] eqn:Ef. intros [Htakes Hlen].
  destruct Han as (s2 & E2 & [Hh2 Hp2 Hs2 Hk2 Hac2]); [split; change (fb_accepts (put_request s1 st)) with (fb_accepts s1); rewrite Ha; [done|rewrite length_app in Hlen; lia]|]. cbn in Hs2, Hac2, Hk2. rewrite Hk in Hk2.
  assert (Es : serve_files s1 = Some (inr tt, s2)) by (unfold serve_files; by rewrite Erun, E2). rewrite Hu, (fb_bind_eval _ _ _ _ _ Es). rewrite <- Hk2.
  assert (Hcase : hd = [] \/ sent = []) by (unfold file_answer in Ef; destruct (decide _); injection Ef as <- <-; auto). destruct hd as [|x hd].
  - exists s2. unfold finish_request. rewrite (fb_bind_eval _ _ _ _ _ (on_buffer_read header_field _ _ _ (rq_wlocpos _ _ _ Hh2))). split; [done|]. cbn [app]. congruence.
  - destruct Hcase as [Hcase|Hcase]; [done|]. subst sent. rewrite app_nil_r in *. destruct (finish_request_sends (x :: hd) [] s2 Hh2 Hp2 ltac:(done)) as (s3 & E3 & Hs3); [rewrite Hac2, Ha by done; exact Htakes| |].
    + rewrite app_nil_r, Hac2, Ha by done. pose proof (takes_sum (fb_accepts s)). lia.
    + exists s3. split; [done|]. rewrite Hs3, Hs2, Hsn, !app_nil_r. done.
Qed.

(** C11: a GET or HEAD request that arrives in any pieces, whose path decodes to a slash and the name of
    a regular file below the directory of the server, from a client that does not accept gzip or for an
    extension that is not to be compressed, is answered on the wire with the header and the contents
    of the file, or with a header that says that it is the one the client has; and the connection is
    kept or closed as the request asks.  ([http_file_server_compresses] is about the other requests.) *)
Theorem http_file_server_get (max_req_size : Z) (server : http_server) (s : hs) (m target version hdrs : list Z) (h : http_headers) (c : Z) (file : list Z) (realname : path) (ino fd age : Z) (mime inm data : list Z)
  (Hstarts : starts o limit server s) (Hopen : stays_open (fb_input s)) (Hm : m = str "GET" \/ m = str "HEAD") (Hwf : well_formed target version hdrs)
  (Hbytes : bytes_of (fb_input s) = request_head m target version hdrs ++ CRLFCRLF)
  (Hfirst : strstr CRLFCRLF (request_head m target version hdrs ++ CRLFCRLF) = Some (length (request_head m target version hdrs)))
  (Hmax : Z.of_nat (length (request_head m target version hdrs ++ CRLFCRLF)) <= max_req_size)
  (Hparse : http_headers_parse atof_positive ht_request_headers hdrs = Some h) (Hpath : uri_decoded (path_of target) = c :: file) (Hzero : 0 ∉ c :: file)
  (Hask : asks_for h file realname ino fd age mime inm data) :
  let keep := check_persistent (request_head m target version hdrs) in
  let '(hd, sent) := file_answer now keep mime age (Z.of_nat (length data)) (a_mtime (attr_of t ino)) false inm data in
  answer_room s (hd ++ sent) ->
  exists s', http_server_fiber_main o stale max_req_size serve_files server s = Some (inl (if keep then Idle else Closed), s') /\ fb_sent s' = fb_sent s ++ hd ++ sent.
Proof. exact (get_answered max_req_size server s m target version hdrs h c file realname ino fd age mime inm data Hstarts Hopen Hm Hwf Hbytes Hfirst Hmax Hparse Hpath Hzero Hask). Qed.
End Run.

(** ** An example *)

(** Two directories beside each other, a file in each, and a link. *)
Definition demo_files : fsys := Fsys
  (list_to_map [(str "/srv", 1); (str "/srv/www", 2); (str "/srv/www/a.txt", 3); (str "/srv/www2", 4); (str "/srv/www2/x", 5)])
  (list_to_map [(1, []); (2, []); (3, str "hello"); (4, []); (5, str "secret")]) ∅ 6.
Definition demo_tree : tree := Tree
  (list_to_map [(1, Attr (Some [str "www"; str "www2"]) 0); (2, Attr (Some [str "a.txt"; str "l"]) 0); (3, Attr None 951827696); (4, Attr (Some [str "x"]) 0); (5, Attr None 951827696)])
  (list_to_map [(str "/srv/www/l", str "../www/./a.txt")]) [].
Definition demo_table : hashtable := match hashtable_init os_all_ok HASHTABLE_INITIALIZER 0 with Some (ht, _) => ht | None => HASHTABLE_INITIALIZER end.
Definition demo_file_server : http_file_server :=
  match http_file_server_init os_all_ok demo_files demo_tree (HttpFileServer (Some (str "/srv/./www")) false 60 0 HASHTABLE_INITIALIZER HASHTABLE_INITIALIZER) with Some (v, _) => v | None => HTTP_FILE_SERVER_INITIALIZER end.
Definition demo_names : hashtable := match http_headers_init os_all_ok HASHTABLE_INITIALIZER with Some (ht, _) => ht | None => HASHTABLE_INITIALIZER end.
Definition gmtime_some (x : Z) : option tm := Some (gmtime x).
Definition demo_zlib : zlib := {| gz := fun l => 31 :: l; gz_opens := fun _ => true; gz_writes := fun l => Z.of_nat (length l); gz_closes := fun _ => true |}.

Definition demo_h : http_headers := HttpHeaders [[45]; [45]; [45]; [45]; str "h"; [45]; [45]; [45]; [45]; [45]; [45]] 0 [45].
Lemma demo_parse : http_headers_parse (fun _ => true) demo_names (str "Host: h") = Some demo_h.
Proof. vm_compute. reflexivity. Qed.

Abbreviation demo_asks := (asks_for os_all_ok demo_table demo_files demo_tree demo_file_server (str "/srv/www") demo_h).

Lemma demo_serves : serves_from demo_file_server (str "/srv/www").
Proof. by split; vm_compute. Qed.

Lemma demo_asks_file file realname ino data : requested demo_files demo_tree (str "/srv/www") file = Some realname -> starts_with (str "/srv/www") realname = true ->
  fs_dir demo_files !! realname = Some ino -> fs_data demo_files !! ino = Some data -> attr_of demo_tree ino = Attr None 951827696 -> find_max_age demo_file_server (ext_of file) = Some 60 ->
  mime_types_by_ext demo_table (ext_of file) = Some DEFAULT_MIME_TYPE -> demo_asks file realname ino 3 60 DEFAULT_MIME_TYPE [45] data.
Proof.
  intros Hn Hu Hi Hd Ha Hage Hmime. split; [apply demo_serves|exact Hn|exact Hu|by left|exact Hi|exact Hd|by rewrite Ha|rewrite Ha; unfold time_ok; cbn [a_mtime]; lia| |exact Hage|exact Hmime|vm_compute; lia|reflexivity].
  split; [done|done|apply lookup_empty|by eexists].
Qed.

(** The socket takes one byte per call. *)
Definition demo_wire (target : list Z) : hs := hs_fresh [([str "GE"], Eagain); ([str "T " ++ target ++ str " HTTP/1.1" ++ CRLF; str "Host: h" ++ CRLF; CRLF], Eagain)] (replicate 400 1).
Definition demo_serve : HS unit := serve_files os_all_ok no_stale demo_zlib gmtime_some 951830000 8080 demo_table demo_files demo_tree demo_file_server (fun _ => true) demo_names.

(** The answer to a request for a file. *)
Definition demo_answer (data : list Z) : list Z :=
  snd (file_answer 951830000 true DEFAULT_MIME_TYPE 60 (Z.of_nat (length data)) 951827696 false [45] data).

Lemma demo_answer_eq ino data : attr_of demo_tree ino = Attr None 951827696 ->
  file_answer 951830000 true DEFAULT_MIME_TYPE 60 (Z.of_nat (length data)) (a_mtime (attr_of demo_tree ino)) false [45] data = ([], demo_answer data).
Proof. intros ->. unfold demo_answer, file_answer. by rewrite decide_False by done. Qed.

Lemma demo_room target data : (length (demo_answer data) < 400)%nat -> answer_room (demo_wire target) ([] ++ demo_answer data).
Proof. intros Hl. split; [apply Forall_replicate; by right|]. cbn [app]. change (takes (fb_accepts (demo_wire target))) with 400%nat. lia. Qed.

(** A link, whose name is percent-encoded. *)
Lemma http_file_server_get_witness :
  exists s', http_server_fiber_main os_all_ok no_stale 1000 demo_serve demo_server (demo_wire (str "/%6c")) = Some (inl Idle, s') /\ fb_sent s' = demo_answer (str "hello").
Proof.
  pose proof (http_file_server_get os_all_ok no_stale (2 ^ 20) ltac:(lia) ltac:(by intros ? ? _) demo_zlib gmtime_some 951830000 8080 demo_table demo_files demo_tree demo_file_server (str "/srv/www") (fun _ => true) demo_names
    1000 demo_server (demo_wire (str "/%6c")) (str "GET") (str "/%6c") (str "HTTP/1.1") (str "Host: h") demo_h 47 (str "l") (str "/srv/www/a.txt") 3 3 60 DEFAULT_MIME_TYPE [45] (str "hello")) as Hget.
  rewrite (eq_refl : check_persistent (request_head (str "GET") (str "/%6c") (str "HTTP/1.1") (str "Host: h")) = true) in Hget. cbv zeta in Hget. rewrite (demo_answer_eq 3 (str "hello")) in Hget by (vm_compute; reflexivity).
  destruct Hget as (s' & E & Hs).
  - apply fresh_starts; [repeat constructor; done|vm_compute; congruence].
  - repeat constructor.
  - by left.
  - split; [repeat split; by_computation|split; by_computation|by_computation].
  - reflexivity.
  - reflexivity.
  - vm_compute. congruence.
  - exact demo_parse.
  - reflexivity.
  - by_computation.
  - apply demo_asks_file; vm_compute; reflexivity.
  - apply (demo_room _ (str "hello")). vm_compute. lia.
  - exists s'. split; [exact E|exact Hs].
Defined.

(** C37: only the first characters of a name are compared with the directory of the server, so a file in
    a directory beside it whose name starts with the same characters is sent to everyone: with
    the files of [/srv/www] served, GET [/../www2/x] sends [/srv/www2/x]. *)
Theorem http_file_server_serves_sibling :
  base_dir demo_file_server = Some (str "/srv/www")
  /\ exists s', http_server_fiber_main os_all_ok no_stale 1000 demo_serve demo_server (demo_wire (str "/../www2/x")) = Some (inl Idle, s') /\ exists h, fb_sent s' = h ++ str "secret".
Proof.
  split; [vm_compute; reflexivity|]. pose proof (get_answered os_all_ok no_stale (2 ^ 20) ltac:(lia) ltac:(by intros ? ? _) demo_zlib gmtime_some 951830000 8080 demo_table demo_files demo_tree demo_file_server (str "/srv/www") (fun _ => true) demo_names
    1000 demo_server (demo_wire (str "/../www2/x")) (str "GET") (str "/../www2/x") (str "HTTP/1.1") (str "Host: h") demo_h 47 (str "../www2/x") (str "/srv/www2/x") 5 3 60 DEFAULT_MIME_TYPE [45] (str "secret")) as Hget.
  rewrite (eq_refl : check_persistent (request_head (str "GET") (str "/../www2/x") (str "HTTP/1.1") (str "Host: h")) = true) in Hget. cbv zeta in Hget. rewrite (demo_answer_eq 5 (str "secret")) in Hget by (vm_compute; reflexivity).
  destruct Hget as (s' & E & Hs).
  - apply fresh_starts; [repeat constructor; done|vm_compute; congruence].
  - repeat constructor.
  - by left.
  - split; [repeat split; by_computation|split; by_computation|by_computation].
  - reflexivity.
  - reflexivity.
  - vm_compute. congruence.
  - exact demo_parse.
  - reflexivity.
  - by_computation.
  - apply demo_asks_file; vm_compute; reflexivity.
  - apply (demo_room _ (str "secret")). vm_compute. lia.
  - exists s'. split; [exact E|]. rewrite Hs. unfold demo_answer. eexists (_ ++ _). rewrite <- app_assoc. reflexivity.
Qed.

(** A connection whose buffers have been made. *)
Lemma demo_fresh accepts : exists s, fresh_request s /\ fb_accepts s = accepts /\ fb_sent s = [] /\ persistent (fb_ctx s) = false.
Proof.
  set (s0 := hs_fresh [] accepts).
  destruct (startable_eval os_all_ok no_stale 8192 (header_of s0)) as (? & st1 & _ & H1); [by left|]. set (s1 := put_header s0 st1).
  destruct (startable_eval os_all_ok no_stale 8192 (payload_of s1)) as (? & st2 & _ & H2); [by left|]. exists (put_payload s1 st2).
  split; [split; [destruct st1; by eapply rq_world|by rewrite (buffer_of_put payload_field)]|done].
Qed.

(** [GET /../x/../../srv] leads to [/srv]. *)
Lemma http_file_server_confined_witness : exists s s',
  http_file_server_run2 os_all_ok no_stale demo_zlib gmtime_some 951830000 8080 demo_table demo_file_server demo_h (str "../www2/../../srv") (demo_files, (demo_tree, s)) = Some (inr (-1), (demo_files, (demo_tree, s')))
  /\ contains (HTTP_STATUS_403 ++ [10]) (payload_of s').
Proof.
  destruct (demo_fresh []) as (s & Hs & _). exists s.
  pose proof (http_file_server_confined os_all_ok no_stale (2 ^ 20) ltac:(lia) ltac:(by intros ? ? _) demo_zlib gmtime_some 951830000 8080 demo_table demo_files demo_tree demo_file_server (str "/srv/www") demo_h (str "../www2/../../srv") s) as Hc.
  rewrite (eq_refl : requested demo_files demo_tree (str "/srv/www") (str "../www2/../../srv") = Some (str "/srv")) in Hc.
  destruct Hc as (s' & E & [_ Hp _ _ _]).
  - exact demo_serves.
  - exact Hs.
  - vm_compute. reflexivity.
  - exists s'. split; [exact E|exact Hp].
Defined.

Lemma http_file_server_revalidates_witness : exists s s' h,
  http_file_server_run2 os_all_ok no_stale demo_zlib gmtime_some 951830000 8080 demo_table demo_file_server (HttpHeaders (<[IF_NONE_MATCH := etag 951827696 5]> (hh_strings demo_h)) 0 [45]) (str "a.txt") (demo_files, (demo_tree, s)) = Some (inr 0, (demo_files, (demo_tree, s')))
  /\ fb_sent s' = fb_sent s /\ contains (start_no_body_text false HTTP_STATUS_304 ++ h) (header_of s').
Proof.
  destruct (demo_fresh [1]) as (s & Hs & Ha & _ & Hk). exists s.
  destruct (http_file_server_revalidates os_all_ok no_stale (2 ^ 20) ltac:(lia) ltac:(by intros ? ? _) demo_zlib gmtime_some 951830000 8080 demo_table demo_files demo_tree demo_file_server (str "/srv/www")
    (HttpHeaders (<[IF_NONE_MATCH := etag 951827696 5]> (hh_strings demo_h)) 0 [45]) (str "a.txt") (str "/srv/www/a.txt") 3 3 60 951827696 5 DEFAULT_MIME_TYPE (str "hello") s) as (s' & h & E & H304 & _).
  - split; [exact demo_serves|reflexivity|reflexivity|by left|reflexivity|reflexivity|reflexivity|unfold time_ok; vm_compute; split; congruence|split; [reflexivity|vm_compute; congruence|reflexivity|by eexists]|reflexivity|reflexivity|vm_compute; lia|reflexivity].
  - exact Hs.
  - unfold time_ok. lia.
  - lia.
  - vm_compute. reflexivity.
  - unfold file_answer. rewrite decide_True by reflexivity. cbn [snd]. split; rewrite Ha; [repeat constructor; lia|vm_compute; reflexivity].
  - exists s', h. split; [exact E|]. rewrite <- Hk. apply H304. split; reflexivity.
Defined.

Lemma realpath_canonical_witness : realpath demo_files demo_tree (str "/srv/www/a.txt") = Some (str "/srv/www/a.txt").
Proof.
  destruct (realpath_canonical demo_files demo_tree (str "/srv//www2/../www/l") (str "/srv/www/a.txt")) as [E _].
  - reflexivity.
  - vm_compute. reflexivity.
  - exact E.
Defined.
