(* ===== verification/HttpFileServerMore.v ===== *)
(** * HttpFileServerMore: lists of directories and compressed copies *)

From Stdlib Require Import String.
From stdpp Require Import base numbers functions list gmap.
From Stdlib Require Import ZArith Lia.
From S2P Require Import Prelude Words Bytes Os Disk Vmallocator Probe ProbeFacts Hashtable HashtableFacts HashtableMap Ringbuf Mempool Memalloc Vmbuf VmbufFacts Cstring Uri StringTable HttpHeaders FileMapper MimeTypes Calendar HttpText Connection HttpServer HttpServerFacts HttpServerRun HttpServerRequests HttpFileServer HttpFileServerFacts HttpFileServerRun.

(** ** The text of a list *)
Section ListText.
Context (localtime : Z -> option tm) (port : Z).

Definition entry_row (e : list Z * option stat) : list Z :=
  let '(name, st) := e in
  if starts_with (str ".") name then []
  else match st with
       | None => str "<tr><td>ERROR: " ++ name ++ str "</td><td>N/A</td></tr>"
       | Some st =>
           let shown := name ++ (if st_is_dir st then str "/" else []) in
           str "<tr>" ++ (str "<td><a href=" ++ quote ++ shown ++ quote ++ str ">" ++ shown ++ str "</a></td>") ++ str "<td>"
           ++ match localtime (st_mtime st) with Some v => date_text v ++ str " " ++ clock_text v | None => [] end
           ++ str "</td>" ++ (str "<td>" ++ dec (st_size st) ++ str "</td>") ++ str "</tr>"
       end.

Definition head_text (dir : list Z) : list Z :=
  (str "<html><head><title>Index of " ++ dir ++ str "</title></head>") ++ str "<body>" ++ (str "<h1>Index of " ++ dir ++ str "</h1><hr>").
Definition parent_text : list Z := str "<a href=" ++ quote ++ str ".." ++ quote ++ str ">../</a><br><br>".
Definition table_text : list Z := str "<table width=" ++ quote ++ str "100%" ++ quote ++ str " border=" ++ quote ++ str "0" ++ quote ++ str ">".
Definition foot_text : list Z :=
  str "<tr><td colspan=3><hr></td></tr></table>" ++ (str "<address>RIBS 2.0 Port " ++ dec (u16 port) ++ str "</address></body>") ++ str "</html>".

(** The page for a directory, by its name below that of the server. *)
Definition listing (dir : list Z) (entries : list (list Z * option stat)) : list Z :=
  let dir := match dir with [] => str "/" | _ => dir end in
  head_text dir ++ (match dir with _ :: _ :: _ => parent_text | _ => [] end) ++ table_text ++ concat (entry_row <$> entries) ++ foot_text.
End ListText.

Section Listing.
Context `{address_space} (o : os) (stale : Z -> Z -> Z) (limit : Z) (Hlimit : 2 ^ 14 <= limit <= 2 ^ 31) (Hgrow : can_grow_to o (limit + 4096)).
Context (z : zlib) (localtime : Z -> option tm) (now port : Z) (ht_mime_types : hashtable).
Context (fs : fsys) (t : tree) (v : http_file_server) (base : path) (keep : bool).

Abbreviation puts := (appends limit keep payload_field).

Lemma puts_seq m m' x x' : puts m x -> puts m' x' -> puts (m;; m') (x ++ x').
Proof. apply (appends_seq limit keep payload_field). done. Qed.
Lemma puts_sprintf x : puts (payload_sprintf o stale x) x.
Proof. apply (appends_sprintf o stale limit (header_limit limit Hlimit) Hgrow keep payload_field). Qed.
Lemma puts_strcpy x : puts (payload_strcpy o stale x) x.
Proof. apply (appends_strcpy o stale limit (header_limit limit Hlimit) Hgrow keep payload_field). Qed.
Hint Resolve puts_seq puts_sprintf puts_strcpy : core.

Lemma puts_time d : puts (payload_strftime o stale (strftime (str "%F %T") d)) (date_text d ++ str " " ++ clock_text d).
Proof.
  change (strftime (str "%F %T") d) with (date_text d ++ str " " ++ clock_text d ++ []). rewrite app_nil_r.
  apply (appends_strftime o stale limit (header_limit limit Hlimit) Hgrow keep payload_field). unfold date_text, clock_text. pose proof (length_year_text (tm_year d)). rewrite !length_app. cbn [length str two_digits list_ascii_of_string fmap list_fmap]. lia.
Qed.

Lemma puts_entry e : puts (if starts_with (str ".") (fst e) then mret tt else list_entry o stale localtime (fst e) (snd e)) (entry_row localtime e).
Proof.
  destruct e as [name st]. unfold entry_row. cbn [fst snd]. destruct (starts_with (str ".") name); [apply (appends_nothing limit keep payload_field)|]. unfold list_entry. destruct st as [st|]; [|auto].
  repeat (apply puts_seq; [by auto|]). apply puts_seq; [rewrite <- !app_assoc; auto|]. apply puts_seq; [auto|]. apply puts_seq; [|auto]. destruct (localtime (st_mtime st)); [apply puts_time|apply (appends_nothing limit keep payload_field)].
Qed.
Lemma puts_entries es : puts (list_entries o stale localtime es) (concat (entry_row localtime <$> es)).
Proof. induction es as [|[name st] es IH]; [apply (appends_nothing limit keep payload_field)|]. cbn [list_entries fmap list_fmap concat]. apply puts_seq; [apply (puts_entry (name, st))|done]. Qed.

(** A step that writes to the payload. *)
Lemma puts_step {A} m x c s (k : SV A) : puts m x -> persistent (fb_ctx s) = keep -> contains c (payload_of s) -> fits limit (c ++ x) ->
  exists st, (in_fiber m;; k) (fs, (t, s)) = k (fs, (t, put_payload s st)) /\ contains (c ++ x) (payload_of (put_payload s st)) /\ persistent (fb_ctx (put_payload s st)) = keep.
Proof.
  intros Hm Hk Hc Hf. destruct (Hm c s Hk Hc Hf) as (st & E & Hst). exists st. rewrite (sv_bind_eval _ _ _ _ _ (in_fiber_eval _ fs t _ _ _ E)). split; [done|]. by rewrite (buffer_of_put payload_field).
Qed.

Lemma list_dir_eval realname s : base_dir_len v = Z.of_nat (length base) -> persistent (fb_ctx s) = keep -> fresh_request s ->
  let page := listing localtime port (drop (length base) realname) (read_dir fs t realname) in
  fits limit page ->
  exists s', http_file_server_list_dir o stale localtime port v realname (fs, (t, s)) = Some (inr 0, (fs, (t, s')))
    /\ answered (response_text keep HTTP_STATUS_200 HTTP_CONTENT_TYPE_TEXT_HTML (Z.of_nat (length page))) page [] s s'.
Proof.
  intros Hl Hk [Hh Hp] page Hf. unfold http_file_server_list_dir. rewrite Hl, Nat2Z.id. subst page. unfold listing in *. set (dir := match drop (length base) realname with [] => str "/" | _ => _ end) in *.
  set (parent := match dir with _ :: _ :: _ => parent_text | _ => [] end) in *. set (rows := concat _) in *. rewrite !app_assoc in Hf.
  pose proof (fits_prefix _ _ _ Hf) as Hf4. pose proof (fits_prefix _ _ _ Hf4) as Hf3. pose proof (fits_prefix _ _ _ Hf3) as Hf2. pose proof (fits_prefix _ _ _ Hf2) as Hf1.
  destruct (puts_step (listing_head o stale dir) (head_text dir) [] s ((match dir with _ :: _ :: _ => in_fiber (list_parent o stale) | _ => mret tt end);; in_fiber (list_table o stale);; x ← sv_self; in_fiber (list_entries o stale localtime (read_dir (fst x) (fst (snd x)) realname));; in_fiber (list_foot o stale port);; in_fiber (http_server_response o stale HTTP_STATUS_200 HTTP_CONTENT_TYPE_TEXT_HTML);; mret 0)) as (st1 & E1 & H1 & K1);
    [unfold listing_head, head_text; auto 6|done|done|done|]. rewrite E1. clear E1. set (s1 := put_payload s st1) in *.
  assert (Hpar : exists st2, forall (k : SV Z), ((match dir with _ :: _ :: _ => in_fiber (list_parent o stale) | _ => mret tt end);; k) (fs, (t, s1)) = k (fs, (t, put_payload s1 st2)) /\ contains (head_text dir ++ parent) (payload_of (put_payload s1 st2)) /\ persistent (fb_ctx (put_payload s1 st2)) = keep).
  { subst parent. destruct dir as [|a [|b dir']].
    - exists (payload_of s1). intros k. rewrite (put_buffer_same payload_field), app_nil_r. done.
    - exists (payload_of s1). intros k. rewrite (put_buffer_same payload_field), app_nil_r. done.
    - destruct (puts_sprintf parent_text (head_text (a :: b :: dir')) s1 K1 H1 Hf2) as (st & E & Hst). exists st. intros k. unfold list_parent. rewrite (sv_bind_eval _ _ _ _ _ (in_fiber_eval _ fs t _ _ _ E)). split; [done|]. by rewrite (buffer_of_put payload_field). }
  destruct Hpar as (st2 & E2). destruct (E2 (mret 0)) as (_ & H2 & K2). rewrite (proj1 (E2 _)). clear E2. set (s2 := put_payload s1 st2) in *.
  destruct (puts_step (list_table o stale) table_text _ s2 (x ← sv_self; in_fiber (list_entries o stale localtime (read_dir (fst x) (fst (snd x)) realname));; in_fiber (list_foot o stale port);; in_fiber (http_server_response o stale HTTP_STATUS_200 HTTP_CONTENT_TYPE_TEXT_HTML);; mret 0)
    (puts_sprintf _) K2 H2 Hf3) as (st3 & E3 & H3 & K3). rewrite E3. clear E3. set (s3 := put_payload s2 st3) in *. rewrite (sv_bind_eval _ _ _ (fs, (t, s3)) (fs, (t, s3))) by done. cbn [fst snd].
  destruct (puts_step (list_entries o stale localtime (read_dir fs t realname)) rows _ s3 (in_fiber (list_foot o stale port);; in_fiber (http_server_response o stale HTTP_STATUS_200 HTTP_CONTENT_TYPE_TEXT_HTML);; mret 0) (puts_entries _) K3 H3 Hf4) as (st4 & E4 & H4 & K4). rewrite E4. clear E4. set (s4 := put_payload s3 st4) in *.
  destruct (puts_step (list_foot o stale port) (foot_text port) (((head_text dir ++ parent) ++ table_text) ++ rows) s4 (in_fiber (http_server_response o stale HTTP_STATUS_200 HTTP_CONTENT_TYPE_TEXT_HTML);; mret 0)) as (st5 & E5 & H5 & K5); [unfold list_foot, foot_text; auto 6|done|exact H4|exact Hf|]. rewrite E5. clear E5. set (s5 := put_payload s4 st5) in *.
  assert (Hh5 : contains [] (header_of s5)) by (destruct st5; by eapply rq_world). destruct (http_server_response_eval o stale limit (header_limit60 limit Hlimit) Hgrow [] _ HTTP_STATUS_200 HTTP_CONTENT_TYPE_TEXT_HTML s5 Hh5 H5) as (st6 & E6 & H6); [unfold short; vm_compute; lia|].
  rewrite (sv_bind_eval _ _ _ _ _ (in_fiber_eval _ fs t _ _ _ E6)). eexists. split; [done|]. rewrite <- !app_assoc in *. rewrite K5 in H6. split; [by rewrite (buffer_of_put header_field)|destruct st6; by eapply rq_world|cbn; by rewrite app_nil_r|done|done].
Qed.

(** A request for a directory below that of the server is answered, if listing is on, with a page
    that has a row for each entry, in order, except those whose names start with a dot, with its
    name, time and size; and with 403 if listing is off.  Nothing is left open. *)
Theorem http_file_server_lists (headers : http_headers) (file : list Z) (realname : path) (ino fd : Z) (es : list (list Z)) (data : list Z) (s : hs)
  (Hfrom : serves_from v base) (Hname : requested fs t base file = Some realname) (Hunder : starts_with base realname = true) (Hplain : plain_request v headers file)
  (Hino : fs_dir fs !! realname = Some ino) (Hdata : fs_data fs !! ino = Some data) (Hdir : a_entries (attr_of t ino) = Some es) (Hopen : can_open o fs realname fd)
  (Hfresh : fresh_request s) (Hkeep : persistent (fb_ctx s) = keep) :
  let page := listing localtime port (drop (length base) realname) ((fun n => (n, stat_name fs t (realname ++ 47 :: n))) <$> es) in
  fits limit page ->
  exists s', http_file_server_run2 o stale z localtime now port ht_mime_types v headers file (fs, (t, s)) = Some (inr (if allow_list v then 0 else -1), (fs, (t, s')))
    /\ if allow_list v then answered (response_text keep HTTP_STATUS_200 HTTP_CONTENT_TYPE_TEXT_HTML (Z.of_nat (length page))) page [] s s'
       else answered (response_text keep HTTP_STATUS_403 HTTP_CONTENT_TYPE_TEXT_PLAIN 14) (HTTP_STATUS_403 ++ [10]) [] s s'.
Proof.
  intros page Hf. pose proof (requested_under fs t v base file realname Hfrom Hname) as Hself. assert (Hfile : file_at fs t realname ino data) by done.
  rewrite (run2_plain o stale z localtime now port ht_mime_types fs t v base headers file realname s) by done. unfold choose_plain. rewrite sv_bind_assoc.
  rewrite (sv_bind_eval _ _ _ _ _ (open_path_eval o fs t realname ino fd data Hfile Hopen s)). rewrite (proj2 (Z.ltb_ge fd 0)) by (apply (co_ok _ _ _ _ Hopen)). rewrite sv_bind_assoc.
  rewrite (sv_bind_eval _ _ _ _ _ (stat_fd_eval o fs t realname ino fd data Hfile Hopen s)). rewrite (sv_bind_eval _ _ _ (inr (fd, stat_of t ino (Z.of_nat (length data)), stat_of t ino (Z.of_nat (length data)), false)) (with_fds fs (<[fd:=ino]> (fs_fds fs)), (t, s))) by done.
  unfold answer_file. cbn [st_is_dir stat_of]. rewrite Hdir, bool_decide_eq_true_2 by (by eexists). rewrite (sv_bind_eval _ _ _ _ _ (close_file_eval o fs t realname ino fd data Hfile Hopen s)).
  unfold answer_directory. destruct (allow_list v).
  - assert (Hread : read_dir fs t realname = (fun n => (n, stat_name fs t (realname ++ 47 :: n))) <$> es) by (unfold read_dir; rewrite Hself; cbn; rewrite Hino; cbn; by rewrite Hdir). subst page. rewrite <- Hread in *. by apply list_dir_eval; [apply Hfrom|..].
  - destruct (error_eval o stale limit Hlimit Hgrow fs t s HTTP_STATUS_403) as (s' & E & Ha); [by_computation|done|]. rewrite Hkeep in Ha. exists s'. by rewrite (sv_bind_eval _ _ _ _ _ E).
Qed.
End Listing.

(** ** A file through a mapping *)

Record can_map (o : os) (fs : fsys) (name : path) (size : Z) : Prop := {
  cm_ok : 0 <= sys_open o name O_RDONLY_CLOEXEC;
  cm_fresh : fs_fds fs !! sys_open o name O_RDONLY_CLOEXEC = None;
  cm_stat : is_Some (sys_fstat o (sys_open o name O_RDONLY_CLOEXEC));
  cm_mmap : sys_mmap o (RIBS_VM_ALIGN size) = true;
}.

Lemma map_file_eval o fs name ino data x : fs_dir fs !! name = Some ino -> fs_data fs !! ino = Some data -> Z.of_nat (length data) < 2 ^ 60 -> can_map o fs name (Z.of_nat (length data)) ->
  map_file o name (fs, x) = Some (inr (Some data), (fs, x)).
Proof.
  intros Hi Hd Hlen [Hok Hfresh [st Hst] Hmap]. set (fd := sys_open o name O_RDONLY_CLOEXEC) in *. unfold map_file. set (opened := Fsys (fs_dir fs) (fs_data fs) (<[fd := ino]> (fs_fds fs)) (fs_next fs)).
  assert (Hclose : forall fm : file_mapper, close_fd o fd (opened, fm) = Some (if sys_close o fd then 0 else -1, (fs, fm))) by (intros fm; unfold close_fd; cbn; rewrite lookup_insert_eq, delete_insert_id by done; by destruct fs).
  set (fm := FileMapper (if Z.of_nat (length data) =? 0 then None else Some (ino, false)) (Z.of_nat (length data))).
  assert (Einit : file_mapper_init o name (fs, FILE_MAPPER_INITIALIZER) = Some (0, (fs, fm))).
  { unfold file_mapper_init, file_mapper_init2. rewrite (bind_eval _ _ _ 0 (fs, FILE_MAPPER_INITIALIZER)) by done. cbn [Z.ltb Z.compare].
    assert (Eo : open_or_create o name O_RDONLY_CLOEXEC (fs, FILE_MAPPER_INITIALIZER) = Some (fd, (opened, FILE_MAPPER_INITIALIZER))).
    { unfold open_or_create. rewrite Hi, bool_decide_eq_false_2 by done. cbn [andb]. unfold sys_open_file. fold fd. rewrite Hi, (proj2 (Z.ltb_ge fd 0)) by done. done. }
    rewrite (bind_eval _ _ _ _ _ Eo), (proj2 (Z.ltb_ge fd 0)) by done.
    assert (Ew : file_mapper_init_with_fd o fd 0 (opened, FILE_MAPPER_INITIALIZER) = Some (0, (opened, fm))).
    { unfold file_mapper_init_with_fd. cbn [Z.eqb]. rewrite (bind_eval _ _ _ (Some (Z.of_nat (length data))) (opened, FILE_MAPPER_INITIALIZER)) by (unfold fstat; cbn; rewrite Hst, lookup_insert_eq; cbn; by rewrite Hd).
      rewrite (bind_eval _ _ _ (Some ino) (opened, FILE_MAPPER_INITIALIZER)) by (unfold file_of; cbn; by rewrite lookup_insert_eq). unfold fm. destruct (Z.eqb_spec (Z.of_nat (length data)) 0) as [E0|Hne]; [done|by rewrite Hmap]. }
    rewrite (bind_eval _ _ _ _ _ Ew). cbn [Z.ltb Z.compare]. by rewrite (bind_eval _ _ _ _ _ (Hclose fm)). }
  rewrite (bind_eval _ _ _ _ _ Einit). cbn [Z.ltb Z.compare]. rewrite (bind_eval _ _ _ (Z.of_nat (length data)) (fs, fm)) by done. unfold fm. destruct (Z.eqb_spec (Z.of_nat (length data)) 0) as [E0|Hne].
  - assert (data = []) as -> by (by destruct data). done.
  - assert (Ed : file_mapper_data 0 (Z.of_nat (length data)) (fs, FileMapper (Some (ino, false)) (Z.of_nat (length data))) = Some (data, (fs, FileMapper (Some (ino, false)) (Z.of_nat (length data))))).
    { unfold file_mapper_data. cbn [fm_mem snd fst fm_size]. rewrite Hd, Z.min_id. pose proof (vm_align_spec (Z.of_nat (length data)) ltac:(lia)) as [Ha _]. rewrite !(proj2 (Z.leb_le _ _)) by lia. cbn [andb]. do 2 f_equal.
      unfold subrange. rewrite Z2Nat.inj_0, drop_0, Nat2Z.id. apply take_app_length. }
    rewrite (bind_eval _ _ _ _ _ Ed). done.
Qed.

(** ** A new file in a directory *)

Lemma take_dir dir b : take (length (name_of (dir ++ [b])) - length b - 1) (name_of (dir ++ [b])) = dir_text dir.
Proof. rewrite name_of_snoc, length_app. cbn [length]. replace (_ - _ - 1)%nat with (length (dir_text dir)) by lia. apply take_app_length. Qed.

Lemma file_parent fs t p realname ino : disk_ok fs t -> absolute p = true -> realpath fs t p = Some realname -> fs_dir fs !! realname = Some ino -> a_entries (attr_of t ino) = None ->
  exists dir b, realname = name_of (dir ++ [b]) /\ directory fs t dir /\ entry_name b.
Proof.
  intros [_ _ Hroot] Hp Hr Hi Ha. destruct (realpath_spec fs t p realname Hp Hr) as (comps & -> & Hc & _). revert Hi. destruct Hc as [comps' Hd|dir b ino' Hd Hb _ _ _]; intros Hi; [|by eexists dir, b]. destruct Hd as [|dir b ino' es Hd Hb _ Hi' Ha'].
  - destruct (Hroot ino Hi) as [? ?]. congruence.
  - congruence.
Qed.

Definition gz_entry (b : list Z) : list Z := RIBS_GZ_EXT ++ str "." ++ b.
Lemma gz_entry_name b : entry_name b -> entry_name (gz_entry b).
Proof.
  intros (_ & _ & _ & Hb). assert (Hl : (11 <= length (gz_entry b))%nat) by (unfold gz_entry; rewrite !length_app; change (length RIBS_GZ_EXT) with 10%nat; change (length (str ".")) with 1%nat; lia).
  repeat (split; [intros E; rewrite E in Hl; vm_compute in Hl; lia|]). unfold gz_entry. assert (H1 : 47 ∉ RIBS_GZ_EXT) by by_computation. assert (H2 : 47 ∉ str ".") by by_computation. rewrite !elem_of_app. tauto.
Qed.
Lemma compressed_name_eval dir b gzname : entry_name b -> compressed_name (name_of (dir ++ [b])) = Some gzname -> gzname = name_of (dir ++ [gz_entry b]) /\ Z.of_nat (length gzname) < PATH_MAX.
Proof.
  intros (_ & _ & _ & Hb). assert (Er : strrchr 47 (name_of (dir ++ [b])) = Some b) by (rewrite name_of_snoc; by apply strrchr_last). unfold compressed_name. rewrite Er, take_dir. change (dir_text dir ++ str "/" ++ RIBS_GZ_EXT ++ str "." ++ b) with (dir_text dir ++ 47 :: gz_entry b). rewrite <- name_of_snoc.
  destruct (Z.leb_spec PATH_MAX (Z.of_nat (length (name_of (dir ++ [gz_entry b]))))); [done|]. intros E. injection E as <-. split; [done|lia].
Qed.

Section Create.
Context (z : zlib) (now : Z) (fs : fsys) (t : tree) (dir : list (list Z)) (b : list Z).
Hypothesis (Hdisk : disk_ok fs t) (Hdir : directory fs t dir) (Hb : entry_name b).
Let name := name_of (dir ++ [b]).
Hypothesis (Hnew : fs_dir fs !! name = None) (Hlink : t_links t !! name = None).

Definition new_fs (content : list Z) : fsys := Fsys (<[name := fs_next fs]> (fs_dir fs)) (<[fs_next fs := content]> (fs_data fs)) (fs_fds fs) (fs_next fs + 1).
Definition new_attrs : gmap Z attr :=
  let add a := Attr ((fun e => e ++ [b]) <$> a_entries a) now in
  match fs_dir fs !! dir_text dir with Some d => alter add d (t_attrs t) | None => t_attrs t end.
Definition new_tree : tree := Tree (<[fs_next fs := Attr None now]> new_attrs) (t_links t) (t_cwd t).

Lemma missing : realpath fs t name = None.
Proof.
  unfold realpath. assert (Hne : name <> []) by (unfold name; rewrite name_of_snoc; by destruct (dir_text dir)). destruct name as [|a nm] eqn:En; [done|]. rewrite <- En in *.
  assert (Ha : absolute name = true) by (unfold name; rewrite name_of_snoc; by destruct dir). rewrite Ha. assert (Hc : components name = [] :: dir ++ [b]).
  { pose proof (canonical_names fs t dir ltac:(by constructor)) as Hns. unfold name, name_of. destruct (dir ++ [b]) as [|c cs] eqn:E; [by destruct dir|]. rewrite <- E. rewrite E. cbn [fmap list_fmap concat app]. change (components (47 :: ?x)) with ([] :: components x). f_equal. apply components_name. rewrite <- E. apply Forall_app. split; [done|by constructor]. }
  rewrite Hc, walk_skip, (walk_directory fs t _ dir Hdir). destruct Hb as (H1 & H2 & H3 & _). cbn [MAXSYMLINKS walk]. rewrite !bool_decide_eq_false_2 by done. cbn [orb]. fold name. by rewrite Hlink, Hnew.
Qed.

Lemma gz_create_eval s : gz_opens z name = true -> gz_create z now name (fs, (t, s)) = Some (inr (Some (fs_next fs)), (new_fs [], (new_tree, s))).
Proof.
  intros Ho. unfold gz_create. rewrite Ho, missing. cbn [negb]. rewrite Hlink, bool_decide_eq_false_2 by (by intros []). destruct Hb as (_ & _ & _ & Hs).
  assert (Er : strrchr 47 name = Some b) by (unfold name; rewrite name_of_snoc; by apply strrchr_last). rewrite Er. change (default name (Some b)) with b. unfold name. rewrite take_dir. done.
Qed.

(** What was there is still there. *)
Lemma new_dir n ino : fs_dir fs !! n = Some ino -> forall c, fs_dir (new_fs c) !! n = Some ino.
Proof. intros Hn c. cbn. rewrite lookup_insert_ne; [done|]. intros E. unfold name in *. congruence. Qed.
Lemma new_entries ino : ino <> fs_next fs -> match a_entries (attr_of t ino) with Some _ => is_Some (a_entries (attr_of new_tree ino)) | None => a_entries (attr_of new_tree ino) = None end.
Proof.
  intros Hi. unfold attr_of, new_tree, new_attrs. cbn [t_attrs]. rewrite lookup_insert_ne by done. destruct (fs_dir fs !! dir_text dir) as [d|]; [|destruct (a_entries _) eqn:E; [by eexists|done]].
  destruct (decide (d = ino)) as [->|Hd]; [|rewrite lookup_alter_ne by done; destruct (a_entries _) eqn:E; [by eexists|done]]. rewrite lookup_alter_eq. destruct (t_attrs t !! ino) as [[[es|] m]|]; cbn; [by eexists|done|done].
Qed.

Lemma new_attr ino : ino <> fs_next fs -> a_entries (attr_of t ino) = None -> attr_of new_tree ino = attr_of t ino.
Proof.
  intros Hi Ha. unfold attr_of at 1, new_tree, new_attrs. cbn [t_attrs]. rewrite lookup_insert_ne by done. destruct (fs_dir fs !! dir_text dir) as [d|] eqn:Ed; [|done]. destruct (decide (d = ino)) as [->|Hd]; [|by rewrite lookup_alter_ne].
  destruct Hdir as [|dir' c ino' es Hd' Hc Hl Hi' Ha'].
  - cbn in Ed. by rewrite (dk_empty _ _ Hdisk) in Ed.
  - rewrite name_of_snoc in Hi'. assert (E : dir_text (dir' ++ [c]) = dir_text dir' ++ 47 :: c) by (unfold dir_text; rewrite fmap_app, concat_app; cbn; by rewrite app_nil_r). rewrite E in Ed. congruence.
Qed.

Lemma walk_new c n : forall d todo r, walk fs t n d todo = Some r -> walk (new_fs c) new_tree n d todo = Some r.
Proof.
  assert (Hstep : forall d x, match fs_dir fs !! name_of (d ++ [x]) with Some ino => ino <> fs_next fs /\ fs_dir (new_fs c) !! name_of (d ++ [x]) = Some ino | None => True end).
  { intros d x. destruct (fs_dir fs !! name_of (d ++ [x])) as [ino|] eqn:E; [|done]. split; [|by apply new_dir]. intros ->. apply (dk_next _ _ Hdisk) in E. lia. }
  induction n as [|n IHn]; intros d todo; revert d; induction todo as [|x todo IH]; intros d r; cbn [walk]; try done; destruct (bool_decide (x = []) || bool_decide (x = str ".")); [apply IH| |apply IH|];
    (destruct (bool_decide (x = str "..")); [apply IH|]); cbn [new_tree t_links]; (destruct (t_links t !! name_of (d ++ [x])) as [target|]; [try done; apply IHn|]); specialize (Hstep d x);
    (destruct (fs_dir fs !! name_of (d ++ [x])) as [ino|]; [|done]); destruct Hstep as [Hne ->]; cbn [mbind option_bind]; pose proof (new_entries ino Hne) as He;
    (destruct (a_entries (attr_of t ino)) as [es|]; [destruct He as [es' ->]; apply IH|rewrite He; done]).
Qed.
Lemma realpath_new c p r : realpath fs t p = Some r -> realpath (new_fs c) new_tree p = Some r.
Proof.
  unfold realpath. destruct p as [|a p]; [done|]. change (t_cwd new_tree) with (t_cwd t). destruct (walk fs t MAXSYMLINKS _ _) as [comps|] eqn:E; [|done]. by rewrite (walk_new c _ _ _ _ E).
Qed.

Lemma directory_new c d : directory fs t d -> directory (new_fs c) new_tree d.
Proof.
  induction 1 as [|d x ino es Hd IH Hx Hl Hi Ha]; [constructor|]. assert (Hne : ino <> fs_next fs) by (apply (dk_next _ _ Hdisk) in Hi; lia). pose proof (new_entries ino Hne) as He. rewrite Ha in He. destruct He as [es' He].
  eapply sub_directory; [done|done|done|by apply new_dir|done].
Qed.

Lemma new_file_at c : Z.of_nat (length name) < PATH_MAX -> file_at (new_fs c) new_tree name (fs_next fs) c /\ a_entries (attr_of new_tree (fs_next fs)) = None /\ a_mtime (attr_of new_tree (fs_next fs)) = now.
Proof.
  intros Hlen. assert (Hat : attr_of new_tree (fs_next fs) = Attr None now) by (unfold attr_of; cbn; by rewrite lookup_insert_eq). rewrite Hat. split; [|done]. split; [|by cbn; rewrite lookup_insert_eq|by cbn; rewrite lookup_insert_eq].
  apply realpath_self; [|done]. eapply canonical_file; [by apply directory_new|done|done|cbn; by rewrite lookup_insert_eq|by rewrite Hat].
Qed.
End Create.

(** ** Compressed copies *)
Section Gzip.
Context `{address_space} (o : os) (stale : Z -> Z -> Z) (limit : Z) (Hlimit : 2 ^ 14 <= limit <= 2 ^ 31) (Hgrow : can_grow_to o (limit + 4096)).
Context (z : zlib) (localtime : Z -> option tm) (now port : Z) (ht_mime_types : hashtable).
Context (fs : fsys) (t : tree) (v : http_file_server) (base : path).

Abbreviation run2 := (http_file_server_run2 o stale z localtime now port ht_mime_types v).

(** A request of a client that accepts gzip for the regular file [realname], of a kind that is to be
    compressed; [gzname] is the name of its compressed copy. *)
Record asks_gzip (headers : http_headers) (file : list Z) (realname gzname : path) (ino age : Z) (mime inm data : list Z) : Prop := {
  ag_from : serves_from v base;
  ag_name : requested fs t base file = Some realname;
  ag_under : starts_with base realname = true;
  ag_accepts : Z.land (hh_accept_encoding_mask headers) HTTP_AE_GZIP <> 0;
  ag_listed : exists ofs, hashtable_lookup (ht_ext_whitelist v) (ext_of file) = Some ofs /\ ofs <> 0;
  ag_ino : fs_dir fs !! realname = Some ino;
  ag_data : fs_data fs !! ino = Some data;
  ag_regular : a_entries (attr_of t ino) = None;
  ag_time : time_ok (a_mtime (attr_of t ino));
  ag_gzname : compressed_name realname = Some gzname;
  ag_age : find_max_age v (ext_of file) = Some age;
  ag_mime : mime_types_by_ext ht_mime_types (ext_of file) = Some mime;
  ag_short : (length mime <= 1024)%nat;
  ag_inm : hh_strings headers !! IF_NONE_MATCH = Some inm;
}.

Lemma run2_gzip headers file realname gzname ino age mime inm data s : asks_gzip headers file realname gzname ino age mime inm data ->
  run2 headers file (fs, (t, s)) = (r ← open_compressed o stale z now realname gzname (stat_of t ino (Z.of_nat (length data)));
    match r with inl res => mret res | inr (ffd, st) => answer_file o stale localtime now port ht_mime_types v headers (ext_of file) realname ffd st (stat_of t ino (Z.of_nat (length data))) true end) (fs, (t, s)).
Proof.
  intros [Hfrom Hr Hu Hacc (ofs & Hlook & Hofs) Hi Hd Hreg _ Hgz _ _ _ _]. pose proof (requested_under fs t v base file realname Hfrom Hr) as Hself. destruct Hfrom as [Hb Hl _].
  unfold http_file_server_run2, base_name. rewrite Hb. change (default [] (Some base)) with base. rewrite (sv_bind_eval _ _ _ (fs, (t, s)) (fs, (t, s))) by done. cbn [fst snd]. fold (requested fs t base file). rewrite Hr, Hl, Nat2Z.id, take_ge, Hu by lia. cbn [negb].
  rewrite (sv_bind_eval _ _ _ ofs (fs, (t, s))) by (unfold checked; fold (ext_of file); rewrite (proj2 (Z.eqb_neq _ 0)) by done; by rewrite Hlook). rewrite (proj2 (Z.eqb_neq ofs 0)) by done. cbn [negb].
  unfold choose_compressed. rewrite sv_bind_assoc, (sv_bind_eval _ _ _ (fs, (t, s)) (fs, (t, s))) by done. cbn [fst snd].
  assert (Est : stat_name fs t realname = Some (stat_of t ino (Z.of_nat (length data)))) by (unfold stat_name; rewrite Hself; cbn; rewrite Hi; cbn; by rewrite Hd). rewrite Est. cbn [st_is_dir stat_of]. rewrite Hreg, bool_decide_eq_false_2 by (by intros []). fold (stat_of t ino (Z.of_nat (length data))).
  rewrite Hgz, sv_bind_assoc. unfold mbind at 1 3, SV_bind. destruct (open_compressed _ _ _ _ _ _ _ _) as [[[e|[r|[ffd st]]] s']|]; done.
Qed.

(** The copy is there and not older than the file: it is sent. *)
Lemma cached_answered headers file realname gzname ino age mime inm data gino fd gzdata s : asks_gzip headers file realname gzname ino age mime inm data -> fresh_request s ->
  file_at fs t gzname gino gzdata -> a_entries (attr_of t gino) = None -> a_mtime (attr_of t ino) <= a_mtime (attr_of t gino) -> can_open o fs gzname fd ->
  let '(h, sent) := file_answer now (persistent (fb_ctx s)) mime age (Z.of_nat (length gzdata)) (a_mtime (attr_of t ino)) true inm gzdata in
  answer_room s sent -> exists s', run2 headers file (fs, (t, s)) = Some (inr 0, (fs, (t, s'))) /\ answered h [] sent s s'.
Proof.
  intros Hask Hfr Hgz Hgreg Hnew Hopen. pose proof Hask as [_ _ _ _ _ _ _ _ Htime _ Hage Hmime Hshort Hinm].
  pose proof (answer_file_eval o stale limit Hlimit Hgrow localtime now port ht_mime_types fs t v headers (ext_of file) realname gzname gino fd gzdata (stat_of t ino (Z.of_nat (length data))) true age mime inm s Hgz Hopen Hgreg Htime Hage Hmime Hshort Hinm Hfr) as Ha.
  cbn [st_mtime stat_of] in Ha. destruct (file_answer now _ mime age _ _ true inm gzdata) as [h sent]. intros Hroom. destruct (Ha Hroom) as (s' & E & Han). exists s'. split; [|done].
  rewrite (run2_gzip _ _ _ _ _ _ _ _ _ s Hask). unfold open_compressed. rewrite sv_bind_assoc, (sv_bind_eval _ _ _ _ _ (open_path_eval o fs t gzname gino fd gzdata Hgz Hopen s)). rewrite (proj2 (Z.ltb_ge fd 0)) by (apply (co_ok _ _ _ _ Hopen)).
  rewrite sv_bind_assoc, (sv_bind_eval _ _ _ _ _ (stat_fd_eval o fs t gzname gino fd gzdata Hgz Hopen s)). cbn [st_mtime stat_of]. rewrite (proj2 (Z.ltb_ge _ _)) by done. exact E.
Qed.

End Gzip.

Section Copy.
Context `{address_space} (o : os) (stale : Z -> Z -> Z) (limit : Z) (Hlimit : 2 ^ 14 <= limit <= 2 ^ 31) (Hgrow : can_grow_to o (limit + 4096)).
Context (z : zlib) (localtime : Z -> option tm) (now port : Z) (ht_mime_types : hashtable).
Context (fs : fsys) (t : tree) (v : http_file_server) (base : path).

Abbreviation run2 := (http_file_server_run2 o stale z localtime now port ht_mime_types v).
Abbreviation asks := (fun fs t => asks_gzip ht_mime_types fs t v base).

(** The calls that make a copy of [data] succeed. *)
Record can_compress (realname gzname : path) (data : list Z) (fd : Z) : Prop := {
  cc_opens : gz_opens z gzname = true;
  cc_writes : gz_writes z data = Z.of_nat (length data);
  cc_closes : gz_closes z gzname = true;
  cc_map : can_map o fs realname (Z.of_nat (length data));
  cc_open : can_open o fs gzname fd;
}.

Lemma copy_made (headers : http_headers) (file : list Z) (realname gzname : path) (ino age fd : Z) (mime inm data : list Z) (s : hs)
  (Hdisk : disk_ok fs t) (Hask : asks fs t headers file realname gzname ino age mime inm data) (Hfresh : fresh_request s)
  (Hnone : fs_dir fs !! gzname = None) (Hlink : t_links t !! gzname = None) (Hsize : Z.of_nat (length data) < 2 ^ 60) (Hgz : can_compress realname gzname data fd) :
  let '(h, sent) := file_answer now (persistent (fb_ctx s)) mime age (Z.of_nat (length (gz z data))) (a_mtime (attr_of t ino)) true inm (gz z data) in
  answer_room s sent ->
  exists fs' t' s', run2 headers file (fs, (t, s)) = Some (inr 0, (fs', (t', s'))) /\ answered h [] sent s s'
    /\ file_at fs' t' gzname (fs_next fs) (gz z data) /\ a_mtime (attr_of t' (fs_next fs)) = now /\ fs_fds fs' = fs_fds fs
    /\ (forall n, n <> gzname -> fs_dir fs' !! n = fs_dir fs !! n) /\ (forall i, i <> fs_next fs -> fs_data fs' !! i = fs_data fs !! i)
    /\ a_entries (attr_of t' (fs_next fs)) = None /\ a_mtime (attr_of t' ino) = a_mtime (attr_of t ino) /\ asks fs' t' headers file realname gzname ino age mime inm data.
Proof.
  pose proof Hask as [Hfrom Hr _ _ _ Hi Hd Hreg Htime Hcn Hage Hmime Hshort Hinm]. destruct Hgz as [Hopens Hwrites Hcloses Hmap Hopen].
  destruct (file_parent fs t (base ++ str "/" ++ file) realname ino Hdisk) as (dir & b & -> & Hdir & Hb); [by destruct Hfrom as [_ _ Ha]; destruct base; [|destruct (Z.eq_dec z0 47); subst]|done|done|done|].
  destruct (compressed_name_eval dir b gzname Hb Hcn) as [-> Hlen]. pose proof (gz_entry_name b Hb) as Hgb. set (gzname := name_of (dir ++ [gz_entry b])) in *. set (t' := new_tree now fs t dir (gz_entry b)). set (fs' := new_fs fs dir (gz_entry b)).
  destruct (new_file_at now fs t dir (gz_entry b) Hdisk Hdir Hgb Hnone Hlink (gz z data) Hlen) as (Hf' & Hreg' & Hmt'). fold t' (fs' (gz z data)) in Hf', Hreg', Hmt'. fold gzname in Hf'.
  assert (Hino : ino <> fs_next fs) by (apply (dk_next _ _ Hdisk) in Hi; lia). pose proof (new_attr now fs t dir (gz_entry b) Hdisk Hdir Hnone Hlink ino Hino Hreg) as Hattr. fold t' in Hattr.
  assert (Hopen' : can_open o (fs' (gz z data)) gzname fd) by (by destruct Hopen).
  pose proof (answer_file_eval o stale limit Hlimit Hgrow localtime now port ht_mime_types (fs' (gz z data)) t' v headers (ext_of file) (name_of (dir ++ [b])) gzname (fs_next fs) fd (gz z data) (stat_of t ino (Z.of_nat (length data))) true age mime inm s Hf' Hopen' Hreg' Htime Hage Hmime Hshort Hinm Hfresh) as Ha.
  cbn [st_mtime stat_of] in Ha. destruct (file_answer now _ mime age _ _ true inm (gz z data)) as [h sent]. intros Hroom. destruct (Ha Hroom) as (s' & E & Han). exists (fs' (gz z data)), t', s'.
  enough (Erun : run2 headers file (fs, (t, s)) = Some (inr 0, (fs' (gz z data), (t', s')))).
  { split; [done|]. split; [done|]. split; [done|]. split; [done|]. split; [done|]. split; [intros n Hn; cbn; by rewrite lookup_insert_ne|]. split; [intros j Hj; cbn; by rewrite lookup_insert_ne|]. split; [done|]. rewrite Hattr. split; [done|].
    destruct Hask. split; try done; [by apply realpath_new|by apply new_dir|cbn; by rewrite lookup_insert_ne|by rewrite Hattr|by rewrite Hattr]. }
  rewrite (run2_gzip o stale z localtime now port ht_mime_types fs t v base _ _ _ _ _ _ _ _ _ s Hask). unfold open_compressed. rewrite sv_bind_assoc.
  rewrite (sv_bind_eval _ _ _ (-1) (fs, (t, s))) by (unfold open_path; rewrite (sv_bind_eval _ _ _ (fs, (t, s)) (fs, (t, s))) by done; cbn [fst snd]; unfold gzname; by rewrite (missing fs t dir (gz_entry b) Hdir Hgb Hnone Hlink)). cbn [Z.ltb Z.compare].
  unfold compress_file. rewrite sv_bind_assoc, (sv_bind_eval _ _ _ _ _ (gz_create_eval z now fs t dir (gz_entry b) Hdir Hgb Hnone Hlink s Hopens)). fold gzname t' (fs' []).
  rewrite sv_bind_assoc, (sv_bind_eval _ _ _ (Some data) (fs' [], (t', s))) by (apply (map_file_eval o (fs' []) _ ino data); [by apply new_dir|cbn; by rewrite lookup_insert_ne|done|by destruct Hmap]).
  assert (Ew : gz_write_close z gzname (fs_next fs) data (fs' [], (t', s)) = Some (inr (Z.of_nat (length data)), (fs' (gz z data), (t', s)))).
  { unfold gz_write_close. rewrite Hcloses, Hwrites, Nat2Z.id, take_ge by done. unfold fs', new_fs. cbn. by rewrite insert_insert_eq. }
  rewrite sv_bind_assoc, (sv_bind_eval _ _ _ _ _ Ew), Z.eqb_refl. cbn [negb]. rewrite sv_bind_assoc, (sv_bind_eval _ _ _ _ _ (open_path_eval o (fs' (gz z data)) t' gzname (fs_next fs) fd (gz z data) Hf' Hopen' s)).
  rewrite (proj2 (Z.ltb_ge fd 0)) by (apply (co_ok _ _ _ _ Hopen)). rewrite sv_bind_assoc, (sv_bind_eval _ _ _ _ _ (stat_fd_eval o (fs' (gz z data)) t' gzname (fs_next fs) fd (gz z data) Hf' Hopen' s)). exact E.
Qed.

(** C14: the first request for a file that is to be compressed makes a compressed copy beside it and sends
    that, with the time of the file itself in the tag; from then on, unless the file changes, the
    copy is sent without being made again: the files stay as they are. *)
Theorem http_file_server_compresses (headers : http_headers) (file : list Z) (realname gzname : path) (ino age fd : Z) (mime inm data : list Z) (s s2 : hs)
  (Hdisk : disk_ok fs t) (Hask : asks fs t headers file realname gzname ino age mime inm data) (Hfresh : fresh_request s) (Hfresh2 : fresh_request s2) (Hkeep : persistent (fb_ctx s2) = persistent (fb_ctx s))
  (Hnone : fs_dir fs !! gzname = None) (Hlink : t_links t !! gzname = None) (Hsize : Z.of_nat (length data) < 2 ^ 60) (Hgz : can_compress realname gzname data fd) (Hnow : a_mtime (attr_of t ino) <= now) :
  let '(h, sent) := file_answer now (persistent (fb_ctx s)) mime age (Z.of_nat (length (gz z data))) (a_mtime (attr_of t ino)) true inm (gz z data) in
  answer_room s sent -> answer_room s2 sent ->
  exists fs' t' s' s2', run2 headers file (fs, (t, s)) = Some (inr 0, (fs', (t', s'))) /\ answered h [] sent s s'
    /\ file_at fs' t' gzname (fs_next fs) (gz z data) /\ fs_fds fs' = fs_fds fs
    /\ (forall n, n <> gzname -> fs_dir fs' !! n = fs_dir fs !! n) /\ (forall i, i <> fs_next fs -> fs_data fs' !! i = fs_data fs !! i)
    /\ run2 headers file (fs', (t', s2)) = Some (inr 0, (fs', (t', s2'))) /\ answered h [] sent s2 s2'.
Proof.
  pose proof (copy_made headers file realname gzname ino age fd mime inm data s Hdisk Hask Hfresh Hnone Hlink Hsize Hgz) as Hmade. destruct (file_answer now _ mime age _ _ true inm (gz z data)) as [h sent] eqn:Ef. intros Hroom Hroom2.
  destruct (Hmade Hroom) as (fs' & t' & s' & E & Ha & Hf & Hm & Hfds & Hdirs & Hdata & Hreg & Hmt & Hask'). assert (Hopen' : can_open o fs' gzname fd) by (destruct (cc_open _ _ _ _ Hgz) as [? ? ? ?]; split; [done|done|by rewrite Hfds|done]).
  pose proof (cached_answered o stale limit Hlimit Hgrow z localtime now port ht_mime_types fs' t' v base headers file realname gzname ino age mime inm data (fs_next fs) fd (gz z data) s2 Hask' Hfresh2 Hf Hreg) as Hc. rewrite Hm, Hmt, Hkeep, Ef in Hc.
  destruct (Hc Hnow Hopen' Hroom2) as (s2' & E2 & Ha2). by exists fs', t', s', s2'.
Qed.
End Copy.

(** ** Examples *)
Definition demo_listing_server : http_file_server :=
  match http_file_server_init os_all_ok demo_files demo_tree (HttpFileServer (Some (str "/srv/www")) true 60 0 HASHTABLE_INITIALIZER HASHTABLE_INITIALIZER) with
  | Some (v, _) => default v (http_file_server_gzip_ext os_all_ok v (str "txt"))
  | None => HTTP_FILE_SERVER_INITIALIZER
  end.

Lemma http_file_server_lists_witness : exists s s',
  http_file_server_run2 os_all_ok no_stale demo_zlib gmtime_some 951830000 8080 demo_table demo_listing_server demo_h [] (demo_files, (demo_tree, s)) = Some (inr 0, (demo_files, (demo_tree, s')))
  /\ contains (listing gmtime_some 8080 [] [(str "a.txt", Some (Stat false 5 951827696)); (str "l", Some (Stat false 5 951827696))]) (payload_of s').
Proof.
  destruct (demo_fresh []) as (s & Hs & _ & _ & Hk). exists s.
  destruct (http_file_server_lists os_all_ok no_stale (2 ^ 20) ltac:(lia) ltac:(by intros ? ? _) demo_zlib gmtime_some 951830000 8080 demo_table demo_files demo_tree demo_listing_server (str "/srv/www") false
    demo_h [] (str "/srv/www") 2 3 [str "a.txt"; str "l"] [] s) as (s' & E & Ha).
  - by split; vm_compute.
  - vm_compute. reflexivity.
  - reflexivity.
  - by left.
  - reflexivity.
  - reflexivity.
  - reflexivity.
  - split; [reflexivity|vm_compute; congruence|reflexivity|by eexists].
  - exact Hs.
  - exact Hk.
  - vm_compute. congruence.
  - exists s'. assert (Hal : allow_list demo_listing_server = true) by (vm_compute; reflexivity). rewrite Hal in E, Ha. split; [exact E|]. destruct Ha as [_ Hp _ _ _]. exact Hp.
Defined.

Lemma demo_disk_ok : disk_ok demo_files demo_tree.
Proof.
  split; [|vm_compute; reflexivity|intros ino E; vm_compute in E; discriminate].
  intros n ino Hn. apply elem_of_list_to_map_2 in Hn. cbn [fs_next demo_files]. repeat (apply elem_of_cons in Hn as [[= -> ->]|Hn]; [lia|]). by apply elem_of_nil in Hn.
Qed.

Definition demo_gzip_h : http_headers := HttpHeaders (hh_strings demo_h) 1 [45].
Lemma http_file_server_compresses_witness : exists s s2 fs' t' s' s2',
  let run2 := http_file_server_run2 os_all_ok no_stale demo_zlib gmtime_some 951830000 8080 demo_table demo_listing_server demo_gzip_h (str "a.txt") in
  run2 (demo_files, (demo_tree, s)) = Some (inr 0, (fs', (t', s'))) /\ run2 (fs', (t', s2)) = Some (inr 0, (fs', (t', s2'))) /\ fb_sent s' = fb_sent s2' /\ exists h, fb_sent s' = h ++ 31 :: str "hello".
Proof.
  destruct (demo_fresh (replicate 500 1)) as (s & Hs & Ha & Hn & Hk). exists s, s.
  pose proof (http_file_server_compresses os_all_ok no_stale (2 ^ 20) ltac:(lia) ltac:(by intros ? ? _) demo_zlib gmtime_some 951830000 8080 demo_table demo_files demo_tree demo_listing_server (str "/srv/www")
    demo_gzip_h (str "a.txt") (str "/srv/www/a.txt") (str "/srv/www/._ribs_gz_.a.txt") 3 60 3 DEFAULT_MIME_TYPE [45] (str "hello") s s) as Hc.
  unfold file_answer in Hc. rewrite decide_False in Hc by (vm_compute; congruence). rewrite Hk in Hc.
  set (sent := file_header_text _ _ _ _ _ _ _ _ ++ _) in Hc. assert (Hroom : answer_room s sent) by (split; rewrite Ha; [apply Forall_replicate; by right|unfold sent; vm_compute; reflexivity]).
  destruct Hc as (fs' & t' & s' & s2' & E & [_ _ Hs1 _ _] & _ & _ & _ & _ & E2 & [_ _ Hs2 _ _]).
  - exact demo_disk_ok.
  - split; [by split; vm_compute|vm_compute; reflexivity|vm_compute; reflexivity|vm_compute; congruence|eexists; split; [vm_compute; reflexivity|congruence]|reflexivity|reflexivity|reflexivity|unfold time_ok; vm_compute; split; congruence|vm_compute; reflexivity|vm_compute; reflexivity|vm_compute; reflexivity|vm_compute; lia|reflexivity].
  - exact Hs.
  - exact Hs.
  - reflexivity.
  - vm_compute. reflexivity.
  - vm_compute. reflexivity.
  - vm_compute. reflexivity.
  - split; [reflexivity|reflexivity|reflexivity|split; [vm_compute; congruence|vm_compute; reflexivity|by eexists|reflexivity]|split; [reflexivity|vm_compute; congruence|vm_compute; reflexivity|by eexists]].
  - vm_compute. congruence.
  - exact Hroom.
  - exact Hroom.
  - exists fs', t', s', s2'. cbv zeta. split; [exact E|]. split; [exact E2|]. split; [by rewrite Hs1, Hs2|]. exists (fb_sent s ++ file_header_text false 951830000 (Some DEFAULT_MIME_TYPE) (CRLF ++ str "ETag: " ++ etag 951827696 6) 60 6 951827696 true). rewrite Hs1, <- app_assoc. reflexivity.
Defined.

(** A compression that stops after two bytes, for lack of room. *)
Definition full_zlib : zlib := {| gz := fun l => 31 :: l; gz_opens := fun _ => true; gz_writes := fun _ => 2; gz_closes := fun _ => true |}.
Definition demo_connection : hs :=
  match (on_header (vmbuf_init os_all_ok no_stale 4000);; on_payload (vmbuf_init os_all_ok no_stale 4000)) (hs_fresh [] (replicate 500 1)) with Some (_, s) => s | None => hs_fresh [] [] end.

(** When writing the compressed copy fails, the request is answered with 500 but what was written of
    the copy stays; as it is newer than the file, every later request is answered with it: of
    "hello" only the compressed form of "he" is sent, as a success. *)
Theorem http_file_server_sends_truncated_copy :
  let run2 z := http_file_server_run2 os_all_ok no_stale z gmtime_some 951830000 8080 demo_table demo_listing_server demo_gzip_h (str "a.txt") in
  match run2 full_zlib (demo_files, (demo_tree, demo_connection)) with
  | Some (inr res, (fs', (t', s'))) =>
      res = -1 /\ fb_sent s' = []
      /\ match run2 demo_zlib (fs', (t', demo_connection)) with
         | Some (inr res, (_, (_, s2))) => res = 0 /\ starts_with (start_text false HTTP_STATUS_200 DEFAULT_MIME_TYPE) (fb_sent s2) = true /\ drop (length (fb_sent s2) - 7) (fb_sent s2) = CRLFCRLF ++ 31 :: str "he"
         | _ => False
         end
  | _ => False
  end.
Proof. vm_compute. repeat split. Qed.
