(* ===== verification/HttpClient.v ===== *)
(** * HttpClient: one request of the client ([include/http_client_pool.h], [src/http_client_pool.c],
    [src/_http_client_pool.c])

    The fiber of a request writes it, reads the response into a [vmbuf], and finds its content
    there: by the length the server states, by decoding its chunks in place, or by the end of the
    connection.  As in [HttpServer.v], pointers into the response are offsets. *)

From Stdlib Require Import String.
From stdpp Require Import base numbers list gmap.
From Stdlib Require Import ZArith Lia.
From S2P Require Import Prelude Words Os Mempool Memalloc Vmbuf Cstring HttpText Connection.

Definition CR : Z := 13.
Definition TRANSFER_ENCODING : list Z := CRLF ++ str "Transfer-Encoding: ".
Definition HTTP_VERSION : list Z := str "HTTP/".
Definition VERSION_1_1 : list Z := str "1.1".

(** [struct http_client_context], without the parts of TLS and of the event loop. *)
Record http_client_context := HttpClientContext {
  cc_request : vmbuf;
  cc_response : vmbuf;
  cc_content : option Z;
  cc_content_length : Z;
  http_status_code : Z;
  cc_persistent : bool;
}.

Definition cc_with_request c v := HttpClientContext v (cc_response c) (cc_content c) (cc_content_length c) (http_status_code c) (cc_persistent c).
Definition cc_with_response c v := HttpClientContext (cc_request c) v (cc_content c) (cc_content_length c) (http_status_code c) (cc_persistent c).
Definition cc_with_content c x n st := HttpClientContext (cc_request c) (cc_response c) x n st (cc_persistent c).
Definition cc_with_persistent c b := HttpClientContext (cc_request c) (cc_response c) (cc_content c) (cc_content_length c) (http_status_code c) b.

Abbreviation cl := (fiber http_client_context).
Abbreviation CL := (FB http_client_context).
Definition client_request_field : field http_client_context := Field cc_request cc_with_request.
Definition client_response_field : field http_client_context := Field cc_response cc_with_response.
#[export] Instance client_request_lawful : LawfulField client_request_field.
Proof. by split; intros []. Qed.
#[export] Instance client_response_lawful : LawfulField client_response_field.
Proof. by split; intros []. Qed.
Definition on_client_request {A} : M A -> CL A := on_buffer client_request_field.
Definition on_response {A} : M A -> CL A := on_buffer client_response_field.

(** [CLIENT_ERROR] *)
Definition client_error {A} : CL A :=
  modify_ctx (fun c => cc_with_persistent (cc_with_content c (cc_content c) (cc_content_length c) 500) false);; exit Closed.

(** *** Sending the request *)

(** [vmbuf_write] until it is done, with a time to wait after each number of bytes that is accepted.
    Gives the result, what was sent, and the numbers left; [None] is a socket that does nothing any more. *)
Fixpoint write_rounds (accepts : list Z) : M (option Z * list Z * list Z) :=
  '(res, out) ← vmbuf_write [];
  if res =? 0 then
    match accepts with
    | [] => mret (None, [], [])
    | a :: accepts =>
        '(res, out) ← vmbuf_write [a];
        if res =? 0 then '(r, more, accepts) ← write_rounds accepts; mret (r, out ++ more, accepts)
        else mret (Some res, out, accepts)
    end
  else mret (Some res, out, accepts).

Definition sent_rounds (x : option Z * list Z * list Z) : CL Z := fun s =>
  let '(r, out, accepts) := x in
  let s := Fiber (fb_world s) (fb_ctx s) (fb_input s) accepts (fb_sent s ++ out) in
  match r with Some r => Some (inr r, s) | None => Some (inl Blocked, s) end.
Definition http_client_write_request : CL unit :=
  x ← (fun s => on_client_request (write_rounds (fb_accepts s)) s);
  res ← sent_rounds x;
  if res <? 0 then client_error else mret tt.

Section Client.
Context `{address_space} (o : os) (stale : Z -> Z -> Z).

(** *** Reading *)

(** [READ_MORE_DATA]: while [cond], with [res] the result of the last read.  Gives whether [cond] has ended, and [res]. *)
Fixpoint read_more (fuel : nat) (cond : M bool) (res : Z) : CL (bool * Z) :=
  match fuel with
  | O => fun _ => None
  | S k =>
      b ← on_response cond;
      if negb b then mret (true, res)
      else if res <=? 0 then mret (false, res)
      else
        res ← fiber_read o stale client_response_field;
        if res <? 0 then mret (false, res) else read_more k cond res
  end.
Definition READ_MORE_DATA (cond : M bool) (res : Z) : CL (bool * Z) := fun s => read_more (S (input_size (fb_input s))) cond res s.
(** [READ_MORE_DATA_STR]: the data are terminated before each test. *)
Definition READ_MORE_DATA_STR (cond : M bool) (res : Z) : CL (bool * Z) := READ_MORE_DATA (vmbuf_nul;; cond) res.

Definition no_headers : M bool := s ← peek_str 0; mret (bool_decide (strstr CRLFCRLF s = None)).

(** Whether the server keeps the connection, from its version and the headers. *)
Definition keeps_connection (data : list Z) : bool :=
  let by_version := strncmp_le (length VERSION_1_1) VERSION_1_1 (drop (length HTTP_VERSION) data) in
  match strstr CONNECTION data with
  | Some i => if starts_with_nocase CONNECTION_CLOSE (drop (i + length CONNECTION) data) then false else by_version
  | None => by_version
  end.

Definition status_code (data : list Z) : Z := match snd (strchrnul 32 data) with [] => 0 | _ :: p => atoi p end.

(** The status, the end of the headers, and the result of the last read. *)
Definition http_client_read_headers : CL (Z * Z * Z) :=
  res ← fiber_read o stale client_response_field;
  '(ok, res) ← READ_MORE_DATA_STR no_headers res;
  if negb ok then client_error
  else
    s ← on_response (peek_str 0);
    match strstr CRLFCRLF s with
    | None => fun _ => None
    | Some eoh =>
        on_response (poke (Z.of_nat eoh) [0]);;
        data ← on_response (peek_str 0);
        if negb (starts_with HTTP_VERSION data) then client_error
        else
          let code := status_code data in
          if code =? 0 then client_error
          else
            modify_ctx (fun c => cc_with_persistent c (keeps_connection data));;
            mret (code, u32 (Z.of_nat (eoh + length CRLFCRLF)), res)
    end.

Definition shorter_than (n : Z) : M bool := w ← vmbuf_wlocpos; mret (w <? n).
Definition no_line (chunk_start : Z) : M bool := p ← find_char 13 chunk_start; b ← peek p; mret (b =? 0).

(** [memmove] inside of the response. *)
Definition move_bytes (dst src n : Z) : M unit := l ← peek_bytes src (Z.to_nat n); poke dst l.

(** The chunks from [chunk_start] on; their data are moved together at [data_start]. *)
Fixpoint chunk_loop (fuel : nat) (chunk_start data_start res : Z) : CL unit :=
  match fuel with
  | O => fun _ => None
  | S k =>
      '(ok, res) ← READ_MORE_DATA_STR (no_line chunk_start) res;
      if negb ok then client_error
      else
        p ← on_response (find_char 13 chunk_start);
        b ← on_response (peek_bytes p (length CRLF));
        if negb (bool_decide (b = CRLF)) then client_error
        else
          line ← on_response (peek_str chunk_start);
          let s := u32 (strtoul 16 line) in
          if s =? 0 then on_response (vmbuf_wlocset data_start)
          else
            let chunk_start := p + Z.of_nat (length CRLF) in
            let chunk_end := u64 (chunk_start + s + Z.of_nat (length CRLF)) in
            '(ok, res) ← READ_MORE_DATA (shorter_than chunk_end) res;
            if negb ok then client_error
            else on_response (move_bytes data_start chunk_start s);; chunk_loop k chunk_end (data_start + s) res
  end.
(** A chunk is at least three bytes, of what has been read or arrives. *)
Definition chunk_rounds (w eoh_ofs res : Z) : CL unit := fun s => chunk_loop (S (Z.to_nat w + input_size (fb_input s))) eoh_ofs eoh_ofs res s.
Definition read_chunks (eoh_ofs res : Z) : CL unit := w ← on_response vmbuf_wlocpos; chunk_rounds w eoh_ofs res.

Definition read_sized (eoh_ofs res : Z) (text : list Z) : CL unit :=
  match strtol 0 text with
  | None => client_error
  | Some content_len =>
      '(ok, _) ← READ_MORE_DATA (shorter_than (u64 (eoh_ofs + u64 content_len))) res;
      if negb ok then client_error else mret tt
  end.

(** Until the server closes the connection. *)
Definition read_until_close (res : Z) : CL unit :=
  '(_, res) ← READ_MORE_DATA (mret true) res;
  if res =? 0 then mret tt else client_error.

Definition http_client_read_body (code eoh_ofs res : Z) : CL unit :=
  if (code =? 204) || (code =? 304) then mret tt
  else
    data ← on_response (peek_str 0);
    match strstr CONTENT_LENGTH data with
    | Some i => read_sized eoh_ofs res (drop (i + length CONTENT_LENGTH) data)
    | None =>
        match strstr TRANSFER_ENCODING data with
        | Some i => if starts_with (str "chunked") (drop (i + length TRANSFER_ENCODING) data) then read_chunks eoh_ofs res else read_until_close res
        | None => read_until_close res
        end
    end.

Definition i16 (v : Z) : Z := let w := u16 v in if w <? 2 ^ 15 then w else w - 2 ^ 16.

(** The result of the request. *)
Definition finish_response (code eoh_ofs : Z) : CL unit :=
  on_response (vmbuf_rlocset eoh_ofs);;
  w ← on_response vmbuf_wlocpos;
  modify_ctx (fun c => cc_with_content c (Some eoh_ofs) (u32 (w - eoh_ofs)) (i16 code));;
  on_response (poke (eoh_ofs - Z.of_nat (length CRLFCRLF)) [CR]);;
  on_response vmbuf_nul;;
  c ← get_ctx;
  exit (if cc_persistent c then Idle else Closed).

Definition http_client_fiber_main : CL unit :=
  http_client_write_request;;
  '(code, eoh_ofs, res) ← http_client_read_headers;
  http_client_read_body code eoh_ofs res;;
  finish_response code eoh_ofs.

(** *** Requests *)
Definition request_strcpy (text : list Z) : CL unit := on_client_request (vmbuf_strcpy o stale text);; mret tt.
Definition request_sprintf (text : option (list Z)) : CL unit := on_client_request (vmbuf_sprintf o stale text);; mret tt.

(** The buffers of a new client. *)
Definition init_client : CL unit :=
  on_client_request (vmbuf_init o stale 4096);; on_response (vmbuf_init o stale 4096);;
  modify_ctx (fun c => cc_with_persistent (cc_with_content c None 0 (http_status_code c)) false).

(** The first write of a request, before its fiber runs, with what the socket accepts until it refuses:
    1, 0 if more is to be written, negative for an error. *)
Definition sent_first (x : Z * list Z) : CL Z := fun s =>
  let c := fb_ctx s in
  let c := if fst x <? 0 then cc_with_persistent (cc_with_content c (cc_content c) (cc_content_length c) 500) false else c in
  Some (inr (fst x), Fiber (fb_world s) c (fb_input s) (fb_accepts s) (fb_sent s ++ snd x)).
Definition http_client_send_request (accepts : list Z) : CL Z := x ← on_client_request (vmbuf_write accepts); sent_first x.

Fixpoint add_request_headers (headers : list (list Z)) : CL unit :=
  match headers with
  | [] => mret tt
  | h :: headers => request_strcpy CRLF;; request_strcpy h;; add_request_headers headers
  end.

(** [target] is what the format produces.  The result is negative if the request could not be sent. *)
Definition http_client_pool_get_requestv (accepts : list Z) (hostname : list Z) (headers : list (list Z)) (target : option (list Z)) : CL Z :=
  init_client;;
  request_strcpy (str "GET ");;
  request_sprintf target;;
  request_sprintf (Some (str " HTTP/1.1" ++ CRLF ++ str "Host: " ++ hostname));;
  add_request_headers headers;;
  request_strcpy CRLFCRLF;;
  http_client_send_request accepts.

Definition request_memcpy (data : list Z) : CL unit := on_client_request (vmbuf_memcpy o stale data);; mret tt.

Definition http_client_pool_post_request (accepts : list Z) (hostname data : list Z) (target : option (list Z)) : CL Z :=
  init_client;;
  request_strcpy (str "POST ");;
  request_sprintf target;;
  request_sprintf (Some (str " HTTP/1.1" ++ CRLF ++ str "Host: " ++ hostname ++ CRLF ++ str "Content-Type: application/octet-stream" ++ CONTENT_LENGTH
                         ++ dec (Z.of_nat (length data)) ++ CRLFCRLF));;
  request_memcpy data;;
  http_client_send_request accepts.

Definition http_client_pool_post_request_init (hostname : list Z) (target : option (list Z)) : CL unit :=
  init_client;;
  request_strcpy (str "POST ");;
  request_sprintf target;;
  request_sprintf (Some (str " HTTP/1.1" ++ CRLF ++ str "Host: " ++ hostname)).
Definition http_client_pool_post_request_content_type (content_type : list Z) : CL unit :=
  request_sprintf (Some (CRLF ++ str "Content-Type: " ++ content_type)).
Definition http_client_pool_post_request_send (accepts data : list Z) : CL Z :=
  request_sprintf (Some (CONTENT_LENGTH ++ dec (Z.of_nat (length data)) ++ CRLFCRLF));;
  request_memcpy data;;
  http_client_send_request accepts.

(** The headers of a response, cut off before its content: an offset. *)
Definition http_client_response_headers : CL (option Z) :=
  s ← on_response (peek_str 0);
  match strstr CRLF s with
  | None => mret None
  | Some i =>
      let headers := Z.of_nat (i + 2) in
      s ← on_response (peek_str headers);
      match strstr CRLFCRLF s with
      | Some j => on_response (poke (headers + Z.of_nat j + 2) [0]);; mret (Some headers)
      | None => mret (Some headers)
      end
  end.
End Client.
