(* ===== verification/HttpClientFacts.v ===== *)
(** * HttpClientFacts: what the fiber of a request does

    Sending the request, reading until a condition holds, the headers of the response, and its
    three kinds of content, for every way the bytes arrive. *)

From Stdlib Require Import String.
From stdpp Require Import base numbers functions list gmap.
From Stdlib Require Import ZArith Lia.
From S2P Require Import Prelude Words Os Mempool Memalloc Vmbuf VmbufFacts Cstring HttpText Connection HttpClient.

Abbreviation response_of := (buffer_of client_response_field).
Abbreviation put_response := (put_buffer client_response_field).
Abbreviation client_request_of := (buffer_of client_request_field).
Abbreviation anon_buf := (vbuf _mem_funcs_anon_buf (fun _ => True)).

(** ** Sending *)
Definition accepted (accepts : list Z) : Z := foldr (fun n t => Z.max 0 n + t) 0 accepts.

(** A socket that refuses shows whether there is something to write. *)
Lemma write_nothing c rl st : anon_buf c rl st -> 0 <= rl <= Z.of_nat (length c) -> vmbuf_write [] st = Some ((if rl =? Z.of_nat (length c) then 1 else 0, []), st).
Proof.
  intros (cap & Hs & Hc) Hrl. pose proof (vi_bounds _ _ _ _ _ _ _ Hs). destruct (vb_header _ _ _ _ _ _ _ Hs) as (r & E & _ & Hw & _).
  assert (Er : vmbuf_ravail st = Some (Z.of_nat (length c) - rl, st)).
  { unfold vmbuf_ravail. rewrite (bind_eval _ _ _ _ _ E), bind_get, Hw, (vi_rloc _ _ _ _ _ _ _ Hs), u64_small by lia. done. }
  cbn [vmbuf_write]. rewrite (bind_eval _ _ _ _ _ Er), Z.gtb_ltb. destruct (Z.ltb_spec 0 (Z.of_nat (length c) - rl)), (Z.eqb_spec rl (Z.of_nat (length c))); done || lia.
Qed.

Lemma write_rounds_eval accepts : forall c rl st, anon_buf c rl st -> 0 <= rl <= Z.of_nat (length c) ->
  exists r out acc st', write_rounds accepts st = Some ((r, out, acc), st') /\ (exists rl', anon_buf c rl' st')
    /\ (Forall (fun n => n = -1 \/ 0 < n) accepts -> Z.of_nat (length c) - rl <= accepted accepts -> r = Some 1 /\ out = drop (Z.to_nat rl) c).
Proof.
  induction accepts as [|a accepts IH]; intros c rl st Hv Hrl; cbn [write_rounds];
    rewrite (bind_eval _ _ _ _ _ (write_nothing _ _ _ Hv Hrl)); (destruct (Z.eqb_spec rl (Z.of_nat (length c))) as [Heq|Hne];
    [eexists _, _, _, st; split; [reflexivity|]; split; [by eexists|]; intros _ _; rewrite drop_ge by lia; done|]); cbn [Z.eqb].
  - exists None, [], [], st. split; [done|]. split; [by eexists|]. intros _ Hsum. cbn in Hsum. lia.
  - destruct (write_eval _ _ [a] c rl st Hv Hrl) as (st1 & r1 & out1 & E1 & Ho1 & Hv1 & Hr1 & Ht1). rewrite (bind_eval _ _ _ _ _ E1).
    pose proof (f_equal length Ho1) as Hl1. rewrite length_app, !length_drop in Hl1.
    destruct (Z.eqb_spec r1 0) as [->|Hne1].
    + destruct (IH c (rl + Z.of_nat (length out1)) st1 Hv1 ltac:(lia)) as (r & out & acc & st' & E & Hv' & Hprog). rewrite (bind_eval _ _ _ _ _ E).
      eexists r, (out1 ++ out), acc, st'. split; [done|]. split; [done|]. intros [Ha Hacc]%Forall_cons Hsum.
      destruct (Ht1 (Forall_cons_2 _ _ _ Ha (Forall_nil_2 _))) as [|[_ Hle]]; [done|]. cbn [accepted foldr] in Hsum. fold (accepted accepts) in Hsum.
      destruct (Hprog Hacc ltac:(lia)) as [-> ->]. split; [done|]. rewrite Ho1. f_equal. f_equal. lia.
    + eexists (Some r1), out1, accepts, st1. split; [done|]. split; [by eexists|]. intros [Ha Hacc]%Forall_cons _.
      destruct (Ht1 (Forall_cons_2 _ _ _ Ha (Forall_nil_2 _))) as [->|[-> _]]; [|done]. split; [done|]. rewrite Ho1, drop_ge, app_nil_r; [done|]. lia.
Qed.

(** The request is sent whole; the response and the input are as before. *)
Lemma http_client_write_request_runs c rl s : anon_buf c rl (client_request_of s) -> 0 <= rl <= Z.of_nat (length c) ->
  runs http_client_write_request s (fun r s' => fb_input s' = fb_input s /\ cc_response (fb_ctx s') = cc_response (fb_ctx s)
    /\ (Forall (fun n => n = -1 \/ 0 < n) (fb_accepts s) -> Z.of_nat (length c) - rl <= accepted (fb_accepts s) ->
        r = inr tt /\ fb_sent s' = fb_sent s ++ drop (Z.to_nat rl) c)).
Proof.
  intros Hv Hrl. destruct (write_rounds_eval (fb_accepts s) c rl _ Hv Hrl) as (r & out & acc & st & E & _ & Hprog).
  unfold http_client_write_request.
  apply runs_bind. eexists _, _. split; [exact (on_buffer_eval client_request_field _ _ _ _ E)|]. cbn beta iota. apply runs_bind. unfold runs at 1, sent_rounds.
  destruct r as [x|]; (eexists _, _; split; [reflexivity|]); cbn beta iota.
  - destruct (Z.ltb_spec x 0).
    + eexists _, _. split; [reflexivity|]. split; [done|]. split; [done|]. intros Ha Hs. destruct (Hprog Ha Hs) as [[= ->] _]. lia.
    + eexists _, _. split; [reflexivity|]. split; [done|]. split; [done|]. intros Ha Hs. by destruct (Hprog Ha Hs) as [_ ->].
  - split; [done|]. split; [done|]. intros Ha Hs. by destruct (Hprog Ha Hs) as [? _].
Qed.

Section Facts.
Context `{address_space} (o : os) (stale : Z -> Z -> Z) (limit : Z) (Hlimit : 4096 <= limit <= 2 ^ 32) (Hgrow : can_grow_to o (limit + 4096)).

Lemma limit_fits : 4096 <= limit <= 2 ^ 60.
Proof. lia. Qed.

(** ** Waiting for the server *)
Record cready (c : list Z) (s : cl) : Prop := {
  cr_response : contains c (response_of s);
  cr_input : input_ok (fb_input s);
  cr_fits : 2 * Z.of_nat (length (c ++ bytes_of (fb_input s))) + VMBUF_HEADER <= limit;
}.

Lemma cready_put c c' s st : cready c s -> contains c' st -> length c' = length c -> cready c' (put_response s st).
Proof.
  intros [Hr Hi Hf] Hst Hl. split; [by rewrite (buffer_of_put client_response_field)|done|]. rewrite length_app, Hl, <- length_app. exact Hf.
Qed.

Lemma cready_received c d s s' : cready c s -> received client_response_field d s s' -> contains (c ++ d) (response_of s') -> cready (c ++ d) s'.
Proof. intros [Hr Hi Hf] Hrc Hc. split; [done|by apply (rc_input _ _ _ _ Hrc)|]. by rewrite <- app_assoc, <- (rc_bytes _ _ _ _ Hrc). Qed.

Section More.
(** [cond] looks at what has been read ([P] says that it can), and knows [post] when it says no. *)
Context (cond : M bool) (P : list Z -> Prop) (need : list Z -> bool) (post : list Z -> world * vmbuf -> Prop).
Hypothesis HP : forall c d, P c -> P (c ++ d).
Hypothesis Hcond : forall c st, contains c st -> P c -> exists st', cond st = Some (need c, st') /\ contains c st' /\ (need c = false -> post c st').

Definition more_post (c : list Z) (res : Z) (s : cl) (r : fiber_end + bool * Z) (s' : cl) : Prop :=
  match r with
  | inl _ => stays_open (fb_input s) -> 0 < res -> need (c ++ bytes_of (fb_input s)) = true
  | inr (ok, res') => exists d, received client_response_field d s s' /\ cready (c ++ d) s'
      /\ (ok = true -> need (c ++ d) = false /\ post (c ++ d) (response_of s'))
      /\ (stays_open (fb_input s) -> 0 < res -> ok = true /\ 0 < res')
  end.

(** The test, without a read. *)
Lemma read_more_step k c s res : cready c s -> P c -> exists s1, cready c s1 /\ received client_response_field [] s s1 /\ fb_input s1 = fb_input s
  /\ (need c = false -> post c (response_of s1))
  /\ read_more o stale (S k) cond res s =
      (if negb (need c) then mret (true, res) else if res <=? 0 then mret (false, res)
       else res ← fiber_read o stale client_response_field; if res <? 0 then mret (false, res) else read_more o stale k cond res) s1.
Proof.
  intros Hr Hc. destruct (Hcond c (response_of s) (cr_response _ _ Hr) Hc) as (st & E & Hst & Hpost).
  exists (put_response s st). split; [by apply (cready_put c)|]. split; [apply received_nil|]. split; [done|].
  rewrite (buffer_of_put client_response_field). split; [done|]. cbn [read_more].
  by rewrite (fb_bind_eval _ _ _ _ _ (on_buffer_eval client_response_field _ _ _ _ E)).
Qed.

Lemma read_more_stops k c s res : cready c s -> P c -> need c = false \/ res <= 0 -> runs (read_more o stale (S k) cond res) s (more_post c res s).
Proof.
  intros Hr Hc Hstop. destruct (read_more_step k c s res Hr Hc) as (s1 & Hr1 & Hrc1 & _ & Hpost & E). unfold runs. rewrite E.
  destruct (need c) eqn:En; cbn [negb].
  - destruct Hstop as [|Hle]; [done|]. rewrite (proj2 (Z.leb_le res 0)) by done. eexists _, s1. split; [reflexivity|]. exists []. rewrite app_nil_r.
    do 2 (split; [done|]). split; [done|]. lia.
  - eexists _, s1. split; [reflexivity|]. exists []. rewrite app_nil_r. do 2 (split; [done|]). split; [auto|done].
Qed.

Lemma read_more_runs fuel : forall c s res, cready c s -> P c -> (input_size (fb_input s) < fuel)%nat ->
  runs (read_more o stale fuel cond res) s (more_post c res s).
Proof.
  induction fuel as [|k IH]; intros c s res Hr Hc Hfuel; [lia|].
  destruct (need c) eqn:En; [|apply read_more_stops; auto]. destruct (Z.le_gt_cases res 0) as [Hle|Hlt]; [apply read_more_stops; auto|].
  destruct (read_more_step k c s res Hr Hc) as (s1 & Hr1 & Hrc1 & Hi1 & _ & E). unfold runs. rewrite E, En. cbn [negb].
  rewrite (proj2 (Z.leb_gt res 0)) by lia. assert (Hk : fb_input s <> [] -> k <> O) by (destruct (fb_input s) as [|[] ]; [done|cbn in Hfuel; lia]).
  apply runs_bind. eapply runs_mono.
  { apply (fiber_read_runs o stale limit limit_fits Hgrow client_response_field c s1 (cr_response _ _ Hr1) (cr_input _ _ Hr1) (cr_fits _ _ Hr1)). }
  rewrite Hi1. intros [e|res1] s2; cbn beta iota.
  - intros Hi. unfold more_post. rewrite Hi. intros _ _. by rewrite app_nil_r.
  - intros (Hin & Ho & d & Hc2 & Hrc & Hsize).
    assert (Hrc2 : received client_response_field d s s2) by (apply (received_trans client_response_field [] d _ _ _ Hrc1 Hrc)).
    pose proof (cready_received _ _ _ _ Hr1 Hrc Hc2) as Hr2.
    destruct (Z.ltb_spec res1 0).
    { eexists _, s2. split; [reflexivity|]. exists d. do 2 (split; [done|]). split; [done|]. intros Hop _. specialize (Ho Hop). lia. }
    assert (Hrec : runs (read_more o stale k cond res1) s2 (more_post (c ++ d) res1 s2)).
    { destruct (Z.eq_dec res1 0) as [->|Hne]; [|apply IH; [done|auto|specialize (Hsize ltac:(lia)); lia]].
      destruct k as [|k]; [by destruct (Hk Hin)|apply read_more_stops; auto; lia]. }
    eapply runs_mono; [exact Hrec|]. intros [e|[ok res2]] s3; cbn [more_post].
    + intros Hend Hop _. rewrite (rc_bytes _ _ _ _ Hrc2), app_assoc. apply Hend; [by apply (rc_open _ _ _ _ Hrc2)|specialize (Ho Hop); lia].
    + intros (d2 & Hrc3 & Hr3 & Hok & Hpos). exists (d ++ d2). rewrite app_assoc.
      split; [by apply (received_trans client_response_field _ _ _ _ _ Hrc2 Hrc3)|]. do 2 (split; [done|]).
      intros Hop _. apply Hpos; [by apply (rc_open _ _ _ _ Hrc2)|specialize (Ho Hop); lia].
Qed.

Lemma READ_MORE_DATA_runs c s res : cready c s -> P c -> runs (READ_MORE_DATA o stale cond res) s (more_post c res s).
Proof. intros Hr Hc. apply (read_more_runs (S (input_size (fb_input s))) c s res Hr Hc). lia. Qed.
End More.

(** *** The conditions *)
Definition terminated (c : list Z) (st : world * vmbuf) : Prop := rq (Z.of_nat (length c)) (c ++ [0]) st.

Lemma terminate_eval c st : contains c st -> exists st', vmbuf_nul st = Some (tt, st') /\ contains c st' /\ terminated c st'.
Proof.
  intros Hs. destruct (rq_expose c st Hs) as [x Hx]. destruct (rq_poke _ _ _ _ 0 _ Hx) as (st' & E & Hs').
  exists st'. split; [unfold vmbuf_nul; by rewrite (bind_eval _ _ _ _ _ (rq_wlocpos _ _ _ Hs))|]. split; [by eapply rq_prefix|done].
Qed.

Definition needs_headers (c : list Z) : bool := bool_decide (strstr CRLFCRLF (text c) = None).
Lemma no_headers_eval c st : contains c st -> True ->
  exists st', (vmbuf_nul;; no_headers) st = Some (needs_headers c, st') /\ contains c st' /\ (needs_headers c = false -> terminated c st').
Proof.
  intros Hs _. destruct (terminate_eval c st Hs) as (st' & E & Hc & Ht). exists st'. rewrite (bind_eval _ _ _ _ _ E). unfold no_headers.
  by rewrite (bind_eval _ _ _ _ _ (rq_text _ _ _ _ Ht)).
Qed.

Lemma shorter_than_eval n c st : contains c st -> True ->
  exists st', shorter_than n st = Some (Z.of_nat (length c) <? n, st') /\ contains c st' /\ ((Z.of_nat (length c) <? n) = false -> True).
Proof. intros Hs _. exists st. split; [|done]. unfold shorter_than. by rewrite (bind_eval _ _ _ _ _ (rq_wlocpos _ _ _ Hs)). Qed.

(** The string from an offset on. *)
Lemma terminated_string c n st : terminated c st -> (n <= length c)%nat -> exists b, rq (Z.of_nat (length c)) (take n c ++ text (drop n c) ++ 0 :: b) st.
Proof.
  intros Ht Hn. destruct (text_split (drop n c) []) as [b E]. exists b. unfold terminated in Ht. by rewrite <- E, app_assoc, take_drop.
Qed.

Definition needs_line (n : nat) (c : list Z) : bool := bool_decide (snd (strchrnul 13 (text (drop n c))) = []).
Lemma no_line_eval n c st : contains c st -> (n <= length c)%nat ->
  exists st', (vmbuf_nul;; no_line (Z.of_nat n)) st = Some (needs_line n c, st') /\ contains c st' /\ (needs_line n c = false -> terminated c st').
Proof.
  intros Hs Hn. destruct (terminate_eval c st Hs) as (st' & E & Hc & Ht). exists st'. rewrite (bind_eval _ _ _ _ _ E). unfold no_line.
  destruct (terminated_string c n st' Ht Hn) as [b Hb]. assert (Hl : length (take n c) = n) by (rewrite length_take; lia).
  pose proof (rq_find_char _ _ _ _ _ 13 Hb (text_zero _)) as Ef. rewrite Hl in Ef. rewrite (bind_eval _ _ _ _ _ Ef).
  destruct (rq_peek_at _ _ _ _ _ 13 Hb ltac:(lia)) as (d & Ed & Hd). rewrite (bind_eval _ _ _ _ _ Ed). unfold needs_line. by rewrite <- Hd.
Qed.

(** ** The headers *)

(** The state after the headers: [head] is the text before the empty line, whose first byte is
    overwritten, and [w] what has been read behind it. *)
Record after_headers (head w : list Z) (d : list Z) (s s' : cl) : Prop := {
  ah_read : d = head ++ CRLFCRLF ++ w;
  ah_first : strstr CRLFCRLF (text d) = Some (length head);
  ah_text : 0 ∉ head;
  ah_ready : cready (head ++ 0 :: [10; 13; 10] ++ w) s';
  ah_bytes : bytes_of (fb_input s) = d ++ bytes_of (fb_input s');
  ah_sent : fb_sent s' = fb_sent s;
  ah_ctx : exists v, fb_ctx s' = cc_with_persistent (cc_with_response (fb_ctx s) v) (keeps_connection head);
  ah_open : stays_open (fb_input s) -> stays_open (fb_input s');
  ah_clean : no_cr_end (fb_input s) -> no_cr_end (fb_input s') /\ ends_clean d;
}.

Lemma http_client_read_headers_runs s : cready [] s ->
  (exists e s', http_client_read_headers o stale s = Some (inl e, s')
     /\ (stays_open (fb_input s) -> forall head body, bytes_of (fb_input s) = head ++ CRLFCRLF ++ body -> 0 ∉ head ++ CRLFCRLF ->
         strstr CRLFCRLF (head ++ CRLFCRLF) = Some (length head) -> starts_with HTTP_VERSION head = true -> status_code head <> 0 -> False))
  \/ exists head w d res s', http_client_read_headers o stale s = Some (inr (status_code head, Z.of_nat (length head + length CRLFCRLF), res), s')
      /\ after_headers head w d s s' /\ (stays_open (fb_input s) -> 0 < res).
Proof.
  intros Hr. unfold http_client_read_headers.
  destruct (fiber_read_runs o stale limit limit_fits Hgrow client_response_field [] s (cr_response _ _ Hr) (cr_input _ _ Hr) (cr_fits _ _ Hr))
    as ([e|res] & s1 & E1 & H1).
  { left. exists e, s1. split; [by rewrite (fb_bind_exit _ _ _ _ _ E1)|]. rewrite H1. intros _ head body Hb. by destruct head. }
  rewrite (fb_bind_eval _ _ _ _ _ E1). destruct H1 as (_ & Hres & d1 & Hc1 & Hrc1 & _).
  pose proof (cready_received _ _ _ _ Hr Hrc1 Hc1) as Hr1. cbn [app] in Hr1, Hc1. unfold READ_MORE_DATA_STR.
  destruct (READ_MORE_DATA_runs _ (fun _ => True) needs_headers terminated ltac:(done) no_headers_eval d1 s1 res Hr1 I)
    as ([e|[ok res2]] & s2 & E2 & H2).
  { left. exists e, s2. split; [by rewrite (fb_bind_exit _ _ _ _ _ E2)|]. intros Ho head body Hb H0 Hf _ _. cbn [more_post] in H2. rewrite <- (rc_bytes _ _ _ _ Hrc1), Hb in H2.
    specialize (H2 (rc_open _ _ _ _ Hrc1 Ho) ltac:(rewrite (Hres Ho); lia)). unfold needs_headers in H2. apply bool_decide_eq_true in H2.
    by rewrite empty_line_found in H2. }
  rewrite (fb_bind_eval _ _ _ _ _ E2). destruct H2 as (d2 & Hrc2 & Hr2 & Hok & Hpos). pose proof (received_trans client_response_field _ _ _ _ _ Hrc1 Hrc2) as Hrc.
  set (d := d1 ++ d2) in *.
  assert (Hopen : stays_open (fb_input s) -> ok = true /\ 0 < res2).
  { intros Ho. apply Hpos; [by apply (rc_open _ _ _ _ Hrc1)|]. rewrite (Hres Ho). lia. }
  destruct ok; cbn [negb]; [|left; eexists _, _; split; [reflexivity|]; intros Ho; by destruct (Hopen Ho)].
  destruct (Hok eq_refl) as [Hn Ht]. unfold needs_headers in Hn. apply bool_decide_eq_false in Hn.
  rewrite (fb_bind_eval _ _ _ _ _ (on_buffer_read client_response_field _ _ _ (rq_text _ _ _ _ Ht))).
  destruct (strstr CRLFCRLF (text d)) as [i|] eqn:Ei; [clear Hn|done].
  destruct (strstr_Some _ _ _ Ei) as [r Htext]. pose proof (strstr_bound _ _ _ Ei) as Hbound.
  pose proof (strchrnul_app 0 d) as Hsplit. fold (text d) in Hsplit. set (z := snd _) in Hsplit. set (head := take i (text d)) in *.
  rewrite Htext, <- !app_assoc in Hsplit. assert (Hlen : length head = i) by (unfold head; rewrite length_take; lia).
  assert (H0 : 0 ∉ head) by (intros Hin; apply (text_zero d); rewrite Htext; apply elem_of_app; by left).
  unfold terminated in Ht. replace (d ++ [0]) with (head ++ 13 :: [10; 13; 10] ++ (r ++ z) ++ [0]) in Ht by (rewrite Hsplit at 1; by rewrite <- !app_assoc).
  destruct (rq_poke _ head 13 _ 0 _ Ht) as (st & Ep & Hst). rewrite Hlen in Ep.
  rewrite (fb_bind_eval _ _ _ _ _ (on_buffer_eval client_response_field _ _ _ _ Ep)). set (s3 := put_response s2 st).
  pose proof Hst as Hst'. rewrite <- (buffer_of_put client_response_field s2 st) in Hst'.
  rewrite (fb_bind_eval _ _ _ _ _ (on_buffer_read client_response_field _ _ _ (rq_text _ _ _ _ Hst'))), text_id by done.
  assert (Hhead : forall head' body, bytes_of (fb_input s) = head' ++ CRLFCRLF ++ body -> 0 ∉ head' ++ CRLFCRLF ->
         strstr CRLFCRLF (head' ++ CRLFCRLF) = Some (length head') -> head' = head).
  { intros head' body Hb H0' Hf'. rewrite (rc_bytes _ _ _ _ Hrc) in Hb. symmetry in Hb. destruct (first_empty_line _ _ _ _ _ _ H0' Hf' Hb Ei) as (Hi & w & Hd & _).
    rewrite Hd in Hsplit. by apply app_inj_1 in Hsplit as [? _]; [|lia]. }
  destruct (starts_with HTTP_VERSION head) eqn:Ev; cbn [negb];
    [|left; eexists _, _; split; [reflexivity|]; intros _ head' body Hb H0' Hf' Hv; by rewrite (Hhead head' body Hb H0' Hf'), Ev in Hv].
  destruct (Z.eqb_spec (status_code head) 0) as [Hc0|Hcode];
    [left; eexists _, _; split; [reflexivity|]; intros _ head' body Hb H0' Hf' _ Hv; by rewrite (Hhead head' body Hb H0' Hf') in Hv|].
  right. exists head, (r ++ z), d, res2. eexists. split.
  - rewrite <- Hlen. rewrite u32_small; [reflexivity|]. pose proof (cr_fits _ _ Hr2) as Hfits. rewrite Hsplit, !length_app in Hfits. unfold VMBUF_HEADER in Hfits. lia.
  - split; [|by intros Ho; destruct (Hopen Ho)]. destruct Hrc as [Hb Ha Hs [v Hv] Hi' Ho Hcl]. split.
    + exact Hsplit.
    + by rewrite Hlen.
    + done.
    + assert (Hcr : cready (head ++ 0 :: [10; 13; 10] ++ r ++ z) s3).
      { apply (cready_put d); [exact Hr2| |rewrite Hsplit, !length_app; cbn; rewrite !length_app; lia]. unfold contains.
        replace (length (head ++ 0 :: [10; 13; 10] ++ r ++ z)) with (length d) by (rewrite Hsplit, !length_app; cbn; rewrite !length_app; lia).
        apply (rq_prefix _ _ [0]). rewrite <- app_assoc. exact Hst. }
      by destruct Hcr.
    + exact Hb.
    + exact Hs.
    + exists (snd st). cbn. by rewrite Hv.
    + exact Ho.
    + intros Hn. destruct (Hcl Hn) as [? Hd]. split; [done|]. apply Hd. intros E. rewrite E in Hsplit. by destruct head.
Qed.
End Facts.
