(* ===== verification/HttpClientBody.v ===== *)
(** * HttpClientBody: the content of a response

    The three ways a response ends.  Throughout, [H] is the part of the buffer with the headers,
    which is not touched any more. *)

From Stdlib Require Import String.
From stdpp Require Import base numbers functions list gmap.
From Stdlib Require Import ZArith Lia.
From S2P Require Import Prelude Words Os Mempool Memalloc Vmbuf VmbufFacts Cstring HttpText Connection HttpClient HttpClientFacts.

Section Body.
Context `{address_space} (o : os) (stale : Z -> Z -> Z) (limit : Z) (Hlimit : 4096 <= limit <= 2 ^ 32) (Hgrow : can_grow_to o (limit + 4096)).

Abbreviation cready := (cready limit).
Abbreviation more_runs := (READ_MORE_DATA_runs o stale limit Hlimit Hgrow).

Lemma client_error_exits {A} (s : cl) : exists s', @client_error A s = Some (inl Closed, s').
Proof. by eexists. Qed.

(** ** A stated length *)
Lemma read_sized_runs c n res text s : cready c s ->
  runs (read_sized o stale n res text) s (fun r s' => match r with
    | inl _ => stays_open (fb_input s) -> 0 < res -> forall len, strtol 0 text = Some len -> Z.of_nat (length (c ++ bytes_of (fb_input s))) < u64 (n + u64 len)
    | inr _ => exists d, received client_response_field d s s' /\ cready (c ++ d) s'
        /\ forall len, strtol 0 text = Some len -> u64 (n + u64 len) <= Z.of_nat (length (c ++ d))
    end).
Proof.
  intros Hr. unfold read_sized. destruct (strtol 0 text) as [len|]; [|eexists _, _; by split].
  destruct (more_runs _ (fun _ => True) _ (fun _ _ => True) ltac:(done) (shorter_than_eval (u64 (n + u64 len))) c s res Hr I) as ([e|[ok res']] & s1 & E & H1).
  - unfold runs. rewrite (fb_bind_exit _ _ _ _ _ E). eexists _, _. split; [reflexivity|]. intros Ho Hpos len' [= <-]. apply Z.ltb_lt. by apply H1.
  - unfold runs. rewrite (fb_bind_eval _ _ _ _ _ E). destruct H1 as (d & Hrc & Hr1 & Hok & Hop). destruct ok; cbn [negb].
    + eexists _, _. split; [reflexivity|]. exists d. do 2 (split; [done|]). intros len' [= <-]. destruct (Hok eq_refl) as [Hn _]. by apply Z.ltb_ge in Hn.
    + eexists _, _. split; [reflexivity|]. intros Ho Hpos. by destruct (Hop Ho Hpos).
Qed.

(** ** The end of the connection *)
Lemma read_until_close_runs c res s : cready c s ->
  runs (read_until_close o stale res) s (fun r s' => match r with inl _ => True | inr _ => exists d, received client_response_field d s s' /\ cready (c ++ d) s' end).
Proof.
  intros Hr. unfold read_until_close.
  assert (Hcond : forall c st, contains c st -> True -> exists st', (mret true : M bool) st = Some (true, st') /\ contains c st' /\ (true = false -> True)) by (intros c' st Hc _; by exists st).
  destruct (more_runs _ (fun _ => True) (fun _ => true) (fun _ _ => True) ltac:(done) Hcond c s res Hr I) as ([e|[ok res']] & s1 & E & H1).
  - unfold runs. rewrite (fb_bind_exit _ _ _ _ _ E). by eexists _, _.
  - unfold runs. rewrite (fb_bind_eval _ _ _ _ _ E). destruct H1 as (d & Hrc & Hr1 & _). destruct (res' =? 0); eexists _, _; (split; [reflexivity|]); [by exists d|done].
Qed.

(** ** Chunks *)

(** The end of the buffer is moved to the front. *)
Lemma wlocset_eval a b st : contains (a ++ b) st -> exists st', vmbuf_wlocset (Z.of_nat (length a)) st = Some (tt, st') /\ contains a st'.
Proof.
  intros (cap & rl & Hs & Hw). unfold vmbuf_wlocset. destruct (set_wloc_eval _ _ _ _ _ _ _ (Z.of_nat (length a)) Hs) as (st' & E & Hs' & _).
  exists st'. split; [done|]. exists cap, rl. rewrite length_app in Hw. split; [by eapply vb_is_prefix|lia].
Qed.

(** Bytes are moved to the front; [x] is what they overwrite. *)
Lemma move_bytes_eval a x y d b st : rq (Z.of_nat (length (a ++ x ++ y ++ d ++ b))) (a ++ x ++ y ++ d ++ b) st ->
  exists st', move_bytes (Z.of_nat (length a)) (Z.of_nat (length (a ++ x ++ y))) (Z.of_nat (length d)) st = Some (tt, st')
    /\ contains (a ++ d ++ drop (length d) (x ++ y ++ d) ++ b) st'.
Proof.
  intros Hs. unfold move_bytes. rewrite Nat2Z.id.
  assert (Hs' : rq (Z.of_nat (length (a ++ x ++ y ++ d ++ b))) ((a ++ x ++ y) ++ d ++ b) st) by (by rewrite <- !app_assoc).
  rewrite (bind_eval _ _ _ _ _ (rq_peek_bytes _ _ _ _ _ (length d) Hs' eq_refl)).
  destruct Hs as (cap & rl & Hs & Hw). assert (Hld : length (take (length d) (x ++ y ++ d)) = length d) by (rewrite length_take, !length_app; lia).
  replace (a ++ x ++ y ++ d ++ b) with (a ++ take (length d) (x ++ y ++ d) ++ drop (length d) (x ++ y ++ d) ++ b) in Hs, Hw
    by (rewrite (app_assoc (take _ _)), take_drop, <- !app_assoc; done).
  destruct (poke_inside _ _ _ a _ _ d rl cap st Hs (eq_sym Hld)) as (st' & E & Hst' & _). exists st'. split; [done|].
  unfold contains. exists cap, rl. rewrite !length_app in Hst', Hw |- *. rewrite Hld in Hst', Hw. split; [done|lia].
Qed.

(** A line that states the size [n], whatever follows it. *)
Definition chunk_line (line : list Z) (n : Z) : Prop := 0 ∉ line /\ 13 ∉ line /\ forall r, u32 (strtoul 16 (line ++ 13 :: r)) = n.

Lemma before_cr line n rest r d : chunk_line line n -> r ++ d = line ++ CRLF ++ rest -> snd (strchrnul 13 (text r)) <> [] ->
  exists r', r = line ++ 13 :: r' /\ r' ++ d = 10 :: rest.
Proof.
  intros (H0 & H13 & _) E Hne. assert (Hr : (length line < length r)%nat).
  { destruct (Nat.lt_ge_cases (length line) (length r)) as [|Hge]; [done|]. exfalso. apply Hne.
    assert (Ht : r = take (length r) line) by (apply (f_equal (take (length r))) in E; rewrite take_app_length, take_app_le in E by done; done).
    rewrite strchrnul_none; [done|]. intros Hin. apply H13. rewrite <- (take_drop (length r) line), <- Ht. apply elem_of_app. left.
    rewrite (strchrnul_app 0 r). apply elem_of_app. by left. }
  exists (drop (S (length line)) r). assert (E1 : take (S (length line)) r = line ++ [13]).
  { apply (f_equal (take (S (length line)))) in E. rewrite take_app_le in E by lia. rewrite E. replace (S (length line)) with (length (line ++ [13])) by (rewrite length_app; cbn; lia).
    change (line ++ CRLF ++ rest) with (line ++ [13] ++ 10 :: rest). by rewrite app_assoc, take_app_length. }
  pose proof (take_drop (S (length line)) r) as Hr'. rewrite E1, <- app_assoc in Hr'. split; [by rewrite <- Hr' at 1|].
  rewrite <- Hr' in E. rewrite <- !app_assoc in E. apply app_inv_head in E. by injection E.
Qed.

(** The text of a line that is complete. *)
Lemma text_line line tl : 0 ∉ line -> text (line ++ CRLF ++ tl) = line ++ CRLF ++ text tl.
Proof.
  intros H0. rewrite app_assoc, text_app, <- app_assoc; [done|]. intros [?|Hin]%elem_of_app; [done|]. revert Hin. change (0 ∉ CRLF).
  unfold CRLF. rewrite !not_elem_of_cons. split; [lia|]. split; [lia|apply not_elem_of_nil].
Qed.

Lemma ends_clean_app a d : (a <> [] -> ends_clean a) -> (d <> [] -> ends_clean d) -> a ++ d <> [] -> ends_clean (a ++ d).
Proof.
  unfold ends_clean. intros Ha Hd Hne. rewrite last_app. destruct d as [|x d]; [rewrite app_nil_r in Hne; auto|].
  specialize (Hd ltac:(done)). by destruct (last (x :: d)) eqn:E; [|rewrite last_None in E].
Qed.

(** The two bytes at the end of the line, the second one possibly the terminator. *)
Lemma line_end_eval wl p r b st line z : text r = line ++ 13 :: z -> 0 ∉ line -> rq wl (p ++ text r ++ 0 :: b) st ->
  exists y, peek_bytes (Z.of_nat (length (p ++ line))) (length CRLF) st = Some ([13; y], st)
    /\ (y = 10 -> exists tl, r = line ++ CRLF ++ tl) /\ (forall tl, r = line ++ CRLF ++ tl -> y = 10).
Proof.
  intros Ht H0 Hb. rewrite Ht, <- app_assoc in Hb. cbn [app] in Hb. pose proof (strchrnul_app 0 r) as Hr. fold (text r) in Hr. rewrite Ht in Hr.
  set (q := snd _) in Hr. destruct z as [|y z].
  - exists 0. split; [apply (rq_peek_bytes wl (p ++ line) [13; 0] b); [by rewrite <- app_assoc|done]|]. split; [lia|]. intros tl Htl. exfalso.
    rewrite Htl, text_line in Ht by done. apply app_inv_head in Ht. done.
  - exists y. split; [apply (rq_peek_bytes wl (p ++ line) [13; y] (z ++ 0 :: b)); [by rewrite <- app_assoc|done]|]. split.
    + intros ->. exists (z ++ q). rewrite Hr at 1. by rewrite <- app_assoc.
    + intros tl Htl. rewrite Htl, text_line in Ht by done. apply app_inv_head in Ht. by injection Ht as ->.
Qed.

(** The data of a chunk, and the two bytes behind them. *)
Lemma chunk_split (l : list Z) n : 0 <= n -> n + 2 <= Z.of_nat (length l) ->
  exists data cr r', l = data ++ cr ++ r' /\ Z.of_nat (length data) = n /\ length cr = 2%nat.
Proof.
  intros Hn Hl. exists (take (Z.to_nat n) l), (take 2 (drop (Z.to_nat n) l)), (drop 2 (drop (Z.to_nat n) l)).
  rewrite !take_drop, !length_take, length_drop. split; [done|]. lia.
Qed.

(** A line is complete, if the bytes of a whole one have been sent and no read ends in its middle. *)
Definition whole_line (r : list Z) (input : arrivals) (line tl : list Z) (input' : arrivals) : Prop :=
  no_cr_end input -> (r <> [] -> ends_clean r) ->
  forall line' n rest, chunk_line line' n -> r ++ bytes_of input = line' ++ CRLF ++ rest -> line' = line /\ tl ++ bytes_of input' = rest.

(** What the server would have to send for an exit: nothing of the form of a chunk. *)
Definition no_chunk (r : list Z) (res : Z) (input : arrivals) : Prop :=
  stays_open input -> 0 < res -> no_cr_end input -> (r <> [] -> ends_clean r) ->
  forall line n rest, chunk_line line n -> r ++ bytes_of input = line ++ CRLF ++ rest -> n = 0 \/ n + 2 <= Z.of_nat (length rest) -> False.

(** The state after the line of a chunk. *)
Record line_read (a j r : list Z) (res : Z) (s : cl) (d line tl : list Z) (res' : Z) (s' : cl) : Prop := {
  lr_received : received client_response_field d s s';
  lr_ready : cready (a ++ j ++ (line ++ CRLF) ++ tl) s';
  lr_bytes : r ++ d = line ++ CRLF ++ tl;
  lr_cr : 13 ∉ line;
  lr_zero : 0 ∉ line;
  lr_open : stays_open (fb_input s) -> 0 < res -> 0 < res';
  lr_whole : whole_line r (fb_input s) line tl (fb_input s');
}.

(** The rest of a round, behind the line. *)
Definition after_line (k : nat) (chunk_start data_start n res : Z) : CL unit :=
  '(ok, res) ← READ_MORE_DATA o stale (shorter_than (u64 (chunk_start + n + Z.of_nat (length CRLF)))) res;
  if negb ok then client_error
  else on_response (move_bytes data_start chunk_start n);;
       chunk_loop o stale k (u64 (chunk_start + n + Z.of_nat (length CRLF))) (data_start + n) res.

(** The line of the last chunk: the content ends. *)
Lemma last_chunk a j r res s d line tl res1 s1 : line_read a j r res s d line tl res1 s1 ->
  exists s', on_response (vmbuf_wlocset (Z.of_nat (length a))) s1 = Some (inr tt, s') /\ received client_response_field d s s' /\ contains a (response_of s').
Proof.
  intros [Hrc Hr _ _ _ _ _]. destruct (wlocset_eval a _ (response_of s1) (cr_response _ _ _ Hr)) as (st & Est & Hst).
  exists (put_response s1 st). split; [exact (on_buffer_eval client_response_field _ _ _ _ Est)|].
  split; [rewrite <- (app_nil_r d); apply (received_trans client_response_field _ _ _ _ _ Hrc), received_nil|].
  by rewrite (buffer_of_put client_response_field).
Qed.

Lemma no_line_exits a j r rest line n : chunk_line line n -> r = line ++ CRLF ++ rest -> needs_line (length (a ++ j)) (a ++ j ++ r) = false.
Proof.
  intros (H0 & H13 & _) ->. unfold needs_line. apply bool_decide_eq_false. rewrite (app_assoc a), drop_app_length, text_line by done. cbn [app CRLF]. by rewrite strchrnul_found.
Qed.

Lemma whole_line_read r s s1 d line tl z : received client_response_field d s s1 -> snd (strchrnul 13 (text (r ++ d))) = 13 :: z -> line = fst (strchrnul 13 (text (r ++ d))) ->
  (r ++ d = line ++ CRLF ++ tl \/ forall tl, r ++ d <> line ++ CRLF ++ tl) ->
  no_cr_end (fb_input s) -> (r <> [] -> ends_clean r) ->
  forall line' n rest, chunk_line line' n -> r ++ bytes_of (fb_input s) = line' ++ CRLF ++ rest -> r ++ d = line ++ CRLF ++ tl /\ line' = line /\ tl ++ bytes_of (fb_input s1) = rest.
Proof.
  intros Hrc Hz Hl Hcase Hcl Hclr line' n rest Hline E. rewrite (rc_bytes _ _ _ _ Hrc), app_assoc in E.
  destruct (before_cr _ _ _ _ _ Hline E) as (r' & Hr' & E'); [by rewrite Hz|].
  destruct Hline as (H0' & H13 & _). destruct (rc_clean _ _ _ _ Hrc Hcl) as [_ Hd].
  assert (Hc : ends_clean (r ++ d)) by (apply ends_clean_app; [done|done|rewrite Hr'; by destruct line']).
  destruct r' as [|x r']; [exfalso; apply Hc; rewrite Hr'; apply last_snoc|]. injection E' as -> E'.
  assert (line = line') as <-.
  { rewrite Hl, Hr'. change (13 :: 10 :: r') with (CRLF ++ r'). rewrite text_line by done. cbn [app CRLF]. by rewrite strchrnul_found. }
  destruct Hcase as [Htl|Hno]; [|by destruct (Hno r')]. split; [done|]. split; [done|].
  rewrite Hr' in Htl. apply app_inv_head in Htl. injection Htl as <-. done.
Qed.

(** Reading the line of a chunk.  [a] is in front of [data_start], [j] between it and [chunk_start],
    and [r] has been read behind that. *)
Lemma chunk_line_runs k a j r s res : cready (a ++ j ++ r) s ->
  (exists e s', chunk_loop o stale (S k) (Z.of_nat (length (a ++ j))) (Z.of_nat (length a)) res s = Some (inl e, s') /\ no_chunk r res (fb_input s))
  \/ exists d line tl res' s', line_read a j r res s d line tl res' s'
      /\ chunk_loop o stale (S k) (Z.of_nat (length (a ++ j))) (Z.of_nat (length a)) res s
         = (let n := u32 (strtoul 16 (line ++ CRLF ++ text tl)) in
            if n =? 0 then on_response (vmbuf_wlocset (Z.of_nat (length a)))
            else after_line k (Z.of_nat (length (a ++ j ++ line ++ CRLF))) (Z.of_nat (length a)) n res') s'.
Proof.
  intros Hr. cbn [chunk_loop]. unfold READ_MORE_DATA_STR.
  assert (HP : forall c d : list Z, (length (a ++ j) <= length c)%nat -> (length (a ++ j) <= length (c ++ d))%nat) by (intros c d Hc; rewrite (length_app c); lia).
  destruct (more_runs _ (fun c => (length (a ++ j) <= length c)%nat) _ terminated HP (no_line_eval (length (a ++ j))) (a ++ j ++ r) s res Hr)
    as ([e|[ok res1]] & s1 & E1 & H1); [rewrite (app_assoc a), (length_app (a ++ j)); lia| |].
  { left. exists e, s1. split; [by rewrite (fb_bind_exit _ _ _ _ _ E1)|]. intros Ho Hpos _ _ line n rest Hline E _. specialize (H1 Ho Hpos).
    rewrite <- !app_assoc, (no_line_exits a j _ rest line n Hline E) in H1. done. }
  rewrite (fb_bind_eval _ _ _ _ _ E1). destruct H1 as (d1 & Hrc1 & Hr1 & Hok & Hop). destruct ok; cbn [negb].
  2:{ left. eexists _, _. split; [reflexivity|]. intros Ho Hpos. by destruct (Hop Ho Hpos). }
  destruct (Hok eq_refl) as [Hn Ht]. unfold needs_line in Hn. apply bool_decide_eq_false in Hn.
  rewrite <- !app_assoc, (app_assoc a) in Hn, Ht, Hr1. rewrite drop_app_length in Hn. set (r1 := r ++ d1) in *.
  destruct (terminated_string _ (length (a ++ j)) _ Ht) as [b Hb]; [rewrite (length_app (a ++ j)); lia|]. rewrite take_app_length, drop_app_length in Hb.
  rewrite (fb_bind_eval _ _ _ _ _ (on_buffer_read client_response_field _ _ _ (rq_find_char _ _ _ _ _ 13 Hb (text_zero _)))).
  pose proof (strchrnul_before 13 (text r1)) as Hl13. pose proof (strchrnul_before_in 13 (text r1) 0 (text_zero _)) as Hl0. pose proof (strchrnul_app 13 (text r1)) as Htext.
  set (line := fst (strchrnul 13 (text r1))) in *.
  destruct (strchrnul_cases 13 (text r1)) as [|[z Hz]]; [done|]. rewrite Hz in Htext.
  destruct (line_end_eval _ _ _ _ _ _ _ Htext Hl0 Hb) as (y & Ey & Hy & Hy').
  rewrite (fb_bind_eval _ _ _ _ _ (on_buffer_read client_response_field _ _ _ Ey)). case_bool_decide as Hcrlf; cbn [negb].
  2:{ left. eexists _, _. split; [reflexivity|]. intros _ _ Hcl Hclr line' n rest Hline E _.
      assert (Hno : forall tl, r1 <> line ++ CRLF ++ tl) by (intros tl Htl; apply Hcrlf; by rewrite (Hy' tl Htl)).
      destruct (whole_line_read r s s1 d1 line [] z Hrc1 Hz eq_refl (or_intror Hno) Hcl Hclr line' n rest Hline E) as [Htl _]. by destruct (Hno []). }
  injection Hcrlf as ->. destruct (Hy eq_refl) as [tl Htl].
  rewrite (fb_bind_eval _ _ _ _ _ (on_buffer_read client_response_field _ _ _ (rq_peek_str _ _ _ _ _ Hb (text_zero _)))).
  assert (Htx : text r1 = line ++ CRLF ++ text tl) by (rewrite Htl at 1; by apply text_line). rewrite Htx.
  right. exists d1, line, tl, res1, s1. split; [|cbv zeta; rewrite <- Nat2Z.inj_add, <- length_app, <- !app_assoc; done].
  split; [done|rewrite <- app_assoc, <- Htl, app_assoc; done|done|done|done|intros Ho Hpos; apply (Hop Ho Hpos)|].
  intros Hcl Hclr line' n rest Hline E.
  by destruct (whole_line_read r s s1 d1 line tl z Hrc1 Hz eq_refl (or_introl Htl) Hcl Hclr line' n rest Hline E).
Qed.

(** The data behind the line are read and moved; [j'] is what lies between them and the next chunk. *)
Lemma after_line_runs k a j r res s d line tl res1 s1 n : line_read a j r res s d line tl res1 s1 -> 0 < n < 2 ^ 32 ->
  (exists e s', after_line k (Z.of_nat (length (a ++ j ++ line ++ CRLF))) (Z.of_nat (length a)) n res1 s1 = Some (inl e, s')
     /\ (stays_open (fb_input s) -> 0 < res -> n + 2 <= Z.of_nat (length (tl ++ bytes_of (fb_input s1))) -> False))
  \/ exists d2 data cr r' j' res' s', after_line k (Z.of_nat (length (a ++ j ++ line ++ CRLF))) (Z.of_nat (length a)) n res1 s1
        = chunk_loop o stale k (Z.of_nat (length ((a ++ data) ++ j'))) (Z.of_nat (length (a ++ data))) res' s'
      /\ received client_response_field (d ++ d2) s s' /\ cready ((a ++ data) ++ j' ++ r') s'
      /\ r ++ d ++ d2 = line ++ CRLF ++ data ++ cr ++ r' /\ length cr = 2%nat /\ Z.of_nat (length data) = n
      /\ (stays_open (fb_input s) -> 0 < res -> 0 < res').
Proof.
  intros [Hrc1 Hr1 Hby _ _ Hop _] Hn. set (start := Z.of_nat (length (a ++ j ++ line ++ CRLF))). unfold after_line.
  pose proof (cr_fits _ _ _ Hr1) as Hfit. unfold VMBUF_HEADER in Hfit.
  assert (Hstart : start <= Z.of_nat (length (a ++ j ++ (line ++ CRLF) ++ tl))) by (unfold start; rewrite !length_app; lia).
  assert (He : u64 (start + n + Z.of_nat (length CRLF)) = start + n + 2) by (rewrite length_app in Hfit; apply u64_small; cbn [length CRLF]; lia).
  rewrite He. destruct (more_runs _ (fun _ => True) _ (fun _ _ => True) ltac:(done) (shorter_than_eval (start + n + 2)) _ s1 res1 Hr1 I)
    as ([e|[ok res2]] & s2 & E2 & H2).
  { left. exists e, s2. split; [by rewrite (fb_bind_exit _ _ _ _ _ E2)|]. intros Ho Hpos Hlen.
    specialize (H2 (rc_open _ _ _ _ Hrc1 Ho) (Hop Ho Hpos)). apply Z.ltb_lt in H2. unfold start in H2. rewrite !length_app in H2. rewrite length_app in Hlen. lia. }
  rewrite (fb_bind_eval _ _ _ _ _ E2). destruct H2 as (d2 & Hrc2 & Hr2 & Hok2 & Hop2). destruct ok; cbn [negb].
  2:{ left. eexists _, _. split; [reflexivity|]. intros Ho Hpos. by destruct (Hop2 (rc_open _ _ _ _ Hrc1 Ho) (Hop Ho Hpos)). }
  destruct (Hok2 eq_refl) as [Hlen _]. apply Z.ltb_ge in Hlen.
  assert (Hc2 : (a ++ j ++ (line ++ CRLF) ++ tl) ++ d2 = a ++ j ++ (line ++ CRLF) ++ tl ++ d2) by (rewrite <- !app_assoc; done). rewrite Hc2 in Hr2, Hlen.
  destruct (chunk_split (tl ++ d2) n) as (data & cr & r' & Ed & Hld & Hlc); [lia|unfold start in Hlen; rewrite !length_app in Hlen; rewrite !length_app; lia|].
  rewrite Ed in Hr2. destruct (move_bytes_eval a j (line ++ CRLF) data (cr ++ r') (response_of s2) (cr_response _ _ _ Hr2)) as (st & Est & Hst).
  rewrite Hld in Est. fold start in Est. rewrite (fb_bind_eval _ _ _ _ _ (on_buffer_eval client_response_field _ _ _ _ Est)).
  right. exists d2, data, cr, r', (drop (length data) (j ++ (line ++ CRLF) ++ data) ++ cr), res2, (put_response s2 st).
  split; [f_equal; unfold start; rewrite !length_app, ?length_drop, ?length_app; lia|].
  split; [rewrite <- (app_nil_r (d ++ d2)); apply (received_trans client_response_field _ _ _ _ _ (received_trans client_response_field _ _ _ _ _ Hrc1 Hrc2)), received_nil|].
  split; [apply (cready_put limit (a ++ j ++ (line ++ CRLF) ++ data ++ cr ++ r')); [done|rewrite <- !app_assoc in Hst; rewrite <- !app_assoc; exact Hst|]; rewrite !length_app, length_drop, !length_app; lia|].
  split; [by rewrite app_assoc, Hby, <- !app_assoc, Ed|]. do 2 (split; [done|]).
  intros Ho Hpos. apply (Hop2 (rc_open _ _ _ _ Hrc1 Ho) (Hop Ho Hpos)).
Qed.

(** *** The whole content *)

(** Any bytes: the loop ends, with the data of some chunks behind [a]. *)
Lemma chunk_loop_safe fuel : forall a j r s res, cready (a ++ j ++ r) s -> (length (r ++ bytes_of (fb_input s)) < fuel)%nat ->
  runs (chunk_loop o stale fuel (Z.of_nat (length (a ++ j))) (Z.of_nat (length a)) res) s (fun x s' => match x with
    | inl _ => True
    | inr _ => exists d c, received client_response_field d s s' /\ contains (a ++ c) (response_of s') /\ (length c <= length (r ++ bytes_of (fb_input s)))%nat
    end).
Proof.
  induction fuel as [|k IH]; intros a j r s res Hr Hfuel; [lia|].
  destruct (chunk_line_runs k a j r s res Hr) as [(e & s' & E & _)|(d & line & tl & res1 & s1 & Hl & E)]; [by exists (inl e), s'|].
  unfold runs. rewrite E. pose proof (u32_range (strtoul 16 (line ++ CRLF ++ text tl))) as Hn. cbv zeta. set (n := u32 _) in *. destruct (Z.eqb_spec n 0) as [Hn0|Hn0].
  - destruct (last_chunk _ _ _ _ _ _ _ _ _ _ Hl) as (s' & E' & Hrc & Hc). exists (inr tt), s'. split; [done|]. exists d, []. rewrite app_nil_r. do 2 (split; [done|]). cbn. lia.
  - destruct (after_line_runs k a j r res s d line tl res1 s1 n Hl ltac:(lia))
      as [(e & s' & E' & _)|(d2 & data & cr & r' & j' & res' & s' & E' & Hrc & Hr' & Hb & Hlc & Hld & _)]; [by exists (inl e), s'|].
    rewrite E'. eapply runs_mono; [apply (IH (a ++ data) j' r' s' res' Hr')|].
    + rewrite (rc_bytes _ _ _ _ Hrc), (app_assoc r), Hb, !length_app in Hfuel. rewrite length_app. lia.
    + intros [e|[]] s2; [done|]. intros (d3 & c & Hrc' & Hc & Hlen). exists ((d ++ d2) ++ d3), (data ++ c).
      split; [by apply (received_trans client_response_field _ _ _ _ _ Hrc)|]. split; [by rewrite app_assoc|].
      rewrite (rc_bytes _ _ _ _ Hrc), (app_assoc r), Hb, !length_app. rewrite length_app in Hlen. lia.
Qed.

(** The form of a chunked content: the lines and data of the chunks, and the line of the last one. *)
Definition encode_chunk (chunk : list Z * list Z) : list Z := fst chunk ++ CRLF ++ snd chunk ++ CRLF.
Definition encode_chunks (chunks : list (list Z * list Z)) (last trailer : list Z) : list Z := concat (encode_chunk <$> chunks) ++ last ++ CRLF ++ trailer.
Definition chunk_ok (chunk : list Z * list Z) : Prop := chunk_line (fst chunk) (Z.of_nat (length (snd chunk))) /\ snd chunk <> [].

Lemma suffix_clean x r : x ++ r = [] \/ ends_clean (x ++ r) -> r <> [] -> ends_clean r.
Proof.
  intros [E|Hc] Hne; [by apply app_nil in E as [_ ->]|]. unfold ends_clean in *. rewrite last_app in Hc. by destruct (last r) eqn:E; [|rewrite last_None in E].
Qed.

Lemma chunks_decoded last trailer chunks : chunk_line last 0 -> Forall chunk_ok chunks -> forall fuel a j r s res,
  cready (a ++ j ++ r) s -> stays_open (fb_input s) -> no_cr_end (fb_input s) -> (r <> [] -> ends_clean r) -> 0 < res ->
  r ++ bytes_of (fb_input s) = encode_chunks chunks last trailer -> (length chunks < fuel)%nat ->
  exists d s', chunk_loop o stale fuel (Z.of_nat (length (a ++ j))) (Z.of_nat (length a)) res s = Some (inr tt, s')
    /\ received client_response_field d s s' /\ contains (a ++ concat (snd <$> chunks)) (response_of s').
Proof.
  intros Hlast Hchunks. induction Hchunks as [|[size data] chunks [Hline Hne] Hchunks IH]; intros fuel a j r s res Hr Ho Hcl Hclr Hpos Hb Hfuel;
    (destruct fuel as [|k]; [cbn in Hfuel; lia|]); cbn [fst snd] in *.
  - destruct (chunk_line_runs k a j r s res Hr) as [(e & s' & E & Hno)|(d & line & tl & res1 & s1 & Hl & E)]; [destruct (Hno Ho Hpos Hcl Hclr last 0 trailer Hlast Hb); by left|].
    destruct (lr_whole _ _ _ _ _ _ _ _ _ _ Hl Hcl Hclr last 0 trailer Hlast Hb) as [<- _]. rewrite E. cbv zeta.
    change (CRLF ++ text tl) with (13 :: 10 :: text tl). destruct Hlast as (_ & _ & Hn). rewrite Hn, Z.eqb_refl.
    destruct (last_chunk _ _ _ _ _ _ _ _ _ _ Hl) as (s' & E' & Hrc & Hc). exists d, s'. do 2 (split; [done|]). cbn. by rewrite app_nil_r.
  - assert (Hb' : r ++ bytes_of (fb_input s) = size ++ CRLF ++ (data ++ CRLF ++ encode_chunks chunks last trailer)).
    { rewrite Hb. unfold encode_chunks. rewrite fmap_cons. cbn [concat]. unfold encode_chunk at 1. cbn [fst snd]. by rewrite <- !app_assoc. }
    assert (Hlen : Z.of_nat (length data) + 2 <= Z.of_nat (length (data ++ CRLF ++ encode_chunks chunks last trailer))) by (rewrite !length_app; cbn [length CRLF]; lia).
    destruct (chunk_line_runs k a j r s res Hr) as [(e & s' & E & Hno)|(d & line & tl & res1 & s1 & Hl & E)]; [destruct (Hno Ho Hpos Hcl Hclr _ _ _ Hline Hb'); by right|].
    destruct (lr_whole _ _ _ _ _ _ _ _ _ _ Hl Hcl Hclr _ _ _ Hline Hb') as [<- Hrest]. rewrite E. cbv zeta.
    change (CRLF ++ text tl) with (13 :: 10 :: text tl). pose proof (proj2 (proj2 Hline) (10 :: text tl)) as Hn. rewrite Hn.
    assert (0 < Z.of_nat (length data)) by (destruct data; [done|cbn; lia]). rewrite (proj2 (Z.eqb_neq _ 0)) by lia.
    destruct (after_line_runs k a j r res s d size tl res1 s1 (Z.of_nat (length data)) Hl ltac:(split; [lia|rewrite <- Hn; apply u32_range]))
      as [(e & s' & E' & Hno)|(d2 & data' & cr & r' & j' & res' & s' & E' & Hrc & Hr' & Hbr & Hlc & Hld & Hop)]; [by destruct Hno; rewrite ?Hrest|].
    rewrite (rc_bytes _ _ _ _ Hrc), (app_assoc r), Hbr, <- !app_assoc in Hb'. apply app_inv_head, app_inv_head in Hb'.
    apply app_inj_1 in Hb' as [-> Hb']; [|lia]. apply app_inj_1 in Hb' as [-> Hb']; [|done].
    destruct (rc_clean _ _ _ _ Hrc Hcl) as [Hcl' Hcd].
    destruct (IH k (a ++ data) j' r' s' res' Hr' (rc_open _ _ _ _ Hrc Ho) Hcl') as (d3 & s2 & E2 & Hrc2 & Hc2); [|by apply Hop|done|cbn in Hfuel; lia|].
    { apply (suffix_clean (size ++ CRLF ++ data ++ CRLF)). right. rewrite <- !app_assoc, <- Hbr. apply ends_clean_app; [done|done|]. rewrite Hbr. by destruct size. }
    exists ((d ++ d2) ++ d3), s2. rewrite E'. split; [done|]. split; [by apply (received_trans client_response_field _ _ _ _ _ Hrc)|].
    cbn [fmap list_fmap concat snd]. by rewrite app_assoc.
Qed.
End Body.
