(* ===== verification/HttpClientRun.v ===== *)
(** * HttpClientRun: the fiber of a request, from its first write to the result

    The request goes out whole; the response, however it arrives, becomes the content, its length
    and the status that the caller finds in the context. *)

From Stdlib Require Import String.
From stdpp Require Import base numbers functions list gmap.
From Stdlib Require Import ZArith Lia.
From S2P Require Import Prelude Words Os Mempool Memalloc Vmbuf VmbufFacts Cstring HttpText Connection HttpClient HttpClientFacts HttpClientBody.

(** The offset of the content behind the headers [head]. *)
Definition content_ofs (head : list Z) : Z := Z.of_nat (length head + length CRLFCRLF).

(** What the caller finds: the response with its headers as they came, the content with a
    terminator behind it, and the status. *)
Record response_is (head body : list Z) (s : cl) : Prop := {
  ri_content : cc_content (fb_ctx s) = Some (content_ofs head);
  ri_length : cc_content_length (fb_ctx s) = Z.of_nat (length body);
  ri_status : http_status_code (fb_ctx s) = i16 (status_code head);
  ri_head : on_response (peek_bytes 0 (length (head ++ CRLFCRLF))) s = Some (inr (head ++ CRLFCRLF), s);
  ri_body : on_response (peek_bytes (content_ofs head) (length body + 1)) s = Some (inr (body ++ [0]), s);
}.

(** A fiber that is about to run: [rl] bytes of the request have been sent. *)
Record client_starts (limit : Z) (req : list Z) (rl : Z) (s : cl) : Prop := {
  cs_request : anon_buf req rl (client_request_of s);
  cs_rest : 0 <= rl <= Z.of_nat (length req);
  cs_response : contains [] (response_of s);
  cs_input : input_ok (fb_input s);
  cs_fits : 2 * Z.of_nat (length (bytes_of (fb_input s))) + VMBUF_HEADER <= limit;
}.

Lemma contains_rlocset c n st : contains c st -> exists st', vmbuf_rlocset n st = Some (tt, st') /\ contains c st'.
Proof.
  intros (cap & rl & Hs & Hw). unfold vmbuf_rlocset. rewrite bind_get. eexists. split; [reflexivity|]. exists cap, n. split; [|done].
  destruct Hs as [? ? ? ? (r & ? & ? & ? & ? & ?) ?]. split; auto. by exists r.
Qed.

(** The last steps.  The byte that cut the headers off is restored. *)
Lemma finish_response_eval head c s : contains (head ++ 0 :: [10; 13; 10] ++ c) (response_of s) -> Z.of_nat (length (head ++ CRLFCRLF ++ c)) < 2 ^ 32 ->
  exists s', finish_response (status_code head) (content_ofs head) s = Some (inl (if cc_persistent (fb_ctx s) then Idle else Closed), s')
    /\ response_is head c s' /\ fb_sent s' = fb_sent s.
Proof.
  intros Hc Hlen. pose proof (eq_refl : length CRLFCRLF = 4%nat) as H4. unfold finish_response.
  destruct (contains_rlocset _ (content_ofs head) _ Hc) as (st1 & E1 & H1).
  rewrite (fb_bind_eval _ _ _ _ _ (on_buffer_eval client_response_field _ _ _ _ E1)). set (s1 := put_response s st1).
  assert (Hs1 : response_of s1 = st1) by (apply (buffer_of_put client_response_field)). rewrite <- Hs1 in H1.
  rewrite (fb_bind_eval _ _ _ _ _ (on_buffer_read client_response_field _ _ _ (rq_wlocpos _ _ _ H1))).
  set (n := u32 _). assert (Hn : n = Z.of_nat (length c)).
  { unfold n, content_ofs. rewrite length_app in *. cbn [length app]. rewrite H4. rewrite length_app in Hlen. rewrite u32_small by lia. lia. }
  rewrite (fb_bind_eval (modify_ctx _) _ _ tt (set_ctx s1 (cc_with_content (fb_ctx s1) (Some (content_ofs head)) n (i16 (status_code head)))) eq_refl). set (s2 := set_ctx _ _).
  assert (H2 : contains (head ++ 0 :: [10; 13; 10] ++ c) (response_of s2)) by exact H1.
  destruct (rq_poke _ _ _ _ CR _ H2) as (st3 & E3 & H3). replace (content_ofs head - Z.of_nat (length CRLFCRLF)) with (Z.of_nat (length head)) by (unfold content_ofs; lia).
  rewrite (fb_bind_eval _ _ _ _ _ (on_buffer_eval client_response_field _ _ _ _ E3)). set (s3 := put_response s2 st3).
  assert (Hs3 : contains (head ++ CRLFCRLF ++ c) (response_of s3)).
  { unfold s3. rewrite (buffer_of_put client_response_field). unfold contains. rewrite !length_app in *. exact H3. }
  destruct (terminate_eval _ _ Hs3) as (st4 & E4 & _ & H4'). unfold terminated in H4'.
  rewrite (fb_bind_eval _ _ _ _ _ (on_buffer_eval client_response_field _ _ _ _ E4)). eexists. split; [reflexivity|]. split; [|done].
  set (s4 := put_response s3 st4). assert (Hs4 : rq (Z.of_nat (length (head ++ CRLFCRLF ++ c))) ((head ++ CRLFCRLF) ++ (c ++ [0]) ++ []) (response_of s4)).
  { unfold s4. rewrite (buffer_of_put client_response_field), app_nil_r, <- !app_assoc. by rewrite <- !app_assoc in H4'. }
  split; [done|exact Hn|done|..]; apply (on_buffer_read client_response_field).
  - exact (rq_peek_bytes _ [] _ _ _ _ Hs4 eq_refl).
  - unfold content_ofs. rewrite <- length_app. apply (rq_peek_bytes _ _ _ _ _ _ Hs4). by rewrite length_app.
Qed.

(** The buffer behind the headers, whose end is overwritten while the content is read. *)
Definition cut (head : list Z) : list Z := head ++ 0 :: [10; 13; 10].

Lemma length_cut head : Z.of_nat (length (cut head)) = content_ofs head.
Proof. unfold cut, content_ofs. rewrite length_app. cbn. lia. Qed.

Lemma bytes_size input : (length (bytes_of input) <= input_size input)%nat.
Proof.
  unfold bytes_of, input_size. induction input as [|[pieces e] input IH]; [done|]. rewrite fmap_cons. cbn [concat sum_list_with fst].
  rewrite concat_app, length_app. lia.
Qed.

Section Run.
Context `{address_space} (o : os) (stale : Z -> Z -> Z) (limit : Z) (Hlimit : 4096 <= limit <= 2 ^ 32) (Hgrow : can_grow_to o (limit + 4096)).

(** The string the content is found by is the text of the headers. *)
Lemma headers_text_eval head w s : cready limit (cut head ++ w) s -> 0 ∉ head -> on_response (peek_str 0) s = Some (inr head, s).
Proof.
  intros Hr H0. apply (on_buffer_read client_response_field). pose proof (cr_response _ _ _ Hr) as Hc. unfold contains, cut in Hc. rewrite <- app_assoc in Hc.
  rewrite (rq_text _ _ _ _ Hc). by rewrite text_id.
Qed.

(** *** Any content *)
Definition some_content (head w : list Z) (s : cl) (x : fiber_end + unit) (s' : cl) : Prop :=
  match x with
  | inl _ => True
  | inr _ => exists d c, received client_response_field d s s' /\ contains (cut head ++ c) (response_of s') /\ (length c <= length (w ++ bytes_of (fb_input s)))%nat
  end.

Lemma received_content head w d s s' : cready limit (cut head ++ w) s -> received client_response_field d s s' -> cready limit ((cut head ++ w) ++ d) s' ->
  some_content head w s (inr tt) s'.
Proof.
  intros _ Hrc Hc. exists d, (w ++ d). split; [done|]. split; [rewrite app_assoc; apply (cr_response _ _ _ Hc)|].
  rewrite (rc_bytes _ _ _ _ Hrc), !length_app. lia.
Qed.

Lemma read_chunks_eval head w s res : cready limit (cut head ++ w) s ->
  read_chunks o stale (content_ofs head) res s
  = chunk_loop o stale (S (length (cut head ++ w) + input_size (fb_input s))) (Z.of_nat (length (cut head ++ []))) (Z.of_nat (length (cut head))) res s.
Proof.
  intros Hr. unfold read_chunks. rewrite (fb_bind_eval _ _ _ _ _ (on_buffer_read client_response_field _ _ _ (rq_wlocpos _ _ _ (cr_response _ _ _ Hr)))).
  unfold chunk_rounds. by rewrite Nat2Z.id, app_nil_r, length_cut.
Qed.

Lemma http_client_read_body_safe head w s code res : cready limit (cut head ++ w) s -> 0 ∉ head ->
  runs (http_client_read_body o stale code (content_ofs head) res) s (some_content head w s).
Proof.
  intros Hr H0. unfold http_client_read_body. destruct (_ || _).
  { eexists _, s. split; [reflexivity|]. exists [], w. split; [apply (received_refl client_response_field)|]. split; [apply (cr_response _ _ _ Hr)|rewrite length_app; lia]. }
  unfold runs. rewrite (fb_bind_eval _ _ _ _ _ (headers_text_eval head w s Hr H0)).
  assert (Hclose : runs (read_until_close o stale res) s (some_content head w s)).
  { eapply runs_mono; [apply (read_until_close_runs o stale limit Hlimit Hgrow _ res s Hr)|]. intros [e|[]] s'; [done|]. intros (d & Hrc & Hc). by eapply received_content. }
  destruct (strstr CONTENT_LENGTH head).
  - eapply runs_mono; [apply (read_sized_runs o stale limit Hlimit Hgrow _ _ res _ s Hr)|]. intros [e|[]] s'; [done|]. intros (d & Hrc & Hc & _). by eapply received_content.
  - destruct (strstr TRANSFER_ENCODING head); [|done]. destruct (starts_with _ _); [|done]. rewrite (read_chunks_eval head w s res Hr).
    eapply runs_mono; [apply (chunk_loop_safe o stale limit Hlimit Hgrow _ (cut head) [] w s res Hr)|by intros [e|[]] s'].
    pose proof (bytes_size (fb_input s)). rewrite !length_app. lia.
Qed.

(** *** A content with its length *)
Lemma read_body_sized head body w s code res i : cready limit (cut head ++ w) s -> 0 ∉ head -> body = w ++ bytes_of (fb_input s) ->
  stays_open (fb_input s) -> 0 < res -> code <> 204 -> code <> 304 ->
  strstr CONTENT_LENGTH head = Some i -> strtol 0 (drop (i + length CONTENT_LENGTH) head) = Some (Z.of_nat (length body)) ->
  exists d s', http_client_read_body o stale code (content_ofs head) res s = Some (inr tt, s')
    /\ received client_response_field d s s' /\ contains (cut head ++ body) (response_of s').
Proof.
  intros Hr H0 Hbody Ho Hpos H204 H304 Hi Hlen. unfold http_client_read_body. rewrite (proj2 (Z.eqb_neq code 204) H204), (proj2 (Z.eqb_neq code 304) H304). cbn [orb].
  rewrite (fb_bind_eval _ _ _ _ _ (headers_text_eval head w s Hr H0)), Hi.
  assert (Hend : u64 (content_ofs head + u64 (Z.of_nat (length body))) = Z.of_nat (length (cut head ++ body))).
  { pose proof (cr_fits _ _ _ Hr) as Hf. rewrite <- app_assoc, <- Hbody, length_app in Hf. unfold VMBUF_HEADER in Hf. rewrite length_app, Nat2Z.inj_add, length_cut in *.
    rewrite (u64_small (Z.of_nat (length body))), u64_small by (pose proof (length_cut head); lia). done. }
  destruct (read_sized_runs o stale limit Hlimit Hgrow _ (content_ofs head) res (drop (i + length CONTENT_LENGTH) head) s Hr) as ([e|[]] & s' & E & H1).
  - exfalso. specialize (H1 Ho Hpos _ Hlen). rewrite Hend, <- app_assoc, <- Hbody in H1. lia.
  - destruct H1 as (d & Hrc & Hc & Hle). specialize (Hle _ Hlen). rewrite Hend in Hle. exists d, s'. do 2 (split; [done|]). pose proof (cr_response _ _ _ Hc) as Hc'.
    rewrite (rc_bytes _ _ _ _ Hrc), app_assoc in Hbody. rewrite <- app_assoc in Hle, Hc'. subst body. rewrite (length_app (cut head)), (length_app (cut head)), (length_app (w ++ d)) in Hle.
    destruct (bytes_of (fb_input s')); [by rewrite app_nil_r|cbn in Hle; lia].
Qed.

(** *** A content in chunks *)
Lemma read_body_chunked head w s code res i chunks last trailer : cready limit (cut head ++ w) s -> 0 ∉ head ->
  w ++ bytes_of (fb_input s) = encode_chunks chunks last trailer -> chunk_line last 0 -> Forall chunk_ok chunks ->
  stays_open (fb_input s) -> no_cr_end (fb_input s) -> (w <> [] -> ends_clean w) -> 0 < res -> code <> 204 -> code <> 304 ->
  strstr CONTENT_LENGTH head = None -> strstr TRANSFER_ENCODING head = Some i -> starts_with (str "chunked") (drop (i + length TRANSFER_ENCODING) head) = true ->
  exists d s', http_client_read_body o stale code (content_ofs head) res s = Some (inr tt, s')
    /\ received client_response_field d s s' /\ contains (cut head ++ concat (snd <$> chunks)) (response_of s').
Proof.
  intros Hr H0 Hb Hlast Hchunks Ho Hcl Hclw Hpos H204 H304 Hnone Hi Hck. unfold http_client_read_body.
  rewrite (proj2 (Z.eqb_neq code 204) H204), (proj2 (Z.eqb_neq code 304) H304). cbn [orb].
  rewrite (fb_bind_eval _ _ _ _ _ (headers_text_eval head w s Hr H0)), Hnone, Hi, Hck, (read_chunks_eval head w s res Hr).
  apply (chunks_decoded o stale limit Hlimit Hgrow last trailer chunks Hlast Hchunks _ (cut head) [] w s res); try done.
  assert (Hn : forall cs, (length cs <= length (concat (encode_chunk <$> cs)))%nat).
  { induction cs as [|c cs IH]; [done|]. rewrite fmap_cons. cbn [concat length]. unfold encode_chunk at 1. rewrite !length_app. cbn [length CRLF]. lia. }
  specialize (Hn chunks). apply (f_equal length) in Hb. unfold encode_chunks in Hb. rewrite length_app, (length_app (concat _)) in Hb.
  pose proof (bytes_size (fb_input s)). rewrite length_app. lia.
Qed.

(** *** The fiber *)
Definition response_head (head : list Z) : Prop :=
  0 ∉ head /\ strstr CRLFCRLF (head ++ CRLFCRLF) = Some (length head) /\ starts_with HTTP_VERSION head = true /\ status_code head <> 0.

(** The content is to be read: [w] of it is there. *)
Record at_content (head w : list Z) (res : Z) (s s' : cl) : Prop := {
  ac_ready : cready limit (cut head ++ w) s';
  ac_zero : 0 ∉ head;
  ac_persistent : cc_persistent (fb_ctx s') = keeps_connection head;
  ac_sent : fb_sent s' = fb_sent s;
  ac_bytes : bytes_of (fb_input s) = head ++ CRLFCRLF ++ w ++ bytes_of (fb_input s');
  ac_open : stays_open (fb_input s) -> stays_open (fb_input s') /\ 0 < res;
  ac_clean : no_cr_end (fb_input s) -> no_cr_end (fb_input s') /\ (w <> [] -> ends_clean w);
}.

Lemma read_headers_content s : cready limit [] s ->
  (exists e s', http_client_read_headers o stale s = Some (inl e, s')
     /\ (stays_open (fb_input s) -> forall head body, bytes_of (fb_input s) = head ++ CRLFCRLF ++ body -> response_head head -> False))
  \/ exists head w res s', http_client_read_headers o stale s = Some (inr (status_code head, content_ofs head, res), s')
      /\ at_content head w res s s'
      /\ (forall head' body, bytes_of (fb_input s) = head' ++ CRLFCRLF ++ body -> response_head head' -> head' = head /\ body = w ++ bytes_of (fb_input s')).
Proof.
  intros Hr. destruct (http_client_read_headers_runs o stale limit Hlimit Hgrow s Hr) as [(e & s' & E & Hno)|(head & w & d & res & s' & E & [Hd Hf H0 Hr' Hb Hsn [v Hv] Ho Hc] & Hpos)].
  - left. exists e, s'. split; [done|]. intros Ho head body Hb (H0 & Hf & Hv & Hcode). apply (Hno Ho head body Hb); try done.
    intros [?|Hin]%elem_of_app; [done|]. revert Hin. change (0 ∉ CRLFCRLF). by_computation.
  - right. exists head, w, res, s'. split; [exact E|]. split.
    + split; [unfold cut; by rewrite <- app_assoc|done|by rewrite Hv|done|by rewrite Hb, Hd, <- !app_assoc|intros Hop; split; [auto|by apply Hpos]|].
      intros Hcl. destruct (Hc Hcl) as [Hcl' Hcd]. split; [done|]. apply (suffix_clean (head ++ CRLFCRLF)). right. by rewrite <- app_assoc, <- Hd.
    + intros head' body Hb' (H0' & Hf' & _). rewrite Hb in Hb'. symmetry in Hb'.
      destruct (first_empty_line CRLFCRLF head' body d (bytes_of (fb_input s')) (length head)) as (Hl & w' & Hd' & Hbody); try done.
      { intros [?|Hin]%elem_of_app; [done|]. revert Hin. change (0 ∉ CRLFCRLF). by_computation. }
      rewrite Hd in Hd'. apply app_inj_1 in Hd' as [-> Hw]; [|done]. apply app_inv_head in Hw. by subst w'.
Qed.

Lemma client_request_sent req rl s : client_starts limit req rl s ->
  runs http_client_write_request s (fun r s' => cready limit [] s' /\ fb_input s' = fb_input s
    /\ (Forall (fun n => n = -1 \/ 0 < n) (fb_accepts s) -> Z.of_nat (length req) - rl <= accepted (fb_accepts s) ->
        r = inr tt /\ fb_sent s' = fb_sent s ++ drop (Z.to_nat rl) req)).
Proof.
  intros [Hreq Hrl Hresp Hin Hfit]. eapply runs_mono; [apply (http_client_write_request_runs req rl s Hreq Hrl)|].
  intros r s' (Hi & Hctx & Hsent). split; [|done]. split; [|by rewrite Hi|by rewrite Hi].
  unfold buffer_of. cbn [fld_get client_response_field]. rewrite Hctx. eapply rq_world. exact Hresp.
Qed.

(** A well-formed response, up to its content. *)
Lemma main_content req rl s head body : client_starts limit req rl s -> stays_open (fb_input s) ->
  Forall (fun n => n = -1 \/ 0 < n) (fb_accepts s) -> Z.of_nat (length req) - rl <= accepted (fb_accepts s) ->
  bytes_of (fb_input s) = head ++ CRLFCRLF ++ body -> response_head head ->
  exists w res s1 s', http_client_fiber_main o stale s
      = (http_client_read_body o stale (status_code head) (content_ofs head) res;; finish_response (status_code head) (content_ofs head)) s'
    /\ at_content head w res s1 s' /\ fb_input s1 = fb_input s /\ fb_sent s1 = fb_sent s ++ drop (Z.to_nat rl) req /\ body = w ++ bytes_of (fb_input s').
Proof.
  intros Hs Ho Hacc Hsum Hb Hh. destruct (client_request_sent req rl s Hs) as (r & s1 & E1 & Hr1 & Hi1 & Hsent). destruct (Hsent Hacc Hsum) as [-> Hsn].
  unfold http_client_fiber_main. rewrite (fb_bind_eval _ _ _ _ _ E1).
  destruct (read_headers_content s1 Hr1) as [(e & s' & E & Hno)|(head' & w & res & s' & E & Hac & Huniq)]; rewrite Hi1 in *.
  - by destruct (Hno Ho head body).
  - destruct (Huniq head body Hb Hh) as [<- Hbody]. rewrite (fb_bind_eval _ _ _ _ _ E). exists w, res, s1, s'. done.
Qed.

(** The result, once the content is known. *)
Lemma main_finishes head body w res s1 s2 d s3 : at_content head w res s1 s2 ->
  http_client_read_body o stale (status_code head) (content_ofs head) res s2 = Some (inr tt, s3) ->
  received client_response_field d s2 s3 -> contains (cut head ++ body) (response_of s3) -> (length body <= length (w ++ bytes_of (fb_input s2)))%nat ->
  exists s', (http_client_read_body o stale (status_code head) (content_ofs head) res;; finish_response (status_code head) (content_ofs head)) s2
      = Some (inl (if keeps_connection head then Idle else Closed), s') /\ response_is head body s' /\ fb_sent s' = fb_sent s1.
Proof.
  intros [Hr _ Hp Hsn _ _ _] E Hrc Hc Hlen. rewrite (fb_bind_eval _ _ _ _ _ E). unfold cut in Hc. rewrite <- app_assoc in Hc.
  destruct (finish_response_eval head body s3 Hc) as (s' & E' & Hri & Hs').
  - pose proof (cr_fits _ _ _ Hr) as Hf. pose proof (length_cut head) as Hcut. unfold content_ofs in Hcut. unfold VMBUF_HEADER in Hf.
    rewrite !length_app in Hf. rewrite length_app in Hlen. rewrite !length_app. lia.
  - exists s'. destruct (rc_ctx _ _ _ _ Hrc) as [v Hv]. rewrite Hv in E'. cbn [cc_persistent fld_set client_response_field cc_with_response] in E'.
    rewrite Hp in E'. split; [exact E'|]. split; [done|]. by rewrite Hs', (rc_sent _ _ _ _ Hrc), Hsn.
Qed.
Lemma sized_response_runs req rl s head body i : client_starts limit req rl s -> stays_open (fb_input s) ->
  Forall (fun n => n = -1 \/ 0 < n) (fb_accepts s) -> Z.of_nat (length req) - rl <= accepted (fb_accepts s) ->
  bytes_of (fb_input s) = head ++ CRLFCRLF ++ body -> response_head head -> status_code head <> 204 /\ status_code head <> 304 ->
  strstr CONTENT_LENGTH head = Some i -> strtol 0 (drop (i + length CONTENT_LENGTH) head) = Some (Z.of_nat (length body)) ->
  exists s', http_client_fiber_main o stale s = Some (inl (if keeps_connection head then Idle else Closed), s')
    /\ response_is head body s' /\ fb_sent s' = fb_sent s ++ drop (Z.to_nat rl) req.
Proof.
  intros Hstarts Hopen Hacc Hsum Hbytes Hhead Hcode Hlength Hlen.
  destruct (main_content req rl s head body Hstarts Hopen Hacc Hsum Hbytes Hhead) as (w & res & s1 & s2 & E & Hac & Hi1 & Hsn & Hbody).
  destruct Hcode as [H204 H304]. pose proof Hac as [Hr H0 _ _ _ Ho _]. rewrite Hi1 in Ho. destruct (Ho Hopen) as [Ho2 Hpos].
  destruct (read_body_sized head body w s2 (status_code head) res i) as (d & s3 & E3 & Hrc & Hc); try done.
  destruct (main_finishes head body w res s1 s2 d s3 Hac E3 Hrc Hc) as (s' & E' & Hri & Hs'); [by rewrite Hbody|].
  exists s'. rewrite E. split; [done|]. split; [done|]. by rewrite Hs'.
Qed.
End Run.

(** A response with a content length, in any pieces, is the result of the request: its content
    with a terminator behind it, the length, the status, and its headers as the server sent them.
    The request is sent whole, in order and once, however little the socket accepts per call, and
    the connection is kept exactly if the version and the headers of the response say so. *)
Theorem http_client_sized_response `{address_space} (o : os) (stale : Z -> Z -> Z) (limit : Z) (req : list Z) (rl : Z) (s : cl) (head body : list Z) (i : nat)
  (Hlimit : 4096 <= limit <= 2 ^ 32) (Hgrow : can_grow_to o (limit + 4096)) (Hstarts : client_starts limit req rl s) (Hopen : stays_open (fb_input s))
  (Hacc : Forall (fun n => n = -1 \/ 0 < n) (fb_accepts s)) (Hsum : Z.of_nat (length req) - rl <= accepted (fb_accepts s))
  (Hbytes : bytes_of (fb_input s) = head ++ CRLFCRLF ++ body) (Hhead : response_head head) (Hcode : status_code head <> 204 /\ status_code head <> 304)
  (Hlength : strstr CONTENT_LENGTH head = Some i) (Hlen : strtol 0 (drop (i + length CONTENT_LENGTH) head) = Some (Z.of_nat (length body))) :
  exists s', http_client_fiber_main o stale s = Some (inl (if keeps_connection head then Idle else Closed), s')
    /\ response_is head body s' /\ fb_sent s' = fb_sent s ++ drop (Z.to_nat rl) req.
Proof. by eapply sized_response_runs. Qed.

(** C7: a response in chunks is decoded: whatever the pieces it arrives in, as long as none of them
    ends in a CR, the content is the data of the chunks, one after the other, and its length is
    theirs together; the size lines, with their extensions, and the trailer are gone. *)
Theorem http_client_chunked_response `{address_space} (o : os) (stale : Z -> Z -> Z) (limit : Z) (req : list Z) (rl : Z) (s : cl) (head : list Z)
  (chunks : list (list Z * list Z)) (last trailer : list Z) (i : nat)
  (Hlimit : 4096 <= limit <= 2 ^ 32) (Hgrow : can_grow_to o (limit + 4096)) (Hstarts : client_starts limit req rl s) (Hopen : stays_open (fb_input s))
  (Hacc : Forall (fun n => n = -1 \/ 0 < n) (fb_accepts s)) (Hsum : Z.of_nat (length req) - rl <= accepted (fb_accepts s))
  (Hclean : no_cr_end (fb_input s)) (Hbytes : bytes_of (fb_input s) = head ++ CRLFCRLF ++ encode_chunks chunks last trailer) (Hhead : response_head head)
  (Hcode : status_code head <> 204 /\ status_code head <> 304) (Hnone : strstr CONTENT_LENGTH head = None) (Hte : strstr TRANSFER_ENCODING head = Some i)
  (Hchunked : starts_with (str "chunked") (drop (i + length TRANSFER_ENCODING) head) = true) (Hchunks : Forall chunk_ok chunks) (Hlast : chunk_line last 0) :
  exists s', http_client_fiber_main o stale s = Some (inl (if keeps_connection head then Idle else Closed), s')
    /\ response_is head (concat (snd <$> chunks)) s' /\ fb_sent s' = fb_sent s ++ drop (Z.to_nat rl) req.
Proof.
  destruct (main_content o stale limit Hlimit Hgrow req rl s head _ Hstarts Hopen Hacc Hsum Hbytes Hhead) as (w & res & s1 & s2 & E & Hac & Hi1 & Hsn & Hbody).
  destruct Hcode as [H204 H304]. pose proof Hac as [Hr H0 _ _ _ Ho Hcl]. rewrite Hi1 in Ho, Hcl. destruct (Ho Hopen) as [Ho2 Hpos]. destruct (Hcl Hclean) as [Hcl2 Hw].
  destruct (read_body_chunked o stale limit Hlimit Hgrow head w s2 (status_code head) res i chunks last trailer) as (d & s3 & E3 & Hrc & Hc); try done.
  destruct (main_finishes o stale limit Hlimit head (concat (snd <$> chunks)) w res s1 s2 d s3 Hac E3 Hrc Hc) as (s' & E' & Hri & Hs').
  - rewrite <- Hbody. unfold encode_chunks. rewrite (length_app (concat _)). apply Nat.le_trans with (length (concat (encode_chunk <$> chunks))); [|lia].
    clear. induction chunks as [|[l c] chunks IH]; [done|]. rewrite !fmap_cons. cbn [concat snd]. unfold encode_chunk at 1. cbn [fst snd]. rewrite !length_app. lia.
  - exists s'. rewrite E. split; [done|]. split; [done|]. by rewrite Hs'.
Qed.

(** C8: whatever the server sends, and whenever it stops or closes, the fiber of a request ends, and
    every access it makes is inside of its buffers: malformed headers, sizes and chunks included. *)
Theorem http_client_fiber_safe `{address_space} (o : os) (stale : Z -> Z -> Z) (limit : Z) (req : list Z) (rl : Z) (s : cl)
  (Hlimit : 4096 <= limit <= 2 ^ 32) (Hgrow : can_grow_to o (limit + 4096)) (Hstarts : client_starts limit req rl s) :
  exists e s', http_client_fiber_main o stale s = Some (inl e, s').
Proof.
  unfold http_client_fiber_main. destruct (client_request_sent limit req rl s Hstarts) as ([e|[]] & s1 & E1 & Hr1 & _ & _); [exists e, s1; by rewrite (fb_bind_exit _ _ _ _ _ E1)|].
  rewrite (fb_bind_eval _ _ _ _ _ E1).
  destruct (read_headers_content o stale limit Hlimit Hgrow s1 Hr1) as [(e & s2 & E & _)|(head & w & res & s2 & E & Hac & _)]; [exists e, s2; by rewrite (fb_bind_exit _ _ _ _ _ E)|].
  rewrite (fb_bind_eval _ _ _ _ _ E).
  destruct (http_client_read_body_safe o stale limit Hlimit Hgrow head w s2 (status_code head) res (ac_ready _ _ _ _ _ _ Hac) (ac_zero _ _ _ _ _ _ Hac)) as ([e|[]] & s3 & E3 & H3);
    [exists e, s3; by rewrite (fb_bind_exit _ _ _ _ _ E3)|].
  destruct H3 as (d & c & Hrc & Hc & Hl). destruct (main_finishes o stale limit Hlimit head c w res s1 s2 d s3 Hac E3 Hrc Hc Hl) as (s' & E' & _). by eexists _, s'.
Qed.
