(* ===== verification/ClientPool.v ===== *)
(** * ClientPool: the connections of HTTP clients ([include/http_client_pool.h], [src/http_client_pool.c])

    A client gets a context from the pool and a connection to its server.  When it is freed, a
    connection that the server keeps open is put on the list of idle connections of its key
    (address, port and host name), where the next client with that key finds it.  The lists are
    linked through [client_chains], an array by descriptor; their heads are elements of
    [client_heads], found through a hash table.  An idle connection waits on the timeout chain
    of persistent connections, and is closed on any event but [EPOLLOUT].

    The state has the lists ([Dlist.v]), the hash table (behind [StringTable]), the pool of
    contexts ([CtxPool.v]), the two timeout chains ([TimeoutHandler.v]) with the time stamps and
    contexts of [epoll_worker_fd_map], and which descriptors are open.  What a client does with
    its connection is in [HttpClient.v]. *)

From stdpp Require Import base numbers list gmap.
From Stdlib Require Import ZArith Lia.
From S2P Require Import Prelude Words Bytes Os Vmallocator Hashtable StringTable Mempool Memalloc Vmbuf Dlist CtxPool TimeoutHandler Connection HttpClient.

Definition EPOLLOUT : Z := 4.
Definition CLIENT_STACK_SIZE : Z := 65536.
Definition sizeof_list : Z := 16.

Record http_client_key := HttpClientKey { key_addr : Z; key_port : Z; key_hostname_hash : Z }.

(** The bytes of the packed key, and of the index of a head. *)
Definition bytes_le (n v : Z) : list Z := (fun i => Z.shiftr v (8 * i) mod 2 ^ 8) <$> seqZ 0 n.
Definition key_bytes (k : http_client_key) : list Z := bytes_le 4 (key_addr k) ++ bytes_le 2 (key_port k) ++ bytes_le 4 (key_hostname_hash k).

(** The reserved part of a context. *)
Record client := Client { cl_fd : Z; cl_key : http_client_key; cl_http : http_client_context }.

(** Where the two arrays and the list of free heads are, and the number of descriptors a
    process can have, which is the size of the arrays. *)
Class client_layout := {
  client_chains : Z;
  client_heads : Z;
  free_list : Z;
  rlim_cur : Z;
}.

(** A chain of a [timeout_handler], and how its timer was armed last. *)
Record wait_chain := WaitChain { wc_timeout : Z; wc_fds : list Z; wc_timer : option timespec }.

Record pool_world (T : Type) := PoolWorld {
  pw_lists : store;                        (* the nodes of client_chains, client_heads and free_list *)
  ht_persistent_clients : T;
  pw_ctx_pool : ctx_world;
  pw_clients : gmap Z client;              (* by the address of the context *)
  pw_memory : world;                       (* of the buffers of clients *)
  pw_timeout : wait_chain;                 (* pool->timeout_handler *)
  pw_timeout_persistent : wait_chain;      (* pool->timeout_handler_persistent *)
  pw_timestamp : gmap Z timeval;           (* epoll_worker_fd_map[fd].timestamp *)
  pw_fd_ctx : gmap Z Z;                    (* epoll_worker_fd_map[fd].ctx *)
  pw_open : gmap Z http_client_key;        (* open descriptors, and whom they were opened for *)
  pw_now : timeval;                        (* gettimeofday *)
}.
Arguments PoolWorld {T}.
Arguments pw_lists {T}. Arguments ht_persistent_clients {T}. Arguments pw_ctx_pool {T}. Arguments pw_clients {T}. Arguments pw_memory {T}.
Arguments pw_timeout {T}. Arguments pw_timeout_persistent {T}. Arguments pw_timestamp {T}. Arguments pw_fd_ctx {T}. Arguments pw_open {T}. Arguments pw_now {T}.

(** What the kernel answers when a connection is made. *)
Record sockets := Sockets { sys_socket : Z; sys_reuseaddr : bool; sys_nodelay : bool; sys_connect : bool; sys_epoll_add : bool }.

Section Ops.
Context `{StringTable T, address_space, client_layout} (o : os) (stale : Z -> Z -> Z).
Context (sizeof_ribs_context event_loop_ctx idle_ctx current_ctx : Z).
Local Notation P := (ST (pool_world T)).

(** *** The parts of the state *)
Definition pw_self : P (pool_world T) := fun w => Some (w, w).
Definition on_lists {A} (f : store -> store * A) : P A := fun w =>
  let (s, x) := f (pw_lists w) in
  Some (x, PoolWorld s (ht_persistent_clients w) (pw_ctx_pool w) (pw_clients w) (pw_memory w) (pw_timeout w) (pw_timeout_persistent w) (pw_timestamp w) (pw_fd_ctx w) (pw_open w) (pw_now w)).
Definition set_table (t : T) : P unit := fun w =>
  Some (tt, PoolWorld (pw_lists w) t (pw_ctx_pool w) (pw_clients w) (pw_memory w) (pw_timeout w) (pw_timeout_persistent w) (pw_timestamp w) (pw_fd_ctx w) (pw_open w) (pw_now w)).
Definition on_ctx_pool {A} (m : CP A) : P A := fun w =>
  match m (pw_ctx_pool w) with
  | Some (x, c) => Some (x, PoolWorld (pw_lists w) (ht_persistent_clients w) c (pw_clients w) (pw_memory w) (pw_timeout w) (pw_timeout_persistent w) (pw_timestamp w) (pw_fd_ctx w) (pw_open w) (pw_now w))
  | None => None
  end.
Definition set_client (ctx : Z) (c : client) : P unit := fun w =>
  Some (tt, PoolWorld (pw_lists w) (ht_persistent_clients w) (pw_ctx_pool w) (<[ctx := c]> (pw_clients w)) (pw_memory w) (pw_timeout w) (pw_timeout_persistent w) (pw_timestamp w) (pw_fd_ctx w) (pw_open w) (pw_now w)).
Definition set_memory (m : world) : P unit := fun w =>
  Some (tt, PoolWorld (pw_lists w) (ht_persistent_clients w) (pw_ctx_pool w) (pw_clients w) m (pw_timeout w) (pw_timeout_persistent w) (pw_timestamp w) (pw_fd_ctx w) (pw_open w) (pw_now w)).
Definition set_waiting (wait idle : wait_chain) (stamps : gmap Z timeval) : P unit := fun w =>
  Some (tt, PoolWorld (pw_lists w) (ht_persistent_clients w) (pw_ctx_pool w) (pw_clients w) (pw_memory w) wait idle stamps (pw_fd_ctx w) (pw_open w) (pw_now w)).
Definition epoll_worker_set_fd_ctx (fd ctx : Z) : P unit := fun w =>
  Some (tt, PoolWorld (pw_lists w) (ht_persistent_clients w) (pw_ctx_pool w) (pw_clients w) (pw_memory w) (pw_timeout w) (pw_timeout_persistent w) (pw_timestamp w) (<[fd := ctx]> (pw_fd_ctx w)) (pw_open w) (pw_now w)).
Definition set_open (m : gmap Z http_client_key) : P unit := fun w =>
  Some (tt, PoolWorld (pw_lists w) (ht_persistent_clients w) (pw_ctx_pool w) (pw_clients w) (pw_memory w) (pw_timeout w) (pw_timeout_persistent w) (pw_timestamp w) (pw_fd_ctx w) m (pw_now w)).

(** The memory of a context that was never used is zero. *)
Definition client_zero : client := Client 0 (HttpClientKey 0 0 0) (HttpClientContext VMBUF_INITIALIZER VMBUF_INITIALIZER None 0 0 false).
Definition client_at (ctx : Z) : P client := w ← pw_self; mret (default client_zero (pw_clients w !! ctx)).

(** [client_chains + fd]; outside of the array it is an error. *)
Definition chain_of (fd : Z) : Z := client_chains + sizeof_list * fd.
Definition head_of (h : Z) : Z := client_heads + sizeof_list * h.
Definition client_chain (fd : Z) : P Z := if (0 <=? fd) && (fd <? rlim_cur) then mret (chain_of fd) else crash.

(** *** Timeouts and events *)
Definition chain_handler (c : wait_chain) (stamps : gmap Z timeval) : timeout_handler := TimeoutHandler (wc_timeout c) (wc_fds c) stamps.

Definition add_to_chain (c : wait_chain) (stamps : gmap Z timeval) (now : timeval) (fd : Z) : wait_chain * gmap Z timeval :=
  let (th, arm) := timeout_handler_add_fd_data (chain_handler c stamps) now fd in
  (WaitChain (wc_timeout c) (timeout_chain th) (match arm with Some a => Some a | None => wc_timer c end), timestamps th).
Definition add_timeout (fd : Z) : P unit := w ← pw_self;
  let (c, stamps) := add_to_chain (pw_timeout w) (pw_timestamp w) (pw_now w) fd in set_waiting c (pw_timeout_persistent w) stamps.
Definition add_timeout_persistent (fd : Z) : P unit := w ← pw_self;
  let (c, stamps) := add_to_chain (pw_timeout_persistent w) (pw_timestamp w) (pw_now w) fd in set_waiting (pw_timeout w) c stamps.

Definition chain_without (c : wait_chain) (fd : Z) : wait_chain :=
  WaitChain (wc_timeout c) (timeout_chain (TIMEOUT_HANDLER_REMOVE_FD_DATA (chain_handler c ∅) fd)) (wc_timer c).
(** [TIMEOUT_HANDLER_REMOVE_FD_DATA]: from the chain it is on; unlinking a node that is on
    none would follow stale pointers. *)
Definition remove_fd_data (fd : Z) : P unit := w ← pw_self;
  if bool_decide (fd ∈ wc_fds (pw_timeout w) ++ wc_fds (pw_timeout_persistent w))
  then set_waiting (chain_without (pw_timeout w) fd) (chain_without (pw_timeout_persistent w) fd) (pw_timestamp w) else crash.

(** An expiration of the timer of persistent connections; the descriptors are shut down. *)
Definition expire_persistent : P (list Z) := w ← pw_self;
  let '(th, shut, arm) := expiration_handler (chain_handler (pw_timeout_persistent w) (pw_timestamp w)) (pw_now w) in
  set_waiting (pw_timeout w) (WaitChain (wc_timeout (pw_timeout_persistent w)) (timeout_chain th) arm) (timestamps th);; mret shut.

(** Likewise for the timer of the connections in use. *)
Definition expire_timeout : P (list Z) := w ← pw_self;
  let '(th, shut, arm) := expiration_handler (chain_handler (pw_timeout w) (pw_timestamp w)) (pw_now w) in
  set_waiting (WaitChain (wc_timeout (pw_timeout w)) (timeout_chain th) arm) (pw_timeout_persistent w) (timestamps th);; mret shut.

Definition ribs_close (fd : Z) : P unit :=
  epoll_worker_set_fd_ctx fd event_loop_ctx;; w ← pw_self; set_open (delete fd (pw_open w)).

(** *** Freeing a client *)

(** The head of the list of idle connections with a key; [None] if there is none to be had. *)
Definition persistent_head (key : http_client_key) (fd : Z) : P (option Z) := w ← pw_self;
  match st_lookup (ht_persistent_clients w) (key_bytes key) with
  | None => crash
  | Some ofs =>
      if ofs =? 0 then
        if list_empty (pw_lists w) free_list then ribs_close fd;; mret None
        else
          head ← on_lists (fun s => list_pop_head s free_list);
          let h := u32 ((head - client_heads) / sizeof_list) in
          match st_insert (ht_persistent_clients w) (key_bytes key) (bytes_le 4 h) with
          | None => crash
          | Some (t, _) => set_table t;; on_lists (fun s => (list_init s head, tt));; mret (Some head)
          end
      else mret (Some (head_of (le64 (st_get_val (ht_persistent_clients w) ofs))))
  end.

Definition http_client_free (cctx : Z) : P unit :=
  c ← client_at cctx;
  if cc_persistent (cl_http c) then
    let fd := cl_fd c in
    epoll_worker_set_fd_ctx fd idle_ctx;;
    head ← persistent_head (cl_key c) fd;
    match head with
    | None => mret tt
    | Some head =>
        node ← client_chain fd;
        on_lists (fun s => (list_insert_tail s head node, tt));;
        add_timeout_persistent fd;;
        on_ctx_pool (ctx_pool_put cctx)
    end
  else on_ctx_pool (ctx_pool_put cctx).

Definition http_client_close_free (cctx : Z) : P unit :=
  c ← client_at cctx;
  set_client cctx (Client (cl_fd c) (cl_key c) (cc_with_persistent (cl_http c) false));;
  ribs_close (cl_fd c);;
  http_client_free cctx.

(** A round of the handler of idle connections. *)
Definition http_client_idle_handler (events fd : Z) : P unit :=
  if events =? EPOLLOUT then mret tt
  else
    node ← client_chain fd;
    on_lists (fun s => (list_remove s node, tt));;
    ribs_close fd;;
    remove_fd_data fd.

(** *** Making a client *)

(** An idle connection with the key that was not shut down. *)
Definition find_idle (key : http_client_key) : P (option Z) := w ← pw_self;
  match st_lookup (ht_persistent_clients w) (key_bytes key) with
  | None => crash
  | Some ofs =>
      let head := head_of (le64 (st_get_val (ht_persistent_clients w) ofs)) in
      if negb (ofs =? 0) && negb (list_empty (pw_lists w) head) then
        client ← on_lists (fun s => list_pop_tail s head);
        let cfd := (client - client_chains) / sizeof_list in
        if timer_ne (default epoch (pw_timestamp w !! cfd)) epoch then remove_fd_data cfd;; mret (Some cfd)
        else on_lists (fun s => (list_insert_tail s head client, tt));; mret None
      else mret None
  end.

(** A new connection; negative if a call fails. *)
Definition open_connection (key : http_client_key) (net : sockets) : P Z :=
  let cfd := sys_socket net in
  if cfd <? 0 then mret (-1)
  else
    w ← pw_self;
    set_open (<[cfd := key]> (pw_open w));;
    if negb (sys_reuseaddr net && sys_nodelay net && sys_connect net && sys_epoll_add net) then ribs_close cfd;; mret (-1)
    else epoll_worker_set_fd_ctx cfd event_loop_ctx;; mret cfd.

(** Everything from [ctx_pool_get] on.  A pool without contexts is an error: the code uses the
    context without a check.  [func] is absent for [http_client_get_file], which waits itself. *)
Definition start_client (key : http_client_key) (cfd : Z) (rctx : option Z) (func : bool) : P Z :=
  new_ctx ← on_ctx_pool (ctx_pool_get sizeof_ribs_context);
  if new_ctx =? 0 then crash
  else
    epoll_worker_set_fd_ctx cfd new_ctx;;
    (if func then mret tt else epoll_worker_set_fd_ctx cfd (default current_ctx rctx));;
    c ← client_at new_ctx;
    w ← pw_self;
    match init_client o stale (Fiber (pw_memory w) (cl_http c) [] [] []) with
    | Some (_, s) => set_memory (fb_world s);; set_client new_ctx (Client cfd key (fb_ctx s));; add_timeout cfd;; mret new_ctx
    | None => crash
    end.

(** The context of the client; 0 is NULL. *)
Definition _http_client_pool_create_client (net : sockets) (addr port : Z) (hostname : option (list Z)) (rctx : option Z) (func : bool) : P Z :=
  let hostname_hash := match hostname with Some h => hashcode h | None => 0 end in
  let key := HttpClientKey addr port hostname_hash in
  idle ← find_idle key;
  match idle with
  | Some cfd => start_client key cfd rctx func
  | None =>
      cfd ← open_connection key net;
      if cfd <? 0 then mret 0 else start_client key cfd rctx func
  end.

Definition http_client_pool_create_client2 (net : sockets) (addr port : Z) (hostname : list Z) (rctx : option Z) : P Z :=
  _http_client_pool_create_client net addr port (Some hostname) rctx true.
Definition http_client_pool_create_client (net : sockets) (addr port : Z) (rctx : option Z) : P Z :=
  _http_client_pool_create_client net addr port None rctx true.

(** *** What a client does with its connection *)

(** The two halves of [http_client_yield]; the first thing the fiber does is the second. *)
Definition fiber_waits (cctx : Z) : P unit := c ← client_at cctx; add_timeout (cl_fd c).
Definition fiber_resumes (cctx : Z) : P unit := c ← client_at cctx; remove_fd_data (cl_fd c).

(** The end of a fiber, with what it has made of its context: a connection that is not
    persistent is closed. *)
Definition fiber_ends (cctx : Z) (http : http_client_context) : P unit :=
  c ← client_at cctx;
  set_client cctx (Client (cl_fd c) (cl_key c) http);;
  if cc_persistent http then mret tt else ribs_close (cl_fd c).
End Ops.

(** *** Setting up *)

Fixpoint link_heads (n : nat) (s : store) (free_list tmp : Z) : store :=
  match n with
  | O => s
  | S n => link_heads n (list_insert_tail s free_list tmp) free_list (tmp + sizeof_list)
  end.

(** The part of [http_client_pool_init] that all pools share, when it runs for the first time. *)
Definition init_clients `{client_layout} (o : os) : option (store * hashtable) :=
  let s := link_heads (Z.to_nat rlim_cur) (list_init ∅ free_list) free_list client_heads in
  match hashtable_init o HASHTABLE_INITIALIZER rlim_cur with
  | Some (ht, _) => Some (s, ht)
  | None => None
  end.

(** Which of the calls that [http_client_pool_init] makes succeed. *)
Record init_calls := InitCalls {
  getrlimit_ok : bool;
  client_chains_ok : bool;             (* the two [calloc]s *)
  client_heads_ok : bool;
  timeout_handler_ok : bool;           (* the two [timeout_handler_init]s *)
  timeout_handler_persistent_ok : bool;
}.

(** [http_client_pool_init] of the first pool, with the sizes of the two structures and the
    timeouts that were set before.  The inner [None] is the result -1. *)
Definition http_client_pool_init `{address_space, client_layout} (o : os) (calls : init_calls) (sizeof_ribs_context sizeof_client : Z) (initial grow timeout timeout_persistent : Z)
    (cw : ctx_world) (mem : world) (now : timeval) : option (option (pool_world hashtable)) :=
  '(r, cw) ← ctx_pool_init sizeof_ribs_context initial grow CLIENT_STACK_SIZE sizeof_client cw;
  if r <? 0 then Some None
  else if negb (getrlimit_ok calls) then Some None
  else if negb (client_chains_ok calls) then Some None
  else if negb (client_heads_ok calls) then Some None
  else
    '(s, ht) ← init_clients o;
    if negb (timeout_handler_ok calls) || negb (timeout_handler_persistent_ok calls) then Some None else
    let none t := WaitChain t (timeout_chain (timeout_handler_init t)) None in
    Some (Some (PoolWorld s ht cw ∅ mem (none timeout) (none timeout_persistent) ∅ ∅ ∅ now)).
