(* ===== verification/HttpExchange.v ===== *)
(** * HttpExchange: client and server together

    The requests the client builds, and a whole exchange: the bytes of the client's request given
    to the server, and the bytes of its answer given back to the client. *)

From Stdlib Require Import String.
From stdpp Require Import base numbers functions list gmap.
From Stdlib Require Import ZArith Lia.
From S2P Require Import Prelude Words Os Mempool Memalloc Vmbuf VmbufFacts Cstring HttpText Connection.
From S2P Require Import HttpServer HttpServerFacts HttpFiberFacts HttpServerRun HttpServerRequests HttpClient HttpClientFacts HttpClientBody HttpClientRun.

(** ** Requests *)
Definition header_lines (headers : list (list Z)) : list Z := concat ((fun h => CRLF ++ h) <$> headers).
Definition get_headers (hostname : list Z) (headers : list (list Z)) : list Z := str "Host: " ++ hostname ++ header_lines headers.
Definition get_head (target hostname : list Z) (headers : list (list Z)) : list Z :=
  request_head (str "GET") target (str "HTTP/1.1") (get_headers hostname headers).

Section Build.
Context `{address_space} (o : os) (stale : Z -> Z -> Z) (limit : Z) (Hlimit : 4096 <= limit <= 2 ^ 32) (Hgrow : can_grow_to o (limit + 4096)).

Local Instance client_grows : Growable o stale _mem_funcs_anon_buf (fun _ => True) limit := anon_growable o stale limit (proj2 (limit_fits limit Hlimit)) Hgrow.

(** [c] has been written into the request, nothing else has happened. *)
Record building (c : list Z) (s0 s : cl) : Prop := {
  bd_request : anon_buf c 0 (client_request_of s);
  bd_response : contains [] (response_of s);
  bd_input : fb_input s = fb_input s0;
  bd_accepts : fb_accepts s = fb_accepts s0;
  bd_sent : fb_sent s = fb_sent s0;
}.

Lemma building_put c c' s0 s st : building c s0 s -> anon_buf c' 0 st -> building c' s0 (put_buffer client_request_field s st).
Proof.
  intros [_ Hr Hi Ha Hs] Hst. split; [by rewrite (buffer_of_put client_request_field)| |done|done|done]. eapply rq_world. exact Hr.
Qed.

Definition request_fits (c : list Z) : Prop := 2 * Z.of_nat (length c) + VMBUF_HEADER <= limit.
Lemma request_fits_prefix c t : request_fits (c ++ t) -> request_fits c.
Proof. unfold request_fits. rewrite length_app. lia. Qed.

Lemma request_strcpy_builds c t s0 s : building c s0 s -> request_fits (c ++ t) -> exists s', request_strcpy o stale t s = Some (inr tt, s') /\ building (c ++ t) s0 s'.
Proof.
  intros Hb Hf. destruct (strcpy_eval o stale _ _ limit (proj2 (limit_fits limit Hlimit)) c 0 (client_request_of s) t (bd_request _ _ _ Hb) Hf) as (st & E & Hst).
  unfold request_strcpy, on_client_request. rewrite (fb_bind_eval _ _ _ _ _ (on_buffer_eval client_request_field _ _ _ _ E)). eexists. split; [reflexivity|].
  by apply (building_put c).
Qed.

Lemma request_sprintf_builds c t s0 s : building c s0 s -> request_fits (c ++ t) -> exists s', request_sprintf o stale (Some t) s = Some (inr tt, s') /\ building (c ++ t) s0 s'.
Proof.
  intros Hb Hf. destruct (sprintf_eval o stale _ _ limit (proj2 (limit_fits limit Hlimit)) c 0 (client_request_of s) t (bd_request _ _ _ Hb)) as (st & E & Hst); [|done|].
  { unfold request_fits, VMBUF_HEADER in Hf. rewrite length_app in Hf. unfold INT_MAX. lia. }
  unfold request_sprintf, on_client_request. rewrite (fb_bind_eval _ _ _ _ _ (on_buffer_eval client_request_field _ _ _ _ E)). eexists. split; [reflexivity|].
  by apply (building_put c).
Qed.

Lemma request_memcpy_builds c t s0 s : building c s0 s -> request_fits (c ++ t) -> exists s', request_memcpy o stale t s = Some (inr tt, s') /\ building (c ++ t) s0 s'.
Proof.
  intros Hb Hf. destruct (memcpy_eval o stale _ _ limit (proj2 (limit_fits limit Hlimit)) c 0 (client_request_of s) t (bd_request _ _ _ Hb) Hf) as (st & E & Hst).
  unfold request_memcpy, on_client_request. rewrite (fb_bind_eval _ _ _ _ _ (on_buffer_eval client_request_field _ _ _ _ E)). eexists. split; [reflexivity|].
  by apply (building_put c).
Qed.

Lemma add_request_headers_builds headers : forall c s0 s, building c s0 s -> request_fits (c ++ header_lines headers) ->
  exists s', add_request_headers o stale headers s = Some (inr tt, s') /\ building (c ++ header_lines headers) s0 s'.
Proof.
  induction headers as [|h headers IH]; intros c s0 s Hb Hf; [exists s; unfold header_lines in *; cbn in *; by rewrite app_nil_r|].
  assert (E : c ++ header_lines (h :: headers) = ((c ++ CRLF) ++ h) ++ header_lines headers) by (unfold header_lines; rewrite fmap_cons; cbn [concat]; by rewrite <- !app_assoc).
  rewrite E in *. pose proof (request_fits_prefix _ _ Hf) as Hf2. pose proof (request_fits_prefix _ _ Hf2) as Hf1.
  cbn [add_request_headers]. destruct (request_strcpy_builds c CRLF s0 s Hb Hf1) as (s1 & E1 & Hb1). rewrite (fb_bind_eval _ _ _ _ _ E1).
  destruct (request_strcpy_builds _ h s0 s1 Hb1 Hf2) as (s2 & E2 & Hb2). rewrite (fb_bind_eval _ _ _ _ _ E2). by apply IH.
Qed.

(** The buffers are new, or were used before. *)
Definition client_ready (s : cl) : Prop := startable o 4096 (client_request_of s) /\ startable o 4096 (response_of s).

Lemma init_client_builds s : client_ready s -> exists s', init_client o stale s = Some (inr tt, s') /\ building [] s s'.
Proof.
  intros [Hq Hp]. destruct (startable_init o stale 4096 _ Hq) as (r1 & st1 & E1 & H1). unfold init_client, on_client_request.
  rewrite (fb_bind_eval _ _ _ _ _ (on_buffer_eval client_request_field _ _ _ _ E1)). set (s1 := put_buffer client_request_field s st1).
  destruct (startable_eval o stale 4096 (response_of s1)) as (r2 & st2 & E2 & H2); [by eapply startable_world|].
  unfold on_response. rewrite (fb_bind_eval _ _ _ _ _ (on_buffer_eval client_response_field _ _ _ _ E2)). eexists. split; [reflexivity|].
  split; [|by destruct st2|done|done|done]. destruct st1, st2. eapply vbuf_world. exact H1.
Qed.

(** The first write. *)
Lemma send_request_eval accepts c s0 s : building c s0 s -> input_ok (fb_input s0) -> 2 * Z.of_nat (length (bytes_of (fb_input s0))) + VMBUF_HEADER <= limit ->
  Forall (fun n => n = -1 \/ 0 < n) accepts ->
  exists r rl s', http_client_send_request accepts s = Some (inr r, s') /\ 0 <= r /\ client_starts limit c rl s'
    /\ fb_input s' = fb_input s0 /\ fb_accepts s' = fb_accepts s0 /\ fb_sent s' = fb_sent s0 ++ take (Z.to_nat rl) c.
Proof.
  intros [Hq Hp Hi Ha Hs] Hin Hfit Hacc. unfold http_client_send_request, on_client_request.
  destruct (write_eval _ _ accepts c 0 _ Hq ltac:(lia)) as (st & r & out & E & Ho & Hst & _ & Ht).
  rewrite (fb_bind_eval _ _ _ _ _ (on_buffer_eval client_request_field _ _ _ _ E)). unfold sent_first. cbn [fst snd].
  assert (Hr : 0 <= r) by (destruct (Ht Hacc) as [->|[-> _]]; done). rewrite (proj2 (Z.ltb_ge r 0)) by done.
  pose proof (f_equal length Ho) as Hl. rewrite length_app, !length_drop in Hl. cbn [Z.to_nat Nat.add] in *.
  eexists r, (Z.of_nat (length out)), _. split; [reflexivity|]. split; [done|]. split; [|split; [done|]; split; [done|]].
  - split; cbn [fb_input put_buffer]; [destruct st; exact Hst|lia|eapply rq_world; exact Hp|by rewrite Hi|by rewrite Hi].
  - cbn [fb_sent put_buffer]. rewrite Hs, Nat2Z.id. f_equal. rewrite drop_0 in Ho. rewrite Ho at 1. by rewrite take_app_length.
Qed.
End Build.

(** ** The server's answer, as the client reads it *)

Definition answer_head (keep : bool) (status content_type : list Z) (len : Z) : list Z := start_text keep status content_type ++ CONTENT_LENGTH ++ dec len.

(** No CR and no terminator. *)
Definition plain (x : list Z) : Prop := 13 ∉ x /\ 0 ∉ x.
Lemma plain_app x y : plain x -> plain y -> plain (x ++ y).
Proof. unfold plain. rewrite !elem_of_app. naive_solver. Qed.
Ltac plain := repeat (apply plain_app || done); try (by split; by_computation).

Section Answer.
Context (keep : bool) (code : Z) (reason content_type : list Z) (len : Z).
Context (Hcode : 0 < code < 1000) (Hreason : plain reason) (Htype : plain content_type) (Hlen : 0 <= len < 2 ^ 31).
Let status : list Z := dec code ++ 32 :: reason.
Let head := answer_head keep status content_type len.

Lemma dec_plain n : 0 <= n < 2 ^ 31 -> plain (dec n).
Proof. intros Hn. split; apply dec_not_in; unfold digit; lia. Qed.

Definition line1 : list Z := str "HTTP/1.1 " ++ status.
Definition line2 : list Z := str "Server: ribs2.0".
Definition line3 : list Z := str "Content-Type: " ++ content_type.
Definition line4 : list Z := str "Connection: " ++ (if keep then CONNECTION_KEEPALIVE else CONNECTION_CLOSE).
Definition line5 : list Z := str "Content-Length: " ++ dec len.

Lemma answer_lines : head = line1 ++ CRLF ++ line2 ++ CRLF ++ line3 ++ CRLF ++ line4 ++ CRLF ++ line5.
Proof. unfold head, answer_head, start_text, line1, line2, line3, line4, line5, CONNECTION, CONTENT_LENGTH. by rewrite <- !app_assoc. Qed.

Lemma lines_plain : plain line1 /\ plain line2 /\ plain line3 /\ plain line4 /\ plain line5.
Proof.
  unfold line1, line2, line3, line4, line5, status. pose proof (dec_plain code ltac:(lia)). pose proof (dec_plain len Hlen).
  assert (plain (32 :: reason)) by (change (32 :: reason) with ([32] ++ reason); plain).
  repeat split; try (apply plain_app; plain; destruct keep; plain); by_computation.
Qed.

Lemma answer_no_zero : 0 ∉ head.
Proof.
  rewrite answer_lines. destruct lines_plain as ([_ H1] & [_ H2] & [_ H3] & [_ H4] & [_ H5]). assert (0 ∉ CRLF) by by_computation. rewrite !elem_of_app. naive_solver.
Qed.

Lemma answer_first_empty_line : strstr CRLFCRLF (head ++ CRLFCRLF) = Some (length head).
Proof.
  destruct lines_plain as ([H1 _] & [H2 _] & [H3 _] & [H4 _] & [H5 _]). unfold CRLFCRLF at 1. rewrite answer_lines, <- !app_assoc.
  rewrite !strstr_line by done. change (strstr (CRLF ++ CRLF) (line5 ++ CRLFCRLF)) with (strstr (CRLF ++ CRLF) (line5 ++ CRLF ++ CRLF)).
  rewrite strstr_found by done. cbn [mbind option_bind]. f_equal. rewrite !length_app. cbn [length CRLF]. lia.
Qed.

Lemma answer_content_length : exists i, strstr CONTENT_LENGTH head = Some i /\ drop (i + length CONTENT_LENGTH) head = dec len.
Proof.
  destruct lines_plain as ([H1 _] & [H2 _] & [H3 _] & [H4 _] & [H5 _]). exists (length (line1 ++ CRLF ++ line2 ++ CRLF ++ line3 ++ CRLF ++ line4)). split.
  - rewrite answer_lines. unfold CONTENT_LENGTH. rewrite !strstr_line by done. rewrite strstr_found by done. cbn [mbind option_bind]. f_equal. rewrite !length_app. cbn [length CRLF]. lia.
  - rewrite answer_lines, <- length_app. unfold line5.
    replace (line1 ++ CRLF ++ line2 ++ CRLF ++ line3 ++ CRLF ++ line4 ++ CRLF ++ str "Content-Length: " ++ dec len)
      with (((line1 ++ CRLF ++ line2 ++ CRLF ++ line3 ++ CRLF ++ line4) ++ CONTENT_LENGTH) ++ dec len) by (unfold CONTENT_LENGTH; by rewrite <- !app_assoc).
    apply drop_app_length.
Qed.

Lemma answer_status : status_code head = code.
Proof.
  unfold status_code. rewrite answer_lines. unfold line1, status. rewrite <- !app_assoc.
  change (str "HTTP/1.1 " ++ ?x) with (str "HTTP/1.1" ++ 32 :: x). rewrite strchrnul_found by by_computation. cbn [snd]. apply atoi_dec; [lia|unfold digit; lia].
Qed.

Lemma answer_keeps : keeps_connection head = keep.
Proof.
  destruct lines_plain as ([H1 _] & [H2 _] & [H3 _] & [H4 _] & [H5 _]). unfold keeps_connection.
  assert (E : exists i, strstr CONNECTION head = Some i /\ drop (i + length CONNECTION) head = (if keep then CONNECTION_KEEPALIVE else CONNECTION_CLOSE) ++ CRLF ++ line5).
  { exists (length (line1 ++ CRLF ++ line2 ++ CRLF ++ line3)). split.
    - rewrite answer_lines. unfold CONNECTION. rewrite !strstr_line by done. rewrite strstr_found by done. cbn [mbind option_bind]. f_equal. rewrite !length_app. cbn [length CRLF]. lia.
    - rewrite answer_lines. unfold line4. rewrite <- length_app.
      replace (line1 ++ CRLF ++ line2 ++ CRLF ++ line3 ++ CRLF ++ (str "Connection: " ++ (if keep then CONNECTION_KEEPALIVE else CONNECTION_CLOSE)) ++ CRLF ++ line5)
        with (((line1 ++ CRLF ++ line2 ++ CRLF ++ line3) ++ CONNECTION) ++ (if keep then CONNECTION_KEEPALIVE else CONNECTION_CLOSE) ++ CRLF ++ line5)
        by (unfold CONNECTION; by rewrite <- !app_assoc). apply drop_app_length. }
  destruct E as (i & -> & ->). rewrite answer_lines. unfold line1. rewrite <- !app_assoc. by destruct keep.
Qed.

Lemma answer_is_response : response_head head.
Proof.
  split; [apply answer_no_zero|]. split; [apply answer_first_empty_line|]. split; [|rewrite answer_status; lia].
  rewrite answer_lines. unfold line1. by rewrite <- !app_assoc.
Qed.
End Answer.

(** ** The client's request, as the server reads it *)
Definition header_line_ok (h : list Z) : Prop := plain h /\ h <> [].

Lemma header_lines_end headers : Forall header_line_ok headers -> forall line, plain line ->
  strstr CRLFCRLF (line ++ header_lines headers ++ CRLFCRLF) = Some (length (line ++ header_lines headers)).
Proof.
  induction 1 as [|h headers [Hh Hne] _ IH]; intros line [Hl _].
  - cbn [header_lines fmap list_fmap concat app]. rewrite app_nil_r. apply (strstr_found CRLF line CRLF); done.
  - unfold header_lines in *. rewrite fmap_cons. cbn [concat]. rewrite <- !app_assoc. unfold CRLFCRLF at 1. rewrite strstr_line; [|done|].
    + change (CRLF ++ CRLF) with CRLFCRLF at 1. rewrite IH by done. cbn [mbind option_bind]. f_equal. rewrite !length_app. cbn [length CRLF]. lia.
    + destruct h as [|x h]; [done|]. destruct Hh as [Hx _]. apply not_elem_of_cons in Hx as [Hx _]. apply (starts_with_other 13 [10]). congruence.
Qed.

Lemma header_lines_zero headers : Forall header_line_ok headers -> 0 ∉ header_lines headers.
Proof.
  unfold header_lines. assert (0 ∉ CRLF) by by_computation. induction 1 as [|h hs [[_ H0] _] _ IH]; [apply not_elem_of_nil|].
  rewrite fmap_cons. cbn [concat]. rewrite !elem_of_app. naive_solver.
Qed.

Section Request.
Context (target hostname : list Z) (headers : list (list Z)) (Htarget : plain target /\ 32 ∉ target) (Hhost : plain hostname) (Hheaders : Forall header_line_ok headers).

Lemma get_well_formed : well_formed target (str "HTTP/1.1") (get_headers hostname headers).
Proof.
  destruct Htarget as [[? ?] ?], Hhost. split; [done|split; by_computation|]. unfold get_headers. rewrite !elem_of_app. pose proof (header_lines_zero headers Hheaders).
  assert (0 ∉ str "Host: ") by by_computation. naive_solver.
Qed.

Lemma get_first_empty_line : strstr CRLFCRLF (get_head target hostname headers ++ CRLFCRLF) = Some (length (get_head target hostname headers)).
Proof.
  assert (E : get_head target hostname headers = (str "GET " ++ target ++ str " HTTP/1.1") ++ header_lines ((str "Host: " ++ hostname) :: headers)).
  { unfold get_head, request_head, line_rest, get_headers, header_lines. rewrite fmap_cons. cbn [concat]. rewrite <- !app_assoc. done. }
  rewrite E, <- app_assoc. apply header_lines_end.
  - constructor; [|done]. split; [apply plain_app; plain|done].
  - destruct Htarget. plain.
Qed.
End Request.

Section Get.
Context `{address_space} (o : os) (stale : Z -> Z -> Z) (limit : Z) (Hlimit : 4096 <= limit <= 2 ^ 32) (Hgrow : can_grow_to o (limit + 4096)).

(** A GET request is built, and its first part sent. *)
Lemma get_request_runs accepts hostname headers target s : client_ready o s -> input_ok (fb_input s) ->
  2 * Z.of_nat (length (bytes_of (fb_input s))) + VMBUF_HEADER <= limit -> request_fits limit (get_head target hostname headers ++ CRLFCRLF) ->
  Forall (fun n => n = -1 \/ 0 < n) accepts ->
  exists r rl s', http_client_pool_get_requestv o stale accepts hostname headers (Some target) s = Some (inr r, s') /\ 0 <= r
    /\ client_starts limit (get_head target hostname headers ++ CRLFCRLF) rl s' /\ fb_input s' = fb_input s /\ fb_accepts s' = fb_accepts s
    /\ fb_sent s' = fb_sent s ++ take (Z.to_nat rl) (get_head target hostname headers ++ CRLFCRLF).
Proof.
  intros Hr Hi Hb Hf Hacc. unfold http_client_pool_get_requestv.
  set (c3 := (str "GET " ++ target) ++ str " HTTP/1.1" ++ CRLF ++ str "Host: " ++ hostname).
  assert (E : get_head target hostname headers ++ CRLFCRLF = (c3 ++ header_lines headers) ++ CRLFCRLF).
  { f_equal. unfold c3, get_head, request_head, line_rest, get_headers. rewrite <- !app_assoc. done. }
  rewrite E in *. pose proof (request_fits_prefix _ _ _ Hf) as Hf4. pose proof (request_fits_prefix _ _ _ Hf4) as Hf3. pose proof (request_fits_prefix _ _ _ Hf3) as Hf2. pose proof (request_fits_prefix _ _ _ Hf2) as Hf1.
  destruct (init_client_builds o stale s Hr) as (s0 & E0 & B0). rewrite (fb_bind_eval _ _ _ _ _ E0).
  destruct (request_strcpy_builds o stale limit Hlimit Hgrow [] (str "GET ") s s0 B0 Hf1) as (s1 & E1 & B1). rewrite (fb_bind_eval _ _ _ _ _ E1).
  destruct (request_sprintf_builds o stale limit Hlimit Hgrow _ target s s1 B1 Hf2) as (s2 & E2 & B2). rewrite (fb_bind_eval _ _ _ _ _ E2).
  destruct (request_sprintf_builds o stale limit Hlimit Hgrow _ _ s s2 B2 Hf3) as (s3 & E3 & B3). rewrite (fb_bind_eval _ _ _ _ _ E3).
  destruct (add_request_headers_builds o stale limit Hlimit Hgrow headers _ s s3 B3 Hf4) as (s4 & E4 & B4). rewrite (fb_bind_eval _ _ _ _ _ E4).
  destruct (request_strcpy_builds o stale limit Hlimit Hgrow _ CRLFCRLF s s4 B4 Hf) as (s5 & E5 & B5). rewrite (fb_bind_eval _ _ _ _ _ E5).
  exact (send_request_eval limit accepts _ s s5 B5 Hi Hb Hacc).
Qed.
End Get.

(** C6: a whole exchange.  The client asks with GET and a list of headers; the server's function
    answers with a status, a type and a formatted text.  If the server gets the bytes the client
    sends, and the client the bytes the server sends, each in any pieces, then the client ends up
    with exactly that status and that text, both sides agree on whether the connection is kept,
    and nothing else has been sent. *)
Theorem http_exchange `{address_space} (o : os) (stale : Z -> Z -> Z) (limit max_req_size : Z) (target hostname : list Z) (headers : list (list Z))
  (code : Z) (reason content_type t : list Z) (server : http_server) (c : cl) (s : hs) (accepts : list Z)
  (Hlimit : 4096 <= limit <= 2 ^ 32) (Hgrow : can_grow_to o (limit + 4096))
  (Htarget : plain target /\ 32 ∉ target) (Hhost : plain hostname) (Hheaders : Forall header_line_ok headers)
  (Hcode : 0 < code < 1000 /\ code <> 204 /\ code <> 304) (Hreason : plain reason) (Htype : plain content_type) (Hshort : short (dec code ++ 32 :: reason) content_type)
  (Hreq_size : Z.of_nat (length (get_head target hostname headers ++ CRLFCRLF)) <= max_req_size)
  (Hclient : client_ready o c) (Hserver : starts o limit server s) (Hin : input_ok (fb_input c)) (Hopen : stays_open (fb_input c) /\ stays_open (fb_input s))
  (Hreq : bytes_of (fb_input s) = get_head target hostname headers ++ CRLFCRLF)
  (Hresp : bytes_of (fb_input c)
    = response_text (check_persistent (get_head target hostname headers)) (dec code ++ 32 :: reason) content_type (Z.of_nat (length t)) ++ t)
  (Hfits : 2 * Z.of_nat (length (bytes_of (fb_input c))) + VMBUF_HEADER <= limit)
  (Hacc : Forall (fun n => n = -1 \/ 0 < n) accepts /\ Forall (fun n => n = -1 \/ 0 < n) (fb_accepts c) /\ Forall (fun n => n = -1 \/ 0 < n) (fb_accepts s))
  (Hsum_client : Z.of_nat (length (bytes_of (fb_input s))) <= accepted (fb_accepts c)) (Hsum_server : Z.of_nat (length (bytes_of (fb_input c))) <= accepted (fb_accepts s)) :
  let keep := check_persistent (get_head target hostname headers) in
  exists r c1 c2 s2 head, http_client_pool_get_requestv o stale accepts hostname headers (Some target) c = Some (inr r, c1) /\ 0 <= r
    /\ http_client_fiber_main o stale c1 = Some (inl (if keep then Idle else Closed), c2)
    /\ http_server_fiber_main o stale max_req_size (http_server_response_vsprintf o stale (dec code ++ 32 :: reason) content_type (Some t)) server s
       = Some (inl (if keep then Idle else Closed), s2)
    /\ fb_sent c2 = fb_sent c ++ bytes_of (fb_input s) /\ fb_sent s2 = fb_sent s ++ bytes_of (fb_input c)
    /\ response_is head t c2 /\ http_status_code (fb_ctx c2) = code.
Proof.
  intros keep. set (status := dec code ++ 32 :: reason) in *. destruct Hcode as (Hc & H204 & H304), Hopen as [Hoc Hos], Hacc as (Ha & Hac & Has).
  assert (Hfit_t : 2 * Z.of_nat (length t) + VMBUF_HEADER <= limit) by (rewrite Hresp, length_app in Hfits; lia).
  assert (Hlen : 0 <= Z.of_nat (length t) < 2 ^ 31) by (unfold VMBUF_HEADER in Hfit_t; lia).
  destruct (get_request_runs o stale limit Hlimit Hgrow accepts hostname headers target c Hclient Hin Hfits) as (r & rl & c1 & E1 & Hr & Hst & Hi1 & Ha1 & Hs1); [|done|].
  { unfold request_fits. rewrite <- Hreq. apply (st_fits _ _ _ _ Hserver). }
  destruct (answer_content_length keep code reason content_type (Z.of_nat (length t)) Hc Hreason Htype Hlen) as (i & Hi & Hdrop).
  pose proof (answer_is_response keep code reason content_type (Z.of_nat (length t)) Hc Hreason Htype Hlen) as Hh.
  pose proof (answer_status keep code reason content_type (Z.of_nat (length t)) Hc) as Hcd.
  pose proof (answer_keeps keep code reason content_type (Z.of_nat (length t)) Hc Hreason Htype Hlen) as Hk.
  fold status in Hi, Hdrop, Hh, Hcd, Hk. set (head := answer_head keep status content_type (Z.of_nat (length t))) in *.
  destruct (sized_response_runs o stale limit Hlimit Hgrow _ rl c1 head t i Hst) as (c2 & E2 & Hri & Hs2).
  - by rewrite Hi1.
  - by rewrite Ha1.
  - rewrite Ha1, <- Hreq. pose proof (cs_rest _ _ _ _ Hst). lia.
  - rewrite Hi1, Hresp. unfold response_text, head, answer_head. by rewrite <- !app_assoc.
  - done.
  - by rewrite Hcd.
  - done.
  - rewrite Hdrop. apply strtol_dec. lia.
  - destruct (answers_get o stale limit ltac:(lia) Hgrow max_req_size status content_type t server s (str "GET") target (str "HTTP/1.1") (get_headers hostname headers))
      as (s2 & E3 & Hs3); try done; [by left|by apply get_well_formed|by apply get_first_empty_line|unfold INT_MAX; lia|rewrite Hresp in Hsum_server; exact Hsum_server|].
    exists r, c1, c2, s2, head. rewrite Hk in E2. do 4 (split; [done|]).
    split; [rewrite Hs2, Hs1, <- app_assoc, take_drop, Hreq; done|]. split; [rewrite Hs3, Hresp; done|]. split; [done|].
    rewrite (ri_status _ _ _ Hri), Hcd. unfold i16, u16. rewrite Z.mod_small by lia. by rewrite (proj2 (Z.ltb_lt code _)) by lia.
Qed.

(** *** Examples *)
Definition client_fresh (input : arrivals) (accepts : list Z) : cl :=
  Fiber vb_world (HttpClientContext VMBUF_INITIALIZER VMBUF_INITIALIZER None 0 0 false) input accepts [].
Definition demo_request : list Z := get_head (str "/p?q=1") (str "h") [] ++ CRLFCRLF.
Definition demo_client (input : arrivals) (accepts : list Z) : cl :=
  match http_client_pool_get_requestv os_all_ok no_stale [3] (str "h") [] (Some (str "/p?q=1")) (client_fresh input accepts) with
  | Some (_, s) => s
  | None => client_fresh input accepts
  end.

Lemma fresh_ready input accepts : client_ready os_all_ok (client_fresh input accepts).
Proof. split; left; by repeat split. Qed.

Lemma demo_client_starts input accepts : input_ok input -> 2 * Z.of_nat (length (bytes_of input)) + VMBUF_HEADER <= 2 ^ 20 ->
  exists rl, client_starts (2 ^ 20) demo_request rl (demo_client input accepts) /\ fb_input (demo_client input accepts) = input
    /\ fb_accepts (demo_client input accepts) = accepts /\ fb_sent (demo_client input accepts) = take (Z.to_nat rl) demo_request.
Proof.
  intros Hi Hf. destruct (get_request_runs os_all_ok no_stale (2 ^ 20) ltac:(lia) ltac:(by intros ? ? _) [3] (str "h") [] (str "/p?q=1") (client_fresh input accepts))
    as (r & rl & s' & E & _ & Hst & Hi' & Ha & Hs); [apply fresh_ready|done|done|by vm_compute|repeat constructor; lia|].
  exists rl. unfold demo_client. rewrite E. exact (conj Hst (conj Hi' (conj Ha Hs))).
Qed.

Definition sized_head : list Z := str "HTTP/1.1 404 Not Found" ++ CRLF ++ str "Content-Length: 0x5" ++ CRLF ++ str "Connection: Close".
Definition sized_input : arrivals :=
  [([take 30 sized_head], Eagain); ([drop 30 sized_head ++ [13]; [10]], Eagain); ([[13]], Eagain); ([10 :: str "he"; str "l"], Eagain); ([str "lo"], Eagain)].

Lemma http_client_sized_response_witness :
  exists s', http_client_fiber_main os_all_ok no_stale (demo_client sized_input [1; -1; 500]) = Some (inl Closed, s')
    /\ response_is sized_head (str "hello") s' /\ fb_sent s' = demo_request.
Proof.
  destruct (demo_client_starts sized_input [1; -1; 500]) as (rl & Hst & Hi & Ha & Hs); [repeat constructor; done|vm_compute; congruence|].
  destruct (http_client_sized_response os_all_ok no_stale (2 ^ 20) demo_request rl (demo_client sized_input [1; -1; 500]) sized_head (str "hello") 22)
    as (s' & E & Hri & Hs').
  - lia.
  - by intros ? ? _.
  - exact Hst.
  - rewrite Hi. repeat constructor.
  - rewrite Ha. repeat (constructor; [lia|]). constructor.
  - rewrite Ha. pose proof (cs_rest _ _ _ _ Hst). assert (Z.of_nat (length demo_request) <= accepted [1; -1; 500]) by (vm_compute; congruence). lia.
  - rewrite Hi. reflexivity.
  - repeat split; by_computation.
  - by_computation.
  - reflexivity.
  - reflexivity.
  - exists s'. split; [exact E|]. split; [exact Hri|]. by rewrite Hs', Hs, take_drop.
Defined.

Definition chunked_head : list Z := str "HTTP/1.1 200 OK" ++ CRLF ++ str "Transfer-Encoding: chunked".
Definition demo_chunks : list (list Z * list Z) := [(str "a", str "0123456789"); (str "2;name=value", str "ab")].
Definition chunked_bytes : list Z := chunked_head ++ CRLFCRLF ++ encode_chunks demo_chunks (str "0") CRLF.
Definition chunked_input : arrivals := [([take 50 chunked_bytes], Eagain); ([take 5 (drop 50 chunked_bytes)], Eagain); ([drop 55 chunked_bytes], Eagain)].

Lemma demo_chunks_ok : Forall chunk_ok demo_chunks /\ chunk_line (str "0") 0.
Proof.
  split; [repeat constructor|repeat split]; try done; try by_computation; intros r; cbn -[Z.pow]; reflexivity.
Qed.

Lemma http_client_chunked_response_witness :
  exists s', http_client_fiber_main os_all_ok no_stale (demo_client chunked_input [500]) = Some (inl Idle, s')
    /\ response_is chunked_head (str "0123456789ab") s' /\ fb_sent s' = demo_request.
Proof.
  destruct (demo_client_starts chunked_input [500]) as (rl & Hst & Hi & Ha & Hs); [repeat constructor; done|vm_compute; congruence|].
  destruct demo_chunks_ok as [Hchunks Hlast].
  destruct (http_client_chunked_response os_all_ok no_stale (2 ^ 20) demo_request rl (demo_client chunked_input [500]) chunked_head demo_chunks (str "0") CRLF 15)
    as (s' & E & Hri & Hs').
  - lia.
  - by intros ? ? _.
  - exact Hst.
  - rewrite Hi. repeat constructor.
  - rewrite Ha. repeat (constructor; [lia|]). constructor.
  - rewrite Ha. pose proof (cs_rest _ _ _ _ Hst). assert (Z.of_nat (length demo_request) <= accepted [500]) by (vm_compute; congruence). lia.
  - rewrite Hi. repeat constructor; by_computation.
  - rewrite Hi. reflexivity.
  - repeat split; by_computation.
  - by_computation.
  - reflexivity.
  - reflexivity.
  - reflexivity.
  - exact Hchunks.
  - exact Hlast.
  - exists s'. split; [exact E|]. split; [exact Hri|]. by rewrite Hs', Hs, take_drop.
Defined.

(** A server that states a size that is not one, and closes. *)
Definition broken_input : arrivals := [([chunked_head ++ CRLFCRLF ++ str "-1" ++ CRLF], Eagain); ([str "zz"], Eof)].
Lemma http_client_fiber_safe_witness : exists e s', http_client_fiber_main os_all_ok no_stale (demo_client broken_input [500]) = Some (inl e, s').
Proof.
  destruct (demo_client_starts broken_input [500]) as (rl & Hst & _); [repeat constructor; done|vm_compute; congruence|].
  apply (http_client_fiber_safe os_all_ok no_stale (2 ^ 20) demo_request rl (demo_client broken_input [500])); [lia|by intros ? ? _|exact Hst].
Defined.

Definition exchange_head : list Z := get_head (str "/p?q=1") (str "h") [str "X: y"].
Definition exchange_answer : list Z := response_text true (dec 200 ++ str " OK") (str "text/plain") 5 ++ str "hello".
Definition exchange_client : cl := client_fresh [([take 9 exchange_answer], Eagain); ([drop 9 exchange_answer], Eagain)] [500].
Definition exchange_server : hs := hs_fresh [([take 4 exchange_head], Eagain); ([drop 4 exchange_head; CRLF], Eagain); ([CRLF], Eagain)] [-1; 500].

Lemma http_exchange_witness :
  exists r c1 c2 s2 head, http_client_pool_get_requestv os_all_ok no_stale [3] (str "h") [str "X: y"] (Some (str "/p?q=1")) exchange_client = Some (inr r, c1) /\ 0 <= r
    /\ http_client_fiber_main os_all_ok no_stale c1 = Some (inl Idle, c2)
    /\ http_server_fiber_main os_all_ok no_stale 1000 (http_server_response_vsprintf os_all_ok no_stale (dec 200 ++ str " OK") (str "text/plain") (Some (str "hello")))
         demo_server exchange_server = Some (inl Idle, s2)
    /\ fb_sent c2 = exchange_head ++ CRLFCRLF /\ fb_sent s2 = exchange_answer /\ response_is head (str "hello") c2 /\ http_status_code (fb_ctx c2) = 200.
Proof.
  apply (http_exchange os_all_ok no_stale (2 ^ 20) 1000 (str "/p?q=1") (str "h") [str "X: y"] 200 (str "OK") (str "text/plain") (str "hello") demo_server
    exchange_client exchange_server [3]).
  - lia.
  - by intros ? ? _.
  - repeat split; by_computation.
  - split; by_computation.
  - repeat constructor; done || by_computation.
  - lia.
  - split; by_computation.
  - split; by_computation.
  - apply Nat.leb_le. reflexivity.
  - vm_compute. congruence.
  - apply fresh_ready.
  - apply fresh_starts; [repeat constructor; done|vm_compute; congruence].
  - repeat constructor; done.
  - split; repeat constructor.
  - reflexivity.
  - reflexivity.
  - vm_compute. congruence.
  - cbn. repeat split; repeat (constructor; [lia|]); constructor.
  - vm_compute. congruence.
  - vm_compute. congruence.
Defined.

(** The end of a run, with the status and the length of the content. *)
Definition outcome (x : option ((fiber_end + unit) * cl)) : option (fiber_end * Z * Z) :=
  match x with Some (inl e, s) => Some (e, http_status_code (fb_ctx s), cc_content_length (fb_ctx s)) | _ => None end.
Definition two_chunks_tail : list Z := str "ab" ++ CRLF ++ str "0" ++ CRLFCRLF.
Definition whole_size_line : arrivals := [([chunked_head ++ CRLFCRLF ++ str "2"], Eagain); ([CRLF ++ two_chunks_tail], Eagain)].
Definition split_size_line : arrivals := [([chunked_head ++ CRLFCRLF ++ str "2" ++ [13]], Eagain); ([10 :: two_chunks_tail], Eagain)].

(** An example of why [http_client_chunked_response] has a condition on the pieces: a chunked response
    is read if the CRLF of its size line arrives in one piece, and the same response fails with status
    500 if a read ends between the CR and the LF. *)
Example http_client_split_line_fails :
  bytes_of split_size_line = bytes_of whole_size_line
  /\ outcome (http_client_fiber_main os_all_ok no_stale (demo_client whole_size_line [500])) = Some (Idle, 200, 2)
  /\ outcome (http_client_fiber_main os_all_ok no_stale (demo_client split_size_line [500])) = Some (Closed, 500, 0).
Proof. by repeat split; vm_compute. Qed.
