(* ===== verification/ClientPoolFacts.v ===== *)
(** * ClientPoolFacts: the idle connections of the pool and what its operations do to them *)

From stdpp Require Import base numbers list gmap.
From Stdlib Require Import ZArith Lia.
From S2P Require Import Prelude Words Bytes Os Dlist TimeoutHandler Mempool CtxPool Memalloc Vmbuf StringTable Connection HttpServerRun HttpClient ClientPool HttpExchange.

(** * The lists of idle connections

    The hash table of keys, the heads and the chains of [ClientPool.v] together stand for a map
    from the idle descriptors to the keys of their connections. *)

(** ** Keys *)

Definition key_ok (k : http_client_key) : Prop := 0 <= key_addr k < 2 ^ 32 /\ 0 <= key_port k < 2 ^ 16 /\ 0 <= key_hostname_hash k < 2 ^ 32.

Lemma length_bytes_le n v : 0 <= n -> Z.of_nat (length (bytes_le n v)) = n.
Proof. intros Hn. unfold bytes_le. rewrite length_fmap, length_seqZ. lia. Qed.

Lemma bytes_le_S n v : 0 <= n -> bytes_le (n + 1) v = v mod 2 ^ 8 :: bytes_le n (v / 2 ^ 8).
Proof.
  intros Hn. unfold bytes_le. rewrite seqZ_cons by lia. rewrite fmap_cons. change (8 * 0) with 0. rewrite Z.shiftr_0_r. f_equal.
  rewrite Z.add_1_r, Z.pred_succ. change (Z.succ 0) with (1 + 0). rewrite <- (fmap_add_seqZ 1 0 n), <- list_fmap_compose. apply list_fmap_ext. intros i x Hx%list_elem_of_lookup_2%elem_of_seqZ. cbn. f_equal.
  rewrite <- Z.shiftr_div_pow2, Z.shiftr_shiftr by lia. f_equal. lia.
Qed.

Lemma le64_bytes_le n : forall v, 0 <= v < 2 ^ (8 * Z.of_nat n) -> le64 (bytes_le (Z.of_nat n) v) = v.
Proof.
  induction n as [|n IH]; intros v Hv; [change (2 ^ (8 * Z.of_nat 0)) with 1 in Hv; assert (v = 0) as -> by lia; done|].
  rewrite Nat2Z.inj_succ in *. unfold Z.succ in *. rewrite Z.mul_add_distr_l, Z.pow_add_r in Hv by lia. rewrite bytes_le_S by lia.
  assert (Hq : 0 <= v / 2 ^ 8 < 2 ^ (8 * Z.of_nat n)) by (split; [apply Z.div_pos; lia|apply Z.div_lt_upper_bound; lia]).
  specialize (IH (v / 2 ^ 8) Hq). unfold le64 in *. cbn [foldr]. rewrite IH, ?Z.shiftl_mul_pow2 by lia. pose proof (Z.div_mod v (2 ^ 8) ltac:(lia)). lia.
Qed.

Lemma bytes_le_inj n v v' : 0 <= v < 2 ^ (8 * Z.of_nat n) -> 0 <= v' < 2 ^ (8 * Z.of_nat n) -> bytes_le (Z.of_nat n) v = bytes_le (Z.of_nat n) v' -> v = v'.
Proof. intros Hv Hv' E. by rewrite <- (le64_bytes_le n v), E, le64_bytes_le. Qed.

Lemma length_key_bytes k : length (key_bytes k) = 10%nat.
Proof. done. Qed.

Lemma key_bytes_inj k k' : key_ok k -> key_ok k' -> key_bytes k = key_bytes k' -> k = k'.
Proof.
  destruct k as [a p h], k' as [a' p' h']. unfold key_ok, key_bytes. cbn [key_addr key_port key_hostname_hash]. intros (Ha & Hp & Hh) (Ha' & Hp' & Hh') E.
  apply app_inj_1 in E as [E1 E]; [|done]. apply app_inj_1 in E as [E2 E3]; [|done].
  apply (bytes_le_inj 4) in E1; [|done..]. apply (bytes_le_inj 2) in E2; [|done..]. apply (bytes_le_inj 4) in E3; [|done..]. by subst.
Qed.

(** ** The lists and the table *)

Class layout_ok `{client_layout} : Prop := {
  lo_size : 0 <= rlim_cur <= 2 ^ 18;
  lo_arrays : client_chains + sizeof_list * rlim_cur <= client_heads \/ client_heads + sizeof_list * rlim_cur <= client_chains;
  lo_free_chains : ~ (client_chains <= free_list < client_chains + sizeof_list * rlim_cur);
  lo_free_heads : ~ (client_heads <= free_list < client_heads + sizeof_list * rlim_cur);
}.

Section Index.
Context `{StringTableLaws T} `{layout_ok}.

Definition in_range (i : Z) : Prop := 0 <= i < rlim_cur.

Lemma chain_of_inj fd fd' : chain_of fd = chain_of fd' -> fd = fd'.
Proof. unfold chain_of, sizeof_list. lia. Qed.
Lemma head_of_inj i i' : head_of i = head_of i' -> i = i'.
Proof. unfold head_of, sizeof_list. lia. Qed.
Lemma chain_not_head fd i : in_range fd -> in_range i -> chain_of fd <> head_of i.
Proof. destruct lo_arrays; unfold in_range, chain_of, head_of, sizeof_list in *; lia. Qed.
Lemma chain_not_free fd : in_range fd -> chain_of fd <> free_list.
Proof. pose proof lo_free_chains. unfold in_range, chain_of, sizeof_list in *. lia. Qed.
Lemma head_not_free i : in_range i -> head_of i <> free_list.
Proof. pose proof lo_free_heads. unfold in_range, head_of, sizeof_list in *. lia. Qed.
Lemma chain_index fd : (chain_of fd - client_chains) / sizeof_list = fd.
Proof. unfold chain_of, sizeof_list. replace (client_chains + 16 * fd - client_chains) with (fd * 16) by lia. by apply Z.div_mul. Qed.
Lemma head_index i : (head_of i - client_heads) / sizeof_list = i.
Proof. unfold head_of, sizeof_list. replace (client_heads + 16 * i - client_heads) with (i * 16) by lia. by apply Z.div_mul. Qed.

Abbreviation groups := (gmap (option (list Z)) (Z * list Z)).

(** The list of free heads is the one without a name; the others are named by the keys. *)
Record index (s : store) (t : T) (G : groups) (fh : list Z) : Prop := {
  ix_lists : lists s G;
  ix_free : G !! None = Some (free_list, head_of <$> fh);
  ix_fh : Forall in_range fh;
  ix_groups : forall k h xs, G !! Some k = Some (h, xs) -> (exists i, in_range i /\ h = head_of i) /\ exists fds, Forall in_range fds /\ xs = chain_of <$> fds;
  ix_table : exists m n, st_rep t n m /\ (length fh <= n)%nat /\ forall k, m !! k = (fun g : Z * list Z => bytes_le 4 ((g.1 - client_heads) / sizeof_list)) <$> (G !! Some k);
}.

Definition idle_in (G : groups) (fd : Z) (k : list Z) : Prop := exists h xs, G !! Some k = Some (h, xs) /\ chain_of fd ∈ xs.

Lemma idle_in_range s t G fh fd k : index s t G fh -> idle_in G fd k -> in_range fd.
Proof.
  intros Hi (h & xs & Hk & Hin). destruct (ix_groups _ _ _ _ Hi k h xs Hk) as (_ & fds & Hr & ->). apply list_elem_of_fmap in Hin as (fd' & E & Hin).
  apply chain_of_inj in E as ->. by eapply Forall_forall in Hr.
Qed.

Lemma idle_in_key s t G fh fd k k' : index s t G fh -> idle_in G fd k -> idle_in G fd k' -> k = k'.
Proof.
  intros Hi (h & xs & Hk & Hin) (h' & xs' & Hk' & Hin'). assert (Some k = Some k') by (eapply (ls_apart _ _ (ix_lists _ _ _ _ Hi)); eauto; by right). congruence.
Qed.

Lemma idle_in_insert G k h xs fd k' : idle_in (<[Some k := (h, xs)]> G) fd k' <-> if decide (k' = k) then chain_of fd ∈ xs else idle_in G fd k'.
Proof.
  unfold idle_in. destruct (decide (k' = k)) as [->|Hne].
  - rewrite lookup_insert_eq. naive_solver.
  - rewrite lookup_insert_ne by congruence. done.
Qed.

Lemma ix_lookup s t G fh k : index s t G fh -> exists ofs, st_lookup t k = Some ofs
  /\ match G !! Some k with Some g => ofs <> 0 /\ head_of (le64 (st_get_val t ofs)) = g.1 | None => ofs = 0 end.
Proof.
  intros Hi. destruct (ix_table _ _ _ _ Hi) as (m & n & Hr & _ & Hm). destruct (st_lookup_ok t n m k Hr) as (ofs & E & Hv). exists ofs. split; [done|].
  rewrite Hm in Hv. destruct (G !! Some k) as [[h xs]|] eqn:EG; cbn in *; [|done]. destruct Hv as [Hne Hv]. split; [done|]. rewrite Hv.
  destruct (ix_groups _ _ _ _ Hi k h xs EG) as ((i & Hir & ->) & _). rewrite head_index. pose proof lo_size. rewrite (le64_bytes_le 4); [done|]. unfold in_range in *. cbn. lia.
Qed.

Lemma chain_unused s t G fh fd : index s t G fh -> in_range fd -> (forall k, ~ idle_in G fd k) -> unused G (chain_of fd).
Proof.
  intros Hi Hr Hno [k|] h xs Hk.
  - destruct (ix_groups _ _ _ _ Hi k h xs Hk) as ((i & Hir & ->) & _). apply not_elem_of_cons. split; [by apply chain_not_head|]. intros Hin. apply (Hno k). by exists (head_of i), xs.
  - rewrite (ix_free _ _ _ _ Hi) in Hk. injection Hk as <- <-. apply not_elem_of_cons. split; [by apply chain_not_free|].
    intros (i & E & Hin)%list_elem_of_fmap. pose proof (proj1 (Forall_forall _ _) (ix_fh _ _ _ _ Hi) i Hin). by apply (chain_not_head fd i).
Qed.

(** The list of a key is changed. *)
Lemma ix_change s s' t G fh k h xs fds : index s t G fh -> G !! Some k = Some (h, xs) -> Forall in_range fds ->
  lists s' (<[Some k := (h, chain_of <$> fds)]> G) -> index s' t (<[Some k := (h, chain_of <$> fds)]> G) fh.
Proof.
  intros [Hl Hf Hfh Hg (m & n & Hr & Hn & Hm)] Hk Hfds Hl'. split; [done|by rewrite lookup_insert_ne|done| |].
  - intros k' h' xs' Hk'. apply lookup_insert_Some in Hk' as [[[= <-] [= <- <-]]|[_ Hk']]; [|by eapply Hg]. split; [by eapply Hg|]. by exists fds.
  - exists m, n. split; [done|]. split; [done|]. intros k'. rewrite Hm. destruct (decide (k' = k)) as [->|Hne]; [by rewrite lookup_insert_eq, Hk|by rewrite lookup_insert_ne by congruence].
Qed.

Lemma ix_add s t G fh k h xs fd : index s t G fh -> G !! Some k = Some (h, xs) -> in_range fd -> (forall k, ~ idle_in G fd k) ->
  index (list_insert_tail s h (chain_of fd)) t (<[Some k := (h, xs ++ [chain_of fd])]> G) fh.
Proof.
  intros Hi Hk Hr Hno. destruct (ix_groups _ _ _ _ Hi k h xs Hk) as (_ & fds & Hfds & ->). change [chain_of fd] with (chain_of <$> [fd]). rewrite <- fmap_app.
  eapply ix_change; [done|done|apply Forall_app; split; [done|by constructor]|]. rewrite fmap_app. apply lists_insert_tail; [apply Hi|done|by eapply chain_unused].
Qed.

Lemma ix_remove s t G fh k h xs fd ys : index s t G fh -> G !! Some k = Some (h, xs ++ chain_of fd :: ys) ->
  index (list_remove s (chain_of fd)) t (<[Some k := (h, xs ++ ys)]> G) fh.
Proof.
  intros Hi Hk. pose proof (lists_remove _ _ _ _ _ _ _ (ix_lists _ _ _ _ Hi) Hk) as Hl. destruct (ix_groups _ _ _ _ Hi k _ _ Hk) as (_ & fds & Hfds & E).
  symmetry in E. apply fmap_app_inv in E as (f1 & f2 & E1 & E2 & ->). destruct f2 as [|f f2]; [done|]. injection E2 as _ ->. subst xs.
  rewrite <- fmap_app in *. eapply ix_change; [done|done| |done]. apply Forall_app in Hfds as [? Hf2]. apply Forall_cons in Hf2 as [_ ?]. by apply Forall_app.
Qed.

Lemma free_head_unused s t G i fh : index s t G (i :: fh) -> unused (<[None := (free_list, head_of <$> fh)]> G) (head_of i).
Proof.
  intros Hi j h xs Hj. pose proof (ix_free _ _ _ _ Hi) as Hf. pose proof (ls_nodup _ _ _ _ _ (ix_lists _ _ _ _ Hi) Hf) as Hnd.
  apply lookup_insert_Some in Hj as [[<- [= <- <-]]|[Hne Hj]].
  - apply NoDup_cons in Hnd as [Hh Hnd]. cbn in Hnd. apply NoDup_cons in Hnd as [Hx _]. apply not_elem_of_cons. split; [|done]. intros E. apply Hh. rewrite <- E. by left.
  - intros Hin. apply Hne. eapply (ls_apart _ _ (ix_lists _ _ _ _ Hi) None j); [exact Hf|exact Hj| |exact Hin]. right. by left.
Qed.

(** A head is taken for a new key. *)
Lemma ix_new s t G fh i k : index s t G (i :: fh) -> G !! Some k = None -> (length k <= 1000)%nat ->
  exists s1 t' loc, list_pop_head s free_list = (s1, head_of i) /\ st_insert t k (bytes_le 4 i) = Some (t', loc)
    /\ index (list_init s1 (head_of i)) t' (<[Some k := (head_of i, [])]> (<[None := (free_list, head_of <$> fh)]> G)) fh.
Proof.
  intros Hi Hk Hlen. pose proof (ix_free _ _ _ _ Hi) as Hf. destruct (lists_pop_head _ _ _ _ _ _ (ix_lists _ _ _ _ Hi) Hf) as (s1 & E1 & Hl1).
  destruct (ix_table _ _ _ _ Hi) as (m & n & Hr & Hn & Hm). destruct n as [|n]; [cbn in Hn; lia|].
  destruct (st_insert_ok t n m k (bytes_le 4 i) Hr) as (t' & loc & E & _ & _ & Hr' & _); [by rewrite Hm, Hk|unfold max_record; change (length (bytes_le 4 i)) with 4%nat; lia|].
  exists s1, t', loc. split; [done|]. split; [done|]. pose proof (ix_fh _ _ _ _ Hi) as Hfh. apply Forall_cons in Hfh as [Hir Hfh]. split.
  - apply lists_init; [done|by eapply free_head_unused].
  - by rewrite lookup_insert_ne, lookup_insert_eq.
  - done.
  - intros k' h xs Hk'. apply lookup_insert_Some in Hk' as [[[= <-] [= <- <-]]|[_ Hk']].
    + split; [by exists i|]. by exists [].
    + rewrite lookup_insert_ne in Hk' by done. by eapply (ix_groups _ _ _ _ Hi).
  - exists (<[k := bytes_le 4 i]> m), n. split; [done|]. split; [cbn in Hn; lia|]. intros k'. destruct (decide (k' = k)) as [->|Hne].
    + rewrite !lookup_insert_eq. cbn. by rewrite head_index.
    + rewrite !lookup_insert_ne by congruence. apply Hm.
Qed.
End Index.

(** * Connections are never shared

    Clients are made, run, end and are freed in any order, while idle connections are closed by
    their servers or by timeouts.  [pool_inv] relates the state of [ClientPool.v] to the clients
    in use and to the map of idle connections; every operation keeps it and none fails. *)

(** ** The index of idle connections as a map from descriptors to keys *)

Definition index_holds `{StringTableLaws T, client_layout} (s : store) (t : T) (I : gmap Z (list Z)) : Prop :=
  exists G fh, index s t G fh /\ forall fd k, I !! fd = Some k <-> idle_in G fd k.

Section IndexMap.
Context `{StringTableLaws T} `{layout_ok}.

(** A map of idle descriptors in which [fd] is the last one of the list of [k]. *)
Definition index_last (s : store) (t : T) (I : gmap Z (list Z)) (k : list Z) (fd : Z) : Prop :=
  exists G fh h xs, index s t G fh /\ (forall fd k, I !! fd = Some k <-> idle_in G fd k) /\ G !! Some k = Some (h, xs ++ [chain_of fd]).

Lemma last_holds s t I k fd : index_last s t I k fd -> index_holds s t I.
Proof. intros (G & fh & h & xs & Hi & HI & _). by exists G, fh. Qed.

(** After [persistent_head] has found or made the head of a key, a descriptor can be added. *)
Definition takes (s : store) (t : T) (I : gmap Z (list Z)) (k : list Z) (head : Z) : Prop := forall fd, in_range fd -> I !! fd = None ->
  index_last (list_insert_tail s head (chain_of fd)) t (<[fd := k]> I) k fd.

Lemma holds_takes s t G fh (I : gmap Z (list Z)) k h xs : index s t G fh -> (forall fd k, I !! fd = Some k <-> idle_in G fd k) -> G !! Some k = Some (h, xs) -> takes s t I k h.
Proof.
  intros Hi HI Hk fd Hr Hno. exists (<[Some k := (h, xs ++ [chain_of fd])]> G), fh, h, xs. split.
  { apply ix_add; [done|done|done|]. intros k' Hin%HI. congruence. }
  split; [|by rewrite lookup_insert_eq]. intros fd' k'. rewrite idle_in_insert. destruct (decide (fd' = fd)) as [->|Hne].
  - rewrite lookup_insert_eq. case_decide as Ek; [subst k'|].
    + split; [intros _|done]. apply elem_of_app. right. by left.
    + split; [congruence|]. intros Hin%HI. congruence.
  - rewrite lookup_insert_ne by done. rewrite HI. case_decide as Ek; [subst k'|done]. rewrite elem_of_app, list_elem_of_singleton. split.
    + intros (h' & xs' & E & Hin). rewrite Hk in E. injection E as <- <-. by left.
    + intros [Hin|E%chain_of_inj]; [by exists h, xs|done].
Qed.

(** Removing an idle descriptor, from anywhere in its list. *)
Lemma holds_remove s t I fd k : index_holds s t I -> I !! fd = Some k -> index_holds (list_remove s (chain_of fd)) t (delete fd I).
Proof.
  intros (G & fh & Hi & HI) Hk. destruct (proj1 (HI fd k) Hk) as (h & xs & EG & Hin). apply list_elem_of_split in Hin as (xs1 & xs2 & ->).
  exists (<[Some k := (h, xs1 ++ xs2)]> G), fh. split; [by apply ix_remove|]. pose proof (ls_nodup _ _ _ _ _ (ix_lists _ _ _ _ Hi) EG) as Hnd.
  destruct (nodup_split _ _ _ _ Hnd) as (_ & _ & _ & N4 & N5 & _). intros fd' k'. rewrite idle_in_insert. destruct (decide (fd' = fd)) as [->|Hne].
  - rewrite lookup_delete_eq. split; [done|]. case_decide as Ek; [subst k'|].
    + rewrite elem_of_app. intros [?|?]; exfalso; [apply N4; by right|apply N5; by right].
    + intros Hin%HI. congruence.
  - rewrite lookup_delete_ne by done. rewrite HI. case_decide as Ek; [subst k'|done]. rewrite elem_of_app. split.
    + intros (h' & xs' & E & Hin). rewrite EG in E. injection E as <- <-. apply elem_of_app in Hin as [?|[E%chain_of_inj|?]%elem_of_cons]; [by left|done|by right].
    + intros Hin. exists h, (xs1 ++ chain_of fd :: xs2). split; [done|]. rewrite elem_of_app, elem_of_cons. tauto.
Qed.

(** What a lookup of a key finds: no list, an empty one, or one with a last descriptor. *)
Definition found_head (t : T) (ofs : Z) : Z := head_of (le64 (st_get_val t ofs)).

Lemma last_found s t I k fd : index_last s t I k fd -> exists ofs, st_lookup t k = Some ofs /\ ofs <> 0 /\ list_empty s (found_head t ofs) = false /\ list_tail s (found_head t ofs) = chain_of fd.
Proof.
  intros (G & fh & h & xs & Hi & HI & Hk). destruct (ix_lookup _ _ _ _ k Hi) as (ofs & E & Hv). rewrite Hk in Hv. destruct Hv as [Hne Hh]. exists ofs. unfold found_head. rewrite Hh. cbn [fst].
  split; [done|]. split; [done|]. split; [rewrite (ls_empty _ _ _ _ _ (ix_lists _ _ _ _ Hi) Hk); apply bool_decide_false; by destruct xs|by eapply ls_tail; [apply Hi|]].
Qed.

Lemma holds_cases s t I k : index_holds s t I ->
  (exists ofs, st_lookup t k = Some ofs /\ (ofs = 0 \/ list_empty s (found_head t ofs) = true)) \/ exists fd, index_last s t I k fd.
Proof.
  intros (G & fh & Hi & HI). destruct (ix_lookup _ _ _ _ k Hi) as (ofs & E & Hv). destruct (G !! Some k) as [[h xs]|] eqn:EG; [|left; exists ofs; auto]. destruct Hv as [Hne Hh]. cbn in Hh.
  destruct (ix_groups _ _ _ _ Hi k h xs EG) as (_ & fds & _ & ->). destruct fds as [|fd fds _] using rev_ind.
  - left. exists ofs. split; [done|]. right. unfold found_head. rewrite Hh, (ls_empty _ _ _ _ _ (ix_lists _ _ _ _ Hi) EG). done.
  - right. exists fd, G, fh, h, (chain_of <$> fds). split; [done|]. split; [done|]. by rewrite fmap_app in EG.
Qed.

(** Taking the last descriptor off its list and putting it back changes nothing. *)
Lemma last_put_back s t I k fd ofs : index_last s t I k fd -> st_lookup t k = Some ofs -> index_last (list_insert_tail (list_remove s (chain_of fd)) (found_head t ofs) (chain_of fd)) t I k fd.
Proof.
  intros (G & fh & h & xs & Hi & HI & Hk) E. destruct (ix_lookup _ _ _ _ k Hi) as (ofs' & E' & Hv). rewrite Hk in Hv. destruct Hv as [_ Hh]. cbn in Hh.
  rewrite E in E'. injection E' as <-. unfold found_head. rewrite Hh. pose proof (ix_remove _ _ _ _ k h xs fd [] Hi Hk) as Hi2. rewrite app_nil_r in Hi2.
  assert (HG : <[Some k := (h, xs ++ [chain_of fd])]> (<[Some k := (h, xs)]> G) = G) by (rewrite insert_insert_eq; by apply insert_id).
  exists G, fh, h, xs. split; [|done]. rewrite <- HG. apply ix_add; [done|by rewrite lookup_insert_eq| |].
  - eapply idle_in_range; [exact Hi|]. exists h, (xs ++ [chain_of fd]). split; [done|]. apply elem_of_app. right. by left.
  - intros k'. rewrite idle_in_insert. case_decide as Ek.
    + intros Hin. pose proof (ls_nodup _ _ _ _ _ (ix_lists _ _ _ _ Hi) Hk) as Hnd. apply NoDup_cons in Hnd as [_ Hnd]. apply NoDup_app in Hnd as (_ & Hd & _). apply (Hd _ Hin). by left.
    + intros Hin. apply Ek. eapply (idle_in_key _ _ _ _ fd k' k Hi Hin). exists h, (xs ++ [chain_of fd]). split; [done|]. apply elem_of_app. right. by left.
Qed.

Lemma last_idle s t I k fd : index_last s t I k fd -> I !! fd = Some k.
Proof. intros (G & fh & h & xs & _ & HI & Hk). apply HI. exists h, (xs ++ [chain_of fd]). split; [done|]. apply elem_of_app. right. by left. Qed.
End IndexMap.

(** ** Clients in use *)

(** A client whose fiber waits for its connection (or has not started), one that runs, and one
    whose fiber has ended. *)
Inductive use := Waiting | Running | Done.

(** A descriptor is idle, for the client with its key, or a client has it. *)
Inductive holder := Idle (key : list Z) | ByClient (ctx : Z).

Section Pool.
Context `{StringTableLaws T, address_space} `{layout_ok} (o : os) (stale : Z -> Z -> Z).
Context (sizeof_ribs_context sizeof_client grow event_loop_ctx idle_ctx current_ctx : Z).
Hypothesis (Hctx : 0 < sizeof_ribs_context) (Hres : 0 <= sizeof_client) (Hrc : sizeof_ribs_context + sizeof_client <= CLIENT_STACK_SIZE).
Hypothesis (Hgrow : 0 <= grow) (Hfit : grow * page_round CLIENT_STACK_SIZE < 2 ^ 64) (Hloop : event_loop_ctx <> idle_ctx).
Local Notation ctx_inv cw fl live := (exists mapped0, cp_inv sizeof_ribs_context grow CLIENT_STACK_SIZE sizeof_client mapped0 cw fl live).

Definition client_of (w : pool_world T) (c : Z) : client := default client_zero (pw_clients w !! c).

(** The client has its connection: it is in use, or has ended with a connection to keep. *)
Definition owns (w : pool_world T) (U : gmap Z use) (c fd : Z) : Prop :=
  exists u, U !! c = Some u /\ cl_fd (client_of w c) = fd /\ (u = Done -> cc_persistent (cl_http (client_of w c)) = true).

Definition buffers_ok (h : http_client_context) : Prop := forall mem, startable o 4096 (mem, cc_request h) /\ startable o 4096 (mem, cc_response h).

(** Who has an open descriptor. *)
Abbreviation holders := (gmap Z holder).
Definition idle_keys (D : holders) : gmap Z (list Z) := omap (fun h => match h with Idle k => Some k | ByClient _ => None end) D.

(** The descriptor [fd] is open for the key that its holder has. *)
Definition held (w : pool_world T) (fd : Z) (h : holder) : Prop :=
  in_range fd /\ exists key, key_ok key /\ pw_open w !! fd = Some key /\ match h with Idle k => key_bytes key = k | ByClient c => cl_key (client_of w c) = key end.

Record pool_inv (w : pool_world T) (U : gmap Z use) (D : holders) : Prop := {
  pi_index : index_holds (pw_lists w) (ht_persistent_clients w) (idle_keys D);
  pi_ctx : exists fl live, ctx_inv (pw_ctx_pool w) fl live /\ forall c, is_Some (U !! c) -> c ∈ live;
  pi_buffers : forall c, buffers_ok (cl_http (client_of w c));
  pi_wait : forall fd, fd ∈ wc_fds (pw_timeout w) <-> exists c, D !! fd = Some (ByClient c) /\ U !! c = Some Waiting;
  pi_idle : forall fd, fd ∈ wc_fds (pw_timeout_persistent w) <-> exists k, D !! fd = Some (Idle k);
  pi_fd_ctx : forall fd, pw_fd_ctx w !! fd = Some idle_ctx <-> exists k, D !! fd = Some (Idle k);
  pi_client : forall c fd, owns w U c fd <-> D !! fd = Some (ByClient c);
  pi_held : forall fd h, D !! fd = Some h -> held w fd h;
}.

(** *** The steps of the operations *)
Definition with_index (w : pool_world T) (s : store) (t : T) : pool_world T :=
  PoolWorld s t (pw_ctx_pool w) (pw_clients w) (pw_memory w) (pw_timeout w) (pw_timeout_persistent w) (pw_timestamp w) (pw_fd_ctx w) (pw_open w) (pw_now w).
Definition with_ctx_pool (w : pool_world T) (c : ctx_world) : pool_world T :=
  PoolWorld (pw_lists w) (ht_persistent_clients w) c (pw_clients w) (pw_memory w) (pw_timeout w) (pw_timeout_persistent w) (pw_timestamp w) (pw_fd_ctx w) (pw_open w) (pw_now w).
Definition with_fds (w : pool_world T) (ctxs : gmap Z Z) (op : gmap Z http_client_key) : pool_world T :=
  PoolWorld (pw_lists w) (ht_persistent_clients w) (pw_ctx_pool w) (pw_clients w) (pw_memory w) (pw_timeout w) (pw_timeout_persistent w) (pw_timestamp w) ctxs op (pw_now w).
Definition with_waiting (w : pool_world T) (wait idle : wait_chain) (stamps : gmap Z timeval) : pool_world T :=
  PoolWorld (pw_lists w) (ht_persistent_clients w) (pw_ctx_pool w) (pw_clients w) (pw_memory w) wait idle stamps (pw_fd_ctx w) (pw_open w) (pw_now w).
Definition with_client (w : pool_world T) (mem : world) (ctx : Z) (c : client) : pool_world T :=
  PoolWorld (pw_lists w) (ht_persistent_clients w) (pw_ctx_pool w) (<[ctx := c]> (pw_clients w)) mem (pw_timeout w) (pw_timeout_persistent w) (pw_timestamp w) (pw_fd_ctx w) (pw_open w) (pw_now w).
Definition closed (w : pool_world T) (fd : Z) : pool_world T := with_fds w (<[fd := event_loop_ctx]> (pw_fd_ctx w)) (delete fd (pw_open w)).
Definition off_chains (w : pool_world T) (fd : Z) : pool_world T := with_waiting w (chain_without (pw_timeout w) fd) (chain_without (pw_timeout_persistent w) fd) (pw_timestamp w).
Definition on_wait_chain (w : pool_world T) (fd : Z) : pool_world T :=
  with_waiting w (fst (add_to_chain (pw_timeout w) (pw_timestamp w) (pw_now w) fd)) (pw_timeout_persistent w) (<[fd := pw_now w]> (pw_timestamp w)).
Definition on_idle_chain (w : pool_world T) (fd : Z) : pool_world T :=
  with_waiting w (pw_timeout w) (fst (add_to_chain (pw_timeout_persistent w) (pw_timestamp w) (pw_now w) fd)) (<[fd := pw_now w]> (pw_timestamp w)).

Lemma on_lists_eval {A} (w : pool_world T) (f : store -> store * A) s x : f (pw_lists w) = (s, x) -> on_lists f w = Some (x, with_index w s (ht_persistent_clients w)).
Proof. intros E. unfold on_lists. by rewrite E. Qed.

Lemma on_ctx_pool_eval {A} (w : pool_world T) (m : CP A) x c : m (pw_ctx_pool w) = Some (x, c) -> on_ctx_pool m w = Some (x, with_ctx_pool w c).
Proof. intros E. unfold on_ctx_pool. by rewrite E. Qed.

Lemma remove_fd_data_eval (w : pool_world T) fd : fd ∈ wc_fds (pw_timeout w) ++ wc_fds (pw_timeout_persistent w) -> remove_fd_data fd w = Some (tt, off_chains w fd).
Proof. intros Hin. unfold remove_fd_data, pw_self. rewrite (bind_eval _ _ _ _ _ eq_refl). by rewrite bool_decide_true. Qed.

Lemma client_chain_eval fd (w : pool_world T) : in_range fd -> client_chain fd w = Some (chain_of fd, w).
Proof. intros Hr. unfold client_chain. unfold in_range in Hr. rewrite (proj2 (Z.leb_le 0 fd)), (proj2 (Z.ltb_lt fd rlim_cur)) by lia. done. Qed.

Lemma chain_without_fds c fd x : x ∈ wc_fds (chain_without c fd) <-> x ∈ wc_fds c /\ x <> fd.
Proof. unfold chain_without, TIMEOUT_HANDLER_REMOVE_FD_DATA. cbn. rewrite list_elem_of_filter. tauto. Qed.

Lemma add_to_chain_fds c stamps now fd x : x ∈ wc_fds (fst (add_to_chain c stamps now fd)) <-> x ∈ wc_fds c \/ x = fd.
Proof. unfold add_to_chain. cbn. rewrite elem_of_app, list_elem_of_singleton. done. Qed.

(** [persistent_head] on what stands for the map [I]. *)
Lemma persistent_head_eval w I key fd : index_holds (pw_lists w) (ht_persistent_clients w) I ->
  persistent_head event_loop_ctx key fd w = Some (None, closed w fd) /\ list_empty (pw_lists w) free_list = true
  \/ exists s t head, persistent_head event_loop_ctx key fd w = Some (Some head, with_index w s t) /\ takes s t I (key_bytes key) head.
Proof.
  intros (G & fh & Hi & HI). unfold persistent_head, pw_self. rewrite (bind_eval _ _ _ _ _ eq_refl). destruct (ix_lookup _ _ _ _ (key_bytes key) Hi) as (ofs & E & Hv). rewrite E.
  destruct (G !! Some (key_bytes key)) as [[h xs]|] eqn:EG.
  - right. destruct Hv as [Hne Hh]. rewrite (proj2 (Z.eqb_neq ofs 0)) by done. exists (pw_lists w), (ht_persistent_clients w), h. cbn in Hh. rewrite Hh. split; [by destruct w|by eapply holds_takes].
  - subst ofs. cbn [Z.eqb]. pose proof (ls_empty _ _ _ _ _ (ix_lists _ _ _ _ Hi) (ix_free _ _ _ _ Hi)) as He. destruct fh as [|i fh].
    + left. rewrite He. by destruct w.
    + right. rewrite He. cbn. destruct (ix_new _ _ _ _ i (key_bytes key) Hi EG) as (s1 & t' & loc & Ep & Et & Hi'); [rewrite length_key_bytes; lia|].
      exists (list_init s1 (head_of i)), t', (head_of i). split.
      * rewrite (bind_eval _ _ _ _ _ (on_lists_eval w (fun s => list_pop_head s free_list) s1 (head_of i) Ep)). rewrite head_index. pose proof (ix_fh _ _ _ _ Hi) as Hfh. apply Forall_cons in Hfh as [Hir _]. pose proof lo_size.
        assert (0 <= i < 2 ^ 32) by (unfold in_range in *; lia). rewrite u32_small by lia. rewrite Et. done.
      * eapply holds_takes; [exact Hi'| |by rewrite lookup_insert_eq]. intros fd' k'. rewrite HI, idle_in_insert. case_decide as Ek.
        -- subst k'. split; [intros (h' & xs' & E2 & _); congruence|by intros []%elem_of_nil].
        -- unfold idle_in. by rewrite lookup_insert_ne.
Qed.

(** *** The map of holders *)
Lemma idle_keys_lookup D fd k : idle_keys D !! fd = Some k <-> D !! fd = Some (Idle k).
Proof.
  unfold idle_keys. rewrite lookup_omap. destruct (D !! fd) as [[k'|c]|]; cbn; split; congruence.
Qed.
Lemma idle_keys_none D fd : (forall k, D !! fd <> Some (Idle k)) -> idle_keys D !! fd = None.
Proof. intros Hno. destruct (idle_keys D !! fd) eqn:E; [|done]. apply idle_keys_lookup in E. by apply Hno in E. Qed.
Lemma idle_keys_insert D fd k : idle_keys (<[fd := Idle k]> D) = <[fd := k]> (idle_keys D).
Proof. unfold idle_keys. by erewrite omap_insert_Some. Qed.
Lemma idle_keys_delete D fd : idle_keys (delete fd D) = delete fd (idle_keys D).
Proof. unfold idle_keys. apply omap_delete. Qed.
Lemma idle_keys_client D fd c : idle_keys (<[fd := ByClient c]> D) = delete fd (idle_keys D).
Proof. unfold idle_keys. by rewrite omap_insert_None. Qed.
Lemma delete_none {A} (m : gmap Z A) i : m !! i = None -> delete i m = m.
Proof. apply delete_id. Qed.

(** A holder has one descriptor, by the record of the client. *)
Lemma owner_fd w U D c u : pool_inv w U D -> U !! c = Some u -> (u = Done -> cc_persistent (cl_http (client_of w c)) = true) -> D !! cl_fd (client_of w c) = Some (ByClient c).
Proof. intros Hi Hu Hp. apply (pi_client _ _ _ Hi). by exists u. Qed.

Lemma owns_fd w U c fd : owns w U c fd -> cl_fd (client_of w c) = fd.
Proof. by intros (u & _ & ? & _). Qed.

Lemma other_holder w U D c fd c' fd' : pool_inv w U D -> D !! fd = Some (ByClient c) -> D !! fd' = Some (ByClient c') -> (fd' <> fd <-> c' <> c).
Proof.
  intros Hi HD HD'. pose proof (proj2 (pi_client _ _ _ Hi c fd) HD) as Ho. pose proof (proj2 (pi_client _ _ _ Hi c' fd') HD') as Ho'.
  split; intros Hne ->; apply Hne; [by rewrite <- (owns_fd _ _ _ _ Ho), (owns_fd _ _ _ _ Ho')|congruence].
Qed.

Lemma put_ok cw fl live c : ctx_inv cw fl live -> c ∈ live ->
  exists cw' live', ctx_pool_put c cw = Some (tt, cw') /\ ctx_inv cw' (c :: fl) live' /\ forall x, x ∈ live -> x <> c -> x ∈ live'.
Proof.
  intros [mapped0 Hi] Hc. apply list_elem_of_split in Hc as (l1 & l2 & ->). assert (Hp : l1 ++ c :: l2 ≡ₚ c :: (l1 ++ l2)) by (by rewrite Permutation_middle).
  destruct (put_inv sizeof_ribs_context grow CLIENT_STACK_SIZE sizeof_client Hctx Hres ltac:(unfold CLIENT_STACK_SIZE; lia) Hrc mapped0 cw fl _ (l1 ++ l2) c Hi Hp) as (cw' & E & Hi').
  exists cw', (l1 ++ l2). split; [done|]. split; [by exists mapped0|]. intros x. rewrite Hp. intros [->|?]%elem_of_cons; done.
Qed.

(** *** Freeing a client *)

(** The client is no longer in use; what becomes of its descriptor is [D']. *)
Lemma owns_delete w w' U c c' fd : (forall x, client_of w' x = client_of w x) -> owns w' (delete c U) c' fd <-> owns w U c' fd /\ c' <> c.
Proof.
  intros Hw. unfold owns. rewrite Hw. split.
  - intros (u & Hu%lookup_delete_Some & Hr). destruct Hu as [Hne Hu]. split; [by exists u|done].
  - intros [(u & Hu & Hr) Hne]. exists u. split; [by rewrite lookup_delete_ne|done].
Qed.

Lemma free_plain_inv w U D c cw : pool_inv w U D -> U !! c = Some Done -> cc_persistent (cl_http (client_of w c)) = false ->
  (exists fl live, ctx_inv cw fl live /\ forall x, is_Some (delete c U !! x) -> x ∈ live) -> pool_inv (with_ctx_pool w cw) (delete c U) D.
Proof.
  intros Hi Hu Hp Hcw. destruct Hi as [J1 J2 J3 J4 J5 J6 J7 J8]. assert (Hno : forall fd, D !! fd <> Some (ByClient c)).
  { intros fd (u & Hu' & _ & Hd)%J7. rewrite Hu in Hu'. injection Hu' as <-. rewrite Hd in Hp by done. done. }
  split; try done.
  - intros fd. rewrite J4. split; intros (c' & HD & Hw); exists c'; (split; [done|]); [|by apply lookup_delete_Some in Hw as [_ ?]].
    rewrite lookup_delete_ne; [done|]. intros <-. by apply (Hno fd).
  - intros c' fd. rewrite (owns_delete w) by done. rewrite J7. split; [by intros [? _]|]. intros HD. split; [done|]. intros ->. by apply (Hno fd).
Qed.

(** The descriptor of a client that is freed is closed. *)
Lemma free_closed_inv w U D c : pool_inv w U D -> U !! c = Some Done -> cc_persistent (cl_http (client_of w c)) = true ->
  let fd := cl_fd (client_of w c) in pool_inv (closed (with_fds w (<[fd := idle_ctx]> (pw_fd_ctx w)) (pw_open w)) fd) (delete c U) (delete fd D).
Proof.
  intros Hi Hu Hp fd. assert (HD : D !! fd = Some (ByClient c)) by exact (owner_fd w U D c Done Hi Hu (fun _ => Hp)). pose proof Hi as [J1 (fl & live & Hcw & Hl) J3 J4 J5 J6 J7 J8].
  pose proof (fun c' fd' => other_holder w U D c fd c' fd' Hi HD) as Hother.
  split; cbn [closed with_fds pw_lists ht_persistent_clients pw_ctx_pool pw_timeout pw_timeout_persistent pw_fd_ctx pw_open].
  - rewrite idle_keys_delete, delete_id; [done|]. apply idle_keys_none. intros k. congruence.
  - exists fl, live. split; [done|]. intros x [u Hx]. apply lookup_delete_Some in Hx as [_ Hx]. apply Hl. by exists u.
  - done.
  - intros fd'. rewrite J4. split; intros (c' & Hd & Hw); exists c'.
    + split; [apply lookup_delete_Some; split; [|done]|]. { intros <-. rewrite HD in Hd. injection Hd as <-. congruence. } rewrite lookup_delete_ne; [done|]. intros <-. congruence.
    + apply lookup_delete_Some in Hd as [_ Hd]. by apply lookup_delete_Some in Hw as [_ Hw].
  - intros fd'. rewrite J5. split; intros (k & Hd); exists k; [|by apply lookup_delete_Some in Hd as [_ ?]]. rewrite lookup_delete_ne; [done|]. intros <-. congruence.
  - intros fd'. rewrite insert_insert_eq. destruct (decide (fd' = fd)) as [->|Hne].
    + rewrite lookup_insert_eq, lookup_delete_eq. split; [congruence|by intros []].
    + rewrite lookup_insert_ne, lookup_delete_ne by done. apply J6.
  - intros c' fd'. rewrite (owns_delete w) by done. rewrite J7, lookup_delete_Some. split; intros [Ha Hb]; split; try done; [intros <-; eapply Hother in Hb; done|].
    intros ->. destruct (Hother c fd' Hb) as [Hx _]. by apply Hx.
  - intros fd' h Hd. apply lookup_delete_Some in Hd as [Hne Hd]. destruct (J8 fd' h Hd) as (Hr & key & Hk & Ho & Hm). split; [done|]. exists key. split; [done|]. split; [|done]. cbn. by rewrite lookup_delete_ne.
Qed.

(** It is kept for the next client with the key. *)
Lemma free_kept_inv w U D c s t head : pool_inv w U D -> U !! c = Some Done -> cc_persistent (cl_http (client_of w c)) = true ->
  let fd := cl_fd (client_of w c) in let k := key_bytes (cl_key (client_of w c)) in takes s t (idle_keys D) k head ->
  pool_inv (on_idle_chain (with_index (with_fds w (<[fd := idle_ctx]> (pw_fd_ctx w)) (pw_open w)) (list_insert_tail s head (chain_of fd)) t) fd) (delete c U) (<[fd := Idle k]> D).
Proof.
  intros Hi Hu Hp fd k Ht. assert (HD : D !! fd = Some (ByClient c)) by exact (owner_fd w U D c Done Hi Hu (fun _ => Hp)). pose proof Hi as [J1 (fl & live & Hcw & Hl) J3 J4 J5 J6 J7 J8].
  pose proof (fun c' fd' => other_holder w U D c fd c' fd' Hi HD) as Hother. destruct (J8 fd _ HD) as (Hr & key & Hkey & Hopen & Hck).
  split; cbn [on_idle_chain with_waiting with_index with_fds pw_lists ht_persistent_clients pw_ctx_pool pw_timeout pw_timeout_persistent pw_fd_ctx pw_open].
  - rewrite idle_keys_insert. eapply last_holds, Ht; [done|]. apply idle_keys_none. congruence.
  - exists fl, live. split; [done|]. intros x [u Hx]. apply lookup_delete_Some in Hx as [_ Hx]. apply Hl. by exists u.
  - done.
  - intros fd'. rewrite J4. split; intros (c' & Hd & Hw); exists c'.
    + split; [rewrite lookup_insert_ne; [done|]; intros <-; rewrite HD in Hd; injection Hd as <-; congruence|]. rewrite lookup_delete_ne; [done|]. intros <-. congruence.
    + apply lookup_insert_Some in Hd as [[_ ?]|[_ Hd]]; [done|]. by apply lookup_delete_Some in Hw as [_ Hw].
  - intros fd'. rewrite add_to_chain_fds, J5. destruct (decide (fd' = fd)) as [->|Hne]; [rewrite lookup_insert_eq; naive_solver|rewrite lookup_insert_ne by done; naive_solver].
  - intros fd'. destruct (decide (fd' = fd)) as [->|Hne]; [rewrite !lookup_insert_eq; naive_solver|rewrite !lookup_insert_ne by done; apply J6].
  - intros c' fd'. rewrite (owns_delete w) by done. rewrite J7. split.
    + intros [Hd Hne]. rewrite lookup_insert_ne; [done|]. intros <-. congruence.
    + intros [[_ ?]|[Hne Hd]]%lookup_insert_Some; [done|]. split; [done|]. destruct (Hother c' fd' Hd) as [Hx _]. apply Hx. congruence.
  - intros fd' h [[<- <-]|[Hne Hd]]%lookup_insert_Some; [|by apply J8]. split; [done|]. exists key. split; [done|]. split; [done|]. unfold k. by rewrite Hck.
Qed.

(** The connection of a client that was freed is kept, as the last one with its key. *)
Record kept (w w' : pool_world T) (D' : holders) (c : Z) : Prop := {
  kept_idle : D' !! cl_fd (client_of w c) = Some (Idle (key_bytes (cl_key (client_of w c))));
  kept_last : index_last (pw_lists w') (ht_persistent_clients w') (idle_keys D') (key_bytes (cl_key (client_of w c))) (cl_fd (client_of w c));
  kept_stamp : pw_timestamp w' !! cl_fd (client_of w c) = Some (pw_now w);
  kept_ctx : cp_freelist (cw_pool (pw_ctx_pool w')) <> 0;
}.

(** [http_client_free] of a client that has ended. *)
Lemma free_ok w U D c : pool_inv w U D -> U !! c = Some Done ->
  exists w' D', http_client_free event_loop_ctx idle_ctx c w = Some (tt, w') /\ pool_inv w' (delete c U) D'
    /\ (cc_persistent (cl_http (client_of w c)) = true -> is_Some (pw_open w' !! cl_fd (client_of w c)) -> kept w w' D' c).
Proof.
  intros Hi Hu. destruct (pi_ctx _ _ _ Hi) as (fl & live & Hcw & Hl). assert (Hlive : c ∈ live) by (apply Hl; by exists Done).
  destruct (put_ok _ _ _ _ Hcw Hlive) as (cw & live' & Ecw & Hcw' & Hl'). assert (Hput : exists fl live, ctx_inv cw fl live /\ forall x, is_Some (delete c U !! x) -> x ∈ live).
  { exists (c :: fl), live'. split; [done|]. intros x [u Hx]. apply lookup_delete_Some in Hx as [Hne Hx]. apply Hl'; [|done]. apply Hl. by exists u. }
  unfold http_client_free, client_at. rewrite (bind_eval _ _ _ (client_of w c) w) by done. destruct (cc_persistent (cl_http (client_of w c))) eqn:Ep; cycle 1.
  { exists (with_ctx_pool w cw), D. split; [exact (on_ctx_pool_eval w _ _ _ Ecw)|]. split; [by apply free_plain_inv|done]. }
  set (fd := cl_fd (client_of w c)). set (w1 := with_fds w (<[fd := idle_ctx]> (pw_fd_ctx w)) (pw_open w)). cbv zeta. rewrite (bind_eval (epoll_worker_set_fd_ctx fd idle_ctx) _ _ tt w1) by done.
  destruct (persistent_head_eval w1 (idle_keys D) (cl_key (client_of w c)) fd (pi_index _ _ _ Hi)) as [[E _]|(s & t & head & E & Ht)]; rewrite (bind_eval _ _ _ _ _ E).
  { exists (closed w1 fd), (delete fd D). split; [done|]. split; [by apply free_closed_inv|]. intros _ [k Hopen]. unfold closed in Hopen. cbn in Hopen. by rewrite lookup_delete_eq in Hopen. }
  assert (HD : D !! fd = Some (ByClient c)) by exact (owner_fd w U D c Done Hi Hu (fun _ => Ep)). destruct (pi_held _ _ _ Hi fd _ HD) as (Hr & _). rewrite (bind_eval _ _ _ _ _ (client_chain_eval fd _ Hr)).
  pose proof (free_kept_inv w U D c s t head Hi Hu Ep Ht) as Hk. cbv zeta in Hk. fold fd w1 in Hk. set (w2 := with_index w1 (list_insert_tail s head (chain_of fd)) t) in *.
  rewrite (bind_eval _ _ _ tt w2) by done. rewrite (bind_eval (add_timeout_persistent fd) _ _ tt (on_idle_chain w2 fd)) by done.
  exists (with_ctx_pool (on_idle_chain w2 fd) cw), (<[fd := Idle (key_bytes (cl_key (client_of w c)))]> D). split; [exact (on_ctx_pool_eval (on_idle_chain w2 fd) _ _ _ Ecw)|].
  destruct Hk as [J1 _ J3 J4 J5 J6 J7 J8]. split; [by split|]. intros _ _. split.
  - apply lookup_insert_eq.
  - rewrite idle_keys_insert. apply Ht; [done|]. apply idle_keys_none. intros k E'. change (D !! fd = Some (Idle k)) in E'. congruence.
  - cbn. apply lookup_insert_eq.
  - cbn. destruct Hcw' as [m0 Hcw']. destruct (ci_chain _ _ _ _ _ _ _ _ Hcw') as (-> & Hc0 & _). done.
Qed.

(** *** Idle connections *)

(** An idle descriptor leaves its list and its chain; [w'] has it no longer in the index. *)
Lemma idle_leaves_inv w U D fd k : pool_inv w U D -> D !! fd = Some (Idle k) ->
  let w1 := off_chains (with_index w (list_remove (pw_lists w) (chain_of fd)) (ht_persistent_clients w)) fd in
  forall ctx op, ctx <> idle_ctx -> (forall fd', fd' <> fd -> op !! fd' = pw_open w !! fd') -> pool_inv (with_fds w1 (<[fd := ctx]> (pw_fd_ctx w)) op) U (delete fd D).
Proof.
  intros [J1 J2 J3 J4 J5 J6 J7 J8] HD w1 ctx op Hctx' Hop.
  split; cbn [w1 off_chains with_waiting with_index with_fds pw_lists ht_persistent_clients pw_ctx_pool pw_timeout pw_timeout_persistent pw_fd_ctx pw_open]; try done.
  - rewrite idle_keys_delete. eapply holds_remove; [done|]. by apply idle_keys_lookup.
  - intros fd'. rewrite chain_without_fds, J4. setoid_rewrite lookup_delete_Some. split; [|naive_solver]. intros [(c & Hc & Hw) Hne]. by exists c.
  - intros fd'. rewrite chain_without_fds, J5. setoid_rewrite lookup_delete_Some. split; [|naive_solver]. intros [(k' & Hk') Hne]. by exists k'.
  - intros fd'. destruct (decide (fd' = fd)) as [->|Hne]; [rewrite lookup_insert_eq, lookup_delete_eq; naive_solver|rewrite lookup_insert_ne, lookup_delete_ne by done; apply J6].
  - intros c fd'. rewrite lookup_delete_Some. unfold owns in *. cbn. unfold client_of in *. cbn. rewrite (J7 c fd'). split; [|by intros [_ ?]]. intros Hc. split; [|done]. intros <-. congruence.
  - intros fd' h [Hne Hd]%lookup_delete_Some. destruct (J8 fd' h Hd) as (Hr & key & Hk & Ho & Hm). split; [done|]. exists key. split; [done|]. split; [|done]. cbn. by rewrite Hop.
Qed.

Lemma idle_on_chain w U D fd k : pool_inv w U D -> D !! fd = Some (Idle k) -> fd ∈ wc_fds (pw_timeout w) ++ wc_fds (pw_timeout_persistent w).
Proof. intros Hi HD. apply elem_of_app. right. apply (pi_idle _ _ _ Hi). by exists k. Qed.

Lemma idle_handler_ok w U D events fd k : pool_inv w U D -> D !! fd = Some (Idle k) ->
  exists w', http_client_idle_handler event_loop_ctx events fd w = Some (tt, w')
    /\ if events =? EPOLLOUT then w' = w else pool_inv w' U (delete fd D) /\ pw_open w' = delete fd (pw_open w).
Proof.
  intros Hi HD. unfold http_client_idle_handler. destruct (events =? EPOLLOUT); [by exists w|]. destruct (pi_held _ _ _ Hi fd _ HD) as (Hr & _).
  rewrite (bind_eval _ _ _ _ _ (client_chain_eval fd w Hr)). set (w1 := with_index w (list_remove (pw_lists w) (chain_of fd)) (ht_persistent_clients w)). rewrite (bind_eval _ _ _ tt w1) by done.
  rewrite (bind_eval (ribs_close event_loop_ctx fd) _ _ tt (closed w1 fd)) by done. eexists. split; [apply remove_fd_data_eval; exact (idle_on_chain w U D fd k Hi HD)|]. split; [|done].
  apply (idle_leaves_inv w U D fd k Hi HD event_loop_ctx); [done|]. intros fd' Hne. by apply lookup_delete_ne.
Qed.

(** *** What fibers do *)

(** The client's fiber stops or goes on; nothing but the chain of its descriptor changes. *)
Lemma use_change_inv w w' U D c u u' : pool_inv w U D -> U !! c = Some u -> u <> Done -> u' <> Done ->
  (exists ch st, w' = with_waiting w ch (chain_without (pw_timeout_persistent w) (cl_fd (client_of w c))) st /\ forall fd, fd ∈ wc_fds ch <-> (if decide (fd = cl_fd (client_of w c)) then u' = Waiting else fd ∈ wc_fds (pw_timeout w))) ->
  pool_inv w' (<[c := u']> U) D.
Proof.
  intros Hi Hu Hnd Hnd' (ch & st & -> & Hch). assert (HD : D !! cl_fd (client_of w c) = Some (ByClient c)) by (eapply owner_fd; eauto; congruence). pose proof Hi as [J1 (fl & live & Hcw & Hl) J3 J4 J5 J6 J7 J8].
  split; cbn [with_waiting pw_lists ht_persistent_clients pw_ctx_pool pw_timeout pw_timeout_persistent pw_fd_ctx pw_open]; try done.
  - exists fl, live. split; [done|]. intros x Hx. apply Hl. destruct (decide (x = c)) as [->|Hne]; [by exists u|by rewrite lookup_insert_ne in Hx].
  - intros fd. rewrite Hch. case_decide as Efd.
    + subst fd. rewrite HD. split; [intros ->; exists c; by rewrite lookup_insert_eq|]. intros (c' & [= <-] & Hw). rewrite lookup_insert_eq in Hw. congruence.
    + rewrite J4. split; intros (c' & Hd & Hw); exists c'; (split; [done|]); pose proof (proj1 (other_holder w U D c _ c' fd Hi HD Hd) Efd); by rewrite lookup_insert_ne in *.
  - intros fd. rewrite chain_without_fds, J5. split; [by intros [? _]|]. intros (k & Hk). split; [by exists k|]. intros ->. congruence.
  - intros c' fd. rewrite <- J7. unfold owns. change (client_of (with_waiting _ _ _ _) c') with (client_of w c'). destruct (decide (c' = c)) as [->|Hne].
    + rewrite lookup_insert_eq, Hu. naive_solver.
    + by rewrite lookup_insert_ne.
Qed.

Lemma owner_on_chain w U D c : pool_inv w U D -> U !! c = Some Waiting -> cl_fd (client_of w c) ∈ wc_fds (pw_timeout w).
Proof. intros Hi Hu. apply (pi_wait _ _ _ Hi). exists c. split; [by eapply owner_fd|done]. Qed.

Lemma off_idle_chain w U D fd : pool_inv w U D -> (forall k, D !! fd <> Some (Idle k)) -> chain_without (pw_timeout_persistent w) fd = pw_timeout_persistent w.
Proof.
  intros Hi Hno. assert (Hn : fd ∉ wc_fds (pw_timeout_persistent w)) by (intros (k & Hk)%(pi_idle _ _ _ Hi); by apply (Hno k)). destruct (pw_timeout_persistent w) as [ms fds tm]. unfold chain_without. cbn in *. f_equal.
  clear -Hn. induction fds as [|x fds IH]; [done|]. apply not_elem_of_cons in Hn as [Hx Hn]. rewrite filter_cons_True by congruence. by rewrite IH.
Qed.

Lemma resumes_ok w U D c : pool_inv w U D -> U !! c = Some Waiting -> exists w', fiber_resumes c w = Some (tt, w') /\ pool_inv w' (<[c := Running]> U) D.
Proof.
  intros Hi Hu. unfold fiber_resumes, client_at. rewrite (bind_eval _ _ _ (client_of w c) w) by done. exists (off_chains w (cl_fd (client_of w c))). split.
  - apply remove_fd_data_eval. apply elem_of_app. left. by eapply owner_on_chain.
  - eapply (use_change_inv w _ U D c Waiting Running); [done..|]. eexists _, _. split; [done|]. intros fd. rewrite chain_without_fds. case_decide; naive_solver.
Qed.

Lemma waits_ok w U D c : pool_inv w U D -> U !! c = Some Running -> exists w', fiber_waits c w = Some (tt, w') /\ pool_inv w' (<[c := Waiting]> U) D.
Proof.
  intros Hi Hu. unfold fiber_waits, client_at. rewrite (bind_eval _ _ _ (client_of w c) w) by done. exists (on_wait_chain w (cl_fd (client_of w c))). split; [done|].
  eapply (use_change_inv w _ U D c Running Waiting); [done..|]. eexists _, _. split.
  - unfold on_wait_chain. rewrite (off_idle_chain w U D) at 1; [done|done|]. intros k. rewrite (owner_fd w U D c Running); [done|done|done|done].
  - intros fd. rewrite add_to_chain_fds. case_decide; naive_solver.
Qed.

Lemma client_of_with w mem c cl x : client_of (with_client w mem c cl) x = if decide (x = c) then cl else client_of w x.
Proof. unfold client_of. cbn. case_decide as E; [subst; by rewrite lookup_insert_eq|by rewrite lookup_insert_ne]. Qed.

(** The fiber ends with a connection to keep. *)
Lemma end_kept_inv w U D c http : pool_inv w U D -> U !! c = Some Running -> buffers_ok http -> cc_persistent http = true ->
  pool_inv (with_client w (pw_memory w) c (Client (cl_fd (client_of w c)) (cl_key (client_of w c)) http)) (<[c := Done]> U) D.
Proof.
  intros [J1 (fl & live & Hcw & Hl) J3 J4 J5 J6 J7 J8] Hu Hb Hp. split; try done.
  - exists fl, live. split; [done|]. intros x Hx. apply Hl. destruct (decide (x = c)) as [->|Hne]; [by exists Running|by rewrite lookup_insert_ne in Hx].
  - intros x. rewrite client_of_with. case_decide; [done|apply J3].
  - intros fd. cbn [with_client pw_timeout]. rewrite J4. split; intros (c' & Hd & Hw); exists c'; (split; [done|]); (destruct (decide (c' = c)) as [->|Hne]; [rewrite ?lookup_insert_eq in *; congruence|by rewrite lookup_insert_ne in *]).
  - intros c' fd. rewrite <- J7. unfold owns. rewrite client_of_with. case_decide as E; [subst c'; rewrite lookup_insert_eq, Hu; naive_solver|by rewrite lookup_insert_ne].
  - intros fd h Hd. destruct (J8 fd h Hd) as (Hr & key & Hk & Ho & Hm). split; [done|]. exists key. split; [done|]. split; [done|]. destruct h as [k|c']; [done|]. rewrite client_of_with. by case_decide; subst.
Qed.

(** The fiber ends and closes its connection. *)
Lemma end_closed_inv w U D c http : pool_inv w U D -> U !! c = Some Running -> buffers_ok http -> cc_persistent http = false ->
  let fd := cl_fd (client_of w c) in pool_inv (closed (with_client w (pw_memory w) c (Client fd (cl_key (client_of w c)) http)) fd) (<[c := Done]> U) (delete fd D).
Proof.
  intros Hi Hu Hb Hp fd. assert (HD : D !! fd = Some (ByClient c)) by (eapply owner_fd; eauto; congruence). pose proof (fun c' fd' => other_holder w U D c fd c' fd' Hi HD) as Hother.
  destruct Hi as [J1 (fl & live & Hcw & Hl) J3 J4 J5 J6 J7 J8]. set (w1 := with_client w (pw_memory w) c (Client fd (cl_key (client_of w c)) http)).
  assert (Hcl : forall x, client_of (closed w1 fd) x = if decide (x = c) then Client fd (cl_key (client_of w c)) http else client_of w x) by (intros x; apply client_of_with).
  split; cbn [w1 closed with_client with_fds pw_lists ht_persistent_clients pw_ctx_pool pw_timeout pw_timeout_persistent pw_fd_ctx pw_open].
  - rewrite idle_keys_delete, delete_id; [done|]. apply idle_keys_none. congruence.
  - exists fl, live. split; [done|]. intros x Hx. apply Hl. destruct (decide (x = c)) as [->|Hne]; [by exists Running|by rewrite lookup_insert_ne in Hx].
  - intros x. rewrite Hcl. case_decide; [done|apply J3].
  - intros fd'. rewrite J4. split; intros (c' & Hd & Hw); exists c'.
    + assert (Hc : c' <> c) by congruence. split; [|by rewrite lookup_insert_ne]. rewrite lookup_delete_ne; [done|]. intros <-. congruence.
    + apply lookup_delete_Some in Hd as [Hne Hd]. split; [done|]. pose proof (proj1 (Hother c' fd' Hd) ltac:(congruence)). by rewrite lookup_insert_ne in Hw.
  - intros fd'. rewrite J5. setoid_rewrite lookup_delete_Some. split; [|naive_solver]. intros (k & Hk). exists k. split; [congruence|done].
  - intros fd'. destruct (decide (fd' = fd)) as [->|Hne]; [rewrite lookup_insert_eq, lookup_delete_eq; naive_solver|rewrite lookup_insert_ne, lookup_delete_ne by done; apply J6].
  - intros c' fd'. rewrite lookup_delete_Some. unfold owns. rewrite Hcl. case_decide as E.
    + subst c'. rewrite lookup_insert_eq. split; [intros (u & [= <-] & _ & Hd); specialize (Hd eq_refl); cbn in Hd; congruence|]. intros [Hne Hd]. destruct (proj1 (Hother c fd' Hd) ltac:(congruence)). done.
    + rewrite lookup_insert_ne by done. fold (owns w U c' fd'). rewrite J7. split; [|by intros [_ ?]]. intros Hd. split; [|done]. intros <-. congruence.
  - intros fd' h [Hne Hd]%lookup_delete_Some. destruct (J8 fd' h Hd) as (Hr & key & Hk & Ho & Hm). split; [done|]. exists key. split; [done|]. split; [cbn; by rewrite lookup_delete_ne|].
    destruct h as [k|c']; [done|]. rewrite Hcl. case_decide; by subst.
Qed.

Lemma ends_ok w U D c http : pool_inv w U D -> U !! c = Some Running -> buffers_ok http ->
  exists w' D', fiber_ends event_loop_ctx c http w = Some (tt, w') /\ pool_inv w' (<[c := Done]> U) D'.
Proof.
  intros Hi Hu Hb. unfold fiber_ends, client_at. rewrite (bind_eval _ _ _ (client_of w c) w) by done.
  set (w1 := with_client w (pw_memory w) c (Client (cl_fd (client_of w c)) (cl_key (client_of w c)) http)). rewrite (bind_eval _ _ _ tt w1) by done.
  destruct (cc_persistent http) eqn:Ep; [exists w1, D; split; [done|by apply end_kept_inv]|]. eexists _, _. split; [reflexivity|]. by apply end_closed_inv.
Qed.

Lemma persistent_buffers h b : buffers_ok h -> buffers_ok (cc_with_persistent h b).
Proof. done. Qed.

(** [http_client_close_free] is the end of a fiber that failed, and freeing the client. *)
Lemma close_free_ok w U D c : pool_inv w U D -> U !! c = Some Running -> exists w' D', http_client_close_free event_loop_ctx idle_ctx c w = Some (tt, w') /\ pool_inv w' (delete c U) D'.
Proof.
  intros Hi Hu. destruct (ends_ok w U D c (cc_with_persistent (cl_http (client_of w c)) false) Hi Hu) as (w1 & D1 & E1 & Hi1); [apply (pi_buffers _ _ _ Hi)|].
  destruct (free_ok w1 (<[c := Done]> U) D1 c Hi1) as (w2 & D2 & E2 & Hi2 & _); [by rewrite lookup_insert_eq|]. exists w2, D2. rewrite delete_insert_eq in Hi2. split; [|done].
  unfold fiber_ends, client_at in E1. unfold http_client_close_free, client_at. rewrite (bind_eval _ _ _ (client_of w c) w) in E1 by done. rewrite (bind_eval _ _ _ (client_of w c) w) by done. cbn [cc_persistent cc_with_persistent] in E1.
  unfold set_client in *. rewrite (bind_eval _ _ _ _ _ eq_refl) in E1. rewrite (bind_eval _ _ _ _ _ eq_refl). by rewrite (bind_eval _ _ _ _ _ E1).
Qed.

(** *** Time *)
Lemma time_inv w U D wait idle stamps now : pool_inv w U D -> wc_fds wait = wc_fds (pw_timeout w) -> wc_fds idle = wc_fds (pw_timeout_persistent w) ->
  pool_inv (PoolWorld (pw_lists w) (ht_persistent_clients w) (pw_ctx_pool w) (pw_clients w) (pw_memory w) wait idle stamps (pw_fd_ctx w) (pw_open w) now) U D.
Proof. intros [J1 J2 J3 J4 J5 J6 J7 J8] E1 E2. split; cbn [pw_timeout pw_timeout_persistent]; rewrite ?E1, ?E2; done. Qed.

Lemma expiration_chain h now : timeout_chain (fst (fst (expiration_handler h now))) = timeout_chain h.
Proof. unfold expiration_handler. destruct (timeout_chain h) eqn:E; [done|]. by destruct (expire_loop _ _ _) as [[? ?] ?]. Qed.

Lemma expire_persistent_ok w U D : pool_inv w U D -> exists shut w', expire_persistent w = Some (shut, w') /\ pool_inv w' U D.
Proof.
  intros Hi. unfold expire_persistent, pw_self. rewrite (bind_eval _ _ _ _ _ eq_refl). pose proof (expiration_chain (chain_handler (pw_timeout_persistent w) (pw_timestamp w)) (pw_now w)) as Hc.
  destruct (expiration_handler _ _) as [[th shut] arm]. eexists _, _. split; [reflexivity|]. by apply time_inv.
Qed.
Lemma expire_timeout_ok w U D : pool_inv w U D -> exists shut w', expire_timeout w = Some (shut, w') /\ pool_inv w' U D.
Proof.
  intros Hi. unfold expire_timeout, pw_self. rewrite (bind_eval _ _ _ _ _ eq_refl). pose proof (expiration_chain (chain_handler (pw_timeout w) (pw_timestamp w)) (pw_now w)) as Hc.
  destruct (expiration_handler _ _) as [[th shut] arm]. eexists _, _. split; [reflexivity|]. by apply time_inv.
Qed.

(** *** Making a client *)

(** What [find_idle] does with a connection that was shut down. *)
Definition put_back (w : pool_world T) (key : http_client_key) (fd : Z) : option (option Z * pool_world T) :=
  match st_lookup (ht_persistent_clients w) (key_bytes key) with
  | Some ofs => Some (None, with_index w (list_insert_tail (list_remove (pw_lists w) (chain_of fd)) (found_head (ht_persistent_clients w) ofs) (chain_of fd)) (ht_persistent_clients w))
  | None => None
  end.

Lemma find_idle_last (w : pool_world T) I key fd : index_last (pw_lists w) (ht_persistent_clients w) I (key_bytes key) fd -> fd ∈ wc_fds (pw_timeout w) ++ wc_fds (pw_timeout_persistent w) ->
  find_idle key w = if timer_ne (default epoch (pw_timestamp w !! fd)) epoch
                    then Some (Some fd, off_chains (with_index w (list_remove (pw_lists w) (chain_of fd)) (ht_persistent_clients w)) fd)
                    else put_back w key fd.
Proof.
  intros Hl Hin. destruct (last_found _ _ _ _ _ Hl) as (ofs & E & Hne & He & Ht). unfold found_head in *. unfold find_idle, put_back, pw_self. rewrite (bind_eval _ _ _ _ _ eq_refl). rewrite E.
  rewrite (proj2 (Z.eqb_neq ofs 0)), He by done. cbn [negb andb]. unfold list_pop_tail. set (s := list_remove (pw_lists w) (chain_of fd)).
  rewrite (bind_eval _ _ _ (chain_of fd) (with_index w s (ht_persistent_clients w))) by (apply on_lists_eval; by rewrite Ht). rewrite chain_index.
  destruct (timer_ne _ _); [|done]. by rewrite (bind_eval _ _ _ _ _ (remove_fd_data_eval (with_index w s (ht_persistent_clients w)) fd Hin)).
Qed.

Lemma index_inv w U D s : pool_inv w U D -> index_holds s (ht_persistent_clients w) (idle_keys D) -> pool_inv (with_index w s (ht_persistent_clients w)) U D.
Proof. intros [J1 J2 J3 J4 J5 J6 J7 J8] Hs. by split. Qed.

(** An idle connection is found, or there is none that can be used and nothing changes. *)
Lemma find_idle_ok w U D key : pool_inv w U D ->
  (exists s, find_idle key w = Some (None, with_index w s (ht_persistent_clients w)) /\ pool_inv (with_index w s (ht_persistent_clients w)) U D)
  \/ exists fd, D !! fd = Some (Idle (key_bytes key)) /\ find_idle key w = Some (Some fd, off_chains (with_index w (list_remove (pw_lists w) (chain_of fd)) (ht_persistent_clients w)) fd).
Proof.
  intros Hi. destruct (holds_cases _ _ _ (key_bytes key) (pi_index _ _ _ Hi)) as [(ofs & E & Hno)|(fd & Hl)].
  - left. exists (pw_lists w). split; [|apply index_inv; [done|apply Hi]]. unfold find_idle, pw_self. rewrite (bind_eval _ _ _ _ _ eq_refl). rewrite E. unfold found_head in Hno.
    destruct Hno as [->|He]; [by destruct w|]. rewrite He, andb_false_r. by destruct w.
  - pose proof (last_idle _ _ _ _ _ Hl) as HD. apply idle_keys_lookup in HD. rewrite (find_idle_last w _ key fd Hl (idle_on_chain w U D fd _ Hi HD)). destruct (timer_ne _ _); [right; by exists fd|]. left.
    destruct (last_found _ _ _ _ _ Hl) as (ofs & E & _). eexists. split; [unfold put_back; by rewrite E|]. apply index_inv; [done|]. by eapply last_holds, last_put_back.
Qed.

Lemma fds_inv w U D ctxs op : pool_inv w U D -> (forall fd, is_Some (D !! fd) -> ctxs !! fd = pw_fd_ctx w !! fd /\ op !! fd = pw_open w !! fd) ->
  (forall fd, D !! fd = None -> ctxs !! fd <> Some idle_ctx) -> pool_inv (with_fds w ctxs op) U D.
Proof.
  intros [J1 J2 J3 J4 J5 J6 J7 J8] Hsome Hnone. split; try done.
  - intros fd. cbn [with_fds pw_fd_ctx]. destruct (D !! fd) as [h|] eqn:E; [|split; [by intros ?%Hnone|by intros []]]. destruct (Hsome fd) as [-> _]; [by exists h|]. rewrite <- E. apply J6.
  - intros fd h Hd. destruct (J8 fd h Hd) as (Hr & key & Hk & Ho & Hm). split; [done|]. exists key. split; [done|]. split; [|done]. cbn. destruct (Hsome fd) as [_ ->]; [by exists h|done].
Qed.

Lemma idle_ctx_none w U D fd : pool_inv w U D -> D !! fd = None -> pw_fd_ctx w !! fd <> Some idle_ctx.
Proof. intros Hi HD (k & Hk)%(pi_fd_ctx _ _ _ Hi). congruence. Qed.

Lemma open_connection_ok w U D key net : pool_inv w U D -> (0 <= sys_socket net -> pw_open w !! sys_socket net = None) ->
  exists cfd w', open_connection event_loop_ctx key net w = Some (cfd, w') /\ pool_inv w' U D /\ pw_clients w' = pw_clients w
    /\ (cfd < 0 /\ pw_open w' = pw_open w \/ cfd = sys_socket net /\ 0 <= cfd /\ D !! cfd = None /\ pw_open w' = <[cfd := key]> (pw_open w)) /\ pw_ctx_pool w' = pw_ctx_pool w.
Proof.
  intros Hi Hnew. unfold open_connection. destruct (Z.ltb_spec (sys_socket net) 0) as [Hneg|Hpos]; [exists (-1), w; split; [done|]; split; [done|]; split; [done|]; split; [left; split; [lia|done]|done]|].
  set (cfd := sys_socket net) in *. specialize (Hnew Hpos). assert (HD : D !! cfd = None).
  { destruct (D !! cfd) as [h|] eqn:E; [|done]. destruct (pi_held _ _ _ Hi cfd h E) as (_ & k & _ & Ho & _). congruence. }
  assert (Hinv : forall op, (forall fd, fd <> cfd -> op !! fd = pw_open w !! fd) -> pool_inv (with_fds w (<[cfd := event_loop_ctx]> (pw_fd_ctx w)) op) U D).
  { intros op Hop. apply fds_inv; [done| |].
    - intros fd [h Hh]. assert (fd <> cfd) by congruence. rewrite lookup_insert_ne by done. split; [done|by apply Hop].
    - intros fd Hd. destruct (decide (fd = cfd)) as [->|Hne]; [rewrite lookup_insert_eq; congruence|]. rewrite lookup_insert_ne by done. by eapply idle_ctx_none. }
  unfold pw_self. rewrite (bind_eval _ _ _ _ _ eq_refl). set (w1 := with_fds w (pw_fd_ctx w) (<[cfd := key]> (pw_open w))). rewrite (bind_eval _ _ _ tt w1) by done. destruct (negb _).
  - exists (-1), (closed w1 cfd). split; [done|]. split; [apply Hinv; intros fd Hne; cbn; rewrite lookup_delete_ne by done; by rewrite lookup_insert_ne|]. split; [done|]. split; [left; split; [lia|]|done].
    cbn. rewrite delete_insert_eq. by apply delete_id.
  - exists cfd, (with_fds w (<[cfd := event_loop_ctx]> (pw_fd_ctx w)) (<[cfd := key]> (pw_open w))). split; [done|]. split; [apply Hinv; intros fd Hne; by rewrite lookup_insert_ne|]. split; [done|]. split; [by right|done].
Qed.

(** The descriptor of a new client. *)
Definition started (w : pool_world T) (cw : ctx_world) (mem : world) (c cfd : Z) (cl : client) (ctx : Z) : pool_world T :=
  on_wait_chain (with_client (with_fds (with_ctx_pool w cw) (<[cfd := ctx]> (pw_fd_ctx w)) (pw_open w)) mem c cl) cfd.

Lemma started_inv w U D cw mem c cfd key http ctx : pool_inv w U D -> U !! c = None -> D !! cfd = None -> in_range cfd -> key_ok key -> pw_open w !! cfd = Some key -> ctx <> idle_ctx -> buffers_ok http ->
  (exists fl live, ctx_inv cw fl live /\ forall x, is_Some (<[c := Waiting]> U !! x) -> x ∈ live) ->
  pool_inv (started w cw mem c cfd (Client cfd key http) ctx) (<[c := Waiting]> U) (<[cfd := ByClient c]> D).
Proof.
  intros [J1 J2 J3 J4 J5 J6 J7 J8] Hc Hcfd Hr Hkey Hopen Hctx' Hb Hcw. set (w' := started w cw mem c cfd (Client cfd key http) ctx).
  assert (Hcl : forall x, client_of w' x = if decide (x = c) then Client cfd key http else client_of w x) by (intros x; exact (client_of_with w mem c (Client cfd key http) x)).
  assert (Hno : forall fd, D !! fd <> Some (ByClient c)) by (intros fd (u & Hu & _)%J7; congruence).
  split; cbn [w' started on_wait_chain with_waiting with_client with_fds with_ctx_pool pw_lists ht_persistent_clients pw_ctx_pool pw_timeout pw_timeout_persistent pw_fd_ctx pw_open].
  - rewrite idle_keys_client, delete_id; [done|]. apply idle_keys_none. congruence.
  - done.
  - intros x. rewrite Hcl. case_decide; [done|apply J3].
  - intros fd. rewrite add_to_chain_fds, J4. destruct (decide (fd = cfd)) as [->|Hne].
    + rewrite lookup_insert_eq. split; [intros _; exists c; by rewrite lookup_insert_eq|by right].
    + rewrite lookup_insert_ne by done. split.
      * intros [(c' & Hd & Hw)|]; [|done]. exists c'. split; [done|]. rewrite lookup_insert_ne; [done|]. intros <-. by apply (Hno fd).
      * intros (c' & Hd & Hw). left. exists c'. split; [done|]. rewrite lookup_insert_ne in Hw; [done|]. intros <-. by apply (Hno fd).
  - intros fd. rewrite J5. destruct (decide (fd = cfd)) as [->|Hne]; [rewrite lookup_insert_eq; naive_solver|by rewrite lookup_insert_ne].
  - intros fd. destruct (decide (fd = cfd)) as [->|Hne]; [rewrite !lookup_insert_eq; naive_solver|rewrite !lookup_insert_ne by done; apply J6].
  - intros c' fd. unfold owns. rewrite Hcl. case_decide as E.
    + subst c'. rewrite lookup_insert_eq. split; [intros (u & _ & <- & _); by rewrite lookup_insert_eq|]. intros [[<- _]|[_ Hd]]%lookup_insert_Some; [|by apply Hno in Hd]. by exists Waiting.
    + rewrite lookup_insert_ne by done. fold (owns w U c' fd). rewrite J7. destruct (decide (fd = cfd)) as [->|Hne]; [rewrite lookup_insert_eq; split; congruence|by rewrite lookup_insert_ne].
  - intros fd h [[<- <-]|[Hne Hd]]%lookup_insert_Some.
    + split; [done|]. exists key. split; [done|]. split; [done|]. rewrite Hcl. by rewrite decide_True.
    + destruct (J8 fd h Hd) as (Hrf & k & Hk & Ho & Hm). split; [done|]. exists k. split; [done|]. split; [done|]. destruct h as [|c']; [done|]. rewrite Hcl. case_decide; [subst; by apply Hno in Hd|done].
Qed.

(** No context is free, and there is no memory for more. *)
Definition exhausted (w : pool_world T) : Prop :=
  cp_freelist (cw_pool (pw_ctx_pool w)) = 0 /\ (grow = 0 \/ mmap_anon (cw_mapped (pw_ctx_pool w)) (grow * page_round CLIENT_STACK_SIZE) = None).

Lemma client_init_eval mem h : buffers_ok h -> exists s, init_client o stale (Fiber mem h [] [] []) = Some (inr tt, s) /\ buffers_ok (fb_ctx s) /\ cc_persistent (fb_ctx s) = false.
Proof.
  intros Hb. destruct (init_client_builds o stale (Fiber mem h [] [] [])) as (s & E & [Hq Hp _ _ _]); [by apply Hb|]. exists s. split; [done|]. split.
  - intros mem'. split; eapply startable_world.
    + right. exists []. exact (rq_vbuf [] 0 _ Hq).
    + right. exists []. exact Hp.
  - unfold init_client in E. clear -E. unfold mbind at 1, FB_bind at 1 in E. destruct (on_client_request _ _) as [[[e|x] s1]|]; [done| |done]. unfold mbind, FB_bind in E. destruct (on_response _ _) as [[[e|x'] s2]|]; [done| |done]. unfold modify_ctx in E. by injection E as <-.
Qed.

Lemma get_ctx_ok w U D : pool_inv w U D -> exists c cw, ctx_pool_get sizeof_ribs_context (pw_ctx_pool w) = Some (c, cw)
  /\ (c = 0 /\ exhausted w \/ c <> 0 /\ U !! c = None /\ exists fl live, ctx_inv cw fl live /\ forall x, is_Some (<[c := Waiting]> U !! x) -> x ∈ live).
Proof.
  intros Hi. destruct (pi_ctx _ _ _ Hi) as (fl & live & [mapped0 Hcw] & Hl). assert (Hs : 0 <= CLIENT_STACK_SIZE < 2 ^ 62) by (unfold CLIENT_STACK_SIZE; lia).
  destruct (get_inv sizeof_ribs_context 0 grow CLIENT_STACK_SIZE sizeof_client Hctx Hres Hs Hrc Hgrow (conj eq_refl Hfit) mapped0 _ _ _ Hcw) as (c & cw & fl' & E & Hr). exists c, cw. split; [done|].
  destruct Hr as [(-> & _ & -> & Hno)|(Hc & Hcw')]; [left; split; [done|]; split; [exact (ci_chain _ _ _ _ _ _ _ _ Hcw)|done]|right]. split; [done|]. split.
  - destruct (U !! c) as [u|] eqn:Eu; [|done]. exfalso. pose proof (ci_apart _ _ _ _ _ _ _ _ Hcw') as Ha. eapply pairwise_perm in Ha; [|exact apart_sym|apply fmap_Permutation, Permutation_app_comm]. destruct Ha as [Ha _].
    apply (apart_not_in sizeof_ribs_context CLIENT_STACK_SIZE sizeof_client Hctx Hres Hs Hrc c (live ++ fl') Ha). apply elem_of_app. left. apply Hl. by exists u.
  - exists fl', (c :: live). split; [by exists mapped0|]. intros x Hx. destruct (decide (x = c)) as [->|Hne]; [by left|]. rewrite lookup_insert_ne in Hx by done. right. by apply Hl.
Qed.

Local Notation start := (start_client o stale sizeof_ribs_context current_ctx).
Local Notation create := (_http_client_pool_create_client o stale sizeof_ribs_context event_loop_ctx current_ctx).

Lemma start_client_ok w U D key cfd rctx func : pool_inv w U D -> D !! cfd = None -> in_range cfd -> key_ok key -> pw_open w !! cfd = Some key ->
  start key cfd rctx func w = None /\ exhausted w
  \/ exists c cw mem http, let ctx := if func then c else default current_ctx rctx in let w' := started w cw mem c cfd (Client cfd key http) ctx in
       start key cfd rctx func w = Some (c, w') /\ c <> 0 /\ U !! c = None /\ (ctx <> idle_ctx -> pool_inv w' (<[c := Waiting]> U) (<[cfd := ByClient c]> D)).
Proof.
  intros Hi HD Hr Hkey Hopen. destruct (get_ctx_ok w U D Hi) as (c & cw & E & Hc). unfold start_client. rewrite (bind_eval _ _ _ _ _ (on_ctx_pool_eval w _ _ _ E)).
  destruct Hc as [[-> Hex]|(Hc & Hu & Hcw)]; [left; done|right]. rewrite (proj2 (Z.eqb_neq c 0)) by done. destruct (client_init_eval (pw_memory w) (cl_http (client_of w c)) (pi_buffers _ _ _ Hi c)) as (s & Es & Hb & _).
  exists c, cw, (fb_world s), (fb_ctx s). set (w1 := with_fds (with_ctx_pool w cw) (<[cfd := c]> (pw_fd_ctx w)) (pw_open w)). rewrite (bind_eval _ _ _ tt w1) by done.
  set (ctx := if func then c else default current_ctx rctx). set (w2 := with_fds (with_ctx_pool w cw) (<[cfd := ctx]> (pw_fd_ctx w)) (pw_open w)).
  assert (E2 : (if func then mret tt else epoll_worker_set_fd_ctx cfd (default current_ctx rctx)) w1 = Some (tt, w2)).
  { destruct func; [done|]. unfold epoll_worker_set_fd_ctx, w2, w1, with_fds. cbn. by rewrite insert_insert_eq. }
  rewrite (bind_eval _ _ _ _ _ E2). unfold client_at. rewrite (bind_eval _ _ _ (client_of w c) w2) by done. unfold pw_self. rewrite (bind_eval _ _ _ _ _ eq_refl). cbn [w2 with_fds with_ctx_pool pw_memory]. rewrite Es.
  split; [reflexivity|]. split; [done|]. split; [done|]. intros Hid. by apply started_inv.
Qed.

(** What becomes of the context of a descriptor is written by [start_client]. *)
Lemma start_client_fd_ctx w key cfd rctx func x : start key cfd rctx func (with_fds w (<[cfd := x]> (pw_fd_ctx w)) (pw_open w)) = start key cfd rctx func w.
Proof.
  set (w1 := with_fds w (<[cfd := x]> (pw_fd_ctx w)) (pw_open w)). unfold start_client. destruct (ctx_pool_get sizeof_ribs_context (pw_ctx_pool w)) as [[c cw]|] eqn:E; cycle 1.
  { unfold mbind, ST_bind, on_ctx_pool. change (pw_ctx_pool w1) with (pw_ctx_pool w). by rewrite E. }
  rewrite (bind_eval _ _ _ _ _ (on_ctx_pool_eval w _ _ _ E)), (bind_eval _ _ w1 _ _ (on_ctx_pool_eval w1 _ _ _ E)). destruct (c =? 0); [done|].
  set (w2 := with_fds (with_ctx_pool w cw) (<[cfd := c]> (pw_fd_ctx w)) (pw_open w)).
  assert (E2 : forall w, epoll_worker_set_fd_ctx cfd c (with_ctx_pool w cw) = Some (tt, with_fds (with_ctx_pool w cw) (<[cfd := c]> (pw_fd_ctx w)) (pw_open w))) by done.
  rewrite (bind_eval _ _ _ _ _ (E2 w)), (bind_eval _ _ _ _ _ (E2 w1)). unfold w1. cbn [with_fds pw_fd_ctx pw_open]. by rewrite insert_insert_eq.
Qed.

(** The sockets of the kernel are new descriptors. *)
Definition new_socket (w : pool_world T) (net : sockets) : Prop := 0 <= sys_socket net -> in_range (sys_socket net) /\ pw_open w !! sys_socket net = None.
Definition host_hash (hostname : option (list Z)) : Z := match hostname with Some h => hashcode h | None => 0 end.
Definition connected (net : sockets) : bool := (0 <=? sys_socket net) && sys_reuseaddr net && sys_nodelay net && sys_connect net && sys_epoll_add net.

Record created (w w' : pool_world T) (U : gmap Z use) (D : holders) (net : sockets) (key : http_client_key) (c : Z) : Prop := {
  cr_context : c <> 0 /\ U !! c = None;
  cr_client : cl_key (client_of w' c) = key /\ pw_open w' !! cl_fd (client_of w' c) = Some key;
  cr_source : (exists k, D !! cl_fd (client_of w' c) = Some (Idle k)) /\ pw_open w' = pw_open w
    \/ cl_fd (client_of w' c) = sys_socket net /\ D !! cl_fd (client_of w' c) = None /\ pw_open w' = <[sys_socket net := key]> (pw_open w);
}.

Lemma client_of_started w cw mem c cfd cl ctx : client_of (started w cw mem c cfd cl ctx) c = cl.
Proof. unfold client_of, started. cbn. by rewrite lookup_insert_eq. Qed.

(** With an idle connection. *)
Lemma reuse_ok w U D key cfd rctx func net : pool_inv w U D -> D !! cfd = Some (Idle (key_bytes key)) -> key_ok key ->
  let w1 := off_chains (with_index w (list_remove (pw_lists w) (chain_of cfd)) (ht_persistent_clients w)) cfd in
  start key cfd rctx func w1 = None /\ exhausted w
  \/ exists c w', start key cfd rctx func w1 = Some (c, w') /\ created w w' U D net key c /\ cl_fd (client_of w' c) = cfd
       /\ (c <> idle_ctx -> default current_ctx rctx <> idle_ctx -> exists D', pool_inv w' (<[c := Waiting]> U) D').
Proof.
  intros Hi HD Hkey w1. destruct (pi_held _ _ _ Hi cfd _ HD) as (Hr & key' & Hkey' & Hopen & Hk). apply key_bytes_inj in Hk; [subst key'|done..].
  pose proof (idle_leaves_inv w U D cfd _ Hi HD event_loop_ctx (pw_open w) Hloop (fun _ _ => eq_refl)) as Hi1. cbv zeta in Hi1. fold w1 in Hi1.
  rewrite <- (start_client_fd_ctx w1 key cfd rctx func event_loop_ctx). set (w2 := with_fds w1 (<[cfd := event_loop_ctx]> (pw_fd_ctx w1)) (pw_open w1)).
  destruct (start_client_ok w2 U (delete cfd D) key cfd rctx func Hi1 ltac:(by rewrite lookup_delete_eq) Hr Hkey Hopen) as [[E Hex]|(c & cw & mem & http & E & Hc & Hu & Hinv)]; [by left|right]. cbv zeta in E, Hinv.
  eexists c, _. split; [exact E|]. pose proof (client_of_started w2 cw mem c cfd (Client cfd key http) (if func then c else default current_ctx rctx)) as Hcl. split; [split|split].
  - done.
  - rewrite Hcl. done.
  - left. rewrite Hcl. split; [by exists (key_bytes key)|done].
  - by rewrite Hcl.
  - intros H1' H2'. eexists. apply Hinv. by destruct func.
Qed.

(** With a new one. *)
Lemma fresh_ok w U D key rctx func net : pool_inv w U D -> new_socket w net -> key_ok key ->
  let m := (cfd ← open_connection event_loop_ctx key net; if cfd <? 0 then mret 0 else start key cfd rctx func) in
  m w = None /\ exhausted w
  \/ exists c w', m w = Some (c, w')
       /\ (c = 0 /\ connected net = false /\ pw_open w' = pw_open w /\ pool_inv w' U D
           \/ created w w' U D net key c /\ (c <> idle_ctx -> default current_ctx rctx <> idle_ctx -> exists D', pool_inv w' (<[c := Waiting]> U) D')).
Proof.
  intros Hi Hnew Hkey m. destruct (open_connection_ok w U D key net Hi (fun Hp => proj2 (Hnew Hp))) as (cfd & w1 & E & Hi1 & Hcl1 & Ho & Hcw). unfold m. rewrite (bind_eval _ _ _ _ _ E).
  destruct Ho as [[Hneg Hop]|(-> & Hpos & HD & Hop)].
  - right. rewrite (proj2 (Z.ltb_lt cfd 0)) by done. exists 0, w1. split; [done|]. left. split; [done|]. split; [|done]. unfold open_connection in E. unfold connected. destruct (Z.ltb_spec (sys_socket net) 0) as [Hs|Hs].
    + by rewrite (proj2 (Z.leb_gt 0 _)).
    + unfold pw_self in E. rewrite (bind_eval _ _ _ _ _ eq_refl) in E. unfold set_open at 1 in E. rewrite (bind_eval _ _ _ _ _ eq_refl) in E. rewrite (proj2 (Z.leb_le 0 _)) by done. cbn [andb].
      destruct (_ && _) eqn:Eb; [|done]. cbn [negb] in E. unfold epoll_worker_set_fd_ctx in E. rewrite (bind_eval _ _ _ _ _ eq_refl) in E. injection E as <- _. lia.
  - rewrite (proj2 (Z.ltb_ge _ 0)) by done. destruct (Hnew Hpos) as [Hr _]. assert (Hopen : pw_open w1 !! sys_socket net = Some key) by (rewrite Hop; apply lookup_insert_eq).
    destruct (start_client_ok w1 U D key (sys_socket net) rctx func Hi1 HD Hr Hkey Hopen) as [[E1 Hex]|(c & cw & mem & http & E1 & Hc & Hu & Hinv)]; [left; split; [done|]; unfold exhausted in *; by rewrite <- Hcw|right].
    cbv zeta in E1, Hinv. eexists c, _. split; [exact E1|]. right. pose proof (client_of_started w1 cw mem c (sys_socket net) (Client (sys_socket net) key http) (if func then c else default current_ctx rctx)) as Hcl.
    split; [split|].
    + done.
    + rewrite Hcl. done.
    + right. rewrite Hcl. done.
    + intros H1' H2'. eexists. apply Hinv. by destruct func.
Qed.

Lemma create_ok w U D net addr port hostname rctx func : pool_inv w U D -> new_socket w net -> 0 <= addr < 2 ^ 32 -> 0 <= port < 2 ^ 16 ->
  let key := HttpClientKey addr port (host_hash hostname) in
  create net addr port hostname rctx func w = None /\ exhausted w
  \/ exists c w', create net addr port hostname rctx func w = Some (c, w')
       /\ (c = 0 /\ connected net = false /\ pw_open w' = pw_open w /\ pool_inv w' U D
           \/ created w w' U D net key c /\ (c <> idle_ctx -> default current_ctx rctx <> idle_ctx -> exists D', pool_inv w' (<[c := Waiting]> U) D')).
Proof.
  intros Hi Hnew Ha Hp key. assert (Hkey : key_ok key). { split; [done|]. split; [done|]. cbn. unfold host_hash. destruct hostname; [apply hashcode_range|lia]. }
  unfold _http_client_pool_create_client. cbv zeta. fold (host_hash hostname). fold key. destruct (find_idle_ok w U D key Hi) as [(s & E & Hi1)|(cfd & HD & E)]; rewrite (bind_eval _ _ _ _ _ E).
  - destruct (fresh_ok _ U D key rctx func net Hi1 Hnew Hkey) as [[E1 Hex]|(c & w' & E1 & Hr)]; [by left|right]. exists c, w'. split; [exact E1|]. destruct Hr as [Hr|[[C1 C2 C3] Hr]]; [by left|right; split; [by split|done]].
  - destruct (reuse_ok w U D key cfd rctx func net Hi HD Hkey) as [[E1 Hex]|(c & w' & E1 & Hc & _ & Hr)]; [by left|right]. exists c, w'. split; [exact E1|]. by right.
Qed.

(** ** Runs of the pool *)

(** What can happen, in any order.  Neither a client nor the context that waits for it is the
    one of the idle handler, which is not from the pool. *)
Inductive clients_reach (w0 : pool_world T) : pool_world T -> gmap Z use -> Prop :=
| run_start : clients_reach w0 w0 ∅
| run_create w U net addr port hostname rctx func c w' : clients_reach w0 w U -> new_socket w net -> 0 <= addr < 2 ^ 32 -> 0 <= port < 2 ^ 16 ->
    create net addr port hostname rctx func w = Some (c, w') -> c <> idle_ctx -> default current_ctx rctx <> idle_ctx -> clients_reach w0 w' (if c =? 0 then U else <[c := Waiting]> U)
| run_resumes w U c w' : clients_reach w0 w U -> U !! c = Some Waiting -> fiber_resumes c w = Some (tt, w') -> clients_reach w0 w' (<[c := Running]> U)
| run_waits w U c w' : clients_reach w0 w U -> U !! c = Some Running -> fiber_waits c w = Some (tt, w') -> clients_reach w0 w' (<[c := Waiting]> U)
| run_ends w U c http w' : clients_reach w0 w U -> U !! c = Some Running -> buffers_ok http -> fiber_ends event_loop_ctx c http w = Some (tt, w') -> clients_reach w0 w' (<[c := Done]> U)
| run_free w U c w' : clients_reach w0 w U -> U !! c = Some Done -> http_client_free event_loop_ctx idle_ctx c w = Some (tt, w') -> clients_reach w0 w' (delete c U)
| run_close_free w U c w' : clients_reach w0 w U -> U !! c = Some Running -> http_client_close_free event_loop_ctx idle_ctx c w = Some (tt, w') -> clients_reach w0 w' (delete c U)
| run_idle w U events fd w' : clients_reach w0 w U -> pw_fd_ctx w !! fd = Some idle_ctx -> http_client_idle_handler event_loop_ctx events fd w = Some (tt, w') -> clients_reach w0 w' U
| run_expire w U shut w' : clients_reach w0 w U -> expire_timeout w = Some (shut, w') \/ expire_persistent w = Some (shut, w') -> clients_reach w0 w' U
| run_time w U now : clients_reach w0 w U ->
    clients_reach w0 (PoolWorld (pw_lists w) (ht_persistent_clients w) (pw_ctx_pool w) (pw_clients w) (pw_memory w) (pw_timeout w) (pw_timeout_persistent w) (pw_timestamp w) (pw_fd_ctx w) (pw_open w) now) U.

Lemma reach_inv w0 w U : pool_inv w0 ∅ ∅ -> clients_reach w0 w U -> exists D, pool_inv w U D.
Proof.
  intros H0'. induction 1 as [|w U net addr port hostname rctx func c w' _ [D IH] Hnew Ha Hp E Hc Hr|w U c w' _ [D IH] Hu E|w U c w' _ [D IH] Hu E|w U c http w' _ [D IH] Hu Hb E|w U c w' _ [D IH] Hu E|w U c w' _ [D IH] Hu E|w U events fd w' _ [D IH] Hfd E|w U shut w' _ [D IH] E|w U now _ [D IH]].
  - by exists ∅.
  - destruct (create_ok w U D net addr port hostname rctx func IH Hnew Ha Hp) as [[E' _]|(c' & w1 & E' & Hcase)]; rewrite E' in E; [done|]. injection E as -> ->.
    destruct Hcase as [(-> & _ & _ & Hi)|([[Hc0 _] _ _] & Hi)]; [by exists D|]. rewrite (proj2 (Z.eqb_neq c 0)) by done. by apply Hi.
  - destruct (resumes_ok w U D c IH Hu) as (w1 & E' & Hi). rewrite E' in E. injection E as <-. by exists D.
  - destruct (waits_ok w U D c IH Hu) as (w1 & E' & Hi). rewrite E' in E. injection E as <-. by exists D.
  - destruct (ends_ok w U D c http IH Hu Hb) as (w1 & D1 & E' & Hi). rewrite E' in E. injection E as <-. by exists D1.
  - destruct (free_ok w U D c IH Hu) as (w1 & D1 & E' & Hi & _). rewrite E' in E. injection E as <-. by exists D1.
  - destruct (close_free_ok w U D c IH Hu) as (w1 & D1 & E' & Hi). rewrite E' in E. injection E as <-. by exists D1.
  - destruct (proj1 (pi_fd_ctx _ _ _ IH fd) Hfd) as (k & HD). destruct (idle_handler_ok w U D events fd k IH HD) as (w1 & E' & Hi). rewrite E' in E. injection E as <-.
    destruct (events =? EPOLLOUT); [subst; by exists D|destruct Hi as [Hi _]; by exists (delete fd D)].
  - destruct E as [E|E]; [destruct (expire_timeout_ok w U D IH) as (sh & w1 & E' & Hi)|destruct (expire_persistent_ok w U D IH) as (sh & w1 & E' & Hi)]; rewrite E' in E; injection E as _ <-; by exists D.
  - exists D. by apply time_inv.
Qed.

(** *** Reuse *)

Lemma reuse_after_free w U D c w' addr port hostname net rctx func : pool_inv w U D -> U !! c = Some Done -> cc_persistent (cl_http (client_of w c)) = true -> timer_ne (pw_now w) epoch = true ->
  http_client_free event_loop_ctx idle_ctx c w = Some (tt, w') -> is_Some (pw_open w' !! cl_fd (client_of w c)) -> cl_key (client_of w c) = HttpClientKey addr port (host_hash hostname) ->
  exists c' w2, create net addr port hostname rctx func w' = Some (c', w2) /\ c' <> 0 /\ cl_fd (client_of w2 c') = cl_fd (client_of w c) /\ pw_open w2 = pw_open w'.
Proof.
  intros Hi Hu Ep Hnow E Hopen Hk. destruct (free_ok w U D c Hi Hu) as (w'' & D' & E' & Hi' & Hkept). rewrite E in E'. injection E' as <-. destruct (Hkept Ep Hopen) as [HD Hl Hst Hfree].
  set (fd := cl_fd (client_of w c)) in *. rewrite Hk in *. set (key := HttpClientKey addr port (host_hash hostname)) in *.
  assert (Hkey : key_ok key). { destruct (pi_held _ _ _ Hi' fd _ HD) as (_ & k & Hkk & _). destruct (pi_held _ _ _ Hi fd _ (owner_fd w U D c Done Hi Hu (fun _ => Ep))) as (_ & k' & Hkk' & _ & Hck). rewrite Hk in Hck. by subst k'. }
  unfold _http_client_pool_create_client. cbv zeta. fold (host_hash hostname). fold key. pose proof (find_idle_last w' _ key fd Hl (idle_on_chain w' _ D' fd _ Hi' HD)) as Ef. rewrite Hst in Ef. cbn [default] in Ef. unfold id in Ef. rewrite Hnow in Ef.
  rewrite (bind_eval _ _ _ _ _ Ef). destruct (reuse_ok w' _ D' key fd rctx func net Hi' HD Hkey) as [[_ [Hz _]]|(c' & w2 & E2 & [[Hc _] _ Hs] & Hfd & _)]; [congruence|]. exists c', w2. split; [done|]. split; [done|]. split; [done|].
  destruct Hs as [[_ Ho]|(_ & Hno & _)]; [done|]. rewrite Hfd in Hno. congruence.
Qed.
End Pool.
