(* ===== verification/ClientPoolRun.v ===== *)
(** * ClientPoolRun: the pool of clients from its initialisation on

    [http_client_pool_init] makes a state that satisfies the invariant of [ClientPoolFacts.v], so
    what holds in every run is stated here from there. *)

From stdpp Require Import base numbers list gmap.
From Stdlib Require Import ZArith Lia.
From S2P Require Import Prelude Words Bytes Os Vmallocator Hashtable HashtableFacts HashtableMap StringTable Mempool Memalloc Vmbuf VmbufFacts Dlist CtxPool TimeoutHandler Connection HttpClient HttpServerRun HttpExchange ClientPool ClientPoolFacts.

(** ** The first pool *)

Section Init.
Context `{layout_ok} (o : os) (Ho : roomy o).
Existing Instance hashtable_string_table.

Lemma head_of_next i : head_of i + sizeof_list = head_of (i + 1).
Proof. unfold head_of, sizeof_list. lia. Qed.

Lemma link_heads_lists n : forall (s : store) (j : nat), Z.of_nat (j + n) <= rlim_cur ->
  lists (I := option (list Z)) s {[None := (free_list, head_of <$> seqZ 0 (Z.of_nat j))]} ->
  lists (I := option (list Z)) (link_heads n s free_list (head_of (Z.of_nat j))) {[None := (free_list, head_of <$> seqZ 0 (Z.of_nat (j + n)))]}.
Proof.
  induction n as [|n IH]; intros s j Hj Hl; [by rewrite Nat.add_0_r|]. cbn [link_heads]. rewrite head_of_next. replace (Z.of_nat j + 1) with (Z.of_nat (S j)) by lia. replace (j + S n)%nat with (S j + n)%nat by lia.
  apply IH; [lia|]. replace (seqZ 0 (Z.of_nat (S j))) with (seqZ 0 (Z.of_nat j) ++ [Z.of_nat j]).
  - rewrite fmap_app, <- (insert_singleton_eq None (free_list, (head_of <$> seqZ 0 (Z.of_nat j)) ++ _) (free_list, head_of <$> seqZ 0 (Z.of_nat j))). apply lists_insert_tail; [done|by rewrite lookup_singleton_eq|].
    intros i h xs [<- [= <- <-]]%lookup_singleton_Some. apply not_elem_of_cons. split; [apply head_not_free; unfold in_range; lia|]. intros (i & E%head_of_inj & Hin%elem_of_seqZ)%list_elem_of_fmap. lia.
  - replace (Z.of_nat (S j)) with (Z.of_nat j + 1) by lia. rewrite seqZ_app by lia. done.
Qed.

Lemma init_clients_ok : sys_mmap o VM_ALLOC_MIN_SIZE = true -> exists s ht, init_clients o = Some (s, ht) /\ index_holds (T := hashtable) (H := hashtable_string_table o) (H0 := hashtable_string_laws o Ho) s ht ∅.
Proof.
  intros Hmap. assert (Hsz : 0 <= rlim_cur <= 2 ^ 18) by apply lo_size. assert (Hsz2 : 0 <= rlim_cur <= 2 ^ 20) by (change (2 ^ 20) with 1048576; change (2 ^ 18) with 262144 in Hsz; lia). destruct (init_string_rep o rlim_cur Ho Hmap Hsz2) as (ht & E & Hrep). unfold init_clients. rewrite E. eexists _, ht. split; [done|].
  assert (Hl : lists (I := option (list Z)) (list_init ∅ free_list) {[None := (free_list, head_of <$> seqZ 0 (Z.of_nat 0))]}).
  { apply (lists_init (I := option (list Z)) ∅ ∅ None free_list); [split; intros *; by rewrite lookup_empty|]. intros i h xs. by rewrite lookup_empty. }
  apply (link_heads_lists (Z.to_nat rlim_cur)) in Hl; [|lia]. replace (head_of (Z.of_nat 0)) with client_heads in Hl by (unfold head_of, sizeof_list; lia). cbn [Nat.add] in Hl.
  eexists _, _. split; [split; [exact Hl|by rewrite lookup_singleton_eq| | |]|].
  - apply Forall_forall. intros i Hi%elem_of_seqZ. unfold in_range. lia.
  - intros k h xs Hk. by rewrite lookup_singleton_ne in Hk.
  - exists ∅, (Z.to_nat (2 ^ 18)). split; [exact Hrep|]. split; [rewrite length_seqZ; lia|]. intros k. by rewrite lookup_empty, lookup_singleton_ne.
  - intros fd k. rewrite lookup_empty. split; [done|]. intros (h & xs & Hk & _). by rewrite lookup_singleton_ne in Hk.
Qed.
End Init.

Section Run.
Context `{address_space, layout_ok} (o : os) (stale : Z -> Z -> Z) (Ho : roomy o) (Hmap : forall n, sys_mmap o n = true).
Context (sizeof_ribs_context sizeof_client initial grow event_loop_ctx idle_ctx current_ctx timeout_ms timeout_persistent_ms : Z).
Hypothesis (Hctx : 0 < sizeof_ribs_context) (Hres : 0 <= sizeof_client) (Hrc : sizeof_ribs_context + sizeof_client <= CLIENT_STACK_SIZE).
Hypothesis (Hinit : 0 <= initial) (Hgrow : 0 <= grow) (Hfit : initial * page_round CLIENT_STACK_SIZE < 2 ^ 64 /\ grow * page_round CLIENT_STACK_SIZE < 2 ^ 64) (Hloop : event_loop_ctx <> idle_ctx).
Context (calls : init_calls) (cw : ctx_world) (mem : world) (now : timeval) (w0 : pool_world hashtable).
Hypothesis (Hstart : http_client_pool_init o calls sizeof_ribs_context sizeof_client initial grow timeout_ms timeout_persistent_ms cw mem now = Some (Some w0)).

#[local] Instance clients_table : StringTable hashtable := hashtable_string_table o.
#[local] Instance clients_table_laws : StringTableLaws hashtable := hashtable_string_laws o Ho.

Local Notation create := (_http_client_pool_create_client o stale sizeof_ribs_context event_loop_ctx current_ctx).
Local Notation reach := (clients_reach o stale sizeof_ribs_context event_loop_ctx idle_ctx current_ctx w0).

Lemma createstacks_result num stack_size reserved_size (w w' : ctx_world) r : ctx_pool_createstacks sizeof_ribs_context num stack_size reserved_size w = Some (r, w') -> r = 0 \/ r = -1.
Proof.
  unfold ctx_pool_createstacks, mbind, ST_bind. destruct (map_stacks _ _) as [[[a|] w1]|]; [|by intros [= <- _]; right|done].
  cbv zeta. destruct (link_stacks _ _ _ _ _) as [[[] w2]|]; [|done]. intros [= <- _]. by left.
Qed.

Lemma init_inv : pool_inv o sizeof_ribs_context sizeof_client grow idle_ctx w0 ∅ ∅.
Proof.
  unfold http_client_pool_init in Hstart. destruct (ctx_pool_init _ _ _ _ _ _) as [[r cw']|] eqn:Ecw; cbn in Hstart; [|done].
  destruct (Z.ltb_spec r 0); [done|]. do 3 (destruct (negb _) in Hstart; [done|]). destruct (init_clients_ok o Ho (Hmap _)) as (s & ht & Es & Hix). rewrite Es in Hstart. cbn in Hstart.
  destruct (_ || _) in Hstart; [done|]. injection Hstart as <-.
  assert (Hr : r = 0).
  { unfold ctx_pool_init in Ecw. cbv beta zeta in Ecw. rewrite (bind_eval cp_self _ _ _ _ eq_refl) in Ecw. erewrite bind_eval in Ecw by reflexivity. apply createstacks_result in Ecw. lia. }
  subst r. destruct (reaches_inv sizeof_ribs_context initial grow CLIENT_STACK_SIZE sizeof_client Hctx Hres ltac:(unfold CLIENT_STACK_SIZE; lia) Hrc Hinit Hgrow Hfit (cw_mapped cw) cw' []) as (fl & Hcw); [by eapply reach_init|].
  split; cbn; try done.
  - exists fl, []. split; [by exists (cw_mapped cw)|]. intros c. rewrite lookup_empty. by intros [].
  - intros c m. unfold client_of. cbn [pw_clients]. rewrite lookup_empty. cbn. split; left; (split; [done|]); (split; [lia|]); apply Hmap.
  - intros fd. rewrite elem_of_nil. split; [done|]. intros (c & Hc & _). by rewrite lookup_empty in Hc.
  - intros fd. rewrite elem_of_nil. split; [done|]. intros (c & Hc). by rewrite lookup_empty in Hc.
  - intros fd. rewrite !lookup_empty. split; [done|by intros []].
  - intros c fd. rewrite lookup_empty. split; [|done]. intros (u & Hu & _). by rewrite lookup_empty in Hu.
Qed.

(** C15: in every run of the pool from [http_client_pool_init] on, a connection has at most one
    client, and is connected to the server its client asked for; a connection of a client is
    never on the list of idle ones.  Making a client succeeds with a context that is not in use
    and a connection to the right server which no other client has, or returns NULL because a
    system call failed; only a pool that can get no more contexts makes it fail.  Freeing a
    client that has ended, and an event of an idle connection, always work, and every event but
    [EPOLLOUT] closes the idle connection. *)
Theorem client_connections_exclusive (w : pool_world hashtable) (U : gmap Z use) (Hreach : reach w U) :
  (forall c c' fd, owns w U c fd -> owns w U c' fd -> c = c')
  /\ (forall c fd, owns w U c fd -> pw_open w !! fd = Some (cl_key (client_of w c)) /\ pw_fd_ctx w !! fd <> Some idle_ctx)
  /\ (forall net addr port hostname rctx func, new_socket w net -> 0 <= addr < 2 ^ 32 -> 0 <= port < 2 ^ 16 ->
        create net addr port hostname rctx func w = None /\ exhausted grow w
        \/ exists c w', create net addr port hostname rctx func w = Some (c, w')
             /\ (c = 0 /\ connected net = false /\ pw_open w' = pw_open w
                 \/ c <> 0 /\ U !! c = None /\ pw_open w' !! cl_fd (client_of w' c) = Some (HttpClientKey addr port (host_hash hostname)) /\ forall c', ~ owns w U c' (cl_fd (client_of w' c))))
  /\ (forall c, U !! c = Some Done -> exists w', http_client_free event_loop_ctx idle_ctx c w = Some (tt, w'))
  /\ (forall events fd, pw_fd_ctx w !! fd = Some idle_ctx ->
        exists w', http_client_idle_handler event_loop_ctx events fd w = Some (tt, w') /\ (events <> EPOLLOUT -> pw_open w' = delete fd (pw_open w))).
Proof.
  destruct (reach_inv o stale sizeof_ribs_context sizeof_client grow event_loop_ctx idle_ctx current_ctx Hctx Hres Hrc Hgrow (proj2 Hfit) Hloop w0 w U init_inv Hreach) as (D & Hi).
  split; [|split; [|split; [|split]]].
  - intros c c' fd Ho1 Ho2. apply (pi_client _ _ _ _ _ _ _ _ Hi) in Ho1, Ho2. congruence.
  - intros c fd Ho'. apply (pi_client _ _ _ _ _ _ _ _ Hi) in Ho'. destruct (pi_held _ _ _ _ _ _ _ _ Hi fd _ Ho') as (_ & key & _ & Hopen & Hk). split; [by rewrite Hk|].
    intros (k & Hid)%(pi_fd_ctx _ _ _ _ _ _ _ _ Hi). congruence.
  - intros net addr port hostname rctx func Hnew Ha Hp. destruct (create_ok o stale sizeof_ribs_context sizeof_client grow event_loop_ctx idle_ctx current_ctx Hctx Hres Hrc Hgrow (proj2 Hfit) Hloop w U D net addr port hostname rctx func Hi Hnew Ha Hp)
      as [?|(c & w' & E & Hc)]; [by left|right]. exists c, w'. split; [done|]. destruct Hc as [(-> & Hn & Hop & _)|([[Hc0 Hu] [_ Hop] Hs] & _)]; [by left|right]. split; [done|]. split; [done|]. split; [done|].
    intros c' Ho'. apply (pi_client _ _ _ _ _ _ _ _ Hi) in Ho'. destruct Hs as [[[k Hk] _]|(_ & Hno & _)]; congruence.
  - intros c Hu. destruct (free_ok o stale sizeof_ribs_context sizeof_client grow event_loop_ctx idle_ctx Hctx Hres Hrc Hloop w U D c Hi Hu) as (w' & _ & E & _). by exists w'.
  - intros events fd Hfd. destruct (proj1 (pi_fd_ctx _ _ _ _ _ _ _ _ Hi fd) Hfd) as (k & HD).
    destruct (idle_handler_ok o stale sizeof_ribs_context sizeof_client grow event_loop_ctx idle_ctx Hloop w U D events fd k Hi HD) as (w' & E & Hw). exists w'. split; [done|]. intros Hne. rewrite (proj2 (Z.eqb_neq _ _) Hne) in Hw. apply Hw.
Qed.

(** C16: a client that ends with a connection to keep and is freed leaves it to the next client
    for the same address, port and host name: that client gets the same descriptor without any
    system call, in a context that was free.  The connection is kept unless there is no head
    left for a new key, when it is closed. *)
Theorem client_connection_reused (w : pool_world hashtable) (U : gmap Z use) (c : Z) (w' : pool_world hashtable) (addr port : Z) (hostname : option (list Z)) (net : sockets) (rctx : option Z) (func : bool)
  (Hreach : reach w U) (Hdone : U !! c = Some Done) (Hkeep : cc_persistent (cl_http (client_of w c)) = true) (Hnow : timer_ne (pw_now w) epoch = true)
  (Hkey : cl_key (client_of w c) = HttpClientKey addr port (host_hash hostname)) (Hfree : http_client_free event_loop_ctx idle_ctx c w = Some (tt, w')) (Hkept : is_Some (pw_open w' !! cl_fd (client_of w c))) :
  exists c' w2, create net addr port hostname rctx func w' = Some (c', w2) /\ c' <> 0 /\ cl_fd (client_of w2 c') = cl_fd (client_of w c) /\ pw_open w2 = pw_open w'.
Proof.
  destruct (reach_inv o stale sizeof_ribs_context sizeof_client grow event_loop_ctx idle_ctx current_ctx Hctx Hres Hrc Hgrow (proj2 Hfit) Hloop w0 w U init_inv Hreach) as (D & Hi).
  by apply (reuse_after_free o stale sizeof_ribs_context sizeof_client grow event_loop_ctx idle_ctx current_ctx Hctx Hres Hrc Hgrow (proj2 Hfit) Hloop w U D).
Qed.
End Run.

(** When a connection could be kept but there is no head for its key, it is closed and the
    context of its client does not go back to the pool. *)
Lemma http_client_free_loses_context `{StringTable T, client_layout} (event_loop_ctx idle_ctx c : Z) (w : pool_world T) :
  let cl := client_of w c in cc_persistent (cl_http cl) = true -> st_lookup (ht_persistent_clients w) (key_bytes (cl_key cl)) = Some 0 -> list_empty (pw_lists w) free_list = true ->
  exists w', http_client_free event_loop_ctx idle_ctx c w = Some (tt, w') /\ pw_ctx_pool w' = pw_ctx_pool w /\ pw_open w' = delete (cl_fd cl) (pw_open w).
Proof.
  intros cl Hp Hl He. unfold http_client_free, client_at. rewrite (bind_eval _ _ _ cl w) by done. rewrite Hp. cbv zeta. unfold persistent_head, pw_self, epoll_worker_set_fd_ctx.
  rewrite (bind_eval _ _ _ _ _ eq_refl). unfold mbind, ST_bind. cbn. rewrite Hl. cbn. rewrite He. cbn. by eexists.
Qed.

(** ** An example: a client for 127.0.0.1:80 is made, ends with a connection to keep, and is freed *)
#[local] Instance demo_layout : client_layout := { client_chains := 4096; client_heads := 8192; free_list := 100; rlim_cur := 8 }.
#[local] Instance demo_layout_ok : layout_ok.
Proof. split; cbn; unfold sizeof_list; lia. Qed.
#[local] Instance demo_table : StringTable hashtable := clients_table os_all_ok.

Definition demo_calls : init_calls := InitCalls true true true true true.
Definition demo_net : sockets := Sockets 3 true true true true.
Definition demo_empty : pool_world hashtable := PoolWorld ∅ HASHTABLE_INITIALIZER ctx_world0 ∅ vb_world (WaitChain 0 [] None) (WaitChain 0 [] None) ∅ ∅ ∅ epoch.
Definition demo_after {A} (m : ST (pool_world hashtable) A) (w : pool_world hashtable) : pool_world hashtable := match m w with Some (_, w) => w | None => w end.
Definition demo_init : pool_world hashtable :=
  match http_client_pool_init os_all_ok demo_calls 128 200 2 1 1000 2000 ctx_world0 vb_world (Timeval 5 0) with Some (Some w) => w | _ => demo_empty end.
Definition demo_create (net : sockets) : ST (pool_world hashtable) Z := _http_client_pool_create_client os_all_ok (fun _ _ => 0) 128 1 3 net 16777343 80 None None true.
Definition demo_ctx : Z := 134840.
Definition demo_http : http_client_context := HttpClientContext VMBUF_INITIALIZER VMBUF_INITIALIZER None 0 200 true.
Definition demo_made : pool_world hashtable := demo_after (demo_create demo_net) demo_init.
Definition demo_runs : pool_world hashtable := demo_after (fiber_resumes demo_ctx) demo_made.
Definition demo_done : pool_world hashtable := demo_after (fiber_ends 1 demo_ctx demo_http) demo_runs.
Definition demo_freed : pool_world hashtable := demo_after (http_client_free 1 2 demo_ctx) demo_done.

Lemma demo_http_ok : buffers_ok os_all_ok demo_http.
Proof. intros mem. split; left; (split; [done|]); by split. Qed.

Lemma demo_reach : clients_reach os_all_ok (fun _ _ => 0) 128 1 2 3 demo_init demo_done (<[demo_ctx := Done]> (<[demo_ctx := Running]> (<[demo_ctx := Waiting]> ∅))).
Proof.
  assert (H1 : clients_reach os_all_ok (fun _ _ => 0) 128 1 2 3 demo_init demo_made (<[demo_ctx := Waiting]> ∅)).
  { apply (run_create os_all_ok (fun _ _ => 0) 128 1 2 3 demo_init demo_init ∅ demo_net 16777343 80 None None true demo_ctx demo_made); [apply run_start|intros _; split; [unfold in_range; cbn; lia|reflexivity]|lia|lia|vm_compute; reflexivity|done|done]. }
  assert (H2 : clients_reach os_all_ok (fun _ _ => 0) 128 1 2 3 demo_init demo_runs (<[demo_ctx := Running]> (<[demo_ctx := Waiting]> ∅))).
  { eapply (run_resumes _ _ _ _ _ _ _ demo_made); [exact H1|reflexivity|vm_compute; reflexivity]. }
  eapply (run_ends _ _ _ _ _ _ _ demo_runs _ demo_ctx demo_http); [exact H2|reflexivity|apply demo_http_ok|vm_compute; reflexivity].
Qed.

Definition demo_uses : gmap Z use := <[demo_ctx := Done]> (<[demo_ctx := Running]> (<[demo_ctx := Waiting]> ∅)).

Lemma client_connections_exclusive_witness :
  demo_uses !! demo_ctx = Some Done /\ owns demo_done demo_uses demo_ctx 3 /\ (forall c, owns demo_done demo_uses c 3 -> c = demo_ctx)
  /\ exists w', http_client_free 1 2 demo_ctx demo_done = Some (tt, w').
Proof.
  assert (Hown : owns demo_done demo_uses demo_ctx 3) by (exists Done; split; [reflexivity|]; split; [reflexivity|]; intros _; reflexivity).
  destruct (client_connections_exclusive os_all_ok (fun _ _ => 0) roomy_all_ok (fun _ => eq_refl) 128 200 2 1 1 2 3 1000 2000 ltac:(lia) ltac:(lia) ltac:(unfold CLIENT_STACK_SIZE; lia) ltac:(lia) ltac:(lia)
    ltac:(split; reflexivity) ltac:(lia) demo_calls ctx_world0 vb_world (Timeval 5 0) demo_init ltac:(vm_compute; reflexivity) demo_done demo_uses demo_reach) as (Hex & _ & _ & Hfree & _).
  split; [reflexivity|]. split; [exact Hown|]. split; [intros c Hc; exact (Hex c demo_ctx 3 Hc Hown)|]. apply Hfree. reflexivity.
Defined.

Lemma client_connection_reused_witness :
  exists c w2, demo_create (Sockets (-1) false false false false) demo_freed = Some (c, w2) /\ cl_fd (client_of w2 c) = 3 /\ pw_open w2 = pw_open demo_freed.
Proof.
  destruct (client_connection_reused os_all_ok (fun _ _ => 0) roomy_all_ok (fun _ => eq_refl) 128 200 2 1 1 2 3 1000 2000 ltac:(lia) ltac:(lia) ltac:(unfold CLIENT_STACK_SIZE; lia) ltac:(lia) ltac:(lia)
    ltac:(split; reflexivity) ltac:(lia) demo_calls ctx_world0 vb_world (Timeval 5 0) demo_init ltac:(vm_compute; reflexivity) demo_done demo_uses demo_ctx demo_freed 16777343 80 None (Sockets (-1) false false false false) None true
    demo_reach eq_refl eq_refl eq_refl eq_refl ltac:(vm_compute; reflexivity) ltac:(vm_compute; by eexists)) as (c & w2 & E & _ & Hfd & Ho). exists c, w2. split; [exact E|]. split; [exact Hfd|exact Ho].
Defined.
