(* ===== verification/Json.v ===== *)
(** * Json: the callback-driven JSON scanner ([include/json.h], [src/json.c])

    The text is a list of non-zero bytes; a pointer into it is its position, the terminator
    being at position [length str].  Reading anything behind it is [None].  Callbacks only
    observe: what they are called with is recorded as a list of events.  [level], an [int] in the
    code, is an unbounded integer here: it counts brackets of the text, so the two can differ only
    for a text of 2^31 bytes or more.  Pushing on the stack always succeeds. *)

From stdpp Require Import base numbers list.
From Stdlib Require Import ZArith Lia.
From S2P Require Import Prelude Os Mempool Memalloc Vmbuf VmbufFacts.

(** ** Data *)
Definition NULL : Z := -1.
Record json_stack_item := Item { it_begin : Z; it_end : Z }.
Definition no_item : json_stack_item := Item NULL NULL.   (* json_stack_item_reset *)
Definition json_stack_item_isset (si : json_stack_item) : bool := negb (it_begin si =? it_end si).

Inductive event :=
  | EvString (key : json_stack_item) (vb ve : Z)
  | EvPrimitive (key : json_stack_item) (vb ve : Z)
  | EvBegin (key : json_stack_item)
  | EvEnd (key : json_stack_item).

Inductive json_err := ErrNone | ErrString | ErrPrimitive | ErrUnbalanced.

Record json := Json {
  js_level : Z;
  js_cur : Z;
  js_err : json_err;
  js_last_string : json_stack_item;
  js_last_key : json_stack_item;
  js_stack : list json_stack_item;   (* the items in the vmbuf, last pushed first *)
  js_events : list event;            (* callbacks made, last first *)
}.

Section Parse.
Variable str : list Z.

(** [*p] for a pointer into the text or to its terminator. *)
Definition rd (i : Z) : option Z :=
  if (0 <=? i) && (i <=? Z.of_nat (length str)) then Some (nth (Z.to_nat i) str 0) else None.

Definition set_cur (js : json) (c : Z) : json :=
  Json (js_level js) c (js_err js) (js_last_string js) (js_last_key js) (js_stack js) (js_events js).
Definition set_err (js : json) (e : json_err) : json :=
  Json (js_level js) (js_cur js) e (js_last_string js) (js_last_key js) (js_stack js) (js_events js).
Definition set_last_string (js : json) (i : json_stack_item) : json :=
  Json (js_level js) (js_cur js) (js_err js) i (js_last_key js) (js_stack js) (js_events js).
Definition set_last_key (js : json) (i : json_stack_item) : json :=
  Json (js_level js) (js_cur js) (js_err js) (js_last_string js) i (js_stack js) (js_events js).
Definition set_stack (js : json) (l : Z) (s : list json_stack_item) : json :=
  Json l (js_cur js) (js_err js) (js_last_string js) (js_last_key js) s (js_events js).
Definition emit (js : json) (e : event) : json :=
  Json (js_level js) (js_cur js) (js_err js) (js_last_string js) (js_last_key js) (js_stack js) (e :: js_events js).

(** The loop of [json_parse_string]: where it stops, and whether a backslash ended the text. *)
Fixpoint string_loop (fuel : nat) (cur : Z) : option (Z * bool) :=
  match fuel with
  | O => None
  | S f =>
      c ← rd cur;
      if c =? 0 then Some (cur, true)
      else if c =? 34 then Some (cur, true)
      else if c =? 92 then
        c ← rd (cur + 1);
        if c =? 0 then Some (cur + 1, false) else string_loop f (cur + 1 + 1)
      else string_loop f (cur + 1)
  end.

Definition json_parse_string (js : json) : option (json * Z) :=
  let start := js_cur js + 1 in
  '(cur, ok) ← string_loop (S (length str)) start;
  let js := set_cur js cur in
  if negb ok then Some (js, -1)
  else
    c ← rd cur;
    if negb (c =? 34) then Some (set_err js ErrString, -1)
    else
      let js := set_last_string js (Item start cur) in
      let js := emit js (EvString (js_last_key js) start cur) in
      Some (set_cur js (cur + 1), 0).

Definition is_delim (c : Z) : bool :=
  (c =? 93) || (c =? 125) || (c =? 9) || (c =? 13) || (c =? 10) || (c =? 32) || (c =? 44).

Fixpoint primitive_loop (fuel : nat) (js : json) (start : Z) : option (json * Z) :=
  match fuel with
  | O => None
  | S f =>
      c ← rd (js_cur js);
      if c =? 0 then Some (set_err js ErrPrimitive, -1)
      else if is_delim c then
        let js := emit js (EvPrimitive (js_last_key js) start (js_cur js)) in
        Some (set_last_string js (Item start (js_cur js)), 0)
      else primitive_loop f (set_cur js (js_cur js + 1)) start
  end.
Definition json_parse_primitive (js : json) : option (json * Z) := primitive_loop (S (length str)) js (js_cur js).

Definition starts_primitive (c : Z) : bool :=
  (c =? 45) || ((48 <=? c) && (c <=? 57)) || (c =? 116) || (c =? 102) || (c =? 110).

(** One round of the loop of [json_parse]: [Some r] in the second place is a return. *)
Definition json_round (js : json) (c : Z) : option (json * option Z) :=
  let advance js := Some (set_cur js (js_cur js + 1), None) in
  if (c =? 123) || (c =? 91) then
    let js := emit js (EvBegin (js_last_string js)) in
    let js := set_last_key js no_item in
    let js := set_stack js (js_level js) (js_last_string js :: js_stack js) in
    let js := set_last_string js no_item in
    advance (set_stack js (js_level js + 1) (js_stack js))
  else if (c =? 125) || (c =? 93) then
    if js_level js =? 0 then Some (set_err js ErrUnbalanced, Some (-1))
    else
      let js := set_last_key js no_item in
      match js_stack js with
      | [] => None
      | i :: s =>
          let js := set_stack js (js_level js) s in
          let js := set_last_string js i in
          let js := emit js (EvEnd (js_last_string js)) in
          advance (set_stack js (js_level js - 1) (js_stack js))
      end
  else if c =? 34 then
    '(js, res) ← json_parse_string js;
    if res <? 0 then Some (js, Some (-1)) else Some (js, None)
  else if starts_primitive c then
    '(js, res) ← json_parse_primitive js;
    if res <? 0 then Some (js, Some (-1)) else Some (js, None)
  else if c =? 58 then advance (set_last_key js (js_last_string js))
  else if c =? 44 then advance (set_last_key js no_item)
  else advance js.

Fixpoint json_parse_loop (fuel : nat) (js : json) : option (json * Z) :=
  match fuel with
  | O => None
  | S f =>
      c ← rd (js_cur js);
      if c =? 0 then
        if negb (js_level js =? 0) then Some (set_err js ErrUnbalanced, -1) else Some (js, 0)
      else
        '(js, res) ← json_round js c;
        match res with
        | Some r => Some (js, r)
        | None => json_parse_loop f js
        end
  end.

Definition json_parse (js : json) : option (json * Z) :=
  let js := set_last_key js no_item in
  let js := set_stack js 0 (js_stack js) in
  let js := set_cur js 0 in
  let js := set_last_string js no_item in
  json_parse_loop (S (length str)) js.
End Parse.

(** ** Escaping *)

(** [ESC_SEQ]: a backslash and a character. *)
Definition json_escape_char (c : Z) : list Z :=
  if (c =? 34) || (c =? 92) || (c =? 47) then [92; c]
  else if c =? 8 then [92; 98]
  else if c =? 12 then [92; 102]
  else if c =? 10 then [92; 110]
  else if c =? 13 then [92; 114]
  else if c =? 9 then [92; 116]
  else [c].

(** What is written to [d] (with the terminator) and the result. *)
Definition json_nescape_str (s : list Z) : list Z * Z :=
  let d := s ≫= json_escape_char in (d ++ [0], Z.of_nat (length d)).
Definition json_escape_str (s : list Z) : list Z * Z :=
  let d := s ≫= json_escape_char in (d ++ [0], Z.of_nat (length d)).

Definition json_nescape_str_vmb `{address_space} (o : os) (stale : Z -> Z -> Z) (s : list Z) : M Z :=
  vmbuf_resize_if_less o stale (u32 (u32 (Z.of_nat (length s) * 2) + 1));;
  let (d, l) := json_nescape_str s in
  w ← vmbuf_wlocpos; poke w d;; vmbuf_wseek o stale l;; mret l.

Definition json_escape_str_vmb `{address_space} (o : os) (stale : Z -> Z -> Z) (s : list Z) : M Z :=
  vmbuf_resize_if_less o stale (u64 (u64 (Z.of_nat (length s) * 2) + 1));;
  let (d, l) := json_escape_str s in
  w ← vmbuf_wlocpos; poke w d;; vmbuf_wseek o stale l;; mret l.

(** The table of [json_unescape_str] is the identity but for the six letters. *)
Definition unescape_table (c : Z) : Z :=
  if c =? 98 then 8 else if c =? 102 then 12 else if c =? 110 then 10
  else if c =? 114 then 13 else if c =? 116 then 9 else if c =? 118 then 11 else c.

(** The result, or [None] if the terminator is skipped by a backslash in front of it. *)
Fixpoint json_unescape_str (s : list Z) : option (list Z) :=
  match s with
  | [] => Some []
  | c :: s =>
      if c =? 92 then
        match s with
        | [] => None
        | c :: s => r ← json_unescape_str s; Some (unescape_table c :: r)
        end
      else r ← json_unescape_str s; Some (c :: r)
  end.

(** [json_copy_key]: the bytes written to [strOut], [None] for the result -1. *)
Definition json_copy_key (key : list Z) (strOutLen : Z) : option (list Z) :=
  if Z.of_nat (length key) + 1 >? strOutLen then None else Some (key ++ [0]).

(** * The scanner is safe and its callbacks are balanced *)

#[export] Instance item_eq_dec : EqDecision json_stack_item.
Proof. solve_decision. Defined.

(** ** What a parse promises of its callbacks *)
Section Spec.
Variable str : list Z.
Notation len := (Z.of_nat (length str)).

Definition ok_item (i : json_stack_item) : Prop := i = no_item \/ 0 <= it_begin i <= it_end i /\ it_end i <= len.

(** Keys and values are inside the text; a string is between its quotes. *)
Definition ok_event (e : event) : Prop :=
  match e with
  | EvString k b e => ok_item k /\ 0 < b <= e /\ e < len /\ rd str (b - 1) = Some 34 /\ rd str e = Some 34
  | EvPrimitive k b e => ok_item k /\ 0 <= b < e /\ e <= len
  | EvBegin k | EvEnd k => ok_item k
  end.

(** The keys of the blocks still open after the events (latest first): an end closes the
    innermost open block, under the key it was opened with. *)
Fixpoint opens (evs : list event) : option (list json_stack_item) :=
  match evs with
  | [] => Some []
  | e :: evs =>
      st ← opens evs;
      match e with
      | EvBegin k => Some (k :: st)
      | EvEnd k => match st with
                   | k' :: st => if decide (k = k') then Some st else None
                   | [] => None
                   end
      | _ => Some st
      end
  end.

(** ** Scanning *)
Lemma rd_some i : 0 <= i <= len -> rd str i = Some (nth (Z.to_nat i) str 0).
Proof. intros. unfold rd. rewrite (proj2 (Z.leb_le 0 i)), (proj2 (Z.leb_le i _)) by lia. done. Qed.

Lemma rd_inside i c : rd str i = Some c -> c <> 0 -> 0 <= i < len.
Proof.
  unfold rd. destruct (Z.leb_spec 0 i); [|done]. destruct (Z.leb_spec i len); [|done]. cbn. intros [= <-] Hc.
  destruct (Z.eq_dec i len) as [->|]; [|lia]. rewrite Nat2Z.id, nth_overflow in Hc by lia. done.
Qed.

Lemma string_loop_spec fuel : forall cur, 0 <= cur <= len -> len - cur < Z.of_nat fuel ->
  exists cur' ok, string_loop str fuel cur = Some (cur', ok) /\ cur <= cur' <= len.
Proof.
  induction fuel as [|f IH]; intros cur Hc Hf; [lia|]. cbn [string_loop]. rewrite (rd_some cur) by lia. cbn [mbind option_bind].
  set (c := nth (Z.to_nat cur) str 0). assert (Hrd : rd str cur = Some c) by (by apply rd_some).
  destruct (Z.eqb_spec c 0) as [E|Hc0]; [exists cur, true; split; [done|lia]|]. destruct (c =? 34); [exists cur, true; split; [done|lia]|].
  pose proof (rd_inside _ _ Hrd Hc0). destruct (c =? 92).
  - rewrite rd_some by lia. cbn [mbind option_bind]. set (d := nth (Z.to_nat (cur + 1)) str 0).
    assert (Hrd1 : rd str (cur + 1) = Some d) by (apply rd_some; lia).
    destruct (Z.eqb_spec d 0) as [|Hd0]; [exists (cur + 1), false; split; [done|lia]|].
    pose proof (rd_inside _ _ Hrd1 Hd0). destruct (IH (cur + 1 + 1)) as (cur' & ok & -> & ?); [lia|lia|].
    exists cur', ok. split; [done|lia].
  - destruct (IH (cur + 1)) as (cur' & ok & -> & ?); [lia|lia|]. exists cur', ok. split; [done|lia].
Qed.

(** Everything but the position. *)
Definition same_but_cur (js js' : json) : Prop := exists c, js' = set_cur js c.

Lemma parse_string_spec js : 0 <= js_cur js < len -> rd str (js_cur js) = Some 34 ->
  exists js' res, json_parse_string str js = Some (js', res)
  /\ (res = -1 /\ js_events js' = js_events js
      \/ res = 0 /\ exists b e, js' = set_cur (emit (set_last_string js (Item b e)) (EvString (js_last_key js) b e)) (e + 1)
         /\ js_cur js < b <= e /\ e < len /\ rd str (b - 1) = Some 34 /\ rd str e = Some 34).
Proof.
  intros Hc Hq. unfold json_parse_string.
  destruct (string_loop_spec (S (length str)) (js_cur js + 1)) as (cur & ok & E & Hcur); [lia|lia|]. rewrite E.
  cbn [mbind option_bind]. destruct ok; cbn [negb]; [|eexists _, _; split; [done|]; by left].
  rewrite rd_some by lia. cbn [mbind option_bind]. set (c := nth (Z.to_nat cur) str 0).
  assert (Hrd : rd str cur = Some c) by (apply rd_some; lia).
  destruct (Z.eqb_spec c 34) as [Ec|]; cbn [negb]; [|eexists _, _; split; [done|]; by left].
  rewrite Ec in Hrd. pose proof (rd_inside _ _ Hrd ltac:(done)).
  eexists _, _. split; [done|]. right. split; [done|]. exists (js_cur js + 1), cur. split; [done|].
  replace (js_cur js + 1 - 1) with (js_cur js) by lia. split; [lia|]. split; [lia|done].
Qed.

Lemma primitive_loop_spec fuel start : forall js, 0 <= js_cur js <= len -> start <= js_cur js -> len - js_cur js < Z.of_nat fuel ->
  exists js' res, primitive_loop str fuel js start = Some (js', res)
  /\ (res = -1 /\ js_events js' = js_events js
      \/ res = 0 /\ exists e, js' = set_last_string (emit (set_cur js e) (EvPrimitive (js_last_key js) start e)) (Item start e)
         /\ js_cur js <= e <= len /\ (e = js_cur js -> exists c, rd str e = Some c /\ is_delim c = true)).
Proof.
  induction fuel as [|f IH]; intros js Hc Hs Hf; [lia|]. cbn [primitive_loop]. rewrite (rd_some (js_cur js)) by lia. cbn [mbind option_bind].
  set (c := nth (Z.to_nat (js_cur js)) str 0). assert (Hrd : rd str (js_cur js) = Some c) by (apply rd_some; lia).
  destruct (Z.eqb_spec c 0) as [|Hc0]; [eexists _, _; split; [done|]; by left|].
  pose proof (rd_inside _ _ Hrd Hc0). destruct (is_delim c) eqn:Hd.
  - eexists _, _. split; [done|]. right. split; [done|]. exists (js_cur js). split; [by destruct js|]. split; [lia|eauto].
  - destruct (IH (set_cur js (js_cur js + 1))) as (js' & res & -> & Hr); [cbn; lia..|]. exists js', res. split; [done|].
    destruct Hr as [Hr|(-> & e & -> & He & _)]; [by left|right]. split; [done|]. exists e. split; [by destruct js|]. cbn in He. split; [lia|lia].
Qed.

(** ** The invariant of the main loop, relative to the stack and events before the call *)
Record parse_inv (base : list json_stack_item) (evs0 : list event) (js : json) (new : list event) : Prop := {
  pv_cur : 0 <= js_cur js <= len;
  pv_events : js_events js = new ++ evs0;
  pv_ok : Forall ok_event new;
  pv_open : exists opened, opens new = Some opened /\ js_stack js = opened ++ base /\ js_level js = Z.of_nat (length opened)
            /\ Forall ok_item opened;
  pv_last_string : ok_item (js_last_string js);
  pv_last_key : ok_item (js_last_key js);
}.

Definition round_ok base evs0 (js js' : json) (new : list event) (res : option Z) : Prop :=
  match res with
  | None => exists new', parse_inv base evs0 js' new' /\ js_cur js < js_cur js'
  | Some r => r = -1 /\ exists new' opened, js_events js' = new' ++ evs0 /\ Forall ok_event new' /\ opens new' = Some opened
  end.

Lemma ok_no_item : ok_item no_item.
Proof. by left. Qed.

Lemma starts_not_delim c : starts_primitive c = true -> is_delim c = false.
Proof.
  unfold starts_primitive, is_delim. rewrite !orb_true_iff, andb_true_iff, !Z.eqb_eq, !Z.leb_le.
  intros H. repeat (apply orb_false_iff; split); apply Z.eqb_neq; lia.
Qed.

Lemma round_spec base evs0 js new c : parse_inv base evs0 js new -> rd str (js_cur js) = Some c -> c <> 0 ->
  exists js' res, json_round str js c = Some (js', res) /\ round_ok base evs0 js js' new res.
Proof.
  intros [Hcur Hev Hok (op & Hop & Hst & Hlv & Hopk) Hls Hlk] Hrd Hc. pose proof (rd_inside _ _ Hrd Hc). unfold json_round. cbv zeta.
  destruct ((c =? 123) || (c =? 91)).
  { eexists _, _. split; [done|]. exists (EvBegin (js_last_string js) :: new). split; [|cbn; lia].
    split; cbn; [lia|by rewrite Hev|by constructor| |apply ok_no_item..].
    exists (js_last_string js :: op). rewrite Hop, Hst, Hlv. split; [done|]. split; [done|]. split; [cbn; lia|by constructor]. }
  destruct ((c =? 125) || (c =? 93)).
  { destruct (Z.eqb_spec (js_level js) 0) as [E|E]; [eexists _, _; split; [done|]; split; [done|eauto]|].
    destruct op as [|k op]; [cbn in Hlv; lia|]. cbn [js_stack set_last_key]. rewrite Hst. cbn [app].
    apply Forall_cons in Hopk as [Hk Hopk]. eexists _, _. split; [done|]. exists (EvEnd k :: new). split; [|cbn; lia].
    split; cbn; [lia|by rewrite Hev|by constructor| |done|apply ok_no_item].
    exists op. rewrite Hop. cbn. rewrite decide_True by done. split; [done|]. split; [done|]. split; [cbn in Hlv; lia|done]. }
  destruct (Z.eqb_spec c 34) as [->|_].
  { destruct (parse_string_spec js ltac:(lia) Hrd) as (js' & res & -> & [(-> & He)|(-> & b & e & -> & Hb & He & Hq1 & Hq2)]);
      cbn [mbind option_bind Z.ltb Z.compare]; eexists _, _; (split; [done|]).
    - split; [done|]. exists new, op. by rewrite He.
    - exists (EvString (js_last_key js) b e :: new). split; [|cbn; lia]. split; cbn; [lia|by rewrite Hev| | | |done].
      + constructor; [|done]. cbn. split; [done|]. split; [lia|]. split; [lia|done].
      + exists op. rewrite Hop. done.
      + right. cbn. lia. }
  destruct (starts_primitive c) eqn:Hp.
  { unfold json_parse_primitive. destruct (primitive_loop_spec (S (length str)) (js_cur js) js ltac:(lia) ltac:(lia) ltac:(lia))
      as (js' & res & -> & [(-> & He)|(-> & e & -> & He & Hd)]); cbn [mbind option_bind Z.ltb Z.compare]; eexists _, _; (split; [done|]).
    - split; [done|]. exists new, op. by rewrite He.
    - assert (js_cur js < e).
      { destruct (Z.eq_dec e (js_cur js)) as [E|]; [|lia]. destruct (Hd E) as (d & Hd1 & Hd2). rewrite E, Hrd in Hd1. injection Hd1 as <-.
        by rewrite (starts_not_delim c Hp) in Hd2. }
      exists (EvPrimitive (js_last_key js) (js_cur js) e :: new). split; [|cbn; lia]. split; cbn; [lia|by rewrite Hev| | | |done].
      + constructor; [|done]. cbn. split; [done|]. lia.
      + exists op. rewrite Hop. done.
      + right. cbn. lia. }
  destruct (c =? 58); [|destruct (c =? 44)]; eexists _, _; (split; [done|]); exists new;
    (split; [split; cbn; [lia|done|done|by exists op|done|done || apply ok_no_item]|cbn; lia]).
Qed.

Lemma parse_loop_spec base evs0 fuel : forall js new, parse_inv base evs0 js new -> len - js_cur js < Z.of_nat fuel ->
  exists js' res new', json_parse_loop str fuel js = Some (js', res) /\ js_events js' = new' ++ evs0 /\ Forall ok_event new'
  /\ exists opened, opens new' = Some opened /\ (res = -1 \/ res = 0 /\ opened = [] /\ js_stack js' = base).
Proof.
  induction fuel as [|f IH]; intros js new Hinv Hf; [pose proof (pv_cur _ _ _ _ Hinv); lia|].
  pose proof (pv_cur _ _ _ _ Hinv) as Hcur. cbn [json_parse_loop]. rewrite (rd_some (js_cur js)) by lia. cbn [mbind option_bind].
  set (c := nth (Z.to_nat (js_cur js)) str 0). assert (Hrd : rd str (js_cur js) = Some c) by (apply rd_some; lia).
  destruct (Z.eqb_spec c 0) as [|Hc0].
  - destruct Hinv as [_ Hev Hok (op & Hop & Hst & Hlv & _) _ _]. destruct (Z.eqb_spec (js_level js) 0) as [E|]; cbn [negb].
    + exists js, 0, new. split; [done|]. split; [done|]. split; [done|]. exists op. split; [done|]. right. destruct op as [|]; [done|cbn in Hlv; lia].
    + eexists _, (-1), new. split; [done|]. split; [done|]. split; [done|]. exists op. split; [done|by left].
  - destruct (round_spec base evs0 js new c Hinv Hrd Hc0) as (js1 & res & -> & Hr). cbn [mbind option_bind].
    destruct res as [r|]; cbn in Hr.
    + destruct Hr as (-> & new' & op & He & Hok & Hop). exists js1, (-1), new'. eauto 8.
    + destruct Hr as (new1 & Hinv1 & Hlt). apply (IH js1 new1 Hinv1). lia.
Qed.
End Spec.

(** C31: [json_parse] ends on every text without reading behind its terminator; every key and
    value it passes to a callback lies inside the text, strings exactly between their quotes.
    Whatever it returns, each end of a block it has reported closes the block that was opened
    last and is still open, with the key that block was opened with.  If it returns 0, no block is
    left open and the stack is as before. *)
Theorem json_parse_safe (str : list Z) (js0 : json) :
  exists js res new, json_parse str js0 = Some (js, res) /\ js_events js = new ++ js_events js0
    /\ Forall (ok_event str) new
    /\ exists opened, opens new = Some opened /\ (res = -1 \/ res = 0 /\ opened = [] /\ js_stack js = js_stack js0).
Proof.
  unfold json_parse. apply (parse_loop_spec str (js_stack js0) (js_events js0) _ _ []); [|cbn; lia].
  split; cbn; [lia|done|constructor|by exists []|apply ok_no_item..].
Qed.

(** ** Escaping *)

(** An escaped character is a plain one, or a backslash and a character the table maps back. *)
Lemma escape_char_cases c : c <> 0 ->
  json_escape_char c = [c] /\ c <> 34 /\ c <> 92
  \/ exists x, json_escape_char c = [92; x] /\ unescape_table x = c /\ x <> 0.
Proof.
  intros Hc. unfold json_escape_char.
  destruct (Z.eqb_spec c 34) as [->|]; [right; by eexists|]. destruct (Z.eqb_spec c 92) as [->|]; [right; by eexists|].
  destruct (Z.eqb_spec c 47) as [->|]; [right; by eexists|]. cbn [orb].
  repeat (match goal with |- context [c =? ?k] => destruct (Z.eqb_spec c k) as [->|] end; [right; by eexists|]).
  by left.
Qed.

Lemma unescape_escape s : Forall (fun c => c <> 0) s -> json_unescape_str (s ≫= json_escape_char) = Some s.
Proof.
  induction 1 as [|c s Hc Hs IH]; [done|]. rewrite bind_cons.
  destruct (escape_char_cases c Hc) as [(-> & H34 & H92)|(x & -> & Hx & _)]; cbn [app json_unescape_str].
  - rewrite (proj2 (Z.eqb_neq c 92)) by done. by rewrite IH.
  - cbn [Z.eqb Pos.eqb]. by rewrite IH, <- Hx.
Qed.

Lemma length_escape_char c : (length (json_escape_char c) <= 2)%nat.
Proof. unfold json_escape_char. repeat case_match; cbn; lia. Qed.

Lemma length_escaped s : (length (s ≫= json_escape_char) <= 2 * length s)%nat.
Proof. induction s as [|c s IH]; [done|]. rewrite bind_cons, length_app. pose proof (length_escape_char c). cbn. lia. Qed.

Lemma rd_app pre c post : rd (pre ++ c :: post) (Z.of_nat (length pre)) = Some c.
Proof.
  rewrite rd_some by (rewrite length_app; lia). rewrite Nat2Z.id, app_nth2, Nat.sub_diag by lia. done.
Qed.

(** The scanner passes over an escaped string to the closing quote. *)
Lemma string_loop_escaped post s : Forall (fun c => c <> 0) s -> forall pre fuel,
  (length (s ≫= json_escape_char) < fuel)%nat ->
  string_loop (pre ++ (s ≫= json_escape_char) ++ 34 :: post) fuel (Z.of_nat (length pre))
  = Some (Z.of_nat (length pre) + Z.of_nat (length (s ≫= json_escape_char)), true).
Proof.
  induction 1 as [|c s Hc Hs IH]; intros pre [|f] Hf; try (cbn in Hf; lia); cbn [string_loop].
  - cbn [mbind list_bind app]. rewrite rd_app. cbn. by rewrite Z.add_0_r.
  - rewrite bind_cons in *. set (d := s ≫= json_escape_char) in *.
    destruct (escape_char_cases c Hc) as [(E0 & H34 & H92)|(x & E0 & _ & Hx)]; rewrite E0 in *; cbn [app length] in *.
    + rewrite rd_app. cbn [mbind option_bind]. rewrite (proj2 (Z.eqb_neq c 0)), (proj2 (Z.eqb_neq c 34)), (proj2 (Z.eqb_neq c 92)) by done.
      pose proof (IH (pre ++ [c]) f ltac:(lia)) as E. rewrite <- app_assoc, length_app, Nat2Z.inj_add in E. cbn [app length] in E.
      change (Z.of_nat 1) with 1 in E. rewrite E. f_equal. f_equal. lia.
    + rewrite rd_app. cbn [mbind option_bind Z.eqb Pos.eqb].
      replace (pre ++ 92 :: x :: d ++ 34 :: post) with ((pre ++ [92]) ++ x :: d ++ 34 :: post) by (by rewrite <- app_assoc).
      replace (Z.of_nat (length pre) + 1) with (Z.of_nat (length (pre ++ [92]))) by (rewrite length_app; cbn; lia).
      rewrite rd_app. cbn [mbind option_bind]. rewrite (proj2 (Z.eqb_neq x 0)) by done.
      pose proof (IH (pre ++ [92; x]) f ltac:(lia)) as E. rewrite <- app_assoc in *. cbn [app] in *. rewrite !length_app in *. cbn [length] in *.
      replace (Z.of_nat (length pre + 1) + 1) with (Z.of_nat (length pre + 2)) by lia. rewrite E. f_equal. f_equal. lia.
Qed.

(** An escaped string is scanned back as it was written: [json_escape_str_vmb] appends the
    escaped text to the buffer, [json_parse_string] on that text between quotes passes exactly
    it to the string callback, and [json_unescape_str] of it is the original string. *)
Theorem json_escape_parse_unescape `{address_space} (o : os) (stale : Z -> Z -> Z) (limit rl : Z) (c s pre post : list Z)
  (st : world * vmbuf) (js : json)
  (Hlimit : limit <= 2 ^ 60) (Hgrow : can_grow_to o (limit + 4096))
  (Hbuf : vbuf _mem_funcs_anon_buf (fun _ => True) c rl st) (Hs : Forall (fun b => b <> 0) s)
  (Hfits : 2 * (Z.of_nat (length c) + 2 * Z.of_nat (length s) + 1) + VMBUF_HEADER <= limit)
  (Hcur : js_cur js = Z.of_nat (length pre)) :
  exists st' d, json_escape_str_vmb o stale s st = Some (Z.of_nat (length d), st') /\ contents_of (snd st') = c ++ d
    /\ json_unescape_str d = Some s
    /\ exists js', json_parse_string (pre ++ 34 :: d ++ 34 :: post) js = Some (js', 0)
       /\ js_events js' = EvString (js_last_key js) (Z.of_nat (length pre) + 1) (Z.of_nat (length pre) + 1 + Z.of_nat (length d)) :: js_events js
       /\ js_cur js' = Z.of_nat (length pre) + 1 + Z.of_nat (length d) + 1.
Proof.
  set (d := s ≫= json_escape_char). pose proof (length_escaped s) as Hlen. fold d in Hlen.
  assert (Hvb : exists st', json_escape_str_vmb o stale s st = Some (Z.of_nat (length d), st') /\ contents_of (snd st') = c ++ d).
  { pose proof (anon_growable o stale limit Hlimit Hgrow) as Hg. destruct Hbuf as (cap & Hv & Hc).
    pose proof (vi_bounds _ _ _ _ _ _ _ Hv). unfold json_escape_str_vmb, json_escape_str. fold d. unfold VMBUF_HEADER in Hfits.
    rewrite (u64_small (Z.of_nat (length s) * 2)), u64_small by lia.
    destruct (resize_if_less_eval o stale _ _ limit Hlimit _ c rl (Z.of_nat (length s) * 2 + 1) 63 cap st Hv)
      as (s1 & cap1 & E1 & Hs1 & Hc1 & _); [lia|lia|unfold VMBUF_HEADER; lia|apply (resize_rounds_enough limit Hlimit); unfold VMBUF_HEADER; lia|].
    unfold vmbuf_resize_if_less, RESIZE_ROUNDS. rewrite (bind_eval _ _ _ _ _ E1). cbv zeta.
    rewrite (bind_eval _ _ _ _ _ (wlocpos_eval _ _ _ _ _ _ _ Hs1)).
    destruct (poke_eval _ _ _ c rl cap1 s1 (d ++ [0]) Hs1) as (s2 & E2 & Hs2 & _); [rewrite length_app; cbn; lia|].
    rewrite (bind_eval _ _ _ _ _ E2). rewrite app_assoc in Hs2. apply vb_is_prefix in Hs2.
    destruct (wseek_eval o stale _ _ limit Hlimit _ _ _ _ _ (Z.of_nat (length d)) Hs2) as (s3 & cap3 & E3 & Hs3 & Hc3 & _);
      [lia|lia|lia|unfold VMBUF_HEADER; lia|]. rewrite (bind_eval _ _ _ _ _ E3). exists s3. split; [done|].
    apply (vbuf_contents _mem_funcs_anon_buf (fun _ => True) _ rl). exists cap3. by rewrite length_app, Nat2Z.inj_add. }
  destruct Hvb as (st' & E & Hcont). exists st', d. split; [done|]. split; [done|]. split; [by apply unescape_escape|].
  unfold json_parse_string. rewrite Hcur. cbv zeta.
  replace (pre ++ 34 :: d ++ 34 :: post) with ((pre ++ [34]) ++ d ++ 34 :: post) by (by rewrite <- app_assoc).
  replace (Z.of_nat (length pre) + 1) with (Z.of_nat (length (pre ++ [34]))) by (rewrite length_app; cbn; lia).
  subst d. rewrite string_loop_escaped by (done || (rewrite !length_app; cbn; lia)). cbn [mbind option_bind negb].
  set (d := s ≫= json_escape_char). rewrite app_assoc, <- Nat2Z.inj_add, <- length_app, rd_app. cbn. eexists. split; [done|]. done.
Qed.

Definition json_blank : json := Json 0 0 ErrNone no_item no_item [] [].

Lemma json_escape_parse_unescape_witness :
  exists st' d, json_escape_str_vmb os_all_ok (fun _ _ => 0) [97; 34; 10; 92] abc_state = Some (Z.of_nat (length d), st')
    /\ json_unescape_str d = Some [97; 34; 10; 92]
    /\ exists js', json_parse_string (34 :: d ++ [34; 125]) json_blank = Some (js', 0).
Proof.
  destruct (json_escape_parse_unescape os_all_ok (fun _ _ => 0) (2 ^ 20) 1 [97; 98; 99] [97; 34; 10; 92] [] [125] abc_state json_blank)
    as (st' & d & E & _ & Hu & js' & Ep & _).
  - lia.
  - by intros old n _.
  - apply abc_state_ok.
  - repeat (constructor; [lia|]); constructor.
  - vm_compute. congruence.
  - done.
  - exists st', d. split; [exact E|]. split; [exact Hu|]. exists js'. exact Ep.
Defined.

(** In an array, the block callback gets the preceding element as its key: for the text
    [[1,{}]] the begin of the object is reported with the key [1]. *)
Theorem json_block_key_is_previous_element :
  exists js, json_parse [91; 49; 44; 123; 125; 93] json_blank = Some (js, 0)
    /\ rev (js_events js) = [EvBegin no_item; EvPrimitive no_item 1 2; EvBegin (Item 1 2); EvEnd (Item 1 2); EvEnd no_item].
Proof. eexists. split; vm_compute; reflexivity. Qed.

(** [json_unescape_str] skips the terminator of a text that ends in a backslash and goes
    on reading behind it. *)
Theorem json_unescape_reads_past_end (s : list Z) (Hs : Forall (fun c => c <> 92) s) : json_unescape_str (s ++ [92]) = None.
Proof.
  induction Hs as [|c s Hc Hs IH]; [done|]. cbn [app json_unescape_str]. rewrite (proj2 (Z.eqb_neq c 92)) by done. by rewrite IH.
Qed.

Lemma json_unescape_reads_past_end_witness : json_unescape_str [97; 92] = None.
Proof. apply (json_unescape_reads_past_end [97]). constructor; [lia|constructor]. Defined.
