(* ===== verification/JsonDom.v ===== *)
(** * JsonDom: a JSON text as a tree of linked nodes ([include/json_dom.h], [src/json_dom.c])

    Nodes are in a heap, a list, and a pointer to a node is its position; [ribs_malloc] is
    taken to succeed.  A node refers to its text by its position in the parsed string.  [level], an
    [int] in the code, is an unbounded integer; the theorems are about texts shorter than 2^31, where
    the two agree. *)

From stdpp Require Import base numbers list.
From Stdlib Require Import ZArith Lia.
From S2P Require Import Prelude Words Bytes Cstring Json.

Inductive json_dom_type := JSON_DOM_TYPE_STR | JSON_DOM_TYPE_PRIM | JSON_DOM_TYPE_OBJ | JSON_DOM_TYPE_ARRAY.
#[export] Instance json_dom_type_eq_dec : EqDecision json_dom_type.
Proof. solve_decision. Defined.

(** [NULL], the literal [""] of the root, or a place in the text. *)
Inductive text_ptr := TNull | TEmpty | TAt (pos : Z).

Record json_dom_node := DomNode {
  jn_value : text_ptr;
  jn_value_len : Z;
  jn_type : json_dom_type;
  jn_children_count : Z;
  jn_parent : option nat;
  jn_first_child : option nat;
  jn_last_child : option nat;
  jn_prev_sibling : option nat;
  jn_next_sibling : option nat;
}.

Inductive dom_err := DErrString | DErrPrimitive | DErrUnbalanced | DErrArray | DErrMalformed.

Record json_dom := JsonDom {
  jd_level : Z;
  jd_cur : Z;
  jd_err : option dom_err;
  jd_is_key : bool;
  jd_node : nat;
  jd_heap : list json_dom_node;
}.

Abbreviation JD := (ST json_dom).

(** ** Fields *)
Definition with_level js l := JsonDom l (jd_cur js) (jd_err js) (jd_is_key js) (jd_node js) (jd_heap js).
Definition with_cur js c := JsonDom (jd_level js) c (jd_err js) (jd_is_key js) (jd_node js) (jd_heap js).
Definition with_err js e := JsonDom (jd_level js) (jd_cur js) (Some e) (jd_is_key js) (jd_node js) (jd_heap js).
Definition with_is_key js k := JsonDom (jd_level js) (jd_cur js) (jd_err js) k (jd_node js) (jd_heap js).
Definition with_node js n := JsonDom (jd_level js) (jd_cur js) (jd_err js) (jd_is_key js) n (jd_heap js).
Definition with_heap js h := JsonDom (jd_level js) (jd_cur js) (jd_err js) (jd_is_key js) (jd_node js) h.

Definition jd_self : JD json_dom := fun js => Some (js, js).
Definition modify (f : json_dom -> json_dom) : JD unit := fun js => Some (tt, f js).

(** [*p]; there is no node at [NULL]. *)
Definition node_at (p : option nat) : JD json_dom_node := fun js => n ← (a ← p; jd_heap js !! a); Some (n, js).
Definition set_node (a : nat) (f : json_dom_node -> json_dom_node) : JD unit := fun js =>
  match jd_heap js !! a with Some n => Some (tt, with_heap js (<[a := f n]> (jd_heap js))) | None => None end.

Definition n_count n c := DomNode (jn_value n) (jn_value_len n) (jn_type n) c (jn_parent n) (jn_first_child n) (jn_last_child n) (jn_prev_sibling n) (jn_next_sibling n).
Definition n_type n t := DomNode (jn_value n) (jn_value_len n) t (jn_children_count n) (jn_parent n) (jn_first_child n) (jn_last_child n) (jn_prev_sibling n) (jn_next_sibling n).
Definition n_links n p pr nx := DomNode (jn_value n) (jn_value_len n) (jn_type n) (jn_children_count n) p (jn_first_child n) (jn_last_child n) pr nx.
Definition n_next n nx := DomNode (jn_value n) (jn_value_len n) (jn_type n) (jn_children_count n) (jn_parent n) (jn_first_child n) (jn_last_child n) (jn_prev_sibling n) nx.
Definition n_children n f l := DomNode (jn_value n) (jn_value_len n) (jn_type n) (jn_children_count n) (jn_parent n) f l (jn_prev_sibling n) (jn_next_sibling n).

(** [_new_node] and the assignment that follows each call of it. *)
Definition _new_node (value : text_ptr) (value_len : Z) (type : json_dom_type) : JD nat := fun js =>
  Some (length (jd_heap js), with_heap js (jd_heap js ++ [DomNode value value_len type 0 None None None None None])).

Definition child_node (parent : option nat) (node : nat) : JD nat :=
  match parent with
  | Some p =>
      set_node p (fun n => n_count n (u32 (jn_children_count n + 1)));;
      set_node node (fun n => n_links n (Some p) (jn_prev_sibling n) (jn_next_sibling n));;
      pn ← node_at parent;
      match jn_last_child pn with
      | Some l =>
          set_node node (fun n => n_links n (jn_parent n) (Some l) None);;
          set_node l (fun n => n_next n (Some node));;
          set_node p (fun n => n_children n (jn_first_child n) (Some node));;
          mret node
      | None =>
          set_node p (fun n => n_children n (Some node) (Some node));;
          set_node node (fun n => n_links n (jn_parent n) None None);;
          mret node
      end
  | None => set_node node (fun n => n_links n None None None);; mret node
  end.

Section Parse.
Variable str : list Z.

(** The value parsed last is a child of the key, or of the current node. *)
Definition add_value (start cur : Z) (type : json_dom_type) : JD unit :=
  node ← _new_node (TAt start) (u32 (cur - start)) type;
  js ← jd_self;
  if jd_is_key js then n ← node_at (Some (jd_node js)); child_node (jn_last_child n) node;; mret tt
  else child_node (Some (jd_node js)) node;; mret tt.

Definition read (i : Z) : JD Z := fun js => match rd str i with Some c => Some (c, js) | None => None end.

Definition _parse_string : JD Z :=
  modify (fun js => with_cur js (jd_cur js + 1));;
  js ← jd_self;
  let start := jd_cur js in
  match string_loop str (S (length str)) start with
  | None => crash
  | Some (cur, false) => modify (fun js => with_cur js cur);; mret (-1)
  | Some (cur, true) =>
      modify (fun js => with_cur js cur);;
      c ← read cur;
      if negb (c =? 34) then modify (fun js => with_err js DErrString);; mret (-1)
      else add_value start cur JSON_DOM_TYPE_STR;; modify (fun js => with_cur js (cur + 1));; mret 0
  end.

Fixpoint dom_primitive_loop (fuel : nat) (start : Z) : JD Z :=
  match fuel with
  | O => crash
  | S f =>
      js ← jd_self;
      c ← read (jd_cur js);
      if c =? 0 then modify (fun js => with_err js DErrPrimitive);; mret (-1)
      else if is_delim c then add_value start (jd_cur js) JSON_DOM_TYPE_PRIM;; mret 0
      else modify (fun js => with_cur js (jd_cur js + 1));; dom_primitive_loop f start
  end.
Definition _parse_primitive : JD Z := js ← jd_self; dom_primitive_loop (S (length str)) (jd_cur js).

Definition advance : JD (option Z) := modify (fun js => with_cur js (jd_cur js + 1));; mret None.
Definition fail (e : dom_err) : JD (option Z) := modify (fun js => with_err js e);; mret (Some (-1)).

(** One round of the loop of [json_dom_parse]; [Some r] is a return. *)
Definition dom_round (c : Z) : JD (option Z) :=
  if (c =? 123) || (c =? 91) then
    let type := if c =? 91 then JSON_DOM_TYPE_ARRAY else JSON_DOM_TYPE_OBJ in
    js ← jd_self;
    (if jd_is_key js then
       modify (fun js => with_is_key js false);;
       n ← node_at (Some (jd_node js));
       match jn_last_child n with
       | Some l => set_node l (fun n => n_type n type);; modify (fun js => with_node js l)
       | None => crash
       end
     else
       node ← _new_node TNull 0 type;
       node ← child_node (Some (jd_node js)) node;
       modify (fun js => with_node js node));;
    modify (fun js => with_level js (jd_level js + 1));;
    advance
  else if (c =? 125) || (c =? 93) then
    js ← jd_self;
    if jd_level js =? 0 then fail DErrUnbalanced
    else
      n ← node_at (Some (jd_node js));
      match jn_parent n with
      | None => crash   (* the next use of js->node is of NULL *)
      | Some p => modify (fun js => with_level (with_is_key (with_node js p) false) (jd_level js - 1));; advance
      end
  else if c =? 34 then r ← _parse_string; mret (if r <? 0 then Some (-1) else None)
  else if starts_primitive c then r ← _parse_primitive; mret (if r <? 0 then Some (-1) else None)
  else if c =? 58 then
    js ← jd_self; n ← node_at (Some (jd_node js));
    if bool_decide (jn_type n = JSON_DOM_TYPE_ARRAY) then fail DErrArray
    else match jn_last_child n with
         | None => fail DErrMalformed
         | Some _ => modify (fun js => with_is_key js true);; advance
         end
  else if c =? 44 then modify (fun js => with_is_key js false);; advance
  else advance.

Fixpoint dom_loop (fuel : nat) (root : nat) : JD Z :=
  match fuel with
  | O => crash
  | S f =>
      js ← jd_self;
      c ← read (jd_cur js);
      if c =? 0 then modify (fun js => with_node js root);; mret 0
      else r ← dom_round c; match r with Some r => mret r | None => dom_loop f root end
  end.

Definition json_dom_parse : JD Z :=
  root ← _new_node TEmpty 4 JSON_DOM_TYPE_OBJ;
  modify (fun js => JsonDom 0 0 None false root (jd_heap js));;
  dom_loop (S (length str)) root.

(** ** Access *)
Definition json_dom_root : JD (option nat) := js ← jd_self; n ← node_at (Some (jd_node js)); mret (jn_first_child n).

(** The bytes a node refers to. *)
Definition node_text (n : json_dom_node) : JD (list Z) := fun js =>
  match jn_value n with
  | TAt p => if (0 <=? p) && (p + jn_value_len n <=? Z.of_nat (length str)) then Some (subrange str p (jn_value_len n), js) else None
  | _ => if jn_value_len n =? 0 then Some ([], js) else None
  end.

Definition is_value (n : json_dom_node) : bool := bool_decide (jn_type n = JSON_DOM_TYPE_PRIM) || bool_decide (jn_type n = JSON_DOM_TYPE_STR).

(** The loop over the siblings; [strncmp] of as many bytes as both have. *)
Fixpoint find_sibling (fuel : nat) (p : option nat) (name : list Z) : JD (option nat) :=
  match fuel, p with
  | _, None => mret None
  | O, _ => crash
  | S f, Some a =>
      n ← node_at p;
      same ← (if Z.of_nat (length name) =? jn_value_len n then t ← node_text n; mret (bool_decide (t = name)) else mret false);
      if same : bool then
        match bool_decide (jn_type n = JSON_DOM_TYPE_ARRAY), jn_first_child n with
        | false, Some c => cn ← node_at (Some c); mret (Some (if is_value cn then c else a))
        | _, _ => mret (Some a)
        end
      else find_sibling f (jn_next_sibling n) name
  end.
Definition json_dom_find_child (node : option nat) (name : list Z) : JD (option nat) :=
  js ← jd_self; n ← node_at node; find_sibling (length (jd_heap js)) (jn_first_child n) name.

(** The result and what is stored at [int_out], [str_out] or [size_out], if anything is. *)
Definition json_dom_get_int_val (node : option nat) : JD (Z * option Z) :=
  match node with
  | None => mret (-1, None)
  | Some _ =>
      n ← node_at node; s ← node_text n;
      match strtox 0 s with
      | None => mret (-1, Some 0)
      | Some (neg, v) => if 2 ^ 64 <=? v then mret (-1, Some (int_of_long (2 ^ 64 - 1))) else mret (0, Some (int_of_long (if neg : bool then - v else v)))
      end
  end.

Definition json_dom_copy_str_val (node : option nat) : JD (Z * option (list Z)) :=
  match node with
  | None => mret (-1, None)
  | Some _ => n ← node_at node; s ← node_text n; mret (0, Some (s ++ [0]))
  end.

Fixpoint count_siblings (fuel : nat) (p : option nat) (size : Z) : JD Z :=
  match fuel, p with
  | _, None => mret size
  | O, _ => crash
  | S f, Some _ => n ← node_at p; count_siblings f (jn_next_sibling n) (size + 1)
  end.
Definition json_dom_get_array_size (node : option nat) : JD (Z * Z) :=
  match node with
  | None => mret (-1, 0)
  | Some _ =>
      n ← node_at node;
      if negb (bool_decide (jn_type n = JSON_DOM_TYPE_ARRAY)) then mret (-1, 0)
      else js ← jd_self; size ← count_siblings (length (jd_heap js)) (jn_first_child n) 0; mret (0, size)
  end.

(** [printf] of one line: [%*c] pads a blank to [level * 4] columns; the index only in an array. *)
Definition type_name (t : json_dom_type) : Z :=
  match t with JSON_DOM_TYPE_STR => 83 | JSON_DOM_TYPE_PRIM => 80 | JSON_DOM_TYPE_OBJ => 79 | JSON_DOM_TYPE_ARRAY => 65 end.
Definition dump_line (level : nat) (t : json_dom_type) (index : option Z) (text : list Z) : list Z :=
  replicate (Nat.max 1 (level * 4)) 32 ++ [32; 91; type_name t; 93] ++ match index with Some i => 91 :: dec i ++ [93] | None => [] end ++ 32 :: text ++ [10].

Fixpoint _dump (fuel : nat) (p : option nat) (level : nat) (i : Z) : JD (list Z) :=
  match fuel, p with
  | _, None => mret []
  | O, _ => crash
  | S f, Some _ =>
      n ← node_at p; pn ← node_at (jn_parent n); text ← node_text n;
      sub ← _dump f (jn_first_child n) (S level) 0;
      rest ← _dump f (jn_next_sibling n) level (i + 1);
      mret (dump_line level (jn_type n) (if bool_decide (jn_type pn = JSON_DOM_TYPE_ARRAY) then Some i else None) text ++ sub ++ rest)
  end.
Definition json_dom_dump : JD (list Z) := js ← jd_self; n ← node_at (Some (jd_node js)); _dump (length (jd_heap js)) (jn_first_child n) 0 0.
End Parse.
