(* ===== verification/JsonForest.v ===== *)
(** * JsonForest: the linked nodes of a parsed text as a forest

    The pointers of a heap of nodes describe, for each node, the list of its children; the
    operations of the parser append a child, or change the type of a node. *)

From stdpp Require Import base numbers list.
From Stdlib Require Import ZArith Lia.
From S2P Require Import Prelude Words Bytes Json JsonDom.

(** A node by what it says and by its children. *)
Record fnode := FNode {
  fn_value : text_ptr;
  fn_len : Z;
  fn_type : json_dom_type;
  fn_parent : option nat;
  fn_children : list nat;
}.
Definition fn_add (c : nat) (n : fnode) : fnode := FNode (fn_value n) (fn_len n) (fn_type n) (fn_parent n) (fn_children n ++ [c]).
Definition fn_retype (t : json_dom_type) (n : fnode) : fnode := FNode (fn_value n) (fn_len n) t (fn_parent n) (fn_children n).

(** The node at [a] of the heap [h] says what [f] says, and its children are linked. *)
Record node_ok (h : list json_dom_node) (a : nat) (n : json_dom_node) (f : fnode) : Prop := {
  no_value : jn_value n = fn_value f;
  no_len : jn_value_len n = fn_len f;
  no_type : jn_type n = fn_type f;
  no_parent : jn_parent n = fn_parent f;
  no_count : jn_children_count n = Z.of_nat (length (fn_children f));
  no_first : jn_first_child n = head (fn_children f);
  no_last : jn_last_child n = last (fn_children f);
  no_nodup : NoDup (fn_children f);
  no_children : forall (i c : nat), fn_children f !! i = Some c -> (a < c)%nat /\ exists m, h !! c = Some m /\ jn_parent m = Some a
    /\ jn_prev_sibling m = match i with O => None | S j => fn_children f !! j end /\ jn_next_sibling m = fn_children f !! S i;
}.
Definition linked (h : list json_dom_node) (F : list fnode) : Prop :=
  length h = length F /\ forall a n f, h !! a = Some n -> F !! a = Some f -> node_ok h a n f.

Lemma linked_lookup h F a f : linked h F -> F !! a = Some f -> exists n, h !! a = Some n /\ node_ok h a n f.
Proof.
  intros [Hl HF] Ha. destruct (lookup_lt_is_Some_2 h a) as [n Hn]; [rewrite Hl; by eapply lookup_lt_Some|]. exists n. auto.
Qed.

(** ** Changing the type *)
Lemma linked_retype h F a n t : linked h F -> h !! a = Some n -> linked (<[a := n_type n t]> h) (alter (fn_retype t) a F).
Proof.
  intros [Hl HF] Ha. split; [by rewrite length_insert, length_alter|]. intros x m f Hx Hf.
  assert (Hlook : forall c m, h !! c = Some m -> exists m', <[a := n_type n t]> h !! c = Some m' /\ jn_parent m' = jn_parent m /\ jn_prev_sibling m' = jn_prev_sibling m /\ jn_next_sibling m' = jn_next_sibling m).
  { intros c m' Hc. destruct (decide (c = a)) as [->|Hne]; [|exists m'; by rewrite list_lookup_insert_ne]. rewrite list_lookup_insert_eq by (by eapply lookup_lt_Some). rewrite Ha in Hc. injection Hc as <-. by eexists. }
  assert (Hchildren : forall n0 f0, node_ok h x n0 f0 -> forall i c : nat, fn_children f0 !! i = Some c -> (x < c)%nat /\ exists m, <[a := n_type n t]> h !! c = Some m /\ jn_parent m = Some x
    /\ jn_prev_sibling m = match i with O => None | S j => fn_children f0 !! j end /\ jn_next_sibling m = fn_children f0 !! S i).
  { intros n0 f0 Hok i c Hc. destruct (no_children _ _ _ _ Hok i c Hc) as (Hlt & m0 & Hm0 & H1 & H2 & H3). split; [done|]. destruct (Hlook c m0 Hm0) as (m1 & Hm1 & E1 & E2 & E3). exists m1. by rewrite E1, E2, E3. }
  destruct (decide (x = a)) as [->|Hne].
  - rewrite list_lookup_insert_eq in Hx by (by eapply lookup_lt_Some). injection Hx as <-. rewrite list_lookup_alter_eq in Hf. destruct (F !! a) as [f0|] eqn:Ef; [|done]. injection Hf as <-.
    pose proof (HF a n f0 Ha Ef) as Hok. pose proof (Hchildren n f0 Hok). destruct Hok. by split.
  - rewrite list_lookup_insert_ne in Hx by done. rewrite list_lookup_alter_ne in Hf by done. pose proof (HF x m f Hx Hf) as Hok. pose proof (Hchildren m f Hok). destruct Hok. by split.
Qed.

(** ** Appending a child *)
Section Append.
Context (h : list json_dom_node) (F : list fnode) (p : nat) (pn : json_dom_node) (pf : fnode) (v : text_ptr) (l : Z) (t : json_dom_type).
Hypothesis (HF : linked h F) (Hp : h !! p = Some pn) (Hpf : F !! p = Some pf) (Hsmall : Z.of_nat (length F) < 2 ^ 32 - 1).
Let a := length h.
Let F' := alter (fn_add a) p F ++ [FNode v l t (Some p) []].

Lemma child_bound x i c n f : h !! x = Some n -> F !! x = Some f -> fn_children f !! i = Some c -> (x < c < a)%nat.
Proof. intros Hx Hf Hc. destruct (no_children _ _ _ _ (proj2 HF x n f Hx Hf) i c Hc) as (Hlt & m & Hm & _). apply lookup_lt_Some in Hm. unfold a. lia. Qed.

(** The nodes afterwards: the new one, the parent, the sibling before it, and the others as they were. *)
Record appended (h' : list json_dom_node) : Prop := {
  ap_length : length h' = S a;
  ap_new : h' !! a = Some (DomNode v l t 0 (Some p) None None (jn_last_child pn) None);
  ap_parent : h' !! p = Some (n_children (n_count pn (u32 (jn_children_count pn + 1))) (match jn_last_child pn with Some _ => jn_first_child pn | None => Some a end) (Some a));
  ap_sibling : forall x n, jn_last_child pn = Some x -> h !! x = Some n -> h' !! x = Some (n_next n (Some a));
  ap_others : forall x, x <> a -> x <> p -> jn_last_child pn <> Some x -> h' !! x = h !! x;
}.

Lemma appended_others h' x n : appended h' -> h !! x = Some n -> x <> p -> exists n', h' !! x = Some n' /\ jn_parent n' = jn_parent n /\ jn_prev_sibling n' = jn_prev_sibling n
  /\ jn_next_sibling n' = (if decide (jn_last_child pn = Some x) then Some a else jn_next_sibling n)
  /\ jn_value n' = jn_value n /\ jn_value_len n' = jn_value_len n /\ jn_type n' = jn_type n /\ jn_children_count n' = jn_children_count n /\ jn_first_child n' = jn_first_child n /\ jn_last_child n' = jn_last_child n.
Proof.
  intros Ha Hx Hne. destruct (decide (jn_last_child pn = Some x)) as [Hl|Hl]; [rewrite (ap_sibling _ Ha x n Hl Hx); by eexists|].
  exists n. rewrite (ap_others _ Ha x) by (try done; apply lookup_lt_Some in Hx; unfold a; lia). done.
Qed.

Lemma appended_linked h' : appended h' -> linked h' F'.
Proof.
  intros Ha. destruct HF as [Hlen Hok]. pose proof (Hok p pn pf Hp Hpf) as Hpok. pose proof (lookup_lt_Some _ _ _ Hp) as Hpa. split; [rewrite (ap_length _ Ha); unfold F', a; rewrite length_app, length_alter; cbn; lia|].
  intros x n f Hx Hf. unfold F' in Hf. destruct (decide (x = a)) as [->|Hxa].
  { rewrite (ap_new _ Ha) in Hx. injection Hx as <-. rewrite lookup_app_r in Hf by (rewrite length_alter; unfold a; lia). rewrite length_alter in Hf. unfold a in Hf. rewrite Hlen, Nat.sub_diag in Hf. injection Hf as <-. split; cbn; try done. constructor. }
  assert (Hxl : (x < a)%nat) by (apply lookup_lt_Some in Hx; rewrite (ap_length _ Ha) in Hx; lia). rewrite lookup_app_l in Hf by (rewrite length_alter, <- Hlen; done).
  destruct (lookup_lt_is_Some_2 h x Hxl) as [n0 Hn0]. destruct (decide (x = p)) as [->|Hxp].
  - rewrite list_lookup_alter_eq, Hpf in Hf. injection Hf as <-. rewrite (ap_parent _ Ha) in Hx. injection Hx as <-. destruct Hpok as [E1 E2 E3 E4 E5 E6 E7 E8 E9].
    assert (Hfresh : forall i c, fn_children pf !! i = Some c -> (c < a)%nat) by (intros i c Hc; by eapply child_bound).
    split; cbn; try done.
    + rewrite E5, length_app. cbn. rewrite u32_small; [lia|]. assert (length (fn_children pf) <= length h)%nat; [|lia]. transitivity (length (seq 0 a)); [|by rewrite length_seq]. apply submseteq_length, NoDup_submseteq; [done|].
      intros c [i Hc]%list_elem_of_lookup. apply elem_of_seq. pose proof (Hfresh i c Hc). lia.
    + rewrite E7, E6. destruct (fn_children pf) as [|c cs]; [done|]. destruct (last (c :: cs)) eqn:El; [done|]. by apply last_None in El.
    + by rewrite last_snoc.
    + apply NoDup_app. split; [done|]. split; [|apply NoDup_singleton]. intros c [i Hc]%list_elem_of_lookup Ha'%list_elem_of_singleton. pose proof (Hfresh i c Hc). lia.
    + intros i c Hc. destruct (decide (i < length (fn_children pf))%nat) as [Hi|Hi].
      * rewrite lookup_app_l in Hc by done. destruct (E9 i c Hc) as (Hlt & m & Hm & H1 & H2 & H3). split; [done|]. destruct (appended_others h' c m Ha Hm ltac:(lia)) as (m' & Hm' & G1 & G2 & G3 & _). exists m'. split; [done|]. split; [congruence|]. split.
        -- rewrite G2, H2. destruct i as [|j]; [done|]. by rewrite lookup_app_l by lia.
        -- rewrite G3. destruct (decide _) as [Hd|Hd]; rewrite E7, last_lookup in Hd.
           ++ assert (i = pred (length (fn_children pf))) as -> by (eapply NoDup_lookup; [exact E8|exact Hc|exact Hd]). rewrite lookup_app_r by lia. by replace (S _ - _)%nat with O by lia.
           ++ rewrite H3. rewrite lookup_app_l; [done|]. destruct (decide (S i < length (fn_children pf))%nat); [done|]. exfalso. apply Hd. by replace (pred _) with i by lia.
      * assert (i = length (fn_children pf)) as -> by (apply lookup_lt_Some in Hc; rewrite length_app in Hc; cbn in Hc; lia). rewrite list_lookup_middle in Hc by done. injection Hc as <-. split; [unfold a; lia|].
        eexists. split; [exact (ap_new _ Ha)|]. cbn. split; [done|]. split; [|symmetry; apply lookup_ge_None_2; rewrite length_app; cbn; lia].
        rewrite E7, last_lookup. destruct (fn_children pf) as [|c cs]; [done|]. cbn [length pred]. by rewrite lookup_app_l by (cbn; lia).
  - rewrite list_lookup_alter_ne in Hf by done. pose proof (Hok x n0 f Hn0 Hf) as [E1 E2 E3 E4 E5 E6 E7 E8 E9]. destruct (appended_others h' x n0 Ha Hn0 Hxp) as (n' & Hn' & G1 & G2 & G3 & G4 & G5 & G6 & G7 & G8 & G9). rewrite Hx in Hn'. injection Hn' as <-.
    split; try congruence. intros i c Hc. destruct (E9 i c Hc) as (Hlt & m & Hm & H1 & H2 & H3). split; [done|]. destruct (decide (c = p)) as [->|Hcp].
    + rewrite Hp in Hm. injection Hm as <-. eexists. split; [exact (ap_parent _ Ha)|]. done.
    + destruct (appended_others h' c m Ha Hm Hcp) as (m' & Hm' & K1 & K2 & K3 & _). exists m'. split; [done|]. split; [congruence|]. split; [congruence|]. rewrite K3. destruct (decide (jn_last_child pn = Some c)) as [Hd|Hd]; [|done]. exfalso. apply Hxp.
      rewrite (no_last _ _ _ _ Hpok), last_lookup in Hd. destruct (no_children _ _ _ _ Hpok _ _ Hd) as (_ & m2 & Hm2 & Hpar & _). congruence.
Qed.
End Append.

Lemma set_node_eval a f js n : jd_heap js !! a = Some n -> set_node a f js = Some (tt, with_heap js (<[a := f n]> (jd_heap js))).
Proof. intros Ha. unfold set_node. by rewrite Ha. Qed.
Lemma node_at_eval a js n : jd_heap js !! a = Some n -> node_at (Some a) js = Some (n, js).
Proof. intros Ha. unfold node_at. cbn. by rewrite Ha. Qed.

Lemma bind_assoc {S A B C} (m : ST S A) (f : A -> ST S B) (g : B -> ST S C) s : ((m ≫= f) ≫= g) s = (m ≫= fun x => f x ≫= g) s.
Proof. unfold mbind, ST_bind. by destruct (m s) as [[x s']|]. Qed.

Ltac heap_simpl := rewrite ?list_lookup_insert_ne, ?list_lookup_insert_eq by (rewrite ?length_insert; first [done|lia]).

Lemma child_node_eval js p pn v l t : jd_heap js !! p = Some pn -> (forall x, jn_last_child pn = Some x -> (p < x < length (jd_heap js))%nat) ->
  exists h', (node ← _new_node v l t; child_node (Some p) node) js = Some (length (jd_heap js), with_heap js h') /\ appended (jd_heap js) p pn v l t h'.
Proof.
  intros Hp Hl. set (h := jd_heap js). set (a := length h). assert (Hpa : (p < a)%nat) by (by eapply lookup_lt_Some).
  set (h1 := h ++ [DomNode v l t 0 None None None None None]). rewrite (bind_eval (_new_node v l t) _ _ a (with_heap js h1)) by done. assert (Hl1 : length h1 = S a) by (unfold h1; rewrite length_app; cbn; unfold a; lia).
  assert (Hp1 : h1 !! p = Some pn) by (unfold h1; by rewrite lookup_app_l). assert (Ha1 : h1 !! a = Some (DomNode v l t 0 None None None None None)) by (unfold h1, a; by rewrite list_lookup_middle).
  assert (Hx1 : forall x, (x < a)%nat -> h1 !! x = h !! x) by (intros x Hx; unfold h1; by rewrite lookup_app_l). unfold child_node.
  erewrite bind_eval by (apply set_node_eval; exact Hp1). cbn [jd_heap with_heap]. erewrite bind_eval by (apply set_node_eval; cbn [jd_heap with_heap]; heap_simpl; exact Ha1).
  cbn [jd_heap with_heap]. erewrite bind_eval by (apply node_at_eval; cbn [jd_heap with_heap]; heap_simpl; reflexivity). cbn [jn_last_child n_count].
  destruct (jn_last_child pn) as [x|] eqn:Elast.
  - specialize (Hl x eq_refl). fold h a in Hl. destruct (lookup_lt_is_Some_2 h x) as [xn Hxn]; [unfold a in Hl; lia|].
    erewrite bind_eval by (apply set_node_eval; cbn [jd_heap with_heap]; heap_simpl; reflexivity). cbn [jd_heap with_heap].
    erewrite bind_eval by (apply set_node_eval; cbn [jd_heap with_heap]; heap_simpl; rewrite Hx1 by lia; exact Hxn). cbn [jd_heap with_heap].
    erewrite bind_eval by (apply set_node_eval; cbn [jd_heap with_heap]; heap_simpl; reflexivity). cbn [jd_heap with_heap].
    eexists. split; [reflexivity|]. split.
    + by rewrite !length_insert.
    + heap_simpl. rewrite Elast. done.
    + heap_simpl. rewrite Elast. done.
    + intros y n E Hy. rewrite Elast in E. injection E as <-. heap_simpl. fold a. congruence.
    + intros y Hya Hyp Hyl. fold a in Hya. rewrite !list_lookup_insert_ne by congruence. destruct (decide (y < a)%nat) as [Hlt|Hge]; [by apply Hx1|]. rewrite !lookup_ge_None_2; [done|fold a; lia|lia].
  - erewrite bind_eval by (apply set_node_eval; cbn [jd_heap with_heap]; heap_simpl; reflexivity). cbn [jd_heap with_heap].
    erewrite bind_eval by (apply set_node_eval; cbn [jd_heap with_heap]; heap_simpl; reflexivity). cbn [jd_heap with_heap].
    eexists. split; [reflexivity|]. split.
    + by rewrite !length_insert.
    + heap_simpl. rewrite Elast. done.
    + heap_simpl. rewrite Elast. done.
    + intros y n E Hy. congruence.
    + intros y Hya Hyp Hyl. fold a in Hya. rewrite !list_lookup_insert_ne by congruence. destruct (decide (y < a)%nat) as [Hlt|Hge]; [by apply Hx1|]. rewrite !lookup_ge_None_2; [done|fold a; lia|lia].
Qed.

(** [child_node] on a new node, as an operation on the forest. *)
Lemma new_child_eval js F p pf v l t : linked (jd_heap js) F -> F !! p = Some pf -> Z.of_nat (length F) < 2 ^ 32 - 1 ->
  exists h', (node ← _new_node v l t; child_node (Some p) node) js = Some (length F, with_heap js h')
    /\ linked h' (alter (fn_add (length F)) p F ++ [FNode v l t (Some p) []]).
Proof.
  intros HF Hpf Hsmall. destruct (linked_lookup _ _ _ _ HF Hpf) as (pn & Hpn & Hok).
  destruct (child_node_eval js p pn v l t Hpn) as (h' & E & Hap).
  - intros x Hx. rewrite (no_last _ _ _ _ Hok), last_lookup in Hx. by eapply child_bound.
  - rewrite (proj1 HF) in E. exists h'. split; [done|]. rewrite <- (proj1 HF). by eapply appended_linked.
Qed.
