(* ===== verification/JsonDomFacts.v ===== *)
(** * JsonDomFacts: parsing any text

    The rounds of the parser as operations on the forest of nodes, and that no text makes it
    leave the text or the nodes. *)

From stdpp Require Import base numbers list.
From Stdlib Require Import ZArith Lia.
From S2P Require Import Prelude Words Bytes Json JsonDom JsonForest.

Lemma jd_self_eval {B} (k : json_dom -> JD B) js : (jd_self ≫= k) js = k js js.
Proof. done. Qed.
Lemma modify_eval {B} f (k : unit -> JD B) js : (modify f ≫= k) js = k tt (f js).
Proof. done. Qed.

Ltac jd_simpl := unfold with_level, with_cur, with_err, with_is_key, with_node, with_heap; cbn [jd_level jd_cur jd_err jd_is_key jd_node jd_heap].

Definition add_leaf (F : list fnode) (p : nat) (v : text_ptr) (l : Z) (t : json_dom_type) : list fnode := alter (fn_add (length F)) p F ++ [FNode v l t (Some p) []].

Lemma length_add_leaf F p v l t : length (add_leaf F p v l t) = S (length F).
Proof. unfold add_leaf. rewrite length_app, length_alter. cbn. lia. Qed.

(** The node that a value becomes a child of. *)
Definition target (F : list fnode) (is_key : bool) (node p : nat) : Prop :=
  exists f, F !! node = Some f /\ (if is_key then last (fn_children f) = Some p else p = node).

(** ** Rounds *)
Section Rounds.
Context (str : list Z) (lv : Z) (err : option dom_err) (k : bool) (nd : nat) (h : list json_dom_node) (F : list fnode).
Let js cur := JsonDom lv cur err k nd h.
Hypothesis (HF : linked h F) (Hsmall : Z.of_nat (length F) < 2 ^ 32 - 1).

Lemma target_in p : target F k nd p -> exists f, F !! p = Some f.
Proof.
  intros (f & Hf & Hp). destruct k; [|subst; by exists f]. rewrite last_lookup in Hp. destruct (linked_lookup _ _ _ _ HF Hf) as (n & Hn & Hok). destruct (no_children _ _ _ _ Hok _ _ Hp) as (_ & m & Hm & _).
  destruct (lookup_lt_is_Some_2 F p) as [g Hg]; [rewrite <- (proj1 HF); by eapply lookup_lt_Some|]. by exists g.
Qed.

Lemma new_node_eval {B} v l t (f : nat -> JD B) cur : (_new_node v l t ≫= f) (js cur) = f (length h) (JsonDom lv cur err k nd (h ++ [DomNode v l t 0 None None None None None])).
Proof. done. Qed.

Lemma add_value_eval p start c t cur : target F k nd p ->
  exists h', add_value start c t (js cur) = Some (tt, JsonDom lv cur err k nd h') /\ linked h' (add_leaf F p (TAt start) (u32 (c - start)) t).
Proof.
  intros Ht. destruct (target_in p Ht) as (pf & Hpf). destruct Ht as (f & Hf & Hp). destruct (linked_lookup _ _ _ _ HF Hf) as (n & Hn & Hok).
  destruct (new_child_eval (js cur) F p pf (TAt start) (u32 (c - start)) t HF Hpf Hsmall) as (h' & E & HF'). exists h'. split; [|done]. unfold add_value.
  rewrite new_node_eval, jd_self_eval. rewrite (new_node_eval (B := nat) _ _ _ (fun node => child_node (Some p) node)) in E. cbn [jd_is_key]. destruct k.
  - erewrite bind_eval by (apply node_at_eval; cbn [jd_heap jd_node]; rewrite lookup_app_l by (by eapply lookup_lt_Some); exact Hn).
    rewrite (no_last _ _ _ _ Hok), Hp. rewrite (bind_eval _ _ _ _ _ E). done.
  - subst p. cbn [jd_node]. rewrite (bind_eval _ _ _ _ _ E). done.
Qed.

Lemma parse_string_eval p c cur : target F k nd p -> string_loop str (S (length str)) (cur + 1) = Some (c, true) -> rd str c = Some 34 ->
  exists h', _parse_string str (js cur) = Some (0, JsonDom lv (c + 1) err k nd h') /\ linked h' (add_leaf F p (TAt (cur + 1)) (u32 (c - (cur + 1))) JSON_DOM_TYPE_STR).
Proof.
  intros Ht Hloop Hrd. unfold _parse_string. rewrite modify_eval, jd_self_eval. unfold js. jd_simpl. rewrite Hloop, modify_eval. jd_simpl. fold (js c).
  rewrite (bind_eval (read str c) _ _ 34 (js c)) by (unfold read; by rewrite Hrd). cbn [Z.eqb Pos.eqb negb].
  destruct (add_value_eval p (cur + 1) c JSON_DOM_TYPE_STR c Ht) as (h' & E & HF'). exists h'. split; [|done]. by rewrite (bind_eval _ _ _ _ _ E).
Qed.

(** The primitive ends at [c], if it ends. *)
Lemma primitive_loop_eval p start fuel : target F k nd p -> forall cur, 0 <= cur <= Z.of_nat (length str) -> Z.of_nat (length str) - cur < Z.of_nat fuel ->
  (exists c h', dom_primitive_loop str fuel start (js cur) = Some (0, JsonDom lv c err k nd h') /\ linked h' (add_leaf F p (TAt start) (u32 (c - start)) JSON_DOM_TYPE_PRIM) /\ cur <= c < Z.of_nat (length str)
     /\ (forall x, cur <= x < c -> exists b, rd str x = Some b /\ is_delim b = false) /\ exists b, rd str c = Some b /\ is_delim b = true)
  \/ exists c, dom_primitive_loop str fuel start (js cur) = Some (-1, JsonDom lv c (Some DErrPrimitive) k nd h) /\ cur <= c <= Z.of_nat (length str)
     /\ (forall x, cur <= x < c -> exists b, rd str x = Some b /\ is_delim b = false) /\ rd str c = Some 0.
Proof.
  intros Ht. induction fuel as [|fuel IH]; intros cur Hc Hf; [lia|]. cbn [dom_primitive_loop]. rewrite jd_self_eval. cbn [jd_cur js]. pose proof (rd_some str cur Hc) as Hrd. set (b := nth (Z.to_nat cur) str 0) in *.
  rewrite (bind_eval (read str cur) _ _ b (js cur)) by (unfold read; by rewrite Hrd). destruct (Z.eqb_spec b 0) as [Eb|Eb].
  - right. exists cur. split; [done|]. split; [lia|]. split; [intros x Hx; lia|]. by rewrite Hrd, Eb.
  - pose proof (rd_inside str cur b Hrd Eb) as Hin. destruct (is_delim b) eqn:Ed.
    + left. destruct (add_value_eval p start cur JSON_DOM_TYPE_PRIM cur Ht) as (h' & E & HF'). exists cur, h'. split; [by rewrite (bind_eval _ _ _ _ _ E)|]. split; [done|]. split; [lia|]. split; [intros x Hx; lia|by exists b].
    + rewrite modify_eval. unfold js. jd_simpl. fold (js (cur + 1)). destruct (IH (cur + 1)) as [(c & h' & E & HF' & Hc' & Hb & Hd)|(c & E & Hc' & Hb & Hz)]; [lia|lia| |].
      * left. exists c, h'. split; [done|]. split; [done|]. split; [lia|]. split; [|done]. intros x Hx. destruct (decide (x = cur)) as [->|]; [by exists b|]. apply Hb. lia.
      * right. exists c. split; [done|]. split; [lia|]. split; [|done]. intros x Hx. destruct (decide (x = cur)) as [->|]; [by exists b|]. apply Hb. lia.
Qed.

Lemma open_new_eval pf c cur : c = 123 \/ c = 91 -> k = false -> F !! nd = Some pf ->
  exists h', dom_round str c (js cur) = Some (None, JsonDom (lv + 1) (cur + 1) err false (length F) h')
    /\ linked h' (add_leaf F nd TNull 0 (if c =? 91 then JSON_DOM_TYPE_ARRAY else JSON_DOM_TYPE_OBJ)).
Proof.
  intros Hc Hk Hpf. set (t := if c =? 91 then _ else _). destruct (new_child_eval (js cur) F nd pf TNull 0 t HF Hpf Hsmall) as (h' & E & HF'). exists h'. split; [|done]. unfold dom_round. fold t.
  assert ((c =? 123) || (c =? 91) = true) as -> by (destruct Hc as [-> | ->]; done). rewrite jd_self_eval. unfold js at 1 2. rewrite Hk. cbn [jd_is_key jd_node].
  rewrite (new_node_eval (B := nat) _ _ _ (fun node => child_node (Some nd) node)) in E. erewrite bind_eval; [|rewrite new_node_eval, (bind_eval _ _ _ _ _ E); reflexivity]. rewrite modify_eval. unfold advance. rewrite modify_eval. subst. done.
Qed.

Lemma open_key_eval p c cur : c = 123 \/ c = 91 -> k = true -> target F k nd p ->
  exists h', dom_round str c (js cur) = Some (None, JsonDom (lv + 1) (cur + 1) err false p h')
    /\ linked h' (alter (fn_retype (if c =? 91 then JSON_DOM_TYPE_ARRAY else JSON_DOM_TYPE_OBJ)) p F).
Proof.
  intros Hc Hk Ht. set (t := if c =? 91 then _ else _). destruct (target_in p Ht) as (pf & Hpf). destruct Ht as (f & Hf & Hp). rewrite Hk in Hp. destruct (linked_lookup _ _ _ _ HF Hf) as (n & Hn & Hok). destruct (linked_lookup _ _ _ _ HF Hpf) as (pn & Hpn & _).
  exists (<[p := n_type pn t]> h). split; [|by apply linked_retype]. unfold dom_round. fold t. assert ((c =? 123) || (c =? 91) = true) as -> by (destruct Hc as [-> | ->]; done). rewrite jd_self_eval. unfold js at 1. rewrite Hk. cbn [jd_is_key].
  erewrite bind_eval. 2:{ rewrite modify_eval. unfold js. jd_simpl. erewrite bind_eval by (apply node_at_eval; exact Hn). rewrite (no_last _ _ _ _ Hok), Hp. erewrite bind_eval by (apply set_node_eval; exact Hpn). reflexivity. }
  rewrite modify_eval. unfold advance. rewrite modify_eval. done.
Qed.

Lemma close_eval_round f p c cur : c = 125 \/ c = 93 -> lv <> 0 -> F !! nd = Some f -> fn_parent f = Some p ->
  dom_round str c (js cur) = Some (None, JsonDom (lv - 1) (cur + 1) err false p h).
Proof.
  intros Hc Hlv Hf Hp. destruct (linked_lookup _ _ _ _ HF Hf) as (n & Hn & Hok). unfold dom_round. assert ((c =? 123) || (c =? 91) = false) as -> by (destruct Hc as [-> | ->]; done).
  assert ((c =? 125) || (c =? 93) = true) as -> by (destruct Hc as [-> | ->]; done). rewrite jd_self_eval. unfold js at 1. cbn [jd_level]. rewrite (proj2 (Z.eqb_neq lv 0) Hlv).
  erewrite bind_eval by (apply node_at_eval; exact Hn). rewrite (no_parent _ _ _ _ Hok), Hp. rewrite modify_eval. unfold advance. rewrite modify_eval. done.
Qed.

Lemma colon_eval f cur : F !! nd = Some f ->
  dom_round str 58 (js cur) = Some (if decide (fn_type f = JSON_DOM_TYPE_ARRAY) then (Some (-1), JsonDom lv cur (Some DErrArray) k nd h)
    else match last (fn_children f) with None => (Some (-1), JsonDom lv cur (Some DErrMalformed) k nd h) | Some _ => (None, JsonDom lv (cur + 1) err true nd h) end).
Proof.
  intros Hf. destruct (linked_lookup _ _ _ _ HF Hf) as (n & Hn & Hok). unfold dom_round. cbn [Z.eqb Pos.eqb orb starts_primitive andb Z.leb Z.compare Pos.compare Pos.compare_cont].
  rewrite jd_self_eval. erewrite bind_eval by (apply node_at_eval; exact Hn). rewrite (no_type _ _ _ _ Hok), (no_last _ _ _ _ Hok). destruct (decide _) as [Ht|Ht].
  - by rewrite bool_decide_eq_true_2.
  - rewrite bool_decide_eq_false_2 by done. by destruct (last _).
Qed.
End Rounds.

(** ** Every text *)
Fixpoint climbs (F : list fnode) (n k : nat) : Prop :=
  match k with
  | O => exists f, F !! n = Some f
  | S k => exists f p, F !! n = Some f /\ fn_parent f = Some p /\ climbs F p k
  end.
(** Nothing is lost. *)
Definition grown (F F' : list fnode) : Prop :=
  forall x f, F !! x = Some f -> exists f', F' !! x = Some f' /\ fn_parent f' = fn_parent f /\ (fn_children f <> [] -> fn_children f' <> []).

Lemma climbs_grown F F' k : grown F F' -> forall n, climbs F n k -> climbs F' n k.
Proof.
  intros Hg. induction k as [|k IH]; intros n; cbn [climbs]; [intros (f & Hf); destruct (Hg n f Hf) as (f' & Hf' & _); by exists f'|].
  intros (f & p & Hf & Hp & Hc). destruct (Hg n f Hf) as (f' & Hf' & Hp' & _). exists f', p. split; [done|]. split; [congruence|auto].
Qed.
Lemma climbs_in F n k : climbs F n k -> exists f, F !! n = Some f.
Proof. destruct k as [|k]; [done|]. intros (f & p & Hf & _). by exists f. Qed.

Lemma lookup_alter_some {A} (f : A -> A) (l : list A) p x y : l !! x = Some y -> alter f p l !! x = Some (if decide (x = p) then f y else y).
Proof. intros Hx. destruct (decide (x = p)) as [->|Hne]; [by rewrite list_lookup_alter_eq, Hx|by rewrite list_lookup_alter_ne]. Qed.

Lemma add_leaf_lookup F p v l t x f : F !! x = Some f -> add_leaf F p v l t !! x = Some (if decide (x = p) then fn_add (length F) f else f).
Proof. intros Hx. unfold add_leaf. rewrite lookup_app_l by (rewrite length_alter; by eapply lookup_lt_Some). by apply lookup_alter_some. Qed.
Lemma add_leaf_new F p v l t : add_leaf F p v l t !! length F = Some (FNode v l t (Some p) []).
Proof. unfold add_leaf. by rewrite list_lookup_middle by (by rewrite length_alter). Qed.

Lemma grown_leaf F p v l t : grown F (add_leaf F p v l t).
Proof.
  intros x f Hx. eexists. split; [by apply add_leaf_lookup|]. destruct (decide _); [|done]. split; [done|]. cbn. by destruct (fn_children f).
Qed.
Lemma grown_retype F p t : grown F (alter (fn_retype t) p F).
Proof. intros x f Hx. eexists. split; [by apply lookup_alter_some|]. by destruct (decide _). Qed.

Section Safety.
Context (str : list Z).
Let len := Z.of_nat (length str).
Hypothesis Hlen : len < 2 ^ 31.

Definition text_ok (f : fnode) : Prop := match fn_value f with TAt p => 0 <= p /\ 0 <= fn_len f /\ p + fn_len f <= len | _ => True end.

Record dom_inv (js : json_dom) (F : list fnode) : Prop := {
  di_linked : linked (jd_heap js) F;
  di_cur : 0 <= jd_cur js <= len;
  di_size : Z.of_nat (length F) <= jd_cur js + 1;
  di_level : 0 <= jd_level js <= jd_cur js;
  di_node : climbs F (jd_node js) (Z.to_nat (jd_level js));
  di_key : jd_is_key js = true -> exists f, F !! jd_node js = Some f /\ fn_children f <> [];
  di_text : Forall text_ok F;
}.

Lemma dom_target js F : dom_inv js F -> exists p, target F (jd_is_key js) (jd_node js) p.
Proof.
  intros Hi. destruct (jd_is_key js) eqn:Ek.
  - destruct (di_key _ _ Hi Ek) as (f & Hf & Hne). destruct (last (fn_children f)) as [p|] eqn:El; [exists p, f; by rewrite El|]. by apply last_None in El.
  - destruct (climbs_in _ _ _ (di_node _ _ Hi)) as (f & Hf). exists (jd_node js), f. done.
Qed.

Lemma text_ok_leaf F p v l t : Forall text_ok F -> text_ok (FNode v l t (Some p) []) -> Forall text_ok (add_leaf F p v l t).
Proof.
  intros HF Hv. unfold add_leaf. apply Forall_app. split; [|by repeat constructor]. apply Forall_lookup. intros x f Hf. destruct (F !! x) as [g|] eqn:Eg; [|apply lookup_lt_Some in Hf; rewrite length_alter in Hf; apply lookup_ge_None in Eg; lia].
  rewrite (lookup_alter_some _ _ _ _ _ Eg) in Hf. injection Hf as <-. pose proof (proj1 (Forall_lookup _ _) HF x g Eg) as Hg. by destruct (decide _).
Qed.

(** A value was added. *)
Lemma inv_value js F p c start cur t h' : dom_inv js F -> jd_cur js <= start -> start <= c -> c <= cur -> jd_cur js < cur <= len -> linked h' (add_leaf F p (TAt start) (u32 (c - start)) t) ->
  dom_inv (JsonDom (jd_level js) cur (jd_err js) (jd_is_key js) (jd_node js) h') (add_leaf F p (TAt start) (u32 (c - start)) t).
Proof.
  intros [H1 H2 H3 H4 H5 H6 H7] Hs Hc Hcc Hcur Hl. pose proof (grown_leaf F p (TAt start) (u32 (c - start)) t) as Hg. split; cbn [jd_level jd_cur jd_is_key jd_node jd_heap]; try done; try lia.
  - rewrite length_add_leaf. lia.
  - by eapply climbs_grown.
  - intros Ek. destruct (H6 Ek) as (f & Hf & Hne). destruct (Hg _ _ Hf) as (f' & Hf' & _ & Hne'). exists f'. auto.
  - apply text_ok_leaf; [done|]. cbn. rewrite u32_small by lia. lia.
Qed.

Definition round_result (js : json_dom) (r : option Z) (js' : json_dom) : Prop :=
  exists F', match r with
             | Some r => r = -1 /\ linked (jd_heap js') F' /\ Forall text_ok F'
             | None => dom_inv js' F' /\ jd_cur js < jd_cur js' /\ jd_err js' = jd_err js
             end.

Lemma string_round js F : dom_inv js F -> rd str (jd_cur js) = Some 34 -> exists r js', dom_round str 34 js = Some (r, js') /\ round_result js r js'.
Proof.
  intros Hi Hrd. destruct (rd_inside str _ _ Hrd ltac:(done)) as [Hc0 Hc1]. fold len in Hc1. destruct (dom_target _ _ Hi) as (p & Ht). change (dom_round str 34 js) with ((r ← _parse_string str; mret (if r <? 0 then Some (-1) else None)) js).
  destruct (string_loop_spec str (S (length str)) (jd_cur js + 1)) as (c & ok & Hloop & Hc); [fold len; lia|lia|]. fold len in Hc. pose proof (di_size _ _ Hi). pose proof (di_cur _ _ Hi).
  assert (Hbad : forall err', exists r js', _parse_string str js = Some (-1, JsonDom (jd_level js) c err' (jd_is_key js) (jd_node js) (jd_heap js)) -> (r ← _parse_string str; mret (if r <? 0 then Some (-1) else None)) js = Some (r, js') /\ round_result js r js').
  { intros err'. eexists _, _. intros E. rewrite (bind_eval _ _ _ _ _ E). split; [done|]. exists F. cbn. split; [done|]. split; [exact (di_linked _ _ Hi)|exact (di_text _ _ Hi)]. }
  destruct ok.
  - destruct (Z.eqb_spec (nth (Z.to_nat c) str 0) 34) as [E34|E34].
    + destruct js as [lv cur err k nd h]. cbn [jd_cur jd_level jd_err jd_is_key jd_node jd_heap] in *. assert (Hrdc : rd str c = Some 34) by (rewrite rd_some by (fold len; lia); by rewrite E34).
      destruct (parse_string_eval str lv err k nd h F (di_linked _ _ Hi) ltac:(lia) p c cur Ht Hloop Hrdc) as (h' & E & HF'). eexists _, _. rewrite (bind_eval _ _ _ _ _ E). split; [done|].
      eexists. split; [eapply (inv_value _ _ p c (cur + 1) (c + 1) _ h' Hi); cbn [jd_cur]; try lia; [|done]|cbn [jd_cur jd_err]; split; [lia|done]]. destruct (rd_inside str c 34 Hrdc ltac:(done)) as [_ Hin]. fold len in Hin. lia.
    + destruct (Hbad (Some DErrString)) as (r & js' & Hb). exists r, js'. apply Hb. unfold _parse_string. rewrite modify_eval, jd_self_eval. jd_simpl. rewrite Hloop, modify_eval. jd_simpl.
      unfold read. unfold mbind at 1, ST_bind at 1. rewrite rd_some by (fold len; lia). by rewrite (proj2 (Z.eqb_neq _ 34) E34).
  - destruct (Hbad (jd_err js)) as (r & js' & Hb). exists r, js'. apply Hb. unfold _parse_string. rewrite modify_eval, jd_self_eval. jd_simpl. by rewrite Hloop, modify_eval.
Qed.

Lemma primitive_round js F c : dom_inv js F -> rd str (jd_cur js) = Some c -> c <> 0 -> starts_primitive c = true ->
  exists r js', (r ← _parse_primitive str; mret (if r <? 0 then Some (-1) else None)) js = Some (r, js') /\ round_result js r js'.
Proof.
  intros Hi Hrd Hc Hs. destruct (rd_inside str _ _ Hrd Hc) as [Hc0 Hc1]. fold len in Hc1. destruct (dom_target _ _ Hi) as (p & Ht). pose proof (di_size _ _ Hi). pose proof (di_cur _ _ Hi). destruct js as [lv cur err k nd h]. cbn [jd_cur jd_level jd_err jd_is_key jd_node jd_heap] in *.
  unfold _parse_primitive. rewrite bind_assoc, jd_self_eval. cbn [jd_cur].
  destruct (primitive_loop_eval str lv err k nd h F (di_linked _ _ Hi) ltac:(lia) p cur (S (length str)) Ht cur) as [(e & h' & E & HF' & He & Hb & b & Hrde & Hd)|(e & E & He & _)]; [fold len; lia|fold len; lia| |]; fold len in He.
  - assert (e <> cur) by (intros ->; rewrite Hrd in Hrde; injection Hrde as <-; apply starts_not_delim in Hs; congruence). eexists _, _. rewrite (bind_eval _ _ _ _ _ E). split; [done|].
    eexists. split; [eapply (inv_value _ _ p e cur e _ h' Hi); cbn [jd_cur]; try lia; done|]. cbn [jd_cur jd_err]. split; [lia|done].
  - eexists _, _. rewrite (bind_eval _ _ _ _ _ E). split; [done|]. exists F. split; [done|]. split; [exact (di_linked _ _ Hi)|exact (di_text _ _ Hi)].
Qed.

Lemma inv_move js F k : dom_inv js F -> jd_cur js < len -> (k = true -> exists f, F !! jd_node js = Some f /\ fn_children f <> []) ->
  dom_inv (JsonDom (jd_level js) (jd_cur js + 1) (jd_err js) k (jd_node js) (jd_heap js)) F.
Proof. intros [H1 H2 H3 H4 H5 H6 H7] Hlt Hk. split; cbn [jd_level jd_cur jd_is_key jd_node jd_heap]; try done; lia. Qed.

Lemma open_round js F c : dom_inv js F -> jd_cur js < len -> c = 123 \/ c = 91 -> exists r js', dom_round str c js = Some (r, js') /\ round_result js r js'.
Proof.
  intros Hi Hlt Hc. pose proof (di_size _ _ Hi). destruct js as [lv cur err k nd h]. destruct Hi as [H1 H2 H3 H4 H5 H6 H7]. cbn [jd_cur jd_level jd_err jd_is_key jd_node jd_heap] in *. set (t := if c =? 91 then JSON_DOM_TYPE_ARRAY else JSON_DOM_TYPE_OBJ). destruct k.
  - destruct (H6 eq_refl) as (f & Hf & Hne). destruct (last (fn_children f)) as [p|] eqn:El; [|by apply last_None in El]. assert (Ht : target F true nd p) by (exists f; by rewrite El).
    destruct (open_key_eval str lv err true nd h F H1 p c cur Hc eq_refl Ht) as (h' & E & HF'). eexists _, _. split; [exact E|]. fold t in HF'. exists (alter (fn_retype t) p F). split; [|cbn; split; [lia|done]]. pose proof (grown_retype F p t) as Hg.
    split; cbn [jd_level jd_cur jd_is_key jd_node jd_heap]; try done; try lia; [by rewrite length_alter; lia| |].
    + destruct (linked_lookup _ _ _ _ H1 Hf) as (n & Hn & Hok). rewrite last_lookup in El. destruct (no_children _ _ _ _ Hok _ _ El) as (_ & m & Hm & Hpar & _).
      destruct (lookup_lt_is_Some_2 F p) as [g Hgp]; [rewrite <- (proj1 H1); by eapply lookup_lt_Some|]. pose proof (proj2 H1 p m g Hm Hgp) as Hokp. destruct (Hg p g Hgp) as (g' & Hg' & Hpg & _).
      replace (Z.to_nat (lv + 1)) with (S (Z.to_nat lv)) by lia. exists g', nd. split; [done|]. split; [rewrite Hpg, <- (no_parent _ _ _ _ Hokp); done|]. by eapply climbs_grown.
    + apply Forall_lookup. intros x g Hx. destruct (F !! x) as [g0|] eqn:E0; [|apply lookup_lt_Some in Hx; rewrite length_alter in Hx; apply lookup_ge_None in E0; lia]. rewrite (lookup_alter_some _ _ _ _ _ E0) in Hx. injection Hx as <-.
      pose proof (proj1 (Forall_lookup _ _) H7 x g0 E0). by destruct (decide _).
  - destruct (climbs_in _ _ _ H5) as (f & Hf). destruct (open_new_eval str lv err false nd h F H1 ltac:(lia) f c cur Hc eq_refl Hf) as (h' & E & HF'). eexists _, _. split; [exact E|]. fold t in HF'. exists (add_leaf F nd TNull 0 t). split; [|cbn; split; [lia|done]].
    split; cbn [jd_level jd_cur jd_is_key jd_node jd_heap]; try done; try lia; [rewrite length_add_leaf; lia| |by apply text_ok_leaf].
    replace (Z.to_nat (lv + 1)) with (S (Z.to_nat lv)) by lia. eexists _, nd. split; [apply add_leaf_new|]. split; [done|]. eapply climbs_grown; [apply grown_leaf|done].
Qed.

Lemma close_round js F c : dom_inv js F -> jd_cur js < len -> c = 125 \/ c = 93 -> exists r js', dom_round str c js = Some (r, js') /\ round_result js r js'.
Proof.
  intros Hi Hlt Hc. destruct js as [lv cur err k nd h]. destruct Hi as [H1 H2 H3 H4 H5 H6 H7]. cbn [jd_cur jd_level jd_err jd_is_key jd_node jd_heap] in *. destruct (Z.eq_dec lv 0) as [->|Hlv].
  - eexists _, _. split; [unfold dom_round; assert ((c =? 123) || (c =? 91) = false) as -> by (destruct Hc as [-> | ->]; done); assert ((c =? 125) || (c =? 93) = true) as -> by (destruct Hc as [-> | ->]; done); reflexivity|]. exists F. done.
  - replace (Z.to_nat lv) with (S (Z.to_nat (lv - 1))) in H5 by lia. destruct H5 as (f & p & Hf & Hp & Hcl). eexists _, _. split; [by eapply close_eval_round|]. exists F. split; [|cbn; split; [lia|done]]. split; cbn; try done; lia.
Qed.

Lemma dom_round_ok js F c : dom_inv js F -> rd str (jd_cur js) = Some c -> c <> 0 -> exists r js', dom_round str c js = Some (r, js') /\ round_result js r js'.
Proof.
  intros Hi Hrd Hc. destruct (rd_inside str _ _ Hrd Hc) as [_ Hlt]. fold len in Hlt.
  destruct (decide (c = 123 \/ c = 91)) as [H1|H1]; [by eapply open_round|]. destruct (decide (c = 125 \/ c = 93)) as [H2|H2]; [by eapply close_round|]. destruct (decide (c = 34)) as [->|H3]; [by eapply string_round|].
  destruct (decide (c = 58)) as [->|H5].
  { destruct (climbs_in _ _ _ (di_node _ _ Hi)) as (f & Hf). destruct js as [lv cur err k nd h]. rewrite (colon_eval str lv err k nd h F (di_linked _ _ Hi) f cur Hf). pose proof (di_linked _ _ Hi). pose proof (di_text _ _ Hi).
    destruct (decide _); [eexists _, _; split; [reflexivity|]; exists F; done|]. destruct (last (fn_children f)) eqn:El; (eexists _, _; split; [reflexivity|]); exists F; [|done].
    split; [|cbn; split; [lia|done]]. apply (inv_move _ _ true Hi Hlt). intros _. exists f. split; [done|]. intros E. by rewrite E in El. }
  unfold dom_round. assert ((c =? 123) || (c =? 91) = false) as -> by (apply orb_false_iff; split; apply Z.eqb_neq; naive_solver). assert ((c =? 125) || (c =? 93) = false) as -> by (apply orb_false_iff; split; apply Z.eqb_neq; naive_solver).
  rewrite (proj2 (Z.eqb_neq c 34) H3), (proj2 (Z.eqb_neq c 58) H5). destruct (starts_primitive c) eqn:Es; [by eapply primitive_round|].
  destruct (c =? 44); (eexists _, _; split; [reflexivity|]); exists F; (split; [|cbn; split; [lia|done]]).
  - by apply (inv_move _ _ false Hi Hlt).
  - apply (inv_move _ _ (jd_is_key js) Hi Hlt). apply (di_key _ _ Hi).
Qed.

Lemma dom_loop_ok root fuel : forall js F, dom_inv js F -> len - jd_cur js < Z.of_nat fuel ->
  exists r js' F', dom_loop str fuel root js = Some (r, js') /\ linked (jd_heap js') F' /\ Forall text_ok F' /\ (r = 0 /\ jd_node js' = root /\ jd_err js' = jd_err js \/ r = -1).
Proof.
  induction fuel as [|fuel IH]; intros js F Hi Hf; [pose proof (di_cur _ _ Hi); lia|]. cbn [dom_loop]. rewrite jd_self_eval. pose proof (rd_some str (jd_cur js) (di_cur _ _ Hi)) as Hrd. set (c := nth _ _ _) in Hrd.
  rewrite (bind_eval (read str (jd_cur js)) _ _ c js) by (unfold read; by rewrite Hrd). destruct (Z.eqb_spec c 0) as [E0|E0].
  - rewrite modify_eval. eexists 0, _, F. split; [reflexivity|]. split; [exact (di_linked _ _ Hi)|]. split; [exact (di_text _ _ Hi)|]. by left.
  - destruct (dom_round_ok js F c Hi Hrd E0) as (r & js1 & E & F1 & Hr). rewrite (bind_eval _ _ _ _ _ E). destruct r as [r|].
    + destruct Hr as (-> & Hl & Ht). exists (-1), js1, F1. auto.
    + destruct Hr as (Hi1 & Hlt & He). destruct (IH js1 F1 Hi1 ltac:(lia)) as (r & js2 & F2 & E2 & Hl2 & Ht2 & Hr2). exists r, js2, F2. rewrite He in Hr2. auto.
Qed.
End Safety.

(** C19: [json_dom_parse] ends on every text and never reads behind its terminator, follows a null
    pointer or leaves the nodes it made, and returns 0 or -1.  The nodes then form a forest:
    parent, first, last, previous and next pointers and the counts agree with one list of
    children per node, each child coming after its parent; and every value lies in the text. *)
Theorem json_dom_parse_safe (str : list Z) (js0 : json_dom) (Hlen : Z.of_nat (length str) < 2 ^ 31) (Hheap : jd_heap js0 = []) :
  exists r js F, json_dom_parse str js0 = Some (r, js) /\ linked (jd_heap js) F /\ Forall (text_ok str) F
    /\ (r = 0 /\ jd_node js = O /\ jd_err js = None \/ r = -1).
Proof.
  set (F0 := [FNode TEmpty 4 JSON_DOM_TYPE_OBJ None []]). set (js1 := JsonDom 0 0 None false 0 [DomNode TEmpty 4 JSON_DOM_TYPE_OBJ 0 None None None None None]).
  assert (Hinv : dom_inv str js1 F0).
  { split; cbn; try done; try lia; [|by eexists|by repeat constructor]. split; [done|]. intros a n f Ha Hf. destruct a as [|a]; [|done]. injection Ha as <-. injection Hf as <-. split; cbn; try done. constructor. }
  destruct (dom_loop_ok str Hlen 0 (S (length str)) js1 F0 Hinv) as (r & js & F & E & Hl & Ht & Hr); [cbn [jd_cur js1]; lia|]. exists r, js, F. split; [|done].
  unfold json_dom_parse. rewrite (bind_eval (_new_node _ _ _) _ _ O (with_heap js0 [DomNode TEmpty 4 JSON_DOM_TYPE_OBJ 0 None None None None None])) by (unfold _new_node; by rewrite Hheap). by rewrite modify_eval.
Qed.

Definition jd_blank : json_dom := JsonDom 7 7 None true 7 [].

Lemma json_dom_parse_safe_witness :
  exists r js F, json_dom_parse [91; 125; 58; 34; 97] jd_blank = Some (r, js) /\ linked (jd_heap js) F /\ Forall (text_ok [91; 125; 58; 34; 97]) F
    /\ (r = 0 /\ jd_node js = O /\ jd_err js = None \/ r = -1).
Proof. apply (json_dom_parse_safe [91; 125; 58; 34; 97] jd_blank); [by vm_compute|done]. Defined.
