(* ===== verification/JsonDomParse.v ===== *)
(** * JsonDomParse: parsing a JSON value gives its tree *)

From stdpp Require Import base numbers list.
From Stdlib Require Import ZArith Lia.
From S2P Require Import Prelude Words Bytes Json JsonDom JsonForest JsonDomFacts.

(** * Trees laid out in a forest

    The parser makes the nodes of a tree in the order of the text: a tree occupies consecutive
    places, its root first, followed by the trees of the children. *)

Inductive jtree := JT (v : text_ptr) (l : Z) (t : json_dom_type) (cs : list jtree).

Fixpoint tsize (t : jtree) : nat := let '(JT _ _ _ cs) := t in S (foldr (fun c n => (tsize c + n)%nat) O cs).
Definition tsizes (ts : list jtree) : nat := foldr (fun c n => (tsize c + n)%nat) O ts.

(** The places of siblings. *)
Fixpoint addrs (n : nat) (ts : list jtree) : list nat := match ts with [] => [] | t :: ts => n :: addrs (n + tsize t) ts end.

(** The nodes of a tree with the parent [p] from place [n] on. *)
Fixpoint lay (p n : nat) (t : jtree) : list fnode :=
  let '(JT v l ty cs) := t in
  FNode v l ty (Some p) (addrs (S n) cs) ::
  (fix lays_in (m : nat) (cs : list jtree) : list fnode := match cs with [] => [] | c :: cs => lay n m c ++ lays_in (m + tsize c)%nat cs end) (S n) cs.
Fixpoint lays (p n : nat) (ts : list jtree) : list fnode := match ts with [] => [] | t :: ts => lay p n t ++ lays p (n + tsize t) ts end.

Lemma lay_eq p n v l ty cs : lay p n (JT v l ty cs) = FNode v l ty (Some p) (addrs (S n) cs) :: lays n (S n) cs.
Proof. cbn [lay]. f_equal. generalize (S n). induction cs as [|c cs IH]; intros m; [done|]. cbn [lays]. by rewrite IH. Qed.

Lemma length_lay_gen k : (forall p n t, (tsize t <= k)%nat -> length (lay p n t) = tsize t).
Proof.
  induction k as [|k IH]; intros p n [v l ty cs]; [cbn; lia|]. intros Hk. rewrite lay_eq. cbn [length tsize] in *. f_equal. fold (tsizes cs) in *.
  assert (Hcs : (tsizes cs <= k)%nat) by lia. clear Hk. generalize (S n) as m. revert Hcs. induction cs as [|c cs IHc]; intros Hcs m; [done|]. cbn [lays tsizes foldr] in *. fold (tsizes cs) in *. rewrite length_app, IH, IHc by lia. done.
Qed.
Lemma length_lay p n t : length (lay p n t) = tsize t.
Proof. by eapply length_lay_gen. Qed.
Lemma length_lays p ts : forall n, length (lays p n ts) = tsizes ts.
Proof. induction ts as [|t ts IH]; intros n; [done|]. cbn [lays tsizes foldr]. fold (tsizes ts). by rewrite length_app, length_lay, IH. Qed.
Lemma tsizes_app ts us : tsizes (ts ++ us) = (tsizes ts + tsizes us)%nat.
Proof. induction ts as [|t ts IH]; [done|]. cbn [app tsizes foldr]. fold (tsizes (ts ++ us)) (tsizes ts). lia. Qed.
Lemma lays_app p ts us : forall n, lays p n (ts ++ us) = lays p n ts ++ lays p (n + tsizes ts) us.
Proof. induction ts as [|t ts IH]; intros n; [cbn; by rewrite Nat.add_0_r|]. cbn [app lays tsizes foldr]. fold (tsizes ts). by rewrite IH, <- app_assoc, Nat.add_assoc. Qed.
Lemma addrs_app ts us : forall n, addrs n (ts ++ us) = addrs n ts ++ addrs (n + tsizes ts) us.
Proof. induction ts as [|t ts IH]; intros n; [cbn; by rewrite Nat.add_0_r|]. cbn [app addrs tsizes foldr]. fold (tsizes ts). by rewrite IH, Nat.add_assoc. Qed.

(** ** Adding trees as children *)
Definition fn_adds (cs : list nat) (f : fnode) : fnode := FNode (fn_value f) (fn_len f) (fn_type f) (fn_parent f) (fn_children f ++ cs).
Definition add (F : list fnode) (p : nat) (ts : list jtree) : list fnode := alter (fn_adds (addrs (length F) ts)) p F ++ lays p (length F) ts.

Lemma length_add F p ts : length (add F p ts) = (length F + tsizes ts)%nat.
Proof. unfold add. by rewrite length_app, length_alter, length_lays. Qed.
Lemma add_leaf_is_add F p v l t : add_leaf F p v l t = add F p [JT v l t []].
Proof. unfold add_leaf, add. cbn [lays addrs]. by rewrite lay_eq. Qed.
Lemma add_nil F p : add F p [] = F.
Proof. unfold add. cbn [addrs lays]. rewrite app_nil_r. apply list_eq. intros x. destruct (decide (x = p)) as [->|]; [|by rewrite list_lookup_alter_ne]. rewrite list_lookup_alter_eq. destruct (F !! p) as [[]|]; [|done]. unfold fn_adds. cbn. by rewrite app_nil_r. Qed.

Lemma alter_app_l {A} (f : A -> A) (l l' : list A) p : (p < length l)%nat -> alter f p (l ++ l') = alter f p l ++ l'.
Proof. revert l. induction p as [|p IH]; intros [|x l] Hp; cbn in *; try lia; [done|]. f_equal. apply IH. lia. Qed.
Lemma alter_app_mid {A} (f : A -> A) (l l' : list A) x p : p = length l -> alter f p (l ++ x :: l') = l ++ f x :: l'.
Proof. intros ->. induction l as [|y l IH]; [done|]. cbn. f_equal. exact IH. Qed.
Lemma alter_alter {A} (f g : A -> A) (l : list A) p : alter f p (alter g p l) = alter (f ∘ g) p l.
Proof. revert l. induction p as [|p IH]; intros [|x l]; try done. cbn. f_equal. apply IH. Qed.
Lemma alter_ext {A} (f g : A -> A) (l : list A) p : (forall x, f x = g x) -> alter f p l = alter g p l.
Proof. intros E. revert l. induction p as [|p IH]; intros [|x l]; try done; cbn; f_equal; auto. Qed.

Lemma add_app F p ts us : (p < length F)%nat -> add (add F p ts) p us = add F p (ts ++ us).
Proof.
  intros Hp. unfold add at 1. rewrite length_add. unfold add at 1. rewrite alter_app_l by (by rewrite length_alter). rewrite alter_alter, <- app_assoc, <- lays_app. unfold add. f_equal.
  apply alter_ext. intros f. unfold fn_adds. cbn. by rewrite addrs_app, <- app_assoc.
Qed.

Lemma add_enter F p v l t ts : add (add F p [JT v l t []]) (length F) ts = add F p [JT v l t ts].
Proof.
  unfold add at 1. rewrite length_add. unfold add. cbn [addrs lays tsizes foldr tsize]. rewrite !app_nil_r, !lay_eq. cbn [addrs lays]. rewrite alter_app_mid by (by rewrite length_alter). rewrite <- app_assoc. cbn [app].
  replace (length F + (1 + 0))%nat with (S (length F)) by lia. done.
Qed.
Lemma add_retype F p v l t t' : alter (fn_retype t') (length F) (add F p [JT v l t []]) = add F p [JT v l t' []].
Proof. unfold add. cbn [addrs lays]. rewrite !app_nil_r, !lay_eq. cbn [addrs lays]. by rewrite alter_app_mid by (by rewrite length_alter). Qed.

Lemma add_lookup F p ts x f : F !! x = Some f -> add F p ts !! x = Some (if decide (x = p) then fn_adds (addrs (length F) ts) f else f).
Proof. intros Hx. unfold add. rewrite lookup_app_l by (rewrite length_alter; by eapply lookup_lt_Some). by apply lookup_alter_some. Qed.
Lemma add_root F p v l t cs : add F p [JT v l t cs] !! length F = Some (FNode v l t (Some p) (addrs (S (length F)) cs)).
Proof. unfold add. cbn [lays]. rewrite app_nil_r, lay_eq. by rewrite list_lookup_middle by (by rewrite length_alter). Qed.

(** * Parsing a JSON value gives its tree

    A value is printed with any blanks around its tokens; the parser builds the tree of the
    value, in which the key of a member is the parent of its value, or is the object or array
    itself. *)

(** ** Values and their texts *)
Inductive jval := JStr (s : list Z) | JPrim (s : list Z) | JArr (vs : list jval) | JObj (ms : list (list Z * jval)).

Section ValInd.
Context (P : jval -> Prop) (Hstr : forall s, P (JStr s)) (Hprim : forall s, P (JPrim s)) (Harr : forall vs, Forall P vs -> P (JArr vs)) (Hobj : forall ms, Forall (fun m => P (snd m)) ms -> P (JObj ms)).
Fixpoint jval_nested_ind (v : jval) : P v :=
  match v with
  | JStr s => Hstr s
  | JPrim s => Hprim s
  | JArr vs => Harr vs ((fix go vs : Forall P vs := match vs with [] => Forall_nil_2 P | v :: vs => Forall_cons_2 P v vs (jval_nested_ind v) (go vs) end) vs)
  | JObj ms => Hobj ms ((fix go ms : Forall (fun m => P (snd m)) ms := match ms with [] => Forall_nil_2 _ | m :: ms => Forall_cons_2 _ m ms (jval_nested_ind (snd m)) (go ms) end) ms)
  end.
End ValInd.

Definition escaped (s : list Z) : list Z := s ≫= json_escape_char.
Definition is_blank (c : Z) : Prop := c = 9 \/ c = 13 \/ c = 10 \/ c = 32.
Definition nonzero (s : list Z) : Prop := Forall (fun c => c <> 0) s.

(** What the parser can tell apart: a primitive starts like a number or a literal, and ends at a delimiter. *)
Definition prim_ok (s : list Z) : Prop := nonzero s /\ Forall (fun c => is_delim c = false) s /\ exists c r, s = c :: r /\ starts_primitive c = true.
Fixpoint val_ok (v : jval) : Prop :=
  match v with
  | JStr s => nonzero s
  | JPrim s => prim_ok s
  | JArr vs => foldr (fun v P => val_ok v /\ P) True vs
  | JObj ms => foldr (fun m P => (nonzero (fst m) /\ val_ok (snd m)) /\ P) True ms
  end.

Section Print.
Context (sp : list Z).
Definition print_str (s : list Z) : list Z := 34 :: escaped s ++ [34].
Fixpoint separated (l : list (list Z)) : list Z := match l with [] => [] | [x] => x | x :: l => x ++ sp ++ 44 :: sp ++ separated l end.
Fixpoint print (v : jval) : list Z :=
  match v with
  | JStr s => print_str s
  | JPrim s => s
  | JArr vs => 91 :: sp ++ separated (map print vs) ++ sp ++ [93]
  | JObj ms => 123 :: sp ++ separated (map (fun m => print_str (fst m) ++ sp ++ 58 :: sp ++ print (snd m)) ms) ++ sp ++ [125]
  end.
Definition print_member (m : list Z * jval) : list Z := print_str (fst m) ++ sp ++ 58 :: sp ++ print (snd m).
End Print.

(** ** The tree of a value *)
Inductive dtree := DT (text : list Z) (t : json_dom_type) (cs : list dtree).
Fixpoint dom (v : jval) : dtree :=
  match v with
  | JStr s => DT (escaped s) JSON_DOM_TYPE_STR []
  | JPrim s => DT s JSON_DOM_TYPE_PRIM []
  | JArr vs => DT [] JSON_DOM_TYPE_ARRAY (map dom vs)
  | JObj ms => DT [] JSON_DOM_TYPE_OBJ (map (fun m => match snd m, dom (snd m) with
                                                     | JStr _, d | JPrim _, d => DT (escaped (fst m)) JSON_DOM_TYPE_STR [d]
                                                     | _, DT _ t cs => DT (escaped (fst m)) t cs
                                                     end) ms)
  end.
Definition dom_member (m : list Z * jval) : dtree :=
  match snd m, dom (snd m) with
  | JStr _, d | JPrim _, d => DT (escaped (fst m)) JSON_DOM_TYPE_STR [d]
  | _, DT _ t cs => DT (escaped (fst m)) t cs
  end.

(** The texts of the nodes of a tree. *)
Definition text_of (str : list Z) (v : text_ptr) (l : Z) : option (list Z) :=
  match v with
  | TAt p => if (0 <=? p) && (0 <=? l) && (p + l <=? Z.of_nat (length str)) then Some (subrange str p l) else None
  | TNull => if l =? 0 then Some [] else None
  | TEmpty => None
  end.
Inductive reads (str : list Z) : jtree -> dtree -> Prop :=
  Reads v l t cs x ds : text_of str v l = Some x -> Forall2 (reads str) cs ds -> reads str (JT v l t cs) (DT x t ds).

Lemma reads_leaf str t x ty : reads str t (DT x ty []) -> exists v l, t = JT v l ty [] /\ text_of str v l = Some x.
Proof. intros Hr. inversion Hr as [v l t' cs x' ds Hx Hcs]. subst. inversion Hcs. subst. by exists v, l. Qed.

(** ** Steps of the parser *)
Section Steps.
Context (str : list Z).

Definition steps (js js' : json_dom) : Prop := exists n, Z.of_nat n <= jd_cur js' - jd_cur js /\ forall fuel root, dom_loop str (n + fuel) root js = dom_loop str fuel root js'.

Lemma steps_refl js : steps js js.
Proof. exists O. split; [lia|done]. Qed.
Lemma steps_trans js1 js2 js3 : steps js1 js2 -> steps js2 js3 -> steps js1 js3.
Proof. intros (n & Hn & E) (m & Hm & E'). exists (n + m)%nat. split; [lia|]. intros fuel root. by rewrite <- Nat.add_assoc, E, E'. Qed.
Lemma step_round js js' c : rd str (jd_cur js) = Some c -> c <> 0 -> dom_round str c js = Some (None, js') -> jd_cur js < jd_cur js' -> steps js js'.
Proof.
  intros Hrd Hc E Hlt. exists 1%nat. split; [lia|]. intros fuel root. cbn [Nat.add dom_loop]. rewrite jd_self_eval. rewrite (bind_eval (read str (jd_cur js)) _ _ c js) by (unfold read; by rewrite Hrd).
  rewrite (proj2 (Z.eqb_neq c 0) Hc). by rewrite (bind_eval _ _ _ _ _ E).
Qed.

(** The state with the forest [F]. *)
Definition at_ (F : list fnode) (lv cur : Z) (k : bool) (nd : nat) (js : json_dom) : Prop := exists h, js = JsonDom lv cur None k nd h /\ linked h F.

Lemma step_blank F lv k nd js c pre post : str = pre ++ c :: post -> is_blank c -> at_ F lv (Z.of_nat (length pre)) k nd js ->
  exists js', steps js js' /\ at_ F lv (Z.of_nat (length (pre ++ [c]))) k nd js'.
Proof.
  intros Hs Hc (h & -> & HF). eexists. split; [eapply step_round; [cbn [jd_cur]; rewrite Hs; apply rd_app|destruct Hc as [-> | [-> | [-> | ->]]]; done| |]|].
  - destruct Hc as [-> | [-> | [-> | ->]]]; reflexivity.
  - cbn [jd_cur with_cur]. lia.
  - eexists. split; [|exact HF]. unfold with_cur. cbn. rewrite length_app. cbn. f_equal. lia.
Qed.

Lemma steps_blanks F lv k nd sp : Forall is_blank sp -> forall js pre post, str = pre ++ sp ++ post -> at_ F lv (Z.of_nat (length pre)) k nd js ->
  exists js', steps js js' /\ at_ F lv (Z.of_nat (length (pre ++ sp))) k nd js'.
Proof.
  induction 1 as [|c sp Hc _ IH]; intros js pre post Hs Ha; [exists js; rewrite app_nil_r; split; [apply steps_refl|done]|].
  destruct (step_blank F lv k nd js c pre (sp ++ post) Hs Hc Ha) as (js1 & S1 & A1). destruct (IH js1 (pre ++ [c]) post) as (js2 & S2 & A2); [by rewrite <- app_assoc|done|]. exists js2.
  split; [by eapply steps_trans|]. by rewrite <- app_assoc in A2.
Qed.

Lemma step_comma F lv k nd js pre post : str = pre ++ 44 :: post -> at_ F lv (Z.of_nat (length pre)) k nd js -> exists js', steps js js' /\ at_ F lv (Z.of_nat (length (pre ++ [44]))) false nd js'.
Proof.
  intros Hs (h & -> & HF). eexists. split; [eapply step_round; [cbn [jd_cur]; rewrite Hs; apply rd_app|done|reflexivity|cbn; lia]|]. eexists. split; [|exact HF]. unfold with_cur. cbn. rewrite length_app. cbn. f_equal. lia.
Qed.

Lemma step_colon F lv k nd f js pre post : str = pre ++ 58 :: post -> F !! nd = Some f -> fn_type f <> JSON_DOM_TYPE_ARRAY -> fn_children f <> [] -> at_ F lv (Z.of_nat (length pre)) k nd js ->
  exists js', steps js js' /\ at_ F lv (Z.of_nat (length (pre ++ [58]))) true nd js'.
Proof.
  intros Hs Hf Ht Hne (h & -> & HF). pose proof (colon_eval str lv None k nd h F HF f (Z.of_nat (length pre)) Hf) as E. rewrite decide_False in E by done. destruct (last (fn_children f)) as [x|] eqn:El; [|by apply last_None in El].
  eexists. split; [eapply step_round; [cbn [jd_cur]; rewrite Hs; apply rd_app|done|exact E|cbn; lia]|]. eexists. split; [|exact HF]. rewrite length_app. cbn. f_equal. lia.
Qed.

Lemma step_close F lv k nd f p c js pre post : str = pre ++ c :: post -> c = 125 \/ c = 93 -> lv <> 0 -> F !! nd = Some f -> fn_parent f = Some p -> at_ F lv (Z.of_nat (length pre)) k nd js ->
  exists js', steps js js' /\ at_ F (lv - 1) (Z.of_nat (length (pre ++ [c]))) false p js'.
Proof.
  intros Hs Hc Hlv Hf Hp (h & -> & HF). pose proof (close_eval_round str lv None k nd h F HF f p c (Z.of_nat (length pre)) Hc Hlv Hf Hp) as E.
  eexists. split; [eapply step_round; [cbn [jd_cur]; rewrite Hs; apply rd_app|destruct Hc as [-> | ->]; done|exact E|cbn; lia]|]. eexists. split; [|exact HF]. rewrite length_app. cbn. f_equal. lia.
Qed.

Lemma rd_app2 pre s post : forall i, 0 <= i < Z.of_nat (length s) -> exists c, s !! Z.to_nat i = Some c /\ rd (pre ++ s ++ post) (Z.of_nat (length pre) + i) = Some c.
Proof.
  intros i Hi. destruct (lookup_lt_is_Some_2 s (Z.to_nat i)) as [c Hc]; [lia|]. exists c. split; [done|]. rewrite <- (take_drop_middle s _ c Hc). rewrite <- app_assoc, app_assoc. cbn [app].
  replace (Z.of_nat (length pre) + i) with (Z.of_nat (length (pre ++ take (Z.to_nat i) s))) by (rewrite length_app, length_take; lia). apply rd_app.
Qed.

Hypothesis Hlen : Z.of_nat (length str) < 2 ^ 31.

Lemma text_inside pre s post : str = pre ++ s ++ post -> text_of str (TAt (Z.of_nat (length pre))) (u32 (Z.of_nat (length s))) = Some s.
Proof.
  intros Hs. assert (Hl : length str = (length pre + (length s + length post))%nat) by (rewrite Hs, !length_app; lia). rewrite u32_small by lia. cbn [text_of]. rewrite !(proj2 (Z.leb_le _ _)) by lia. cbn [andb]. f_equal. rewrite Hs. unfold subrange. rewrite !Nat2Z.id, drop_app_length. apply take_app_length.
Qed.

(** A string, as a child of the target. *)
Lemma step_string F lv k nd p js s pre post : str = pre ++ print_str s ++ post -> nonzero s -> target F k nd p -> Z.of_nat (length F) < 2 ^ 31 -> at_ F lv (Z.of_nat (length pre)) k nd js ->
  exists js' t, steps js js' /\ at_ (add F p [t]) lv (Z.of_nat (length (pre ++ print_str s))) k nd js' /\ reads str t (DT (escaped s) JSON_DOM_TYPE_STR []) /\ tsize t = 1%nat.
Proof.
  intros Hs Hz Ht Hsmall (h & -> & HF). assert (Hs1 : str = (pre ++ [34]) ++ escaped s ++ 34 :: post) by (rewrite Hs; unfold print_str; rewrite <- !app_assoc; cbn [app]; by rewrite <- app_assoc).
  assert (Hl1 : Z.of_nat (length pre) + 1 = Z.of_nat (length (pre ++ [34]))) by (rewrite length_app; cbn; lia). set (e := Z.of_nat (length (pre ++ [34])) + Z.of_nat (length (escaped s))).
  assert (Hloop : string_loop str (S (length str)) (Z.of_nat (length pre) + 1) = Some (e, true)) by (rewrite Hl1, Hs1 at 1; apply string_loop_escaped; [done|rewrite Hs1; rewrite !length_app; unfold escaped; lia]).
  assert (Hrd : rd str e = Some 34) by (unfold e; rewrite <- Nat2Z.inj_add, <- length_app, Hs1, app_assoc; apply rd_app).
  destruct (parse_string_eval str lv None k nd h F HF ltac:(lia) p e (Z.of_nat (length pre)) Ht Hloop Hrd) as (h' & E & HF'). rewrite add_leaf_is_add in HF'.
  eexists _, _. split; [|split; [eexists; split; [|exact HF']; reflexivity|]].
  - eapply step_round; [cbn [jd_cur]; rewrite Hs; apply rd_app|done| |cbn [jd_cur]; unfold print_str; rewrite length_app; cbn [length]; lia]. change (dom_round str 34 ?j) with ((r ← _parse_string str; mret (if r <? 0 then Some (-1) else None)) j).
    rewrite (bind_eval _ _ _ _ _ E). cbn [Z.ltb Z.compare]. unfold mret, ST_ret. do 2 f_equal. f_equal. unfold e, print_str. rewrite !length_app. cbn [length]. rewrite length_app. cbn [length]. lia.
  - split; [|done]. constructor; [|constructor]. rewrite Hl1. replace (e - Z.of_nat (length (pre ++ [34]))) with (Z.of_nat (length (escaped s))) by (unfold e; lia). by eapply text_inside.
Qed.

Lemma step_prim F lv k nd p js s b pre post : str = pre ++ s ++ b :: post -> prim_ok s -> is_delim b = true -> target F k nd p -> Z.of_nat (length F) < 2 ^ 31 -> at_ F lv (Z.of_nat (length pre)) k nd js ->
  exists js' t, steps js js' /\ at_ (add F p [t]) lv (Z.of_nat (length (pre ++ s))) k nd js' /\ reads str t (DT s JSON_DOM_TYPE_PRIM []) /\ tsize t = 1%nat.
Proof.
  intros Hs (Hz & Hnd & c0 & r & Hc0 & Hst) Hb Ht Hsmall (h & -> & HF). set (cur := Z.of_nat (length pre)). set (e := Z.of_nat (length (pre ++ s))). assert (He : e = cur + Z.of_nat (length s)) by (unfold e, cur; rewrite length_app; lia).
  assert (Hle : e < Z.of_nat (length str)) by (rewrite Hs, !length_app in *; unfold e; rewrite length_app; cbn [length]; lia).
  assert (Hin : forall x, cur <= x < e -> exists c, rd str x = Some c /\ is_delim c = false /\ c <> 0).
  { intros x Hx. destruct (rd_app2 pre s (b :: post) (x - cur)) as (c & Hc & Hrd); [lia|]. exists c. split; [rewrite Hs, <- Hrd; f_equal; unfold cur; lia|]. split; [exact (proj1 (Forall_lookup _ _) Hnd _ _ Hc)|exact (proj1 (Forall_lookup _ _) Hz _ _ Hc)]. }
  assert (Hend : rd str e = Some b) by (unfold e; rewrite Hs, app_assoc; apply rd_app).
  assert (Hrd0 : rd str cur = Some c0) by (unfold cur; rewrite Hs, Hc0; apply rd_app). assert (Hc0z : c0 <> 0) by (intros ->; done).
  destruct (primitive_loop_eval str lv None k nd h F HF ltac:(lia) p cur (S (length str)) Ht cur) as [(c & h' & E & HF' & Hc & Hpass & b' & Hrdc & Hdc)|(c & E & Hc & Hpass & Hrdc)]; [lia|lia| |].
  - assert (c = e) as ->.
    { destruct (Z.lt_trichotomy c e) as [Hlt|[->|Hgt]]; [|done|]. - destruct (Hin c ltac:(lia)) as (b2 & Hb2 & Hd2 & _). congruence. - destruct (Hpass e ltac:(lia)) as (b2 & Hb2 & Hd2). congruence. }
    rewrite add_leaf_is_add in HF'. eexists _, _. split; [|split; [eexists; split; [reflexivity|exact HF']|]].
    + eapply step_round; [exact Hrd0|done| |cbn [jd_cur]; rewrite Hc0 in He; cbn [length] in He; lia].
      unfold dom_round. assert ((c0 =? 123) || (c0 =? 91) = false /\ (c0 =? 125) || (c0 =? 93) = false /\ (c0 =? 34) = false) as (-> & -> & ->) by (unfold starts_primitive in Hst; lia). rewrite Hst.
      unfold _parse_primitive. rewrite bind_assoc, jd_self_eval. cbn [jd_cur]. by rewrite (bind_eval _ _ _ _ _ E).
    + split; [|done]. constructor; [|constructor]. rewrite He. replace (cur + Z.of_nat (length s) - cur) with (Z.of_nat (length s)) by lia. by eapply text_inside.
  - exfalso. destruct (Z.lt_trichotomy c e) as [Hlt|[->|Hgt]]; [|rewrite Hend in Hrdc; by injection Hrdc as ->|].
    + destruct (Hin c ltac:(lia)) as (b2 & Hb2 & _ & Hz2). congruence.
    + destruct (Hpass e ltac:(lia)) as (b2 & Hb2 & Hd2). congruence.
Qed.
End Steps.

(** ** Values *)
Lemma separated_cons sp x y l : separated sp (x :: y :: l) = x ++ sp ++ 44 :: sp ++ separated sp (y :: l).
Proof. done. Qed.

Section Values.
Context (str sp : list Z) (Hlen : Z.of_nat (length str) < 2 ^ 31) (Hsp : Forall is_blank sp).

Definition starts_delim (l : list Z) : Prop := exists b r, l = b :: r /\ is_delim b = true.
Lemma blank_delim c : is_blank c -> is_delim c = true.
Proof. by intros [-> | [-> | [-> | ->]]]. Qed.
Lemma starts_delim_sp c r : is_delim c = true -> starts_delim (sp ++ c :: r).
Proof. intros Hc. destruct Hsp as [|b sp' Hb _]; [by exists c, r|]. exists b, (sp' ++ c :: r). split; [done|by apply blank_delim]. Qed.

(** Parsing [text] at a node of type [ty], with [nx] behind it, adds a child that reads as [d]. *)
Definition item_parses (nx : list Z -> Prop) (ty : json_dom_type -> Prop) (text : list Z) (d : dtree) : Prop := forall pre post F lv a f js,
  str = pre ++ text ++ post -> nx post -> F !! a = Some f -> ty (fn_type f) -> Z.of_nat (length F) <= Z.of_nat (length pre) + 1 -> 0 <= lv -> at_ F lv (Z.of_nat (length pre)) false a js ->
  exists js' t k, steps str js js' /\ at_ (add F a [t]) lv (Z.of_nat (length (pre ++ text))) k a js' /\ reads str t d /\ (tsize t <= length text)%nat.

Lemma items_parse ty texts ds : Forall2 (item_parses starts_delim ty) texts ds -> forall pre post F lv a f js,
  str = pre ++ separated sp texts ++ post -> starts_delim post -> F !! a = Some f -> ty (fn_type f) -> Z.of_nat (length F) <= Z.of_nat (length pre) + 1 -> 0 <= lv -> at_ F lv (Z.of_nat (length pre)) false a js ->
  exists js' ts k, steps str js js' /\ at_ (add F a ts) lv (Z.of_nat (length (pre ++ separated sp texts))) k a js' /\ Forall2 (reads str) ts ds /\ (tsizes ts <= length (separated sp texts))%nat.
Proof.
  induction 1 as [|x d texts ds Hx Hrest IH]; intros pre post F lv a f js Hs Hp Hf Hty Hsize Hlv Ha.
  - exists js, [], false. rewrite add_nil, app_nil_r. split; [apply steps_refl|]. split; [done|]. split; [constructor|done].
  - assert (Hap : (a < length F)%nat) by (by eapply lookup_lt_Some). destruct texts as [|y texts].
    + inversion Hrest. subst. cbn [separated] in *. destruct (Hx pre post F lv a f js) as (js' & t & k & S1 & A1 & R1 & Z1); try done. exists js', [t], k. split; [done|]. split; [done|]. split; [by repeat constructor|]. cbn. lia.
    + rewrite separated_cons in *. set (rest := separated sp (y :: texts)) in *. assert (Hs1 : str = pre ++ x ++ sp ++ 44 :: sp ++ rest ++ post) by (rewrite Hs; rewrite <- !app_assoc; cbn [app]; by rewrite <- !app_assoc).
      destruct (Hx pre (sp ++ 44 :: sp ++ rest ++ post) F lv a f js Hs1) as (js1 & t & k & S1 & A1 & R1 & Z1); [by apply starts_delim_sp|done..|].
      destruct (steps_blanks str (add F a [t]) lv k a sp Hsp js1 (pre ++ x) (44 :: sp ++ rest ++ post)) as (js2 & S2 & A2); [by rewrite <- app_assoc|done|]. rewrite <- app_assoc in A2.
      destruct (step_comma str (add F a [t]) lv k a js2 (pre ++ x ++ sp) (sp ++ rest ++ post)) as (js3 & S3 & A3); [rewrite Hs1, <- !app_assoc; done|done|].
      destruct (steps_blanks str (add F a [t]) lv false a sp Hsp js3 ((pre ++ x ++ sp) ++ [44]) (rest ++ post)) as (js4 & S4 & A4); [rewrite Hs1, <- !app_assoc; done|done|].
      set (pre2 := ((pre ++ x ++ sp) ++ [44]) ++ sp) in *. assert (Epre : pre2 ++ rest = pre ++ x ++ sp ++ 44 :: sp ++ rest) by (unfold pre2; rewrite <- !app_assoc; done).
      destruct (IH pre2 post (add F a [t]) lv a (fn_adds (addrs (length F) [t]) f) js4) as (js5 & ts & k5 & S5 & A5 & R5 & Z5).
      * rewrite app_assoc, Epre, Hs1. by rewrite <- !app_assoc, <- !app_comm_cons, <- !app_assoc.
      * done.
      * rewrite (add_lookup _ _ _ _ _ Hf). by rewrite decide_True.
      * done.
      * rewrite length_add. unfold pre2. rewrite !length_app. cbn. lia.
      * done.
      * done.
      * exists js5, (t :: ts), k5. rewrite add_app in A5 by done. fold rest in A5, Z5. rewrite Epre in A5. split; [eauto using steps_trans|]. split; [done|]. split; [by constructor|].
        cbn [tsizes foldr]. fold (tsizes ts). rewrite !length_app. cbn [length]. rewrite length_app. lia.
Qed.

(** From behind the opening bracket to behind the closing one. *)
Lemma body_parses ty texts ds c pre post F lv a f p js : Forall2 (item_parses starts_delim ty) texts ds -> str = pre ++ (sp ++ separated sp texts ++ sp ++ [c]) ++ post -> c = 125 \/ c = 93 ->
  F !! a = Some f -> ty (fn_type f) -> fn_parent f = Some p -> Z.of_nat (length F) <= Z.of_nat (length pre) + 1 -> 0 <= lv -> at_ F (lv + 1) (Z.of_nat (length pre)) false a js ->
  exists js' ts, steps str js js' /\ at_ (add F a ts) lv (Z.of_nat (length (pre ++ sp ++ separated sp texts ++ sp ++ [c]))) false p js' /\ Forall2 (reads str) ts ds /\ (tsizes ts <= length (separated sp texts))%nat.
Proof.
  intros Hitems Hs Hc Hf Hty Hpar Hsize Hlv Ha. set (its := separated sp texts) in *. assert (Hs1 : str = pre ++ sp ++ its ++ sp ++ c :: post) by (rewrite Hs, <- !app_assoc; done).
  destruct (steps_blanks str F (lv + 1) false a sp Hsp js pre (its ++ sp ++ c :: post) Hs1 Ha) as (js1 & S1 & A1).
  destruct (items_parse ty texts ds Hitems (pre ++ sp) (sp ++ c :: post) F (lv + 1) a f js1) as (js2 & ts & k & S2 & A2 & R2 & Z2); [by rewrite <- app_assoc|by apply starts_delim_sp; destruct Hc as [-> | ->]|done|done|rewrite length_app; lia|lia|done|]. fold its in A2, Z2.
  destruct (steps_blanks str (add F a ts) (lv + 1) k a sp Hsp js2 ((pre ++ sp) ++ its) (c :: post)) as (js3 & S3 & A3); [by rewrite <- !app_assoc|done|].
  destruct (step_close str (add F a ts) (lv + 1) k a (fn_adds (addrs (length F) ts) f) p c js3 (((pre ++ sp) ++ its) ++ sp) post) as (js4 & S4 & A4); [by rewrite <- !app_assoc|done|lia| |done|done|].
  - rewrite (add_lookup _ _ _ _ _ Hf). by rewrite decide_True.
  - exists js4, ts. replace (lv + 1 - 1) with lv in A4 by lia. rewrite <- !app_assoc in A4. split; [eauto using steps_trans|]. done.
Qed.

Lemma step_open F lv a f js c pre post : str = pre ++ c :: post -> c = 123 \/ c = 91 -> F !! a = Some f -> Z.of_nat (length F) <= Z.of_nat (length pre) + 1 -> at_ F lv (Z.of_nat (length pre)) false a js ->
  exists js', steps str js js' /\ at_ (add F a [JT TNull 0 (if c =? 91 then JSON_DOM_TYPE_ARRAY else JSON_DOM_TYPE_OBJ) []]) (lv + 1) (Z.of_nat (length (pre ++ [c]))) false (length F) js'.
Proof.
  intros Hs Hc Hf Hsize (h & -> & HF). assert (Hl : (length pre < length str)%nat) by (rewrite Hs, length_app; cbn; lia).
  destruct (open_new_eval str lv None false a h F HF ltac:(lia) f c (Z.of_nat (length pre)) Hc eq_refl Hf) as (h' & E & HF'). rewrite add_leaf_is_add in HF'.
  eexists. split; [eapply step_round; [cbn [jd_cur]; rewrite Hs; apply rd_app|destruct Hc as [-> | ->]; done|exact E|cbn; lia]|]. eexists. split; [|exact HF']. rewrite length_app. cbn. f_equal. lia.
Qed.

(** The key, a node [length F] with the text [x], becomes the container. *)
Lemma step_open_key F lv a f v l t js c pre post : str = pre ++ c :: post -> c = 123 \/ c = 91 -> F !! a = Some f -> at_ (add F a [JT v l t []]) lv (Z.of_nat (length pre)) true a js ->
  Z.of_nat (length F) + 1 <= Z.of_nat (length pre) + 1 ->
  exists js', steps str js js' /\ at_ (add F a [JT v l (if c =? 91 then JSON_DOM_TYPE_ARRAY else JSON_DOM_TYPE_OBJ) []]) (lv + 1) (Z.of_nat (length (pre ++ [c]))) false (length F) js'.
Proof.
  intros Hs Hc Hf (h & -> & HF) Hsize. assert (Hl : (length pre < length str)%nat) by (rewrite Hs, length_app; cbn; lia).
  assert (Ht : target (add F a [JT v l t []]) true a (length F)) by (eexists; split; [rewrite (add_lookup _ _ _ _ _ Hf), decide_True by done; reflexivity|]; cbn; apply last_snoc).
  destruct (open_key_eval str lv None true a h _ HF (length F) c (Z.of_nat (length pre)) Hc eq_refl Ht) as (h' & E & HF'). rewrite add_retype in HF'.
  eexists. split; [eapply step_round; [cbn [jd_cur]; rewrite Hs; apply rd_app|destruct Hc as [-> | ->]; done|exact E|cbn; lia]|]. eexists. split; [|exact HF']. rewrite length_app. cbn. f_equal. lia.
Qed.

Lemma lookup_added F a v l t f : F !! a = Some f -> target (add F a [JT v l t []]) true a (length F).
Proof. intros Hf. eexists. split; [rewrite (add_lookup _ _ _ _ _ Hf), decide_True by done; reflexivity|]. cbn. apply last_snoc. Qed.

(** A key and the colon behind it. *)
Lemma key_parses F lv a f js key pre post : str = pre ++ (print_str key ++ sp ++ 58 :: sp) ++ post -> nonzero key -> F !! a = Some f -> fn_type f <> JSON_DOM_TYPE_ARRAY ->
  Z.of_nat (length F) <= Z.of_nat (length pre) + 1 -> at_ F lv (Z.of_nat (length pre)) false a js ->
  exists js' v l, steps str js js' /\ at_ (add F a [JT v l JSON_DOM_TYPE_STR []]) lv (Z.of_nat (length (pre ++ print_str key ++ sp ++ 58 :: sp))) true a js' /\ text_of str v l = Some (escaped key).
Proof.
  intros Hs Hk Hf Hty Hsize Ha. assert (Hl : (length pre < length str)%nat) by (rewrite Hs, !length_app; cbn; lia). assert (Hs1 : str = pre ++ print_str key ++ sp ++ 58 :: sp ++ post) by (rewrite Hs, <- !app_assoc; done).
  destruct (step_string str Hlen F lv false a a js key pre (sp ++ 58 :: sp ++ post) Hs1 Hk) as (js1 & t & S1 & A1 & R1 & _); [by exists f|lia|done|]. destruct (reads_leaf _ _ _ _ R1) as (v & l & -> & Hx).
  destruct (steps_blanks str (add F a [JT v l JSON_DOM_TYPE_STR []]) lv false a sp Hsp js1 (pre ++ print_str key) (58 :: sp ++ post)) as (js2 & S2 & A2); [by rewrite <- app_assoc|exact A1|].
  destruct (step_colon str (add F a [JT v l JSON_DOM_TYPE_STR []]) lv false a (fn_adds (addrs (length F) [JT v l JSON_DOM_TYPE_STR []]) f) js2 ((pre ++ print_str key) ++ sp) (sp ++ post)) as (js3 & S3 & A3); [by rewrite <- !app_assoc| |done| |exact A2|].
  { by rewrite (add_lookup _ _ _ _ _ Hf), decide_True. }
  { cbn. by destruct (fn_children f). }
  destruct (steps_blanks str (add F a [JT v l JSON_DOM_TYPE_STR []]) lv true a sp Hsp js3 (((pre ++ print_str key) ++ sp) ++ [58]) post) as (js4 & S4 & A4); [rewrite Hs1, <- !app_assoc; done|exact A3|].
  exists js4, v, l. rewrite <- !app_assoc in A4. split; [eauto using steps_trans|]. done.
Qed.

(** A scalar is parsed as a child of whatever is the target. *)
Definition scalar_parses (text : list Z) (d : dtree) : Prop := forall pre post F lv k nd p js, str = pre ++ text ++ post -> starts_delim post -> target F k nd p -> Z.of_nat (length F) < 2 ^ 31 -> at_ F lv (Z.of_nat (length pre)) k nd js ->
  exists js' t, steps str js js' /\ at_ (add F p [t]) lv (Z.of_nat (length (pre ++ text))) k nd js' /\ reads str t d /\ tsize t = 1%nat.

Lemma scalar_item text d : scalar_parses text d -> text <> [] -> item_parses starts_delim (fun _ => True) text d.
Proof.
  intros Hsc Hne pre post F lv a f js Hs Hp Hf _ Hsize Hlv Ha. assert (Hl : (0 < length text)%nat) by (destruct text; [done|cbn; lia]). assert (Hl2 : (length pre < length str)%nat) by (rewrite Hs, !length_app; lia).
  destruct (Hsc pre post F lv false a a js Hs Hp) as (js' & t & S1 & A1 & R1 & Z1); [by exists f|lia|done|]. exists js', t, false. split; [done|]. split; [done|]. split; [done|lia].
Qed.

Lemma scalar_member key v text d : scalar_parses text d -> text <> [] -> nonzero key -> print sp v = text -> dom_member (key, v) = DT (escaped key) JSON_DOM_TYPE_STR [d] ->
  item_parses starts_delim (fun t => t <> JSON_DOM_TYPE_ARRAY) (print_member sp (key, v)) (dom_member (key, v)).
Proof.
  intros Hsc Hne Hk Hv Hd pre post F lv a f js Hs Hp Hf Hty Hsize Hlv Ha. unfold print_member in *. cbn [fst snd] in *. rewrite Hv in *. rewrite Hd. assert (Hl : (0 < length text)%nat) by (destruct text; [done|cbn; lia]).
  assert (Hs1 : str = pre ++ (print_str key ++ sp ++ 58 :: sp) ++ text ++ post) by (rewrite Hs, <- !app_assoc, <- !app_comm_cons, <- !app_assoc; done).
  destruct (key_parses F lv a f js key pre _ Hs1 Hk Hf Hty Hsize Ha) as (js1 & v1 & l1 & S1 & A1 & Hx). set (pre1 := pre ++ print_str key ++ sp ++ 58 :: sp) in *.
  assert (Hs2 : str = pre1 ++ text ++ post) by (unfold pre1; rewrite Hs1, <- !app_assoc, <- ?app_comm_cons, <- ?app_assoc; done). assert (Hl2 : (length pre1 < length str)%nat) by (rewrite Hs2, !length_app; lia).
  assert (Hl3 : (length pre + 4 <= length pre1 + 1)%nat) by (unfold pre1, print_str; rewrite !length_app; cbn [length]; rewrite length_app; cbn [length]; lia).
  destruct (Hsc pre1 post (add F a [JT v1 l1 JSON_DOM_TYPE_STR []]) lv true a (length F) js1 Hs2 Hp) as (js2 & t & S2 & A2 & R2 & Z2); [by eapply lookup_added|rewrite length_add; cbn; lia|exact A1|]. rewrite add_enter in A2.
  exists js2, (JT v1 l1 JSON_DOM_TYPE_STR [t]), true. split; [by eapply steps_trans|]. split; [unfold pre1 in A2; rewrite <- !app_assoc, <- !app_comm_cons, <- ?app_assoc in A2; exact A2|]. split; [constructor; [done|by repeat constructor]|].
  cbn [tsize foldr]. rewrite Z2. unfold print_str. rewrite !length_app. cbn [length]. rewrite !length_app. cbn [length]. lia.
Qed.

Lemma container_item v ty texts ds (o c : Z) (t : json_dom_type) : print sp v = o :: sp ++ separated sp texts ++ sp ++ [c] -> dom v = DT [] t ds -> (o = 123 /\ c = 125 \/ o = 91 /\ c = 93) ->
  t = (if o =? 91 then JSON_DOM_TYPE_ARRAY else JSON_DOM_TYPE_OBJ) -> (ty t : Prop) -> Forall2 (item_parses starts_delim ty) texts ds -> item_parses (fun _ => True) (fun _ => True) (print sp v) (dom v).
Proof.
  intros Hv Hd Hoc Ht Hty Hitems pre post F lv a f js Hs Hp Hf _ Hsize Hlv Ha. rewrite Hv, Hd in *. set (body := sp ++ separated sp texts ++ sp ++ [c]) in *. assert (Ho : o = 123 \/ o = 91) by naive_solver. assert (Hc : c = 125 \/ c = 93) by naive_solver.
  destruct (step_open F lv a f js o pre (body ++ post) Hs Ho Hf Hsize Ha) as (js1 & S1 & A1). rewrite <- Ht in A1.
  destruct (body_parses ty texts ds c (pre ++ [o]) post (add F a [JT TNull 0 t []]) lv (length F) (FNode TNull 0 t (Some a) []) a js1 Hitems) as (js2 & ts & S2 & A2 & R2 & Z2); [by rewrite <- app_assoc|done|apply add_root|done|done|rewrite length_add, length_app; cbn; lia|done|done|].
  rewrite add_enter in A2. exists js2, (JT TNull 0 t ts), false. split; [by eapply steps_trans|]. rewrite <- app_assoc in A2. split; [exact A2|]. split; [by constructor|]. cbn [tsize]. fold (tsizes ts). unfold body. cbn [length]. rewrite !length_app. lia.
Qed.

Lemma container_member key v ty texts ds (o c : Z) (t : json_dom_type) : nonzero key -> print sp v = o :: sp ++ separated sp texts ++ sp ++ [c] -> dom_member (key, v) = DT (escaped key) t ds -> (o = 123 /\ c = 125 \/ o = 91 /\ c = 93) ->
  t = (if o =? 91 then JSON_DOM_TYPE_ARRAY else JSON_DOM_TYPE_OBJ) -> (ty t : Prop) -> Forall2 (item_parses starts_delim ty) texts ds -> item_parses starts_delim (fun t => t <> JSON_DOM_TYPE_ARRAY) (print_member sp (key, v)) (dom_member (key, v)).
Proof.
  intros Hk Hv Hd Hoc Ht Hty Hitems pre post F lv a f js Hs Hp Hf Hnarr Hsize Hlv Ha. unfold print_member in *. cbn [fst snd] in *. rewrite Hv, Hd in *. set (body := sp ++ separated sp texts ++ sp ++ [c]) in *. assert (Ho : o = 123 \/ o = 91) by naive_solver. assert (Hc : c = 125 \/ c = 93) by naive_solver.
  assert (Hs1 : str = pre ++ (print_str key ++ sp ++ 58 :: sp) ++ (o :: body) ++ post) by (rewrite Hs, <- !app_assoc, <- !app_comm_cons, <- !app_assoc; done).
  destruct (key_parses F lv a f js key pre _ Hs1 Hk Hf Hnarr Hsize Ha) as (js1 & v1 & l1 & S1 & A1 & Hx). set (pre1 := pre ++ print_str key ++ sp ++ 58 :: sp) in *.
  assert (Hs2 : str = pre1 ++ o :: body ++ post) by (unfold pre1; rewrite Hs1, <- !app_assoc, <- ?app_comm_cons, <- ?app_assoc; done).
  assert (Hl3 : (length pre + 4 <= length pre1 + 1)%nat) by (unfold pre1, print_str; rewrite !length_app; cbn [length]; rewrite length_app; cbn [length]; lia).
  destruct (step_open_key F lv a f v1 l1 JSON_DOM_TYPE_STR js1 o pre1 (body ++ post) Hs2 Ho Hf A1) as (js2 & S2 & A2); [lia|]. rewrite <- Ht in A2.
  destruct (body_parses ty texts ds c (pre1 ++ [o]) post (add F a [JT v1 l1 t []]) lv (length F) (FNode v1 l1 t (Some a) []) a js2 Hitems) as (js3 & ts & S3 & A3 & R3 & Z3); [by rewrite <- app_assoc|done|apply add_root|done|done|rewrite length_add, length_app; cbn; lia|done|done|].
  rewrite add_enter in A3. exists js3, (JT v1 l1 t ts), false. split; [eauto using steps_trans|]. split; [unfold pre1 in A3; rewrite <- !app_assoc, <- !app_comm_cons, <- ?app_assoc in A3; exact A3|]. split; [by constructor|].
  cbn [tsize]. fold (tsizes ts). unfold body, print_str. rewrite !length_app. cbn [length]. rewrite !length_app. cbn [length]. rewrite !length_app. lia.
Qed.

(** A container needs no delimiter behind it. *)
Definition ends (v : jval) (post : list Z) : Prop := match v with JStr _ | JPrim _ => starts_delim post | _ => True end.

Lemma item_delim v ty text d : item_parses (ends v) ty text d -> item_parses starts_delim ty text d.
Proof. intros Hi pre post F lv a f js Hs Hp. apply (Hi pre post F lv a f js Hs). by destruct v. Qed.

Lemma value_parses v : val_ok v -> item_parses (ends v) (fun _ => True) (print sp v) (dom v)
  /\ forall key, nonzero key -> item_parses starts_delim (fun t => t <> JSON_DOM_TYPE_ARRAY) (print_member sp (key, v)) (dom_member (key, v)).
Proof.
  induction v as [s|s|vs IH|ms IH] using jval_nested_ind; intros Hok.
  - assert (Hsc : scalar_parses (print_str s) (DT (escaped s) JSON_DOM_TYPE_STR [])) by (intros pre post F lv k nd p js Hs _ Ht Hl Ha; by eapply step_string). split; [by apply scalar_item|]. intros key Hk. by eapply scalar_member.
  - assert (Hne : s <> []) by (destruct Hok as (_ & _ & c & r & -> & _); done). assert (Hsc : scalar_parses s (DT s JSON_DOM_TYPE_PRIM [])) by (intros pre post F lv k nd p js Hs (b & r & -> & Hb) Ht Hl Ha; by eapply step_prim).
    split; [by apply scalar_item|]. intros key Hk. by eapply scalar_member.
  - assert (Hitems : Forall2 (item_parses starts_delim (fun _ => True)) (map (print sp) vs) (map dom vs)).
    { cbn [val_ok] in Hok. induction IH as [|v vs Hv _ IHvs]; [constructor|]. destruct Hok as [H1 H2]. constructor; [by eapply item_delim; apply Hv|by apply IHvs]. }
    split; [|intros key Hk]; [eapply (container_item _ (fun _ => True))|eapply (container_member _ _ (fun _ => True))]; try done; naive_solver.
  - assert (Hitems : Forall2 (item_parses starts_delim (fun t => t <> JSON_DOM_TYPE_ARRAY)) (map (print_member sp) ms) (map dom_member ms)).
    { cbn [val_ok] in Hok. induction IH as [|[key v] ms Hv _ IHms]; [constructor|]. destruct Hok as [[H1 H2] H3]. constructor; [by apply Hv|by apply IHms]. }
    split; [|intros key Hk]; [eapply (container_item _ (fun t => t <> JSON_DOM_TYPE_ARRAY))|eapply (container_member _ _ (fun t => t <> JSON_DOM_TYPE_ARRAY))]; try done; naive_solver.
Qed.
End Values.
