(* ===== verification/JsonDomRead.v ===== *)
(** * JsonDomRead: reading the tree of a parsed value

    What the pointers of the nodes lead to, and what the access functions return. *)

From stdpp Require Import base numbers list.
From Stdlib Require Import ZArith Lia.
From S2P Require Import Prelude Words Bytes Cstring Json JsonDom JsonForest JsonDomFacts JsonDomParse.

(** The trees of a node and of the siblings behind it, by following the pointers. *)
Fixpoint dom_forest (str : list Z) (fuel : nat) (p : option nat) : JD (list dtree) :=
  match fuel, p with
  | _, None => mret []
  | O, _ => crash
  | S f, Some _ =>
      n ← node_at p; text ← node_text str n;
      cs ← dom_forest str f (jn_first_child n); rest ← dom_forest str f (jn_next_sibling n);
      mret (DT text (jn_type n) cs :: rest)
  end.

(** The lines [json_dom_dump] prints for trees whose parent has type [pt]. *)
Fixpoint dump_tree (level : nat) (pt : json_dom_type) (i : Z) (d : dtree) : list Z :=
  let '(DT text t cs) := d in
  dump_line level t (if bool_decide (pt = JSON_DOM_TYPE_ARRAY) then Some i else None) text ++
  (fix go (i : Z) (cs : list dtree) : list Z := match cs with [] => [] | c :: cs => dump_tree (S level) t i c ++ go (i + 1) cs end) 0 cs.
Fixpoint dump_trees (level : nat) (pt : json_dom_type) (i : Z) (ds : list dtree) : list Z :=
  match ds with [] => [] | d :: ds => dump_tree level pt i d ++ dump_trees level pt (i + 1) ds end.

Lemma dump_tree_eq level pt i text t cs : dump_tree level pt i (DT text t cs) = dump_line level t (if bool_decide (pt = JSON_DOM_TYPE_ARRAY) then Some i else None) text ++ dump_trees (S level) t 0 cs.
Proof. cbn [dump_tree]. f_equal. generalize 0. induction cs as [|c cs IH]; intros j; [done|]. cbn [dump_trees]. by rewrite IH. Qed.

Definition contains (F : list fnode) (n : nat) (L : list fnode) : Prop := forall i x, L !! i = Some x -> F !! (n + i)%nat = Some x.

Lemma contains_app F n L L' : contains F n (L ++ L') -> contains F n L /\ contains F (n + length L) L'.
Proof.
  intros Hc. split; intros i x Hi; [apply Hc; by rewrite lookup_app_l by (by eapply lookup_lt_Some)|]. rewrite <- Nat.add_assoc. apply Hc. rewrite lookup_app_r by lia. by replace (length L + i - length L)%nat with i by lia.
Qed.
Lemma contains_cons F n x L : contains F n (x :: L) -> F !! n = Some x /\ contains F (S n) L.
Proof. intros Hc. split; [by rewrite <- (Hc O x eq_refl), Nat.add_0_r|]. intros i y Hi. rewrite <- (Hc (S i) y Hi). f_equal. lia. Qed.
Lemma contains_add F p ts : contains (add F p ts) (length F) (lays p (length F) ts).
Proof. intros i x Hi. unfold add. rewrite lookup_app_r by (rewrite length_alter; lia). rewrite length_alter. by replace (length F + i - length F)%nat with i by lia. Qed.

Lemma node_text_eval str h a n f js x : node_ok h a n f -> text_of str (fn_value f) (fn_len f) = Some x -> node_text str n js = Some (x, js).
Proof.
  intros Hok Hx. unfold node_text. rewrite (no_value _ _ _ _ Hok), (no_len _ _ _ _ Hok). destruct (fn_value f) as [| |p]; cbn [text_of] in Hx; [by destruct (fn_len f =? 0); [injection Hx as <-|]|done|].
  destruct (0 <=? p); [|done]. destruct (0 <=? fn_len f); [|done]. cbn [andb] in *. by destruct (p + fn_len f <=? Z.of_nat (length str)); [injection Hx as <-|].
Qed.

Section Read.
Context (str : list Z) (js : json_dom) (F : list fnode).
Hypothesis HF : linked (jd_heap js) F.

Lemma chain_next a fa cs0 n rest : F !! a = Some fa -> fn_children fa = cs0 ++ n :: rest -> exists m, jd_heap js !! n = Some m /\ jn_parent m = Some a /\ jn_next_sibling m = head rest.
Proof.
  intros Ha Hc. destruct (linked_lookup _ _ _ _ HF Ha) as (an & Han & Hok). destruct (no_children _ _ _ _ Hok (length cs0) n) as (_ & m & Hm & Hp & _ & Hn); [rewrite Hc; by apply list_lookup_middle|].
  exists m. split; [done|]. split; [done|]. rewrite Hn, Hc. rewrite lookup_app_r by lia. replace (S (length cs0) - length cs0)%nat with 1%nat by lia. by destruct rest.
Qed.

Lemma read_chain fuel : forall ts ds a fa cs0 n level i, (tsizes ts <= fuel)%nat -> F !! a = Some fa -> fn_children fa = cs0 ++ addrs n ts -> contains F n (lays a n ts) -> Forall2 (reads str) ts ds ->
  dom_forest str fuel (head (addrs n ts)) js = Some (ds, js) /\ _dump str fuel (head (addrs n ts)) level i js = Some (dump_trees level (fn_type fa) i ds, js).
Proof.
  induction fuel as [|fuel IH]; intros ts ds a fa cs0 n level i Hfuel Ha Hc Hcont Hr; (destruct ts as [|[v l ty cs] ts]; [inversion Hr; subst; by split|]); cbn [tsizes foldr tsize] in Hfuel; fold (tsizes cs) (tsizes ts) in Hfuel; [lia|].
  inversion Hr as [|t d ts' ds' Hd Hds]. subst. inversion Hd as [v' l' t' cs' x ds Hx Hcs]. subst. cbn [addrs head lays] in *. apply contains_app in Hcont as [Hcont Hcont2]. rewrite length_lay in Hcont2. rewrite lay_eq in Hcont. apply contains_cons in Hcont as [Hn Hcont].
  destruct (chain_next a fa cs0 n _ Ha Hc) as (m & Hm & Hpar & Hnext). destruct (linked_lookup _ _ _ _ HF Hn) as (m' & Hm' & Hok). rewrite Hm in Hm'. injection Hm' as <-. destruct (linked_lookup _ _ _ _ HF Ha) as (an & Han & Hoka).
  destruct (IH cs ds n _ [] (S n) (S level) 0 ltac:(lia) Hn eq_refl Hcont Hcs) as [E1 D1]. destruct (IH ts ds' a fa (cs0 ++ [n]) (n + tsize (JT v l ty cs))%nat level (i + 1) ltac:(lia) Ha) as [E2 D2]; [by rewrite <- app_assoc|done|done|].
  assert (Hfirst : jn_first_child m = head (addrs (S n) cs)) by exact (no_first _ _ _ _ Hok). pose proof (no_type _ _ _ _ Hok) as Hty. cbn [fn_type] in Hty.
  cbn [dom_forest _dump]. rewrite !(bind_eval _ _ _ _ _ (node_at_eval n js m Hm)). rewrite Hpar, Hfirst, Hnext.
  rewrite (bind_eval _ _ _ _ _ (node_at_eval a js an Han)). rewrite !(bind_eval _ _ _ _ _ (node_text_eval _ _ _ _ _ js _ Hok Hx)). rewrite (bind_eval _ _ _ _ _ E1), (bind_eval _ _ _ _ _ D1), (bind_eval _ _ _ _ _ E2), (bind_eval _ _ _ _ _ D2).
  rewrite Hty, (no_type _ _ _ _ Hoka). split; [done|]. cbn [dump_trees]. rewrite dump_tree_eq, <- app_assoc. done.
Qed.

Lemma count_chain fuel : forall ts a fa cs0 n c, (tsizes ts <= fuel)%nat -> F !! a = Some fa -> fn_children fa = cs0 ++ addrs n ts -> count_siblings fuel (head (addrs n ts)) c js = Some (c + Z.of_nat (length ts), js).
Proof.
  induction fuel as [|fuel IH]; intros ts a fa cs0 n c Hfuel Ha Hc; (destruct ts as [|[v l ty cs] ts]; [cbn; by rewrite Z.add_0_r|]); cbn [tsizes foldr tsize] in Hfuel; fold (tsizes cs) (tsizes ts) in Hfuel; [lia|].
  cbn [addrs head] in *. destruct (chain_next a fa cs0 n _ Ha Hc) as (m & Hm & _ & Hnext). cbn [count_siblings]. rewrite (bind_eval _ _ _ _ _ (node_at_eval n js m Hm)), Hnext.
  rewrite (IH ts a fa (cs0 ++ [n])) by (try lia; try done; by rewrite <- app_assoc). cbn [length]. do 2 f_equal. lia.
Qed.
End Read.

(** ** A parsed value *)
Definition dom_at (str : list Z) (fuel a : nat) : JD dtree :=
  n ← node_at (Some a); text ← node_text str n; cs ← dom_forest str fuel (jn_first_child n); mret (DT text (jn_type n) cs).

Definition root_node : fnode := FNode TEmpty 4 JSON_DOM_TYPE_OBJ None [].
Lemma root_linked : linked [DomNode TEmpty 4 JSON_DOM_TYPE_OBJ 0 None None None None None] [root_node].
Proof. split; [done|]. intros [|a] n f Ha Hf; [|done]. injection Ha as <-. injection Hf as <-. split; cbn; try done. constructor. Qed.

Lemma parse_printed sp lead trail v js0 : let str := lead ++ print sp v ++ trail in
  Z.of_nat (length str) < 2 ^ 31 -> Forall is_blank sp -> Forall is_blank lead -> Forall is_blank trail -> val_ok v -> ends v trail -> jd_heap js0 = [] ->
  exists js t, json_dom_parse str js0 = Some (0, js) /\ jd_node js = O /\ linked (jd_heap js) (add [root_node] 0 [t]) /\ reads str t (dom v).
Proof.
  intros str Hlen Hsp Hlead Htrail Hok Hends Hheap. set (js1 := JsonDom 0 0 None false 0 [DomNode TEmpty 4 JSON_DOM_TYPE_OBJ 0 None None None None None]).
  assert (A1 : at_ [root_node] 0 (Z.of_nat (length (@nil Z))) false 0 js1) by (eexists; split; [reflexivity|apply root_linked]).
  destruct (steps_blanks str [root_node] 0 false 0 lead Hlead js1 [] (print sp v ++ trail) eq_refl A1) as (js2 & S2 & A2). cbn [app] in A2.
  destruct (proj1 (value_parses str sp Hlen Hsp v Hok) lead trail [root_node] 0 O root_node js2 eq_refl Hends eq_refl I ltac:(cbn; lia) ltac:(lia) A2) as (js3 & t & k & S3 & A3 & R3 & _).
  destruct (steps_blanks str (add [root_node] 0 [t]) 0 k 0 trail Htrail js3 (lead ++ print sp v) []) as (js4 & S4 & A4); [by rewrite app_nil_r, <- app_assoc|exact A3|]. rewrite <- app_assoc in A4. fold str in A4.
  destruct (steps_trans str _ _ _ S2 (steps_trans str _ _ _ S3 S4)) as (m & Hm & Em). destruct A4 as (h & -> & Hl). cbn [jd_cur js1] in Hm.
  exists (JsonDom 0 (Z.of_nat (length str)) None k 0 h), t. split; [|by split].
  unfold json_dom_parse. rewrite (bind_eval (_new_node _ _ _) _ _ O (with_heap js0 [DomNode TEmpty 4 JSON_DOM_TYPE_OBJ 0 None None None None None])) by (unfold _new_node; by rewrite Hheap). rewrite modify_eval. cbn [jd_heap with_heap]. fold js1.
  replace (S (length str)) with (m + S (length str - m))%nat by lia. rewrite Em. cbn [dom_loop]. rewrite jd_self_eval. cbn [jd_cur].
  rewrite (bind_eval (read str _) _ _ 0 (JsonDom 0 (Z.of_nat (length str)) None k 0 h)) by (unfold read; rewrite rd_some by lia; by rewrite Nat2Z.id, nth_overflow by lia). done.
Qed.

(** C20: a JSON text, printed with any blanks around its tokens and with its strings escaped, is
    parsed by [json_dom_parse] into the tree of its value: following the child and sibling
    pointers from [json_dom_root] one finds exactly that tree, [json_dom_dump] prints it, and
    [json_dom_get_array_size] counts the elements of an array and refuses anything else. *)
Theorem json_dom_parse_value (sp lead trail : list Z) (v : jval) (js0 : json_dom)
  (Hlen : Z.of_nat (length (lead ++ print sp v ++ trail)) < 2 ^ 31) (Hsp : Forall is_blank sp) (Hlead : Forall is_blank lead) (Htrail : Forall is_blank trail)
  (Hok : val_ok v) (Hends : ends v trail) (Hheap : jd_heap js0 = []) :
  let str := lead ++ print sp v ++ trail in
  exists js root, json_dom_parse str js0 = Some (0, js) /\ json_dom_root js = Some (Some root, js)
    /\ dom_forest str (length (jd_heap js)) (Some root) js = Some ([dom v], js)
    /\ json_dom_dump str js = Some (dump_tree 0 JSON_DOM_TYPE_OBJ 0 (dom v), js)
    /\ json_dom_get_array_size (Some root) js = Some (match v with JArr vs => (0, Z.of_nat (length vs)) | _ => (-1, 0) end, js).
Proof.
  intros str. destruct (parse_printed sp lead trail v js0 Hlen Hsp Hlead Htrail Hok Hends Hheap) as (js & t & E & Hnode & HF & Hr). fold str in E, Hr. set (F := add [root_node] 0 [t]) in *.
  set (rf := fn_adds (addrs 1 [t]) root_node). assert (Hroot : F !! O = Some rf) by (unfold F; rewrite (add_lookup _ _ _ _ root_node) by done; by rewrite decide_True). destruct (linked_lookup _ _ _ _ HF Hroot) as (n & Hn & Hrok).
  assert (Hlenh : length (jd_heap js) = S (tsizes [t])) by (rewrite (proj1 HF); unfold F; by rewrite length_add).
  destruct (read_chain str js F HF (length (jd_heap js)) [t] [dom v] O rf [] 1 0 0) as [E1 E2]; [lia|done|done|apply contains_add|by repeat constructor|].
  assert (Efirst : jn_first_child n = Some 1%nat) by (by rewrite (no_first _ _ _ _ Hrok)). exists js, 1%nat. split; [exact E|]. split; [unfold json_dom_root; rewrite jd_self_eval, Hnode; by rewrite (bind_eval _ _ _ _ _ (node_at_eval _ _ _ Hn)), Efirst|]. split; [exact E1|]. split.
  { unfold json_dom_dump. rewrite jd_self_eval, Hnode. rewrite (bind_eval _ _ _ _ _ (node_at_eval _ _ _ Hn)), Efirst. cbn [addrs head] in E2. rewrite E2. cbn [dump_trees]. by rewrite app_nil_r. }
  destruct t as [tv l ty cs]. assert (H1 : F !! 1%nat = Some (FNode tv l ty (Some O) (addrs 2 cs))) by apply (add_root [root_node]). destruct (linked_lookup _ _ _ _ HF H1) as (m & Hm & Hok1).
  inversion Hr as [? ? ? ? x ds Hx Hds E3 E4]. subst. unfold json_dom_get_array_size. rewrite (bind_eval _ _ _ _ _ (node_at_eval _ _ _ Hm)), (no_type _ _ _ _ Hok1), (no_first _ _ _ _ Hok1). cbn [fn_type fn_children].
  destruct v as [s|s|vs|ms]; cbn [dom] in E4; injection E4 as -> -> ->; try done. rewrite bool_decide_eq_true_2 by done. cbn [negb]. rewrite jd_self_eval.
  rewrite (bind_eval _ _ _ _ _ (count_chain js F HF (length (jd_heap js)) cs 1 _ [] 2 0 ltac:(cbn [tsizes foldr tsize] in Hlenh; fold (tsizes cs) in Hlenh; lia) H1 eq_refl)). apply Forall2_length in Hds. rewrite length_map in Hds. by rewrite Hds.
Qed.

(** The text: { "a" : [ 1 , true ] , "b" : { "c" : "x" } }, with and without blanks. *)
Definition jval_demo : jval := JObj [([97], JArr [JPrim [49]; JPrim [116; 114; 117; 101]]); ([98], JObj [([99], JStr [120])])].

Lemma json_dom_parse_value_witness :
  let str := [32] ++ print [32; 10] jval_demo ++ [] in
  exists js root, json_dom_parse str jd_blank = Some (0, js) /\ json_dom_root js = Some (Some root, js)
    /\ dom_forest str (length (jd_heap js)) (Some root) js = Some ([dom jval_demo], js)
    /\ json_dom_dump str js = Some (dump_tree 0 JSON_DOM_TYPE_OBJ 0 (dom jval_demo), js)
    /\ json_dom_get_array_size (Some root) js = Some ((-1, 0), js).
Proof.
  apply (json_dom_parse_value [32; 10] [32] [] jval_demo jd_blank).
  - by vm_compute.
  - repeat constructor; unfold is_blank; lia.
  - repeat constructor; unfold is_blank; lia.
  - constructor.
  - cbn. unfold nonzero, prim_ok, nonzero. repeat split; repeat (constructor; try done); by eexists _, _.
  - exact I.
  - done.
Defined.

(** ** Looking up a member *)
Fixpoint find_tree (name : list Z) (ds : list dtree) : option dtree :=
  match ds with
  | [] => None
  | DT x t cs as d :: ds =>
      if decide (x = name) then
        Some (match t, cs with
              | JSON_DOM_TYPE_ARRAY, _ => d
              | _, DT _ (JSON_DOM_TYPE_PRIM | JSON_DOM_TYPE_STR) _ as c :: _ => c
              | _, _ => d
              end)
      else find_tree name ds
  end.

Lemma text_of_length str v l x : text_of str v l = Some x -> Z.of_nat (length x) = l.
Proof.
  destruct v as [| |p]; cbn [text_of]; [destruct (Z.eqb_spec l 0); [|done]; intros [= <-]; by subst|done|]. destruct (Z.leb_spec 0 p); [|done]. destruct (Z.leb_spec 0 l); [|done]. cbn [andb]. destruct (Z.leb_spec (p + l) (Z.of_nat (length str))); [|done].
  intros [= <-]. rewrite length_subrange by lia. lia.
Qed.

Section Find.
Context (str : list Z) (js : json_dom) (F : list fnode).
Hypothesis HF : linked (jd_heap js) F.

(** The node of a tree. *)
Lemma dom_at_eval fuel v l t cs x ds p n : (tsizes cs <= fuel)%nat -> contains F n (lay p n (JT v l t cs)) -> text_of str v l = Some x -> Forall2 (reads str) cs ds -> dom_at str fuel n js = Some (DT x t ds, js).
Proof.
  intros Hfuel Hc Hx Hds. rewrite lay_eq in Hc. apply contains_cons in Hc as [Hn Hc]. destruct (linked_lookup _ _ _ _ HF Hn) as (m & Hm & Hok). unfold dom_at. rewrite (bind_eval _ _ _ _ _ (node_at_eval n js m Hm)).
  rewrite (bind_eval _ _ _ _ _ (node_text_eval _ _ _ _ _ js _ Hok Hx)), (no_first _ _ _ _ Hok), (no_type _ _ _ _ Hok). cbn [fn_children fn_type].
  destruct (read_chain str js F HF fuel cs ds n _ [] (S n) 0 0 Hfuel Hn eq_refl Hc Hds) as [E _]. by rewrite (bind_eval _ _ _ _ _ E).
Qed.

Lemma find_chain name big fuel : forall ts ds a fa cs0 n, (tsizes ts <= fuel)%nat -> (tsizes ts <= big)%nat -> F !! a = Some fa -> fn_children fa = cs0 ++ addrs n ts -> contains F n (lays a n ts) -> Forall2 (reads str) ts ds ->
  exists r, find_sibling str fuel (head (addrs n ts)) name js = Some (r, js) /\ match find_tree name ds with None => r = None | Some d => exists b, r = Some b /\ dom_at str big b js = Some (d, js) end.
Proof.
  induction fuel as [|fuel IH]; intros ts ds a fa cs0 n Hfuel Hbig Ha Hc Hcont Hr; (destruct ts as [|[v l ty cs] ts]; [inversion Hr; subst; by exists None|]); cbn [tsizes foldr tsize] in Hfuel, Hbig; fold (tsizes cs) (tsizes ts) in Hfuel, Hbig; [lia|].
  inversion Hr as [|t d ts' ds' Hd Hds]. subst. inversion Hd as [v' l' t' cs' x ds Hx Hcs]. subst. cbn [addrs head lays] in *. apply contains_app in Hcont as [Hcont Hcont2]. rewrite length_lay in Hcont2. pose proof Hcont as Hlay. rewrite lay_eq in Hcont. apply contains_cons in Hcont as [Hn Hcont].
  destruct (chain_next js F HF a fa cs0 n _ Ha Hc) as (m & Hm & _ & Hnext). destruct (linked_lookup _ _ _ _ HF Hn) as (m' & Hm' & Hok). rewrite Hm in Hm'. injection Hm' as <-.
  cbn [find_sibling]. rewrite (bind_eval _ _ _ _ _ (node_at_eval n js m Hm)). rewrite (no_len _ _ _ _ Hok). cbn [fn_len]. pose proof (text_of_length _ _ _ _ Hx) as Hl.
  rewrite (bind_eval _ _ _ (bool_decide (x = name)) js).
  2:{ destruct (Z.eqb_spec (Z.of_nat (length name)) l) as [El|El]; [by rewrite (bind_eval _ _ _ _ _ (node_text_eval _ _ _ _ _ js _ Hok Hx))|]. rewrite bool_decide_eq_false_2; [done|]. intros ->. congruence. }
  cbn [find_tree]. destruct (decide (x = name)) as [Ex|Ex]; [rewrite bool_decide_eq_true_2 by done|rewrite bool_decide_eq_false_2 by done].
  - assert (Hself : dom_at str big n js = Some (DT x ty ds, js)) by (eapply dom_at_eval; [|exact Hlay|done|done]; lia). rewrite (no_type _ _ _ _ Hok), (no_first _ _ _ _ Hok). cbn [fn_type fn_children].
    destruct cs as [|[v2 l2 t2 cs2] cs]; inversion Hcs as [|? d2 ? ds2 Hd2 Hds2]; subst; cbn [addrs head]; [destruct ty; (eexists; split; [reflexivity|]; by exists n)|].
    inversion Hd2 as [? ? ? ? x2 ds3 Hx2 Hcs2]. subst. cbn [lays] in Hcont. apply contains_app in Hcont as [Hlay2 _]. assert (Hchild : dom_at str big (S n) js = Some (DT x2 t2 ds3, js)) by (eapply dom_at_eval; [|exact Hlay2|done|done]; cbn [tsizes foldr tsize] in *; fold (tsizes cs2) in *; lia).
    rewrite lay_eq in Hlay2. apply contains_cons in Hlay2 as [Hn2 _]. destruct (linked_lookup _ _ _ _ HF Hn2) as (m2 & Hm2 & Hok2).
    assert (Hty2 : jn_type m2 = t2) by exact (no_type _ _ _ _ Hok2). destruct (bool_decide (ty = JSON_DOM_TYPE_ARRAY)) eqn:Earr.
    + apply bool_decide_eq_true in Earr as ->. eexists. split; [reflexivity|]. by exists n.
    + apply bool_decide_eq_false in Earr. rewrite (bind_eval _ _ _ _ _ (node_at_eval (S n) js m2 Hm2)). eexists. split; [reflexivity|]. unfold is_value. rewrite Hty2. destruct ty; try done; destruct t2; cbn; eauto.
  - rewrite Hnext. by apply (IH ts ds' a fa (cs0 ++ [n])); [lia|lia|done|rewrite <- app_assoc|..].
Qed.
End Find.

(** What [json_dom_find_child] finds at a member: the value, if it is a scalar, or else the node of
    the array or object; but for an object whose first member is a scalar, the key of that. *)
Definition found_member (m : list Z * jval) : dtree :=
  match snd m with
  | JStr _ | JPrim _ => dom (snd m)
  | JObj ((key, JStr s) :: _) => dom_member (key, JStr s)
  | JObj ((key, JPrim s) :: _) => dom_member (key, JPrim s)
  | _ => dom_member m
  end.
Fixpoint find_member (name : list Z) (ms : list (list Z * jval)) : option dtree :=
  match ms with [] => None | m :: ms => if decide (escaped (fst m) = name) then Some (found_member m) else find_member name ms end.

Lemma find_tree_members name ms : find_tree name (map dom_member ms) = find_member name ms.
Proof.
  induction ms as [|[key v] ms IH]; [done|]. cbn [map find_member fst]. destruct v as [s|s|vs|ms2]; cbn [dom_member snd fst dom find_tree]; rewrite IH; destruct (decide _); try done.
  destruct ms2 as [|[k2 [s|s|vs|ms3]] ms2]; done.
Qed.

(** In the tree of a parsed object, [json_dom_find_child] finds the first member with the
    given name, or nothing if there is none.  It returns the value of a scalar member, and the
    node of an array, of an empty object or of an object that starts with an array or object;
    of an object that starts with a scalar member it returns the key of that member instead. *)
Theorem json_dom_find_child_member (sp lead trail name : list Z) (ms : list (list Z * jval)) (js0 : json_dom)
  (Hlen : Z.of_nat (length (lead ++ print sp (JObj ms) ++ trail)) < 2 ^ 31) (Hsp : Forall is_blank sp) (Hlead : Forall is_blank lead) (Htrail : Forall is_blank trail)
  (Hok : val_ok (JObj ms)) (Hheap : jd_heap js0 = []) :
  let str := lead ++ print sp (JObj ms) ++ trail in
  exists js root r, json_dom_parse str js0 = Some (0, js) /\ json_dom_root js = Some (Some root, js)
    /\ json_dom_find_child str (Some root) name js = Some (r, js)
    /\ match find_member name ms with
       | None => r = None
       | Some d => exists node, r = Some node /\ dom_at str (length (jd_heap js)) node js = Some (d, js)
       end.
Proof.
  intros str. destruct (parse_printed sp lead trail (JObj ms) js0 Hlen Hsp Hlead Htrail Hok I Hheap) as (js & t & E & Hnode & HF & Hr). fold str in E, Hr. set (F := add [root_node] 0 [t]) in *.
  set (rf := fn_adds (addrs 1 [t]) root_node). assert (Hroot : F !! O = Some rf) by (unfold F; rewrite (add_lookup _ _ _ _ root_node) by done; by rewrite decide_True). destruct (linked_lookup _ _ _ _ HF Hroot) as (n & Hn & Hrok).
  assert (Efirst : jn_first_child n = Some 1%nat) by (by rewrite (no_first _ _ _ _ Hrok)). assert (Hlenh : length (jd_heap js) = S (tsizes [t])) by (rewrite (proj1 HF); unfold F; by rewrite length_add).
  destruct t as [v l ty cs]. assert (Hcont : contains F 1 (lays 0 1 [JT v l ty cs])) by apply (contains_add [root_node]). cbn [lays] in Hcont. rewrite app_nil_r, lay_eq in Hcont. apply contains_cons in Hcont as [H1 Hcont].
  destruct (linked_lookup _ _ _ _ HF H1) as (m & Hm & Hok1). change (dom (JObj ms)) with (DT [] JSON_DOM_TYPE_OBJ (map dom_member ms)) in Hr. inversion Hr as [? ? ? ? ? ? Hx Hds]. subst. cbn [tsizes foldr tsize] in Hlenh. fold (tsizes cs) in Hlenh.
  destruct (find_chain str js F HF name (length (jd_heap js)) (length (jd_heap js)) cs (map dom_member ms) 1 _ [] 2 ltac:(lia) ltac:(lia) H1 eq_refl Hcont Hds) as (r & Ef & Hres).
  exists js, 1%nat, r. split; [exact E|]. split; [unfold json_dom_root; rewrite jd_self_eval, Hnode; by rewrite (bind_eval _ _ _ _ _ (node_at_eval _ _ _ Hn)), Efirst|].
  split; [unfold json_dom_find_child; rewrite jd_self_eval; by rewrite (bind_eval _ _ _ _ _ (node_at_eval _ _ _ Hm)), (no_first _ _ _ _ Hok1)|]. rewrite <- find_tree_members. exact Hres.
Qed.

Lemma json_dom_find_child_member_witness :
  let str := [32] ++ print [] jval_demo ++ [] in
  exists js root r, json_dom_parse str jd_blank = Some (0, js) /\ json_dom_root js = Some (Some root, js)
    /\ json_dom_find_child str (Some root) [98] js = Some (r, js)
    /\ exists node, r = Some node /\ dom_at str (length (jd_heap js)) node js = Some (DT [99] JSON_DOM_TYPE_STR [DT [120] JSON_DOM_TYPE_STR []], js).
Proof.
  apply (json_dom_find_child_member [] [32] [] [98] [([97], JArr [JPrim [49]; JPrim [116; 114; 117; 101]]); ([98], JObj [([99], JStr [120])])] jd_blank).
  - by vm_compute.
  - constructor.
  - repeat constructor; unfold is_blank; lia.
  - constructor.
  - cbn. unfold nonzero, prim_ok, nonzero. repeat split; repeat (constructor; try done); by eexists _, _.
  - done.
Defined.
